(* ===== verification/_CoqProject ===== *)
-Q . S2P
Prelude.v
Pool.v
Steps.v
GoString.v
Httpx.v
Permissions.v
Store.v
ChatContext.v
EventLog.v
MessageRepo.v
MessageTheory.v
HistoryTheory.v
RateLimit.v
Ports.v
Social.v
Antispam.v
Payloads.v
MessagingService.v
MessagingTheory.v
Organise.v
OrganiseTheory.v
Folders.v
Topics.v
TopicsTheory.v
Hub.v
Phone.v
Security.v
Contacts.v
Cache.v
AuthStore.v
Auth.v
Recovery.v
AuthTheory.v
SignOutTheory.v
SignInRace.v
SignInTheory.v
Presence.v
Users.v
FeatureFlags.v
NetGuard.v
Http.v
SecretChat.v
SecretChatTheory.v
Polls.v
Calls.v
Roster.v
GroupsRepo.v
Groups.v
GroupsTheory.v
Comments.v
AdminTheory.v
Communities.v
Stories.v
StoriesTheory.v
Bots.v
BotKeyboard.v
BotObserver.v
BotFather.v
BotsTheory.v
BotFatherTheory.v
Jobs.v
Notifications.v
PushSenders.v
NotificationsTheory.v
News.v
NewsService.v
NewsTheory.v
DataRights.v
Operators.v
OperatorsTheory.v
Stickers.v
MediaRules.v
Media.v
MediaWorker.v
MediaTheory.v
Migrator.v
SearchIndex.v
Maintenance.v
Frames.v
ChatRoutes.v
