(* ===== verification/Prelude.v ===== *)
(** * SOBH messenger backend: verification development

    The development models the Go backend (src/backend/internal): what is stored, who
    may do what, what is sent out, and what concurrent requests can do to each other.
    Everything else of the repository (the Flutter and web clients, deployment files) is
    outside it.

    ** The program

    An HTTP request or a frame of a socket reaches a handler, which calls one service; a
    service checks permissions and limits, runs statements of its repository against
    PostgreSQL (usually inside [database.DB.InTx]), then publishes frames on the Redis bus
    and jobs on a NATS stream.  The realtime hub of each node delivers the frames to the
    sockets it holds.  What a frame misses, the per-user event log repairs: a device asks
    for the events after its cursor.  The worker runs the jobs (scanning and transcoding
    uploads, pushes, the search index) and a pass of housekeeping every quarter of an hour.
    Redis also holds rate-limit windows, presence, the session denylist and the flag
    snapshot; files are in an object store.

    ** Files

    A file whose name ends in Theory holds the theorems of the component before it; smaller
    components have theirs at the end of their own file.

    Generic layers:
    - [Prelude]: results, the program monad [prog S E A], tables as finite maps
      ([update_where], [delete_where], [rows_where], [order_by]), lemmas, tactics;
    - [Pool]: threads of requests and schedules, for statements that interleave;
    - [Steps]: [follows R m], a program takes its state along a preorder, with the tactic
      that walks through a handler;
    - [GoString]: Go strings, runes, [strconv], the text of a UUID;
    - [Httpx], [Http]: httpx/errors.go and JSON values; middleware.go, response.go,
      context.go.

    Messaging:
    - [Permissions], [ChatContext]: messaging/models.go and [ChatContextFor], the
      membership and permission snapshot every handler starts from;
    - [Store], [EventLog], [MessageRepo]: the tables (database/migrations), the
      event log and the repository (messaging/repository.go, topics.go), one
      definition per method, composed of one per statement;
    - [Payloads]: messaging/payloads.go; [MessagingService]: messaging/service.go
      against the interfaces of [Ports] (spam guard, limiter), which [Antispam]
      (antispam/antispam.go) and [RateLimit] (ratelimit) implement;
    - [MessageTheory], [HistoryTheory], [MessagingTheory]: sequence numbers without
      gaps and exactly-once sending in any interleaving, paging, clearing, who may
      send, edit and delete, what is sent out and what a refusal leaves behind;
    - [Organise], [OrganiseTheory]: messaging/organise.go, livelocation.go: forwarding,
      pins, archive, scheduled posts, live locations; [Folders]: folders.go and the chat
      list; [Topics], [TopicsTheory]: topics.go, forums;
    - [ChatRoutes]: messaging/handler.go, the routes of organise.go, groups/handler.go: the
      requests, from what they carry to what they answer;
    - [Hub], [Frames]: realtime/hub.go, client.go, handler.go: the sockets of a node and
      the protocol on them; [Presence]: presence/presence.go.

    Groups and the social graph:
    - [GroupsRepo], [Groups]: groups/repository.go, roles.go, service.go;
    - [Roster], [GroupsTheory], [AdminTheory]: the abstract membership the handlers
      refine, with its invariants, and the gate of every handler;
    - [Comments]: groups/comments.go; [Communities]: communities/communities.go;
    - [Social], [Contacts], [Users]: the tables of people, contacts/contacts.go,
      requests.go and the SQL function [privacy_allows], users/users.go;
    - [Stories], [StoriesTheory]: stories/stories.go.

    Identity:
    - [Phone], [Security], [Cache]: auth/phone.go, security/crypto.go, cache/redis.go;
    - [AuthStore], [Auth], [Recovery]: auth/repository.go, service.go, token.go,
      middleware.go, recovery.go;
    - [AuthTheory], [SignOutTheory], [SignInTheory], [SignInRace]: session tables,
      rotation and revocation, who can sign in, and concurrent code checks.

    Bots: [Bots] (bots/bots.go, service.go), [BotKeyboard] (keyboard.go, inline.go),
    [BotObserver] (observer.go), [BotFather] (botfather.go), [BotsTheory],
    [BotFatherTheory].

    News: [News] (news/repository.go), [NewsService] (news/service.go, gallery.go and the
    routes), [NewsTheory].

    Files and search: [MediaRules] (media/validation.go, storage keys), [Media]
    (media/repository.go, service.go, handler.go), [MediaWorker] (worker/media.go,
    media/scanner.go, imaging.go, ffmpeg.go), [MediaTheory]; [Stickers]
    (stickers/stickers.go); [SearchIndex] (search/service.go, opensearch.go).

    Operation: [Jobs] (bus/nats.go, the stream), [Notifications], [PushSenders],
    [NotificationsTheory] (notifications, worker/push.go), [Maintenance] (worker/worker.go),
    [Operators], [OperatorsTheory] (admin/admin.go), [DataRights] (datarights),
    [Migrator] (database/migrator.go), [FeatureFlags] (featureflags/flags.go), [NetGuard]
    (netguard/netguard.go).

    Further services: [Calls] (calls/calls.go), [Polls] (polls/polls.go), [SecretChat],
    [SecretChatTheory] (secretchat/secretchat.go).

    ** How the code is read

    - A [uuid.UUID] is a number; ids, slugs, tokens and random draws that the code
      mints are arguments.  An instant is a number of nanoseconds and [now] an
      explicit argument: a handler reads the clock once, and the servers, PostgreSQL and
      Redis share it, except in the rate limiter, where a call runs at Redis by Redis's
      clock some time after its caller read its own ([Arrival]).  A Go zero time or NULL
      is [None].
    - The database is a record of finite maps, a statement a function on it, and
      [in_tx] undoes the statements of a body that fails.  Unique and check
      constraints the code relies on are errors of the statement; foreign keys are
      modelled where the code tests for their violation.  A connection that fails
      and a cancelled context are not modelled, except in the passes of the worker.  Where
      SQL leaves the order of rows open the model takes one order and no theorem depends
      on it.
    - Each component has the record of the tables it touches; a table two components use
      is in a file they share ([Store], [Social], [AuthStore]).
    - Statements outside a transaction may interleave with those of other requests.
      A handler takes the commits of others as an argument ([before], [after],
      [meanwhile]), or meets them in its world before every access ([mw_meanwhile] of
      [Media]), or is written as a thread of [Pool], or has its steps taken apart where a
      theorem is about what comes between them ([gate_step] of [OperatorsTheory], the read
      of an account and its store in the cache).  Inside a transaction a row lock makes the
      steps atomic, except [Leave], which is a READ COMMITTED machine, and the count of
      [Join], which is of the snapshot its statement began with.
    - Numbers: BIGINT columns are integers; INTEGER columns that can overflow (spam
      scores, settings) are checked as [int4]; [wrap64] is Go's [int64] arithmetic
      where a client chooses the operands.  Lua's doubles are exact below 2^53.
    - Logs, metrics and IP columns are left out, and publications that fail, which
      the code only logs.  A cache or bus outage lasts for the whole of a call.
    - Code that is not in the repository is a class with the laws relied on, which are those
      it documents: [encoding/json] reads finite numbers and well-formed text, and what it
      writes of them reads back but for the sign of a zero; an address signed by the object
      store is of its key, a time and a lifetime; the search cluster finds, sooner or later
      and perhaps still, documents that were stored under their id, and a clause on a field
      holds of one value among several.  They are the JSON codec, JWT, Argon2id, SHA-256, HMAC-SHA1, [uuid.Parse], [net/url], [net.ParseIP],
      [net.ParseCIDR], Unicode case folding, times in text, the object store, clamd, the
      image and video tools, the OpenSearch client, JetStream's redelivery, SQL scripts.
      Witnesses instantiate each.

    ** What the theorems show

    - Invariants of the stored state, kept by every operation in any order: the
      message store, the session tables, the roster, calls, polls, contact requests, the
      newsroom, the media tables, the schema a sequence of deploys leaves.
    - Safety: who may act, in whose name, and what a refusal leaves unchanged; what
      signing out, banning, deleting an account and quarantining a file put out of reach.
    - Types: what is accepted of a typed payload decodes to the card that was sent, trimmed
      and in range.
    - Behaviour under interleaving: one winner for a duplicate send, a one-time
      code or a prekey; bounds on guesses, where they hold and where they do not.
    - Refinement and equivalence: group administration implements the abstract roster; the
      feed of stories and the check of one story let the same audience in.
    - Termination and liveness: catching up with the event log, paging a history through
      its route, collecting a bot's updates, that an authorised send succeeds and that a
      timer on messages is kept.
    - Round trips and bounds: phone numbers, password hashes, base64, UUID text,
      integer widths, the age of a cached flag, the parts of an upload.

    ** Fuel

    Recursion is over lists, save for: the UTF-8 decoder and the decimal printer, whose
    counters are bounded by the length of the input and the digits of the largest 64-bit
    number; the part size of an upload ([MediaRules]), doubled at most as often as a size has
    bits; the pages of a news push and the deliveries of a job ([Notifications], [Jobs]),
    bounded by the number of rows and by the stream's limit; and clients that read page by
    page, for which more pages than rows suffice.  Lemmas next to each show the bound is
    enough.

    ** Not modelled

    Logging, metrics, configuration, start-up wiring (app/app.go), the pool of connections
    (database/postgres.go), the creation of the search indices, the write pump and the pings
    of a socket, and the SMS and e-mail transports are glue or I/O; pixels and samples are
    opaque to the image and video tools.  The routes of auth/handler.go and
    bots/handler.go, and those at the end of calls.go, contacts.go, communities.go,
    notifications.go, polls.go, secretchat.go, stories.go and users.go decode a body and call
    the service that is modelled; the public directory of groups ([Discover]) is one query nothing else depends on. *)

From stdpp Require Import base tactics option list sorting gmap fin_maps strings.
From Stdlib Require Import ZArith Lia.

Set Default Goal Selector "!".

Declare Scope sobh_scope.
Delimit Scope sobh_scope with sobh.
Open Scope Z_scope.

(** Automation database of the development: lemmas on the generic SQL-like
    operations and on the error monad that close routine goals. *)
Create HintDb sobh.
Create Rewrite HintDb sobh.

(** ** Identifiers and instants

    A [uuid.UUID] is its 128-bit value as an [N]; [uuid.Nil] is 0.  The
    canonical textual form is fixed-width lower-case hexadecimal, so comparing
    two ids by [String()] is comparing the numbers.  An instant is a number of
    nanoseconds, a [time.Duration] too. *)
Abbreviation uuid := N (only parsing).
Definition uuid_nil : N := 0%N.
Abbreviation time := Z (only parsing).

Definition second : Z := 1000000000.
Definition minute : Z := 60 * second.
Definition hour : Z := 60 * minute.

(** Go's [int64]: the two's complement value of a result taken modulo 2^64. *)
Definition wrap64 (z : Z) : Z := (z + 2 ^ 63) mod 2 ^ 64 - 2 ^ 63.

Lemma wrap64_id z : - 2 ^ 63 ≤ z < 2 ^ 63 → wrap64 z = z.
Proof. intros Hz. unfold wrap64. rewrite Z.mod_small by lia. lia. Qed.

(** ** Results and programs

    A Go function that returns [(T, error)] and touches shared state is a
    [prog S E T]: from a state to an outcome and a state. *)
Inductive result (E A : Type) : Type :=
| Ok (a : A)
| Err (e : E).
Arguments Ok {E A} a.
Arguments Err {E A} e.

Definition is_Ok {E A} (r : result E A) : bool :=
  match r with Ok _ => true | Err _ => false end.

Definition prog (S E A : Type) : Type := S → result E A * S.

#[global] Instance prog_ret {S E} : MRet (prog S E) := λ A a s, (Ok a, s).
#[global] Instance prog_bind {S E} : MBind (prog S E) := λ A B f m s,
  match m s with
  | (Ok a, s') => f a s'
  | (Err e, s') => (Err e, s')
  end.

Definition fail {S E A} (e : E) : prog S E A := λ s, (Err e, s).
Definition gets {S E A} (f : S → A) : prog S E A := λ s, (Ok (f s), s).
Definition modify {S E} (f : S → S) : prog S E () := λ s, (Ok (), f s).
(** [if cond { return err }] *)
Definition fail_if {S E} (b : bool) (e : E) : prog S E () :=
  λ s, if b then (Err e, s) else (Ok (), s).
(** The value of an optional row, or the error for [pgx.ErrNoRows]. *)
Definition or_fail {S E A} (o : option A) (e : E) : prog S E A :=
  λ s, match o with Some a => (Ok a, s) | None => (Err e, s) end.
(** [db.InTx]: an error rolls every statement back. *)
Definition in_tx {S E A} (m : prog S E A) : prog S E A := λ s,
  match m s with
  | (Ok a, s') => (Ok a, s')
  | (Err e, _) => (Err e, s)
  end.
(** The caller's [if err != nil { ... }]: the handler decides, by the error,
    what the caller returns in its place. *)
Definition catch {S E E' A} (m : prog S E A) (h : E → prog S E' A) : prog S E' A := λ s,
  match m s with
  | (Ok a, s') => (Ok a, s')
  | (Err e, s') => h e s'
  end.
Definition map_err {S E E' A} (h : E → E') (m : prog S E A) : prog S E' A :=
  catch m (λ e, fail (h e)).
(** A [for ... range] whose body can fail. *)
Fixpoint for_each {S E A} (l : list A) (f : A → prog S E ()) : prog S E () :=
  match l with
  | [] => mret ()
  | x :: l => f x ≫= λ _, for_each l f
  end.
Fixpoint for_collect {S E A B} (l : list A) (f : A → prog S E B) : prog S E (list B) :=
  match l with
  | [] => mret []
  | x :: l => f x ≫= λ y, for_collect l f ≫= λ ys, mret (y :: ys)
  end.

Section prog_lemmas.
Context {S E : Type}.

(** One statement of a run. *)
Lemma bind_run {A B} (m : prog S E A) (f : A → prog S E B) s :
  (m ≫= f) s = match m s with (Ok a, s') => f a s' | (Err e, s') => (Err e, s') end.
Proof. done. Qed.
Lemma bind_Ok_inv {A B} (m : prog S E A) (f : A → prog S E B) s b s' :
  (m ≫= f) s = (Ok b, s') → ∃ a s1, m s = (Ok a, s1) ∧ f a s1 = (Ok b, s').
Proof.
  unfold mbind, prog_bind. destruct (m s) as [[a|e] s1] eqn:Hm; [|done].
  intros Hf. by exists a, s1.
Qed.

Lemma in_tx_Ok_inv {A} (m : prog S E A) s a s' :
  in_tx m s = (Ok a, s') → m s = (Ok a, s').
Proof. unfold in_tx. destruct (m s) as [[]]; congruence. Qed.

(** A failed transaction leaves the database untouched. *)
Lemma in_tx_Err {A} (m : prog S E A) s e s' : in_tx m s = (Err e, s') → s' = s.
Proof. unfold in_tx. destruct (m s) as [[]]; congruence. Qed.

Lemma in_tx_fst {A} (m : prog S E A) s : (in_tx m s).1 = (m s).1.
Proof. unfold in_tx. by destruct (m s) as [[]]. Qed.
Lemma map_err_snd {E' A} (h : E → E') (m : prog S E A) s : (map_err h m s).2 = (m s).2.
Proof. unfold map_err, catch. by destruct (m s) as [[]]. Qed.

Lemma fail_if_Ok_inv b (e : E) (s : S) u s' :
  fail_if b e s = (Ok u, s') → b = false ∧ s' = s.
Proof. unfold fail_if. destruct b; [done|]. by intros [= _ ->]. Qed.

Lemma or_fail_Ok_inv {A} (o : option A) (e : E) (s : S) a s' :
  or_fail o e s = (Ok a, s') → o = Some a ∧ s' = s.
Proof. unfold or_fail. destruct o; [|done]. by intros [= -> ->]. Qed.

(** A run that is known, by computation, to succeed. *)
Lemma run_is_Ok {A} (m : prog S E A) s :
  is_Ok (m s).1 = true → ∃ r, m s = (Ok r, (m s).2).
Proof. destruct (m s) as [[r|e] s']; [by exists r|done]. Qed.
End prog_lemmas.

(** [prog_inv] takes a successful run apart, one statement at a time. *)
Ltac prog_inv_step :=
  match goal with
  | H : in_tx _ _ = (Ok _, _) |- _ => apply in_tx_Ok_inv in H
  | H : (_ ≫= _) _ = (Ok _, _) |- _ =>
      let a := fresh "v" in let s := fresh "st" in let H1 := fresh "Hrun" in
      apply bind_Ok_inv in H; destruct H as (a & s & H1 & H)
  | H : fail_if _ _ _ = (Ok _, _) |- _ =>
      let Hc := fresh "Hcond" in
      apply fail_if_Ok_inv in H; destruct H as [Hc ->]
  | H : or_fail _ _ _ = (Ok _, _) |- _ =>
      let Hs := fresh "Hsome" in
      apply or_fail_Ok_inv in H; destruct H as [Hs ->]
  | H : gets _ _ = (Ok _, _) |- _ => injection H as <- <-
  | H : modify _ _ = (Ok _, _) |- _ => injection H as <- <-
  | H : mret _ _ = (Ok _, _) |- _ => injection H as <- <-
  | H : fail _ _ = (Ok _, _) |- _ => discriminate H
  end.
Ltac prog_inv := repeat (prog_inv_step; simpl in *).
(** [prog_run] unfolds the monad so that a run computes. *)
Ltac prog_run :=
  unfold map_err, in_tx, catch, mbind, mret, prog_bind, prog_ret, fail, gets, modify,
    fail_if, or_fail in *; simpl in *.

(** ** Tables

    A table is a finite map from its primary key to its row, and a statement is
    a function on it.  [update_where] is [UPDATE ... SET f WHERE P],
    [delete_where] is [DELETE ... WHERE P], [rows_where] the unordered rows of a
    [SELECT ... WHERE P], and [order_by]/[order_by_desc] with [take] its
    [ORDER BY ... LIMIT n]. *)
Section tables.
Context {K V : Type} `{Countable K}.
Implicit Types (m : gmap K V) (P : K → V → bool).

Definition update_where P (f : K → V → V) m : gmap K V :=
  map_imap (λ k v, Some (if P k v then f k v else v)) m.
Definition delete_where P m : gmap K V :=
  filter (λ kv, P kv.1 kv.2 = false) m.
Definition rows_where P m : list (K * V) :=
  filter (λ kv, P kv.1 kv.2 = true) (map_to_list m).
Definition count_where P m : Z := Z.of_nat (length (rows_where P m)).
(** The affected-rows count of an update addressed by primary key and a
    further condition: 1 or 0. *)
Definition hits P m (k : K) : bool :=
  match m !! k with Some v => P k v | None => false end.

Lemma lookup_update_where P f m k :
  update_where P f m !! k = (λ v, if P k v then f k v else v) <$> m !! k.
Proof. unfold update_where. rewrite map_lookup_imap. by destruct (m !! k). Qed.

Lemma lookup_update_where_Some P f m k v :
  update_where P f m !! k = Some v ↔
  ∃ v0, m !! k = Some v0 ∧ v = if P k v0 then f k v0 else v0.
Proof.
  rewrite lookup_update_where, fmap_Some. firstorder.
Qed.

Lemma lookup_update_where_None P f m k :
  update_where P f m !! k = None ↔ m !! k = None.
Proof. rewrite lookup_update_where. by destruct (m !! k). Qed.

Lemma dom_update_where P f m : dom (update_where P f m) = dom m.
Proof.
  apply set_eq. intros k. rewrite !elem_of_dom, lookup_update_where.
  by destruct (m !! k).
Qed.

(** An update whose condition holds of no row is no update. *)
Lemma update_where_id P f m :
  (∀ k v, m !! k = Some v → P k v = true → f k v = v) → update_where P f m = m.
Proof.
  intros Hid. apply map_eq. intros k. rewrite lookup_update_where.
  destruct (m !! k) as [v|] eqn:Hk; [|done]. simpl.
  destruct (P k v) eqn:HP; [|done]. by rewrite (Hid k v).
Qed.

Lemma lookup_delete_where P m k :
  delete_where P m !! k = (m !! k) ≫= (λ v, if P k v then None else Some v).
Proof.
  unfold delete_where. destruct (m !! k) as [v|] eqn:Hk; simpl.
  - destruct (P k v) eqn:HP.
    + apply map_lookup_filter_None. right. intros v' Hv' Hf. simpl in Hf. congruence.
    + by apply map_lookup_filter_Some.
  - apply map_lookup_filter_None. by left.
Qed.

Lemma lookup_delete_where_Some P m k v :
  delete_where P m !! k = Some v ↔ m !! k = Some v ∧ P k v = false.
Proof. unfold delete_where. by rewrite map_lookup_filter_Some. Qed.

Lemma elem_of_rows_where P m k v :
  (k, v) ∈ rows_where P m ↔ m !! k = Some v ∧ P k v = true.
Proof.
  unfold rows_where. rewrite list_elem_of_filter, elem_of_map_to_list. simpl. tauto.
Qed.

Lemma NoDup_rows_where P m : NoDup (rows_where P m).
Proof. apply NoDup_filter, NoDup_map_to_list. Qed.

Lemma NoDup_fst_rows_where P m : NoDup (rows_where P m).*1.
Proof.
  unfold rows_where. pose proof (NoDup_fst_map_to_list m) as Hnd. revert Hnd.
  generalize (map_to_list m). intros l. induction l as [|[k v] l IH]; [done|].
  simpl. intros [Hnk Hnd]%NoDup_cons. rewrite filter_cons. case_decide; [|by apply IH].
  simpl. constructor; [|by apply IH].
  intros [[k' v'] [-> Hin]]%list_elem_of_fmap. apply Hnk.
  apply list_elem_of_filter in Hin as [_ Hin]. by apply (list_elem_of_fmap_2 fst) in Hin.
Qed.

(** Two tables with the same selected rows select them in some order. *)
Lemma rows_where_Permutation P P' m m' :
  (∀ k v, m !! k = Some v ∧ P k v = true ↔ m' !! k = Some v ∧ P' k v = true) →
  rows_where P m ≡ₚ rows_where P' m'.
Proof.
  intros Heq. apply NoDup_Permutation; [apply NoDup_rows_where..|].
  intros [k v]. rewrite !elem_of_rows_where. apply Heq.
Qed.

Lemma rows_where_nil P m :
  (∀ k v, m !! k = Some v → P k v = true → False) → rows_where P m = [].
Proof.
  intros Hnone. destruct (rows_where P m) as [|[k v] l] eqn:Hrows; [done|]. exfalso.
  assert ((k, v) ∈ rows_where P m) as [Hk HP]%elem_of_rows_where by (rewrite Hrows; by left).
  by eapply Hnone.
Qed.

Lemma count_where_nonneg P m : 0 ≤ count_where P m.
Proof. unfold count_where. lia. Qed.

Lemma count_where_0 P m :
  count_where P m = 0 ↔ ∀ k v, m !! k = Some v → P k v = false.
Proof.
  unfold count_where. split.
  - intros Hlen k v Hk. destruct (P k v) eqn:HP; [|done].
    assert ((k, v) ∈ rows_where P m) as Hin by by apply elem_of_rows_where.
    destruct (rows_where P m); [by apply not_elem_of_nil in Hin|simpl in Hlen; lia].
  - intros Hall. destruct (rows_where P m) as [|[k v] l] eqn:Hrows; [done|].
    assert ((k, v) ∈ rows_where P m) as Hin by (rewrite Hrows; by left).
    apply elem_of_rows_where in Hin as [Hk HP]. by rewrite (Hall k v Hk) in HP.
Qed.

Lemma count_where_insert_new P m k v :
  m !! k = None → count_where P (<[k := v]> m) = count_where P m + (if P k v then 1 else 0).
Proof.
  intros Hk. unfold count_where, rows_where. rewrite map_to_list_insert by done.
  rewrite filter_cons. simpl. destruct (P k v); case_decide; simpl; [lia|congruence|congruence|lia].
Qed.

(** Rewriting one row moves the count by what the row gains and loses. *)
Lemma count_where_insert P m k v :
  count_where P (<[k := v]> m) =
    count_where P m - (if hits P m k then 1 else 0) + (if P k v then 1 else 0).
Proof.
  unfold hits. destruct (m !! k) as [v0|] eqn:Hk.
  - rewrite <-(insert_delete_eq m k), count_where_insert_new by by rewrite lookup_delete_eq.
    rewrite <-(insert_delete_id m k v0) at 2 by done.
    rewrite count_where_insert_new by by rewrite lookup_delete_eq. lia.
  - rewrite count_where_insert_new by done. lia.
Qed.

Lemma hits_true P m k : hits P m k = true ↔ ∃ v, m !! k = Some v ∧ P k v = true.
Proof.
  unfold hits. destruct (m !! k); split; [naive_solver|naive_solver|done|naive_solver].
Qed.
End tables.

Lemma elem_of_fst_rows_where {K V} `{Countable K} (P : K → V → bool) (m : gmap K V) k :
  k ∈ (rows_where P m).*1 ↔ P k <$> m !! k = Some true.
Proof.
  rewrite list_elem_of_fmap, fmap_Some. split.
  - intros [[k' v] [-> [Hk HP]%elem_of_rows_where]]. by exists v.
  - intros (v & Hk & HP). exists (k, v). split; [done|]. by apply elem_of_rows_where.
Qed.

(** Leaving one row out of the count. *)
Lemma count_where_delete {K V} `{Countable K} (P : K → V → bool) (m : gmap K V) k :
  count_where P m = count_where P (delete k m) + (if hits P m k then 1 else 0).
Proof.
  unfold hits. destruct (m !! k) as [v|] eqn:Hk; [|rewrite delete_id by done; lia].
  rewrite <-(insert_delete_id m k v) at 1 by done.
  by rewrite count_where_insert_new by by rewrite lookup_delete_eq.
Qed.

(** The count only looks at which keys are selected. *)
Lemma count_where_ext {K V V'} `{Countable K} (P : K → V → bool) (P' : K → V' → bool)
    (m : gmap K V) (m' : gmap K V') :
  (∀ k, P k <$> m !! k = Some true ↔ P' k <$> m' !! k = Some true) →
  count_where P m = count_where P' m'.
Proof.
  intros Heq. unfold count_where. f_equal.
  rewrite <-(length_fmap fst (rows_where P m)), <-(length_fmap fst (rows_where P' m')).
  apply Permutation_length, NoDup_Permutation; [apply NoDup_fst_rows_where..|].
  intros k. rewrite !elem_of_fst_rows_where. apply Heq.
Qed.

(** Two selections that only differ at one key. *)
Lemma count_where_change {K V V'} `{Countable K} (P : K → V → bool) (P' : K → V' → bool)
    (m : gmap K V) (m' : gmap K V') k :
  (∀ k', k' ≠ k → P k' <$> m !! k' = Some true ↔ P' k' <$> m' !! k' = Some true) →
  count_where P' m' = count_where P m - (if hits P m k then 1 else 0) + (if hits P' m' k then 1 else 0).
Proof.
  intros Heq. rewrite (count_where_delete P m k), (count_where_delete P' m' k).
  assert (count_where P (delete k m) = count_where P' (delete k m')) as ->; [|lia].
  apply count_where_ext. intros k'. destruct (decide (k' = k)) as [->|Hne].
  - by rewrite !lookup_delete_eq.
  - rewrite !lookup_delete_ne by done. by apply Heq.
Qed.

(** Selecting among rows whose keys share a first component. *)
Lemma NoDup_snd_rows_where {K1 K2 V} `{Countable K1} `{Countable K2} (P : K1 * K2 → V → bool) (m : gmap (K1 * K2) V) i :
  (∀ k v, P k v = true → k.1 = i) → NoDup ((λ r : (K1 * K2) * V, r.1.2) <$> rows_where P m).
Proof.
  intros HP. pose proof (NoDup_fst_rows_where P m) as Hfst.
  assert (∀ x, x ∈ rows_where P m → x.1.1 = i) as Hids by (intros [k v] [_ Hk]%elem_of_rows_where; by eapply HP).
  revert Hfst Hids. generalize (rows_where P m). intros l. induction l as [|[[a b] v] l IH]; [constructor|]. rewrite !fmap_cons. simpl.
  intros [Hk Hfst]%NoDup_cons Hids. constructor; [|apply IH; [done|]; intros x Hx; apply Hids; by right].
  intros ([[a' b'] v'] & Heq & Hin)%list_elem_of_fmap. simpl in Heq. subst b'. apply Hk.
  assert (a = a') as ->.
  { pose proof (Hids _ (list_elem_of_here _ _)). pose proof (Hids _ (list_elem_of_further _ _ _ Hin)). simpl in *. congruence. }
  by apply (list_elem_of_fmap_2 fst) in Hin.
Qed.
Lemma omap_ids_NoDup {A B K} (f : A → option B) (ka : A → K) (kb : B → K) (l : list A) :
  (∀ x y, f x = Some y → kb y = ka x) → NoDup (ka <$> l) → NoDup (kb <$> omap f l).
Proof.
  intros Hk. induction l as [|x l IH]; [constructor|]. rewrite fmap_cons. intros [Hx Hnd]%NoDup_cons. simpl.
  destruct (f x) as [y|] eqn:Hf; [|by apply IH]. rewrite fmap_cons. constructor; [|by apply IH].
  intros (y' & Heq & (x' & Hx' & Hf')%list_elem_of_omap)%list_elem_of_fmap. apply Hx.
  rewrite <-(Hk x y), Heq, (Hk x' y') by done. by apply list_elem_of_fmap_2.
Qed.
(** A table that selects no key anew counts no more. *)
Lemma count_where_le {K V} `{Countable K} (P : K → V → bool) (m m' : gmap K V) :
  (∀ k v', m' !! k = Some v' → P k v' = true → ∃ v, m !! k = Some v ∧ P k v = true) → count_where P m' ≤ count_where P m.
Proof.
  intros Hle. unfold count_where. apply inj_le.
  rewrite <-(length_fmap fst (rows_where P m)), <-(length_fmap fst (rows_where P m')).
  apply submseteq_length, NoDup_submseteq; [apply NoDup_fst_rows_where|].
  intros k. rewrite !elem_of_fst_rows_where, !fmap_Some. intros (v' & Hv' & HP). destruct (Hle k v' Hv') as (v & Hv & HPv); [done|].
  by exists v.
Qed.

#[export] Hint Rewrite @lookup_update_where @lookup_delete_where : sobh.

(** ** Ordered selections *)
Section ordering.
Context {A : Type} (key : A → Z).
Implicit Types (l : list A).

Definition key_le (x y : A) : Prop := key x ≤ key y.
Definition key_lt (x y : A) : Prop := key x < key y.
#[global] Instance key_le_dec x y : Decision (key_le x y) := Z_le_dec _ _.

(** [ORDER BY key] *)
Definition order_by l : list A := merge_sort key_le l.

Lemma order_by_Permutation l : order_by l ≡ₚ l.
Proof. apply merge_sort_Permutation. Qed.

Lemma elem_of_order_by l x : x ∈ order_by l ↔ x ∈ l.
Proof. by rewrite order_by_Permutation. Qed.

Lemma order_by_sorted l : StronglySorted key_le (order_by l).
Proof.
  apply StronglySorted_merge_sort.
  - intros x y z. unfold key_le. lia.
  - intros x y. unfold key_le. lia.
Qed.

Lemma StronglySorted_strict l :
  NoDup (key <$> l) → StronglySorted key_le l → StronglySorted key_lt l.
Proof.
  induction l as [|x l IH]; [constructor|]. rewrite fmap_cons.
  intros [Hx Hnd]%NoDup_cons [Hs Hle]%StronglySorted_inv. constructor; [by apply IH|].
  rewrite Forall_forall in Hle |- *. intros y Hy. specialize (Hle y Hy).
  unfold key_le, key_lt in *. destruct (decide (key x = key y)) as [Heq|]; [|lia].
  exfalso. apply Hx. rewrite Heq. by apply list_elem_of_fmap_2.
Qed.

(** When the keys are distinct, the order is strict. *)
Lemma order_by_strict l : NoDup (key <$> l) → StronglySorted key_lt (order_by l).
Proof.
  intros Hnd. apply StronglySorted_strict; [|apply order_by_sorted].
  by rewrite order_by_Permutation.
Qed.

(** A strictly sorted list is determined by its elements. *)
Lemma StronglySorted_strict_unique l1 l2 :
  StronglySorted key_lt l1 → StronglySorted key_lt l2 → (∀ x, x ∈ l1 ↔ x ∈ l2) → l1 = l2.
Proof.
  revert l2. induction l1 as [|x l1 IH]; intros [|y l2] Hs1 Hs2 Hin.
  - done.
  - exfalso. by apply (not_elem_of_nil y), Hin; left.
  - exfalso. by apply (not_elem_of_nil x), Hin; left.
  - apply StronglySorted_inv in Hs1 as [Hs1 Hx]. apply StronglySorted_inv in Hs2 as [Hs2 Hy].
    rewrite Forall_forall in Hx, Hy. unfold key_lt in Hx, Hy.
    assert (x = y) as ->.
    { destruct (proj1 (elem_of_cons l2 x y) (proj1 (Hin x) (list_elem_of_here _ _))) as [|H1]; [done|].
      destruct (proj1 (elem_of_cons l1 y x) (proj2 (Hin y) (list_elem_of_here _ _))) as [|H2]; [done|].
      specialize (Hx y H2). specialize (Hy x H1). lia. }
    f_equal. apply IH; [done|done|]. intros z. split; intros Hz.
    + destruct (proj1 (elem_of_cons l2 z y) (proj1 (Hin z) (list_elem_of_further _ _ _ Hz))) as [->|]; [|done].
      specialize (Hx y Hz). lia.
    + destruct (proj1 (elem_of_cons l1 z y) (proj2 (Hin z) (list_elem_of_further _ _ _ Hz))) as [->|]; [|done].
      specialize (Hy y Hz). lia.
Qed.

Lemma StronglySorted_key_lt_filter (P : A → Prop) `{∀ x, Decision (P x)} l :
  StronglySorted key_lt l → StronglySorted key_lt (filter P l).
Proof.
  induction 1 as [|x l Hs IH Hall]; [constructor|]. rewrite filter_cons. case_decide; [|done].
  constructor; [done|]. rewrite Forall_forall in Hall |- *. intros y [_ Hy]%list_elem_of_filter.
  by apply Hall.
Qed.

(** Cutting a strictly sorted list just after one of its elements. *)
Lemma filter_after_split l1 x l2 :
  StronglySorted key_lt (l1 ++ x :: l2) →
  filter (λ y, key x < key y) (l1 ++ x :: l2) = l2.
Proof.
  intros Hs. apply StronglySorted_strict_unique.
  - by apply StronglySorted_key_lt_filter.
  - induction l1 as [|z l1 IH]; simpl in Hs; apply StronglySorted_inv in Hs as [Hs _]; [done|by apply IH].
  - intros y. rewrite list_elem_of_filter, elem_of_app, elem_of_cons. split.
    + intros [Hlt [Hy|[->|Hy]]]; [|lia|done]. exfalso.
      induction l1 as [|z l1 IH]; [by apply not_elem_of_nil in Hy|].
      simpl in Hs. apply StronglySorted_inv in Hs as [Hs Hall].
      apply elem_of_cons in Hy as [->|Hy]; [|by apply IH].
      rewrite Forall_forall in Hall. unfold key_lt in Hall.
      assert (key z < key x) by (apply Hall; set_solver). lia.
    + intros Hy. split; [|tauto].
      induction l1 as [|z l1 IH]; simpl in Hs; apply StronglySorted_inv in Hs as [Hs Hall]; [|by apply IH].
      rewrite Forall_forall in Hall. by apply Hall.
Qed.

Lemma StronglySorted_key_fmap l : StronglySorted key_lt l → StronglySorted Z.lt (key <$> l).
Proof.
  induction 1 as [|x l Hs IH Hall]; [constructor|]. rewrite fmap_cons. constructor; [done|].
  apply Forall_fmap. eapply Forall_impl; [exact Hall|done].
Qed.
End ordering.

Lemma StronglySorted_weaken {A} (R1 R2 : relation A) l :
  (∀ x y, R1 x y → R2 x y) → StronglySorted R1 l → StronglySorted R2 l.
Proof.
  intros HR. induction 1 as [|x l Hs IH Hall]; constructor; [done|].
  eapply Forall_impl; [exact Hall|]. intros y. apply HR.
Qed.

Lemma StronglySorted_seqZ m n : StronglySorted Z.lt (seqZ m n).
Proof.
  destruct (Z_le_dec 0 n) as [Hn|]; [|rewrite seqZ_nil by lia; constructor].
  revert m. pattern n. apply natlike_ind; [| |done].
  - intros m. constructor.
  - intros k Hk IH m. rewrite seqZ_cons by lia. replace (Z.pred (Z.succ k)) with k by lia.
    constructor; [apply IH|]. rewrite Forall_forall. intros y [? ?]%elem_of_seqZ. lia.
Qed.

#[export] Hint Rewrite @elem_of_order_by : sobh.

(** [ORDER BY key DESC] *)
Definition order_by_desc {A} (key : A → Z) (l : list A) : list A := order_by (λ x, - key x) l.

(** [ORDER BY k1, k2, ...] *)
Fixpoint lex_le (ks1 ks2 : list Z) : bool :=
  match ks1, ks2 with
  | k1 :: ks1, k2 :: ks2 => (k1 <? k2) || ((k1 =? k2) && lex_le ks1 ks2)
  | [], _ => true
  | _, [] => false
  end.
Definition order_by_keys {A} (keys : A → list Z) (l : list A) : list A :=
  merge_sort (λ x y, Is_true (lex_le (keys x) (keys y))) l.
Lemma order_by_keys_Permutation {A} (keys : A → list Z) l : order_by_keys keys l ≡ₚ l.
Proof. apply merge_sort_Permutation. Qed.
Lemma elem_of_order_by_keys {A} (keys : A → list Z) l x : x ∈ order_by_keys keys l ↔ x ∈ l.
Proof. by rewrite order_by_keys_Permutation. Qed.
Lemma lex_le_total ks1 ks2 : lex_le ks1 ks2 = true ∨ lex_le ks2 ks1 = true.
Proof.
  revert ks2. induction ks1 as [|k1 ks1 IH]; intros [|k2 ks2]; simpl; auto.
  destruct (Z.lt_trichotomy k1 k2) as [Hk|[->|Hk]].
  - left. by rewrite (proj2 (Z.ltb_lt _ _)).
  - rewrite Z.ltb_irrefl, Z.eqb_refl. simpl. apply IH.
  - right. by rewrite (proj2 (Z.ltb_lt _ _)).
Qed.
Lemma lex_le_trans ks1 ks2 ks3 : lex_le ks1 ks2 = true → lex_le ks2 ks3 = true → lex_le ks1 ks3 = true.
Proof.
  revert ks2 ks3. induction ks1 as [|k1 ks1 IH]; intros [|k2 ks2] [|k3 ks3]; simpl; try done.
  rewrite !orb_true_iff, !andb_true_iff, !Z.ltb_lt, !Z.eqb_eq.
  intros [H1|[-> H1]] [H2|[-> H2]]; [left; lia|by left|by left|right]. split; [done|by eapply IH].
Qed.
Lemma order_by_keys_sorted {A} (keys : A → list Z) l :
  StronglySorted (λ x y, Is_true (lex_le (keys x) (keys y))) (order_by_keys keys l).
Proof.
  set (R := λ x y, Is_true (lex_le (keys x) (keys y))).
  assert (Transitive R).
  { intros x y z Hxy%Is_true_true Hyz%Is_true_true. apply Is_true_true. by eapply lex_le_trans. }
  assert (Total R).
  { intros x y. destruct (lex_le_total (keys x) (keys y)) as [Hle|Hle]; [left|right]; by apply Is_true_true. }
  apply (StronglySorted_merge_sort R).
Qed.

(** ** Reading by pages

    A reader that asks for a page, takes the cursor from the page's last entry
    and asks again until a page is empty.  [whole c] is everything after the
    cursor [c], [fetch c] the page. *)
Section paging.
Context {A C : Type} (key : A → Z) (next : A → C).

Fixpoint pages (fetch : C → list A) (fuel : nat) (c : C) : list A :=
  match fuel with
  | O => []
  | S n =>
      match last (fetch c) with
      | None => []
      | Some x => fetch c ++ pages fetch n (next x)
      end
  end.

Lemma pages_complete (whole : C → list A) (n fuel : nat) (c : C) :
  (0 < n)%nat →
  (∀ c, StronglySorted (key_lt key) (whole c)) →
  (∀ c x, x ∈ whole c → whole (next x) = filter (λ y, key x < key y) (whole c)) →
  (length (whole c) < fuel)%nat →
  pages (λ c, take n (whole c)) fuel c = whole c.
Proof.
  intros Hn Hsorted Hnext. revert c. induction fuel as [|fuel IH]; intros c Hlen; [lia|].
  simpl. destruct (last (take n (whole c))) as [x|] eqn:Hlast.
  - apply last_Some in Hlast as [l Hl].
    assert (whole c = l ++ x :: drop n (whole c)) as Hsplit.
    { rewrite <-(take_drop n (whole c)) at 1. rewrite Hl, <-app_assoc. done. }
    assert (whole (next x) = drop n (whole c)) as Hrest.
    { rewrite (Hnext c x) by (rewrite Hsplit; set_solver). rewrite Hsplit at 1.
      apply filter_after_split. rewrite <-Hsplit. apply Hsorted. }
    rewrite IH.
    + by rewrite Hrest, take_drop.
    + rewrite Hrest, length_drop. apply (f_equal length) in Hsplit.
      rewrite length_app in Hsplit. simpl in Hsplit. lia.
  - apply last_None in Hlast. destruct (whole c); [done|]. destruct n; [lia|done].
Qed.
End paging.
