(* ===== verification/Pool.v ===== *)
(** * Interleavings

    A pool of threads over one world: a thread is a request at one of its
    statements, a schedule says whose turn it is and what else happens between
    turns.  The lemmas carry an invariant over any schedule and run the rounds of a
    given one. *)

From stdpp Require Import base tactics list.
From Stdlib Require Import ZArith Lia.
From S2P Require Import Prelude.

Set Default Goal Selector "!".
Open Scope Z_scope.

Section pool.
Context {T W : Type} (step : T → W → T * W).

(** A turn of a thread, or something else that happens to the world. *)
Inductive turn := Thread (i : nat) | Meanwhile (f : W → W).

Definition take_turn (c : list T * W) (s : turn) : list T * W :=
  match s with
  | Thread i =>
      match c.1 !! i with
      | Some t => let '(t', w') := step t c.2 in (<[i := t']> c.1, w')
      | None => c
      end
  | Meanwhile f => (c.1, f c.2)
  end.
Definition run_schedule (sched : list turn) (c : list T * W) : list T * W := foldl take_turn c sched.

(** How many threads satisfy [p]. *)
Definition tally (p : T → bool) (l : list T) : Z := foldr (λ t n, if p t then n + 1 else n) 0 l.
Definition one_if (b : bool) : Z := if b then 1 else 0.

Lemma tally_insert p (l : list T) i t t' :
  l !! i = Some t → tally p (<[i := t']> l) = tally p l - one_if (p t) + one_if (p t').
Proof.
  unfold one_if. revert i. induction l as [|x l IH]; intros [|i]; simpl; [done|done| |].
  - intros [= ->]. destruct (p t), (p t'); lia.
  - intros Hi. rewrite (IH _ Hi). destruct (p x); lia.
Qed.
Lemma tally_nonneg p (l : list T) : 0 ≤ tally p l.
Proof. induction l as [|x l IH]; simpl; [lia|]. destruct (p x); lia. Qed.
Lemma tally_none p (l : list T) : Forall (λ t, p t = false) l → tally p l = 0.
Proof. induction 1 as [|x l Hx _ IH]; simpl; [done|]. by rewrite Hx. Qed.
Lemma tally_all p (l : list T) : Forall (λ t, p t = true) l → tally p l = Z.of_nat (length l).
Proof. induction 1 as [|x l Hx _ IH]; simpl; [done|]. rewrite Hx. lia. Qed.
Lemma tally_app p (l k : list T) : tally p (l ++ k) = tally p l + tally p k.
Proof. induction l as [|x l IH]; simpl; [lia|]. destruct (p x); lia. Qed.

(** What may happen meanwhile. *)
Definition meanwhile (P : (W → W) → Prop) (s : turn) : Prop :=
  match s with Thread _ => True | Meanwhile f => P f end.
Lemma threads_only P (turns : list nat) : Forall (meanwhile P) (Thread <$> turns).
Proof. apply Forall_fmap, Forall_true. done. Qed.

(** An invariant kept by every turn of a thread and by what happens meanwhile. *)
Lemma run_schedule_keeps (I : list T → W → Prop) (env : (W → W) → Prop) :
  (∀ l w i t, I l w → l !! i = Some t → I (<[i := (step t w).1]> l) (step t w).2) →
  (∀ l w f, I l w → env f → I l (f w)) →
  ∀ sched c, Forall (meanwhile env) sched →
  I c.1 c.2 → I (run_schedule sched c).1 (run_schedule sched c).2.
Proof.
  intros Hstep Henv sched c Hall. revert c. induction Hall as [|s sched Hs Hall IH]; intros c Hc; [done|].
  simpl. apply IH. destruct s as [i|f]; simpl; [|by apply Henv].
  destruct (c.1 !! i) as [t|] eqn:Hi; [|done]. specialize (Hstep _ _ _ _ Hc Hi).
  by destruct (step t c.2).
Qed.

(** One turn each, in order, for the threads between [pre] and [post]. *)
Lemma run_round (R : W → Prop) (Q : T → T → Prop) (h : W → W) pre l post w :
  (∀ t w', t ∈ l → R w' → ∃ t', step t w' = (t', h w') ∧ Q t t' ∧ R (h w')) → R w →
  ∃ l', run_schedule (Thread <$> seq (length pre) (length l)) (pre ++ l ++ post, w) =
          (pre ++ l' ++ post, Nat.iter (length l) h w) ∧ Forall2 Q l l'.
Proof.
  unfold run_schedule. revert pre w. induction l as [|t l IH]; intros pre w Hstep Hw; [by exists []|].
  destruct (Hstep t w) as (t' & Ht & HQ & Hw'); [apply list_elem_of_here|done|].
  destruct (IH (pre ++ [t']) (h w)) as (l' & Hrun & Hall); [intros u w' Hu; by apply Hstep, list_elem_of_further|done|].
  exists (t' :: l'). split; [|by constructor]. rewrite length_app in Hrun. simpl in *.
  rewrite Nat.add_comm in Hrun. simpl in Hrun.
  rewrite lookup_app_r, Nat.sub_diag by done. simpl. rewrite Ht.
  replace (<[length pre := t']> (pre ++ t :: l ++ post)) with ((pre ++ [t']) ++ l ++ post)
    by (rewrite insert_app_r_alt, Nat.sub_diag by done; by rewrite <-app_assoc).
  etransitivity; [exact Hrun|]. rewrite <-app_assoc. f_equal. by rewrite <-Nat.iter_succ_r.
Qed.
(** Two turns of the last thread. *)
Lemma last_twice l t w t1 w1 t2 w2 n :
  length l = n → step t w = (t1, w1) → step t1 w1 = (t2, w2) →
  foldl take_turn (l ++ [t], w) (Thread <$> [n; n]) = (l ++ [t2], w2).
Proof.
  intros <- H1 H2. simpl. rewrite lookup_app_r, Nat.sub_diag by done. simpl. rewrite H1.
  rewrite insert_app_r_alt, Nat.sub_diag by done. simpl. rewrite lookup_app_r, Nat.sub_diag by done. simpl. rewrite H2.
  by rewrite insert_app_r_alt, Nat.sub_diag by done.
Qed.
End pool.
Arguments turn : clear implicits.
Arguments Thread {W}.
Arguments Meanwhile {W}.
