(* ===== verification/Steps.v ===== *)
(** * What a program may do to its state

    [follows R m]: every run of [m], successful or not, takes its state along the
    preorder [R].  The lemmas take a handler apart statement by statement, so that a
    component only has to say what each of its statements does. *)

From stdpp Require Import base tactics list.
From S2P Require Import Prelude.

Set Default Goal Selector "!".

Section follows.
Context {S : Type} (R : S → S → Prop) `{!PreOrder R}.

Definition follows {E A} (m : prog S E A) : Prop := ∀ s, R s (m s).2.

Context {E : Type}.

Lemma follows_ret {A} (a : A) : follows (mret a : prog S E A).
Proof. intros s. simpl. reflexivity. Qed.
Lemma follows_fail {A} (e : E) : follows (fail e : prog S E A).
Proof. intros s. simpl. reflexivity. Qed.
Lemma follows_gets {A} (f : S → A) : follows (gets f : prog S E A).
Proof. intros s. simpl. reflexivity. Qed.
Lemma follows_fail_if b (e : E) : follows (fail_if b e : prog S E ()).
Proof. intros s. unfold fail_if. destruct b; simpl; reflexivity. Qed.
Lemma follows_or_fail {A} (o : option A) (e : E) : follows (or_fail o e : prog S E A).
Proof. intros s. unfold or_fail. destruct o; simpl; reflexivity. Qed.
(** A statement that only answers. *)
Lemma follows_const {A} (f : S → result E A) : follows (λ s, (f s, s)).
Proof. intros s. simpl. reflexivity. Qed.
Lemma follows_modify (f : S → S) : (∀ s, R s (f s)) → follows (modify f : prog S E ()).
Proof. intros Hf s. simpl. apply Hf. Qed.
Lemma follows_bind {A B} (m : prog S E A) (f : A → prog S E B) :
  follows m → (∀ a, follows (f a)) → follows (m ≫= f).
Proof.
  intros Hm Hf s. rewrite bind_run. specialize (Hm s). destruct (m s) as [[a|e] s']; simpl in *; [|done].
  etransitivity; [exact Hm|apply Hf].
Qed.
Lemma follows_in_tx {A} (m : prog S E A) : follows m → follows (in_tx m).
Proof. intros Hm s. specialize (Hm s). unfold in_tx. destruct (m s) as [[a|e] s']; simpl in *; [done|reflexivity]. Qed.
Lemma follows_map_err {E' A} (h : E → E') (m : prog S E A) : follows m → follows (map_err h m).
Proof. intros Hm s. specialize (Hm s). unfold map_err, catch. by destruct (m s) as [[a|e] s']. Qed.
Lemma follows_for_each {A} (l : list A) (f : A → prog S E ()) : (∀ a, follows (f a)) → follows (for_each l f).
Proof. intros Hf. induction l as [|a l IH]; [apply follows_ret|]. simpl. by apply follows_bind. Qed.
Lemma follows_for_collect {A B} (l : list A) (f : A → prog S E B) : (∀ a, follows (f a)) → follows (for_collect l f).
Proof.
  intros Hf. induction l as [|a l IH]; [apply follows_ret|]. simpl.
  apply follows_bind; [apply Hf|]. intros b. apply follows_bind; [done|]. intros bs. apply follows_ret.
Qed.

(** A sequence of operations. *)
Lemma follows_foldl {O} (run : O → S → S) (ok : O → Prop) (ops : list O) s :
  (∀ o s, ok o → R s (run o s)) → Forall ok ops → R s (foldl (λ s o, run o s) s ops).
Proof.
  intros Hrun Hok. revert s. induction Hok as [|o ops Ho _ IH]; intros s; simpl; [reflexivity|].
  etransitivity; [by apply Hrun|apply IH].
Qed.
End follows.

#[export] Hint Resolve follows_ret follows_fail follows_gets follows_fail_if follows_or_fail follows_const
  follows_in_tx follows_map_err follows_for_each follows_for_collect : follows.

(** [follow_steps] walks through a handler; what is left are its statements. *)
Ltac follow_step :=
  match goal with
  | |- follows _ (_ ≫= _) => apply follows_bind; [typeclasses eauto| |intros ?]
  | |- follows _ (in_tx _) => apply follows_in_tx; [typeclasses eauto|]
  | |- follows _ (map_err _ _) => apply follows_map_err
  | |- follows _ (for_each _ _) => apply follows_for_each; [typeclasses eauto|intros ?]
  | |- follows _ (modify _) => apply follows_modify; intros ?
  | |- follows _ (if ?b then _ else _) => destruct b
  | |- follows _ (match ?x with _ => _ end) => destruct x
  | |- follows _ (let _ := _ in _) => cbv zeta
  | |- follows _ _ => solve [eauto with follows typeclass_instances]
  end.
Ltac follow_steps := repeat follow_step.
