(* ===== verification/GoString.v ===== *)
(** * Go strings

    A Go string is a sequence of bytes, which is what a Rocq [string] is.  This
    file gives the parts of the language and of [strings], [unicode] and
    [unicode/utf8] that the backend uses: ranging over a string by rune,
    [utf8.RuneCountInString], [strings.TrimSpace], [strings.HasPrefix] and
    slicing.  It models no file of the repository. *)

From stdpp Require Import base tactics list strings.
From Stdlib Require Import NArith ZArith Ascii String Lia.
From S2P Require Import Prelude.

Set Default Goal Selector "!".
Open Scope Z_scope.

(** ** Bytes *)
Definition bytes_of (s : string) : list N := N_of_ascii <$> list_ascii_of_string s.
Definition string_of (bs : list N) : string := string_of_list_ascii (ascii_of_N <$> bs).

(** [len(s)] *)
Definition len (s : string) : Z := Z.of_nat (String.length s).

Lemma string_of_bytes_of s : string_of (bytes_of s) = s.
Proof.
  unfold string_of, bytes_of. rewrite <-list_fmap_compose.
  rewrite (list_fmap_ext _ id); [by rewrite list_fmap_id, string_of_list_ascii_of_string|].
  intros i a _. simpl. by rewrite ascii_N_embedding.
Qed.

Lemma bytes_of_string_of bs : Forall (λ b, (b < 256)%N) bs → bytes_of (string_of bs) = bs.
Proof.
  intros Hb. unfold string_of, bytes_of. rewrite list_ascii_of_string_of_list_ascii.
  induction Hb as [|b bs Hb Hbs IH]; [done|]. csimpl. by rewrite N_ascii_embedding, IH.
Qed.

Lemma length_bytes_of s : List.length (bytes_of s) = String.length s.
Proof.
  unfold bytes_of. rewrite length_fmap. induction s as [|a s IH]; [done|].
  csimpl. by rewrite IH.
Qed.

Lemma bytes_of_app s t : bytes_of (s +:+ t) = bytes_of s ++ bytes_of t.
Proof.
  unfold bytes_of. induction s as [|a s IH]; [done|]. csimpl. by rewrite IH.
Qed.

Lemma string_of_app bs cs : string_of (bs ++ cs) = string_of bs +:+ string_of cs.
Proof.
  unfold string_of. induction bs as [|b bs IH]; [done|]. csimpl. by rewrite IH.
Qed.

(** ** Decoding UTF-8, as [for i, r := range s] does *)
Definition rune_error : N := 65533.

Definition in_range (lo hi b : N) : bool := ((lo <=? b) && (b <=? hi))%N.
Definition is_cont (b : N) : bool := in_range 128 191 b.

(** The rune at the head of a non-empty sequence and the bytes it takes; an
    invalid sequence is [U+FFFD] and one byte. *)
Definition decode_rune (b0 : N) (rest : list N) : N * nat :=
  let bad := (rune_error, 1%nat) in
  if (b0 <? 128)%N then (b0, 1%nat)
  else if in_range 194 223 b0 then
    match rest with
    | b1 :: _ =>
        if is_cont b1 then (((b0 - 192) * 64 + (b1 - 128))%N, 2%nat) else bad
    | [] => bad
    end
  else if in_range 224 239 b0 then
    match rest with
    | b1 :: b2 :: _ =>
        let lo := if (b0 =? 224)%N then 160%N else 128%N in
        let hi := if (b0 =? 237)%N then 159%N else 191%N in
        if in_range lo hi b1 && is_cont b2
        then (((b0 - 224) * 4096 + (b1 - 128) * 64 + (b2 - 128))%N, 3%nat) else bad
    | _ => bad
    end
  else if in_range 240 244 b0 then
    match rest with
    | b1 :: b2 :: b3 :: _ =>
        let lo := if (b0 =? 240)%N then 144%N else 128%N in
        let hi := if (b0 =? 244)%N then 143%N else 191%N in
        if in_range lo hi b1 && is_cont b2 && is_cont b3
        then (((b0 - 240) * 262144 + (b1 - 128) * 4096 + (b2 - 128) * 64 + (b3 - 128))%N, 4%nat)
        else bad
    | _ => bad
    end
  else bad.

(** The runes of a byte sequence with the bytes each came from.  The fuel is the
    number of bytes: every step consumes at least one. *)
Fixpoint segments_aux (fuel : nat) (bs : list N) : list (N * list N) :=
  match fuel, bs with
  | S fuel, b0 :: rest =>
      let '(r, w) := decode_rune b0 rest in
      (r, take w bs) :: segments_aux fuel (drop w bs)
  | _, _ => []
  end.
Definition segments (s : string) : list (N * list N) :=
  segments_aux (String.length s) (bytes_of s).

Definition runes (s : string) : list N := (segments s).*1.
(** [utf8.RuneCountInString(s)], which is also [len([]rune(s))] *)
Definition rune_count (s : string) : Z := Z.of_nat (List.length (runes s)).

(** ** [strings.TrimSpace] *)
Definition is_space (r : N) : bool :=
  in_range 9 13 r || (r =? 32)%N || (r =? 133)%N || (r =? 160)%N || (r =? 5760)%N
  || in_range 8192 8202 r || (r =? 8232)%N || (r =? 8233)%N || (r =? 8239)%N
  || (r =? 8287)%N || (r =? 12288)%N.

Fixpoint drop_space (l : list (N * list N)) : list (N * list N) :=
  match l with
  | (r, b) :: l' => if is_space r then drop_space l' else l
  | [] => []
  end.
Definition trim_space (s : string) : string :=
  string_of (List.concat (reverse (drop_space (reverse (drop_space (segments s))))).*2).

(** ** [strings.Fields] and [bytes.Contains] *)
Fixpoint fields_of (word : list N) (l : list (N * list N)) : list string :=
  match l with
  | [] => if decide (word = []) then [] else [string_of word]
  | (r, bs) :: l =>
      if is_space r then (if decide (word = []) then fields_of [] l else string_of word :: fields_of [] l)
      else fields_of (word ++ bs) l
  end.
Definition fields (s : string) : list string := fields_of [] (segments s).
Fixpoint contains (s : list N) (sub : list N) : bool :=
  bool_decide (take (List.length sub) s = sub) || match s with [] => false | _ :: s => contains s sub end.
(** Text a PostgreSQL column in UTF-8 takes: well-formed, and without the zero byte. *)
Definition pg_text (s : string) : bool :=
  forallb (λ seg, negb ((seg.1 =? 0)%N || ((seg.1 =? rune_error)%N && negb (Nat.eqb (List.length seg.2) 3)))) (segments s).

(** [utf8.ValidString]: an invalid sequence decodes to [U+FFFD] from one byte, the rune itself takes three. *)
Definition well_formed_rune (seg : N * list N) : bool := negb ((seg.1 =? rune_error)%N && negb (Nat.eqb (List.length seg.2) 3)).
Definition valid_utf8 (s : string) : bool := forallb well_formed_rune (segments s).

(** ** Prefixes and slices *)
Definition has_prefix (s p : string) : bool := String.prefix p s.
(** [strings.TrimPrefix(s, p)] *)
Definition trim_prefix (s p : string) : string :=
  if has_prefix s p then String.substring (String.length p) (String.length s) s else s.
(** [strings.HasSuffix], [strings.TrimSuffix] *)
Definition has_suffix (s suffix : string) : bool :=
  let bs := bytes_of s in let x := bytes_of suffix in
  (List.length x <=? List.length bs)%nat && bool_decide (drop (List.length bs - List.length x) bs = x).
Definition trim_suffix (s suffix : string) : string :=
  let bs := bytes_of s in let x := bytes_of suffix in
  if (List.length x <=? List.length bs)%nat && bool_decide (drop (List.length bs - List.length x) bs = x) then string_of (take (List.length bs - List.length x) bs) else s.
(** [s[lo:hi]] for [0 <= lo <= hi <= len(s)] *)
Definition slice (s : string) (lo hi : Z) : string :=
  String.substring (Z.to_nat lo) (Z.to_nat (hi - lo)) s.

(** ** [strings.ToLower], as far as a comparison with ASCII text can tell

    Besides the ASCII capitals two letters have an ASCII lower case, U+0130 and
    U+212A; any other letter outside ASCII stays outside it. *)
Definition lower_rune (seg : N * list N) : list N :=
  let '(r, bytes) := seg in
  if in_range 65 90 r then [(r + 32)%N]
  else if (r =? 304)%N then [105%N]
  else if (r =? 8490)%N then [107%N]
  else bytes.
Definition to_lower (s : string) : string := string_of (segments s ≫= lower_rune).

(** ** ASCII strings *)
Definition ascii_bytes (bs : list N) : Prop := Forall (λ b, (b < 128)%N) bs.

Lemma decode_rune_ascii b rest : (b < 128)%N → decode_rune b rest = (b, 1%nat).
Proof. intros Hb. unfold decode_rune. by rewrite (proj2 (N.ltb_lt _ _) Hb). Qed.

Lemma segments_aux_ascii bs :
  ascii_bytes bs → segments_aux (List.length bs) bs = (λ b, (b, [b])) <$> bs.
Proof.
  induction 1 as [|b bs Hb Hbs IH]; [done|]. simpl.
  rewrite decode_rune_ascii by done. simpl. rewrite drop_0. by rewrite IH.
Qed.

Lemma segments_ascii s :
  ascii_bytes (bytes_of s) → segments s = (λ b, (b, [b])) <$> bytes_of s.
Proof.
  intros Hs. unfold segments. rewrite <-length_bytes_of. by apply segments_aux_ascii.
Qed.

Lemma runes_ascii s : ascii_bytes (bytes_of s) → runes s = bytes_of s.
Proof.
  intros Hs. unfold runes. rewrite segments_ascii by done.
  rewrite <-list_fmap_compose. rewrite (list_fmap_ext _ id); [by rewrite list_fmap_id|done].
Qed.

(** Trimming a string whose first and last runes are not spaces changes nothing. *)
Lemma drop_space_nonspace r b l : is_space r = false → drop_space ((r, b) :: l) = (r, b) :: l.
Proof. intros Hr. simpl. by rewrite Hr. Qed.

Lemma trim_space_ascii s :
  ascii_bytes (bytes_of s) → Forall (λ b, is_space b = false) (bytes_of s) → trim_space s = s.
Proof.
  intros Hs Hsp. unfold trim_space. rewrite segments_ascii by done.
  assert (∀ bs : list N, Forall (λ b, is_space b = false) bs →
    drop_space ((λ b, (b, [b])) <$> bs) = (λ b, (b, [b])) <$> bs) as Hdrop.
  { intros [|b bs]; [done|]. intros [Hb _]%Forall_cons. simpl. by rewrite Hb. }
  rewrite Hdrop by done. rewrite <-fmap_reverse, Hdrop by by apply Forall_reverse.
  rewrite <-fmap_reverse, reverse_involutive, <-list_fmap_compose.
  rewrite <-(string_of_bytes_of s) at 2. f_equal.
  induction (bytes_of s) as [|b bs IH]; [done|]. simpl in *. f_equal. apply IH.
  - by inversion Hs.
  - by inversion Hsp.
Qed.

(** ** Trimming well-formed text leaves it well-formed *)

(** A segment that decodes to itself whatever follows it. *)
Definition whole_rune (seg : N * list N) : Prop :=
  Forall (λ b, (b < 256)%N) seg.2 ∧ well_formed_rune seg = true ∧
  ∃ b0 bs, seg.2 = b0 :: bs ∧ ∀ rest, decode_rune b0 (bs ++ rest) = (seg.1, List.length seg.2).

Lemma decode_rune_whole b0 rest r w :
  decode_rune b0 rest = (r, w) → well_formed_rune (r, take w (b0 :: rest)) = true →
  ∃ bs, take w (b0 :: rest) = b0 :: bs ∧ List.length (b0 :: bs) = w ∧ ∀ rest', decode_rune b0 (bs ++ rest') = (r, w).
Proof.
  unfold decode_rune. destruct (b0 <? 128)%N eqn:H1.
  { intros [= <- <-] _. by exists []. }
  destruct (in_range 194 223 b0) eqn:H2.
  { destruct rest as [|b1 rest]; [by intros [= <- <-]|]. destruct (is_cont b1) eqn:H3; [|by intros [= <- <-]].
    intros [= <- <-] _. exists [b1]. by split_and!; [..|intros; cbn; rewrite H3]. }
  destruct (in_range 224 239 b0) eqn:H3.
  { destruct rest as [|b1 [|b2 rest]]; [by intros [= <- <-]..|]. destruct (_ && is_cont b2) eqn:H4; [|by intros [= <- <-]].
    intros [= <- <-] _. exists [b1; b2]. by split_and!; [..|intros; cbn; rewrite H4]. }
  destruct (in_range 240 244 b0) eqn:H4; [|by intros [= <- <-]].
  destruct rest as [|b1 [|b2 [|b3 rest]]]; [by intros [= <- <-]..|]. destruct (_ && is_cont b3) eqn:H5; [|by intros [= <- <-]].
  intros [= <- <-] _. exists [b1; b2; b3]. by split_and!; [..|intros; cbn; rewrite H5].
Qed.
Lemma segments_whole fuel bs :
  Forall (λ b, (b < 256)%N) bs → forallb well_formed_rune (segments_aux fuel bs) = true → Forall whole_rune (segments_aux fuel bs).
Proof.
  revert bs. induction fuel as [|fuel IH]; intros [|b0 rest] Hb Hok; [done..|]. simpl in *.
  destruct (decode_rune b0 rest) as [r w] eqn:Hr. simpl in *. apply andb_true_iff in Hok as [Hseg Hok].
  constructor; [|apply IH; [by apply Forall_drop|done]].
  destruct (decode_rune_whole b0 rest r w Hr Hseg) as (bs & Heq & Hlen & Hdec). split; [|split; [done|]].
  - simpl. by apply Forall_take.
  - exists b0, bs. simpl. rewrite Heq, Hlen. done.
Qed.
Lemma segments_concat l fuel : Forall whole_rune l → (List.length (List.concat l.*2) ≤ fuel)%nat → segments_aux fuel (List.concat l.*2) = l.
Proof.
  intros Hl. revert fuel. induction Hl as [|[r seg] l (_ & _ & b0 & bs & Heq & Hdec) Hl IH]; intros fuel Hfuel; [by destruct fuel|].
  simpl in *. subst seg. destruct fuel as [|fuel]; [simpl in Hfuel; lia|]. simpl. rewrite Hdec. simpl.
  rewrite take_app_length, drop_app_length. f_equal. apply IH.
  rewrite length_app in Hfuel. cbn [List.length] in Hfuel. unfold fmap. lia.
Qed.
Lemma drop_space_suffix P l : Forall P l → Forall P (drop_space l).
Proof. induction 1 as [|[r b] l Hp Hl IH]; [done|]. simpl. destruct (is_space r); [done|by constructor]. Qed.
Lemma concat_bytes l : Forall whole_rune l → Forall (λ b, (b < 256)%N) (List.concat l.*2).
Proof. induction 1 as [|seg l (Hb & _) Hl IH]; [done|]. simpl. by apply Forall_app. Qed.
Lemma bytes_of_bound s : Forall (λ b, (b < 256)%N) (bytes_of s).
Proof. apply Forall_fmap, Forall_true. intros a. apply N_ascii_bounded. Qed.
(** The runes of a trimmed text are those of the text without the spaces about them. *)
Lemma segments_trim s : valid_utf8 s = true →
  segments (trim_space s) = reverse (drop_space (reverse (drop_space (segments s)))) ∧ Forall whole_rune (segments (trim_space s)).
Proof.
  intros Hs. pose proof (segments_whole _ _ (bytes_of_bound s) Hs) as Hw. fold (segments s) in Hw.
  assert (Forall whole_rune (reverse (drop_space (reverse (drop_space (segments s)))))) as Ht
    by (apply Forall_reverse, drop_space_suffix, Forall_reverse, drop_space_suffix; done).
  assert (segments (trim_space s) = reverse (drop_space (reverse (drop_space (segments s))))) as ->; [|by split].
  unfold segments at 1, trim_space. rewrite bytes_of_string_of by by apply concat_bytes. apply segments_concat; [done|].
  rewrite <-length_bytes_of, bytes_of_string_of by by apply concat_bytes. done.
Qed.
Lemma trim_space_valid s : valid_utf8 s = true → valid_utf8 (trim_space s) = true.
Proof.
  intros Hs. apply segments_trim in Hs as [_ Hw]. apply forallb_forall. intros seg Hin%list_elem_of_In.
  rewrite Forall_forall in Hw. by apply Hw in Hin as (_ & ? & _).
Qed.

(** ** Prefixes of concatenations *)
Lemma substring_all (t : string) m : (String.length t ≤ m)%nat → String.substring 0 m t = t.
Proof.
  revert m. induction t as [|b t IH]; intros m Hm; [by destruct m|].
  destruct m; simpl in *; [lia|]. f_equal. apply IH. lia.
Qed.
Lemma substring_app (p t : string) m :
  (String.length t ≤ m)%nat → String.substring (String.length p) m (p +:+ t) = t.
Proof.
  induction p as [|a p IH]; simpl; intros Hm; [by apply substring_all|by apply IH].
Qed.
Lemma length_string_app (p t : string) : String.length (p +:+ t) = (String.length p + String.length t)%nat.
Proof. induction p as [|a p IH]; simpl; [done|]. by rewrite IH. Qed.
Lemma has_prefix_app (p t : string) : has_prefix (p +:+ t) p = true.
Proof.
  unfold has_prefix. induction p as [|a p IH]; simpl; [by destruct t|].
  by destruct (Ascii.ascii_dec a a).
Qed.
Lemma trim_prefix_app (p t : string) : trim_prefix (p +:+ t) p = t.
Proof.
  unfold trim_prefix. rewrite has_prefix_app. apply substring_app. rewrite length_string_app. lia.
Qed.
Lemma has_prefix_split (p s : string) : has_prefix s p = true → ∃ t, s = (p +:+ t)%string.
Proof.
  unfold has_prefix. revert s. induction p as [|a p IH]; intros s Hp; [by exists s|].
  destruct s as [|b s]; [done|]. simpl in Hp. destruct (Ascii.ascii_dec a b) as [<-|]; [|done].
  destruct (IH s Hp) as (t & ->). by exists t.
Qed.

(** ** [strings.Split] and [strings.Join] on a one-byte separator *)
Fixpoint split_bytes (sep : N) (l : list N) : list (list N) :=
  match l with
  | [] => [[]]
  | b :: l =>
      if (b =? sep)%N then [] :: split_bytes sep l
      else match split_bytes sep l with
           | part :: parts => (b :: part) :: parts
           | [] => [[b]]
           end
  end.
Definition split (sep : N) (s : string) : list string := string_of <$> split_bytes sep (bytes_of s).

Lemma split_bytes_last sep l : sep ∉ l → split_bytes sep l = [l].
Proof.
  induction l as [|b l IH]; [done|]. rewrite not_elem_of_cons. intros [Hb Hl]. simpl.
  rewrite (proj2 (N.eqb_neq _ _)) by congruence. by rewrite IH.
Qed.
Lemma split_bytes_app sep l l' : sep ∉ l → split_bytes sep (l ++ sep :: l') = l :: split_bytes sep l'.
Proof.
  induction l as [|b l IH]; simpl; [by rewrite N.eqb_refl|]. rewrite not_elem_of_cons. intros [Hb Hl].
  rewrite (proj2 (N.eqb_neq _ _)) by congruence. by rewrite IH.
Qed.

(** [strings.Cut(s, sep)] at a one-byte separator *)
Fixpoint cut_bytes (sep : N) (bs : list N) : option (list N * list N) :=
  match bs with
  | [] => None
  | b :: rest => if (b =? sep)%N then Some ([], rest) else x ← cut_bytes sep rest; Some (b :: x.1, x.2)
  end.

(** ** [strconv.Itoa] and [%d]

    A 64-bit number has at most 20 decimal digits. *)
Fixpoint decimal_aux (fuel : nat) (n : N) (acc : list N) : list N :=
  match fuel with
  | O => acc
  | S fuel =>
      let acc := ((48 + n mod 10) :: acc)%N in
      if (n <? 10)%N then acc else decimal_aux fuel (n / 10) acc
  end.
Definition decimal (n : N) : list N := decimal_aux 20 n [].
Definition Itoa (z : Z) : string :=
  string_of (if z <? 0 then 45%N :: decimal (Z.to_N (- z)) else decimal (Z.to_N z)).

(** The value of a string of decimal digits. *)
Fixpoint value_of (ds : list N) (acc : Z) : Z :=
  match ds with [] => acc | d :: ds => value_of ds (acc * 10 + (Z.of_N d - 48)) end.
Lemma value_of_app l1 l2 acc : value_of (l1 ++ l2) acc = value_of l2 (value_of l1 acc).
Proof. revert acc. induction l1; simpl; auto. Qed.
Lemma value_of_zeros n : value_of (replicate n 48%N) 0 = 0.
Proof. by induction n. Qed.

Lemma decimal_aux_value fuel n acc :
  Z.of_N n < 10 ^ Z.of_nat fuel → ∃ ds, decimal_aux fuel n acc = ds ++ acc ∧ value_of ds 0 = Z.of_N n ∧
    Forall (λ b, in_range 48 57 b = true) ds ∧ ∀ k, (1 ≤ k)%nat → Z.of_N n < 10 ^ Z.of_nat k → (List.length ds ≤ k)%nat.
Proof.
  revert n acc. induction fuel as [|fuel IH]; intros n acc Hn.
  { exists []. simpl in *. split_and!; [done|lia|done|intros; simpl; lia]. }
  assert (in_range 48 57 (48 + n mod 10) = true) as Hdigit.
  { unfold in_range. rewrite andb_true_iff, !N.leb_le. zify; Z.to_euclidean_division_equations; lia. }
  simpl. destruct (N.ltb_spec n 10) as [H10|H10].
  - exists [(48 + n mod 10)%N]. split; [done|]. rewrite N.mod_small in * by done. simpl. split_and!; [lia|by repeat constructor|lia].
  - rewrite Nat2Z.inj_succ, Z.pow_succ_r in Hn by lia.
    destruct (IH (n / 10)%N ((48 + n mod 10)%N :: acc)) as (ds & Hds & Hval & Hdig & Hlen).
    { rewrite N2Z.inj_div. apply Z.div_lt_upper_bound; lia. }
    exists (ds ++ [(48 + n mod 10)%N]). rewrite Hds, <-app_assoc. split; [done|]. split_and!.
    + rewrite value_of_app, Hval. simpl. zify; Z.to_euclidean_division_equations; lia.
    + apply Forall_app. split; [done|]. by repeat constructor.
    + intros k Hk Hnk. rewrite length_app. simpl. destruct k as [|[|k]]; [lia|simpl in Hnk; lia|].
      rewrite Nat2Z.inj_succ, Z.pow_succ_r in Hnk by lia.
      specialize (Hlen (S k)). assert (List.length ds ≤ S k)%nat; [|lia]. apply Hlen; [lia|].
      rewrite N2Z.inj_div. apply Z.div_lt_upper_bound; lia.
Qed.

Lemma digits_string ds : Forall (λ b, in_range 48 57 b = true) ds → bytes_of (string_of ds) = ds.
Proof.
  intros Hds. apply bytes_of_string_of. eapply Forall_impl; [exact Hds|]. intros b.
  unfold in_range. rewrite andb_true_iff, !N.leb_le. lia.
Qed.

(** [strconv.Atoi]: an optional sign and one or more digits, within [int64]. *)
Definition is_decimal_digit (b : N) : bool := in_range 48 57 b.
Definition parse_digits (ds : list N) : option Z :=
  if bool_decide (ds = []) || negb (forallb is_decimal_digit ds) then None else Some (value_of ds 0).
Definition Atoi (s : string) : option Z :=
  z ← match bytes_of s with
      | 45%N :: ds => Z.opp <$> parse_digits ds
      | 43%N :: ds => parse_digits ds
      | ds => parse_digits ds
      end;
  if (- 2 ^ 63 <=? z) && (z <? 2 ^ 63) then Some z else None.

Lemma decimal_aux_nonempty fuel n acc : decimal_aux (S fuel) n acc ≠ [].
Proof.
  revert n acc.
  assert (∀ f m acc, acc ≠ [] → decimal_aux f m acc ≠ []) as Hacc.
  { induction f as [|f IH]; intros m acc Hne; [done|]. simpl. destruct (m <? 10)%N; [done|]. by apply IH. }
  intros n acc. simpl. destruct (n <? 10)%N; [done|]. by apply Hacc.
Qed.
Lemma Atoi_Itoa z : - 2 ^ 63 ≤ z < 2 ^ 63 → Atoi (Itoa z) = Some z.
Proof.
  intros Hz. unfold Itoa, Atoi, decimal.
  assert (∀ n : N, Z.of_N n < 10 ^ Z.of_nat 20 → ∃ d ds, decimal_aux 20 n [] = d :: ds ∧ d ≠ 45%N ∧ d ≠ 43%N ∧
    parse_digits (d :: ds) = Some (Z.of_N n) ∧ Forall (λ b, in_range 48 57 b = true) (d :: ds)) as Hdec.
  { intros n Hn. destruct (decimal_aux_value 20 n [] Hn) as (ds & Hds & Hval & Hdig & _).
    rewrite app_nil_r in Hds. assert (ds ≠ []) as Hne.
    { intros ->. by apply (decimal_aux_nonempty 19 n []). }
    destruct ds as [|d ds]; [done|]. exists d, ds. pose proof Hdig as [Hd _]%Forall_cons.
    unfold in_range in Hd. rewrite andb_true_iff, !N.leb_le in Hd.
    split; [done|]. split; [lia|]. split; [lia|]. split; [|done].
    unfold parse_digits. rewrite bool_decide_false by done. rewrite (proj2 (forallb_forall _ _)); [by rewrite Hval|].
    intros b Hb%list_elem_of_In. rewrite Forall_forall in Hdig. by apply Hdig. }
  destruct (Z.ltb_spec z 0) as [Hneg|Hpos].
  - destruct (Hdec (Z.to_N (- z))) as (d & ds & -> & _ & _ & Hp & Hdig); [lia|].
    assert (bytes_of (string_of (45%N :: d :: ds)) = 45%N :: d :: ds) as ->.
    { apply bytes_of_string_of. constructor; [lia|]. eapply Forall_impl; [exact Hdig|].
      intros b. unfold in_range. rewrite andb_true_iff, !N.leb_le. lia. }
    rewrite Hp. simpl. rewrite Z2N.id, Z.opp_involutive by lia.
    by rewrite (proj2 (Z.leb_le _ _)), (proj2 (Z.ltb_lt _ _)) by lia.
  - destruct (Hdec (Z.to_N z)) as (d & ds & -> & Hm & Hpl & Hp & Hdig); [lia|].
    rewrite digits_string by done.
    assert (match d :: ds with 45%N :: ds' => Z.opp <$> parse_digits ds' | 43%N :: ds' => parse_digits ds'
      | ds' => parse_digits ds' end = parse_digits (d :: ds)) as ->.
    { clear -Hm Hpl. repeat (case_match; subst; try done). }
    rewrite Hp. simpl. rewrite Z2N.id by lia.
    by rewrite (proj2 (Z.leb_le _ _)), (proj2 (Z.ltb_lt _ _)) by lia.
Qed.

(** ** [uuid.UUID.String()]

    Thirty-two lower-case hexadecimal digits, most significant first, in groups
    of 8-4-4-4-12. *)
Definition hex_digit (n : N) : Ascii.ascii :=
  if (n <? 10)%N then Ascii.ascii_of_N (48 + n) else Ascii.ascii_of_N (87 + n).
(** [hex.EncodeToString] *)
Definition hex_bytes (bs : list N) : string :=
  String.string_of_list_ascii (bs ≫= λ b, [hex_digit (b / 16)%N; hex_digit (b mod 16)%N]).
Definition nibble (u : N) (i : nat) : N := N.land (N.shiftr u (4 * N.of_nat i)) 15.
Definition hex_range (u : N) (hi count : nat) : list Ascii.ascii :=
  (λ k, hex_digit (nibble u (hi - k))) <$> seq 0 count.
Definition uuid_String (u : N) : string :=
  let dash := Ascii.ascii_of_N 45 in
  String.string_of_list_ascii
    (hex_range u 31 8 ++ dash :: hex_range u 23 4 ++ dash :: hex_range u 19 4 ++ dash ::
     hex_range u 15 4 ++ dash :: hex_range u 11 12).

Example uuid_String_nil : uuid_String 0 = "00000000-0000-0000-0000-000000000000"%string.
Proof. reflexivity. Qed.
Example uuid_String_digits :
  uuid_String 0x123456789abcdef0fedcba9876543210 = "12345678-9abc-def0-fedc-ba9876543210"%string.
Proof. reflexivity. Qed.

(** A property of small numbers, by computation. *)
Lemma forallb_below (P : N → bool) n v :
  forallb P (N.of_nat <$> seq 0 n) = true → (v < N.of_nat n)%N → P v = true.
Proof.
  rewrite forallb_forall. intros Hall Hv. apply Hall, list_elem_of_In, list_elem_of_fmap.
  exists (N.to_nat v). split; [lia|]. apply elem_of_seq. lia.
Qed.

(** The canonical form of a UUID, read back. *)
Definition hex_value (a : ascii) : N :=
  let b := N_of_ascii a in if (b <? 58)%N then (b - 48)%N else (b - 87)%N.
Definition parse_uuid (s : string) : N :=
  fold_left (λ acc a, (acc * 16 + hex_value a)%N)
    (filter (λ a, a ≠ ascii_of_N 45) (list_ascii_of_string s)) 0%N.

Lemma hex_digit_value n : (n < 16)%N → hex_value (hex_digit n) = n ∧ hex_digit n ≠ ascii_of_N 45.
Proof.
  intros Hn. apply (forallb_below (λ n, bool_decide (hex_value (hex_digit n) = n ∧ hex_digit n ≠ ascii_of_N 45)) 16) in Hn;
    [|vm_compute; reflexivity]. by apply bool_decide_eq_true_1 in Hn.
Qed.
Lemma nibble_small u i : (nibble u i < 16)%N.
Proof. unfold nibble. change 15%N with (N.ones 4). rewrite N.land_ones. by apply N.mod_lt. Qed.
(** One digit more. *)
Lemma shift_in u i : (N.shiftr u (4 * N.of_nat (S i)) * 16 + nibble u i)%N = N.shiftr u (4 * N.of_nat i).
Proof.
  unfold nibble. change 15%N with (N.ones 4). rewrite N.land_ones, !N.shiftr_div_pow2.
  replace (4 * N.of_nat (S i))%N with (4 * N.of_nat i + 4)%N by lia.
  rewrite N.pow_add_r, <-N.Div0.div_div. change (2 ^ 4)%N with 16%N.
  rewrite N.mul_comm. symmetry. apply N.div_mod. done.
Qed.
Lemma fold_digits u i :
  fold_left (λ acc a, (acc * 16 + hex_value a)%N) ((λ k, hex_digit (nibble u k)) <$> reverse (seq 0 i))
    (N.shiftr u (4 * N.of_nat i)) = u.
Proof.
  induction i as [|i IH]; [apply N.shiftr_0_r|]. rewrite seq_S, reverse_snoc. csimpl.
  rewrite (proj1 (hex_digit_value _ (nibble_small u i))), shift_in. exact IH.
Qed.
Lemma parse_uuid_String u : (u < 2 ^ 128)%N → parse_uuid (uuid_String u) = u.
Proof.
  intros Hu. unfold parse_uuid, uuid_String. rewrite list_ascii_of_string_of_list_ascii.
  etransitivity; [|apply (fold_digits u 32)].
  assert (N.shiftr u (4 * N.of_nat 32) = 0%N) as -> by (rewrite N.shiftr_div_pow2; by apply N.div_small).
  f_equal. unfold hex_range. cbn [seq fmap list_fmap app Nat.sub reverse rev_append].
  repeat first [rewrite filter_cons_True by (apply hex_digit_value, nibble_small)
               |rewrite filter_cons_False by (intros Hn; by apply Hn)].
  reflexivity.
Qed.
Lemma uuid_String_inj u v : (u < 2 ^ 128)%N → (v < 2 ^ 128)%N → uuid_String u = uuid_String v → u = v.
Proof. intros Hu Hv Heq. by rewrite <-(parse_uuid_String u Hu), Heq, parse_uuid_String. Qed.
Lemma length_uuid_String u : String.length (uuid_String u) = 36%nat.
Proof. reflexivity. Qed.
