(* ===== verification/Httpx.v ===== *)
(** * The HTTP error vocabulary ([internal/httpx/errors.go]) and JSON values

    Every handler returns an [*httpx.Error]; [Error] below is that struct
    without its unexported [cause], which only reaches the log.  A
    [json.RawMessage] is represented by what [encoding/json] makes of it. *)

From stdpp Require Import base tactics list gmap strings.
From Stdlib Require Import ZArith Lia.
From S2P Require Import Prelude GoString.

Set Default Goal Selector "!".
Open Scope Z_scope.

(** ** Stable error codes *)
Definition CodeInternal := "INTERNAL_ERROR"%string.
Definition CodeUnavailable := "SERVICE_UNAVAILABLE"%string.
Definition CodeBadRequest := "BAD_REQUEST"%string.
Definition CodeValidationFailed := "VALIDATION_FAILED"%string.
Definition CodeUnauthorized := "UNAUTHORIZED"%string.
Definition CodeTokenExpired := "TOKEN_EXPIRED"%string.
Definition CodeTokenInvalid := "TOKEN_INVALID"%string.
Definition CodeSessionRevoked := "SESSION_REVOKED"%string.
Definition CodeForbidden := "FORBIDDEN"%string.
Definition CodeNotFound := "NOT_FOUND"%string.
Definition CodeConflict := "CONFLICT"%string.
Definition CodeRateLimited := "RATE_LIMITED"%string.
Definition CodePayloadTooLarge := "PAYLOAD_TOO_LARGE"%string.
Definition CodeFeatureDisabled := "FEATURE_DISABLED"%string.
Definition CodeInvalidOTP := "INVALID_OTP"%string.
Definition CodeOTPExpired := "OTP_EXPIRED"%string.
Definition CodeOTPAttemptsBurned := "OTP_ATTEMPTS_EXCEEDED"%string.
Definition CodeTwoStepRequired := "TWO_STEP_REQUIRED"%string.
Definition CodeInvalidPassword := "INVALID_PASSWORD"%string.
Definition CodeAccountBanned := "ACCOUNT_BANNED"%string.
Definition CodeAccountDeleted := "ACCOUNT_DELETED"%string.
Definition CodeTooManyDevices := "TOO_MANY_DEVICES"%string.
Definition CodeUsernameTaken := "USERNAME_TAKEN"%string.
Definition CodeNotChatMember := "NOT_CHAT_MEMBER"%string.
Definition CodeChatNotFound := "CHAT_NOT_FOUND"%string.
Definition CodeMessageNotFound := "MESSAGE_NOT_FOUND"%string.
Definition CodeMessageTooOld := "MESSAGE_TOO_OLD_TO_EDIT"%string.
Definition CodePermissionDenied := "CHAT_PERMISSION_DENIED"%string.
Definition CodeSlowModeActive := "SLOW_MODE_ACTIVE"%string.
Definition CodeChatFull := "CHAT_MEMBER_LIMIT_REACHED"%string.
Definition CodeUserBlocked := "USER_BLOCKED"%string.
Definition CodePrivacyRestricted := "PRIVACY_RESTRICTED"%string.
Definition CodeCallNotFound := "CALL_NOT_FOUND"%string.
Definition CodeCallFull := "CALL_FULL"%string.
Definition CodeCallEnded := "CALL_ALREADY_ENDED"%string.

(** ** The canonical API failure *)
Record Error := MkError {
  Status : Z;
  Code : string;
  Message : string;
  Fields : gmap string string;
  RetryAfter : Z;
}.

Definition newError (status : Z) (code message : string) : Error :=
  MkError status code message ∅ 0.

Definition WithField (e : Error) (field problem : string) : Error :=
  MkError (Status e) (Code e) (Message e) (<[field := problem]> (Fields e)) (RetryAfter e).

(** [e.RetryAfter = n] *)
Definition set_retry_after (e : Error) (n : Z) : Error :=
  MkError (Status e) (Code e) (Message e) (Fields e) n.

Definition Internal : Error := newError 500 CodeInternal "An unexpected error occurred".
Definition BadRequest (message : string) : Error := newError 400 CodeBadRequest message.
Definition Validation (message : string) : Error := newError 422 CodeValidationFailed message.
Definition Unauthorized (code message : string) : Error := newError 401 code message.
Definition Unavailable (message : string) : Error := newError 503 CodeUnavailable message.
Definition Forbidden (code message : string) : Error := newError 403 code message.
Definition NotFound (code message : string) : Error := newError 404 code message.
Definition Conflict (code message : string) : Error := newError 409 code message.
Definition TooLarge (message : string) : Error := newError 413 CodePayloadTooLarge message.
Definition RateLimited (retryAfterSeconds : Z) : Error :=
  set_retry_after
    (newError 429 CodeRateLimited "Too many requests, please slow down") retryAfterSeconds.

(** A double quote, which a Rocq string literal here cannot hold. *)
Definition quote : string := String (Ascii.ascii_of_nat 34) EmptyString.
(** [%q] of a flag key, which holds no character that needs escaping. *)
Definition FeatureDisabled (flag : string) : Error :=
  newError 403 CodeFeatureDisabled
    ("Feature " +:+ quote +:+ flag +:+ quote +:+ " is not enabled").

(** ** JSON

    A number is an integer literal or the value of any other numeric literal,
    as a mantissa and a decimal exponent. *)
Inductive json :=
| JNull
| JBool (b : bool)
| JInt (n : Z)
| JDec (mantissa exponent : Z)
| JStr (s : string)
| JArr (l : list json)
| JObj (l : list (string * json)).

(** [json.RawMessage]: absent ([len(raw) == 0]), bytes [json.Valid] refuses, or
    a document. *)
Inductive raw :=
| RawNil
| RawInvalid
| RawDoc (j : json).

(** [in.X != nil && !json.Valid(in.X)] *)
Definition raw_invalid (r : raw) : bool :=
  match r with RawInvalid => true | _ => false end.

(** [json.Unmarshal] into a [map[string]bool]: [null] decodes to the nil map, a
    [null] member to [false], anything but a boolean is an error. *)
Fixpoint decode_bool_fields (l : list (string * json)) : option (gmap string bool) :=
  match l with
  | [] => Some ∅
  | (k, v) :: l =>
      m ← decode_bool_fields l;
      match v with
      | JBool b => Some (if decide (is_Some (m !! k)) then m else <[k := b]> m)
      | JNull => Some (if decide (is_Some (m !! k)) then m else <[k := false]> m)
      | _ => None
      end
  end.
Definition decode_bool_map (j : json) : option (gmap string bool) :=
  match j with
  | JNull => Some ∅
  | JObj l => decode_bool_fields l
  | _ => None
  end.

(** [json.Marshal] of a [map[string]bool]. *)
Definition encode_bool_map (m : gmap string bool) : json :=
  JObj ((λ kv, (kv.1, JBool kv.2)) <$> map_to_list m).

Lemma decode_bool_fields_list (l : list (string * bool)) :
  NoDup l.*1 →
  decode_bool_fields ((λ kv, (kv.1, JBool kv.2)) <$> l) = Some (list_to_map l).
Proof.
  induction l as [|[k b] l IH]; [done|]. csimpl. intros [Hk Hnd]%NoDup_cons.
  rewrite IH by done. simpl.
  case_decide as Hin; [|done].
  apply not_elem_of_list_to_map_1 in Hk. rewrite Hk in Hin. by destruct Hin.
Qed.

(** What is written as a permission document is what is read back. *)
Lemma decode_encode_bool_map m : decode_bool_map (encode_bool_map m) = Some m.
Proof.
  unfold decode_bool_map, encode_bool_map.
  rewrite decode_bool_fields_list by apply NoDup_fst_map_to_list.
  by rewrite list_to_map_to_list.
Qed.
#[export] Hint Rewrite decode_encode_bool_map : sobh.
