(* ===== verification/Permissions.v ===== *)
(** * Chat types, roles and permissions ([internal/messaging/models.go])

    The permission record, the role defaults, the vocabulary of override keys
    and the layering of overrides.  [perm_get] and [perm_set] are the [targets]
    table of [applyOverrides]: which field a key names. *)

From stdpp Require Import base tactics list gmap strings sorting.
From Stdlib Require Import ZArith Lia.
From S2P Require Import Prelude GoString Httpx.

Set Default Goal Selector "!".
Open Scope Z_scope.

(** ** Chat types *)
Definition ChatPrivate := "private"%string.
Definition ChatGroup := "group"%string.
Definition ChatChannel := "channel"%string.
Definition ChatSecret := "secret"%string.

(** ** Message types *)
Definition TypeText := "text"%string.
Definition TypeImage := "image"%string.
Definition TypeVideo := "video"%string.
Definition TypeAudio := "audio"%string.
Definition TypeVoice := "voice"%string.
Definition TypeFile := "file"%string.
Definition TypeLocation := "location"%string.
Definition TypeContact := "contact"%string.
Definition TypeSticker := "sticker"%string.
Definition TypeGIF := "gif"%string.
Definition TypePoll := "poll"%string.
Definition TypeSystem := "system"%string.
Definition TypeCall := "call"%string.

Definition ValidMessageTypes : gset string :=
  list_to_set [TypeText; TypeImage; TypeVideo; TypeAudio; TypeVoice; TypeFile;
    TypeLocation; TypeContact; TypeSticker; TypeGIF; TypePoll; TypeSystem; TypeCall].

(** ** Member roles *)
Definition RoleOwner := "owner"%string.
Definition RoleAdmin := "admin"%string.
Definition RoleModerator := "moderator"%string.
Definition RoleMember := "member"%string.
Definition RoleRestricted := "restricted"%string.

(** ** Event types *)
Definition EventMessageNew := "message.new"%string.
Definition EventMessageEdited := "message.edited"%string.
Definition EventMessageDeleted := "message.deleted"%string.
Definition EventMessageRead := "message.read"%string.
Definition EventMessageReaction := "message.reaction"%string.
Definition EventChatUpdated := "chat.updated"%string.
Definition EventChatMemberAdded := "chat.member_added"%string.
Definition EventChatMemberLeft := "chat.member_left"%string.
Definition EventTypingStart := "typing.start"%string.
Definition EventTypingStop := "typing.stop"%string.
Definition EventChatHistoryCleared := "chat.history_cleared"%string.

(** ** The effective permission set *)
Record Permissions := MkPermissions {
  SendMessages : bool;
  SendMedia : bool;
  SendFiles : bool;
  SendPolls : bool;
  SendStickers : bool;
  EmbedLinks : bool;
  AddMembers : bool;
  RemoveMembers : bool;
  BanMembers : bool;
  PinMessages : bool;
  EditGroup : bool;
  DeleteMessages : bool;
  ManageAdmins : bool;
  ManageCalls : bool;
  ManageInvites : bool;
  PostStories : bool;
}.

#[export] Instance Permissions_eq_dec : EqDecision Permissions.
Proof. solve_decision. Defined.

(** The vocabulary, and the kind of chat each key applies to. *)
Definition permission_vocabulary : list (string * string) :=
  [("send_messages", "both");
   ("send_media", "both");
   ("send_files", "both");
   ("send_polls", "both");
   ("send_stickers", "group");
   ("embed_links", "both");
   ("add_members", "both");
   ("remove_members", "both");
   ("ban_members", "both");
   ("pin_messages", "both");
   ("edit_group", "both");
   ("delete_messages", "both");
   ("manage_admins", "both");
   ("manage_calls", "group");
   ("manage_invites", "both");
   ("post_stories", "channel")]%string.
Definition PermissionKeys : gmap string string := list_to_map permission_vocabulary.

(** The [targets] table: key [i] of the vocabulary names field [i] of the record. *)
Definition perm_keys : list string := permission_vocabulary.*1.
Definition perm_fields (p : Permissions) : list bool :=
  [SendMessages p; SendMedia p; SendFiles p; SendPolls p; SendStickers p; EmbedLinks p; AddMembers p; RemoveMembers p; BanMembers p; PinMessages p; EditGroup p; DeleteMessages p; ManageAdmins p; ManageCalls p; ManageInvites p; PostStories p].
Definition perm_of_fields (l : list bool) (p : Permissions) : Permissions :=
  match l with
  | [p0; p1; p2; p3; p4; p5; p6; p7; p8; p9; p10; p11; p12; p13; p14; p15] =>
      MkPermissions p0 p1 p2 p3 p4 p5 p6 p7 p8 p9 p10 p11 p12 p13 p14 p15
  | _ => p
  end.
Definition perm_index (key : string) : option nat :=
  fst <$> list_find (λ k, k = key) perm_keys.
Definition perm_get (key : string) (p : Permissions) : option bool :=
  i ← perm_index key; perm_fields p !! i.
Definition perm_set (key : string) (b : bool) (p : Permissions) : Permissions :=
  match perm_index key with
  | Some i => perm_of_fields (<[i := b]> (perm_fields p)) p
  | None => p
  end.

(** ** What a role grants before any override *)
Definition PermissionsForRole (role chatType : string) : Permissions :=
  if decide (role = RoleOwner) then
    MkPermissions true true true true true true true true true true true true true true true true
  else if decide (role = RoleAdmin) then
    MkPermissions true true true true true true true true true true true true false true true true
  else if decide (role = RoleModerator) then
    MkPermissions true true true true true true false true false true false true false false false false
  else if decide (role = RoleRestricted) then
    MkPermissions true false false false false false false false false false false false false false false false
  else
    let canPost := bool_decide (chatType ≠ ChatChannel) in
    let oneToOne := bool_decide (chatType = ChatPrivate) || bool_decide (chatType = ChatSecret) in
    MkPermissions canPost canPost canPost canPost canPost canPost (bool_decide (chatType = ChatGroup)) false false oneToOne false false false oneToOne false false.

(** ** Layering overrides

    [raw] is the stored document: [None] for SQL [NULL], otherwise jsonb.  A
    document that is not a map of booleans changes nothing. *)
Definition apply_override_map (base : Permissions) (overrides : gmap string bool) : Permissions :=
  map_fold perm_set base overrides.
Definition applyOverrides (base : Permissions) (rawdoc : option json) : Permissions :=
  match rawdoc with
  | None => base
  | Some doc =>
      match decode_bool_map doc with
      | None => base
      | Some overrides => apply_override_map base overrides
      end
  end.

(** Keys that are outside the vocabulary or do not apply to this kind of chat,
    sorted. *)
Definition permission_unknown (chatType key : string) : bool :=
  match PermissionKeys !! key with
  | None => true
  | Some appliesTo =>
      (bool_decide (chatType = ChatGroup) && bool_decide (appliesTo = "channel"%string))
      || (bool_decide (chatType = ChatChannel) && bool_decide (appliesTo = "group"%string))
  end.
Definition string_le (a b : string) : Prop := String.leb a b = true.
#[export] Instance string_le_dec a b : Decision (string_le a b) := decide (String.leb a b = true).
Definition sort_strings (l : list string) : list string := merge_sort string_le l.
Definition UnknownPermissionKeys (permissions : gmap string bool) (chatType : string) : list string :=
  sort_strings (filter (λ key, permission_unknown chatType key = true) (map_to_list permissions).*1).

(** ** The field table *)
Section fields.
Implicit Types (k : string) (p : Permissions) (b : bool).

Lemma perm_fields_of_fields l p :
  length l = 16%nat → perm_fields (perm_of_fields l p) = l.
Proof. intros Hl. do 16 (destruct l as [|? l]; [done|]). by destruct l. Qed.

Lemma perm_of_fields_fields p : perm_of_fields (perm_fields p) p = p.
Proof. by destruct p. Qed.

Lemma perm_index_Some k i : perm_index k = Some i ↔ perm_keys !! i = Some k.
Proof.
  unfold perm_index. split.
  - intros [[j k'] [Hf ->]]%fmap_Some. apply list_find_Some in Hf. naive_solver.
  - intros Hi. apply fmap_Some. exists (i, k). split; [|done].
    apply list_find_Some. repeat split; [done|]. intros j k' Hj Hlt ->.
    assert (NoDup perm_keys) as Hnd by by apply (bool_decide_unpack _).
    pose proof (NoDup_lookup _ _ _ _ Hnd Hi Hj). lia.
Qed.

Lemma perm_index_lt k i : perm_index k = Some i → (i < 16)%nat.
Proof. rewrite perm_index_Some. intros Hi%lookup_lt_Some. done. Qed.

Lemma perm_index_inj k k' i : perm_index k = Some i → perm_index k' = Some i → k = k'.
Proof. rewrite !perm_index_Some. congruence. Qed.

Lemma perm_index_known k : is_Some (perm_index k) ↔ is_Some (PermissionKeys !! k).
Proof.
  unfold PermissionKeys. split.
  - intros [i Hi%perm_index_Some]. destruct (list_to_map _ !! k) eqn:Hk; [eauto|].
    apply not_elem_of_list_to_map_2 in Hk. by apply list_elem_of_lookup_2 in Hi.
  - intros [v Hv]. apply elem_of_list_to_map_2 in Hv.
    apply (list_elem_of_fmap_2 fst), list_elem_of_lookup in Hv as [i Hi].
    exists i. by apply perm_index_Some.
Qed.

Lemma perm_get_known k p :
  is_Some (perm_get k p) ↔ is_Some (PermissionKeys !! k).
Proof.
  rewrite <-perm_index_known. unfold perm_get.
  destruct (perm_index k) as [i|] eqn:Hi; simpl; [|by split; intros []].
  split; [eauto|]. intros _. apply lookup_lt_is_Some. by apply perm_index_lt in Hi.
Qed.

Lemma perm_get_set_ne k k' b p : k ≠ k' → perm_get k (perm_set k' b p) = perm_get k p.
Proof.
  intros Hne. unfold perm_set. destruct (perm_index k') as [i'|] eqn:Hi'; [|done].
  unfold perm_get. destruct (perm_index k) as [i|] eqn:Hi; [|done]. simpl.
  rewrite perm_fields_of_fields by by rewrite length_insert.
  rewrite list_lookup_insert_ne; [done|]. intros ->. by eapply Hne, perm_index_inj.
Qed.

Lemma perm_get_set_eq k b p :
  perm_get k (perm_set k b p) = (λ _, b) <$> perm_get k p.
Proof.
  unfold perm_set, perm_get. destruct (perm_index k) as [i|] eqn:Hi; [|done]. simpl.
  rewrite perm_fields_of_fields by by rewrite length_insert.
  pose proof (perm_index_lt _ _ Hi) as Hlt.
  rewrite list_lookup_insert_eq by done.
  destruct (lookup_lt_is_Some_2 (perm_fields p) i) as [v ->]; [done|done].
Qed.

(** Every field is named by a key. *)
Lemma perm_ext p1 p2 : (∀ k, perm_get k p1 = perm_get k p2) → p1 = p2.
Proof.
  intros Hk. rewrite <-(perm_of_fields_fields p1), <-(perm_of_fields_fields p2).
  assert (perm_fields p1 = perm_fields p2) as ->; [|by destruct p1, p2].
  apply list_eq. intros i. destruct (decide (i < 16)%nat) as [Hlt|Hge].
  - destruct (lookup_lt_is_Some_2 perm_keys i) as [k Hki]; [done|].
    specialize (Hk k). unfold perm_get in Hk.
    by rewrite (proj2 (perm_index_Some k i) Hki) in Hk.
  - rewrite !lookup_ge_None_2; [done| |]; simpl; lia.
Qed.
End fields.

(** ** Overrides

    The loop over a Go map visits its keys in an unspecified order; the result
    does not depend on it. *)
Lemma perm_get_apply_override_map k base (overrides : gmap string bool) :
  perm_get k (apply_override_map base overrides) =
  match overrides !! k with
  | Some b => (λ _, b) <$> perm_get k base
  | None => perm_get k base
  end.
Proof.
  unfold apply_override_map.
  apply (map_fold_weak_ind (λ p m, perm_get k p =
    match m !! k with Some b => (λ _, b) <$> perm_get k base | None => perm_get k base end)).
  { by rewrite lookup_empty. }
  intros i b m p Hi IH. destruct (decide (i = k)) as [->|Hne].
  - rewrite lookup_insert_eq, perm_get_set_eq, IH, Hi. done.
  - rewrite lookup_insert_ne by done. by rewrite perm_get_set_ne.
Qed.

(** The override a stored document holds for a key. *)
Definition override_of (rawdoc : option json) (k : string) : option bool :=
  doc ← rawdoc; overrides ← decode_bool_map doc; overrides !! k.

Lemma perm_get_applyOverrides k base rawdoc :
  perm_get k (applyOverrides base rawdoc) =
  match override_of rawdoc k with
  | Some b => (λ _, b) <$> perm_get k base
  | None => perm_get k base
  end.
Proof.
  unfold applyOverrides, override_of. destruct rawdoc as [doc|]; [|done]. simpl.
  destruct (decode_bool_map doc) as [m|]; [|done]. apply perm_get_apply_override_map.
Qed.
#[export] Hint Rewrite perm_get_applyOverrides : sobh.

Lemma applyOverrides_None base : applyOverrides base None = base.
Proof. done. Qed.

Lemma elem_of_UnknownPermissionKeys (permissions : gmap string bool) chatType k :
  k ∈ UnknownPermissionKeys permissions chatType ↔
  is_Some (permissions !! k) ∧ permission_unknown chatType k = true.
Proof.
  unfold UnknownPermissionKeys, sort_strings.
  rewrite merge_sort_Permutation, list_elem_of_filter, list_elem_of_fmap. split.
  - intros [Hu [[k' v] [-> Hin]]]. apply elem_of_map_to_list in Hin. eauto.
  - intros [[v Hv] Hu]. split; [done|]. exists (k, v). by rewrite elem_of_map_to_list.
Qed.

(** With no unknown key, every override names a field. *)
Lemma UnknownPermissionKeys_nil (permissions : gmap string bool) chatType k :
  UnknownPermissionKeys permissions chatType = [] → is_Some (permissions !! k) →
  is_Some (PermissionKeys !! k).
Proof.
  intros Hnil Hk. destruct (PermissionKeys !! k) eqn:Hlook; [eauto|].
  assert (k ∈ UnknownPermissionKeys permissions chatType) as Hin.
  { apply elem_of_UnknownPermissionKeys. split; [done|]. unfold permission_unknown. by rewrite Hlook. }
  rewrite Hnil in Hin. by apply not_elem_of_nil in Hin.
Qed.
