(* ===== verification/Store.v ===== *)
(** * The tables ([database/migrations/*.up.sql])

    The relational state the messaging and group modules share, one finite map
    per table keyed by its primary key, the Go structures the repositories read
    into, and the setters the statements use.  Columns no modelled statement
    reads or writes are left out. *)

From stdpp Require Import base tactics list gmap strings sorting.
From Stdlib Require Import ZArith Lia.
From S2P Require Import Prelude GoString Httpx Permissions.

Set Default Goal Selector "!".
Open Scope Z_scope.

(** ** Go structures *)

(** [messaging.ForwardInfo] *)
Record ForwardInfo := MkForward {
  fwd_chat : option uuid;
  fwd_message : option uuid;
  fwd_user : option uuid;
  fwd_signature : string;
}.

(** [messaging.Attachment] *)
Record Attachment := MkAttachment {
  att_media : uuid;
  att_position : Z;
  att_caption : string;
}.

(** [messaging.ReactionGroup] *)
Record ReactionGroup := MkReactionGroup {
  rg_emoji : string;
  rg_count : Z;
  rg_by_me : bool;
}.

(** [messaging.Message] *)
Record Message := MkMessage {
  mID : uuid;
  mChatID : uuid;
  mSeq : Z;
  mSenderID : option uuid;
  mClientMessageID : uuid;
  mType : string;
  mContent : string;
  mEntities : json;
  mPayload : json;
  mReplyToID : option uuid;
  mForwardFrom : option ForwardInfo;
  mAttachments : list Attachment;
  mReactions : list ReactionGroup;
  mReplyMarkup : option json;
  mAuthorSignature : string;
  mTopicID : option uuid;
  mIsPinned : bool;
  mViewCount : Z;
  mCreatedAt : time;
  mEditedAt : option time;
  mDeletedAt : option time;
}.

(** What the messaging module writes into [user_events.payload] and publishes:
    the Go maps it marshals. *)
Inductive event_payload :=
| PayloadMessage (chat_id : uuid) (message : Message)
| PayloadDeleted (chat_id message_id : uuid) (seq : Z)
| PayloadCleared (chat_id : uuid) (upto_seq : Z) (for_everyone : bool)
| PayloadRead (chat_id user_id : uuid) (last_read_seq : Z)
| PayloadReaction (chat_id message_id user_id : uuid) (emoji : string) (added : bool)
| PayloadTyping (chat_id user_id : uuid)
| PayloadMember (chat_id user_id : uuid) (by_id : option uuid)
| PayloadChat (chat_id : uuid)
| PayloadOther (body : json).

(** ** Rows *)

(** [users], with [user_profiles.display_name] when there is a profile row *)
Record user_row := MkUser {
  u_username : option string;
  u_display_name : option string;
  u_avatar_media_id : option uuid;
  u_is_bot : bool;
  u_deleted_at : option time;
}.

(** [chats] *)
Record chat_row := MkChat {
  c_type : string;
  c_title : string;
  c_description : string;
  c_photo_media_id : option uuid;
  c_username : option string;
  c_creator_id : option uuid;
  c_last_seq : Z;
  c_last_message_id : option uuid;
  c_last_message_at : option time;
  c_member_count : Z;
  c_is_public : bool;
  c_updated_at : time;
  c_deleted_at : option time;
}.
Definition with_c_last_seq (v : Z) (r : chat_row) : chat_row :=
  MkChat (c_type r) (c_title r) (c_description r) (c_photo_media_id r) (c_username r) (c_creator_id r) v (c_last_message_id r) (c_last_message_at r) (c_member_count r) (c_is_public r) (c_updated_at r) (c_deleted_at r).
Definition with_c_last_message_id (v : option uuid) (r : chat_row) : chat_row :=
  MkChat (c_type r) (c_title r) (c_description r) (c_photo_media_id r) (c_username r) (c_creator_id r) (c_last_seq r) v (c_last_message_at r) (c_member_count r) (c_is_public r) (c_updated_at r) (c_deleted_at r).
Definition with_c_last_message_at (v : option time) (r : chat_row) : chat_row :=
  MkChat (c_type r) (c_title r) (c_description r) (c_photo_media_id r) (c_username r) (c_creator_id r) (c_last_seq r) (c_last_message_id r) v (c_member_count r) (c_is_public r) (c_updated_at r) (c_deleted_at r).
Definition with_c_member_count (v : Z) (r : chat_row) : chat_row :=
  MkChat (c_type r) (c_title r) (c_description r) (c_photo_media_id r) (c_username r) (c_creator_id r) (c_last_seq r) (c_last_message_id r) (c_last_message_at r) v (c_is_public r) (c_updated_at r) (c_deleted_at r).
Definition with_c_updated_at (v : time) (r : chat_row) : chat_row :=
  MkChat (c_type r) (c_title r) (c_description r) (c_photo_media_id r) (c_username r) (c_creator_id r) (c_last_seq r) (c_last_message_id r) (c_last_message_at r) (c_member_count r) (c_is_public r) v (c_deleted_at r).
Definition with_c_deleted_at (v : option time) (r : chat_row) : chat_row :=
  MkChat (c_type r) (c_title r) (c_description r) (c_photo_media_id r) (c_username r) (c_creator_id r) (c_last_seq r) (c_last_message_id r) (c_last_message_at r) (c_member_count r) (c_is_public r) (c_updated_at r) v.
Definition with_c_title (v : string) (r : chat_row) : chat_row :=
  MkChat (c_type r) v (c_description r) (c_photo_media_id r) (c_username r) (c_creator_id r) (c_last_seq r) (c_last_message_id r) (c_last_message_at r) (c_member_count r) (c_is_public r) (c_updated_at r) (c_deleted_at r).
Definition with_c_description (v : string) (r : chat_row) : chat_row :=
  MkChat (c_type r) (c_title r) v (c_photo_media_id r) (c_username r) (c_creator_id r) (c_last_seq r) (c_last_message_id r) (c_last_message_at r) (c_member_count r) (c_is_public r) (c_updated_at r) (c_deleted_at r).
Definition with_c_photo_media_id (v : option uuid) (r : chat_row) : chat_row :=
  MkChat (c_type r) (c_title r) (c_description r) v (c_username r) (c_creator_id r) (c_last_seq r) (c_last_message_id r) (c_last_message_at r) (c_member_count r) (c_is_public r) (c_updated_at r) (c_deleted_at r).
Definition with_c_username (v : option string) (r : chat_row) : chat_row :=
  MkChat (c_type r) (c_title r) (c_description r) (c_photo_media_id r) v (c_creator_id r) (c_last_seq r) (c_last_message_id r) (c_last_message_at r) (c_member_count r) (c_is_public r) (c_updated_at r) (c_deleted_at r).

(** [chat_members], keyed by [(chat_id, user_id)] *)
Record member_row := MkMember {
  m_role : string;
  m_permissions : option json;
  m_custom_title : string;
  m_last_read_seq : Z;
  m_last_delivered_seq : Z;
  m_unread_count : Z;
  m_mention_count : Z;
  m_draft : string;
  m_joined_at : time;
  m_invited_by : option uuid;
  m_left_at : option time;
  m_muted_until : option time;
  m_custom_role_id : option uuid;
  m_history_cleared_seq : Z;
}.
Definition with_m_role (v : string) (r : member_row) : member_row :=
  MkMember v (m_permissions r) (m_custom_title r) (m_last_read_seq r) (m_last_delivered_seq r) (m_unread_count r) (m_mention_count r) (m_draft r) (m_joined_at r) (m_invited_by r) (m_left_at r) (m_muted_until r) (m_custom_role_id r) (m_history_cleared_seq r).
Definition with_m_permissions (v : option json) (r : member_row) : member_row :=
  MkMember (m_role r) v (m_custom_title r) (m_last_read_seq r) (m_last_delivered_seq r) (m_unread_count r) (m_mention_count r) (m_draft r) (m_joined_at r) (m_invited_by r) (m_left_at r) (m_muted_until r) (m_custom_role_id r) (m_history_cleared_seq r).
Definition with_m_custom_title (v : string) (r : member_row) : member_row :=
  MkMember (m_role r) (m_permissions r) v (m_last_read_seq r) (m_last_delivered_seq r) (m_unread_count r) (m_mention_count r) (m_draft r) (m_joined_at r) (m_invited_by r) (m_left_at r) (m_muted_until r) (m_custom_role_id r) (m_history_cleared_seq r).
Definition with_m_last_read_seq (v : Z) (r : member_row) : member_row :=
  MkMember (m_role r) (m_permissions r) (m_custom_title r) v (m_last_delivered_seq r) (m_unread_count r) (m_mention_count r) (m_draft r) (m_joined_at r) (m_invited_by r) (m_left_at r) (m_muted_until r) (m_custom_role_id r) (m_history_cleared_seq r).
Definition with_m_last_delivered_seq (v : Z) (r : member_row) : member_row :=
  MkMember (m_role r) (m_permissions r) (m_custom_title r) (m_last_read_seq r) v (m_unread_count r) (m_mention_count r) (m_draft r) (m_joined_at r) (m_invited_by r) (m_left_at r) (m_muted_until r) (m_custom_role_id r) (m_history_cleared_seq r).
Definition with_m_unread_count (v : Z) (r : member_row) : member_row :=
  MkMember (m_role r) (m_permissions r) (m_custom_title r) (m_last_read_seq r) (m_last_delivered_seq r) v (m_mention_count r) (m_draft r) (m_joined_at r) (m_invited_by r) (m_left_at r) (m_muted_until r) (m_custom_role_id r) (m_history_cleared_seq r).
Definition with_m_mention_count (v : Z) (r : member_row) : member_row :=
  MkMember (m_role r) (m_permissions r) (m_custom_title r) (m_last_read_seq r) (m_last_delivered_seq r) (m_unread_count r) v (m_draft r) (m_joined_at r) (m_invited_by r) (m_left_at r) (m_muted_until r) (m_custom_role_id r) (m_history_cleared_seq r).
Definition with_m_draft (v : string) (r : member_row) : member_row :=
  MkMember (m_role r) (m_permissions r) (m_custom_title r) (m_last_read_seq r) (m_last_delivered_seq r) (m_unread_count r) (m_mention_count r) v (m_joined_at r) (m_invited_by r) (m_left_at r) (m_muted_until r) (m_custom_role_id r) (m_history_cleared_seq r).
Definition with_m_joined_at (v : time) (r : member_row) : member_row :=
  MkMember (m_role r) (m_permissions r) (m_custom_title r) (m_last_read_seq r) (m_last_delivered_seq r) (m_unread_count r) (m_mention_count r) (m_draft r) v (m_invited_by r) (m_left_at r) (m_muted_until r) (m_custom_role_id r) (m_history_cleared_seq r).
Definition with_m_left_at (v : option time) (r : member_row) : member_row :=
  MkMember (m_role r) (m_permissions r) (m_custom_title r) (m_last_read_seq r) (m_last_delivered_seq r) (m_unread_count r) (m_mention_count r) (m_draft r) (m_joined_at r) (m_invited_by r) v (m_muted_until r) (m_custom_role_id r) (m_history_cleared_seq r).
Definition with_m_custom_role_id (v : option uuid) (r : member_row) : member_row :=
  MkMember (m_role r) (m_permissions r) (m_custom_title r) (m_last_read_seq r) (m_last_delivered_seq r) (m_unread_count r) (m_mention_count r) (m_draft r) (m_joined_at r) (m_invited_by r) (m_left_at r) (m_muted_until r) v (m_history_cleared_seq r).
Definition with_m_history_cleared_seq (v : Z) (r : member_row) : member_row :=
  MkMember (m_role r) (m_permissions r) (m_custom_title r) (m_last_read_seq r) (m_last_delivered_seq r) (m_unread_count r) (m_mention_count r) (m_draft r) (m_joined_at r) (m_invited_by r) (m_left_at r) (m_muted_until r) (m_custom_role_id r) v.
Definition with_m_invited_by (v : option uuid) (r : member_row) : member_row :=
  MkMember (m_role r) (m_permissions r) (m_custom_title r) (m_last_read_seq r) (m_last_delivered_seq r) (m_unread_count r) (m_mention_count r) (m_draft r) (m_joined_at r) v (m_left_at r) (m_muted_until r) (m_custom_role_id r) (m_history_cleared_seq r).

(** [chat_settings] *)
Record settings_row := MkSettings {
  s_slow_mode_seconds : Z;
  s_history_visible_to_new : bool;
  s_join_requires_approval : bool;
  s_max_members : Z;
  s_auto_delete_seconds : Z;
  s_default_permissions : json;
}.

(** [groups] *)
Record group_row := MkGroup {
  g_is_broadcast : bool;
  g_is_forum : bool;
  g_sticker_set : string;
  g_linked_channel_id : option uuid;
}.
Definition with_g_is_broadcast (v : bool) (r : group_row) : group_row :=
  MkGroup v (g_is_forum r) (g_sticker_set r) (g_linked_channel_id r).
Definition with_g_is_forum (v : bool) (r : group_row) : group_row :=
  MkGroup (g_is_broadcast r) v (g_sticker_set r) (g_linked_channel_id r).
Definition with_g_sticker_set (v : string) (r : group_row) : group_row :=
  MkGroup (g_is_broadcast r) (g_is_forum r) v (g_linked_channel_id r).
Definition with_g_linked_channel_id (v : option uuid) (r : group_row) : group_row :=
  MkGroup (g_is_broadcast r) (g_is_forum r) (g_sticker_set r) v.

(** [channels] *)
Record channel_row := MkChannel {
  ch_subscriber_count : Z;
  ch_signature_enabled : bool;
  ch_comments_enabled : bool;
  ch_discussion_chat_id : option uuid;
}.
Definition with_ch_subscriber_count (v : Z) (r : channel_row) : channel_row :=
  MkChannel v (ch_signature_enabled r) (ch_comments_enabled r) (ch_discussion_chat_id r).
Definition with_ch_signature_enabled (v : bool) (r : channel_row) : channel_row :=
  MkChannel (ch_subscriber_count r) v (ch_comments_enabled r) (ch_discussion_chat_id r).
Definition with_ch_comments_enabled (v : bool) (r : channel_row) : channel_row :=
  MkChannel (ch_subscriber_count r) (ch_signature_enabled r) v (ch_discussion_chat_id r).
Definition with_ch_discussion_chat_id (v : option uuid) (r : channel_row) : channel_row :=
  MkChannel (ch_subscriber_count r) (ch_signature_enabled r) (ch_comments_enabled r) v.

(** [group_roles] *)
Record role_row := MkRole {
  ro_chat_id : uuid;
  ro_name : string;
  ro_permissions : json;
  ro_rank : Z;
  ro_created_at : time;
}.
Definition with_ro_name (v : string) (r : role_row) : role_row :=
  MkRole (ro_chat_id r) v (ro_permissions r) (ro_rank r) (ro_created_at r).
Definition with_ro_permissions (v : json) (r : role_row) : role_row :=
  MkRole (ro_chat_id r) (ro_name r) v (ro_rank r) (ro_created_at r).
Definition with_ro_rank (v : Z) (r : role_row) : role_row :=
  MkRole (ro_chat_id r) (ro_name r) (ro_permissions r) v (ro_created_at r).

(** [messages] *)
Record message_row := MkMessageRow {
  r_chat_id : uuid;
  r_seq : Z;
  r_sender_id : option uuid;
  r_client_message_id : uuid;
  r_type : string;
  r_content : string;
  r_entities : json;
  r_payload : json;
  r_reply_to_id : option uuid;
  r_forward_chat : option uuid;
  r_forward_message : option uuid;
  r_forward_user : option uuid;
  r_forward_signature : string;
  r_view_count : Z;
  r_is_pinned : bool;
  r_is_silent : bool;
  r_created_at : time;
  r_edited_at : option time;
  r_deleted_at : option time;
  r_deleted_by : option uuid;
  r_reply_markup : option json;
  r_topic_id : option uuid;
  r_author_signature : string;
}.
Definition with_r_content (v : string) (r : message_row) : message_row :=
  MkMessageRow (r_chat_id r) (r_seq r) (r_sender_id r) (r_client_message_id r) (r_type r) v (r_entities r) (r_payload r) (r_reply_to_id r) (r_forward_chat r) (r_forward_message r) (r_forward_user r) (r_forward_signature r) (r_view_count r) (r_is_pinned r) (r_is_silent r) (r_created_at r) (r_edited_at r) (r_deleted_at r) (r_deleted_by r) (r_reply_markup r) (r_topic_id r) (r_author_signature r).
Definition with_r_entities (v : json) (r : message_row) : message_row :=
  MkMessageRow (r_chat_id r) (r_seq r) (r_sender_id r) (r_client_message_id r) (r_type r) (r_content r) v (r_payload r) (r_reply_to_id r) (r_forward_chat r) (r_forward_message r) (r_forward_user r) (r_forward_signature r) (r_view_count r) (r_is_pinned r) (r_is_silent r) (r_created_at r) (r_edited_at r) (r_deleted_at r) (r_deleted_by r) (r_reply_markup r) (r_topic_id r) (r_author_signature r).
Definition with_r_payload (v : json) (r : message_row) : message_row :=
  MkMessageRow (r_chat_id r) (r_seq r) (r_sender_id r) (r_client_message_id r) (r_type r) (r_content r) (r_entities r) v (r_reply_to_id r) (r_forward_chat r) (r_forward_message r) (r_forward_user r) (r_forward_signature r) (r_view_count r) (r_is_pinned r) (r_is_silent r) (r_created_at r) (r_edited_at r) (r_deleted_at r) (r_deleted_by r) (r_reply_markup r) (r_topic_id r) (r_author_signature r).
Definition with_r_is_pinned (v : bool) (r : message_row) : message_row :=
  MkMessageRow (r_chat_id r) (r_seq r) (r_sender_id r) (r_client_message_id r) (r_type r) (r_content r) (r_entities r) (r_payload r) (r_reply_to_id r) (r_forward_chat r) (r_forward_message r) (r_forward_user r) (r_forward_signature r) (r_view_count r) v (r_is_silent r) (r_created_at r) (r_edited_at r) (r_deleted_at r) (r_deleted_by r) (r_reply_markup r) (r_topic_id r) (r_author_signature r).
Definition with_r_edited_at (v : option time) (r : message_row) : message_row :=
  MkMessageRow (r_chat_id r) (r_seq r) (r_sender_id r) (r_client_message_id r) (r_type r) (r_content r) (r_entities r) (r_payload r) (r_reply_to_id r) (r_forward_chat r) (r_forward_message r) (r_forward_user r) (r_forward_signature r) (r_view_count r) (r_is_pinned r) (r_is_silent r) (r_created_at r) v (r_deleted_at r) (r_deleted_by r) (r_reply_markup r) (r_topic_id r) (r_author_signature r).
Definition with_r_deleted_at (v : option time) (r : message_row) : message_row :=
  MkMessageRow (r_chat_id r) (r_seq r) (r_sender_id r) (r_client_message_id r) (r_type r) (r_content r) (r_entities r) (r_payload r) (r_reply_to_id r) (r_forward_chat r) (r_forward_message r) (r_forward_user r) (r_forward_signature r) (r_view_count r) (r_is_pinned r) (r_is_silent r) (r_created_at r) (r_edited_at r) v (r_deleted_by r) (r_reply_markup r) (r_topic_id r) (r_author_signature r).
Definition with_r_deleted_by (v : option uuid) (r : message_row) : message_row :=
  MkMessageRow (r_chat_id r) (r_seq r) (r_sender_id r) (r_client_message_id r) (r_type r) (r_content r) (r_entities r) (r_payload r) (r_reply_to_id r) (r_forward_chat r) (r_forward_message r) (r_forward_user r) (r_forward_signature r) (r_view_count r) (r_is_pinned r) (r_is_silent r) (r_created_at r) (r_edited_at r) (r_deleted_at r) v (r_reply_markup r) (r_topic_id r) (r_author_signature r).
Definition with_r_reply_markup (v : option json) (r : message_row) : message_row :=
  MkMessageRow (r_chat_id r) (r_seq r) (r_sender_id r) (r_client_message_id r) (r_type r) (r_content r) (r_entities r) (r_payload r) (r_reply_to_id r) (r_forward_chat r) (r_forward_message r) (r_forward_user r) (r_forward_signature r) (r_view_count r) (r_is_pinned r) (r_is_silent r) (r_created_at r) (r_edited_at r) (r_deleted_at r) (r_deleted_by r) v (r_topic_id r) (r_author_signature r).
Definition with_r_view_count (v : Z) (r : message_row) : message_row :=
  MkMessageRow (r_chat_id r) (r_seq r) (r_sender_id r) (r_client_message_id r) (r_type r) (r_content r) (r_entities r) (r_payload r) (r_reply_to_id r) (r_forward_chat r) (r_forward_message r) (r_forward_user r) (r_forward_signature r) v (r_is_pinned r) (r_is_silent r) (r_created_at r) (r_edited_at r) (r_deleted_at r) (r_deleted_by r) (r_reply_markup r) (r_topic_id r) (r_author_signature r).
Definition with_r_topic_id (v : option uuid) (r : message_row) : message_row :=
  MkMessageRow (r_chat_id r) (r_seq r) (r_sender_id r) (r_client_message_id r) (r_type r) (r_content r) (r_entities r) (r_payload r) (r_reply_to_id r) (r_forward_chat r) (r_forward_message r) (r_forward_user r) (r_forward_signature r) (r_view_count r) (r_is_pinned r) (r_is_silent r) (r_created_at r) (r_edited_at r) (r_deleted_at r) (r_deleted_by r) (r_reply_markup r) v (r_author_signature r).

(** [message_edits] *)
Record edit_row := MkEdit {
  e_message_id : uuid;
  e_previous_content : string;
  e_edited_by : uuid;
  e_edited_at : time;
}.

(** [forum_topics] *)
Record topic_row := MkTopic {
  t_chat_id : uuid;
  t_title : string;
  t_icon_color : Z;
  t_icon_emoji : string;
  t_created_by : option uuid;
  t_is_general : bool;
  t_is_closed : bool;
  t_is_hidden : bool;
  t_is_pinned : bool;
  t_message_count : Z;
  t_last_message_at : time;
  t_created_at : time;
  t_deleted_at : option time;
}.
Definition with_t_message_count (v : Z) (r : topic_row) : topic_row :=
  MkTopic (t_chat_id r) (t_title r) (t_icon_color r) (t_icon_emoji r) (t_created_by r) (t_is_general r) (t_is_closed r) (t_is_hidden r) (t_is_pinned r) v (t_last_message_at r) (t_created_at r) (t_deleted_at r).
Definition with_t_last_message_at (v : time) (r : topic_row) : topic_row :=
  MkTopic (t_chat_id r) (t_title r) (t_icon_color r) (t_icon_emoji r) (t_created_by r) (t_is_general r) (t_is_closed r) (t_is_hidden r) (t_is_pinned r) (t_message_count r) v (t_created_at r) (t_deleted_at r).
Definition with_t_deleted_at (v : option time) (r : topic_row) : topic_row :=
  MkTopic (t_chat_id r) (t_title r) (t_icon_color r) (t_icon_emoji r) (t_created_by r) (t_is_general r) (t_is_closed r) (t_is_hidden r) (t_is_pinned r) (t_message_count r) (t_last_message_at r) (t_created_at r) v.

(** [forum_topic_reads], keyed by [(topic_id, user_id)] *)
Record topic_read_row := MkTopicRead {
  tr_last_read_seq : Z;
  tr_unread_count : Z;
}.
Definition with_tr_unread_count (v : Z) (r : topic_read_row) : topic_read_row :=
  MkTopicRead (tr_last_read_seq r) v.

(** [user_events], keyed by [(user_id, seq)] *)
Record event_row := MkEvent {
  ev_type : string;
  ev_payload : event_payload;
  ev_created_at : time;
}.

(** [devices] *)
Record device_row := MkDevice {
  d_user_id : uuid;
  d_sync_cursor : Z;
  d_revoked_at : option time;
}.

(** [chat_join_requests], keyed by [(chat_id, user_id)] *)
Record join_request_row := MkJoinRequest {
  jr_status : string;
  jr_invite_link_id : option uuid;
  jr_created_at : time;
  jr_resolved_at : option time;
  jr_resolved_by : option uuid;
}.
Definition with_jr_status (v : string) (r : join_request_row) : join_request_row :=
  MkJoinRequest v (jr_invite_link_id r) (jr_created_at r) (jr_resolved_at r) (jr_resolved_by r).
Definition with_jr_created_at (v : time) (r : join_request_row) : join_request_row :=
  MkJoinRequest (jr_status r) (jr_invite_link_id r) v (jr_resolved_at r) (jr_resolved_by r).
Definition with_jr_resolved_at (v : option time) (r : join_request_row) : join_request_row :=
  MkJoinRequest (jr_status r) (jr_invite_link_id r) (jr_created_at r) v (jr_resolved_by r).
Definition with_jr_resolved_by (v : option uuid) (r : join_request_row) : join_request_row :=
  MkJoinRequest (jr_status r) (jr_invite_link_id r) (jr_created_at r) (jr_resolved_at r) v.

(** [chat_invite_links] *)
Record invite_row := MkInvite {
  il_chat_id : uuid;
  il_slug : string;
  il_created_by : option uuid;
  il_name : string;
  il_member_limit : option Z;
  il_usage_count : Z;
  il_expires_at : option time;
  il_revoked_at : option time;
  il_created_at : time;
}.
Definition with_il_usage_count (v : Z) (r : invite_row) : invite_row :=
  MkInvite (il_chat_id r) (il_slug r) (il_created_by r) (il_name r) (il_member_limit r) v (il_expires_at r) (il_revoked_at r) (il_created_at r).
Definition with_il_revoked_at (v : option time) (r : invite_row) : invite_row :=
  MkInvite (il_chat_id r) (il_slug r) (il_created_by r) (il_name r) (il_member_limit r) (il_usage_count r) (il_expires_at r) v (il_created_at r).

(** [sticker_sets] *)
Record sticker_set_row := MkStickerSet {
  ss_slug : string;
  ss_deleted_at : option time;
}.

(** [channel_post_stats], keyed by the post *)
Record post_stats_row := MkPostStatsRow {
  ps_chat_id : uuid;
  ps_view_count : Z;
  ps_forward_count : Z;
  ps_reaction_count : Z;
  ps_comment_count : Z;
}.
Definition with_ps_view_count (v : Z) (r : post_stats_row) : post_stats_row :=
  MkPostStatsRow (ps_chat_id r) v (ps_forward_count r) (ps_reaction_count r) (ps_comment_count r).
Definition with_ps_comment_count (v : Z) (r : post_stats_row) : post_stats_row :=
  MkPostStatsRow (ps_chat_id r) (ps_view_count r) (ps_forward_count r) (ps_reaction_count r) v.

(** [channel_post_comments], keyed by the post *)
Record post_comments_row := MkPostComments {
  pc_channel_chat_id : uuid;
  pc_discussion_chat_id : uuid;
  pc_discussion_message_id : uuid;
}.

(** ** The database *)
(** [private_chat_keys] is keyed by its unique [(user_a_id, user_b_id)] and holds the chat; the link tables of reactions, receipts, mentions and contacts are keyed by all their columns. *)
Record db := MkDb {
  users : gmap uuid user_row;
  chats : gmap uuid chat_row;
  private_chat_keys : gmap (uuid * uuid) uuid;
  chat_members : gmap (uuid * uuid) member_row;
  chat_settings : gmap uuid settings_row;
  groups : gmap uuid group_row;
  channels : gmap uuid channel_row;
  group_roles : gmap uuid role_row;
  messages : gmap uuid message_row;
  message_attachments : gmap (uuid * uuid) Attachment;
  message_reactions : gmap (uuid * uuid * string) time;
  message_reads : gmap (uuid * uuid) time;
  message_mentions : gset (uuid * uuid);
  message_edits : list edit_row;
  forum_topics : gmap uuid topic_row;
  forum_topic_reads : gmap (uuid * uuid) topic_read_row;
  user_event_counters : gmap uuid Z;
  user_events : gmap (uuid * Z) event_row;
  devices : gmap uuid device_row;
  contacts : gset (uuid * uuid);
  chat_join_requests : gmap (uuid * uuid) join_request_row;
  chat_invite_links : gmap uuid invite_row;
  sticker_sets : gmap uuid sticker_set_row;
  channel_post_views : gset (uuid * uuid);
  channel_post_stats : gmap uuid post_stats_row;
  channel_post_comments : gmap uuid post_comments_row;
}.
Definition with_users (v : gmap uuid user_row) (r : db) : db :=
  MkDb v (chats r) (private_chat_keys r) (chat_members r) (chat_settings r) (groups r) (channels r) (group_roles r) (messages r) (message_attachments r) (message_reactions r) (message_reads r) (message_mentions r) (message_edits r) (forum_topics r) (forum_topic_reads r) (user_event_counters r) (user_events r) (devices r) (contacts r) (chat_join_requests r) (chat_invite_links r) (sticker_sets r) (channel_post_views r) (channel_post_stats r) (channel_post_comments r).
Definition with_chats (v : gmap uuid chat_row) (r : db) : db :=
  MkDb (users r) v (private_chat_keys r) (chat_members r) (chat_settings r) (groups r) (channels r) (group_roles r) (messages r) (message_attachments r) (message_reactions r) (message_reads r) (message_mentions r) (message_edits r) (forum_topics r) (forum_topic_reads r) (user_event_counters r) (user_events r) (devices r) (contacts r) (chat_join_requests r) (chat_invite_links r) (sticker_sets r) (channel_post_views r) (channel_post_stats r) (channel_post_comments r).
Definition with_private_chat_keys (v : gmap (uuid * uuid) uuid) (r : db) : db :=
  MkDb (users r) (chats r) v (chat_members r) (chat_settings r) (groups r) (channels r) (group_roles r) (messages r) (message_attachments r) (message_reactions r) (message_reads r) (message_mentions r) (message_edits r) (forum_topics r) (forum_topic_reads r) (user_event_counters r) (user_events r) (devices r) (contacts r) (chat_join_requests r) (chat_invite_links r) (sticker_sets r) (channel_post_views r) (channel_post_stats r) (channel_post_comments r).
Definition with_chat_members (v : gmap (uuid * uuid) member_row) (r : db) : db :=
  MkDb (users r) (chats r) (private_chat_keys r) v (chat_settings r) (groups r) (channels r) (group_roles r) (messages r) (message_attachments r) (message_reactions r) (message_reads r) (message_mentions r) (message_edits r) (forum_topics r) (forum_topic_reads r) (user_event_counters r) (user_events r) (devices r) (contacts r) (chat_join_requests r) (chat_invite_links r) (sticker_sets r) (channel_post_views r) (channel_post_stats r) (channel_post_comments r).
Definition with_chat_settings (v : gmap uuid settings_row) (r : db) : db :=
  MkDb (users r) (chats r) (private_chat_keys r) (chat_members r) v (groups r) (channels r) (group_roles r) (messages r) (message_attachments r) (message_reactions r) (message_reads r) (message_mentions r) (message_edits r) (forum_topics r) (forum_topic_reads r) (user_event_counters r) (user_events r) (devices r) (contacts r) (chat_join_requests r) (chat_invite_links r) (sticker_sets r) (channel_post_views r) (channel_post_stats r) (channel_post_comments r).
Definition with_groups (v : gmap uuid group_row) (r : db) : db :=
  MkDb (users r) (chats r) (private_chat_keys r) (chat_members r) (chat_settings r) v (channels r) (group_roles r) (messages r) (message_attachments r) (message_reactions r) (message_reads r) (message_mentions r) (message_edits r) (forum_topics r) (forum_topic_reads r) (user_event_counters r) (user_events r) (devices r) (contacts r) (chat_join_requests r) (chat_invite_links r) (sticker_sets r) (channel_post_views r) (channel_post_stats r) (channel_post_comments r).
Definition with_channels (v : gmap uuid channel_row) (r : db) : db :=
  MkDb (users r) (chats r) (private_chat_keys r) (chat_members r) (chat_settings r) (groups r) v (group_roles r) (messages r) (message_attachments r) (message_reactions r) (message_reads r) (message_mentions r) (message_edits r) (forum_topics r) (forum_topic_reads r) (user_event_counters r) (user_events r) (devices r) (contacts r) (chat_join_requests r) (chat_invite_links r) (sticker_sets r) (channel_post_views r) (channel_post_stats r) (channel_post_comments r).
Definition with_group_roles (v : gmap uuid role_row) (r : db) : db :=
  MkDb (users r) (chats r) (private_chat_keys r) (chat_members r) (chat_settings r) (groups r) (channels r) v (messages r) (message_attachments r) (message_reactions r) (message_reads r) (message_mentions r) (message_edits r) (forum_topics r) (forum_topic_reads r) (user_event_counters r) (user_events r) (devices r) (contacts r) (chat_join_requests r) (chat_invite_links r) (sticker_sets r) (channel_post_views r) (channel_post_stats r) (channel_post_comments r).
Definition with_messages (v : gmap uuid message_row) (r : db) : db :=
  MkDb (users r) (chats r) (private_chat_keys r) (chat_members r) (chat_settings r) (groups r) (channels r) (group_roles r) v (message_attachments r) (message_reactions r) (message_reads r) (message_mentions r) (message_edits r) (forum_topics r) (forum_topic_reads r) (user_event_counters r) (user_events r) (devices r) (contacts r) (chat_join_requests r) (chat_invite_links r) (sticker_sets r) (channel_post_views r) (channel_post_stats r) (channel_post_comments r).
Definition with_message_attachments (v : gmap (uuid * uuid) Attachment) (r : db) : db :=
  MkDb (users r) (chats r) (private_chat_keys r) (chat_members r) (chat_settings r) (groups r) (channels r) (group_roles r) (messages r) v (message_reactions r) (message_reads r) (message_mentions r) (message_edits r) (forum_topics r) (forum_topic_reads r) (user_event_counters r) (user_events r) (devices r) (contacts r) (chat_join_requests r) (chat_invite_links r) (sticker_sets r) (channel_post_views r) (channel_post_stats r) (channel_post_comments r).
Definition with_message_reactions (v : gmap (uuid * uuid * string) time) (r : db) : db :=
  MkDb (users r) (chats r) (private_chat_keys r) (chat_members r) (chat_settings r) (groups r) (channels r) (group_roles r) (messages r) (message_attachments r) v (message_reads r) (message_mentions r) (message_edits r) (forum_topics r) (forum_topic_reads r) (user_event_counters r) (user_events r) (devices r) (contacts r) (chat_join_requests r) (chat_invite_links r) (sticker_sets r) (channel_post_views r) (channel_post_stats r) (channel_post_comments r).
Definition with_message_reads (v : gmap (uuid * uuid) time) (r : db) : db :=
  MkDb (users r) (chats r) (private_chat_keys r) (chat_members r) (chat_settings r) (groups r) (channels r) (group_roles r) (messages r) (message_attachments r) (message_reactions r) v (message_mentions r) (message_edits r) (forum_topics r) (forum_topic_reads r) (user_event_counters r) (user_events r) (devices r) (contacts r) (chat_join_requests r) (chat_invite_links r) (sticker_sets r) (channel_post_views r) (channel_post_stats r) (channel_post_comments r).
Definition with_message_mentions (v : gset (uuid * uuid)) (r : db) : db :=
  MkDb (users r) (chats r) (private_chat_keys r) (chat_members r) (chat_settings r) (groups r) (channels r) (group_roles r) (messages r) (message_attachments r) (message_reactions r) (message_reads r) v (message_edits r) (forum_topics r) (forum_topic_reads r) (user_event_counters r) (user_events r) (devices r) (contacts r) (chat_join_requests r) (chat_invite_links r) (sticker_sets r) (channel_post_views r) (channel_post_stats r) (channel_post_comments r).
Definition with_message_edits (v : list edit_row) (r : db) : db :=
  MkDb (users r) (chats r) (private_chat_keys r) (chat_members r) (chat_settings r) (groups r) (channels r) (group_roles r) (messages r) (message_attachments r) (message_reactions r) (message_reads r) (message_mentions r) v (forum_topics r) (forum_topic_reads r) (user_event_counters r) (user_events r) (devices r) (contacts r) (chat_join_requests r) (chat_invite_links r) (sticker_sets r) (channel_post_views r) (channel_post_stats r) (channel_post_comments r).
Definition with_forum_topics (v : gmap uuid topic_row) (r : db) : db :=
  MkDb (users r) (chats r) (private_chat_keys r) (chat_members r) (chat_settings r) (groups r) (channels r) (group_roles r) (messages r) (message_attachments r) (message_reactions r) (message_reads r) (message_mentions r) (message_edits r) v (forum_topic_reads r) (user_event_counters r) (user_events r) (devices r) (contacts r) (chat_join_requests r) (chat_invite_links r) (sticker_sets r) (channel_post_views r) (channel_post_stats r) (channel_post_comments r).
Definition with_forum_topic_reads (v : gmap (uuid * uuid) topic_read_row) (r : db) : db :=
  MkDb (users r) (chats r) (private_chat_keys r) (chat_members r) (chat_settings r) (groups r) (channels r) (group_roles r) (messages r) (message_attachments r) (message_reactions r) (message_reads r) (message_mentions r) (message_edits r) (forum_topics r) v (user_event_counters r) (user_events r) (devices r) (contacts r) (chat_join_requests r) (chat_invite_links r) (sticker_sets r) (channel_post_views r) (channel_post_stats r) (channel_post_comments r).
Definition with_user_event_counters (v : gmap uuid Z) (r : db) : db :=
  MkDb (users r) (chats r) (private_chat_keys r) (chat_members r) (chat_settings r) (groups r) (channels r) (group_roles r) (messages r) (message_attachments r) (message_reactions r) (message_reads r) (message_mentions r) (message_edits r) (forum_topics r) (forum_topic_reads r) v (user_events r) (devices r) (contacts r) (chat_join_requests r) (chat_invite_links r) (sticker_sets r) (channel_post_views r) (channel_post_stats r) (channel_post_comments r).
Definition with_user_events (v : gmap (uuid * Z) event_row) (r : db) : db :=
  MkDb (users r) (chats r) (private_chat_keys r) (chat_members r) (chat_settings r) (groups r) (channels r) (group_roles r) (messages r) (message_attachments r) (message_reactions r) (message_reads r) (message_mentions r) (message_edits r) (forum_topics r) (forum_topic_reads r) (user_event_counters r) v (devices r) (contacts r) (chat_join_requests r) (chat_invite_links r) (sticker_sets r) (channel_post_views r) (channel_post_stats r) (channel_post_comments r).
Definition with_devices (v : gmap uuid device_row) (r : db) : db :=
  MkDb (users r) (chats r) (private_chat_keys r) (chat_members r) (chat_settings r) (groups r) (channels r) (group_roles r) (messages r) (message_attachments r) (message_reactions r) (message_reads r) (message_mentions r) (message_edits r) (forum_topics r) (forum_topic_reads r) (user_event_counters r) (user_events r) v (contacts r) (chat_join_requests r) (chat_invite_links r) (sticker_sets r) (channel_post_views r) (channel_post_stats r) (channel_post_comments r).
Definition with_contacts (v : gset (uuid * uuid)) (r : db) : db :=
  MkDb (users r) (chats r) (private_chat_keys r) (chat_members r) (chat_settings r) (groups r) (channels r) (group_roles r) (messages r) (message_attachments r) (message_reactions r) (message_reads r) (message_mentions r) (message_edits r) (forum_topics r) (forum_topic_reads r) (user_event_counters r) (user_events r) (devices r) v (chat_join_requests r) (chat_invite_links r) (sticker_sets r) (channel_post_views r) (channel_post_stats r) (channel_post_comments r).
Definition with_chat_join_requests (v : gmap (uuid * uuid) join_request_row) (r : db) : db :=
  MkDb (users r) (chats r) (private_chat_keys r) (chat_members r) (chat_settings r) (groups r) (channels r) (group_roles r) (messages r) (message_attachments r) (message_reactions r) (message_reads r) (message_mentions r) (message_edits r) (forum_topics r) (forum_topic_reads r) (user_event_counters r) (user_events r) (devices r) (contacts r) v (chat_invite_links r) (sticker_sets r) (channel_post_views r) (channel_post_stats r) (channel_post_comments r).
Definition with_chat_invite_links (v : gmap uuid invite_row) (r : db) : db :=
  MkDb (users r) (chats r) (private_chat_keys r) (chat_members r) (chat_settings r) (groups r) (channels r) (group_roles r) (messages r) (message_attachments r) (message_reactions r) (message_reads r) (message_mentions r) (message_edits r) (forum_topics r) (forum_topic_reads r) (user_event_counters r) (user_events r) (devices r) (contacts r) (chat_join_requests r) v (sticker_sets r) (channel_post_views r) (channel_post_stats r) (channel_post_comments r).
Definition with_sticker_sets (v : gmap uuid sticker_set_row) (r : db) : db :=
  MkDb (users r) (chats r) (private_chat_keys r) (chat_members r) (chat_settings r) (groups r) (channels r) (group_roles r) (messages r) (message_attachments r) (message_reactions r) (message_reads r) (message_mentions r) (message_edits r) (forum_topics r) (forum_topic_reads r) (user_event_counters r) (user_events r) (devices r) (contacts r) (chat_join_requests r) (chat_invite_links r) v (channel_post_views r) (channel_post_stats r) (channel_post_comments r).
Definition with_channel_post_views (v : gset (uuid * uuid)) (r : db) : db :=
  MkDb (users r) (chats r) (private_chat_keys r) (chat_members r) (chat_settings r) (groups r) (channels r) (group_roles r) (messages r) (message_attachments r) (message_reactions r) (message_reads r) (message_mentions r) (message_edits r) (forum_topics r) (forum_topic_reads r) (user_event_counters r) (user_events r) (devices r) (contacts r) (chat_join_requests r) (chat_invite_links r) (sticker_sets r) v (channel_post_stats r) (channel_post_comments r).
Definition with_channel_post_stats (v : gmap uuid post_stats_row) (r : db) : db :=
  MkDb (users r) (chats r) (private_chat_keys r) (chat_members r) (chat_settings r) (groups r) (channels r) (group_roles r) (messages r) (message_attachments r) (message_reactions r) (message_reads r) (message_mentions r) (message_edits r) (forum_topics r) (forum_topic_reads r) (user_event_counters r) (user_events r) (devices r) (contacts r) (chat_join_requests r) (chat_invite_links r) (sticker_sets r) (channel_post_views r) v (channel_post_comments r).
Definition with_channel_post_comments (v : gmap uuid post_comments_row) (r : db) : db :=
  MkDb (users r) (chats r) (private_chat_keys r) (chat_members r) (chat_settings r) (groups r) (channels r) (group_roles r) (messages r) (message_attachments r) (message_reactions r) (message_reads r) (message_mentions r) (message_edits r) (forum_topics r) (forum_topic_reads r) (user_event_counters r) (user_events r) (devices r) (contacts r) (chat_join_requests r) (chat_invite_links r) (sticker_sets r) (channel_post_views r) (channel_post_stats r) v.

Definition empty_db : db :=
  MkDb ∅ ∅ ∅ ∅ ∅ ∅ ∅ ∅ ∅ ∅ ∅ ∅ ∅ [] ∅ ∅ ∅ ∅ ∅ ∅ ∅ ∅ ∅ ∅ ∅ ∅.

(** ** Errors a repository returns

    The sentinel errors of [internal/messaging] plus what PostgreSQL reports: a
    unique or a check violation with its constraint, and a malformed jsonb
    parameter; [ErrInternal] is any other error, wrapped. *)
Inductive dberr :=
| ErrNotFound
| ErrNotMember
| ErrTopicNotFound
| ErrUnique (constraint : string)
| ErrCheck (constraint : string)
| ErrInvalidJSON
| ErrInternal.

#[export] Instance dberr_eq_dec : EqDecision dberr.
Proof. solve_decision. Defined.

(** [database.IsUniqueViolation(err)] and its form narrowed to a constraint. *)
Definition is_unique_violation (e : dberr) : bool :=
  match e with ErrUnique _ => true | _ => false end.
Definition is_unique_violation_of (c : string) (e : dberr) : bool :=
  match e with ErrUnique c' => bool_decide (c = c') | _ => false end.

(** [nullableJSON] against a jsonb column: absent is [NULL], bytes that are not
    JSON are refused by the column's type. *)
Definition nullableJSON (r : raw) : result dberr (option json) :=
  match r with
  | RawNil => Ok None
  | RawInvalid => Err ErrInvalidJSON
  | RawDoc j => Ok (Some j)
  end.
Definition lift_result {A} (r : result dberr A) : prog db dberr A := λ d, (r, d).
