(* ===== verification/ChatContext.v ===== *)
(** * The authorisation snapshot ([ChatContextFor], [internal/messaging/repository.go])

    Every handler of the messaging and group services starts from the
    membership and permission snapshot computed here.  The theorems state the
    four-layer resolution of a permission as a first-match rule, which is the
    contract the services rely on. *)

From stdpp Require Import base tactics list gmap strings.
From Stdlib Require Import ZArith Lia.
From S2P Require Import Prelude GoString Httpx Permissions Store.

Set Default Goal Selector "!".
Open Scope Z_scope.

Record ChatContext := MkContext {
  ctx_chat_id : uuid;
  ctx_chat_type : string;
  ctx_member_count : Z;
  ctx_last_seq : Z;
  ctx_role : string;
  ctx_permissions : Permissions;
  ctx_slow_mode : Z;
  ctx_auto_delete : Z;
  ctx_is_member : bool;
  ctx_muted_until : option time;
  ctx_is_broadcast : bool;
  ctx_custom_role : string;
}.

(** The zero [Permissions]. *)
Definition no_permissions : Permissions :=
  MkPermissions false false false false false false false false
    false false false false false false false false.

(** [permissions.SendMessages = false], and the four lines after it. *)
Definition mute_broadcast (p : Permissions) : Permissions :=
  MkPermissions false false false false false (EmbedLinks p) (AddMembers p)
    (RemoveMembers p) (BanMembers p) (PinMessages p) (EditGroup p) (DeleteMessages p)
    (ManageAdmins p) (ManageCalls p) (ManageInvites p) (PostStories p).

Definition ordinary_role (role : string) : bool :=
  bool_decide (role = RoleMember) || bool_decide (role = RoleRestricted).

(** The three layers over the role default, in the order the code applies them. *)
Definition resolve_permissions (role chatType : string) (chatDefaults : option json)
    (isBroadcast : option bool) (rolePerms rawPerms : option json) : Permissions :=
  let permissions := PermissionsForRole role chatType in
  let permissions :=
    if ordinary_role role then
      let p := applyOverrides permissions chatDefaults in
      if default false isBroadcast then mute_broadcast p else p
    else permissions in
  applyOverrides (applyOverrides permissions rolePerms) rawPerms.

(** A current member's row: [left_at IS NULL]. *)
Definition active_member (d : db) (chatID userID : uuid) : option member_row :=
  m ← chat_members d !! (chatID, userID);
  if m_left_at m is None then Some m else None.

Definition live_chat (d : db) (chatID : uuid) : option chat_row :=
  c ← chats d !! chatID;
  if c_deleted_at c is None then Some c else None.

(** The [LEFT JOIN]s: each side is absent when no row matches. *)
Definition chat_context (d : db) (chatID userID : uuid) : option ChatContext :=
  match live_chat d chatID with
  | None => None
  | Some c =>
    let member : option member_row := active_member d chatID userID in
    let settings : option settings_row := chat_settings d !! chatID in
    let isBroadcast : option bool := g_is_broadcast <$> groups d !! chatID in
    let named : option role_row :=
      match member with
      | Some m => m_custom_role_id m ≫= λ rid, group_roles d !! rid
      | None => None
      end in
    Some (MkContext chatID (c_type c) (c_member_count c) (c_last_seq c)
      (from_option m_role ""%string member)
      (from_option (λ m, resolve_permissions (m_role m) (c_type c)
          (s_default_permissions <$> settings) isBroadcast
          (ro_permissions <$> named) (m_permissions m)) no_permissions member)
      (from_option s_slow_mode_seconds 0 settings)
      (from_option s_auto_delete_seconds 0 settings)
      (bool_decide (is_Some member))
      (match member with Some m => m_muted_until m | None => None end)
      (default false isBroadcast)
      (from_option ro_name ""%string named))
  end.

Definition ChatContextFor (chatID userID : uuid) : prog db dberr ChatContext := λ d,
  match chat_context d chatID userID with
  | None => (Err ErrNotFound, d)
  | Some c => (Ok c, d)
  end.

(** ** Facts shared by the services *)
Section facts.
Implicit Types (d : db) (chatID userID : uuid).

Lemma active_member_Some d chatID userID m :
  active_member d chatID userID = Some m ↔
  chat_members d !! (chatID, userID) = Some m ∧ m_left_at m = None.
Proof.
  unfold active_member. destruct (chat_members d !! (chatID, userID)) as [m'|]; simpl.
  - destruct (m_left_at m') eqn:Hl; naive_solver.
  - naive_solver.
Qed.

Lemma live_chat_Some d chatID c :
  live_chat d chatID = Some c ↔ chats d !! chatID = Some c ∧ c_deleted_at c = None.
Proof.
  unfold live_chat. destruct (chats d !! chatID) as [c'|]; simpl.
  - destruct (c_deleted_at c') eqn:Hl; naive_solver.
  - naive_solver.
Qed.

Lemma ChatContextFor_Ok d d' chatID userID cx :
  ChatContextFor chatID userID d = (Ok cx, d') →
  d' = d ∧ chat_context d chatID userID = Some cx.
Proof. unfold ChatContextFor. destruct (chat_context _ _ _); naive_solver. Qed.

Lemma chat_context_chat d chatID userID cx :
  chat_context d chatID userID = Some cx →
  ctx_chat_id cx = chatID ∧
  ∃ c, live_chat d chatID = Some c ∧ ctx_chat_type cx = c_type c
       ∧ ctx_member_count cx = c_member_count c ∧ ctx_last_seq cx = c_last_seq c.
Proof.
  unfold chat_context. destruct (live_chat d chatID) as [c|]; [|done]. simpl.
  intros [= <-]. naive_solver.
Qed.

Lemma chat_context_member d chatID userID cx :
  chat_context d chatID userID = Some cx → ctx_is_member cx = true →
  ∃ m, active_member d chatID userID = Some m ∧ ctx_role cx = m_role m.
Proof.
  unfold chat_context. destruct (live_chat d chatID) as [c|]; [|done]. simpl.
  intros [= <-]. simpl. destruct (active_member d chatID userID); naive_solver.
Qed.
End facts.

(** ** The resolution rule

    The contract: for each key of the vocabulary the first layer that decides
    it wins, from the member's own override outwards. *)
Definition broadcast_keys : list string :=
  ["send_messages"; "send_media"; "send_files"; "send_polls"; "send_stickers"]%string.

Definition permission_rule (role chatType : string) (chatDefaults : option json)
    (isBroadcast : option bool) (rolePerms rawPerms : option json) (key : string) : option bool :=
  base ← perm_get key (PermissionsForRole role chatType);
  Some (
    match override_of rawPerms key with
    | Some b => b
    | None =>
      match override_of rolePerms key with
      | Some b => b
      | None =>
        if ordinary_role role then
          if default false isBroadcast && bool_decide (key ∈ broadcast_keys) then false
          else default base (override_of chatDefaults key)
        else base
      end
    end).

Lemma perm_get_mute_broadcast key p :
  perm_get key (mute_broadcast p) =
  if bool_decide (key ∈ broadcast_keys) then Some false else perm_get key p.
Proof.
  destruct p. unfold perm_get.
  destruct (perm_index key) as [i|] eqn:Hi; simpl.
  - apply perm_index_Some in Hi.
    do 16 (destruct i as [|i]; [by injection Hi as <-|]).
    apply lookup_lt_Some in Hi. simpl in Hi. lia.
  - rewrite bool_decide_false; [done|]. intros Hin. unfold broadcast_keys in Hin.
    repeat (apply elem_of_cons in Hin as [->|Hin]; [done|]). by apply not_elem_of_nil in Hin.
Qed.

(** Resolving a member's permissions is a first-match rule over layers: the
    member's own override decides a permission if it mentions it, else the named
    role, else (ordinary members only) broadcast mode and the chat-wide defaults,
    else the default of the built-in role.  Staff are exempt from the chat-wide
    layer. *)
Lemma resolve_permissions_rule role chatType chatDefaults isBroadcast rolePerms rawPerms key :
  perm_get key (resolve_permissions role chatType chatDefaults isBroadcast rolePerms rawPerms) =
  permission_rule role chatType chatDefaults isBroadcast rolePerms rawPerms key.
Proof.
  unfold resolve_permissions, permission_rule.
  rewrite !perm_get_applyOverrides.
  destruct (perm_get key (PermissionsForRole role chatType)) as [base|] eqn:Hbase; simpl.
  - destruct (ordinary_role role), (default false isBroadcast); simpl;
      rewrite ?perm_get_mute_broadcast, ?perm_get_applyOverrides, ?Hbase;
      destruct (override_of rawPerms key), (override_of rolePerms key),
        (override_of chatDefaults key); simpl; try done;
      by case_bool_decide.
  - assert (PermissionKeys !! key = None) as Hu.
    { apply eq_None_not_Some. rewrite <-(perm_get_known key (PermissionsForRole role chatType)).
      rewrite Hbase. by intros []. }
    assert (∀ p, perm_get key p = None) as Hnone.
    { intros p. apply eq_None_not_Some. rewrite perm_get_known, Hu. by intros []. }
    rewrite Hnone. by destruct (override_of rawPerms key), (override_of rolePerms key).
Qed.
