(* ===== verification/EventLog.v ===== *)
(** * The per-user event log ([internal/messaging/repository.go], sync section)

    Each user has a counter and a log of numbered events; a device keeps a
    cursor into it.  The log is what makes delivery reliable: the realtime path
    may drop a frame, a device that comes back asks for everything after its
    cursor.  Modelled: the append a chat event makes for every member, the
    append for one user, reading by cursor, the device registry and its cursor
    ([internal/auth/repository.go]), and pruning. *)

From stdpp Require Import base tactics list relations sorting gmap strings.
From Stdlib Require Import ZArith Lia.
From S2P Require Import Prelude GoString Httpx Permissions Store.

Set Default Goal Selector "!".
Open Scope Z_scope.

(** ** Membership queries *)

(** [chat_id = $1 AND left_at IS NULL] *)
Definition active_in (chatID : uuid) (k : uuid * uuid) (m : member_row) : bool :=
  bool_decide (k.1 = chatID) && (if m_left_at m is None then true else false).

Definition ChatMemberIDs (chatID : uuid) (d : db) : list uuid :=
  (rows_where (active_in chatID) (chat_members d)).*1.*2.

(** ** Writing *)

(** One [INSERT INTO user_events]: the primary key is [(user_id, seq)]. *)
Definition insert_event (ev : event_row) (us : uuid * Z) : prog db dberr () := λ d,
  match user_events d !! us with
  | Some _ => (Err (ErrUnique "user_events_pkey"), d)
  | None => (Ok (), with_user_events (<[us := ev]> (user_events d)) d)
  end.

(** The [recipients], [locked] and [bumped] tables of the statement. *)
Definition recipients_of (chatID : uuid) (d : db) : list uuid :=
  order_by Z.of_N (ChatMemberIDs chatID d).
Definition bumped (us : list uuid) (d : db) : list (uuid * Z) :=
  omap (λ u, (λ s, (u, s + 1)) <$> user_event_counters d !! u) us.

Definition appendUserEvents (now : time) (chatID : uuid) (eventType : string)
    (payload : event_payload) : prog db dberr (list uuid * gmap uuid Z) := λ d,
  let us := recipients_of chatID d in
  let rows := bumped us d in
  let d1 := with_user_event_counters
    (update_where (λ u _, bool_decide (u ∈ us)) (λ _ s, s + 1) (user_event_counters d)) d in
  match for_each rows (insert_event (MkEvent eventType payload now)) d1 with
  | (Ok _, d2) => (Ok (rows.*1, list_to_map rows), d2)
  | (Err e, d2) => (Err e, d2)
  end.

(** [INSERT INTO user_event_counters ... ON CONFLICT DO UPDATE ... RETURNING last_seq] *)
Definition bump_event_counter (userID : uuid) : prog db dberr Z := λ d,
  let seq := match user_event_counters d !! userID with Some s => s + 1 | None => 1 end in
  (Ok seq, with_user_event_counters (<[userID := seq]> (user_event_counters d)) d).

Definition PublishUserEvent (now : time) (userID : uuid) (eventType : string)
    (payload : event_payload) : prog db dberr Z :=
  in_tx (
    seq ← bump_event_counter userID;
    insert_event (MkEvent eventType payload now) (userID, seq) ≫= λ _,
    mret seq).

(** ** Reading *)

(** [messaging.Event] *)
Record Event := MkGoEvent {
  evSeq : Z;
  evType : string;
  evPayload : event_payload;
  evCreatedAt : time;
}.

Definition to_event (kv : (uuid * Z) * event_row) : Event :=
  MkGoEvent kv.1.2 (ev_type kv.2) (ev_payload kv.2) (ev_created_at kv.2).

(** The whole log of a user after a cursor, in order. *)
Definition log_after (userID : uuid) (cursor : Z) (d : db) : list Event :=
  order_by evSeq (to_event <$>
    rows_where (λ k _, bool_decide (k.1 = userID) && (cursor <? k.2)) (user_events d)).

Definition EventsSince (userID : uuid) (cursor limit : Z) (d : db) : list Event * Z :=
  (take (Z.to_nat limit) (log_after userID cursor d),
   default 0 (user_event_counters d !! userID)).

(** [Service.Sync] *)
Definition sync_limit (limit : Z) : Z :=
  if (limit <=? 0) || (500 <? limit) then 200 else limit.
Definition Sync (userID : uuid) (cursor limit : Z) (d : db) : list Event * Z :=
  EventsSince userID cursor (sync_limit limit) d.

(** ** Devices ([internal/auth/repository.go]) *)

Definition live_device_of (userID : uuid) (_ : uuid) (r : device_row) : bool :=
  bool_decide (d_user_id r = userID) && (if d_revoked_at r is None then true else false).

Inductive device_err := ErrTooManyDevices | ErrDeviceKey.

Definition UpsertDevice (new_id userID : uuid) (maxDevices : Z) : prog db device_err uuid := λ d,
  if maxDevices <=? count_where (live_device_of userID) (devices d)
  then (Err ErrTooManyDevices, d)
  else match devices d !! new_id with
       | Some _ => (Err ErrDeviceKey, d)
       | None => (Ok new_id, with_devices (<[new_id := MkDevice userID 0 None]> (devices d)) d)
       end.

Definition UpdateSyncCursor (deviceID : uuid) (cursor : Z) (d : db) : db :=
  with_devices (update_where (λ k _, bool_decide (k = deviceID))
    (λ _ r, MkDevice (d_user_id r) (Z.max (d_sync_cursor r) cursor) (d_revoked_at r))
    (devices d)) d.

(** ** Pruning *)

(** [min(d.sync_cursor)] over the user's live devices; [None] without one. *)
Definition min_cursor (userID : uuid) (d : db) : option Z :=
  match (λ kr, d_sync_cursor kr.2) <$> rows_where (live_device_of userID) (devices d) with
  | [] => None
  | c :: cs => Some (foldr Z.min c cs)
  end.

Definition prunable (now olderThan : Z) (d : db) (k : uuid * Z) (e : event_row) : bool :=
  (ev_created_at e <? now - olderThan) && (k.2 <=? default k.2 (min_cursor k.1 d)).

Definition PruneEvents (now olderThan : Z) (d : db) : Z * db :=
  (count_where (prunable now olderThan d) (user_events d),
   with_user_events (delete_where (prunable now olderThan d) (user_events d)) d).

(** ** The invariant of the log

    Numbers start at 1 and never exceed the owner's counter, so a number that
    was given out is never given out again. *)
Definition log_ok (d : db) : Prop :=
  ∀ u s e, user_events d !! (u, s) = Some e →
    ∃ c, user_event_counters d !! u = Some c ∧ 1 ≤ s ≤ c.

Definition counters_nonneg (d : db) : Prop :=
  ∀ u c, user_event_counters d !! u = Some c → 0 ≤ c.

(** ** Facts about the statements *)
Section append_facts.
Implicit Types (d : db) (u : uuid) (s : Z) (ev : event_row).

Lemma active_in_true chatID k m :
  active_in chatID k m = true ↔ k.1 = chatID ∧ m_left_at m = None.
Proof.
  unfold active_in. rewrite andb_true_iff, bool_decide_eq_true.
  destruct (m_left_at m); naive_solver.
Qed.

Lemma elem_of_ChatMemberIDs chatID d u :
  u ∈ ChatMemberIDs chatID d ↔
  ∃ m, chat_members d !! (chatID, u) = Some m ∧ m_left_at m = None.
Proof.
  unfold ChatMemberIDs. rewrite list_elem_of_fmap. split.
  - intros [[c u'] [-> Hin]]. apply list_elem_of_fmap in Hin as [[k m] [Hk Hin]].
    apply elem_of_rows_where in Hin as [Hl Ha]. simpl in *. subst k.
    apply active_in_true in Ha as [Hc Ha]. simpl in Hc. subst c. eauto.
  - intros (m & Hl & Ha). exists (chatID, u). split; [done|].
    apply list_elem_of_fmap. exists ((chatID, u), m). split; [done|].
    apply elem_of_rows_where. split; [done|]. by apply active_in_true.
Qed.

Lemma NoDup_ChatMemberIDs chatID d : NoDup (ChatMemberIDs chatID d).
Proof.
  unfold ChatMemberIDs. apply NoDup_fmap_2_strong; [|apply NoDup_fst_rows_where].
  intros [c1 u1] [c2 u2] [[k1 m1] [-> H1]]%list_elem_of_fmap [[k2 m2] [-> H2]]%list_elem_of_fmap Heq.
  apply elem_of_rows_where in H1 as [_ H1]. apply elem_of_rows_where in H2 as [_ H2].
  apply active_in_true in H1 as [H1 _]. apply active_in_true in H2 as [H2 _].
  simpl in *. destruct k1, k2. simpl in *. congruence.
Qed.

Lemma elem_of_recipients_of chatID d u : u ∈ recipients_of chatID d ↔ u ∈ ChatMemberIDs chatID d.
Proof. apply elem_of_order_by. Qed.

Lemma elem_of_bumped us d u s :
  (u, s) ∈ bumped us d ↔ u ∈ us ∧ user_event_counters d !! u = Some (s - 1).
Proof.
  unfold bumped. rewrite list_elem_of_omap. split.
  - intros (u' & Hin & Heq). destruct (user_event_counters d !! u') as [c|] eqn:Hc; [|done].
    simpl in Heq. injection Heq as -> <-. split; [done|]. rewrite Hc. f_equal. lia.
  - intros [Hin Hc]. exists u. split; [done|]. rewrite Hc. simpl. do 2 f_equal. lia.
Qed.

Lemma bumped_cons u us d :
  bumped (u :: us) d =
  match user_event_counters d !! u with
  | Some s => (u, s + 1) :: bumped us d
  | None => bumped us d
  end.
Proof. unfold bumped. cbn. by destruct (user_event_counters d !! u). Qed.

Lemma bumped_fst us d :
  (bumped us d).*1 = filter (λ u, is_Some (user_event_counters d !! u)) us.
Proof.
  induction us as [|u us IH]; [done|]. rewrite bumped_cons.
  destruct (user_event_counters d !! u) as [c|] eqn:Hc.
  - rewrite filter_cons_True by (rewrite Hc; eauto). by rewrite fmap_cons, IH.
  - rewrite filter_cons_False by (rewrite Hc; by intros [? [=]]). done.
Qed.

Lemma NoDup_bumped_fst chatID d : NoDup (bumped (recipients_of chatID d) d).*1.
Proof.
  rewrite bumped_fst. apply NoDup_filter. unfold recipients_of.
  rewrite order_by_Permutation. apply NoDup_ChatMemberIDs.
Qed.

Lemma for_each_insert_event ev (rows : list (uuid * Z)) d :
  NoDup rows → (∀ us, us ∈ rows → user_events d !! us = None) →
  for_each rows (insert_event ev) d =
  (Ok (), with_user_events (gset_to_gmap ev (list_to_set rows) ∪ user_events d) d).
Proof.
  revert d. induction rows as [|us rows IH]; intros d Hnd Hfresh.
  - cbn. unfold mret, prog_ret. rewrite gset_to_gmap_empty, (left_id_L ∅ (∪)). by destruct d.
  - apply NoDup_cons in Hnd as [Hni Hnd]. simpl. unfold mbind, prog_bind.
    unfold insert_event at 1. rewrite (Hfresh us) by (by left).
    rewrite IH; [|done|].
    + unfold with_user_events. simpl. do 2 f_equal. rewrite gset_to_gmap_union_singleton.
      rewrite <-insert_union_l, <-insert_union_r; [done|].
      apply lookup_gset_to_gmap_None. by rewrite elem_of_list_to_set.
    + intros us' Hin. simpl. rewrite lookup_insert_ne by (intros ->; done).
      apply Hfresh. by right.
Qed.

(** The append, in closed form, on a log whose numbers are below its counters. *)
Definition appended (now : time) (chatID : uuid) (eventType : string)
    (payload : event_payload) (d : db) : db :=
  let rows := bumped (recipients_of chatID d) d in
  with_user_events
    (gset_to_gmap (MkEvent eventType payload now) (list_to_set rows) ∪ user_events d)
    (with_user_event_counters
      (update_where (λ u _, bool_decide (u ∈ recipients_of chatID d)) (λ _ s, s + 1)
        (user_event_counters d)) d).

Lemma appendUserEvents_run now chatID eventType payload d :
  log_ok d →
  appendUserEvents now chatID eventType payload d =
  (Ok ((bumped (recipients_of chatID d) d).*1,
       list_to_map (bumped (recipients_of chatID d) d)),
   appended now chatID eventType payload d).
Proof.
  intros Hok. unfold appendUserEvents. rewrite for_each_insert_event; [done| |].
  - eapply NoDup_fmap_1, NoDup_bumped_fst.
  - intros [u s] [Hin Hc]%elem_of_bumped. simpl.
    destruct (user_events d !! (u, s)) as [e|] eqn:He; [|done].
    destruct (Hok _ _ _ He) as (c & Hc' & ?). rewrite Hc in Hc'. injection Hc' as <-. lia.
Qed.

Lemma lookup_appended_events now chatID eventType payload d u s :
  user_events (appended now chatID eventType payload d) !! (u, s) =
  if bool_decide ((u, s) ∈ bumped (recipients_of chatID d) d)
  then Some (MkEvent eventType payload now) else user_events d !! (u, s).
Proof.
  unfold appended. simpl. case_bool_decide as Hin.
  - apply lookup_union_Some_l. rewrite lookup_gset_to_gmap_Some. set_solver.
  - rewrite lookup_union_r; [done|]. rewrite lookup_gset_to_gmap_None. set_solver.
Qed.

Lemma lookup_appended_counters now chatID eventType payload d u :
  user_event_counters (appended now chatID eventType payload d) !! u =
  (λ c, if bool_decide (u ∈ ChatMemberIDs chatID d) then c + 1 else c)
    <$> user_event_counters d !! u.
Proof.
  unfold appended. simpl. rewrite lookup_update_where.
  destruct (user_event_counters d !! u); simpl; [|done].
  by rewrite (bool_decide_ext _ _ (elem_of_recipients_of chatID d u)).
Qed.

Lemma appended_log_ok now chatID eventType payload d :
  log_ok d → counters_nonneg d → log_ok (appended now chatID eventType payload d).
Proof.
  intros Hok Hnn u s e. rewrite lookup_appended_events, lookup_appended_counters.
  case_bool_decide as Hin.
  - intros _. apply elem_of_bumped in Hin as [Hr Hc]. rewrite Hc. simpl.
    rewrite bool_decide_true by (by apply elem_of_recipients_of).
    eexists. split; [done|]. specialize (Hnn _ _ Hc). lia.
  - intros He. destruct (Hok _ _ _ He) as (c & -> & ?). simpl. eexists. split; [done|].
    case_bool_decide; lia.
Qed.

Lemma appended_counters_nonneg now chatID eventType payload d :
  counters_nonneg d → counters_nonneg (appended now chatID eventType payload d).
Proof.
  intros Hnn u c. rewrite lookup_appended_counters.
  destruct (user_event_counters d !! u) as [c0|] eqn:Hc; simpl; [|done].
  intros [= <-]. specialize (Hnn _ _ Hc). case_bool_decide; lia.
Qed.
End append_facts.

(** ** Reading *)
Section read_facts.
Implicit Types (d : db) (u : uuid) (cursor : Z).

Lemma elem_of_log_after u cursor d e :
  e ∈ log_after u cursor d ↔
  ∃ r, user_events d !! (u, evSeq e) = Some r ∧ cursor < evSeq e ∧ e = to_event ((u, evSeq e), r).
Proof.
  unfold log_after. rewrite elem_of_order_by, list_elem_of_fmap. split.
  - intros ([[u' s] r] & -> & Hin). apply elem_of_rows_where in Hin as [Hl Hc].
    simpl in *. apply andb_true_iff in Hc as [Hu Hs]. apply bool_decide_eq_true in Hu as ->.
    exists r. split; [done|]. split; [by apply Z.ltb_lt|done].
  - intros (r & Hl & Hc & He). exists ((u, evSeq e), r). split; [done|].
    apply elem_of_rows_where. split; [done|]. simpl. rewrite bool_decide_true by done.
    simpl. by apply Z.ltb_lt.
Qed.

Lemma log_after_keys u cursor d :
  NoDup (evSeq <$> (to_event <$>
    rows_where (λ k _, bool_decide (k.1 = u) && (cursor <? k.2)) (user_events d))).
Proof.
  rewrite <-list_fmap_compose. apply NoDup_fmap_2_strong; [|apply NoDup_rows_where].
  intros [[u1 s1] r1] [[u2 s2] r2] H1 H2 Heq.
  apply elem_of_rows_where in H1 as [H1 [Hu1 _]%andb_true_iff].
  apply elem_of_rows_where in H2 as [H2 [Hu2 _]%andb_true_iff].
  simpl in *. apply bool_decide_eq_true in Hu1 as ->, Hu2 as ->. subst s2.
  rewrite H1 in H2. congruence.
Qed.

Lemma log_after_sorted u cursor d : StronglySorted (key_lt evSeq) (log_after u cursor d).
Proof. apply order_by_strict, log_after_keys. Qed.

Lemma log_after_next u cursor d e :
  e ∈ log_after u cursor d →
  log_after u (evSeq e) d = filter (λ y, evSeq e < evSeq y) (log_after u cursor d).
Proof.
  intros He. apply (StronglySorted_strict_unique evSeq).
  - apply log_after_sorted.
  - apply StronglySorted_key_lt_filter, log_after_sorted.
  - intros y. rewrite list_elem_of_filter, !elem_of_log_after.
    apply elem_of_log_after in He as (_ & _ & Hc & _). split.
    + intros (r & ? & ? & ?). split; [lia|]. exists r. repeat split; [done|lia|done].
    + intros (? & r & ? & ? & ?). exists r. done.
Qed.

Lemma sync_limit_range limit : 1 ≤ sync_limit limit ≤ 500.
Proof.
  unfold sync_limit.
  destruct (limit <=? 0) eqn:H1, (500 <? limit) eqn:H2; simpl;
    rewrite ?Z.leb_le, ?Z.leb_gt, ?Z.ltb_lt, ?Z.ltb_ge in *; lia.
Qed.
End read_facts.

(** A device catching up: [Sync] from its cursor, then from the last event of
    the page, until a page is empty. *)
Definition catch_up (fuel : nat) (userID : uuid) (cursor limit : Z) (d : db) : list Event :=
  pages evSeq (λ c, (Sync userID c limit d).1) fuel cursor.

(** ** Pruning and cursors *)

Section prune_facts.
Implicit Types (d : db) (u : uuid).

Lemma live_device_of_true u k r :
  live_device_of u k r = true ↔ d_user_id r = u ∧ d_revoked_at r = None.
Proof.
  unfold live_device_of. rewrite andb_true_iff, bool_decide_eq_true.
  destruct (d_revoked_at r); naive_solver.
Qed.

Lemma foldr_min_le (c : Z) cs x : x ∈ c :: cs → foldr Z.min c cs ≤ x.
Proof.
  induction cs as [|y cs IH]; simpl.
  - intros ->%list_elem_of_singleton. lia.
  - rewrite !elem_of_cons in *. intros [->|[->|H]].
    + specialize (IH ltac:(by left)). lia.
    + lia.
    + specialize (IH ltac:(by right)). lia.
Qed.

(** The pruning floor is at or below every live device's cursor. *)
Lemma min_cursor_le u dev r d :
  devices d !! dev = Some r → d_user_id r = u → d_revoked_at r = None →
  ∃ m, min_cursor u d = Some m ∧ m ≤ d_sync_cursor r.
Proof.
  intros Hl Hu Hr. unfold min_cursor.
  assert (d_sync_cursor r ∈ (λ kr : uuid * device_row, d_sync_cursor kr.2)
            <$> rows_where (live_device_of u) (devices d)) as Hin.
  { apply list_elem_of_fmap. exists (dev, r). split; [done|].
    apply elem_of_rows_where. split; [done|]. by apply live_device_of_true. }
  destruct (_ <$> _) as [|c cs]; [by apply not_elem_of_nil in Hin|].
  eexists. split; [done|]. by apply foldr_min_le.
Qed.

Lemma not_prunable now old d dev r s e :
  devices d !! dev = Some r → d_revoked_at r = None → d_sync_cursor r < s →
  prunable now old d (d_user_id r, s) e = false.
Proof.
  intros Hl Hr Hs. destruct (min_cursor_le (d_user_id r) dev r d) as (m & Hm & Hle); [done..|].
  unfold prunable. simpl. rewrite Hm. simpl. apply andb_false_iff. right. apply Z.leb_gt. lia.
Qed.
End prune_facts.

(** ** The life of the log *)

(** The operations that touch counters, events and devices; everything else
    leaves the three tables alone. *)
(** What signing a device out does to its row. *)
Definition revoke_device (now : time) (dev : uuid) (d : db) : db :=
  with_devices (update_where (λ k r, bool_decide (k = dev) && (if d_revoked_at r is None then true else false))
    (λ _ r, MkDevice (d_user_id r) (d_sync_cursor r) (Some now)) (devices d)) d.
Inductive log_step (d : db) : db → Prop :=
| step_append now chatID ty p r d' :
    appendUserEvents now chatID ty p d = (Ok r, d') → log_step d d'
| step_publish now u ty p s d' :
    PublishUserEvent now u ty p d = (Ok s, d') → log_step d d'
| step_enrol new_id u maxd r d' :
    UpsertDevice new_id u maxd d = (Ok r, d') → log_step d d'
| step_ack dev cursor : log_step d (UpdateSyncCursor dev cursor d)
| step_revoke now dev : log_step d (revoke_device now dev d)
| step_prune now old : log_step d (PruneEvents now old d).2
| step_other d' :
    user_events d' = user_events d → user_event_counters d' = user_event_counters d →
    devices d' = devices d → log_step d d'.

Definition log_good (d : db) : Prop := log_ok d ∧ counters_nonneg d.
Definition head_of (u : uuid) (d : db) : Z := default 0 (user_event_counters d !! u).

Lemma bump_event_counter_run u d :
  bump_event_counter u d =
  (Ok (default 0 (user_event_counters d !! u) + 1),
   with_user_event_counters
     (<[u := default 0 (user_event_counters d !! u) + 1]> (user_event_counters d)) d).
Proof. unfold bump_event_counter. by destruct (user_event_counters d !! u). Qed.

Definition bumped_db (u : uuid) (d : db) : db :=
  with_user_event_counters
    (<[u := default 0 (user_event_counters d !! u) + 1]> (user_event_counters d)) d.
(** One event appended to one user's log. *)
Definition published (now : time) (u : uuid) (ty : string) (p : event_payload) (d : db) : db :=
  with_user_events
    (<[(u, default 0 (user_event_counters d !! u) + 1) := MkEvent ty p now]> (user_events d))
    (bumped_db u d).

(** A bump followed by the insert never collides. *)
Lemma insert_bumped now u ty p d :
  log_ok d →
  insert_event (MkEvent ty p now) (u, default 0 (user_event_counters d !! u) + 1) (bumped_db u d) =
  (Ok (), published now u ty p d).
Proof.
  intros Hok. unfold insert_event. simpl.
  destruct (user_events d !! (u, _)) as [e|] eqn:He; [|done].
  destruct (Hok _ _ _ He) as (c & Hc & ?). rewrite Hc in *. simpl in *. lia.
Qed.

Lemma PublishUserEvent_run now u ty p d :
  log_ok d →
  PublishUserEvent now u ty p d =
  (Ok (default 0 (user_event_counters d !! u) + 1), published now u ty p d).
Proof.
  intros Hok. unfold PublishUserEvent, in_tx, mbind, prog_bind.
  rewrite bump_event_counter_run. fold (bumped_db u d). by rewrite insert_bumped.
Qed.

Section log_invariant.
Implicit Types (d : db) (u dev : uuid).

Lemma published_log_ok now u ty p d :
  log_ok d → counters_nonneg d →
  log_ok (published now u ty p d) ∧ counters_nonneg (published now u ty p d).
Proof.
  intros Hok Hnn.
  assert (0 ≤ default 0 (user_event_counters d !! u)) as Hnn'.
  { destruct (user_event_counters d !! u) as [c|] eqn:Hc; simpl; [by apply Hnn in Hc|lia]. }
  split.
  - intros u' s' e. simpl. rewrite lookup_insert_Some. intros [[[= <- <-] _]|[Hne He]].
    + eexists. rewrite lookup_insert_eq. split; [done|]. lia.
    + destruct (Hok _ _ _ He) as (c & Hc & ?). destruct (decide (u' = u)) as [->|].
      * rewrite lookup_insert_eq. eexists. split; [done|]. rewrite Hc. simpl. lia.
      * rewrite lookup_insert_ne by done. eauto.
  - intros u' c. simpl. rewrite lookup_insert_Some. intros [[-> <-]|[_ Hc]]; [lia|by apply Hnn in Hc].
Qed.

(** What a step leaves of the log, for every device that is live after it: heads only move
    up, devices keep their user, their cursors move up and a revoked one stays so; and above
    the cursor of a live one nothing is lost of what there was, and nothing is missing of what
    has been numbered since. *)
Definition device_grows (r r' : device_row) : Prop :=
  d_user_id r' = d_user_id r ∧ d_sync_cursor r ≤ d_sync_cursor r' ∧ (d_revoked_at r' = None → d_revoked_at r = None).
Definition unread_kept (d d' : db) (u : uuid) (cursor : Z) : Prop := ∀ s, cursor < s →
  (∀ e, user_events d !! (u, s) = Some e → user_events d' !! (u, s) = Some e) ∧
  (head_of u d < s ≤ head_of u d' → is_Some (user_events d' !! (u, s))).
Definition log_grows (d d' : db) : Prop :=
  log_good d → log_good d' ∧ (∀ u, head_of u d ≤ head_of u d') ∧
  ∀ dev r, devices d !! dev = Some r → ∃ r', devices d' !! dev = Some r' ∧ device_grows r r' ∧
    (d_revoked_at r' = None → unread_kept d d' (d_user_id r) (d_sync_cursor r')).
#[export] Instance log_grows_preorder : PreOrder log_grows.
Proof.
  split.
  - intros d Hg. split; [done|]. split; [done|]. intros dev r Hr. exists r. split; [done|].
    split; [by split_and!|]. intros _ s Hs. split; [done|lia].
  - intros d1 d2 d3 H12 H23 H1. destruct (H12 H1) as (H2 & Hh12 & Hd12). destruct (H23 H2) as (H3 & Hh23 & Hd23).
    split; [done|]. split; [intros u; specialize (Hh12 u); specialize (Hh23 u); lia|].
    intros dev r1 Hr1. destruct (Hd12 _ _ Hr1) as (r2 & Hr2 & (Hu2 & Hc2 & Hv2) & Hk2).
    destruct (Hd23 _ _ Hr2) as (r3 & Hr3 & (Hu3 & Hc3 & Hv3) & Hk3). exists r3. split; [done|].
    split; [split_and!; [congruence|lia|auto]|]. intros Hlive s Hs. rewrite Hu2 in Hk3.
    destruct (Hk2 (Hv3 Hlive) s) as [Ha2 Hb2]; [lia|]. destruct (Hk3 Hlive s Hs) as [Ha3 Hb3].
    split; [auto|]. intros Hr. destruct (decide (s ≤ head_of (d_user_id r1) d2)) as [Hle|Hgt].
    + destruct Hb2 as [e He]; [lia|]. exists e. by apply Ha3.
    + apply Hb3. lia.
Qed.

(** A step that adds events above the heads, and leaves the devices. *)
Lemma log_grows_adding d d' :
  devices d' = devices d → (log_good d → log_good d') → (∀ u, head_of u d ≤ head_of u d') →
  (log_good d → ∀ u s e, user_events d !! (u, s) = Some e → user_events d' !! (u, s) = Some e) →
  (log_good d → ∀ u s, head_of u d < s ≤ head_of u d' → is_Some (user_events d' !! (u, s))) → log_grows d d'.
Proof.
  intros Hd Hgood Hhead Hkeep Hnew Hg. split; [auto|]. split; [done|]. intros dev r Hr. exists r. rewrite Hd.
  split; [done|]. split; [by split_and!|]. intros _ s Hs. split; [by apply Hkeep|by apply Hnew].
Qed.
Lemma log_grows_append now chatID ty p d : log_grows d (appended now chatID ty p d).
Proof.
  apply log_grows_adding; [done|..].
  - intros [Hok Hnn]. split; [by apply appended_log_ok|by apply appended_counters_nonneg].
  - intros u. unfold head_of. rewrite lookup_appended_counters. destruct (user_event_counters d !! u); simpl; [|lia].
    case_bool_decide; lia.
  - intros [Hok _] u s e He. rewrite lookup_appended_events. rewrite bool_decide_false; [done|].
    intros [_ Hc]%elem_of_bumped. destruct (Hok _ _ _ He) as (c & Hc' & ?). rewrite Hc in Hc'. injection Hc' as <-. lia.
  - intros _ u s. unfold head_of. rewrite lookup_appended_counters, lookup_appended_events.
    destruct (user_event_counters d !! u) as [c|] eqn:Hc; simpl; [|lia].
    case_bool_decide as Hmem; [|lia]. intros Hs. assert (s = c + 1) as -> by lia. rewrite bool_decide_true; [eauto|].
    apply elem_of_bumped. split; [by apply elem_of_recipients_of|]. rewrite Hc. f_equal. lia.
Qed.
Lemma log_grows_publish now u ty p d : log_grows d (published now u ty p d).
Proof.
  apply log_grows_adding; [done|..].
  - intros [Hok Hnn]. by apply published_log_ok.
  - intros u'. unfold head_of. simpl. destruct (decide (u' = u)) as [->|Hne].
    + rewrite lookup_insert_eq. simpl. lia.
    + by rewrite lookup_insert_ne by done.
  - intros [Hok _] u' s e He. simpl. rewrite lookup_insert_ne; [done|]. intros [= <- <-].
    destruct (Hok _ _ _ He) as (c & Hc & ?). rewrite Hc in *. simpl in *. lia.
  - intros _ u' s. unfold head_of. simpl. destruct (decide (u' = u)) as [->|Hne].
    + rewrite lookup_insert_eq. simpl. intros Hs.
      assert (s = default 0 (user_event_counters d !! u) + 1) as -> by lia. rewrite lookup_insert_eq. eauto.
    + rewrite lookup_insert_ne by done. lia.
Qed.
Lemma log_grows_prune now old d : log_grows d (PruneEvents now old d).2.
Proof.
  intros [Hok Hnn]. split; [|split; [done|]].
  - split; [|done]. intros u s e. simpl. rewrite lookup_delete_where_Some. intros [He _]. by apply (Hok _ _ e).
  - intros dev r Hr. exists r. split; [done|]. split; [by split_and!|]. intros Hlive s Hs. split.
    + intros e He. simpl. rewrite lookup_delete_where_Some. split; [done|]. by eapply not_prunable.
    + unfold head_of. simpl. lia.
Qed.
Lemma log_grows_devices d d' :
  user_events d' = user_events d → user_event_counters d' = user_event_counters d →
  (∀ dev r, devices d !! dev = Some r → ∃ r', devices d' !! dev = Some r' ∧ device_grows r r') → log_grows d d'.
Proof.
  intros He Hc Hd Hg. assert (∀ u, head_of u d' = head_of u d) as Hh by (intros u; unfold head_of; by rewrite Hc).
  split; [unfold log_good, log_ok, counters_nonneg in *; by rewrite He, Hc|]. split; [intros u; by rewrite Hh|].
  intros dev r Hr. destruct (Hd _ _ Hr) as (r' & Hr' & Hgr). exists r'. split; [done|]. split; [done|].
  intros _ s Hs. rewrite He, Hh. split; [done|lia].
Qed.
Lemma log_step_grows d d' : log_good d → log_step d d' → log_grows d d'.
Proof.
  intros Hgood Hstep. destruct Hstep as [now c ty p r d' H|now u ty p s d' H|new_id u maxd r d' H
    |k cursor|now k|now old|d' He Hc Hd].
  - rewrite appendUserEvents_run in H by apply Hgood. injection H as _ <-. apply log_grows_append.
  - rewrite PublishUserEvent_run in H by apply Hgood. injection H as _ <-. apply log_grows_publish.
  - unfold UpsertDevice in H. destruct (maxd <=? _); [done|]. destruct (devices d !! new_id) as [|] eqn:Hnew; [done|].
    injection H as <- <-. apply log_grows_devices; [done..|]. intros dev r' Hr'. exists r'. simpl.
    rewrite lookup_insert_ne by congruence. split; [done|by split_and!].
  - apply log_grows_devices; [done..|]. intros dev r Hr. unfold UpdateSyncCursor. simpl. rewrite lookup_update_where, Hr.
    eexists. split; [done|]. case_bool_decide; split_and!; simpl; auto; lia.
  - apply log_grows_devices; [done..|]. intros dev r Hr. unfold revoke_device. simpl. rewrite lookup_update_where, Hr.
    eexists. split; [done|]. destruct (_ && _); by split_and!.
  - apply log_grows_prune.
  - apply log_grows_devices; [done..|]. intros dev r Hr. exists r. rewrite Hd. split; [done|by split_and!].
Qed.
Lemma log_steps_grow d d' : rtc log_step d d' → log_grows d d'.
Proof.
  induction 1 as [|d1 d2 d3 Hstep _ IH]; [reflexivity|]. intros Hg.
  pose proof (log_step_grows d1 d2 Hg Hstep) as H12. by apply (transitivity H12 IH).
Qed.
End log_invariant.

(** Appending a chat event always succeeds on a log whose numbers are below
    their counters, and writes for every current member who has a counter exactly
    one entry, numbered one above the counter and returned to the caller; nobody
    else's log changes, and the numbering invariant is kept. *)
Lemma appendUserEvents_delivers now chatID eventType payload d :
  log_ok d → counters_nonneg d →
  ∃ us seqs d', appendUserEvents now chatID eventType payload d = (Ok (us, seqs), d') ∧
    NoDup us ∧
    (∀ u, u ∈ us ↔ u ∈ ChatMemberIDs chatID d ∧ is_Some (user_event_counters d !! u)) ∧
    (∀ u s, seqs !! u = Some s ↔ u ∈ us ∧ user_event_counters d !! u = Some (s - 1)) ∧
    (∀ u s, user_events d' !! (u, s) =
       if bool_decide (seqs !! u = Some s) then Some (MkEvent eventType payload now)
       else user_events d !! (u, s)) ∧
    (∀ u, user_event_counters d' !! u =
       if bool_decide (u ∈ us) then seqs !! u else user_event_counters d !! u) ∧
    log_ok d'.
Proof.
  intros Hok Hnn. rewrite appendUserEvents_run by done.
  set (rows := bumped (recipients_of chatID d) d).
  assert (∀ u s, (list_to_map rows : gmap uuid Z) !! u = Some s ↔ (u, s) ∈ rows) as Hmap.
  { intros u s. symmetry. apply elem_of_list_to_map, NoDup_bumped_fst. }
  assert (∀ u, u ∈ rows.*1 ↔ u ∈ ChatMemberIDs chatID d ∧ is_Some (user_event_counters d !! u)) as Hus.
  { intros u. unfold rows. rewrite bumped_fst, list_elem_of_filter, elem_of_recipients_of. tauto. }
  do 3 eexists. split; [done|]. split; [apply NoDup_bumped_fst|]. split; [done|].
  split; [|split; [|split]].
  - intros u s. rewrite Hmap, Hus. unfold rows. rewrite elem_of_bumped, elem_of_recipients_of.
    naive_solver.
  - intros u s. rewrite lookup_appended_events.
    by rewrite (bool_decide_ext _ _ (Hmap u s)).
  - intros u. rewrite lookup_appended_counters, (bool_decide_ext _ _ (Hus u)).
    destruct (user_event_counters d !! u) as [c|] eqn:Hc; simpl.
    + case_bool_decide as H1; case_bool_decide as H2;
        [|by destruct H2; eauto|by destruct H1; apply H2|done].
      symmetry. apply Hmap, elem_of_bumped. rewrite elem_of_recipients_of. split; [done|].
      rewrite Hc. f_equal. lia.
    + case_bool_decide as H2; [|done]. by destruct H2 as [_ []].
  - by apply appended_log_ok.
Qed.

(** C3: No event a device has not acknowledged is lost while the device is signed in.
    Take a device at any moment, with the log as it is then, however much was pruned before it
    was enrolled; and any sequence of appends, publications, enrolments, acknowledgements,
    sign-outs and prunings after which it is still signed in.  Every event above its cursor
    that was in its user's log is still there and unchanged, and every number given out since
    then above its cursor is there too, however long the device has been away. *)
Theorem log_keeps_unacknowledged d d' dev r r' s :
  log_ok d → counters_nonneg d → rtc log_step d d' →
  devices d !! dev = Some r → devices d' !! dev = Some r' → d_revoked_at r' = None → d_sync_cursor r' < s →
  let u := d_user_id r in
  (∀ e, user_events d !! (u, s) = Some e → user_events d' !! (u, s) = Some e) ∧
  (default 0 (user_event_counters d !! u) < s ≤ default 0 (user_event_counters d' !! u) → is_Some (user_events d' !! (u, s))).
Proof.
  intros Hok Hnn Hsteps Hr Hr' Hlive Hs. destruct (log_steps_grow d d' Hsteps (conj Hok Hnn)) as (_ & _ & Hdev).
  destruct (Hdev dev r Hr) as (r0 & Hr0 & _ & Hkept). rewrite Hr' in Hr0. injection Hr0 as <-. by apply (Hkept Hlive s).
Qed.

(** C4: Catching up by pages is reading the whole log: with more fuel than there
    are events after the cursor, the pages concatenate to all of them, in order,
    whatever page size is asked for; and when none of them is missing their
    numbers are the unbroken run up to the head that [Sync] reports. *)
Theorem catch_up_complete fuel userID cursor limit d :
  (length (log_after userID cursor d) < fuel)%nat →
  catch_up fuel userID cursor limit d = log_after userID cursor d ∧
  ∀ c, log_ok d → user_event_counters d !! userID = Some c → 0 ≤ cursor ≤ c →
    (∀ s, cursor < s ≤ c → is_Some (user_events d !! (userID, s))) →
    (Sync userID cursor limit d).2 = c ∧
    evSeq <$> log_after userID cursor d = seqZ (cursor + 1) (c - cursor).
Proof.
  intros Hfuel. split.
  - unfold catch_up, Sync, EventsSince. simpl.
    apply (pages_complete evSeq evSeq (λ c, log_after userID c d)); [pose proof (sync_limit_range limit); lia| | |done].
    + intros c. apply log_after_sorted.
    + intros c x. apply log_after_next.
  - intros c Hok Hc Hcur Hall. split; [unfold Sync, EventsSince; simpl; by rewrite Hc|].
    apply (StronglySorted_strict_unique id).
    + apply StronglySorted_key_fmap, log_after_sorted.
    + apply StronglySorted_seqZ.
    + intros s. rewrite elem_of_seqZ, list_elem_of_fmap. split.
      * intros (e & -> & (r & Hl & Hs & _)%elem_of_log_after).
        destruct (Hok _ _ _ Hl) as (c' & Hc' & ?). rewrite Hc in Hc'. injection Hc' as <-. lia.
      * intros Hs. destruct (Hall s) as [r Hr]; [lia|].
        exists (to_event ((userID, s), r)). split; [done|].
        apply elem_of_log_after. exists r. split; [done|]. simpl. split; [lia|done].
Qed.

(** ** Concrete runs *)

(** A private chat 10 of users 1 and 2; user 1 has one event, which device 5
    has not acknowledged. *)
Definition sample_member : member_row :=
  MkMember RoleMember None "" 0 0 0 0 "" 0 None None None None 0.
Definition sample_log_db : db :=
  with_chat_members (<[(10, 1)%N := sample_member]> {[(10, 2)%N := sample_member]})
  (with_user_event_counters (<[1%N := 1]> {[2%N := 0]})
  (with_user_events {[(1%N, 1) := MkEvent EventMessageNew (PayloadChat 10) 0]}
  (with_devices {[5%N := MkDevice 1 0 None]} empty_db))).

Lemma sample_log_good : log_ok sample_log_db ∧ counters_nonneg sample_log_db.
Proof.
  split.
  - intros u s e. simpl. intros [[= <- <-] _]%lookup_singleton_Some. exists 1.
    split; [reflexivity|lia].
  - intros u c. simpl. intros [[_ <-]|[_ [_ <-]%lookup_singleton_Some]]%lookup_insert_Some; lia.
Qed.

Lemma appendUserEvents_delivers_witness :
  ∃ us seqs d',
    appendUserEvents 7 10 EventChatUpdated (PayloadChat 10) sample_log_db = (Ok (us, seqs), d') ∧
    us = [1; 2]%N ∧ user_events d' !! (1%N, 2) = Some (MkEvent EventChatUpdated (PayloadChat 10) 7).
Proof.
  destruct (appendUserEvents_delivers 7 10 EventChatUpdated (PayloadChat 10) sample_log_db)
    as (us & seqs & d' & Hrun & _); [apply sample_log_good..|].
  exists us, seqs, d'. split; [exact Hrun|]. vm_compute in Hrun.
  injection Hrun as <- <- <-. split; reflexivity.
Defined.

Lemma log_keeps_unacknowledged_witness :
  user_events (PruneEvents (second * 3600) 1 sample_log_db).2 !! (1%N, 1) = Some (MkEvent EventMessageNew (PayloadChat 10) 0).
Proof.
  apply (log_keeps_unacknowledged sample_log_db _ 5 (MkDevice 1 0 None) (MkDevice 1 0 None) 1).
  - apply sample_log_good.
  - apply sample_log_good.
  - apply rtc_once, step_prune.
  - reflexivity.
  - reflexivity.
  - reflexivity.
  - reflexivity.
  - reflexivity.
Defined.

Lemma catch_up_complete_witness :
  catch_up 5 1 0 1 sample_log_db = [MkGoEvent 1 EventMessageNew (PayloadChat 10) 0].
Proof.
  destruct (catch_up_complete 5 1 0 1 sample_log_db) as [-> _]; [vm_compute; lia|].
  vm_compute. reflexivity.
Defined.
