(* ===== verification/MessageRepo.v ===== *)
(** * The message store ([internal/messaging/repository.go], [topics.go])

    One definition per repository method, composed of one definition per
    statement.  A method that runs in [InTx] is [in_tx] of its body; a method
    whose statements run outside a transaction takes the commits that other
    connections may interleave as an argument ([meanwhile : db → db]). *)

From stdpp Require Import base tactics list sorting relations gmap strings.
From Stdlib Require Import ZArith Lia.
From S2P Require Import Prelude GoString Httpx Permissions Store ChatContext EventLog.

Set Default Goal Selector "!".
Open Scope Z_scope.

(** [FanoutThreshold] *)
Definition FanoutThreshold : Z := 1000.

(** ** Sending *)

Record SendParams := MkSendParams {
  sp_ChatID : uuid;
  sp_SenderID : uuid;
  sp_ClientMessageID : uuid;
  sp_Type : string;
  sp_Content : string;
  sp_Entities : raw;
  sp_Payload : raw;
  sp_ReplyToID : option uuid;
  sp_Attachments : list Attachment;
  sp_MentionUserIDs : list uuid;
  sp_Forward : option ForwardInfo;
  sp_ReplyMarkup : raw;
  sp_IsSilent : bool;
  sp_AsChat : bool;
  sp_TopicID : option uuid;
}.

Record SendResult := MkSendResult {
  sr_Message : Message;
  sr_Recipients : list uuid;
  sr_EventSeqs : gmap uuid Z;
  sr_Duplicate : bool;
  sr_FannedOut : bool;
}.

(** The fourteen columns most reads select; the other fields stay zero. *)
Definition base_message (id : uuid) (r : message_row) : Message :=
  MkMessage id (r_chat_id r) (r_seq r) (r_sender_id r) (r_client_message_id r)
    (r_type r) (r_content r) (r_entities r) (r_payload r) (r_reply_to_id r)
    None [] [] None "" None (r_is_pinned r) 0
    (r_created_at r) (r_edited_at r) (r_deleted_at r).

(** What [Send] returns: three more columns and two fields set from the request. *)
Definition sent_message (id : uuid) (r : message_row) (p : SendParams) : Message :=
  MkMessage id (r_chat_id r) (r_seq r) (r_sender_id r) (r_client_message_id r)
    (r_type r) (r_content r) (r_entities r) (r_payload r) (r_reply_to_id r)
    (sp_Forward p) (sp_Attachments p) [] (r_reply_markup r) (r_author_signature r)
    (r_topic_id r) (r_is_pinned r) 0 (r_created_at r) (r_edited_at r) (r_deleted_at r).

Definition idempotency_key (chatID senderID clientID : uuid) (_ : uuid) (r : message_row) : bool :=
  bool_decide (r_chat_id r = chatID) && bool_decide (r_sender_id r = Some senderID)
  && bool_decide (r_client_message_id r = clientID).

Definition messageByClientID (chatID senderID clientID : uuid) : prog db dberr Message := λ d,
  match rows_where (idempotency_key chatID senderID clientID) (messages d) with
  | (id, r) :: _ => (Ok (base_message id r), d)
  | [] => (Err ErrNotFound, d)
  end.

(** The constraints of [messages], in the order the server checks them. *)
Definition at_seq (chatID : uuid) (seq : Z) (_ : uuid) (r : message_row) : bool :=
  bool_decide (r_chat_id r = chatID) && (r_seq r =? seq).
Definition insert_message (id : uuid) (r : message_row) : prog db dberr () := λ d,
  if bool_decide (r_type r ∉ ValidMessageTypes) then (Err (ErrCheck "messages_type_check"), d)
  else if bool_decide (is_Some (r_reply_markup r)) && bool_decide (r_sender_id r = None)
  then (Err (ErrCheck "messages_markup_needs_sender"), d)
  else if bool_decide (is_Some (messages d !! id)) then (Err (ErrUnique "messages_pkey"), d)
  else if negb (count_where (at_seq (r_chat_id r) (r_seq r)) (messages d) =? 0)
  then (Err (ErrUnique "messages_chat_id_seq_key"), d)
  else if match r_sender_id r with
          | Some s => negb (count_where
              (idempotency_key (r_chat_id r) s (r_client_message_id r)) (messages d) =? 0)
          | None => false
          end
  then (Err (ErrUnique "messages_idempotency_key"), d)
  else (Ok (), with_messages (<[id := r]> (messages d)) d).

Definition insert_attachment (messageID : uuid) (a : Attachment) : prog db dberr () := λ d,
  match message_attachments d !! (messageID, att_media a) with
  | Some _ => (Err (ErrUnique "message_attachments_pkey"), d)
  | None => (Ok (), with_message_attachments
      (<[(messageID, att_media a) := a]> (message_attachments d)) d)
  end.

(** [INSERT INTO message_mentions ... ON CONFLICT DO NOTHING] *)
Definition insert_mentions (messageID : uuid) (us : list uuid) (d : db) : db :=
  with_message_mentions (list_to_set (pair messageID <$> us) ∪ message_mentions d) d.

(** The signature subquery: a channel with signatures on, a staff sender. *)
Definition nullif_empty (s : string) : option string :=
  if bool_decide (s = ""%string) then None else Some s.
Definition author_signature (chatID senderID : uuid) (d : db) : string :=
  match channels d !! chatID, chat_members d !! (chatID, senderID), users d !! senderID with
  | Some ch, Some cm, Some u =>
      if ch_signature_enabled ch
         && bool_decide (m_role cm ∈ [RoleOwner; RoleAdmin; RoleModerator])
      then match nullif_empty (m_custom_title cm) with
           | Some s => s
           | None =>
               match u_display_name u ≫= nullif_empty with
               | Some s => s
               | None => default ""%string (u_username u)
               end
           end
      else ""%string
  | _, _, _ => ""%string
  end.

Definition advance_chat (now : time) (chatID : uuid) (seq : Z) (messageID : uuid) (d : db) : db :=
  with_chats (update_where (λ k _, bool_decide (k = chatID))
    (λ _ c, with_c_last_seq seq (with_c_last_message_id (Some messageID)
       (with_c_last_message_at (Some now) (with_c_updated_at now c)))) (chats d)) d.

Definition advance_topic (now : time) (topicID senderID : uuid) (d : db) : db :=
  let d := with_forum_topics (update_where (λ k _, bool_decide (k = topicID))
    (λ _ t, with_t_message_count (t_message_count t + 1) (with_t_last_message_at now t))
    (forum_topics d)) d in
  with_forum_topic_reads (update_where
    (λ k _, bool_decide (k.1 = topicID) && negb (bool_decide (k.2 = senderID)))
    (λ _ r, with_tr_unread_count (tr_unread_count r + 1) r) (forum_topic_reads d)) d.

Definition advance_sender (chatID senderID : uuid) (seq : Z) (d : db) : db :=
  with_chat_members (update_where (λ k _, bool_decide (k = (chatID, senderID)))
    (λ _ m, with_m_last_read_seq seq (with_m_last_delivered_seq seq m)) (chat_members d)) d.

Definition bump_unread (chatID senderID : uuid) (mentions : list uuid) (asChat : bool) (d : db) : db :=
  with_chat_members (update_where
    (λ k m, active_in chatID k m && (asChat || negb (bool_decide (k.2 = senderID))))
    (λ k m, with_m_unread_count (m_unread_count m + 1)
       (with_m_mention_count (m_mention_count m + if bool_decide (k.2 ∈ mentions) then 1 else 0) m))
    (chat_members d)) d.

(** The row [Send] inserts. *)
Definition new_message_row (now : time) (p : SendParams) (seq : Z) (signature : string)
    (entities payload markup : option json) : message_row :=
  MkMessageRow (sp_ChatID p) seq (if sp_AsChat p then None else Some (sp_SenderID p))
    (sp_ClientMessageID p) (sp_Type p) (sp_Content p)
    (default (JArr []) entities) (default (JObj []) payload) (sp_ReplyToID p)
    (sp_Forward p ≫= fwd_chat) (sp_Forward p ≫= fwd_message) (sp_Forward p ≫= fwd_user)
    (from_option fwd_signature ""%string (sp_Forward p))
    0 false (sp_IsSilent p) now None None None markup (sp_TopicID p) signature.

(** The body of the transaction. *)
Definition send_body (now : time) (new_id : uuid) (p : SendParams) : prog db dberr SendResult :=
  locked ← gets (λ d, live_chat d (sp_ChatID p));
  chat ← or_fail locked ErrNotFound;
  let seq := c_last_seq chat + 1 in
  entities ← lift_result (nullableJSON (sp_Entities p));
  payload ← lift_result (nullableJSON (sp_Payload p));
  markup ← lift_result (nullableJSON (sp_ReplyMarkup p));
  signature ← gets (author_signature (sp_ChatID p) (sp_SenderID p));
  let row := new_message_row now p seq signature entities payload markup in
  insert_message new_id row;;
  let message := sent_message new_id row p in
  for_each (sp_Attachments p) (insert_attachment new_id);;
  modify (insert_mentions new_id (sp_MentionUserIDs p));;
  modify (advance_chat now (sp_ChatID p) seq new_id);;
  modify (λ d, if sp_TopicID p is Some t then advance_topic now t (sp_SenderID p) d else d);;
  modify (λ d, if sp_AsChat p then d else advance_sender (sp_ChatID p) (sp_SenderID p) seq d);;
  if FanoutThreshold <? c_member_count chat then mret (MkSendResult message [] ∅ false false)
  else
    modify (bump_unread (sp_ChatID p) (sp_SenderID p) (sp_MentionUserIDs p) (sp_AsChat p));;
    rs ← appendUserEvents now (sp_ChatID p) EventMessageNew (PayloadMessage (sp_ChatID p) message);
    mret (MkSendResult message rs.1 rs.2 false true).

Definition duplicate_of (m : Message) : SendResult := MkSendResult m [] ∅ true false.

(** [Send]: the fast path, the transaction, and the re-read of the winner.
    [before] is what other connections commit between the fast-path lookup and
    the transaction, [after] between its rollback and the re-read. *)
Definition Send (now : time) (new_id : uuid) (before after : db → db) (p : SendParams)
    : prog db dberr SendResult := λ d,
  let fast := if sp_AsChat p then Err ErrNotFound
    else (messageByClientID (sp_ChatID p) (sp_SenderID p) (sp_ClientMessageID p) d).1 in
  match fast with
  | Ok existing => (Ok (duplicate_of existing), d)
  | Err e =>
    if decide (e = ErrNotFound) then
      match in_tx (send_body now new_id p) (before d) with
      | (Ok r, d1) => (Ok r, d1)
      | (Err e, d1) =>
        if is_unique_violation_of "messages_idempotency_key" e then
          match messageByClientID (sp_ChatID p) (sp_SenderID p) (sp_ClientMessageID p) (after d1) with
          | (Ok existing, d2) => (Ok (duplicate_of existing), d2)
          | (Err _, d2) => (Err e, d2)
          end
        else (Err e, d1)
      end
    else (Err e, d)
  end.

(** ** Private chats *)

(** [INSERT INTO chats (type, creator_id, member_count)] *)
Definition new_chat_row (now : time) (type : string) (creator : uuid) (memberCount : Z) : chat_row :=
  MkChat type "" "" None None (Some creator) 0 None None memberCount false now None.
Definition insert_chat (id : uuid) (c : chat_row) : prog db dberr () := λ d,
  match chats d !! id with
  | Some _ => (Err (ErrUnique "chats_pkey"), d)
  | None => (Ok (), with_chats (<[id := c]> (chats d)) d)
  end.
Definition link_private_chat (chatID low high : uuid) : prog db dberr () := λ d,
  match private_chat_keys d !! (low, high) with
  | Some _ => (Err (ErrUnique "private_chat_keys_user_a_id_user_b_id_key"), d)
  | None => (Ok (), with_private_chat_keys (<[(low, high) := chatID]> (private_chat_keys d)) d)
  end.
Definition new_member_row (now : time) (role : string) : member_row :=
  MkMember role None "" 0 0 0 0 "" now None None None None 0.
Definition insert_member (chatID userID : uuid) (m : member_row) : prog db dberr () := λ d,
  match chat_members d !! (chatID, userID) with
  | Some _ => (Err (ErrUnique "chat_members_pkey"), d)
  | None => (Ok (), with_chat_members (<[(chatID, userID) := m]> (chat_members d)) d)
  end.
(** [INSERT INTO chat_settings (chat_id, max_members)], the other columns default. *)
Definition insert_settings (chatID : uuid) (maxMembers : Z) : prog db dberr () := λ d,
  match chat_settings d !! chatID with
  | Some _ => (Err (ErrUnique "chat_settings_pkey"), d)
  | None => (Ok (), with_chat_settings
      (<[chatID := MkSettings 0 true false maxMembers 0 (JObj [])]> (chat_settings d)) d)
  end.

Definition lookup_private_chat (low high : uuid) (d : db) : option uuid :=
  private_chat_keys d !! (low, high).

Definition create_private_chat (now : time) (new_id a b low high : uuid) : prog db dberr uuid :=
  insert_chat new_id (new_chat_row now ChatPrivate a 2);;
  link_private_chat new_id low high;;
  insert_member new_id a (new_member_row now RoleMember);;
  insert_member new_id b (new_member_row now RoleMember);;
  insert_settings new_id 2;;
  mret new_id.

Definition self_chat_of (userID : uuid) (d : db) (id : uuid) (c : chat_row) : bool :=
  bool_decide (c_type c = ChatPrivate) && bool_decide (c_creator_id c = Some userID)
  && (c_member_count c =? 1) && (if c_deleted_at c is None then true else false)
  && negb (count_where (λ k _, bool_decide (k.1 = id)) (chat_members d) =? 0).

Definition ensureSelfChat (now : time) (new_id userID : uuid) : prog db dberr (uuid * bool) := λ d,
  match rows_where (self_chat_of userID d) (chats d) with
  | (id, _) :: _ => (Ok (id, false), d)
  | [] =>
      in_tx (
        insert_chat new_id (new_chat_row now ChatPrivate userID 1);;
        insert_member new_id userID (new_member_row now RoleOwner);;
        insert_settings new_id 1;;
        mret (new_id, true)) d
  end.

(** [before] and [after] as in [Send]. *)
Definition EnsurePrivateChat (now : time) (new_id : uuid) (before after : db → db) (a b : uuid)
    : prog db dberr (uuid * bool) := λ d,
  if decide (a = b) then ensureSelfChat now new_id a d
  else
    let low := N.min a b in
    let high := N.max a b in
    match lookup_private_chat low high d with
    | Some chatID => (Ok (chatID, false), d)
    | None =>
        match in_tx (create_private_chat now new_id a b low high) (before d) with
        | (Ok chatID, d1) => (Ok (chatID, true), d1)
        | (Err e, d1) =>
            if is_unique_violation e then
              match lookup_private_chat low high (after d1) with
              | Some chatID => (Ok (chatID, false), after d1)
              | None => (Err ErrInternal, after d1)
              end
            else (Err e, d1)
        end
    end.

(** ** History *)

Record HistoryQuery := MkHistoryQuery {
  hq_ChatID : uuid;
  hq_ViewerID : uuid;
  hq_BeforeSeq : option Z;
  hq_AfterSeq : option Z;
  hq_Limit : Z;
  hq_ReplyToID : option uuid;
  hq_TopicID : option uuid;
}.

(** [COALESCE((SELECT history_cleared_seq ...), 0)] *)
Definition watermark (chatID userID : uuid) (d : db) : Z :=
  from_option m_history_cleared_seq 0 (chat_members d !! (chatID, userID)).

Definition in_history (q : HistoryQuery) (d : db) (_ : uuid) (r : message_row) : bool :=
  bool_decide (r_chat_id r = hq_ChatID q)
  && (if hq_BeforeSeq q is Some b then r_seq r <? b else true)
  && (if hq_AfterSeq q is Some a then a <? r_seq r else true)
  && (watermark (hq_ChatID q) (hq_ViewerID q) d <? r_seq r)
  && (if hq_ReplyToID q is Some t then bool_decide (r_reply_to_id r = Some t) else true)
  && (if hq_TopicID q is Some t then bool_decide (r_topic_id r = Some t) else true).

Definition attachments_of (messageID : uuid) (d : db) : list Attachment :=
  order_by att_position
    (rows_where (λ k _, bool_decide (k.1 = messageID)) (message_attachments d)).*2.

Definition reactions_of (messageID viewerID : uuid) (d : db) : list ReactionGroup :=
  let rs := (rows_where (λ k _, bool_decide (k.1.1 = messageID)) (message_reactions d)).*1 in
  (λ emoji,
    let group := filter (λ k, k.2 = emoji) rs in
    MkReactionGroup emoji (Z.of_nat (length group)) (bool_decide (viewerID ∈ (k ← group; [k.1.2]))))
  <$> remove_dups (snd <$> rs).

Definition forward_of (r : message_row) : option ForwardInfo :=
  if bool_decide (is_Some (r_forward_chat r)) || bool_decide (is_Some (r_forward_user r))
  then Some (MkForward (r_forward_chat r) (r_forward_message r) (r_forward_user r)
    (r_forward_signature r))
  else None.

Definition history_message (viewerID : uuid) (d : db) (id : uuid) (r : message_row) : Message :=
  MkMessage id (r_chat_id r) (r_seq r) (r_sender_id r) (r_client_message_id r) (r_type r)
    (if r_deleted_at r is None then r_content r else ""%string)
    (r_entities r) (r_payload r) (r_reply_to_id r) (forward_of r)
    (attachments_of id d) (reactions_of id viewerID d) (r_reply_markup r)
    (r_author_signature r) (r_topic_id r) (r_is_pinned r) (r_view_count r)
    (r_created_at r) (r_edited_at r) (r_deleted_at r).

Definition history_rows (q : HistoryQuery) (d : db) : list (uuid * message_row) :=
  order_by_desc (λ kr, r_seq kr.2) (rows_where (in_history q d) (messages d)).
(** The selection without its [LIMIT]. *)
Definition full_history (q : HistoryQuery) (d : db) : list Message :=
  (λ kr, history_message (hq_ViewerID q) d kr.1 kr.2) <$> history_rows q d.
Definition History (q : HistoryQuery) (d : db) : list Message :=
  take (Z.to_nat (hq_Limit q)) (full_history q d).

Definition MessageByID (messageID : uuid) : prog db dberr Message := λ d,
  match messages d !! messageID with
  | Some r => (Ok (base_message messageID r), d)
  | None => (Err ErrNotFound, d)
  end.

(** ** Mutations *)

Definition live_message (messageID : uuid) (d : db) : option message_row :=
  match messages d !! messageID with
  | Some r => if r_deleted_at r is None then Some r else None
  | None => None
  end.
Definition set_message (messageID : uuid) (f : message_row → message_row) (d : db) : db :=
  with_messages (update_where (λ k _, bool_decide (k = messageID)) (λ _ r, f r) (messages d)) d.

Definition edit_row_of (now : time) (content : string) (entities : option json)
    (r : message_row) : message_row :=
  with_r_content content (with_r_entities (default (r_entities r) entities)
    (with_r_edited_at (Some now) r)).

Definition Edit (now : time) (messageID editorID : uuid) (content : string) (entities : raw)
    : prog db dberr (Message * list uuid) :=
  in_tx (
    found ← gets (live_message messageID);
    r ← or_fail found ErrNotFound;
    modify (λ d, with_message_edits
      (message_edits d ++ [MkEdit messageID (r_content r) editorID now]) d);;
    entities ← lift_result (nullableJSON entities);
    modify (set_message messageID (edit_row_of now content entities));;
    let message := base_message messageID (edit_row_of now content entities r) in
    rs ← appendUserEvents now (r_chat_id r) EventMessageEdited
      (PayloadMessage (r_chat_id r) message);
    mret (message, rs.1)).

Definition tombstone (now : time) (actorID : uuid) (r : message_row) : message_row :=
  with_r_deleted_at (Some now) (with_r_deleted_by (Some actorID)
    (with_r_content "" (with_r_entities (JArr []) r))).

Definition Delete (now : time) (messageID actorID : uuid) : prog db dberr (uuid * Z * list uuid) :=
  in_tx (
    found ← gets (live_message messageID);
    r ← or_fail found ErrNotFound;
    modify (set_message messageID (tombstone now actorID));;
    modify (λ d, with_message_attachments
      (delete_where (λ k _, bool_decide (k.1 = messageID)) (message_attachments d)) d);;
    rs ← appendUserEvents now (r_chat_id r) EventMessageDeleted
      (PayloadDeleted (r_chat_id r) messageID (r_seq r));
    mret (r_chat_id r, r_seq r, rs.1)).

(** ** Clearing a history *)

Definition clear_tombstone (now : time) (actorID : uuid) (r : message_row) : message_row :=
  with_r_reply_markup None (with_r_payload (JObj []) (tombstone now actorID r)).
Definition clearable (chatID : uuid) (upto : Z) (_ : uuid) (r : message_row) : bool :=
  bool_decide (r_chat_id r = chatID) && (r_seq r <=? upto)
  && (if r_deleted_at r is None then true else false).
Definition watermark_member (upto : Z) (m : member_row) : member_row :=
  with_m_history_cleared_seq (Z.max (m_history_cleared_seq m) upto)
    (with_m_last_read_seq (Z.max (m_last_read_seq m) upto)
    (with_m_last_delivered_seq (Z.max (m_last_delivered_seq m) upto)
    (with_m_unread_count 0 (with_m_mention_count 0 m)))).

(** The attachments of the chat's messages up to the watermark. *)
Definition cleared_attachment (chatID : uuid) (upto : Z) (d : db) (k : uuid * uuid)
    (_ : Attachment) : bool :=
  match messages d !! k.1 with
  | Some r => bool_decide (r_chat_id r = chatID) && (r_seq r <=? upto)
  | None => false
  end.

Definition tombstone_history (now : time) (chatID actorID : uuid) (upto : Z) (d : db) : db :=
  with_messages (update_where (clearable chatID upto)
    (λ _, clear_tombstone now actorID) (messages d)) d.
Definition drop_attachments (chatID : uuid) (upto : Z) (d : db) : db :=
  with_message_attachments
    (delete_where (cleared_attachment chatID upto d) (message_attachments d)) d.
Definition reset_members (chatID : uuid) (upto : Z) (d : db) : db :=
  with_chat_members (update_where (active_in chatID) (λ _, watermark_member upto)
    (chat_members d)) d.

Definition clear_member (chatID actorID : uuid) (upto : Z) : prog db dberr () := λ d,
  if hits (active_in chatID) (chat_members d) (chatID, actorID)
  then (Ok (), with_chat_members (update_where
         (λ k m, active_in chatID k m && bool_decide (k.2 = actorID))
         (λ _, watermark_member upto) (chat_members d)) d)
  else (Err ErrNotMember, d).

Definition ClearHistory (now : time) (chatID actorID : uuid) (forEveryone : bool)
    : prog db dberr (Z * list uuid) :=
  in_tx (
    locked ← gets (λ d, live_chat d chatID);
    chat ← or_fail locked ErrNotFound;
    let upto := c_last_seq chat in
    modify (λ d, if forEveryone
      then reset_members chatID upto (drop_attachments chatID upto
             (tombstone_history now chatID actorID upto d))
      else d);;
    clear_member chatID actorID upto;;
    let payload := PayloadCleared chatID upto forEveryone in
    if forEveryone then
      rs ← appendUserEvents now chatID EventChatHistoryCleared payload;
      mret (upto, rs.1)
    else
      seq ← bump_event_counter actorID;
      insert_event (MkEvent EventChatHistoryCleared payload now) (actorID, seq);;
      mret (upto, [actorID])).

(** ** Read state *)

Definition unread_after (chatID : uuid) (cursor : Z) (d : db) : Z :=
  count_where (λ _ r, bool_decide (r_chat_id r = chatID) && (cursor <? r_seq r)
    && (if r_deleted_at r is None then true else false)) (messages d).
Definition mentions_after (chatID userID : uuid) (cursor : Z) (d : db) : Z :=
  count_where (λ k r, bool_decide ((k, userID) ∈ message_mentions d)
    && bool_decide (r_chat_id r = chatID) && (cursor <? r_seq r)) (messages d).

Definition MarkRead (chatID userID : uuid) (uptoSeq : Z) : prog db dberr (Z * Z) := λ d,
  match active_member d chatID userID with
  | None => (Err ErrNotMember, d)
  | Some m =>
      let cursor := Z.max (m_last_read_seq m) uptoSeq in
      (Ok (cursor, m_last_read_seq m),
       with_chat_members (<[(chatID, userID) :=
         with_m_last_read_seq cursor
           (with_m_last_delivered_seq (Z.max (m_last_delivered_seq m) uptoSeq)
           (with_m_unread_count (unread_after chatID cursor d)
           (with_m_mention_count (mentions_after chatID userID cursor d) m)))]>
         (chat_members d)) d)
  end.

Definition readable_between (chatID userID : uuid) (fromSeq toSeq : Z) (_ : uuid)
    (r : message_row) : bool :=
  bool_decide (r_chat_id r = chatID) && (fromSeq <? r_seq r) && (r_seq r <=? toSeq)
  && (if r_deleted_at r is None then true else false)
  && negb (bool_decide (r_sender_id r = Some userID)).

Definition newly_read (chatID userID : uuid) (fromSeq toSeq limit : Z) (d : db) : list uuid :=
  (take (Z.to_nat limit) (order_by_desc (λ kr, r_seq kr.2)
    (rows_where (readable_between chatID userID fromSeq toSeq) (messages d)))).*1.

Definition RecordReads (now : time) (chatID userID : uuid) (fromSeq toSeq limit : Z) (d : db) : db :=
  if toSeq <=? fromSeq then d
  else with_message_reads
    (message_reads d ∪ gset_to_gmap now
       (list_to_set ((λ id, (id, userID)) <$> newly_read chatID userID fromSeq toSeq limit d))) d.

Record ReadReceipt := MkReadReceipt {
  rr_UserID : uuid;
  rr_DisplayName : string;
  rr_AvatarID : option uuid;
  rr_ReadAt : time;
}.

Definition receipt_of (d : db) (kr : (uuid * uuid) * time) : option ReadReceipt :=
  match users d !! kr.1.2 with
  | Some u =>
      if u_deleted_at u is None then
        Some (MkReadReceipt kr.1.2
          (match u_display_name u ≫= nullif_empty with
           | Some s => s
           | None => default ""%string (u_username u)
           end) (u_avatar_media_id u) kr.2)
      else None
  | None => None
  end.
Definition ReadReceipts (messageID : uuid) (limit : Z) (d : db) : list ReadReceipt :=
  take (Z.to_nat limit) (order_by rr_ReadAt (omap (receipt_of d)
    (rows_where (λ k _, bool_decide (k.1 = messageID)) (message_reads d)))).

(** ** Reactions, pins, drafts *)

Definition React (now : time) (messageID userID : uuid) (emoji : string)
    : prog db dberr (bool * uuid) :=
  in_tx (
    found ← gets (live_message messageID);
    r ← or_fail found ErrNotFound;
    present ← gets (λ d, bool_decide (is_Some (message_reactions d !! (messageID, userID, emoji))));
    if present : bool then
      modify (λ d, with_message_reactions (delete (messageID, userID, emoji) (message_reactions d)) d);;
      mret (false, r_chat_id r)
    else
      modify (λ d, with_message_reactions
        (<[(messageID, userID, emoji) := now]> (message_reactions d)) d);;
      mret (true, r_chat_id r)).

Definition SetPinned (messageID : uuid) (pinned : bool) : prog db dberr uuid := λ d,
  match live_message messageID d with
  | None => (Err ErrNotFound, d)
  | Some r => (Ok (r_chat_id r), set_message messageID (with_r_is_pinned pinned) d)
  end.

Definition SetDraft (chatID userID : uuid) (draft : string) : prog db dberr () := λ d,
  match active_member d chatID userID, chats d !! chatID with
  | Some m, Some c =>
      if bool_decide (c_type c = ChatSecret) then (Err ErrNotMember, d)
      else (Ok (), with_chat_members (<[(chatID, userID) := with_m_draft draft m]> (chat_members d)) d)
  | _, _ => (Err ErrNotMember, d)
  end.

(** ** Queries the service authorises with *)

Definition PeerKnowsSender (chatID senderID : uuid) (d : db) : bool :=
  forallb (λ km, bool_decide (((km : (uuid * uuid) * member_row).1.2, senderID) ∈ contacts d))
    (rows_where (λ k m, active_in chatID k m && negb (bool_decide (k.2 = senderID)))
       (chat_members d)).

(** [None] is the zero time: nothing sent yet. *)
Definition LastSendAt (chatID userID : uuid) (d : db) : option time :=
  match order_by_desc (λ kr, r_seq kr.2)
    (rows_where (λ _ r, bool_decide (r_chat_id r = chatID)
       && bool_decide (r_sender_id r = Some userID)) (messages d)) with
  | (_, r) :: _ => Some (r_created_at r)
  | [] => None
  end.

(** ** Topics ([topics.go]) *)

Definition IsForum (chatID : uuid) (d : db) : bool :=
  from_option g_is_forum false (groups d !! chatID).
Definition TopicByID (chatID topicID : uuid) : prog db dberr topic_row := λ d,
  match forum_topics d !! topicID with
  | Some t =>
      if bool_decide (t_chat_id t = chatID) && (if t_deleted_at t is None then true else false)
      then (Ok t, d) else (Err ErrTopicNotFound, d)
  | None => (Err ErrTopicNotFound, d)
  end.
Definition GeneralTopic (chatID : uuid) (d : db) : option uuid :=
  head (rows_where (λ _ t, bool_decide (t_chat_id t = chatID) && t_is_general t
    && (if t_deleted_at t is None then true else false)) (forum_topics d)).*1.

(** ** What each statement does *)

(** The constraints a new row must meet. *)
Record insertable (id : uuid) (r : message_row) (d : db) : Prop := {
  ins_type : r_type r ∈ ValidMessageTypes;
  ins_markup : r_reply_markup r = None ∨ r_sender_id r ≠ None;
  ins_id : messages d !! id = None;
  ins_seq : ∀ k r', messages d !! k = Some r' →
    r_chat_id r' = r_chat_id r → r_seq r' ≠ r_seq r;
  ins_key : ∀ k r', messages d !! k = Some r' → r_sender_id r ≠ None →
    r_chat_id r' = r_chat_id r → r_sender_id r' = r_sender_id r →
    r_client_message_id r' ≠ r_client_message_id r;
}.

Definition add_attachments (id : uuid) (l : list Attachment)
    (m : gmap (uuid * uuid) Attachment) : gmap (uuid * uuid) Attachment :=
  foldl (λ m a, <[(id, att_media a) := a]> m) m l.

Section statement_facts.
Implicit Types (d : db) (id chatID userID senderID : uuid) (r : message_row).

Lemma at_seq_true chatID seq k r :
  at_seq chatID seq k r = true ↔ r_chat_id r = chatID ∧ r_seq r = seq.
Proof. unfold at_seq. by rewrite andb_true_iff, bool_decide_eq_true, Z.eqb_eq. Qed.

Lemma idempotency_key_true chatID senderID clientID k r :
  idempotency_key chatID senderID clientID k r = true ↔
  r_chat_id r = chatID ∧ r_sender_id r = Some senderID ∧ r_client_message_id r = clientID.
Proof. unfold idempotency_key. rewrite !andb_true_iff, !bool_decide_eq_true. tauto. Qed.

Lemma count_where_none {K V} `{Countable K} (P : K → V → bool) (m : gmap K V) :
  negb (count_where P m =? 0) = false ↔ ∀ k v, m !! k = Some v → P k v ≠ true.
Proof.
  rewrite negb_false_iff, Z.eqb_eq, count_where_0.
  split; intros Hall k v Hk; specialize (Hall k v Hk); by destruct (P k v).
Qed.

Lemma insert_message_Ok id r d u d' :
  insert_message id r d = (Ok u, d') ↔
  insertable id r d ∧ d' = with_messages (<[id := r]> (messages d)) d.
Proof.
  unfold insert_message. destruct u. split.
  - case_bool_decide as Htype; [done|].
    destruct (bool_decide (is_Some _) && _) eqn:Hmark; [done|].
    destruct (bool_decide (is_Some (messages d !! id))) eqn:Hid; [done|].
    apply bool_decide_eq_false in Hid.
    destruct (negb (count_where (at_seq _ _) _ =? 0)) eqn:Hseq; [done|].
    destruct (match r_sender_id r with Some _ => _ | None => _ end) eqn:Hkey; [done|].
    intros [= <-]. split; [|done]. split.
    + done.
    + destruct (r_reply_markup r); [right|by left]. destruct (r_sender_id r); done.
    + by apply eq_None_not_Some.
    + intros k r' Hk Hc Hs. apply (proj1 (count_where_none _ _) Hseq k r' Hk). by apply at_seq_true.
    + intros k r' Hk Hs Hc Hs' Hcl. destruct (r_sender_id r) as [s|]; [|done].
      apply (proj1 (count_where_none _ _) Hkey k r' Hk). by apply idempotency_key_true.
  - intros [[Htype Hmark Hid Hseq Hkey] ->].
    rewrite bool_decide_false by (intros Hn; by apply Hn).
    replace (bool_decide (is_Some (r_reply_markup r)) && _) with false.
    2:{ symmetry. apply andb_false_iff. rewrite !bool_decide_eq_false, eq_None_not_Some.
        destruct (r_reply_markup r), (r_sender_id r); naive_solver. }
    rewrite bool_decide_false by (rewrite Hid; by intros []).
    rewrite (proj2 (count_where_none _ _)) by (intros k r' Hk [? ?]%at_seq_true; by eapply Hseq).
    destruct (r_sender_id r) as [s|] eqn:Hs; [|done].
    rewrite (proj2 (count_where_none _ _)); [done|].
    intros k r' Hk (? & ? & ?)%idempotency_key_true. by eapply Hkey.
Qed.

Lemma for_each_insert_attachment id l d u d' :
  for_each l (insert_attachment id) d = (Ok u, d') →
  d' = with_message_attachments (add_attachments id l (message_attachments d)) d.
Proof.
  revert d. induction l as [|a l IH]; intros d.
  - cbn. intros [= _ <-]. by destruct d.
  - simpl. intros (? & st & Hrun & Hrest)%bind_Ok_inv. unfold insert_attachment in Hrun.
    destruct (message_attachments d !! (id, att_media a)); [done|].
    injection Hrun as _ <-. by rewrite (IH _ Hrest).
Qed.
End statement_facts.

(** ** The invariant of the store *)

(** Sequence numbers are the positions of a gap-free history, identify a
    message, and the idempotency key does too; a tombstone keeps no text. *)
Record history_ok (cs : gmap uuid chat_row) (ms : gmap uuid message_row) : Prop := {
  ok_nonneg : ∀ ch c, cs !! ch = Some c → 0 ≤ c_last_seq c;
  ok_range : ∀ id r, ms !! id = Some r →
    ∃ c, cs !! r_chat_id r = Some c ∧ 1 ≤ r_seq r ≤ c_last_seq c;
  ok_dense : ∀ ch c s, cs !! ch = Some c → 1 ≤ s ≤ c_last_seq c →
    ∃ id r, ms !! id = Some r ∧ r_chat_id r = ch ∧ r_seq r = s;
  ok_seq : ∀ id1 r1 id2 r2, ms !! id1 = Some r1 → ms !! id2 = Some r2 →
    r_chat_id r1 = r_chat_id r2 → r_seq r1 = r_seq r2 → id1 = id2;
  ok_key : ∀ id1 r1 id2 r2, ms !! id1 = Some r1 → ms !! id2 = Some r2 →
    r_sender_id r1 ≠ None → r_chat_id r1 = r_chat_id r2 → r_sender_id r1 = r_sender_id r2 →
    r_client_message_id r1 = r_client_message_id r2 → id1 = id2;
  ok_tombstone : ∀ id r, ms !! id = Some r → r_deleted_at r ≠ None → r_content r = ""%string;
}.

(** Watermarks stay within the history they clear. *)
Definition cursors_ok (cs : gmap uuid chat_row) (mem : gmap (uuid * uuid) member_row) : Prop :=
  ∀ ch u m, mem !! (ch, u) = Some m →
    ∃ c, cs !! ch = Some c ∧ 0 ≤ m_history_cleared_seq m ≤ c_last_seq c.


Definition store_ok (d : db) : Prop :=
  log_good d ∧ history_ok (chats d) (messages d) ∧ cursors_ok (chats d) (chat_members d).

(** A rewrite of a row that keeps its identity. *)
Definition keeps_identity (f : message_row → message_row) : Prop :=
  ∀ r, r_chat_id (f r) = r_chat_id r ∧ r_seq (f r) = r_seq r ∧ r_sender_id (f r) = r_sender_id r
    ∧ r_client_message_id (f r) = r_client_message_id r.

(** The same chats with the same last numbers, plus empty new ones. *)
Definition extends_chats (cs cs' : gmap uuid chat_row) : Prop :=
  (∀ ch c, cs !! ch = Some c → ∃ c', cs' !! ch = Some c' ∧ c_last_seq c' = c_last_seq c) ∧
  (∀ ch c', cs' !! ch = Some c' → cs !! ch = None → c_last_seq c' = 0).

Section invariant_facts.
Implicit Types (cs : gmap uuid chat_row) (ms : gmap uuid message_row).
Implicit Types (d : db).

Lemma history_ok_update cs ms (P : uuid → message_row → bool) f :
  keeps_identity f →
  (∀ id r, ms !! id = Some r → P id r = true → r_deleted_at (f r) ≠ None → r_content (f r) = ""%string) →
  history_ok cs ms → history_ok cs (update_where P (λ _, f) ms).
Proof.
  intros Hf Htomb [Hnn Hr Hd Hs Hk Ht].
  assert (∀ id r', update_where P (λ _, f) ms !! id = Some r' →
    ∃ r, ms !! id = Some r ∧ r_chat_id r' = r_chat_id r ∧ r_seq r' = r_seq r
      ∧ r_sender_id r' = r_sender_id r ∧ r_client_message_id r' = r_client_message_id r) as Hid.
  { intros id r' (r & Hl & ->)%lookup_update_where_Some. exists r. split; [done|].
    destruct (P id r); [apply Hf|done]. }
  split.
  - done.
  - intros id r' (r & Hl & -> & -> & _)%Hid. eauto.
  - intros ch c s Hc Hrange. destruct (Hd ch c s Hc Hrange) as (id & r & Hl & Hch & Hsq).
    eexists id, _. rewrite lookup_update_where, Hl. split; [done|].
    destruct (P id r); [|done]. destruct (Hf r) as (-> & -> & _). done.
  - intros id1 r1 id2 r2 (r1' & H1 & -> & -> & _)%Hid (r2' & H2 & -> & -> & _)%Hid. by apply Hs.
  - intros id1 r1 id2 r2 (r1' & H1 & -> & _ & -> & ->)%Hid (r2' & H2 & -> & _ & -> & ->)%Hid.
    by apply Hk.
  - intros id r' (r & Hl & ->)%lookup_update_where_Some. destruct (P id r) eqn:HP; eauto.
Qed.

Lemma history_ok_extends cs cs' ms :
  extends_chats cs cs' → history_ok cs ms → history_ok cs' ms.
Proof.
  intros [Hold Hnew] [Hnn Hr Hd Hs Hk Ht].
  assert (∀ ch c', cs' !! ch = Some c' →
    (∃ c, cs !! ch = Some c ∧ c_last_seq c' = c_last_seq c) ∨ c_last_seq c' = 0) as Hcase.
  { intros ch c' Hc'. destruct (cs !! ch) as [c|] eqn:Hc; [left|right; by eapply Hnew].
    destruct (Hold _ _ Hc) as (c'' & Hc'' & Heq). rewrite Hc' in Hc''. injection Hc'' as <-. eauto. }
  split; [|..|done|done|done].
  - intros ch c' [(c & Hc & ->)| ->]%Hcase; [by eapply Hnn|done].
  - intros id r Hl. destruct (Hr _ _ Hl) as (c & Hc & ?).
    destruct (Hold _ _ Hc) as (c' & Hc' & Heq). exists c'. rewrite Heq. done.
  - intros ch c' s Hc' Hrange. destruct (Hcase _ _ Hc') as [(c & Hc & Heq)|Heq]; [|lia].
    rewrite Heq in Hrange. by eapply Hd.
Qed.

Lemma cursors_ok_extends cs cs' mem :
  extends_chats cs cs' → cursors_ok cs mem → cursors_ok cs' mem.
Proof.
  intros [Hold _] Hcur ch u m Hm. destruct (Hcur _ _ _ Hm) as (c & Hc & ?).
  destruct (Hold _ _ Hc) as (c' & Hc' & Heq). exists c'. rewrite Heq. done.
Qed.

(** Members rewritten without touching the watermark. *)
Lemma cursors_ok_update cs mem (P : uuid * uuid → member_row → bool) f :
  (∀ k m, m_history_cleared_seq (f k m) = m_history_cleared_seq m) →
  cursors_ok cs mem → cursors_ok cs (update_where P f mem).
Proof.
  intros Hf Hcur ch u m' (m & Hl & ->)%lookup_update_where_Some.
  destruct (Hcur _ _ _ Hl) as (c & Hc & ?). exists c. split; [done|].
  destruct (P _ m); [by rewrite Hf|done].
Qed.

Lemma cursors_ok_insert cs mem ch u m c :
  cs !! ch = Some c → 0 ≤ m_history_cleared_seq m ≤ c_last_seq c →
  cursors_ok cs mem → cursors_ok cs (<[(ch, u) := m]> mem).
Proof.
  intros Hc Hm Hcur ch' u' m' [[[= -> ->] <-]|[_ Hl]]%lookup_insert_Some;
    [by exists c|by apply (Hcur ch' u')].
Qed.

(** A message at the next position. *)
Lemma history_ok_send cs ms id r c f :
  history_ok cs ms →
  cs !! r_chat_id r = Some c → r_seq r = c_last_seq c + 1 →
  (∀ c, c_last_seq (f c) = r_seq r) → r_deleted_at r = None → ms !! id = None →
  (∀ k r', ms !! k = Some r' → r_sender_id r ≠ None → r_chat_id r' = r_chat_id r →
    r_sender_id r' = r_sender_id r → r_client_message_id r' ≠ r_client_message_id r) →
  history_ok (update_where (λ k _, bool_decide (k = r_chat_id r)) (λ _, f) cs) (<[id := r]> ms).
Proof.
  intros [Hnn Hr Hd Hs Hk Ht] Hc Hseq Hf Hlive Hfresh Hkey.
  pose proof (Hnn _ _ Hc) as Hc0.
  assert (∀ k r', ms !! k = Some r' → r_chat_id r' = r_chat_id r → r_seq r' < r_seq r) as Hbelow.
  { intros k r' Hl Hch. destruct (Hr _ _ Hl) as (c' & Hc' & ?). rewrite Hch, Hc in Hc'.
    injection Hc' as <-. lia. }
  split.
  - intros ch c' (c0 & Hc0' & ->)%lookup_update_where_Some. specialize (Hnn _ _ Hc0').
    case_bool_decide; [rewrite Hf; lia|done].
  - intros id' r' [[-> <-]|[_ Hl]]%lookup_insert_Some.
    + eexists. rewrite lookup_update_where, Hc. split; [done|].
      rewrite bool_decide_true by done. rewrite Hf. lia.
    + destruct (Hr _ _ Hl) as (c' & Hc' & ?). eexists. rewrite lookup_update_where, Hc'.
      split; [done|]. case_bool_decide as Hch; [|done]. rewrite Hf.
      specialize (Hbelow _ _ Hl Hch). lia.
  - intros ch c' s (c0 & Hc0' & ->)%lookup_update_where_Some Hrange.
    destruct (decide (ch = r_chat_id r ∧ s = r_seq r)) as [[-> ->]|Hne].
    + exists id, r. by rewrite lookup_insert_eq.
    + destruct (Hd ch c0 s) as (id' & r' & Hl & Hch & Hsq); [done| |].
      * revert Hrange. case_bool_decide as Hch; [|done]. rewrite Hf. subst ch.
        rewrite Hc in Hc0'. injection Hc0' as <-. destruct (decide (s = r_seq r)); [naive_solver|lia].
      * exists id', r'. rewrite lookup_insert_ne; [done|]. intros <-. congruence.
  - intros id1 r1 id2 r2 [[-> <-]|[_ H1]]%lookup_insert_Some [[-> <-]|[_ H2]]%lookup_insert_Some Hch Hsq.
    + done.
    + specialize (Hbelow _ _ H2 (eq_sym Hch)). lia.
    + specialize (Hbelow _ _ H1 Hch). lia.
    + by eapply Hs.
  - intros id1 r1 id2 r2 [[-> <-]|[_ H1]]%lookup_insert_Some [[-> <-]|[_ H2]]%lookup_insert_Some Hsn Hch Hse Hcl.
    + done.
    + exfalso. by eapply (Hkey _ _ H2).
    + exfalso. eapply (Hkey _ _ H1); congruence.
    + by eapply Hk.
  - intros id' r' [[-> <-]|[_ Hl]]%lookup_insert_Some; [done|]. by eapply Ht.
Qed.

Lemma log_good_appended now chatID ty p d :
  log_good d → log_good (appended now chatID ty p d).
Proof.
  intros [Hok Hnn]. split; [by apply appended_log_ok|by apply appended_counters_nonneg].
Qed.

(** An append leaves the store invariant to the rest of the transaction. *)
Lemma store_ok_appended now chatID ty p d :
  store_ok d → store_ok (appended now chatID ty p d).
Proof. intros (Hlog & Hh & Hc). split; [by apply log_good_appended|done]. Qed.
End invariant_facts.

(** ** A committed send, in closed form *)

Definition sent_db (now : time) (id : uuid) (p : SendParams) (row : message_row)
    (memberCount : Z) (d : db) : db :=
  let d := with_messages (<[id := row]> (messages d)) d in
  let d := with_message_attachments
    (add_attachments id (sp_Attachments p) (message_attachments d)) d in
  let d := insert_mentions id (sp_MentionUserIDs p) d in
  let d := advance_chat now (sp_ChatID p) (r_seq row) id d in
  let d := if sp_TopicID p is Some t then advance_topic now t (sp_SenderID p) d else d in
  let d := if sp_AsChat p then d
           else advance_sender (sp_ChatID p) (sp_SenderID p) (r_seq row) d in
  if FanoutThreshold <? memberCount then d
  else appended now (sp_ChatID p) EventMessageNew
         (PayloadMessage (sp_ChatID p) (sent_message id row p))
         (bump_unread (sp_ChatID p) (sp_SenderID p) (sp_MentionUserIDs p) (sp_AsChat p) d).

Section send_facts.
Implicit Types (d : db) (p : SendParams) (id : uuid).

Lemma lift_result_Ok_inv {A} (x : result dberr A) d a d' :
  lift_result x d = (Ok a, d') → x = Ok a ∧ d' = d.
Proof. unfold lift_result. by intros [= -> ->]. Qed.

(** Fields a send leaves alone, whatever branch it takes. *)
Lemma log_ok_frame d1 d2 :
  user_events d1 = user_events d2 → user_event_counters d1 = user_event_counters d2 →
  log_good d1 → log_good d2.
Proof. unfold log_good, log_ok, counters_nonneg. by intros -> ->. Qed.

Lemma send_body_Ok now id p d r d' :
  log_good d →
  send_body now id p d = (Ok r, d') →
  ∃ c ent pay mk,
    let row := new_message_row now p (c_last_seq c + 1)
      (author_signature (sp_ChatID p) (sp_SenderID p) d) ent pay mk in
    live_chat d (sp_ChatID p) = Some c ∧
    nullableJSON (sp_Entities p) = Ok ent ∧ nullableJSON (sp_Payload p) = Ok pay ∧
    nullableJSON (sp_ReplyMarkup p) = Ok mk ∧
    insertable id row d ∧
    d' = sent_db now id p row (c_member_count c) d ∧
    sr_Message r = sent_message id row p ∧ sr_Duplicate r = false ∧
    sr_FannedOut r = negb (FanoutThreshold <? c_member_count c).
Proof.
  intros Hlog Hrun. unfold send_body in Hrun. prog_inv.
  repeat match goal with
  | H : lift_result _ _ = (Ok _, _) |- _ => apply lift_result_Ok_inv in H as [? ->]
  | H : insert_message _ _ _ = (Ok _, _) |- _ => apply insert_message_Ok in H as [? ->]
  | H : for_each _ (insert_attachment _) _ = (Ok _, _) |- _ =>
      apply for_each_insert_attachment in H as ->
  end.
  match goal with H : live_chat _ _ = Some ?c |- _ => exists c end.
  do 3 eexists. cbn zeta. do 5 (split; [eassumption|]).
  unfold sent_db. cbn zeta.
  destruct (FanoutThreshold <? _).
  - injection Hrun as <- <-. done.
  - apply bind_Ok_inv in Hrun as (? & ? & [= _ <-] & Hrun).
    apply bind_Ok_inv in Hrun as ([us seqs] & ? & Happ & [= <- <-]).
    rewrite appendUserEvents_run in Happ.
    + by injection Happ as _ _ <-.
    + destruct (sp_AsChat p), (sp_TopicID p); apply Hlog.
Qed.
End send_facts.

(** ** What a send leaves, whatever state it finds *)
Section send_stores.
Implicit Types (d : db) (p : SendParams) (id : uuid).

Lemma for_each_insert_event_messages ev rows d : messages (for_each rows (insert_event ev) d).2 = messages d.
Proof.
  revert d. induction rows as [|us rows IH]; intros d; [done|]. simpl. rewrite bind_run. unfold insert_event at 1.
  destruct (user_events d !! us); [done|]. cbn beta iota. by rewrite IH.
Qed.
Lemma appendUserEvents_messages now ch ty (payload : event_payload) d : messages (appendUserEvents now ch ty payload d).2 = messages d.
Proof.
  unfold appendUserEvents. set (d1 := with_user_event_counters _ d).
  pose proof (for_each_insert_event_messages (MkEvent ty payload now) (bumped (recipients_of ch d) d) d1) as H.
  destruct (for_each _ _ d1) as [[[]|e] d2]; exact H.
Qed.
Lemma send_body_stores now id p d r d' :
  send_body now id p d = (Ok r, d') →
  messages d !! id = None ∧ sr_Duplicate r = false ∧
  ∃ row, messages d' = <[id := row]> (messages d) ∧ sr_Message r = sent_message id row p ∧
    r_content row = sp_Content p ∧ r_type row = sp_Type p ∧ r_chat_id row = sp_ChatID p ∧
    r_client_message_id row = sp_ClientMessageID p ∧ r_sender_id row = (if sp_AsChat p then None else Some (sp_SenderID p)).
Proof.
  intros Hrun. unfold send_body in Hrun. prog_inv.
  repeat match goal with
  | H : lift_result _ _ = (Ok _, _) |- _ => apply lift_result_Ok_inv in H as [? ->]
  | H : insert_message _ _ _ = (Ok _, _) |- _ => apply insert_message_Ok in H as [[_ _ ? _ _] ->]
  | H : for_each _ (insert_attachment _) _ = (Ok _, _) |- _ => apply for_each_insert_attachment in H as ->
  end.
  split; [assumption|].
  destruct (FanoutThreshold <? _).
  - injection Hrun as <- <-. split; [done|]. eexists. split; [|done]. by destruct (sp_AsChat p), (sp_TopicID p).
  - apply bind_Ok_inv in Hrun as (? & ? & [= _ <-] & Hrun). apply bind_Ok_inv in Hrun as ([us seqs] & d2 & Happ & [= <- <-]).
    split; [done|]. eexists. split; [|done].
    match type of Happ with appendUserEvents ?n ?c ?t ?p ?d0 = _ => pose proof (appendUserEvents_messages n c t p d0) as Hm end.
    rewrite Happ in Hm. cbn [snd] in Hm. rewrite Hm. by destruct (sp_AsChat p), (sp_TopicID p).
Qed.
Lemma messageByClientID_Ok ch u c d m d' : messageByClientID ch u c d = (Ok m, d') →
  d' = d ∧ ∃ id row, messages d !! id = Some row ∧ idempotency_key ch u c id row = true ∧ m = base_message id row.
Proof.
  unfold messageByClientID. destruct (rows_where _ _) as [|[id row] l] eqn:Hrows; [done|]. intros [= <- <-]. split; [done|].
  exists id, row. assert ((id, row) ∈ rows_where (idempotency_key ch u c) (messages d)) as Hin by (rewrite Hrows; by left).
  apply elem_of_rows_where in Hin as [? ?]. done.
Qed.
(** A send that answered has stored the message, or found one under its key and stored nothing. *)
Lemma Send_answers now id before after p d r d' : Send now id before after p d = (Ok r, d') →
  (send_body now id p (before d) = (Ok r, d') ∧ sr_Duplicate r = false) ∨
  (sr_Duplicate r = true ∧ (d' = d ∨ d' = after (before d)) ∧ ∃ k row, messages d' !! k = Some row ∧
     idempotency_key (sp_ChatID p) (sp_SenderID p) (sp_ClientMessageID p) k row = true ∧ sr_Message r = base_message k row).
Proof.
  unfold Send. cbv zeta. destruct (sp_AsChat p) eqn:Has.
  2: destruct (messageByClientID (sp_ChatID p) (sp_SenderID p) (sp_ClientMessageID p) d) as [[m|e] d0] eqn:Hfast; simpl.
  2: { intros [= <- <-]. right. apply messageByClientID_Ok in Hfast as (_ & k & row & ? & ? & ->). simpl. split; [done|]. split; [by left|]. eauto. }
  all: case_decide; [|done].
  all: destruct (in_tx _ (before d)) as [[r0|e'] d1] eqn:Htx;
    [intros [= <- <-]; left; apply in_tx_Ok_inv in Htx; split; [done|]; by apply send_body_stores in Htx as (_ & ? & _)|].
  all: apply in_tx_Err in Htx as ->; destruct (is_unique_violation_of _ e'); [|done].
  all: destruct (messageByClientID _ _ _ (after (before d))) as [[m|e2] d2] eqn:Hslow; [|done].
  all: intros [= <- <-]; right; apply messageByClientID_Ok in Hslow as (-> & k & row & ? & ? & ->); simpl; split; [done|]; split; [by right|]; eauto.
Qed.
End send_stores.

(** ** The steps of the store *)

Inductive store_step (d : db) : db → Prop :=
| step_send now id p r d' : send_body now id p d = (Ok r, d') → store_step d d'
| step_private now id a b r d' :
    EnsurePrivateChat now id (λ d, d) (λ d, d) a b d = (Ok r, d') → store_step d d'
| step_edit now id u content ents r d' : Edit now id u content ents d = (Ok r, d') → store_step d d'
| step_delete now id u r d' : Delete now id u d = (Ok r, d') → store_step d d'
| step_clear now ch u all r d' : ClearHistory now ch u all d = (Ok r, d') → store_step d d'
| step_read ch u upto r d' : MarkRead ch u upto d = (Ok r, d') → store_step d d'
| step_receipts now ch u from to limit : store_step d (RecordReads now ch u from to limit d)
| step_react now id u emoji r d' : React now id u emoji d = (Ok r, d') → store_step d d'
| step_pin id pinned r d' : SetPinned id pinned d = (Ok r, d') → store_step d d'
| step_draft ch u draft r d' : SetDraft ch u draft d = (Ok r, d') → store_step d d'
| step_publish_event now u ty p s d' : PublishUserEvent now u ty p d = (Ok s, d') → store_step d d'
| step_prune_events now old : store_step d (PruneEvents now old d).2
| step_rest d' :
    log_good d' → messages d' = messages d → extends_chats (chats d) (chats d') →
    cursors_ok (chats d') (chat_members d') → store_step d d'
(** Rows rewritten in place by the modules that keep more in them. *)
| step_rewrite P f d' :
    log_good d' → messages d' = update_where P (λ _, f) (messages d) → keeps_identity f →
    (∀ id r, messages d !! id = Some r → P id r = true → r_deleted_at (f r) ≠ None → r_content (f r) = ""%string) →
    extends_chats (chats d) (chats d') → cursors_ok (chats d') (chat_members d') → store_step d d'.

Section step_facts.
Implicit Types (d : db) (p : SendParams) (id : uuid).

Lemma extends_chats_refl cs : extends_chats cs cs.
Proof. split; [eauto|congruence]. Qed.

Lemma extends_chats_insert cs id c :
  cs !! id = None → c_last_seq c = 0 → extends_chats cs (<[id := c]> cs).
Proof.
  intros Hid Hc. split.
  - intros ch c' Hl. exists c'. rewrite lookup_insert_ne by congruence. done.
  - intros ch c' [[-> <-]|[_ Hl]]%lookup_insert_Some; congruence.
Qed.

Lemma sent_store_ok now id p d c ent pay mk :
  let row := new_message_row now p (c_last_seq c + 1)
      (author_signature (sp_ChatID p) (sp_SenderID p) d) ent pay mk in
  store_ok d → live_chat d (sp_ChatID p) = Some c → insertable id row d →
  store_ok (sent_db now id p row (c_member_count c) d).
Proof.
  intros row (Hlog & Hh & Hcur) [Hc _]%live_chat_Some [_ _ Hid _ Hkey].
  set (adv := λ c0, with_c_last_seq (r_seq row) (with_c_last_message_id (Some id)
       (with_c_last_message_at (Some now) (with_c_updated_at now c0)))).
  set (cs := update_where (λ k _, bool_decide (k = sp_ChatID p)) (λ _, adv) (chats d)).
  assert (history_ok cs (<[id := row]> (messages d))) as Hh'.
  { unfold cs. change (sp_ChatID p) with (r_chat_id row). by eapply history_ok_send. }
  assert (∀ mem, cursors_ok (chats d) mem → cursors_ok cs mem) as Hmono.
  { intros mem Hmem ch u m Hm. destruct (Hmem _ _ _ Hm) as (c0 & Hc0 & ?).
    eexists. unfold cs. rewrite lookup_update_where, Hc0. split; [done|].
    case_bool_decide as Hch; [|done]. simpl in Hch. subst ch. rewrite Hc in Hc0. injection Hc0 as <-.
    simpl. lia. }
  unfold sent_db. cbn zeta.
  assert (∀ d1, log_good d1 → chats d1 = cs → messages d1 = <[id := row]> (messages d) →
    cursors_ok cs (chat_members d1) → store_ok d1) as Hbuild.
  { intros d1 H1 H2 H3 H4. split; [done|]. by rewrite H2, H3. }
  destruct (FanoutThreshold <? _); [|apply store_ok_appended];
    (apply Hbuild; [by destruct (sp_AsChat p), (sp_TopicID p)|by destruct (sp_AsChat p), (sp_TopicID p)
      |by destruct (sp_AsChat p), (sp_TopicID p)|]).
  - destruct (sp_AsChat p), (sp_TopicID p); simpl; auto;
      by apply cursors_ok_update; [|apply Hmono].
  - unfold bump_unread. simpl. apply cursors_ok_update; [done|].
    destruct (sp_AsChat p), (sp_TopicID p); simpl; auto;
      by apply cursors_ok_update; [|apply Hmono].
Qed.

Lemma live_message_Some id d r :
  live_message id d = Some r ↔ messages d !! id = Some r ∧ r_deleted_at r = None.
Proof.
  unfold live_message. destruct (messages d !! id) as [r'|]; [|naive_solver].
  destruct (r_deleted_at r') eqn:Hdel; naive_solver.
Qed.

Lemma store_ok_set_message d id r f :
  live_message id d = Some r → keeps_identity f →
  (r_deleted_at (f r) ≠ None → r_content (f r) = ""%string) →
  store_ok d → store_ok (set_message id f d).
Proof.
  intros [Hl _]%live_message_Some Hf Ht (Hlog & Hh & Hc). split; [done|split; [|done]].
  apply history_ok_update; [done| |done]. intros id' r' Hl' Heq%bool_decide_eq_true. subst id'.
  rewrite Hl in Hl'. injection Hl' as <-. done.
Qed.
End step_facts.

(** ** The mutations in closed form *)
Section mutation_facts.
Implicit Types (d : db) (id actor : uuid) (ch u : uuid).

(** The state an edit commits, its event aside. *)
Definition edited_db (now : time) (id editor : uuid) (content : string) (ents : option json)
    (r : message_row) (d : db) : db :=
  set_message id (edit_row_of now content ents)
    (with_message_edits (message_edits d ++ [MkEdit id (r_content r) editor now]) d).

Lemma Edit_run now id editor content ents r e d :
  log_good d → live_message id d = Some r → nullableJSON ents = Ok e →
  let m := base_message id (edit_row_of now content e r) in
  let d1 := edited_db now id editor content e r d in
  Edit now id editor content ents d =
  (Ok (m, (bumped (recipients_of (r_chat_id r) d1) d1).*1),
   appended now (r_chat_id r) EventMessageEdited (PayloadMessage (r_chat_id r) m) d1).
Proof.
  intros Hlog Hl He. unfold Edit. prog_run. rewrite Hl. unfold lift_result. rewrite He.
  by rewrite appendUserEvents_run by apply Hlog.
Qed.

Lemma Edit_Ok_inv now id editor content ents d x d' :
  Edit now id editor content ents d = (Ok x, d') →
  ∃ r e, live_message id d = Some r ∧ nullableJSON ents = Ok e.
Proof.
  unfold Edit. intros Hrun. prog_inv.
  match goal with H : lift_result _ _ = _ |- _ => apply lift_result_Ok_inv in H as [? _] end.
  eauto.
Qed.

Definition deleted_db (now : time) (id actor : uuid) (d : db) : db :=
  with_message_attachments (delete_where (λ k _, bool_decide (k.1 = id)) (message_attachments d))
    (set_message id (tombstone now actor) d).

Lemma Delete_run now id actor r d :
  log_good d → live_message id d = Some r →
  let d1 := deleted_db now id actor d in
  Delete now id actor d =
  (Ok (r_chat_id r, r_seq r, (bumped (recipients_of (r_chat_id r) d1) d1).*1),
   appended now (r_chat_id r) EventMessageDeleted (PayloadDeleted (r_chat_id r) id (r_seq r)) d1).
Proof.
  intros Hlog Hl. unfold Delete. prog_run. rewrite Hl.
  by rewrite appendUserEvents_run by apply Hlog.
Qed.

Lemma Delete_missing now id actor d :
  live_message id d = None → Delete now id actor d = (Err ErrNotFound, d).
Proof. intros Hl. unfold Delete. prog_run. by rewrite Hl. Qed.

(** The state a clear commits, its event aside. *)
Definition cleared_db (now : time) (ch actor : uuid) (upto : Z) (all : bool) (d : db) : db :=
  let d1 := if all then reset_members ch upto (drop_attachments ch upto
              (tombstone_history now ch actor upto d)) else d in
  with_chat_members (update_where
     (λ k m, active_in ch k m && bool_decide (k.2 = actor))
     (λ _, watermark_member upto) (chat_members d1)) d1.

Lemma hits_reset ch upto d k :
  hits (active_in ch) (chat_members (reset_members ch upto d)) k = hits (active_in ch) (chat_members d) k.
Proof.
  unfold hits, reset_members. simpl. rewrite lookup_update_where.
  destruct (chat_members d !! k) as [m|]; [|done]. simpl.
  destruct (active_in ch k m) eqn:Ha; [|done]. unfold active_in in *. by destruct m.
Qed.

Lemma hits_active ch u d :
  hits (active_in ch) (chat_members d) (ch, u) = bool_decide (is_Some (active_member d ch u)).
Proof.
  unfold hits, active_in, active_member. destruct (chat_members d !! (ch, u)) as [m|]; [|done].
  simpl. rewrite bool_decide_true by done. by destruct (m_left_at m).
Qed.

Lemma ClearHistory_run now ch actor all c m d :
  log_good d → live_chat d ch = Some c → active_member d ch actor = Some m →
  let upto := c_last_seq c in
  let d1 := cleared_db now ch actor upto all d in
  ∃ us, ClearHistory now ch actor all d =
  (Ok (upto, us),
   if all then appended now ch EventChatHistoryCleared (PayloadCleared ch upto all) d1
   else published now actor EventChatHistoryCleared (PayloadCleared ch upto all) d1).
Proof.
  intros Hlog Hc Hm upto d1. unfold ClearHistory. prog_run. rewrite Hc. fold upto. unfold clear_member.
  assert (hits (active_in ch) (chat_members
    (if all then reset_members ch upto (drop_attachments ch upto (tombstone_history now ch actor upto d))
     else d)) (ch, actor) = true) as Hhit.
  { destruct all; [rewrite hits_reset|]; change (chat_members (drop_attachments _ _ _)) with (chat_members d);
      by rewrite hits_active, Hm. }
  rewrite Hhit. fold (cleared_db now ch actor upto all d). fold d1.
  assert (log_good d1) as Hlog1 by (unfold d1, cleared_db; destruct all; exact Hlog).
  destruct all.
  - rewrite appendUserEvents_run by apply Hlog1. eauto.
  - replace (match user_event_counters d1 !! actor with Some s => s + 1 | None => 1 end)
      with (default 0 (user_event_counters d1 !! actor) + 1)
      by (by destruct (user_event_counters d1 !! actor)).
    fold (bumped_db actor d1). rewrite insert_bumped by apply Hlog1. eauto.
Qed.

Lemma ClearHistory_Ok_inv now ch actor all d x d' :
  ClearHistory now ch actor all d = (Ok x, d') →
  ∃ c m, live_chat d ch = Some c ∧ active_member d ch actor = Some m.
Proof.
  unfold ClearHistory. intros Hrun. prog_inv.
  match goal with H : live_chat _ _ = Some ?c |- _ => exists c; rename H into Hc end.
  match goal with H : clear_member _ _ _ _ = (Ok _, _) |- _ => rename H into Hm end.
  unfold clear_member in Hm. destruct (hits _ _ _) eqn:Hh; [|done].
  destruct all; [rewrite hits_reset in Hh|];
    try change (chat_members (drop_attachments _ _ _)) with (chat_members d) in Hh;
    rewrite hits_active in Hh; apply bool_decide_eq_true in Hh as [m Hm']; eauto.
Qed.
End mutation_facts.

(** ** Private chats in closed form *)
Section private_facts.
Implicit Types (d : db) (id a b : uuid).

(** The chat, its key, its two members and its settings. *)
Definition private_db (now : time) (id a b low high : uuid) (d : db) : db :=
  with_chat_settings (<[id := MkSettings 0 true false 2 0 (JObj [])]> (chat_settings d))
  (with_chat_members (<[(id, b) := new_member_row now RoleMember]>
     (<[(id, a) := new_member_row now RoleMember]> (chat_members d)))
  (with_private_chat_keys (<[(low, high) := id]> (private_chat_keys d))
  (with_chats (<[id := new_chat_row now ChatPrivate a 2]> (chats d)) d))).

Definition fresh_chat (id : uuid) (d : db) : Prop :=
  chats d !! id = None ∧ chat_settings d !! id = None ∧ ∀ u, chat_members d !! (id, u) = None.

Lemma create_private_chat_run now id a b low high d :
  a ≠ b → fresh_chat id d → private_chat_keys d !! (low, high) = None →
  create_private_chat now id a b low high d = (Ok id, private_db now id a b low high d).
Proof.
  intros Hab (Hc & Hs & Hm) Hk. unfold create_private_chat, private_db. prog_run.
  unfold insert_chat. rewrite Hc. unfold link_private_chat. simpl. rewrite Hk.
  unfold insert_member. simpl. rewrite Hm. simpl.
  rewrite lookup_insert_ne by congruence. rewrite Hm. unfold insert_settings. simpl.
  by rewrite Hs.
Qed.

Lemma create_private_chat_Ok now id a b low high d r d' :
  create_private_chat now id a b low high d = (Ok r, d') →
  r = id ∧ chats d !! id = None ∧ private_chat_keys d !! (low, high) = None ∧
  d' = private_db now id a b low high d.
Proof.
  unfold create_private_chat. intros Hrun. prog_inv.
  repeat match goal with
  | H : insert_chat _ _ _ = (Ok _, _) |- _ =>
      unfold insert_chat in H; destruct (chats d !! id) eqn:Hc; [done|]; injection H as _ <-
  | H : link_private_chat _ _ _ _ = (Ok _, _) |- _ =>
      unfold link_private_chat in H; simpl in H;
      destruct (private_chat_keys d !! (low, high)) eqn:Hk; [done|]; injection H as _ <-
  | H : insert_member _ _ _ _ = (Ok _, _) |- _ =>
      unfold insert_member in H; simpl in H;
      match type of H with context [?m !! ?k] => destruct (m !! k); [done|] end; injection H as _ <-
  | H : insert_settings _ _ _ = (Ok _, _) |- _ =>
      unfold insert_settings in H; simpl in H;
      destruct (chat_settings d !! id); [done|]; injection H as _ <-
  end.
  done.
Qed.

(** The only errors the creation can end with are unique violations. *)
Lemma create_private_chat_Err now id a b low high d e d' :
  create_private_chat now id a b low high d = (Err e, d') → is_unique_violation e = true.
Proof.
  unfold create_private_chat. prog_run.
  unfold insert_chat. destruct (chats d !! id); [by intros [= <- _]|].
  unfold link_private_chat. simpl. destruct (private_chat_keys d !! _); [by intros [= <- _]|].
  unfold insert_member at 1. simpl. destruct (chat_members d !! _); [by intros [= <- _]|].
  unfold insert_member. simpl. destruct (<[_ := _]> (chat_members d) !! _); [by intros [= <- _]|].
  unfold insert_settings. simpl. destruct (chat_settings d !! _); [by intros [= <- _]|done].
Qed.

Lemma private_store_ok now id a b low high d :
  chats d !! id = None → store_ok d → store_ok (private_db now id a b low high d).
Proof.
  intros Hid (Hlog & Hh & Hcur). split; [done|].
  assert (extends_chats (chats d) (<[id := new_chat_row now ChatPrivate a 2]> (chats d))) as Hext
    by by apply extends_chats_insert.
  split; [by eapply history_ok_extends|].
  assert (∀ u mem, cursors_ok (<[id := new_chat_row now ChatPrivate a 2]> (chats d)) mem →
    cursors_ok (<[id := new_chat_row now ChatPrivate a 2]> (chats d))
      (<[(id, u) := new_member_row now RoleMember]> mem)) as Hins.
  { intros u mem. apply (cursors_ok_insert _ _ _ _ _ (new_chat_row now ChatPrivate a 2)).
    - apply lookup_insert_eq.
    - simpl. lia. }
  simpl. apply Hins, Hins. by eapply cursors_ok_extends.
Qed.

Lemma self_store_ok now id u d :
  chats d !! id = None → store_ok d →
  store_ok (with_chat_settings (<[id := MkSettings 0 true false 1 0 (JObj [])]> (chat_settings d))
    (with_chat_members (<[(id, u) := new_member_row now RoleOwner]> (chat_members d))
    (with_chats (<[id := new_chat_row now ChatPrivate u 1]> (chats d)) d))).
Proof.
  intros Hid (Hlog & Hh & Hcur). split; [done|].
  assert (extends_chats (chats d) (<[id := new_chat_row now ChatPrivate u 1]> (chats d))) as Hext
    by by apply extends_chats_insert.
  split; [by eapply history_ok_extends|]. simpl.
  apply (cursors_ok_insert _ _ _ _ _ (new_chat_row now ChatPrivate u 1)).
  - apply lookup_insert_eq.
  - simpl. lia.
  - by eapply cursors_ok_extends.
Qed.

Lemma ensureSelfChat_Ok now id u d r d' :
  ensureSelfChat now id u d = (Ok r, d') →
  d' = d ∨ (chats d !! id = None ∧ d' =
    with_chat_settings (<[id := MkSettings 0 true false 1 0 (JObj [])]> (chat_settings d))
    (with_chat_members (<[(id, u) := new_member_row now RoleOwner]> (chat_members d))
    (with_chats (<[id := new_chat_row now ChatPrivate u 1]> (chats d)) d))).
Proof.
  unfold ensureSelfChat. destruct (rows_where _ _) as [|[k c] l]; [|left; naive_solver].
  intros Hrun. right. prog_run. unfold insert_chat in Hrun.
  destruct (chats d !! id); [done|]. unfold insert_member in Hrun. simpl in Hrun.
  destruct (chat_members d !! _); [done|]. unfold insert_settings in Hrun. simpl in Hrun.
  destruct (chat_settings d !! _); [done|]. injection Hrun as _ <-. done.
Qed.

Lemma EnsurePrivateChat_store_ok now id a b d r d' :
  EnsurePrivateChat now id (λ d, d) (λ d, d) a b d = (Ok r, d') → store_ok d → store_ok d'.
Proof.
  unfold EnsurePrivateChat. intros Hrun Hok. case_decide.
  - apply ensureSelfChat_Ok in Hrun as [->|[Hid ->]]; [done|]. by apply self_store_ok.
  - destruct (lookup_private_chat _ _ _); [naive_solver|].
    destruct (in_tx _ _) as [[x|e] d1] eqn:Htx.
    + apply in_tx_Ok_inv in Htx. apply create_private_chat_Ok in Htx as (-> & Hid & Hk & ->).
      injection Hrun as _ <-. by apply private_store_ok.
    + apply in_tx_Err in Htx as ->. destruct (is_unique_violation e); [|naive_solver].
      destruct (lookup_private_chat _ _ _); naive_solver.
Qed.
End private_facts.
