(* ===== verification/MessageTheory.v ===== *)
(** * What the message store guarantees

    Theorems about [MessageRepo]: the invariant of every reachable store,
    exactly-once sending under any interleaving, history reading, clearing,
    read cursors, reactions and private chats. *)

From stdpp Require Import base tactics list sorting relations gmap strings.
From Stdlib Require Import ZArith Lia.
From S2P Require Import Prelude GoString Httpx Permissions Store ChatContext EventLog MessageRepo.

Set Default Goal Selector "!".
Open Scope Z_scope.

(** ** Every step keeps the invariant *)
Section steps.
Implicit Types (d : db).

Lemma keeps_identity_edit now content e : keeps_identity (edit_row_of now content e).
Proof. by intros r. Qed.
Lemma keeps_identity_tombstone now u : keeps_identity (tombstone now u).
Proof. by intros r. Qed.
Lemma keeps_identity_clear now u : keeps_identity (clear_tombstone now u).
Proof. by intros r. Qed.

Lemma edited_store_ok now id u content e r d :
  live_message id d = Some r → store_ok d → store_ok (edited_db now id u content e r d).
Proof.
  intros Hl Hok. unfold edited_db. apply store_ok_set_message with r; [done|done| |done].
  simpl. apply live_message_Some in Hl as [_ ->]. done.
Qed.

Lemma deleted_store_ok now id u r d :
  live_message id d = Some r → store_ok d → store_ok (deleted_db now id u d).
Proof.
  intros Hl Hok. apply (store_ok_set_message d id r (tombstone now u)); done.
Qed.

Lemma cleared_store_ok now ch u c all d :
  live_chat d ch = Some c → store_ok d → store_ok (cleared_db now ch u (c_last_seq c) all d).
Proof.
  intros [Hc _]%live_chat_Some (Hlog & Hh & Hcur).
  pose proof (ok_nonneg _ _ Hh _ _ Hc) as Hnn.
  assert (∀ mem P, cursors_ok (chats d) mem →
    (∀ k m, P k m = true → k.1 = ch) →
    cursors_ok (chats d) (update_where P (λ _, watermark_member (c_last_seq c)) mem)) as Hwm.
  { intros mem P Hmem HP ch' u' m' (m & Hl & ->)%lookup_update_where_Some.
    destruct (Hmem _ _ _ Hl) as (c' & Hc' & ?). exists c'. split; [done|].
    destruct (P (ch', u') m) eqn:HPm; [|done]. apply HP in HPm. simpl in HPm. subst ch'.
    rewrite Hc in Hc'. injection Hc' as <-. simpl. lia. }
  assert (∀ k m, active_in ch k m = true → k.1 = ch) as Hact.
  { by intros k m [? _]%active_in_true. }
  assert (∀ k m, active_in ch k m && bool_decide (k.2 = u) = true → k.1 = ch) as Hact'.
  { intros k m [? _]%andb_true_iff. by eapply Hact. }
  destruct all; (split; [done|split]).
  - by apply history_ok_update.
  - by apply Hwm; [apply Hwm|].
  - done.
  - by apply Hwm.
Qed.

Lemma MarkRead_store_ok ch u upto d r d' :
  MarkRead ch u upto d = (Ok r, d') → store_ok d → store_ok d'.
Proof.
  unfold MarkRead. destruct (active_member d ch u) as [m|] eqn:Hm; [|done].
  intros [= <- <-] (Hlog & Hh & Hcur). split; [done|split; [done|]].
  apply active_member_Some in Hm as [Hm _].
  destruct (Hcur _ _ _ Hm) as (c & Hc & ?). by apply (cursors_ok_insert _ _ _ _ _ c).
Qed.

Lemma SetDraft_store_ok ch u draft d r d' :
  SetDraft ch u draft d = (Ok r, d') → store_ok d → store_ok d'.
Proof.
  unfold SetDraft. destruct (active_member d ch u) as [m|] eqn:Hm; [|done].
  destruct (chats d !! ch) as [c|] eqn:Hc; [|done]. destruct (bool_decide _); [done|].
  intros [= <- <-] (Hlog & Hh & Hcur). split; [done|split; [done|]].
  apply active_member_Some in Hm as [Hm _]. destruct (Hcur _ _ _ Hm) as (c' & Hc' & ?).
  by apply (cursors_ok_insert _ _ _ _ _ c').
Qed.

Lemma React_store_ok now id u emoji d r d' :
  React now id u emoji d = (Ok r, d') → store_ok d → store_ok d'.
Proof.
  unfold React. prog_run. destruct (live_message id d); [|done].
  by destruct (bool_decide _); intros [= <- <-].
Qed.

Lemma store_step_ok d d' : store_step d d' → store_ok d → store_ok d'.
Proof.
  intros Hstep Hok. pose proof Hok as (Hlog & Hh & Hcur).
  destruct Hstep as [now id p r d' H|now id a b r d' H|now id u content ents r d' H|now id u r d' H
    |now ch u all r d' H|ch u upto r d' H|now ch u from to limit|now id u emoji r d' H
    |id pinned r d' H|ch u draft r d' H|now u ty p s d' H|now old|d' H1 H2 H3 H4
    |P f d' H1 H2 H3 H4 H5 H6].
  - apply send_body_Ok in H as (c & ent & pay & mk & Hc & _ & _ & _ & Hins & -> & _); [|done].
    by apply sent_store_ok.
  - by eapply EnsurePrivateChat_store_ok.
  - pose proof H as (m & e & Hl & He)%Edit_Ok_inv. rewrite (Edit_run _ _ _ _ _ m e) in H by done.
    injection H as _ <-. by apply store_ok_appended, edited_store_ok.
  - destruct (live_message id d) as [m|] eqn:Hl; [|by rewrite Delete_missing in H].
    rewrite (Delete_run _ _ _ m) in H by done. injection H as _ <-.
    by eapply store_ok_appended, deleted_store_ok.
  - pose proof H as (c & m & Hc & Hm)%ClearHistory_Ok_inv.
    destruct (ClearHistory_run now ch u all c m d Hlog Hc Hm) as [us Hrun].
    rewrite Hrun in H. injection H as _ <-.
    assert (store_ok (cleared_db now ch u (c_last_seq c) all d)) as Hok' by by apply cleared_store_ok.
    destruct all; [by apply store_ok_appended|]. destruct Hok' as ([Hl1 Hl2] & ? & ?).
    split; [by apply published_log_ok|done].
  - by eapply MarkRead_store_ok.
  - unfold RecordReads. by destruct (to <=? from).
  - by eapply React_store_ok.
  - unfold SetPinned in H. destruct (live_message id d) as [m|] eqn:Hl; [|done].
    injection H as _ <-. apply store_ok_set_message with m; [done|done| |done].
    simpl. apply live_message_Some in Hl as [_ ->]. done.
  - by eapply SetDraft_store_ok.
  - rewrite PublishUserEvent_run in H by apply Hlog. injection H as _ <-.
    split; [by apply published_log_ok; apply Hlog|done].
  - split; [|done]. split; [|apply Hlog]. intros u s e. simpl.
    rewrite lookup_delete_where_Some. intros [He _]. by apply (proj1 Hlog _ _ e).
  - split; [done|]. rewrite H2. split; [by eapply history_ok_extends|done].
  - split; [done|]. rewrite H2. split; [|done]. by eapply history_ok_extends, history_ok_update.
Qed.

Lemma store_steps_ok d d' : rtc store_step d d' → store_ok d → store_ok d'.
Proof.
  induction 1 as [|d1 d2 d3 Hstep _ IH]; [done|]. intros Hok. by eapply IH, store_step_ok.
Qed.

Lemma store_ok_empty : store_ok empty_db.
Proof.
  split; [split|split; [split|]]; repeat intro; done.
Qed.
End steps.

(** C1: Every store reachable by any interleaving of the module's transactions is
    well formed: each chat's messages are numbered 1 to [last_seq] with no gap and
    no repetition, an idempotency key identifies one message, deleted messages keep
    no text, clear watermarks stay within the history, and event numbers stay
    within their counters. *)
Theorem store_reachable_ok d d' :
  rtc store_step d d' → store_ok d → store_ok d'.
Proof. apply store_steps_ok. Qed.

(** ** Sending exactly once *)

(** A request the store accepts: a live chat, well-formed JSON, a known type, and
    a sender if there are buttons. *)
Record sendable (p : SendParams) (d : db) (c : chat_row) (ent pay mk : option json) : Prop := {
  snd_chat : live_chat d (sp_ChatID p) = Some c;
  snd_ent : nullableJSON (sp_Entities p) = Ok ent;
  snd_pay : nullableJSON (sp_Payload p) = Ok pay;
  snd_mk : nullableJSON (sp_ReplyMarkup p) = Ok mk;
  snd_type : sp_Type p ∈ ValidMessageTypes;
  snd_markup : mk = None ∨ sp_AsChat p = false;
}.

(** The row already holding the request's idempotency key. *)
Definition has_key (p : SendParams) (d : db) (id : uuid) (r : message_row) : Prop :=
  messages d !! id = Some r ∧ r_chat_id r = sp_ChatID p ∧
  r_sender_id r = Some (sp_SenderID p) ∧ r_client_message_id r = sp_ClientMessageID p.

Definition next_row (now : time) (p : SendParams) (d : db) (c : chat_row)
    (ent pay mk : option json) : message_row :=
  new_message_row now p (c_last_seq c + 1)
    (author_signature (sp_ChatID p) (sp_SenderID p) d) ent pay mk.

Section sending.
Implicit Types (d : db) (p : SendParams) (id : uuid).

Lemma elem_of_key_rows p d id r :
  (id, r) ∈ rows_where (idempotency_key (sp_ChatID p) (sp_SenderID p) (sp_ClientMessageID p))
    (messages d) ↔ has_key p d id r.
Proof. rewrite elem_of_rows_where, idempotency_key_true. done. Qed.

Lemma messageByClientID_found p d id r :
  store_ok d → has_key p d id r →
  messageByClientID (sp_ChatID p) (sp_SenderID p) (sp_ClientMessageID p) d =
  (Ok (base_message id r), d).
Proof.
  intros (_ & Hh & _) Hkey. unfold messageByClientID.
  destruct (rows_where _ _) as [|[id' r'] l] eqn:Hrows.
  - apply elem_of_key_rows in Hkey. rewrite Hrows in Hkey. by apply not_elem_of_nil in Hkey.
  - assert (has_key p d id' r') as Hkey' by (apply elem_of_key_rows; rewrite Hrows; by left).
    destruct Hkey as (Hl & Hc & Hs & Hm), Hkey' as (Hl' & Hc' & Hs' & Hm').
    assert (id' = id) as -> by (eapply (ok_key _ _ Hh); [done|done|..]; congruence).
    congruence.
Qed.

Lemma messageByClientID_missing p d :
  (∀ id r, ¬ has_key p d id r) ↔
  messageByClientID (sp_ChatID p) (sp_SenderID p) (sp_ClientMessageID p) d = (Err ErrNotFound, d).
Proof.
  unfold messageByClientID. split.
  - intros Hnone. destruct (rows_where _ _) as [|[id r] l] eqn:Hrows; [done|].
    exfalso. apply (Hnone id r), elem_of_key_rows. rewrite Hrows. by left.
  - intros Hrun id r Hkey%elem_of_key_rows.
    destruct (rows_where _ _) as [|[] l]; [by apply not_elem_of_nil in Hkey|done].
Qed.

Lemma below_next d ch c k r :
  store_ok d → live_chat d ch = Some c → messages d !! k = Some r → r_chat_id r = ch →
  r_seq r ≠ c_last_seq c + 1.
Proof.
  intros (_ & Hh & _) [Hc _]%live_chat_Some Hl Hch.
  destruct (ok_range _ _ Hh _ _ Hl) as (c' & Hc' & ?). rewrite Hch, Hc in Hc'.
  injection Hc' as <-. lia.
Qed.


(** The reads before the insert change nothing. *)
Lemma send_body_prefix now id p d c ent pay mk :
  sendable p d c ent pay mk →
  send_body now id p d =
  let row := next_row now p d c ent pay mk in
  let message := sent_message id row p in
  (insert_message id row;;
   for_each (sp_Attachments p) (insert_attachment id);;
   modify (insert_mentions id (sp_MentionUserIDs p));;
   modify (advance_chat now (sp_ChatID p) (c_last_seq c + 1) id);;
   modify (λ d, if sp_TopicID p is Some t then advance_topic now t (sp_SenderID p) d else d);;
   modify (λ d, if sp_AsChat p then d else advance_sender (sp_ChatID p) (sp_SenderID p) (c_last_seq c + 1) d);;
   if FanoutThreshold <? c_member_count c then mret (MkSendResult message [] ∅ false false)
   else
     modify (bump_unread (sp_ChatID p) (sp_SenderID p) (sp_MentionUserIDs p) (sp_AsChat p));;
     rs ← appendUserEvents now (sp_ChatID p) EventMessageNew (PayloadMessage (sp_ChatID p) message);
     mret (MkSendResult message rs.1 rs.2 false true)) d.
Proof.
  intros [Hc He Hp Hm _ _]. unfold send_body, gets, lift_result.
  unfold mbind at 1, prog_bind at 1. rewrite Hc. unfold mbind at 1, prog_bind at 1, or_fail.
  by rewrite He, Hp, Hm.
Qed.

Lemma send_body_duplicate now id p d c ent pay mk idw rw :
  store_ok d → sendable p d c ent pay mk → sp_AsChat p = false → messages d !! id = None →
  has_key p d idw rw →
  (send_body now id p d).1 = Err (ErrUnique "messages_idempotency_key").
Proof.
  intros Hok Hsend Has Hid Hkey. rewrite (send_body_prefix _ _ _ _ c ent pay mk) by done.
  cbv zeta. unfold mbind at 1, prog_bind at 1. unfold insert_message at 1.
  destruct Hsend as [Hc _ _ _ Htype Hmark]. simpl.
  rewrite bool_decide_false by (intros Hn; by apply Hn).
  replace (bool_decide (is_Some mk) && _) with false.
  2:{ rewrite Has. by destruct mk. }
  rewrite bool_decide_false by (rewrite Hid; by intros []).
  rewrite (proj2 (count_where_none _ _)).
  2:{ intros k r' Hk [Hch Hsq]%at_seq_true. by eapply below_next. }
  rewrite Has. destruct (negb _) eqn:Hcount; [done|].
  exfalso. destruct Hkey as (Hl & Hch & Hs & Hcl).
  apply (proj1 (count_where_none _ _) Hcount idw rw Hl). by apply idempotency_key_true.
Qed.
End sending.

(** Everything the transaction needs to succeed: an accepted request, a fresh
    id, no attachment twice, and an unused key. *)
Record send_ready (id : uuid) (p : SendParams) (d : db) (c : chat_row)
    (ent pay mk : option json) : Prop := {
  rdy_sendable : sendable p d c ent pay mk;
  rdy_id : messages d !! id = None;
  rdy_media : NoDup (att_media <$> sp_Attachments p);
  rdy_attachments : ∀ media, message_attachments d !! (id, media) = None;
  rdy_key : sp_AsChat p = true ∨ ∀ k r, ¬ has_key p d k r;
}.

Section sending_well.
Implicit Types (d : db) (p : SendParams) (id : uuid).

Lemma insert_attachments_run id l d :
  NoDup (att_media <$> l) →
  (∀ a, a ∈ l → message_attachments d !! (id, att_media a) = None) →
  for_each l (insert_attachment id) d =
  (Ok (), with_message_attachments (add_attachments id l (message_attachments d)) d).
Proof.
  revert d. induction l as [|a l IH]; intros d; [by destruct d|]. rewrite fmap_cons.
  intros [Ha Hnd]%NoDup_cons Hfresh. simpl. unfold mbind, prog_bind, insert_attachment at 1.
  rewrite (Hfresh a) by (by left). rewrite IH; [done|done|]. intros b Hb. simpl.
  rewrite lookup_insert_ne; [by apply Hfresh; right|].
  intros [= Heq]. apply Ha. rewrite Heq. by apply list_elem_of_fmap_2.
Qed.

Lemma send_ready_insertable now id p d c ent pay mk :
  store_ok d → send_ready id p d c ent pay mk → insertable id (next_row now p d c ent pay mk) d.
Proof.
  intros Hok [[Hc _ _ _ Htype Hmark] Hid _ _ Hkey]. split; simpl.
  - done.
  - destruct Hmark as [->| ->]; [by left|by right].
  - done.
  - intros k r' Hl Hch. by eapply below_next.
  - intros k r' Hl Hs Hch Hs' Hcl. destruct Hkey as [Has|Hkey]; [by rewrite Has in Hs|].
    destruct (sp_AsChat p); [done|]. by apply (Hkey k r').
Qed.

Lemma send_body_run now id p d c ent pay mk :
  store_ok d → send_ready id p d c ent pay mk →
  let row := next_row now p d c ent pay mk in
  ∃ us seqs, send_body now id p d =
    (Ok (MkSendResult (sent_message id row p) us seqs false (negb (FanoutThreshold <? c_member_count c))),
     sent_db now id p row (c_member_count c) d).
Proof.
  intros Hok Hready row. pose proof (send_ready_insertable now _ _ _ _ _ _ _ Hok Hready) as Hins.
  destruct Hready as [Hsend Hid Hnd Hatt Hkey].
  rewrite (send_body_prefix _ _ _ _ c ent pay mk) by done. cbv zeta. fold row in Hins |- *.
  unfold mbind at 1, prog_bind at 1.
  rewrite (proj2 (insert_message_Ok id row d tt _) (conj Hins eq_refl)).
  unfold mbind at 1, prog_bind at 1. rewrite insert_attachments_run by (intros; done || apply Hatt).
  prog_run. unfold sent_db. cbv zeta. simpl.
  destruct (FanoutThreshold <? c_member_count c); [eauto|].
  rewrite appendUserEvents_run by (destruct (sp_AsChat p), (sp_TopicID p); apply Hok). simpl. eauto.
Qed.
End sending_well.

(** C2: A well-formed send with an unused key always succeeds, and does exactly this:
    it stores one new message at the position after the chat's last one, with the
    request's fields; advances the chat to it; and leaves every other message and
    every other chat as they were.  In a chat of at most a thousand members every
    current member but the sender has one more unread message, and in a larger one none. *)
Theorem send_appends_one now id p d c ent pay mk :
  store_ok d → send_ready id p d c ent pay mk →
  ∃ r d', send_body now id p d = (Ok r, d') ∧
    let row := next_row now p d c ent pay mk in
    mID (sr_Message r) = id ∧ mSeq (sr_Message r) = c_last_seq c + 1 ∧ sr_Duplicate r = false ∧
    messages d' = <[id := row]> (messages d) ∧
    (∃ c', live_chat d' (sp_ChatID p) = Some c' ∧ c_last_seq c' = c_last_seq c + 1 ∧
       c_last_message_id c' = Some id ∧ c_member_count c' = c_member_count c) ∧
    (∀ ch, ch ≠ sp_ChatID p → chats d' !! ch = chats d !! ch) ∧
    (∀ u m, active_member d (sp_ChatID p) u = Some m → u ≠ sp_SenderID p →
       ∃ m', active_member d' (sp_ChatID p) u = Some m' ∧
         m_unread_count m' = m_unread_count m + if c_member_count c <=? 1000 then 1 else 0).
Proof.
  intros Hok Hready. destruct (send_body_run now id p d c ent pay mk Hok Hready) as (us & seqs & Hrun).
  eexists _, _. split; [exact Hrun|]. destruct Hready as [[Hc _ _ _ _ _] _ _ _ _].
  set (row := next_row now p d c ent pay mk). cbv zeta.
  assert (chats (sent_db now id p row (c_member_count c) d) =
    update_where (λ k _, bool_decide (k = sp_ChatID p))
      (λ _ c, with_c_last_seq (r_seq row) (with_c_last_message_id (Some id)
       (with_c_last_message_at (Some now) (with_c_updated_at now c)))) (chats d)) as Hchats.
  { unfold sent_db. by destruct (FanoutThreshold <? _), (sp_AsChat p), (sp_TopicID p). }
  do 3 (split; [done|]). split; [|split; [|split]].
  - unfold sent_db. by destruct (FanoutThreshold <? _), (sp_AsChat p), (sp_TopicID p).
  - apply live_chat_Some in Hc as [Hc Hlive]. eexists. split.
    + apply live_chat_Some. rewrite Hchats, lookup_update_where, Hc. split; [done|].
      by rewrite bool_decide_true.
    + by rewrite bool_decide_true.
  - intros ch Hne. rewrite Hchats, lookup_update_where. rewrite bool_decide_false by done.
    by destruct (chats d !! ch).
  - intros u m [Hm Hl]%active_member_Some Hne. unfold sent_db. simpl.
    change FanoutThreshold with 1000. rewrite Z.leb_antisym. destruct (1000 <? c_member_count c); simpl.
    + eexists. split; [apply active_member_Some|].
      * destruct (sp_AsChat p), (sp_TopicID p); simpl; (split; [|exact Hl]); rewrite ?lookup_update_where, Hm;
          simpl; rewrite ?bool_decide_false by congruence; done.
      * simpl. lia.
    + eexists. split; [apply active_member_Some|].
      * destruct (sp_AsChat p), (sp_TopicID p); simpl; rewrite !lookup_update_where, Hm; simpl;
          rewrite ?(bool_decide_false ((sp_ChatID p, u) = (sp_ChatID p, sp_SenderID p))) by congruence;
          unfold active_in; simpl; rewrite Hl, (bool_decide_true (sp_ChatID p = sp_ChatID p)) by done;
          rewrite ?(bool_decide_false (u = sp_SenderID p)) by done; simpl; (split; [reflexivity|exact Hl]).
      * done.
Qed.

(** ** Messages persist *)

(** Nothing removes a message or moves it: rows keep their identity for ever. *)
Definition persists (d d' : db) : Prop :=
  ∀ id r, messages d !! id = Some r → ∃ r', messages d' !! id = Some r' ∧
    r_chat_id r' = r_chat_id r ∧ r_seq r' = r_seq r ∧ r_sender_id r' = r_sender_id r ∧
    r_client_message_id r' = r_client_message_id r.

Section persistence.
Implicit Types (d : db).

Lemma persists_eq d d' : messages d' = messages d → persists d d'.
Proof. intros Heq id r Hl. exists r. by rewrite Heq. Qed.

Lemma persists_trans d1 d2 d3 : persists d1 d2 → persists d2 d3 → persists d1 d3.
Proof.
  intros H1 H2 id r Hl. destruct (H1 _ _ Hl) as (r2 & Hl2 & ? & ? & ? & ?).
  destruct (H2 _ _ Hl2) as (r3 & Hl3 & ? & ? & ? & ?). exists r3. repeat split; congruence.
Qed.

Lemma persists_update d d' (P : uuid → message_row → bool) f :
  messages d' = update_where P (λ _, f) (messages d) → keeps_identity f → persists d d'.
Proof.
  intros Heq Hf id r Hl. eexists. rewrite Heq, lookup_update_where, Hl. split; [done|].
  destruct (P id r); [apply Hf|done].
Qed.

Lemma messages_sent_db now id p row n d :
  messages (sent_db now id p row n d) = <[id := row]> (messages d).
Proof. unfold sent_db. by destruct (FanoutThreshold <? _), (sp_AsChat p), (sp_TopicID p). Qed.

Lemma persists_insert d d' id row :
  messages d !! id = None → messages d' = <[id := row]> (messages d) → persists d d'.
Proof.
  intros Hid Heq k r Hl. exists r. rewrite Heq, lookup_insert_ne by congruence. done.
Qed.

Lemma persists_ensure now id a b d r d' :
  EnsurePrivateChat now id (λ d, d) (λ d, d) a b d = (Ok r, d') → persists d d'.
Proof.
  unfold EnsurePrivateChat. intros Hrun. apply persists_eq. case_decide.
  - by apply ensureSelfChat_Ok in Hrun as [->|[_ ->]].
  - destruct (lookup_private_chat _ _ _); [naive_solver|].
    destruct (in_tx _ _) as [[x|e] d1] eqn:Htx.
    + apply in_tx_Ok_inv in Htx. apply create_private_chat_Ok in Htx as (_ & _ & _ & ->).
      by injection Hrun as _ <-.
    + apply in_tx_Err in Htx as ->. destruct (is_unique_violation e); [|naive_solver].
      destruct (lookup_private_chat _ _ _); naive_solver.
Qed.

Lemma store_step_persists d d' : store_step d d' → store_ok d → persists d d'.
Proof.
  intros Hstep Hok. pose proof Hok as (Hlog & Hh & Hcur).
  destruct Hstep as [now id p r d' H|now id a b r d' H|now id u content ents r d' H|now id u r d' H
    |now ch u all r d' H|ch u upto r d' H|now ch u from to limit|now id u emoji r d' H
    |id pinned r d' H|ch u draft r d' H|now u ty p s d' H|now old|d' H1 H2 H3 H4
    |P f d' H1 H2 H3 H4 H5 H6].
  - apply send_body_Ok in H as (c & ent & pay & mk & Hc & _ & _ & _ & [_ _ Hid _ _] & -> & _); [|done].
    by eapply persists_insert, messages_sent_db.
  - by eapply persists_ensure.
  - pose proof H as (m & e & Hl & He)%Edit_Ok_inv. rewrite (Edit_run _ _ _ _ _ m e) in H by done.
    injection H as _ <-. by eapply persists_update, keeps_identity_edit.
  - destruct (live_message id d) as [m|] eqn:Hl; [|by rewrite Delete_missing in H].
    rewrite (Delete_run _ _ _ m) in H by done. injection H as _ <-.
    by eapply persists_update, keeps_identity_tombstone.
  - pose proof H as (c & m & Hc & Hm)%ClearHistory_Ok_inv.
    destruct (ClearHistory_run now ch u all c m d Hlog Hc Hm) as [us Hrun].
    rewrite Hrun in H. injection H as _ <-.
    destruct all; [by eapply persists_update, keeps_identity_clear|by apply persists_eq].
  - unfold MarkRead in H. destruct (active_member d ch u); [|done]. injection H as _ <-.
    by apply persists_eq.
  - apply persists_eq. unfold RecordReads. by destruct (to <=? from).
  - apply persists_eq. revert H. unfold React. prog_run. destruct (live_message id d); [|done].
    by destruct (bool_decide _); intros [= _ <-].
  - unfold SetPinned in H. destruct (live_message id d) as [m|] eqn:Hl; [|done].
    injection H as _ <-. by eapply persists_update with (f := with_r_is_pinned pinned).
  - apply persists_eq. revert H. unfold SetDraft.
    destruct (active_member d ch u), (chats d !! ch); [|done..].
    by destruct (bool_decide _); intros [= _ <-].
  - rewrite PublishUserEvent_run in H by apply Hlog. injection H as _ <-. by apply persists_eq.
  - by apply persists_eq.
  - by apply persists_eq.
  - by eapply persists_update.
Qed.

Lemma store_steps_persist d d' : rtc store_step d d' → store_ok d → persists d d'.
Proof.
  induction 1 as [|d1 d2 d3 Hstep _ IH]; intros Hok; [by apply persists_eq|].
  eapply persists_trans; [by apply store_step_persists|]. by eapply IH, store_step_ok.
Qed.

Lemma has_key_persists p d d' id r :
  persists d d' → has_key p d id r → ∃ r', has_key p d' id r' ∧ r_seq r' = r_seq r.
Proof.
  intros Hp (Hl & Hc & Hs & Hm). destruct (Hp _ _ Hl) as (r' & Hl' & ? & ? & ? & ?).
  exists r'. split; [|done]. split; [done|]. repeat split; congruence.
Qed.

(** A successful send, whichever path it took, ends with its key in the store. *)
Lemma Send_has_key now id before after p d r d' :
  store_ok d → store_ok (before d) → store_ok (after (before d)) → sp_AsChat p = false →
  Send now id before after p d = (Ok r, d') →
  store_ok d' ∧ ∃ row, has_key p d' (mID (sr_Message r)) row ∧ r_seq row = mSeq (sr_Message r).
Proof.
  intros Hok Hokb Hoka Has. unfold Send. rewrite Has.
  assert (∀ d1 m, store_ok d1 →
    messageByClientID (sp_ChatID p) (sp_SenderID p) (sp_ClientMessageID p) d1 = (Ok m, d1) →
    ∃ row, has_key p d1 (mID m) row ∧ r_seq row = mSeq m) as Hfound.
  { intros d1 m Hok1 Hrun. unfold messageByClientID in Hrun.
    destruct (rows_where _ _) as [|[id' r'] l] eqn:Hrows; [done|]. injection Hrun as <-.
    exists r'. split; [|done]. apply elem_of_key_rows. rewrite Hrows. by left. }
  assert (∀ d1, (messageByClientID (sp_ChatID p) (sp_SenderID p) (sp_ClientMessageID p) d1).2 = d1) as Hsnd.
  { intros d1. unfold messageByClientID. by destruct (rows_where _ _) as [|[] ?]. }
  destruct (messageByClientID _ _ _ d) as [[m|e] d0] eqn:Hfast; simpl.
  - intros [= <- <-]. split; [done|]. apply Hfound; [done|]. rewrite Hfast. f_equal.
    by rewrite <-(Hsnd d), Hfast.
  - case_decide; [|done]. destruct (in_tx _ _) as [[r0|e'] d1] eqn:Htx.
    + intros [= <- <-]. apply in_tx_Ok_inv in Htx. split; [by eapply store_step_ok, Hokb; econstructor|].
      apply send_body_Ok in Htx as (c & ent & pay & mk & Hc & _ & _ & _ & Hins & -> & -> & _); [|apply Hokb].
      exists (new_message_row now p (c_last_seq c + 1)
        (author_signature (sp_ChatID p) (sp_SenderID p) (before d)) ent pay mk).
      split; [|done]. split; [by rewrite messages_sent_db, lookup_insert_eq|].
      simpl. by rewrite Has.
    + apply in_tx_Err in Htx as ->. destruct (is_unique_violation_of _ _); [|done].
      destruct (messageByClientID _ _ _ (after _)) as [[m|e''] d2] eqn:Hagain; [|done].
      intros [= <- <-]. pose proof (Hsnd (after (before d))) as Hd2. rewrite Hagain in Hd2.
      simpl in Hd2. subst d2. split; [done|]. by apply Hfound.
Qed.
End persistence.

(** Each number a send reports is the number of the event it logged. *)
Lemma send_body_events now id p d r d' :
  log_good d → send_body now id p d = (Ok r, d') →
  (∀ u, u ∈ sr_Recipients r → is_Some (sr_EventSeqs r !! u)) ∧
  (∀ u s, sr_EventSeqs r !! u = Some s → u ∈ sr_Recipients r ∧
     user_events d' !! (u, s) =
       Some (MkEvent EventMessageNew (PayloadMessage (sp_ChatID p) (sr_Message r)) now)).
Proof.
  intros Hlog Hrun. unfold send_body in Hrun. prog_inv.
  repeat match goal with
  | H : lift_result _ _ = (Ok _, _) |- _ => apply lift_result_Ok_inv in H as [? ->]
  | H : insert_message _ _ _ = (Ok _, _) |- _ => apply insert_message_Ok in H as [? ->]
  | H : for_each _ (insert_attachment _) _ = (Ok _, _) |- _ =>
      apply for_each_insert_attachment in H as ->
  end.
  destruct (FanoutThreshold <? _).
  - injection Hrun as <- <-. split; [by intros u ?%not_elem_of_nil|done].
  - apply bind_Ok_inv in Hrun as (? & d1 & [= _ <-] & Hrun).
    apply bind_Ok_inv in Hrun as ([us seqs] & ? & Happ & [= <- <-]).
    match type of Happ with appendUserEvents _ _ _ _ ?d0 = _ => set (d6 := d0) in * end.
    assert (log_good d6) as Hlog6 by (unfold d6; destruct (sp_AsChat p), (sp_TopicID p); exact Hlog).
    rewrite appendUserEvents_run in Happ by apply Hlog6.
    injection Happ as <- <- <-. cbn [sr_Recipients sr_EventSeqs sr_Message fst snd].
    assert (∀ u s, (list_to_map (bumped (recipients_of (sp_ChatID p) d6) d6) : gmap uuid Z) !! u = Some s
      ↔ (u, s) ∈ bumped (recipients_of (sp_ChatID p) d6) d6) as Hmap.
    { intros u s. symmetry. apply elem_of_list_to_map, NoDup_bumped_fst. }
    split.
    + intros u ([u' s] & -> & Hin)%list_elem_of_fmap. exists s. by apply Hmap.
    + intros u s Hin%Hmap. split; [by apply (list_elem_of_fmap_2 fst) in Hin|].
      rewrite lookup_appended_events. by rewrite bool_decide_true.
Qed.

(** A send is exactly once.  Once a send has answered, retrying it with the same
    idempotency key, at any later time and whatever other transactions committed in
    between (or commit during the retry), answers with the same message at the same
    position, marked as a duplicate, and writes nothing. *)
Lemma Send_retry_is_duplicate now id before after p d r d1 d2 now' id' before' after' :
  store_ok d → store_ok (before d) → store_ok (after (before d)) → sp_AsChat p = false →
  Send now id before after p d = (Ok r, d1) → rtc store_step d1 d2 →
  ∃ r', Send now' id' before' after' p d2 = (Ok r', d2) ∧ sr_Duplicate r' = true ∧
    mID (sr_Message r') = mID (sr_Message r) ∧ mSeq (sr_Message r') = mSeq (sr_Message r).
Proof.
  intros Hok Hokb Hoka Has Hrun Hsteps.
  destruct (Send_has_key _ _ _ _ _ _ _ _ Hok Hokb Hoka Has Hrun) as [Hok1 (row & Hkey & Hseq)].
  assert (store_ok d2) as Hok2 by by eapply store_steps_ok.
  destruct (has_key_persists p d1 d2 _ row (store_steps_persist _ _ Hsteps Hok1) Hkey)
    as (row' & Hkey' & Hseq').
  exists (duplicate_of (base_message (mID (sr_Message r)) row')). split; [|split; [done|]].
  - unfold Send. rewrite Has. by rewrite (messageByClientID_found p d2 _ row') by done.
  - split; [done|]. simpl. congruence.
Qed.

(** Two concurrent sends of one idempotency key yield one message.  If the other
    one commits between this one's lookup and its transaction, this one's insert is
    refused by the unique index and it answers with the winner's message, having
    written nothing. *)
Lemma Send_race_returns_winner now id before after p d c ent pay mk idw rw :
  sp_AsChat p = false → (∀ k r, ¬ has_key p d k r) →
  store_ok (before d) → sendable p (before d) c ent pay mk → messages (before d) !! id = None →
  has_key p (before d) idw rw →
  store_ok (after (before d)) → persists (before d) (after (before d)) →
  ∃ r, Send now id before after p d = (Ok r, after (before d)) ∧ sr_Duplicate r = true ∧
    mID (sr_Message r) = idw ∧ mSeq (sr_Message r) = r_seq rw.
Proof.
  intros Has Hnone Hokb Hsend Hid Hkey Hoka Hper.
  pose proof (send_body_duplicate now id p (before d) c ent pay mk idw rw Hokb Hsend Has Hid Hkey) as Hdup.
  destruct (has_key_persists p _ _ _ _ Hper Hkey) as (rw' & Hkey' & Hseq').
  exists (duplicate_of (base_message idw rw')). split; [|done].
  unfold Send. rewrite Has, (proj1 (messageByClientID_missing p d) Hnone). simpl.
  unfold in_tx. destruct (send_body now id p (before d)) as [[?|e] d1]; simpl in Hdup; [done|].
  injection Hdup as ->. simpl. by rewrite (messageByClientID_found p _ idw rw').
Qed.

(** ** Concrete runs *)

(** Users 1 and 2 with event logs, their private chat 10, and one message. *)
Definition sample_env : db → db := λ d, d.
Definition sample_db1 : db := (PublishUserEvent 0 1 EventChatUpdated (PayloadChat 10) empty_db).2.
Definition sample_db2 : db := (PublishUserEvent 0 2 EventChatUpdated (PayloadChat 10) sample_db1).2.
Definition sample_db3 : db := (EnsurePrivateChat 1 10 sample_env sample_env 1 2 sample_db2).2.
Definition sample_params (sender client : uuid) (text : string) : SendParams :=
  MkSendParams 10 sender client TypeText text RawNil RawNil None [] [2%N] None RawNil false false None.
Definition sample_db : db :=
  (send_body 5 100 (sample_params 1 77 "hello") sample_db3).2.

Lemma sample_steps : rtc store_step empty_db sample_db3 ∧ rtc store_step sample_db3 sample_db.
Proof.
  split.
  - destruct (run_is_Ok (PublishUserEvent 0 1 EventChatUpdated (PayloadChat 10)) empty_db) as [r1 H1];
      [reflexivity|].
    destruct (run_is_Ok (PublishUserEvent 0 2 EventChatUpdated (PayloadChat 10)) sample_db1) as [r2 H2];
      [reflexivity|].
    destruct (run_is_Ok (EnsurePrivateChat 1 10 sample_env sample_env 1 2) sample_db2) as [r3 H3];
      [vm_compute; reflexivity|].
    eapply rtc_l; [exact (step_publish_event _ _ _ _ _ _ _ H1)|].
    eapply rtc_l; [exact (step_publish_event _ _ _ _ _ _ _ H2)|].
    apply rtc_once. exact (step_private _ _ _ _ _ _ _ H3).
  - destruct (run_is_Ok (send_body 5 100 (sample_params 1 77 "hello")) sample_db3) as [r H];
      [vm_compute; reflexivity|].
    apply rtc_once. exact (step_send _ _ _ _ _ _ H).
Qed.

Lemma sample_ok : store_ok sample_db3 ∧ store_ok sample_db.
Proof.
  assert (store_ok sample_db3) as H3 by (eapply store_steps_ok, store_ok_empty; apply sample_steps).
  split; [done|]. by eapply store_steps_ok, H3; apply sample_steps.
Qed.

Definition sample_chat : chat_row := new_chat_row 1 ChatPrivate 1 2.

Lemma sample_sendable text sender client :
  sendable (sample_params sender client text) sample_db3 sample_chat None None None.
Proof.
  split; try reflexivity. by left.
Qed.

(** An unused key, checked by computation. *)
Lemma no_key_by_lookup p d :
  (messageByClientID (sp_ChatID p) (sp_SenderID p) (sp_ClientMessageID p) d).1 = Err ErrNotFound →
  ∀ k r, ¬ has_key p d k r.
Proof.
  intros Hrun. apply messageByClientID_missing. revert Hrun. unfold messageByClientID.
  by destruct (rows_where _ _) as [|[] ?].
Qed.

Lemma store_reachable_ok_witness : store_ok sample_db.
Proof.
  apply (store_reachable_ok sample_db3); [apply sample_steps|apply sample_ok].
Defined.

Lemma send_appends_one_witness :
  ∃ r d', send_body 5 100 (sample_params 1 77 "hello") sample_db3 = (Ok r, d') ∧
    mSeq (sr_Message r) = 1 ∧ m_unread_count <$> active_member d' 10 2 = Some 1.
Proof.
  destruct (send_appends_one 5 100 (sample_params 1 77 "hello") sample_db3 sample_chat None None None)
    as (r & d' & Hrun & _).
  - apply sample_ok.
  - split; [apply sample_sendable|reflexivity|constructor|reflexivity|].
    right. apply no_key_by_lookup. reflexivity.
  - exists r, d'. split; [exact Hrun|]. vm_compute in Hrun. injection Hrun as <- <-.
    split; vm_compute; reflexivity.
Defined.

Lemma Send_retry_is_duplicate_witness :
  ∃ r', Send 9 200 sample_env sample_env (sample_params 1 77 "hello") sample_db = (Ok r', sample_db) ∧
    sr_Duplicate r' = true ∧ mID (sr_Message r') = 100%N ∧ mSeq (sr_Message r') = 1.
Proof.
  apply (Send_retry_is_duplicate 5 100 sample_env sample_env (sample_params 1 77 "hello") sample_db3
    (from_option id (duplicate_of (base_message 0 (next_row 0 (sample_params 1 77 "hello") empty_db sample_chat None None None)))
      (match (Send 5 100 sample_env sample_env (sample_params 1 77 "hello") sample_db3).1 with Ok r => Some r | Err _ => None end))
    sample_db sample_db 9 200 sample_env sample_env).
  - apply sample_ok.
  - apply sample_ok.
  - apply sample_ok.
  - reflexivity.
  - vm_compute. reflexivity.
  - apply rtc_refl.
Defined.

(** The racing case: the fast path runs on [sample_db3], the winner's commit turns
    it into [sample_db]. *)
Lemma Send_race_returns_winner_witness :
  ∃ r, Send 6 200 (λ _, sample_db) sample_env (sample_params 1 77 "again") sample_db3
         = (Ok r, sample_db) ∧ sr_Duplicate r = true ∧ mID (sr_Message r) = 100%N ∧
       mSeq (sr_Message r) = 1.
Proof.
  destruct (Send_race_returns_winner 6 200 (λ _, sample_db) sample_env (sample_params 1 77 "again")
    sample_db3 (default sample_chat (chats sample_db !! 10%N)) None None None 100
    (next_row 5 (sample_params 1 77 "hello") sample_db3 sample_chat None None None)) as (r & Hr).
  - reflexivity.
  - apply no_key_by_lookup. reflexivity.
  - apply sample_ok.
  - split; try reflexivity. by left.
  - reflexivity.
  - repeat split.
  - apply sample_ok.
  - by apply persists_eq.
  - exists r. exact Hr.
Defined.
