(* ===== verification/HistoryTheory.v ===== *)
(** * Reading and clearing a history

    Theorems about [MessageRepo.History], [ClearHistory], [Delete], [Edit], [React],
    [MarkRead] and [EnsurePrivateChat]. *)

From stdpp Require Import base tactics list sorting relations gmap strings.
From Stdlib Require Import ZArith Lia.
From S2P Require Import Prelude GoString Httpx Permissions Store ChatContext EventLog MessageRepo MessageTheory.

Set Default Goal Selector "!".
Open Scope Z_scope.

(** Newest first. *)
Definition newer (x y : Message) : Prop := mSeq y < mSeq x.

Definition with_before (b : option Z) (q : HistoryQuery) : HistoryQuery :=
  MkHistoryQuery (hq_ChatID q) (hq_ViewerID q) b (hq_AfterSeq q) (hq_Limit q)
    (hq_ReplyToID q) (hq_TopicID q).

(** Scrolling back: a page, then the page before its last message, until one is
    empty. *)
Definition scroll_back (fuel : nat) (q : HistoryQuery) (d : db) : list Message :=
  pages (λ m, Some (mSeq m)) (λ b, History (with_before b q) d) fuel (hq_BeforeSeq q).

Section history.
Implicit Types (q : HistoryQuery) (d : db).

Lemma elem_of_history_rows q d id r :
  (id, r) ∈ history_rows q d ↔ messages d !! id = Some r ∧ in_history q d id r = true.
Proof. unfold history_rows, order_by_desc. by rewrite elem_of_order_by, elem_of_rows_where. Qed.

Lemma in_history_chat q d id r : in_history q d id r = true → r_chat_id r = hq_ChatID q.
Proof. unfold in_history. rewrite !andb_true_iff, bool_decide_eq_true. tauto. Qed.

Lemma history_rows_strict q d :
  store_ok d → StronglySorted (key_lt (λ kr : uuid * message_row, - r_seq kr.2)) (history_rows q d).
Proof.
  intros (_ & Hh & _). apply order_by_strict. apply NoDup_fmap_2_strong; [|apply NoDup_rows_where].
  intros [id1 r1] [id2 r2] [H1 Hc1]%elem_of_rows_where [H2 Hc2]%elem_of_rows_where Heq.
  simpl in Heq. assert (id1 = id2) as ->.
  { eapply (ok_seq _ _ Hh); [done|done| |lia].
    apply in_history_chat in Hc1, Hc2. congruence. }
  congruence.
Qed.

Lemma full_history_sorted q d : store_ok d → StronglySorted (key_lt (λ m, - mSeq m)) (full_history q d).
Proof.
  intros Hok. unfold full_history. pose proof (history_rows_strict q d Hok) as Hs.
  induction Hs as [|kr l Hs IH Hall]; [constructor|]. rewrite fmap_cons. constructor; [done|].
  apply Forall_fmap. eapply Forall_impl; [exact Hall|done].
Qed.

Lemma elem_of_full_history q d m :
  m ∈ full_history q d ↔ ∃ r, messages d !! mID m = Some r ∧ in_history q d (mID m) r = true ∧
    m = history_message (hq_ViewerID q) d (mID m) r.
Proof.
  unfold full_history. rewrite list_elem_of_fmap. split.
  - intros ([id r] & -> & [Hl Hin]%elem_of_history_rows). by exists r.
  - intros (r & Hl & Hin & Hm). exists (mID m, r). split; [done|]. by apply elem_of_history_rows.
Qed.

Lemma in_history_before q d b id r :
  in_history (with_before b q) d id r =
  in_history (with_before None q) d id r && (if b is Some b then r_seq r <? b else true).
Proof.
  unfold in_history. simpl. destruct b as [b|]; simpl; [|by rewrite !andb_true_r].
  destruct (r_seq r <? b); rewrite ?andb_true_r, ?andb_false_r; done.
Qed.

Lemma full_history_next q b d m :
  store_ok d → m ∈ full_history (with_before b q) d →
  full_history (with_before (Some (mSeq m)) q) d =
  filter (λ y, - mSeq m < - mSeq y) (full_history (with_before b q) d).
Proof.
  intros Hok Hm. apply (StronglySorted_strict_unique (λ m, - mSeq m)).
  - by apply full_history_sorted.
  - by apply StronglySorted_key_lt_filter, full_history_sorted.
  - intros y. rewrite list_elem_of_filter, !elem_of_full_history. simpl.
    apply elem_of_full_history in Hm as (rm & _ & Hinm & ->). simpl.
    rewrite in_history_before, andb_true_iff in Hinm. destruct Hinm as [_ Hb].
    assert (∀ r, y = history_message (hq_ViewerID q) d (mID y) r → mSeq y = r_seq r) as Hy by by intros r ->.
    split.
    + intros (r & Hl & Hin & Heq). rewrite in_history_before, andb_true_iff, Z.ltb_lt in Hin.
      specialize (Hy _ Heq). split; [lia|]. exists r. split; [done|]. split; [|done].
      rewrite in_history_before, andb_true_iff. split; [tauto|]. destruct b; [|done].
      rewrite Z.ltb_lt in *. lia.
    + intros (Hlt & r & Hl & Hin & Heq). exists r. split; [done|]. split; [|done].
      rewrite in_history_before, andb_true_iff, Z.ltb_lt in *. specialize (Hy _ Heq). split; [tauto|lia].
Qed.
End history.

(** A page of history is the newest messages of the selection: strictly newest
    first, at most [Limit], only messages of the chat above the viewer's watermark,
    and nothing selected is newer than a message shown and yet missing.  Scrolling
    back page by page, from any position and with any page size, shows every
    selected message exactly once, in order. *)
Lemma History_pages fuel q d :
  store_ok d → 0 < hq_Limit q →
  StronglySorted newer (History q d) ∧
  Z.of_nat (length (History q d)) ≤ hq_Limit q ∧
  (∀ m, m ∈ History q d → ∃ r, messages d !! mID m = Some r ∧ r_chat_id r = hq_ChatID q ∧
     mSeq m = r_seq r ∧ watermark (hq_ChatID q) (hq_ViewerID q) d < r_seq r ∧
     (r_deleted_at r ≠ None → mContent m = ""%string)) ∧
  (∀ m id r, m ∈ History q d → messages d !! id = Some r → in_history q d id r = true →
     mSeq m < r_seq r → ∃ m', m' ∈ History q d ∧ mID m' = id) ∧
  ((length (full_history q d) < fuel)%nat → scroll_back fuel q d = full_history q d).
Proof.
  intros Hok Hlim. unfold History at 1 2 3 4 5.
  pose proof (full_history_sorted q d Hok) as Hsort.
  assert (Hsplit := take_drop (Z.to_nat (hq_Limit q)) (full_history q d)).
  split; [|split; [|split; [|split]]].
  - rewrite <-Hsplit in Hsort. apply StronglySorted_app_1_l in Hsort.
    eapply StronglySorted_weaken; [|exact Hsort]. unfold key_lt, newer. intros x y. lia.
  - rewrite length_take. lia.
  - intros m (i & Hm & _)%elem_of_take.
    apply list_elem_of_lookup_2, elem_of_full_history in Hm. destruct Hm as (r & Hl & Hin & ->). exists r. simpl. split; [done|].
    split; [by eapply in_history_chat|]. split; [done|]. split.
    + unfold in_history in Hin. rewrite !andb_true_iff, !Z.ltb_lt in Hin. tauto.
    + by destruct (r_deleted_at r).
  - intros m id r Hm Hl Hin Hlt.
    assert (history_message (hq_ViewerID q) d id r ∈ full_history q d) as Hm'.
    { apply elem_of_full_history. by exists r. }
    rewrite <-Hsplit in Hm', Hsort. apply elem_of_app in Hm' as [Hm'|Hm']; [by eexists|].
    exfalso. pose proof (StronglySorted_app_1_elem_of _ _ _ _ _ Hsort Hm Hm') as Hkey.
    unfold key_lt in Hkey. simpl in Hkey. lia.
  - intros Hfuel. unfold scroll_back, History. simpl.
    assert (∀ b, hq_BeforeSeq q = b → with_before b q = q) as Hsame by (intros b <-; by destruct q).
    rewrite (pages_complete (λ m, - mSeq m) (λ m, Some (mSeq m))
      (λ b, full_history (with_before b q) d)).
    + by rewrite Hsame.
    + lia.
    + intros b. by apply full_history_sorted.
    + intros b x. by apply full_history_next.
    + by rewrite Hsame.
Qed.

(** ** Clearing *)

Section clearing.
Implicit Types (q : HistoryQuery) (d : db) (ch u : uuid).

(** A history depends on five things only. *)
Lemma full_history_frame q d d' :
  messages d' = messages d → message_attachments d' = message_attachments d →
  message_reactions d' = message_reactions d →
  watermark (hq_ChatID q) (hq_ViewerID q) d' = watermark (hq_ChatID q) (hq_ViewerID q) d →
  full_history q d' = full_history q d.
Proof.
  intros Hm Ha Hr Hw. unfold full_history, history_rows. rewrite Hm.
  assert (∀ l : list (uuid * message_row),
    filter (λ kv, in_history q d' kv.1 kv.2 = true) l = filter (λ kv, in_history q d kv.1 kv.2 = true) l) as Hf.
  { intros l. apply list_filter_iff. intros kv. unfold in_history. by rewrite Hw. }
  unfold rows_where. rewrite Hf. apply list_fmap_ext. intros _ [id r] _. simpl.
  unfold history_message, attachments_of, reactions_of. by rewrite Ha, Hr.
Qed.

(** A viewer whose watermark covers the chat sees nothing. *)
Lemma full_history_empty q d c :
  store_ok d → chats d !! hq_ChatID q = Some c →
  c_last_seq c ≤ watermark (hq_ChatID q) (hq_ViewerID q) d → full_history q d = [].
Proof.
  intros (_ & Hh & _) Hc Hw. unfold full_history.
  destruct (history_rows q d) as [|[id r] l] eqn:Hrows; [done|]. exfalso.
  assert ((id, r) ∈ history_rows q d) as [Hl Hin]%elem_of_history_rows by (rewrite Hrows; by left).
  pose proof (in_history_chat _ _ _ _ Hin) as Hch.
  destruct (ok_range _ _ Hh _ _ Hl) as (c' & Hc' & ?). rewrite Hch, Hc in Hc'. injection Hc' as <-.
  unfold in_history in Hin. rewrite !andb_true_iff, !Z.ltb_lt in Hin. lia.
Qed.

Lemma watermark_active d ch u m : active_member d ch u = Some m → watermark ch u d = m_history_cleared_seq m.
Proof. intros [Hm _]%active_member_Some. unfold watermark. by rewrite Hm. Qed.

(** Which members a clear watermarks. *)
Lemma lookup_cleared_members now ch actor upto all d ch' u :
  chat_members (cleared_db now ch actor upto all d) !! (ch', u) =
  (λ m, if active_in ch (ch', u) m && (all || bool_decide (u = actor))
        then if all && bool_decide (u = actor) then watermark_member upto (watermark_member upto m)
             else watermark_member upto m
        else m) <$> chat_members d !! (ch', u).
Proof.
  unfold cleared_db. destruct all; simpl; rewrite !lookup_update_where;
    destruct (chat_members d !! (ch', u)) as [m|]; simpl; try done.
  - destruct (active_in ch (ch', u) m) eqn:Ha; simpl.
    + assert (active_in ch (ch', u) (watermark_member upto m) = true) as ->.
      { unfold active_in in *. by destruct m. }
      simpl. by destruct (bool_decide (u = actor)).
    + by rewrite Ha.
Qed.

Lemma watermark_cleared now ch actor upto all d u m :
  active_member d ch u = Some m → all = true ∨ u = actor →
  watermark ch u (cleared_db now ch actor upto all d) = Z.max (m_history_cleared_seq m) upto.
Proof.
  intros [Hm Hl]%active_member_Some Hwho. unfold watermark. rewrite lookup_cleared_members, Hm. simpl.
  assert (active_in ch (ch, u) m = true) as -> by by apply active_in_true.
  assert (all || bool_decide (u = actor) = true) as ->.
  { destruct Hwho as [->| ->]; [done|]. rewrite bool_decide_true by done. apply orb_true_r. }
  simpl. destruct (all && _); simpl; lia.
Qed.

Lemma watermark_uncleared now ch actor upto d ch' u :
  (ch', u) ≠ (ch, actor) →
  watermark ch' u (cleared_db now ch actor upto false d) = watermark ch' u d.
Proof.
  intros Hne. unfold watermark. rewrite lookup_cleared_members.
  destruct (chat_members d !! (ch', u)) as [m|]; [|done]. simpl.
  destruct (active_in ch (ch', u) m) eqn:Ha; [|done]. simpl. apply active_in_true in Ha as [? _].
  simpl in *. subst ch'. rewrite bool_decide_false by congruence. done.
Qed.

(** Clearing for everyone drops the attachments of the chat's messages. *)
Lemma cleared_attachments now ty p ch actor c d id r :
  store_ok d → chats d !! ch = Some c → messages d !! id = Some r → r_chat_id r = ch →
  attachments_of id (appended now ch ty p (cleared_db now ch actor (c_last_seq c) true d)) = [].
Proof.
  intros (_ & Hh & _) Hc Hl Hch. unfold attachments_of.
  rewrite rows_where_nil; [done|]. intros k a Hin Hk%bool_decide_eq_true.
  simpl in Hin. rewrite lookup_delete_where_Some in Hin. destruct Hin as [_ Hin].
  unfold cleared_attachment in Hin. rewrite Hk in Hin. simpl in Hin.
  rewrite lookup_update_where, Hl in Hin. simpl in Hin. revert Hin.
  destruct (ok_range _ _ Hh _ _ Hl) as (c0 & Hc0 & ?). rewrite Hch, Hc in Hc0. injection Hc0 as <-.
  rewrite bool_decide_true by (by destruct (clearable _ _ _ _)).
  rewrite (proj2 (Z.leb_le _ _)); [done|]. destruct (clearable _ _ _ _); simpl; lia.
Qed.

Lemma deleted_attachments now ty p ch id actor d :
  attachments_of id (appended now ch ty p (deleted_db now id actor d)) = [].
Proof.
  unfold attachments_of. rewrite rows_where_nil; [done|]. intros k a Hin Hk.
  simpl in Hin. apply lookup_delete_where_Some in Hin as [_ Hin]. congruence.
Qed.

Lemma other_attachments now ty p ch id k actor d :
  k ≠ id →
  attachments_of k (appended now ch ty p (deleted_db now id actor d)) ≡ₚ attachments_of k d.
Proof.
  intros Hne. unfold attachments_of. rewrite !order_by_Permutation. apply fmap_Permutation.
  apply rows_where_Permutation. intros k' a. simpl.
  rewrite lookup_delete_where_Some, bool_decide_eq_true, bool_decide_eq_false. naive_solver.
Qed.
End clearing.

(** Clearing a history for oneself hides it from oneself alone: every selection of
    the caller in that chat becomes empty, no stored message changes, every other
    viewer's history (and the caller's in other chats) is exactly what it was, and
    the next message posted is again visible to the caller. *)
Lemma ClearHistory_one_sided now ch actor d c m :
  store_ok d → live_chat d ch = Some c → active_member d ch actor = Some m →
  ∃ us d', ClearHistory now ch actor false d = (Ok (c_last_seq c, us), d') ∧
    messages d' = messages d ∧
    (∀ q, hq_ChatID q = ch → hq_ViewerID q = actor → History q d' = []) ∧
    (∀ q, (hq_ChatID q, hq_ViewerID q) ≠ (ch, actor) → History q d' = History q d) ∧
    (∀ q d2 id r, hq_ChatID q = ch → hq_ViewerID q = actor → watermark ch actor d2 = watermark ch actor d' →
       messages d2 !! id = Some r → r_chat_id r = ch → c_last_seq c < r_seq r →
       hq_BeforeSeq q = None → hq_AfterSeq q = None → hq_ReplyToID q = None → hq_TopicID q = None →
       in_history q d2 id r = true).
Proof.
  intros Hok Hc Hm. pose proof Hok as (Hlog & Hh & Hcur).
  destruct (ClearHistory_run now ch actor false c m d Hlog Hc Hm) as [us Hrun].
  set (d1 := cleared_db now ch actor (c_last_seq c) false d) in *.
  exists us. eexists. split; [exact Hrun|].
  assert (store_ok d1) as Hok1 by by apply cleared_store_ok.
  pose proof (watermark_cleared now ch actor (c_last_seq c) false d actor m Hm (or_intror eq_refl)) as Hw.
  fold d1 in Hw. pose proof Hc as [Hc' _]%live_chat_Some.
  assert (m_history_cleared_seq m ≤ c_last_seq c) as Hle.
  { apply active_member_Some in Hm as [Hm _]. destruct (Hcur _ _ _ Hm) as (c0 & Hc0 & ?).
    rewrite Hc' in Hc0. injection Hc0 as <-. lia. }
  split; [done|]. split; [|split].
  - intros q Hch Hv. unfold History.
    rewrite (full_history_frame q d1) by done.
    rewrite (full_history_empty q d1 c); [by rewrite take_nil|done|by rewrite Hch|].
    rewrite Hch, Hv, Hw. lia.
  - intros q Hne. unfold History. f_equal.
    rewrite (full_history_frame q d); [done..|]. by apply watermark_uncleared.
  - intros q d2 id r Hch Hv Hw2 Hl Hchr Hlt Hb Ha Hr Ht. unfold in_history.
    rewrite Hb, Ha, Hr, Ht, Hch, Hv, Hw2. rewrite bool_decide_true by done.
    change (watermark ch actor _) with (watermark ch actor d1). rewrite Hw.
    rewrite (proj2 (Z.ltb_lt _ _)) by lia. done.
Qed.

(** Clearing a history for everyone empties it for every current member, and
    destroys it: each message of the chat ends deleted with no text and no
    attachments, those not deleted before also lose payload and buttons and are
    stamped with the actor, and every other chat's messages are unchanged. *)
Lemma ClearHistory_for_everyone now ch actor d c m :
  store_ok d → live_chat d ch = Some c → active_member d ch actor = Some m →
  ∃ us d', ClearHistory now ch actor true d = (Ok (c_last_seq c, us), d') ∧
    (∀ q, hq_ChatID q = ch → is_Some (active_member d ch (hq_ViewerID q)) → History q d' = []) ∧
    (∀ id r, messages d !! id = Some r → r_chat_id r = ch →
       ∃ r', messages d' !! id = Some r' ∧ r_deleted_at r' ≠ None ∧ r_content r' = ""%string ∧
         attachments_of id d' = [] ∧
         (r_deleted_at r = None → r_payload r' = JObj [] ∧ r_reply_markup r' = None ∧
            r_deleted_at r' = Some now ∧ r_deleted_by r' = Some actor)) ∧
    (∀ id r, messages d !! id = Some r → r_chat_id r ≠ ch → messages d' !! id = Some r).
Proof.
  intros Hok Hc Hm. pose proof Hok as (Hlog & Hh & Hcur).
  destruct (ClearHistory_run now ch actor true c m d Hlog Hc Hm) as [us Hrun].
  set (d1 := cleared_db now ch actor (c_last_seq c) true d) in *.
  exists us. eexists. split; [exact Hrun|].
  assert (store_ok d1) as Hok1 by by apply cleared_store_ok.
  pose proof Hc as [Hc' _]%live_chat_Some.
  split; [|split].
  - intros q Hch [mv Hmv]. unfold History.
    change (full_history q (appended _ _ _ _ d1)) with (full_history q d1).
    rewrite (full_history_empty q d1 c); [by rewrite take_nil|done|by rewrite Hch|].
    rewrite Hch. unfold d1. rewrite (watermark_cleared _ _ _ _ _ _ _ mv) by auto. lia.
  - intros id r Hl Hch. eexists. change (messages (appended _ _ _ _ d1)) with (messages d1).
    simpl. rewrite lookup_update_where, Hl. simpl. split; [done|].
    assert (clearable ch (c_last_seq c) id r = if r_deleted_at r is None then true else false) as ->.
    { unfold clearable. rewrite bool_decide_true by done.
      destruct (ok_range _ _ Hh _ _ Hl) as (c0 & Hc0 & ?). rewrite Hch, Hc' in Hc0. injection Hc0 as <-.
      by rewrite (proj2 (Z.leb_le _ _)) by lia. }
    pose proof (ok_tombstone _ _ Hh _ _ Hl) as Htomb.
    assert (attachments_of id (appended now ch EventChatHistoryCleared
      (PayloadCleared ch (c_last_seq c) true) d1) = []) as Hatt by by eapply cleared_attachments.
    destruct (r_deleted_at r) as [t|] eqn:Hdel; simpl; [|done].
    rewrite Hdel. split; [done|]. split; [by apply Htomb|]. split; [exact Hatt|done].
  - intros id r Hl Hch. change (messages (appended _ _ _ _ d1)) with (messages d1). simpl.
    rewrite lookup_update_where, Hl. simpl. unfold clearable. by rewrite bool_decide_false by done.
Qed.

(** A message with other attachments. *)
Definition set_attachments (l : list Attachment) (m : Message) : Message :=
  MkMessage (mID m) (mChatID m) (mSeq m) (mSenderID m) (mClientMessageID m) (mType m)
    (mContent m) (mEntities m) (mPayload m) (mReplyToID m) (mForwardFrom m) l (mReactions m)
    (mReplyMarkup m) (mAuthorSignature m) (mTopicID m) (mIsPinned m) (mViewCount m)
    (mCreatedAt m) (mEditedAt m) (mDeletedAt m).

(** Deleting a message tombstones it and nothing else: in every viewer's history
    each other message is shown as before (attachments tied in
    position may be listed in another order), the deleted one stays at its
    position with no text, no entities and no attachments; but its payload and its
    buttons are still served. *)
Lemma Delete_tombstones now id actor d r q :
  store_ok d → live_message id d = Some r →
  ∃ us d', Delete now id actor d = (Ok (r_chat_id r, r_seq r, us), d') ∧
    Forall2 (λ m m', mID m' = mID m ∧ mSeq m' = mSeq m ∧
        if decide (mID m = id)
        then mContent m' = ""%string ∧ mEntities m' = JArr [] ∧ mAttachments m' = [] ∧
             mDeletedAt m' = Some now ∧ mPayload m' = mPayload m ∧ mReplyMarkup m' = mReplyMarkup m
        else m' = set_attachments (mAttachments m') m ∧ mAttachments m' ≡ₚ mAttachments m)
      (History q d) (History q d').
Proof.
  intros Hok Hl. pose proof Hok as (Hlog & Hh & Hcur). pose proof Hl as [Hl' Hlive]%live_message_Some.
  rewrite (Delete_run _ _ _ r) by done. do 2 eexists. split; [done|].
  unfold History. apply Forall2_take.
  set (d' := appended _ _ _ _ _).
  assert (history_rows q d' = (λ kr, (kr.1, if decide (kr.1 = id) then tombstone now actor kr.2 else kr.2))
    <$> history_rows q d) as Hrows.
  { apply (StronglySorted_strict_unique (λ kr : uuid * message_row, - r_seq kr.2)).
    - apply history_rows_strict. by eapply store_ok_appended, deleted_store_ok.
    - pose proof (history_rows_strict q d Hok) as Hs. induction Hs as [|kr l Hs IH Hall]; [constructor|].
      rewrite fmap_cons. constructor; [done|]. apply Forall_fmap. eapply Forall_impl; [exact Hall|].
      intros [k1 r1]. destruct kr as [k2 r2]. unfold key_lt. simpl. by repeat case_decide.
    - assert (∀ k r0, in_history q d' k (tombstone now actor r0) = in_history q d k r0) as Hin1 by done.
      assert (∀ k r0, in_history q d' k r0 = in_history q d k r0) as Hin2 by done.
      intros [k r0]. rewrite elem_of_history_rows, list_elem_of_fmap.
      change (messages d') with (messages (deleted_db now id actor d)). simpl.
      rewrite lookup_update_where_Some. split.
      + intros [(r1 & Hk & ->) Hin]. exists (k, r1). simpl. split.
        * f_equal. by case_bool_decide; case_decide.
        * apply elem_of_history_rows. split; [done|]. rewrite Hin2 in Hin. by case_bool_decide.
      + intros ([k1 r1] & [= -> ->] & [Hk Hin]%elem_of_history_rows). split.
        * exists r1. split; [done|]. by case_bool_decide; case_decide.
        * rewrite Hin2. by case_decide. }
  unfold full_history. rewrite Hrows, <-list_fmap_compose. apply Forall2_fmap_l, Forall2_fmap_r.
  assert (∀ kr, kr ∈ history_rows q d → messages d !! kr.1 = Some kr.2) as Hmem.
  { by intros [k r0] [? _]%elem_of_history_rows. }
  apply Forall_Forall2_diag, Forall_forall. intros [k r0] Hk%Hmem. simpl in Hk |- *.
  destruct (decide (k = id)) as [->|Hne].
  - rewrite Hl' in Hk. injection Hk as <-. do 2 (split; [done|]). simpl. do 2 (split; [done|]).
    split; [apply deleted_attachments|done].
  - do 3 (split; [done|]). by apply other_attachments.
Qed.

(** ** Edits, reactions, read state *)

(** An edit rewrites one message and keeps what it replaced: it succeeds on a live
    message with valid entities, appends the previous text to the edit log, changes
    only text, entities and edit time of that message (entities only when given),
    and its position and author never change. *)
Lemma Edit_keeps_previous now id editor content ents e d r :
  store_ok d → live_message id d = Some r → nullableJSON ents = Ok e →
  ∃ us d' m, Edit now id editor content ents d = (Ok (m, us), d') ∧
    mContent m = content ∧ mSeq m = r_seq r ∧ mSenderID m = r_sender_id r ∧
    message_edits d' = message_edits d ++ [MkEdit id (r_content r) editor now] ∧
    messages d' !! id = Some (with_r_content content
       (with_r_entities (default (r_entities r) e) (with_r_edited_at (Some now) r))) ∧
    (∀ k, k ≠ id → messages d' !! k = messages d !! k) ∧
    message_attachments d' = message_attachments d.
Proof.
  intros (Hlog & _) Hl He. do 3 eexists. split; [by apply (Edit_run _ _ _ _ _ r e)|].
  pose proof Hl as [Hl' _]%live_message_Some. do 4 (split; [done|]). split; [|split; [|done]].
  - simpl. rewrite lookup_update_where, Hl'. simpl. by rewrite bool_decide_true.
  - intros k Hne. simpl. rewrite lookup_update_where. rewrite bool_decide_false by done.
    by destruct (messages d !! k).
Qed.

(** A reaction is a toggle: on a live message it reports whether it was added,
    flips exactly that person's use of that emoji and leaves every other reaction
    alone, and adding then removing restores the database exactly. *)
Lemma React_toggles now id u emoji d r :
  live_message id d = Some r →
  ∃ added d', React now id u emoji d = (Ok (added, r_chat_id r), d') ∧
    added = bool_decide (message_reactions d !! (id, u, emoji) = None) ∧
    (is_Some (message_reactions d' !! (id, u, emoji)) ↔ added = true) ∧
    (∀ k, k ≠ (id, u, emoji) → message_reactions d' !! k = message_reactions d !! k) ∧
    (added = true → ∀ now', React now' id u emoji d' = (Ok (false, r_chat_id r), d)).
Proof.
  intros Hl. unfold React. prog_run. rewrite Hl.
  destruct (message_reactions d !! (id, u, emoji)) as [t|] eqn:Hr; simpl.
  - do 2 eexists. split; [done|]. split; [done|].
    split; [|split; [|done]].
    + simpl. rewrite lookup_delete_eq. by split; [intros []|].
    + intros k Hne. simpl. by rewrite lookup_delete_ne.
  - do 2 eexists. split; [done|]. split; [done|]. split; [|split].
    + simpl. by rewrite lookup_insert_eq.
    + intros k Hne. simpl. by rewrite lookup_insert_ne.
    + intros _ now'. change (live_message id (with_message_reactions _ d)) with (live_message id d).
      rewrite Hl. simpl. rewrite lookup_insert_eq. simpl.
      rewrite delete_insert_id by done. by destruct d.
Qed.

Lemma readable_between_true ch u from to k r :
  readable_between ch u from to k r = true ↔
  r_chat_id r = ch ∧ from < r_seq r ≤ to ∧ r_deleted_at r = None ∧ r_sender_id r ≠ Some u.
Proof.
  unfold readable_between.
  rewrite !andb_true_iff, bool_decide_eq_true, Z.ltb_lt, Z.leb_le, negb_true_iff, bool_decide_eq_false.
  destruct (r_deleted_at r); naive_solver.
Qed.

(** Below the limit, the receipts written are those of the whole span. *)
Lemma elem_of_newly_read ch u from to limit d id :
  Z.of_nat (length (newly_read ch u from to limit d)) < limit →
  id ∈ newly_read ch u from to limit d ↔
  ∃ r, messages d !! id = Some r ∧ readable_between ch u from to id r = true.
Proof.
  unfold newly_read. rewrite length_fmap, length_take. intros Hlen.
  rewrite take_ge by lia. rewrite list_elem_of_fmap. split.
  - intros ([k r] & -> & Hin). unfold order_by_desc in Hin.
    rewrite elem_of_order_by, elem_of_rows_where in Hin. eauto.
  - intros (r & Hl & Hin). exists (id, r). split; [done|]. unfold order_by_desc.
    by rewrite elem_of_order_by, elem_of_rows_where.
Qed.

Lemma reads_recorded now ch u from to limit d id :
  Z.of_nat (length (newly_read ch u from to limit d)) < limit →
  message_reads d !! (id, u) = None →
  is_Some (message_reads (RecordReads now ch u from to limit d) !! (id, u)) ↔
  ∃ r, messages d !! id = Some r ∧ r_chat_id r = ch ∧ from < r_seq r ≤ to ∧
    r_deleted_at r = None ∧ r_sender_id r ≠ Some u.
Proof.
  intros Hlen Hnone. unfold RecordReads. destruct (to <=? from) eqn:Hle.
  - apply Z.leb_le in Hle. rewrite Hnone. split; [by intros []|]. intros (r & _ & _ & ? & _). lia.
  - simpl. rewrite lookup_union_is_Some, Hnone.
    trans (id ∈ newly_read ch u from to limit d).
    + rewrite <-elem_of_dom, dom_gset_to_gmap, elem_of_list_to_set, list_elem_of_fmap. split.
      * by intros [[]|(k & [= ->] & Hk)].
      * intros Hin. right. by exists id.
    + rewrite elem_of_newly_read by exact Hlen. split; intros (r & Hl & Hin); exists r;
        (split; [done|]); by apply (readable_between_true ch u from to id).
Qed.

(** Marking read moves the reader's cursor forwards only, recounts the unread
    messages as the live ones above the cursor, and with the receipts the service
    records for the span, a live message of somebody else in the span just passed
    (and within the receipt limit) has a receipt of this reader. *)
Lemma MarkRead_RecordReads now ch u upto limit d m :
  active_member d ch u = Some m →
  ∃ new old d', MarkRead ch u upto d = (Ok (new, old), d') ∧
    old = m_last_read_seq m ∧ new = Z.max (m_last_read_seq m) upto ∧
    (∃ m', active_member d' ch u = Some m' ∧ m_last_read_seq m' = new ∧
       m_unread_count m' = unread_after ch new d ∧
       (m_unread_count m' = 0 ↔ ∀ id r, messages d !! id = Some r → r_chat_id r = ch →
          r_deleted_at r = None → r_seq r ≤ new)) ∧
    (∀ id, Z.of_nat (length (newly_read ch u old new limit d')) < limit →
       message_reads d !! (id, u) = None →
       (is_Some (message_reads (RecordReads now ch u old new limit d') !! (id, u)) ↔
        ∃ r, messages d !! id = Some r ∧ r_chat_id r = ch ∧ old < r_seq r ≤ new ∧
          r_deleted_at r = None ∧ r_sender_id r ≠ Some u)).
Proof.
  intros Hm. unfold MarkRead. rewrite Hm. do 3 eexists. split; [done|]. do 2 (split; [done|]).
  set (new := Z.max (m_last_read_seq m) upto). split.
  - eexists. split; [apply active_member_Some; simpl; rewrite lookup_insert_eq|].
    + split; [done|]. by apply active_member_Some in Hm as [_ ?].
    + split; [done|]. split; [done|]. simpl. unfold unread_after. rewrite count_where_0. split.
      * intros Hall id r Hl Hch Hdel. specialize (Hall id r Hl).
        rewrite Hch, Hdel, bool_decide_true in Hall by done. simpl in Hall.
        rewrite andb_true_r in Hall. by apply Z.ltb_ge.
      * intros Hall id r Hl. case_bool_decide as Hch; [|done]. simpl.
        destruct (r_deleted_at r) eqn:Hdel; [by rewrite andb_false_r|]. rewrite andb_true_r.
        by apply Z.ltb_ge, (Hall id).
  - intros id Hlen Hnone. exact (reads_recorded now ch u _ _ limit _ id Hlen Hnone).
Qed.

(** ** Private chats *)

(** Commits of other connections never remove a private chat's key. *)
Definition keys_persist (d d' : db) : Prop :=
  ∀ k chatID, private_chat_keys d !! k = Some chatID → private_chat_keys d' !! k = Some chatID.

Lemma private_members now id a b low high d u :
  fresh_chat id d → is_Some (active_member (private_db now id a b low high d) id u) ↔ u = a ∨ u = b.
Proof.
  intros (_ & _ & Hm). unfold active_member. simpl. destruct (decide (u = b)) as [->|Hb].
  - rewrite lookup_insert_eq. simpl. split; eauto.
  - rewrite lookup_insert_ne by congruence. destruct (decide (u = a)) as [->|Ha].
    + rewrite lookup_insert_eq. simpl. split; eauto.
    + rewrite lookup_insert_ne, Hm by congruence. simpl. split; [by intros []|naive_solver].
Qed.

(** Two people share one private chat.  Opening it always answers, whoever asks
    and whatever the other party commits meanwhile; a created chat has both as
    ordinary members; and from then on either of them opening it, in either order of
    arguments, gets that same chat back, with nothing written. *)
Lemma EnsurePrivateChat_one now id before after a b d :
  a ≠ b → keys_persist d (before d) → keys_persist (before d) (after (before d)) →
  fresh_chat id (before d) →
  ∃ chatID created d', EnsurePrivateChat now id before after a b d = (Ok (chatID, created), d') ∧
    private_chat_keys d' !! (N.min a b, N.max a b) = Some chatID ∧
    (created = true ↔ private_chat_keys (before d) !! (N.min a b, N.max a b) = None) ∧
    (created = true → ∀ u, is_Some (active_member d' chatID u) ↔ u = a ∨ u = b) ∧
    (∀ now' id' before' after' d2, keys_persist d' d2 →
       EnsurePrivateChat now' id' before' after' a b d2 = (Ok (chatID, false), d2) ∧
       EnsurePrivateChat now' id' before' after' b a d2 = (Ok (chatID, false), d2)).
Proof.
  intros Hab Hbef Haft Hfresh. unfold EnsurePrivateChat. rewrite decide_False by done.
  assert (∀ chatID created d' r, r = (Ok (chatID, created), d') →
    private_chat_keys d' !! (N.min a b, N.max a b) = Some chatID →
    (created = true ↔ private_chat_keys (before d) !! (N.min a b, N.max a b) = None) →
    (created = true → ∀ u, is_Some (active_member d' chatID u) ↔ u = a ∨ u = b) →
    ∃ chatID created d', r = (Ok (chatID, created) : result dberr _, d') ∧
      private_chat_keys d' !! (N.min a b, N.max a b) = Some chatID ∧
      (created = true ↔ private_chat_keys (before d) !! (N.min a b, N.max a b) = None) ∧
      (created = true → ∀ u, is_Some (active_member d' chatID u) ↔ u = a ∨ u = b) ∧
      (∀ now' id' before' after' d2, keys_persist d' d2 →
         EnsurePrivateChat now' id' before' after' a b d2 = (Ok (chatID, false), d2) ∧
         EnsurePrivateChat now' id' before' after' b a d2 = (Ok (chatID, false), d2))) as Hbuild.
  { intros chatID created d' r Hr Hk H1 H2. exists chatID, created, d'.
    do 4 (split; [done|]). intros now' id' before' after' d2 Hp.
    unfold EnsurePrivateChat. rewrite !decide_False by congruence.
    rewrite (N.min_comm b a), (N.max_comm b a). unfold lookup_private_chat. by rewrite (Hp _ _ Hk). }
  unfold lookup_private_chat. destruct (private_chat_keys d !! _) as [chatID|] eqn:Hk.
  - eapply Hbuild; [done|done|split; [done|]|done]. by rewrite (Hbef _ _ Hk).
  - unfold in_tx. destruct (private_chat_keys (before d) !! (N.min a b, N.max a b)) as [chatID|] eqn:Hkb.
    + destruct (create_private_chat now id a b (N.min a b) (N.max a b) (before d)) as [[x|e] d1] eqn:Hrun.
      * apply create_private_chat_Ok in Hrun as (_ & _ & Hnone & _). congruence.
      * apply create_private_chat_Err in Hrun as ->. rewrite (Haft _ _ Hkb).
        eapply Hbuild; [done|by apply Haft|split; [done|congruence]|done].
    + rewrite create_private_chat_run by done. eapply Hbuild; [done|..].
      * simpl. by rewrite lookup_insert_eq.
      * done.
      * intros _ u. by apply private_members.
Qed.

(** A read cursor can move backwards: [MarkRead] stores any number it is given, past
    the end of the chat included, and the member's own next message then sets their
    cursor to that message's position. *)
Lemma sender_cursor_can_move_back now id p d c ent pay mk m upto :
  store_ok d → send_ready id p d c ent pay mk → sp_AsChat p = false →
  active_member d (sp_ChatID p) (sp_SenderID p) = Some m → c_last_seq c + 1 < upto →
  ∃ rs d1 r d2 m1 m2,
    MarkRead (sp_ChatID p) (sp_SenderID p) upto d = (Ok rs, d1) ∧
    active_member d1 (sp_ChatID p) (sp_SenderID p) = Some m1 ∧ upto ≤ m_last_read_seq m1 ∧
    send_body now id p d1 = (Ok r, d2) ∧
    active_member d2 (sp_ChatID p) (sp_SenderID p) = Some m2 ∧
    m_last_read_seq m2 = c_last_seq c + 1 ∧ m_last_read_seq m2 < m_last_read_seq m1.
Proof.
  intros Hok Hready Has Hm Hupto.
  destruct (MarkRead (sp_ChatID p) (sp_SenderID p) upto d) as [rr d1] eqn:Hmark.
  pose proof Hmark as Hmark'. unfold MarkRead in Hmark. rewrite Hm in Hmark. injection Hmark as <- <-.
  match goal with Hx : _ = (_, ?x) |- _ => set (d1 := x) in * end.
  assert (store_ok d1) as Hok1 by by eapply MarkRead_store_ok.
  assert (send_ready id p d1 c ent pay mk) as Hready1 by by destruct Hready as [[] ? ? ? ?].
  destruct (send_body_run now id p d1 c ent pay mk Hok1 Hready1) as (us & seqs & Hrun).
  pose proof Hm as [_ Hlive]%active_member_Some.
  do 6 eexists. split; [done|]. split.
  { apply active_member_Some. unfold d1. simpl. rewrite lookup_insert_eq. by split. }
  split; [simpl; lia|]. split; [exact Hrun|]. unfold sent_db. rewrite Has. cbv zeta.
  split; [|split].
  - apply active_member_Some. destruct (FanoutThreshold <? _), (sp_TopicID p); simpl;
      rewrite !lookup_update_where, lookup_insert_eq; simpl;
      rewrite ?(bool_decide_true ((sp_ChatID p, sp_SenderID p) = (sp_ChatID p, sp_SenderID p))) by done;
      unfold active_in; simpl;
      rewrite ?(bool_decide_true (sp_SenderID p = sp_SenderID p)) by done;
      rewrite ?andb_false_r; split; try reflexivity; exact Hlive.
  - done.
  - simpl. lia.
Qed.

(** ** Concrete runs *)

Definition sample_query (viewer : uuid) : HistoryQuery := MkHistoryQuery 10 viewer None None 1 None None.
Definition sample_row : message_row :=
  next_row 5 (sample_params 1 77 "hello") sample_db3 sample_chat None None None.
Definition sample_chat_after : chat_row := default sample_chat (chats sample_db !! 10%N).
Definition sample_member_after (u : uuid) : member_row :=
  default (new_member_row 0 "") (active_member sample_db 10 u).

Lemma History_pages_witness :
  mContent <$> History (sample_query 2) sample_db = ["hello"%string] ∧
  scroll_back 3 (sample_query 2) sample_db = full_history (sample_query 2) sample_db.
Proof.
  split; [vm_compute; reflexivity|].
  apply (History_pages 3 (sample_query 2) sample_db); [apply sample_ok|reflexivity|vm_compute; lia].
Defined.

Lemma ClearHistory_one_sided_witness :
  ∃ us d', ClearHistory 8 10 2 false sample_db = (Ok (1, us), d') ∧
    History (sample_query 2) d' = [] ∧ History (sample_query 1) d' = History (sample_query 1) sample_db.
Proof.
  destruct (ClearHistory_one_sided 8 10 2 sample_db sample_chat_after (sample_member_after 2))
    as (us & d' & Hrun & _ & H1 & H2 & _); [apply sample_ok|reflexivity|vm_compute; reflexivity|].
  exists us, d'. split; [exact Hrun|]. split; [by apply H1|by apply H2].
Defined.

Lemma ClearHistory_for_everyone_witness :
  ∃ us d', ClearHistory 8 10 2 true sample_db = (Ok (1, us), d') ∧ History (sample_query 1) d' = [].
Proof.
  destruct (ClearHistory_for_everyone 8 10 2 sample_db sample_chat_after (sample_member_after 2))
    as (us & d' & Hrun & H1 & _); [apply sample_ok|reflexivity|vm_compute; reflexivity|].
  exists us, d'. split; [exact Hrun|]. apply H1; [reflexivity|]. vm_compute. eauto.
Defined.

Lemma Delete_tombstones_witness :
  ∃ us d', Delete 8 100 1 sample_db = (Ok (10%N, 1, us), d').
Proof.
  destruct (Delete_tombstones 8 100 1 sample_db sample_row (sample_query 2)) as (us & d' & Hrun & _);
    [apply sample_ok|vm_compute; reflexivity|]. exists us, d'. exact Hrun.
Defined.

Lemma Edit_keeps_previous_witness :
  ∃ us d' m, Edit 8 100 1 "bye" RawNil sample_db = (Ok (m, us), d') ∧ mContent m = "bye"%string ∧
    message_edits d' = [MkEdit 100 "hello" 1 8].
Proof.
  destruct (Edit_keeps_previous 8 100 1 "bye" RawNil None sample_db sample_row)
    as (us & d' & m & Hrun & Hc & _ & _ & He & _); [apply sample_ok|vm_compute; reflexivity|reflexivity|].
  exists us, d', m. split; [exact Hrun|]. split; [exact Hc|exact He].
Defined.

Lemma React_toggles_witness :
  ∃ d', React 8 100 2 "+" sample_db = (Ok (true, 10%N), d') ∧
        React 9 100 2 "+" d' = (Ok (false, 10%N), sample_db).
Proof.
  destruct (React_toggles 8 100 2 "+" sample_db sample_row)
    as (added & d' & Hrun & Hadd & _ & _ & Hback); [vm_compute; reflexivity|].
  vm_compute in Hadd. subst added. exists d'. split; [exact Hrun|]. by apply Hback.
Defined.

Lemma MarkRead_RecordReads_witness :
  ∃ new old d', MarkRead 10 2 1 sample_db = (Ok (new, old), d') ∧ old = 0 ∧ new = 1.
Proof.
  destruct (MarkRead_RecordReads 8 10 2 1 200 sample_db (sample_member_after 2))
    as (new & old & d' & Hrun & Ho & Hn & _); [vm_compute; reflexivity|].
  exists new, old, d'. split; [exact Hrun|]. by subst.
Defined.

Lemma EnsurePrivateChat_one_witness :
  ∃ chatID created d', EnsurePrivateChat 8 20 sample_env sample_env 1 3 sample_db = (Ok (chatID, created), d') ∧
    EnsurePrivateChat 9 30 sample_env sample_env 3 1 d' = (Ok (chatID, false), d').
Proof.
  destruct (EnsurePrivateChat_one 8 20 sample_env sample_env 1 3 sample_db)
    as (ch & cr & d' & Hrun & _ & _ & _ & Hagain).
  - discriminate.
  - by intros k c.
  - by intros k c.
  - split; [reflexivity|split; [reflexivity|]]. intros u.
    change (chat_members (sample_env sample_db)) with (chat_members sample_db).
    apply eq_None_not_Some. intros [m Hm]. revert Hm.
    assert (∀ k m, chat_members sample_db !! k = Some m → k.1 = 10%N) as Hall.
    { apply map_Forall_to_list. vm_compute. repeat constructor. }
    intros Hm%Hall. discriminate Hm.
  - exists ch, cr, d'. split; [exact Hrun|]. apply Hagain. by intros k c.
Defined.

Lemma sender_cursor_can_move_back_witness :
  ∃ rs d1 r d2 m1 m2,
    MarkRead 10 1 50 sample_db = (Ok rs, d1) ∧
    active_member d1 10 1 = Some m1 ∧ 50 ≤ m_last_read_seq m1 ∧
    send_body 6 200 (sample_params 1 78 "again") d1 = (Ok r, d2) ∧
    active_member d2 10 1 = Some m2 ∧ m_last_read_seq m2 = 2 ∧
    m_last_read_seq m2 < m_last_read_seq m1.
Proof.
  apply (sender_cursor_can_move_back 6 200 (sample_params 1 78 "again") sample_db sample_chat_after
    None None None (sample_member_after 1) 50).
  - apply sample_ok.
  - split.
    + split; try reflexivity. by left.
    + reflexivity.
    + constructor.
    + reflexivity.
    + right. apply no_key_by_lookup. reflexivity.
  - reflexivity.
  - vm_compute. reflexivity.
  - vm_compute. reflexivity.
Defined.
