(* ===== verification/RateLimit.v ===== *)
(** * The sliding-window limiter ([internal/ratelimit])

    One Redis sorted set per rule and subject, from member to score (the event's
    time in microseconds), and the script that trims, counts and records in one
    step.  [rnow] is the Redis server's clock, which only decides key expiry;
    [now] the caller's.  Lua computes in doubles: every number here is below
    2^53, so the arithmetic is exact. *)

From stdpp Require Import base tactics list gmap fin_maps sorting strings pretty.
From Stdlib Require Import ZArith Lia.
From S2P Require Import Prelude GoString.

Set Default Goal Selector "!".
Open Scope Z_scope.

Definition microsecond : Z := 1000.

(** [ratelimit.Rule], [ratelimit.Result] *)
Record Rule := MkRule {
  Name : string;
  Limit : Z;
  Window : Z;
  FailClosed : bool;
}.
Record Result := MkResult {
  Allowed : bool;
  Remaining : Z;
  RetryAfter : Z;
}.

(** One sorted set and its expiry. *)
Record zset := MkZset {
  zs_members : gmap string Z;
  zs_expires : option Z;
}.
Abbreviation redis := (gmap string zset) (only parsing).

(** What a command finds under a key: nothing once it has expired. *)
Definition zset_at (rnow : Z) (key : string) (r : redis) : gmap string Z :=
  match r !! key with
  | Some z =>
      match zs_expires z with
      | Some e => if e <=? rnow then ∅ else zs_members z
      | None => zs_members z
      end
  | None => ∅
  end.

(** [ZREMRANGEBYSCORE key -inf cutoff] *)
Definition trim (cutoff : Z) (m : gmap string Z) : gmap string Z :=
  filter (λ kv, cutoff < kv.2) m.

(** The lowest score. *)
Definition oldest_score (m : gmap string Z) : option Z :=
  match (map_to_list m).*2 with
  | [] => None
  | s :: l => Some (foldr Z.min s l)
  end.

Definition ceil_div (a b : Z) : Z := - ((- a) / b).

(** [slidingWindowScript]: [{allowed, remaining, retry_after_seconds}] *)
Definition slidingWindowScript (rnow : Z) (key : string) (now window limit : Z) (member : string)
    (r : redis) : (Z * Z * Z) * redis :=
  let m := trim (now - window) (zset_at rnow key r) in
  let used := Z.of_nat (size m) in
  if limit <=? used then
    let retry :=
      match oldest_score m with
      | Some o => Z.max 1 (ceil_div (o + window - now) 1000000)
      | None => 1
      end in
    (* the trim is kept, the expiry unchanged; an empty set is no key *)
    ((0, 0, retry),
     if decide (m = ∅) then delete key r
     else <[key := MkZset m (r !! key ≫= zs_expires)]> r)
  else
    ((1, limit - used - 1, 0),
     <[key := MkZset (<[member := now]> m) (Some (rnow + 1000 * ceil_div window 1000))]> r).

(** [randomSuffix]: the process-wide 64-bit counter, incremented, in base 36. *)
Definition base36_digit (n : N) : Ascii.ascii :=
  if (n <? 10)%N then Ascii.ascii_of_N (48 + n) else Ascii.ascii_of_N (87 + n).
(** A 64-bit number has at most 13 digits in base 36. *)
Fixpoint base36 (fuel : nat) (n : N) (acc : string) : string :=
  match fuel with
  | O => acc
  | S fuel =>
      let acc := String.String (base36_digit (n mod 36)) acc in
      if (n <? 36)%N then acc else base36 fuel (n / 36) acc
  end.
Definition randomSuffix (counter : N) : string * N :=
  let c := ((counter + 1) mod 2 ^ 64)%N in
  (base36 13 c "", c).
(** The member [Allow] builds: the microseconds and the suffix. *)
Definition member_of (nowMicros : Z) (counter : N) : string :=
  (pretty nowMicros +:+ "-" +:+ (randomSuffix counter).1)%string.

Definition limit_key (rule : Rule) (subject : string) : string :=
  ("rl:" +:+ Name rule +:+ ":" +:+ subject)%string.

(** [Allow].  [reachable] is whether Redis answered; [failOpen] the limiter's
    setting ([New] sets it); the second component is whether an error came with
    the result. *)
Definition Allow (failOpen : bool) (reachable : bool) (rnow nowMicros : Z) (member : string)
    (rule : Rule) (subject : string) (r : redis) : (Result * bool) * redis :=
  if Limit rule <=? 0 then ((MkResult true 0 0, false), r)
  else if negb reachable then
    if FailClosed rule || negb failOpen
    then ((MkResult false 0 second, true), r)
    else ((MkResult true 0 0, false), r)
  else
    let '((a, rem, retry), r') :=
      slidingWindowScript rnow (limit_key rule subject) nowMicros (Window rule / microsecond)
        (Limit rule) member r in
    ((MkResult (a =? 1) rem (retry * second), false), r').

Definition Reset (rule : Rule) (subject : string) (r : redis) : redis :=
  delete (limit_key rule subject) r.

Definition Peek (rnow nowNanos : Z) (rule : Rule) (subject : string) (r : redis) : Z * redis :=
  let key := limit_key rule subject in
  let m := trim ((nowNanos - Window rule) / microsecond) (zset_at rnow key r) in
  (Z.of_nat (size m),
   if decide (m = ∅) then delete key r
   else <[key := MkZset m (r !! key ≫= zs_expires)]> r).

(** [config.RateLimits] and [NewRules] *)
Record RateLimits := MkRateLimits {
  OTPPerPhonePerHour : Z;
  OTPPerIPPerHour : Z;
  LoginPerIPPerHour : Z;
  APIPerUserPerMin : Z;
  APIPerIPPerMin : Z;
  MessagesPerMin : Z;
  UploadsPerHour : Z;
}.
Record Rules := MkRules {
  OTPPerPhone : Rule;
  OTPPerIP : Rule;
  LoginPerIP : Rule;
  APIPerUser : Rule;
  APIPerIP : Rule;
  MessagesPerUser : Rule;
  UploadsPerUser : Rule;
  SearchPerUser : Rule;
  ContactSync : Rule;
}.
Definition NewRules (cfg : RateLimits) : Rules :=
  MkRules
    (MkRule "otp_phone" (OTPPerPhonePerHour cfg) hour true)
    (MkRule "otp_ip" (OTPPerIPPerHour cfg) hour true)
    (MkRule "login_ip" (LoginPerIPPerHour cfg) hour true)
    (MkRule "api_user" (APIPerUserPerMin cfg) minute false)
    (MkRule "api_ip" (APIPerIPPerMin cfg) minute false)
    (MkRule "messages_user" (MessagesPerMin cfg) minute false)
    (MkRule "uploads_user" (UploadsPerHour cfg) hour false)
    (MkRule "search_user" 120 minute false)
    (MkRule "contact_sync" 10 hour false).

(** ** A run of calls for one key *)

(** A call of one subject against one rule: the instant Redis runs its script, the
    instant the caller took from its own clock, and its member. *)
Record Arrival := MkArrival {
  ar_run : Z;
  ar_now : Z;
  ar_member : string;
}.

(** The accepted ones of a list of calls, in the order Redis runs them. *)
Fixpoint run_calls (key : string) (window limit : Z) (calls : list Arrival) (r : redis)
    : list Arrival * redis :=
  match calls with
  | [] => ([], r)
  | c :: calls =>
      let '((a, _, _), r1) :=
        slidingWindowScript (ar_run c) key (ar_now c) window limit (ar_member c) r in
      let '(acc, r2) := run_calls key window limit calls r1 in
      (if a =? 1 then c :: acc else acc, r2)
  end.

Section script_facts.
Implicit Types (m : gmap string Z) (r : redis).

Lemma lookup_trim cutoff m k s : trim cutoff m !! k = Some s ↔ m !! k = Some s ∧ cutoff < s.
Proof. unfold trim. by rewrite map_lookup_filter_Some. Qed.

Lemma ceil_div_ge a b : 0 < b → a ≤ b * ceil_div a b.
Proof. intros Hb. unfold ceil_div. pose proof (Z.mul_div_le (- a) b Hb). lia. Qed.

Lemma ceil_div_lt a b : 0 < b → b * ceil_div a b < a + b.
Proof. intros Hb. unfold ceil_div. pose proof (Z.mul_succ_div_gt (- a) b Hb). lia. Qed.

Lemma oldest_score_spec m o :
  oldest_score m = Some o → (∃ k, m !! k = Some o) ∧ ∀ k s, m !! k = Some s → o ≤ s.
Proof.
  unfold oldest_score.
  assert (∀ s, s ∈ (map_to_list m).*2 ↔ ∃ k, m !! k = Some s) as Hin.
  { intros s. rewrite list_elem_of_fmap. split.
    - intros ([k s'] & -> & Hk%elem_of_map_to_list). eauto.
    - intros [k Hk]. exists (k, s). split; [done|]. by apply elem_of_map_to_list. }
  destruct (map_to_list m).*2 as [|s0 l]; [done|]. intros [= <-].
  assert (foldr Z.min s0 l ∈ s0 :: l ∧ ∀ s, s ∈ s0 :: l → foldr Z.min s0 l ≤ s) as [Hmem Hmin].
  { clear Hin. induction l as [|x l [IH1 IH2]]; simpl.
    - split; [by left|]. intros s ->%list_elem_of_singleton. done.
    - split.
      + rewrite !elem_of_cons in *. destruct (Z.min_spec x (foldr Z.min s0 l)) as [[_ ->]|[_ ->]]; tauto.
      + intros s. rewrite !elem_of_cons. intros [->|[->|Hs]].
        * specialize (IH2 s0 ltac:(by left)). lia.
        * lia.
        * specialize (IH2 s ltac:(by right)). lia. }
  split; [by apply Hin|]. intros k s Hk. apply Hmin, Hin. eauto.
Qed.

Lemma oldest_score_None m : oldest_score m = None → m = ∅.
Proof.
  unfold oldest_score. intros Hn. apply map_to_list_empty_iff.
  destruct (map_to_list m) as [|[] ?]; [done|]. by simpl in Hn.
Qed.

(** The number of distinct members with the given property is at most the size. *)
Lemma size_at_least m (l : list string) :
  NoDup l → (∀ k, k ∈ l → is_Some (m !! k)) → (length l ≤ size m)%nat.
Proof.
  intros Hnd Hl. rewrite <-(size_list_to_set l Hnd : size (list_to_set l : gset string) = length l).
  rewrite <-size_dom. apply subseteq_size. intros k Hk%elem_of_list_to_set.
  by apply elem_of_dom, Hl.
Qed.
End script_facts.

(** ** The limit holds over every window *)

(** The accepted calls whose own times lie in the window that ends at [t]. *)
Definition in_window (t window : Z) (acc : list Arrival) : list Arrival :=
  filter (λ c, t - window < ar_now c ∧ ar_now c ≤ t) acc.

Section bound.
Context (key : string) (window limit : Z).
(** Redis's clock is ahead of the callers' by [skew], and a call takes at most [delay]
    from its reading of the clock to the script's run. *)
Context (skew delay : Z).
Implicit Types (past acc calls : list Arrival) (c : Arrival) (r : redis).

Definition arrives_in_time (c : Arrival) : Prop :=
  ar_now c + skew ≤ ar_run c ≤ ar_now c + skew + delay.

(** What the set remembers of the accepted calls: the recent ones, by Redis's clock. *)
Definition remembers (last : Z) past r : Prop :=
  Forall (λ c, arrives_in_time c ∧ ar_run c ≤ last) past ∧
  ∀ run c, last ≤ run → c ∈ past → run - skew - window < ar_now c →
    zset_at run key r !! ar_member c = Some (ar_now c).

Lemma script_accepts run now member r :
  let m := trim (now - window) (zset_at run key r) in
  Z.of_nat (size m) < limit →
  slidingWindowScript run key now window limit member r =
  ((1, limit - Z.of_nat (size m) - 1, 0),
   <[key := MkZset (<[member := now]> m) (Some (run + 1000 * ceil_div window 1000))]> r).
Proof.
  intros m Hlt. unfold slidingWindowScript. fold m.
  destruct (limit <=? Z.of_nat (size m)) eqn:Hle; [|done]. apply Z.leb_le in Hle. lia.
Qed.

Lemma remembers_accept last past c r :
  remembers last past r → last ≤ ar_run c → arrives_in_time c →
  (∀ c', c' ∈ past → ar_member c' ≠ ar_member c) →
  remembers (ar_run c) (past ++ [c])
    (<[key := MkZset (<[ar_member c := ar_now c]> (trim (ar_now c - window) (zset_at (ar_run c) key r)))
       (Some (ar_run c + 1000 * ceil_div window 1000))]> r).
Proof.
  intros [Hpast Hrem] Hlast Hc Hfresh. pose proof (ceil_div_ge window 1000 ltac:(lia)).
  assert (Forall (λ c', arrives_in_time c' ∧ ar_run c' ≤ ar_run c) (past ++ [c])) as Hall.
  { apply Forall_app. split; [|by repeat constructor; unfold arrives_in_time in Hc; lia].
    eapply Forall_impl; [exact Hpast|]. simpl. intros c' [? ?]. split; [done|lia]. }
  split; [done|]. intros run c' Hrun Hc' Hrecent.
  pose proof (proj1 (Forall_forall _ _) Hall c' Hc') as [Htime Hle].
  unfold arrives_in_time in Hc, Htime. unfold zset_at. rewrite lookup_insert_eq. simpl.
  rewrite (proj2 (Z.leb_gt _ _)) by lia.
  apply elem_of_app in Hc' as [Hc'| ->%list_elem_of_singleton]; [|by rewrite lookup_insert_eq].
  rewrite lookup_insert_ne by (intros Heq; by apply (Hfresh c' Hc')).
  apply lookup_trim. split; [|lia]. apply Hrem; [done|done|lia].
Qed.

Lemma remembers_reject last past c r :
  remembers last past r → last ≤ ar_run c → arrives_in_time c →
  limit ≤ Z.of_nat (size (trim (ar_now c - window) (zset_at (ar_run c) key r))) →
  remembers (ar_run c) past
    (slidingWindowScript (ar_run c) key (ar_now c) window limit (ar_member c) r).2.
Proof.
  intros [Hpast Hrem] Hlast Hc Hfull. split.
  { eapply Forall_impl; [exact Hpast|]. simpl. intros c' [? ?]. split; [done|lia]. }
  intros run c' Hrun Hc' Hrecent. unfold slidingWindowScript.
  set (m := trim (ar_now c - window) (zset_at (ar_run c) key r)) in *.
  rewrite (proj2 (Z.leb_le _ _)) by done. simpl.
  pose proof (Hrem (ar_run c) c' Hlast Hc' ltac:(lia)) as Hnow.
  specialize (Hrem run c' ltac:(lia) Hc' Hrecent).
  assert (m !! ar_member c' = Some (ar_now c')) as Hm.
  { apply lookup_trim. unfold arrives_in_time in Hc. split; [done|lia]. }
  unfold zset_at in Hrem. destruct (r !! key) as [z|] eqn:Hz; [|done].
  rewrite decide_False by (intros Heq; rewrite Heq in Hm; done).
  unfold zset_at. rewrite lookup_insert_eq. simpl.
  destruct (zs_expires z) as [e|]; [|done]. by destruct (e <=? run).
Qed.

(** The accepted calls of a window as long as the rule's less the delay are all in
    the set. *)
Lemma recent_fit last past c r t :
  remembers last past r → last ≤ ar_run c → arrives_in_time c → ar_now c ≤ t →
  NoDup (ar_member <$> past) →
  (length (in_window t (window - delay) past)
     ≤ size (trim (ar_now c - window) (zset_at (ar_run c) key r)))%nat.
Proof.
  intros [_ Hrem] Hlast Hc Ht Hnd. rewrite <-(length_fmap ar_member). apply size_at_least.
  - eapply sublist_NoDup; [exact Hnd|]. by apply fmap_sublist, sublist_filter.
  - intros k (c' & -> & [[Hw _] Hc']%list_elem_of_filter)%list_elem_of_fmap.
    unfold arrives_in_time in Hc. exists (ar_now c').
    apply lookup_trim. split; [apply Hrem; [done|done|lia]|lia].
Qed.

Lemma run_calls_bound calls : ∀ last past r,
  remembers last past r → NoDup (ar_member <$> past ++ calls) →
  StronglySorted Z.le (last :: (ar_run <$> calls)) → Forall arrives_in_time calls →
  (∀ t, Z.of_nat (length (in_window t (window - delay) past)) ≤ limit) →
  ∀ t, Z.of_nat (length (in_window t (window - delay)
         (past ++ (run_calls key window limit calls r).1))) ≤ limit.
Proof.
  induction calls as [|c calls IH]; intros last past r Hrem Hnd Hsorted Htimes Hpast t.
  - simpl. by rewrite app_nil_r.
  - apply StronglySorted_inv in Hsorted as [Hsorted Hlast]. apply Forall_cons in Hlast as [Hlast _].
    apply Forall_cons in Htimes as [Hc Htimes]. rewrite fmap_app in Hnd.
    assert (NoDup (ar_member <$> past)) as Hndp by (by apply NoDup_app in Hnd as [? _]).
    simpl. destruct (slidingWindowScript _ _ _ _ _ _ r) as [[[a rem] retry] r1] eqn:Hrun.
    destruct (run_calls key window limit calls r1) as [acc r2] eqn:Hrest. simpl.
    apply (f_equal fst) in Hrest. simpl in Hrest. subst acc.
    destruct (Z_lt_le_dec
      (Z.of_nat (size (trim (ar_now c - window) (zset_at (ar_run c) key r)))) limit) as [Hfits|Hfull].
    + rewrite script_accepts in Hrun by done. injection Hrun as <- <- <- <-. simpl.
      rewrite cons_middle, app_assoc.
      apply (IH (ar_run c)); [| |done|done|].
      * apply remembers_accept with last; [done|done|done|]. intros c' Hc' Heq.
        apply NoDup_app in Hnd as (_ & Hdis & _).
        apply (Hdis (ar_member c)); [rewrite <-Heq; by apply list_elem_of_fmap_2|simpl; by left].
      * by rewrite <-app_assoc, fmap_app.
      * intros t'. unfold in_window. rewrite filter_app, length_app, Nat2Z.inj_add, filter_cons.
        case_decide as Hin; simpl; [|specialize (Hpast t'); unfold in_window in Hpast; lia].
        pose proof (recent_fit last past c r t' Hrem Hlast Hc ltac:(lia) Hndp) as Hfit.
        unfold in_window in Hfit. lia.
    + pose proof (remembers_reject last past c r Hrem Hlast Hc Hfull) as Hrem'.
      rewrite Hrun in Hrem'. simpl in Hrem'.
      unfold slidingWindowScript in Hrun. rewrite (proj2 (Z.leb_le _ _)) in Hrun by done.
      injection Hrun as <- <- <- Hr1. simpl.
      apply (IH (ar_run c)); [done| |done|done|done].
      rewrite fmap_app. eapply sublist_NoDup; [exact Hnd|].
      apply sublist_app; [done|]. simpl. by apply sublist_cons.
Qed.
End bound.

(** C38: The limit holds over every window, less the time a call may spend on its way.
    One subject makes calls against one rule, with distinct members.  Redis runs them
    in some order; each carries the time its caller read, whose clock is a fixed skew
    behind Redis's, and is run at most [delay] after that reading, so that the
    callers' times need not come in order.  Then no interval of the rule's length less
    [delay] contains, by the callers' times, more accepted calls than the rule allows:
    neither an entry trimmed by a call that overtook another nor a set expired by
    Redis's clock is missed there.  For calls run the instant they are made the
    interval is the rule's whole window. *)
Theorem limit_holds_in_every_window key window limit skew delay calls t r :
  0 ≤ limit → r !! key = None → NoDup (ar_member <$> calls) →
  StronglySorted Z.le (ar_run <$> calls) → Forall (arrives_in_time skew delay) calls →
  Z.of_nat (length (in_window t (window - delay) (run_calls key window limit calls r).1)) ≤ limit.
Proof.
  intros Hl Hr Hnd Hsorted Htimes.
  destruct calls as [|c calls]; [simpl; lia|].
  apply (run_calls_bound key window limit skew delay (c :: calls) (ar_run c) [] r).
  - split; [constructor|by intros ? ? _ ?%not_elem_of_nil].
  - exact Hnd.
  - constructor; [exact Hsorted|]. simpl. constructor; [lia|].
    simpl in Hsorted. by apply StronglySorted_inv in Hsorted as [_ ?].
  - exact Htimes.
  - intros t'. simpl. lia.
Qed.

(** The whole window is not safe from a delay: the set expires by Redis's clock while
    an entry is still inside the window by the callers', and one call more than the
    rule allows is accepted. *)
Example delayed_call_exceeds_the_limit :
  let calls := [MkArrival 0 0 "a"; MkArrival 1000 900 "b"]%string in
  (run_calls "k" 1000 1 calls ∅).1 = calls ∧ length (in_window 900 1000 calls) = 2%nat.
Proof. split; vm_compute; reflexivity. Qed.

(** A refusal is honest about when to come back: after the seconds it names, and no
    accepted call in between, the same subject is let through; and a refusal never
    names less than a second. *)
Lemma retry_after_suffices key window limit now member r rem retry r' member' :
  0 < window → 0 < limit → Z.of_nat (size (zset_at now key r)) ≤ limit →
  slidingWindowScript now key now window limit member r = ((0, rem, retry), r') →
  1 ≤ retry ∧
  ∃ rem' r'', slidingWindowScript (now + retry * 1000000) key (now + retry * 1000000) window limit member' r'
    = ((1, rem', 0), r'').
Proof.
  intros Hw Hl Hsize Hrun. unfold slidingWindowScript in Hrun.
  set (m := trim (now - window) (zset_at now key r)) in *.
  destruct (limit <=? Z.of_nat (size m)) eqn:Hfull; [|done]. apply Z.leb_le in Hfull.
  injection Hrun as <- Hretry <-.
  assert (m ≠ ∅) as Hne by (intros Heq; rewrite Heq, map_size_empty in Hfull; lia).
  destruct (oldest_score m) as [o|] eqn:Ho; [|by apply oldest_score_None in Ho].
  apply oldest_score_spec in Ho as [[k Hk] _].
  pose proof (ceil_div_ge (o + window - now) 1000000 ltac:(lia)).
  split; [lia|]. rewrite decide_False by done.
  set (now' := now + retry * 1000000).
  set (r1 := <[key := _]> r).
  assert (zset_at now' key r1 = ∅ ∨ zset_at now' key r1 = m) as Hat.
  { unfold zset_at, r1. rewrite lookup_insert_eq. simpl.
    destruct (r !! key ≫= zs_expires) as [e|]; [|by right]. destruct (e <=? now'); auto. }
  assert (trim (now' - window) (zset_at now' key r1) ⊂ m ∨
          trim (now' - window) (zset_at now' key r1) = ∅) as Hsub.
  { destruct Hat as [->| ->]; [right; by apply map_filter_empty|left].
    split; [apply map_filter_subseteq|]. intros Hsub.
    apply (lookup_weaken _ _ _ _ Hk) in Hsub. apply lookup_trim in Hsub as [_ Hlt]. lia. }
  assert (Z.of_nat (size m) ≤ limit) as Hmle.
  { assert (size m ≤ size (zset_at now key r))%nat; [|lia].
    apply map_subseteq_size, map_filter_subseteq. }
  eexists _, _. rewrite script_accepts; [done|].
  destruct Hsub as [Hsub| ->]; [|rewrite map_size_empty; lia].
  apply map_subset_size in Hsub. lia.
Qed.

(** When Redis cannot be reached the authentication limits refuse, with a second's
    wait and an error, while every other limit lets the request through; and a rule
    with no positive limit never refuses anything. *)
Lemma Allow_without_redis cfg rule rnow now member subject r :
  let rules := NewRules cfg in
  let allowed := Allowed (Allow true false rnow now member rule subject r).1.1 in
  (rule ∈ [OTPPerPhone rules; OTPPerIP rules; LoginPerIP rules] → 0 < Limit rule →
     Allow true false rnow now member rule subject r = ((MkResult false 0 second, true), r)) ∧
  (rule ∈ [APIPerUser rules; APIPerIP rules; MessagesPerUser rules; UploadsPerUser rules;
           SearchPerUser rules; ContactSync rules] → allowed = true) ∧
  (Limit rule ≤ 0 → ∀ failOpen reachable,
     Allow failOpen reachable rnow now member rule subject r = ((MkResult true 0 0, false), r)).
Proof.
  intros rules allowed. split; [|split].
  - intros Hin Hlim. unfold Allow. rewrite (proj2 (Z.leb_gt _ _)) by done. simpl.
    rewrite !elem_of_cons, elem_of_nil in Hin. by destruct Hin as [->|[->|[->|[]]]].
  - intros Hin. unfold allowed, Allow. destruct (Limit rule <=? 0); [done|]. simpl.
    rewrite !elem_of_cons, elem_of_nil in Hin.
    by destruct Hin as [->|[->|[->|[->|[->|[->|[]]]]]]].
  - intros Hlim failOpen reachable. unfold Allow. by rewrite (proj2 (Z.leb_le _ _)).
Qed.

(** ** Concrete runs *)

Definition sample_arrivals : list Arrival :=
  [MkArrival 2 0 "a"; MkArrival 11 10 "c"; MkArrival 11 9 "b"; MkArrival 1061 1059 "d"]%string.

Lemma limit_holds_in_every_window_witness :
  (run_calls "k" 1050 2 sample_arrivals ∅).1
    = [MkArrival 2 0 "a"; MkArrival 11 10 "c"; MkArrival 1061 1059 "d"]%string ∧
  Z.of_nat (length (in_window 1059 (1050 - 2) (run_calls "k" 1050 2 sample_arrivals ∅).1)) ≤ 2.
Proof.
  split; [vm_compute; reflexivity|].
  apply (limit_holds_in_every_window "k" 1050 2 0 2).
  - lia.
  - reflexivity.
  - apply (bool_decide_eq_true_1 _). vm_compute. reflexivity.
  - simpl. repeat constructor; lia.
  - repeat constructor; simpl; lia.
Defined.

Definition full_window : gmap string zset :=
  {[ "k"%string := MkZset {[ "a"%string := 5 ]} (Some 70) ]}.

Lemma retry_after_suffices_witness :
  1 ≤ 1 ∧ ∃ rem' r'', slidingWindowScript (10 + 1 * 1000000) "k" (10 + 1 * 1000000) 60 1 "c"
    full_window = ((1, rem', 0), r'').
Proof.
  apply (retry_after_suffices "k" 60 1 10 "b" full_window 0 1 full_window "c").
  - lia.
  - lia.
  - vm_compute. discriminate.
  - vm_compute. reflexivity.
Defined.

Definition sample_limits : RateLimits := MkRateLimits 5 20 50 300 600 60 100.

Lemma Allow_without_redis_witness :
  Allow true false 0 0 "m" (OTPPerIP (NewRules sample_limits)) "1.2.3.4" ∅
    = ((MkResult false 0 second, true), ∅).
Proof.
  apply (Allow_without_redis sample_limits); [right; left|]; reflexivity.
Defined.
