(* ===== verification/Ports.v ===== *)
(** * The interfaces the messaging service is written against

    [messaging.SpamGuard] and the part of [ratelimit.Limiter] the service uses,
    as classes: operations on an implementation's state with the laws the
    service's theorems rely on.  [Antispam] and [RateLimit] discharge them. *)

From stdpp Require Import base tactics list gmap strings.
From Stdlib Require Import ZArith Lia.
From S2P Require Import Prelude GoString RateLimit.

Set Default Goal Selector "!".
Open Scope Z_scope.

(** [Restricted] answers with the end of the restriction when there is one. *)
Class SpamGuard (G : Type) := {
  guard_restricted : time → uuid → G → option time;
  guard_rate_limited : time → uuid → G → G;
  guard_future : ∀ now u g t, guard_restricted now u g = Some t → now < t;
  (** Evidence never shortens a restriction. *)
  guard_monotone : ∀ now u g t, guard_restricted now u g = Some t →
    ∃ t', guard_restricted now u (guard_rate_limited now u g) = Some t' ∧ t ≤ t';
}.

(** [limiter.Allow(ctx, s.rules.MessagesPerUser, sender)]; the error it may carry is
    only logged. *)
Class MessageLimiter (L : Type) := {
  limiter_allow : time → uuid → L → Result * L;
  limiter_retry : ∀ now u l, Allowed (limiter_allow now u l).1 = false →
    second ≤ RetryAfter (limiter_allow now u l).1;
}.

(** ** The Redis limiter as the service's limiter *)

Record limiter_state := MkLimiterState {
  ls_redis : gmap string zset;
  ls_reachable : bool;
  ls_fail_open : bool;
  ls_rules : Rules;
  ls_counter : N;
}.

(** One [Allow] at an instant, with whether an error came with the result; the Redis
    server's clock is taken to agree with the caller's. *)
Definition allow_rule (rule : Rules → Rule) (subject : string) (now : time) (l : limiter_state)
    : (Result * bool) * limiter_state :=
  let micros := now / microsecond in
  let '(res, r') := Allow (ls_fail_open l) (ls_reachable l) micros micros
    (member_of micros (ls_counter l)) (rule (ls_rules l)) subject (ls_redis l) in
  (res, MkLimiterState r' (ls_reachable l) (ls_fail_open l) (ls_rules l)
     (if Limit (rule (ls_rules l)) <=? 0 then ls_counter l
      else (randomSuffix (ls_counter l)).2)).
(** The message rule. *)
Definition allow_message (now : time) (u : uuid) (l : limiter_state) : Result * limiter_state :=
  let '((res, _), l') := allow_rule MessagesPerUser (uuid_String u) now l in (res, l').

#[export] Program Instance redis_limiter : MessageLimiter limiter_state := {|
  limiter_allow := allow_message;
|}.
Next Obligation.
  intros now u l. unfold allow_message, allow_rule, Allow, slidingWindowScript.
  destruct (Limit _ <=? 0); [done|]. destruct (negb _); [by destruct (FailClosed _ || _)|].
  destruct (Limit _ <=? Z.of_nat _); [|done]. simpl. intros _.
  destruct (oldest_score _); unfold second; lia.
Qed.
