(* ===== verification/Social.v ===== *)
(** * The social graph's tables ([database/migrations], 0001, 0002, 0009, 0010)

    Accounts and profiles, address books, blocks, contact requests, privacy rules and
    held-back usernames, with the SQL functions that resolve visibility and
    availability.  [users] and [user_profiles] are here with the columns the contact and
    profile modules read; [Store] and [AuthStore] hold the columns theirs read. *)

From stdpp Require Import base tactics list gmap strings sorting.
From Stdlib Require Import ZArith Lia.
From S2P Require Import Prelude GoString Httpx.

Set Default Goal Selector "!".
Open Scope Z_scope.

Record account_row := MkAccount {
  ac_username : option string;
  ac_phone_number : string;
  ac_phone_hash : list N;
  ac_status : string;
  ac_is_bot : bool;
  ac_two_step_enabled : bool;
  ac_two_step_hint : option string;
  ac_last_seen_at : option time;
  ac_deleted_at : option time;
}.
Definition with_ac_username v (a : account_row) :=
  MkAccount v (ac_phone_number a) (ac_phone_hash a) (ac_status a) (ac_is_bot a) (ac_two_step_enabled a) (ac_two_step_hint a) (ac_last_seen_at a) (ac_deleted_at a).
Definition live_account (a : account_row) : bool := if ac_deleted_at a is None then true else false.

Record profile_row := MkProfileRow {
  pr_display_name : string;
  pr_about : string;
  pr_avatar : option uuid;
  pr_birthday : option time;
  pr_language : string;
}.
(** [contacts], keyed by [(owner_id, contact_id)] *)
Record contact_row := MkContactRow {
  ct_first_name : string;
  ct_last_name : string;
  ct_is_favorite : bool;
  ct_created_at : time;
}.
(** [blocked_users], keyed by [(owner_id, blocked_id)] *)
Record block_row := MkBlock { bl_reason : string; bl_created_at : time }.
(** [contact_requests] *)
Record request_row := MkRequestRow {
  cr_requester : uuid;
  cr_target : uuid;
  cr_status : string;
  cr_message : string;
  cr_created_at : time;
  cr_resolved_at : option time;
}.
(** [user_privacy_settings], keyed by [(user_id, key)] *)
Record privacy_row := MkPrivacyRow {
  pv_rule : string;
  pv_allow_list : list uuid;
  pv_deny_list : list uuid;
}.
(** [reserved_usernames], keyed by the folded name ([CITEXT]) *)
Record reserved_row := MkReserved { rv_previous_owner : option uuid; rv_until : time }.

Record socialdb := MkSocialDb {
  accounts : gmap uuid account_row;
  profiles : gmap uuid profile_row;
  address_book : gmap (uuid * uuid) contact_row;
  blocked_users : gmap (uuid * uuid) block_row;
  contact_requests : gmap uuid request_row;
  privacy : gmap (uuid * string) privacy_row;
  reserved_usernames : gmap string reserved_row;
}.
Definition with_accounts v (d : socialdb) := MkSocialDb v (profiles d) (address_book d) (blocked_users d) (contact_requests d) (privacy d) (reserved_usernames d).
Definition with_profiles v (d : socialdb) := MkSocialDb (accounts d) v (address_book d) (blocked_users d) (contact_requests d) (privacy d) (reserved_usernames d).
Definition with_address_book v (d : socialdb) := MkSocialDb (accounts d) (profiles d) v (blocked_users d) (contact_requests d) (privacy d) (reserved_usernames d).
Definition with_blocked_users v (d : socialdb) := MkSocialDb (accounts d) (profiles d) (address_book d) v (contact_requests d) (privacy d) (reserved_usernames d).
Definition with_contact_requests v (d : socialdb) := MkSocialDb (accounts d) (profiles d) (address_book d) (blocked_users d) v (privacy d) (reserved_usernames d).
Definition with_privacy v (d : socialdb) := MkSocialDb (accounts d) (profiles d) (address_book d) (blocked_users d) (contact_requests d) v (reserved_usernames d).
Definition with_reserved_usernames v (d : socialdb) := MkSocialDb (accounts d) (profiles d) (address_book d) (blocked_users d) (contact_requests d) (privacy d) v.

(** ** Statements several modules share *)

Definition has_account (u : uuid) (d : socialdb) : bool := bool_decide (is_Some (accounts d !! u)).
Definition has_contact (owner contact : uuid) (d : socialdb) : bool := bool_decide (is_Some (address_book d !! (owner, contact))).
Definition has_blocked (owner other : uuid) (d : socialdb) : bool := bool_decide (is_Some (blocked_users d !! (owner, other))).
(** [COALESCE(p.display_name, '')] over the left join *)
Definition display_name (u : uuid) (d : socialdb) : string := from_option pr_display_name "" (profiles d !! u).
Definition avatar_of (u : uuid) (d : socialdb) : option uuid := profiles d !! u ≫= pr_avatar.

(** [privacy_allows]: a deny, then an allow, then the rule. *)
Definition privacy_allows (owner viewer : uuid) (setting : string) (d : socialdb) : bool :=
  if decide (owner = viewer) then true
  else
    let s := default (MkPrivacyRow "contacts" [] []) (privacy d !! (owner, setting)) in
    if decide (viewer ∈ pv_deny_list s) then false
    else if decide (viewer ∈ pv_allow_list s) then true
    else if decide (pv_rule s = "everyone"%string) then true
    else if decide (pv_rule s = "nobody"%string) then false
    else if decide (pv_rule s = "contacts"%string) then has_contact owner viewer d
    else false.
Definition visible_last_seen (owner viewer : uuid) (d : socialdb) : bool := privacy_allows owner viewer "last_seen" d.
Definition visible_profile_photo (owner viewer : uuid) (d : socialdb) : bool := privacy_allows owner viewer "profile_photo" d.

(** A username column is [CITEXT]: compared folded. *)
Definition username_is (name : string) (a : account_row) : bool :=
  bool_decide (to_lower <$> ac_username a = Some (to_lower name)).
(** A live account other than [claimant] with that username; the reservation of the
    name that still runs and is for someone else. *)
Definition name_held (name : string) (claimant : uuid) (d : socialdb) : bool :=
  0 <? count_where (λ u a, username_is name a && live_account a && negb (bool_decide (u = claimant))) (accounts d).
Definition name_reserved (now : time) (name : string) (claimant : uuid) (d : socialdb) : bool :=
  match reserved_usernames d !! to_lower name with
  | Some r => (now <? rv_until r) && negb (bool_decide (rv_previous_owner r = Some claimant))
  | None => false
  end.
Definition username_available (now : time) (name : string) (claimant : uuid) (d : socialdb) : bool :=
  negb (name_held name claimant d) && negb (name_reserved now name claimant d).

(** ** [string([]rune(value)[:max])] when there are more runes than [max]

    Bytes that are not UTF-8 come back as U+FFFD. *)
Definition encode_segment (seg : N * list N) : list N :=
  if (seg.1 =? rune_error)%N then [239; 191; 189]%N else seg.2.
Definition truncate (value : string) (max : Z) : string :=
  if rune_count value <=? max then value
  else string_of (take (Z.to_nat max) (segments value) ≫= encode_segment).

(** ** [encoding/hex] *)
Definition hex_nibble (c : N) : option N :=
  if in_range 48 57 c then Some (c - 48)%N
  else if in_range 97 102 c then Some (c - 87)%N
  else if in_range 65 70 c then Some (c - 55)%N
  else None.
Fixpoint hex_decode (cs : list N) : option (list N) :=
  match cs with
  | [] => Some []
  | hi :: lo :: cs =>
      h ← hex_nibble hi; l ← hex_nibble lo; bs ← hex_decode cs; Some ((h * 16 + l)%N :: bs)
  | [_] => None
  end.
Definition hex_encode (bs : list N) : list N :=
  bs ≫= λ b, [Ascii.N_of_ascii (hex_digit (b / 16)%N); Ascii.N_of_ascii (hex_digit (b mod 16)%N)].
