(* ===== verification/Antispam.v ===== *)
(** * The spam score ([internal/antispam/antispam.go])

    The table [spam_scores], the statement that records a signal, the decay
    sweep, and the service façade; with the implementation of the messaging
    service's guard.  Times are in nanoseconds; the quotient in the decay is
    exact, then rounded to the nearest integer as the cast does. *)

From stdpp Require Import base tactics list gmap strings.
From Stdlib Require Import ZArith Lia.
From S2P Require Import Prelude GoString RateLimit Ports.

Set Default Goal Selector "!".
Open Scope Z_scope.

Definition SubjectUser := "user"%string.
Definition SubjectIP := "ip"%string.
Definition SubjectDevice := "device"%string.
Definition SubjectPhone := "phone"%string.

Definition WeightReport : Z := 30.
Definition WeightBlock : Z := 10.
Definition WeightRateLimit : Z := 2.
Definition RestrictThreshold : Z := 100.
Definition RestrictFor : Z := 24 * hour.
Definition DecayPerDay : Z := 20.

(** [antispam.Score], and a row of [spam_scores] *)
Record Score := MkScore {
  sc_score : Z;
  sc_reason : string;
  sc_restricted_until : option time;
  sc_updated_at : time;
}.

(** The table, keyed by [(subject_type, subject_key)]. *)
Abbreviation spam_scores := (gmap (string * string) Score) (only parsing).

(** [(s *Score) Restricted()] *)
Definition Restricted (now : time) (s : Score) : bool :=
  match sc_restricted_until s with Some t => now <? t | None => false end.

Inductive spam_err := ErrSubjectType | ErrIntegerRange.

Definition subject_types : gset string :=
  list_to_set [SubjectUser; SubjectIP; SubjectDevice; SubjectPhone].
(** [INT] columns hold 32 bits; a sum outside them is an error. *)
Definition int4 (z : Z) : bool := (-2147483648 <=? z) && (z <=? 2147483647).

(** [Record]: one upsert. *)
Definition Record_ (now : time) (subjectType subjectKey : string) (weight : Z) (reason : string)
    : prog spam_scores spam_err Score := λ t,
  let key := (subjectType, subjectKey) in
  if bool_decide (subjectType ∉ subject_types) then (Err ErrSubjectType, t)
  else
    let row :=
      match t !! key with
      | None =>
          MkScore weight reason
            (if RestrictThreshold <=? weight then Some (now + RestrictFor) else None) now
      | Some old =>
          let score := sc_score old + weight in
          MkScore score reason
            (if RestrictThreshold <=? score
             then Some (Z.max (default now (sc_restricted_until old)) (now + RestrictFor))
             else sc_restricted_until old) now
      end in
    if int4 weight && int4 (sc_score row) then (Ok row, <[key := row]> t)
    else (Err ErrIntegerRange, t).

Definition Get (subjectType subjectKey : string) (t : spam_scores) : option Score :=
  t !! (subjectType, subjectKey).
Definition Clear (subjectType subjectKey : string) (t : spam_scores) : spam_scores :=
  delete (subjectType, subjectKey) t.

(** [(elapsed / 86400.0 * perDay)::int], halves away from zero *)
Definition day : Z := 24 * hour.
Definition decay_amount (elapsed perDay : Z) : Z := (2 * elapsed * perDay + day) / (2 * day).

Definition decayed (now perDay : Z) (s : Score) : Score :=
  MkScore (Z.max 0 (sc_score s - decay_amount (now - sc_updated_at s) perDay))
    (sc_reason s) (sc_restricted_until s) now.
Definition decays (now : time) (_ : string * string) (s : Score) : bool :=
  (0 <? sc_score s) && (sc_updated_at s <? now - hour).
Definition spent (now : time) (_ : string * string) (s : Score) : bool :=
  (sc_score s =? 0) &&
  (match sc_restricted_until s with None => true | Some t => t <? now end).

(** [Decay]: the sweep, then the deletion of spent rows; the count it returns. *)
Definition Decay (now perDay : Z) (t : spam_scores) : Z * spam_scores :=
  let t1 := update_where (decays now) (λ _, decayed now perDay) t in
  (count_where (spent now) t1, delete_where (spent now) t1).

(** ** The service *)

(** [userID.String()] *)
Definition user_key (u : uuid) : string := uuid_String u.

(** [record]: the error is swallowed. *)
Definition record (now : time) (subjectType subjectKey : string) (weight : Z) (reason : string)
    (t : spam_scores) : spam_scores :=
  (Record_ now subjectType subjectKey weight reason t).2.

Definition Reported (now : time) (u : uuid) (reason : string) : spam_scores → spam_scores :=
  record now SubjectUser (user_key u) WeightReport ("reported: " +:+ reason).
Definition Blocked (now : time) (u : uuid) : spam_scores → spam_scores :=
  record now SubjectUser (user_key u) WeightBlock "blocked by a user".
Definition RateLimited (now : time) (u : uuid) : spam_scores → spam_scores :=
  record now SubjectUser (user_key u) WeightRateLimit "sending too fast".
Definition Service_Restricted (now : time) (u : uuid) (t : spam_scores) : option time :=
  match Get SubjectUser (user_key u) t with
  | Some s => if Restricted now s then sc_restricted_until s else None
  | None => None
  end.
Definition Lift (u : uuid) : spam_scores → spam_scores := Clear SubjectUser (user_key u).

(** ** What a signal does *)
Section signals.
Implicit Types (t : gmap (string * string) Score).

Lemma Record_key now ty k w reason t row t' :
  Record_ now ty k w reason t = (Ok row, t') → t' = <[(ty, k) := row]> t.
Proof.
  unfold Record_. destruct (bool_decide _); [done|]. destruct (int4 _ && int4 _); [|done].
  by intros [= <- <-].
Qed.

Lemma Record_restriction now ty k w reason t row t' :
  Record_ now ty k w reason t = (Ok row, t') →
  sc_score row = from_option sc_score 0 (t !! (ty, k)) + w ∧
  (sc_score row < RestrictThreshold →
     sc_restricted_until row = t !! (ty, k) ≫= sc_restricted_until) ∧
  (RestrictThreshold ≤ sc_score row → ∃ u, sc_restricted_until row = Some u ∧ now + RestrictFor ≤ u) ∧
  (∀ old u, t !! (ty, k) = Some old → sc_restricted_until old = Some u →
     ∃ u', sc_restricted_until row = Some u' ∧ u ≤ u').
Proof.
  unfold Record_. destruct (bool_decide _); [done|]. destruct (int4 _ && int4 _); [|done].
  intros [= <- _]. destruct (t !! (ty, k)) as [old|]; simpl.
  - split; [done|]. destruct (RestrictThreshold <=? sc_score old + w) eqn:Hth.
    + apply Z.leb_le in Hth. split; [lia|]. split; [intros _; eexists; split; [done|lia]|].
      intros ? u [= <-] Hu. rewrite Hu. simpl. eexists. split; [done|lia].
    + apply Z.leb_gt in Hth. split; [done|]. split; [lia|]. intros ? u [= <-] Hu. by exists u.
  - split; [done|]. destruct (RestrictThreshold <=? w) eqn:Hth.
    + apply Z.leb_le in Hth. split; [lia|]. split; [|done]. intros _. eexists. split; [done|lia].
    + apply Z.leb_gt in Hth. split; [done|]. split; [lia|done].
Qed.

Lemma record_monotone now u w reason t until :
  Service_Restricted now u t = Some until →
  ∃ until', Service_Restricted now u (record now SubjectUser (user_key u) w reason t) = Some until' ∧
    until ≤ until'.
Proof.
  unfold Service_Restricted, record, Get. destruct (t !! (SubjectUser, user_key u)) as [old|] eqn:Hold; [|done].
  destruct (Restricted now old) eqn:Hr; [|done]. intros Hu.
  unfold Restricted in Hr. rewrite Hu in Hr. apply Z.ltb_lt in Hr.
  destruct (Record_ now SubjectUser (user_key u) w reason t) as [[row|e] t'] eqn:Hrec; simpl.
  - pose proof (Record_restriction _ _ _ _ _ _ _ _ Hrec) as (_ & _ & _ & Hlater).
    destruct (Hlater old until Hold Hu) as (u' & Hu' & Hle).
    rewrite (Record_key _ _ _ _ _ _ _ _ Hrec), lookup_insert_eq.
    exists u'. unfold Restricted. rewrite Hu', (proj2 (Z.ltb_lt _ _)) by lia. done.
  - assert (t' = t) as ->.
    { revert Hrec. unfold Record_. destruct (bool_decide _); [by intros [= _ <-]|].
      destruct (int4 _ && int4 _); [done|]. by intros [= _ <-]. }
    rewrite Hold. exists until. unfold Restricted. by rewrite Hu, (proj2 (Z.ltb_lt _ _)).
Qed.
End signals.

(** The score table is what the messaging service consults. *)
#[export] Program Instance antispam_guard : SpamGuard (gmap (string * string) Score) := {|
  guard_restricted := Service_Restricted;
  guard_rate_limited := RateLimited;
|}.
Next Obligation.
  intros now u g t. unfold Service_Restricted. destruct (Get _ _ g) as [s|]; [|done].
  destruct (Restricted now s) eqn:Hr; [|done]. intros Hu. unfold Restricted in Hr.
  rewrite Hu in Hr. by apply Z.ltb_lt.
Qed.
Next Obligation. intros now u g t. apply record_monotone. Qed.

(** ** Theorems *)

(** Recording a signal adds its weight and never shortens a restriction: below the
    threshold the restriction is left as it was, at or above it the subject is
    restricted for at least a day from now, and an existing end only moves later. *)
Lemma Record_never_shortens now ty k w reason t row t' :
  Record_ now ty k w reason t = (Ok row, t') →
  Get ty k t' = Some row ∧ (∀ ty' k', (ty', k') ≠ (ty, k) → Get ty' k' t' = Get ty' k' t) ∧
  sc_score row = from_option sc_score 0 (Get ty k t) + w ∧
  (sc_score row < RestrictThreshold → sc_restricted_until row = Get ty k t ≫= sc_restricted_until) ∧
  (RestrictThreshold ≤ sc_score row → Restricted now row = true) ∧
  (∀ old u, Get ty k t = Some old → sc_restricted_until old = Some u →
     ∃ u', sc_restricted_until row = Some u' ∧ u ≤ u').
Proof.
  intros Hrec. pose proof (Record_restriction _ _ _ _ _ _ _ _ Hrec) as (Hs & Hbelow & Habove & Hlater).
  rewrite (Record_key _ _ _ _ _ _ _ _ Hrec). unfold Get. split; [by rewrite lookup_insert_eq|].
  split; [intros ty' k' Hne; by rewrite lookup_insert_ne|]. do 2 (split; [done|]). split; [|done].
  intros Hge. destruct (Habove Hge) as (u & Hu & Hle). unfold Restricted. rewrite Hu.
  apply Z.ltb_lt. unfold RestrictFor, hour, minute, second in Hle. lia.
Qed.

(** The decay sweep only ever helps and never releases anybody: with a nonnegative
    rate no score rises, scores stay nonnegative, no restriction changes, a row goes
    away only once its score is spent and its restriction lapsed, and whoever was
    restricted before the sweep is restricted after it. *)
Lemma Decay_never_releases now perDay t :
  0 ≤ perDay →
  (∀ k s', (Decay now perDay t).2 !! k = Some s' → ∃ s, t !! k = Some s ∧
     sc_score s' ≤ sc_score s ∧ (0 ≤ sc_score s → 0 ≤ sc_score s') ∧
     sc_restricted_until s' = sc_restricted_until s) ∧
  (∀ k s, t !! k = Some s → (Decay now perDay t).2 !! k = None →
     sc_score s ≤ decay_amount (now - sc_updated_at s) perDay ∨ sc_score s = 0) ∧
  (∀ u, Service_Restricted now u (Decay now perDay t).2 = Service_Restricted now u t).
Proof.
  intros Hrate. unfold Decay. simpl. split; [|split].
  - intros k s' [(s & Hs & ->)%lookup_update_where_Some _]%lookup_delete_where_Some.
    exists s. split; [done|]. destruct (decays now k s) eqn:Hd; [|done].
    unfold decays in Hd. apply andb_true_iff in Hd as [Hpos Hold].
    apply Z.ltb_lt in Hpos, Hold. simpl. split; [|split; [lia|done]].
    assert (0 ≤ decay_amount (now - sc_updated_at s) perDay); [|lia].
    unfold decay_amount, day, hour, minute, second in *. apply Z.div_pos; nia.
  - intros k s Hs. rewrite lookup_delete_where, lookup_update_where, Hs. simpl.
    destruct (decays now k s) eqn:Hd.
    + destruct (spent now k (decayed now perDay s)) eqn:Hsp; [|done]. intros _. left.
      unfold spent in Hsp. apply andb_true_iff in Hsp as [Hz _]. apply Z.eqb_eq in Hz. simpl in Hz. lia.
    + destruct (spent now k s) eqn:Hsp; [|done]. intros _. right.
      unfold spent in Hsp. apply andb_true_iff in Hsp as [Hz _]. by apply Z.eqb_eq.
  - intros u. unfold Service_Restricted, Get. rewrite lookup_delete_where, lookup_update_where.
    destruct (t !! (SubjectUser, user_key u)) as [s|]; [|done]. simpl.
    set (s' := if decays now (SubjectUser, user_key u) s then decayed now perDay s else s).
    assert (sc_restricted_until s' = sc_restricted_until s) as Heq by (unfold s'; by destruct (decays _ _ _)).
    destruct (spent now (SubjectUser, user_key u) s') eqn:Hsp.
    + unfold spent in Hsp. apply andb_true_iff in Hsp as [_ Hlapsed]. rewrite Heq in Hlapsed.
      unfold Restricted. destruct (sc_restricted_until s) as [until|]; [|done].
      apply Z.ltb_lt in Hlapsed. by rewrite (proj2 (Z.ltb_ge _ _)) by lia.
    + unfold Restricted. by rewrite Heq.
Qed.

(** How much a quiet subject sheds depends on how often the sweep runs, because the
    cast rounds each sweep separately: with sweeps a little over an hour apart a day
    sheds 24 at a rate of 20 a day, and nothing at all at a rate of 11 a day, while one
    sweep over the same time sheds 20 and 11. *)
Lemma Decay_depends_on_schedule :
  let start := {[ (SubjectUser, "u"%string) := MkScore 100 "" None 0 ]} in
  let every := 61 * minute in
  let hourly perDay := foldl (λ t n, (Decay (every * Z.of_nat n) perDay t).2) start (seq 1 24) in
  let once perDay := (Decay (every * 24) perDay start).2 in
  (sc_score <$> hourly 20 !! (SubjectUser, "u"%string) = Some 76 ∧
   sc_score <$> once 20 !! (SubjectUser, "u"%string) = Some 80) ∧
  (sc_score <$> hourly 11 !! (SubjectUser, "u"%string) = Some 100 ∧
   sc_score <$> once 11 !! (SubjectUser, "u"%string) = Some 89).
Proof. vm_compute. repeat split; reflexivity. Qed.

(** ** Concrete runs *)
Definition sample_scores : gmap (string * string) Score :=
  {[ (SubjectUser, user_key 7) := MkScore 90 "blocked by a user" None 0 ]}.

Lemma Record_never_shortens_witness :
  ∃ row t', Record_ 5 SubjectUser (user_key 7) WeightBlock "x" sample_scores = (Ok row, t') ∧
    Restricted 5 row = true.
Proof.
  destruct (run_is_Ok (Record_ 5 SubjectUser (user_key 7) WeightBlock "x") sample_scores) as [row Hrun];
    [vm_compute; reflexivity|].
  eexists row, _. split; [exact Hrun|].
  eapply Record_never_shortens; [exact Hrun|].
  apply (f_equal fst) in Hrun. vm_compute in Hrun. injection Hrun as <-. vm_compute. discriminate.
Defined.

Lemma Decay_never_releases_witness :
  0 ≤ DecayPerDay ∧
  Service_Restricted day 7 (Decay day DecayPerDay sample_scores).2 = Service_Restricted day 7 sample_scores.
Proof.
  split; [vm_compute; discriminate|]. apply Decay_never_releases. vm_compute. discriminate.
Defined.
