(* ===== verification/Payloads.v ===== *)
(** * Typed message payloads ([internal/messaging/payloads.go])

    The location and contact cards and their validation.  A [float64] is a
    binary64 value of [SpecFloat].  How [encoding/json] reads and writes the two
    structures is the class [PayloadCodec]: what it reads is finite numbers and
    well-formed text, and such a card, when it can be written, reads back as
    itself but for the sign of a zero ([omitempty] leaves a zero out). *)

From stdpp Require Import base tactics list gmap strings.
From Stdlib Require Import ZArith Lia Floats.SpecFloat.
From S2P Require Import Prelude GoString Httpx Permissions.

Set Default Goal Selector "!".
Open Scope Z_scope.

(** ** float64 *)
Abbreviation float64 := spec_float (only parsing).
Definition f64 (n : Z) : spec_float := binary_normalize 53 1024 n 0 false.
(** The comparisons of Go: false as soon as one side is NaN. *)
Definition flt (x y : spec_float) : bool := SFltb x y.
Definition is_nan (x : spec_float) : bool := match x with S754_nan => true | _ => false end.
Definition outside (lo hi : Z) (x : spec_float) : bool := flt x (f64 lo) || flt (f64 hi) x.

(** ** The structures *)
Definition MaxLiveLocationDuration : Z := 24 * hour.
Definition MinLiveLocationDuration : Z := minute.
Definition MaxPlaceNameRunes : Z := 128.
Definition MaxContactNameRunes : Z := 128.
Definition MaxPhoneRunes : Z := 32.
Definition MaxVCardBytes : Z := 8192.

Record LocationPayload := MkLocation {
  Latitude : spec_float;
  Longitude : spec_float;
  HorizontalAccuracy : spec_float;
  LivePeriodSeconds : Z;
  LiveUntil : option time;
  Heading : spec_float;
  Speed : spec_float;
  PlaceName : string;
  PlaceAddress : string;
}.

Record ContactPayload := MkContact {
  PhoneNumber : string;
  FirstName : string;
  LastName : string;
  UserID : option uuid;
  VCard : string;
}.

Definition IsLive (now : time) (p : LocationPayload) : bool :=
  match LiveUntil p with Some t => now <? t | None => false end.

(** What [json.Unmarshal] can leave in a field: JSON has no NaN and no infinity and a
    number too large is an error, invalid UTF-8 is replaced, an [int] has 64 bits. *)
Definition finite64 (x : spec_float) : bool :=
  match x with S754_zero _ | S754_finite _ _ _ => valid_binary 53 1024 x | _ => false end.
Definition plain_location (p : LocationPayload) : bool :=
  forallb finite64 [Latitude p; Longitude p; HorizontalAccuracy p; Heading p; Speed p]
  && forallb valid_utf8 [PlaceName p; PlaceAddress p]
  && ((- 2 ^ 63 <=? LivePeriodSeconds p) && (LivePeriodSeconds p <? 2 ^ 63)).
Definition plain_contact (p : ContactPayload) : bool :=
  forallb valid_utf8 [PhoneNumber p; FirstName p; LastName p; VCard p]
  && (if UserID p is Some u then (u <? 2 ^ 128)%N else true).
(** Equal numbers: the two zeros are. *)
Definition same_number (x y : spec_float) : Prop := SFeqb x y = true.
Definition same_location (p q : LocationPayload) : Prop :=
  same_number (Latitude p) (Latitude q) ∧ same_number (Longitude p) (Longitude q) ∧
  same_number (HorizontalAccuracy p) (HorizontalAccuracy q) ∧ same_number (Heading p) (Heading q) ∧
  same_number (Speed p) (Speed q) ∧ LivePeriodSeconds q = LivePeriodSeconds p ∧ LiveUntil q = LiveUntil p ∧
  PlaceName q = PlaceName p ∧ PlaceAddress q = PlaceAddress p.

(** [json.Unmarshal] and [json.Marshal] of the two structures; [Marshal] has an error
    for a number that is not finite and for a year of more than four digits. *)
Class PayloadCodec := {
  unmarshal_location : json → option LocationPayload;
  marshal_location : LocationPayload → option json;
  location_plain j p : unmarshal_location j = Some p → plain_location p = true;
  location_round_trip p j : plain_location p = true → marshal_location p = Some j →
    ∃ q, unmarshal_location j = Some q ∧ same_location p q;
  unmarshal_contact : json → option ContactPayload;
  marshal_contact : ContactPayload → option json;
  contact_plain j p : unmarshal_contact j = Some p → plain_contact p = true;
  contact_round_trip p j : plain_contact p = true → marshal_contact p = Some j → unmarshal_contact j = Some p;
}.

(** ** Validation *)

(** [time.Duration(p.LivePeriodSeconds) * time.Second] is 64-bit. *)
Definition live_period (p : LocationPayload) : Z := wrap64 (LivePeriodSeconds p * second).

Definition location_Validate (now : time) (p : LocationPayload) : result Error LocationPayload :=
  if is_nan (Latitude p) || outside (-90) 90 (Latitude p) then
    Err (WithField (Validation "That latitude is not on Earth")
      "payload.latitude" "between -90 and 90")
  else if is_nan (Longitude p) || outside (-180) 180 (Longitude p) then
    Err (WithField (Validation "That longitude is not on Earth")
      "payload.longitude" "between -180 and 180")
  else if outside 0 100000 (HorizontalAccuracy p) then
    Err (WithField (Validation "That accuracy is not usable")
      "payload.horizontal_accuracy" "between 0 and 100000 metres")
  else if outside 0 360 (Heading p) then
    Err (WithField (Validation "That heading is not a bearing")
      "payload.heading" "between 0 and 360 degrees")
  else if outside 0 1000 (Speed p) then
    Err (WithField (Validation "That speed is not usable")
      "payload.speed" "between 0 and 1000 m/s")
  else if negb (LivePeriodSeconds p =? 0)
    && ((live_period p <? MinLiveLocationDuration) || (MaxLiveLocationDuration <? live_period p)) then
    Err (WithField (Validation "That sharing period is not allowed")
      "payload.live_period_seconds" "between 60 and 86400 seconds")
  else
    let name := trim_space (PlaceName p) in
    let address := trim_space (PlaceAddress p) in
    let p :=
      if LivePeriodSeconds p =? 0
      then MkLocation (Latitude p) (Longitude p) (HorizontalAccuracy p) 0 None
             (f64 0) (f64 0) name address
      else MkLocation (Latitude p) (Longitude p) (HorizontalAccuracy p) (LivePeriodSeconds p)
             (Some (now + live_period p)) (Heading p) (Speed p) name address in
    if MaxPlaceNameRunes <? rune_count name then
      Err (WithField (Validation "That place name is too long")
        "payload.place_name" "at most 128 characters")
    else if MaxPlaceNameRunes * 4 <? rune_count address then
      Err (WithField (Validation "That address is too long") "payload.place_address" "too long")
    else Ok p.

Definition contact_Validate (p : ContactPayload) : result Error ContactPayload :=
  let p := MkContact (trim_space (PhoneNumber p)) (trim_space (FirstName p))
             (trim_space (LastName p)) (UserID p) (VCard p) in
  if bool_decide (PhoneNumber p = ""%string) then
    Err (WithField (Validation "A contact needs a phone number")
      "payload.phone_number" "required")
  else if MaxPhoneRunes <? rune_count (PhoneNumber p) then
    Err (WithField (Validation "That phone number is too long")
      "payload.phone_number" "at most 32 characters")
  else if bool_decide (FirstName p = ""%string) then
    Err (WithField (Validation "A contact needs a name") "payload.first_name" "required")
  else if (MaxContactNameRunes <? rune_count (FirstName p))
       || (MaxContactNameRunes <? rune_count (LastName p)) then
    Err (WithField (Validation "That contact name is too long")
      "payload.first_name" "at most 128 characters")
  else if MaxVCardBytes <? len (VCard p) then
    Err (WithField (Validation "That vCard is too large")
      "payload.vcard" "at most 8192 bytes")
  else Ok p.

Section typed_payload.
Context `{PayloadCodec}.

Definition validateTypedPayload (now : time) (messageType : string) (r : raw) : result Error raw :=
  if decide (messageType = TypeLocation) then
    match r with
    | RawNil => Err (WithField (Validation "A location message needs a payload")
        "payload" "latitude and longitude are required")
    | RawInvalid => Err (WithField (Validation "That location payload could not be read")
        "payload" "must be a location object")
    | RawDoc j =>
        match unmarshal_location j with
        | None => Err (WithField (Validation "That location payload could not be read")
            "payload" "must be a location object")
        | Some p =>
            match location_Validate now p with
            | Err e => Err e
            | Ok p => match marshal_location p with Some j => Ok (RawDoc j) | None => Err Internal end
            end
        end
    end
  else if decide (messageType = TypeContact) then
    match r with
    | RawNil => Err (WithField (Validation "A contact message needs a payload")
        "payload" "phone_number and first_name are required")
    | RawInvalid => Err (WithField (Validation "That contact payload could not be read")
        "payload" "must be a contact object")
    | RawDoc j =>
        match unmarshal_contact j with
        | None => Err (WithField (Validation "That contact payload could not be read")
            "payload" "must be a contact object")
        | Some p =>
            match contact_Validate p with
            | Err e => Err e
            | Ok p => match marshal_contact p with Some j => Ok (RawDoc j) | None => Err Internal end
            end
        end
    end
  else Ok r.
End typed_payload.

(** ** What is accepted *)

Definition location_in_range (p : LocationPayload) : Prop :=
  is_nan (Latitude p) = false ∧ outside (-90) 90 (Latitude p) = false ∧
  is_nan (Longitude p) = false ∧ outside (-180) 180 (Longitude p) = false ∧
  outside 0 100000 (HorizontalAccuracy p) = false ∧ outside 0 360 (Heading p) = false ∧
  outside 0 1000 (Speed p) = false.

Lemma location_Validate_Ok now p q :
  location_Validate now p = Ok q →
  location_in_range p ∧
  rune_count (trim_space (PlaceName p)) ≤ MaxPlaceNameRunes ∧
  rune_count (trim_space (PlaceAddress p)) ≤ MaxPlaceNameRunes * 4 ∧
  (LivePeriodSeconds p ≠ 0 → MinLiveLocationDuration ≤ live_period p ≤ MaxLiveLocationDuration) ∧
  q = MkLocation (Latitude p) (Longitude p) (HorizontalAccuracy p)
        (LivePeriodSeconds p)
        (if LivePeriodSeconds p =? 0 then None else Some (now + live_period p))
        (if LivePeriodSeconds p =? 0 then f64 0 else Heading p)
        (if LivePeriodSeconds p =? 0 then f64 0 else Speed p)
        (trim_space (PlaceName p)) (trim_space (PlaceAddress p)).
Proof.
  unfold location_Validate.
  destruct (is_nan (Latitude p) || _) eqn:H1; [done|]. apply orb_false_iff in H1 as [? ?].
  destruct (is_nan (Longitude p) || _) eqn:H2; [done|]. apply orb_false_iff in H2 as [? ?].
  destruct (outside 0 100000 _) eqn:H3; [done|]. destruct (outside 0 360 _) eqn:H4; [done|].
  destruct (outside 0 1000 _) eqn:H5; [done|].
  destruct (negb _ && _) eqn:H6; [done|].
  destruct (MaxPlaceNameRunes <? _) eqn:H7; [done|]. apply Z.ltb_ge in H7.
  destruct (MaxPlaceNameRunes * 4 <? _) eqn:H8; [done|]. apply Z.ltb_ge in H8.
  intros [= <-]. split; [done|]. split; [done|]. split; [done|].
  destruct (LivePeriodSeconds p =? 0) eqn:Hz.
  - apply Z.eqb_eq in Hz. rewrite Hz. done.
  - simpl in H6. apply orb_false_iff in H6 as [Hlo Hhi]. rewrite Z.ltb_ge in Hlo, Hhi. done.
Qed.

(** The conditions are also sufficient. *)
Lemma location_Validate_run now p :
  location_in_range p →
  rune_count (trim_space (PlaceName p)) ≤ MaxPlaceNameRunes →
  rune_count (trim_space (PlaceAddress p)) ≤ MaxPlaceNameRunes * 4 →
  (LivePeriodSeconds p ≠ 0 → MinLiveLocationDuration ≤ live_period p ≤ MaxLiveLocationDuration) →
  ∃ q, location_Validate now p = Ok q.
Proof.
  intros (H1 & H2 & H3 & H4 & H5 & H6 & H7) Hn Ha Hp. unfold location_Validate.
  rewrite H1, H2, H3, H4, H5, H6, H7. simpl.
  rewrite (proj2 (Z.ltb_ge _ _) Hn), (proj2 (Z.ltb_ge _ _) Ha).
  destruct (LivePeriodSeconds p =? 0) eqn:Hz; simpl; [eauto|].
  apply Z.eqb_neq, Hp in Hz as [Hlo Hhi].
  rewrite (proj2 (Z.ltb_ge _ _) Hlo), (proj2 (Z.ltb_ge _ _) Hhi). simpl. eauto.
Qed.

(** *** The same number is in the same ranges *)

Lemma SFeqb_inv x y : SFeqb x y = true → x = y ∨ ∃ s t, x = S754_zero s ∧ y = S754_zero t.
Proof.
  unfold SFeqb. destruct x as [s|s| |s m e], y as [t|t| |t n f]; simpl; intros Hxy; try done; try (by destruct s); try (by destruct t).
  - right. eauto.
  - destruct s, t; (done || by left).
  - left. destruct s, t; try done; destruct (Z.compare_spec e f) as [->|?|?]; try done;
      destruct (Pos.compare_cont Eq m n) eqn:Hmn; try done; by apply Pos.compare_eq in Hmn as ->.
Qed.
Lemma same_number_flt x y z : same_number x y → flt x z = flt y z ∧ flt z x = flt z y.
Proof. intros [->|(s & t & -> & ->)]%SFeqb_inv; [done|]. by destruct z. Qed.
Lemma same_number_range x y lo hi : same_number x y → outside lo hi y = outside lo hi x.
Proof. intros Hxy. unfold outside. destruct (same_number_flt x y (f64 lo) Hxy) as [-> _]. by destruct (same_number_flt x y (f64 hi) Hxy) as [_ ->]. Qed.
Lemma same_number_nan x y : same_number x y → is_nan y = is_nan x.
Proof. by intros [->|(s & t & -> & ->)]%SFeqb_inv. Qed.
Lemma same_number_refl x : finite64 x = true → same_number x x.
Proof.
  unfold same_number, SFeqb. destruct x as [| | |s m e]; try done. intros _. simpl. rewrite Z.compare_refl, Pos.compare_cont_refl.
  by destruct s.
Qed.
Lemma same_number_sym x y : same_number x y → same_number y x.
Proof. intros Hxy. pose proof Hxy as [->|(s & t & -> & ->)]%SFeqb_inv; done. Qed.

(** A validated card is one that can be written and read back. *)
Lemma plain_location_spec p : plain_location p = true ↔
  (finite64 (Latitude p) = true ∧ finite64 (Longitude p) = true ∧ finite64 (HorizontalAccuracy p) = true ∧
   finite64 (Heading p) = true ∧ finite64 (Speed p) = true) ∧
  (valid_utf8 (PlaceName p) = true ∧ valid_utf8 (PlaceAddress p) = true) ∧ - 2 ^ 63 ≤ LivePeriodSeconds p < 2 ^ 63.
Proof. unfold plain_location. cbn [forallb]. rewrite !andb_true_iff, Z.leb_le, Z.ltb_lt. tauto. Qed.
Lemma location_Validate_plain now p q : plain_location p = true → location_Validate now p = Ok q → plain_location q = true.
Proof.
  rewrite !plain_location_spec. intros (Hf & [Hname Haddr] & Hn) (_ & _ & _ & _ & ->)%location_Validate_Ok. simpl.
  apply trim_space_valid in Hname, Haddr. destruct (LivePeriodSeconds p =? 0); tauto.
Qed.
Lemma contact_Validate_Ok p q : contact_Validate p = Ok q →
  q = MkContact (trim_space (PhoneNumber p)) (trim_space (FirstName p)) (trim_space (LastName p)) (UserID p) (VCard p) ∧
  PhoneNumber q ≠ ""%string ∧ rune_count (PhoneNumber q) ≤ 32 ∧ FirstName q ≠ ""%string ∧
  rune_count (FirstName q) ≤ 128 ∧ rune_count (LastName q) ≤ 128 ∧ len (VCard q) ≤ 8192.
Proof.
  unfold contact_Validate. simpl. case_bool_decide; [done|]. destruct (MaxPhoneRunes <? _) eqn:H2; [done|]. case_bool_decide; [done|].
  destruct (_ || _) eqn:H4; [done|]. destruct (MaxVCardBytes <? _) eqn:H5; [done|].
  intros [= <-]. apply orb_false_iff in H4 as [H4 H4']. rewrite Z.ltb_ge in *. done.
Qed.
Lemma contact_Validate_plain p q : plain_contact p = true → contact_Validate p = Ok q → plain_contact q = true.
Proof.
  intros Hp [-> _]%contact_Validate_Ok. revert Hp. unfold plain_contact. simpl. rewrite !andb_true_iff.
  intros [(? & ? & ? & ? & _) ?]. split_and!; try done; by apply trim_space_valid.
Qed.

(** C9: A stored location decodes to a point a client can draw: whatever payload a client
    sends as a location or a contact, what is accepted for the store decodes to the card
    that was sent, made sound.  Of a location the coordinates, the accuracy and, while it
    is live, the bearing and the speed are the numbers that were sent and are in range,
    its name and address are the sent ones trimmed and bounded, and sharing ends between
    a minute and a day from now, by the server's clock, or never started; of a contact
    the number and the names are the sent ones trimmed, bounded and where required not
    empty, and the account and the card are as sent.  A payload of any other type is
    stored as it came. *)
Theorem typed_payload_is_sound `{PayloadCodec} now ty r r' :
  validateTypedPayload now ty r = Ok r' →
  (ty = TypeLocation → ∃ j p j' q, r = RawDoc j ∧ unmarshal_location j = Some p ∧ r' = RawDoc j' ∧ unmarshal_location j' = Some q ∧
     SFeqb (Latitude p) (Latitude q) = true ∧ SFeqb (Longitude p) (Longitude q) = true ∧
     SFeqb (HorizontalAccuracy p) (HorizontalAccuracy q) = true ∧
     is_nan (Latitude q) = false ∧ outside (-90) 90 (Latitude q) = false ∧
     is_nan (Longitude q) = false ∧ outside (-180) 180 (Longitude q) = false ∧
     outside 0 100000 (HorizontalAccuracy q) = false ∧ outside 0 360 (Heading q) = false ∧
     outside 0 1000 (Speed q) = false ∧
     PlaceName q = trim_space (PlaceName p) ∧ rune_count (PlaceName q) ≤ 128 ∧
     PlaceAddress q = trim_space (PlaceAddress p) ∧ rune_count (PlaceAddress q) ≤ 512 ∧
     LivePeriodSeconds q = LivePeriodSeconds p ∧
     match LiveUntil q with
     | Some t => now + minute ≤ t ≤ now + 24 * hour ∧ SFeqb (Heading p) (Heading q) = true ∧ SFeqb (Speed p) (Speed q) = true
     | None => LivePeriodSeconds q = 0 ∧ SFeqb (Heading q) (f64 0) = true ∧ SFeqb (Speed q) (f64 0) = true
     end) ∧
  (ty = TypeContact → ∃ j p j' q, r = RawDoc j ∧ unmarshal_contact j = Some p ∧ r' = RawDoc j' ∧ unmarshal_contact j' = Some q ∧
     PhoneNumber q = trim_space (PhoneNumber p) ∧ PhoneNumber q ≠ ""%string ∧ rune_count (PhoneNumber q) ≤ 32 ∧
     FirstName q = trim_space (FirstName p) ∧ FirstName q ≠ ""%string ∧ rune_count (FirstName q) ≤ 128 ∧
     LastName q = trim_space (LastName p) ∧ rune_count (LastName q) ≤ 128 ∧
     UserID q = UserID p ∧ VCard q = VCard p ∧ len (VCard q) ≤ 8192) ∧
  (ty ≠ TypeLocation → ty ≠ TypeContact → r' = r).
Proof.
  unfold validateTypedPayload. intros Hrun. split; [|split].
  - intros ->. rewrite decide_True in Hrun by done.
    destruct r as [| |j]; [done..|]. destruct (unmarshal_location j) as [p|] eqn:Hj; [|done].
    destruct (location_Validate now p) as [q|] eqn:Hv; [|done].
    destruct (marshal_location q) as [j'|] eqn:Hj'; [|done]. injection Hrun as <-.
    pose proof (location_Validate_plain now p q (location_plain j p Hj) Hv) as Hplain.
    destruct (location_round_trip q j' Hplain Hj') as (q' & Hq' & H1 & H2 & H3 & H4 & H5 & Hp' & Hu' & Hn' & Ha').
    apply location_Validate_Ok in Hv as ((R1 & R2 & R3 & R4 & R5 & R6 & R7) & Hn & Ha & Hp & ->). simpl in *.
    exists j, p, j', q'. do 4 (split; [done|]).
    rewrite (same_number_nan _ _ H1), (same_number_range _ _ _ _ H1), (same_number_nan _ _ H2), (same_number_range _ _ _ _ H2),
      (same_number_range _ _ _ _ H3), (same_number_range _ _ _ _ H4), (same_number_range _ _ _ _ H5), Hp', Hu', Hn', Ha'.
    destruct (LivePeriodSeconds p =? 0) eqn:Hz.
    + apply Z.eqb_eq in Hz. split_and!; try done; by apply same_number_sym.
    + apply Z.eqb_neq, Hp in Hz. unfold MinLiveLocationDuration, MaxLiveLocationDuration in Hz. split_and!; try done; lia.
  - intros ->. rewrite decide_False, decide_True in Hrun by done.
    destruct r as [| |j]; [done..|]. destruct (unmarshal_contact j) as [p|] eqn:Hj; [|done].
    destruct (contact_Validate p) as [q|] eqn:Hv; [|done].
    destruct (marshal_contact q) as [j'|] eqn:Hj'; [|done]. injection Hrun as <-.
    pose proof (contact_Validate_plain p q (contact_plain j p Hj) Hv) as Hplain.
    exists j, p, j', q. do 3 (split; [done|]). split; [by apply contact_round_trip|].
    apply contact_Validate_Ok in Hv as (Hq & ?). rewrite Hq in *. simpl in *. tauto.
  - intros Hl Hc. rewrite !decide_False in Hrun by done. by injection Hrun as ->.
Qed.

(** The sharing period is checked after a 64-bit multiplication that can wrap: up to
    292 years the accepted periods are exactly 60 to 86400 seconds, but a period of
    60 + 2^55 seconds is accepted as if it were a minute. *)
Lemma live_period_check_wraps now p :
  location_in_range p →
  rune_count (trim_space (PlaceName p)) ≤ MaxPlaceNameRunes →
  rune_count (trim_space (PlaceAddress p)) ≤ MaxPlaceNameRunes * 4 →
  (LivePeriodSeconds p ≠ 0 → Z.abs (LivePeriodSeconds p) ≤ 9223372036 →
     is_Ok (location_Validate now p) = (60 <=? LivePeriodSeconds p) && (LivePeriodSeconds p <=? 86400)) ∧
  (LivePeriodSeconds p = 60 + 2 ^ 55 →
     ∃ q, location_Validate now p = Ok q ∧ LiveUntil q = Some (now + 60 * second) ∧
       LivePeriodSeconds q = 60 + 2 ^ 55).
Proof.
  intros Hr Hn Ha. split.
  - intros Hz Hsmall.
    assert (live_period p = LivePeriodSeconds p * second) as Hperiod.
    { unfold live_period. apply wrap64_id. unfold second. lia. }
    destruct ((60 <=? _) && _) eqn:Hrange.
    + apply andb_true_iff in Hrange as [Hlo%Z.leb_le Hhi%Z.leb_le].
      destruct (location_Validate_run now p Hr Hn Ha) as [q ->]; [|done]. intros _.
      rewrite Hperiod. unfold MinLiveLocationDuration, MaxLiveLocationDuration, hour, minute, second. lia.
    + destruct (location_Validate now p) as [q|e] eqn:Hv; [|done].
      apply location_Validate_Ok in Hv as (_ & _ & _ & Hp & _). specialize (Hp Hz).
      rewrite Hperiod in Hp. unfold MinLiveLocationDuration, MaxLiveLocationDuration, hour, minute, second in Hp.
      apply andb_false_iff in Hrange. rewrite !Z.leb_gt in Hrange. lia.
  - intros Hbig. assert (live_period p = 60 * second) as Hperiod.
    { unfold live_period. rewrite Hbig. vm_compute. reflexivity. }
    destruct (location_Validate_run now p Hr Hn Ha) as [q Hv].
    { intros _. rewrite Hperiod. vm_compute. split; discriminate. }
    exists q. split; [done|]. apply location_Validate_Ok in Hv as (_ & _ & _ & _ & ->). simpl.
    rewrite Hbig. rewrite Hperiod. done.
Qed.

(** ** Concrete runs *)

(** A codec: the fields in order. *)
Definition toy_float (x : spec_float) : json :=
  match x with
  | S754_zero s => JBool s
  | S754_infinity s => JArr [JBool s]
  | S754_nan => JNull
  | S754_finite s m e => JArr [JBool s; JInt (Zpos m); JInt e]
  end.
Definition toy_float_inv (j : json) : spec_float :=
  match j with
  | JBool s => S754_zero s
  | JArr [JBool s] => S754_infinity s
  | JArr [JBool s; JInt (Zpos m); JInt e] => S754_finite s m e
  | _ => S754_nan
  end.
Lemma toy_float_round_trip x : toy_float_inv (toy_float x) = x.
Proof. by destruct x. Qed.
Definition toy_opt (o : option Z) : json := match o with Some z => JInt z | None => JNull end.
Definition toy_opt_inv (j : json) : option Z := match j with JInt z => Some z | _ => None end.

Definition toy_location (p : LocationPayload) : json :=
  JArr [toy_float (Latitude p); toy_float (Longitude p); toy_float (HorizontalAccuracy p);
    JInt (LivePeriodSeconds p); toy_opt (LiveUntil p); toy_float (Heading p);
    toy_float (Speed p); JStr (PlaceName p); JStr (PlaceAddress p)].
Definition toy_location_inv (j : json) : option LocationPayload :=
  match j with
  | JArr [a; b; c; JInt d; e; f; g; JStr h; JStr i] =>
      Some (MkLocation (toy_float_inv a) (toy_float_inv b) (toy_float_inv c) d (toy_opt_inv e)
        (toy_float_inv f) (toy_float_inv g) h i)
  | _ => None
  end.
Definition toy_contact (p : ContactPayload) : json :=
  JArr [JStr (PhoneNumber p); JStr (FirstName p); JStr (LastName p);
    toy_opt (Z.of_N <$> UserID p); JStr (VCard p)].
Definition toy_contact_inv (j : json) : option ContactPayload :=
  match j with
  | JArr [JStr a; JStr b; JStr c; d; JStr e] => Some (MkContact a b c (Z.to_N <$> toy_opt_inv d) e)
  | _ => None
  end.
Definition toy_read {A} (plain : A → bool) (o : option A) : option A := p ← o; if plain p then Some p else None.
Lemma toy_read_plain {A} (plain : A → bool) o p : toy_read plain o = Some p → plain p = true.
Proof. destruct o as [q|]; [|done]. simpl. destruct (plain q) eqn:Hq; [|done]. by intros [= <-]. Qed.
Lemma toy_location_round_trip p j : plain_location p = true → Some (toy_location p) = Some j →
  ∃ q, toy_read plain_location (toy_location_inv j) = Some q ∧ same_location p q.
Proof.
  intros Hp [= <-]. exists p. split.
  - destruct p as [? ? ? ? [t|] ? ? ? ?]; simpl; rewrite !toy_float_round_trip; by rewrite Hp.
  - apply plain_location_spec in Hp as [(? & ? & ? & ? & ?) _]. split_and!; (done || by apply same_number_refl).
Qed.
Lemma toy_contact_round_trip p j : plain_contact p = true → Some (toy_contact p) = Some j →
  toy_read plain_contact (toy_contact_inv j) = Some p.
Proof. intros Hp [= <-]. destruct p as [? ? ? [u|] ?]; simpl; [rewrite N2Z.id|]; by rewrite Hp. Qed.

Definition toy_codec : PayloadCodec :=
  Build_PayloadCodec (λ j, toy_read plain_location (toy_location_inv j)) (λ p, Some (toy_location p))
    (λ j, toy_read_plain _ _) toy_location_round_trip
    (λ j, toy_read plain_contact (toy_contact_inv j)) (λ p, Some (toy_contact p))
    (λ j, toy_read_plain _ _) toy_contact_round_trip.
#[local] Existing Instance toy_codec.

Definition sample_location (seconds : Z) : LocationPayload :=
  MkLocation (f64 35) (f64 51) (f64 10) seconds (Some 0) (f64 0) (f64 0) "Tehran" "".

Lemma typed_payload_is_sound_witness :
  ∃ r', validateTypedPayload 0 TypeLocation (RawDoc (toy_location (sample_location 3600))) = Ok r' ∧
    ∃ j q, r' = RawDoc j ∧ unmarshal_location j = Some q ∧ LiveUntil q = Some hour.
Proof.
  eexists. split; [vm_compute; reflexivity|].
  edestruct (typed_payload_is_sound 0 TypeLocation (RawDoc (toy_location (sample_location 3600))))
    as [Hloc _]; [vm_compute; reflexivity|].
  destruct (Hloc eq_refl) as (_ & _ & j & q & _ & _ & Hj & Hq & _). exists j, q. split; [exact Hj|].
  split; [exact Hq|]. injection Hj as <-. vm_compute in Hq. by injection Hq as <-.
Defined.

Lemma live_period_check_wraps_witness :
  ∃ q, location_Validate 0 (sample_location (60 + 2 ^ 55)) = Ok q ∧
    LiveUntil q = Some (60 * second) ∧ LivePeriodSeconds q = 60 + 2 ^ 55.
Proof.
  apply (live_period_check_wraps 0 (sample_location (60 + 2 ^ 55))).
  - vm_compute. repeat split.
  - vm_compute. discriminate.
  - vm_compute. discriminate.
  - reflexivity.
Defined.
