(* ===== verification/MessagingService.v ===== *)
(** * The messaging service ([internal/messaging/service.go])

    One definition per method, over a world of the database, the optional spam
    guard, the limiter and what the service sent out.  The guard and the
    limiter are the interfaces of [Ports].  A handler reads the clock once:
    [now].  Failed publications and enqueues are only logged by the code and
    are not distinguished here. *)

From stdpp Require Import base tactics list sorting relations gmap strings.
From Stdlib Require Import ZArith Lia.
From S2P Require Import Prelude GoString Httpx Permissions Store ChatContext EventLog MessageRepo RateLimit Ports Payloads.

Set Default Goal Selector "!".
Open Scope Z_scope.

Definition MaxContentRunes : Z := 8000.
Definition MaxCaptionRunes : Z := 2000.
Definition MaxAttachments : Z := 10.
Definition MaxMentions : Z := 50.
Definition EditWindow : Z := 48 * hour.
Definition MaxHistoryPageSize : Z := 200.
Definition MaxReadReceiptWrites : Z := 200.
Definition MaxReadReceipts : Z := 100.

Record SendInput := MkSendInput {
  in_ChatID : uuid;
  in_SenderID : uuid;
  in_ClientMessageID : uuid;
  in_Type : string;
  in_Content : string;
  in_Entities : raw;
  in_Payload : raw;
  in_ReplyToID : option uuid;
  in_Attachments : list Attachment;
  in_Mentions : list uuid;
  in_Forward : option ForwardInfo;
  in_ReplyMarkup : raw;
  in_IsSilent : bool;
  in_TopicID : option uuid;
}.

(** What leaves the service: a frame on a user's subject with its sync number,
    a frame on the chat's subject, a search job, a call to an observer. *)
Inductive output :=
| PublishUser (user : uuid) (event : string) (payload : event_payload) (sync_seq : option Z)
| PublishChat (chat : uuid) (event : string) (payload : event_payload)
| IndexMessage (version : option time) (message : Message)
| DeindexMessage (message : uuid)
| Observed (observer : nat) (message : Message).

Record world (G L : Type) := MkWorld {
  w_db : db;
  w_guard : option G;
  w_limiter : L;
  w_observers : nat;
  w_out : list output;
}.
Arguments MkWorld {G L}.
Arguments w_db {G L}.
Arguments w_guard {G L}.
Arguments w_limiter {G L}.
Arguments w_observers {G L}.
Arguments w_out {G L}.

Section service.
Context `{SpamGuard G} `{MessageLimiter L} `{PayloadCodec}.

Abbreviation handler := (prog (world G L) Error) (only parsing).

Definition set_db (d : db) (w : world G L) : world G L :=
  MkWorld d (w_guard w) (w_limiter w) (w_observers w) (w_out w).
Definition set_guard (g : option G) (w : world G L) : world G L :=
  MkWorld (w_db w) g (w_limiter w) (w_observers w) (w_out w).
Definition set_limiter (l : L) (w : world G L) : world G L :=
  MkWorld (w_db w) (w_guard w) l (w_observers w) (w_out w).
Definition emit (o : list output) : handler () :=
  modify (λ w, MkWorld (w_db w) (w_guard w) (w_limiter w) (w_observers w) (w_out w ++ o)).

(** A repository call, with the handler's translation of its errors. *)
Definition repo {E A} (m : prog db E A) (h : E → Error) : handler A := λ w,
  match m (w_db w) with
  | (Ok a, d) => (Ok a, set_db d w)
  | (Err e, d) => (Err (h e), set_db d w)
  end.

Definition chat_not_found (e : dberr) : Error :=
  match e with
  | ErrNotFound => NotFound CodeChatNotFound "Chat not found"
  | _ => Internal
  end.
Definition message_not_found (e : dberr) : Error :=
  match e with
  | ErrNotFound => NotFound CodeMessageNotFound "Message not found"
  | _ => Internal
  end.
Definition not_member_error : Error :=
  Forbidden CodeNotChatMember "You are not a member of this chat".
Definition internal_error (_ : dberr) : Error := Internal.

(** ** Validation *)

(** [validateSend]: the input as it is stored. *)
Definition validateSend (now : time) (i : SendInput) : result Error SendInput :=
  let content := trim_space (in_Content i) in
  if bool_decide (in_Type i ∉ ValidMessageTypes) then
    Err (WithField (Validation "Unsupported message type") "type" "unsupported")
  else if bool_decide (in_Type i = TypeSystem) then
    Err (Forbidden CodeForbidden "System messages cannot be sent by clients")
  else if bool_decide (in_ClientMessageID i = uuid_nil) then
    Err (WithField (Validation "client_message_id is required")
      "client_message_id" "required for idempotent delivery")
  else if MaxContentRunes <? rune_count content then
    Err (WithField (Validation "Message is too long") "content" "exceeds the maximum length")
  else if MaxAttachments <? Z.of_nat (length (in_Attachments i)) then
    Err (WithField (Validation "Too many attachments") "attachments" "at most 10 per message")
  else if MaxMentions <? Z.of_nat (length (in_Mentions i)) then
    Err (WithField (Validation "Too many mentions") "mentions" "at most 50 per message")
  else if existsb (λ a, MaxCaptionRunes <? rune_count (att_caption a)) (in_Attachments i) then
    Err (WithField (Validation "Caption is too long") "caption" "exceeds the maximum length")
  else if bool_decide (in_Type i = TypeText) && bool_decide (content = ""%string)
       && bool_decide (in_Attachments i = []) then
    Err (WithField (Validation "Message is empty") "content" "must not be empty")
  else match validateTypedPayload now (in_Type i) (in_Payload i) with
  | Err e => Err e
  | Ok payload =>
    if raw_invalid (in_Entities i) then
      Err (WithField (Validation "entities is not valid JSON") "entities" "invalid JSON")
    else if raw_invalid payload then
      Err (WithField (Validation "payload is not valid JSON") "payload" "invalid JSON")
    else if raw_invalid (in_ReplyMarkup i) then
      Err (WithField (Validation "reply_markup is not valid JSON") "reply_markup" "invalid JSON")
    else Ok (MkSendInput (in_ChatID i) (in_SenderID i) (in_ClientMessageID i) (in_Type i) content
      (in_Entities i) payload (in_ReplyToID i) (in_Attachments i) (in_Mentions i)
      (in_Forward i) (in_ReplyMarkup i) (in_IsSilent i) (in_TopicID i))
  end.

(** [checkSendPermission]: [None] is [nil]. *)
Definition checkSendPermission (cx : ChatContext) (type : string) : option Error :=
  let p := ctx_permissions cx in
  if bool_decide (ctx_chat_type cx = ChatSecret) then
    Some (WithField (Validation
      "That chat is encrypted, so messages must be sent through the encrypted path")
      "chat_id" "is a secret chat")
  else if negb (SendMessages p) then
    Some (Forbidden CodePermissionDenied "You cannot post in this chat")
  else if bool_decide (type ∈ [TypeImage; TypeVideo; TypeAudio; TypeVoice]) && negb (SendMedia p) then
    Some (Forbidden CodePermissionDenied "You cannot send media in this chat")
  else if bool_decide (type = TypeFile) && negb (SendFiles p) then
    Some (Forbidden CodePermissionDenied "You cannot send files in this chat")
  else if bool_decide (type = TypePoll) && negb (SendPolls p) then
    Some (Forbidden CodePermissionDenied "You cannot create polls in this chat")
  else if bool_decide (type ∈ [TypeSticker; TypeGIF]) && negb (SendStickers p) then
    Some (Forbidden CodePermissionDenied "You cannot send stickers in this chat")
  else None.

Definition refuse (o : option Error) : handler () := λ w,
  match o with Some e => (Err e, w) | None => (Ok (), w) end.

(** [int(d.Seconds())] *)
Definition int_seconds (d : Z) : Z := Z.quot d second.

(** ** Guards *)

Definition check_rate (now : time) (sender : uuid) : handler () := λ w,
  let '(res, l) := limiter_allow now sender (w_limiter w) in
  let w := set_limiter l w in
  if Allowed res then (Ok (), w)
  else (Err (RateLimited (int_seconds (RetryAfter res))),
        set_guard (guard_rate_limited now sender <$> w_guard w) w).

Definition checkNotRestricted (now : time) (cx : ChatContext) (sender : uuid) (w : world G L)
    : option Error :=
  match w_guard w with
  | None => None
  | Some g =>
      if negb (bool_decide (ctx_chat_type cx = ChatPrivate))
         && negb (bool_decide (ctx_chat_type cx = ChatSecret)) then None
      else match guard_restricted now sender g with
      | None => None
      | Some until =>
          if PeerKnowsSender (ctx_chat_id cx) sender (w_db w) then None
          else
            let denial := Forbidden CodeForbidden
              "Your account is temporarily limited to people who have you in their contacts" in
            Some (if 0 <? until - now
                  then set_retry_after denial (int_seconds (until - now) + 1) else denial)
      end
  end.

Definition checkSlowMode (now : time) (cx : ChatContext) (i : SendInput) (d : db) : option Error :=
  if (0 <? ctx_slow_mode cx) && bool_decide (ctx_role cx = RoleMember) then
    match LastSendAt (in_ChatID i) (in_SenderID i) d with
    | None => None
    | Some lastAt =>
        let wait := ctx_slow_mode cx * second - (now - lastAt) in
        if 0 <? wait
        then Some (set_retry_after
               (Forbidden CodeSlowModeActive "Slow mode is active in this chat")
               (int_seconds wait + 1))
        else None
    end
  else None.

Definition topic_error (e : dberr) : Error :=
  match e with ErrTopicNotFound => NotFound CodeNotFound "No such topic" | _ => Internal end.

Definition resolveTopic (cx : ChatContext) (i : SendInput) : handler (option uuid) := λ w,
  if negb (bool_decide (ctx_chat_type cx = ChatGroup)) then (Ok None, w)
  else if negb (IsForum (ctx_chat_id cx) (w_db w)) then (Ok None, w)
  else match in_TopicID i with
  | None => (Ok (GeneralTopic (ctx_chat_id cx) (w_db w)), w)
  | Some topicID =>
      (topic ← repo (TopicByID (ctx_chat_id cx) topicID) topic_error;
       fail_if (t_is_closed topic && negb (EditGroup (ctx_permissions cx)))
         (Forbidden CodeForbidden "That topic is closed");;
       mret (Some topicID)) w
  end.

(** ** What goes out *)

Definition publishChat (chatID : uuid) (event : string) (payload : event_payload) : handler () :=
  emit [PublishChat chatID event payload].

Definition broadcast (chatID : uuid) (event : string) (recipients : list uuid)
    (seqs : gmap uuid Z) (fannedOut : bool) (payload : event_payload) : handler () :=
  emit ((λ u, PublishUser u event payload (seqs !! u)) <$> recipients);;
  (if fannedOut then mret () else publishChat chatID event payload).

Definition indexForSearch (cx : ChatContext) (m : Message) : handler () :=
  if bool_decide (ctx_chat_type cx = ChatSecret) || bool_decide (mContent m = ""%string)
  then mret () else emit [IndexMessage (mEditedAt m) m].
Definition removeFromSearch (messageID : uuid) : handler () := emit [DeindexMessage messageID].
Definition notifyObservers (m : Message) : handler () := λ w,
  emit ((λ n, Observed n m) <$> seq 0 (w_observers w)) w.

(** ** Handlers *)

Definition send_params (i : SendInput) (topicID : option uuid) : SendParams :=
  MkSendParams (in_ChatID i) (in_SenderID i) (in_ClientMessageID i) (in_Type i) (in_Content i)
    (in_Entities i) (in_Payload i) (in_ReplyToID i) (in_Attachments i) (in_Mentions i)
    (in_Forward i) (in_ReplyMarkup i) (in_IsSilent i) false topicID.

Definition Service_Send (now : time) (new_id : uuid) (before after : db → db) (i : SendInput)
    : handler Message :=
  i ← (λ w, (validateSend now i, w)) : handler SendInput;
  cx ← repo (ChatContextFor (in_ChatID i) (in_SenderID i)) chat_not_found;
  fail_if (negb (ctx_is_member cx)) not_member_error;;
  refuse (checkSendPermission cx (in_Type i));;
  check_rate now (in_SenderID i);;
  restricted ← gets (checkNotRestricted now cx (in_SenderID i));
  refuse restricted;;
  slow ← gets (λ w, checkSlowMode now cx i (w_db w));
  refuse slow;;
  topicID ← resolveTopic cx i;
  res ← repo (Send now new_id before after (send_params i topicID)) chat_not_found;
  if sr_Duplicate res then mret (sr_Message res)
  else
    broadcast (ctx_chat_id cx) EventMessageNew (sr_Recipients res) (sr_EventSeqs res)
      (sr_FannedOut res) (PayloadMessage (in_ChatID i) (sr_Message res));;
    notifyObservers (sr_Message res);;
    indexForSearch cx (sr_Message res);;
    mret (sr_Message res).

Definition OpenPrivateChat (now : time) (new_id : uuid) (before after : db → db)
    (userID peerID : uuid) : handler uuid :=
  r ← repo (EnsurePrivateChat now new_id before after userID peerID) internal_error;
  mret r.1.

Definition Service_History (chatID userID : uuid) (beforeSeq afterSeq : option Z) (limit : Z)
    : handler (list Message) :=
  let limit := if (limit <=? 0) || (MaxHistoryPageSize <? limit) then 50 else limit in
  cx ← repo (ChatContextFor chatID userID) chat_not_found;
  fail_if (negb (ctx_is_member cx)) not_member_error;;
  gets (λ w, History (MkHistoryQuery chatID userID beforeSeq afterSeq limit None None) (w_db w)).

Definition clear_error (e : dberr) : Error :=
  match e with
  | ErrNotFound => NotFound CodeChatNotFound "Chat not found"
  | ErrNotMember => not_member_error
  | _ => Internal
  end.

Definition Service_ClearHistory (now : time) (chatID actorID : uuid) (forEveryone : bool)
    : handler Z :=
  cx ← repo (ChatContextFor chatID actorID) chat_not_found;
  fail_if (negb (ctx_is_member cx)) not_member_error;;
  fail_if (forEveryone
      && negb (bool_decide (ctx_chat_type cx = ChatPrivate))
      && negb (bool_decide (ctx_chat_type cx = ChatSecret))
      && negb (DeleteMessages (ctx_permissions cx)))
    (Forbidden CodeForbidden "You cannot clear this chat for everyone");;
  r ← repo (ClearHistory now chatID actorID forEveryone) clear_error;
  broadcast chatID EventChatHistoryCleared r.2 ∅ true (PayloadCleared chatID r.1 forEveryone);;
  mret r.1.

Definition Service_Edit (now : time) (messageID editorID : uuid) (content : string) (entities : raw)
    : handler Message :=
  let content := trim_space content in
  fail_if (bool_decide (content = ""%string))
    (WithField (Validation "Message is empty") "content" "must not be empty");;
  fail_if (MaxContentRunes <? rune_count content)
    (WithField (Validation "Message is too long") "content" "exceeds the maximum length");;
  existing ← repo (MessageByID messageID) message_not_found;
  fail_if (bool_decide (is_Some (mDeletedAt existing)))
    (NotFound CodeMessageNotFound "Message not found");;
  fail_if (negb (bool_decide (mSenderID existing = Some editorID)))
    (Forbidden CodeForbidden "You can only edit your own messages");;
  fail_if (EditWindow <? now - mCreatedAt existing)
    (Forbidden CodeMessageTooOld "This message is too old to edit");;
  cx ← repo (ChatContextFor (mChatID existing) editorID) internal_error;
  r ← repo (Edit now messageID editorID content entities) message_not_found;
  broadcast (mChatID existing) EventMessageEdited r.2 ∅ false
    (PayloadMessage (mChatID existing) r.1);;
  indexForSearch cx r.1;;
  mret r.1.

(** The deletion and what follows it; a message gone meanwhile is a success. *)
Definition delete_and_tell (now : time) (chatID messageID actorID : uuid) : handler () := λ w,
  match Delete now messageID actorID (w_db w) with
  | (Ok (deletedIn, seq, recipients), d) =>
      (broadcast chatID EventMessageDeleted recipients ∅ false
         (PayloadDeleted deletedIn messageID seq);;
       removeFromSearch messageID) (set_db d w)
  | (Err ErrNotFound, d) => (Ok (), set_db d w)
  | (Err _, d) => (Err Internal, set_db d w)
  end.

Definition Service_Delete (now : time) (messageID actorID : uuid) : handler () :=
  existing ← repo (MessageByID messageID) message_not_found;
  if bool_decide (is_Some (mDeletedAt existing)) then mret ()
  else
    cx ← repo (ChatContextFor (mChatID existing) actorID) internal_error;
    fail_if (negb (ctx_is_member cx)) not_member_error;;
    fail_if (negb (bool_decide (mSenderID existing = Some actorID))
             && negb (DeleteMessages (ctx_permissions cx)))
      (Forbidden CodeForbidden "You cannot delete this message");;
    delete_and_tell now (ctx_chat_id cx) messageID actorID.

Definition member_error (e : dberr) : Error :=
  match e with ErrNotMember => not_member_error | _ => Internal end.

Definition Service_MarkRead (now : time) (chatID userID : uuid) (uptoSeq : Z) : handler Z :=
  r ← repo (MarkRead chatID userID uptoSeq) member_error;
  modify (λ w, set_db (RecordReads now chatID userID r.2 r.1 MaxReadReceiptWrites (w_db w)) w);;
  publishChat chatID EventMessageRead (PayloadRead chatID userID r.1);;
  mret r.1.

Definition Service_ReadReceipts (messageID viewerID : uuid) (limit : Z) : handler (list ReadReceipt) :=
  let limit := if (limit <=? 0) || (MaxReadReceipts <? limit) then MaxReadReceipts else limit in
  message ← repo (MessageByID messageID) message_not_found;
  cx ← repo (ChatContextFor (mChatID message) viewerID) internal_error;
  fail_if (negb (ctx_is_member cx)) (NotFound CodeMessageNotFound "Message not found");;
  gets (λ w, ReadReceipts messageID limit (w_db w)).

Definition Service_React (now : time) (messageID userID : uuid) (emoji : string) : handler bool :=
  let emoji := trim_space emoji in
  fail_if (bool_decide (emoji = ""%string) || (8 <? rune_count emoji))
    (WithField (Validation "Reaction is not valid") "emoji" "must be a single emoji");;
  message ← repo (MessageByID messageID) message_not_found;
  cx ← repo (ChatContextFor (mChatID message) userID) internal_error;
  fail_if (negb (ctx_is_member cx)) not_member_error;;
  r ← repo (React now messageID userID emoji) message_not_found;
  publishChat r.2 EventMessageReaction (PayloadReaction r.2 messageID userID emoji r.1);;
  mret r.1.

Definition SetTyping (chatID userID : uuid) (typing : bool) : handler () :=
  cx ← repo (ChatContextFor chatID userID) chat_not_found;
  fail_if (negb (ctx_is_member cx)) not_member_error;;
  publishChat chatID (if typing then EventTypingStart else EventTypingStop)
    (PayloadTyping chatID userID).

Definition Service_SetDraft (chatID userID : uuid) (draft : string) : handler () :=
  fail_if (MaxContentRunes <? rune_count draft)
    (WithField (Validation "Draft is too long") "draft" "exceeds the maximum length");;
  repo (SetDraft chatID userID draft) member_error.
End service.
