(* ===== verification/MessagingTheory.v ===== *)
(** * What the messaging service guarantees

    Theorems about [MessagingService]: who may send, edit, delete and react, what
    a refusal leaves behind, slow mode, restricted accounts, and that every
    frame pushed to a device is backed by the durable log. *)

From stdpp Require Import base tactics list sorting relations gmap strings.
From Stdlib Require Import ZArith Lia.
From S2P Require Import Prelude GoString Httpx Permissions Store ChatContext EventLog MessageRepo MessageTheory RateLimit Ports Antispam Payloads MessagingService.

Set Default Goal Selector "!".
Open Scope Z_scope.

Section service_facts.
Context `{SpamGuard G} `{MessageLimiter L} `{PayloadCodec}.
Implicit Types (w : world G L).

Lemma set_db_same w : set_db (w_db w) w = w.
Proof. by destruct w. Qed.

Lemma repo_Ok_inv {A} (m : prog db dberr A) h w a w' :
  repo m h w = (Ok a, w') → ∃ d, m (w_db w) = (Ok a, d) ∧ w' = set_db d w.
Proof. unfold repo. destruct (m (w_db w)) as [[x|e] d]; [|done]. intros [= <- <-]. eauto. Qed.

(** A repository read that succeeds leaves the world as it was. *)
Lemma repo_context_inv ch u h w cx w' :
  repo (ChatContextFor ch u) h w = (Ok cx, w') → w' = w ∧ chat_context (w_db w) ch u = Some cx.
Proof.
  intros (d & Hrun & ->)%repo_Ok_inv. apply ChatContextFor_Ok in Hrun as [-> Hcx].
  by rewrite set_db_same.
Qed.

Lemma repo_message_inv id h w m w' :
  repo (MessageByID id) h w = (Ok m, w') →
  w' = w ∧ ∃ r, messages (w_db w) !! id = Some r ∧ m = base_message id r.
Proof.
  intros (d & Hrun & ->)%repo_Ok_inv. unfold MessageByID in Hrun.
  destruct (messages (w_db w) !! id) as [r|]; [|done]. injection Hrun as <- <-.
  rewrite set_db_same. eauto.
Qed.

Lemma refuse_Ok_inv o w u w' : refuse o w = (Ok u, w') → o = None ∧ w' = w.
Proof. unfold refuse. destruct o; [done|]. by intros [= _ <-]. Qed.

Lemma check_rate_Ok_inv now sender w u w' :
  check_rate now sender w = (Ok u, w') →
  Allowed (limiter_allow now sender (w_limiter w)).1 = true ∧
  w' = set_limiter (limiter_allow now sender (w_limiter w)).2 w.
Proof.
  unfold check_rate. destruct (limiter_allow now sender (w_limiter w)) as [res l]. simpl.
  destruct (Allowed res); [|done]. by intros [= _ <-].
Qed.

Lemma resolveTopic_Ok_inv cx i w t w' : resolveTopic cx i w = (Ok t, w') → w' = w.
Proof.
  unfold resolveTopic. destruct (negb _); [by intros [= _ <-]|]. destruct (negb _); [by intros [= _ <-]|].
  destruct (in_TopicID i); [|by intros [= _ <-]]. intros Hrun. prog_inv.
  match goal with H : repo _ _ _ = _ |- _ => apply repo_Ok_inv in H as (d & Hrun & ->) end.
  revert Hrun. unfold TopicByID. destruct (forum_topics _ !! _); [|done].
  destruct (bool_decide _ && _); [|done]. intros [= _ <-]. apply set_db_same.
Qed.

(** What [validateSend] lets through. *)
Record valid_input (i j : SendInput) : Prop := {
  val_type : in_Type i ∈ ValidMessageTypes;
  val_system : in_Type i ≠ TypeSystem;
  val_client : in_ClientMessageID i ≠ uuid_nil;
  val_content : in_Content j = trim_space (in_Content i);
  val_length : rune_count (in_Content j) ≤ MaxContentRunes;
  val_attachments : Z.of_nat (length (in_Attachments i)) ≤ MaxAttachments;
  val_mentions : Z.of_nat (length (in_Mentions i)) ≤ MaxMentions;
  val_body : in_Type i = TypeText → in_Content j ≠ ""%string ∨ in_Attachments i ≠ [];
  val_same : in_ChatID j = in_ChatID i ∧ in_SenderID j = in_SenderID i ∧ in_Type j = in_Type i
    ∧ in_ClientMessageID j = in_ClientMessageID i ∧ in_Attachments j = in_Attachments i
    ∧ in_Mentions j = in_Mentions i;
}.

Lemma validateSend_Ok now i j : validateSend now i = Ok j → valid_input i j.
Proof.
  unfold validateSend.
  case_bool_decide as H1'; [done|]. case_bool_decide as H2'; [done|]. case_bool_decide as H3'; [done|].
  destruct (MaxContentRunes <? _) eqn:H4'; [done|]. destruct (MaxAttachments <? _) eqn:H5'; [done|].
  destruct (MaxMentions <? _) eqn:H6'; [done|]. destruct (existsb _ _); [done|].
  destruct (bool_decide (in_Type i = TypeText) && _ && _) eqn:H7'; [done|].
  destruct (validateTypedPayload _ _ _); [|done]. destruct (raw_invalid _); [done|].
  destruct (raw_invalid _); [done|]. destruct (raw_invalid _); [done|].
  intros [= <-]. rewrite Z.ltb_ge in *. split; simpl; try done.
  intros Htext. rewrite (bool_decide_true _ Htext) in H7'. simpl in H7'.
  apply andb_false_iff in H7' as [?%bool_decide_eq_false|?%bool_decide_eq_false]; auto.
Qed.

(** The permission a message type needs besides posting. *)
Definition type_permission (type : string) (p : Permissions) : bool :=
  if bool_decide (type ∈ [TypeImage; TypeVideo; TypeAudio; TypeVoice]) then SendMedia p
  else if bool_decide (type = TypeFile) then SendFiles p
  else if bool_decide (type = TypePoll) then SendPolls p
  else if bool_decide (type ∈ [TypeSticker; TypeGIF]) then SendStickers p
  else true.

Lemma checkSendPermission_None cx type :
  checkSendPermission cx type = None ↔
  ctx_chat_type cx ≠ ChatSecret ∧ SendMessages (ctx_permissions cx) = true ∧
  type_permission type (ctx_permissions cx) = true.
Proof.
  unfold checkSendPermission, type_permission.
  case_bool_decide as Hs; [naive_solver|].
  destruct (SendMessages _); simpl; [|naive_solver].
  case_bool_decide as Hmedia; simpl.
  - destruct (SendMedia _); simpl; [|naive_solver].
    rewrite !elem_of_cons, elem_of_nil in Hmedia.
    rewrite !bool_decide_false; [naive_solver|..];
      rewrite ?elem_of_cons, ?elem_of_nil; by destruct Hmedia as [->|[->|[->|[->|[]]]]]; naive_solver.
  - case_bool_decide as Hfile; simpl.
    + destruct (SendFiles _); simpl; [|naive_solver]. subst type.
      rewrite !bool_decide_false; [naive_solver|..]; rewrite ?elem_of_cons, ?elem_of_nil; naive_solver.
    + case_bool_decide as Hpoll; simpl.
      * destruct (SendPolls _); simpl; [|naive_solver]. subst type.
        rewrite !bool_decide_false; [naive_solver|..]; rewrite ?elem_of_cons, ?elem_of_nil; naive_solver.
      * case_bool_decide; destruct (SendStickers _); naive_solver.
Qed.
End service_facts.

(** [service_inv] takes a successful handler apart, naming what each step checked. *)
Ltac service_inv :=
  prog_inv;
  repeat match goal with
  | H : repo (ChatContextFor _ _) _ _ = (Ok _, _) |- _ =>
      apply repo_context_inv in H; destruct H as [-> ?]
  | H : repo (MessageByID _) _ _ = (Ok _, _) |- _ =>
      apply repo_message_inv in H; destruct H as (-> & ? & ? & ->)
  | H : refuse _ _ = (Ok _, _) |- _ => apply refuse_Ok_inv in H; destruct H as [? ->]
  | H : check_rate _ _ _ = (Ok _, _) |- _ => apply check_rate_Ok_inv in H; destruct H as [? ->]
  | H : resolveTopic _ _ _ = (Ok _, _) |- _ => apply resolveTopic_Ok_inv in H as ->
  end.

(** ** Sending *)
Section sending.
Context `{SpamGuard G} `{MessageLimiter L} `{PayloadCodec}.
Implicit Types (w : world G L).

(** The checks of [Service_Send], in the world [w] of the request. *)
Record send_allowed (now : time) (i : SendInput) (w : world G L) (cx : ChatContext) : Prop := {
  sa_context : chat_context (w_db w) (in_ChatID i) (in_SenderID i) = Some cx;
  sa_member : ctx_is_member cx = true;
  sa_plain : ctx_chat_type cx ≠ ChatSecret;
  sa_post : SendMessages (ctx_permissions cx) = true;
  sa_type : type_permission (in_Type i) (ctx_permissions cx) = true;
  sa_rate : Allowed (limiter_allow now (in_SenderID i) (w_limiter w)).1 = true;
  sa_known : ∀ g until, w_guard w = Some g → ctx_chat_type cx = ChatPrivate →
    guard_restricted now (in_SenderID i) g = Some until →
    PeerKnowsSender (ctx_chat_id cx) (in_SenderID i) (w_db w) = true;
  sa_slow : ∀ t, 0 < ctx_slow_mode cx → ctx_role cx = RoleMember →
    LastSendAt (in_ChatID i) (in_SenderID i) (w_db w) = Some t → t + ctx_slow_mode cx * second ≤ now;
}.

Lemma checkNotRestricted_None now cx sender w :
  checkNotRestricted now cx sender w = None →
  ∀ g until, w_guard w = Some g → ctx_chat_type cx = ChatPrivate →
    guard_restricted now sender g = Some until → PeerKnowsSender (ctx_chat_id cx) sender (w_db w) = true.
Proof.
  unfold checkNotRestricted. intros Hnone g until Hg Hty Hr. rewrite Hg, Hty, Hr in Hnone.
  rewrite bool_decide_true in Hnone by done. simpl in Hnone.
  by destruct (PeerKnowsSender _ _ _).
Qed.

Lemma checkSlowMode_None now cx i d :
  checkSlowMode now cx i d = None →
  ∀ t, 0 < ctx_slow_mode cx → ctx_role cx = RoleMember →
    LastSendAt (in_ChatID i) (in_SenderID i) d = Some t → t + ctx_slow_mode cx * second ≤ now.
Proof.
  unfold checkSlowMode. intros Hnone t Hslow Hrole Hlast.
  rewrite (proj2 (Z.ltb_lt _ _) Hslow), bool_decide_true, Hlast in Hnone by done. simpl in Hnone.
  destruct (0 <? _) eqn:Hwait; [done|]. apply Z.ltb_ge in Hwait. lia.
Qed.

Lemma PeerKnowsSender_spec ch sender d :
  PeerKnowsSender ch sender d = true ↔
  ∀ u, u ≠ sender → u ∈ ChatMemberIDs ch d → (u, sender) ∈ contacts d.
Proof.
  unfold PeerKnowsSender. rewrite forallb_forall. split.
  - intros Hall u Hne (m & Hm & Hl)%elem_of_ChatMemberIDs.
    specialize (Hall ((ch, u), m)). apply bool_decide_eq_true in Hall; [done|].
    apply list_elem_of_In, elem_of_rows_where. split; [done|]. simpl.
    rewrite (proj2 (active_in_true ch (ch, u) m) (conj eq_refl Hl)). simpl.
    by rewrite bool_decide_false.
  - intros Hall [[c u] m] Hin%list_elem_of_In. apply elem_of_rows_where in Hin as [Hm Hcond].
    apply andb_true_iff in Hcond as [Hact Hne]. apply active_in_true in Hact as [Hc Hl].
    simpl in *. subst c. apply negb_true_iff, bool_decide_eq_false in Hne.
    apply bool_decide_eq_true. apply Hall; [done|]. apply elem_of_ChatMemberIDs. eauto.
Qed.

Lemma Service_Send_Ok_inv now id before after i w m w' :
  Service_Send now id before after i w = (Ok m, w') →
  ∃ j cx topicID res d,
    validateSend now i = Ok j ∧ send_allowed now i w cx ∧
    Send now id before after (send_params j topicID) (w_db w) = (Ok res, d) ∧
    m = sr_Message res ∧ w_db w' = d ∧
    w_out w' = w_out w ++ if sr_Duplicate res then [] else
      ((λ u, PublishUser u EventMessageNew (PayloadMessage (in_ChatID i) m) (sr_EventSeqs res !! u))
         <$> sr_Recipients res) ++
      (if sr_FannedOut res then []
       else [PublishChat (in_ChatID i) EventMessageNew (PayloadMessage (in_ChatID i) m)]) ++
      ((λ n, Observed n m) <$> seq 0 (w_observers w)) ++
      (if bool_decide (mContent m = ""%string) then [] else [IndexMessage (mEditedAt m) m]).
Proof.
  unfold Service_Send. intros Hrun. apply bind_Ok_inv in Hrun as (j & w0 & Hval & Hrun).
  destruct (validateSend now i) as [j'|] eqn:Hv; [|done]. injection Hval as -> <-.
  pose proof (validateSend_Ok _ _ _ Hv) as [_ _ _ _ _ _ _ _ (Hch & Hse & Hty & _)].
  service_inv.
  match goal with H : repo (Send _ _ _ _ _) _ _ = _ |- _ => apply repo_Ok_inv in H as (d & Hsend & ->) end.
  match goal with H : chat_context _ _ _ = Some ?x |- _ => rename x into cx, H into Hcx end.
  match goal with H : negb (ctx_is_member cx) = false |- _ => apply negb_false_iff in H; rename H into Hmem end.
  match goal with H : checkSendPermission _ _ = None |- _ =>
    apply checkSendPermission_None in H as (Hsec & Hpost & Hperm) end.
  pose proof (chat_context_chat _ _ _ _ Hcx) as [Hid _].
  match type of Hsend with Send _ _ _ _ (send_params _ ?t) _ = (Ok ?x, _) => exists j, cx, t, x, d end.
  rewrite Hch, Hse, Hty in *.
  split; [done|]. split.
  { split; try done.
    - eapply checkNotRestricted_None. eassumption.
    - match goal with H : checkSlowMode _ _ _ _ = None |- _ =>
        pose proof (checkSlowMode_None _ _ _ _ H) as Hslow end.
      rewrite Hch, Hse in Hslow. exact Hslow. }
  split; [done|].
  match goal with H : (if sr_Duplicate ?x then _ else _) _ = _ |- _ => rename x into res, H into Hrest end.
  destruct (sr_Duplicate res).
  - injection Hrest as <- <-. split; [done|]. split; [done|]. simpl. by rewrite app_nil_r.
  - unfold broadcast, emit, notifyObservers, indexForSearch in Hrest.
    rewrite (bool_decide_false _ Hsec) in Hrest. rewrite Hid in Hrest. revert Hrest. prog_run.
    destruct (decide (mContent (sr_Message res) = ""%string)) as [Heq|Hne];
      [rewrite (bool_decide_true _ Heq)|rewrite (bool_decide_false _ Hne)];
      destruct (sr_FannedOut res); simpl; intros [= <- <-];
      (split; [done|split; [done|]]);
      rewrite ?(bool_decide_true _ Heq), ?(bool_decide_false _ Hne) by done; simpl;
      by rewrite <-?app_assoc, ?app_nil_r.
Qed.
End sending.

(** C6: A message is only ever stored through [Send] by someone entitled to: success
    means the sender is a current member of a chat that is not encrypted, holds the
    posting permission and the one its type needs, was let through by the limiter,
    is not a restricted account writing to a stranger, and, in the role of a plain
    member, has waited out slow mode; and either what is stored under the request's key, and
    answered, is the content without the blanks around it, bounded and not empty for a
    text, or a message was under that key before and nothing is stored. *)
Theorem Service_Send_authorised `{SpamGuard G} `{MessageLimiter L} `{PayloadCodec}
    now id before after i (w : world G L) m w' :
  Service_Send now id before after i w = (Ok m, w') →
  ∃ cx mem, chat_context (w_db w) (in_ChatID i) (in_SenderID i) = Some cx ∧
    active_member (w_db w) (in_ChatID i) (in_SenderID i) = Some mem ∧
    ctx_chat_type cx ≠ ChatSecret ∧ SendMessages (ctx_permissions cx) = true ∧
    type_permission (in_Type i) (ctx_permissions cx) = true ∧
    in_Type i ∈ ValidMessageTypes ∧ in_Type i ≠ TypeSystem ∧ in_ClientMessageID i ≠ uuid_nil ∧
    rune_count (trim_space (in_Content i)) ≤ 8000 ∧ Z.of_nat (length (in_Attachments i)) ≤ 10 ∧
    (in_Type i = TypeText → trim_space (in_Content i) ≠ ""%string ∨ in_Attachments i ≠ []) ∧
    Allowed (limiter_allow now (in_SenderID i) (w_limiter w)).1 = true ∧
    (∀ g until, w_guard w = Some g → ctx_chat_type cx = ChatPrivate →
       guard_restricted now (in_SenderID i) g = Some until →
       ∀ u, u ≠ in_SenderID i → u ∈ ChatMemberIDs (in_ChatID i) (w_db w) →
         (u, in_SenderID i) ∈ contacts (w_db w)) ∧
    (∀ t, 0 < ctx_slow_mode cx → ctx_role cx = RoleMember →
       LastSendAt (in_ChatID i) (in_SenderID i) (w_db w) = Some t →
       t + ctx_slow_mode cx * second ≤ now) ∧
    ∃ row, messages (w_db w') !! mID m = Some row ∧ r_chat_id row = in_ChatID i ∧
      r_sender_id row = Some (in_SenderID i) ∧ r_client_message_id row = in_ClientMessageID i ∧
      ((mID m = id ∧ messages (before (w_db w)) !! id = None ∧ r_type row = in_Type i ∧ r_content row = trim_space (in_Content i) ∧
          mContent m = r_content row) ∨
       (w_db w' = w_db w ∨ w_db w' = after (before (w_db w)))).
Proof.
  intros (j & cx & topicID & res & d & Hval & [Hcx Hmem Hsec Hpost Hty Hrate Hknown Hslow] & Hsend & -> & <- & _)%Service_Send_Ok_inv.
  pose proof (validateSend_Ok _ _ _ Hval) as [Ht Hs Hc Hcont Hlen Hatt Hment Hbody (Hch & Hse & Hjt & Hjc & _)].
  destruct (chat_context_member _ _ _ _ Hcx Hmem) as (mem & Hactive & _).
  pose proof (chat_context_chat _ _ _ _ Hcx) as [Hid _].
  exists cx, mem. pose proof Hcont as Hcont'. rewrite Hcont in Hlen, Hbody. do 12 (split; [done|]). split; [|split; [done|]].
  - intros g until Hg Hpriv Hr. apply PeerKnowsSender_spec. rewrite <-Hid. by eapply Hknown.
  - apply Send_answers in Hsend as [[Hbody' _]|(_ & Hd & k & row & Hk & Hkey & ->)].
    + apply send_body_stores in Hbody' as (Hnew & _ & row & Hm & -> & Hrc & Hrt & Hrch & Hrcl & Hrs). simpl in *.
      exists row. rewrite Hm, lookup_insert_eq. split_and!; try congruence. left. split_and!; congruence.
    + exists row. apply idempotency_key_true in Hkey as (? & ? & ?). simpl in *. split_and!; try congruence.
      by right.
Qed.

(** Nothing is ever written to an encrypted chat through [Send], edits of the
    request notwithstanding: in a secret chat every send is refused, and the world is
    left exactly as it was. *)
Lemma Service_Send_secret `{SpamGuard G} `{MessageLimiter L} `{PayloadCodec}
    now id before after i (w : world G L) c :
  live_chat (w_db w) (in_ChatID i) = Some c → c_type c = ChatSecret →
  ∃ e, Service_Send now id before after i w = (Err e, w).
Proof.
  intros Hc Hsecret. unfold Service_Send. unfold mbind at 1, prog_bind at 1.
  destruct (validateSend now i) as [j|e] eqn:Hval; [|by exists e].
  pose proof (validateSend_Ok _ _ _ Hval) as [_ _ _ _ _ _ _ _ (Hch & Hse & _)].
  unfold mbind at 1, prog_bind at 1, repo at 1, ChatContextFor. rewrite Hch, Hse.
  destruct (chat_context (w_db w) (in_ChatID i) (in_SenderID i)) as [cx|] eqn:Hcx.
  - rewrite set_db_same. pose proof (chat_context_chat _ _ _ _ Hcx) as [_ (c' & Hc' & Hty & _)].
    rewrite Hc in Hc'. injection Hc' as <-. rewrite Hsecret in Hty.
    unfold mbind at 1, prog_bind at 1, fail_if. destruct (negb _); [eauto|].
    unfold mbind at 1, prog_bind at 1, refuse at 1, checkSendPermission.
    rewrite (bool_decide_true _ Hty). eauto.
  - rewrite set_db_same. eauto.
Qed.

Lemma Send_new_inv now id before after p d r d' :
  Send now id before after p d = (Ok r, d') → sr_Duplicate r = false →
  send_body now id p (before d) = (Ok r, d').
Proof.
  unfold Send. destruct (if sp_AsChat p then _ else _) as [m|e]; [by intros [= <- <-]|].
  case_decide; [|done]. destruct (in_tx _ _) as [[r0|e'] d1] eqn:Htx.
  - intros [= <- <-] _. by apply in_tx_Ok_inv in Htx.
  - destruct (is_unique_violation_of _ _); [|done].
    destruct (messageByClientID _ _ _ _) as [[|] ?]; [by intros [= <- <-]|done].
Qed.

Lemma elem_of_single_publish (b : bool) (o o' : output) : o ∈ (if b then [] else [o']) ↔ b = false ∧ o = o'.
Proof. destruct b; rewrite ?elem_of_nil, ?list_elem_of_singleton; naive_solver. Qed.

(** Everything pushed is backed by the log.  A duplicate send pushes nothing.  A new
    one puts one frame on the subject of each recipient, and on the chat's subject
    exactly when the chat is too large for per-member delivery; each member frame
    carries the number of an entry with that payload in that member's durable log. *)
Lemma Service_Send_frames `{SpamGuard G} `{MessageLimiter L} `{PayloadCodec}
    now id before after i (w : world G L) m w' :
  log_good (before (w_db w)) →
  Service_Send now id before after i w = (Ok m, w') →
  ∃ res new, w_out w' = w_out w ++ new ∧ sr_Message res = m ∧
    (sr_Duplicate res = true → new = []) ∧
    (sr_Duplicate res = false →
       (∀ u, (∃ ev p s, PublishUser u ev p s ∈ new) ↔ u ∈ sr_Recipients res) ∧
       ((∃ c ev p, PublishChat c ev p ∈ new) ↔ sr_FannedOut res = false)) ∧
    (∀ u ev p s, PublishUser u ev p s ∈ new →
       ev = EventMessageNew ∧ p = PayloadMessage (in_ChatID i) m ∧
       ∃ n, s = Some n ∧ user_events (w_db w') !! (u, n) = Some (MkEvent ev p now)).
Proof.
  intros Hlog (j & cx & topicID & res & d & Hval & Hall & Hsend & -> & <- & Hout)%Service_Send_Ok_inv.
  pose proof (validateSend_Ok _ _ _ Hval) as [_ _ _ _ _ _ _ _ (Hch & _)].
  exists res. eexists. split; [exact Hout|]. split; [done|].
  destruct (sr_Duplicate res) eqn:Hdup.
  { split; [done|]. split; [done|]. by intros ???? ?%not_elem_of_nil. }
  apply Send_new_inv in Hsend; [|done].
  destruct (send_body_events _ _ _ _ _ _ Hlog Hsend) as [Hrec Hev]. simpl in Hev. rewrite Hch in Hev.
  split; [done|]. split.
  - intros _. split.
    + intros u. split.
      * intros (ev & p & s & Hin). rewrite !elem_of_app, elem_of_single_publish in Hin.
        destruct Hin as [(u' & [= <- _ _ _] & Hu)%list_elem_of_fmap|[[_ [=]]|[Hin|Hin]]]; [done| |].
        -- by apply list_elem_of_fmap in Hin as (n & [=] & _).
        -- by apply elem_of_single_publish in Hin as [_ [=]].
      * intros Hu. do 3 eexists. rewrite elem_of_app. left. apply list_elem_of_fmap. eauto.
    + split.
      * intros (c & ev & p & Hin). rewrite !elem_of_app, elem_of_single_publish in Hin.
        destruct Hin as [(u' & [=] & Hu)%list_elem_of_fmap|[[Hf _]|[Hin|Hin]]]; [done| |].
        -- by apply list_elem_of_fmap in Hin as (n & [=] & _).
        -- by apply elem_of_single_publish in Hin as [_ [=]].
      * intros Hf. do 3 eexists. rewrite !elem_of_app. right. left. rewrite Hf. by left.
  - intros u ev p s Hin. rewrite !elem_of_app, elem_of_single_publish in Hin.
    destruct Hin as [(u' & [= <- -> -> ->] & Hu)%list_elem_of_fmap|[[_ [=]]|[Hin|Hin]]].
    + do 2 (split; [done|]). destruct (Hrec _ Hu) as [n Hn]. exists n. split; [done|].
      by apply Hev.
    + by apply list_elem_of_fmap in Hin as (n & [=] & _).
    + by apply elem_of_single_publish in Hin as [_ [=]].
Qed.

(** Slow mode names a sufficient wait: when it refuses, the seconds it names are at
    least one and not more than a second too many, and the same request made that much
    later, with nothing sent in between, passes the check. *)
Lemma slow_mode_wait_suffices now cx i d e :
  checkSlowMode now cx i d = Some e →
  Code e = CodeSlowModeActive ∧ 1 ≤ Httpx.RetryAfter e ∧
  checkSlowMode (now + Httpx.RetryAfter e * second) cx i d = None ∧
  (1 < Httpx.RetryAfter e → is_Some (checkSlowMode (now + (Httpx.RetryAfter e - 2) * second) cx i d)).
Proof.
  unfold checkSlowMode. destruct (_ && _); [|done].
  destruct (LastSendAt _ _ _) as [t|]; [|done].
  set (wait := ctx_slow_mode cx * second - (now - t)).
  destruct (0 <? wait) eqn:Hwait; [|done]. apply Z.ltb_lt in Hwait. intros [= <-]. simpl.
  unfold int_seconds. rewrite Z.quot_div_nonneg by (unfold second; lia).
  pose proof (Z.mul_div_le wait second ltac:(unfold second; lia)).
  pose proof (Z.mul_succ_div_gt wait second ltac:(unfold second; lia)).
  pose proof (Z.div_pos wait second ltac:(lia) ltac:(unfold second; lia)).
  split; [done|]. split; [lia|]. split.
  - rewrite (proj2 (Z.ltb_ge _ _)); [done|]. unfold wait in *. lia.
  - intros _. rewrite (proj2 (Z.ltb_lt _ _)); [eauto|]. unfold wait, second in *. lia.
Qed.

(** ** Refusals change nothing *)
Section atomicity.
Context `{SpamGuard G} `{MessageLimiter L} `{PayloadCodec}.
Implicit Types (w : world G L).

(** Only reads the database; leaves it alone when it fails; cannot fail. *)
Definition reads {A} (m : prog (world G L) Error A) : Prop := ∀ w, w_db (m w).2 = w_db w.
Definition atomic {A} (m : prog (world G L) Error A) : Prop :=
  ∀ w e, (m w).1 = Err e → w_db (m w).2 = w_db w.
Definition never_fails {A} (m : prog (world G L) Error A) : Prop := ∀ w, is_Ok (m w).1 = true.

Lemma reads_atomic {A} (m : prog (world G L) Error A) : reads m → atomic m.
Proof. by intros Hr w e _. Qed.
Lemma never_fails_atomic {A} (m : prog (world G L) Error A) : never_fails m → atomic m.
Proof. intros Hn w e He. specialize (Hn w). by rewrite He in Hn. Qed.

(** Reads first, then one atomic step. *)
Lemma bind_reads_atomic {A B} (m : prog (world G L) Error A) (f : A → prog (world G L) Error B) :
  reads m → (∀ a, atomic (f a)) → atomic (m ≫= f).
Proof.
  intros Hm Hf w e. unfold mbind, prog_bind. specialize (Hm w). destruct (m w) as [[a|e'] w1]; simpl in *.
  - rewrite <-Hm. apply Hf.
  - by rewrite Hm.
Qed.
(** One atomic step, then what cannot fail. *)
Lemma bind_atomic_total {A B} (m : prog (world G L) Error A) (f : A → prog (world G L) Error B) :
  atomic m → (∀ a, never_fails (f a)) → atomic (m ≫= f).
Proof.
  intros Hm Hf w e. unfold mbind, prog_bind. specialize (Hm w). destruct (m w) as [[a|e'] w1] eqn:Hrun; simpl in *.
  - intros He. specialize (Hf a w1). by rewrite He in Hf.
  - intros _. by apply (Hm e').
Qed.
Lemma bind_never_fails {A B} (m : prog (world G L) Error A) (f : A → prog (world G L) Error B) :
  never_fails m → (∀ a, never_fails (f a)) → never_fails (m ≫= f).
Proof.
  intros Hm Hf w. unfold mbind, prog_bind. specialize (Hm w). destruct (m w) as [[a|e] w1]; [apply Hf|done].
Qed.

Lemma reads_fail_if b e : reads (fail_if b e).
Proof. intros w. unfold fail_if. by destruct b. Qed.
Lemma reads_refuse o : reads (refuse o).
Proof. intros w. by destruct o. Qed.
Lemma reads_gets {A} (f : world G L → A) : reads (gets f).
Proof. by intros w. Qed.
Lemma reads_check_rate now u : reads (check_rate now u).
Proof. intros w. unfold check_rate. destruct (limiter_allow _ _ _) as [r l]. by destruct (Allowed r). Qed.
Lemma reads_context ch u h : reads (repo (ChatContextFor ch u) h).
Proof. intros w. unfold repo, ChatContextFor. by destruct (chat_context _ _ _). Qed.
Lemma reads_message id h : reads (repo (MessageByID id) h).
Proof. intros w. unfold repo, MessageByID. by destruct (messages _ !! _). Qed.
Lemma reads_topic cx i : reads (resolveTopic cx i).
Proof.
  intros w. unfold resolveTopic. destruct (negb _); [done|]. destruct (negb _); [done|].
  destruct (in_TopicID i) as [t|]; [|done]. unfold mbind, prog_bind, repo, TopicByID, fail_if.
  destruct (forum_topics _ !! t) as [row|]; [|done]. destruct (bool_decide _ && _); [|done].
  by destruct (t_is_closed row && _).
Qed.
Lemma reads_validate now i : reads (λ w, (validateSend now i, w)).
Proof. by intros w. Qed.

(** A repository method that keeps the database when it fails. *)
Definition rolls_back {A} (m : prog db dberr A) : Prop := ∀ d e d', m d = (Err e, d') → d' = d.

Lemma repo_atomic {A} (m : prog db dberr A) h : rolls_back m → atomic (repo m h).
Proof.
  intros Hm w e. unfold repo. destruct (m (w_db w)) as [[a|e'] d] eqn:Hrun; [done|].
  intros _. simpl. by eapply Hm.
Qed.

Lemma rolls_back_in_tx {A} (m : prog db dberr A) : rolls_back (in_tx m).
Proof. intros d e d'. apply in_tx_Err. Qed.

Lemma rolls_back_Send now id p : rolls_back (Send now id (λ d, d) (λ d, d) p).
Proof.
  intros d e d'. unfold Send. destruct (if sp_AsChat p then _ else _) as [m|e0]; [done|].
  case_decide; [|by intros [= _ <-]]. destruct (in_tx _ _) as [[r|e1] d1] eqn:Htx; [done|].
  apply in_tx_Err in Htx as ->. destruct (is_unique_violation_of _ _); [|by intros [= _ <-]].
  unfold messageByClientID. destruct (rows_where _ _) as [|[] ?]; [by intros [= _ <-]|done].
Qed.

Lemma rolls_back_MarkRead ch u upto : rolls_back (MarkRead ch u upto).
Proof. intros d e d'. unfold MarkRead. destruct (active_member d ch u); [done|by intros [= _ <-]]. Qed.

Lemma rolls_back_SetDraft ch u draft : rolls_back (SetDraft ch u draft).
Proof.
  intros d e d'. unfold SetDraft. destruct (active_member d ch u), (chats d !! ch);
    try (by intros [= _ <-]). by destruct (bool_decide _); intros [= _ <-].
Qed.

Lemma broadcast_never_fails ch ev us seqs f p : never_fails (broadcast (G := G) (L := L) ch ev us seqs f p).
Proof. intros w. unfold broadcast. by destruct f. Qed.
Lemma index_never_fails cx m : never_fails (indexForSearch (G := G) (L := L) cx m).
Proof. intros w. unfold indexForSearch. by destruct (_ || _). Qed.
End atomicity.

(** Discharges [atomic] of a handler: its reads one by one, then its one write. *)
Ltac atomic_handler :=
  repeat first
  [ apply bind_reads_atomic;
      [first [apply reads_fail_if | apply reads_refuse | apply reads_gets | apply reads_check_rate
        | apply reads_context | apply reads_message | apply reads_topic | apply reads_validate]
      |intros ?]
  | apply bind_atomic_total; [|intros ?] ].

(** Discharges [never_fails] of what follows the write. *)
Ltac total_handler :=
  repeat first
  [ apply broadcast_never_fails | apply index_never_fails | done
  | apply bind_never_fails; [|intros ?] ].

(** A handler that answers with an error has changed nothing in the database: sending,
    clearing, editing, deleting, marking read, reacting and drafting are each all or
    nothing. *)
Lemma service_errors_change_nothing `{SpamGuard G} `{MessageLimiter L} `{PayloadCodec}
    (now : time) (id u : uuid) :
  (∀ i, atomic (G := G) (L := L) (Service_Send now id (λ d, d) (λ d, d) i)) ∧
  (∀ ch all, atomic (G := G) (L := L) (Service_ClearHistory now ch u all)) ∧
  (∀ content ents, atomic (G := G) (L := L) (Service_Edit now id u content ents)) ∧
  atomic (G := G) (L := L) (Service_Delete now id u) ∧
  (∀ ch upto, atomic (G := G) (L := L) (Service_MarkRead now ch u upto)) ∧
  (∀ emoji, atomic (G := G) (L := L) (Service_React now id u emoji)) ∧
  (∀ ch draft, atomic (G := G) (L := L) (Service_SetDraft ch u draft)).
Proof.
  split; [|split; [|split; [|split; [|split; [|split]]]]].
  - intros i. unfold Service_Send. atomic_handler.
    + apply repo_atomic, rolls_back_Send.
    + destruct (sr_Duplicate _); [done|].
      total_handler.
  - intros ch all. unfold Service_ClearHistory. atomic_handler.
    + apply repo_atomic, rolls_back_in_tx.
    + apply bind_never_fails; [apply broadcast_never_fails|done].
  - intros content ents. unfold Service_Edit. cbv zeta. atomic_handler.
    + apply repo_atomic, rolls_back_in_tx.
    + total_handler.
  - unfold Service_Delete. apply bind_reads_atomic; [apply reads_message|intros m].
    destruct (bool_decide _); [done|]. atomic_handler.
    intros w e. unfold delete_and_tell. destruct (Delete _ _ _ _) as [[[[ch seq] us]|e'] d] eqn:Hdel.
    + done.
    + apply in_tx_Err in Hdel as ->. by destruct e'.
  - intros ch upto. unfold Service_MarkRead. atomic_handler; [apply repo_atomic, rolls_back_MarkRead|done].
  - intros emoji. unfold Service_React. cbv zeta. atomic_handler; [apply repo_atomic, rolls_back_in_tx|done].
  - intros ch draft. unfold Service_SetDraft. atomic_handler. apply repo_atomic, rolls_back_SetDraft.
Qed.

(** ** Who may change a message *)

(** Only its author edits a message, only while it exists and within 48 hours of
    sending it; and only its author or a member allowed to delete messages deletes
    it.  A second deletion changes nothing and pushes nothing. *)
Lemma edit_and_delete_authority `{SpamGuard G} `{MessageLimiter L} `{PayloadCodec}
    now id u (w : world G L) :
  (∀ content ents m w', Service_Edit now id u content ents w = (Ok m, w') →
     ∃ r, messages (w_db w) !! id = Some r ∧ r_sender_id r = Some u ∧ r_deleted_at r = None ∧
       now - r_created_at r ≤ 48 * hour ∧ trim_space content ≠ ""%string ∧
       rune_count (trim_space content) ≤ 8000) ∧
  (∀ w' r, Service_Delete now id u w = (Ok (), w') → live_message id (w_db w) = Some r →
     ∃ cx, chat_context (w_db w) (r_chat_id r) u = Some cx ∧ ctx_is_member cx = true ∧
       (r_sender_id r = Some u ∨ DeleteMessages (ctx_permissions cx) = true)) ∧
  (∀ r, messages (w_db w) !! id = Some r → r_deleted_at r ≠ None →
     Service_Delete now id u w = (Ok (), w)).
Proof.
  split; [|split].
  - intros content ents m w' Hrun. unfold Service_Edit in Hrun. cbv zeta in Hrun. service_inv.
    match goal with H : messages _ !! id = Some ?x |- _ => exists x; rename x into r, H into Hl end.
    split; [done|].
    match goal with H : bool_decide (is_Some _) = false |- _ => apply bool_decide_eq_false in H; rename H into Hdel end.
    match goal with H : negb _ = false |- _ => apply negb_false_iff, bool_decide_eq_true in H; rename H into Hown end.
    match goal with H : (EditWindow <? _) = false |- _ => apply Z.ltb_ge in H; rename H into Hwin end.
    match goal with H : (MaxContentRunes <? _) = false |- _ => apply Z.ltb_ge in H; rename H into Hlen end.
    match goal with H : bool_decide (_ = ""%string) = false |- _ => apply bool_decide_eq_false in H; rename H into Hne end.
    split; [done|]. split; [by apply eq_None_not_Some|]. done.
  - intros w' r Hrun [Hl Hlive]%live_message_Some. unfold Service_Delete in Hrun.
    apply bind_Ok_inv in Hrun as (m & w1 & Hm & Hrun). apply repo_message_inv in Hm as (-> & r' & Hr' & ->).
    rewrite Hl in Hr'. injection Hr' as <-. simpl in Hrun. rewrite Hlive in Hrun.
    rewrite bool_decide_false in Hrun by (by intros []). service_inv.
    match goal with H : chat_context _ _ _ = Some ?x |- _ => exists x; split; [exact H|] end.
    match goal with H : negb (ctx_is_member _) = false |- _ => apply negb_false_iff in H; split; [exact H|] end.
    match goal with H : negb _ && negb _ = false |- _ =>
      apply andb_false_iff in H as [H|H]; apply negb_false_iff in H end; [left|by right].
    by eapply bool_decide_eq_true.
  - intros r Hl Hdel. unfold Service_Delete, mbind, prog_bind, repo, MessageByID. rewrite Hl.
    rewrite set_db_same. simpl. destruct (r_deleted_at r); [|done]. done.
Qed.



(** ** Concrete runs *)
#[local] Existing Instance toy_codec.

Definition sample_world : world (gmap (string * string) Antispam.Score) limiter_state :=
  MkWorld sample_db (Some ∅) (MkLimiterState ∅ true true (NewRules sample_limits) 0) 1 [].
Definition sample_input (text : string) : SendInput :=
  MkSendInput 10 2 79 TypeText text RawNil RawNil None [] [] None RawNil false None.
(** The same database with the chat made secret. *)
Definition secret_world : world (gmap (string * string) Antispam.Score) limiter_state :=
  set_db (with_chats {[10%N := MkChat ChatSecret "" "" None None None 0 None None 2 false 0 None]} sample_db)
    sample_world.

Lemma Service_Send_authorised_witness :
  ∃ m w' cx, Service_Send minute 300 sample_env sample_env (sample_input " hi ") sample_world = (Ok m, w') ∧
    chat_context sample_db 10 2 = Some cx ∧ SendMessages (ctx_permissions cx) = true.
Proof.
  destruct (run_is_Ok (Service_Send minute 300 sample_env sample_env (sample_input " hi ")) sample_world)
    as [m Hrun]; [vm_compute; reflexivity|].
  destruct (Service_Send_authorised minute 300 sample_env sample_env (sample_input " hi ") sample_world m _ Hrun)
    as (cx & mem & Hcx & _ & _ & Hpost & _).
  eexists m, _, cx. split; [exact Hrun|]. split; [exact Hcx|exact Hpost].
Defined.

Lemma Service_Send_secret_witness :
  ∃ e, Service_Send minute 300 sample_env sample_env (sample_input "hi") secret_world = (Err e, secret_world).
Proof.
  apply (Service_Send_secret minute 300 sample_env sample_env (sample_input "hi") secret_world
    (MkChat ChatSecret "" "" None None None 0 None None 2 false 0 None)); reflexivity.
Defined.

Lemma Service_Send_frames_witness :
  ∃ m w' res new, Service_Send minute 300 sample_env sample_env (sample_input "hi") sample_world = (Ok m, w') ∧
    w_out w' = new ∧ sr_Message res = m.
Proof.
  destruct (run_is_Ok (Service_Send minute 300 sample_env sample_env (sample_input "hi")) sample_world)
    as [m Hrun]; [vm_compute; reflexivity|].
  destruct (Service_Send_frames minute 300 sample_env sample_env (sample_input "hi") sample_world m _
    (proj1 (proj2 sample_ok)) Hrun) as (res & new & Hout & Hm & _).
  eexists m, _, res, new. split; [exact Hrun|]. split; [exact Hout|exact Hm].
Defined.

Definition slow_context : ChatContext :=
  MkContext 10 ChatGroup 2 1 RoleMember no_permissions 30 0 true None false "".

Lemma slow_mode_wait_suffices_witness :
  ∃ e, checkSlowMode second slow_context
      (MkSendInput 10 1 79 TypeText "hi" RawNil RawNil None [] [] None RawNil false None) sample_db = Some e ∧
    Code e = CodeSlowModeActive.
Proof.
  eexists. split; [vm_compute; reflexivity|].
  eapply (slow_mode_wait_suffices second slow_context
    (MkSendInput 10 1 79 TypeText "hi" RawNil RawNil None [] [] None RawNil false None) sample_db).
  vm_compute. reflexivity.
Defined.


