(* ===== verification/Organise.v ===== *)
(** * Moving messages and filing chats ([internal/messaging/organise.go], [livelocation.go])

    Forwarding, pinning, filing a chat, live locations and the queue of scheduled posts,
    over the messaging world and the tables only these files use.  A publisher's run is
    a claim and then, for every claimed post, a send and a mark, with other requests
    committing in between. *)

From stdpp Require Import base tactics list sorting relations gmap strings.
From Stdlib Require Import ZArith Lia Floats.SpecFloat.
From S2P Require Import Prelude GoString Httpx Permissions Store ChatContext EventLog MessageRepo RateLimit Ports Payloads MessagingService Social.

Set Default Goal Selector "!".
Open Scope Z_scope.

Definition EventMessagePinned : string := "message.pinned".
Definition maxForwardBatch : Z := 100.
Definition maxScheduledPublishAttempts : Z := 5.
Definition scheduledClaimLease : Z := 2 * minute.
Definition EventLocationUpdated : string := "message.location_updated".

(** ** Tables *)

(** [scheduled_messages] *)
Record scheduled_row := MkScheduledRow {
  sc_chat_id : uuid;
  sc_sender_id : uuid;
  sc_client_message_id : uuid;
  sc_type : string;
  sc_content : string;
  sc_attachments : list Attachment;
  sc_reply_to_id : option uuid;
  sc_is_silent : bool;
  sc_scheduled_at : time;
  sc_published_at : option time;
  sc_published_message_id : option uuid;
  sc_attempts : Z;
  sc_last_error : string;
  sc_abandoned_at : option time;
  sc_claimed_until : option time;
  sc_created_at : time;
}.
(** [chat_folders] and [chat_folder_chats], which [Folders] works on *)
Record folder_row := MkFolderRow {
  fo_owner : uuid;
  fo_title : string;
  fo_emoji : string;
  fo_position : Z;
  fo_include_contacts : bool;
  fo_include_non_contacts : bool;
  fo_include_groups : bool;
  fo_include_channels : bool;
  fo_include_bots : bool;
  fo_exclude_muted : bool;
  fo_exclude_read : bool;
  fo_exclude_archived : bool;
  fo_created_at : time;
  fo_updated_at : time;
}.
Record folder_chat_row := MkFolderChat { fc_mode : string; fc_position : Z }.
(** [chat_flags] holds the columns [is_pinned] and [is_archived] of [chat_members]. *)
Record organisedb := MkOrganiseDb {
  scheduled : gmap uuid scheduled_row;
  chat_flags : gmap (uuid * uuid) (bool * bool);
  chat_folders : gmap uuid folder_row;
  chat_folder_chats : gmap (uuid * uuid) folder_chat_row;
}.
Definition with_scheduled v (o : organisedb) := MkOrganiseDb v (chat_flags o) (chat_folders o) (chat_folder_chats o).
Definition with_chat_flags v (o : organisedb) := MkOrganiseDb (scheduled o) v (chat_folders o) (chat_folder_chats o).
Definition with_chat_folders v (o : organisedb) := MkOrganiseDb (scheduled o) (chat_flags o) v (chat_folder_chats o).
Definition with_chat_folder_chats v (o : organisedb) := MkOrganiseDb (scheduled o) (chat_flags o) (chat_folders o) v.

Inductive orgerr := OrgNotFound | OrgNotMember | ErrAlreadyPublished | OrgCheck | OrgUnique.

(** ** The queue *)

Record ScheduleParams := MkScheduleParams {
  sh_ChatID : uuid;
  sh_SenderID : uuid;
  sh_ClientMessageID : uuid;
  sh_Type : string;
  sh_Content : string;
  sh_Attachments : list Attachment;
  sh_ReplyToID : option uuid;
  sh_IsSilent : bool;
  sh_PublishAt : time;
}.
Record ScheduledMessage := MkScheduledMessage {
  sm_ID : uuid;
  sm_ChatID : uuid;
  sm_Type : string;
  sm_Content : string;
  sm_Attachments : list Attachment;
  sm_ScheduledAt : time;
  sm_CreatedAt : time;
  sm_Attempts : Z;
  sm_LastError : string;
}.
Definition scheduled_types : list string :=
  ["text"; "image"; "video"; "audio"; "voice"; "file"; "location"; "contact"; "sticker"; "gif"; "poll"]%string.
Definition scheduled_key (chat sender client : uuid) (_ : uuid) (r : scheduled_row) : bool :=
  bool_decide (sc_chat_id r = chat) && bool_decide (sc_sender_id r = sender) && bool_decide (sc_client_message_id r = client).
Definition queued_row (now : time) (created : time) (p : ScheduleParams) : scheduled_row :=
  MkScheduledRow (sh_ChatID p) (sh_SenderID p) (sh_ClientMessageID p) (sh_Type p) (sh_Content p) (sh_Attachments p)
    (sh_ReplyToID p) (sh_IsSilent p) (sh_PublishAt p) None None 0 "" None None created.
(** One upsert: a row that has gone out is left alone and not returned. *)
Definition Schedule (now : time) (new_id : uuid) (p : ScheduleParams) : prog organisedb orgerr ScheduledMessage := λ o,
  let result id created := MkScheduledMessage id (sh_ChatID p) (sh_Type p) (sh_Content p) (sh_Attachments p) (sh_PublishAt p) created 0 "" in
  if negb (bool_decide (sh_Type p ∈ scheduled_types)) then (Err OrgCheck, o)
  else match rows_where (scheduled_key (sh_ChatID p) (sh_SenderID p) (sh_ClientMessageID p)) (scheduled o) with
       | (id, r) :: _ =>
           if sc_published_at r is None then
             (Ok (result id (sc_created_at r)),
              with_scheduled (<[id := queued_row now (sc_created_at r) p]> (scheduled o)) o)
           else (Err ErrAlreadyPublished, o)
       | [] =>
           if bool_decide (is_Some (scheduled o !! new_id)) then (Err OrgUnique, o)
           else (Ok (result new_id now), with_scheduled (<[new_id := queued_row now now p]> (scheduled o)) o)
       end.
Definition unpublished (r : scheduled_row) : bool := if sc_published_at r is None then true else false.
Definition scheduled_message (id : uuid) (r : scheduled_row) : ScheduledMessage :=
  MkScheduledMessage id (sc_chat_id r) (sc_type r) (sc_content r) (sc_attachments r) (sc_scheduled_at r) (sc_created_at r)
    (sc_attempts r) (sc_last_error r).
Definition ScheduledFor (chatID senderID : uuid) (o : organisedb) : list ScheduledMessage :=
  (λ kr : uuid * scheduled_row, scheduled_message kr.1 kr.2) <$>
    order_by (λ kr : uuid * scheduled_row, sc_scheduled_at kr.2)
      (rows_where (λ _ r, bool_decide (sc_chat_id r = chatID) && bool_decide (sc_sender_id r = senderID) && unpublished r) (scheduled o)).
Definition CancelScheduled (scheduledID senderID : uuid) : prog organisedb orgerr () := λ o,
  if hits (λ _ r, bool_decide (sc_sender_id r = senderID) && unpublished r) (scheduled o) scheduledID
  then (Ok (), with_scheduled (delete scheduledID (scheduled o)) o)
  else (Err OrgNotFound, o).

(** A post whose time has come and that no publisher holds. *)
Definition due (now : time) (r : scheduled_row) : bool :=
  unpublished r && (if sc_abandoned_at r is None then true else false) && (sc_scheduled_at r <=? now)
  && (match sc_claimed_until r with None => true | Some t => t <=? now end).
Definition claim_row (now : time) (r : scheduled_row) : scheduled_row :=
  MkScheduledRow (sc_chat_id r) (sc_sender_id r) (sc_client_message_id r) (sc_type r) (sc_content r) (sc_attachments r)
    (sc_reply_to_id r) (sc_is_silent r) (sc_scheduled_at r) (sc_published_at r) (sc_published_message_id r)
    (sc_attempts r + 1) (sc_last_error r) (sc_abandoned_at r) (Some (now + scheduledClaimLease)) (sc_created_at r).
(** What a publisher takes: the earliest due posts no other claim has locked. *)
Definition claimable (now : time) (locked : gset uuid) (limit : Z) (o : organisedb) : list (uuid * scheduled_row) :=
  take (Z.to_nat limit) (order_by (λ kr : uuid * scheduled_row, sc_scheduled_at kr.2)
    (rows_where (λ k r, due now r && negb (bool_decide (k ∈ locked))) (scheduled o))).
(** The claimed rows as they are afterwards; their order is left open by the statement. *)
Definition ClaimDueScheduled (now : time) (locked : gset uuid) (limit : Z) (o : organisedb)
    : list (uuid * scheduled_row) * organisedb :=
  let ids := (claimable now locked limit o).*1 in
  ((λ kr : uuid * scheduled_row, (kr.1, claim_row now kr.2)) <$> claimable now locked limit o,
   with_scheduled (update_where (λ k _, bool_decide (k ∈ ids)) (λ _, claim_row now) (scheduled o)) o).
Definition publish_row (now : time) (messageID : uuid) (r : scheduled_row) : scheduled_row :=
  MkScheduledRow (sc_chat_id r) (sc_sender_id r) (sc_client_message_id r) (sc_type r) (sc_content r) (sc_attachments r)
    (sc_reply_to_id r) (sc_is_silent r) (sc_scheduled_at r) (Some now) (Some messageID)
    (sc_attempts r) "" (sc_abandoned_at r) (sc_claimed_until r) (sc_created_at r).
Definition fail_row (now : time) (reason : string) (r : scheduled_row) : scheduled_row :=
  MkScheduledRow (sc_chat_id r) (sc_sender_id r) (sc_client_message_id r) (sc_type r) (sc_content r) (sc_attachments r)
    (sc_reply_to_id r) (sc_is_silent r) (sc_scheduled_at r) (sc_published_at r) (sc_published_message_id r)
    (sc_attempts r) reason
    (if maxScheduledPublishAttempts <=? sc_attempts r then Some now else sc_abandoned_at r)
    (sc_claimed_until r) (sc_created_at r).
Definition MarkScheduledPublished (now : time) (scheduledID messageID : uuid) (o : organisedb) : organisedb :=
  with_scheduled (update_where (λ k r, bool_decide (k = scheduledID) && unpublished r) (λ _, publish_row now messageID) (scheduled o)) o.
Definition MarkScheduledFailed (now : time) (scheduledID : uuid) (reason : string) (o : organisedb) : organisedb :=
  with_scheduled (update_where (λ k r, bool_decide (k = scheduledID) && unpublished r)
    (λ _, fail_row now (Social.truncate reason 500)) (scheduled o)) o.

(** ** Filing a chat and what is pinned *)

Definition SetChatFlags (chatID userID : uuid) (pinned archived : option bool) (d : db) : prog organisedb orgerr () := λ o,
  match active_member d chatID userID with
  | None => (Err OrgNotMember, o)
  | Some _ =>
      let old := default (false, false) (chat_flags o !! (chatID, userID)) in
      (Ok (), with_chat_flags (<[(chatID, userID) := (default old.1 pinned, default old.2 archived)]> (chat_flags o)) o)
  end.
Definition with_m_muted_until (v : option time) (r : member_row) : member_row :=
  MkMember (m_role r) (m_permissions r) (m_custom_title r) (m_last_read_seq r) (m_last_delivered_seq r) (m_unread_count r) (m_mention_count r) (m_draft r) (m_joined_at r) (m_invited_by r) (m_left_at r) v (m_custom_role_id r) (m_history_cleared_seq r).
Definition SetMuted (chatID userID : uuid) (until : option time) : prog db dberr () := λ d,
  match active_member d chatID userID with
  | None => (Err ErrNotMember, d)
  | Some m => (Ok (), with_chat_members (<[(chatID, userID) := with_m_muted_until until m]> (chat_members d)) d)
  end.
(** The columns read for the pin bar; the others stay zero. *)
Definition pinned_message (kr : uuid * message_row) : Message :=
  let '(id, r) := kr in
  MkMessage id (r_chat_id r) (r_seq r) (r_sender_id r) uuid_nil (r_type r) (r_content r) JNull JNull None None [] [] None ""
    None true 0 (r_created_at r) (r_edited_at r) None.
Definition PinnedMessages (chatID viewerID : uuid) (limit : Z) (d : db) : list Message :=
  match active_member d chatID viewerID with
  | None => []
  | Some _ =>
      pinned_message <$> take (Z.to_nat limit) (order_by_desc (λ kr : uuid * message_row, r_seq kr.2)
        (rows_where (λ _ r, bool_decide (r_chat_id r = chatID) && r_is_pinned r && (if r_deleted_at r is None then true else false)) (messages d)))
  end.

(** ** Forwarding *)

Record ForwardParams := MkForwardParams {
  fp_FromChatID : uuid;
  fp_ToChatID : uuid;
  fp_MessageIDs : list uuid;
  fp_SenderID : uuid;
  fp_DropAuthor : bool;
}.
Record ForwardSource := MkForwardSource {
  fs_MessageID : uuid;
  fs_OriginChat : uuid;
  fs_OriginUser : option uuid;
  fs_Type : string;
  fs_Content : string;
  fs_Attachments : list Attachment;
  fs_Origin : option ForwardInfo;
}.
Definition source_of (d : db) (kr : uuid * message_row) : ForwardSource :=
  let '(id, r) := kr in
  MkForwardSource id (r_chat_id r) (r_sender_id r) (r_type r) (r_content r)
    (order_by att_position ((λ ka : (uuid * uuid) * Attachment, ka.2) <$> rows_where (λ k _, bool_decide (k.1 = id)) (message_attachments d)))
    (if bool_decide (is_Some (r_forward_chat r)) || bool_decide (is_Some (r_forward_user r))
     then Some (MkForward (r_forward_chat r) (r_forward_message r) (r_forward_user r) (r_forward_signature r))
     else None).
(** Read by a member, from the chat named, and not deleted. *)
Definition forwardable (chatID : uuid) (messageIDs : list uuid) (id : uuid) (r : message_row) : bool :=
  bool_decide (r_chat_id r = chatID) && bool_decide (id ∈ messageIDs) && (if r_deleted_at r is None then true else false).
Definition ForwardSources (chatID viewerID : uuid) (messageIDs : list uuid) (d : db) : list ForwardSource :=
  match active_member d chatID viewerID with
  | None => []
  | Some _ =>
      source_of d <$> order_by (λ kr : uuid * message_row, r_seq kr.2) (rows_where (forwardable chatID messageIDs) (messages d))
  end.
(** Whoever wrote the message is credited, and with [drop] only its place is. *)
Definition forward_origin (drop : bool) (s : ForwardSource) : ForwardInfo :=
  let origin := default (MkForward (Some (fs_OriginChat s)) (Some (fs_MessageID s)) (fs_OriginUser s) "") (fs_Origin s) in
  if drop then MkForward (fwd_chat origin) (fwd_message origin) None "" else origin.

(** ** Live locations *)

Inductive liveerr := LiveNotFound | ErrNotLive | LiveApi (e : Error) | LiveOther.
Section live.
Context `{PayloadCodec}.

Definition own_location (messageID authorID : uuid) (d : db) : option message_row :=
  r ← messages d !! messageID;
  if bool_decide (r_sender_id r = Some authorID) && bool_decide (r_type r = TypeLocation)
     && (if r_deleted_at r is None then true else false)
  then Some r else None.
(** The share the message holds, while it runs. *)
Definition live_location (now : time) (messageID authorID : uuid) : prog db liveerr LocationPayload :=
  r ← gets (own_location messageID authorID);
  r ← or_fail r LiveNotFound;
  location ← or_fail (unmarshal_location (r_payload r)) LiveOther;
  fail_if (negb (IsLive now location)) ErrNotLive;;
  mret location.
Definition moved (latitude longitude accuracy heading speed : spec_float) (l : LocationPayload) : LocationPayload :=
  MkLocation latitude longitude accuracy (LivePeriodSeconds l) (LiveUntil l) heading speed (PlaceName l) (PlaceAddress l).
Definition with_LiveUntil (until : option time) (l : LocationPayload) : LocationPayload :=
  MkLocation (Latitude l) (Longitude l) (HorizontalAccuracy l) (LivePeriodSeconds l) until (Heading l) (Speed l)
    (PlaceName l) (PlaceAddress l).
(** [UPDATE messages SET payload = $2 WHERE id = $1 RETURNING ...] *)
Definition write_payload (messageID : uuid) (encoded : json) : prog db liveerr Message := λ d,
  match messages d !! messageID with
  | Some r =>
      let r' := with_r_payload encoded r in
      (Ok (base_message messageID r'), with_messages (<[messageID := r']> (messages d)) d)
  | None => (Err LiveOther, d)
  end.
(** Nothing locks the row between the read and the write. *)
Definition UpdateLiveLocation (now : time) (meanwhile : db → db) (messageID authorID : uuid)
    (latitude longitude accuracy heading speed : spec_float) : prog db liveerr (Message * uuid) :=
  l ← live_location now messageID authorID;
  l' ← (λ d, match location_Validate now (moved latitude longitude accuracy heading speed l) with
             | Ok l' => (Ok l', d)
             | Err e => (Err (LiveApi e), d)
             end);
  encoded ← or_fail (marshal_location (with_LiveUntil (LiveUntil l) l')) LiveOther;
  modify meanwhile;;
  m ← write_payload messageID encoded;
  mret (m, mChatID m).
Definition StopLiveLocation (now : time) (meanwhile : db → db) (messageID authorID : uuid) : prog db liveerr uuid :=
  chat ← gets (λ d, r_chat_id <$> own_location messageID authorID d);
  l ← live_location now messageID authorID;
  chat ← or_fail chat LiveNotFound;
  encoded ← or_fail (marshal_location (with_LiveUntil (Some now) l)) LiveOther;
  modify meanwhile;;
  modify (λ d, (write_payload messageID encoded d).2);;
  mret chat.
End live.

(** ** The handlers *)

Record org_world (G L : Type) := MkOrgWorld { og_world : world G L; og_db : organisedb }.
Arguments MkOrgWorld {G L}.
Arguments og_world {G L}.
Arguments og_db {G L}.

(** What a publisher mints and meets for one post: the id of the message, and what others
    commit before the send, during it and before the mark. *)
Record publish_env (G L : Type) := MkPublishEnv {
  pe_new_id : uuid;
  pe_before_send : org_world G L → org_world G L;
  pe_before : db → db;
  pe_after : db → db;
  pe_before_mark : org_world G L → org_world G L;
}.
Arguments MkPublishEnv {G L}.
Arguments pe_new_id {G L}.
Arguments pe_before_send {G L}.
Arguments pe_before {G L}.
Arguments pe_after {G L}.
Arguments pe_before_mark {G L}.

Section service.
Context `{SpamGuard G} `{MessageLimiter L} `{PayloadCodec}.
Abbreviation handler := (prog (world G L) Error) (only parsing).
Abbreviation org_handler := (prog (org_world G L) Error) (only parsing).

Definition in_world {A} (m : prog (world G L) Error A) : prog (org_world G L) Error A := λ w,
  match m (og_world w) with (r, w') => (r, MkOrgWorld w' (og_db w)) end.
Definition on_org {A} (m : db → prog organisedb orgerr A) (h : orgerr → Error) : prog (org_world G L) Error A := λ w,
  match m (w_db (og_world w)) (og_db w) with
  | (Ok a, o) => (Ok a, MkOrgWorld (og_world w) o)
  | (Err e, o) => (Err (h e), MkOrgWorld (og_world w) o)
  end.

Definition forward_input (ids : uuid) (in_ : ForwardParams) (s : ForwardSource) : SendInput :=
  MkSendInput (fp_ToChatID in_) (fp_SenderID in_) ids (fs_Type s) (fs_Content s) RawNil RawNil None (fs_Attachments s) []
    (Some (forward_origin (fp_DropAuthor in_) s)) RawNil false None.
(** The loop of [Forward]; [mint] gives each copy its client id, its id and what others
    commit meanwhile. *)
Fixpoint forward_all (now : time) (mint : nat → uuid * uuid * (db → db) * (db → db)) (k : nat) (in_ : ForwardParams)
    (sources : list ForwardSource) (forwarded : list Message) : prog (world G L) Error (list Message) := λ w,
  match sources with
  | [] => (Ok forwarded, w)
  | s :: rest =>
      let '(client, new_id, before, after) := mint k in
      match Service_Send now new_id before after (forward_input client in_ s) w with
      | (Ok m, w') => forward_all now mint (S k) in_ rest (forwarded ++ [m]) w'
      | (Err e, w') => if bool_decide (forwarded = []) then (Err e, w') else (Ok forwarded, w')
      end
  end.
Definition Forward (now : time) (mint : nat → uuid * uuid * (db → db) * (db → db)) (in_ : ForwardParams)
    : handler (list Message) :=
  fail_if (bool_decide (fp_MessageIDs in_ = []))
    (WithField (Validation "Nothing to forward") "message_ids" "at least one is required");;
  fail_if (maxForwardBatch <? Z.of_nat (length (fp_MessageIDs in_)))
    (WithField (Validation "Too many messages in one forward") "message_ids" "at most 100");;
  target ← repo (ChatContextFor (fp_ToChatID in_) (fp_SenderID in_)) chat_not_found;
  fail_if (negb (ctx_is_member target)) not_member_error;;
  sources ← gets (λ w, ForwardSources (fp_FromChatID in_) (fp_SenderID in_) (fp_MessageIDs in_) (w_db w));
  fail_if (bool_decide (sources = [])) (NotFound CodeMessageNotFound "Those messages are not available");;
  forward_all now mint 0 in_ sources [].

Definition Service_SetPinned (messageID userID : uuid) (pinned : bool) : handler () :=
  message ← repo (MessageByID messageID) message_not_found;
  cx ← repo (ChatContextFor (mChatID message) userID) internal_error;
  fail_if (negb (ctx_is_member cx)) not_member_error;;
  fail_if (negb (PinMessages (ctx_permissions cx)))
    (Forbidden CodePermissionDenied "You cannot pin messages in this chat");;
  repo (SetPinned messageID pinned) message_not_found;;
  publishChat (mChatID message) EventMessagePinned
    (PayloadOther (JObj [("message_id", JStr (uuid_String messageID)); ("chat_id", JStr (uuid_String (mChatID message)));
                         ("pinned", JBool pinned)])%string).
Definition Service_PinnedMessages (chatID viewerID : uuid) : handler (list Message) :=
  gets (λ w, PinnedMessages chatID viewerID 50 (w_db w)).
Definition org_member_error (e : orgerr) : Error := match e with OrgNotMember => not_member_error | _ => Internal end.
Definition Service_SetChatFlags (chatID userID : uuid) (pinned archived : option bool) : org_handler () :=
  on_org (SetChatFlags chatID userID pinned archived) org_member_error.
Definition Service_SetMuted (chatID userID : uuid) (until : option time) : handler () :=
  repo (SetMuted chatID userID until) member_error.

(** [time.Now().AddDate(1, 0, 0)] is a year of calendar days: an argument. *)
Definition Service_Schedule (now a_year_from_now : time) (new_id : uuid) (p : ScheduleParams) : org_handler ScheduledMessage :=
  fail_if (sh_PublishAt p <? now + 10 * second)
    (WithField (Validation "That time has already passed") "scheduled_at" "must be at least 10 seconds from now");;
  fail_if (a_year_from_now <? sh_PublishAt p)
    (WithField (Validation "That is too far in the future") "scheduled_at" "at most one year ahead");;
  fail_if (bool_decide (sh_ClientMessageID p = uuid_nil))
    (WithField (Validation "client_message_id is required") "client_message_id" "required so a retry is idempotent");;
  cx ← in_world (repo (ChatContextFor (sh_ChatID p) (sh_SenderID p)) chat_not_found);
  fail_if (negb (ctx_is_member cx)) not_member_error;;
  fail_if (negb (SendMessages (ctx_permissions cx))) (Forbidden CodePermissionDenied "You cannot post in this chat");;
  on_org (λ _, Schedule now new_id p)
    (λ e, match e with ErrAlreadyPublished => Conflict CodeConflict "That message has already been sent" | _ => Internal end).
Definition Service_ScheduledFor (chatID senderID : uuid) : org_handler (list ScheduledMessage) :=
  gets (λ w, ScheduledFor chatID senderID (og_db w)).
Definition Service_CancelScheduled (scheduledID senderID : uuid) : org_handler () :=
  on_org (λ _, CancelScheduled scheduledID senderID)
    (λ e, match e with OrgNotFound => NotFound CodeMessageNotFound "That message is not scheduled" | _ => Internal end).

(** What a queued post is sent as; [err.Error()] of a refusal. *)
Definition scheduled_input (r : scheduled_row) : SendInput :=
  MkSendInput (sc_chat_id r) (sc_sender_id r) (sc_client_message_id r) (sc_type r) (sc_content r) RawNil RawNil
    (sc_reply_to_id r) (sc_attachments r) [] None RawNil (sc_is_silent r) None.
Definition error_text (e : Error) : string := (Code e +:+ ": " +:+ Httpx.Message e)%string.
(** One claimed post: whether it counts as published. *)
Definition publish_one (now : time) (env : publish_env G L) (post : uuid * scheduled_row) (w : org_world G L)
    : bool * org_world G L :=
  let w := pe_before_send env w in
  match Service_Send now (pe_new_id env) (pe_before env) (pe_after env) (scheduled_input post.2) (og_world w) with
  | (Ok m, sent) =>
      let w := pe_before_mark env (MkOrgWorld sent (og_db w)) in
      (true, MkOrgWorld (og_world w) (MarkScheduledPublished now post.1 (mID m) (og_db w)))
  | (Err e, sent) =>
      let w := pe_before_mark env (MkOrgWorld sent (og_db w)) in
      (false, MkOrgWorld (og_world w) (MarkScheduledFailed now post.1 (error_text e) (og_db w)))
  end.
Fixpoint publish_all (now : time) (envs : nat → publish_env G L) (k : nat) (posts : list (uuid * scheduled_row))
    (published : Z) (w : org_world G L) : Z * org_world G L :=
  match posts with
  | [] => (published, w)
  | post :: posts =>
      let '(ok, w) := publish_one now (envs k) post w in
      publish_all now envs (S k) posts (if ok : bool then published + 1 else published) w
  end.
Definition PublishDue (now : time) (locked : gset uuid) (envs : nat → publish_env G L) (limit : Z) (w : org_world G L)
    : Z * org_world G L :=
  let '(posts, o) := ClaimDueScheduled now locked limit (og_db w) in
  publish_all now envs 0 posts 0 (MkOrgWorld (og_world w) o).
Definition live_error (e : liveerr) : Error :=
  match e with
  | LiveNotFound => NotFound CodeMessageNotFound "That is not a location you shared"
  | ErrNotLive => Conflict CodeConflict "That location is no longer being shared"
  | LiveApi e => e
  | LiveOther => Internal
  end.
Definition Service_UpdateLiveLocation (now : time) (meanwhile : db → db) (messageID authorID : uuid)
    (latitude longitude accuracy heading speed : spec_float) : handler Message :=
  r ← repo (UpdateLiveLocation now meanwhile messageID authorID latitude longitude accuracy heading speed) live_error;
  publishChat r.2 EventLocationUpdated (PayloadMessage r.2 r.1);;
  mret r.1.
Definition Service_StopLiveLocation (now : time) (meanwhile : db → db) (messageID authorID : uuid) : handler () :=
  chatID ← repo (StopLiveLocation now meanwhile messageID authorID) live_error;
  publishChat chatID EventLocationUpdated
    (PayloadOther (JObj [("chat_id", JStr (uuid_String chatID)); ("message_id", JStr (uuid_String messageID)); ("stopped", JBool true)])%string).
End service.
