(* ===== verification/OrganiseTheory.v ===== *)
(** * Scheduled posts, forwarding and live locations: the theorems

    A queued post becomes at most one message however its publishers crash, overlap or
    race with its author; what a forward may copy; how a live location moves and stops. *)

From stdpp Require Import base tactics list sorting relations gmap strings.
From Stdlib Require Import ZArith Lia Floats.SpecFloat.
From S2P Require Import Prelude Steps GoString Httpx Permissions Store ChatContext EventLog MessageRepo MessageTheory RateLimit Ports Antispam Payloads MessagingService MessagingTheory Organise.

Set Default Goal Selector "!".
Open Scope Z_scope.

(** ** A send among others *)

(** The message store stays in order and loses no message. *)
Definition store_grows (d d' : db) : Prop := store_ok d → store_ok d' ∧ persists d d'.
#[export] Instance store_grows_preorder : PreOrder store_grows.
Proof.
  split.
  - intros d Hok. split; [done|]. by apply persists_eq.
  - intros d1 d2 d3 H12 H23 Hok. destruct (H12 Hok) as [Hok2 Hp12]. destruct (H23 Hok2) as [Hok3 Hp23].
    split; [done|]. by eapply persists_trans.
Qed.
Lemma store_step_grows d d' : store_step d d' → store_grows d d'.
Proof. intros Hs Hok. split; [by eapply store_step_ok|by apply store_step_persists]. Qed.
Lemma store_steps_grow d d' : rtc store_step d d' → store_grows d d'.
Proof. intros Hs Hok. split; [by eapply store_steps_ok|by apply store_steps_persist]. Qed.

Lemma messageByClientID_db ch s c d : (messageByClientID ch s c d).2 = d.
Proof. unfold messageByClientID. by destruct (rows_where _ _) as [|[] ?]. Qed.
Lemma Send_grows now id before after p :
  (∀ d, store_grows d (before d)) → (∀ d, store_grows d (after d)) → follows store_grows (Send now id before after p).
Proof.
  intros Hb Ha d. unfold Send.
  assert (store_grows d (match in_tx (send_body now id p) (before d) with
    | (Ok r, d1) => (Ok r, d1)
    | (Err e, d1) =>
        if is_unique_violation_of "messages_idempotency_key" e then
          match messageByClientID (sp_ChatID p) (sp_SenderID p) (sp_ClientMessageID p) (after d1) with
          | (Ok existing, d2) => (Ok (duplicate_of existing), d2)
          | (Err _, d2) => (Err e, d2)
          end
        else (Err e, d1)
    end).2) as Hslow.
  { destruct (in_tx (send_body now id p) (before d)) as [[r|e] d1] eqn:Htx.
    - apply in_tx_Ok_inv in Htx. simpl. etransitivity; [apply Hb|]. apply store_step_grows. by econstructor.
    - apply in_tx_Err in Htx as ->. destruct (is_unique_violation_of _ e); [|apply Hb].
      pose proof (messageByClientID_db (sp_ChatID p) (sp_SenderID p) (sp_ClientMessageID p) (after (before d))) as Hd.
      destruct (messageByClientID _ _ _ (after (before d))) as [[m|e'] d2]; simpl in *; subst d2;
        (etransitivity; [apply Hb|apply Ha]). }
  destruct (sp_AsChat p); [by rewrite decide_True|].
  destruct (messageByClientID _ _ _ d).1 as [m|e]; [simpl; reflexivity|].
  case_decide; [done|simpl; reflexivity].
Qed.

Section sends.
Context `{SpamGuard G} `{MessageLimiter L} `{PayloadCodec}.
Implicit Types (w : world G L).

Definition world_grows w w' : Prop := store_grows (w_db w) (w_db w').
#[local] Instance world_grows_preorder : PreOrder world_grows.
Proof. unfold world_grows. split; [intros w; reflexivity|]. intros w1 w2 w3 H12 H23. by etransitivity. Qed.
Lemma reads_grows {A} (m : prog (world G L) Error A) : reads m → follows world_grows m.
Proof. intros Hm w. unfold world_grows. rewrite Hm. reflexivity. Qed.
Lemma repo_grows {E A} (m : prog db E A) h : follows store_grows m → follows world_grows (repo m h).
Proof. intros Hm w. specialize (Hm (w_db w)). unfold repo, world_grows. by destruct (m (w_db w)) as [[a|e] d]. Qed.
Lemma reads_emit o : reads (emit (G := G) (L := L) o). Proof. by intros w. Qed.
Lemma reads_bind {A B} (m : prog (world G L) Error A) (f : A → prog (world G L) Error B) :
  reads m → (∀ a, reads (f a)) → reads (m ≫= f).
Proof.
  intros Hm Hf w. rewrite bind_run. specialize (Hm w). destruct (m w) as [[a|e] w']; simpl in *; [|done].
  by rewrite Hf.
Qed.
(** What [Service_Send] does once the message is stored. *)
Lemma reads_send_rest cx (i : SendInput) (res : SendResult) :
  reads (G := G) (L := L) (if sr_Duplicate res then mret (sr_Message res)
    else broadcast (ctx_chat_id cx) EventMessageNew (sr_Recipients res) (sr_EventSeqs res)
           (sr_FannedOut res) (PayloadMessage (in_ChatID i) (sr_Message res));;
         notifyObservers (sr_Message res);;
         indexForSearch cx (sr_Message res);;
         mret (sr_Message res)).
Proof.
  destruct (sr_Duplicate res); [by intros w|].
  unfold broadcast, notifyObservers, indexForSearch, publishChat.
  repeat (apply reads_bind; [|intros ?]); try apply reads_emit; try (by intros w).
  - by destruct (sr_FannedOut res).
  - by destruct (_ || _).
Qed.
Lemma Service_Send_grows now id before after i :
  (∀ d, store_grows d (before d)) → (∀ d, store_grows d (after d)) →
  follows world_grows (Service_Send now id before after i).
Proof.
  intros Hb Ha. unfold Service_Send.
  apply follows_bind; [typeclasses eauto|apply reads_grows, reads_validate|intros j].
  apply follows_bind; [typeclasses eauto|apply reads_grows, reads_context|intros cx].
  apply follows_bind; [typeclasses eauto|apply reads_grows, reads_fail_if|intros _].
  apply follows_bind; [typeclasses eauto|apply reads_grows, reads_refuse|intros _].
  apply follows_bind; [typeclasses eauto|apply reads_grows, reads_check_rate|intros _].
  apply follows_bind; [typeclasses eauto|apply reads_grows, reads_gets|intros ?].
  apply follows_bind; [typeclasses eauto|apply reads_grows, reads_refuse|intros _].
  apply follows_bind; [typeclasses eauto|apply reads_grows, reads_gets|intros ?].
  apply follows_bind; [typeclasses eauto|apply reads_grows, reads_refuse|intros _].
  apply follows_bind; [typeclasses eauto|apply reads_grows, reads_topic|intros t].
  apply follows_bind; [typeclasses eauto|by apply repo_grows, Send_grows|intros res].
  apply reads_grows, reads_send_rest.
Qed.
(** What a send that answered leaves in the store. *)
Lemma Service_Send_stored now id before after i w m w' :
  store_ok (w_db w) → (∀ d, store_grows d (before d)) → (∀ d, store_grows d (after d)) →
  Service_Send now id before after i w = (Ok m, w') →
  ∃ row, messages (w_db w') !! mID m = Some row ∧ r_chat_id row = in_ChatID i ∧
    r_sender_id row = Some (in_SenderID i) ∧ r_client_message_id row = in_ClientMessageID i.
Proof.
  intros Hok Hb Ha Hrun. destruct (Service_Send_Ok_inv _ _ _ _ _ _ _ _ Hrun) as (j & cx & t & res & d & Hval & _ & Hsend & -> & -> & _).
  apply validateSend_Ok in Hval as [_ _ _ _ _ _ _ _ (Hch & Hse & _ & Hcl & _)].
  destruct (Hb (w_db w) Hok) as [Hokb _]. destruct (Ha (before (w_db w)) Hokb) as [Hoka _].
  destruct (Send_has_key now id before after (send_params j t) _ res d Hok Hokb Hoka eq_refl Hsend) as [_ (row & (Hl & Hc & Hs & Hm) & _)].
  exists row. simpl in *. split; [done|]. split; [congruence|]. split; congruence.
Qed.
End sends.

(** ** The queue *)

(** What a post is known by; it survives everything done to the row. *)
Abbreviation post_key := (uuid * uuid * uuid)%type.
Definition key_of (r : scheduled_row) : post_key := (sc_chat_id r, sc_sender_id r, sc_client_message_id r).
Definition message_key (r : message_row) : option post_key :=
  s ← r_sender_id r; Some (r_chat_id r, s, r_client_message_id r).

Section queue.
(** The request each id was generated for: the database never generates one twice. *)
Variable minted : uuid → post_key.
Implicit Types (o : organisedb) (d : db).

Record queue_ok o d : Prop := {
  qo_minted : ∀ id r, scheduled o !! id = Some r → minted id = key_of r;
  qo_key : ∀ id1 id2 r1 r2, scheduled o !! id1 = Some r1 → scheduled o !! id2 = Some r2 → key_of r1 = key_of r2 → id1 = id2;
  qo_published : ∀ id r, scheduled o !! id = Some r → sc_published_at r ≠ None →
    ∃ m row, sc_published_message_id r = Some m ∧ messages d !! m = Some row ∧ message_key row = Some (key_of r);
}.
(** Published posts are final. *)
Definition queue_evolves (s s' : organisedb * db) : Prop :=
  store_ok s.2 ∧ queue_ok s.1 s.2 →
  (store_ok s'.2 ∧ queue_ok s'.1 s'.2) ∧ persists s.2 s'.2 ∧
  ∀ id r, scheduled s.1 !! id = Some r → sc_published_at r ≠ None → scheduled s'.1 !! id = Some r.
#[export] Instance queue_evolves_preorder : PreOrder queue_evolves.
Proof.
  split.
  - intros s Hok. split; [done|]. split; [by apply persists_eq|done].
  - intros s1 s2 s3 H12 H23 Hok. destruct (H12 Hok) as (Hok2 & Hp12 & Hf12). destruct (H23 Hok2) as (Hok3 & Hp23 & Hf23).
    split; [done|]. split; [by eapply persists_trans|]. eauto.
Qed.

Lemma message_key_persists d d' m row : persists d d' → messages d !! m = Some row →
  ∃ row', messages d' !! m = Some row' ∧ message_key row' = message_key row.
Proof.
  intros Hp Hl. destruct (Hp _ _ Hl) as (row' & Hl' & Hc & _ & Hs & Hm). exists row'. split; [done|].
  unfold message_key. by rewrite Hc, Hs, Hm.
Qed.
(** Only the messages change. *)
Lemma messages_evolve o d d' : store_grows d d' → queue_evolves (o, d) (o, d').
Proof.
  intros Hg [Hok Hq]. destruct (Hg Hok) as [Hok' Hp]. split; [|by split]. split; [done|]. destruct Hq as [H1 H2 H3].
  split; [done|done|]. intros id r Hr Hpub. destruct (H3 id r Hr Hpub) as (m & row & Hm & Hl & Hk).
  destruct (message_key_persists _ _ _ _ Hp Hl) as (row' & Hl' & Hk'). exists m, row'. by rewrite Hk'.
Qed.
(** One row of the queue is written, with the key its id was minted for. *)
Lemma write_post_evolves o d id r :
  minted id = key_of r → (∀ r0, scheduled o !! id = Some r0 → sc_published_at r0 = None) →
  (queue_ok o d → sc_published_at r ≠ None → ∃ m row, sc_published_message_id r = Some m ∧ messages d !! m = Some row ∧ message_key row = Some (key_of r)) →
  (queue_ok o d → ∀ id' r', scheduled o !! id' = Some r' → key_of r' = key_of r → id' = id) →
  queue_evolves (o, d) (with_scheduled (<[id := r]> (scheduled o)) o, d).
Proof.
  intros Hmint Hold Hpub Huniq [Hok Hq]. pose proof Hq as [H1 H2 H3]. split; [split; [done|split; simpl]|split; [by apply persists_eq|simpl]].
  - intros id' r' [[<- <-]|[_ Hr']]%lookup_insert_Some; [done|by apply H1].
  - intros id1 id2 r1 r2 [[<- <-]|[_ Hr1]]%lookup_insert_Some [[<- <-]|[_ Hr2]]%lookup_insert_Some Hk; [done| | |by eapply H2].
    + symmetry. by eapply Huniq.
    + by eapply Huniq.
  - intros id' r' [[<- <-]|[_ Hr']]%lookup_insert_Some; [by apply Hpub|by eapply H3].
  - intros id' r' Hr' Hp. rewrite lookup_insert_ne; [done|]. intros <-. by apply Hold in Hr'.
Qed.
(** The rows of some open posts are rewritten, their keys kept. *)
Lemma rewrite_posts_evolves o d (P : uuid → scheduled_row → bool) (f : scheduled_row → scheduled_row) :
  (∀ r, key_of (f r) = key_of r) → (∀ id r, P id r = true → sc_published_at r = None) →
  (∀ id r, scheduled o !! id = Some r → P id r = true → sc_published_at (f r) ≠ None →
     ∃ m row, sc_published_message_id (f r) = Some m ∧ messages d !! m = Some row ∧ message_key row = Some (key_of r)) →
  queue_evolves (o, d) (with_scheduled (update_where P (λ _, f) (scheduled o)) o, d).
Proof.
  intros Hkey HP Hpub [Hok [H1 H2 H3]].
  assert (∀ id r', update_where P (λ _, f) (scheduled o) !! id = Some r' →
    ∃ r, scheduled o !! id = Some r ∧ key_of r' = key_of r ∧ (r' = r ∨ P id r = true ∧ r' = f r)) as Hinv.
  { intros id r' (r & Hr & ->)%lookup_update_where_Some. exists r. split; [done|]. destruct (P id r); auto. }
  split; [split; [done|split; simpl]|split; [by apply persists_eq|simpl]].
  - intros id r' (r & Hr & -> & _)%Hinv. by apply H1.
  - intros id1 id2 r1 r2 (r1' & Hr1 & -> & _)%Hinv (r2' & Hr2 & -> & _)%Hinv. by eapply H2.
  - intros id r' (r & Hr & -> & [->|[HPr ->]])%Hinv Hp; [by eapply H3|]. by eapply Hpub.
  - intros id r Hr Hp. apply lookup_update_where_Some. exists r. split; [done|].
    destruct (P id r) eqn:HPr; [|done]. by apply HP in HPr.
Qed.

Lemma Schedule_evolves now new_id p o d :
  minted new_id = (sh_ChatID p, sh_SenderID p, sh_ClientMessageID p) →
  queue_evolves (o, d) ((Schedule now new_id p o).2, d).
Proof.
  intros Hmint. unfold Schedule. destruct (negb _); [simpl; reflexivity|].
  assert (∀ id r, scheduled_key (sh_ChatID p) (sh_SenderID p) (sh_ClientMessageID p) id r = true ↔
    key_of r = (sh_ChatID p, sh_SenderID p, sh_ClientMessageID p)) as Hkey.
  { intros id r. unfold scheduled_key, key_of. rewrite !andb_true_iff, !bool_decide_eq_true.
    split; [by intros [[-> ->] ->]|by intros [= -> -> ->]]. }
  destruct (rows_where _ (scheduled o)) as [|[id r] rows] eqn:Hrows.
  - case_bool_decide as Hnew; [simpl; reflexivity|]. simpl. apply write_post_evolves; [done| |done|].
    + intros r0 Hr0. destruct Hnew. by exists r0.
    + intros _ id' r' Hr' Hk. exfalso.
      assert ((id', r') ∈ rows_where (scheduled_key (sh_ChatID p) (sh_SenderID p) (sh_ClientMessageID p)) (scheduled o)) as Hin.
      { apply elem_of_rows_where. split; [done|]. by apply Hkey. }
      rewrite Hrows in Hin. by apply not_elem_of_nil in Hin.
  - assert ((id, r) ∈ rows_where (scheduled_key (sh_ChatID p) (sh_SenderID p) (sh_ClientMessageID p)) (scheduled o)) as Hin by (rewrite Hrows; by left).
    apply elem_of_rows_where in Hin as [Hr Hk]. apply Hkey in Hk.
    destruct (sc_published_at r) eqn:Hpub; [simpl; reflexivity|]. simpl.
    intros Hok. apply write_post_evolves; simpl; [| |done| |done].
    + change (minted id = (sh_ChatID p, sh_SenderID p, sh_ClientMessageID p)). rewrite <-Hk. by apply (qo_minted _ _ (proj2 Hok)).
    + intros r0 Hr0. rewrite Hr in Hr0. by injection Hr0 as <-.
    + intros Hq id' r' Hr' Hk'. eapply (qo_key _ _ Hq); [exact Hr'|exact Hr|]. by rewrite Hk', Hk.
Qed.
Lemma CancelScheduled_evolves id sender o d : queue_evolves (o, d) ((CancelScheduled id sender o).2, d).
Proof.
  unfold CancelScheduled. destruct (hits _ _ _) eqn:Hhit; [|simpl; reflexivity]. apply hits_true in Hhit as (r & Hr & HP).
  apply andb_true_iff in HP as [_ Hun]. intros [Hok [H1 H2 H3]].
  split; [split; [done|split; simpl]|split; [by apply persists_eq|simpl]].
  - intros id' r' [_ Hr']%lookup_delete_Some. by apply H1.
  - intros id1 id2 r1 r2 [_ Hr1]%lookup_delete_Some [_ Hr2]%lookup_delete_Some. by eapply H2.
  - intros id' r' [_ Hr']%lookup_delete_Some. by eapply H3.
  - intros id' r' Hr' Hp. rewrite lookup_delete_ne; [done|]. intros <-. rewrite Hr in Hr'. injection Hr' as ->.
    unfold unpublished in Hun. by destruct (sc_published_at r').
Qed.

Lemma ClaimDueScheduled_evolves now locked limit o d : queue_evolves (o, d) ((ClaimDueScheduled now locked limit o).2, d).
Proof.
  unfold ClaimDueScheduled. cbn [snd].
  assert (∀ id r, scheduled o !! id = Some r → id ∈ (claimable now locked limit o).*1 → sc_published_at r = None) as Hun.
  { intros id r Hr ([id' r'] & -> & Hin)%list_elem_of_fmap.
    unfold claimable in Hin. apply elem_of_take in Hin as (k & Hk & _). apply list_elem_of_lookup_2 in Hk.
    rewrite elem_of_order_by, elem_of_rows_where in Hk. destruct Hk as [Hr' Hd]. simpl in *. rewrite Hr in Hr'. injection Hr' as ->.
    unfold due, unpublished in Hd. by destruct (sc_published_at r'). }
  set (ids := (claimable now locked limit o).*1) in *.
  assert (with_scheduled (update_where (λ k _, bool_decide (k ∈ ids)) (λ _, claim_row now) (scheduled o)) o =
    with_scheduled (update_where (λ k r, bool_decide (k ∈ ids) && unpublished r) (λ _, claim_row now) (scheduled o)) o) as ->.
  { f_equal. apply map_eq. intros id. rewrite !lookup_update_where. destruct (scheduled o !! id) as [r|] eqn:Hr; [|done]. simpl.
    case_bool_decide as Hin; [|done]. unfold unpublished. by rewrite (Hun id r Hr Hin). }
  apply rewrite_posts_evolves; [done| |].
  - intros id r [_ Hu]%andb_true_iff. unfold unpublished in Hu. by destruct (sc_published_at r).
  - intros id r _ [_ Hu]%andb_true_iff Hp. unfold unpublished in Hu. simpl in Hp. by destruct (sc_published_at r).
Qed.
Lemma MarkScheduledFailed_evolves now id reason o d : queue_evolves (o, d) (MarkScheduledFailed now id reason o, d).
Proof.
  apply rewrite_posts_evolves; [done| |].
  - intros id' r [_ Hu]%andb_true_iff. unfold unpublished in Hu. by destruct (sc_published_at r).
  - intros id' r _ [_ Hu]%andb_true_iff Hp. unfold unpublished in Hu. simpl in Hp. by destruct (sc_published_at r).
Qed.
(** The message recorded carries the key the post's id was minted for. *)
Lemma MarkScheduledPublished_evolves now id m row o d :
  (queue_ok o d → messages d !! m = Some row ∧ message_key row = Some (minted id)) →
  queue_evolves (o, d) (MarkScheduledPublished now id m o, d).
Proof.
  intros Hm Hall. apply rewrite_posts_evolves; [done| | |done].
  - intros id' r [_ Hu]%andb_true_iff. unfold unpublished in Hu. by destruct (sc_published_at r).
  - intros id' r Hr [->%bool_decide_eq_true _]%andb_true_iff _. destruct (Hm (proj2 Hall)) as [Hl Hk].
    exists m, row. split; [done|]. split; [done|]. by rewrite Hk, (qo_minted _ _ (proj2 Hall) id r Hr).
Qed.
End queue.

Lemma elem_of_claimable now locked limit o id r :
  (id, r) ∈ claimable now locked limit o → scheduled o !! id = Some r ∧ due now r = true ∧ id ∉ locked.
Proof.
  unfold claimable. intros (k & Hk & _)%elem_of_take. apply list_elem_of_lookup_2 in Hk.
  rewrite elem_of_order_by, elem_of_rows_where, andb_true_iff, negb_true_iff, bool_decide_eq_false in Hk. tauto.
Qed.

(** ** The publishers *)
Section publishing.
Context `{SpamGuard G} `{MessageLimiter L} `{PayloadCodec}.
Variable minted : uuid → post_key.
Implicit Types (w : org_world G L).

Definition org_evolves w w' : Prop :=
  queue_evolves minted (og_db w, w_db (og_world w)) (og_db w', w_db (og_world w')).
#[export] Instance org_evolves_preorder : PreOrder org_evolves.
Proof. unfold org_evolves. split; [intros w; reflexivity|]. intros w1 w2 w3 H12 H23. by etransitivity. Qed.

(** Others keep the queue and the store in order. *)
Definition env_ok (env : publish_env G L) : Prop :=
  (∀ w, org_evolves w (pe_before_send env w)) ∧ (∀ w, org_evolves w (pe_before_mark env w)) ∧
  (∀ d, store_grows d (pe_before env d)) ∧ (∀ d, store_grows d (pe_after env d)).

Lemma publish_one_evolves now env post w :
  env_ok env → minted post.1 = key_of post.2 → org_evolves w (publish_one now env post w).2.
Proof.
  intros (Hsend & Hmark & Hb & Ha) Hmint. unfold publish_one. set (w1 := pe_before_send env w).
  pose proof (Service_Send_grows now (pe_new_id env) (pe_before env) (pe_after env) (scheduled_input post.2) Hb Ha (og_world w1)) as Hg.
  destruct (Service_Send _ _ _ _ _ (og_world w1)) as [[m|e] sent] eqn:Hrun; simpl in Hg |- *.
  - intros Hok. pose proof (Hsend w Hok) as (Hok1 & Hp1 & Hf1).
    destruct (Service_Send_stored now (pe_new_id env) (pe_before env) (pe_after env) (scheduled_input post.2) (og_world w1) m sent
      (proj1 Hok1) Hb Ha Hrun) as (row & Hl & Hc & Hs & Hm).
    assert (org_evolves w1 (MkOrgWorld sent (og_db w1))) as Hev2 by (apply messages_evolve, Hg).
    set (w2 := MkOrgWorld sent (og_db w1)) in *. pose proof (Hmark w2) as Hev3. set (w3 := pe_before_mark env w2) in *.
    assert (org_evolves w w3) as Hev by (etransitivity; [exact (Hsend w)|]; by etransitivity).
    assert (persists (w_db sent) (w_db (og_world w3))) as Hp.
    { destruct (Hev2 Hok1) as (Hok2 & _). by destruct (Hev3 Hok2) as (_ & Hp & _). }
    destruct (message_key_persists _ _ _ _ Hp Hl) as (row' & Hl' & Hk').
    revert Hok. change (org_evolves w (MkOrgWorld (og_world w3) (MarkScheduledPublished now post.1 (mID m) (og_db w3)))).
    etransitivity; [exact Hev|]. apply (MarkScheduledPublished_evolves minted now post.1 (mID m) row'). intros _. split; [done|].
    rewrite Hk', Hmint. unfold message_key. by rewrite Hs, Hc, Hm.
  - set (w2 := MkOrgWorld sent (og_db w1)).
    assert (org_evolves w1 w2) as Hev2 by (apply messages_evolve, Hg).
    etransitivity; [exact (Hsend w)|]. etransitivity; [exact Hev2|]. etransitivity; [exact (Hmark w2)|].
    apply MarkScheduledFailed_evolves.
Qed.
Lemma publish_all_evolves now envs k posts n w :
  (∀ k, env_ok (envs k)) → (∀ post, post ∈ posts → minted post.1 = key_of post.2) →
  org_evolves w (publish_all now envs k posts n w).2.
Proof.
  intros Henv. revert k n w. induction posts as [|post posts IH]; intros k n w Hmint; simpl; [reflexivity|].
  pose proof (publish_one_evolves now (envs k) post w (Henv k) (Hmint post ltac:(by left))) as Hone.
  destruct (publish_one now (envs k) post w) as [ok w'].
  etransitivity; [exact Hone|]. apply IH. intros p Hp. apply Hmint. by right.
Qed.
Lemma PublishDue_evolves now locked envs limit w :
  (∀ k, env_ok (envs k)) → org_evolves w (PublishDue now locked envs limit w).2.
Proof.
  intros Henv Hok. revert Hok. unfold PublishDue.
  pose proof (ClaimDueScheduled_evolves minted now locked limit (og_db w) (w_db (og_world w))) as Hclaim.
  destruct (ClaimDueScheduled now locked limit (og_db w)) as [posts o] eqn:Hc. simpl in Hclaim.
  intros Hok. assert (∀ post, post ∈ posts → minted post.1 = key_of post.2) as Hmint.
  { unfold ClaimDueScheduled in Hc. injection Hc as <- _. intros post ([id r] & -> & Hin)%list_elem_of_fmap.
    apply elem_of_claimable in Hin as (Hr & _ & _). by apply (qo_minted _ _ _ (proj2 Hok) id r). }
  revert Hok. change (org_evolves w (publish_all now envs 0 posts 0 (MkOrgWorld (og_world w) o)).2).
  assert (org_evolves w (MkOrgWorld (og_world w) o)) as Hfirst by exact Hclaim.
  etransitivity; [exact Hfirst|]. by apply publish_all_evolves.
Qed.

Lemma on_org_evolves {A} (m : db → prog organisedb orgerr A) h :
  (∀ o d, queue_evolves minted (o, d) ((m d o).2, d)) → follows org_evolves (on_org (G := G) (L := L) m h).
Proof.
  intros Hm w. specialize (Hm (og_db w) (w_db (og_world w))). unfold on_org, org_evolves.
  by destruct (m (w_db (og_world w)) (og_db w)) as [[a|e] o].
Qed.
Lemma Service_Schedule_evolves now year new_id p :
  minted new_id = (sh_ChatID p, sh_SenderID p, sh_ClientMessageID p) →
  follows org_evolves (Service_Schedule (G := G) (L := L) now year new_id p).
Proof.
  intros Hmint. unfold Service_Schedule. follow_steps.
  - intros w. unfold in_world. pose proof (reads_context (G := G) (L := L) (sh_ChatID p) (sh_SenderID p) chat_not_found (og_world w)) as Hr.
    destruct (repo _ _ (og_world w)) as [r w']. simpl in *. unfold org_evolves. simpl. rewrite Hr. reflexivity.
  - apply on_org_evolves. intros o d. by apply Schedule_evolves.
Qed.

(** What happens to the queue and the messages: authors schedule and cancel, publishers
    run, and the messaging service does everything else it does. *)
Inductive org_step w : org_world G L → Prop :=
| step_schedule now year new_id p :
    minted new_id = (sh_ChatID p, sh_SenderID p, sh_ClientMessageID p) →
    org_step w (Service_Schedule now year new_id p w).2
| step_cancel id sender : org_step w (Service_CancelScheduled id sender w).2
| step_publish now locked envs limit : (∀ k, env_ok (envs k)) → org_step w (PublishDue now locked envs limit w).2
| step_messages w' :
    rtc store_step (w_db (og_world w)) (w_db (og_world w')) → og_db w' = og_db w → org_step w w'.
Lemma org_step_evolves w w' : org_step w w' → org_evolves w w'.
Proof.
  destruct 1 as [now year new_id p Hmint|id sender|now locked envs limit Henv|w' Hsteps Hq].
  - by apply Service_Schedule_evolves.
  - apply on_org_evolves. intros o d. apply CancelScheduled_evolves.
  - by apply PublishDue_evolves.
  - unfold org_evolves. rewrite Hq. by apply messages_evolve, store_steps_grow.
Qed.
Lemma org_steps_evolve w w' : rtc org_step w w' → org_evolves w w'.
Proof. induction 1 as [w|w1 w2 w3 Hs _ IH]; [reflexivity|]. etransitivity; [by apply org_step_evolves|done]. Qed.
End publishing.

(** C25: A scheduled post becomes exactly one message, or none.  Whatever authors queue,
    revise and cancel, however many publishers run, overlap, die between the send and
    the mark, or claim the same post again, and whatever else the messaging service does
    meanwhile: a post recorded as published names a message of its chat, its author and
    its client id, no other message carries that key, and the record never changes
    again.  (An id the database generates is never generated again: [minted] says for
    which request it was.) *)
Theorem scheduled_posts_publish_once `{SpamGuard G} `{MessageLimiter L} `{PayloadCodec}
    (minted : uuid → post_key) (w w' : org_world G L) :
  rtc (org_step minted) w w' → store_ok (w_db (og_world w)) → queue_ok minted (og_db w) (w_db (og_world w)) →
  queue_ok minted (og_db w') (w_db (og_world w')) ∧
  (∀ id r, scheduled (og_db w) !! id = Some r → sc_published_at r ≠ None → scheduled (og_db w') !! id = Some r) ∧
  (∀ id r, scheduled (og_db w') !! id = Some r → sc_published_at r ≠ None →
     ∃ m row, sc_published_message_id r = Some m ∧ messages (w_db (og_world w')) !! m = Some row ∧
       message_key row = Some (key_of r) ∧
       ∀ m2 row2, messages (w_db (og_world w')) !! m2 = Some row2 → message_key row2 = Some (key_of r) → m2 = m).
Proof.
  intros Hsteps Hok Hq. destruct (org_steps_evolve minted w w' Hsteps (conj Hok Hq)) as ([Hok' Hq'] & _ & Hfinal).
  split; [done|]. split; [done|]. intros id r Hr Hpub.
  destruct (qo_published _ _ _ Hq' id r Hr Hpub) as (m & row & Hm & Hl & Hk). exists m, row. split_and!; [done..|].
  intros m2 row2 Hl2 Hk2. pose proof Hok' as (_ & Hh & _). simpl in *.
  unfold message_key in Hk, Hk2. destruct (r_sender_id row) as [s|] eqn:Hs; [|done]. destruct (r_sender_id row2) as [s2|] eqn:Hs2; [|done].
  cbn in Hk, Hk2. injection Hk as Hc Hse Hcl. injection Hk2 as Hc2 Hse2 Hcl2.
  eapply (ok_key _ _ Hh); [exact Hl2|exact Hl|congruence|congruence|congruence|congruence].
Qed.

#[local] Existing Instance toy_codec.

(** Ben (2) queues a post; a publisher sends it, and a second one finds nothing to do. *)
Definition ben_post : ScheduleParams := MkScheduleParams 10 2 79 TypeText "later" [] None false (2 * minute).
Definition no_env : publish_env (gmap (string * string) Antispam.Score) limiter_state :=
  MkPublishEnv 300 (λ w, w) (λ d, d) (λ d, d) (λ w, w).
Definition queue_start : org_world (gmap (string * string) Antispam.Score) limiter_state :=
  MkOrgWorld sample_world (MkOrganiseDb ∅ ∅ ∅ ∅).
Definition queue_later : org_world (gmap (string * string) Antispam.Score) limiter_state :=
  (Service_Schedule minute (3 * minute) 500 ben_post queue_start).2.
Definition queue_sent : org_world (gmap (string * string) Antispam.Score) limiter_state :=
  (PublishDue (2 * minute) ∅ (λ _, no_env) 10 queue_later).2.

Lemma scheduled_posts_publish_once_witness :
  ∃ r, scheduled (og_db queue_sent) !! 500%N = Some r ∧ sc_published_at r = Some (2 * minute) ∧
    ∃ m row, sc_published_message_id r = Some m ∧ messages (w_db (og_world queue_sent)) !! m = Some row ∧
      message_key row = Some (10%N, 2%N, 79%N).
Proof.
  set (minted := λ _ : uuid, (10%N, 2%N, 79%N)).
  assert (rtc (org_step minted) queue_start queue_sent) as Hsteps.
  { eapply rtc_l; [by apply (step_schedule minted queue_start minute (3 * minute) 500 ben_post)|].
    apply rtc_once. apply (step_publish minted queue_later (2 * minute) ∅ (λ _, no_env) 10).
    intros _. unfold env_ok, no_env. simpl. split_and!; intros ?; reflexivity. }
  assert (queue_ok minted (og_db queue_start) (w_db (og_world queue_start))) as Hq.
  { split; simpl; intros *; by rewrite lookup_empty. }
  destruct (scheduled_posts_publish_once minted queue_start queue_sent Hsteps (proj2 sample_ok) Hq) as (_ & _ & Hone).
  assert (sc_published_at <$> scheduled (og_db queue_sent) !! 500%N = Some (Some (2 * minute))) as Hpub by (vm_compute; reflexivity).
  assert (key_of <$> scheduled (og_db queue_sent) !! 500%N = Some (10%N, 2%N, 79%N)) as Hkey by (vm_compute; reflexivity).
  apply fmap_Some_1 in Hpub as (r & Hr & Hp). rewrite Hr in Hkey.
  pose proof (inj Some (key_of r) (10%N, 2%N, 79%N) Hkey) as Hk.
  exists r. split; [exact Hr|]. split; [symmetry; exact Hp|].
  destruct (Hone 500%N r Hr) as (m & row & Hm & Hl & Hmk & _); [rewrite <-Hp; discriminate|].
  exists m, row. split; [exact Hm|]. split; [exact Hl|]. rewrite Hmk, Hk. reflexivity.
Defined.

(** ** Claims *)

(** The claimed posts are as the claim left them, or have been published, failed again or
    cancelled: none has been revised by its author. *)
Definition not_revised (now : time) (posts : list (uuid * scheduled_row)) (o : organisedb) : Prop :=
  ∀ id r, id ∈ posts.*1 → scheduled o !! id = Some r →
    sc_published_at r ≠ None ∨ ∃ t, sc_claimed_until r = Some t ∧ now + scheduledClaimLease ≤ t.
Lemma leased_not_due now now2 r t :
  sc_claimed_until r = Some t → now + scheduledClaimLease ≤ t → now2 < now + scheduledClaimLease → due now2 r = false.
Proof.
  intros Hr Ht Hnow. unfold due. rewrite Hr, (proj2 (Z.leb_gt t now2)) by lia. by rewrite andb_false_r.
Qed.
Lemma StronglySorted_take {A} (R : A → A → Prop) (l : list A) n x y :
  StronglySorted R l → x ∈ take n l → y ∈ drop n l → R x y.
Proof.
  intros Hs. revert n. induction Hs as [|a l Hs IH Hall]; intros n Hx Hy.
  - rewrite drop_nil in Hy. by apply not_elem_of_nil in Hy.
  - destruct n as [|n]; [by apply not_elem_of_nil in Hx|]. simpl in *. apply elem_of_cons in Hx as [->|Hx]; [|by eapply IH].
    rewrite Forall_forall in Hall. apply Hall.
    rewrite <-(take_drop n l). apply elem_of_app. by right.
Qed.

(** A publisher's claim takes the earliest due posts, at most [limit] of them, and
    what it takes is its own for two minutes: each post taken was open, due and not
    leased, and leaves with one attempt more and a lease; a due post left behind is due
    no earlier than those taken, and only when the batch is full.  Until the lease ends
    no claim takes a post again unless its author has revised it; and a post whose last
    attempt failed is given up for good. *)
Lemma claims_are_leased now locked limit o posts o' :
  ClaimDueScheduled now locked limit o = (posts, o') →
  Z.of_nat (length posts) ≤ Z.max 0 limit ∧
  (∀ id r, (id, r) ∈ posts → ∃ r0, scheduled o !! id = Some r0 ∧ due now r0 = true ∧ id ∉ locked ∧
     r = claim_row now r0 ∧ scheduled o' !! id = Some r) ∧
  (∀ id r, id ∉ posts.*1 → scheduled o !! id = Some r → scheduled o' !! id = Some r ∧
     (due now r = true → id ∉ locked → Z.of_nat (length posts) = Z.max 0 limit ∧
        ∀ id' r', (id', r') ∈ posts → sc_scheduled_at r' ≤ sc_scheduled_at r)) ∧
  (∀ o2 now2 locked2 limit2, not_revised now posts o2 → now2 < now + scheduledClaimLease →
     ∀ id, id ∈ posts.*1 → id ∉ (ClaimDueScheduled now2 locked2 limit2 o2).1.*1) ∧
  (∀ o2 id r now2 now3 reason, scheduled o2 !! id = Some r → unpublished r = true → maxScheduledPublishAttempts ≤ sc_attempts r →
     due now3 <$> scheduled (MarkScheduledFailed now2 id reason o2) !! id = Some false).
Proof.
  unfold ClaimDueScheduled. intros [= <- <-].
  assert (∀ id r, (id, r) ∈ (λ kr : uuid * scheduled_row, (kr.1, claim_row now kr.2)) <$> claimable now locked limit o ↔
    ∃ r0, (id, r0) ∈ claimable now locked limit o ∧ r = claim_row now r0) as Hin.
  { intros id r. rewrite list_elem_of_fmap. split.
    - intros ([id' r0] & [= -> ->] & Hin). by exists r0.
    - intros (r0 & Hin & ->). by exists (id, r0). }
  assert (∀ id, id ∈ ((λ kr : uuid * scheduled_row, (kr.1, claim_row now kr.2)) <$> claimable now locked limit o).*1 ↔
    id ∈ (claimable now locked limit o).*1) as Hids.
  { intros id. by rewrite <-list_fmap_compose. }
  split_and!.
  - rewrite length_fmap. unfold claimable. rewrite length_take. lia.
  - intros id r (r0 & Hc & ->)%Hin. pose proof Hc as (Hr & Hd & Hl)%elem_of_claimable.
    exists r0. split_and!; [done..|]. simpl. rewrite lookup_update_where, Hr. simpl.
    rewrite bool_decide_true; [done|]. by apply (list_elem_of_fmap_2 fst) in Hc.
  - intros id r Hni Hr. rewrite Hids in Hni. split.
    + simpl. rewrite lookup_update_where, Hr. simpl. by rewrite bool_decide_false.
    + intros Hd Hl. rewrite length_fmap. unfold claimable in Hni |- *.
      set (l := order_by (λ kr : uuid * scheduled_row, sc_scheduled_at kr.2)
        (rows_where (λ k r, due now r && negb (bool_decide (k ∈ locked))) (scheduled o))) in *.
      assert ((id, r) ∈ l) as Hinl.
      { unfold l. rewrite elem_of_order_by, elem_of_rows_where. by rewrite Hd, bool_decide_false. }
      assert ((id, r) ∈ drop (Z.to_nat limit) l) as Hdrop.
      { rewrite <-(take_drop (Z.to_nat limit) l) in Hinl. apply elem_of_app in Hinl as [Ht|Ht]; [|done].
        by apply (list_elem_of_fmap_2 fst) in Ht. }
      split.
      * rewrite length_take. assert (Z.to_nat limit < length l)%nat; [|lia].
        apply not_le. intros Hge. rewrite drop_ge in Hdrop by done. by apply not_elem_of_nil in Hdrop.
      * intros id' r' ([id2 r2] & [= -> ->] & Ht)%list_elem_of_fmap.
        apply (StronglySorted_take (key_le (λ kr : uuid * scheduled_row, sc_scheduled_at kr.2)) l _ (id2, r2) (id, r)
          (order_by_sorted _ _) Ht Hdrop).
  - intros o2 now2 locked2 limit2 Hkept Hnow id Hid%Hids ([id2 r2] & -> & Hc)%list_elem_of_fmap.
    simpl in *. apply list_elem_of_fmap in Hc as ([id3 r3] & [= -> ->] & Hc).
    apply elem_of_claimable in Hc as (Hr & Hd & _).
    destruct (Hkept id3 r3 (proj2 (Hids id3) Hid) Hr) as [Hpub|(t & Ht & Hle)].
    + unfold due, unpublished in Hd. by destruct (sc_published_at r3).
    + by rewrite (leased_not_due now now2 r3 t) in Hd.
  - intros o2 id r now2 now3 reason Hr Hun Hatt. simpl. rewrite lookup_update_where, Hr. simpl.
    rewrite bool_decide_true by done. rewrite Hun. simpl. f_equal. unfold due, fail_row. simpl.
    rewrite (proj2 (Z.leb_le _ _)) by done. by rewrite andb_false_r.
Qed.

Lemma claims_are_leased_witness :
  ∃ posts o', ClaimDueScheduled (2 * minute) ∅ 10 (og_db queue_later) = (posts, o') ∧ posts.*1 = [500%N] ∧
    500%N ∉ (ClaimDueScheduled (3 * minute) ∅ 10 o').1.*1.
Proof.
  destruct (ClaimDueScheduled (2 * minute) ∅ 10 (og_db queue_later)) as [posts o'] eqn:Hc.
  assert (posts.*1 = [500%N]) as Hposts.
  { change posts with (posts, o').1. rewrite <-Hc. vm_compute. reflexivity. }
  exists posts, o'. split; [reflexivity|]. split; [exact Hposts|].
  destruct (claims_are_leased (2 * minute) ∅ 10 (og_db queue_later) posts o' Hc) as (_ & Hrow & _ & Hlease & _).
  apply (Hlease o' (3 * minute) ∅ 10).
  - intros id r Hid Hr. right. exists (2 * minute + scheduledClaimLease). split; [|lia].
    apply list_elem_of_fmap in Hid as ([id' r'] & -> & Hin). destruct (Hrow id' r' Hin) as (r0 & _ & _ & _ & -> & Hr').
    simpl in Hr. rewrite Hr' in Hr. injection Hr as <-. reflexivity.
  - vm_compute. reflexivity.
  - rewrite Hposts. by left.
Defined.

(** ** Live locations *)
Section live_locations.
Context `{PayloadCodec}.
Implicit Types (d : db) (r : message_row).

Lemma live_location_Ok now id author d l d' :
  live_location now id author d = (Ok l, d') →
  ∃ r, own_location id author d = Some r ∧ unmarshal_location (r_payload r) = Some l ∧ IsLive now l = true ∧ d' = d.
Proof.
  unfold live_location. intros Hrun. rewrite bind_run in Hrun. unfold gets at 1 in Hrun. cbn beta iota in Hrun.
  rewrite bind_run in Hrun. unfold or_fail at 1 in Hrun. destruct (own_location id author d) as [r|]; [|done].
  rewrite bind_run in Hrun. unfold or_fail at 1 in Hrun. destruct (unmarshal_location (r_payload r)) as [l0|] eqn:Hl; [|done].
  rewrite bind_run in Hrun. unfold fail_if at 1 in Hrun. destruct (IsLive now l0) eqn:Hlive; [|done].
  injection Hrun as <- <-. by exists r.
Qed.
Lemma own_location_spec id author d r :
  own_location id author d = Some r ↔
  messages d !! id = Some r ∧ r_sender_id r = Some author ∧ r_type r = TypeLocation ∧ r_deleted_at r = None.
Proof.
  unfold own_location. destruct (messages d !! id) as [r0|]; cbn [mbind option_bind]; [|by split; [|intros []]].
  destruct (bool_decide_reflect (r_sender_id r0 = Some author)); [|by split; [|intros ([= ->] & ? & _)]].
  destruct (bool_decide_reflect (r_type r0 = TypeLocation)); [|by split; [|intros ([= ->] & ? & ? & _)]].
  destruct (r_deleted_at r0) eqn:Hd; simpl; split; try done; [intros ([= ->] & _ & _ & ?); congruence| |].
  - intros [= ->]. done.
  - intros ([= ->] & _). done.
Qed.
Lemma UpdateLiveLocation_Ok now env id author lat lon acc hd sp d m ch d' :
  UpdateLiveLocation now env id author lat lon acc hd sp d = (Ok (m, ch), d') →
  ∃ r l l' r1, own_location id author d = Some r ∧ unmarshal_location (r_payload r) = Some l ∧ IsLive now l = true ∧
    location_Validate now (moved lat lon acc hd sp l) = Ok l' ∧ messages (env d) !! id = Some r1 ∧
    ∃ j, marshal_location (with_LiveUntil (LiveUntil l) l') = Some j ∧
      d' = with_messages (<[id := with_r_payload j r1]> (messages (env d))) (env d).
Proof.
  unfold UpdateLiveLocation. intros Hrun. rewrite bind_run in Hrun.
  destruct (live_location now id author d) as [[l|e] d0] eqn:Hlive; [|done].
  apply live_location_Ok in Hlive as (r & Hr & Hl & Hlive & ->).
  rewrite bind_run in Hrun. destruct (location_Validate now (moved lat lon acc hd sp l)) as [l'|e] eqn:Hval; [|done].
  rewrite bind_run in Hrun. unfold or_fail at 1 in Hrun.
  destruct (marshal_location (with_LiveUntil (LiveUntil l) l')) as [j|] eqn:Hj; [|done].
  cbn beta iota in Hrun. unfold mret at 1, prog_ret at 1 in Hrun. rewrite bind_run in Hrun. unfold modify at 1 in Hrun. cbn beta iota in Hrun.
  rewrite bind_run in Hrun. unfold write_payload in Hrun. destruct (messages (env d) !! id) as [r1|] eqn:Hr1; [|done].
  injection Hrun as _ _ <-. exists r, l, l', r1. do 5 (split; [done|]). by exists j.
Qed.
Lemma StopLiveLocation_Ok now env id author d ch d' :
  StopLiveLocation now env id author d = (Ok ch, d') →
  ∃ r l, own_location id author d = Some r ∧ unmarshal_location (r_payload r) = Some l ∧ IsLive now l = true ∧
    ∃ j, marshal_location (with_LiveUntil (Some now) l) = Some j ∧ d' = (write_payload id j (env d)).2.
Proof.
  unfold StopLiveLocation. intros Hrun. rewrite bind_run in Hrun. unfold gets at 1 in Hrun. cbn beta iota in Hrun.
  rewrite bind_run in Hrun. destruct (live_location now id author d) as [[l|e] d0] eqn:Hlive; [|done].
  apply live_location_Ok in Hlive as (r & Hr & Hl & Hlive & ->).
  rewrite bind_run in Hrun. unfold or_fail at 1 in Hrun. rewrite Hr in Hrun. cbn [fmap option_fmap option_map] in Hrun.
  unfold mret at 1, prog_ret at 1 in Hrun. cbn beta iota in Hrun. rewrite bind_run in Hrun. unfold or_fail at 1 in Hrun.
  destruct (marshal_location (with_LiveUntil (Some now) l)) as [j|] eqn:Hj; [|done]. cbn in Hrun. injection Hrun as _ <-.
  exists r, l. do 3 (split; [done|]). by exists j.
Qed.
Lemma plain_with_LiveUntil until l : plain_location l = true → plain_location (with_LiveUntil until l) = true.
Proof. done. Qed.
Lemma moved_plain lat lon acc hd sp l : forallb finite64 [lat; lon; acc; hd; sp] = true → plain_location l = true →
  plain_location (moved lat lon acc hd sp l) = true.
Proof. cbn [forallb]. rewrite !plain_location_spec, !andb_true_iff. simpl. tauto. Qed.
(** Once a stored share has run out, nothing moves or stops it. *)
Lemma ended_share_refuses now id d r l :
  messages d !! id = Some r → unmarshal_location (r_payload r) = Some l → IsLive now l = false →
  (∀ author env lat lon acc hd sp, is_Ok (UpdateLiveLocation now env id author lat lon acc hd sp d).1 = false) ∧
  (∀ author env, is_Ok (StopLiveLocation now env id author d).1 = false).
Proof.
  intros Hr Hl Hlive. split.
  - intros author env lat lon acc hd sp. destruct (UpdateLiveLocation _ _ _ _ _ _ _ _ _ d) as [[[m ch]|e] d'] eqn:Hrun; [|done].
    apply UpdateLiveLocation_Ok in Hrun as (r0 & l0 & _ & _ & [Hr0 _]%own_location_spec & Hl0 & Hlive0 & _). congruence.
  - intros author env. destruct (StopLiveLocation _ _ _ _ d) as [[ch|e] d'] eqn:Hrun; [|done].
    apply StopLiveLocation_Ok in Hrun as (r0 & l0 & [Hr0 _]%own_location_spec & Hl0 & Hlive0 & _). congruence.
Qed.
End live_locations.

(** A live location is moved by its author alone, only while it is shared, and a move
    does not prolong the share: what is stored afterwards is the validated new point
    with the same end, and no other message changes.  When the author stops it, with
    nothing committed in between, it has ended: whatever is done to other columns and
    other messages afterwards, no later move or stop is accepted. *)
Lemma live_location_moves_and_stops `{PayloadCodec} :
  (∀ now env id author lat lon acc hd sp d m ch d',
     forallb finite64 [lat; lon; acc; hd; sp] = true →
     UpdateLiveLocation now env id author lat lon acc hd sp d = (Ok (m, ch), d') →
     ∃ r l l' r', messages d !! id = Some r ∧ r_sender_id r = Some author ∧ r_deleted_at r = None ∧
       unmarshal_location (r_payload r) = Some l ∧ IsLive now l = true ∧
       messages d' = <[id := r']> (messages (env d)) ∧ unmarshal_location (r_payload r') = Some l' ∧
       LiveUntil l' = LiveUntil l ∧ same_number lat (Latitude l') ∧ same_number lon (Longitude l') ∧
       same_number acc (HorizontalAccuracy l') ∧
       is_nan lat = false ∧ outside (-90) 90 lat = false ∧ is_nan lon = false ∧ outside (-180) 180 lon = false) ∧
  (∀ now id author d ch d', StopLiveLocation now (λ d, d) id author d = (Ok ch, d') →
     (∃ r, messages d !! id = Some r ∧ r_sender_id r = Some author) ∧
     ∀ d2 r', messages d' !! id = Some r' → (∃ r2, messages d2 !! id = Some r2 ∧ r_payload r2 = r_payload r') →
     ∀ now2, now ≤ now2 →
       (∀ author2 env lat lon acc hd sp, is_Ok (UpdateLiveLocation now2 env id author2 lat lon acc hd sp d2).1 = false) ∧
       (∀ author2 env, is_Ok (StopLiveLocation now2 env id author2 d2).1 = false)).
Proof.
  split.
  - intros now env id author lat lon acc hd sp d m ch d' Hfin Hrun.
    apply UpdateLiveLocation_Ok in Hrun as (r & l & l' & r1 & (Hr & Hs & _ & Hdel)%own_location_spec & Hl & Hlive & Hval & Hr1 & j & Hj & ->).
    pose proof (moved_plain lat lon acc hd sp l Hfin (location_plain _ _ Hl)) as Hplain.
    pose proof (location_Validate_plain _ _ _ Hplain Hval) as Hplain'.
    destruct (location_round_trip _ j (plain_with_LiveUntil (LiveUntil l) l' Hplain') Hj) as (q & Hq & Ha & Ho & Hc & _ & _ & _ & Hu & _).
    apply location_Validate_Ok in Hval as ((H1 & H2 & H3 & H4 & _) & _ & _ & _ & ->). simpl in *.
    exists r, l, q. eexists. do 5 (split; [done|]). split; [done|]. cbn [r_payload with_r_payload]. by split_and!.
  - intros now id author d ch d' Hrun.
    apply StopLiveLocation_Ok in Hrun as (r & l & (Hr & Hs & _ & _)%own_location_spec & Hl & Hlive & j & Hj & ->). split; [by exists r|].
    destruct (location_round_trip _ j (plain_with_LiveUntil (Some now) l (location_plain _ _ Hl)) Hj) as (q & Hq & _ & _ & _ & _ & _ & _ & Hu & _).
    unfold write_payload. rewrite Hr. cbn [snd messages with_messages]. intros d2 r'. rewrite lookup_insert_eq.
    intros [= <-] (r2 & Hr2 & Hp) now2 Hnow. cbn [r_payload with_r_payload] in Hp.
    apply (ended_share_refuses now2 id d2 r2 q); [done|by rewrite Hp|].
    unfold IsLive. rewrite Hu. simpl. by apply Z.ltb_ge.
Qed.

(** Ben's location in chat 10, shared for two minutes from time 0. *)
Definition shared_place (until : time) : LocationPayload :=
  MkLocation (f64 1) (f64 2) (f64 5) 120 (Some until) (f64 0) (f64 0) "" "".
Definition live_row : message_row :=
  MkMessageRow 10 2 (Some 2%N) 80 TypeLocation "" (JArr []) (toy_location (shared_place (2 * minute)))
    None None None None "" 0 false false 0 None None None None None "".
Definition live_db : db := with_messages (<[150%N := live_row]> (messages sample_db)) sample_db.
Definition stopped_db : db := (StopLiveLocation minute (λ d, d) 150 2 live_db).2.

Lemma live_location_moves_and_stops_witness :
  (∃ r l, messages live_db !! 150%N = Some r ∧ unmarshal_location (r_payload r) = Some l ∧ IsLive minute l = true) ∧
  is_Ok (UpdateLiveLocation (minute + 1) (λ d, d) 150 2 (f64 3) (f64 4) (f64 1) (f64 0) (f64 0) stopped_db).1 = false.
Proof.
  destruct live_location_moves_and_stops as [Hmove Hstop]. split.
  - destruct (run_is_Ok (UpdateLiveLocation minute (λ d, d) 150 2 (f64 3) (f64 4) (f64 1) (f64 0) (f64 0)) live_db)
      as [[m ch] Hrun]; [vm_compute; reflexivity|].
    destruct (Hmove minute (λ d, d) 150%N 2%N (f64 3) (f64 4) (f64 1) (f64 0) (f64 0) live_db m ch _ eq_refl Hrun)
      as (r & l & l' & r' & Hr & _ & _ & Hl & Hlive & _).
    exists r, l. split; [exact Hr|]. split; [exact Hl|exact Hlive].
  - destruct (run_is_Ok (StopLiveLocation minute (λ d, d) 150 2) live_db) as [ch Hrun]; [vm_compute; reflexivity|].
    destruct (Hstop minute 150%N 2%N live_db ch stopped_db Hrun) as [_ Hrefuse].
    assert (is_Some (messages stopped_db !! 150%N)) as [r' Hr'].
    { apply is_Some_alt. vm_compute. exact I. }
    apply (Hrefuse stopped_db r' Hr'); [exists r'; split; [exact Hr'|reflexivity]|lia].
Defined.

(** A move that read the share before it was stopped writes its old end back: the share
    runs on after its author stopped it. *)
Lemma a_stopped_share_restarts :
  ∃ m ch d', UpdateLiveLocation minute (λ d, (StopLiveLocation minute (λ d, d) 150 2 d).2) 150 2
      (f64 3) (f64 4) (f64 1) (f64 0) (f64 0) live_db = (Ok (m, ch), d') ∧
    is_Ok (UpdateLiveLocation (minute + 1) (λ d, d) 150 2 (f64 5) (f64 6) (f64 1) (f64 0) (f64 0) d').1 = true.
Proof.
  destruct (run_is_Ok (UpdateLiveLocation minute (λ d, (StopLiveLocation minute (λ d, d) 150 2 d).2) 150 2
      (f64 3) (f64 4) (f64 1) (f64 0) (f64 0)) live_db) as [[m ch] Hrun]; [vm_compute; reflexivity|].
  eexists m, ch, _. split; [exact Hrun|]. vm_compute. reflexivity.
Qed.

(** A forward carries no payload, so a location or a contact is never forwarded: the send
    refuses it and nothing is stored. *)
Lemma locations_and_contacts_are_not_forwarded `{SpamGuard G} `{MessageLimiter L} `{PayloadCodec}
    now id before after client p s (w : world G L) :
  fs_Type s = TypeLocation ∨ fs_Type s = TypeContact →
  ∃ e, Service_Send now id before after (forward_input client p s) w = (Err e, w).
Proof.
  intros Htype. unfold Service_Send. rewrite bind_run.
  assert (∃ e, validateSend now (forward_input client p s) = Err e) as [e He].
  { unfold validateSend. cbn [forward_input in_Type in_Payload].
    assert (∃ e, validateTypedPayload now (fs_Type s) RawNil = Err e) as [e ->].
    { unfold validateTypedPayload. destruct Htype as [-> | ->]; [rewrite decide_True by done; by eexists|].
      rewrite decide_False by done. rewrite decide_True by done. by eexists. }
    repeat (case_match; [by eexists|]). by eexists. }
  rewrite He. by exists e.
Qed.
