(* ===== verification/Folders.v ===== *)
(** * Chat folders and the chat list ([internal/messaging/folders.go], [ListChats])

    A folder is a saved filter over the caller's chat list.  One predicate decides what a
    folder holds; the list of its chats and the counts on its tab are two queries over it.
    The store keeps neither a chat's creation time nor its community: [created] gives the
    first, and the second is left out of the listing. *)

From stdpp Require Import base tactics list sorting gmap strings.
From Stdlib Require Import ZArith Lia.
From S2P Require Import Prelude Steps GoString Httpx Permissions Store ChatContext MessageRepo MessageTheory RateLimit Ports MessagingService Organise.

Set Default Goal Selector "!".
Open Scope Z_scope.

Definition maxFolders : Z := 30.
Definition maxFolderChats : Z := 200.
Definition maxFolderTitle : Z := 64.

Inductive foldererr := ErrFolderNotFound | ErrTooManyFolders | ErrFolderNameTaken | ErrFolderFull | FolderNotMember | FolderOther.

Record Folder := MkFolder {
  fd_ID : uuid;
  fd_row : folder_row;
  fd_IncludedChatIDs : list uuid;
  fd_ExcludedChatIDs : list uuid;
  fd_UnreadCount : Z;
  fd_ChatCount : Z;
}.
Record FolderInput := MkFolderInput {
  fi_Title : string;
  fi_Emoji : string;
  fi_Position : Z;
  fi_IncludeContacts : bool;
  fi_IncludeNonContacts : bool;
  fi_IncludeGroups : bool;
  fi_IncludeChannels : bool;
  fi_IncludeBots : bool;
  fi_ExcludeMuted : bool;
  fi_ExcludeRead : bool;
  fi_ExcludeArchived : bool;
}.

(** ** The predicate *)

Definition one_to_one (t : string) : bool := bool_decide (t = ChatPrivate) || bool_decide (t = ChatSecret).
(** The other live account in a one-to-one chat; with several, PostgreSQL picks one. *)
Definition peerJoin (d : db) (viewer chatID : uuid) (chatType : string) : option (uuid * user_row) :=
  if one_to_one chatType then
    head (omap (λ km : (uuid * uuid) * member_row,
      u ← users d !! km.1.2; if u_deleted_at u is None then Some (km.1.2, u) else None)
      (rows_where (λ k m, bool_decide (k.1 = chatID) && negb (bool_decide (k.2 = viewer)) && (if m_left_at m is None then true else false))
        (chat_members d)))
  else None.

(** A chat of the caller's: its id, the membership, the chat. *)
Abbreviation listed := (uuid * member_row * chat_row)%type.
Definition listed_chats (d : db) (userID : uuid) : list listed :=
  omap (λ km : (uuid * uuid) * member_row, c ← live_chat d km.1.1; Some (km.1.1, km.2, c))
    (rows_where (λ k m, bool_decide (k.2 = userID) && (if m_left_at m is None then true else false)) (chat_members d)).

Definition folder_entry (o : organisedb) (folderID chatID : uuid) (mode : string) : bool :=
  match chat_folder_chats o !! (folderID, chatID) with Some x => bool_decide (fc_mode x = mode) | None => false end.
Definition is_archived (o : organisedb) (chatID userID : uuid) : bool := (default (false, false) (chat_flags o !! (chatID, userID))).2.
Definition is_pinned (o : organisedb) (chatID userID : uuid) : bool := (default (false, false) (chat_flags o !! (chatID, userID))).1.
(** The three filters, which an inclusion does not override. *)
Definition folder_filters (now : time) (o : organisedb) (userID : uuid) (f : folder_row) (x : listed) : bool :=
  let '(chatID, m, _) := x in
  (negb (fo_exclude_muted f) || (match m_muted_until m with None => true | Some t => t <=? now end))
  && (negb (fo_exclude_read f) || (0 <? m_unread_count m))
  && (negb (fo_exclude_archived f) || negb (is_archived o chatID userID)).
Definition folder_rules (d : db) (userID : uuid) (f : folder_row) (x : listed) : bool :=
  let '(chatID, _, c) := x in
  let peer := peerJoin d userID chatID (c_type c) in
  let is_contact := match peer with Some (u, _) => bool_decide ((userID, u) ∈ contacts d) | None => false end in
  let is_bot := match peer with Some (_, u) => u_is_bot u | None => false end in
  let has_peer := bool_decide (is_Some peer) in
  (fo_include_groups f && bool_decide (c_type c = ChatGroup))
  || (fo_include_channels f && bool_decide (c_type c = ChatChannel))
  || (fo_include_bots f && bool_decide (c_type c = ChatPrivate) && is_bot)
  || (fo_include_contacts f && one_to_one (c_type c) && has_peer && is_contact)
  || (fo_include_non_contacts f && one_to_one (c_type c) && has_peer && negb is_bot && negb is_contact).
Definition folderPredicate (now : time) (d : db) (o : organisedb) (userID folderID : uuid) (f : folder_row) (x : listed) : bool :=
  negb (folder_entry o folderID x.1.1 "exclude")
  && folder_filters now o userID f x
  && (folder_entry o folderID x.1.1 "include" || folder_rules d userID f x).

(** ** The folders of a user *)

Definition unread_of (x : listed) : Z := m_unread_count x.1.2.
Definition entries (o : organisedb) (folderID : uuid) (mode : string) : list ((uuid * uuid) * folder_chat_row) :=
  rows_where (λ k x, bool_decide (k.1 = folderID) && bool_decide (fc_mode x = mode)) (chat_folder_chats o).
Definition folder_of (now : time) (d : db) (o : organisedb) (userID : uuid) (kf : uuid * folder_row) : Folder :=
  let held := filter (λ x, folderPredicate now d o userID kf.1 kf.2 x = true) (listed_chats d userID) in
  MkFolder kf.1 kf.2
    ((λ kx : (uuid * uuid) * folder_chat_row, kx.1.2) <$> order_by (λ kx : (uuid * uuid) * folder_chat_row, fc_position kx.2) (entries o kf.1 "include"))
    ((λ kx : (uuid * uuid) * folder_chat_row, kx.1.2) <$> entries o kf.1 "exclude")
    (foldr (λ x n, unread_of x + n) 0 held) (Z.of_nat (length held)).
Definition own_folder (userID : uuid) (_ : uuid) (f : folder_row) : bool := bool_decide (fo_owner f = userID).
Definition Folders (now : time) (d : db) (o : organisedb) (userID : uuid) : list Folder :=
  folder_of now d o userID <$>
    order_by_keys (λ kf : uuid * folder_row, [fo_position kf.2; fo_created_at kf.2]) (rows_where (own_folder userID) (chat_folders o)).

Definition folder_row_of (userID : uuid) (created now : time) (i : FolderInput) : folder_row :=
  MkFolderRow userID (fi_Title i) (fi_Emoji i) (fi_Position i) (fi_IncludeContacts i) (fi_IncludeNonContacts i)
    (fi_IncludeGroups i) (fi_IncludeChannels i) (fi_IncludeBots i) (fi_ExcludeMuted i) (fi_ExcludeRead i) (fi_ExcludeArchived i)
    created now.
Definition with_fo_position (p : Z) (now : time) (f : folder_row) : folder_row :=
  MkFolderRow (fo_owner f) (fo_title f) (fo_emoji f) p (fo_include_contacts f) (fo_include_non_contacts f) (fo_include_groups f)
    (fo_include_channels f) (fo_include_bots f) (fo_exclude_muted f) (fo_exclude_read f) (fo_exclude_archived f)
    (fo_created_at f) now.
Definition touch_folder (now : time) (f : folder_row) : folder_row := with_fo_position (fo_position f) now f.
Definition title_fits (t : string) : bool := (1 <=? rune_count t) && (rune_count t <=? 64).

Section repository.
(** PostgreSQL's [lower], which the unique index of titles folds with. *)
Variable lower : string → string.

Definition title_taken (userID : uuid) (except : option uuid) (title : string) (o : organisedb) : bool :=
  0 <? count_where (λ k f, bool_decide (fo_owner f = userID) && negb (bool_decide (Some k = except))
                           && bool_decide (lower (fo_title f) = lower title)) (chat_folders o).
Definition write_folder (id : uuid) (f : folder_row) : prog organisedb foldererr () := λ o,
  (Ok (), with_chat_folders (<[id := f]> (chat_folders o)) o).
(** The rows there are get locked and counted.  That stops no insertion: what others
    commit after the count is [meanwhile]. *)
Definition CreateFolder (now : time) (new_id : uuid) (meanwhile : organisedb → organisedb) (userID : uuid) (i : FolderInput)
    : prog organisedb foldererr uuid :=
  existing ← gets (λ o, count_where (own_folder userID) (chat_folders o));
  fail_if (maxFolders <=? existing) ErrTooManyFolders;;
  modify meanwhile;;
  fail_if (negb (title_fits (fi_Title i))) FolderOther;;
  taken ← gets (title_taken userID None (fi_Title i));
  fail_if taken ErrFolderNameTaken;;
  exists_ ← gets (λ o, bool_decide (is_Some (chat_folders o !! new_id)));
  fail_if exists_ FolderOther;;
  write_folder new_id (folder_row_of userID now now i);;
  mret new_id.
Definition UpdateFolder (now : time) (userID folderID : uuid) (i : FolderInput) : prog organisedb foldererr () :=
  f ← gets (λ o, f ← chat_folders o !! folderID; if own_folder userID folderID f then Some f else None);
  f ← or_fail f ErrFolderNotFound;
  fail_if (negb (title_fits (fi_Title i))) FolderOther;;
  taken ← gets (title_taken userID (Some folderID) (fi_Title i));
  fail_if taken ErrFolderNameTaken;;
  write_folder folderID (folder_row_of userID (fo_created_at f) now i).
End repository.

Definition DeleteFolder (userID folderID : uuid) : prog organisedb foldererr () := λ o,
  if hits (own_folder userID) (chat_folders o) folderID then
    (Ok (), with_chat_folder_chats (delete_where (λ k _, bool_decide (k.1 = folderID)) (chat_folder_chats o))
              (with_chat_folders (delete folderID (chat_folders o)) o))
  else (Err ErrFolderNotFound, o).
Definition held_entries (folderID : uuid) (o : organisedb) : Z :=
  count_where (λ k _, bool_decide (k.1 = folderID)) (chat_folder_chats o).
Definition next_position (folderID : uuid) (o : organisedb) : Z :=
  match fc_position ∘ snd <$> rows_where (λ k _, bool_decide (k.1 = folderID)) (chat_folder_chats o) with
  | [] => 0
  | p :: ps => foldr Z.max p ps + 1
  end.
(** Every check comes before the first write. *)
Definition SetFolderChat (now : time) (meanwhile : organisedb → organisedb) (d : db) (userID folderID chatID : uuid) (mode : string)
    : prog organisedb foldererr () :=
  owned ← gets (λ o, hits (own_folder userID) (chat_folders o) folderID);
  fail_if (negb owned) ErrFolderNotFound;;
  fail_if (negb (bool_decide (is_Some (active_member d chatID userID)))) FolderNotMember;;
  held ← gets (held_entries folderID);
  exists_ ← gets (λ o, bool_decide (is_Some (chat_folder_chats o !! (folderID, chatID))));
  fail_if ((maxFolderChats <=? held) && negb exists_) ErrFolderFull;;
  modify meanwhile;;
  present ← gets (λ o, bool_decide (is_Some (chat_folders o !! folderID)));
  fail_if (negb present) FolderOther;;
  fail_if (negb (bool_decide (mode ∈ ["include"; "exclude"]%string))) FolderOther;;
  modify (λ o,
    let x := match chat_folder_chats o !! (folderID, chatID) with
             | Some x => MkFolderChat mode (fc_position x)
             | None => MkFolderChat mode (next_position folderID o)
             end in
    with_chat_folder_chats (<[(folderID, chatID) := x]> (chat_folder_chats o))
      (with_chat_folders (update_where (λ k _, bool_decide (k = folderID)) (λ _, touch_folder now) (chat_folders o)) o)).
Definition RemoveFolderChat (userID folderID chatID : uuid) : prog organisedb foldererr () := λ o,
  if hits (own_folder userID) (chat_folders o) folderID && bool_decide (is_Some (chat_folder_chats o !! (folderID, chatID))) then
    (Ok (), with_chat_folder_chats (delete (folderID, chatID) (chat_folder_chats o)) o)
  else (Err ErrFolderNotFound, o).
(** The place of a folder in the order; of an id named twice PostgreSQL takes one place. *)
Fixpoint place_in (order : list uuid) (k : Z) (id : uuid) : option Z :=
  match order with
  | [] => None
  | x :: order => if decide (x = id) then Some k else place_in order (k + 1) id
  end.
Definition ReorderFolders (now : time) (userID : uuid) (order : list uuid) (o : organisedb) : organisedb :=
  with_chat_folders (update_where (λ k f, own_folder userID k f && bool_decide (k ∈ order))
    (λ k f, with_fo_position (default 0 (place_in order 0 k)) now f) (chat_folders o)) o.

(** ** The chat list *)

Record ChatPeer := MkChatPeer {
  cp_UserID : uuid;
  cp_DisplayName : string;
  cp_Username : option string;
  cp_AvatarID : option uuid;
  cp_IsBot : bool;
}.
Record Membership := MkMembership {
  ms_Role : string;
  ms_Permissions : Permissions;
  ms_LastReadSeq : Z;
  ms_UnreadCount : Z;
  ms_MentionCount : Z;
  ms_IsPinned : bool;
  ms_IsArchived : bool;
  ms_MutedUntil : option time;
  ms_Draft : string;
  ms_JoinedAt : time;
}.
Record Chat := MkListedChat {
  lc_ID : uuid;
  lc_Type : string;
  lc_Title : string;
  lc_Description : string;
  lc_Username : option string;
  lc_PhotoMediaID : option uuid;
  lc_CreatorID : option uuid;
  lc_LastSeq : Z;
  lc_LastMessageAt : option time;
  lc_MemberCount : Z;
  lc_IsPublic : bool;
  lc_CreatedAt : time;
  lc_Membership : Membership;
  lc_Peer : option ChatPeer;
}.
Record ChatListQuery := MkChatListQuery {
  q_UserID : uuid;
  q_Limit : Z;
  q_Before : option time;
  q_FolderID : option uuid;
}.

Section chat_list.
Variable created : uuid → time.

(** [COALESCE(NULLIF(p.display_name, ''), u.username, '')] *)
Definition peer_name (u : user_row) : string :=
  match u_display_name u with
  | Some n => if decide (n = ""%string) then default "" (u_username u) else n
  | None => default "" (u_username u)
  end.
Definition chat_of (d : db) (o : organisedb) (userID : uuid) (x : listed) : Chat :=
  let '(chatID, m, c) := x in
  MkListedChat chatID (c_type c) (c_title c) (c_description c) (c_username c) (c_photo_media_id c) (c_creator_id c)
    (c_last_seq c) (c_last_message_at c) (c_member_count c) (c_is_public c) (created chatID)
    (MkMembership (m_role m) (applyOverrides (PermissionsForRole (m_role m) (c_type c)) (m_permissions m))
       (m_last_read_seq m) (m_unread_count m) (m_mention_count m) (is_pinned o chatID userID) (is_archived o chatID userID)
       (m_muted_until m) (m_draft m) (m_joined_at m))
    ((λ pu : uuid * user_row, MkChatPeer pu.1 (peer_name pu.2) (u_username pu.2) (u_avatar_media_id pu.2) (u_is_bot pu.2))
       <$> peerJoin d userID chatID (c_type c)).
(** [is_pinned DESC, last_message_at DESC NULLS LAST, created_at DESC] *)
Definition list_rank (o : organisedb) (userID : uuid) (x : listed) : list Z :=
  let '(chatID, _, c) := x in
  [if is_pinned o chatID userID then 0 else 1;
   if c_last_message_at c is None then 1 else 0; - default 0 (c_last_message_at c); - created chatID].
(** [last_message_at < before] holds of no chat without messages. *)
Definition before_cursor (before : option time) (x : listed) : bool :=
  match before with
  | None => true
  | Some t => match c_last_message_at x.2 with Some at_ => at_ <? t | None => false end
  end.
Definition in_folder (now : time) (d : db) (o : organisedb) (userID : uuid) (folderID : option uuid) (x : listed) : bool :=
  match folderID with
  | None => true
  | Some id => match chat_folders o !! id with
               | Some f => own_folder userID id f && folderPredicate now d o userID id f x
               | None => false
               end
  end.
Definition ListChats (now : time) (d : db) (o : organisedb) (q : ChatListQuery) : list Chat :=
  chat_of d o (q_UserID q) <$>
    take (Z.to_nat (q_Limit q)) (order_by_keys (list_rank o (q_UserID q))
      (filter (λ x, before_cursor (q_Before q) x && in_folder now d o (q_UserID q) (q_FolderID q) x = true)
        (listed_chats d (q_UserID q)))).
Definition Service_ListChats (now : time) (d : db) (o : organisedb) (userID : uuid) (limit : Z) (before : option time)
    (folderID : option uuid) : list Chat :=
  let limit := if (limit <=? 0) || (100 <? limit) then 50 else limit in
  ListChats now d o (MkChatListQuery userID limit before folderID).
(** What the endpoint answers: the page, whether it says there is more, and the cursor. *)
Definition listChats (now : time) (d : db) (o : organisedb) (userID : uuid) (limit : Z) (before : option time)
    (folderID : option uuid) : list Chat * bool * option time :=
  let chats := Service_ListChats now d o userID limit before folderID in
  (chats, Z.of_nat (length chats) =? limit, last chats ≫= lc_LastMessageAt).
End chat_list.

(** ** The handlers *)

Definition validateFolder (i : FolderInput) : result Error FolderInput :=
  let title := trim_space (fi_Title i) in
  if bool_decide (title = ""%string) then Err (WithField (Validation "A folder needs a name") "title" "required")
  else if maxFolderTitle <? rune_count title then
    Err (WithField (Validation "That name is too long") "title" "at most 64 characters")
  else if (fi_Position i <? 0) || (maxFolders <? fi_Position i) then
    Err (WithField (Validation "Position is out of range") "position" "between 0 and 30")
  else Ok (MkFolderInput title (fi_Emoji i) (fi_Position i) (fi_IncludeContacts i) (fi_IncludeNonContacts i) (fi_IncludeGroups i)
             (fi_IncludeChannels i) (fi_IncludeBots i) (fi_ExcludeMuted i) (fi_ExcludeRead i) (fi_ExcludeArchived i)).
Definition lift {E A} (r : result E A) : prog organisedb E A := λ o, (r, o).
Definition no_such_folder : Error := NotFound CodeNotFound "No such folder".
Definition name_taken : Error := Conflict CodeConflict "You already have a folder with that name".

Definition create_folder_error (e : foldererr) : Error :=
  match e with
  | ErrTooManyFolders => Conflict CodeConflict "You can have at most 30 folders"
  | ErrFolderNameTaken => name_taken
  | _ => Internal
  end.
Definition Service_CreateFolder (lower : string → string) (now : time) (new_id : uuid) (meanwhile : organisedb → organisedb)
    (userID : uuid) (i : FolderInput) : prog organisedb Error uuid :=
  i ← lift (validateFolder i);
  map_err create_folder_error (CreateFolder lower now new_id meanwhile userID i).
Definition update_folder_error (e : foldererr) : Error :=
  match e with ErrFolderNotFound => no_such_folder | ErrFolderNameTaken => name_taken | _ => Internal end.
Definition Service_UpdateFolder (lower : string → string) (now : time) (userID folderID : uuid) (i : FolderInput)
    : prog organisedb Error () :=
  i ← lift (validateFolder i);
  map_err update_folder_error (UpdateFolder lower now userID folderID i).
Definition folder_error (e : foldererr) : Error := match e with ErrFolderNotFound => no_such_folder | _ => Internal end.
Definition Service_DeleteFolder (userID folderID : uuid) : prog organisedb Error () :=
  map_err folder_error (DeleteFolder userID folderID).
Definition set_folder_chat_error (e : foldererr) : Error :=
  match e with
  | ErrFolderNotFound => no_such_folder
  | FolderNotMember => Forbidden CodeNotChatMember "You are not a member of this chat"
  | ErrFolderFull => Conflict CodeConflict "A folder can name at most 200 chats"
  | _ => Internal
  end.
Definition Service_SetFolderChat (now : time) (meanwhile : organisedb → organisedb) (d : db) (userID folderID chatID : uuid)
    (mode : string) : prog organisedb Error () :=
  fail_if (negb (bool_decide (mode = "include"%string)) && negb (bool_decide (mode = "exclude"%string)))
    (WithField (Validation "Unknown mode") "mode" "must be include or exclude");;
  map_err set_folder_chat_error (SetFolderChat now meanwhile d userID folderID chatID mode).
Definition Service_RemoveFolderChat (userID folderID chatID : uuid) : prog organisedb Error () :=
  map_err folder_error (RemoveFolderChat userID folderID chatID).
Definition Service_ReorderFolders (now : time) (userID : uuid) (order : list uuid) : prog organisedb Error () :=
  fail_if (maxFolders <? Z.of_nat (length order))
    (WithField (Validation "Too many folders in the order") "order" "at most 30");;
  modify (ReorderFolders now userID order).

(** * Chat folders: the theorems

    What a folder holds, that its badge and its list agree, and the bounds the operations
    keep. *)

(** ** Rows of the list *)

Lemma elem_of_listed d userID ch m c :
  (ch, m, c) ∈ listed_chats d userID ↔ active_member d ch userID = Some m ∧ live_chat d ch = Some c.
Proof.
  unfold listed_chats, active_member. rewrite list_elem_of_omap. split.
  - intros ([[ch' u] m'] & Hin & Hc). apply elem_of_rows_where in Hin as [Hm HP]. simpl in *.
    apply andb_true_iff in HP as [->%bool_decide_eq_true Hleft].
    destruct (live_chat d ch') as [c'|] eqn:Hl; [|done]. injection Hc as <- <- <-. rewrite Hm. simpl.
    by destruct (m_left_at m').
  - intros [Hm Hl]. destruct (chat_members d !! (ch, userID)) as [m'|] eqn:Hm'; [|done]. simpl in Hm.
    destruct (m_left_at m') eqn:Hleft; [done|]. injection Hm as ->.
    exists ((ch, userID), m). split.
    + apply elem_of_rows_where. split; [done|]. simpl. by rewrite bool_decide_true, Hleft.
    + simpl. by rewrite Hl.
Qed.
Lemma listed_unique d userID x y : x ∈ listed_chats d userID → y ∈ listed_chats d userID → x.1.1 = y.1.1 → x = y.
Proof.
  destruct x as [[ch1 m1] c1], y as [[ch2 m2] c2]. rewrite !elem_of_listed. simpl. intros [Hm1 Hc1] [Hm2 Hc2] ->. congruence.
Qed.

Definition all_chats (created : uuid → time) (now : time) (d : db) (o : organisedb) (userID : uuid) (folder : option uuid) : list Chat :=
  ListChats created now d o (MkChatListQuery userID (Z.of_nat (length (listed_chats d userID))) None folder).
Lemma all_chats_Permutation created now d o userID folder :
  all_chats created now d o userID folder ≡ₚ
  chat_of created d o userID <$> filter (λ x, in_folder now d o userID folder x = true) (listed_chats d userID).
Proof.
  unfold all_chats, ListChats. cbn [q_UserID q_Limit q_Before q_FolderID before_cursor]. rewrite Nat2Z.id.
  apply fmap_Permutation. rewrite take_ge.
  - rewrite order_by_keys_Permutation. reflexivity.
  - rewrite (Permutation_length (order_by_keys_Permutation _ _)). apply length_filter.
Qed.
Lemma elem_of_all_chats created now d o userID folder c :
  c ∈ all_chats created now d o userID folder ↔
  ∃ x, x ∈ listed_chats d userID ∧ in_folder now d o userID folder x = true ∧ c = chat_of created d o userID x.
Proof. rewrite all_chats_Permutation, list_elem_of_fmap. setoid_rewrite list_elem_of_filter. naive_solver. Qed.

Lemma folder_entry_spec o folderID chatID mode :
  folder_entry o folderID chatID mode = true ↔ chatID ∈ (λ kx : (uuid * uuid) * folder_chat_row, kx.1.2) <$> entries o folderID mode.
Proof.
  unfold folder_entry, entries. rewrite list_elem_of_fmap. split.
  - destruct (chat_folder_chats o !! (folderID, chatID)) as [x|] eqn:Hx; [|done]. intros Hm.
    exists ((folderID, chatID), x). split; [done|]. apply elem_of_rows_where. split; [done|]. simpl. by rewrite bool_decide_true.
  - intros ([[f ch] x] & -> & [Hx HP]%elem_of_rows_where). simpl in *.
    apply andb_true_iff in HP as [->%bool_decide_eq_true HP]. by rewrite Hx.
Qed.
Lemma in_excluded now d o userID kf ch :
  ch ∈ fd_ExcludedChatIDs (folder_of now d o userID kf) ↔ folder_entry o kf.1 ch "exclude" = true.
Proof. by rewrite folder_entry_spec. Qed.
Lemma in_included now d o userID kf ch :
  ch ∈ fd_IncludedChatIDs (folder_of now d o userID kf) ↔ folder_entry o kf.1 ch "include" = true.
Proof. rewrite folder_entry_spec. cbn [folder_of fd_IncludedChatIDs]. by rewrite order_by_Permutation. Qed.

(** ** What a folder holds *)

(** The filters, and the rules, on what the list shows of a chat. *)
Definition passes_filters (now : time) (f : folder_row) (c : Chat) : Prop :=
  let m := lc_Membership c in
  (fo_exclude_muted f = true → ∀ t, ms_MutedUntil m = Some t → t ≤ now) ∧
  (fo_exclude_read f = true → 0 < ms_UnreadCount m) ∧
  (fo_exclude_archived f = true → ms_IsArchived m = false).
Definition is_contact_of (d : db) (userID : uuid) (c : Chat) : Prop := ∃ p, lc_Peer c = Some p ∧ (userID, cp_UserID p) ∈ contacts d.
Definition admitted_by_rules (d : db) (userID : uuid) (f : folder_row) (c : Chat) : Prop :=
  fo_include_groups f = true ∧ lc_Type c = ChatGroup ∨
  fo_include_channels f = true ∧ lc_Type c = ChatChannel ∨
  fo_include_bots f = true ∧ lc_Type c = ChatPrivate ∧ (∃ p, lc_Peer c = Some p ∧ cp_IsBot p = true) ∨
  fo_include_contacts f = true ∧ is_contact_of d userID c ∨
  fo_include_non_contacts f = true ∧ (∃ p, lc_Peer c = Some p ∧ cp_IsBot p = false) ∧ ¬ is_contact_of d userID c.

Lemma folder_filters_spec created now d o userID f x :
  folder_filters now o userID f x = true ↔ passes_filters now f (chat_of created d o userID x).
Proof.
  destruct x as [[ch m] c]. unfold folder_filters, passes_filters. simpl. rewrite !andb_true_iff, !orb_true_iff, !negb_true_iff, Z.ltb_lt.
  split.
  - intros [[Hm Hr] Ha]. split_and!.
    + intros Hf t Ht. destruct Hm as [?|Hm]; [congruence|]. rewrite Ht in Hm. by apply Z.leb_le.
    + intros Hf. destruct Hr; [congruence|done].
    + intros Hf. destruct Ha; [congruence|done].
  - intros (Hm & Hr & Ha). split_and!.
    + destruct (fo_exclude_muted f); [right|by left]. destruct (m_muted_until m) as [t|]; [|done]. apply Z.leb_le. by apply Hm.
    + destruct (fo_exclude_read f); [right; by apply Hr|by left].
    + destruct (fo_exclude_archived f); [right; by apply Ha|by left].
Qed.
Lemma peerJoin_one_to_one d userID ch t p : peerJoin d userID ch t = Some p → one_to_one t = true.
Proof. unfold peerJoin. by destruct (one_to_one t). Qed.
Lemma folder_rules_spec created d o userID f x :
  folder_rules d userID f x = true ↔ admitted_by_rules d userID f (chat_of created d o userID x).
Proof.
  destruct x as [[ch m] c]. unfold folder_rules, admitted_by_rules, is_contact_of. simpl.
  destruct (peerJoin d userID ch (c_type c)) as [[u r]|] eqn:Hp; simpl.
  - apply peerJoin_one_to_one in Hp. rewrite Hp.
    rewrite !orb_true_iff, !andb_true_iff, !negb_true_iff, !bool_decide_eq_true, bool_decide_eq_false.
    split.
    + intros [[[[?|?]|?]|?]|?]; destruct_and?; [auto|auto|right; right; left|do 3 right; left|do 4 right].
      * split_and!; [done..|]. by eexists.
      * split; [done|]. by eexists.
      * split; [done|]. split; [by eexists|]. intros (p & [= <-] & Hc). done.
    + intros [[? ?]|[[? ?]|[(? & ? & p & [= <-] & ?)|[(? & p & [= <-] & ?)|(? & (p & [= <-] & ?) & Hn)]]]]; [by auto 6..| | |].
      * left; left; right. done.
      * left; right. done.
      * right. split_and!; [done..|]. intros Hc. apply Hn. by eexists.
  - rewrite !andb_false_r, !orb_false_r, !orb_true_iff, !andb_true_iff, !bool_decide_eq_true. naive_solver.
Qed.

Lemma elem_of_folder created now d o userID id f c :
  chat_folders o !! id = Some f → fo_owner f = userID →
  let fd := folder_of now d o userID (id, f) in
  c ∈ all_chats created now d o userID (Some id) ↔
  c ∈ all_chats created now d o userID None ∧ lc_ID c ∉ fd_ExcludedChatIDs fd ∧ passes_filters now f c ∧
    (lc_ID c ∈ fd_IncludedChatIDs fd ∨ admitted_by_rules d userID f c).
Proof.
  intros Hf Hown fd. unfold fd. rewrite in_excluded, in_included, !elem_of_all_chats. cbn [fst]. split.
  - intros (x & Hx & Hin & ->). unfold in_folder in Hin. rewrite Hf in Hin. apply andb_true_iff in Hin as [_ HP].
    unfold folderPredicate in HP. rewrite !andb_true_iff, negb_true_iff, orb_true_iff in HP. destruct HP as [[Hex Hfil] Hru].
    split; [by exists x|]. assert (lc_ID (chat_of created d o userID x) = x.1.1) as -> by by destruct x as [[]].
    rewrite <-folder_filters_spec, <-folder_rules_spec, Hex. done.
  - intros ((x & Hx & _ & ->) & Hex & Hfil & Hru). exists x. split; [done|]. split; [|done].
    assert (lc_ID (chat_of created d o userID x) = x.1.1) as Hid by by destruct x as [[]].
    rewrite Hid in Hex, Hru. unfold in_folder. rewrite Hf. unfold own_folder. rewrite bool_decide_true by done. simpl.
    unfold folderPredicate. rewrite !andb_true_iff, negb_true_iff, orb_true_iff.
    rewrite <-folder_filters_spec in Hfil. rewrite <-folder_rules_spec in Hru. split; [split|]; [by apply not_true_is_false|done|done].
Qed.
Lemma sum_unread_Permutation (l1 l2 : list Chat) : l1 ≡ₚ l2 →
  foldr (λ c n, ms_UnreadCount (lc_Membership c) + n) 0 l1 = foldr (λ c n, ms_UnreadCount (lc_Membership c) + n) 0 l2.
Proof. induction 1; simpl; lia. Qed.
Lemma sum_unread_chat_of created d o userID (l : list listed) :
  foldr (λ c n, ms_UnreadCount (lc_Membership c) + n) 0 (chat_of created d o userID <$> l) = foldr (λ x n, unread_of x + n) 0 l.
Proof.
  induction l as [|[[ch m] c] l IH]; [done|]. rewrite fmap_cons. cbn [foldr]. by rewrite IH.
Qed.

(** The tab of a folder and the list behind it agree: the badge counts exactly the
    chats that listing the folder returns, and adds up exactly their unread messages.
    And the list is the chat list filtered as the folder says: a chat kept out is never
    in it; the muted, read and archived filters hold of every chat in it, those pinned in
    included; a chat that passes them is in it exactly when it was pinned in or its kind
    is admitted. *)
Lemma folder_badge_is_its_list created now d o userID fd :
  fd ∈ Folders now d o userID →
  let l := all_chats created now d o userID (Some (fd_ID fd)) in
  fd_ChatCount fd = Z.of_nat (length l) ∧
  fd_UnreadCount fd = foldr (λ c n, ms_UnreadCount (lc_Membership c) + n) 0 l ∧
  ∀ c, c ∈ l ↔ c ∈ all_chats created now d o userID None ∧ lc_ID c ∉ fd_ExcludedChatIDs fd ∧
    passes_filters now (fd_row fd) c ∧
    (lc_ID c ∈ fd_IncludedChatIDs fd ∨ admitted_by_rules d userID (fd_row fd) c).
Proof.
  unfold Folders. intros ([id f] & -> & Hin)%list_elem_of_fmap. cbv zeta.
  apply elem_of_order_by_keys, elem_of_rows_where in Hin as [Hf Hown%bool_decide_eq_true].
  assert (all_chats created now d o userID (Some id) ≡ₚ
    chat_of created d o userID <$> filter (λ x, folderPredicate now d o userID id f x = true) (listed_chats d userID)) as Hperm.
  { rewrite all_chats_Permutation. cbn [in_folder]. unfold in_folder. rewrite Hf. unfold own_folder.
    by rewrite bool_decide_true. }
  split_and!.
  - cbn [folder_of fd_ChatCount fd_ID fst snd]. by rewrite Hperm, length_fmap.
  - cbn [folder_of fd_UnreadCount fd_ID fst snd]. by rewrite (sum_unread_Permutation _ _ Hperm), sum_unread_chat_of.
  - intros c. by apply elem_of_folder.
Qed.

(** ** Bounds *)

Section bounds.
Variable lower : string → string.
Implicit Types (o : organisedb).

Record folders_ok o : Prop := {
  fo_count : ∀ u, count_where (own_folder u) (chat_folders o) ≤ maxFolders;
  fo_held : ∀ f, held_entries f o ≤ maxFolderChats;
  fo_fits : ∀ id f, chat_folders o !! id = Some f → title_fits (fo_title f) = true;
  fo_unique : ∀ id1 id2 f1 f2, chat_folders o !! id1 = Some f1 → chat_folders o !! id2 = Some f2 →
    fo_owner f1 = fo_owner f2 → lower (fo_title f1) = lower (fo_title f2) → id1 = id2;
  fo_entry : ∀ id ch x, chat_folder_chats o !! (id, ch) = Some x →
    is_Some (chat_folders o !! id) ∧ fc_mode x ∈ ["include"; "exclude"]%string;
}.

Inductive folder_op :=
| OpCreate (now : time) (new_id : uuid) (i : FolderInput)
| OpUpdate (now : time) (id : uuid) (i : FolderInput)
| OpDelete (id : uuid)
| OpSet (now : time) (d : db) (id chatID : uuid) (mode : string)
| OpRemove (id chatID : uuid)
| OpReorder (now : time) (order : list uuid).
Definition run_folder_op (ru : uuid * folder_op) (o : organisedb) : organisedb :=
  let '(u, op) := ru in
  match op with
  | OpCreate now new_id i => (Service_CreateFolder lower now new_id (λ o, o) u i o).2
  | OpUpdate now id i => (Service_UpdateFolder lower now u id i o).2
  | OpDelete id => (Service_DeleteFolder u id o).2
  | OpSet now d id chatID mode => (Service_SetFolderChat now (λ o, o) d u id chatID mode o).2
  | OpRemove id chatID => (Service_RemoveFolderChat u id chatID o).2
  | OpReorder now order => (Service_ReorderFolders now u order o).2
  end.
(** Somebody else's folder, with its entries, is as it was. *)
Definition others_kept (u : uuid) o o' : Prop :=
  ∀ id f, chat_folders o !! id = Some f → fo_owner f ≠ u →
    chat_folders o' !! id = Some f ∧ ∀ ch, chat_folder_chats o' !! (id, ch) = chat_folder_chats o !! (id, ch).
Definition op_fine (u : uuid) o o' : Prop := (folders_ok o → folders_ok o') ∧ others_kept u o o'.
#[local] Instance op_fine_preorder u : PreOrder (op_fine u).
Proof.
  split; [by intros o|]. intros o1 o2 o3 [H12 K12] [H23 K23]. split; [auto|].
  intros id f Hf Hu. destruct (K12 id f Hf Hu) as [Hf2 He2]. destruct (K23 id f Hf2 Hu) as [Hf3 He3].
  split; [done|]. intros ch. by rewrite He3.
Qed.

Lemma title_free u ex t o : title_taken lower u ex t o = false →
  ∀ id f, chat_folders o !! id = Some f → fo_owner f = u → Some id ≠ ex → lower (fo_title f) ≠ lower t.
Proof.
  unfold title_taken. intros H%Z.ltb_ge id f Hf Hu Hex Ht.
  assert (count_where (λ k f, bool_decide (fo_owner f = u) && negb (bool_decide (Some k = ex))
    && bool_decide (lower (fo_title f) = lower t)) (chat_folders o) = 0) as H0.
  { pose proof (count_where_nonneg (λ k f, bool_decide (fo_owner f = u) && negb (bool_decide (Some k = ex))
    && bool_decide (lower (fo_title f) = lower t)) (chat_folders o)). lia. }
  rewrite count_where_0 in H0. specialize (H0 _ _ Hf). simpl in H0.
  by rewrite bool_decide_true, (bool_decide_false (Some id = ex)), bool_decide_true in H0 by done.
Qed.
(** A folder of [u] is written. *)
Lemma write_folder_fine u id f o :
  fo_owner f = u → title_fits (fo_title f) = true →
  (∀ f0, chat_folders o !! id = Some f0 → fo_owner f0 = u) →
  (chat_folders o !! id = None → count_where (own_folder u) (chat_folders o) < maxFolders) →
  (∀ id' f', chat_folders o !! id' = Some f' → fo_owner f' = u → id' ≠ id → lower (fo_title f') ≠ lower (fo_title f)) →
  op_fine u o (with_chat_folders (<[id := f]> (chat_folders o)) o).
Proof.
  intros Hu Hfit Hold Hnew Htitle. split.
  - intros [H1 H2 H3 H4 H5]. split; simpl.
    + intros v. rewrite count_where_insert. specialize (H1 v). unfold own_folder in H1, Hnew |- *. unfold hits. rewrite Hu.
      destruct (chat_folders o !! id) as [f0|] eqn:Hf0.
      * rewrite (Hold f0) by done. case_bool_decide; lia.
      * specialize (Hnew eq_refl). case_bool_decide; subst; unfold maxFolders in *; lia.
    + done.
    + intros id' f' [[<- <-]|[_ Hf']]%lookup_insert_Some; [done|by eapply H3].
    + intros id1 id2 f1 f2 [[<- <-]|[? Hf1]]%lookup_insert_Some [[<- <-]|[? Hf2]]%lookup_insert_Some Ho Hl; [done| | |by eapply H4].
      * destruct (Htitle id2 f2); congruence.
      * destruct (Htitle id1 f1); congruence.
    + intros id' ch x Hx. destruct (H5 id' ch x Hx) as [Hs Hm]. split; [|done]. rewrite lookup_insert_is_Some'. by right.
  - intros id' f' Hf' Hne. split; [|done]. simpl. rewrite lookup_insert_ne; [done|]. intros <-. by apply Hne, Hold.
Qed.
(** Some folders of [u] are moved or touched. *)
Lemma touch_folders_fine u o (P : uuid → folder_row → bool) (g : uuid → folder_row → folder_row) :
  (∀ id f, P id f = true → chat_folders o !! id = Some f → fo_owner f = u) →
  (∀ id f, fo_owner (g id f) = fo_owner f ∧ fo_title (g id f) = fo_title f) →
  op_fine u o (with_chat_folders (update_where P g (chat_folders o)) o).
Proof.
  intros HP Hg.
  assert (∀ id f', update_where P g (chat_folders o) !! id = Some f' →
    ∃ f, chat_folders o !! id = Some f ∧ fo_owner f' = fo_owner f ∧ fo_title f' = fo_title f) as Hinv.
  { intros id f' (f & Hf & ->)%lookup_update_where_Some. exists f. destruct (P id f); [|done]. by destruct (Hg id f) as [-> ->]. }
  split.
  - intros [H1 H2 H3 H4 H5]. split; simpl.
    + intros v. rewrite (count_where_ext _ (own_folder v) _ (chat_folders o)); [done|].
      intros k. unfold hits. rewrite lookup_update_where. destruct (chat_folders o !! k) as [f|]; [|done]. simpl. unfold own_folder.
      destruct (P k f); [|done]. by destruct (Hg k f) as [-> _].
    + done.
    + intros id f' (f & Hf & _ & ->)%Hinv. by eapply H3.
    + intros id1 id2 f1 f2 (f1' & Hf1 & -> & ->)%Hinv (f2' & Hf2 & -> & ->)%Hinv. by eapply H4.
    + intros id ch x Hx. destruct (H5 id ch x Hx) as [[f Hf] Hm]. split; [|done]. rewrite lookup_update_where, Hf. by eexists.
  - intros id f Hf Hne. split; [|done]. simpl. rewrite lookup_update_where, Hf. simpl.
    destruct (P id f) eqn:HPf; [|done]. by destruct Hne; eapply HP.
Qed.
(** An entry of a folder of [u] is written. *)
Lemma write_entry_fine u id ch x o f :
  chat_folders o !! id = Some f → fo_owner f = u → fc_mode x ∈ ["include"; "exclude"]%string →
  (chat_folder_chats o !! (id, ch) = None → held_entries id o < maxFolderChats) →
  op_fine u o (with_chat_folder_chats (<[(id, ch) := x]> (chat_folder_chats o)) o).
Proof.
  intros Hf Hu Hm Hroom. split.
  - intros [H1 H2 H3 H4 H5]. split; simpl; [done| |done|done|].
    + intros f'. unfold held_entries in *. simpl. rewrite count_where_insert. specialize (H2 f'). unfold held_entries in H2.
      unfold hits. simpl. destruct (chat_folder_chats o !! (id, ch)) as [x0|] eqn:Hx0.
      * case_bool_decide; lia.
      * specialize (Hroom eq_refl). unfold held_entries in Hroom. case_bool_decide; subst; unfold maxFolderChats in *; lia.
    + intros id' ch' x' [[[= <- <-] <-]|[_ Hx']]%lookup_insert_Some; [|by eapply H5]. split; [by eexists|done].
  - intros id' f' Hf' Hne. split; [done|]. intros ch'. simpl. rewrite lookup_insert_ne; [done|]. intros [= <- <-]. congruence.
Qed.
Lemma count_where_subseteq {K V} `{Countable K} (P : K → V → bool) (m m' : gmap K V) :
  m' ⊆ m → count_where P m' ≤ count_where P m.
Proof. intros Hsub. apply count_where_le. intros k v Hv HP. exists v. split; [by eapply lookup_weaken|done]. Qed.
(** A folder of [u] goes, with all its entries, or entries of it go. *)
Lemma delete_folder_fine u o id fs es :
  (∀ f, chat_folders o !! id = Some f → fo_owner f = u) →
  fs = chat_folders o ∨ fs = delete id (chat_folders o) ∧ (∀ ch, es !! (id, ch) = None) →
  es ⊆ chat_folder_chats o → (∀ id' ch, id' ≠ id → es !! (id', ch) = chat_folder_chats o !! (id', ch)) →
  op_fine u o (with_chat_folder_chats es (with_chat_folders fs o)).
Proof.
  intros Hown Hfs Hsub Hkept. split.
  - intros [H1 H2 H3 H4 H5].
    assert (fs ⊆ chat_folders o) as Hfsub by (destruct Hfs as [->|[-> _]]; [done|apply delete_subseteq]).
    split; simpl.
    + intros v. specialize (H1 v). pose proof (count_where_subseteq (own_folder v) _ _ Hfsub). lia.
    + intros f. specialize (H2 f). unfold held_entries in *. simpl.
      pose proof (count_where_subseteq (λ k _, bool_decide (k.1 = f)) _ _ Hsub). lia.
    + intros id' f' Hf'. eapply H3, lookup_weaken; done.
    + intros id1 id2 f1 f2 Hf1 Hf2. by eapply H4; eapply lookup_weaken.
    + intros id' ch x Hx. destruct (H5 id' ch x) as [[f Hf] Hm]; [by eapply lookup_weaken|]. split; [|done].
      destruct Hfs as [->|[-> Hes]]; [by eexists|]. rewrite lookup_delete_ne; [by eexists|]. intros ->. by rewrite Hes in Hx.
  - intros id' f' Hf' Hne. assert (id' ≠ id) as Hid by (intros ->; by apply Hne, Hown). simpl. split; [|by intros ch; apply Hkept].
    destruct Hfs as [->|[-> _]]; [done|]. by rewrite lookup_delete_ne.
Qed.

Lemma run_folder_op_fine u op o : op_fine u o (run_folder_op (u, op) o).
Proof.
  destruct op as [now new_id i|now id i|id|now d id ch mode|id ch|now order]; cbn [run_folder_op].
  - unfold Service_CreateFolder. rewrite bind_run. unfold lift. destruct (validateFolder i) as [j|e]; [|simpl; reflexivity].
    rewrite map_err_snd. unfold CreateFolder. rewrite bind_run. unfold gets at 1. cbn beta iota.
    rewrite bind_run. unfold fail_if at 1. destruct (maxFolders <=? _) eqn:Hroom; [simpl; reflexivity|].
    rewrite bind_run. unfold modify at 1. cbn beta iota.
    rewrite bind_run. unfold fail_if at 1. destruct (title_fits (fi_Title j)) eqn:Hfit; [|simpl; reflexivity]. cbn [negb].
    rewrite bind_run. unfold gets at 1. cbn beta iota.
    rewrite bind_run. unfold fail_if at 1. destruct (title_taken _ _ _ _ _) eqn:Htaken; [simpl; reflexivity|].
    rewrite bind_run. unfold gets at 1. cbn beta iota.
    rewrite bind_run. unfold fail_if at 1. case_bool_decide as Hnew; [simpl; reflexivity|].
    rewrite <-eq_None_not_Some in Hnew. simpl. apply Z.leb_gt in Hroom.
    apply write_folder_fine; [done|done|intros f0 Hf0; congruence|done|].
    intros id' f' Hf' Ho _. by eapply title_free.
  - unfold Service_UpdateFolder. rewrite bind_run. unfold lift. destruct (validateFolder i) as [j|e]; [|simpl; reflexivity].
    rewrite map_err_snd. unfold UpdateFolder. rewrite bind_run. unfold gets at 1. cbn beta iota.
    rewrite bind_run. destruct (chat_folders o !! id) as [f|] eqn:Hf; [|simpl; reflexivity]. cbn [mbind option_bind].
    unfold own_folder at 1. case_bool_decide as Hown; [|simpl; reflexivity]. unfold or_fail at 1. cbn beta iota.
    rewrite bind_run. unfold fail_if at 1. destruct (title_fits (fi_Title j)) eqn:Hfit; [|simpl; reflexivity]. cbn [negb].
    rewrite bind_run. unfold gets at 1. cbn beta iota.
    rewrite bind_run. unfold fail_if at 1. destruct (title_taken _ _ _ _ _) eqn:Htaken; [simpl; reflexivity|]. simpl.
    apply write_folder_fine; [done|done| |by rewrite Hf|].
    + intros f0 Hf0. rewrite Hf in Hf0. injection Hf0 as <-. done.
    + intros id' f' Hf' Ho Hne. eapply title_free; [done..|]. congruence.
  - unfold Service_DeleteFolder. rewrite map_err_snd. unfold DeleteFolder. destruct (hits _ _ _) eqn:Hhit; [|simpl; reflexivity].
    apply hits_true in Hhit as (f & Hf & Hown%bool_decide_eq_true). cbn [snd].
    apply (delete_folder_fine u o id).
    + intros f0 Hf0. congruence.
    + right. split; [done|]. intros ch. rewrite lookup_delete_where. simpl.
      destruct (chat_folder_chats o !! (id, ch)); [|done]. simpl. by rewrite bool_decide_true.
    + apply map_filter_subseteq.
    + intros id' ch Hne. rewrite lookup_delete_where. simpl.
      destruct (chat_folder_chats o !! (id', ch)); [|done]. simpl. by rewrite bool_decide_false.
  - unfold Service_SetFolderChat. rewrite bind_run. unfold fail_if at 1. destruct (_ && _); [simpl; reflexivity|].
    rewrite map_err_snd. unfold SetFolderChat. rewrite bind_run. unfold gets at 1. cbn beta iota.
    rewrite bind_run. unfold fail_if at 1. destruct (hits _ _ _) eqn:Hhit; [|simpl; reflexivity]. cbn [negb].
    apply hits_true in Hhit as (f & Hf & Hown%bool_decide_eq_true).
    rewrite bind_run. unfold fail_if at 1. destruct (negb (bool_decide (is_Some (active_member d ch u)))); [simpl; reflexivity|].
    rewrite bind_run. unfold gets at 1. cbn beta iota. rewrite bind_run. unfold gets at 1. cbn beta iota.
    rewrite bind_run. unfold fail_if at 1. destruct ((_ <=? _) && _) eqn:Hroom; [simpl; reflexivity|].
    rewrite bind_run. unfold modify at 1. cbn beta iota. rewrite bind_run. unfold gets at 1. cbn beta iota.
    rewrite bind_run. unfold fail_if at 1. destruct (negb (bool_decide (is_Some (chat_folders o !! id)))); [simpl; reflexivity|].
    rewrite bind_run. unfold fail_if at 1. destruct (bool_decide_reflect (mode ∈ ["include"; "exclude"]%string)) as [Hmode|];
      [|simpl; reflexivity]. cbn [negb modify snd].
    set (x := match chat_folder_chats o !! (id, ch) with Some x => _ | None => _ end).
    etransitivity; [apply (touch_folders_fine u o (λ k _, bool_decide (k = id)) (λ _, touch_folder now))|].
    + intros id' f' ->%bool_decide_eq_true Hf'. congruence.
    + by intros id' f'.
    + refine (write_entry_fine u id ch x (with_chat_folders _ o) (touch_folder now f) _ Hown _ _).
      * simpl. rewrite lookup_update_where, Hf. simpl. by rewrite bool_decide_true.
      * unfold x. by destruct (chat_folder_chats o !! (id, ch)).
      * simpl. intros Hnone. rewrite Hnone in Hroom. rewrite bool_decide_false in Hroom by (rewrite is_Some_alt; auto).
        rewrite andb_true_r in Hroom. by apply Z.leb_gt in Hroom.
  - unfold Service_RemoveFolderChat. rewrite map_err_snd. unfold RemoveFolderChat. destruct (_ && _) eqn:Hc; [|simpl; reflexivity].
    apply andb_true_iff in Hc as [Hhit _]. apply hits_true in Hhit as (f & Hf & Hown%bool_decide_eq_true). cbn [snd].
    change (op_fine u o (with_chat_folder_chats (delete (id, ch) (chat_folder_chats o)) (with_chat_folders (chat_folders o) o))).
    apply (delete_folder_fine u o id).
    + intros f0 Hf0. congruence.
    + by left.
    + apply delete_subseteq.
    + intros id' ch' Hne. rewrite lookup_delete_ne; [done|]. congruence.
  - unfold Service_ReorderFolders. rewrite bind_run. unfold fail_if at 1. destruct (_ <? _); [simpl; reflexivity|]. simpl.
    apply touch_folders_fine; [|by intros].
    intros id f [Hown%bool_decide_eq_true _]%andb_true_iff _. done.
Qed.
End bounds.

(** Whatever requests about folders are served, one after the other: nobody gets more
    than thirty folders, no folder names more than two hundred chats, every title has one
    to sixty-four characters and is the only one of its owner with that folded spelling,
    every entry belongs to a folder there is and says include or exclude; and requests of
    one user leave the folders of everybody else, with their entries, as they were. *)
Lemma folders_stay_in_bounds lower ops o :
  folders_ok lower o →
  folders_ok lower (foldl (λ s ru, run_folder_op lower ru s) o ops) ∧
  ∀ u, Forall (λ ru, ru.1 ≠ u) ops → ∀ id f, chat_folders o !! id = Some f → fo_owner f = u →
    let o' := foldl (λ s ru, run_folder_op lower ru s) o ops in
    chat_folders o' !! id = Some f ∧ ∀ ch, chat_folder_chats o' !! (id, ch) = chat_folder_chats o !! (id, ch).
Proof.
  intros Hok. split.
  - revert o Hok. induction ops as [|[u op] ops IH]; intros o Hok; [done|]. simpl. apply IH.
    by apply (run_folder_op_fine lower u op o).
  - intros u Hall. revert o Hok. induction Hall as [|[v op] ops Hv _ IH]; intros o Hok id f Hf Hu; [done|]. simpl in *.
    destruct (run_folder_op_fine lower v op o) as [Hok' Hkept]. destruct (Hkept id f Hf) as [Hf' He]; [congruence|].
    destruct (IH _ (Hok' Hok) id f Hf' Hu) as [Hf2 He2]. split; [done|]. intros ch. by rewrite He2, He.
Qed.

(** ** Samples *)

(** Ben (2) has the private chat 10 with Anna (1), who is in his contacts. *)
Definition folder_input (title : string) : FolderInput :=
  MkFolderInput title "" 0 true false false false false false false true.
Definition no_folders : organisedb := MkOrganiseDb ∅ ∅ ∅ ∅.
Definition folder_ops : list (uuid * folder_op) :=
  [(2%N, OpCreate 5 700 (folder_input " People ")); (2%N, OpCreate 6 701 (folder_input "people"));
   (1%N, OpDelete 700); (2%N, OpSet 7 sample_db 700 10 "include"); (1%N, OpSet 8 sample_db 700 10 "exclude")].
Definition ben_folders : organisedb := foldl (λ s ru, run_folder_op to_lower ru s) no_folders folder_ops.

Lemma folders_stay_in_bounds_witness :
  folders_ok to_lower ben_folders ∧
  chat_folders (foldl (λ s ru, run_folder_op to_lower ru s) ben_folders [(1%N, OpDelete 700)]) !! 700%N = chat_folders ben_folders !! 700%N ∧
  is_Some (chat_folders ben_folders !! 700%N).
Proof.
  assert (folders_ok to_lower no_folders) as Hok0.
  { split; simpl; [intros u|intros f|..]; [vm_compute; discriminate|vm_compute; discriminate|..]; intros *; by rewrite lookup_empty. }
  assert (folders_ok to_lower ben_folders) as Hok.
  { exact (proj1 (folders_stay_in_bounds to_lower folder_ops no_folders Hok0)). }
  assert (fo_owner <$> chat_folders ben_folders !! 700%N = Some 2%N) as Hown by (vm_compute; reflexivity).
  apply fmap_Some_1 in Hown as (f & Hf & Hu).
  split; [exact Hok|]. split; [|exists f; exact Hf].
  destruct (proj2 (folders_stay_in_bounds to_lower [(1%N, OpDelete 700)] ben_folders Hok) 2%N) with (id := 700%N) (f := f) as [Hf' _].
  - constructor; [discriminate|constructor].
  - exact Hf.
  - symmetry. exact Hu.
  - rewrite Hf. exact Hf'.
Defined.
Lemma folder_badge_is_its_list_witness :
  ∃ fd, fd ∈ Folders 9 (with_contacts {[(2%N, 1%N)]} sample_db) ben_folders 2 ∧ fd_ChatCount fd = 1 ∧
    fd_ChatCount fd = Z.of_nat (length (all_chats (λ _, 0) 9 (with_contacts {[(2%N, 1%N)]} sample_db) ben_folders 2 (Some (fd_ID fd)))).
Proof.
  set (d := with_contacts {[(2%N, 1%N)]} sample_db).
  destruct (Folders 9 d ben_folders 2) as [|fd l] eqn:Hl; [vm_compute in Hl; discriminate Hl|].
  assert (fd_ChatCount <$> head (Folders 9 d ben_folders 2) = Some 1) as Hc by (vm_compute; reflexivity).
  rewrite Hl in Hc. injection Hc as Hc.
  assert (fd ∈ Folders 9 d ben_folders 2) as Hin by (rewrite Hl; left).
  exists fd. split; [left|]. split; [exact Hc|].
  exact (proj1 (folder_badge_is_its_list (λ _, 0) 9 d ben_folders 2 fd Hin)).
Defined.

(** The limit does not hold when two requests overlap: each counts before the other has
    written.  (At twenty-nine folders; two at a time below that.) *)
Fixpoint many_folders (n : nat) : gmap uuid folder_row :=
  match n with
  | O => ∅
  | S n => <[N.of_nat n := folder_row_of 2 0 0 (folder_input (Itoa (Z.of_nat n)))]> (many_folders n)
  end.
Lemma overlapping_creates_pass_the_limit :
  let o := with_chat_folders (many_folders 29) no_folders in
  let other o := (Service_CreateFolder to_lower 5 801 (λ o, o) 2 (folder_input "b") o).2 in
  let o' := (Service_CreateFolder to_lower 5 800 other 2 (folder_input "a") o).2 in
  count_where (own_folder 2) (chat_folders o) = 29 ∧ count_where (own_folder 2) (chat_folders o') = 31.
Proof. vm_compute. done. Qed.

(** The chat list. *)
Definition list_row (at_ : option time) : chat_row := MkChat ChatGroup "" "" None None None 0 None at_ 1 false 0 None.
Definition list_member : member_row := MkMember RoleMember None "" 0 0 0 0 "" 0 None None None None 0.
Definition three_chats : db :=
  with_chats {[10%N := list_row (Some 300); 11%N := list_row (Some 200); 12%N := list_row (Some 100)]}
    (with_chat_members {[(10%N, 2%N) := list_member; (11%N, 2%N) := list_member; (12%N, 2%N) := list_member]} empty_db).
Definition pin_12 : organisedb := with_chat_flags {[(12%N, 2%N) := (true, false)]} no_folders.
(** With the oldest chat pinned, the cursor after the first page is its time, and the two
    others are never listed. *)
Lemma pinned_chat_hides_the_rest :
  let page limit before := listChats (λ _, 0) 400 three_chats pin_12 2 limit before None in
  lc_ID <$> (page 1 None).1.1 = [12%N] ∧ (page 1 None).1.2 = true ∧ (page 1 None).2 = Some 100 ∧
  (page 1 (Some 100)).1.1 = [].
Proof. vm_compute. done. Qed.
(** A page size above the cap is replaced, and the answer then says there is no more. *)
Lemma capped_page_denies_more created now d o userID before folder :
  let '(_, has_more, _) := listChats created now d o userID 101 before folder in has_more = false.
Proof.
  unfold listChats. change (Service_ListChats created now d o userID 101 before folder)
    with (ListChats created now d o (MkChatListQuery userID 50 before folder)).
  apply Z.eqb_neq. unfold ListChats. rewrite length_fmap, length_take. cbn [q_Limit]. lia.
Qed.
(** The permissions the list shows leave out the chat's defaults. *)
Lemma listed_permissions_ignore_chat_defaults created d o userID ch m c :
  ms_Permissions (lc_Membership (chat_of created d o userID (ch, m, c))) =
  resolve_permissions (m_role m) (c_type c) None None None (m_permissions m).
Proof.
  simpl. unfold resolve_permissions. destruct (ordinary_role (m_role m)); simpl; by destruct (m_permissions m).
Qed.
