(* ===== verification/Topics.v ===== *)
(** * Forum topics ([internal/messaging/topics.go])

    A forum is a group whose messages are filed under topics.  The topics and the read
    cursor of each member in each topic are tables of [Store]; where a new message is
    filed is decided by [resolveTopic] of [MessagingService]. *)

From stdpp Require Import base tactics list sorting gmap strings.
From Stdlib Require Import ZArith Lia.
From S2P Require Import Prelude GoString Httpx Permissions Store ChatContext MessageRepo RateLimit Ports Payloads MessagingService.

Set Default Goal Selector "!".
Open Scope Z_scope.

Definition maxTopicTitle : Z := 128.
Definition generalTopicTitle : string := "General".
Definition EventTopicCreated : string := "topic.created".
Definition EventTopicUpdated : string := "topic.updated".
Definition EventTopicDeleted : string := "topic.deleted".

Inductive topicerr := TopicDb (e : dberr) | ErrNotAForum | ErrGeneralTopic.

Record Topic := MkTopicView {
  tp_ID : uuid;
  tp_row : topic_row;
  tp_UnreadCount : Z;
}.
Record TopicUpdate := MkTopicUpdate {
  tu_Title : option string;
  tu_IconColor : option Z;
  tu_IconEmoji : option string;
  tu_IsClosed : option bool;
  tu_IsHidden : option bool;
  tu_IsPinned : option bool;
}.

(** ** The repository *)

Definition markForum (chatID : uuid) (isForum : bool) (d : db) : db :=
  with_groups (<[chatID := match groups d !! chatID with
                           | Some g => with_g_is_forum isForum g
                           | None => MkGroup false isForum "" None
                           end]> (groups d)) d.
Definition live_topic (t : topic_row) : bool := if t_deleted_at t is None then true else false.
Definition general_of (chatID : uuid) (_ : uuid) (t : topic_row) : bool :=
  bool_decide (t_chat_id t = chatID) && t_is_general t && live_topic t.
Definition general_row (now : time) (chatID actorID : uuid) (count : Z) : topic_row :=
  MkTopic chatID generalTopicTitle 0 "" (Some actorID) true false false true count now now None.
Definition unfiled (chatID : uuid) (_ : uuid) (r : message_row) : bool :=
  bool_decide (r_chat_id r = chatID) && bool_decide (r_topic_id r = None).
Definition file_history (chatID topicID : uuid) (d : db) : db :=
  with_messages (update_where (unfiled chatID) (λ _, with_r_topic_id (Some topicID)) (messages d)) d.
Definition EnableForum (now : time) (new_id : uuid) (chatID actorID : uuid) : prog db topicerr Topic :=
  in_tx (
    c ← gets (λ d, live_chat d chatID);
    c ← or_fail c (TopicDb ErrNotFound);
    fail_if (negb (bool_decide (c_type c = ChatGroup))) ErrNotAForum;;
    general ← gets (λ d, head (rows_where (general_of chatID) (forum_topics d)));
    match general with
    | Some (id, t) => modify (markForum chatID true);; mret (MkTopicView id t 0)
    | None =>
        clash ← gets (λ d, bool_decide (is_Some (forum_topics d !! new_id)));
        fail_if clash (TopicDb (ErrUnique "forum_topics_pkey"));;
        count ← gets (λ d, count_where (unfiled chatID) (messages d));
        modify (λ d, with_forum_topics (<[new_id := general_row now chatID actorID 0]> (forum_topics d)) d);;
        modify (file_history chatID new_id);;
        modify (λ d, with_forum_topics (update_where (λ k _, bool_decide (k = new_id)) (λ _, with_t_message_count count) (forum_topics d)) d);;
        modify (markForum chatID true);;
        mret (MkTopicView new_id (general_row now chatID actorID count) 0)
    end).
Definition DisableForum (chatID : uuid) : prog db topicerr () :=
  in_tx (
    c ← gets (λ d, live_chat d chatID);
    c ← or_fail c (TopicDb ErrNotFound);
    fail_if (negb (bool_decide (c_type c = ChatGroup))) ErrNotAForum;;
    modify (markForum chatID false)).
Definition unread_in (topicID viewerID : uuid) (d : db) : Z :=
  from_option tr_unread_count 0 (forum_topic_reads d !! (topicID, viewerID)).
Definition Topics (chatID viewerID : uuid) (includeHidden : bool) (limit : Z) (d : db) : list Topic :=
  (λ kt : uuid * topic_row, MkTopicView kt.1 kt.2 (unread_in kt.1 viewerID d)) <$>
    take (Z.to_nat limit) (order_by_keys (λ kt : uuid * topic_row, [if t_is_pinned kt.2 then 0 else 1; - t_last_message_at kt.2])
      (rows_where (λ _ t, bool_decide (t_chat_id t = chatID) && live_topic t && (includeHidden || negb (t_is_hidden t))) (forum_topics d))).
Definition topic_title_fits (t : string) : bool := (1 <=? rune_count t) && (rune_count t <=? 128).
Definition CreateTopic (now : time) (new_id : uuid) (chatID creatorID : uuid) (title emoji : string) (color : Z)
    : prog db topicerr Topic := λ d,
  if negb (topic_title_fits title) then (Err (TopicDb (ErrCheck "forum_topics_title_check")), d)
  else if bool_decide (is_Some (forum_topics d !! new_id)) then (Err (TopicDb (ErrUnique "forum_topics_pkey")), d)
  else
    let t := MkTopic chatID title color emoji (Some creatorID) false false false false 0 now now None in
    (Ok (MkTopicView new_id t 0), with_forum_topics (<[new_id := t]> (forum_topics d)) d).
Definition updated_topic (u : TopicUpdate) (t : topic_row) : topic_row :=
  MkTopic (t_chat_id t) (default (t_title t) (tu_Title u)) (default (t_icon_color t) (tu_IconColor u))
    (default (t_icon_emoji t) (tu_IconEmoji u)) (t_created_by t) (t_is_general t) (default (t_is_closed t) (tu_IsClosed u))
    (default (t_is_hidden t) (tu_IsHidden u)) (default (t_is_pinned t) (tu_IsPinned u)) (t_message_count t)
    (t_last_message_at t) (t_created_at t) (t_deleted_at t).
Definition UpdateTopic (chatID topicID : uuid) (u : TopicUpdate) : prog db topicerr Topic :=
  t ← map_err TopicDb (TopicByID chatID topicID);
  fail_if (negb (topic_title_fits (t_title (updated_topic u t)))) (TopicDb (ErrCheck "forum_topics_title_check"));;
  modify (λ d, with_forum_topics (<[topicID := updated_topic u t]> (forum_topics d)) d);;
  mret (MkTopicView topicID (updated_topic u t) 0).
Definition topic_tombstone (now : time) (actorID : uuid) (r : message_row) : message_row :=
  clear_tombstone now actorID r.
Definition DeleteTopic (now : time) (chatID topicID actorID : uuid) : prog db topicerr () :=
  in_tx (
    t ← map_err TopicDb (TopicByID chatID topicID);
    fail_if (t_is_general t) ErrGeneralTopic;;
    modify (λ d, with_messages (update_where
      (λ _ r, bool_decide (r_topic_id r = Some topicID) && (if r_deleted_at r is None then true else false))
      (λ _, topic_tombstone now actorID) (messages d)) d);;
    modify (λ d, with_forum_topics (update_where (λ k _, bool_decide (k = topicID)) (λ _, with_t_deleted_at (Some now)) (forum_topics d)) d)).
Definition topic_unread_after (topicID : uuid) (seq : Z) (d : db) : Z :=
  count_where (λ _ r, bool_decide (r_topic_id r = Some topicID) && (if r_deleted_at r is None then true else false) && (seq <? r_seq r)) (messages d).
Definition MarkTopicRead (topicID userID : uuid) (uptoSeq : Z) : prog db topicerr Z := λ d,
  let row := match forum_topic_reads d !! (topicID, userID) with
             | None => MkTopicRead uptoSeq 0
             | Some r => let seq := Z.max (tr_last_read_seq r) uptoSeq in MkTopicRead seq (topic_unread_after topicID seq d)
             end in
  (Ok (tr_last_read_seq row), with_forum_topic_reads (<[(topicID, userID) := row]> (forum_topic_reads d)) d).

(** ** The handlers *)
Section service.
Context `{SpamGuard G} `{MessageLimiter L}.
(** [json.Marshal] of a topic *)
Variable topic_json : Topic → json.
Abbreviation handler := (prog (world G L) Error) (only parsing).

Definition authorizeTopics (chatID actorID : uuid) (needsAdmin : bool) : handler ChatContext :=
  cx ← repo (ChatContextFor chatID actorID) chat_not_found;
  fail_if (negb (ctx_is_member cx)) not_member_error;;
  fail_if (needsAdmin && negb (EditGroup (ctx_permissions cx))) (Forbidden CodePermissionDenied "You cannot change this group");;
  mret cx.
Definition only_a_group : Error := WithField (Validation "Only a group can be a forum") "chat_id" "must be a group".
Definition enable_error (e : topicerr) : Error :=
  match e with
  | TopicDb ErrNotFound => NotFound CodeChatNotFound "Chat not found"
  | ErrNotAForum => only_a_group
  | _ => Internal
  end.
Definition no_such_topic (e : topicerr) : Error :=
  match e with TopicDb ErrTopicNotFound => NotFound CodeNotFound "No such topic" | _ => Internal end.
Definition Service_EnableForum (now : time) (new_id : uuid) (chatID actorID : uuid) : handler Topic :=
  authorizeTopics chatID actorID true;;
  t ← repo (EnableForum now new_id chatID actorID) enable_error;
  publishChat chatID EventChatUpdated (PayloadOther (JObj [("chat_id", JStr (uuid_String chatID)); ("is_forum", JBool true);
    ("general_topic_id", JStr (uuid_String (tp_ID t)))]%string));;
  mret t.
Definition Service_DisableForum (chatID actorID : uuid) : handler () :=
  authorizeTopics chatID actorID true;;
  repo (DisableForum chatID) (λ e, match e with ErrNotAForum => only_a_group | _ => Internal end);;
  publishChat chatID EventChatUpdated (PayloadOther (JObj [("chat_id", JStr (uuid_String chatID)); ("is_forum", JBool false)]%string)).
Definition Service_Topics (chatID viewerID : uuid) (limit : Z) : handler (list Topic) :=
  cx ← authorizeTopics chatID viewerID false;
  let limit := if (limit <=? 0) || (200 <? limit) then 100 else limit in
  gets (λ w, Topics chatID viewerID (EditGroup (ctx_permissions cx)) limit (w_db w)).
Definition check_title (title : string) : result Error string :=
  let title := trim_space title in
  if bool_decide (title = ""%string) then Err (WithField (Validation "A topic needs a title") "title" "required")
  else if maxTopicTitle <? rune_count title then
    Err (WithField (Validation "That title is too long") "title" "at most 128 characters")
  else Ok title.
Definition Service_CreateTopic (now : time) (new_id : uuid) (chatID creatorID : uuid) (title emoji : string) (color : Z)
    : handler Topic :=
  cx ← authorizeTopics chatID creatorID false;
  fail_if (negb (SendMessages (ctx_permissions cx))) (Forbidden CodePermissionDenied "You cannot open a topic in this group");;
  title ← (λ w, (check_title title, w));
  t ← repo (CreateTopic now new_id chatID creatorID title emoji color) (λ _, Internal);
  publishChat chatID EventTopicCreated (PayloadOther (JObj [("chat_id", JStr (uuid_String chatID)); ("topic", topic_json t)]%string));;
  mret t.
Definition is_some {A} (o : option A) : bool := match o with Some _ => true | None => false end.
Definition with_tu_Title (v : option string) (u : TopicUpdate) : TopicUpdate :=
  MkTopicUpdate v (tu_IconColor u) (tu_IconEmoji u) (tu_IsClosed u) (tu_IsHidden u) (tu_IsPinned u).
Definition Service_UpdateTopic (chatID topicID actorID : uuid) (u : TopicUpdate) : handler Topic :=
  cx ← authorizeTopics chatID actorID false;
  existing ← repo (map_err TopicDb (TopicByID chatID topicID)) no_such_topic;
  let isAuthor := bool_decide (t_created_by existing = Some actorID) in
  let moderating := is_some (tu_IsClosed u) || is_some (tu_IsHidden u) || is_some (tu_IsPinned u) in
  let mayEdit := EditGroup (ctx_permissions cx) in
  fail_if (moderating && negb mayEdit) (Forbidden CodePermissionDenied "You cannot moderate topics in this group");;
  fail_if (is_some (tu_Title u) && negb isAuthor && negb mayEdit) (Forbidden CodePermissionDenied "You cannot rename this topic");;
  u ← (λ w, match tu_Title u with
            | None => (Ok u, w)
            | Some title => (match check_title title with Ok t => Ok (with_tu_Title (Some t) u) | Err e => Err e end, w)
            end);
  t ← repo (UpdateTopic chatID topicID u) no_such_topic;
  publishChat chatID EventTopicUpdated (PayloadOther (JObj [("chat_id", JStr (uuid_String chatID)); ("topic", topic_json t)]%string));;
  mret t.
Definition delete_topic_error (e : topicerr) : Error :=
  match e with
  | ErrGeneralTopic => Conflict CodeConflict "The General topic cannot be deleted; it holds the group's history"
  | e => no_such_topic e
  end.
Definition Service_DeleteTopic (now : time) (chatID topicID actorID : uuid) : handler () :=
  cx ← authorizeTopics chatID actorID false;
  fail_if (negb (DeleteMessages (ctx_permissions cx)) && negb (EditGroup (ctx_permissions cx)))
    (Forbidden CodePermissionDenied "You cannot delete topics here");;
  repo (DeleteTopic now chatID topicID actorID) delete_topic_error;;
  publishChat chatID EventTopicDeleted (PayloadOther (JObj [("chat_id", JStr (uuid_String chatID)); ("topic_id", JStr (uuid_String topicID))]%string)).
Definition Service_TopicHistory (chatID topicID viewerID : uuid) (beforeSeq afterSeq : option Z) (limit : Z)
    : handler (list Message) :=
  authorizeTopics chatID viewerID false;;
  let limit := if (limit <=? 0) || (MaxHistoryPageSize <? limit) then 50 else limit in
  repo (map_err TopicDb (TopicByID chatID topicID)) no_such_topic;;
  gets (λ w, History (MkHistoryQuery chatID viewerID beforeSeq afterSeq limit None (Some topicID)) (w_db w)).
Definition Service_MarkTopicRead (chatID topicID userID : uuid) (uptoSeq : Z) : handler Z :=
  authorizeTopics chatID userID false;;
  repo (map_err TopicDb (TopicByID chatID topicID)) no_such_topic;;
  repo (MarkTopicRead topicID userID uptoSeq) (λ _, Internal).
End service.
