(* ===== verification/TopicsTheory.v ===== *)
(** * Forum topics: the theorems

    Turning a group into a forum files its whole history, everything said in a forum stays
    filed under a topic of that forum, and the counters count. *)

From stdpp Require Import base tactics list sorting relations gmap strings.
From Stdlib Require Import ZArith Lia.
From S2P Require Import Prelude Steps GoString Httpx Permissions Store ChatContext EventLog MessageRepo MessageTheory RateLimit Ports Antispam Payloads MessagingService MessagingTheory Organise OrganiseTheory Topics.

Set Default Goal Selector "!".
Open Scope Z_scope.

(** ** Where a send is filed *)
Section sending.
Context `{SpamGuard G} `{MessageLimiter L} `{PayloadCodec}.
Implicit Types (w : world G L) (d : db).

Definition filed_in (chatID : uuid) (t : option uuid) (d : db) : Prop :=
  match t with
  | None => ∀ c, chats d !! chatID = Some c → c_type c = ChatGroup → IsForum chatID d = true → GeneralTopic chatID d = None
  | Some id => ∃ row, forum_topics d !! id = Some row ∧ t_chat_id row = chatID ∧ live_topic row = true
  end.
Lemma GeneralTopic_spec ch d id : GeneralTopic ch d = Some id → ∃ t, forum_topics d !! id = Some t ∧ general_of ch id t = true.
Proof.
  unfold GeneralTopic. intros Hh. assert (id ∈ (rows_where (λ _ t, bool_decide (t_chat_id t = ch) && t_is_general t
    && (if t_deleted_at t is None then true else false)) (forum_topics d)).*1) as Hin.
  { destruct (_.*1); [done|]. injection Hh as ->. by left. }
  apply list_elem_of_fmap in Hin as ([id' t] & -> & [Ht Hg]%elem_of_rows_where). by exists t.
Qed.
Lemma GeneralTopic_None ch d : GeneralTopic ch d = None → ∀ id t, forum_topics d !! id = Some t → general_of ch id t = false.
Proof.
  unfold GeneralTopic. intros Hh id t Ht. apply not_true_is_false. intros Hg.
  assert (id ∈ (rows_where (λ _ t, bool_decide (t_chat_id t = ch) && t_is_general t
    && (if t_deleted_at t is None then true else false)) (forum_topics d)).*1) as Hin.
  { apply list_elem_of_fmap. exists (id, t). split; [done|]. by apply elem_of_rows_where. }
  destruct (_.*1); [by apply not_elem_of_nil in Hin|done].
Qed.
Lemma general_of_inv ch id t : general_of ch id t = true ↔ t_chat_id t = ch ∧ t_is_general t = true ∧ t_deleted_at t = None.
Proof.
  unfold general_of, live_topic. rewrite !andb_true_iff, bool_decide_eq_true. destruct (t_deleted_at t); naive_solver.
Qed.
Lemma resolveTopic_filing cx i w t w' c :
  resolveTopic cx i w = (Ok t, w') → chats (w_db w) !! ctx_chat_id cx = Some c → ctx_chat_type cx = c_type c →
  w' = w ∧ filed_in (ctx_chat_id cx) t (w_db w).
Proof.
  intros Hrun Hc Hct. split; [by eapply resolveTopic_Ok_inv|]. revert Hrun. unfold resolveTopic.
  case_bool_decide as Htype; simpl.
  2: { intros [= <- _] c' Hc' Hg. congruence. }
  destruct (IsForum _ _) eqn:Hforum; simpl; [|intros [= <- _] c' _ _; congruence].
  destruct (in_TopicID i) as [id|].
  - intros Hrun. rewrite bind_run in Hrun. unfold repo, TopicByID in Hrun.
    destruct (forum_topics (w_db w) !! id) as [row|] eqn:Hrow; [|done].
    case_bool_decide as Hch; simpl in Hrun; [|done]. destruct (t_deleted_at row) eqn:Hdel; simpl in Hrun; [done|].
    rewrite bind_run in Hrun. unfold fail_if at 1 in Hrun. destruct (_ && _); [done|]. injection Hrun as <- _.
    exists row. unfold live_topic. by rewrite Hdel.
  - intros [= <- _]. destruct (GeneralTopic _ _) as [id|] eqn:Hg; simpl; [|done].
    apply GeneralTopic_spec in Hg as (row & Hrow & (Hch & _ & Hdel)%general_of_inv). exists row. unfold live_topic. by rewrite Hdel.
Qed.

(** Without other commits in between, a send leaves the database as it was or stores one
    message, filed by the state it found. *)
Lemma Send_db now id p d r d' :
  Send now id (λ d, d) (λ d, d) p d = (Ok r, d') → d' = d ∨ send_body now id p d = (Ok r, d').
Proof.
  unfold Send. destruct (if sp_AsChat p then _ else _) as [m|e0]; [intros [= _ <-]; by left|].
  case_decide; [|done]. destruct (in_tx _ _) as [[r1|e1] d1] eqn:Htx.
  - intros [= <- <-]. right. by apply in_tx_Ok_inv.
  - apply in_tx_Err in Htx as ->. destruct (is_unique_violation_of _ _); [|done].
    unfold messageByClientID. destruct (rows_where _ _) as [|[] ?]; [done|]. intros [= _ <-]. by left.
Qed.
Lemma Service_Send_db now id i w :
  let d' := w_db (Service_Send now id (λ d, d) (λ d, d) i w).2 in
  d' = w_db w ∨
  ∃ p r, send_body now id p (w_db w) = (Ok r, d') ∧ filed_in (sp_ChatID p) (sp_TopicID p) (w_db w).
Proof.
  destruct (Service_Send now id (λ d, d) (λ d, d) i w) as [[m|e] w'] eqn:Hrun; cbv zeta; cbn [snd].
  2: { left. change w' with (@Err Error Message e, w').2. rewrite <-Hrun.
       eapply (proj1 (service_errors_change_nothing now id uuid_nil)). by rewrite Hrun. }
  unfold Service_Send in Hrun. apply bind_Ok_inv in Hrun as (j & w0 & Hval & Hrun).
  destruct (validateSend now i) as [j0|] eqn:Hv; [|done]. injection Hval as -> <-.
  apply bind_Ok_inv in Hrun as (cx & w1 & [-> Hcx]%repo_context_inv & Hrun).
  apply bind_Ok_inv in Hrun as ([] & w1 & [_ ->]%fail_if_Ok_inv & Hrun).
  apply bind_Ok_inv in Hrun as ([] & w1 & [_ ->]%refuse_Ok_inv & Hrun).
  apply bind_Ok_inv in Hrun as ([] & w1 & [_ ->]%check_rate_Ok_inv & Hrun).
  apply bind_Ok_inv in Hrun as (r1 & w2 & [= <- <-] & Hrun).
  apply bind_Ok_inv in Hrun as ([] & w2 & [_ ->]%refuse_Ok_inv & Hrun).
  apply bind_Ok_inv in Hrun as (r2 & w2 & [= <- <-] & Hrun).
  apply bind_Ok_inv in Hrun as ([] & w2 & [_ ->]%refuse_Ok_inv & Hrun).
  apply bind_Ok_inv in Hrun as (t & w2 & Htopic & Hrun).
  apply chat_context_chat in Hcx as [Hid (c & [Hc _]%live_chat_Some & Hct & _)].
  rewrite <-Hid in Hc. apply (resolveTopic_filing _ _ _ _ _ c) in Htopic as [-> Hfiled]; [|done..].
  apply bind_Ok_inv in Hrun as (res & w2 & Hsend & Hrun). apply repo_Ok_inv in Hsend as (d & Hsend & ->).
  pose proof (reads_send_rest cx j res (set_db d (set_limiter (limiter_allow now (in_SenderID j) (w_limiter w)).2 w))) as Hrest.
  rewrite Hrun in Hrest. cbn [snd] in Hrest. rewrite Hrest.
  apply Send_db in Hsend as [->|Hbody]; [by left|right]. exists (send_params j t), res. split; [done|].
  rewrite Hid in Hfiled. exact Hfiled.
Qed.
End sending.

(** ** The invariant *)
Section invariant.
Implicit Types (d : db).

Definition in_topic (t : uuid) (_ : uuid) (r : message_row) : bool := bool_decide (r_topic_id r = Some t).
(** [fk_general]: a chat is a forum exactly when it has its General topic, of which there
    is one and which is never deleted.  [fk_filed], [fk_topic], [fk_live]: what is in a
    forum is in a topic, of the same chat, which is there while the message is.
    [fk_count]: a topic's counter is the number of messages ever filed in it. *)
Record forum_ok d : Prop := {
  fk_group : ∀ ch, IsForum ch d = true → ∃ c, chats d !! ch = Some c ∧ c_type c = ChatGroup;
  fk_general : ∀ ch, IsForum ch d = true ↔ ∃ id t, forum_topics d !! id = Some t ∧ general_of ch id t = true;
  fk_one : ∀ ch id1 id2 t1 t2, forum_topics d !! id1 = Some t1 → forum_topics d !! id2 = Some t2 →
    general_of ch id1 t1 = true → general_of ch id2 t2 = true → id1 = id2;
  fk_filed : ∀ id r, messages d !! id = Some r → IsForum (r_chat_id r) d = true → r_topic_id r ≠ None;
  fk_topic : ∀ id r t, messages d !! id = Some r → r_topic_id r = Some t →
    ∃ row, forum_topics d !! t = Some row ∧ t_chat_id row = r_chat_id r ∧ (r_deleted_at r = None → t_deleted_at row = None);
  fk_count : ∀ t row, forum_topics d !! t = Some row → t_message_count row = count_where (in_topic t) (messages d);
}.
(** The message store's own invariant with it. *)
Definition forum_evolves d d' : Prop := store_ok d ∧ forum_ok d → store_ok d' ∧ forum_ok d'.
#[export] Instance forum_evolves_preorder : PreOrder forum_evolves.
Proof.
  split; [intros d Hok; exact Hok|]. intros d1 d2 d3 H12 H23 Hok. apply H23, H12, Hok.
Qed.

(** What leaves the forums alone: messages are rewritten in place, none is moved to
    another topic or brought back. *)
Record forum_frame d d' : Prop := {
  ff_forum : ∀ ch, IsForum ch d' = IsForum ch d;
  ff_topics : forum_topics d' = forum_topics d;
  ff_chats : ∀ ch c, chats d !! ch = Some c → ∃ c', chats d' !! ch = Some c' ∧ c_type c' = c_type c;
  ff_messages : ∀ id r', messages d' !! id = Some r' → ∃ r, messages d !! id = Some r ∧ r_chat_id r' = r_chat_id r ∧
    r_topic_id r' = r_topic_id r ∧ (r_deleted_at r' = None → r_deleted_at r = None);
  ff_kept : ∀ id, is_Some (messages d !! id) → is_Some (messages d' !! id);
}.
Lemma in_topic_frame d d' t : forum_frame d d' →
  count_where (in_topic t) (messages d') = count_where (in_topic t) (messages d).
Proof.
  intros [_ _ _ Hm Hk]. apply count_where_ext. intros id. specialize (Hm id). specialize (Hk id).
  destruct (messages d' !! id) as [r'|].
  - destruct (Hm r' eq_refl) as (r & -> & _ & Ht & _). simpl. unfold in_topic. by rewrite Ht.
  - destruct (messages d !! id); [|done]. destruct Hk as [? ?]; [by eexists|done].
Qed.
Lemma forum_frame_ok d d' : forum_frame d d' → forum_ok d → forum_ok d'.
Proof.
  intros Hf [H1 H2 H3 H4 H5 H6]. pose proof Hf as [Fg Ft Fc Fm Fk]. split; rewrite ?Ft.
  - intros ch. rewrite Fg. intros (c & Hc & Hty)%H1. destruct (Fc _ _ Hc) as (c' & Hc' & Hty'). exists c'. split; [done|congruence].
  - intros ch. rewrite Fg. apply H2.
  - done.
  - intros id r' (r & Hr & Hch & Htp & _)%Fm. rewrite Fg, Hch, Htp. by apply (H4 id).
  - intros id r' t (r & Hr & Hch & Htp & Hdel)%Fm Ht. rewrite Htp in Ht. destruct (H5 id r t Hr Ht) as (row & Hrow & Hc & Hl).
    exists row. rewrite Hch. auto.
  - intros t row Hrow. rewrite (in_topic_frame d d' t Hf). by apply H6.
Qed.

Lemma IsForum_markForum ch b d ch' : IsForum ch' (markForum ch b d) = if decide (ch' = ch) then b else IsForum ch' d.
Proof.
  unfold IsForum, markForum. simpl. destruct (decide (ch' = ch)) as [->|Hne].
  - rewrite lookup_insert_eq. simpl. by destruct (groups d !! ch).
  - by rewrite lookup_insert_ne.
Qed.
Lemma store_ok_rewrite d d' P f :
  store_ok d → user_events d' = user_events d → user_event_counters d' = user_event_counters d →
  chats d' = chats d → chat_members d' = chat_members d →
  messages d' = update_where P (λ _, f) (messages d) → keeps_identity f →
  (∀ id r, messages d !! id = Some r → P id r = true → r_deleted_at (f r) ≠ None → r_content (f r) = ""%string) → store_ok d'.
Proof.
  intros Hok He Hn Hc Hm Hmsg Hkeep Htomb. eapply store_step_ok; [|exact Hok]. destruct Hok as ([Hl1 Hl2] & Hh & Hcur).
  eapply step_rewrite; [|exact Hmsg|exact Hkeep|exact Htomb|rewrite Hc; apply extends_chats_refl|by rewrite Hc, Hm].
  split; [unfold log_ok in *|unfold counters_nonneg in *]; by rewrite ?He, ?Hn.
Qed.
Lemma update_where_false {K V} `{Countable K} (f : K → V → V) (m : gmap K V) : update_where (λ _ _, false) f m = m.
Proof. by apply update_where_id. Qed.
Lemma store_ok_same d d' :
  store_ok d → user_events d' = user_events d → user_event_counters d' = user_event_counters d →
  chats d' = chats d → chat_members d' = chat_members d → messages d' = messages d → store_ok d'.
Proof.
  intros Hok He Hn Hc Hm Hmsg. apply (store_ok_rewrite d d' (λ _ _, false) (λ r, r)); try done.
  by rewrite update_where_false.
Qed.

(** The topics change, and what they say of chat, kind, life and count stays right. *)
Lemma topics_changed_ok d ts :
  forum_ok d →
  (∀ id t', ts !! id = Some t' → match forum_topics d !! id with
    | Some t => t_chat_id t' = t_chat_id t ∧ t_is_general t' = t_is_general t ∧ t_deleted_at t' = t_deleted_at t ∧
        t_message_count t' = t_message_count t
    | None => t_is_general t' = false ∧ t_message_count t' = 0
    end) →
  (∀ id, is_Some (forum_topics d !! id) → is_Some (ts !! id)) →
  forum_ok (with_forum_topics ts d).
Proof.
  intros [H1 H2 H3 H4 H5 H6] Hts Hkept.
  assert (∀ ch id t', ts !! id = Some t' → general_of ch id t' = true →
    ∃ t, forum_topics d !! id = Some t ∧ general_of ch id t = true) as Hback.
  { intros ch id t' Ht' (Hch & Hg & Hd)%general_of_inv. specialize (Hts _ _ Ht'). destruct (forum_topics d !! id) as [t|].
    - destruct Hts as (? & ? & ? & _). exists t. split; [done|]. apply general_of_inv. split_and!; congruence.
    - destruct Hts. congruence. }
  split; simpl.
  - done.
  - intros ch. change (IsForum ch (with_forum_topics ts d)) with (IsForum ch d). rewrite H2. split.
    + intros (id & t & Ht & (Hch & Hg & Hd)%general_of_inv). destruct (Hkept id) as [t' Ht']; [by eexists|].
      exists id, t'. split; [done|]. specialize (Hts _ _ Ht'). rewrite Ht in Hts. destruct Hts as (? & ? & ? & _).
      apply general_of_inv. split_and!; congruence.
    + intros (id & t' & Ht' & Hg). exists id. by eapply Hback.
  - intros ch id1 id2 t1 t2 Ht1 Ht2 Hg1 Hg2. destruct (Hback _ _ _ Ht1 Hg1) as (u1 & ? & ?).
    destruct (Hback _ _ _ Ht2 Hg2) as (u2 & ? & ?). by eapply H3.
  - done.
  - intros id r t Hr Ht. destruct (H5 id r t Hr Ht) as (row & Hrow & Hch & Hl). destruct (Hkept t) as [t' Ht']; [by eexists|].
    exists t'. split; [done|]. specialize (Hts _ _ Ht'). rewrite Hrow in Hts. destruct Hts as (Hc & _ & Hd & _).
    split; [congruence|]. intros Hlive. rewrite Hd. auto.
  - intros t row Hrow. specialize (Hts _ _ Hrow). destruct (forum_topics d !! t) as [row0|] eqn:Hrow0.
    + destruct Hts as (_ & _ & _ & ->). by apply H6.
    + destruct Hts as [_ ->]. symmetry. apply count_where_0. intros id r Hr. unfold in_topic.
      apply bool_decide_eq_false. intros Ht. destruct (H5 id r t Hr Ht) as (? & ? & _). congruence.
Qed.

Lemma CreateTopic_evolves now id ch u title emoji color d : forum_evolves d (CreateTopic now id ch u title emoji color d).2.
Proof.
  unfold CreateTopic. destruct (negb _); [simpl; reflexivity|]. case_bool_decide as Hid; [simpl; reflexivity|].
  apply eq_None_not_Some in Hid. intros [Hok Hf]. cbn [snd]. split; [by apply (store_ok_same d)|].
  apply topics_changed_ok; [done| |].
  - intros id' t' [[<- <-]|[Hne Ht']]%lookup_insert_Some; [by rewrite Hid|by rewrite Ht'].
  - intros id' Hs. apply lookup_insert_is_Some'. by right.
Qed.
Lemma TopicByID_inv ch id d t d' : TopicByID ch id d = (Ok t, d') →
  forum_topics d !! id = Some t ∧ t_chat_id t = ch ∧ t_deleted_at t = None ∧ d' = d.
Proof.
  unfold TopicByID. destruct (forum_topics d !! id) as [t0|]; [|done]. case_bool_decide; [|done]. simpl.
  destruct (t_deleted_at t0) eqn:Hd; [done|]. by intros [= <- <-].
Qed.
Lemma TopicByID_reads ch id d : (TopicByID ch id d).2 = d.
Proof. unfold TopicByID. destruct (forum_topics d !! id); [|done]. by destruct (_ && _). Qed.
Lemma UpdateTopic_evolves ch id u d : forum_evolves d (UpdateTopic ch id u d).2.
Proof.
  unfold UpdateTopic. rewrite bind_run. unfold map_err, catch. pose proof (TopicByID_reads ch id d) as Hd.
  destruct (TopicByID ch id d) as [[t|e] d0] eqn:Ht; cbn in Hd; subst d0; [|simpl; reflexivity].
  apply TopicByID_inv in Ht as (Ht & _). rewrite bind_run. unfold fail_if at 1. destruct (negb _); [simpl; reflexivity|].
  cbn beta iota. rewrite bind_run. unfold modify at 1. cbn [mret prog_ret snd].
  intros [Hok Hf]. split; [by apply (store_ok_same d)|]. apply topics_changed_ok; [done| |].
  - intros id' t' [[<- <-]|[Hne Ht']]%lookup_insert_Some; [by rewrite Ht|by rewrite Ht'].
  - intros id' Hs. apply lookup_insert_is_Some'. by right.
Qed.
Lemma MarkTopicRead_evolves t u upto d : forum_evolves d (MarkTopicRead t u upto d).2.
Proof.
  intros [Hok Hf]. split; [by apply (store_ok_same d)|]. apply (forum_frame_ok d); [|done].
  split; simpl; [done..|intros ch c Hc; by exists c|intros id r Hr; by exists r|done].
Qed.
Lemma DeleteTopic_evolves now ch id u d : forum_evolves d (DeleteTopic now ch id u d).2.
Proof.
  unfold DeleteTopic. set (m := map_err TopicDb (TopicByID ch id) ≫= _).
  destruct (in_tx m d) as [[[]|e] d'] eqn:Htx; [|apply in_tx_Err in Htx as ->; simpl; reflexivity]. cbn [snd].
  apply in_tx_Ok_inv in Htx. unfold m in Htx. apply bind_Ok_inv in Htx as (t & d0 & Hread & Hrun).
  unfold map_err, catch in Hread. destruct (TopicByID ch id d) as [[t0|e] d1] eqn:Ht; [|done]. injection Hread as -> ->.
  apply TopicByID_inv in Ht as (Ht & Hch & Hlive & ->). apply bind_Ok_inv in Hrun as ([] & ? & [Hgen ->]%fail_if_Ok_inv & Hrun).
  injection Hrun as <-. intros [Hok Hf]. split.
  - eapply (store_ok_rewrite d _ _ (topic_tombstone now u)); try done. all: by intros.
  - destruct Hf as [H1 H2 H3 H4 H5 H6].
    set (P := λ (_ : uuid) (r : message_row), bool_decide (r_topic_id r = Some id) && (if r_deleted_at r is None then true else false)).
    assert (∀ id' t', update_where (λ k _, bool_decide (k = id)) (λ _, with_t_deleted_at (Some now)) (forum_topics d) !! id' = Some t' →
      ∃ t0, forum_topics d !! id' = Some t0 ∧ t_chat_id t' = t_chat_id t0 ∧ t_is_general t' = t_is_general t0 ∧
        t_message_count t' = t_message_count t0 ∧ (id' ≠ id → t' = t0)) as Hback.
    { intros id' t' (t0 & Ht0 & ->)%lookup_update_where_Some. exists t0. case_bool_decide; [|done]. by split_and!. }
    assert (∀ ch' id' t', update_where (λ k _, bool_decide (k = id)) (λ _, with_t_deleted_at (Some now)) (forum_topics d) !! id' = Some t' →
      general_of ch' id' t' = true → forum_topics d !! id' = Some t' ∧ general_of ch' id' t' = true) as Hgb.
    { intros ch' id' t' Ht' Hg. split; [|done]. destruct (Hback _ _ Ht') as (t0 & Ht0 & _ & Hg0 & _ & Heq).
      rewrite Heq; [done|]. intros ->. rewrite Ht in Ht0. injection Ht0 as <-. apply general_of_inv in Hg as (_ & Hg & _). congruence. }
    split; simpl.
    + done.
    + intros ch'. rewrite (H2 ch' : _ ↔ _). split; intros (id' & t' & Ht' & Hg).
      * exists id', t'. split; [|done]. rewrite lookup_update_where, Ht'. simpl. rewrite bool_decide_false; [done|]. intros ->.
        rewrite Ht in Ht'. injection Ht' as <-. apply general_of_inv in Hg as (_ & Hg & _). congruence.
      * exists id', t'. by eapply Hgb.
    + intros ch' id1 id2 t1 t2 Ht1 Ht2 Hg1 Hg2. apply (Hgb ch') in Ht1 as [Ht1 _], Ht2 as [Ht2 _]; [|done..]. by eapply H3.
    + intros id' r' (r & Hr & ->)%lookup_update_where_Some Hforum.
      assert (r_topic_id (if P id' r then topic_tombstone now u r else r) = r_topic_id r) as -> by by destruct (P id' r).
      apply (H4 id' r Hr). by destruct (P id' r).
    + intros id' r' t' (r & Hr & ->)%lookup_update_where_Some Ht'.
      assert (r_topic_id (if P id' r then topic_tombstone now u r else r) = r_topic_id r) as Htp by by destruct (P id' r).
      rewrite Htp in Ht'. destruct (H5 id' r t' Hr Ht') as (row & Hrow & Hc & Hl). rewrite lookup_update_where, Hrow.
      eexists. split; [done|]. split.
      * case_bool_decide; destruct (P id' r); done.
      * unfold P. rewrite Ht'. destruct (decide (t' = id)) as [->|Hne].
        -- rewrite !bool_decide_true by done. simpl. destruct (r_deleted_at r) eqn:Hd; simpl; [by rewrite Hd|done].
        -- rewrite !bool_decide_false by congruence. done.
    + intros t' row' (row & Hrow & ->)%lookup_update_where_Some.
      assert (t_message_count (if bool_decide (t' = id) then with_t_deleted_at (Some now) row else row) = t_message_count row)
        as -> by by case_bool_decide.
      rewrite (H6 _ _ Hrow). apply count_where_ext. intros k. rewrite lookup_update_where.
      destruct (messages d !! k) as [r|]; [|done]. simpl. unfold in_topic. by destruct (P k r).
Qed.

(** The state after a first conversion. *)
Definition enabled_db (now : time) (new_id ch a : uuid) d : db :=
  markForum ch true (with_forum_topics (update_where (λ k _, bool_decide (k = new_id))
    (λ _, with_t_message_count (count_where (unfiled ch) (messages d)))
    (<[new_id := general_row now ch a 0]> (forum_topics d))) (file_history ch new_id
    (with_forum_topics (<[new_id := general_row now ch a 0]> (forum_topics d)) d))).
Lemma EnableForum_Ok now new_id ch a d r d' :
  EnableForum now new_id ch a d = (Ok r, d') →
  ∃ c, live_chat d ch = Some c ∧ c_type c = ChatGroup ∧
    ((∃ id t, forum_topics d !! id = Some t ∧ general_of ch id t = true ∧ r = MkTopicView id t 0 ∧ d' = markForum ch true d) ∨
     (∀ id t, forum_topics d !! id = Some t → general_of ch id t = false) ∧ forum_topics d !! new_id = None ∧
       r = MkTopicView new_id (general_row now ch a (count_where (unfiled ch) (messages d))) 0 ∧ d' = enabled_db now new_id ch a d).
Proof.
  unfold EnableForum. intros Hrun%in_tx_Ok_inv. rewrite bind_run in Hrun. unfold gets at 1 in Hrun. cbn beta iota in Hrun.
  apply bind_Ok_inv in Hrun as (c & ? & [Hc ->]%or_fail_Ok_inv & Hrun).
  apply bind_Ok_inv in Hrun as ([] & ? & [Hty ->]%fail_if_Ok_inv & Hrun).
  apply negb_false_iff, bool_decide_eq_true in Hty. exists c. split; [done|]. split; [done|].
  rewrite bind_run in Hrun. unfold gets at 1 in Hrun. cbn beta iota in Hrun.
  destruct (rows_where (general_of ch) (forum_topics d)) as [|[id t] l] eqn:Hrows; cbn [head] in Hrun.
  - right. split.
    { intros id t Ht. apply not_true_is_false. intros Hg. assert ((id, t) ∈ rows_where (general_of ch) (forum_topics d)) as Hin
        by by apply elem_of_rows_where. rewrite Hrows in Hin. by apply not_elem_of_nil in Hin. }
    rewrite bind_run in Hrun. unfold gets at 1 in Hrun. cbn beta iota in Hrun.
    apply bind_Ok_inv in Hrun as ([] & ? & [Hnew%bool_decide_eq_false ->]%fail_if_Ok_inv & Hrun).
    split; [by apply eq_None_not_Some|]. injection Hrun as <- <-. split; [done|]. reflexivity.
  - left. exists id, t. assert ((id, t) ∈ rows_where (general_of ch) (forum_topics d)) as Hin by (rewrite Hrows; by left).
    apply elem_of_rows_where in Hin as [Ht Hg]. split_and!; [done..| |]; by injection Hrun as <- <-.
Qed.
Lemma enabled_topics now new_id ch a d id : forum_topics d !! new_id = None →
  forum_topics (enabled_db now new_id ch a d) !! id =
  if decide (id = new_id) then Some (general_row now ch a (count_where (unfiled ch) (messages d))) else forum_topics d !! id.
Proof.
  intros Hnew. simpl. rewrite lookup_update_where. destruct (decide (id = new_id)) as [->|Hne].
  - rewrite lookup_insert_eq. simpl. by rewrite bool_decide_true.
  - rewrite lookup_insert_ne by done. destruct (forum_topics d !! id); simpl; [|done]. by rewrite bool_decide_false.
Qed.
Lemma enabled_messages now new_id ch a d :
  messages (enabled_db now new_id ch a d) = update_where (unfiled ch) (λ _, with_r_topic_id (Some new_id)) (messages d).
Proof. done. Qed.
Lemma unfiled_spec ch id r : unfiled ch id r = true ↔ r_chat_id r = ch ∧ r_topic_id r = None.
Proof. unfold unfiled. by rewrite andb_true_iff, !bool_decide_eq_true. Qed.
Lemma enabled_message now new_id ch a d id r' :
  messages (enabled_db now new_id ch a d) !! id = Some r' →
  ∃ r, messages d !! id = Some r ∧ r_chat_id r' = r_chat_id r ∧ r_deleted_at r' = r_deleted_at r ∧
    (r_chat_id r = ch ∧ r_topic_id r = None ∧ r_topic_id r' = Some new_id ∨
     r' = r ∧ ¬ (r_chat_id r = ch ∧ r_topic_id r = None)).
Proof.
  rewrite enabled_messages. intros (r & Hr & ->)%lookup_update_where_Some. exists r. split; [done|].
  destruct (unfiled ch id r) eqn:Hu.
  - apply unfiled_spec in Hu as [? ?]. split_and!; [done..|]. by left.
  - split_and!; [done..|]. right. split; [done|]. intros Hn. apply unfiled_spec with (id := id) in Hn. congruence.
Qed.
Lemma enabled_ok now new_id ch a d c :
  live_chat d ch = Some c → c_type c = ChatGroup →
  (∀ id t, forum_topics d !! id = Some t → general_of ch id t = false) → forum_topics d !! new_id = None →
  forum_evolves d (enabled_db now new_id ch a d).
Proof.
  intros [Hc _]%live_chat_Some Hty Hno Hnew [Hok [H1 H2 H3 H4 H5 H6]].
  assert (∀ ch', IsForum ch' (enabled_db now new_id ch a d) = if decide (ch' = ch) then true else IsForum ch' d) as Hforum.
  { intros ch'. unfold enabled_db. by rewrite IsForum_markForum. }
  assert (∀ ch' id t, general_of ch' id t = true → ch' ≠ ch → t ≠ general_row now ch a (count_where (unfiled ch) (messages d))) as Hother.
  { intros ch' id t (Hch & _)%general_of_inv Hne ->. simpl in Hch. congruence. }
  split.
  - eapply (store_ok_rewrite d _ _ (with_r_topic_id (Some new_id))); try done. intros id r Hr _ Hd.
    destruct Hok as (_ & Hh & _). exact (ok_tombstone _ _ Hh id r Hr Hd).
  - split.
    + intros ch'. rewrite Hforum. case_decide as Heq; [subst; intros _; by exists c|apply H1].
    + intros ch'. rewrite Hforum. setoid_rewrite enabled_topics; [|done]. case_decide as Heq.
      * subst ch'. split; [|done]. intros _. exists new_id. eexists. rewrite decide_True by done. split; [done|].
        by apply general_of_inv.
      * rewrite H2. split; intros (id & t & Ht & Hg); exists id, t; (split; [|done]).
        -- rewrite decide_False; [done|]. intros ->. congruence.
        -- case_decide; [|done]. injection Ht as <-. by apply Hother in Hg.
    + intros ch' id1 id2 t1 t2. rewrite !enabled_topics by done. intros Ht1 Ht2 Hg1 Hg2.
      destruct (decide (ch' = ch)) as [->|Hne].
      * assert (∀ id t, (if decide (id = new_id) then Some (general_row now ch a (count_where (unfiled ch) (messages d)))
          else forum_topics d !! id) = Some t → general_of ch id t = true → id = new_id) as Honly.
        { intros id t Ht Hg. case_decide; [done|]. apply Hno in Ht. congruence. }
        by rewrite (Honly _ _ Ht1 Hg1), (Honly _ _ Ht2 Hg2).
      * destruct (decide (id1 = new_id)); [injection Ht1 as <-; by apply Hother in Hg1|].
        destruct (decide (id2 = new_id)); [injection Ht2 as <-; by apply Hother in Hg2|]. by eapply H3.
    + intros id r' (r & Hr & Hch & _ & [(_ & _ & ->)|[-> Hn]])%enabled_message; [done|].
      rewrite Hforum. case_decide as Heq; [|by apply (H4 id)]. intros _ Ht. by apply Hn.
    + intros id r' t (r & Hr & Hch & Hd & [(Hrch & Hnone & Ht)|[-> Hn]])%enabled_message Ht'.
      * rewrite Ht in Ht'. injection Ht' as <-. eexists. rewrite enabled_topics, decide_True by done. split; [done|].
        split; [simpl; congruence|done].
      * destruct (H5 id r t Hr Ht') as (row & Hrow & ? & ?). exists row. rewrite enabled_topics by done.
        rewrite decide_False by congruence. done.
    + intros t row. rewrite enabled_topics by done. rewrite enabled_messages. case_decide as Heq.
      * intros [= <-]. subst t. simpl. apply count_where_ext. intros k. rewrite lookup_update_where.
        destruct (messages d !! k) as [r|] eqn:Hr; [|done]. simpl. unfold in_topic. destruct (unfiled ch k r) eqn:Hu.
        -- simpl. by rewrite bool_decide_true.
        -- rewrite bool_decide_false; [done|]. intros Ht. destruct (H5 k r new_id Hr Ht) as (? & ? & _). congruence.
      * intros Hrow. rewrite (H6 _ _ Hrow). apply count_where_ext. intros k. rewrite lookup_update_where.
        destruct (messages d !! k) as [r|] eqn:Hr; [|done]. simpl. unfold in_topic. destruct (unfiled ch k r) eqn:Hu; [|done].
        apply unfiled_spec in Hu as [_ ->]. simpl. rewrite !bool_decide_false by congruence. done.
Qed.
Lemma markForum_same_ok ch d : IsForum ch d = true → forum_evolves d (markForum ch true d).
Proof.
  intros Hf [Hok Hfo]. split; [by apply (store_ok_same d)|]. apply (forum_frame_ok d); [|done].
  split; simpl; [|done|intros ch' c Hc; by exists c|intros id r Hr; by exists r|done].
  intros ch'. rewrite IsForum_markForum. case_decide; [by subst|done].
Qed.
Lemma EnableForum_evolves now new_id ch a d : forum_evolves d (EnableForum now new_id ch a d).2.
Proof.
  destruct (EnableForum now new_id ch a d) as [[r|e] d'] eqn:Hrun; cbn [snd].
  - apply EnableForum_Ok in Hrun as (c & Hc & Hty & [(id & t & Ht & Hg & _ & ->)|(Hno & Hnew & _ & ->)]).
    + intros Hok. apply markForum_same_ok; [|done]. apply (fk_general _ (proj2 Hok)). eauto.
    + by eapply enabled_ok.
  - unfold EnableForum in Hrun. apply in_tx_Err in Hrun as ->. reflexivity.
Qed.

(** A stored message. *)
Lemma sent_db_forum now id p row n d :
  groups (sent_db now id p row n d) = groups d ∧
  chats (sent_db now id p row n d) = chats (advance_chat now (sp_ChatID p) (r_seq row) id d) ∧
  forum_topics (sent_db now id p row n d) =
    (if sp_TopicID p is Some t then forum_topics (advance_topic now t (sp_SenderID p) d) else forum_topics d).
Proof. unfold sent_db. by destruct (FanoutThreshold <? _), (sp_AsChat p), (sp_TopicID p). Qed.
Lemma send_evolves now id p d r d' :
  filed_in (sp_ChatID p) (sp_TopicID p) d → send_body now id p d = (Ok r, d') → forum_evolves d d'.
Proof.
  intros Hfiled Hbody [Hok Hf]. split; [by eapply store_step_ok, Hok; econstructor|].
  apply send_body_Ok in Hbody as (c & ent & pay & mk & Hc & _ & _ & _ & [_ _ Hid _ _] & -> & _); [|apply Hok].
  set (row := new_message_row _ _ _ _ _ _ _) in *.
  destruct (sent_db_forum now id p row (c_member_count c) d) as (Hg & Hch & Ht).
  pose proof (messages_sent_db now id p row (c_member_count c) d) as Hm.
  set (d' := sent_db _ _ _ _ _ _) in *. destruct Hf as [H1 H2 H3 H4 H5 H6].
  apply live_chat_Some in Hc as [Hc _].
  assert (∀ ch, IsForum ch d' = IsForum ch d) as Hforum by (intros ch; unfold IsForum; by rewrite Hg).
  assert (∀ t, forum_topics d' !! t = (λ x, if decide (sp_TopicID p = Some t)
      then with_t_message_count (t_message_count x + 1) (with_t_last_message_at now x) else x) <$> forum_topics d !! t) as Htopics.
  { intros t. rewrite Ht. destruct (sp_TopicID p) as [t0|]; simpl.
    - rewrite lookup_update_where. destruct (forum_topics d !! t); [|done]. simpl.
      destruct (decide (t = t0)) as [->|Hne]; [by rewrite bool_decide_true, decide_True|].
      by rewrite bool_decide_false, decide_False by congruence.
    - destruct (forum_topics d !! t); [|done]. done. }
  assert (∀ ch t x', forum_topics d' !! t = Some x' → ∃ x, forum_topics d !! t = Some x ∧ t_chat_id x' = t_chat_id x ∧
    t_deleted_at x' = t_deleted_at x ∧ (general_of ch t x' = general_of ch t x)) as Hback.
  { intros ch t x'. rewrite Htopics. intros (x & Hx & ->)%fmap_Some. exists x. case_decide; by split_and!. }
  assert (∀ t x, forum_topics d !! t = Some x → ∃ x', forum_topics d' !! t = Some x' ∧ t_chat_id x' = t_chat_id x ∧
    t_deleted_at x' = t_deleted_at x ∧ ∀ ch, general_of ch t x' = general_of ch t x) as Hfwd.
  { intros t x Hx. rewrite Htopics, Hx. eexists. split; [done|]. case_decide; by split_and!. }
  split.
  - intros ch. rewrite Hforum. intros (c0 & Hc0 & Hty)%H1. rewrite Hch. simpl. rewrite lookup_update_where, Hc0.
    eexists. split; [done|]. by case_bool_decide.
  - intros ch. rewrite Hforum, H2. split; intros (t & x & Hx & Hgen).
    + destruct (Hfwd _ _ Hx) as (x' & Hx' & _ & _ & Hgg). exists t, x'. by rewrite Hgg.
    + destruct (Hback ch _ _ Hx) as (x0 & Hx0 & _ & _ & Hgg). exists t, x0. by rewrite <-Hgg.
  - intros ch id1 id2 t1 t2 Ht1 Ht2 Hg1 Hg2. destruct (Hback ch _ _ Ht1) as (x1 & ? & _ & _ & Hgg1).
    destruct (Hback ch _ _ Ht2) as (x2 & ? & _ & _ & Hgg2). rewrite Hgg1 in Hg1. rewrite Hgg2 in Hg2. by eapply H3.
  - intros id' r'. rewrite Hforum, Hm. intros [[<- <-]|[_ Hr']]%lookup_insert_Some; [|by apply (H4 id')].
    intros Hfr Hnone. change (sp_TopicID p = None) in Hnone. rewrite Hnone in Hfiled. simpl in Hfiled.
    destruct (H1 _ Hfr) as (c0 & Hc0 & Hty). apply H2 in Hfr as Hgen. destruct Hgen as (t & x & Hx & Hgx).
    pose proof (GeneralTopic_None _ _ (Hfiled c0 Hc0 Hty Hfr) t x Hx) as Hng. change (r_chat_id row) with (sp_ChatID p) in Hgx. congruence.
  - intros id' r' t. rewrite Hm. intros [[<- <-]|[_ Hr']]%lookup_insert_Some Ht'.
    + change (sp_TopicID p = Some t) in Ht'. rewrite Ht' in Hfiled. destruct Hfiled as (x & Hx & Hxc & Hl).
      destruct (Hfwd _ _ Hx) as (x' & Hx' & Hc' & Hd' & _). exists x'. split; [done|]. split; [by rewrite Hc'|].
      intros _. rewrite Hd'. unfold live_topic in Hl. by destruct (t_deleted_at x).
    + destruct (H5 id' r' t Hr' Ht') as (x & Hx & Hxc & Hl). destruct (Hfwd _ _ Hx) as (x' & Hx' & Hc' & Hd' & _).
      exists x'. rewrite Hc', Hd'. done.
  - intros t x'. rewrite Htopics, Hm. intros (x & Hx & ->)%fmap_Some.
    rewrite count_where_insert_new by done. unfold in_topic at 2. change (r_topic_id row) with (sp_TopicID p).
    rewrite <-(H6 _ _ Hx). case_decide as Heq; [rewrite bool_decide_true by done; done|].
    rewrite bool_decide_false by done. lia.
Qed.
End invariant.

(** ** The requests *)
Section requests.
Context `{SpamGuard G} `{MessageLimiter L} `{PayloadCodec}.
Implicit Types (w : world G L).
Variable topic_json : Topic → json.

Definition world_evolves w w' : Prop := forum_evolves (w_db w) (w_db w').
#[local] Instance world_evolves_preorder : PreOrder world_evolves.
Proof. unfold world_evolves. split; [intros w; reflexivity|]. intros w1 w2 w3 H12 H23. by etransitivity. Qed.
Lemma reads_evolves {A} (m : prog (world G L) Error A) : reads m → follows world_evolves m.
Proof. intros Hm w. unfold world_evolves. rewrite Hm. reflexivity. Qed.
Lemma repo_evolves {A} (m : prog db topicerr A) h : follows forum_evolves m → follows world_evolves (repo (G := G) (L := L) m h).
Proof. intros Hm w. specialize (Hm (w_db w)). unfold repo, world_evolves. by destruct (m (w_db w)) as [[a|e] d]. Qed.
Lemma authorizeTopics_evolves ch a admin : follows world_evolves (authorizeTopics (G := G) (L := L) ch a admin).
Proof.
  unfold authorizeTopics. follow_steps; apply reads_evolves; [apply reads_context|apply reads_fail_if..].
Qed.
Lemma publish_evolves ch ev p : follows world_evolves (publishChat (G := G) (L := L) ch ev p).
Proof. apply reads_evolves, reads_emit. Qed.
Lemma TopicByID_evolves ch id : follows forum_evolves (map_err TopicDb (TopicByID ch id)).
Proof.
  intros d. unfold map_err, catch. pose proof (TopicByID_reads ch id d) as Hd.
  destruct (TopicByID ch id d) as [[t|e] d0]; cbn in *; subst; reflexivity.
Qed.

(** Topic requests, sends with nothing committed in between, and whatever leaves the
    forums alone.  Turning forum mode off is not among them. *)
Inductive forum_step w : world G L → Prop :=
| fs_enable now id ch a : forum_step w (Service_EnableForum now id ch a w).2
| fs_create now id ch a title emoji color : forum_step w (Service_CreateTopic topic_json now id ch a title emoji color w).2
| fs_update ch t a u : forum_step w (Service_UpdateTopic topic_json ch t a u w).2
| fs_delete now ch t a : forum_step w (Service_DeleteTopic now ch t a w).2
| fs_read ch t a upto : forum_step w (Service_MarkTopicRead ch t a upto w).2
| fs_send now id i : forum_step w (Service_Send now id (λ d, d) (λ d, d) i w).2
| fs_rest w' : rtc store_step (w_db w) (w_db w') → forum_frame (w_db w) (w_db w') → forum_step w w'.
Lemma forum_step_evolves w w' : forum_step w w' → world_evolves w w'.
Proof.
  destruct 1 as [now id ch a|now id ch a title emoji color|ch t a u|now ch t a|ch t a upto|now id i|w' Hs Hf].
  - revert w. change (follows world_evolves (Service_EnableForum (G := G) (L := L) now id ch a)).
    unfold Service_EnableForum. follow_steps; try first [apply authorizeTopics_evolves|apply publish_evolves].
    apply repo_evolves. intros d. apply EnableForum_evolves.
  - revert w. change (follows world_evolves (Service_CreateTopic (G := G) (L := L) topic_json now id ch a title emoji color)).
    unfold Service_CreateTopic. follow_steps; try first [apply authorizeTopics_evolves|apply publish_evolves].
    apply repo_evolves. intros d. apply CreateTopic_evolves.
  - revert w. change (follows world_evolves (Service_UpdateTopic (G := G) (L := L) topic_json ch t a u)).
    unfold Service_UpdateTopic. follow_steps; try first [apply authorizeTopics_evolves|apply publish_evolves].
    all: first [by apply reads_evolves; intros w; destruct (tu_Title u)
      |apply repo_evolves; first [apply TopicByID_evolves|intros d; apply UpdateTopic_evolves]].
  - revert w. change (follows world_evolves (Service_DeleteTopic (G := G) (L := L) now ch t a)).
    unfold Service_DeleteTopic. follow_steps; try first [apply authorizeTopics_evolves|apply publish_evolves].
    apply repo_evolves. intros d. apply DeleteTopic_evolves.
  - revert w. change (follows world_evolves (Service_MarkTopicRead (G := G) (L := L) ch t a upto)).
    unfold Service_MarkTopicRead. follow_steps; try apply authorizeTopics_evolves.
    all: apply repo_evolves; first [apply TopicByID_evolves|intros d; apply MarkTopicRead_evolves].
  - unfold world_evolves. destruct (Service_Send_db now id i w) as [->|(p & r & Hbody & Hfiled)]; [reflexivity|].
    by eapply send_evolves.
  - intros [Hok Hfo]. split; [by eapply store_steps_ok|by eapply forum_frame_ok].
Qed.
Lemma forum_steps_evolve w w' : rtc forum_step w w' → world_evolves w w'.
Proof. induction 1 as [w|w1 w2 w3 Hs _ IH]; [reflexivity|]. etransitivity; [by apply forum_step_evolves|done]. Qed.
End requests.

(** In every sequence of requests that enable forums, open, change, delete and read
    topics and send messages, among everything else the message store does: a chat is a
    forum exactly when it has its General topic, one, never deleted; every message of a
    forum, those from before the conversion included, is filed under a topic of that
    chat, which stands as long as the message does; and the counter of each topic is the
    number of messages ever filed in it. *)
Lemma forum_messages_stay_filed `{SpamGuard G} `{MessageLimiter L} `{PayloadCodec} topic_json (w w' : world G L) :
  rtc (forum_step topic_json) w w' → store_ok (w_db w) → forum_ok (w_db w) →
  store_ok (w_db w') ∧ forum_ok (w_db w').
Proof. intros Hsteps Hok Hf. by apply (forum_steps_evolve topic_json w w' Hsteps). Qed.

#[local] Existing Instance toy_codec.

(** ** Samples: chat 20 is a group of Ben's (2), with one message in it. *)
Definition add_group (ch owner : uuid) (d : db) : db :=
  with_chats (<[ch := MkChat ChatGroup "" "" None None None 0 None None 1 false 0 None]> (chats d))
    (with_chat_members (<[(ch, owner) := MkMember RoleOwner None "" 0 0 0 0 "" 0 None None None None 0]> (chat_members d)) d).
Definition group_db : db := add_group 20 2 sample_db.
Definition group_world : world (gmap (string * string) Antispam.Score) limiter_state := set_db group_db sample_world.
Definition to_group (client : uuid) (text : string) : SendInput :=
  MkSendInput 20 2 client TypeText text RawNil RawNil None [] [] None RawNil false None.
Definition said_world := (Service_Send minute 301 (λ d, d) (λ d, d) (to_group 81 "before") group_world).2.
Definition forum_world := (Service_EnableForum (2 * minute) 600 20 2 said_world).2.
Definition no_topic_json (_ : Topic) : json := JNull.

Lemma add_group_store_ok ch u d : chats d !! ch = None → store_ok d → store_ok (add_group ch u d).
Proof.
  intros Hnew Hok. eapply store_step_ok; [|exact Hok]. destruct Hok as (Hlog & _ & Hcur). apply step_rest; [exact Hlog|done| |].
  - by apply extends_chats_insert.
  - unfold add_group. simpl. eapply cursors_ok_insert; [apply lookup_insert_eq|simpl; lia|].
    eapply cursors_ok_extends; [by apply extends_chats_insert|exact Hcur].
Qed.
Lemma no_forum_ok d : groups d = ∅ → forum_topics d = ∅ → map_Forall (λ _ r, r_topic_id r = None) (messages d) → forum_ok d.
Proof.
  intros Hg Ht Hnone. assert (∀ ch, IsForum ch d = false) as Hf by (intros ch; unfold IsForum; by rewrite Hg, lookup_empty).
  split; rewrite ?Ht.
  - intros ch. by rewrite Hf.
  - intros ch. rewrite Hf. split; [done|]. intros (id & t & Hl & _). by rewrite lookup_empty in Hl.
  - intros ch id1 id2 t1 t2 Hl. by rewrite lookup_empty in Hl.
  - intros id r _. by rewrite Hf.
  - intros id r t Hr Htp. pose proof (Hnone id r Hr) as Hn. simpl in Hn. congruence.
  - intros t row Hl. by rewrite lookup_empty in Hl.
Qed.
Lemma group_db_ok : store_ok group_db ∧ forum_ok group_db.
Proof.
  split.
  - apply add_group_store_ok; [vm_compute; reflexivity|exact (proj2 sample_ok)].
  - apply no_forum_ok; [vm_compute; reflexivity..|]. apply (bool_decide_unpack _). vm_compute. exact I.
Qed.
Lemma forum_messages_stay_filed_witness :
  IsForum 20 (w_db forum_world) = true ∧ is_Some (messages (w_db forum_world) !! 301%N) ∧
  ∀ r, messages (w_db forum_world) !! 301%N = Some r → r_topic_id r ≠ None.
Proof.
  assert (rtc (forum_step no_topic_json) group_world forum_world) as Hsteps.
  { eapply rtc_l; [exact (fs_send no_topic_json group_world minute 301%N (to_group 81 "before"))|].
    apply rtc_once. exact (fs_enable no_topic_json said_world (2 * minute) 600%N 20%N 2%N). }
  destruct (forum_messages_stay_filed no_topic_json group_world forum_world Hsteps (proj1 group_db_ok) (proj2 group_db_ok)) as [_ Hf].
  assert (IsForum 20 (w_db forum_world) = true) as Hforum by (vm_compute; reflexivity).
  assert (r_chat_id <$> messages (w_db forum_world) !! 301%N = Some 20%N) as Hin by (vm_compute; reflexivity).
  split; [exact Hforum|]. split.
  - destruct (messages (w_db forum_world) !! 301%N) as [r|]; [exists r; reflexivity|discriminate Hin].
  - intros r Hr. apply (fk_filed _ Hf 301%N r Hr). rewrite Hr in Hin. injection Hin as ->. exact Hforum.
Defined.

(** What the invariant leaves out.  Messages sent while forum mode was off stay unfiled
    when it is turned on again; so does one whose sender looked before the conversion. *)
Definition unfiled_in_forum (ch id : uuid) (d : db) : bool :=
  IsForum ch d && (match messages d !! id with Some r => unfiled ch id r | None => false end).
Lemma switching_back_on_files_nothing :
  unfiled_in_forum 20 302 (w_db
    (Service_EnableForum 5 601 20 2 (Service_Send (3 * minute) 302 (λ d, d) (λ d, d) (to_group 82 "between")
      (Service_DisableForum 20 2 forum_world).2).2).2) = true.
Proof. vm_compute. reflexivity. Qed.
Lemma conversion_misses_a_running_send :
  unfiled_in_forum 20 302 (w_db
    (Service_Send (3 * minute) 302 (λ d, (EnableForum 5 600 20 2 d).2) (λ d, d) (to_group 82 "meanwhile") said_world).2) = true.
Proof. vm_compute. reflexivity. Qed.
(** The first time a member reads in a topic, everything in it counts as read, wherever
    they are. *)
Lemma first_read_reads_all t u d : forum_topic_reads d !! (t, u) = None →
  tr_unread_count <$> forum_topic_reads (MarkTopicRead t u 0 d).2 !! (t, u) = Some 0.
Proof. intros Hn. unfold MarkTopicRead. rewrite Hn. simpl. by rewrite lookup_insert_eq. Qed.
(** Any member may change the icon of any topic. *)
Lemma icons_are_anyones `{SpamGuard G} `{MessageLimiter L} topic_json ch t a color emoji (w : world G L) cx row :
  chat_context (w_db w) ch a = Some cx → ctx_is_member cx = true → TopicByID ch t (w_db w) = (Ok row, w_db w) →
  topic_title_fits (t_title row) = true →
  ∃ r w', Service_UpdateTopic topic_json ch t a (MkTopicUpdate None color emoji None None None) w = (Ok r, w').
Proof.
  intros Hcx Hmem Ht Hfit. unfold Service_UpdateTopic, authorizeTopics, repo, ChatContextFor, map_err, catch.
  prog_run. rewrite Hcx. simpl. rewrite Hmem. simpl. rewrite Ht. simpl.
  unfold UpdateTopic, map_err, catch. prog_run. rewrite Ht. simpl. rewrite Hfit. simpl. by eexists _, _.
Qed.
