(* ===== verification/Hub.v ===== *)
(** * The socket hub ([internal/realtime/hub.go], [client.go])

    The sockets one node holds, the bus subscriptions behind them and each
    client's send queue.  Every method of the hub holds [h.mu] for its whole
    body, so a run of the node is a sequence of such steps; a delivery takes its
    targets under the lock and queues the frame to each of them later.  A client
    pointer is a number.  Whether the bus accepts a subscription is an argument;
    metrics and logs are left out. *)

From stdpp Require Import base tactics list gmap strings relations.
From Stdlib Require Import ZArith Lia.
From S2P Require Import Prelude.

Set Default Goal Selector "!".
Open Scope Z_scope.

Definition sendBufferSize : Z := 256.
Definition CloseServerShutdown : Z := 4000.
Definition CloseSlowConsumer : Z := 4004.
Definition CloseNormalClosure : Z := 1000.

(** [Client], without the connection, the device and the session; [cl_closed] is
    the code the closed channel was closed with. *)
Record client := MkClient {
  cl_user : uuid;
  cl_subs : gset uuid;
  cl_send : list string;
  cl_closed : option Z;
}.
(** [Hub]; of a subscription only its presence, and for a chat its [refCount]. *)
Record hub := MkHub {
  connections : gmap uuid (gset N);
  userSubs : gset uuid;
  chatSubs : gmap uuid Z;
  clients : gmap N client;
}.
Definition NewHub : hub := MkHub ∅ ∅ ∅ ∅.

Definition with_connections (v : gmap uuid (gset N)) (h : hub) : hub := MkHub v (userSubs h) (chatSubs h) (clients h).
Definition with_userSubs (v : gset uuid) (h : hub) : hub := MkHub (connections h) v (chatSubs h) (clients h).
Definition with_chatSubs (v : gmap uuid Z) (h : hub) : hub := MkHub (connections h) (userSubs h) v (clients h).
Definition with_clients (v : gmap N client) (h : hub) : hub := MkHub (connections h) (userSubs h) (chatSubs h) v.
Definition with_cl_subs (v : gset uuid) (c : client) : client := MkClient (cl_user c) v (cl_send c) (cl_closed c).

(** [newClient] *)
Definition newClient (user : uuid) : client := MkClient user ∅ [] None.

(** The sockets of a user. *)
Definition sockets (u : uuid) (h : hub) : gset N := default ∅ (connections h !! u).

(** [register]; [ok] is whether the bus accepted the subscription. *)
Definition register (ok : bool) (id : N) (u : uuid) (h : hub) : bool * hub :=
  let h1 := with_connections (<[u := {[id]} ∪ sockets u h]> (connections h)) h in
  if decide (u ∈ userSubs h) then (true, h1)
  else if ok then (true, with_userSubs ({[u]} ∪ userSubs h) h1)
  else
    let rest := sockets u h1 ∖ {[id]} in
    (false, with_connections
       (if decide (rest = ∅) then delete u (connections h1) else <[u := rest]> (connections h1)) h1).

(** [releaseChatLocked], on the table of subscriptions *)
Definition releaseChatLocked (ch : uuid) (subs : gmap uuid Z) : gmap uuid Z :=
  match subs !! ch with
  | None => subs
  | Some n => if 0 <? n - 1 then <[ch := n - 1]> subs else delete ch subs
  end.

Definition unregister (id : N) (h : hub) : hub :=
  match clients h !! id with
  | None => h
  | Some c =>
      match connections h !! cl_user c with
      | None => h
      | Some ids =>
          if decide (id ∈ ids) then
            let rest := ids ∖ {[id]} in
            MkHub
              (if decide (rest = ∅) then delete (cl_user c) (connections h)
               else <[cl_user c := rest]> (connections h))
              (if decide (rest = ∅) then userSubs h ∖ {[cl_user c]} else userSubs h)
              (foldr releaseChatLocked (chatSubs h) (elements (cl_subs c)))
              (clients h)
          else h
      end
  end.

Definition subscribeChat (ok : bool) (id : N) (ch : uuid) (h : hub) : bool * hub :=
  match clients h !! id with
  | None => (false, h)
  | Some c =>
      let joined := with_clients (<[id := with_cl_subs ({[ch]} ∪ cl_subs c) c]> (clients h)) in
      if decide (ch ∈ cl_subs c) then (true, h)
      else
        match chatSubs h !! ch with
        | Some n => (true, joined (with_chatSubs (<[ch := n + 1]> (chatSubs h)) h))
        | None =>
            if ok then (true, joined (with_chatSubs (<[ch := 1]> (chatSubs h)) h))
            else (false, h)
        end
  end.

Definition unsubscribeChat (id : N) (ch : uuid) (h : hub) : hub :=
  match clients h !! id with
  | None => h
  | Some c =>
      if decide (ch ∈ cl_subs c) then
        with_chatSubs (releaseChatLocked ch (chatSubs h))
          (with_clients (<[id := with_cl_subs (cl_subs c ∖ {[ch]}) c]> (clients h)) h)
      else h
  end.

(** [close]: the first call decides the code. *)
Definition close (code : Z) (c : client) : client :=
  MkClient (cl_user c) (cl_subs c) (cl_send c)
    (match cl_closed c with Some x => Some x | None => Some code end).

(** [enqueue]: a [select] over the queue and the closed channel; when both are
    ready either may be taken, [pick_closed] says which. *)
Definition enqueue (pick_closed : bool) (data : string) (c : client) : client :=
  let room := Z.of_nat (length (cl_send c)) <? sendBufferSize in
  let closed := match cl_closed c with Some _ => true | None => false end in
  if room && negb (closed && pick_closed) then
    MkClient (cl_user c) (cl_subs c) (cl_send c ++ [data]) (cl_closed c)
  else if closed then c
  else close CloseSlowConsumer c.

(** The targets [deliverToUser] and [deliverToChat] collect under the lock. *)
Definition user_targets (u : uuid) (h : hub) : list N := elements (sockets u h).
Definition subscribed (ch : uuid) (h : hub) (id : N) : Prop :=
  match clients h !! id with Some c => ch ∈ cl_subs c | None => False end.
#[export] Instance subscribed_dec ch h id : Decision (subscribed ch h id).
Proof. unfold subscribed. destruct (clients h !! id); apply _. Defined.
(** Every socket of the node, user by user. *)
Definition all_sockets (h : hub) : list N := map_to_list (connections h) ≫= λ kv, elements kv.2.
Definition chat_targets (ch : uuid) (h : hub) : list N := filter (subscribed ch h) (all_sockets h).

(** The frame goes to each of them in turn; [picks] resolves the selects. *)
Definition enqueue_at (data : string) (pick : N → bool) (id : N) (h : hub) : hub :=
  with_clients (alter (enqueue (pick id) data) id (clients h)) h.
Definition deliverToUser (u : uuid) (data : string) (pick : N → bool) (h : hub) : hub :=
  foldl (λ h id, enqueue_at data pick id h) h (user_targets u h).
Definition deliverToChat (ch : uuid) (data : string) (pick : N → bool) (h : hub) : hub :=
  foldl (λ h id, enqueue_at data pick id h) h (chat_targets ch h).

Definition ConnectionCount (h : hub) : Z :=
  Z.of_nat (sum_list (size <$> (map_to_list (connections h)).*2)).
Definition IsOnline (u : uuid) (h : hub) : bool := bool_decide (sockets u h ≠ ∅).
Definition Shutdown (h : hub) : hub :=
  with_clients (foldl (λ cs id, alter (close CloseServerShutdown) id cs) (clients h)
    (all_sockets h)) h.

(** ** The node's runs *)

(** A client is registered while its user's set holds it. *)
Definition registered (h : hub) (id : N) (c : client) : bool := bool_decide (id ∈ sockets (cl_user c) h).
(** How many registered clients have a chat open. *)
Definition holding (ch : uuid) (h : hub) (id : N) (c : client) : bool :=
  registered h id c && bool_decide (ch ∈ cl_subs c).
Definition holders (ch : uuid) (h : hub) : Z := count_where (holding ch h) (clients h).

(** [writePump] takes the oldest frame. *)
Definition write_one (c : client) : client :=
  MkClient (cl_user c) (cl_subs c) (tail (cl_send c)) (cl_closed c).

(** What happens on a node.  The handshake queues the [connected] frame and
    registers a new client; a client's own frames are handled between its
    registration and its [unregister], so only a registered client subscribes. *)
Inductive hub_step (h : hub) : hub → Prop :=
| hub_connect id u ok frame pick :
    clients h !! id = None →
    hub_step h (register ok id u (with_clients (<[id := enqueue pick frame (newClient u)]> (clients h)) h)).2
| hub_subscribe id c ch ok :
    clients h !! id = Some c → registered h id c = true → hub_step h (subscribeChat ok id ch h).2
| hub_unsubscribe id c ch :
    clients h !! id = Some c → registered h id c = true → hub_step h (unsubscribeChat id ch h)
| hub_unregister id : hub_step h (unregister id h)
| hub_close id code : hub_step h (with_clients (alter (close code) id (clients h)) h)
| hub_enqueue id data pick : hub_step h (enqueue_at data pick id h)
| hub_write id : hub_step h (with_clients (alter write_one id (clients h)) h)
| hub_shutdown : hub_step h (Shutdown h).

Record hub_ok (h : hub) : Prop := {
  hub_conn : ∀ u ids id, connections h !! u = Some ids → id ∈ ids →
    ∃ c, clients h !! id = Some c ∧ cl_user c = u;
  hub_nonempty : ∀ u ids, connections h !! u = Some ids → ids ≠ ∅;
  hub_user : ∀ u, u ∈ userSubs h ↔ is_Some (connections h !! u);
  hub_chat : ∀ ch, chatSubs h !! ch = if holders ch h =? 0 then None else Some (holders ch h);
  hub_queue : ∀ id c, clients h !! id = Some c → Z.of_nat (length (cl_send c)) ≤ sendBufferSize;
}.

(** ** Lemmas *)
Section lemmas.
Implicit Types (h : hub) (id : N) (u ch : uuid) (c : client).

Lemma elem_of_sockets id u h : id ∈ sockets u h ↔ ∃ ids, connections h !! u = Some ids ∧ id ∈ ids.
Proof.
  unfold sockets. destruct (connections h !! u) as [ids|]; simpl; [naive_solver|].
  split; [set_solver|]. by intros (ids & ? & _).
Qed.
Lemma sockets_insert u u' ids h :
  sockets u' (with_connections (<[u := ids]> (connections h)) h) = if decide (u' = u) then ids else sockets u' h.
Proof.
  unfold sockets. simpl. destruct (decide (u' = u)) as [->|].
  - by rewrite lookup_insert_eq.
  - by rewrite lookup_insert_ne.
Qed.

Lemma lookup_releaseChat ch ch' subs :
  releaseChatLocked ch subs !! ch' =
    if decide (ch' = ch) then subs !! ch ≫= (λ n, if 0 <? n - 1 then Some (n - 1) else None) else subs !! ch'.
Proof.
  unfold releaseChatLocked. destruct (decide (ch' = ch)) as [->|Hne].
  - destruct (subs !! ch) as [n|] eqn:Hn; simpl; [|done].
    destruct (0 <? n - 1); [by rewrite lookup_insert_eq|by rewrite lookup_delete_eq].
  - destruct (subs !! ch) as [n|]; [|done].
    destruct (0 <? n - 1); [by rewrite lookup_insert_ne|by rewrite lookup_delete_ne].
Qed.
(** Releasing several chats releases each of them once. *)
Lemma lookup_releaseChats l ch subs :
  NoDup l →
  foldr releaseChatLocked subs l !! ch =
    if decide (ch ∈ l) then subs !! ch ≫= (λ n, if 0 <? n - 1 then Some (n - 1) else None) else subs !! ch.
Proof.
  induction l as [|x l IH]; [intros; by rewrite decide_False by apply not_elem_of_nil|].
  intros [Hx Hnd]%NoDup_cons. simpl. rewrite lookup_releaseChat. destruct (decide (ch = x)) as [->|Hne].
  - rewrite IH, decide_False by done. by rewrite decide_True by by left.
  - rewrite IH by done. destruct (decide (ch ∈ l)).
    + by rewrite decide_True by by right.
    + rewrite decide_False; [done|]. intros [|]%elem_of_cons; done.
Qed.

(** Counting: the number of holders as the table should show it. *)
Definition entry (n : Z) : option Z := if n =? 0 then None else Some n.
Lemma entry_succ n : 0 ≤ n → entry (n + 1) = Some (n + 1).
Proof. intros. unfold entry. by rewrite (proj2 (Z.eqb_neq _ _)) by lia. Qed.
Lemma entry_release n : 0 ≤ n → (entry (n + 1) ≫= λ k, if 0 <? k - 1 then Some (k - 1) else None) = entry n.
Proof.
  intros Hn. rewrite entry_succ by done. simpl. replace (n + 1 - 1) with n by lia. unfold entry.
  destruct (Z.eqb_spec n 0) as [->|]; [done|]. by rewrite (proj2 (Z.ltb_lt _ _)) by lia.
Qed.
Lemma holders_nonneg ch h : 0 ≤ holders ch h.
Proof. apply count_where_nonneg. Qed.

Lemma holders_change ch h h' id :
  (∀ id', id' ≠ id → holding ch h id' <$> clients h !! id' = Some true ↔
    holding ch h' id' <$> clients h' !! id' = Some true) →
  holders ch h' = holders ch h - (if hits (holding ch h) (clients h) id then 1 else 0)
    + (if hits (holding ch h') (clients h') id then 1 else 0).
Proof. apply count_where_change. Qed.
Lemma holders_same ch h h' :
  (∀ id, holding ch h id <$> clients h !! id = Some true ↔ holding ch h' id <$> clients h' !! id = Some true) →
  holders ch h' = holders ch h.
Proof. intros Heq. symmetry. by apply count_where_ext. Qed.

(** A change of one client that keeps its user and its subscriptions. *)
Lemma hub_ok_alter f id h :
  (∀ c, cl_user (f c) = cl_user c) → (∀ c, cl_subs (f c) = cl_subs c) →
  (∀ c, Z.of_nat (length (cl_send c)) ≤ sendBufferSize → Z.of_nat (length (cl_send (f c))) ≤ sendBufferSize) →
  hub_ok h → hub_ok (with_clients (alter f id (clients h)) h).
Proof.
  intros Hu Hs Hq [Hconn Hne Huser Hchat Hqueue]. split; try done.
  - intros u ids id' Hids Hin. destruct (Hconn _ _ _ Hids Hin) as (c & Hc & Hcu). simpl.
    destruct (decide (id = id')) as [->|].
    + rewrite lookup_alter_eq, Hc. exists (f c). by rewrite Hu.
    + rewrite lookup_alter_ne by done. eauto.
  - intros ch. rewrite (holders_same ch h); [by apply Hchat|]. intros id'. simpl.
    destruct (decide (id = id')) as [->|]; [rewrite lookup_alter_eq|by rewrite lookup_alter_ne].
    destruct (clients h !! id') as [c|]; [|done]. simpl. unfold holding, registered. by rewrite Hu, Hs.
  - intros id' c. simpl. destruct (decide (id = id')) as [->|].
    + rewrite lookup_alter_eq. intros (c0 & Hc0 & ->)%fmap_Some. eauto.
    + rewrite lookup_alter_ne by done. eauto.
Qed.

Lemma enqueue_user p data c : cl_user (enqueue p data c) = cl_user c.
Proof. unfold enqueue. destruct (_ && _); [done|]. by destruct (cl_closed c). Qed.
Lemma enqueue_subs p data c : cl_subs (enqueue p data c) = cl_subs c.
Proof. unfold enqueue. destruct (_ && _); [done|]. by destruct (cl_closed c). Qed.
Lemma enqueue_bound p data c :
  Z.of_nat (length (cl_send c)) ≤ sendBufferSize → Z.of_nat (length (cl_send (enqueue p data c))) ≤ sendBufferSize.
Proof.
  intros Hq. unfold enqueue. destruct (_ <? _) eqn:Hroom; simpl.
  - destruct (negb _); simpl; [|by destruct (cl_closed c)].
    rewrite length_app. simpl. apply Z.ltb_lt in Hroom. lia.
  - by destruct (cl_closed c).
Qed.

Lemma hub_ok_enqueue data pick id h : hub_ok h → hub_ok (enqueue_at data pick id h).
Proof. apply hub_ok_alter; [apply enqueue_user|apply enqueue_subs|apply enqueue_bound]. Qed.
Lemma hub_ok_close code id h : hub_ok h → hub_ok (with_clients (alter (close code) id (clients h)) h).
Proof. by apply hub_ok_alter. Qed.
Lemma hub_ok_closes l h :
  hub_ok h → hub_ok (with_clients (foldl (λ cs id, alter (close CloseServerShutdown) id cs) (clients h) l) h).
Proof.
  revert h. induction l as [|id l IH]; intros h Hok; [by destruct h|]. simpl.
  apply (hub_ok_close CloseServerShutdown id) in Hok. by apply IH in Hok.
Qed.
End lemmas.

Section preservation.
Implicit Types (h : hub) (id : N) (u ch : uuid) (c : client).

Lemma hub_ok_new id c h :
  clients h !! id = None → cl_subs c = ∅ → Z.of_nat (length (cl_send c)) ≤ sendBufferSize →
  hub_ok h → hub_ok (with_clients (<[id := c]> (clients h)) h).
Proof.
  intros Hid Hsubs Hlen [Hconn Hne Huser Hchat Hqueue]. split; try done.
  - intros u ids id' Hids Hin. destruct (Hconn _ _ _ Hids Hin) as (c' & Hc' & Hu). simpl.
    exists c'. by rewrite lookup_insert_ne by congruence.
  - intros ch. rewrite (holders_same ch h); [by apply Hchat|]. intros id'. simpl.
    destruct (decide (id = id')) as [->|]; [|by rewrite lookup_insert_ne].
    rewrite lookup_insert_eq, Hid. simpl. unfold holding. rewrite Hsubs, andb_comm. simpl.
    split; [done|]. rewrite bool_decide_false by set_solver. done.
  - intros id' c'. simpl. destruct (decide (id = id')) as [->|].
    + rewrite lookup_insert_eq. by intros [= <-].
    + rewrite lookup_insert_ne by done. eauto.
Qed.

Lemma hub_ok_register ok id u c h :
  clients h !! id = Some c → cl_user c = u → cl_subs c = ∅ → hub_ok h → hub_ok (register ok id u h).2.
Proof.
  intros Hc Hu Hsubs [Hconn Hne Huser Hchat Hqueue]. unfold register.
  set (h1 := with_connections _ h).
  assert (∀ us, (∀ u', u' ∈ us ↔ u' = u ∨ u' ∈ userSubs h) → hub_ok (with_userSubs us h1)) as Hadd.
  { intros us Hus. split; simpl.
    - intros u' ids id'. destruct (decide (u = u')) as [<-|].
      + rewrite lookup_insert_eq. intros [= <-] [->%elem_of_singleton|Hin]%elem_of_union; [eauto|].
        apply elem_of_sockets in Hin as (ids & Hids & Hin). eauto.
      + rewrite lookup_insert_ne by done. eauto.
    - intros u' ids. destruct (decide (u = u')) as [<-|].
      + rewrite lookup_insert_eq. intros [= <-]. set_solver.
      + rewrite lookup_insert_ne by done. eauto.
    - intros u'. rewrite Hus, Huser, lookup_insert_is_Some'. split; (intros [->|]; [by left|by right]).
    - intros ch. rewrite (holders_same ch h); [by apply Hchat|]. intros id'. simpl.
      destruct (clients h !! id') as [c'|] eqn:Hc'; [|done]. simpl. unfold holding, registered.
      assert (sockets (cl_user c') (with_userSubs us h1) = sockets (cl_user c') h1) as -> by done.
      unfold h1. rewrite sockets_insert. destruct (decide (cl_user c' = u)) as [Heq|]; [|done].
      rewrite Heq. destruct (decide (id' = id)) as [->|Hid].
      + assert (c' = c) as -> by congruence. rewrite Hsubs, !(bool_decide_false (ch ∈ ∅)) by set_solver.
        by rewrite !andb_false_r.
      + rewrite (bool_decide_ext (id' ∈ {[id]} ∪ sockets u h) (id' ∈ sockets u h)) by set_solver. done.
    - exact Hqueue. }
  destruct (decide (u ∈ userSubs h)) as [Hin|Hnin].
  - assert (h1 = with_userSubs (userSubs h) h1) as -> by done. apply Hadd. set_solver.
  - destruct ok; [apply Hadd; set_solver|].
    assert (connections h !! u = None) as Hnone by (apply eq_None_not_Some; by rewrite <-Huser).
    assert (sockets u h1 ∖ {[id]} = ∅) as ->.
    { unfold h1. rewrite sockets_insert, decide_True by done. unfold sockets. rewrite Hnone. set_solver. }
    rewrite decide_True by done. simpl. rewrite delete_insert_id by done.
    by destruct h.
Qed.

Lemma hub_ok_subscribe ok id ch c h :
  clients h !! id = Some c → registered h id c = true → hub_ok h → hub_ok (subscribeChat ok id ch h).2.
Proof.
  intros Hc Hreg Hok. pose proof Hok as [Hconn Hne Huser Hchat Hqueue]. unfold subscribeChat. rewrite Hc.
  destruct (decide (ch ∈ cl_subs c)) as [|Hnin]; [done|].
  set (h' := with_clients (<[id := with_cl_subs ({[ch]} ∪ cl_subs c) c]> (clients h)) h).
  assert (holders ch h' = holders ch h + 1) as Hplus.
  { rewrite (holders_change ch h h' id).
    - unfold hits. simpl. rewrite Hc, lookup_insert_eq. unfold holding, registered. simpl.
      change (sockets (cl_user c) h') with (sockets (cl_user c) h). unfold registered in Hreg. rewrite Hreg.
      rewrite (bool_decide_false (ch ∈ cl_subs c)) by done. rewrite bool_decide_true by set_solver. simpl. lia.
    - intros id' Hne'. simpl. by rewrite lookup_insert_ne. }
  assert (∀ n, n = holders ch h + 1 → hub_ok (with_chatSubs (<[ch := n]> (chatSubs h)) h')) as Hdone.
  { intros n ->. split; simpl; try done.
    - intros u ids id' Hids Hin. destruct (Hconn _ _ _ Hids Hin) as (c' & Hc' & Hu).
      destruct (decide (id = id')) as [->|]; [|rewrite lookup_insert_ne by done; eauto].
      rewrite lookup_insert_eq. assert (c' = c) as -> by congruence. eauto.
    - intros ch'. change (holders ch' (with_chatSubs _ h')) with (holders ch' h').
      destruct (decide (ch = ch')) as [<-|Hne'].
      + rewrite lookup_insert_eq, Hplus. symmetry. apply entry_succ, holders_nonneg.
      + rewrite lookup_insert_ne, Hchat by done. rewrite (holders_same ch' h h'); [done|].
        intros id'. simpl. destruct (decide (id = id')) as [->|]; [|by rewrite lookup_insert_ne].
        rewrite lookup_insert_eq, Hc. simpl. unfold holding, registered. simpl.
        change (sockets (cl_user c) h') with (sockets (cl_user c) h).
        by rewrite (bool_decide_ext (ch' ∈ {[ch]} ∪ cl_subs c) (ch' ∈ cl_subs c)) by set_solver.
    - intros id' c'. destruct (decide (id = id')) as [->|]; [|rewrite lookup_insert_ne by done; eauto].
      rewrite lookup_insert_eq. intros [= <-]. simpl. eauto. }
  pose proof (Hchat ch) as Hn. change (chatSubs h !! ch = entry (holders ch h)) in Hn.
  destruct (chatSubs h !! ch) as [n|] eqn:Hsub; simpl.
  - apply (Hdone (n + 1)). unfold entry in Hn. destruct (_ =? 0); [done|]. by injection Hn as ->.
  - destruct ok; simpl; [|done]. apply (Hdone 1). unfold entry in Hn.
    destruct (Z.eqb_spec (holders ch h) 0) as [->|]; done.
Qed.

Lemma hub_ok_unsubscribe id ch c h :
  clients h !! id = Some c → registered h id c = true → hub_ok h → hub_ok (unsubscribeChat id ch h).
Proof.
  intros Hc Hreg Hok. pose proof Hok as [Hconn Hne Huser Hchat Hqueue]. unfold unsubscribeChat. rewrite Hc.
  destruct (decide (ch ∈ cl_subs c)) as [Hin|]; [|done].
  set (h' := with_clients (<[id := with_cl_subs (cl_subs c ∖ {[ch]}) c]> (clients h)) h).
  assert (holders ch h = holders ch h' + 1) as Hplus.
  { rewrite (holders_change ch h h' id).
    - unfold hits. simpl. rewrite Hc, lookup_insert_eq. unfold holding, registered. simpl.
      change (sockets (cl_user c) h') with (sockets (cl_user c) h). unfold registered in Hreg. rewrite Hreg.
      rewrite (bool_decide_true (ch ∈ cl_subs c)) by done. rewrite bool_decide_false by set_solver. simpl. lia.
    - intros id' Hne'. simpl. by rewrite lookup_insert_ne. }
  split; simpl; try done.
  - intros u ids id' Hids Hin'. destruct (Hconn _ _ _ Hids Hin') as (c' & Hc' & Hu).
    destruct (decide (id = id')) as [->|]; [|rewrite lookup_insert_ne by done; eauto].
    rewrite lookup_insert_eq. assert (c' = c) as -> by congruence. eauto.
  - intros ch'. change (holders ch' (with_chatSubs _ h')) with (holders ch' h').
    rewrite lookup_releaseChat. destruct (decide (ch' = ch)) as [->|Hne'].
    + rewrite Hchat, Hplus. apply entry_release, holders_nonneg.
    + rewrite Hchat. rewrite (holders_same ch' h h'); [done|].
      intros id'. simpl. destruct (decide (id = id')) as [->|]; [|by rewrite lookup_insert_ne].
      rewrite lookup_insert_eq, Hc. simpl. unfold holding, registered. simpl.
      change (sockets (cl_user c) h') with (sockets (cl_user c) h).
      by rewrite (bool_decide_ext (ch' ∈ cl_subs c ∖ {[ch]}) (ch' ∈ cl_subs c)) by set_solver.
  - intros id' c'. destruct (decide (id = id')) as [->|]; [|rewrite lookup_insert_ne by done; eauto].
    rewrite lookup_insert_eq. intros [= <-]. simpl. eauto.
Qed.
End preservation.

Section runs.
Implicit Types (h : hub) (id : N) (u ch : uuid) (c : client).

(** The set of sockets of a user after one of them goes. *)
Lemma sockets_remove u u' (rest : gset N) h us subs :
  sockets u' (MkHub (if decide (rest = ∅) then delete u (connections h)
      else <[u := rest]> (connections h)) us subs (clients h)) =
    if decide (u' = u) then rest else sockets u' h.
Proof.
  unfold sockets. simpl. destruct (decide (u' = u)) as [->|Hne], (decide (rest = ∅)) as [->|].
  - by rewrite lookup_delete_eq.
  - by rewrite lookup_insert_eq.
  - by rewrite lookup_delete_ne.
  - by rewrite lookup_insert_ne.
Qed.

Lemma unregister_run id c h :
  clients h !! id = Some c → registered h id c = true →
  let rest := sockets (cl_user c) h ∖ {[id]} in
  unregister id h = MkHub
    (if decide (rest = ∅) then delete (cl_user c) (connections h) else <[cl_user c := rest]> (connections h))
    (if decide (rest = ∅) then userSubs h ∖ {[cl_user c]} else userSubs h)
    (foldr releaseChatLocked (chatSubs h) (elements (cl_subs c))) (clients h).
Proof.
  intros Hc Hreg. apply bool_decide_eq_true_1 in Hreg. pose proof Hreg as (ids & Hids & Hin)%elem_of_sockets.
  unfold unregister, sockets. rewrite Hc, Hids. simpl. by rewrite decide_True.
Qed.
Lemma unregister_absent id h :
  (∀ c, clients h !! id = Some c → registered h id c = false) → unregister id h = h.
Proof.
  intros Habs. unfold unregister. destruct (clients h !! id) as [c|]; [|done].
  destruct (connections h !! cl_user c) as [ids|] eqn:Hids; [|done]. rewrite decide_False; [done|].
  intros Hin. specialize (Habs c eq_refl). apply bool_decide_eq_false_1 in Habs.
  apply Habs, elem_of_sockets. eauto.
Qed.

Lemma hub_ok_unregister id h : hub_ok h → hub_ok (unregister id h).
Proof.
  intros Hok. destruct (clients h !! id) as [c|] eqn:Hc; [|by rewrite unregister_absent by naive_solver].
  destruct (registered h id c) eqn:Hreg; [|by rewrite unregister_absent by naive_solver].
  rewrite (unregister_run _ _ _ Hc Hreg). pose proof Hok as [Hconn Hne Huser Hchat Hqueue].
  apply bool_decide_eq_true_1 in Hreg as Hin. pose proof Hin as (ids & Hids & _)%elem_of_sockets.
  match goal with |- hub_ok ?x => set (h' := x) end.
  assert (∀ u', sockets u' h' = if decide (u' = cl_user c) then sockets (cl_user c) h ∖ {[id]} else sockets u' h)
    as Hsock by (intros u'; apply sockets_remove).
  assert (∀ u', is_Some (connections h' !! u') ↔ sockets u' h' ≠ ∅) as Hsome.
  { intros u'. rewrite Hsock. unfold h'. simpl. destruct (decide (u' = cl_user c)) as [->|Hu].
    - destruct (decide (_ = ∅)) as [->|]; [rewrite lookup_delete_eq|rewrite lookup_insert_eq]; naive_solver.
    - assert (is_Some (connections h !! u') ↔ sockets u' h ≠ ∅) as <-.
      { unfold sockets. destruct (connections h !! u') as [x|] eqn:Hx; simpl; [|naive_solver].
        split; [|eauto]. intros _. by eapply Hne. }
      destruct (decide (_ = ∅)); [by rewrite lookup_delete_ne|by rewrite lookup_insert_ne]. }
  split.
  - intros u' ids' id' Hids' Hin'. assert (id' ∈ sockets u' h') as Hs by (apply elem_of_sockets; eauto).
    rewrite Hsock in Hs. change (clients h') with (clients h).
    assert (id' ∈ sockets u' h) as (x & Hx & Hxin)%elem_of_sockets; [|eauto].
    destruct (decide (u' = cl_user c)) as [->|]; [|done]. by apply elem_of_difference in Hs as [? _].
  - intros u' ids' Hids' ->. destruct (proj1 (Hsome u')) as []; [eauto|]. unfold sockets. by rewrite Hids'.
  - intros u'. rewrite Hsome, Hsock. unfold h'. simpl. destruct (decide (u' = cl_user c)) as [->|Hu].
    + destruct (decide (_ = ∅)) as [Hr|Hr].
      * rewrite elem_of_difference, elem_of_singleton. naive_solver.
      * rewrite Huser. split; [done|]. eauto.
    + assert (u' ∈ userSubs h ↔ sockets u' h ≠ ∅) as <-.
      { rewrite Huser. unfold sockets. destruct (connections h !! u') as [x|] eqn:Hx; simpl; [|naive_solver].
        split; [|eauto]. intros _. by eapply Hne. }
      destruct (decide (_ = ∅)); [|done]. rewrite elem_of_difference, elem_of_singleton. naive_solver.
  - intros ch. change (chatSubs h') with (foldr releaseChatLocked (chatSubs h) (elements (cl_subs c))).
    rewrite lookup_releaseChats by apply NoDup_elements.
    assert (holders ch h = holders ch h' + if bool_decide (ch ∈ cl_subs c) then 1 else 0) as Hplus.
    { rewrite (holders_change ch h h' id).
      - unfold hits. change (clients h') with (clients h). rewrite Hc. unfold holding.
        rewrite Hreg. unfold registered. rewrite Hsock, decide_True by done.
        rewrite (bool_decide_false (id ∈ _ ∖ {[id]})) by set_solver. simpl. destruct (bool_decide _); lia.
      - intros id' Hid'. change (clients h') with (clients h).
        destruct (clients h !! id') as [c'|]; [|done]. simpl. unfold holding, registered. rewrite Hsock.
        destruct (decide (cl_user c' = cl_user c)) as [->|]; [|done].
        by rewrite (bool_decide_ext (id' ∈ sockets (cl_user c) h ∖ {[id]}) (id' ∈ sockets (cl_user c) h)) by set_solver. }
    rewrite Hchat, Hplus. destruct (decide (ch ∈ cl_subs c)) as [Hs|Hs].
    + rewrite decide_True by set_solver. rewrite bool_decide_true by done. apply entry_release, holders_nonneg.
    + rewrite decide_False by set_solver. rewrite bool_decide_false by done. by rewrite Z.add_0_r.
  - exact Hqueue.
Qed.

Lemma hub_step_ok h h' : hub_step h h' → hub_ok h → hub_ok h'.
Proof.
  intros Hstep Hok. destruct Hstep.
  - eapply hub_ok_register; [apply lookup_insert_eq|by rewrite enqueue_user|by rewrite enqueue_subs|].
    apply hub_ok_new; [done|by rewrite enqueue_subs|by apply enqueue_bound|done].
  - by eapply hub_ok_subscribe.
  - by eapply hub_ok_unsubscribe.
  - by apply hub_ok_unregister.
  - by apply hub_ok_close.
  - by apply hub_ok_enqueue.
  - apply hub_ok_alter; [done|done| |done]. intros c. simpl. destruct (cl_send c); simpl; lia.
  - by apply hub_ok_closes.
Qed.
Lemma hub_steps_ok h h' : rtc hub_step h h' → hub_ok h → hub_ok h'.
Proof. induction 1; eauto using hub_step_ok. Qed.
Lemma hub_ok_new_hub : hub_ok NewHub.
Proof.
  split; intros *; simpl; rewrite ?lookup_empty; try done.
Qed.

(** Who is registered, read off the two tables. *)
Lemma registered_online h u :
  hub_ok h → (is_Some (connections h !! u) ↔ ∃ id c, clients h !! id = Some c ∧ cl_user c = u ∧ registered h id c = true).
Proof.
  intros Hok. split.
  - intros [ids Hids]. pose proof (hub_nonempty _ Hok _ _ Hids) as [id Hin]%set_choose_L.
    destruct (hub_conn _ Hok _ _ _ Hids Hin) as (c & Hc & <-). exists id, c. split; [done|]. split; [done|].
    apply bool_decide_eq_true_2, elem_of_sockets. eauto.
  - intros (id & c & Hc & <- & (ids & Hids & _)%bool_decide_eq_true_1%elem_of_sockets). eauto.
Qed.

Lemma holders_pos h ch :
  hub_ok h → (is_Some (chatSubs h !! ch) ↔
    ∃ id c, clients h !! id = Some c ∧ registered h id c = true ∧ ch ∈ cl_subs c).
Proof.
  intros Hok. rewrite (hub_chat _ Hok). split.
  - destruct (Z.eqb_spec (holders ch h) 0) as [|Hn]; [by intros []|]. intros _.
    assert (∃ kv, kv ∈ rows_where (holding ch h) (clients h)) as [[id c] [Hc [? ?]%andb_prop]%elem_of_rows_where].
    { unfold holders, count_where in Hn. destruct (rows_where _ _) as [|kv l]; [done|]. exists kv. by left. }
    exists id, c. split; [done|]. split; [done|]. by eapply bool_decide_eq_true_1.
  - intros (id & c & Hc & Hreg & Hin). destruct (Z.eqb_spec (holders ch h) 0) as [Hz|]; [|eauto].
    apply (proj1 (count_where_0 _ _) Hz) in Hc. unfold holding in Hc. by rewrite Hreg, bool_decide_true in Hc.
Qed.

Lemma elem_of_all_sockets h id :
  hub_ok h → id ∈ all_sockets h ↔ ∃ c, clients h !! id = Some c ∧ registered h id c = true.
Proof.
  intros Hok. unfold all_sockets. rewrite list_elem_of_bind. split.
  - intros ([u ids] & Hin%elem_of_elements & Hids%elem_of_map_to_list). simpl in Hin.
    destruct (hub_conn _ Hok _ _ _ Hids Hin) as (c & Hc & <-). exists c. split; [done|].
    apply bool_decide_eq_true_2, elem_of_sockets. eauto.
  - intros (c & Hc & (ids & Hids & Hin)%bool_decide_eq_true_1%elem_of_sockets).
    exists (cl_user c, ids). by rewrite elem_of_elements, elem_of_map_to_list.
Qed.

(** A socket belongs to one user, so nobody is listed twice. *)
Lemma NoDup_all_sockets h : hub_ok h → NoDup (all_sockets h).
Proof.
  intros Hok. apply NoDup_bind.
  - intros [u1 i1] [u2 i2] id H1%elem_of_map_to_list H2%elem_of_map_to_list. simpl.
    rewrite !elem_of_elements. intros Hin1 Hin2.
    destruct (hub_conn _ Hok _ _ _ H1 Hin1) as (c1 & Hc1 & <-).
    destruct (hub_conn _ Hok _ _ _ H2 Hin2) as (c2 & Hc2 & <-). congruence.
  - intros. apply NoDup_elements.
  - apply NoDup_map_to_list.
Qed.

Lemma elem_of_chat_targets h ch id :
  hub_ok h → id ∈ chat_targets ch h ↔
    ∃ c, clients h !! id = Some c ∧ registered h id c = true ∧ ch ∈ cl_subs c.
Proof.
  intros Hok. unfold chat_targets, subscribed. rewrite list_elem_of_filter, elem_of_all_sockets by done. split.
  - intros [Hs (c & Hc & Hreg)]. rewrite Hc in Hs. eauto.
  - intros (c & Hc & Hreg & Hs). rewrite Hc. eauto.
Qed.

Lemma lookup_enqueues data pick l h id :
  NoDup l →
  clients (foldl (λ h id, enqueue_at data pick id h) h l) !! id =
    (λ c, if decide (id ∈ l) then enqueue (pick id) data c else c) <$> clients h !! id.
Proof.
  revert h. induction l as [|x l IH]; intros h Hnd.
  { simpl. by destruct (clients h !! id). }
  apply NoDup_cons in Hnd as [Hx Hnd]. simpl. rewrite IH by done. simpl.
  destruct (decide (x = id)) as [->|Hne].
  - rewrite lookup_alter_eq. destruct (clients h !! id) as [c|]; [|done]. simpl.
    destruct (decide (id ∈ l)); [done|]. by rewrite decide_True by by left.
  - rewrite lookup_alter_ne by done. destruct (clients h !! id) as [c|]; [|done]. simpl.
    destruct (decide (id ∈ l)); [by rewrite decide_True by by right|].
    rewrite decide_False; [done|]. by intros [->|]%elem_of_cons.
Qed.
End runs.

(** The bus subscriptions a node holds are exactly the ones it needs.  Whatever
    sequence of connections, disconnections, chat openings and closings (with the bus
    refusing any of the subscriptions), deliveries and writes has run, a user's subject is
    subscribed exactly while they have a socket here, a chat's subject exactly while some
    connected socket has it open, counted once for each, and no send queue holds more than
    256 frames. *)
Lemma subscriptions_track_sockets h :
  rtc hub_step NewHub h →
  (∀ u, u ∈ userSubs h ↔ ∃ id c, clients h !! id = Some c ∧ cl_user c = u ∧ registered h id c = true) ∧
  (∀ u, IsOnline u h = true ↔ u ∈ userSubs h) ∧
  (∀ ch, is_Some (chatSubs h !! ch) ↔
     ∃ id c, clients h !! id = Some c ∧ registered h id c = true ∧ ch ∈ cl_subs c) ∧
  (∀ ch n, chatSubs h !! ch = Some n → n = holders ch h) ∧
  (∀ id c, clients h !! id = Some c → Z.of_nat (length (cl_send c)) ≤ 256).
Proof.
  intros Hrun. pose proof (hub_steps_ok _ _ Hrun hub_ok_new_hub) as Hok. split_and!.
  - intros u. rewrite (hub_user _ Hok). by apply registered_online.
  - intros u. unfold IsOnline. rewrite bool_decide_eq_true, (hub_user _ Hok). unfold sockets.
    destruct (connections h !! u) as [ids|] eqn:Hids; simpl; [|naive_solver].
    split; [eauto|]. intros _. by eapply hub_nonempty.
  - intros ch. by apply holders_pos.
  - intros ch n. rewrite (hub_chat _ Hok). destruct (_ =? 0); [done|]. by intros [= <-].
  - intros id c. by apply hub_queue.
Qed.

(** A frame on a chat's subject goes once to every connected socket that has the chat
    open, the author's own included, and to no other; one on a user's subject to every
    socket of that user and to no other.  A socket with room gets it at the end of its
    queue, in order; a full one is closed as a slow consumer rather than served out of
    order. *)
Lemma delivery_reaches_the_open_sockets h data pick :
  rtc hub_step NewHub h →
  (∀ ch id, clients (deliverToChat ch data pick h) !! id =
     (λ c, if registered h id c && bool_decide (ch ∈ cl_subs c) then enqueue (pick id) data c else c)
       <$> clients h !! id) ∧
  (∀ u id, clients (deliverToUser u data pick h) !! id =
     (λ c, if registered h id c && bool_decide (cl_user c = u) then enqueue (pick id) data c else c)
       <$> clients h !! id) ∧
  (∀ p c, cl_closed c = None →
     enqueue p data c = if Z.of_nat (length (cl_send c)) <? 256
       then MkClient (cl_user c) (cl_subs c) (cl_send c ++ [data]) None
       else MkClient (cl_user c) (cl_subs c) (cl_send c) (Some CloseSlowConsumer)).
Proof.
  intros Hrun. pose proof (hub_steps_ok _ _ Hrun hub_ok_new_hub) as Hok. split_and!.
  - intros ch id. unfold deliverToChat. rewrite lookup_enqueues by by apply NoDup_filter, NoDup_all_sockets.
    destruct (clients h !! id) as [c|] eqn:Hc; [|done]. simpl. f_equal.
    destruct (registered h id c && _) eqn:Hreg.
    + apply andb_prop in Hreg as [Hreg Hin%bool_decide_eq_true_1].
      rewrite decide_True; [done|]. apply elem_of_chat_targets; eauto.
    + rewrite decide_False; [done|]. intros (c' & Hc' & Hr & Hs)%elem_of_chat_targets; [|done].
      assert (c' = c) as -> by congruence. by rewrite Hr, bool_decide_true in Hreg.
  - intros u id. unfold deliverToUser, user_targets. rewrite lookup_enqueues by apply NoDup_elements.
    destruct (clients h !! id) as [c|] eqn:Hc; [|done]. simpl. f_equal.
    destruct (registered h id c && _) eqn:Hreg.
    + apply andb_prop in Hreg as [Hreg%bool_decide_eq_true_1 <-%bool_decide_eq_true_1].
      by rewrite decide_True by by apply elem_of_elements.
    + rewrite decide_False; [done|]. rewrite elem_of_elements. intros Hin.
      pose proof Hin as (ids & Hids & Hid)%elem_of_sockets.
      destruct (hub_conn _ Hok _ _ _ Hids Hid) as (c' & Hc' & Hu). assert (c' = c) as -> by congruence.
      unfold registered in Hreg. rewrite Hu, !bool_decide_true in Hreg by done. done.
  - intros p c Hcl. unfold enqueue, close. rewrite Hcl. fold sendBufferSize. rewrite andb_true_r. done.
Qed.

(** Two sockets of user 1 and one of user 2, a chat opened by two of them, one gone. *)
Definition sample_hub : hub :=
  let connect id u h := (register true id u (with_clients (<[id := enqueue true "hello" (newClient u)]> (clients h)) h)).2 in
  unregister 11 (subscribeChat true 12 7 (subscribeChat true 11 7
    (connect 12%N 2%N (connect 11%N 1%N (connect 10%N 1%N NewHub)))).2).2.

Lemma sample_hub_run : rtc hub_step NewHub sample_hub.
Proof.
  eapply rtc_l; [apply (hub_connect NewHub 10 1 true "hello" true); reflexivity|].
  eapply rtc_l; [apply (hub_connect _ 11 1 true "hello" true); reflexivity|].
  eapply rtc_l; [apply (hub_connect _ 12 2 true "hello" true); reflexivity|].
  eapply rtc_l; [eapply (hub_subscribe _ 11 _ 7 true); reflexivity|].
  eapply rtc_l; [eapply (hub_subscribe _ 12 _ 7 true); reflexivity|].
  apply rtc_once, hub_unregister.
Qed.

Lemma subscriptions_track_sockets_witness :
  chatSubs sample_hub !! 7%N = Some 1 ∧ holders 7 sample_hub = 1 ∧ (1%N ∈ userSubs sample_hub).
Proof.
  destruct (subscriptions_track_sockets sample_hub sample_hub_run) as (_ & Honline & _ & Hcount & _).
  split; [reflexivity|]. split; [symmetry; apply Hcount; reflexivity|]. apply Honline. reflexivity.
Defined.

Lemma delivery_reaches_the_open_sockets_witness :
  cl_send <$> clients (deliverToChat 7 "news" (λ _, false) sample_hub) !! 12%N = Some ["hello"; "news"]%string ∧
  cl_send <$> clients (deliverToChat 7 "news" (λ _, false) sample_hub) !! 11%N = Some ["hello"]%string.
Proof.
  destruct (delivery_reaches_the_open_sockets sample_hub "news" (λ _, false) sample_hub_run) as (Hchat & _).
  split; rewrite Hchat; reflexivity.
Defined.
