(* ===== verification/Phone.v ===== *)
(** * Phone numbers ([internal/auth/phone.go])

    What a person types becomes the E.164 form every layer below expects.  A
    rune is its code point, the text the bytes of its UTF-8 encoding. *)

From stdpp Require Import base tactics list strings.
From Stdlib Require Import NArith ZArith Ascii String Lia.
From S2P Require Import Prelude GoString.

Set Default Goal Selector "!".
Open Scope Z_scope.

Definition defaultCountryCode : string := "98".

(** The Persian digits start at U+06F0, the Arabic-Indic ones at U+0660. *)
Definition digitFolding (r : N) : option N :=
  if in_range 1776 1785 r then Some (r - 1776 + 48)%N
  else if in_range 1632 1641 r then Some (r - 1632 + 48)%N
  else None.

(** What the loop does with the rune at byte [i]; 8204 is the zero-width
    non-joiner. *)
Inductive phone_symbol :=
| Digit (b : N)
| Plus
| Separator
| Bad.
Definition phone_rune (i : nat) (r : N) : phone_symbol :=
  match digitFolding r with
  | Some b => Digit b
  | None =>
      if in_range 48 57 r then Digit r
      else if (r =? 43)%N && bool_decide (i = 0%nat) then Plus
      else if bool_decide (r ∈ [32; 45; 40; 41; 46; 8204]%N) then Separator
      else Bad
  end.

(** The loop: [hasPlus] and the builder's bytes, or nothing at the first rune
    that is refused. *)
Fixpoint phone_scan (i : nat) (segs : list (N * list N)) : option (bool * list N) :=
  match segs with
  | [] => Some (false, [])
  | (r, bytes) :: segs =>
      rest ← phone_scan (i + List.length bytes) segs;
      match phone_rune i r with
      | Digit b => Some (rest.1, b :: rest.2)
      | Plus => Some (true, rest.2)
      | Separator => Some rest
      | Bad => None
      end
  end.

Definition phone_expand (hasPlus : bool) (digits : string) : string :=
  if hasPlus then digits
  else if has_prefix digits "00" then trim_prefix digits "00"
  else if has_prefix digits "0" then defaultCountryCode +:+ trim_prefix digits "0"
  else if (0 <? len digits) && negb (has_prefix digits defaultCountryCode)
          && (len digits <=? 10) then defaultCountryCode +:+ digits
  else digits.

(** [None] is [ErrPhoneInvalid]. *)
Definition NormalizePhone (input : string) : option string :=
  if bool_decide (trim_space input = ""%string) then None
  else
    '(hasPlus, bytes) ← phone_scan 0 (segments (trim_space input));
    let digits := phone_expand hasPlus (string_of bytes) in
    if (len digits <? 8) || (15 <? len digits) then None
    else if has_prefix digits "0" then None
    else Some ("+" +:+ digits)%string.

Definition MaskPhone (e164 : string) : string :=
  if len e164 <? 8 then "***"
  else
    let visiblePrefix := if len e164 <? 6 + 4 + 1 then 3 else 6 in
    slice e164 0 visiblePrefix +:+ "***" +:+ slice e164 (len e164 - 4) (len e164).

Example NormalizePhone_local : NormalizePhone " 0912 345-6789" = Some "+989123456789"%string.
Proof. vm_compute. reflexivity. Qed.
Example NormalizePhone_short : NormalizePhone "12" = None.
Proof. vm_compute. reflexivity. Qed.

(** ** Spellings *)

(** One character of a spelling: a digit in one of three scripts, or a
    separator. *)
Inductive glyph :=
| Latin (d : N)
| Persian (d : N)
| Arabic (d : N)
| Space | Dash | Open | Close | Dot | NonJoiner.

Definition glyph_rune (g : glyph) : N :=
  match g with
  | Latin d => 48 + d | Persian d => 1776 + d | Arabic d => 1632 + d
  | Space => 32 | Dash => 45 | Open => 40 | Close => 41 | Dot => 46 | NonJoiner => 8204
  end%N.
Definition glyph_bytes (g : glyph) : list N :=
  match g with
  | Latin d => [48 + d] | Persian d => [219; 176 + d] | Arabic d => [217; 160 + d]
  | Space => [32] | Dash => [45] | Open => [40] | Close => [41] | Dot => [46]
  | NonJoiner => [226; 128; 140]
  end%N.
Definition glyph_digit (g : glyph) : option N :=
  match g with Latin d | Persian d | Arabic d => Some (48 + d)%N | _ => None end.
Definition glyph_ok (g : glyph) : Prop :=
  match g with Latin d | Persian d | Arabic d => (d < 10)%N | _ => True end.

(** The text of a spelling, with or without the plus sign, and the digits it
    stands for. *)
Definition written_bytes (plus : bool) (gs : list glyph) : list N :=
  (if plus then [43%N] else []) ++ (gs ≫= glyph_bytes).
Definition written (plus : bool) (gs : list glyph) : string := string_of (written_bytes plus gs).
Definition digits_of (gs : list glyph) : string := string_of (omap glyph_digit gs).

(** A number as it is stored after the plus sign. *)
Definition e164_digits (d : string) : Prop :=
  Forall (λ b, in_range 48 57 b = true) (bytes_of d) ∧ 8 ≤ len d ≤ 15 ∧ has_prefix d "0" = false.

Section lemmas.
Implicit Types (g : glyph) (gs : list glyph) (s : string) (bs : list N).

Lemma small_cases (P : N → Prop) d :
  P 0%N → P 1%N → P 2%N → P 3%N → P 4%N → P 5%N → P 6%N → P 7%N → P 8%N → P 9%N → (d < 10)%N → P d.
Proof.
  intros. assert (d = 0 ∨ d = 1 ∨ d = 2 ∨ d = 3 ∨ d = 4 ∨ d = 5 ∨ d = 6 ∨ d = 7 ∨ d = 8 ∨ d = 9)%N by lia.
  naive_solver.
Qed.

Ltac ten_digits :=
  match goal with H : (?d < 10)%N |- _ => pattern d; refine (small_cases _ d _ _ _ _ _ _ _ _ _ _ H) end.

Lemma decode_glyph g rest :
  glyph_ok g →
  ∃ b bs, glyph_bytes g = b :: bs ∧ decode_rune b (bs ++ rest) = (glyph_rune g, S (List.length bs)).
Proof.
  destruct g; simpl; intros Hd.
  4-9: by eexists _, _.
  all: ten_digits; eexists _, _; (split; [reflexivity|]); reflexivity.
Qed.

Lemma segments_aux_glyphs gs fuel :
  Forall glyph_ok gs → (List.length (gs ≫= glyph_bytes) ≤ fuel)%nat →
  segments_aux fuel (gs ≫= glyph_bytes) = (λ g, (glyph_rune g, glyph_bytes g)) <$> gs.
Proof.
  intros Hok. revert fuel. induction Hok as [|g gs Hg Hok IH]; intros fuel Hlen.
  { by destruct fuel. }
  destruct (decode_glyph g (gs ≫= glyph_bytes) Hg) as (b & bs & Hb & Hdec).
  csimpl in *. rewrite Hb in *. simpl in *. destruct fuel as [|fuel]; [lia|].
  simpl. rewrite Hdec. simpl. rewrite take_app_length, drop_app_length.
  f_equal. apply IH. rewrite length_app in Hlen. lia.
Qed.

Lemma phone_glyph i g :
  glyph_ok g →
  phone_rune i (glyph_rune g) = match glyph_digit g with Some b => Digit b | None => Separator end.
Proof.
  destruct g; simpl; intros Hd.
  4-9: by destruct i.
  all: ten_digits; reflexivity.
Qed.

Lemma phone_scan_glyphs i gs :
  Forall glyph_ok gs →
  phone_scan i ((λ g, (glyph_rune g, glyph_bytes g)) <$> gs) = Some (false, omap glyph_digit gs).
Proof.
  intros Hok. revert i. induction Hok as [|g gs Hg Hok IH]; intros i; [done|].
  csimpl. rewrite IH. simpl. rewrite phone_glyph by done. by destruct (glyph_digit g).
Qed.

Lemma glyph_bytes_small g : glyph_ok g → Forall (λ b, (b < 256)%N) (glyph_bytes g).
Proof. destruct g; simpl; intros; repeat constructor; lia. Qed.
Lemma written_bytes_small plus gs : Forall glyph_ok gs → Forall (λ b, (b < 256)%N) (written_bytes plus gs).
Proof.
  intros Hok. apply Forall_app. split; [destruct plus; repeat constructor; lia|].
  induction Hok as [|g gs Hg Hok IH]; csimpl; [constructor|].
  apply Forall_app. split; [by apply glyph_bytes_small|done].
Qed.

Definition written_segments (plus : bool) gs : list (N * list N) :=
  (if plus then [(43, [43])]%N else []) ++ ((λ g, (glyph_rune g, glyph_bytes g)) <$> gs).

Lemma segments_written plus gs : Forall glyph_ok gs → segments (written plus gs) = written_segments plus gs.
Proof.
  intros Hok. unfold segments. rewrite <-length_bytes_of. unfold written.
  rewrite bytes_of_string_of by by apply written_bytes_small.
  unfold written_bytes, written_segments. destruct plus; simpl; [|by apply segments_aux_glyphs].
  rewrite drop_0. f_equal. by apply segments_aux_glyphs.
Qed.

(** Text that starts and ends with something other than a space is trimmed to
    itself. *)
Lemma trim_space_ends s first last l l' :
  segments s = first :: l → segments s = l' ++ [last] →
  is_space first.1 = false → is_space last.1 = false →
  List.concat (segments s).*2 = bytes_of s → trim_space s = s.
Proof.
  intros Hfirst Hlast Hf Hl Hbytes. unfold trim_space.
  assert (drop_space (segments s) = segments s) as ->.
  { rewrite Hfirst. destruct first. by apply drop_space_nonspace. }
  assert (drop_space (reverse (segments s)) = reverse (segments s)) as ->.
  { rewrite Hlast, reverse_snoc. destruct last. by apply drop_space_nonspace. }
  by rewrite reverse_involutive, Hbytes, string_of_bytes_of.
Qed.

Lemma trim_written plus gs g :
  Forall glyph_ok gs → last gs = Some g → is_Some (glyph_digit g) →
  (plus = false → ∃ g', head gs = Some g' ∧ is_Some (glyph_digit g')) →
  trim_space (written plus gs) = written plus gs.
Proof.
  intros Hok Hlast Hdigit Hhead. apply last_Some in Hlast as [l Hl].
  assert (∀ g, is_Some (glyph_digit g) → glyph_ok g → is_space (glyph_rune g) = false) as Hns.
  { intros [] [? Hg]; simpl in *; try discriminate Hg; intros Hd; ten_digits; reflexivity. }
  assert (glyph_ok g) as Hg by (rewrite Hl in Hok; apply Forall_app in Hok as [_ [? _]%Forall_cons]; done).
  pose proof (segments_written plus gs Hok) as Hseg.
  assert (List.concat (written_segments plus gs).*2 = written_bytes plus gs) as Hbytes.
  { unfold written_segments, written_bytes. rewrite fmap_app, List.concat_app. f_equal; [by destruct plus|].
    clear. induction gs as [|g gs IH]; [done|]. csimpl. by rewrite IH. }
  assert (∃ first t, written_segments plus gs = first :: t ∧ is_space first.1 = false) as (f & t & Hf & Hfs).
  { destruct plus; [by eexists _, _|]. destruct (Hhead eq_refl) as (g' & Hh & Hd).
    destruct gs as [|g0 gs]; [done|]. injection Hh as ->. eexists _, _. split; [reflexivity|].
    apply Hns; [done|]. by apply Forall_cons in Hok as [? _]. }
  eapply trim_space_ends.
  - by rewrite Hseg.
  - rewrite Hseg, Hl. unfold written_segments. rewrite fmap_app, app_assoc. reflexivity.
  - done.
  - by apply Hns.
  - rewrite Hseg, Hbytes. unfold written. by rewrite bytes_of_string_of by by apply written_bytes_small.
Qed.

(** What the code does with the digits of a spelling. *)
Definition accept (digits : string) : option string :=
  if (len digits <? 8) || (15 <? len digits) then None
  else if has_prefix digits "0" then None
  else Some ("+" +:+ digits)%string.

Lemma NormalizePhone_written plus gs g :
  Forall glyph_ok gs → last gs = Some g → is_Some (glyph_digit g) →
  (plus = false → ∃ g', head gs = Some g' ∧ is_Some (glyph_digit g')) →
  NormalizePhone (written plus gs) = accept (phone_expand plus (digits_of gs)).
Proof.
  intros Hok Hlast Hdigit Hhead. unfold NormalizePhone. rewrite (trim_written _ _ g) by done.
  rewrite segments_written by done. rewrite bool_decide_false.
  - unfold written_segments. destruct plus; simpl; by rewrite phone_scan_glyphs.
  - intros Hempty. apply (f_equal segments) in Hempty. rewrite segments_written in Hempty by done.
    unfold written_segments in Hempty. destruct plus; [done|].
    apply last_Some in Hlast as [l ->]. rewrite fmap_app in Hempty. by destruct (_ <$> l).
Qed.

Lemma accept_e164 d : e164_digits d → accept d = Some ("+" +:+ d)%string.
Proof.
  intros (_ & Hlen & H0). unfold accept. rewrite !(proj2 (Z.ltb_ge _ _)) by lia. simpl. by rewrite H0.
Qed.

(** The builder holds ASCII digits only. *)
Lemma phone_scan_digits i segs plus bs :
  phone_scan i segs = Some (plus, bs) → Forall (λ b, in_range 48 57 b = true) bs.
Proof.
  revert i plus bs. induction segs as [|[r bytes] segs IH]; intros i plus bs; simpl.
  { intros [= _ <-]. constructor. }
  destruct (phone_scan _ segs) as [[p0 b0]|] eqn:Hrest; simpl; [|done].
  specialize (IH _ _ _ Hrest).
  assert (∀ b, phone_rune i r = Digit b → in_range 48 57 b = true) as Hb.
  { unfold phone_rune, digitFolding. intros b.
    destruct (in_range 1776 1785 r) eqn:H1; [|destruct (in_range 1632 1641 r) eqn:H2;
      [|destruct (in_range 48 57 r) eqn:H3]].
    4: { repeat case_match; done. }
    all: intros [= <-]; unfold in_range in *; rewrite ?andb_true_iff, ?N.leb_le in *; lia. }
  destruct (phone_rune i r); intros Hr; simplify_eq; [constructor; [by apply Hb|done]|done..].
Qed.

Lemma digits_of_bytes bs : Forall (λ b, in_range 48 57 b = true) bs → bytes_of (string_of bs) = bs.
Proof.
  intros Hbs. apply bytes_of_string_of. eapply Forall_impl; [exact Hbs|]. intros b.
  unfold in_range. rewrite andb_true_iff, !N.leb_le. lia.
Qed.

Lemma expand_digits plus d :
  Forall (λ b, in_range 48 57 b = true) (bytes_of d) →
  Forall (λ b, in_range 48 57 b = true) (bytes_of (phone_expand plus d)).
Proof.
  intros Hd. unfold phone_expand.
  assert (∀ p, has_prefix d p = true → Forall (λ b, in_range 48 57 b = true) (bytes_of (trim_prefix d p))) as Htrim.
  { intros p (t & ->)%has_prefix_split. rewrite trim_prefix_app. rewrite bytes_of_app in Hd.
    by apply Forall_app in Hd as [_ ?]. }
  assert (∀ t, Forall (λ b, in_range 48 57 b = true) (bytes_of t) →
    Forall (λ b, in_range 48 57 b = true) (bytes_of (defaultCountryCode +:+ t))) as Hcode.
  { intros t Ht. rewrite bytes_of_app. apply Forall_app. split; [by repeat constructor|done]. }
  destruct plus; [done|]. destruct (has_prefix d "00") eqn:H00; [by apply Htrim|].
  destruct (has_prefix d "0") eqn:H0; [by apply Hcode, Htrim|].
  destruct (_ && _ && _); [by apply Hcode|done].
Qed.

Lemma NormalizePhone_form s p :
  NormalizePhone s = Some p → ∃ d, p = ("+" +:+ d)%string ∧ e164_digits d.
Proof.
  unfold NormalizePhone. destruct (bool_decide _); [done|].
  destruct (phone_scan _ _) as [[plus bs]|] eqn:Hscan; simpl; [|done].
  destruct (_ || _) eqn:Hlen; [done|]. destruct (has_prefix _ "0") eqn:H0; [done|]. intros [= <-].
  eexists. split; [reflexivity|]. apply orb_false_iff in Hlen as [H1%Z.ltb_ge H2%Z.ltb_ge].
  split; [|by split]. apply expand_digits. apply phone_scan_digits in Hscan.
  by rewrite digits_of_bytes.
Qed.

(** A string of digits, written the plain way. *)
Definition latin (d : string) : list glyph := (λ b, Latin (b - 48)) <$> bytes_of d.
Lemma latin_spelling d :
  Forall (λ b, in_range 48 57 b = true) (bytes_of d) →
  Forall glyph_ok (latin d) ∧ digits_of (latin d) = d ∧ (latin d ≫= glyph_bytes) = bytes_of d ∧
  (∀ g, g ∈ latin d → is_Some (glyph_digit g)).
Proof.
  intros Hd. unfold digits_of, latin.
  assert (∀ b, in_range 48 57 b = true → (48 + (b - 48) = b ∧ b - 48 < 10)%N) as Hb.
  { intros b. unfold in_range. rewrite andb_true_iff, !N.leb_le. lia. }
  split_and!.
  - apply Forall_fmap. eapply Forall_impl; [exact Hd|]. intros b ?%Hb. simpl. tauto.
  - rewrite <-(string_of_bytes_of d) at 2. f_equal. induction Hd as [|b bs ?%Hb Hbs IH]; [done|].
    csimpl. rewrite IH. f_equal. tauto.
  - induction Hd as [|b bs ?%Hb Hbs IH]; [done|]. csimpl. rewrite IH. f_equal. tauto.
  - intros g (b & -> & _)%list_elem_of_fmap. by eexists.
Qed.

Lemma NormalizePhone_latin (plus : bool) (d : string) :
  Forall (λ b, in_range 48 57 b = true) (bytes_of d) → 0 < len d →
  NormalizePhone ((if plus then "+" else EmptyString) +:+ d)%string = accept (phone_expand plus d).
Proof.
  intros Hd Hlen. destruct (latin_spelling d Hd) as (Hok & Hdigits & Hbytes & Hall).
  assert (written plus (latin d) = ((if plus then "+" else EmptyString) +:+ d)%string) as <-.
  { unfold written, written_bytes. rewrite Hbytes, string_of_app, string_of_bytes_of. by destruct plus. }
  assert (latin d ≠ []) as Hne.
  { unfold latin, len in *. rewrite <-length_bytes_of in Hlen. by destruct (bytes_of d). }
  destruct (last (latin d)) as [g|] eqn:Hlast; [|by apply last_None in Hlast].
  rewrite (NormalizePhone_written plus (latin d) g); [by rewrite Hdigits|done|done| |].
  - apply Hall. apply last_Some in Hlast as [l ->]. apply elem_of_app. right. by left.
  - intros _. destruct (latin d) as [|g' l]; [done|]. exists g'. split; [done|]. apply Hall. by left.
Qed.

(** The three ways of writing the same number. *)
Lemma expand_forms d :
  e164_digits d →
  phone_expand true d = d ∧ phone_expand false ("00" +:+ d) = d ∧
  (∀ s, d = (defaultCountryCode +:+ s)%string → has_prefix s "0" = false → phone_expand false ("0" +:+ s) = d).
Proof.
  intros (Hd & Hlen & H0). split_and!.
  - done.
  - unfold phone_expand. by rewrite has_prefix_app, trim_prefix_app.
  - intros s -> Hs. unfold phone_expand. rewrite has_prefix_app, trim_prefix_app.
    assert (has_prefix ("0" +:+ s) "00" = false) as ->; [|done].
    destruct s as [|a s]; [done|]. unfold has_prefix in *. simpl in *.
    destruct (Ascii.ascii_dec "0" a); [by destruct s|done].
Qed.
End lemmas.

(** C18: Whatever is typed, an accepted number is stored in one form, a plus sign and 8 to
    15 ASCII digits that do not start with zero, and that form is accepted as itself.
    Every spelling of a number gives that form: with the plus sign, with [00], or in the
    national form of the default market, in Latin, Persian or Arabic-Indic digits in any
    mixture, with any separators between them; so a person cannot end up with two
    accounts by typing their number differently. *)
Theorem NormalizePhone_canonical :
  (∀ s p, NormalizePhone s = Some p →
     (∃ d, p = ("+" +:+ d)%string ∧ e164_digits d) ∧ NormalizePhone p = Some p) ∧
  (∀ d gs g g', e164_digits d → Forall glyph_ok gs →
     head gs = Some g' → is_Some (glyph_digit g') → last gs = Some g → is_Some (glyph_digit g) →
     (digits_of gs = d → NormalizePhone (written true gs) = Some ("+" +:+ d)%string) ∧
     (digits_of gs = ("00" +:+ d)%string → NormalizePhone (written false gs) = Some ("+" +:+ d)%string) ∧
     (∀ s, d = (defaultCountryCode +:+ s)%string → has_prefix s "0" = false →
        digits_of gs = ("0" +:+ s)%string → NormalizePhone (written false gs) = Some ("+" +:+ d)%string)).
Proof.
  split.
  - intros s p Hp. destruct (NormalizePhone_form s p Hp) as (d & -> & Hd). split; [eauto|].
    pose proof Hd as (Hdig & Hlen & _). rewrite (NormalizePhone_latin true d) by (done || lia).
    by apply accept_e164.
  - intros d gs g g' Hd Hok Hhead Hg' Hlast Hg. destruct (expand_forms d Hd) as (Htrue & H00 & H0).
    assert (∀ plus, NormalizePhone (written plus gs) = accept (phone_expand plus (digits_of gs))) as Hw.
    { intros plus. eapply NormalizePhone_written; eauto. }
    split_and!.
    + intros Hdig. rewrite Hw, Hdig, Htrue. by apply accept_e164.
    + intros Hdig. rewrite Hw, Hdig, H00. by apply accept_e164.
    + intros s Hs Hs0 Hdig. rewrite Hw, Hdig, (H0 s) by done. by apply accept_e164.
Qed.

(** [۰۹۱۲ 345-6789] *)
Definition sample_spelling : list glyph :=
  [Persian 0; Persian 9; Persian 1; Persian 2; Space; Latin 3; Latin 4; Latin 5; Dash;
   Arabic 6; Arabic 7; Latin 8; Latin 9].
Lemma NormalizePhone_canonical_witness :
  NormalizePhone (written false sample_spelling) = Some "+989123456789"%string.
Proof.
  destruct NormalizePhone_canonical as (_ & Hspell).
  apply (Hspell "989123456789" sample_spelling (Latin 9) (Persian 0)) with (s := "9123456789"%string).
  - split; [vm_compute; repeat constructor|]. vm_compute. split; [split; discriminate|reflexivity].
  - repeat constructor.
  - reflexivity.
  - by eexists.
  - reflexivity.
  - by eexists.
  - reflexivity.
  - reflexivity.
  - vm_compute. reflexivity.
Defined.
