(* ===== verification/Security.v ===== *)
(** * Cryptographic helpers ([internal/security/crypto.go])

    What the package composes: the PHC string around an Argon2id key, token
    hashes, numeric codes.  SHA-256 and Argon2id are parameters, a class with
    the length of an Argon2id key as its law; [crypto/rand] is an argument, the
    bytes or the draws it yields.  A byte is an [N]; timing is not modelled. *)

From stdpp Require Import base tactics list strings.
From Stdlib Require Import NArith ZArith String Lia.
From S2P Require Import Prelude GoString.

Set Default Goal Selector "!".
Open Scope Z_scope.

(** ** [encoding/base64] without padding *)

Definition base64_std_digit (v : N) : N :=
  (if v <? 26 then 65 + v else if v <? 52 then 97 + (v - 26) else if v <? 62 then 48 + (v - 52)
   else if v =? 62 then 43 else 47)%N.
Definition base64_url_digit (v : N) : N :=
  (if v =? 62 then 45 else if v =? 63 then 95 else base64_std_digit v)%N.
Definition base64_std_value (c : N) : option N :=
  (if in_range 65 90 c then Some (c - 65) else if in_range 97 122 c then Some (c - 97 + 26)
   else if in_range 48 57 c then Some (c - 48 + 52) else if c =? 43 then Some 62
   else if c =? 47 then Some 63 else None)%N.

(** The six-bit groups, most significant first. *)
Fixpoint sextets (bs : list N) : list N :=
  match bs with
  | [] => []
  | [a] => [a / 4; a mod 4 * 16]%N
  | [a; b] => [a / 4; a mod 4 * 16 + b / 16; b mod 16 * 4]%N
  | a :: b :: c :: bs => [a / 4; a mod 4 * 16 + b / 16; b mod 16 * 4 + c / 64; c mod 64]%N ++ sextets bs
  end.
Definition base64_encode (digit : N → N) (bs : list N) : list N := digit <$> sextets bs.

(** [DecodeString]: line breaks are skipped, a last group of one character is
    an error, the spare bits of the last group are dropped. *)
Fixpoint base64_groups (vs : list N) : option (list N) :=
  match vs with
  | [] => Some []
  | [_] => None
  | [v; w] => Some [(v * 4 + w / 16) mod 256]%N
  | [v; w; x] => Some [(v * 4 + w / 16) mod 256; (w * 16 + x / 4) mod 256]%N
  | v :: w :: x :: y :: vs =>
      rest ← base64_groups vs;
      Some ([(v * 4 + w / 16) mod 256; (w * 16 + x / 4) mod 256; (x * 64 + y) mod 256]%N ++ rest)
  end.
Definition base64_decode (cs : list N) : option (list N) :=
  vs ← mapM base64_std_value (filter (λ c, c ≠ 10%N ∧ c ≠ 13%N) cs); base64_groups vs.

(** [base64.StdEncoding]: the last group is padded to four characters. *)
Definition base64_padding (n : nat) : list N :=
  match (n mod 3)%nat with 1%nat => [61; 61]%N | 2%nat => [61]%N | _ => [] end.
Definition std_encode (bs : list N) : string :=
  string_of (base64_encode base64_std_digit bs ++ base64_padding (List.length bs))%list.
(** The characters before the padding, of which there are at most two. *)
Definition unpad (cs : list N) : list N :=
  match reverse cs with
  | 61%N :: 61%N :: l => reverse l
  | 61%N :: l => reverse l
  | l => reverse l
  end.
Definition std_decode (s : string) : option (list N) :=
  let cs := filter (λ c, c ≠ 10%N ∧ c ≠ 13%N) (bytes_of s) in
  if bool_decide (List.length cs mod 4 = 0)%nat then base64_decode (unpad cs) else None.

(** ** [fmt.Sscanf] of a literal and of [%d]

    On the runes of the input.  Leading space is skipped, but a line break is an
    error; a sign is accepted for a signed operand; the number must fit the
    operand's width.  What follows the format is not looked at. *)
Fixpoint scan_space (rs : list N) : option (list N) :=
  match rs with
  | [] => Some []
  | 13%N :: 10%N :: rs => scan_space rs
  | r :: rest =>
      if (r =? 10)%N then None else if is_space r then scan_space rest else Some rs
  end.
Fixpoint take_digits (acc : Z) (rs : list N) : Z * list N :=
  match rs with
  | r :: rest => if in_range 48 57 r then take_digits (acc * 10 + (Z.of_N r - 48)) rest else (acc, rs)
  | [] => (acc, [])
  end.
Definition scan_number (lo hi : Z) (rs : list N) : option (Z * list N) :=
  rs ← scan_space rs;
  let '(neg, rs) :=
    match rs with
    | 45%N :: rest => if lo <? 0 then (true, rest) else (false, rs)
    | 43%N :: rest => if lo <? 0 then (false, rest) else (false, rs)
    | _ => (false, rs)
    end in
  match rs with
  | r :: _ =>
      if in_range 48 57 r then
        let '(n, rest) := take_digits 0 rs in
        let n := if neg then - n else n in
        if (lo <=? n) && (n <=? hi) then Some (n, rest) else None
      else None
  | [] => None
  end.
Fixpoint scan_literal (lit rs : list N) : option (list N) :=
  match lit, rs with
  | [], _ => Some rs
  | c :: lit, r :: rs => if (c =? r)%N then scan_literal lit rs else None
  | _ :: _, [] => None
  end.

(** ** Passwords *)

Class Argon2 := {
  (** [argon2.IDKey(password, salt, time, memory, threads, keyLen)] *)
  IDKey : list N → list N → Z → Z → Z → Z → list N;
  IDKey_length : ∀ p s t m n k, 0 ≤ k → Z.of_nat (List.length (IDKey p s t m n k)) = k;
  IDKey_bytes : ∀ p s t m n k, Forall (λ b, (b < 256)%N) (IDKey p s t m n k);
}.

Definition argonTime : Z := 3.
Definition argonMemory : Z := 64 * 1024.
Definition argonThreads : Z := 4.
Definition argonKeyLen : Z := 32.
Definition argonSaltLen : Z := 16.
(** [argon2.Version] *)
Definition argonVersion : Z := 19.

(** [IDKey] panics on a time or a thread count of zero. *)
Inductive hash_err := ErrInvalidHash | ErrIncompatible | ErrPasswordTooShort | ErrPanic.

Section passwords.
Context `{Argon2}.

(** [salt] is what [rand.Read] filled the buffer with. *)
Definition HashPassword (password : string) (salt : list N) : result hash_err string :=
  if rune_count password <? 8 then Err ErrPasswordTooShort
  else
    let key := IDKey (bytes_of password) salt argonTime argonMemory argonThreads argonKeyLen in
    Ok ("$argon2id$v=" +:+ Itoa argonVersion +:+ "$m=" +:+ Itoa argonMemory +:+ ",t=" +:+ Itoa argonTime
        +:+ ",p=" +:+ Itoa argonThreads
        +:+ "$" +:+ string_of (base64_encode base64_std_digit salt)
        +:+ "$" +:+ string_of (base64_encode base64_std_digit key))%string.

Definition scan_version (s : string) : option Z :=
  rs ← scan_literal (bytes_of "v=") (runes s);
  fst <$> scan_number (- 2 ^ 63) (2 ^ 63 - 1) rs.
Definition scan_parameters (s : string) : option (Z * Z * Z) :=
  rs ← scan_literal (bytes_of "m=") (runes s);
  '(memory, rs) ← scan_number 0 (2 ^ 32 - 1) rs;
  rs ← scan_literal (bytes_of ",t=") rs;
  '(time, rs) ← scan_number 0 (2 ^ 32 - 1) rs;
  rs ← scan_literal (bytes_of ",p=") rs;
  '(threads, _) ← scan_number 0 (2 ^ 8 - 1) rs;
  Some (memory, time, threads).

Definition VerifyPassword (password encoded : string) : result hash_err bool :=
  match split 36 encoded with
  | [_; kind; version; params; salt; key] =>
      if negb (bool_decide (kind = "argon2id"%string)) then Err ErrInvalidHash
      else match scan_version version with
      | None => Err ErrInvalidHash
      | Some v =>
          if negb (v =? argonVersion) then Err ErrIncompatible
          else match scan_parameters params, base64_decode (bytes_of salt), base64_decode (bytes_of key) with
          | Some (memory, time, threads), Some salt, Some expected =>
              if (time <? 1) || (threads <? 1) then Err ErrPanic
              else Ok (bool_decide (IDKey (bytes_of password) salt time memory threads
                         (Z.of_nat (List.length expected)) = expected))
          | _, _, _ => Err ErrInvalidHash
          end
      end
  | _ => Err ErrInvalidHash
  end.
End passwords.

(** ** Tokens *)

Class Digest := { sha256 : list N → list N }.
Definition HashToken `{Digest} (token : string) : list N := sha256 (bytes_of token).
Definition CompareTokenHash `{Digest} (token : string) (stored : list N) : bool :=
  bool_decide (HashToken token = stored).

(** [HashPhone]: HMAC-SHA-256 under the pepper, over the same digest. *)
Definition hmac_block : nat := 64.
Definition hmac_key `{Digest} (key : list N) : list N :=
  let key := if bool_decide (hmac_block < List.length key)%nat then sha256 key else key in
  key ++ replicate (hmac_block - List.length key) 0%N.
Definition HashPhone `{Digest} (phone : string) (pepper : list N) : list N :=
  let key := hmac_key pepper in
  sha256 ((N.lxor 92 <$> key) ++ sha256 ((N.lxor 54 <$> key) ++ bytes_of phone)).

(** [RandomToken]: [draw n] is the [n] bytes that were read. *)
Definition RandomToken (byteLen : nat) (draw : nat → list N) : string :=
  string_of (base64_encode base64_url_digit (draw (Nat.max byteLen 16))).

(** ** Numeric codes *)

Definition code_upper (digits : Z) : Z := 10 ^ digits.
Definition code_limit (digits : Z) : Z := (2 ^ 64 - 1) / code_upper digits * code_upper digits.
(** [%0*d]: decimal, padded with zeros on the left. *)
Definition zero_padded (width : nat) (n : N) : string :=
  let ds := decimal n in string_of (replicate (width - List.length ds) 48%N ++ ds).
(** The first draw below the limit decides; [None] when no draw of the list is,
    so that the loop goes on. *)
Fixpoint first_below (limit : Z) (draws : list Z) : option Z :=
  match draws with
  | [] => None
  | d :: draws => if d <? limit then Some d else first_below limit draws
  end.
Definition code_of (digits : Z) (draw : Z) : string :=
  zero_padded (Z.to_nat digits) (Z.to_N (draw mod code_upper digits)).
Definition NumericCode (digits : Z) (draws : list Z) : result () (option string) :=
  if (digits <? 4) || (10 <? digits) then Err ()
  else Ok (code_of digits <$> first_below (code_limit digits) draws).

Section lemmas.

Lemma sextets_small bs : Forall (λ b, (b < 256)%N) bs → Forall (λ v, (v < 64)%N) (sextets bs).
Proof.
  induction bs as [bs IH] using (induction_ltof1 _ (@List.length N)). unfold ltof in IH.
  destruct bs as [|a [|b [|c bs]]]; intros Hbs; cbn [sextets app]; rewrite ?Forall_cons in *.
  - done.
  - split_and!; [| |done]; (zify; Z.to_euclidean_division_equations; lia).
  - split_and!; [| | |done]; (zify; Z.to_euclidean_division_equations; lia).
  - split_and!; [..|apply IH; [simpl; lia|tauto]]; (zify; Z.to_euclidean_division_equations; lia).
Qed.

Lemma groups_sextets bs : Forall (λ b, (b < 256)%N) bs → base64_groups (sextets bs) = Some bs.
Proof.
  induction bs as [bs IH] using (induction_ltof1 _ (@List.length N)). unfold ltof in IH.
  destruct bs as [|a [|b [|c bs]]]; intros Hbs; rewrite ?Forall_cons in *; [done|..].
  - cbn [sextets base64_groups]. do 2 f_equal. zify; Z.to_euclidean_division_equations; lia.
  - cbn [sextets base64_groups]. repeat f_equal; (zify; Z.to_euclidean_division_equations; lia).
  - cbn [sextets app base64_groups]. rewrite IH by (simpl; tauto || lia). cbn [mbind option_bind app].
    repeat f_equal; (zify; Z.to_euclidean_division_equations; lia).
Qed.

Definition base64_plain (c : N) : bool :=
  (c <? 128)%N && negb (c =? 10)%N && negb (c =? 13)%N && negb (c =? 36)%N.
Lemma base64_std_digit_spec v :
  (v < 64)%N →
  base64_std_value (base64_std_digit v) = Some v ∧ base64_plain (base64_std_digit v) = true.
Proof.
  intros Hv. apply (forallb_below (λ v, bool_decide (base64_std_value (base64_std_digit v) = Some v)
    && base64_plain (base64_std_digit v)) 64) in Hv; [|vm_compute; reflexivity].
  by apply andb_prop in Hv as [?%bool_decide_eq_true_1 ?].
Qed.

Lemma base64_encode_plain bs :
  Forall (λ b, (b < 256)%N) bs → Forall (λ c, base64_plain c = true) (base64_encode base64_std_digit bs).
Proof.
  intros Hbs. apply Forall_fmap. eapply Forall_impl; [by apply sextets_small|].
  intros v Hv. by apply base64_std_digit_spec.
Qed.

Lemma plain_bytes bs :
  Forall (λ c, base64_plain c = true) bs → bytes_of (string_of bs) = bs ∧ 36%N ∉ bs ∧
    filter (λ c, c ≠ 10%N ∧ c ≠ 13%N) bs = bs.
Proof.
  intros Hbs.
  assert (∀ c, base64_plain c = true → (c < 128 ∧ c ≠ 10 ∧ c ≠ 13 ∧ c ≠ 36)%N) as Hplain.
  { intros c. unfold base64_plain. rewrite !andb_true_iff, !negb_true_iff, !N.eqb_neq, N.ltb_lt. tauto. }
  split_and!.
  - apply bytes_of_string_of. eapply Forall_impl; [exact Hbs|]. intros c ?%Hplain. lia.
  - intros Hin. rewrite Forall_forall in Hbs. specialize (Hplain _ (Hbs _ Hin)). tauto.
  - induction Hbs as [|c bs Hc Hbs IH]; [done|]. apply Hplain in Hc. rewrite filter_cons_True by tauto.
    by rewrite IH.
Qed.

Lemma base64_decode_encode bs :
  Forall (λ b, (b < 256)%N) bs → base64_decode (base64_encode base64_std_digit bs) = Some bs.
Proof.
  intros Hbs. pose proof (plain_bytes _ (base64_encode_plain bs Hbs)) as (_ & _ & Hfilter).
  unfold base64_decode. rewrite Hfilter.
  assert (mapM base64_std_value (base64_encode base64_std_digit bs) = Some (sextets bs)) as ->;
    [|by apply groups_sextets].
  unfold base64_encode. pose proof (sextets_small bs Hbs) as Hs.
  apply mapM_fmap_Forall_Some. eapply Forall_impl; [exact Hs|]. intros v Hv.
  by apply base64_std_digit_spec.
Qed.
End lemmas.

(** The six parts of a PHC string. *)
Lemma split_phc es ek :
  36%N ∉ es → 36%N ∉ ek → bytes_of (string_of es) = es → bytes_of (string_of ek) = ek →
  split 36 ("$argon2id$v=" +:+ Itoa argonVersion +:+ "$m=" +:+ Itoa argonMemory +:+ ",t=" +:+ Itoa argonTime
     +:+ ",p=" +:+ Itoa argonThreads +:+ "$" +:+ string_of es +:+ "$" +:+ string_of ek)%string =
  ["";"argon2id"; "v=19"; "m=65536,t=3,p=4"; string_of es; string_of ek]%string.
Proof.
  intros Hes Hek Hbs Hbk. unfold split. rewrite !bytes_of_app, Hbs, Hbk.
  transitivity (string_of <$> split_bytes 36
    ([] ++ 36%N :: bytes_of "argon2id" ++ 36%N :: bytes_of "v=19" ++ 36%N :: bytes_of "m=65536,t=3,p=4"
      ++ 36%N :: es ++ 36%N :: ek)); [reflexivity|].
  rewrite !split_bytes_app, split_bytes_last; [reflexivity|done|..].
  all: try done; intros Hin; rewrite list_elem_of_In in Hin; vm_compute in Hin; naive_solver.
Qed.

(** A stored password is checked against what was hashed.  A password of fewer than
    eight characters is refused; for any other the stored PHC string, whatever the salt,
    makes the check answer, without an error, exactly whether the candidate's Argon2id key
    under that salt and the current parameters is the stored key, so that the password
    itself passes. *)
Lemma VerifyPassword_HashPassword `{Argon2} p salt :
  Forall (λ b, (b < 256)%N) salt →
  (rune_count p < 8 → HashPassword p salt = Err ErrPasswordTooShort) ∧
  (8 ≤ rune_count p → ∃ h, HashPassword p salt = Ok h ∧ VerifyPassword p h = Ok true ∧
     ∀ q, VerifyPassword q h = Ok (bool_decide
       (IDKey (bytes_of q) salt 3 65536 4 32 = IDKey (bytes_of p) salt 3 65536 4 32))).
Proof.
  intros Hsalt. unfold HashPassword. split.
  { intros Hlt. by rewrite (proj2 (Z.ltb_lt _ _)). }
  intros Hge. rewrite (proj2 (Z.ltb_ge _ _)) by done. eexists. split; [reflexivity|].
  set (key := IDKey (bytes_of p) salt argonTime argonMemory argonThreads argonKeyLen).
  pose proof (IDKey_bytes (bytes_of p) salt argonTime argonMemory argonThreads argonKeyLen) as Hkey.
  pose proof (IDKey_length (bytes_of p) salt argonTime argonMemory argonThreads argonKeyLen) as Hlen.
  fold key in Hkey, Hlen.
  pose proof (plain_bytes _ (base64_encode_plain salt Hsalt)) as (Hbs & Hns & _).
  pose proof (plain_bytes _ (base64_encode_plain key Hkey)) as (Hbk & Hnk & _).
  match goal with |- VerifyPassword p ?h = _ ∧ _ => assert (∀ q, VerifyPassword q h =
      Ok (bool_decide (IDKey (bytes_of q) salt 3 65536 4 32 = key))) as Hq end.
  - intros q. unfold VerifyPassword. rewrite split_phc by done.
    rewrite Hbs, Hbk, !base64_decode_encode, Hlen by done. reflexivity.
  - split; [|exact Hq]. rewrite Hq. by rewrite bool_decide_true.
Qed.

Section codes.

Lemma code_limit_bounds digits : 0 < code_upper digits →
  0 ≤ code_limit digits ∧ code_limit digits < 2 ^ 64 ∧ 2 ^ 64 - code_limit digits ≤ code_upper digits ∧
  code_limit digits mod code_upper digits = 0.
Proof.
  intros Hu. unfold code_limit. pose proof (Z.mul_div_le (2 ^ 64 - 1) _ Hu).
  pose proof (Z.mul_succ_div_gt (2 ^ 64 - 1) _ Hu). split_and!; [|lia|lia|by apply Z.mod_mul; lia].
  apply Z.mul_nonneg_nonneg; [apply Z.div_pos|]; lia.
Qed.

Lemma first_below_Some limit draws d :
  first_below limit draws = Some d ↔
  ∃ l1 l2, draws = l1 ++ d :: l2 ∧ d < limit ∧ Forall (λ x, limit ≤ x) l1.
Proof.
  induction draws as [|x draws IH]; simpl.
  { split; [done|]. by intros ([] & ? & ? & _). }
  destruct (Z.ltb_spec x limit) as [Hx|Hx].
  - split.
    + intros [= ->]. by exists [], draws.
    + intros ([|y l1] & l2 & [= -> ->] & Hd & Hall); [done|]. apply Forall_cons in Hall as [? _]. lia.
  - rewrite IH. split.
    + intros (l1 & l2 & -> & Hd & Hall). exists (x :: l1), l2. split; [done|]. split; [done|]. by constructor.
    + intros ([|y l1] & l2 & [= -> ->] & Hd & Hall); [lia|]. apply Forall_cons in Hall as [_ ?]. eauto.
Qed.

Lemma zero_padded_spec (w : nat) n :
  (1 ≤ w ≤ 20)%nat → Z.of_N n < 10 ^ Z.of_nat w →
  ∃ ds, zero_padded w n = string_of ds ∧ List.length ds = w ∧ value_of ds 0 = Z.of_N n ∧
    Forall (λ b, in_range 48 57 b = true) ds.
Proof.
  intros Hw Hn. unfold zero_padded, decimal.
  destruct (decimal_aux_value 20 n []) as (ds & Hds & Hval & Hdig & Hlen).
  { eapply Z.lt_le_trans; [exact Hn|]. apply Z.pow_le_mono_r; lia. }
  rewrite Hds, app_nil_r. eexists. split; [reflexivity|].
  rewrite length_app, length_replicate, value_of_app, value_of_zeros.
  specialize (Hlen w ltac:(lia) Hn). split_and!; [lia|done|]. apply Forall_app. split; [|done].
  by apply Forall_replicate.
Qed.

(** A draw's code: as many digits as asked, standing for the draw's remainder. *)
Lemma code_of_spec digits draw :
  4 ≤ digits ≤ 10 →
  Forall (λ b, in_range 48 57 b = true) (bytes_of (code_of digits draw)) ∧
  len (code_of digits draw) = digits ∧
  value_of (bytes_of (code_of digits draw)) 0 = draw mod code_upper digits.
Proof.
  intros Hd. assert (0 < code_upper digits) as Hu by (unfold code_upper; lia).
  pose proof (Z.mod_pos_bound draw _ Hu) as Hmod. unfold code_of.
  destruct (zero_padded_spec (Z.to_nat digits) (Z.to_N (draw mod code_upper digits)))
    as (ds & -> & Hlen & Hval & Hdig); [lia| |].
  { rewrite Z2N.id, Z2Nat.id by lia. unfold code_upper in *. lia. }
  unfold len. rewrite <-length_bytes_of, digits_string, Hlen, Hval by done.
  split_and!; [done|lia|lia].
Qed.
End codes.

(** A numeric code of the supported lengths is exactly uniform: it has the asked number
    of decimal digits, and every code is given by the same number of the 64-bit draws,
    floor of (2^64-1)/10^digits of them.  A draw that is refused only makes the loop draw
    again, and at most 10^digits of the 2^64 draws are refused; other lengths are an
    error. *)
Lemma NumericCode_uniform digits :
  let share := (2 ^ 64 - 1) / 10 ^ digits in
  (4 ≤ digits ≤ 10 →
   (∀ draws code, NumericCode digits draws = Ok (Some code) →
      len code = digits ∧ Forall (λ b, in_range 48 57 b = true) (bytes_of code)) ∧
   (∀ c, 0 ≤ c < 10 ^ digits → ∃ code, ∀ draw, 0 ≤ draw < 2 ^ 64 →
      (NumericCode digits [draw] = Ok (Some code) ↔ ∃ k, 0 ≤ k < share ∧ draw = k * 10 ^ digits + c)) ∧
   (∀ refused draw rest, Forall (λ d, NumericCode digits [d] = Ok None) refused →
      NumericCode digits [draw] ≠ Ok None →
      NumericCode digits (refused ++ draw :: rest) = NumericCode digits [draw]) ∧
   (∀ draw, 0 ≤ draw < 2 ^ 64 → NumericCode digits [draw] = Ok None →
      2 ^ 64 - 10 ^ digits ≤ draw)) ∧
  (¬ (4 ≤ digits ≤ 10) → ∀ draws, NumericCode digits draws = Err ()).
Proof.
  intros share. split; [|].
  2: { intros Hd draws. unfold NumericCode. destruct (_ || _) eqn:Hb; [done|].
       apply orb_false_iff in Hb as [?%Z.ltb_ge ?%Z.ltb_ge]. lia. }
  intros Hd. assert (0 < code_upper digits) as Hu by (unfold code_upper; lia).
  pose proof (code_limit_bounds digits Hu) as (Hl0 & Hl1 & Hl2 & _).
  assert (∀ draws, NumericCode digits draws = Ok (code_of digits <$> first_below (code_limit digits) draws)) as Hnc.
  { intros draws. unfold NumericCode. by rewrite !(proj2 (Z.ltb_ge _ _)) by lia. }
  assert (∀ d, NumericCode digits [d] = Ok (if d <? code_limit digits then Some (code_of digits d) else None)) as Hone.
  { intros d. rewrite Hnc. simpl. by destruct (d <? _). }
  change (10 ^ digits) with (code_upper digits) in *. split_and!.
  - intros draws code. rewrite Hnc. intros [= (d & _ & ->)%fmap_Some].
    destruct (code_of_spec digits d Hd) as (? & ? & _). done.
  - intros c Hc. exists (code_of digits c). intros draw Hdraw. rewrite Hone. split.
    + destruct (Z.ltb_spec draw (code_limit digits)) as [Hlt|]; [|done]. intros [= Heq].
      apply (f_equal (λ s, value_of (bytes_of s) 0)) in Heq.
      rewrite !(proj2 (proj2 (code_of_spec digits _ Hd))), (Z.mod_small c) in Heq by done.
      exists (draw / code_upper digits). split; [|pose proof (Z.div_mod draw (code_upper digits) ltac:(lia)); lia].
      split; [apply Z.div_pos; lia|]. apply Z.div_lt_upper_bound; [lia|]. unfold code_limit in Hlt.
      unfold share. change (10 ^ digits) with (code_upper digits). lia.
    + intros (k & Hk & ->). rewrite (proj2 (Z.ltb_lt _ _)).
      * unfold code_of. by rewrite Z.add_comm, Z.mod_add by lia.
      * unfold code_limit. change share with ((2 ^ 64 - 1) / code_upper digits) in Hk. nia.
  - intros refused draw rest Hall Hdraw. rewrite Hone in Hdraw. rewrite !Hnc. do 2 f_equal.
    destruct (Z.ltb_spec draw (code_limit digits)) as [Hlt|]; [|done].
    transitivity (Some draw); [|simpl; by rewrite (proj2 (Z.ltb_lt _ _))].
    apply first_below_Some. exists refused, rest. split; [done|]. split; [done|].
    eapply Forall_impl; [exact Hall|]. intros d. cbv beta. rewrite Hone. by destruct (Z.ltb_spec d (code_limit digits)).
  - intros draw Hdraw. rewrite Hone. destruct (Z.ltb_spec draw (code_limit digits)); [done|]. lia.
Qed.

Lemma NumericCode_uniform_witness :
  ∃ code, ∀ draw, 0 ≤ draw < 2 ^ 64 →
    (NumericCode 6 [draw] = Ok (Some code) ↔ ∃ k, 0 ≤ k < 18446744073709 ∧ draw = k * 10 ^ 6 + 42).
Proof.
  assert (4 ≤ 6 ≤ 10) as H6 by lia.
  pose proof (proj1 (proj2 (proj1 (NumericCode_uniform 6) H6)) 42) as Hcode.
  apply Hcode. lia.
Defined.

(** Argon2id stood in for by a function of the password and the salt. *)
Definition toy_key (p s : list N) (k : Z) : list N :=
  take (Z.to_nat k) (((λ b, b mod 256)%N <$> (p ++ s)) ++ replicate (Z.to_nat k) 0%N).
Program Definition toy_argon : Argon2 := {| IDKey := λ p s _ _ _ k, toy_key p s k |}.
Next Obligation.
  intros p s ?? ? k Hk. unfold toy_key. simpl. rewrite length_take, length_app, length_replicate. lia.
Qed.
Next Obligation.
  intros p s ?? ? k. unfold toy_key. apply Forall_take, Forall_app. split.
  - apply Forall_fmap, Forall_true. intros b. simpl. apply N.mod_lt. done.
  - by apply Forall_replicate.
Qed.

Lemma VerifyPassword_HashPassword_witness :
  ∃ h, @HashPassword toy_argon "correct horse" (replicate 16 7%N) = Ok h ∧
    @VerifyPassword toy_argon "correct horse" h = Ok true.
Proof.
  assert (Forall (λ b, (b < 256)%N) (replicate 16 7%N)) as Hsalt by by apply Forall_replicate.
  pose proof (proj2 (@VerifyPassword_HashPassword toy_argon "correct horse" _ Hsalt)) as Hok.
  assert (8 ≤ rune_count "correct horse") as Hlen by (vm_compute; discriminate).
  destruct (Hok Hlen) as (h & Hh & Hv & _). by exists h.
Defined.
