(* ===== verification/Contacts.v ===== *)
(** * Contacts ([internal/contacts/contacts.go], [requests.go])

    The address book, discovery by hashed numbers, blocks and contact requests.  The
    world of the service is the social graph's tables, its optional limiter and the
    optional spam recorder.  Statements of a handler that run outside a transaction take
    what other requests commit in between as [meanwhile]. *)

From stdpp Require Import base tactics list gmap strings sorting.
From Stdlib Require Import ZArith Lia.
From S2P Require Import Prelude Steps GoString Httpx Security RateLimit Ports Antispam Social MessagingService.

Set Default Goal Selector "!".
Open Scope Z_scope.

Definition maxSyncBatch : Z := 2000.
Definition maxRequestMessage : Z := 280.

Inductive contacterr :=
| CtNotFound | ErrCannotBlockSelf
| ErrRequestNotFound | ErrAlreadyContacts | ErrRequestBlocked | ErrRequestToSelf
| ErrRequestNotYours | ErrRequestResolved | ErrRequestUnwelcome
| UnknownResolution | CtForeignKey | CtCheck | CtUnique.

Record Contact := MkContact {
  co_UserID : uuid;
  co_FirstName : string;
  co_LastName : string;
  co_Username : option string;
  co_DisplayName : string;
  co_AvatarID : option uuid;
  co_IsFavorite : bool;
  co_IsMutual : bool;
  co_LastSeen : option time;
  co_CreatedAt : time;
}.
Record Match := MkMatch {
  ma_Digest : string;
  ma_UserID : uuid;
  ma_Username : option string;
  ma_DisplayName : string;
  ma_AvatarID : option uuid;
}.
Record ContactUpsert := MkUpsert { cu_UserID : uuid; cu_FirstName : string; cu_LastName : string }.

(** ** Repository *)

(** The account may be shown to [viewer] for one of [digests]. *)
Definition discoverable (digests : list (list N)) (viewer : uuid) (d : socialdb) (u : uuid) (a : account_row) : bool :=
  bool_decide (ac_phone_hash a ∈ digests) && live_account a && bool_decide (ac_status a = "active"%string)
  && negb (bool_decide (u = viewer)) && negb (has_blocked u viewer d).
Definition match_of (d : socialdb) (ua : uuid * account_row) : Match :=
  MkMatch (string_of (hex_encode (ac_phone_hash ua.2))) ua.1 (ac_username ua.2) (display_name ua.1 d) (avatar_of ua.1 d).
(** In no particular order. *)
Definition MatchByHash (digests : list (list N)) (viewer : uuid) (d : socialdb) : list Match :=
  match_of d <$> rows_where (discoverable digests viewer d) (accounts d).

(** [INSERT ... ON CONFLICT (owner_id, contact_id) DO UPDATE SET first_name, last_name] *)
Definition upsert_contact (now : time) (owner : uuid) (e : ContactUpsert) : prog socialdb contacterr () := λ d,
  if decide (owner = cu_UserID e) then (Err CtCheck, d)
  else match address_book d !! (owner, cu_UserID e) with
       | Some r => (Ok (), with_address_book (<[(owner, cu_UserID e) :=
                     MkContactRow (cu_FirstName e) (cu_LastName e) (ct_is_favorite r) (ct_created_at r)]> (address_book d)) d)
       | None =>
           if negb (has_account owner d && has_account (cu_UserID e) d) then (Err CtForeignKey, d)
           else (Ok (), with_address_book (<[(owner, cu_UserID e) :=
                  MkContactRow (cu_FirstName e) (cu_LastName e) false now]> (address_book d)) d)
       end.
Definition prune_contacts (owner : uuid) (ids : list uuid) (d : socialdb) : socialdb :=
  with_address_book (delete_where (λ k _, bool_decide (k.1 = owner) && negb (bool_decide (k.2 ∈ ids))) (address_book d)) d.
Definition ReplaceContacts (now : time) (owner : uuid) (entries : list ContactUpsert) : prog socialdb contacterr () :=
  in_tx (
    modify (prune_contacts owner (cu_UserID <$> entries)) ≫= λ _,
    for_each entries (λ e, if decide (cu_UserID e = owner) then mret () else upsert_contact now owner e)).

(** Favourites first; the collation of the names is left open. *)
Definition contact_of (viewer : uuid) (d : socialdb) (kr : (uuid * uuid) * contact_row) : option Contact :=
  let '((_, c), r) := kr in
  a ← accounts d !! c;
  if live_account a then
    Some (MkContact c (ct_first_name r) (ct_last_name r) (ac_username a) (display_name c d) (avatar_of c d)
      (ct_is_favorite r) (has_contact c viewer d)
      (if visible_last_seen c viewer d then ac_last_seen_at a else None) (ct_created_at r))
  else None.
Definition List_ (owner : uuid) (d : socialdb) : list Contact :=
  let rows := omap (contact_of owner d) (rows_where (λ k _, bool_decide (k.1 = owner)) (address_book d)) in
  filter (λ c, co_IsFavorite c = true) rows ++ filter (λ c, co_IsFavorite c = false) rows.

Definition Add (now : time) (owner contact : uuid) (firstName lastName : string) : prog socialdb contacterr () :=
  map_err (λ e, match e with CtForeignKey => CtNotFound | e => e end)
    (upsert_contact now owner (MkUpsert contact firstName lastName)).
Definition Remove (owner contact : uuid) : prog socialdb contacterr () := λ d,
  if has_contact owner contact d then (Ok (), with_address_book (delete (owner, contact) (address_book d)) d)
  else (Err CtNotFound, d).
Definition SetFavorite (owner contact : uuid) (favorite : bool) : prog socialdb contacterr () := λ d,
  match address_book d !! (owner, contact) with
  | Some r => (Ok (), with_address_book (<[(owner, contact) :=
                MkContactRow (ct_first_name r) (ct_last_name r) favorite (ct_created_at r)]> (address_book d)) d)
  | None => (Err CtNotFound, d)
  end.

Definition insert_block (now : time) (owner blocked : uuid) (reason : string) : prog socialdb contacterr () := λ d,
  if decide (owner = blocked) then (Err ErrCannotBlockSelf, d)
  else match blocked_users d !! (owner, blocked) with
       | Some b => (Ok (), with_blocked_users (<[(owner, blocked) := MkBlock reason (bl_created_at b)]> (blocked_users d)) d)
       | None =>
           if negb (has_account owner d && has_account blocked d) then (Err CtForeignKey, d)
           else (Ok (), with_blocked_users (<[(owner, blocked) := MkBlock reason now]> (blocked_users d)) d)
       end.
Definition forget_each_other (a b : uuid) (d : socialdb) : socialdb :=
  with_address_book (delete (b, a) (delete (a, b) (address_book d))) d.
Definition Block (now : time) (owner blocked : uuid) (reason : string) : prog socialdb contacterr () :=
  in_tx (insert_block now owner blocked reason ≫= λ _, modify (forget_each_other owner blocked)).
Definition Unblock (owner blocked : uuid) : prog socialdb contacterr () := λ d,
  if has_blocked owner blocked d then (Ok (), with_blocked_users (delete (owner, blocked) (blocked_users d)) d)
  else (Err CtNotFound, d).
Definition blocked_of (d : socialdb) (kb : (uuid * uuid) * block_row) : option Contact :=
  let '((_, u), b) := kb in
  a ← accounts d !! u;
  Some (MkContact u "" "" (ac_username a) (display_name u d) (avatar_of u d) false false None (bl_created_at b)).
Definition Repository_Blocked (owner : uuid) (d : socialdb) : list Contact :=
  omap (blocked_of d) (order_by_desc (λ kb : (uuid * uuid) * block_row, bl_created_at kb.2)
    (rows_where (λ k _, bool_decide (k.1 = owner)) (blocked_users d))).
Definition IsBlocked (a b : uuid) (d : socialdb) : bool := has_blocked a b d || has_blocked b a d.

(** ** Contact requests *)

Record Request := MkRequest {
  rq_ID : uuid;
  rq_RequesterID : uuid;
  rq_TargetID : uuid;
  rq_Status : string;
  rq_Message : string;
  rq_CreatedAt : time;
  rq_ResolvedAt : option time;
  rq_DisplayName : string;
  rq_Username : option string;
  rq_AvatarID : option uuid;
}.
(** A request without the other party's profile. *)
Definition request_of (id : uuid) (r : request_row) : Request :=
  MkRequest id (cr_requester r) (cr_target r) (cr_status r) (cr_message r) (cr_created_at r) (cr_resolved_at r) "" None None.
Definition pending (requester target : uuid) (_ : uuid) (r : request_row) : bool :=
  bool_decide (cr_requester r = requester) && bool_decide (cr_target r = target) && bool_decide (cr_status r = "pending"%string).
(** [INSERT ... ON CONFLICT (requester_id, target_id) WHERE status = 'pending' DO UPDATE
    SET message]; [new_id] is the id the database generates. *)
Definition upsert_request (now : time) (new_id requester target : uuid) (message : string)
    : prog socialdb contacterr Request := λ d,
  match rows_where (pending requester target) (contact_requests d) with
  | (id, r) :: _ =>
      let r' := MkRequestRow (cr_requester r) (cr_target r) (cr_status r) message (cr_created_at r) (cr_resolved_at r) in
      (Ok (request_of id r'), with_contact_requests (<[id := r']> (contact_requests d)) d)
  | [] =>
      if negb (has_account requester d && has_account target d) then (Err CtForeignKey, d)
      else if bool_decide (is_Some (contact_requests d !! new_id)) then (Err CtUnique, d)
      else
        let r := MkRequestRow requester target "pending" message now None in
        (Ok (request_of new_id r), with_contact_requests (<[new_id := r]> (contact_requests d)) d)
  end.
(** The checks lock nothing, so others may commit between them and the insert. *)
Definition CreateRequest (now : time) (new_id : uuid) (meanwhile : socialdb → socialdb) (requester target : uuid)
    (message : string) : prog socialdb contacterr Request :=
  fail_if (bool_decide (requester = target)) ErrRequestToSelf ≫= λ _,
  gets (IsBlocked requester target) ≫= λ blocked, fail_if blocked ErrRequestBlocked ≫= λ _,
  gets (λ d, has_contact requester target d && has_contact target requester d) ≫= λ mutual,
  fail_if mutual ErrAlreadyContacts ≫= λ _,
  gets (privacy_allows target requester "messages") ≫= λ welcome, fail_if (negb welcome) ErrRequestUnwelcome ≫= λ _,
  modify meanwhile ≫= λ _,
  map_err (λ e, match e with CtForeignKey => CtNotFound | e => e end)
    (upsert_request now new_id requester target message).

(** [COALESCE(NULLIF(p.display_name, ''), u.username, '')] *)
Definition request_name (u : uuid) (a : account_row) (d : socialdb) : string :=
  let n := display_name u d in if decide (n = ""%string) then default ""%string (ac_username a) else n.
Definition listed_request (incoming : bool) (d : socialdb) (kr : uuid * request_row) : option Request :=
  let '(id, r) := kr in
  let other := if incoming then cr_requester r else cr_target r in
  a ← accounts d !! other;
  if live_account a then
    Some (MkRequest id (cr_requester r) (cr_target r) (cr_status r) (cr_message r) (cr_created_at r) (cr_resolved_at r)
      (request_name other a d) (ac_username a) (avatar_of other d))
  else None.
Definition Requests (userID : uuid) (incoming : bool) (limit : Z) (d : socialdb) : list Request :=
  take (Z.to_nat limit) (omap (listed_request incoming d)
    (order_by_desc (λ kr : uuid * request_row, cr_created_at kr.2)
      (rows_where (λ _ r, bool_decide ((if incoming then cr_target r else cr_requester r) = userID)
                          && (negb incoming || bool_decide (cr_status r = "pending"%string))) (contact_requests d)))).

(** [INSERT ... ON CONFLICT DO NOTHING] of one entry with no names *)
Definition add_if_missing (now : time) (owner contact : uuid) (d : socialdb) : socialdb :=
  if has_contact owner contact d then d
  else with_address_book (<[(owner, contact) := MkContactRow "" "" false now]> (address_book d)) d.
Definition may_resolve (actor : uuid) (status : string) (r : request_row) : result contacterr () :=
  if decide (status ∈ ["accepted"; "rejected"]%string)
  then if decide (actor = cr_target r) then Ok () else Err ErrRequestNotYours
  else if decide (status = "cancelled"%string)
  then if decide (actor = cr_requester r) then Ok () else Err ErrRequestNotYours
  else Err UnknownResolution.
Definition resolve_row (now : time) (status : string) (r : request_row) : request_row :=
  MkRequestRow (cr_requester r) (cr_target r) status (cr_message r) (cr_created_at r) (Some now).
Definition ResolveRequest (now : time) (requestID actor : uuid) (status : string) : prog socialdb contacterr Request :=
  in_tx (
    gets (λ d, contact_requests d !! requestID) ≫= λ r, or_fail r ErrRequestNotFound ≫= λ r,
    fail_if (negb (bool_decide (cr_status r = "pending"%string))) ErrRequestResolved ≫= λ _,
    (λ d, (may_resolve actor status r, d)) ≫= λ _,
    modify (λ d, with_contact_requests (<[requestID := resolve_row now status r]> (contact_requests d)) d) ≫= λ _,
    (if decide (status = "accepted"%string)
     then modify (λ d, add_if_missing now (cr_target r) (cr_requester r) (add_if_missing now (cr_requester r) (cr_target r) d))
     else mret ()) ≫= λ _,
    mret (request_of requestID (resolve_row now status r))).

(** ** Service *)

Record contacts_world := MkContactsWorld {
  cw_db : socialdb;
  cw_limiter : option limiter_state;
  cw_spam : option (gmap (string * string) Score);
}.
Definition with_cw_db v (w : contacts_world) := MkContactsWorld v (cw_limiter w) (cw_spam w).
Abbreviation cprog := (prog contacts_world Error).
Definition run_repo {A} (h : contacterr → Error) (m : prog socialdb contacterr A) : cprog A := λ w,
  match m (cw_db w) with
  | (Ok a, d) => (Ok a, with_cw_db d w)
  | (Err e, d) => (Err (h e), with_cw_db d w)
  end.
Definition read_repo {A} (f : socialdb → A) : cprog A := gets (λ w, f (cw_db w)).
Definition others_commit (meanwhile : socialdb → socialdb) : cprog () := modify (λ w, with_cw_db (meanwhile (cw_db w)) w).
(** The limiter, if there is one; its error lets the call through. *)
Definition throttle (rule : Rules → Rule) (subject : string) (now : time) : cprog () := λ w,
  match cw_limiter w with
  | None => (Ok (), w)
  | Some l =>
      let '((res, failed), l') := allow_rule rule subject now l in
      let w' := MkContactsWorld (cw_db w) (Some l') (cw_spam w) in
      if negb failed && negb (Allowed res) then (Err (Httpx.RateLimited (int_seconds (RetryAfter res))), w') else (Ok (), w')
  end.

Record DiscoveryParameters_ := MkDiscovery {
  dp_Algorithm : string; dp_Pepper : string; dp_DigestLength : Z; dp_MaxBatchSize : Z }.
Definition DiscoveryParameters (pepper : string) : DiscoveryParameters_ := MkDiscovery "HMAC-SHA256" pepper 32 maxSyncBatch.

Record SyncEntry := MkSyncEntry { se_Digest : string; se_FirstName : string; se_LastName : string }.
Record SyncInput := MkSyncInput { si_UserID : uuid; si_Entries : list SyncEntry; si_Replace : bool }.
Record SyncResult := MkSyncResult { sr_Matched : list Match; sr_Uploaded : Z }.

Definition decode_digest (digest : string) : option (list N) :=
  raw ← hex_decode (bytes_of (trim_space digest)); if (length raw =? 32)%nat then Some raw else None.
Definition bad_digest : Error :=
  WithField (Validation "A digest is not a 32-byte hex string") "digest" "must be hex-encoded HMAC-SHA256".
(** The names by lower-case digest, first spelling wins, and the digests in order. *)
Fixpoint collect_digests (entries : list SyncEntry) (names : gmap string SyncEntry) (digests : list (list N))
    : option (gmap string SyncEntry * list (list N)) :=
  match entries with
  | [] => Some (names, digests)
  | e :: entries =>
      raw ← decode_digest (se_Digest e);
      let key := to_lower (se_Digest e) in
      match names !! key with
      | Some _ => collect_digests entries names digests
      | None => collect_digests entries (<[key := e]> names) (digests ++ [raw])
      end
  end.
Definition upsert_of (names : gmap string SyncEntry) (m : Match) : ContactUpsert :=
  let e := default (MkSyncEntry "" "" "") (names !! to_lower (ma_Digest m)) in
  MkUpsert (ma_UserID m) (truncate (se_FirstName e) 100) (truncate (se_LastName e) 100).
(** [s.repo.Add] for each, a missing account passed over. *)
Definition add_upsert (now : time) (owner : uuid) (u : ContactUpsert) : cprog () := λ w,
  match Add now owner (cu_UserID u) (cu_FirstName u) (cu_LastName u) (cw_db w) with
  | (Ok _, d) | (Err CtNotFound, d) => (Ok (), with_cw_db d w)
  | (Err _, d) => (Err (Internal), with_cw_db d w)
  end.
Definition Sync (now : time) (meanwhile : socialdb → socialdb) (in_ : SyncInput) : cprog SyncResult :=
  if bool_decide (si_Entries in_ = []) then mret (MkSyncResult [] 0)
  else
    fail_if (maxSyncBatch <? Z.of_nat (length (si_Entries in_)))
      (WithField (Validation "Too many entries in one batch") "entries" "at most 2000 per request") ≫= λ _,
    throttle ContactSync (uuid_String (si_UserID in_)) now ≫= λ _,
    or_fail (collect_digests (si_Entries in_) ∅ []) bad_digest ≫= λ '(names, digests),
    read_repo (MatchByHash digests (si_UserID in_)) ≫= λ matches,
    let upserts := upsert_of names <$> matches in
    others_commit meanwhile ≫= λ _,
    (if si_Replace in_
     then run_repo (λ _, Internal) (ReplaceContacts now (si_UserID in_) upserts)
     else for_each upserts (add_upsert now (si_UserID in_))) ≫= λ _,
    mret (MkSyncResult matches (Z.of_nat (length digests))).

Definition not_in_contacts : contacterr → Error := λ e,
  match e with CtNotFound => NotFound CodeNotFound "That person is not in your contacts" | _ => Internal end.
Definition Service_List (owner : uuid) : cprog (list Contact) := read_repo (List_ owner).
Definition Service_Add (now : time) (owner contact : uuid) (firstName lastName : string) : cprog () :=
  fail_if (bool_decide (owner = contact)) (WithField (Validation "You cannot add yourself") "user_id" "cannot be yourself") ≫= λ _,
  run_repo (λ e, match e with CtNotFound => NotFound CodeNotFound "User not found" | _ => Internal end)
    (Add now owner contact (truncate firstName 100) (truncate lastName 100)).
Definition Service_Remove (owner contact : uuid) : cprog () := run_repo not_in_contacts (Remove owner contact).
Definition Service_SetFavorite (owner contact : uuid) (favorite : bool) : cprog () :=
  run_repo not_in_contacts (SetFavorite owner contact favorite).
Definition cannot_block_self : Error :=
  WithField (Validation "You cannot block yourself") "user_id" "cannot be yourself".
Definition spam_blocked (now : time) (u : uuid) (w : contacts_world) : contacts_world :=
  MkContactsWorld (cw_db w) (cw_limiter w) (Antispam.Blocked now u <$> cw_spam w).
Definition Service_Block (now : time) (owner blocked : uuid) (reason : string) : cprog () :=
  fail_if (bool_decide (owner = blocked)) cannot_block_self ≫= λ _,
  run_repo (λ e, match e with ErrCannotBlockSelf => cannot_block_self | _ => Internal end)
    (Block now owner blocked (truncate reason 500)) ≫= λ _,
  modify (spam_blocked now blocked).
Definition Service_Unblock (owner blocked : uuid) : cprog () :=
  run_repo (λ e, match e with CtNotFound => NotFound CodeNotFound "That user is not blocked" | _ => Internal end)
    (Unblock owner blocked).
Definition Service_Blocked (owner : uuid) : cprog (list Contact) := read_repo (Repository_Blocked owner).

Section digests.
Context `{Digest}.
Definition DigestFor (phone : string) (pepper : list N) : string := string_of (hex_encode (HashPhone phone pepper)).
End digests.

Definition request_error (e : contacterr) : Error :=
  match e with
  | ErrRequestToSelf =>
      WithField (Validation "You cannot send yourself a contact request") "user_id" "cannot be yourself"
  | ErrAlreadyContacts => Conflict CodeConflict "You are already contacts"
  | ErrRequestBlocked | ErrRequestUnwelcome => Forbidden CodeForbidden "That person does not accept contact requests"
  | CtNotFound => NotFound CodeNotFound "User not found"
  | _ => Internal
  end.
Definition SendRequest (now : time) (new_id : uuid) (meanwhile : socialdb → socialdb) (requester target : uuid)
    (message : string) : cprog Request :=
  fail_if (bool_decide (target = uuid_nil)) (WithField (Validation "A user is required") "user_id" "required") ≫= λ _,
  throttle APIPerUser ("contact-request:" +:+ uuid_String requester) now ≫= λ _,
  run_repo request_error
    (CreateRequest now new_id meanwhile requester target (truncate (trim_space message) maxRequestMessage)).
Definition Service_Requests (userID : uuid) (direction : string) (limit : Z) : cprog (list Request) :=
  read_repo (Requests userID (negb (bool_decide (direction = "outgoing"%string)))
    (if (limit <=? 0) || (200 <? limit) then 100 else limit)).
Definition resolve_error (e : contacterr) : Error :=
  match e with
  | ErrRequestNotFound | ErrRequestNotYours => NotFound CodeNotFound "No such contact request"
  | ErrRequestResolved => Conflict CodeConflict "That request has already been resolved"
  | _ => Internal
  end.
Definition Service_ResolveRequest (now : time) (requestID actor : uuid) (status : string) : cprog Request :=
  run_repo resolve_error (ResolveRequest now requestID actor status).

(** * Contact requests and discovery: the theorems

    Every handler of the contact module takes the social graph along [evolves], whatever
    other requests commit between its statements; what a sync reveals and writes. *)

(** ** What the tables keep *)

Definition request_ok (r : request_row) : Prop :=
  cr_requester r ≠ cr_target r ∧
  cr_status r ∈ ["pending"; "accepted"; "rejected"; "cancelled"]%string ∧
  (cr_resolved_at r = None ↔ cr_status r = "pending"%string).
Record social_ok (d : socialdb) : Prop := {
  so_request : ∀ id r, contact_requests d !! id = Some r → request_ok r;
  (** contact_requests_pending_key *)
  so_pending : ∀ id1 id2 r1 r2, contact_requests d !! id1 = Some r1 → contact_requests d !! id2 = Some r2 →
    cr_status r1 = "pending"%string → cr_status r2 = "pending"%string →
    cr_requester r1 = cr_requester r2 → cr_target r1 = cr_target r2 → id1 = id2;
  so_contacts : ∀ o c, has_contact o c d = true → o ≠ c;
  so_blocks : ∀ o c, has_blocked o c d = true → o ≠ c;
}.
(** A row keeps its parties and its date; once resolved it is final. *)
Definition request_evolves (r r' : request_row) : Prop :=
  cr_requester r' = cr_requester r ∧ cr_target r' = cr_target r ∧ cr_created_at r' = cr_created_at r ∧
  (cr_status r ≠ "pending"%string → r' = r).
Definition evolves (d d' : socialdb) : Prop :=
  (social_ok d → social_ok d') ∧
  ∀ id r, contact_requests d !! id = Some r → ∃ r', contact_requests d' !! id = Some r' ∧ request_evolves r r'.

#[export] Instance evolves_preorder : PreOrder evolves.
Proof.
  split.
  - intros d. split; [done|]. intros id r Hr. by exists r.
  - intros d1 d2 d3 [Hok1 H1] [Hok2 H2]. split; [tauto|]. intros id r Hr.
    destruct (H1 id r Hr) as (r2 & Hr2 & Ha & Hb & Hc & Hd).
    destruct (H2 id r2 Hr2) as (r3 & Hr3 & Ha' & Hb' & Hc' & Hd').
    exists r3. split; [done|]. unfold request_evolves. rewrite Ha', Hb', Hc'.
    split_and!; [done..|]. intros Hs. specialize (Hd Hs). subst r2. by apply Hd'.
Qed.

(** A statement that leaves the requests alone and adds no loop. *)
Lemma evolves_same_requests d d' :
  contact_requests d' = contact_requests d →
  (∀ o c, has_contact o c d' = true → has_contact o c d = true ∨ o ≠ c) →
  (∀ o c, has_blocked o c d' = true → has_blocked o c d = true ∨ o ≠ c) →
  evolves d d'.
Proof.
  intros Hreq Hc Hb. split.
  - intros [H1 H2 H3 H4]. split; rewrite ?Hreq; [done..| |].
    + intros o c Ho. destruct (Hc o c Ho); [by eapply H3|done].
    + intros o c Ho. destruct (Hb o c Ho); [by eapply H4|done].
  - rewrite Hreq. intros id r Hr. by exists r.
Qed.

Lemma is_Some_insert {K V} `{Countable K} (m : gmap K V) k k' v :
  bool_decide (is_Some (<[k := v]> m !! k')) = true → bool_decide (is_Some (m !! k')) = true ∨ k' = k.
Proof.
  intros Hs%bool_decide_eq_true_1. destruct (decide (k' = k)) as [->|Hne]; [by right|].
  left. rewrite lookup_insert_ne in Hs by done. by apply bool_decide_eq_true_2.
Qed.
Lemma is_Some_delete {K V} `{Countable K} (m : gmap K V) k k' :
  bool_decide (is_Some (delete k m !! k')) = true → bool_decide (is_Some (m !! k')) = true.
Proof.
  intros Hs%bool_decide_eq_true_1. apply bool_decide_eq_true_2.
  apply lookup_delete_is_Some in Hs. tauto.
Qed.
Lemma is_Some_delete_where {K V} `{Countable K} P (m : gmap K V) k' :
  bool_decide (is_Some (delete_where P m !! k')) = true → bool_decide (is_Some (m !! k')) = true.
Proof.
  intros [v Hv]%bool_decide_eq_true_1. apply bool_decide_eq_true_2.
  apply lookup_delete_where_Some in Hv as [Hv _]. by exists v.
Qed.

Section statements.
Implicit Types (d : socialdb).

Lemma add_contact_evolves owner contact r d :
  owner ≠ contact → evolves d (with_address_book (<[(owner, contact) := r]> (address_book d)) d).
Proof.
  intros Hne. apply evolves_same_requests; [done| |by left].
  intros o c Hs. unfold has_contact in Hs. simpl in Hs.
  apply is_Some_insert in Hs as [Hs|[= -> ->]]; [by left|by right].
Qed.
Lemma upsert_contact_evolves now owner e : follows evolves (upsert_contact now owner e).
Proof.
  intros d. unfold upsert_contact. case_decide; [simpl; reflexivity|].
  destruct (address_book d !! _) as [r|]; [by apply add_contact_evolves|].
  destruct (negb _); [simpl; reflexivity|by apply add_contact_evolves].
Qed.
Lemma drop_contacts_evolves (f : gmap (uuid * uuid) contact_row → gmap (uuid * uuid) contact_row) d :
  (∀ m k, bool_decide (is_Some (f m !! k)) = true → bool_decide (is_Some (m !! k)) = true) →
  evolves d (with_address_book (f (address_book d)) d).
Proof. intros Hf. apply evolves_same_requests; [done| |by left]. intros o c Hs. left. by apply Hf in Hs. Qed.
Lemma insert_block_evolves now owner blocked reason : follows evolves (insert_block now owner blocked reason).
Proof.
  intros d. unfold insert_block. case_decide as Hne; [simpl; reflexivity|].
  assert (∀ b, evolves d (with_blocked_users (<[(owner, blocked) := b]> (blocked_users d)) d)) as Hins.
  { intros b. apply evolves_same_requests; [done|by left|].
    intros o c Hs. unfold has_blocked in Hs. simpl in Hs.
    apply is_Some_insert in Hs as [Hs|[= -> ->]]; [by left|by right]. }
  destruct (blocked_users d !! _); [apply Hins|]. destruct (negb _); [simpl; reflexivity|apply Hins].
Qed.
Lemma Remove_evolves owner contact : follows evolves (Remove owner contact).
Proof.
  intros d. unfold Remove. destruct (has_contact owner contact d); [|simpl; reflexivity].
  apply (drop_contacts_evolves (delete (owner, contact))). intros m k. apply is_Some_delete.
Qed.
Lemma SetFavorite_evolves owner contact favorite : follows evolves (SetFavorite owner contact favorite).
Proof.
  intros d. unfold SetFavorite. destruct (address_book d !! _) as [r|] eqn:Hr; [|simpl; reflexivity]. simpl.
  apply evolves_same_requests; [done| |by left].
  intros o c Hs. left. unfold has_contact in Hs. simpl in Hs.
  apply is_Some_insert in Hs as [Hs|[= -> ->]]; [done|]. apply bool_decide_eq_true_2. by exists r.
Qed.
Lemma Unblock_evolves owner blocked : follows evolves (Unblock owner blocked).
Proof.
  intros d. unfold Unblock. destruct (has_blocked owner blocked d); [|simpl; reflexivity]. simpl.
  apply evolves_same_requests; [done|by left|]. intros o c Hs. left. by apply is_Some_delete in Hs.
Qed.

(** One row of the requests is written. *)
Lemma write_request_evolves id r d :
  (social_ok d → request_ok r) →
  (∀ r0, contact_requests d !! id = Some r0 → cr_status r0 = "pending"%string ∧
     cr_requester r = cr_requester r0 ∧ cr_target r = cr_target r0 ∧ cr_created_at r = cr_created_at r0) →
  (social_ok d → cr_status r = "pending"%string → ∀ id' r', contact_requests d !! id' = Some r' →
     pending (cr_requester r) (cr_target r) id' r' = true → id' = id) →
  evolves d (with_contact_requests (<[id := r]> (contact_requests d)) d).
Proof.
  intros Hrow Hold Huniq. split.
  - intros Hok. pose proof Hok as [H1 H2 H3 H4]. split; simpl; [|..|by apply H3|by apply H4].
    + intros id' r' [[<- <-]|[_ Hr']]%lookup_insert_Some; [by apply Hrow|by eapply H1].
    + assert (∀ id' r', contact_requests d !! id' = Some r' → cr_status r = "pending"%string →
        cr_status r' = "pending"%string → cr_requester r = cr_requester r' → cr_target r = cr_target r' → id' = id) as Hu.
      { intros id' r' Hr' Hp Hp' Hq Ht. apply (Huniq Hok Hp id' r' Hr'). unfold pending. by rewrite !bool_decide_true. }
      intros id1 id2 r1 r2 [[<- <-]|[_ Hr1]]%lookup_insert_Some [[<- <-]|[_ Hr2]]%lookup_insert_Some Hp1 Hp2 Hq Ht.
      * done.
      * symmetry. by eapply Hu.
      * by eapply Hu.
      * by eapply H2.
  - intros id' r0 Hr0. simpl. destruct (decide (id' = id)) as [->|Hne].
    + exists r. split; [by rewrite lookup_insert_eq|]. destruct (Hold r0 Hr0) as (Hp & Ha & Hb & Hc).
      by split_and!.
    + exists r0. by rewrite lookup_insert_ne by done.
Qed.
Lemma pending_row q t id r :
  pending q t id r = true ↔ cr_requester r = q ∧ cr_target r = t ∧ cr_status r = "pending"%string.
Proof. unfold pending. rewrite !andb_true_iff, !bool_decide_eq_true. tauto. Qed.
(** The pending row of the pair, if there is one. *)
Lemma upsert_request_cases now new_id q t msg d :
  (∃ id r, contact_requests d !! id = Some r ∧ pending q t id r = true ∧
    let r' := MkRequestRow (cr_requester r) (cr_target r) (cr_status r) msg (cr_created_at r) (cr_resolved_at r) in
    upsert_request now new_id q t msg d = (Ok (request_of id r'), with_contact_requests (<[id := r']> (contact_requests d)) d)) ∨
  ((∀ id r, contact_requests d !! id = Some r → pending q t id r = false) ∧
   ((∃ e, upsert_request now new_id q t msg d = (Err e, d)) ∨
    contact_requests d !! new_id = None ∧ has_account q d = true ∧ has_account t d = true ∧
    let r := MkRequestRow q t "pending" msg now None in
    upsert_request now new_id q t msg d = (Ok (request_of new_id r), with_contact_requests (<[new_id := r]> (contact_requests d)) d))).
Proof.
  unfold upsert_request. destruct (rows_where (pending q t) (contact_requests d)) as [|[id r] rows] eqn:Hrows.
  - right. split.
    { intros id r Hr. destruct (pending q t id r) eqn:Hp; [|done].
      assert ((id, r) ∈ rows_where (pending q t) (contact_requests d)) as Hin by by apply elem_of_rows_where.
      rewrite Hrows in Hin. by apply not_elem_of_nil in Hin. }
    destruct (has_account q d), (has_account t d); simpl; try (left; by eexists).
    case_bool_decide as Hnew; [left; by eexists|right]. split_and!; [|done..].
    by apply eq_None_not_Some.
  - left. exists id, r. assert ((id, r) ∈ rows_where (pending q t) (contact_requests d)) as Hin by (rewrite Hrows; left).
    apply elem_of_rows_where in Hin as [Hr Hp]. done.
Qed.
Lemma upsert_request_evolves now new_id q t msg : q ≠ t → follows evolves (upsert_request now new_id q t msg).
Proof.
  intros Hne d. destruct (upsert_request_cases now new_id q t msg d)
    as [(id & r & Hr & Hp & ->)|[Hnone [[e ->]|(Hnew & _ & _ & ->)]]]; simpl.
  - apply pending_row in Hp as (Hq & Ht & Hp). apply write_request_evolves; simpl.
    + intros Hok. destruct (so_request _ Hok id r Hr) as (H1 & H2 & H3). done.
    + intros r0. rewrite Hr. by intros [= <-].
    + intros Hok _ id' r' Hr' (Hq' & Ht' & Hp')%pending_row. eapply (so_pending _ Hok); [exact Hr'|exact Hr|done..].
  - reflexivity.
  - apply write_request_evolves; simpl.
    + intros _. split_and!; simpl; [done|by left|done].
    + intros r0. by rewrite Hnew.
    + intros _ _ id' r' Hr' Hp'. by rewrite (Hnone id' r' Hr') in Hp'.
Qed.
Lemma add_if_missing_evolves now owner contact d : owner ≠ contact → evolves d (add_if_missing now owner contact d).
Proof.
  intros Hne. unfold add_if_missing. destruct (has_contact owner contact d); [reflexivity|by apply add_contact_evolves].
Qed.
End statements.

(** ** The handlers *)
Section handlers.

Lemma ReplaceContacts_evolves now owner entries : follows evolves (ReplaceContacts now owner entries).
Proof.
  unfold ReplaceContacts. follow_steps.
  - unfold prune_contacts. apply (drop_contacts_evolves (delete_where _)). intros m k. apply is_Some_delete_where.
  - apply upsert_contact_evolves.
Qed.
Lemma Add_evolves now owner contact f l : follows evolves (Add now owner contact f l).
Proof. unfold Add. follow_steps. apply upsert_contact_evolves. Qed.
Lemma Block_evolves now owner blocked reason : follows evolves (Block now owner blocked reason).
Proof.
  unfold Block. follow_steps; [apply insert_block_evolves|].
  unfold forget_each_other. apply (drop_contacts_evolves (λ m, delete (blocked, owner) (delete (owner, blocked) m))).
  intros m k Hs. by do 2 apply is_Some_delete in Hs.
Qed.
Lemma CreateRequest_evolves now new_id meanwhile q t msg :
  (∀ d, evolves d (meanwhile d)) → follows evolves (CreateRequest now new_id meanwhile q t msg).
Proof.
  intros Henv. unfold CreateRequest. destruct (decide (q = t)) as [->|Hne].
  - intros d. rewrite bind_run. unfold fail_if at 1. rewrite bool_decide_true by done. reflexivity.
  - follow_steps; [apply Henv|]. by apply upsert_request_evolves.
Qed.
Lemma may_resolve_Ok actor status r u :
  may_resolve actor status r = Ok u →
  (status = "accepted" ∨ status = "rejected")%string ∧ actor = cr_target r ∨
  status = "cancelled"%string ∧ actor = cr_requester r.
Proof.
  unfold may_resolve. case_decide as Hs.
  - case_decide; [|done]. intros _. left. split; [|done]. set_solver.
  - case_decide; [|done]. case_decide; [|done]. by right.
Qed.
(** What a successful resolution did. *)
Lemma ResolveRequest_Ok now id actor status d rq d' :
  ResolveRequest now id actor status d = (Ok rq, d') →
  ∃ r, contact_requests d !! id = Some r ∧ cr_status r = "pending"%string ∧
    may_resolve actor status r = Ok () ∧ rq = request_of id (resolve_row now status r) ∧
    let d1 := with_contact_requests (<[id := resolve_row now status r]> (contact_requests d)) d in
    d' = if decide (status = "accepted"%string)
         then add_if_missing now (cr_target r) (cr_requester r) (add_if_missing now (cr_requester r) (cr_target r) d1)
         else d1.
Proof.
  unfold ResolveRequest. intros Hrun. apply in_tx_Ok_inv in Hrun.
  rewrite bind_run in Hrun. unfold gets at 1 in Hrun. cbn beta iota in Hrun.
  rewrite bind_run in Hrun. unfold or_fail at 1 in Hrun.
  destruct (contact_requests d !! id) as [r|] eqn:Hr; [|done].
  rewrite bind_run in Hrun. unfold fail_if at 1 in Hrun. case_bool_decide as Hp; [|done]. cbn [negb] in Hrun; cbn beta iota in Hrun.
  rewrite bind_run in Hrun. destruct (may_resolve actor status r) as [[]|e] eqn:Hmay; [|done].
  rewrite bind_run in Hrun. unfold modify at 1 in Hrun. cbn beta iota in Hrun.
  rewrite bind_run in Hrun. exists r. split_and!; [done..| |]; revert Hrun; case_decide; by intros [= <- <-].
Qed.
Lemma ResolveRequest_evolves now id actor status : follows evolves (ResolveRequest now id actor status).
Proof.
  intros d. destruct (ResolveRequest now id actor status d) as [[rq|e] d'] eqn:Hrun; simpl.
  - destruct (ResolveRequest_Ok _ _ _ _ _ _ _ Hrun) as (r & Hr & Hp & Hmay & _ & Hd').
    assert (status ≠ "pending"%string) as Hns.
    { apply may_resolve_Ok in Hmay as [[[-> | ->] _]|[-> _]]; done. }
    assert (evolves d (with_contact_requests (<[id := resolve_row now status r]> (contact_requests d)) d)) as Hrow.
    { apply write_request_evolves; simpl; [| |done].
      - intros Hok. destruct (so_request _ Hok id r Hr) as (H1 & H2 & H3). split_and!; simpl; [done| |done].
        apply may_resolve_Ok in Hmay as [[[-> | ->] _]|[-> _]]; set_solver.
      - intros r0. rewrite Hr. by intros [= <-]. }
    revert Hd'. case_decide; intros ->; [|done].
    split.
    + intros Hok. destruct (so_request _ Hok id r Hr) as (Hne & _ & _).
      apply add_if_missing_evolves; [by intros ?|]. apply add_if_missing_evolves; [done|]. by apply Hrow.
    + intros id' r' Hr'. destruct (proj2 Hrow id' r' Hr') as (r2 & Hr2 & Hev). exists r2. split; [|done].
      unfold add_if_missing. by repeat case_match.
  - unfold ResolveRequest in Hrun. apply in_tx_Err in Hrun as ->. reflexivity.
Qed.
End handlers.

(** ** The service *)
Definition w_evolves (w w' : contacts_world) : Prop := evolves (cw_db w) (cw_db w').
#[export] Instance w_evolves_preorder : PreOrder w_evolves.
Proof.
  unfold w_evolves. split; [intros w; reflexivity|]. intros w1 w2 w3 H1 H2. by etransitivity.
Qed.
Lemma run_repo_evolves {A} h (m : prog socialdb contacterr A) : follows evolves m → follows w_evolves (run_repo h m).
Proof. intros Hm w. specialize (Hm (cw_db w)). unfold run_repo. by destruct (m (cw_db w)) as [[a|e] d]. Qed.
Lemma throttle_db rule subject now w : cw_db (throttle rule subject now w).2 = cw_db w.
Proof.
  unfold throttle. destruct (cw_limiter w) as [l|]; [|done].
  destruct (allow_rule rule subject now l) as [[res failed] l']. by destruct (negb failed && negb (Allowed res)).
Qed.
Lemma throttle_evolves rule subject now : follows w_evolves (throttle rule subject now).
Proof. intros w. unfold w_evolves. rewrite throttle_db. reflexivity. Qed.
Lemma add_upsert_evolves now owner u : follows w_evolves (add_upsert now owner u).
Proof.
  intros w. pose proof (Add_evolves now owner (cu_UserID u) (cu_FirstName u) (cu_LastName u) (cw_db w)) as H.
  unfold add_upsert. by destruct (Add _ _ _ _ _ _) as [[a|[]] d].
Qed.

(** What a client can ask of the service, with what others commit meanwhile. *)
Inductive contact_op :=
| OpSync (now : time) (meanwhile : socialdb → socialdb) (in_ : SyncInput)
| OpAdd (now : time) (owner contact : uuid) (firstName lastName : string)
| OpRemove (owner contact : uuid)
| OpSetFavorite (owner contact : uuid) (favorite : bool)
| OpBlock (now : time) (owner blocked : uuid) (reason : string)
| OpUnblock (owner blocked : uuid)
| OpSendRequest (now : time) (new_id : uuid) (meanwhile : socialdb → socialdb) (requester target : uuid) (message : string)
| OpResolveRequest (now : time) (requestID actor : uuid) (status : string).
Definition run_contact (o : contact_op) (w : contacts_world) : contacts_world :=
  match o with
  | OpSync now meanwhile in_ => (Sync now meanwhile in_ w).2
  | OpAdd now owner contact f l => (Service_Add now owner contact f l w).2
  | OpRemove owner contact => (Service_Remove owner contact w).2
  | OpSetFavorite owner contact favorite => (Service_SetFavorite owner contact favorite w).2
  | OpBlock now owner blocked reason => (Service_Block now owner blocked reason w).2
  | OpUnblock owner blocked => (Service_Unblock owner blocked w).2
  | OpSendRequest now new_id meanwhile q t msg => (SendRequest now new_id meanwhile q t msg w).2
  | OpResolveRequest now id actor status => (Service_ResolveRequest now id actor status w).2
  end.
(** What others commit meanwhile are such operations, too. *)
Definition op_rely (o : contact_op) : Prop :=
  match o with
  | OpSync _ meanwhile _ | OpSendRequest _ _ meanwhile _ _ _ => ∀ d, evolves d (meanwhile d)
  | _ => True
  end.
Lemma run_contact_evolves o w : op_rely o → w_evolves w (run_contact o w).
Proof.
  destruct o as [now env in_|now owner c f l|owner c|owner c fav|now owner b reason|owner b|now id env q t msg|now id a s];
    intros Hrely; simpl in *.
  - revert w. change (follows w_evolves (Sync now env in_)). unfold Sync. follow_steps.
    + apply throttle_evolves.
    + unfold read_repo. follow_steps.
    + unfold others_commit. follow_steps. apply Hrely.
    + apply run_repo_evolves, ReplaceContacts_evolves.
    + apply add_upsert_evolves.
  - revert w. change (follows w_evolves (Service_Add now owner c f l)). unfold Service_Add. follow_steps.
    apply run_repo_evolves, Add_evolves.
  - apply run_repo_evolves, Remove_evolves.
  - apply run_repo_evolves, SetFavorite_evolves.
  - revert w. change (follows w_evolves (Service_Block now owner b reason)). unfold Service_Block. follow_steps.
    + apply run_repo_evolves, Block_evolves.
    + unfold w_evolves. reflexivity.
  - apply run_repo_evolves, Unblock_evolves.
  - revert w. change (follows w_evolves (SendRequest now id env q t msg)). unfold SendRequest. follow_steps.
    + apply throttle_evolves.
    + by apply run_repo_evolves, CreateRequest_evolves.
  - apply run_repo_evolves, ResolveRequest_evolves.
Qed.

Lemma run_repo_Ok {A} h (m : prog socialdb contacterr A) w a w' :
  run_repo h m w = (Ok a, w') → ∃ d, m (cw_db w) = (Ok a, d) ∧ w' = with_cw_db d w.
Proof. unfold run_repo. destruct (m (cw_db w)) as [[b|e] d]; [|done]. intros [= -> <-]. by exists d. Qed.
Lemma throttle_Ok rule subject now w u w' : throttle rule subject now w = (Ok u, w') → cw_db w' = cw_db w.
Proof. intros Hrun. pose proof (throttle_db rule subject now w) as H. by rewrite Hrun in H. Qed.
Lemma has_contact_add_if_missing now o c o' c' d :
  has_contact o c (add_if_missing now o' c' d) = has_contact o c d || bool_decide ((o, c) = (o', c')).
Proof.
  unfold add_if_missing. destruct (has_contact o' c' d) eqn:Hhas.
  - case_bool_decide as Heq; [|by rewrite orb_false_r]. injection Heq as -> ->. by rewrite Hhas.
  - unfold has_contact. simpl. destruct (decide ((o, c) = (o', c'))) as [Heq|Hne].
    + rewrite (bool_decide_eq_true_2 (_ = _)) by done. rewrite Heq, lookup_insert_eq, orb_true_r.
      by apply bool_decide_eq_true_2.
    + rewrite lookup_insert_ne by done. by rewrite (bool_decide_eq_false_2 (_ = _)), orb_false_r.
Qed.
Lemma CreateRequest_Ok now new_id env q t msg d rq d' :
  CreateRequest now new_id env q t msg d = (Ok rq, d') →
  IsBlocked q t d = false ∧ privacy_allows t q "messages" d = true ∧
  (has_contact q t d && has_contact t q d) = false ∧ upsert_request now new_id q t msg (env d) = (Ok rq, d').
Proof.
  unfold CreateRequest. rewrite bind_run. unfold fail_if at 1. case_bool_decide; [done|]. cbn beta iota.
  rewrite bind_run. unfold gets at 1. cbn beta iota. rewrite bind_run. unfold fail_if at 1.
  destruct (IsBlocked q t d); [done|]. cbn beta iota.
  rewrite bind_run. unfold gets at 1. cbn beta iota. rewrite bind_run. unfold fail_if at 1.
  destruct (has_contact q t d && has_contact t q d); [done|]. cbn beta iota.
  rewrite bind_run. unfold gets at 1. cbn beta iota. rewrite bind_run. unfold fail_if at 1.
  destruct (privacy_allows t q "messages" d); [|done]. cbn [negb]. cbn beta iota.
  rewrite bind_run. unfold modify at 1. cbn beta iota. unfold map_err, catch.
  destruct (upsert_request now new_id q t msg (env d)) as [[a|e] d1]; [|by destruct e].
  by intros [= -> ->].
Qed.

(** C24: Contact requests have one life each.  Whatever people do with their address
    books, blocks and requests, and whatever commits between the statements of a handler,
    a person has at most one open request to another, a resolved request never changes
    again, and no row changes its parties.  Only an open request is resolved, accepted or
    rejected by the person it was sent to and cancelled by the one who sent it; no other
    request is touched, and acceptance leaves each in the other's address book.  A
    request is opened, or an open one repeated, only when neither has blocked the other,
    they are not mutual contacts yet and the target's privacy rule for messages admits
    the sender. *)
Theorem contact_request_lifecycle :
  (∀ ops w, Forall op_rely ops →
     evolves (cw_db w) (cw_db (foldl (λ w o, run_contact o w) w ops))) ∧
  (∀ now id actor status w rq w', Service_ResolveRequest now id actor status w = (Ok rq, w') →
     ∃ r, contact_requests (cw_db w) !! id = Some r ∧ cr_status r = "pending"%string ∧
       ((status = "accepted" ∨ status = "rejected")%string ∧ actor = cr_target r ∨
        status = "cancelled"%string ∧ actor = cr_requester r) ∧
       contact_requests (cw_db w') = <[id := resolve_row now status r]> (contact_requests (cw_db w)) ∧
       (status = "accepted"%string →
          has_contact (cr_requester r) (cr_target r) (cw_db w') = true ∧
          has_contact (cr_target r) (cr_requester r) (cw_db w') = true)) ∧
  (∀ now new_id env q t msg w rq w', SendRequest now new_id env q t msg w = (Ok rq, w') →
     IsBlocked q t (cw_db w) = false ∧ privacy_allows t q "messages" (cw_db w) = true ∧
     (has_contact q t (cw_db w) && has_contact t q (cw_db w)) = false ∧
     ∃ r, cr_requester r = q ∧ cr_target r = t ∧ cr_status r = "pending"%string ∧
       cr_message r = truncate (trim_space msg) maxRequestMessage ∧
       contact_requests (cw_db w') = <[rq_ID rq := r]> (contact_requests (env (cw_db w))) ∧
       (∀ id0 r0, social_ok (env (cw_db w)) → contact_requests (env (cw_db w)) !! id0 = Some r0 →
          pending q t id0 r0 = true → rq_ID rq = id0)).
Proof.
  split_and!.
  - intros ops w Hops. apply (follows_foldl w_evolves run_contact op_rely); [|done].
    intros o s. apply run_contact_evolves.
  - intros now id actor status w rq w' Hrun.
    apply run_repo_Ok in Hrun as (d & Hrun & ->).
    destruct (ResolveRequest_Ok _ _ _ _ _ _ _ Hrun) as (r & Hr & Hp & Hmay & _ & ->).
    exists r. split_and!; [done..|by eapply may_resolve_Ok| |].
    + simpl. case_decide; [|done]. unfold add_if_missing. by repeat case_match.
    + intros ->. cbn [cw_db with_cw_db]. rewrite decide_True by done. rewrite !has_contact_add_if_missing.
      rewrite !(bool_decide_eq_true_2 _ eq_refl), !orb_true_r. done.
  - intros now new_id env q t msg w rq w'. unfold SendRequest. rewrite bind_run. unfold fail_if at 1.
    case_bool_decide; [done|]. cbn beta iota. rewrite bind_run.
    destruct (throttle _ _ _ w) as [[[]|e] w1] eqn:Hth; [|done]. apply throttle_Ok in Hth.
    intros Hrun. apply run_repo_Ok in Hrun as (d & Hrun & ->). rewrite Hth in Hrun.
    apply CreateRequest_Ok in Hrun as (Hblk & Hpriv & Hmut & Hrun). split_and!; [done..|].
    destruct (upsert_request_cases now new_id q t (truncate (trim_space msg) maxRequestMessage) (env (cw_db w)))
      as [(id & r & Hr & Hp & Heq)|[Hnone [[e Heq]|(Hnew & _ & _ & Heq)]]]; rewrite Heq in Hrun; [|done|];
      injection Hrun as <- <-.
    + apply pending_row in Hp as (Hq & Ht & Hp).
      exists (MkRequestRow (cr_requester r) (cr_target r) (cr_status r) (truncate (trim_space msg) maxRequestMessage)
        (cr_created_at r) (cr_resolved_at r)). split_and!; [done..|].
      intros id0 r0 Hok Hr0 (? & ? & ?)%pending_row. eapply (so_pending _ Hok); [exact Hr|exact Hr0|congruence..].
    + exists (MkRequestRow q t "pending" (truncate (trim_space msg) maxRequestMessage) now None). split_and!; [done..|].
      intros id0 r0 Hok Hr0 Hp0. by rewrite (Hnone id0 r0 Hr0) in Hp0.
Qed.

(** Ann (1) asks Ben (2), whose messages are open; Ben accepts. *)
Definition sample_social : socialdb :=
  MkSocialDb
    (<[1%N := MkAccount (Some "ann01"%string) "+1" [1%N] "active" false false None None None]>
      (<[2%N := MkAccount (Some "ben02"%string) "+2" [2%N] "active" false false None None None]> ∅))
    ∅ ∅ ∅ ∅ {[(2%N, "messages"%string) := MkPrivacyRow "everyone" [] []]} ∅.
Definition sample_contacts : contacts_world := MkContactsWorld sample_social None (Some ∅).
Definition ask_and_accept : list contact_op :=
  [OpSendRequest 5 77 id 1 2 "hello"; OpResolveRequest 9 77 2 "accepted"].

Lemma contact_request_lifecycle_witness :
  evolves sample_social (cw_db (foldl (λ w o, run_contact o w) sample_contacts ask_and_accept)) ∧
  (∃ r, contact_requests (cw_db (run_contact (OpSendRequest 5 77 id 1 2 "hello") sample_contacts)) !! 77%N = Some r ∧
     cr_target r = 2%N) ∧
  IsBlocked 1 2 (cw_db sample_contacts) = false.
Proof.
  assert (Forall op_rely ask_and_accept) as Hrely by
    (constructor; [intros d; reflexivity|constructor; [exact I|constructor]]).
  destruct (run_is_Ok (SendRequest 5 77 id 1 2 "hello") sample_contacts) as [rq Hsend]; [by vm_compute|].
  destruct (run_is_Ok (Service_ResolveRequest 9 77 2 "accepted") (run_contact (OpSendRequest 5 77 id 1 2 "hello") sample_contacts))
    as [rq' Hres]; [by vm_compute|].
  destruct contact_request_lifecycle as (Hevo & Hresolve & Hask).
  split_and!.
  - apply (Hevo ask_and_accept sample_contacts Hrely).
  - destruct (Hresolve _ _ _ _ _ _ _ Hres) as (r & Hr & _ & [[_ Ht]|[? _]] & _); [|done]. by exists r.
  - apply (Hask _ _ _ _ _ _ _ _ _ Hsend).
Defined.

(** ** Discovery *)

(** The digests a sync looks up are digests that were sent, one for each spelling. *)
Lemma collect_digests_sound entries names digests names' digests' raw :
  collect_digests entries names digests = Some (names', digests') → raw ∈ digests' →
  raw ∈ digests ∨ ∃ e, e ∈ entries ∧ decode_digest (se_Digest e) = Some raw.
Proof.
  revert names digests. induction entries as [|e entries IH]; intros names digests.
  { intros [= _ <-]. by left. }
  cbn [collect_digests]. destruct (decode_digest (se_Digest e)) as [raw'|] eqn:Hraw; [|done]. cbn [mbind option_bind].
  destruct (names !! _) as [e0|]; intros Hc Hin; destruct (IH _ _ Hc Hin) as [Hd|(e' & He' & Hr)].
  - by left.
  - right. exists e'. split; [by right|done].
  - apply elem_of_app in Hd as [Hd|Hd%list_elem_of_singleton]; [by left|]. subst. right. exists e. split; [by left|done].
  - right. exists e'. split; [by right|done].
Qed.
Lemma collect_digests_decodes entries names digests names' digests' e :
  collect_digests entries names digests = Some (names', digests') → e ∈ entries → is_Some (decode_digest (se_Digest e)).
Proof.
  revert names digests. induction entries as [|e0 entries IH]; intros names digests; [by intros _ ?%not_elem_of_nil|].
  cbn [collect_digests]. destruct (decode_digest (se_Digest e0)) as [raw'|] eqn:Hraw; [|done]. cbn [mbind option_bind].
  intros Hc [->|Hin]%elem_of_cons; [by exists raw'|]. destruct (names !! _); by eapply IH.
Qed.
Lemma collect_digests_grow entries names digests names' digests' :
  collect_digests entries names digests = Some (names', digests') → digests ⊆ digests'.
Proof.
  revert names digests. induction entries as [|e0 entries IH]; intros names digests; [by intros [= _ <-]|].
  cbn [collect_digests]. destruct (decode_digest (se_Digest e0)) as [raw'|]; [|done]. cbn [mbind option_bind].
  destruct (names !! _); intros Hc; apply IH in Hc; [done|]. intros x Hx. apply Hc, elem_of_app. by left.
Qed.
(** The first entry with its digest, as it is compared. *)
Definition first_spelling (entries : list SyncEntry) (e : SyncEntry) : Prop :=
  ∃ before after, entries = before ++ e :: after ∧
    to_lower (se_Digest e) ∉ (λ e', to_lower (se_Digest e')) <$> before.
Lemma collect_digests_complete entries names digests names' digests' e raw :
  collect_digests entries names digests = Some (names', digests') →
  first_spelling entries e → names !! to_lower (se_Digest e) = None → decode_digest (se_Digest e) = Some raw →
  raw ∈ digests'.
Proof.
  intros Hc (before & after & -> & Hfirst) Hnone Hraw. revert names digests Hc Hnone.
  induction before as [|e0 before IH]; intros names digests.
  - simpl. rewrite Hraw. cbn [mbind option_bind]. intros Hc Hnone. rewrite Hnone in Hc.
    apply collect_digests_grow in Hc. apply Hc, elem_of_app. right. by apply list_elem_of_singleton.
  - cbn [app collect_digests]. destruct (decode_digest (se_Digest e0)) as [raw'|]; [|done]. cbn [mbind option_bind].
    rewrite fmap_cons, not_elem_of_cons in Hfirst. destruct Hfirst as [Hne Hfirst].
    destruct (names !! to_lower (se_Digest e0)); intros Hc Hnone; (eapply IH; [done|exact Hc|]); [done|].
    by rewrite lookup_insert_ne.
Qed.

(** The entries of [owner] for [ids] are there, favourites and dates as they were. *)
Definition filled (now : time) (owner : uuid) (ids : list uuid) (m m' : gmap (uuid * uuid) contact_row) : Prop :=
  ∀ o c, if decide (o = owner ∧ c ∈ ids)
    then ∃ r', m' !! (o, c) = Some r' ∧ ct_is_favorite r' = from_option ct_is_favorite false (m !! (o, c)) ∧
           ct_created_at r' = from_option ct_created_at now (m !! (o, c))
    else m' !! (o, c) = m !! (o, c).
Lemma filled_nil now owner m : filled now owner [] m m.
Proof. intros o c. rewrite decide_False; [done|]. intros [_ Hc]. by apply not_elem_of_nil in Hc. Qed.
Lemma filled_cons now owner i ids m1 m2 m3 :
  filled now owner [i] m1 m2 → filled now owner ids m2 m3 → filled now owner (i :: ids) m1 m3.
Proof.
  intros H12 H23 o c. specialize (H12 o c). specialize (H23 o c).
  destruct (decide (o = owner ∧ c ∈ i :: ids)) as [Hin|Hin].
  - destruct Hin as [-> Hin]. destruct (decide (c ∈ ids)) as [Hc|Hc].
    + rewrite decide_True in H23 by done. destruct H23 as (r3 & Hr3 & Hf & Hd). exists r3. split; [done|].
      rewrite Hf, Hd. destruct (decide (c ∈ [i])) as [Hi|Hi].
      * rewrite decide_True in H12 by done. destruct H12 as (r2 & -> & Hf2 & Hd2). simpl. by rewrite Hf2, Hd2.
      * rewrite decide_False in H12 by tauto. by rewrite H12.
    + rewrite decide_False in H23 by tauto. rewrite H23. apply elem_of_cons in Hin as [->|Hin]; [|done].
      rewrite decide_True in H12; [done|]. split; [done|by left].
  - rewrite decide_False in H23 by (intros [-> Hc]; apply Hin; split; [done|by right]).
    rewrite decide_False in H12; [by rewrite H23|].
    intros [-> Hc%list_elem_of_singleton]. apply Hin. split; [done|]. subst. by left.
Qed.
(** A sync's upsert between accounts that exist. *)
Lemma upsert_contact_fills now owner e d :
  owner ≠ cu_UserID e → has_account owner d = true → has_account (cu_UserID e) d = true →
  ∃ m', upsert_contact now owner e d = (Ok (), with_address_book m' d) ∧
    filled now owner [cu_UserID e] (address_book d) m'.
Proof.
  intros Hne Ho Hc. unfold upsert_contact. rewrite decide_False by done. rewrite Ho, Hc. cbn [andb negb].
  assert (∀ r, ct_is_favorite r = from_option ct_is_favorite false (address_book d !! (owner, cu_UserID e)) →
     ct_created_at r = from_option ct_created_at now (address_book d !! (owner, cu_UserID e)) →
     filled now owner [cu_UserID e] (address_book d) (<[(owner, cu_UserID e) := r]> (address_book d))) as Hfill.
  { intros r Hf Hd o c. case_decide as Hin.
    - destruct Hin as [-> ->%list_elem_of_singleton]. exists r. by rewrite lookup_insert_eq.
    - rewrite lookup_insert_ne; [done|]. intros [= <- <-]. apply Hin. split; [done|]. by apply list_elem_of_singleton. }
  destruct (address_book d !! (owner, cu_UserID e)) as [r|] eqn:Hr; (eexists; split; [done|]); by apply Hfill.
Qed.
Lemma upserts_fill now owner entries d :
  owner ∉ cu_UserID <$> entries → has_account owner d = true →
  (∀ e, e ∈ entries → has_account (cu_UserID e) d = true) →
  ∃ m', for_each entries (λ e, if decide (cu_UserID e = owner) then mret () else upsert_contact now owner e) d
        = (Ok (), with_address_book m' d) ∧ filled now owner (cu_UserID <$> entries) (address_book d) m'.
Proof.
  intros Hni Ho. revert d Ho. induction entries as [|e entries IH]; intros d Ho Hacc.
  { exists (address_book d). split; [by destruct d|apply filled_nil]. }
  rewrite fmap_cons, not_elem_of_cons in Hni. destruct Hni as [Hne Hni].
  destruct (upsert_contact_fills now owner e d Hne Ho (Hacc e ltac:(by left))) as (m1 & Hrun & Hf1).
  destruct (IH Hni (with_address_book m1 d) Ho) as (m2 & Hrun2 & Hf2).
  { intros e' He'. apply Hacc. by right. }
  exists m2. cbn [for_each]. rewrite bind_run, decide_False by done. rewrite Hrun. cbn beta iota. rewrite Hrun2.
  split; [done|]. by eapply filled_cons.
Qed.
Lemma adds_fill now owner entries w :
  owner ∉ cu_UserID <$> entries → has_account owner (cw_db w) = true →
  (∀ e, e ∈ entries → has_account (cu_UserID e) (cw_db w) = true) →
  ∃ m', for_each entries (add_upsert now owner) w = (Ok (), with_cw_db (with_address_book m' (cw_db w)) w) ∧
    filled now owner (cu_UserID <$> entries) (address_book (cw_db w)) m'.
Proof.
  intros Hni Ho. revert w Ho. induction entries as [|e entries IH]; intros w Ho Hacc.
  { exists (address_book (cw_db w)). split; [by destruct w as [[] ? ?]|apply filled_nil]. }
  rewrite fmap_cons, not_elem_of_cons in Hni. destruct Hni as [Hne Hni].
  destruct (upsert_contact_fills now owner e (cw_db w) Hne Ho (Hacc e ltac:(by left))) as (m1 & Hrun & Hf1).
  destruct (IH Hni (with_cw_db (with_address_book m1 (cw_db w)) w) Ho) as (m2 & Hrun2 & Hf2).
  { intros e' He'. apply Hacc. by right. }
  exists m2. cbn [for_each]. rewrite bind_run. unfold add_upsert at 1, Add, map_err, catch.
  replace (MkUpsert (cu_UserID e) (cu_FirstName e) (cu_LastName e)) with e by by destruct e.
  rewrite Hrun. cbn beta iota. rewrite Hrun2. split; [done|]. by eapply filled_cons.
Qed.
Lemma Sync_Ok now env in_ w res w' :
  Sync now env in_ w = (Ok res, w') → si_Entries in_ ≠ [] →
  ∃ names digests w1, collect_digests (si_Entries in_) ∅ [] = Some (names, digests) ∧ cw_db w1 = env (cw_db w) ∧
    res = MkSyncResult (MatchByHash digests (si_UserID in_) (cw_db w)) (Z.of_nat (length digests)) ∧
    let upserts := upsert_of names <$> MatchByHash digests (si_UserID in_) (cw_db w) in
    (if si_Replace in_ then run_repo (λ _, Internal) (ReplaceContacts now (si_UserID in_) upserts)
     else for_each upserts (add_upsert now (si_UserID in_))) w1 = (Ok (), w').
Proof.
  intros Hrun Hne. unfold Sync in Hrun. rewrite bool_decide_false in Hrun by done.
  rewrite bind_run in Hrun. unfold fail_if at 1 in Hrun. destruct (maxSyncBatch <? _); [done|]. cbn beta iota in Hrun.
  rewrite bind_run in Hrun. destruct (throttle _ _ _ w) as [[[]|e] w1] eqn:Hth; [|done]. apply throttle_Ok in Hth.
  rewrite bind_run in Hrun. unfold or_fail at 1 in Hrun.
  destruct (collect_digests (si_Entries in_) ∅ []) as [[names digests]|] eqn:Hc; [|done].
  rewrite bind_run in Hrun. unfold read_repo, gets at 1 in Hrun. cbn beta iota in Hrun. rewrite Hth in Hrun.
  rewrite bind_run in Hrun. unfold others_commit, modify at 1 in Hrun. cbn beta iota in Hrun.
  rewrite bind_run in Hrun. rewrite Hth in Hrun.
  match type of Hrun with (match ?m with _ => _ end) = _ => destruct m as [[[]|e] w2] eqn:Hw end; [|done].
  injection Hrun as <- <-. exists names, digests, (with_cw_db (env (cw_db w)) w1). split_and!; done.
Qed.
Lemma elem_of_MatchByHash digests viewer d m :
  m ∈ MatchByHash digests viewer d ↔
  ∃ u a, m = match_of d (u, a) ∧ accounts d !! u = Some a ∧ discoverable digests viewer d u a = true.
Proof.
  unfold MatchByHash. rewrite list_elem_of_fmap. split.
  - intros ([u a] & -> & [Ha Hp]%elem_of_rows_where). by exists u, a.
  - intros (u & a & -> & Ha & Hp). exists (u, a). split; [done|]. by apply elem_of_rows_where.
Qed.
Lemma discoverable_spec digests viewer d u a :
  discoverable digests viewer d u a = true ↔
  ac_phone_hash a ∈ digests ∧ live_account a = true ∧ ac_status a = "active"%string ∧ u ≠ viewer ∧
  has_blocked u viewer d = false.
Proof. unfold discoverable. rewrite !andb_true_iff, !negb_true_iff, bool_decide_eq_false, !bool_decide_eq_true. tauto. Qed.
Lemma upserts_users names (ms : list Match) : cu_UserID <$> (upsert_of names <$> ms) = ma_UserID <$> ms.
Proof. by rewrite <-list_fmap_compose. Qed.
Lemma prune_contacts_lookup owner ids d o c :
  address_book (prune_contacts owner ids d) !! (o, c) =
  if decide (o = owner ∧ c ∉ ids) then None else address_book d !! (o, c).
Proof.
  unfold prune_contacts. cbn [address_book with_address_book]. rewrite lookup_delete_where.
  destruct (address_book d !! (o, c)) as [r|]; cbn; [|by case_decide].
  repeat case_bool_decide; cbn; case_decide; naive_solver.
Qed.

(** What the writing half of a sync leaves in the address book. *)
Lemma Sync_writes now me (replace : bool) upserts w1 w' :
  me ∉ cu_UserID <$> upserts → has_account me (cw_db w1) = true →
  (∀ e, e ∈ upserts → has_account (cu_UserID e) (cw_db w1) = true) →
  (if replace then run_repo (λ _, Internal) (ReplaceContacts now me upserts)
   else for_each upserts (add_upsert now me)) w1 = (Ok (), w') →
  ∃ m' m1, cw_db w' = with_address_book m' (cw_db w1) ∧ filled now me (cu_UserID <$> upserts) m1 m' ∧
    ∀ o c, m1 !! (o, c) = if decide (o = me ∧ c ∉ cu_UserID <$> upserts ∧ replace = true) then None
                         else address_book (cw_db w1) !! (o, c).
Proof.
  intros Hni Hme Hacc Hwrite. destruct replace.
  - apply run_repo_Ok in Hwrite as (d2 & Hrep & ->).
    unfold ReplaceContacts in Hrep. apply in_tx_Ok_inv in Hrep. rewrite bind_run in Hrep. unfold modify at 1 in Hrep.
    cbn beta iota in Hrep.
    destruct (upserts_fill now me upserts (prune_contacts me (cu_UserID <$> upserts) (cw_db w1))) as (m' & Hrun' & Hf); [assumption..|].
    rewrite Hrun' in Hrep. injection Hrep as <-.
    eexists m', _. split; [done|]. split; [exact Hf|]. intros o c. rewrite prune_contacts_lookup.
    do 2 case_decide; naive_solver.
  - destruct (adds_fill now me upserts w1) as (m' & Hrun' & Hf); [done..|].
    rewrite Hrun' in Hwrite. injection Hwrite as <-.
    eexists m', _. split; [done|]. split; [exact Hf|]. intros o c. rewrite decide_False by naive_solver. done.
Qed.

(** A sync reveals the accounts whose digests were sent, and no other: a match is
    a live, active account of someone else that has not blocked the caller and whose
    phone hash is one of the digests of the batch, and every such account is matched.
    With [replace] the caller's address book is afterwards exactly the matches; without
    it the matches are added.  Either way an entry that was there keeps its favourite
    mark and its date, and nobody else's entries and no other table change. *)
Lemma Sync_reveals_and_writes now env in_ w res w' :
  Sync now env in_ w = (Ok res, w') → si_Entries in_ ≠ [] →
  has_account (si_UserID in_) (env (cw_db w)) = true →
  (∀ u, has_account u (cw_db w) = true → has_account u (env (cw_db w)) = true) →
  let d := cw_db w in let d1 := env d in let d' := cw_db w' in let me := si_UserID in_ in
  let found := ma_UserID <$> sr_Matched res in
  (∀ u, u ∈ found → ∃ a e, accounts d !! u = Some a ∧ e ∈ si_Entries in_ ∧
     decode_digest (se_Digest e) = Some (ac_phone_hash a) ∧ live_account a = true ∧ ac_status a = "active"%string ∧
     u ≠ me ∧ has_blocked u me d = false) ∧
  (∀ u a e, accounts d !! u = Some a → first_spelling (si_Entries in_) e →
     decode_digest (se_Digest e) = Some (ac_phone_hash a) → live_account a = true → ac_status a = "active"%string →
     u ≠ me → has_blocked u me d = false → u ∈ found) ∧
  (∀ o c, (o ≠ me ∨ c ∉ found ∧ si_Replace in_ = false) → address_book d' !! (o, c) = address_book d1 !! (o, c)) ∧
  (∀ c, c ∉ found → si_Replace in_ = true → address_book d' !! (me, c) = None) ∧
  (∀ c, c ∈ found → ∃ r', address_book d' !! (me, c) = Some r' ∧
     ct_is_favorite r' = from_option ct_is_favorite false (address_book d1 !! (me, c)) ∧
     ct_created_at r' = from_option ct_created_at now (address_book d1 !! (me, c))) ∧
  d' = with_address_book (address_book d') d1.
Proof.
  intros Hrun Hne Hme Hkept.
  destruct (Sync_Ok _ _ _ _ _ _ Hrun Hne) as (names & digests & w1 & Hc & Hw1 & -> & Hwrite).
  cbv zeta. cbn [sr_Matched]. set (me := si_UserID in_) in *. set (ms := MatchByHash digests me (cw_db w)) in *.
  assert (∀ u, u ∈ ma_UserID <$> ms → ∃ a, accounts (cw_db w) !! u = Some a ∧ discoverable digests me (cw_db w) u a = true) as Hfound.
  { intros u (m & -> & (u' & a & -> & Ha & Hdis)%elem_of_MatchByHash)%list_elem_of_fmap. by exists a. }
  assert (me ∉ cu_UserID <$> (upsert_of names <$> ms)) as Hni.
  { rewrite upserts_users. intros (a & _ & (_ & _ & _ & Hx & _)%discoverable_spec)%Hfound. done. }
  assert (∀ e, e ∈ upsert_of names <$> ms → has_account (cu_UserID e) (env (cw_db w)) = true) as Hacc.
  { intros e He. apply Hkept. destruct (Hfound (cu_UserID e)) as (a & Ha & _).
    { rewrite <-(upserts_users names). by apply list_elem_of_fmap_2. }
    apply bool_decide_eq_true_2. by exists a. }
  destruct (Sync_writes now me (si_Replace in_) (upsert_of names <$> ms) w1 w') as (m' & m1 & Hd' & Hfill & Hm1);
    [done|by rewrite Hw1|by rewrite Hw1|done|]. rewrite Hw1 in Hd', Hm1. rewrite upserts_users in Hfill, Hm1.
  rewrite Hd'. cbn [address_book with_address_book]. split_and!.
  - intros u (a & Ha & (Hin & ? & ? & ? & ?)%discoverable_spec)%Hfound. exists a.
    destruct (collect_digests_sound _ _ _ _ _ _ Hc Hin) as [?%not_elem_of_nil|(e & He & Hdec)]; [done|]. by exists e.
  - intros u a e Ha Hfirst Hdec Hl Hs Hu Hb.
    apply list_elem_of_fmap. exists (match_of (cw_db w) (u, a)). split; [done|]. apply elem_of_MatchByHash. exists u, a.
    split_and!; [done..|]. apply discoverable_spec. split_and!; [|done..].
    by eapply collect_digests_complete.
  - intros o c Hoc. specialize (Hfill o c).
    assert (¬ (o = me ∧ c ∈ ma_UserID <$> ms)) as Hno by (intros [-> Hin]; destruct Hoc as [Hx|[Hx _]]; by apply Hx).
    assert (¬ (o = me ∧ c ∉ ma_UserID <$> ms ∧ si_Replace in_ = true)) as Hno'.
    { intros (-> & _ & Hrep). destruct Hoc as [Hx|[_ Hx]]; [by apply Hx|congruence]. }
    rewrite decide_False in Hfill by done. by rewrite Hfill, Hm1, decide_False by done.
  - intros c Hc' Hrep. specialize (Hfill me c). rewrite decide_False in Hfill by (by intros [_ ?]).
    rewrite Hfill, Hm1. by rewrite decide_True.
  - intros c Hc'. specialize (Hfill me c). rewrite decide_True in Hfill by done.
    destruct Hfill as (r' & Hr' & Hf & Hd). exists r'.
    rewrite Hm1, decide_False in Hf, Hd by (by intros (_ & ? & _)). done.
  - done.
Qed.

(** Ann uploads Ben's number, in capitals, in place of the address book she had. *)
Definition ben_hash : list N := replicate 32 171%N.
Definition sync_social : socialdb :=
  MkSocialDb
    (<[1%N := MkAccount (Some "ann01"%string) "+1" [1%N] "active" false false None None None]>
      (<[2%N := MkAccount (Some "ben02"%string) "+2" ben_hash "active" false false None None None]>
        (<[3%N := MkAccount (Some "cia03"%string) "+3" [3%N] "active" false false None None None]> ∅)))
    ∅ {[(1%N, 3%N) := MkContactRow "Cia" "" true 4]} ∅ ∅ ∅ ∅.
Definition sync_contacts : contacts_world := MkContactsWorld sync_social None None.
Definition sync_ben : SyncInput :=
  MkSyncInput 1 [MkSyncEntry (string_of (List.concat (replicate 32 [65; 66]%N))) "Ben" ""] true.

Lemma Sync_reveals_and_writes_witness :
  ∃ res w', Sync 9 (λ d, d) sync_ben sync_contacts = (Ok res, w') ∧ ma_UserID <$> sr_Matched res = [2%N] ∧
    (∃ r', address_book (cw_db w') !! (1%N, 2%N) = Some r' ∧ ct_created_at r' = 9) ∧
    address_book (cw_db w') !! (1%N, 3%N) = None.
Proof.
  destruct (run_is_Ok (Sync 9 (λ d, d) sync_ben) sync_contacts) as [res Hrun]; [by vm_compute|].
  exists res. eexists. split; [exact Hrun|].
  assert (ma_UserID <$> sr_Matched res = [2%N]) as Hfound.
  { revert Hrun. vm_compute. by intros [= <-]. }
  destruct (Sync_reveals_and_writes 9 (λ d, d) sync_ben sync_contacts res _ Hrun)
    as (_ & _ & _ & Hgone & Hthere & _); [done|by vm_compute|done|].
  split; [done|]. split.
  - destruct (Hthere 2%N) as (r' & Hr' & _ & Hd); [rewrite Hfound; by left|]. exists r'. split; [done|].
    rewrite Hd. by vm_compute.
  - apply (Hgone 3%N); [rewrite Hfound; by intros ?%list_elem_of_singleton|done].
Defined.
