(* ===== verification/Cache.v ===== *)
(** * The Redis cache ([internal/cache/redis.go])

    String and set keys with an expiry, polymorphic in what a string value
    holds.  [now] is the server's clock, taken to agree with the caller's; a
    server that does not answer makes every command an error and changes
    nothing. *)

From stdpp Require Import base tactics list gmap strings.
From Stdlib Require Import ZArith Lia.
From S2P Require Import Prelude.

Set Default Goal Selector "!".
Open Scope Z_scope.

Section cache.
Context {B : Type}.

Inductive cvalue := CString (b : B) | CSet (m : gset string).
Record centry := MkEntry { ce_value : cvalue; ce_expires : option time }.
Record cache := MkCache { c_up : bool; c_entries : gmap string centry }.

(** What a command finds under a key: nothing once it has expired. *)
Definition entry_at (now : time) (key : string) (c : cache) : option centry :=
  e ← c_entries c !! key;
  match ce_expires e with
  | Some t => if t <=? now then None else Some e
  | None => Some e
  end.

(** [Get]: a value, [ErrNotFound], or any other error. *)
Inductive got := Found (b : B) | Missing | Failed.
Definition Get (now : time) (key : string) (c : cache) : got :=
  if negb (c_up c) then Failed
  else match entry_at now key c with
       | Some (MkEntry (CString b) _) => Found b
       | Some (MkEntry (CSet _) _) => Failed
       | None => Missing
       end.

Definition put (key : string) (e : centry) (c : cache) : cache := MkCache (c_up c) (<[key := e]> (c_entries c)).
Definition drop_key (key : string) (c : cache) : cache := MkCache (c_up c) (delete key (c_entries c)).

(** The boolean is whether the command was carried out. *)
Definition Set_ (now : time) (key : string) (b : B) (ttl : Z) (c : cache) : bool * cache :=
  if negb (c_up c) then (false, c) else (true, put key (MkEntry (CString b) (Some (now + ttl))) c).
(** [SetNX]: [None] is an error, otherwise whether it won. *)
Definition SetNX (now : time) (key : string) (b : B) (ttl : Z) (c : cache) : option bool * cache :=
  if negb (c_up c) then (None, c)
  else match entry_at now key c with
       | Some _ => (Some false, c)
       | None => (Some true, put key (MkEntry (CString b) (Some (now + ttl))) c)
       end.
Definition Delete (key : string) (c : cache) : bool * cache :=
  if negb (c_up c) then (false, c) else (true, drop_key key c).
Definition Expire (now : time) (key : string) (ttl : Z) (c : cache) : bool * cache :=
  if negb (c_up c) then (false, c)
  else (true, match entry_at now key c with
              | Some e => put key (MkEntry (ce_value e) (Some (now + ttl))) c
              | None => c
              end).

(** Sets; a set without members is no key, and a string under the key is an error. *)
Definition set_at (now : time) (key : string) (c : cache) : option (gset string) :=
  match entry_at now key c with
  | None => Some ∅
  | Some (MkEntry (CSet m) _) => Some m
  | Some (MkEntry (CString _) _) => None
  end.
Definition SAdd (now : time) (key member : string) (c : cache) : bool * cache :=
  if negb (c_up c) then (false, c)
  else match set_at now key c with
       | Some m => (true, put key (MkEntry (CSet ({[member]} ∪ m)) (entry_at now key c ≫= ce_expires)) c)
       | None => (false, c)
       end.
Definition SRem (now : time) (key member : string) (c : cache) : bool * cache :=
  if negb (c_up c) then (false, c)
  else match set_at now key c with
       | Some m =>
           (true, if bool_decide (m ∖ {[member]} = ∅) then drop_key key c
                  else put key (MkEntry (CSet (m ∖ {[member]})) (entry_at now key c ≫= ce_expires)) c)
       | None => (false, c)
       end.
Definition SMembers (now : time) (key : string) (c : cache) : option (list string) :=
  if negb (c_up c) then None else elements <$> set_at now key c.

(** [TTL]: whole seconds, rounded, or a negative number without a key or an expiry. *)
Definition TTL (now : time) (key : string) (c : cache) : option Z :=
  if negb (c_up c) then None
  else Some (match entry_at now key c with
             | None => - 2
             | Some e => match ce_expires e with
                         | None => - 1
                         | Some t => (t - now + second / 2) / second * second
                         end
             end).

Lemma entry_at_put now key e c key' :
  entry_at now key' (put key e c) =
    if decide (key' = key) then
      match ce_expires e with Some t => if t <=? now then None else Some e | None => Some e end
    else entry_at now key' c.
Proof.
  unfold entry_at, put. simpl. destruct (decide (key' = key)) as [->|].
  - by rewrite lookup_insert_eq.
  - by rewrite lookup_insert_ne.
Qed.
Lemma entry_at_drop now key c key' :
  entry_at now key' (drop_key key c) = if decide (key' = key) then None else entry_at now key' c.
Proof.
  unfold entry_at, drop_key. simpl. destruct (decide (key' = key)) as [->|].
  - by rewrite lookup_delete_eq.
  - by rewrite lookup_delete_ne.
Qed.
(** What has expired stays so. *)
Lemma entry_at_later now now' key c e :
  now ≤ now' → entry_at now' key c = Some e → entry_at now key c = Some e.
Proof.
  unfold entry_at. intros Hle. destruct (c_entries c !! key) as [e'|]; [|done]. simpl.
  destruct (ce_expires e') as [t|]; [|done].
  destruct (Z.leb_spec t now'); [done|]. by rewrite (proj2 (Z.leb_gt _ _)) by lia.
Qed.
End cache.
Arguments cvalue : clear implicits.
Arguments centry : clear implicits.
Arguments cache : clear implicits.
Arguments got : clear implicits.
Definition empty_cache {B} : cache B := MkCache true ∅.
