(* ===== verification/AuthStore.v ===== *)
(** * Identity tables and statements ([internal/auth/repository.go], [recovery.go])

    The columns of [users] the identity flow works with, one-time codes,
    sessions, devices and the sign-in log, next to the shared database (whose
    [users] holds the public columns of the same rows and [devices] the sync
    registry).  IP addresses are left out. *)

From stdpp Require Import base tactics list gmap strings sorting.
From Stdlib Require Import ZArith Lia.
From S2P Require Import Prelude GoString Httpx Permissions Store EventLog.

Set Default Goal Selector "!".
Open Scope Z_scope.

(** The identity columns of [users] *)
Record account_row := MkAccount {
  a_phone_number : string;
  a_phone_hash : list N;
  a_status : string;
  a_two_step_enabled : bool;
  a_password_hash : option string;
  a_two_step_hint : option string;
  a_token_version : Z;
  a_email : option string;
  a_recovery_email : option string;
  a_email_verified_at : option time;
  a_created_at : time;
}.
Definition with_a_status (v : string) (r : account_row) : account_row :=
  MkAccount (a_phone_number r) (a_phone_hash r) v (a_two_step_enabled r) (a_password_hash r) (a_two_step_hint r) (a_token_version r) (a_email r) (a_recovery_email r) (a_email_verified_at r) (a_created_at r).
Definition with_a_two_step_enabled (v : bool) (r : account_row) : account_row :=
  MkAccount (a_phone_number r) (a_phone_hash r) (a_status r) v (a_password_hash r) (a_two_step_hint r) (a_token_version r) (a_email r) (a_recovery_email r) (a_email_verified_at r) (a_created_at r).
Definition with_a_password_hash (v : option string) (r : account_row) : account_row :=
  MkAccount (a_phone_number r) (a_phone_hash r) (a_status r) (a_two_step_enabled r) v (a_two_step_hint r) (a_token_version r) (a_email r) (a_recovery_email r) (a_email_verified_at r) (a_created_at r).
Definition with_a_two_step_hint (v : option string) (r : account_row) : account_row :=
  MkAccount (a_phone_number r) (a_phone_hash r) (a_status r) (a_two_step_enabled r) (a_password_hash r) v (a_token_version r) (a_email r) (a_recovery_email r) (a_email_verified_at r) (a_created_at r).
Definition with_a_token_version (v : Z) (r : account_row) : account_row :=
  MkAccount (a_phone_number r) (a_phone_hash r) (a_status r) (a_two_step_enabled r) (a_password_hash r) (a_two_step_hint r) v (a_email r) (a_recovery_email r) (a_email_verified_at r) (a_created_at r).
Definition with_a_email (v : option string) (r : account_row) : account_row :=
  MkAccount (a_phone_number r) (a_phone_hash r) (a_status r) (a_two_step_enabled r) (a_password_hash r) (a_two_step_hint r) (a_token_version r) v (a_recovery_email r) (a_email_verified_at r) (a_created_at r).
Definition with_a_recovery_email (v : option string) (r : account_row) : account_row :=
  MkAccount (a_phone_number r) (a_phone_hash r) (a_status r) (a_two_step_enabled r) (a_password_hash r) (a_two_step_hint r) (a_token_version r) (a_email r) v (a_email_verified_at r) (a_created_at r).
Definition with_a_email_verified_at (v : option time) (r : account_row) : account_row :=
  MkAccount (a_phone_number r) (a_phone_hash r) (a_status r) (a_two_step_enabled r) (a_password_hash r) (a_two_step_hint r) (a_token_version r) (a_email r) (a_recovery_email r) v (a_created_at r).

(** [otp_challenges] *)
Record otp_row := MkOtp {
  o_phone_number : string;
  o_code_hash : list N;
  o_purpose : string;
  o_attempts : Z;
  o_max_attempts : Z;
  o_expires_at : time;
  o_consumed_at : option time;
  o_created_at : time;
}.
Definition with_o_attempts (v : Z) (r : otp_row) : otp_row :=
  MkOtp (o_phone_number r) (o_code_hash r) (o_purpose r) v (o_max_attempts r) (o_expires_at r) (o_consumed_at r) (o_created_at r).
Definition with_o_consumed_at (v : option time) (r : otp_row) : otp_row :=
  MkOtp (o_phone_number r) (o_code_hash r) (o_purpose r) (o_attempts r) (o_max_attempts r) (o_expires_at r) v (o_created_at r).

(** [email_challenges] *)
Record email_row := MkEmailRow {
  e_user_id : uuid;
  e_email : string;
  e_code_hash : list N;
  e_purpose : string;
  e_attempts : Z;
  e_max_attempts : Z;
  e_expires_at : time;
  e_consumed_at : option time;
  e_created_at : time;
}.
Definition with_e_attempts (v : Z) (r : email_row) : email_row :=
  MkEmailRow (e_user_id r) (e_email r) (e_code_hash r) (e_purpose r) v (e_max_attempts r) (e_expires_at r) (e_consumed_at r) (e_created_at r).
Definition with_e_consumed_at (v : option time) (r : email_row) : email_row :=
  MkEmailRow (e_user_id r) (e_email r) (e_code_hash r) (e_purpose r) (e_attempts r) (e_max_attempts r) (e_expires_at r) v (e_created_at r).

(** [sessions] *)
Record session_row := MkSession {
  se_user_id : uuid;
  se_device_id : uuid;
  se_refresh_token_hash : list N;
  se_refresh_expires_at : time;
  se_rotated_at : option time;
  se_revoked_at : option time;
  se_revoked_reason : option string;
  se_created_at : time;
  se_last_used_at : time;
  se_user_agent : string;
}.
Definition with_se_refresh_token_hash (v : list N) (r : session_row) : session_row :=
  MkSession (se_user_id r) (se_device_id r) v (se_refresh_expires_at r) (se_rotated_at r) (se_revoked_at r) (se_revoked_reason r) (se_created_at r) (se_last_used_at r) (se_user_agent r).
Definition with_se_refresh_expires_at (v : time) (r : session_row) : session_row :=
  MkSession (se_user_id r) (se_device_id r) (se_refresh_token_hash r) v (se_rotated_at r) (se_revoked_at r) (se_revoked_reason r) (se_created_at r) (se_last_used_at r) (se_user_agent r).
Definition with_se_rotated_at (v : option time) (r : session_row) : session_row :=
  MkSession (se_user_id r) (se_device_id r) (se_refresh_token_hash r) (se_refresh_expires_at r) v (se_revoked_at r) (se_revoked_reason r) (se_created_at r) (se_last_used_at r) (se_user_agent r).
Definition with_se_revoked_at (v : option time) (r : session_row) : session_row :=
  MkSession (se_user_id r) (se_device_id r) (se_refresh_token_hash r) (se_refresh_expires_at r) (se_rotated_at r) v (se_revoked_reason r) (se_created_at r) (se_last_used_at r) (se_user_agent r).
Definition with_se_revoked_reason (v : option string) (r : session_row) : session_row :=
  MkSession (se_user_id r) (se_device_id r) (se_refresh_token_hash r) (se_refresh_expires_at r) (se_rotated_at r) (se_revoked_at r) v (se_created_at r) (se_last_used_at r) (se_user_agent r).
Definition with_se_last_used_at (v : time) (r : session_row) : session_row :=
  MkSession (se_user_id r) (se_device_id r) (se_refresh_token_hash r) (se_refresh_expires_at r) (se_rotated_at r) (se_revoked_at r) (se_revoked_reason r) (se_created_at r) v (se_user_agent r).

(** The descriptive columns of [devices] *)
Record device_info_row := MkDeviceInfo {
  di_name : string;
  di_platform : string;
  di_app_version : string;
  di_last_seen_at : time;
  di_created_at : time;
}.
Definition with_di_last_seen_at (v : time) (r : device_info_row) : device_info_row :=
  MkDeviceInfo (di_name r) (di_platform r) (di_app_version r) v (di_created_at r).

(** [push_tokens] *)
Record push_row := MkPush { pt_device_id : uuid; pt_is_valid : bool }.
(** [login_history], newest first *)
Record login_row := MkLogin {
  lh_user_id : uuid;
  lh_event : string;
  lh_user_agent : string;
  lh_platform : string;
  lh_succeeded : bool;
  lh_created_at : time;
}.

(** [admin_users] holds the live grants of a role, [admin_roles] the permissions of a
    role. *)
Record authdb := MkAuthDb {
  core : db;
  accounts : gmap uuid account_row;
  privacy_settings : gmap (uuid * string) string;
  notification_settings : gset uuid;
  otp_challenges : gmap uuid otp_row;
  email_challenges : gmap uuid email_row;
  sessions : gmap uuid session_row;
  device_info : gmap uuid device_info_row;
  push_tokens : gmap uuid push_row;
  login_history : list login_row;
  admin_users : list (uuid * string);
  admin_roles : gmap string (list string);
}.
Definition with_core (v : db) (r : authdb) : authdb :=
  MkAuthDb v (accounts r) (privacy_settings r) (notification_settings r) (otp_challenges r) (email_challenges r) (sessions r) (device_info r) (push_tokens r) (login_history r) (admin_users r) (admin_roles r).
Definition with_accounts (v : gmap uuid account_row) (r : authdb) : authdb :=
  MkAuthDb (core r) v (privacy_settings r) (notification_settings r) (otp_challenges r) (email_challenges r) (sessions r) (device_info r) (push_tokens r) (login_history r) (admin_users r) (admin_roles r).
Definition with_privacy_settings (v : gmap (uuid * string) string) (r : authdb) : authdb :=
  MkAuthDb (core r) (accounts r) v (notification_settings r) (otp_challenges r) (email_challenges r) (sessions r) (device_info r) (push_tokens r) (login_history r) (admin_users r) (admin_roles r).
Definition with_notification_settings (v : gset uuid) (r : authdb) : authdb :=
  MkAuthDb (core r) (accounts r) (privacy_settings r) v (otp_challenges r) (email_challenges r) (sessions r) (device_info r) (push_tokens r) (login_history r) (admin_users r) (admin_roles r).
Definition with_otp_challenges (v : gmap uuid otp_row) (r : authdb) : authdb :=
  MkAuthDb (core r) (accounts r) (privacy_settings r) (notification_settings r) v (email_challenges r) (sessions r) (device_info r) (push_tokens r) (login_history r) (admin_users r) (admin_roles r).
Definition with_email_challenges (v : gmap uuid email_row) (r : authdb) : authdb :=
  MkAuthDb (core r) (accounts r) (privacy_settings r) (notification_settings r) (otp_challenges r) v (sessions r) (device_info r) (push_tokens r) (login_history r) (admin_users r) (admin_roles r).
Definition with_sessions (v : gmap uuid session_row) (r : authdb) : authdb :=
  MkAuthDb (core r) (accounts r) (privacy_settings r) (notification_settings r) (otp_challenges r) (email_challenges r) v (device_info r) (push_tokens r) (login_history r) (admin_users r) (admin_roles r).
Definition with_device_info (v : gmap uuid device_info_row) (r : authdb) : authdb :=
  MkAuthDb (core r) (accounts r) (privacy_settings r) (notification_settings r) (otp_challenges r) (email_challenges r) (sessions r) v (push_tokens r) (login_history r) (admin_users r) (admin_roles r).
Definition with_push_tokens (v : gmap uuid push_row) (r : authdb) : authdb :=
  MkAuthDb (core r) (accounts r) (privacy_settings r) (notification_settings r) (otp_challenges r) (email_challenges r) (sessions r) (device_info r) v (login_history r) (admin_users r) (admin_roles r).
Definition with_login_history (v : list login_row) (r : authdb) : authdb :=
  MkAuthDb (core r) (accounts r) (privacy_settings r) (notification_settings r) (otp_challenges r) (email_challenges r) (sessions r) (device_info r) (push_tokens r) v (admin_users r) (admin_roles r).
Definition empty_authdb : authdb := MkAuthDb empty_db ∅ ∅ ∅ ∅ ∅ ∅ ∅ ∅ [] [] ∅.

(** ** Go structures *)

(** [auth.User] *)
Record User := MkAuthUser {
  usID : uuid;
  usPhoneNumber : string;
  usUsername : option string;
  usStatus : string;
  usTwoStepEnabled : bool;
  usPasswordHash : option string;
  usTwoStepHint : option string;
  usTokenVersion : Z;
  usCreatedAt : time;
  usDeletedAt : option time;
}.
Definition IsActive (u : User) : bool :=
  bool_decide (usStatus u = "active"%string) && (if usDeletedAt u is None then true else false).

(** [auth.Session] *)
Record Session := MkGoSession {
  sID : uuid;
  sUserID : uuid;
  sDeviceID : uuid;
  sRefreshExpiresAt : time;
  sRevokedAt : option time;
  sCreatedAt : time;
  sLastUsedAt : time;
  sUserAgent : string;
}.
Definition session_of (id : uuid) (r : session_row) : Session :=
  MkGoSession id (se_user_id r) (se_device_id r) (se_refresh_expires_at r) (se_revoked_at r)
    (se_created_at r) (se_last_used_at r) (se_user_agent r).

(** [auth.Device] *)
Record Device := MkGoDevice {
  dvID : uuid;
  dvUserID : uuid;
  dvName : string;
  dvPlatform : string;
  dvAppVersion : string;
  dvSyncCursor : Z;
  dvLastSeenAt : time;
  dvCreatedAt : time;
}.

(** The sentinel errors of [internal/auth] and what PostgreSQL reports. *)
Inductive autherr :=
| NoRecord
| TooManyDevices
| ChallengeSpent
| AuthUnique (constraint : string).

(** ** Users *)

(** [scanUser]: the two halves of a [users] row. *)
Definition scanUser (d : authdb) (id : uuid) (a : account_row) : User :=
  let pub := users (core d) !! id in
  MkAuthUser id (a_phone_number a) (pub ≫= u_username) (a_status a) (a_two_step_enabled a)
    (a_password_hash a) (a_two_step_hint a) (a_token_version a) (a_created_at a) (pub ≫= u_deleted_at).

(** The first of the selected rows, in no particular order. *)
Definition one_row {K V} `{Countable K} (P : K → V → bool) (m : gmap K V) : option (K * V) :=
  head (rows_where P m).

Definition UserByPhone (phone : string) (d : authdb) : option User :=
  (λ r, scanUser d r.1 r.2) <$> one_row (λ _ a, bool_decide (a_phone_number a = phone)) (accounts d).
Definition UserByID (id : uuid) (d : authdb) : option User := scanUser d id <$> accounts d !! id.

Definition privacy_defaults : list (string * string) :=
  [("last_seen", "contacts"); ("profile_photo", "everyone"); ("phone_number", "nobody");
   ("read_receipts", "everyone"); ("typing", "everyone"); ("calls", "contacts");
   ("group_invites", "contacts"); ("messages", "everyone"); ("stories", "contacts")]%string.

Definition insert_user (now : time) (id : uuid) (phone : string) (phoneHash : list N) (displayName : string)
    : prog authdb autherr () := λ d,
  if bool_decide (is_Some (accounts d !! id)) then (Err (AuthUnique "users_pkey"), d)
  else if bool_decide (is_Some (one_row (λ _ a, bool_decide (a_phone_number a = phone)) (accounts d)))
  then (Err (AuthUnique "users_phone_number_key"), d)
  else (Ok (),
    with_accounts (<[id := MkAccount phone phoneHash "active" false None None 0 None None None now]> (accounts d))
      (with_core (with_users (<[id := MkUser None (Some displayName) None false None]> (users (core d))) (core d)) d)).
Definition insert_event_counter (id : uuid) : prog authdb autherr () := λ d,
  if bool_decide (is_Some (user_event_counters (core d) !! id)) then (Err (AuthUnique "user_event_counters_pkey"), d)
  else (Ok (), with_core (with_user_event_counters (<[id := 0]> (user_event_counters (core d))) (core d)) d).
Definition insert_defaults (id : uuid) (d : authdb) : authdb :=
  with_notification_settings ({[id]} ∪ notification_settings d)
    (with_privacy_settings (foldr (λ kr m, <[(id, kr.1) := kr.2]> m) (privacy_settings d) privacy_defaults) d).

Definition CreateUser (now : time) (id : uuid) (phone : string) (phoneHash : list N) (displayName : string)
    : prog authdb autherr User :=
  in_tx (
    insert_user now id phone phoneHash displayName ≫= λ _,
    insert_event_counter id ≫= λ _,
    modify (insert_defaults id) ≫= λ _,
    gets (UserByID id) ≫= λ u, or_fail u NoRecord).

Definition update_account (id : uuid) (f : account_row → account_row) (d : authdb) : authdb :=
  with_accounts (update_where (λ k _, bool_decide (k = id)) (λ _ a, f a) (accounts d)) d.

Definition SetTwoStepPassword (id : uuid) (hash hint : option string) (d : authdb) : authdb :=
  update_account id (λ a,
    with_a_password_hash hash (with_a_two_step_hint hint
      (with_a_two_step_enabled (if hash is Some _ then true else false)
        (with_a_token_version (a_token_version a + 1) a)))) d.
Definition BumpTokenVersion (id : uuid) (d : authdb) : authdb :=
  update_account id (λ a, with_a_token_version (a_token_version a + 1) a) d.

(** ** One-time codes by SMS *)

Definition CreateOTPChallenge (now : time) (id : uuid) (phone : string) (codeHash : list N) (purpose : string)
    (maxAttempts ttl : Z) : prog authdb autherr () := λ d,
  if bool_decide (is_Some (otp_challenges d !! id)) then (Err (AuthUnique "otp_challenges_pkey"), d)
  else (Ok (), with_otp_challenges
    (<[id := MkOtp phone codeHash purpose 0 maxAttempts (now + ttl) None now]> (otp_challenges d)) d).

(** The newest challenge that has not been used. *)
Definition open_otp (phone purpose : string) (_ : uuid) (o : otp_row) : bool :=
  bool_decide (o_phone_number o = phone) && bool_decide (o_purpose o = purpose)
  && (if o_consumed_at o is None then true else false).
Definition LatestOTPChallenge (phone purpose : string) (d : authdb) : option (uuid * otp_row) :=
  head (order_by_desc (λ r, o_created_at r.2) (rows_where (open_otp phone purpose) (otp_challenges d))).

(** The new count. *)
Definition BurnOTPAttempt (id : uuid) (d : authdb) : option Z * authdb :=
  ((λ o, o_attempts o + 1) <$> otp_challenges d !! id,
   with_otp_challenges (alter (λ o, with_o_attempts (o_attempts o + 1) o) id (otp_challenges d)) d).

Definition ConsumeOTPChallenge (now : time) (id : uuid) (d : authdb) : bool * authdb :=
  let open _ (o : otp_row) := if o_consumed_at o is None then true else false in
  (hits open (otp_challenges d) id,
   with_otp_challenges (update_where (λ k o, bool_decide (k = id) && open k o)
     (λ _ o, with_o_consumed_at (Some now) o) (otp_challenges d)) d).

Definition DeleteExpiredOTPChallenges (now olderThan : Z) (d : authdb) : Z * authdb :=
  let expired (_ : uuid) o := o_expires_at o <? now - olderThan in
  (count_where expired (otp_challenges d),
   with_otp_challenges (delete_where expired (otp_challenges d)) d).

(** ** Devices *)

(** A statement of the shared database. *)
Definition in_core {E E' A} (h : E → E') (m : prog db E A) : prog authdb E' A := λ d,
  match m (core d) with
  | (Ok a, c) => (Ok a, with_core c d)
  | (Err e, c) => (Err (h e), with_core c d)
  end.
Definition device_error (e : device_err) : autherr :=
  match e with ErrTooManyDevices => TooManyDevices | ErrDeviceKey => AuthUnique "devices_pkey" end.

(** [auth.UpsertDevice]: every call enrols a new device ([EventLog.UpsertDevice]). *)
Definition enrol (now : time) (id userID : uuid) (name platform appVersion : string) (maxDevices : Z)
    : prog authdb autherr uuid :=
  in_tx (
    in_core device_error (UpsertDevice id userID maxDevices) ≫= λ dev,
    modify (λ d, with_device_info (<[dev := MkDeviceInfo name platform appVersion now now]> (device_info d)) d) ≫= λ _,
    mret dev).

Definition ListDevices (userID : uuid) (d : authdb) : list Device :=
  order_by_desc dvLastSeenAt
    (omap (λ kr, (λ i, MkGoDevice kr.1 (d_user_id kr.2) (di_name i) (di_platform i) (di_app_version i)
                         (d_sync_cursor kr.2) (di_last_seen_at i) (di_created_at i)) <$> device_info d !! kr.1)
      (rows_where (live_device_of userID) (devices (core d)))).

Definition TouchDevice (now : time) (deviceID : uuid) (d : authdb) : authdb :=
  with_device_info (update_where (λ k _, bool_decide (k = deviceID)) (λ _ i, with_di_last_seen_at now i)
    (device_info d)) d.

(** [UPDATE devices SET revoked_at = now() WHERE id = ANY(ids)] and the push tokens
    of those devices. *)
Definition revoke_devices (now : time) (ids : list uuid) (d : authdb) : authdb :=
  with_push_tokens
    (update_where (λ _ p, bool_decide (pt_device_id p ∈ ids)) (λ _ p, MkPush (pt_device_id p) false) (push_tokens d))
    (with_core (with_devices
       (update_where (λ k _, bool_decide (k ∈ ids))
          (λ _ r, MkDevice (d_user_id r) (d_sync_cursor r) (Some now)) (devices (core d))) (core d)) d).

(** ** Sessions *)

Definition live_session (r : session_row) : bool := if se_revoked_at r is None then true else false.
Definition holds_hash (h : list N) (_ : uuid) (r : session_row) : bool :=
  bool_decide (se_refresh_token_hash r = h).

Definition CreateSession (now : time) (id userID deviceID : uuid) (refreshHash : list N) (expiresAt : time)
    (userAgent : string) : prog authdb autherr Session := λ d,
  if bool_decide (is_Some (sessions d !! id)) then (Err (AuthUnique "sessions_pkey"), d)
  else if bool_decide (is_Some (one_row (holds_hash refreshHash) (sessions d)))
  then (Err (AuthUnique "sessions_refresh_hash_key"), d)
  else
    let r := MkSession userID deviceID refreshHash expiresAt None None None now now userAgent in
    (Ok (session_of id r), with_sessions (<[id := r]> (sessions d)) d).

(** [RotateRefreshToken]: the row that holds the old hash, still live and not expired,
    takes the new one, unless another row has it. *)
Definition rotatable (now : time) (oldHash : list N) (k : uuid) (r : session_row) : bool :=
  holds_hash oldHash k r && live_session r && (now <? se_refresh_expires_at r).
Definition rotate_row (now : time) (newHash : list N) (expiresAt : time) (r : session_row) : session_row :=
  with_se_refresh_token_hash newHash (with_se_refresh_expires_at expiresAt
    (with_se_rotated_at (Some now) (with_se_last_used_at now r))).
Definition RotateRefreshToken (now : time) (oldHash newHash : list N) (expiresAt : time)
    : prog authdb autherr Session := λ d,
  match one_row (rotatable now oldHash) (sessions d) with
  | None => (Err NoRecord, d)
  | Some (id, r) =>
      if bool_decide (is_Some (one_row (λ k r, bool_decide (k ≠ id) && holds_hash newHash k r) (sessions d)))
      then (Err (AuthUnique "sessions_refresh_hash_key"), d)
      else
        let r' := rotate_row now newHash expiresAt r in
        (Ok (session_of id r'), with_sessions (<[id := r']> (sessions d)) d)
  end.

Definition SessionByID (id : uuid) (d : authdb) : option Session := session_of id <$> sessions d !! id.
Definition ListSessions (userID : uuid) (d : authdb) : list Session :=
  order_by_desc sLastUsedAt ((λ kr, session_of kr.1 kr.2) <$>
    rows_where (λ _ r, bool_decide (se_user_id r = userID) && live_session r) (sessions d)).

Definition revoke_row (now : time) (reason : option string) (r : session_row) : session_row :=
  with_se_revoked_at (Some now) (with_se_revoked_reason reason r).

Definition RevokeSession (now : time) (userID sessionID : uuid) (reason : string) : prog authdb autherr () :=
  in_tx (λ d,
    match sessions d !! sessionID with
    | Some r =>
        if bool_decide (se_user_id r = userID) && live_session r then
          (Ok (), revoke_devices now [se_device_id r]
             (with_sessions (<[sessionID := revoke_row now (Some reason) r]> (sessions d)) d))
        else (Err NoRecord, d)
    | None => (Err NoRecord, d)
    end).

Definition others_of (userID except : uuid) (k : uuid) (r : session_row) : bool :=
  bool_decide (se_user_id r = userID) && live_session r && bool_decide (k ≠ except).
Definition RevokeAllSessions (now : time) (userID except : uuid) (reason : string) (d : authdb)
    : list uuid * authdb :=
  let rows := rows_where (others_of userID except) (sessions d) in
  let d1 := with_sessions (update_where (others_of userID except) (λ _ r, revoke_row now (Some reason) r)
              (sessions d)) d in
  (rows.*1, if bool_decide (rows = []) then d1 else revoke_devices now (se_device_id <$> rows.*2) d1).

(** ** The sign-in log and administration roles *)

Definition RecordLogin (now : time) (userID : uuid) (event userAgent platform : string) (succeeded : bool)
    (d : authdb) : authdb :=
  with_login_history (MkLogin userID event userAgent platform succeeded now :: login_history d) d.
Definition LoginHistory (userID : uuid) (limit : Z) (d : authdb) : list login_row :=
  take (Z.to_nat limit) (order_by_desc lh_created_at
    (filter (λ l, lh_user_id l = userID) (login_history d))).

(** The roles of a user and, each once and in the order met, their permissions. *)
Definition add_new (seen : list string) (p : string) : list string :=
  if bool_decide (p ∈ seen) then seen else seen ++ [p].
Definition AdminRolesFor (userID : uuid) (d : authdb) : list string * list string :=
  let rows := omap (λ ur, if bool_decide (ur.1 = userID) then (λ ps, (ur.2, ps)) <$> admin_roles d !! ur.2
                          else None) (admin_users d) in
  (rows.*1, foldl add_new [] (List.concat rows.*2)).
