(* ===== verification/Auth.v ===== *)
(** * The identity service ([internal/auth/service.go], [token.go], [middleware.go])

    Sign-in by one-time code, refresh-token rotation, sign-out and the check
    every request makes.  The JWT library, [uuid.Parse], SHA-256 and Argon2id are
    classes; the rate limiter is an interface; a handler reads the clock once,
    and what it mints (ids, draws of [crypto/rand]) is an argument.  Metrics and
    logs are left out. *)

From stdpp Require Import base tactics list gmap strings sorting.
From Stdlib Require Import ZArith Lia.
From S2P Require Import Prelude GoString Httpx Store EventLog RateLimit Ports Phone Security Cache AuthStore.

Set Default Goal Selector "!".
Open Scope Z_scope.

(** ** Interfaces *)

(** The rules the service checks; an error makes the caller refuse. *)
Inductive auth_rule := RuleOTPPerPhone | RuleOTPPerIP | RuleLoginPerIP.
Class AuthLimiter (L : Type) := {
  auth_allow : time → auth_rule → string → L → (Result * bool) * L;
  auth_reset : auth_rule → string → L → L;
}.

(** [auth.Claims]; the instants are whole seconds, as [jwt.NewNumericDate] makes
    them. *)
Record Claims := MkClaims {
  Subject : string;
  Issuer : string;
  Audience : string;
  TokenID : string;
  IssuedAt : time;
  NotBefore : time;
  ExpiresAt : time;
  DeviceID : string;
  SessionID : string;
  TokenVersion : Z;
}.

(** [golang-jwt]: signing with HS256 under a key id, and parsing with HS256 only,
    the issuer and audience checked and an expiry required. *)
Inductive jwt_err := JwtExpired | JwtOther.
Class JWT (T : Type) := {
  jwt_sign : string → string → Claims → T;
  jwt_parse : (string → option string) → string → string → time → T → result jwt_err Claims;
  jwt_parse_signed : ∀ keys issuer audience now key kid c,
    keys kid = Some key → Issuer c = issuer → Audience c = audience →
    jwt_parse keys issuer audience now (jwt_sign key kid c) =
      if ExpiresAt c <=? now then Err JwtExpired
      else if now <? NotBefore c then Err JwtOther
      else Ok c;
}.

(** [uuid.Parse] *)
Class UuidParse := {
  uuid_Parse : string → option uuid;
  uuid_Parse_String : ∀ u, (u < 2 ^ 128)%N → uuid_Parse (uuid_String u) = Some u;
}.

(** ** Configuration and state *)

(** [config.Auth], and [EchoCodes] of [config.SMS] *)
Record AuthConfig := MkAuthConfig {
  OTPLength : Z;
  OTPTTL : Z;
  OTPMaxAttempts : Z;
  MaxDevicesPerUser : Z;
  PhoneHashPepper : list N;
  AccessTokenTTL : Z;
  RefreshTokenTTL : Z;
  cfg_Issuer : string;
  cfg_Audience : string;
  SigningKeys : gmap string string;
  ActiveKeyID : string;
  EchoCodes : bool;
}.

(** What leaves the service; [delivered] is whether the transport accepted it. *)
Inductive auth_output :=
| SmsSent (phone code : string)
| EmailSent (to subject code : string).

Record auth_world (L : Type) := MkAuthWorld {
  aw_db : authdb;
  aw_limiter : L;
  aw_cache : cache string;
  aw_out : list auth_output;
}.
Arguments MkAuthWorld {L}.
Arguments aw_db {L}.
Arguments aw_limiter {L}.
Arguments aw_cache {L}.
Arguments aw_out {L}.

(** ** Inputs and outputs *)

Record VerifyOTPInput := MkVerifyOTP {
  vi_Phone : string;
  vi_Code : string;
  vi_Password : string;
  vi_DeviceName : string;
  vi_Platform : string;
  vi_AppVersion : string;
  vi_UserAgent : string;
  vi_IP : string;
}.
Record TokenPair (T : Type) := MkTokenPair {
  AccessToken : T;
  RefreshToken : string;
  tpExpiresAt : time;
  tpUserID : uuid;
  tpDeviceID : uuid;
  tpSessionID : uuid;
  IsNewAccount : bool;
}.
Arguments MkTokenPair {T}.
Arguments AccessToken {T}.
Arguments RefreshToken {T}.
Arguments tpExpiresAt {T}.
Arguments tpUserID {T}.
Arguments tpDeviceID {T}.
Arguments tpSessionID {T}.
Arguments IsNewAccount {T}.

Record RequestOTPResult := MkRequestOTPResult {
  ExpiresIn : Z;
  ResendAfter : Z;
  CodeLength : Z;
  DebugCode : string;
}.

(** What a sign-in mints. *)
Record mints := MkMints {
  mint_user : uuid;
  mint_device : uuid;
  mint_session : uuid;
  mint_token_id : string;
  mint_refresh : nat → list N;
}.

(** [httpx.Principal] *)
Record Principal := MkPrincipal {
  prUserID : uuid;
  prDeviceID : uuid;
  prSessionID : uuid;
  prTokenID : string;
  prAdminRoles : list string;
  prPermissions : list string;
}.
Definition HasPermission (p : Principal) (permission : string) : bool :=
  existsb (λ held, bool_decide (held = "*"%string) || bool_decide (held = permission)) (prPermissions p).

Definition resendCooldown : Z := 60 * second.
Definition userCacheTTL : Z := 30 * second.

Definition normalizePlatform (platform : string) : string :=
  let p := to_lower (trim_space platform) in
  if bool_decide (p = "android"%string) then "android"
  else if bool_decide (p = "ios"%string) then "ios"
  else if bool_decide (p = "web"%string) then "web"
  else if bool_decide (p ∈ ["desktop"; "macos"; "windows"; "linux"]%string) then "desktop"
  else "unknown".

Definition otp_cooldown_key (phone : string) : string := "otp:cooldown:" +:+ phone.
Definition sessionDenyKey (id : uuid) : string := "auth:denied_session:" +:+ uuid_String id.
Definition user_state_key (id : uuid) : string := "auth:user_state:" +:+ uuid_String id.
Definition admin_roles_key (id : uuid) : string := "auth:admin_roles:" +:+ uuid_String id.

(** ** The cached account state *)
Definition boolChar (b : bool) : string := if b then "1" else "0".
Definition encodeUserState (u : User) : string :=
  usStatus u +:+ "|" +:+ Itoa (usTokenVersion u) +:+ "|" +:+
  boolChar (if usDeletedAt u is Some _ then true else false).
(** The status, the token version and whether the account is deleted. *)
Definition decodeUserState (raw : string) : option (string * Z * bool) :=
  match split 124 raw with
  | [status; version; deleted] =>
      v ← Atoi version; Some (status, v, bool_decide (deleted = "1"%string))
  | _ => None
  end.
Definition join_with (sep : string) (l : list string) : string := String.concat sep l.
Definition encodeRoles (roles permissions : list string) : string :=
  join_with "," roles +:+ "|" +:+ join_with "," permissions.
Definition splitNonEmpty (s : string) : list string :=
  if bool_decide (s = ""%string) then [] else split 44 s.
(** [strings.Cut] at the first bar. *)
Fixpoint cut_bytes (sep : N) (l : list N) : list N * list N :=
  match l with
  | [] => ([], [])
  | b :: l => if (b =? sep)%N then ([], l) else let '(x, y) := cut_bytes sep l in (b :: x, y)
  end.
Definition decodeRoles (raw : string) : list string * list string :=
  let '(r, p) := cut_bytes 124 (bytes_of raw) in
  (splitNonEmpty (string_of r), splitNonEmpty (string_of p)).

Definition internal_auth (_ : autherr) : Error := Internal.

Section service.
Context `{AuthLimiter L} `{JWT T} `{UuidParse} `{Digest} `{Argon2}.
Context (cfg : AuthConfig).

Abbreviation handler := (prog (auth_world L) Error) (only parsing).

Definition set_aw_db (d : authdb) (w : auth_world L) : auth_world L :=
  MkAuthWorld d (aw_limiter w) (aw_cache w) (aw_out w).
Definition set_aw_cache (c : cache string) (w : auth_world L) : auth_world L :=
  MkAuthWorld (aw_db w) (aw_limiter w) c (aw_out w).
Definition set_aw_limiter (l : L) (w : auth_world L) : auth_world L :=
  MkAuthWorld (aw_db w) l (aw_cache w) (aw_out w).
Definition send_out (o : auth_output) : handler () :=
  modify (λ w, MkAuthWorld (aw_db w) (aw_limiter w) (aw_cache w) (aw_out w ++ [o])).

(** A statement that can fail, with the handler's translation of its error, and
    one that cannot. *)
Definition stmt {A} (m : prog authdb autherr A) (h : autherr → Error) : handler A := λ w,
  match m (aw_db w) with
  | (Ok a, d) => (Ok a, set_aw_db d w)
  | (Err e, d) => (Err (h e), set_aw_db d w)
  end.
Definition exec {A} (f : authdb → A * authdb) : handler A := λ w,
  let '(a, d) := f (aw_db w) in (Ok a, set_aw_db d w).
Definition exec_ (f : authdb → authdb) : handler () := modify (λ w, set_aw_db (f (aw_db w)) w).
Definition read_db {A} (f : authdb → A) : handler A := gets (λ w, f (aw_db w)).
Definition on_cache {A} (f : cache string → A * cache string) : handler A := λ w,
  let '(a, c) := f (aw_cache w) in (Ok a, set_aw_cache c w).

(** ** Tokens *)

Definition truncate_second (t : time) : time := t - t mod second.

(** [IssueAccessToken] *)
Definition access_claims (now : time) (userID deviceID sessionID : uuid) (tokenVersion : Z) (tokenID : string)
    : Claims :=
  MkClaims (uuid_String userID) (cfg_Issuer cfg) (cfg_Audience cfg) tokenID
    (truncate_second now) (truncate_second now) (truncate_second (now + AccessTokenTTL cfg))
    (uuid_String deviceID) (uuid_String sessionID) tokenVersion.
Definition IssueAccessToken (now : time) (userID deviceID sessionID : uuid) (tokenVersion : Z) (tokenID : string)
    : T * time :=
  (jwt_sign (default EmptyString (SigningKeys cfg !! ActiveKeyID cfg)) (ActiveKeyID cfg)
     (access_claims now userID deviceID sessionID tokenVersion tokenID),
   now + AccessTokenTTL cfg).

Inductive token_err := ErrTokenExpired | ErrTokenInvalid.
Definition ParseAccessToken (now : time) (raw : T) : result token_err Claims :=
  match jwt_parse (λ kid, SigningKeys cfg !! kid) (cfg_Issuer cfg) (cfg_Audience cfg) now raw with
  | Err JwtExpired => Err ErrTokenExpired
  | Err JwtOther => Err ErrTokenInvalid
  | Ok c =>
      if bool_decide (Subject c = ""%string) || bool_decide (SessionID c = ""%string)
         || bool_decide (DeviceID c = ""%string) then Err ErrTokenInvalid
      else Ok c
  end.
Definition ParsedIdentity (c : Claims) : option (uuid * uuid * uuid) :=
  u ← uuid_Parse (Subject c); dev ← uuid_Parse (DeviceID c); s ← uuid_Parse (SessionID c);
  Some (u, dev, s).

Definition GenerateRefreshToken (draw : nat → list N) : string * list N :=
  let token := RandomToken 48 draw in (token, HashToken token).

(** ** Requesting a code *)

(** [checkLimit]: an error refuses as well. *)
Definition checkLimit (now : time) (rule : auth_rule) (subject : string) : handler () := λ w,
  let '((r, failed), l) := auth_allow now rule subject (aw_limiter w) in
  let w' := set_aw_limiter l w in
  if failed || negb (Allowed r) then (Err (RateLimited (Z.quot (RetryAfter r) second)), w') else (Ok (), w').

Definition invalid_phone_error : Error :=
  WithField (Validation "Phone number is not valid") "phone" "must be a valid phone number".

(** [security.NumericCode] with the draw that was accepted. *)
Definition mint_code (draw : Z) : option string :=
  if (OTPLength cfg <? 4) || (10 <? OTPLength cfg) then None else Some (code_of (OTPLength cfg) draw).

Definition RequestOTP (now : time) (draw : Z) (challenge : uuid) (delivered : bool) (phone ip : string)
    : handler RequestOTPResult :=
  or_fail (NormalizePhone phone) invalid_phone_error ≫= λ phone,
  checkLimit now RuleOTPPerPhone phone ≫= λ _,
  (if bool_decide (ip = ""%string) then mret () else checkLimit now RuleOTPPerIP ip) ≫= λ _,
  on_cache (SetNX now (otp_cooldown_key phone) "1"%string resendCooldown) ≫= λ fresh,
  on_cache (λ c, (TTL now (otp_cooldown_key phone) c, c)) ≫= λ ttl,
  let remaining := default 0 ttl in
  let remaining := if remaining <? 0 then resendCooldown else remaining in
  fail_if (bool_decide (fresh = Some false)) (RateLimited (Z.quot remaining second)) ≫= λ _,
  or_fail (mint_code draw) Internal ≫= λ code,
  stmt (CreateOTPChallenge now challenge phone (HashToken code) "login" (OTPMaxAttempts cfg) (OTPTTL cfg))
    internal_auth ≫= λ _,
  fail_if (negb delivered) (Unavailable "Could not send the verification code, please try again") ≫= λ _,
  send_out (SmsSent phone code) ≫= λ _,
  mret (MkRequestOTPResult (Z.quot (OTPTTL cfg) second) (Z.quot resendCooldown second) (OTPLength cfg)
          (if EchoCodes cfg then code else EmptyString)).

(** ** Verifying it *)

(** What the handler decides from the challenge it read, before any other
    statement. *)
Inductive otp_verdict := OtpExpired | OtpBurned | OtpWrong | OtpMatch.
Definition otp_check (now : time) (code : string) (o : otp_row) : otp_verdict :=
  if o_expires_at o <? now then OtpExpired
  else if o_max_attempts o <=? o_attempts o then OtpBurned
  else if CompareTokenHash (trim_space code) (o_code_hash o) then OtpMatch
  else OtpWrong.

Definition otp_invalid : Error := Unauthorized CodeInvalidOTP "Verification code is not valid".
Definition otp_expired : Error := Unauthorized CodeOTPExpired "Verification code has expired".
Definition otp_burned : Error :=
  Unauthorized CodeOTPAttemptsBurned "Too many incorrect attempts, request a new code".
Definition two_step_required (hint : option string) : Error :=
  WithField (newError 401 CodeTwoStepRequired "This account is protected by a password")
    "hint" (default ""%string hint).
Definition wrong_password : Error := Unauthorized CodeInvalidPassword "Password is not correct".

(** A wrong code costs an attempt and is shown to the owner, if there is one. *)
Definition report_wrong {A} (now : time) (phone : string) (i : VerifyOTPInput) (o : otp_row) (attempts : option Z)
    : handler A :=
  read_db (UserByPhone phone) ≫= λ existing,
  (match existing with
   | Some u => exec_ (RecordLogin now (usID u) "otp_failed" (vi_UserAgent i) (vi_Platform i) false)
   | None => mret ()
   end) ≫= λ _,
  if o_max_attempts o <=? default 0 attempts then fail otp_burned else fail otp_invalid.
Definition wrong_code {A} (now : time) (phone : string) (i : VerifyOTPInput) (id : uuid) (o : otp_row) : handler A :=
  exec (BurnOTPAttempt id) ≫= report_wrong now phone i o.

(** The second factor, when the account has one. *)
Definition second_factor (now : time) (i : VerifyOTPInput) (user : option User) : handler () :=
  match user with
  | Some u =>
      match usTwoStepEnabled u, usPasswordHash u with
      | true, Some stored =>
          if bool_decide (vi_Password i = ""%string) then fail (two_step_required (usTwoStepHint u))
          else match VerifyPassword (vi_Password i) stored with
               | Err _ => fail Internal
               | Ok true => mret ()
               | Ok false =>
                   exec_ (RecordLogin now (usID u) "two_step_failed" (vi_UserAgent i) (vi_Platform i) false) ≫= λ _,
                   fail wrong_password
               end
      | _, _ => mret ()
      end
  | None => mret ()
  end.

Definition inactive_error (status : string) : Error :=
  if bool_decide (status = "banned"%string)
  then Forbidden CodeAccountBanned "This account has been suspended"
  else Forbidden CodeAccountDeleted "This account is no longer available".

Definition device_cap_error (e : autherr) : Error :=
  match e with
  | TooManyDevices => Forbidden CodeTooManyDevices
      "You have reached the maximum number of active devices, remove one to continue"
  | _ => Internal
  end.

Definition issueTokens (now : time) (m : mints) (user : User) (deviceName platform appVersion userAgent : string)
    : handler (TokenPair T) :=
  stmt (enrol now (mint_device m) (usID user) deviceName (normalizePlatform platform) appVersion
          (MaxDevicesPerUser cfg)) device_cap_error ≫= λ device,
  let '(refresh, hash) := GenerateRefreshToken (mint_refresh m) in
  stmt (CreateSession now (mint_session m) (usID user) device hash (now + RefreshTokenTTL cfg) userAgent)
    internal_auth ≫= λ session,
  let '(access, expires) := IssueAccessToken now (usID user) device (sID session) (usTokenVersion user)
                              (mint_token_id m) in
  mret (MkTokenPair access refresh expires (usID user) device (sID session) false).

(** The account that signs in: the one that was read, or a new one. *)
Definition account_for (now : time) (m : mints) (phone : string) (user : option User) : handler User :=
  match user with
  | Some u => mret u
  | None => stmt (CreateUser now (mint_user m) phone (HashPhone phone (PhoneHashPepper cfg)) "") internal_auth
  end.

(** What follows once the challenge has been claimed. *)
Definition finish_signin (now : time) (m : mints) (i : VerifyOTPInput) (phone : string) (user : option User)
    : handler (TokenPair T) :=
  account_for now m phone user ≫= λ u,
  fail_if (negb (IsActive u)) (inactive_error (usStatus u)) ≫= λ _,
  issueTokens now m u (vi_DeviceName i) (vi_Platform i) (vi_AppVersion i) (vi_UserAgent i) ≫= λ pair,
  exec_ (RecordLogin now (usID u) "login" (vi_UserAgent i) (vi_Platform i) true) ≫= λ _,
  modify (λ w, set_aw_limiter (auth_reset RuleOTPPerPhone phone (aw_limiter w)) w) ≫= λ _,
  mret (MkTokenPair (AccessToken pair) (RefreshToken pair) (tpExpiresAt pair) (tpUserID pair)
          (tpDeviceID pair) (tpSessionID pair) (if user is None then true else false)).

(** Claiming the challenge: a concurrent verification loses here. *)
Definition claim_otp (now : time) (id : uuid) : handler () :=
  exec (ConsumeOTPChallenge now id) ≫= λ consumed, fail_if (negb consumed) otp_invalid.

Definition accept_otp (now : time) (m : mints) (i : VerifyOTPInput) (phone : string) (id : uuid)
    : handler (TokenPair T) :=
  read_db (UserByPhone phone) ≫= λ user,
  second_factor now i user ≫= λ _,
  claim_otp now id ≫= λ _,
  finish_signin now m i phone user.

(** What precedes reading the challenge. *)
Definition admit_otp (now : time) (i : VerifyOTPInput) : handler string :=
  or_fail (NormalizePhone (vi_Phone i)) invalid_phone_error ≫= λ phone,
  (if bool_decide (vi_IP i = ""%string) then mret () else checkLimit now RuleLoginPerIP (vi_IP i)) ≫= λ _,
  mret phone.
Definition read_otp (phone : string) : handler (uuid * otp_row) :=
  read_db (LatestOTPChallenge phone "login") ≫= λ challenge, or_fail challenge otp_invalid.

Definition VerifyOTP (now : time) (m : mints) (i : VerifyOTPInput) : handler (TokenPair T) :=
  admit_otp now i ≫= λ phone,
  read_otp phone ≫= λ '(id, o),
  match otp_check now (vi_Code i) o with
  | OtpExpired => fail otp_expired
  | OtpBurned => fail otp_burned
  | OtpWrong => wrong_code now phone i id o
  | OtpMatch => accept_otp now m i phone id
  end.

(** ** Refreshing *)

Definition rotate_error (e : autherr) : Error :=
  match e with
  | NoRecord => Unauthorized CodeSessionRevoked "This session is no longer valid, please sign in again"
  | _ => Internal
  end.

Definition Refresh (now : time) (m : mints) (refreshToken : string) : handler (TokenPair T) :=
  fail_if (bool_decide (trim_space refreshToken = ""%string))
    (Unauthorized CodeTokenInvalid "Refresh token is required") ≫= λ _,
  let '(newToken, newHash) := GenerateRefreshToken (mint_refresh m) in
  stmt (RotateRefreshToken now (HashToken refreshToken) newHash (now + RefreshTokenTTL cfg)) rotate_error ≫= λ session,
  read_db (UserByID (sUserID session)) ≫= λ user,
  or_fail user Internal ≫= λ user,
  fail_if (negb (IsActive user)) (Forbidden CodeAccountBanned "This account is not available") ≫= λ _,
  let '(access, expires) := IssueAccessToken now (usID user) (sDeviceID session) (sID session)
                              (usTokenVersion user) (mint_token_id m) in
  exec_ (TouchDevice now (sDeviceID session)) ≫= λ _,
  mret (MkTokenPair access newToken expires (usID user) (sDeviceID session) (sID session) false).

(** ** Signing out *)

(** [denySession]; a cache that does not answer is only logged. *)
Definition denySession (now : time) (sessionID : uuid) : handler () :=
  on_cache (Set_ now (sessionDenyKey sessionID) "1"%string (AccessTokenTTL cfg + minute)) ≫= λ _, mret ().

(** [Logout]: a session that is already gone is no error. *)
Definition Logout (now : time) (userID sessionID : uuid) : handler () := λ w,
  match RevokeSession now userID sessionID "user_logout" (aw_db w) with
  | (Ok _, d) => denySession now sessionID (set_aw_db d w)
  | (Err NoRecord, d) => (Ok (), set_aw_db d w)
  | (Err _, d) => (Err Internal, set_aw_db d w)
  end.

Definition session_not_found (e : autherr) : Error :=
  match e with NoRecord => NotFound CodeNotFound "Session not found" | _ => Internal end.
Definition Service_RevokeSession (now : time) (userID sessionID : uuid) : handler () :=
  stmt (RevokeSession now userID sessionID "user_revoked") session_not_found ≫= λ _,
  denySession now sessionID.

Definition RevokeOtherSessions (now : time) (userID keepSessionID : uuid) : handler Z :=
  exec (RevokeAllSessions now userID keepSessionID "user_revoked_all") ≫= λ revoked,
  for_each revoked (denySession now) ≫= λ _,
  mret (Z.of_nat (length revoked)).

(** ** The second factor *)

Definition Service_SetTwoStepPassword (userID : uuid) (salt : list N) (current new hint : string) : handler () :=
  read_db (UserByID userID) ≫= λ user,
  or_fail user Internal ≫= λ user,
  (match usTwoStepEnabled user, usPasswordHash user with
   | true, Some stored =>
       match VerifyPassword current stored with
       | Err _ => fail Internal
       | Ok true => mret ()
       | Ok false => fail (Unauthorized CodeInvalidPassword "Current password is not correct")
       end
   | _, _ => mret ()
   end) ≫= λ _,
  if bool_decide (new = ""%string) then exec_ (SetTwoStepPassword userID None None)
  else
    match HashPassword new salt with
    | Err ErrPasswordTooShort =>
        fail (WithField (Validation "Password is too short") "password" "must be at least 8 characters")
    | Err _ => fail Internal
    | Ok hash =>
        exec_ (SetTwoStepPassword userID (Some hash) (if bool_decide (hint = ""%string) then None else Some hint))
    end.

Definition Service_ListSessions (userID : uuid) : handler (list Session) := read_db (ListSessions userID).
Definition Service_ListDevices (userID : uuid) : handler (list Device) := read_db (ListDevices userID).
Definition Service_LoginHistory (userID : uuid) (limit : Z) : handler (list login_row) :=
  read_db (LoginHistory userID (if (limit <=? 0) || (100 <? limit) then 50 else limit)).

(** ** What every request passes *)

Definition session_revoked (message : string) : Error := Unauthorized CodeSessionRevoked message.

(** [userWithCache]: status, token version and whether the account is deleted.
    A request that misses the cache reads the account and stores what it read in
    two steps, and other requests may run between them: the theory of bans
    ([OperatorsTheory.gate_step]) takes the steps apart. *)
Definition cachedUser (now : time) (userID : uuid) : handler (option (string * Z * bool)) :=
  on_cache (λ c, (Get now (user_state_key userID) c, c)) ≫= λ cached,
  mret (match cached with Found raw => decodeUserState raw | _ => None end).
Definition readUser (userID : uuid) : handler User :=
  read_db (UserByID userID) ≫= λ user, or_fail user (Unauthorized CodeTokenInvalid "Account not found").
Definition storeUser (now : time) (userID : uuid) (user : User) : handler () :=
  on_cache (Set_ now (user_state_key userID) (encodeUserState user) userCacheTTL) ≫= λ _, mret ().
Definition userWithCache (now : time) (userID : uuid) : handler (string * Z * bool) :=
  cachedUser now userID ≫= λ cached,
  match cached with
  | Some st => mret st
  | None =>
      readUser userID ≫= λ user,
      storeUser now userID user ≫= λ _,
      mret (usStatus user, usTokenVersion user, if usDeletedAt user is Some _ then true else false)
  end.

Definition adminRolesWithCache (now : time) (userID : uuid) : handler (list string * list string) :=
  on_cache (λ c, (Get now (admin_roles_key userID) c, c)) ≫= λ cached,
  match cached with
  | Found raw => mret (decodeRoles raw)
  | _ =>
      read_db (AdminRolesFor userID) ≫= λ '(roles, permissions),
      on_cache (Set_ now (admin_roles_key userID) (encodeRoles roles permissions) userCacheTTL) ≫= λ _,
      mret (roles, permissions)
  end.

(** The revocation check: the denylist, or the database when the cache fails. *)
Definition check_denied (now : time) (sessionID : uuid) : handler () :=
  on_cache (λ c, (Get now (sessionDenyKey sessionID) c, c)) ≫= λ denied,
  match denied with
  | Found _ => fail (session_revoked "This session has been signed out")
  | Missing => mret ()
  | Failed =>
      read_db (SessionByID sessionID) ≫= λ session,
      if (if session is Some s then (if sRevokedAt s is None then true else false) else false)
      then mret () else fail (session_revoked "This session has been signed out")
  end.

Definition AuthenticateToken (now : time) (raw : T) : handler Principal :=
  match ParseAccessToken now raw with
  | Err ErrTokenExpired => fail (Unauthorized CodeTokenExpired "Access token has expired")
  | Err ErrTokenInvalid => fail (Unauthorized CodeTokenInvalid "Access token is not valid")
  | Ok claims =>
      or_fail (ParsedIdentity claims) (Unauthorized CodeTokenInvalid "Access token is not valid")
        ≫= λ '(userID, deviceID, sessionID),
      check_denied now sessionID ≫= λ _,
      userWithCache now userID ≫= λ '(status, version, deleted),
      fail_if (negb (version =? TokenVersion claims)) (session_revoked "Please sign in again") ≫= λ _,
      fail_if (negb (bool_decide (status = "active"%string) && negb deleted)) (inactive_error status) ≫= λ _,
      adminRolesWithCache now userID ≫= λ '(roles, permissions),
      mret (MkPrincipal userID deviceID sessionID (TokenID claims) roles permissions)
  end.

(** [InvalidateUserCache] *)
Definition InvalidateUserCache (userID : uuid) : handler () :=
  on_cache (Delete (user_state_key userID)) ≫= λ _,
  on_cache (Delete (admin_roles_key userID)) ≫= λ _, mret ().
End service.
