(* ===== verification/Recovery.v ===== *)
(** * Account recovery by email ([internal/auth/recovery.go], [MaskEmail])

    Enrolling an address, proving it with a code, and clearing a forgotten
    two-step password with a code sent to a proved address.  [strings.ToLower]
    on an address and PostgreSQL's [lower] are a class: both fold the letters of
    all scripts. *)

From stdpp Require Import base tactics list gmap strings sorting.
From Stdlib Require Import ZArith Lia.
From S2P Require Import Prelude GoString Httpx Store RateLimit Phone Security Cache AuthStore Auth.

Set Default Goal Selector "!".
Open Scope Z_scope.

Definition emailCodeTTL : Z := 15 * minute.
Definition emailCodeAttempts : Z := 5.
Definition emailResendWindow : Z := minute.

Class CaseFold := { ToLower : string → string; pg_lower : string → string }.

(** [^[^@\s]+@[^@\s.]+(\.[^@\s.]+)+$], on the runes of the address *)
Definition regexp_space (r : N) : bool := bool_decide (r ∈ [9; 10; 12; 13; 32]%N).
Definition address_part (p : list N) : bool := negb (bool_decide (p = [])) && forallb (λ r, negb (regexp_space r)) p.
Definition emailPattern (s : string) : bool :=
  match split_bytes 64 (runes s) with
  | [local; domain] =>
      address_part local &&
      (let labels := split_bytes 46 domain in (2 <=? Z.of_nat (length labels)) && forallb address_part labels)
  | _ => false
  end.

(** [MaskEmail]; [None] when there is no "@" after the first byte. *)
Fixpoint last_index (b : N) (l : list N) : option nat :=
  match l with
  | [] => None
  | x :: l => match last_index b l with
              | Some i => Some (S i)
              | None => if (x =? b)%N then Some 0%nat else None
              end
  end.
Definition MaskEmail (address : string) : string :=
  match last_index 64 (bytes_of address) with
  | None | Some O => "***"
  | Some at_ =>
      let local := take at_ (bytes_of address) in
      let domain := drop (S at_) (bytes_of address) in
      if (length local <=? 2)%nat then "**@" +:+ string_of domain
      else string_of (take 1 local ++ replicate (length local - 2) 42%N ++ drop (length local - 1) local)
           +:+ "@" +:+ string_of domain
  end%string.
Example MaskEmail_short : MaskEmail "al@sobh.ir" = "**@sobh.ir"%string.
Proof. reflexivity. Qed.
Example MaskEmail_long : MaskEmail "alice@sobh.ir" = "a***e@sobh.ir"%string.
Proof. reflexivity. Qed.

(** ** Statements *)

Definition SetPendingEmail (id : uuid) (email : string) (d : authdb) : authdb :=
  update_account id (λ a, with_a_email (Some email) (with_a_recovery_email None (with_a_email_verified_at None a))) d.

(** The address is promoted only while the account still claims it. *)
Definition ConfirmEmail (now : time) (id : uuid) (email : string) : prog authdb autherr () := λ d,
  if bool_decide (accounts d !! id ≫= a_email = Some email)
  then (Ok (), update_account id (λ a, with_a_recovery_email (Some email)
                 (with_a_email_verified_at (Some now) a)) d)
  else (Err ChallengeSpent, d).

Definition ClearEmail (id : uuid) (d : authdb) : authdb :=
  update_account id (λ a, with_a_email None (with_a_recovery_email None (with_a_email_verified_at None a))) d.

Definition deleted (d : authdb) (id : uuid) : bool :=
  match users (core d) !! id ≫= u_deleted_at with Some _ => true | None => false end.

Definition EmailFor (id : uuid) (d : authdb) : option (string * option time) :=
  a ← accounts d !! id;
  if deleted d id then None
  else Some (match a_email a with Some e => (e, a_email_verified_at a) | None => (""%string, None) end).

Definition recovers (d : authdb) `{CaseFold} (email : string) (id : uuid) (a : account_row) : bool :=
  match a_recovery_email a with
  | Some r => bool_decide (pg_lower r = pg_lower email)
              && (if a_email_verified_at a is Some _ then true else false) && negb (deleted d id)
  | None => false
  end.
Definition UserByRecoveryEmail `{CaseFold} (email : string) (d : authdb) : option User :=
  (λ r, scanUser d r.1 r.2) <$> one_row (recovers d email) (accounts d).

Definition CreateEmailChallenge (now : time) (id userID : uuid) (email : string) (codeHash : list N)
    (purpose : string) : prog authdb autherr () := λ d,
  if bool_decide (is_Some (email_challenges d !! id)) then (Err (AuthUnique "email_challenges_pkey"), d)
  else (Ok (), with_email_challenges
    (<[id := MkEmailRow userID email codeHash purpose 0 emailCodeAttempts (now + emailCodeTTL) None now]>
       (email_challenges d)) d).

Definition challenge_of (userID : uuid) (purpose : string) (_ : uuid) (e : email_row) : bool :=
  bool_decide (e_user_id e = userID) && bool_decide (e_purpose e = purpose).
Definition open_email (userID : uuid) (purpose : string) (k : uuid) (e : email_row) : bool :=
  challenge_of userID purpose k e && (if e_consumed_at e is None then true else false).
Definition LatestEmailChallenge (userID : uuid) (purpose : string) (d : authdb) : option (uuid * email_row) :=
  head (order_by_desc (λ r, e_created_at r.2) (rows_where (open_email userID purpose) (email_challenges d))).

Definition RecentEmailChallenge (now : time) (userID : uuid) (purpose : string) (window : Z) (d : authdb) : bool :=
  bool_decide (is_Some (one_row (λ k e, challenge_of userID purpose k e && (now - window <? e_created_at e))
    (email_challenges d))).

Definition BurnEmailAttempt (id : uuid) (d : authdb) : option Z * authdb :=
  ((λ e, e_attempts e + 1) <$> email_challenges d !! id,
   with_email_challenges (alter (λ e, with_e_attempts (e_attempts e + 1) e) id (email_challenges d)) d).

Definition unconsumed (_ : uuid) (e : email_row) : bool := if e_consumed_at e is None then true else false.
Definition ConsumeEmailChallenge (now : time) (id : uuid) (d : authdb) : bool * authdb :=
  (hits unconsumed (email_challenges d) id,
   with_email_challenges (update_where (λ k e, bool_decide (k = id) && unconsumed k e)
     (λ _ e, with_e_consumed_at (Some now) e) (email_challenges d)) d).

Definition DeleteExpiredEmailChallenges (now olderThan : Z) (d : authdb) : Z * authdb :=
  let expired (_ : uuid) e := e_expires_at e <? now - olderThan in
  (count_where expired (email_challenges d),
   with_email_challenges (delete_where expired (email_challenges d)) d).

(** [ResetTwoStep]; [password_salt], which nothing else writes, is left out. *)
Definition ResetTwoStep (now : time) (id : uuid) (d : authdb) : authdb :=
  with_sessions
    (update_where (λ _ r, bool_decide (se_user_id r = id) && live_session r)
       (λ _ r, with_se_revoked_at (Some now) r) (sessions d))
    (update_account id (λ a, with_a_password_hash None (with_a_two_step_enabled false
       (with_a_two_step_hint None (with_a_token_version (a_token_version a + 1) a)))) d).

(** ** Handlers *)

(** [EmailStatus] *)
Record EmailStatus := MkEmailStatus {
  es_Email : string;
  es_Verified : bool;
  es_VerifiedAt : option time;
  es_Available : bool;
}.

Section service.
Context {L : Type} `{Digest} `{CaseFold}.
(** [Deliverable(s.email)], [s.emailEcho] *)
Context (cfg : AuthConfig) (deliverable echo : bool).

Abbreviation handler := (prog (auth_world L) Error) (only parsing).

Definition Service_EmailStatus (userID : uuid) : handler EmailStatus :=
  read_db (EmailFor userID) ≫= λ st,
  or_fail st Internal ≫= λ '(email, verifiedAt),
  mret (if bool_decide (email = ""%string) then MkEmailStatus "" false verifiedAt deliverable
        else MkEmailStatus (MaskEmail email) (if verifiedAt is Some _ then true else false) verifiedAt deliverable).

Definition mail_unavailable : Error := Unavailable "Email recovery is not available on this server".
Definition code_invalid : Error := Unauthorized CodeInvalidOTP "That code is not valid".

(** [issueEmailCode] *)
Definition issueEmailCode (now : time) (draw : Z) (id : uuid) (delivered : bool) (userID : uuid)
    (email purpose subject : string) : handler string :=
  or_fail (mint_code cfg draw) Internal ≫= λ code,
  stmt (CreateEmailChallenge now id userID email (HashToken code) purpose) internal_auth ≫= λ _,
  fail_if (negb delivered) (Unavailable "Could not send the email; try again shortly") ≫= λ _,
  send_out (EmailSent email subject code) ≫= λ _,
  mret (if echo then code else EmptyString).

Definition SetRecoveryEmail (now : time) (draw : Z) (id : uuid) (delivered : bool) (userID : uuid)
    (email : string) : handler string :=
  fail_if (negb deliverable) mail_unavailable ≫= λ _,
  let email := ToLower (trim_space email) in
  fail_if (negb (emailPattern email) || (254 <? len email))
    (WithField (Validation "That is not an email address") "email" "must be a valid address") ≫= λ _,
  read_db (RecentEmailChallenge now userID "verify" emailResendWindow) ≫= λ recent,
  fail_if recent (RateLimited (Z.quot emailResendWindow second)) ≫= λ _,
  exec_ (SetPendingEmail userID email) ≫= λ _,
  issueEmailCode now draw id delivered userID email "verify" "Confirm your recovery address".

(** [consumeEmailCode], in its statements: reading the challenge, spending an
    attempt, comparing, and claiming it. *)
Definition email_read (now : time) (userID : uuid) (purpose : string) (d : authdb) : result Error (uuid * email_row) :=
  match LatestEmailChallenge userID purpose d with
  | None => Err code_invalid
  | Some (id, e) =>
      if e_expires_at e <? now then Err (Unauthorized CodeOTPExpired "That code has expired") else Ok (id, e)
  end.
Inductive email_verdict := EmailExceeded | EmailWrong | EmailMatch.
Definition email_check (code : string) (attempts : Z) (e : email_row) : email_verdict :=
  if e_max_attempts e <? attempts then EmailExceeded
  else if CompareTokenHash code (e_code_hash e) then EmailMatch else EmailWrong.

Definition consumeEmailCode (now : time) (userID : uuid) (purpose code : string) : handler email_row :=
  read_db (email_read now userID purpose) ≫= λ r,
  match r with
  | Err e => fail e
  | Ok (id, ch) =>
      exec (BurnEmailAttempt id) ≫= λ attempts,
      or_fail attempts Internal ≫= λ attempts,
      match email_check code attempts ch with
      | EmailExceeded =>
          exec (ConsumeEmailChallenge now id) ≫= λ _,
          fail (Unauthorized CodeOTPAttemptsBurned "Too many attempts; ask for a new code")
      | EmailWrong => fail code_invalid
      | EmailMatch =>
          exec (ConsumeEmailChallenge now id) ≫= λ consumed,
          fail_if (negb consumed) code_invalid ≫= λ _,
          mret ch
      end
  end.

Definition confirm_error (e : autherr) : Error :=
  match e with
  | ChallengeSpent => Conflict CodeConflict "The address on this account changed while that code was outstanding"
  | _ => Internal
  end.
Definition VerifyRecoveryEmail (now : time) (userID : uuid) (code : string) : handler () :=
  consumeEmailCode now userID "verify" code ≫= λ ch,
  stmt (ConfirmEmail now userID (e_email ch)) confirm_error.

Definition RemoveRecoveryEmail (userID : uuid) : handler () := exec_ (ClearEmail userID).

(** The empty answer is the one an unknown address gets, too. *)
Definition StartEmailRecovery (now : time) (draw : Z) (id : uuid) (delivered : bool) (email : string)
    : handler string :=
  fail_if (negb deliverable) mail_unavailable ≫= λ _,
  let email := ToLower (trim_space email) in
  read_db (UserByRecoveryEmail email) ≫= λ user,
  match user with
  | None => mret EmptyString
  | Some u =>
      read_db (RecentEmailChallenge now (usID u) "recover" emailResendWindow) ≫= λ recent : bool,
      if recent then mret EmptyString
      else issueEmailCode now draw id delivered (usID u) email "recover"
             "Reset the two-step password on your SOBH account"
  end.

Definition CompleteEmailRecovery (now : time) (email code : string) : handler () :=
  let email := ToLower (trim_space email) in
  read_db (UserByRecoveryEmail email) ≫= λ user,
  or_fail user code_invalid ≫= λ u,
  consumeEmailCode now (usID u) "recover" code ≫= λ _,
  exec_ (ResetTwoStep now (usID u)).
End service.
