(* ===== verification/AuthTheory.v ===== *)
(** * Sessions, tokens and revocation

    Every handler of the identity module keeps the session tables in order; a
    refresh token works once; a signed-out session is refused until its last
    access token has expired. *)

From stdpp Require Import base tactics list gmap strings sorting.
From Stdlib Require Import ZArith Lia.
From S2P Require Import Prelude GoString Httpx Store EventLog RateLimit Ports Phone Security Cache AuthStore Auth Recovery.

Set Default Goal Selector "!".
Open Scope Z_scope.

(** ** Statements and what they keep

    [keeps P m]: running [m] from a world with [P] ends in one with [P],
    whatever the outcome; [on_db P] is a condition on the database alone. *)
Section keeps.
Context {L : Type}.
Implicit Types (P : auth_world L → Prop) (w : auth_world L).

Definition keeps P {A} (m : prog (auth_world L) Error A) : Prop := ∀ w, P w → P (m w).2.
Definition on_db (P : authdb → Prop) : auth_world L → Prop := λ w, P (aw_db w).
Definition on_redis (P : cache string → Prop) : auth_world L → Prop := λ w, P (aw_cache w).

Lemma keeps_bind P {A B} (m : prog (auth_world L) Error A) (f : A → prog (auth_world L) Error B) :
  keeps P m → (∀ a, keeps P (f a)) → keeps P (m ≫= f).
Proof.
  intros Hm Hf w Hw. unfold mbind, prog_bind. specialize (Hm w Hw).
  destruct (m w) as [[a|e] w']; [by apply Hf|done].
Qed.
Lemma keeps_ret P {A} (a : A) : keeps P (mret a). Proof. by intros w. Qed.
Lemma keeps_fail P {A} e : keeps P (fail e : prog _ _ A). Proof. by intros w. Qed.
Lemma keeps_fail_if P b e : keeps P (fail_if b e). Proof. intros w. unfold fail_if. by destruct b. Qed.
Lemma keeps_or_fail P {A} (o : option A) e : keeps P (or_fail o e).
Proof. intros w. unfold or_fail. by destruct o. Qed.
Lemma keeps_read P {A} (f : authdb → A) : keeps P (read_db f). Proof. by intros w. Qed.
Lemma keeps_for_each P {A} (l : list A) (f : A → prog (auth_world L) Error ()) :
  (∀ a, keeps P (f a)) → keeps P (for_each l f).
Proof. intros Hf. induction l as [|a l IH]; [apply keeps_ret|]. simpl. by apply keeps_bind. Qed.

Lemma keeps_cache P {A} (f : cache string → A * cache string) :
  (∀ w, P w → P (set_aw_cache (f (aw_cache w)).2 w)) → keeps P (on_cache f).
Proof. intros Hf w Hw. unfold on_cache. specialize (Hf w Hw). by destruct (f _). Qed.
Lemma keeps_exec P {A} (f : authdb → A * authdb) :
  (∀ w, P w → P (set_aw_db (f (aw_db w)).2 w)) → keeps P (exec f).
Proof. intros Hf w Hw. unfold exec. specialize (Hf _ Hw). by destruct (f _). Qed.
Lemma keeps_exec_ P (f : authdb → authdb) : (∀ w, P w → P (set_aw_db (f (aw_db w)) w)) → keeps P (exec_ f).
Proof. intros Hf w Hw. by apply Hf. Qed.
Lemma keeps_stmt P {A} (m : prog authdb autherr A) h :
  (∀ w, P w → P (set_aw_db (m (aw_db w)).2 w)) → keeps P (stmt m h).
Proof. intros Hf w Hw. unfold stmt. specialize (Hf _ Hw). by destruct (m _) as [[]]. Qed.

Lemma keeps_db_cache (P : authdb → Prop) {A} (f : cache string → A * cache string) : keeps (on_db P) (on_cache f).
Proof. by apply keeps_cache. Qed.
Lemma keeps_db_send (P : authdb → Prop) o : keeps (on_db P) (send_out o). Proof. by intros w. Qed.
Lemma keeps_db_limiter (P : authdb → Prop) (f : L → L) : keeps (on_db P) (modify (λ w, set_aw_limiter (f (aw_limiter w)) w)).
Proof. by intros w. Qed.
Lemma keeps_redis_exec (P : cache string → Prop) {A} (f : authdb → A * authdb) : keeps (on_redis P) (exec f).
Proof. by apply keeps_exec. Qed.
Lemma keeps_redis_exec_ (P : cache string → Prop) (f : authdb → authdb) : keeps (on_redis P) (exec_ f).
Proof. by apply keeps_exec_. Qed.
Lemma keeps_redis_stmt (P : cache string → Prop) {A} (m : prog authdb autherr A) h : keeps (on_redis P) (stmt m h).
Proof. by apply keeps_stmt. Qed.
Lemma keeps_redis_send (P : cache string → Prop) o : keeps (on_redis P) (send_out o). Proof. by intros w. Qed.
Lemma keeps_redis_limiter (P : cache string → Prop) (f : L → L) : keeps (on_redis P) (modify (λ w, set_aw_limiter (f (aw_limiter w)) w)).
Proof. by intros w. Qed.
End keeps.

Create HintDb keeps.
#[export] Hint Resolve keeps_ret keeps_fail keeps_fail_if keeps_or_fail keeps_read keeps_for_each
  keeps_db_cache keeps_db_send keeps_db_limiter keeps_redis_exec keeps_redis_exec_ keeps_redis_stmt
  keeps_redis_send keeps_redis_limiter : keeps.
(** [keeps_steps] walks through a handler; what is left are its statements. *)
Ltac keeps_step :=
  match goal with
  | |- keeps _ (_ ≫= _) => apply keeps_bind; [|intros ?]
  | |- keeps _ (if ?b then _ else _) => destruct b
  | |- keeps _ (match ?x with _ => _ end) => destruct x
  | |- keeps _ (let '_ := ?x in _) => destruct x
  | |- keeps _ _ => solve [eauto with keeps]
  | |- keeps _ (exec _) => apply keeps_exec; intros ?w ?Hw
  | |- keeps _ (exec_ _) => apply keeps_exec_; intros ?w ?Hw
  | |- keeps _ (stmt _ _) => apply keeps_stmt; intros ?w ?Hw
  | |- keeps _ (on_cache _) => apply keeps_cache; intros ?w ?Hw
  end.
Ltac keeps_steps := repeat keeps_step.

(** ** The session tables *)

Record auth_ok (d : authdb) : Prop := {
  (** a refresh-token hash is in one row *)
  ok_hash : ∀ k1 k2 r1 r2, sessions d !! k1 = Some r1 → sessions d !! k2 = Some r2 →
    se_refresh_token_hash r1 = se_refresh_token_hash r2 → k1 = k2;
  (** a session's device is its user's, and is live while the session is *)
  ok_device : ∀ k r, sessions d !! k = Some r →
    ∃ dev, devices (core d) !! se_device_id r = Some dev ∧ d_user_id dev = se_user_id r ∧
      (se_revoked_at r = None → d_revoked_at dev = None);
  (** a device is one session's *)
  ok_one : ∀ k1 k2 r1 r2, sessions d !! k1 = Some r1 → sessions d !! k2 = Some r2 →
    se_device_id r1 = se_device_id r2 → k1 = k2;
}.

(** What the invariant reads. *)
Lemma auth_ok_same d d' :
  sessions d' = sessions d → devices (core d') = devices (core d) → auth_ok d → auth_ok d'.
Proof. intros Hs Hd []. by split; rewrite ?Hs, ?Hd. Qed.

Section statements.
Implicit Types (d : authdb) (r : session_row).

Lemma one_row_Some {K V} `{Countable K} (P : K → V → bool) (m : gmap K V) k v :
  one_row P m = Some (k, v) → m !! k = Some v ∧ P k v = true.
Proof. unfold one_row. intros Hh. apply elem_of_rows_where. by apply head_Some_elem_of. Qed.
Lemma one_row_None {K V} `{Countable K} (P : K → V → bool) (m : gmap K V) :
  one_row P m = None ↔ ∀ k v, m !! k = Some v → P k v = false.
Proof.
  unfold one_row. rewrite head_None. split.
  - intros Hnil k v Hk. destruct (P k v) eqn:HP; [|done].
    assert ((k, v) ∈ rows_where P m) as Hin by by apply elem_of_rows_where.
    rewrite Hnil in Hin. by apply not_elem_of_nil in Hin.
  - intros Hall. apply rows_where_nil. intros k v Hk HP. by rewrite (Hall k v Hk) in HP.
Qed.
Lemma no_row_holds h (m : gmap uuid session_row) :
  ¬ is_Some (one_row (holds_hash h) m) ↔ ∀ k r, m !! k = Some r → se_refresh_token_hash r ≠ h.
Proof.
  rewrite <-eq_None_not_Some, one_row_None. unfold holds_hash.
  split; intros Hall k r Hk; specialize (Hall k r Hk);
    [by apply bool_decide_eq_false in Hall|by apply bool_decide_eq_false].
Qed.

Lemma auth_ok_enrol now id u n p v mx d : auth_ok d → auth_ok (enrol now id u n p v mx d).2.
Proof.
  intros Hok. unfold enrol, in_tx, in_core, mbind, prog_bind, modify, mret, prog_ret, UpsertDevice.
  destruct (mx <=? _); [done|]. destruct (devices (core d) !! id) eqn:Hid; [done|]. simpl.
  destruct Hok as [Hh Hd Ho]. split; simpl; [exact Hh| |exact Ho].
  intros k r Hk. destruct (Hd k r Hk) as (dev & Hdev & Hu & Hl). exists dev.
  rewrite lookup_insert_ne by congruence. done.
Qed.

(** The enrolled device: new, live, and the user's. *)
Lemma enrol_inv now id u n p v mx d x d' :
  enrol now id u n p v mx d = (Ok x, d') →
  x = id ∧ devices (core d) !! id = None ∧ sessions d' = sessions d ∧ accounts d' = accounts d ∧
  users (core d') = users (core d) ∧
  devices (core d') = <[id := MkDevice u 0 None]> (devices (core d)) ∧
  count_where (live_device_of u) (devices (core d)) < mx.
Proof.
  unfold enrol, in_tx, in_core, mbind, prog_bind, modify, mret, prog_ret, UpsertDevice.
  destruct (Z.leb_spec mx (count_where (live_device_of u) (devices (core d)))); [done|].
  destruct (devices (core d) !! id) eqn:Hid; [done|]. simpl. by intros [= <- <-].
Qed.

Lemma CreateSession_inv now id u dev h exp ua d s d' :
  CreateSession now id u dev h exp ua d = (Ok s, d') →
  let r := MkSession u dev h exp None None None now now ua in
  s = session_of id r ∧ sessions d !! id = None ∧
  (∀ k r', sessions d !! k = Some r' → se_refresh_token_hash r' ≠ h) ∧
  d' = with_sessions (<[id := r]> (sessions d)) d.
Proof.
  unfold CreateSession. case_bool_decide as H1; [done|]. case_bool_decide as H2; [done|].
  intros [= <- <-]. rewrite no_row_holds in H2. split; [done|].
  split; [|done]. by apply eq_None_not_Some.
Qed.

Lemma auth_ok_create now id u dev h exp ua d s d' :
  auth_ok d → CreateSession now id u dev h exp ua d = (Ok s, d') →
  devices (core d) !! dev = Some (MkDevice u 0 None) →
  (∀ k r, sessions d !! k = Some r → se_device_id r ≠ dev) → auth_ok d'.
Proof.
  intros [Hh Hd Ho] (-> & Hid & Hhash & ->)%CreateSession_inv Hdev Hnew. split; simpl.
  - intros k1 k2 r1 r2 [[<- <-]|[Hn1 H1]]%lookup_insert_Some [[<- <-]|[Hn2 H2]]%lookup_insert_Some Heq.
    + done.
    + by destruct (Hhash _ _ H2 (eq_sym Heq)).
    + by destruct (Hhash _ _ H1 Heq).
    + by eapply Hh.
  - intros k r [[<- <-]|[Hn Hk]]%lookup_insert_Some; [|by eapply Hd]. by eexists.
  - intros k1 k2 r1 r2 [[<- <-]|[Hn1 H1]]%lookup_insert_Some [[<- <-]|[Hn2 H2]]%lookup_insert_Some Heq.
    + done.
    + by destruct (Hnew _ _ H2 (eq_sym Heq)).
    + by destruct (Hnew _ _ H1 Heq).
    + by eapply Ho.
Qed.

Lemma CreateSession_Err now id u dev h exp ua d e d' :
  CreateSession now id u dev h exp ua d = (Err e, d') → d' = d.
Proof. unfold CreateSession. repeat (case_bool_decide; [by intros [= _ <-]|]). done. Qed.

(** Rotation *)
Lemma Rotate_inv now old new exp d s d' :
  RotateRefreshToken now old new exp d = (Ok s, d') →
  ∃ k r, sessions d !! k = Some r ∧ se_refresh_token_hash r = old ∧ live_session r = true ∧
    now < se_refresh_expires_at r ∧
    (∀ k' r', k' ≠ k → sessions d !! k' = Some r' → se_refresh_token_hash r' ≠ new) ∧
    s = session_of k (rotate_row now new exp r) ∧
    d' = with_sessions (<[k := rotate_row now new exp r]> (sessions d)) d.
Proof.
  unfold RotateRefreshToken. destruct (one_row _ _) as [[k r]|] eqn:Hrow; [|done].
  apply one_row_Some in Hrow as [Hk Hp]. unfold rotatable, holds_hash in Hp.
  apply andb_prop in Hp as [[Hh%bool_decide_eq_true_1 Hl]%andb_prop Hexp%Z.ltb_lt].
  case_bool_decide as Hother; [done|]. intros [= <- <-]. exists k, r. split_and!; try done.
  intros k' r' Hne Hk' Heq. apply Hother. destruct (one_row _ _) eqn:Ho; [by eexists|].
  rewrite one_row_None in Ho. specialize (Ho _ _ Hk'). unfold holds_hash in Ho.
  by rewrite !bool_decide_true in Ho.
Qed.
Lemma Rotate_Err now old new exp d e d' : RotateRefreshToken now old new exp d = (Err e, d') → d' = d.
Proof.
  unfold RotateRefreshToken. destruct (one_row _ _) as [[k r]|]; [|by intros [= _ <-]].
  case_bool_decide; [by intros [= _ <-]|done].
Qed.

Lemma auth_ok_rotate now old new exp d : auth_ok d → auth_ok (RotateRefreshToken now old new exp d).2.
Proof.
  intros Hok. destruct (RotateRefreshToken _ _ _ _ d) as [[s|e] d'] eqn:Hrun.
  2: { by rewrite (Rotate_Err _ _ _ _ _ _ _ Hrun). }
  apply Rotate_inv in Hrun as (k & r & Hk & _ & Hl & _ & Hnew & _ & ->). destruct Hok as [Hh Hd Ho].
  assert (∀ k' r', <[k := rotate_row now new exp r]> (sessions d) !! k' = Some r' →
    ∃ r0, sessions d !! k' = Some r0 ∧ se_device_id r' = se_device_id r0 ∧ se_user_id r' = se_user_id r0 ∧
      se_revoked_at r' = se_revoked_at r0) as Hold.
  { intros k' r' [[<- <-]|[Hne Hk']]%lookup_insert_Some; eauto. }
  split; simpl.
  - intros k1 k2 r1 r2 [[<- <-]|[Hn1 H1]]%lookup_insert_Some [[<- <-]|[Hn2 H2]]%lookup_insert_Some Heq.
    + done.
    + by destruct (Hnew _ _ (not_eq_sym Hn2) H2 (eq_sym Heq)).
    + by destruct (Hnew _ _ (not_eq_sym Hn1) H1 Heq).
    + by eapply Hh.
  - intros k' r' (r0 & Hk0 & Hdev & Hu & Hrev)%Hold. destruct (Hd _ _ Hk0) as (dev & ? & ? & ?).
    exists dev. by rewrite Hdev, Hu, Hrev.
  - intros k1 k2 r1 r2 (r1' & H1 & Hd1 & _)%Hold (r2' & H2 & Hd2 & _)%Hold Heq. eapply Ho; [done|done|congruence].
Qed.

(** Revocation: any statement that revokes rows, with or without their devices. *)
Lemma auth_ok_revoke (P : uuid → session_row → bool) (f : session_row → session_row) now (ids : list uuid) d d' :
  (∀ r, se_refresh_token_hash (f r) = se_refresh_token_hash r ∧ se_device_id (f r) = se_device_id r ∧
        se_user_id (f r) = se_user_id r ∧ se_revoked_at (f r) ≠ None) →
  sessions d' = update_where P (λ _, f) (sessions d) →
  devices (core d') = update_where (λ k _, bool_decide (k ∈ ids))
    (λ _ dv, MkDevice (d_user_id dv) (d_sync_cursor dv) (Some now)) (devices (core d)) →
  (∀ k r, sessions d !! k = Some r → se_device_id r ∈ ids → se_revoked_at r = None → P k r = true) →
  auth_ok d → auth_ok d'.
Proof.
  intros Hf Hs Hdv Hids [Hh Hd Ho].
  assert (∀ k r', sessions d' !! k = Some r' → ∃ r, sessions d !! k = Some r ∧
    se_refresh_token_hash r' = se_refresh_token_hash r ∧ se_device_id r' = se_device_id r ∧
    se_user_id r' = se_user_id r ∧ (se_revoked_at r' = None → se_revoked_at r = None ∧ P k r = false)) as Hold.
  { intros k r'. rewrite Hs, lookup_update_where. intros (r & Hk & ->)%fmap_Some. exists r. split; [done|].
    destruct (Hf r) as (H1 & H2 & H3 & H4). destruct (P k r) eqn:HP; [|done]. split_and!; [done..|]. done. }
  split.
  - intros k1 k2 r1 r2 (r1' & H1 & Hh1 & _)%Hold (r2' & H2 & Hh2 & _)%Hold Heq. eapply Hh; [done|done|congruence].
  - intros k r' (r & Hk & _ & Hdev & Hu & Hlive)%Hold. destruct (Hd k r Hk) as (dev & Hdevk & Hdu & Hdl).
    rewrite Hdv, lookup_update_where, Hdev, Hdevk. simpl. eexists. split; [reflexivity|].
    destruct (bool_decide (se_device_id r ∈ ids)) eqn:Hin; simpl; (split; [congruence|]).
    + intros [Hn HP]%Hlive. rewrite (Hids k r Hk) in HP; [done|by apply bool_decide_eq_true_1 in Hin|done].
    + intros [Hn _]%Hlive. by apply Hdl.
  - intros k1 k2 r1 r2 (r1' & H1 & _ & Hd1 & _)%Hold (r2' & H2 & _ & Hd2 & _)%Hold Heq.
    eapply Ho; [done|done|congruence].
Qed.

Lemma revoke_none now (m : gmap uuid device_row) :
  m = update_where (λ k _, bool_decide (k ∈ ([] : list uuid)))
    (λ _ dv, MkDevice (d_user_id dv) (d_sync_cursor dv) (Some now)) m.
Proof.
  symmetry. apply update_where_id. intros k v _ Hin%bool_decide_eq_true_1. by apply not_elem_of_nil in Hin.
Qed.

Lemma insert_as_update {K V} `{Countable K} (f : V → V) (m : gmap K V) k v :
  m !! k = Some v → <[k := f v]> m = update_where (λ k' _, bool_decide (k' = k)) (λ _, f) m.
Proof.
  intros Hk. apply map_eq. intros k'. rewrite lookup_update_where. destruct (decide (k' = k)) as [->|Hne].
  - by rewrite lookup_insert_eq, Hk, bool_decide_true.
  - rewrite lookup_insert_ne by done. rewrite bool_decide_false by done. by destruct (m !! k').
Qed.

Lemma auth_ok_RevokeSession now u k reason d : auth_ok d → auth_ok (RevokeSession now u k reason d).2.
Proof.
  intros Hok. unfold RevokeSession, in_tx. destruct (sessions d !! k) as [r|] eqn:Hk; [|done].
  destruct (_ && _); [|done]. simpl.
  eapply (auth_ok_revoke (λ k' _, bool_decide (k' = k)) (revoke_row now (Some reason)) now [se_device_id r] d);
    [done|by apply (insert_as_update (revoke_row now (Some reason)))|done| |done].
  intros k' r' Hk' Hin%list_elem_of_singleton _. apply bool_decide_eq_true_2.
  by eapply (ok_one _ Hok).
Qed.

Lemma auth_ok_RevokeAll now u except reason d : auth_ok d → auth_ok (RevokeAllSessions now u except reason d).2.
Proof.
  intros Hok. unfold RevokeAllSessions. simpl.
  set (rows := rows_where _ _).
  assert (∀ k r, sessions d !! k = Some r → se_device_id r ∈ se_device_id <$> rows.*2 →
    others_of u except k r = true) as Hall.
  { intros k r Hk. rewrite <-list_fmap_compose. intros ([k' r'] & Hdev & Hin)%list_elem_of_fmap.
    apply elem_of_rows_where in Hin as [Hk' HP].
    assert (k = k') as <- by (by eapply (ok_one _ Hok)). congruence. }
  case_bool_decide as Hnil.
  - eapply (auth_ok_revoke (others_of u except) (revoke_row now (Some reason)) now [] d); [done|reflexivity|apply revoke_none| |done].
    intros k r _ Hin. by apply not_elem_of_nil in Hin.
  - eapply (auth_ok_revoke (others_of u except) (revoke_row now (Some reason)) now (se_device_id <$> rows.*2) d);
      [done|reflexivity|reflexivity|eauto|done].
Qed.

Lemma auth_ok_ResetTwoStep now u d : auth_ok d → auth_ok (ResetTwoStep now u d).
Proof.
  intros Hok. unfold ResetTwoStep.
  eapply (auth_ok_revoke (λ _ r, bool_decide (se_user_id r = u) && live_session r)
    (λ r, with_se_revoked_at (Some now) r) now [] d); [done|reflexivity|apply revoke_none| |done].
  intros k r _ Hin. by apply not_elem_of_nil in Hin.
Qed.
End statements.

(** ** Runs *)
Section runs.
Context `{AuthLimiter L} `{JWT T} `{UuidParse} `{Digest} `{Argon2} `{CaseFold}.
Context (cfg : AuthConfig) (deliverable echo : bool).
Implicit Types (w : auth_world L) (d : authdb).

(** The handlers with their arguments, the worker's sweep of spent codes, and the
    cache server going away and coming back. *)
Inductive auth_op :=
| OpRequestOTP (now : time) (draw : Z) (challenge : uuid) (delivered : bool) (phone ip : string)
| OpVerifyOTP (now : time) (m : mints) (i : VerifyOTPInput)
| OpRefresh (now : time) (m : mints) (token : string)
| OpLogout (now : time) (user session : uuid)
| OpRevokeSession (now : time) (user session : uuid)
| OpRevokeOthers (now : time) (user keep : uuid)
| OpSetTwoStep (now : time) (user : uuid) (salt : list N) (current new hint : string)
| OpSetEmail (now : time) (draw : Z) (id : uuid) (delivered : bool) (user : uuid) (email : string)
| OpVerifyEmail (now : time) (user : uuid) (code : string)
| OpRemoveEmail (now : time) (user : uuid)
| OpStartRecovery (now : time) (draw : Z) (id : uuid) (delivered : bool) (email : string)
| OpCompleteRecovery (now : time) (email code : string)
| OpAuthenticate (now : time) (raw : T)
| OpInvalidate (now : time) (user : uuid)
| OpSweep (now : time) (olderThan : Z)
| OpCache (now : time) (up : bool).

Definition op_time (o : auth_op) : time :=
  match o with
  | OpRequestOTP n _ _ _ _ _ | OpVerifyOTP n _ _ | OpRefresh n _ _ | OpLogout n _ _ | OpRevokeSession n _ _
  | OpRevokeOthers n _ _ | OpSetTwoStep n _ _ _ _ _ | OpSetEmail n _ _ _ _ _ | OpVerifyEmail n _ _
  | OpRemoveEmail n _ | OpStartRecovery n _ _ _ _ | OpCompleteRecovery n _ _ | OpAuthenticate n _
  | OpInvalidate n _ | OpSweep n _ | OpCache n _ => n
  end.

Definition run_op (o : auth_op) : auth_world L → auth_world L := λ w,
  match o with
  | OpRequestOTP n dr ch dl ph ip => (RequestOTP cfg n dr ch dl ph ip w).2
  | OpVerifyOTP n m i => (VerifyOTP (T := T) cfg n m i w).2
  | OpRefresh n m t => (Refresh (T := T) cfg n m t w).2
  | OpLogout n u s => (Logout cfg n u s w).2
  | OpRevokeSession n u s => (Service_RevokeSession cfg n u s w).2
  | OpRevokeOthers n u k => (RevokeOtherSessions cfg n u k w).2
  | OpSetTwoStep _ u salt c nw h => (Service_SetTwoStepPassword u salt c nw h w).2
  | OpSetEmail n dr id dl u e => (SetRecoveryEmail cfg deliverable echo n dr id dl u e w).2
  | OpVerifyEmail n u c => (VerifyRecoveryEmail n u c w).2
  | OpRemoveEmail _ u => (RemoveRecoveryEmail u w).2
  | OpStartRecovery n dr id dl e => (StartEmailRecovery cfg deliverable echo n dr id dl e w).2
  | OpCompleteRecovery n e c => (CompleteEmailRecovery n e c w).2
  | OpAuthenticate n raw => (AuthenticateToken cfg n raw w).2
  | OpInvalidate _ u => (InvalidateUserCache u w).2
  | OpSweep n age => set_aw_db (DeleteExpiredEmailChallenges n age (DeleteExpiredOTPChallenges n age (aw_db w)).2).2 w
  | OpCache _ up => set_aw_cache (MkCache up (c_entries (aw_cache w))) w
  end.
Definition run_ops (ops : list auth_op) (w : auth_world L) : auth_world L := foldl (λ w o, run_op o w) w ops.

(** Statements that leave sessions and devices alone. *)
Definition untouched (d d' : authdb) : Prop :=
  sessions d' = sessions d ∧ devices (core d') = devices (core d).
Lemma CreateUser_untouched now id ph h dn d : untouched d (CreateUser now id ph h dn d).2.
Proof.
  unfold CreateUser, in_tx, insert_user, insert_event_counter, or_fail, mbind, prog_bind, modify, gets.
  repeat (case_bool_decide; simpl; [done|]). by destruct (UserByID _ _).
Qed.
Lemma CreateOTP_untouched now id ph h p mx ttl d : untouched d (CreateOTPChallenge now id ph h p mx ttl d).2.
Proof. unfold CreateOTPChallenge. by case_bool_decide. Qed.
Lemma CreateEmail_untouched now id u e h p d : untouched d (CreateEmailChallenge now id u e h p d).2.
Proof. unfold CreateEmailChallenge. by case_bool_decide. Qed.
Lemma ConfirmEmail_untouched now u e d : untouched d (ConfirmEmail now u e d).2.
Proof. unfold ConfirmEmail. by case_bool_decide. Qed.

(** What a handler keeps follows from what its statements keep.  [P] is kept by
    every statement that leaves the sessions and devices alone. *)
Record stable (ok_mints : mints → Prop) (P : authdb → Prop) : Prop := {
  st_untouched : ∀ d d', untouched d d' → P d → P d';
  st_rotate : ∀ now m old exp d, ok_mints m → P d →
    P (RotateRefreshToken now old (GenerateRefreshToken (mint_refresh m)).2 exp d).2;
  st_issue : ∀ now m u n p v ua, ok_mints m → keeps (on_db P) (issueTokens (L := L) (T := T) cfg now m u n p v ua);
  st_revoke : ∀ now u k reason d, P d → P (RevokeSession now u k reason d).2;
  st_revoke_all : ∀ now u k reason d, P d → P (RevokeAllSessions now u k reason d).2;
  st_reset : ∀ now u d, P d → P (ResetTwoStep now u d);
}.

Definition op_mints (o : auth_op) : option mints :=
  match o with OpVerifyOTP _ m _ | OpRefresh _ m _ => Some m | _ => None end.

#[local] Hint Resolve CreateUser_untouched CreateOTP_untouched CreateEmail_untouched ConfirmEmail_untouched : keeps.
#[local] Hint Extern 1 (untouched _ _) => done : keeps.

Section stable.
Context {ok_mints : mints → Prop} {P : authdb → Prop} (HP : stable ok_mints P).

Ltac statement :=
  unfold on_db in *; simpl;
  try (match goal with Hw : P _ |- P _ => eapply (st_untouched _ _ HP); [|exact Hw] end; solve [eauto with keeps]).

Lemma stable_deny now s : keeps (on_db P) (denySession (L := L) cfg now s).
Proof. unfold denySession. keeps_steps. Qed.
Lemma stable_limit now r s : keeps (on_db P) (checkLimit (L := L) now r s).
Proof. intros w Hw. unfold checkLimit. by destruct (auth_allow _ _ _ _) as [[r' []] l]; [|destruct (negb _)]. Qed.
#[local] Hint Resolve stable_deny stable_limit : keeps.

Lemma stable_issueCode now dr id dl u e p sub : keeps (on_db P) (issueEmailCode (L := L) cfg echo now dr id dl u e p sub).
Proof. unfold issueEmailCode. keeps_steps; statement. Qed.
Lemma stable_consume now u p c : keeps (on_db P) (consumeEmailCode (L := L) now u p c).
Proof. unfold consumeEmailCode. keeps_steps; statement. Qed.
Lemma stable_accept now m i ph id : ok_mints m → keeps (on_db P) (accept_otp (L := L) (T := T) cfg now m i ph id).
Proof.
  intros Hm. unfold accept_otp, second_factor, claim_otp, finish_signin, account_for. keeps_steps; statement.
  by apply (st_issue _ _ HP).
Qed.
#[local] Hint Resolve stable_issueCode stable_consume stable_accept : keeps.

Lemma run_op_stable o w :
  (∀ m, op_mints o = Some m → ok_mints m) → P (aw_db w) → P (aw_db (run_op o w)).
Proof.
  intros Hm. revert w. destruct o; simpl in Hm |- *; try specialize (Hm _ eq_refl).
  - change (keeps (on_db P) (RequestOTP (L := L) cfg now draw challenge delivered phone ip)).
    unfold RequestOTP. keeps_steps; statement.
  - change (keeps (on_db P) (VerifyOTP (L := L) (T := T) cfg now m i)). unfold VerifyOTP, admit_otp, read_otp, wrong_code, report_wrong. keeps_steps; statement.
  - change (keeps (on_db P) (Refresh (L := L) (T := T) cfg now m token)). unfold Refresh.
    pose proof (st_rotate _ _ HP now m) as Hrot. unfold GenerateRefreshToken in *. keeps_steps; statement.
    by apply Hrot.
  - intros w Hw. unfold Logout. pose proof (st_revoke _ _ HP now user session "user_logout" _ Hw) as Hrev.
    destruct (RevokeSession _ _ _ _ _) as [[[]|[]] d]; try done. by apply stable_deny.
  - change (keeps (on_db P) (Service_RevokeSession (L := L) cfg now user session)). unfold Service_RevokeSession.
    keeps_steps; statement. by apply (st_revoke _ _ HP).
  - change (keeps (on_db P) (RevokeOtherSessions (L := L) cfg now user keep)). unfold RevokeOtherSessions.
    keeps_steps; statement. by apply (st_revoke_all _ _ HP).
  - change (keeps (on_db P) (Service_SetTwoStepPassword (L := L) user salt current new hint)).
    unfold Service_SetTwoStepPassword. keeps_steps; statement.
  - change (keeps (on_db P) (SetRecoveryEmail (L := L) cfg deliverable echo now draw id delivered user email)).
    unfold SetRecoveryEmail. keeps_steps; statement.
  - change (keeps (on_db P) (VerifyRecoveryEmail (L := L) now user code)). unfold VerifyRecoveryEmail. keeps_steps; statement.
  - change (keeps (on_db P) (RemoveRecoveryEmail (L := L) user)). unfold RemoveRecoveryEmail. keeps_steps; statement.
  - change (keeps (on_db P) (StartEmailRecovery (L := L) cfg deliverable echo now draw id delivered email)).
    unfold StartEmailRecovery. keeps_steps; statement.
  - change (keeps (on_db P) (CompleteEmailRecovery (L := L) now email code)). unfold CompleteEmailRecovery.
    keeps_steps; statement. by apply (st_reset _ _ HP).
  - change (keeps (on_db P) (AuthenticateToken (L := L) cfg now raw)).
    unfold AuthenticateToken, check_denied, userWithCache, cachedUser, readUser, storeUser, adminRolesWithCache. keeps_steps; statement.
  - change (keeps (on_db P) (InvalidateUserCache (L := L) user)). unfold InvalidateUserCache. keeps_steps.
  - intros w Hw. by eapply (st_untouched _ _ HP); [|exact Hw].
  - by intros w.
Qed.

Lemma run_ops_stable ops w :
  Forall (λ o, ∀ m, op_mints o = Some m → ok_mints m) ops → P (aw_db w) → P (aw_db (run_ops ops w)).
Proof.
  intros Hall. revert w. induction Hall as [|o ops Ho Hall IH]; intros w Hw; [done|].
  simpl. apply IH. by apply run_op_stable.
Qed.
End stable.

Lemma keeps_auth_ok_issue now m u n p v ua :
  keeps (on_db auth_ok) (issueTokens (L := L) (T := T) cfg now m u n p v ua).
Proof.
  intros w Hw. unfold issueTokens, mbind, prog_bind, stmt.
  pose proof (auth_ok_enrol now (mint_device m) (usID u) n (normalizePlatform p) v (MaxDevicesPerUser cfg) _ Hw) as Hen.
  destruct (enrol _ _ _ _ _ _ _ _) as [[dev|e] d] eqn:Henrol; [|done]. simpl in Hen.
  apply enrol_inv in Henrol as (-> & Hnew & Hsess & _ & _ & Hdev & _). simpl.
  destruct (CreateSession _ _ _ _ _ _ _ _) as [[s|e] d'] eqn:Hcreate; simpl.
  - eapply auth_ok_create; [exact Hen|exact Hcreate|by rewrite Hdev, lookup_insert_eq|].
    intros k r Hk Heq. rewrite Hsess in Hk. destruct (ok_device _ Hw k r Hk) as (dv & Hdv & _).
    congruence.
  - by apply CreateSession_Err in Hcreate as ->.
Qed.

Lemma auth_ok_stable : stable (λ _, True) auth_ok.
Proof.
  split; eauto using auth_ok_rotate, auth_ok_RevokeSession, auth_ok_RevokeAll, auth_ok_ResetTwoStep,
    keeps_auth_ok_issue.
  intros d d' [Hs Hd]. by apply auth_ok_same.
Qed.
Lemma auth_ok_empty : auth_ok empty_authdb.
Proof. split; intros *; simpl; by rewrite lookup_empty. Qed.

(** A session that has been revoked, as a condition kept for ever. *)
Definition revoked (k : uuid) (d : authdb) : Prop :=
  ∃ r, sessions d !! k = Some r ∧ se_revoked_at r ≠ None.
(** No row holds the hash. *)
Definition unheld (h : list N) (d : authdb) : Prop :=
  ∀ k r, sessions d !! k = Some r → se_refresh_token_hash r ≠ h.

Lemma issueTokens_sessions now m u n p v ua w :
  let w' := (issueTokens (L := L) (T := T) cfg now m u n p v ua w).2 in
  sessions (aw_db w') = sessions (aw_db w) ∨
  ∃ r, sessions (aw_db w) !! mint_session m = None ∧
    sessions (aw_db w') = <[mint_session m := r]> (sessions (aw_db w)) ∧
    se_refresh_token_hash r = (GenerateRefreshToken (mint_refresh m)).2.
Proof.
  unfold issueTokens, mbind, prog_bind, stmt. simpl.
  destruct (enrol _ _ _ _ _ _ _ _) as [[dev|e] d] eqn:Henrol; simpl.
  2: { left. by apply in_tx_Err in Henrol as ->. }
  apply enrol_inv in Henrol as (-> & _ & <- & _).
  destruct (CreateSession _ _ _ _ _ _ _ d) as [[s|e] d'] eqn:Hcreate; simpl.
  - right. apply CreateSession_inv in Hcreate as (-> & Hid & _ & ->). simpl. by eexists.
  - left. by apply CreateSession_Err in Hcreate as ->.
Qed.

Lemma revoked_stable k : stable (λ _, True) (revoked k).
Proof.
  split.
  - intros d d' [Hs _] (r & Hk & Hr). exists r. by rewrite Hs.
  - intros now m old exp d _ (r & Hk & Hr). destruct (RotateRefreshToken _ _ _ _ d) as [[s|e] d'] eqn:Hrun.
    2: { apply Rotate_Err in Hrun as ->. by exists r. }
    apply Rotate_inv in Hrun as (k' & r' & Hk' & _ & Hlive & _ & _ & _ & ->).
    exists r. simpl. rewrite lookup_insert_ne; [done|]. intros ->. unfold live_session in Hlive.
    destruct (se_revoked_at r') eqn:Hr'; congruence.
  - intros now m u n p v ua _ w (r & Hk & Hr). exists r.
    destruct (issueTokens_sessions now m u n p v ua w) as [->|(r' & Hnone & -> & _)]; [done|].
    rewrite lookup_insert_ne; [done|congruence].
  - intros now u k' reason d (r & Hk & Hr). unfold RevokeSession, in_tx.
    destruct (sessions d !! k') as [r'|] eqn:Hk'; [|by exists r].
    destruct (_ && _) eqn:Hlive; [|by exists r]. simpl. destruct (decide (k' = k)) as [->|Hne].
    + eexists. simpl. rewrite lookup_insert_eq. done.
    + exists r. simpl. by rewrite lookup_insert_ne.
  - intros now u k' reason d (r & Hk & Hr). unfold RevokeAllSessions. simpl.
    assert (∃ r', update_where (others_of u k') (λ _ r, revoke_row now (Some reason) r) (sessions d) !! k = Some r' ∧
      se_revoked_at r' ≠ None) as Hex.
    { rewrite lookup_update_where, Hk. simpl. eexists. split; [reflexivity|]. by destruct (others_of _ _ _ _). }
    by case_bool_decide.
  - intros now u d (r & Hk & Hr). unfold revoked, ResetTwoStep. simpl. rewrite lookup_update_where, Hk. simpl.
    eexists. split; [reflexivity|]. by destruct (_ && _).
Qed.

Lemma unheld_stable h : stable (λ m, (GenerateRefreshToken (mint_refresh m)).2 ≠ h) (unheld h).
Proof.
  split.
  - intros d d' [Hs _] Hun k r. rewrite Hs. apply Hun.
  - intros now m old exp d Hm Hun. destruct (RotateRefreshToken _ _ _ _ d) as [[s|e] d'] eqn:Hrun.
    2: { by apply Rotate_Err in Hrun as ->. }
    apply Rotate_inv in Hrun as (k' & r' & _ & _ & _ & _ & _ & _ & ->).
    intros k r. simpl. intros [[<- <-]|[_ Hk]]%lookup_insert_Some; [done|by eapply Hun].
  - intros now m u n p v ua Hm w Hun k r.
    destruct (issueTokens_sessions now m u n p v ua w) as [->|(r' & _ & -> & Hh)]; [apply Hun|].
    intros [[<- <-]|[_ Hk]]%lookup_insert_Some; [congruence|by eapply Hun].
  - intros now u k' reason d Hun. unfold RevokeSession, in_tx.
    destruct (sessions d !! k') as [r'|] eqn:Hk'; [|done]. destruct (_ && _); [|done]. simpl.
    intros k r. simpl. intros [[<- <-]|[_ Hk]]%lookup_insert_Some; [by apply (Hun k' r')|by eapply Hun].
  - intros now u k' reason d Hun. unfold RevokeAllSessions. simpl.
    assert (unheld h (with_sessions (update_where (others_of u k') (λ _ r, revoke_row now (Some reason) r)
      (sessions d)) d)) as Hw.
    { intros k r. simpl. rewrite lookup_update_where. intros (r0 & Hk & ->)%fmap_Some.
      destruct (others_of _ _ _ _); by apply (Hun k r0). }
    case_bool_decide; [exact Hw|]. intros k r Hk. by apply (Hw k).
  - intros now u d Hun k r. unfold ResetTwoStep. simpl. rewrite lookup_update_where.
    intros (r0 & Hk & ->)%fmap_Some. destruct (_ && _); by apply (Hun k r0).
Qed.

(** A successful rotation, taken apart. *)
Lemma Refresh_Ok_inv now m token w pair w' :
  Refresh (L := L) (T := T) cfg now m token w = (Ok pair, w') →
  let new := GenerateRefreshToken (mint_refresh m) in
  ∃ k r u, trim_space token ≠ ""%string ∧ sessions (aw_db w) !! k = Some r ∧
    se_refresh_token_hash r = HashToken token ∧ live_session r = true ∧ now < se_refresh_expires_at r ∧
    (∀ k' r', k' ≠ k → sessions (aw_db w) !! k' = Some r' → se_refresh_token_hash r' ≠ new.2) ∧
    UserByID (se_user_id r) (aw_db w) = Some u ∧ IsActive u = true ∧
    RefreshToken pair = new.1 ∧ tpSessionID pair = k ∧ tpUserID pair = se_user_id r ∧
    AccessToken pair = (IssueAccessToken cfg now (se_user_id r) (se_device_id r) k (usTokenVersion u) (mint_token_id m)).1 ∧
    aw_db w' = TouchDevice now (se_device_id r) (with_sessions
      (<[k := rotate_row now new.2 (now + RefreshTokenTTL cfg) r]> (sessions (aw_db w))) (aw_db w)).
Proof.
  unfold Refresh. unfold mbind at 1, prog_bind at 1, fail_if at 1. case_bool_decide as Htoken; [done|].
  unfold GenerateRefreshToken. unfold mbind at 1, prog_bind at 1, stmt.
  destruct (RotateRefreshToken _ _ _ _ _) as [[s|e] d] eqn:Hrot; [|done].
  apply Rotate_inv in Hrot as (k & r & Hk & Hh & Hl & Hexp & Hnew & -> & ->).
  unfold mbind, prog_bind, read_db, gets, or_fail, fail_if, exec_, modify, mret, prog_ret. simpl.
  unfold UserByID at 1. simpl. destruct (accounts _ !! _) as [a|] eqn:Ha; [|done]. simpl.
  destruct (negb (IsActive _)) eqn:Hact; [done|]. apply negb_false_iff in Hact. intros [= <- <-].
  exists k, r, (scanUser (aw_db w) (se_user_id r) a). simpl. split_and!; try done.
  unfold UserByID. by rewrite Ha.
Qed.

Lemma Refresh_live now m token w k r u :
  trim_space token ≠ ""%string →
  (∀ k' r', sessions (aw_db w) !! k' = Some r' → se_refresh_token_hash r' = HashToken token → k' = k) →
  sessions (aw_db w) !! k = Some r → se_refresh_token_hash r = HashToken token →
  live_session r = true → now < se_refresh_expires_at r →
  unheld (GenerateRefreshToken (mint_refresh m)).2 (aw_db w) →
  UserByID (se_user_id r) (aw_db w) = Some u → IsActive u = true →
  ∃ pair w', Refresh (L := L) (T := T) cfg now m token w = (Ok pair, w') ∧ tpSessionID pair = k ∧
    AccessToken pair = (IssueAccessToken cfg now (se_user_id r) (se_device_id r) k (usTokenVersion u) (mint_token_id m)).1 ∧
    aw_cache w' = aw_cache w ∧ accounts (aw_db w') = accounts (aw_db w) ∧ core (aw_db w') = core (aw_db w).
Proof.
  intros Htrim Hone Hk Hh Hl Hexp Hun Hu Hact. unfold Refresh. unfold mbind at 1, prog_bind at 1, fail_if at 1.
  rewrite bool_decide_false by done. unfold GenerateRefreshToken in *. unfold mbind at 1, prog_bind at 1, stmt.
  unfold RotateRefreshToken. destruct (one_row (rotatable _ _) _) as [[k' r']|] eqn:Hrow.
  2: { rewrite one_row_None in Hrow. specialize (Hrow _ _ Hk). unfold rotatable, holds_hash in Hrow.
       by rewrite bool_decide_true, Hl, (proj2 (Z.ltb_lt _ _)) in Hrow. }
  apply one_row_Some in Hrow as [Hk' [[Hh'%bool_decide_eq_true_1 _]%andb_prop _]%andb_prop].
  assert (k' = k) as -> by (by eapply Hone). assert (r' = r) as -> by congruence.
  rewrite bool_decide_false; cycle 1.
  { intros [[k2 r2] [Hk2 [_ Hh2%bool_decide_eq_true_1]%andb_prop]%one_row_Some]. by eapply (Hun k2). }
  unfold mbind, prog_bind, read_db, gets, or_fail, fail_if, exec_, modify, mret, prog_ret. simpl.
  unfold UserByID in *. simpl. destruct (accounts _ !! _) as [a|] eqn:Ha; [|done]. simpl in *. injection Hu as <-.
  unfold IsActive, scanUser in *. simpl in *. rewrite Hact. simpl. eexists _, _. split; [reflexivity|]. done.
Qed.

Lemma Refresh_unheld now m token w :
  unheld (HashToken token) (aw_db w) →
  ∃ e, Refresh (L := L) (T := T) cfg now m token w = (Err e, w) ∧
    (trim_space token ≠ ""%string → e = rotate_error NoRecord).
Proof.
  intros Hun. unfold Refresh. unfold mbind at 1, prog_bind at 1, fail_if at 1.
  case_bool_decide; [by eexists|]. unfold GenerateRefreshToken. unfold mbind at 1, prog_bind at 1, stmt, RotateRefreshToken.
  assert (one_row (rotatable now (HashToken token)) (sessions (aw_db w)) = None) as ->.
  { apply one_row_None. intros k r Hk. unfold rotatable, holds_hash. rewrite bool_decide_false; [done|].
    by apply (Hun k). }
  eexists. split; [|done]. unfold set_aw_db. by destruct w.
Qed.
End runs.

(** C13: Session tables stay in order.  Whatever the identity handlers do, in any order and
    at any times, succeed or fail: a refresh-token hash is held by one session row; a
    session's device is registered to the same user, serves that session alone, and is
    live for as long as the session is; and a session that has been revoked stays
    revoked. *)
Theorem session_tables_in_order `{AuthLimiter L} `{JWT T} `{UuidParse} `{Digest} `{Argon2} `{CaseFold}
    cfg deliverable echo (w : auth_world L) (ops1 ops2 : list (auth_op (T := T))) :
  aw_db w = empty_authdb →
  let d1 := aw_db (run_ops cfg deliverable echo ops1 w) in
  let d2 := aw_db (run_ops cfg deliverable echo (ops1 ++ ops2) w) in
  (∀ k1 k2 r1 r2, sessions d1 !! k1 = Some r1 → sessions d1 !! k2 = Some r2 →
     se_refresh_token_hash r1 = se_refresh_token_hash r2 ∨ se_device_id r1 = se_device_id r2 → k1 = k2) ∧
  (∀ k r, sessions d1 !! k = Some r →
     ∃ dev, devices (core d1) !! se_device_id r = Some dev ∧ d_user_id dev = se_user_id r ∧
       (se_revoked_at r = None → d_revoked_at dev = None)) ∧
  (∀ k r, sessions d1 !! k = Some r → se_revoked_at r ≠ None →
     ∃ r', sessions d2 !! k = Some r' ∧ se_revoked_at r' ≠ None).
Proof.
  intros Hempty d1 d2.
  assert (auth_ok d1) as [Hh Hd Ho].
  { apply (run_ops_stable cfg deliverable echo (auth_ok_stable cfg)); [by apply Forall_true|].
    rewrite Hempty. apply auth_ok_empty. }
  split_and!.
  - intros k1 k2 r1 r2 Hk1 Hk2 [Heq|Heq]; [by eapply Hh|by eapply Ho].
  - exact Hd.
  - intros k r Hk Hr. unfold d2, run_ops. rewrite foldl_app.
    apply (run_ops_stable cfg deliverable echo (revoked_stable cfg k)); [by apply Forall_true|].
    by exists r.
Qed.

(** C14: A refresh token works once.  When a refresh succeeds, the caller gets a new pair for
    the same session, and the token presented is dead from then on: whatever the identity
    module does afterwards, as long as no newly drawn token has the same hash, presenting
    it again is refused as a session that is no longer valid and changes nothing.  The new
    token takes its place, on a session that is live and lasts for the configured time: at
    any later moment at which the session still stands with that token, neither ended nor
    refreshed nor expired, and its owner's account is active, the token refreshes it in turn. *)
Theorem refresh_token_works_once `{AuthLimiter L} `{JWT T} `{UuidParse} `{Digest} `{Argon2} `{CaseFold}
    cfg deliverable echo now m token (w : auth_world L) (pair : TokenPair T) w' :
  auth_ok (aw_db w) →
  (GenerateRefreshToken (mint_refresh m)).2 ≠ HashToken token →
  Refresh cfg now m token w = (Ok pair, w') →
  (∃ r r', sessions (aw_db w) !! tpSessionID pair = Some r ∧ se_refresh_token_hash r = HashToken token ∧
     sessions (aw_db w') !! tpSessionID pair = Some r' ∧
     se_refresh_token_hash r' = HashToken (RefreshToken pair) ∧ se_user_id r' = tpUserID pair ∧
     se_revoked_at r' = None ∧ se_refresh_expires_at r' = now + RefreshTokenTTL cfg) ∧
  (∀ (ops : list (auth_op (T := T))) now' m',
     Forall (λ o, ∀ m, op_mints o = Some m → (GenerateRefreshToken (mint_refresh m)).2 ≠ HashToken token) ops →
     let w'' := run_ops cfg deliverable echo ops w' in
     Refresh (T := T) cfg now' m' token w'' = (Err (rotate_error NoRecord), w'')) ∧
  (∀ (ops : list (auth_op (T := T))) now' m' r u,
     let w'' := run_ops cfg deliverable echo ops w' in
     sessions (aw_db w'') !! tpSessionID pair = Some r → se_refresh_token_hash r = HashToken (RefreshToken pair) →
     se_revoked_at r = None → now' < se_refresh_expires_at r →
     UserByID (se_user_id r) (aw_db w'') = Some u → IsActive u = true →
     trim_space (RefreshToken pair) ≠ ""%string → unheld (GenerateRefreshToken (mint_refresh m')).2 (aw_db w'') →
     ∃ pair' w3, Refresh (T := T) cfg now' m' (RefreshToken pair) w'' = (Ok pair', w3) ∧
       tpSessionID pair' = tpSessionID pair).
Proof.
  intros Hok Hnew Hrun. pose proof (Refresh_Ok_inv _ _ _ _ _ _ _ Hrun)
    as (k & r & u & Htrim & Hk & Hh & Hl & Hexp & Hfree & Hu & Hact & Hrt & Hsid & Huid & Hat & Hsess).
  assert (sessions (aw_db w') = <[k := rotate_row now (GenerateRefreshToken (mint_refresh m)).2
    (now + RefreshTokenTTL cfg) r]> (sessions (aw_db w))) as Hs by by rewrite Hsess.
  assert (unheld (HashToken token) (aw_db w')) as Hunheld.
  { intros k' r'. rewrite Hs. intros [[<- <-]|[Hne Hk']]%lookup_insert_Some; [exact Hnew|].
    intros Heq. apply Hne. eapply (ok_hash _ Hok); [exact Hk|exact Hk'|congruence]. }
  assert (HashToken (RefreshToken pair) = (GenerateRefreshToken (mint_refresh m)).2) as Hrh by by rewrite Hrt.
  split_and!.
  - rewrite Hsid, Huid, Hrh, Hs. eexists _, _. split; [exact Hk|]. split; [done|]. rewrite lookup_insert_eq.
    split_and!; try done. simpl. by destruct (se_revoked_at r) eqn:Hrev; [unfold live_session in Hl; rewrite Hrev in Hl|].
  - intros ops now' m' Hall w''.
    destruct (Refresh_unheld cfg now' m' token w'') as (e & -> & He); [|by rewrite He].
    by apply (run_ops_stable cfg deliverable echo (unheld_stable cfg (HashToken token))).
  - intros ops now' m' r2 u2 w'' Hk2 Hh2 Hl2 Hlt Hu2 Hact2 Hne Hun'.
    assert (auth_ok (aw_db w'')) as Hok''.
    { apply (run_ops_stable cfg deliverable echo (auth_ok_stable cfg)); [by apply Forall_true|].
      pose proof (run_op_stable cfg deliverable echo (auth_ok_stable cfg) (OpRefresh now m token) w ltac:(done) Hok) as Hok'.
      simpl in Hok'. by rewrite Hrun in Hok'. }
    destruct (Refresh_live cfg now' m' (RefreshToken pair) w'' (tpSessionID pair) r2 u2)
      as (pair' & w3 & Hrun' & Hsid' & _); try done.
    + intros k' r' Hk' Hh'. eapply (ok_hash _ Hok''); [exact Hk'|exact Hk2|congruence].
    + unfold live_session. by rewrite Hl2.
    + by exists pair', w3.
Qed.
