(* ===== verification/SignOutTheory.v ===== *)
(** * Signing out

    What happens to access tokens already issued: the denylist outlives them,
    and a password change outdates them but not the refresh tokens.  The
    concrete libraries the witnesses run with are here, too. *)

From stdpp Require Import base tactics list gmap strings sorting.
From Stdlib Require Import ZArith Ascii String Lia.
From S2P Require Import Prelude GoString Httpx Store EventLog RateLimit Ports Phone Security Cache AuthStore Auth Recovery AuthTheory.

Set Default Goal Selector "!".
Open Scope Z_scope.

(** The denylist holds the session at least until [t]. *)
Definition denied_until (sid : uuid) (t : time) (c : cache string) : Prop :=
  ∃ x t', c_entries c !! sessionDenyKey sid = Some (MkEntry (CString x) (Some t')) ∧ t ≤ t'.

Section denylist.
Implicit Types (c : cache string) (sid u : uuid).

Lemma deny_key_neq sid u : sessionDenyKey sid ≠ user_state_key u ∧ sessionDenyKey sid ≠ admin_roles_key u.
Proof. by split; intros [=]. Qed.
Lemma deny_key_neq_otp sid phone : sessionDenyKey sid ≠ otp_cooldown_key phone.
Proof. by intros [=]. Qed.

Lemma denied_put_ne sid t key e c :
  sessionDenyKey sid ≠ key → denied_until sid t c → denied_until sid t (put key e c).
Proof. intros Hne (x & t' & Hx & Ht). exists x, t'. unfold put. simpl. by rewrite lookup_insert_ne. Qed.
Lemma denied_Set_ne sid t now key b ttl c :
  sessionDenyKey sid ≠ key → denied_until sid t c → denied_until sid t (Set_ now key b ttl c).2.
Proof. intros Hne Hd. unfold Set_. destruct (negb _); [done|]. by apply denied_put_ne. Qed.
Lemma denied_SetNX_ne sid t now key b ttl c :
  sessionDenyKey sid ≠ key → denied_until sid t c → denied_until sid t (SetNX now key b ttl c).2.
Proof.
  intros Hne Hd. unfold SetNX. destruct (negb _); [done|]. destruct (entry_at _ _ _); [done|].
  by apply denied_put_ne.
Qed.
Lemma denied_Delete_ne sid t key c :
  sessionDenyKey sid ≠ key → denied_until sid t c → denied_until sid t (Delete key c).2.
Proof.
  intros Hne (x & t' & Hx & Ht). unfold Delete. destruct (negb _); [by exists x, t'|].
  exists x, t'. unfold drop_key. simpl. by rewrite lookup_delete_ne.
Qed.
(** Denying any session again can only prolong the entry. *)
Lemma denied_Set_deny sid sid' t now b ttl c :
  t ≤ now + ttl → denied_until sid t c → denied_until sid t (Set_ now (sessionDenyKey sid') b ttl c).2.
Proof.
  intros Hle (x & t' & Hx & Ht). unfold Set_. destruct (negb _); [by exists x, t'|].
  unfold denied_until, put. simpl.
  destruct (decide (sessionDenyKey sid' = sessionDenyKey sid)) as [->|Hne].
  - rewrite lookup_insert_eq. eexists _, _. split; [reflexivity|done].
  - rewrite lookup_insert_ne by done. by exists x, t'.
Qed.
Lemma denied_Set sid now ttl b c :
  c_up c = true → denied_until sid (now + ttl) (Set_ now (sessionDenyKey sid) b ttl c).2.
Proof.
  intros Hup. unfold Set_. rewrite Hup. simpl. eexists _, _. unfold put. simpl.
  by rewrite lookup_insert_eq.
Qed.
(** A live entry answers, or the server is down. *)
Lemma denied_Get sid t now c :
  denied_until sid t c → now < t → (∃ x, Get now (sessionDenyKey sid) c = Found x) ∨ Get now (sessionDenyKey sid) c = Failed.
Proof.
  intros (x & t' & Hx & Ht) Hlt. unfold Get. destruct (negb _); [by right|]. left.
  unfold entry_at. rewrite Hx. simpl. rewrite (proj2 (Z.leb_gt _ _)) by lia. by exists x.
Qed.
End denylist.

Section signed_out.
Context `{AuthLimiter L} `{JWT T} `{UuidParse} `{Digest} `{Argon2} `{CaseFold}.
Context (cfg : AuthConfig) (deliverable echo : bool).
Implicit Types (w : auth_world L).

#[local] Hint Resolve denied_Set_ne denied_SetNX_ne denied_Delete_ne : keeps.
#[local] Hint Extern 1 (sessionDenyKey _ ≠ _) => apply deny_key_neq : keeps.
#[local] Hint Extern 1 (sessionDenyKey _ ≠ _) => apply deny_key_neq_otp : keeps.
Ltac redis := unfold on_redis in *; simpl in *; eauto with keeps.

Section kept.
Context (sid : uuid) (t now : time) (Hle : t ≤ now + (AccessTokenTTL cfg + minute)).

Lemma denied_deny s : keeps (on_redis (denied_until sid t)) (denySession (L := L) cfg now s).
Proof. unfold denySession. keeps_steps. redis. by apply denied_Set_deny. Qed.
Lemma denied_limit n r s : keeps (on_redis (denied_until sid t)) (checkLimit (L := L) n r s).
Proof. intros w Hw. unfold checkLimit. by destruct (auth_allow _ _ _ _) as [[r' []] l]; [|destruct (negb _)]. Qed.
#[local] Hint Resolve denied_deny denied_limit : keeps.

Lemma denied_issueCode n dr id dl u e p sub :
  keeps (on_redis (denied_until sid t)) (issueEmailCode (L := L) cfg echo n dr id dl u e p sub).
Proof. unfold issueEmailCode. keeps_steps; redis. Qed.
Lemma denied_consume n u p c : keeps (on_redis (denied_until sid t)) (consumeEmailCode (L := L) n u p c).
Proof. unfold consumeEmailCode. keeps_steps; redis. Qed.
Lemma denied_issue n m u a b c e : keeps (on_redis (denied_until sid t)) (issueTokens (L := L) (T := T) cfg n m u a b c e).
Proof. unfold issueTokens. keeps_steps; redis. Qed.
#[local] Hint Resolve denied_issueCode denied_consume denied_issue : keeps.

Lemma run_op_denied o w :
  op_time o = now → denied_until sid t (aw_cache w) → denied_until sid t (aw_cache (run_op cfg deliverable echo o w)).
Proof.
  intros Hnow. revert w. change (∀ w, on_redis (denied_until sid t) w →
    on_redis (denied_until sid t) (run_op cfg deliverable echo o w)).
  destruct o; simpl in Hnow |- *; subst now0.
  - change (keeps (on_redis (denied_until sid t)) (RequestOTP (L := L) cfg now draw challenge delivered phone ip)).
    unfold RequestOTP. keeps_steps; redis.
  - change (keeps (on_redis (denied_until sid t)) (VerifyOTP (L := L) (T := T) cfg now m i)).
    unfold VerifyOTP, admit_otp, read_otp, wrong_code, report_wrong, accept_otp, claim_otp, second_factor, finish_signin,
      account_for. keeps_steps; redis.
  - change (keeps (on_redis (denied_until sid t)) (Refresh (L := L) (T := T) cfg now m token)).
    unfold Refresh. keeps_steps; redis.
  - intros w Hw. unfold Logout. destruct (RevokeSession _ _ _ _ _) as [[[]|[]] d]; try done.
    by apply denied_deny.
  - change (keeps (on_redis (denied_until sid t)) (Service_RevokeSession (L := L) cfg now user session)).
    unfold Service_RevokeSession. keeps_steps; redis.
  - change (keeps (on_redis (denied_until sid t)) (RevokeOtherSessions (L := L) cfg now user keep)).
    unfold RevokeOtherSessions. keeps_steps; redis.
  - change (keeps (on_redis (denied_until sid t)) (Service_SetTwoStepPassword (L := L) user salt current new hint)).
    unfold Service_SetTwoStepPassword. keeps_steps; redis.
  - change (keeps (on_redis (denied_until sid t)) (SetRecoveryEmail (L := L) cfg deliverable echo now draw id delivered user email)).
    unfold SetRecoveryEmail. keeps_steps; redis.
  - change (keeps (on_redis (denied_until sid t)) (VerifyRecoveryEmail (L := L) now user code)).
    unfold VerifyRecoveryEmail. keeps_steps; redis.
  - by intros w.
  - change (keeps (on_redis (denied_until sid t)) (StartEmailRecovery (L := L) cfg deliverable echo now draw id delivered email)).
    unfold StartEmailRecovery. keeps_steps; redis.
  - change (keeps (on_redis (denied_until sid t)) (CompleteEmailRecovery (L := L) now email code)).
    unfold CompleteEmailRecovery. keeps_steps; redis.
  - change (keeps (on_redis (denied_until sid t)) (AuthenticateToken (L := L) cfg now raw)).
    unfold AuthenticateToken, check_denied, userWithCache, cachedUser, readUser, storeUser, adminRolesWithCache. keeps_steps; redis.
  - change (keeps (on_redis (denied_until sid t)) (InvalidateUserCache (L := L) user)).
    unfold InvalidateUserCache. keeps_steps; redis.
  - by intros w.
  - by intros w.
Qed.
End kept.

(** A call that signs a live session out. *)
Definition signs_out (o : auth_op (T := T)) (sid : uuid) (d : authdb) : Prop :=
  ∃ r, sessions d !! sid = Some r ∧ live_session r = true ∧
    match o with
    | OpLogout _ u s | OpRevokeSession _ u s => s = sid ∧ se_user_id r = u
    | OpRevokeOthers _ u keep => se_user_id r = u ∧ sid ≠ keep
    | _ => False
    end.

Lemma denied_for_each now sid t l w :
  t ≤ now + (AccessTokenTTL cfg + minute) → c_up (aw_cache w) = true →
  sid ∈ l ∨ denied_until sid t (aw_cache w) →
  (for_each l (denySession (L := L) cfg now) w).1 = Ok () ∧
  denied_until sid t (aw_cache (for_each l (denySession (L := L) cfg now) w).2) ∧
  aw_db (for_each l (denySession (L := L) cfg now) w).2 = aw_db w.
Proof.
  intros Hle. revert w. induction l as [|s l IH]; intros w Hup Hin.
  { simpl. destruct Hin as [Hin|]; [by apply not_elem_of_nil in Hin|done]. }
  simpl. rewrite bind_run.
  assert (∃ w1, denySession (L := L) cfg now s w = (Ok (), w1) ∧ c_up (aw_cache w1) = true ∧ aw_db w1 = aw_db w ∧
    (sid = s ∨ denied_until sid t (aw_cache w) → denied_until sid t (aw_cache w1))) as (w1 & -> & Hup1 & Hdb & Hden).
  { unfold denySession, on_cache, mbind, prog_bind, mret, prog_ret. pose proof Hup as Hup'.
    destruct (Set_ _ _ _ _ _) as [b c] eqn:Hset. eexists. split; [reflexivity|]. simpl.
    unfold Set_ in Hset. rewrite Hup in Hset. injection Hset as <- <-. split; [done|]. split; [done|].
    intros [->|Hd].
    - pose proof (denied_Set s now (AccessTokenTTL cfg + minute) "1"%string (aw_cache w) Hup) as Hd.
      unfold Set_ in Hd. rewrite Hup in Hd. destruct Hd as (x & t' & Hx & Ht). exists x, t'. split; [done|lia].
    - pose proof (denied_Set_deny sid s t now "1"%string _ _ Hle Hd) as Hd'. unfold Set_ in Hd'.
      by rewrite Hup in Hd'. }
  rewrite <-Hdb. apply IH; [done|]. destruct Hin as [[->|Hin]%elem_of_cons|Hin]; [|by left|]; right; apply Hden; tauto.
Qed.

(** Denying sessions leaves the tables alone, whether or not the cache answers. *)
Lemma deny_db now ids w : aw_db (for_each ids (denySession (L := L) cfg now) w).2 = aw_db w.
Proof.
  assert (keeps (on_db (λ d, d = aw_db w)) (for_each ids (denySession (L := L) cfg now))) as Hk; [|by apply Hk].
  apply keeps_for_each. intros k. unfold denySession. keeps_steps.
Qed.
Lemma deny_one_db now sid w : aw_db (denySession (L := L) cfg now sid w).2 = aw_db w.
Proof. pose proof (deny_db now [sid] w) as Hdb. simpl in Hdb. rewrite bind_run in Hdb. by destruct (denySession cfg now sid w) as [[[]|e] w2]. Qed.
Lemma revokes_now o sid w : signs_out o sid (aw_db w) → revoked sid (aw_db (run_op cfg deliverable echo o w)).
Proof.
  intros (r & Hk & Hl & Ho). destruct o; try done; simpl in *.
  - destruct Ho as [-> <-]. unfold Logout. unfold RevokeSession, in_tx. rewrite Hk, bool_decide_true by done. rewrite Hl. simpl.
    rewrite deny_one_db. by eexists; split; [apply lookup_insert_eq|].
  - destruct Ho as [-> <-]. unfold Service_RevokeSession. rewrite bind_run. unfold stmt.
    unfold RevokeSession, in_tx. rewrite Hk, bool_decide_true by done. rewrite Hl. simpl.
    rewrite deny_one_db. by eexists; split; [apply lookup_insert_eq|].
  - destruct Ho as [<- Hne]. unfold RevokeOtherSessions. rewrite bind_run. unfold exec.
    destruct (RevokeAllSessions now (se_user_id r) keep "user_revoked_all" (aw_db w)) as [ids d] eqn:Hall.
    assert (revoked sid d) as Hrev.
    { unfold RevokeAllSessions in Hall. injection Hall as <- <-.
      assert (∃ r', update_where (others_of (se_user_id r) keep) (λ _ r, revoke_row now (Some "user_revoked_all"%string) r)
        (sessions (aw_db w)) !! sid = Some r' ∧ se_revoked_at r' ≠ None) as Hex; [|by case_bool_decide].
      rewrite lookup_update_where, Hk. simpl. unfold others_of. rewrite Hl, !bool_decide_true by done. by eexists. }
    rewrite bind_run. pose proof (deny_db now ids (set_aw_db d w)) as Hdb. destruct (for_each ids _ _) as [[[]|e] w2]; simpl in *; by rewrite Hdb.
Qed.
Lemma denies_now o sid w :
  signs_out o sid (aw_db w) → c_up (aw_cache w) = true →
  denied_until sid (op_time o + (AccessTokenTTL cfg + minute)) (aw_cache (run_op cfg deliverable echo o w)).
Proof.
  intros (r & Hk & Hl & Ho) Hup. destruct o; try done; simpl in *.
  - destruct Ho as [-> <-]. unfold Logout. unfold RevokeSession, in_tx. rewrite Hk, bool_decide_true by done. rewrite Hl. simpl.
    match goal with |- context [denySession _ _ _ ?w1] => set (w1' := w1) end.
    pose proof (denied_for_each now sid (now + (AccessTokenTTL cfg + minute)) [sid] w1' ltac:(lia) Hup ltac:(left; by left)) as (_ & Hd & _).
    simpl in Hd. rewrite bind_run in Hd. by destruct (denySession cfg now sid w1') as [[[]|e] w2].
  - destruct Ho as [-> <-]. unfold Service_RevokeSession. rewrite bind_run. unfold stmt.
    unfold RevokeSession, in_tx. rewrite Hk, bool_decide_true by done. rewrite Hl. simpl.
    match goal with |- context [denySession _ _ _ ?w1] => set (w1' := w1) end.
    pose proof (denied_for_each now sid (now + (AccessTokenTTL cfg + minute)) [sid] w1' ltac:(lia) Hup ltac:(left; by left)) as (_ & Hd & _).
    simpl in Hd. rewrite bind_run in Hd. by destruct (denySession cfg now sid w1') as [[[]|e] w2].
  - destruct Ho as [<- Hne]. unfold RevokeOtherSessions. rewrite bind_run. unfold exec.
    destruct (RevokeAllSessions now (se_user_id r) keep "user_revoked_all" (aw_db w)) as [ids d] eqn:Hall.
    assert (sid ∈ ids) as Hin.
    { unfold RevokeAllSessions in Hall. injection Hall as <- <-.
      apply elem_of_fst_rows_where. rewrite Hk. simpl. unfold others_of. by rewrite Hl, !bool_decide_true. }
    pose proof (denied_for_each now sid (now + (AccessTokenTTL cfg + minute)) ids (set_aw_db d w) ltac:(lia) Hup (or_introl Hin)) as (_ & Hd & _).
    rewrite bind_run. by destruct (for_each ids _ _) as [[[]|e] w2].
Qed.

Lemma set_aw_db_same w : set_aw_db (aw_db w) w = w.
Proof. by destruct w. Qed.
Lemma uuid_String_nonempty u : uuid_String u ≠ ""%string.
Proof. done. Qed.
Lemma truncate_second_le t : truncate_second t ≤ t.
Proof. unfold truncate_second, second. pose proof (Z.mod_pos_bound t 1000000000 ltac:(lia)). lia. Qed.

(** What a token issued earlier parses to. *)
Lemma ParseAccessToken_issued t0 now user dev sid v tid :
  is_Some (SigningKeys cfg !! ActiveKeyID cfg) → t0 ≤ now →
  ParseAccessToken cfg now (IssueAccessToken (T := T) cfg t0 user dev sid v tid).1 =
    if truncate_second (t0 + AccessTokenTTL cfg) <=? now then Err ErrTokenExpired
    else Ok (access_claims cfg t0 user dev sid v tid).
Proof.
  intros [key Hkey] Hle. unfold ParseAccessToken, IssueAccessToken. rewrite Hkey. simpl.
  rewrite jwt_parse_signed by done. simpl. destruct (_ <=? now); [done|].
  pose proof (truncate_second_le t0). rewrite (proj2 (Z.ltb_ge _ _)) by lia.
  by rewrite !bool_decide_false by apply uuid_String_nonempty.
Qed.
Lemma ParsedIdentity_issued t0 user dev sid v tid :
  (user < 2 ^ 128)%N → (dev < 2 ^ 128)%N → (sid < 2 ^ 128)%N →
  ParsedIdentity (access_claims cfg t0 user dev sid v tid) = Some (user, dev, sid).
Proof. intros. unfold ParsedIdentity. simpl. by rewrite !uuid_Parse_String. Qed.

Lemma check_denied_refuses now sid t w :
  denied_until sid t (aw_cache w) → now < t → revoked sid (aw_db w) →
  ∃ w', check_denied (L := L) now sid w = (Err (session_revoked "This session has been signed out"), w').
Proof.
  intros Hd Hlt (r & Hk & Hr). unfold check_denied. rewrite bind_run. unfold on_cache.
  destruct (denied_Get sid t now _ Hd Hlt) as [[x ->]| ->]; [by eexists|].
  rewrite bind_run. unfold read_db, gets, SessionByID. simpl. rewrite Hk. simpl.
  destruct (se_revoked_at r); [by eexists|done].
Qed.
End signed_out.

(** C15: Signing out takes effect at once and for good.  Once a session has been ended, by its
    own sign-out, from another device, or with all the others, its refresh token is refused
    whatever happens later; and when the cache answered at the sign-out itself, then, whatever
    happens later and whether or not the cache answers later, no access token ever issued for
    the session before is accepted again, by the denylist or by the database until the token
    expires and by its expiry from then on. *)
Theorem signed_out_session_is_refused `{AuthLimiter L} `{JWT T} `{UuidParse} `{Digest} `{Argon2} `{CaseFold}
    cfg deliverable echo (o : auth_op (T := T)) sid (w : auth_world L) ops now' :
  auth_ok (aw_db w) → signs_out o sid (aw_db w) →
  Forall (λ o', op_time o ≤ op_time o') ops → op_time o ≤ now' →
  let w' := run_ops cfg deliverable echo ops (run_op cfg deliverable echo o w) in
  (c_up (aw_cache w) = true → ∀ t0 user dev v tid, is_Some (SigningKeys cfg !! ActiveKeyID cfg) → t0 ≤ op_time o →
     (user < 2 ^ 128)%N → (dev < 2 ^ 128)%N → (sid < 2 ^ 128)%N →
     ∃ e, (AuthenticateToken cfg now' (IssueAccessToken cfg t0 user dev sid v tid).1 w').1 = Err e ∧
       (Code e = CodeTokenExpired ∨ Code e = CodeSessionRevoked)) ∧
  (∃ r, sessions (aw_db w') !! sid = Some r ∧ se_revoked_at r ≠ None ∧
     ∀ m token, trim_space token ≠ ""%string → HashToken token = se_refresh_token_hash r →
       Refresh (T := T) cfg now' m token w' = (Err (rotate_error NoRecord), w')).
Proof.
  intros Hok Hout Hops Hnow w'.
  pose proof (revokes_now cfg deliverable echo o sid w Hout) as Hrev. pose proof (denies_now cfg deliverable echo o sid w Hout) as Hden.
  set (w1 := run_op cfg deliverable echo o w) in *.
  assert (revoked sid (aw_db w')) as Hrev'.
  { apply (run_ops_stable cfg deliverable echo (revoked_stable cfg sid)); [by apply Forall_true|done]. }
  assert (c_up (aw_cache w) = true → denied_until sid (op_time o + (AccessTokenTTL cfg + minute)) (aw_cache w')) as Hden'.
  { intros Hup. specialize (Hden Hup). unfold w'. clearbody w1. clear -Hops Hden. revert w1 Hden. induction Hops as [|o' ops Ho Hops IH]; intros w1 Hden; [done|].
    simpl. apply IH. eapply run_op_denied; [|reflexivity|exact Hden]. lia. }
  assert (auth_ok (aw_db w')) as Hok'.
  { apply (run_ops_stable cfg deliverable echo (auth_ok_stable cfg)); [by apply Forall_true|].
    by apply (run_op_stable cfg deliverable echo (auth_ok_stable cfg)). }
  split.
  - intros Hup t0 user dev v tid Hkey Ht0 Hu Hd Hs. specialize (Hden' Hup). unfold AuthenticateToken.
    rewrite ParseAccessToken_issued by (done || lia).
    destruct (Z.leb_spec (truncate_second (t0 + AccessTokenTTL cfg)) now') as [Hexp|Hlive].
    { eexists. split; [reflexivity|]. by left. }
    rewrite bind_run. unfold or_fail. rewrite ParsedIdentity_issued by done. rewrite bind_run.
    pose proof (truncate_second_le (t0 + AccessTokenTTL cfg)).
    destruct (check_denied_refuses now' sid _ w' Hden') as [w'' ->]; [unfold minute, second; lia|done|].
    eexists. split; [reflexivity|]. by right.
  - destruct Hrev' as (r & Hk & Hr). exists r. split; [done|]. split; [done|]. intros m token Htrim Hh.
    assert (one_row (rotatable now' (HashToken token)) (sessions (aw_db w')) = None) as Hnone.
    { apply one_row_None. intros k r' Hk'. unfold rotatable, holds_hash, live_session.
      destruct (bool_decide (se_refresh_token_hash r' = HashToken token)) eqn:Heq; [|done].
      apply bool_decide_eq_true_1 in Heq. assert (k = sid) as -> by (eapply (ok_hash _ Hok'); [done|done|congruence]).
      assert (r' = r) as -> by congruence. by destruct (se_revoked_at r). }
    unfold Refresh. rewrite bind_run. unfold fail_if. rewrite bool_decide_false by done.
    unfold GenerateRefreshToken. rewrite bind_run. unfold stmt, RotateRefreshToken. rewrite Hnone.
    f_equal. apply set_aw_db_same.
Qed.

Section password.
Context `{AuthLimiter L} `{JWT T} `{UuidParse} `{Digest} `{Argon2}.
Context (cfg : AuthConfig).
Implicit Types (w : auth_world L).

Lemma SetTwoStepPassword_inv user salt current new hint w w' :
  Service_SetTwoStepPassword (L := L) user salt current new hint w = (Ok (), w') →
  ∃ h hi, w' = set_aw_db (SetTwoStepPassword user h hi (aw_db w)) w.
Proof.
  unfold Service_SetTwoStepPassword. rewrite bind_run. unfold read_db, gets. rewrite bind_run. unfold or_fail.
  destruct (UserByID user (aw_db w)) as [u|]; [|done]. rewrite bind_run.
  destruct (usTwoStepEnabled u), (usPasswordHash u) as [stored|]; [destruct (VerifyPassword current stored) as [[]|]|..].
  all: unfold fail, mret, prog_ret; try done.
  all: case_bool_decide; [intros [= <-]; eauto|].
  all: destruct (HashPassword new salt) as [h|[]]; try done.
  all: intros [= <-]; eauto.
Qed.

(** The account's state, read from the database when the cache has none. *)
Lemma userWithCache_miss now user w a :
  Get now (user_state_key user) (aw_cache w) = Missing → accounts (aw_db w) !! user = Some a →
  ∃ w', userWithCache (L := L) now user w =
    (Ok (a_status a, a_token_version a, if deleted (aw_db w) user then true else false), w').
Proof.
  intros Hmiss Ha. unfold userWithCache, cachedUser. rewrite !bind_run. unfold on_cache at 1. rewrite Hmiss.
  unfold mret at 1, prog_ret at 1. rewrite bind_run. unfold readUser. rewrite bind_run. unfold read_db, gets, UserByID. simpl. rewrite Ha. simpl.
  unfold or_fail, storeUser. rewrite !bind_run. unfold on_cache. destruct (Set_ _ _ _ _ _) as [b c]. unfold mret, prog_ret. simpl.
  eexists. unfold deleted. by destruct (users (core (aw_db w)) !! user ≫= u_deleted_at).
Qed.

Lemma check_denied_run now sid w :
  (∃ e w', check_denied (L := L) now sid w = (Err (session_revoked e), w')) ∨ check_denied (L := L) now sid w = (Ok (), w).
Proof.
  unfold check_denied. rewrite bind_run. unfold on_cache.
  assert (set_aw_cache (aw_cache w) w = w) as -> by by destruct w.
  destruct (Get _ _ _); [left; by eexists _, _|by right|].
  rewrite bind_run. unfold read_db, gets. 
  destruct (SessionByID sid _) as [ss|]; simpl; [destruct (sRevokedAt ss); [left|by right]|left]; by eexists _, _.
Qed.
End password.

(** A new two-step password ends access tokens, not sign-ins.  After it has been changed or
    removed, an access token issued before is refused as soon as the half-minute cache of
    the account's state has run out; but every refresh token of the account, those of
    other devices and of whoever else holds one included, still refreshes, and the access
    token it gives carries the new version. *)
Lemma password_change_spares_refresh_tokens `{AuthLimiter L} `{JWT T} `{UuidParse} `{Digest} `{Argon2}
    cfg user salt current new hint (w w' : auth_world L) now' :
  auth_ok (aw_db w) →
  Service_SetTwoStepPassword user salt current new hint w = (Ok (), w') →
  is_Some (SigningKeys cfg !! ActiveKeyID cfg) →
  (∀ a t0 dev sid tid, accounts (aw_db w) !! user = Some a → t0 ≤ now' → (user < 2 ^ 128)%N → (dev < 2 ^ 128)%N → (sid < 2 ^ 128)%N →
     Get now' (user_state_key user) (aw_cache w) = Missing →
     ∃ e, (AuthenticateToken cfg now' (IssueAccessToken cfg t0 user dev sid (a_token_version a) tid).1 w').1 = Err e ∧
       (Code e = CodeTokenExpired ∨ Code e = CodeSessionRevoked)) ∧
  (∀ k r a m token, sessions (aw_db w) !! k = Some r → se_user_id r = user → live_session r = true →
     now' < se_refresh_expires_at r → HashToken token = se_refresh_token_hash r →
     trim_space token ≠ ""%string → unheld (GenerateRefreshToken (mint_refresh m)).2 (aw_db w) →
     accounts (aw_db w) !! user = Some a → IsActive (scanUser (aw_db w) user a) = true →
     ∃ pair w'', Refresh cfg now' m token w' = (Ok pair, w'') ∧ tpSessionID pair = k ∧
       AccessToken pair = (IssueAccessToken cfg now' user (se_device_id r) k (a_token_version a + 1) (mint_token_id m)).1).
Proof.
  intros Hok (h & hi & ->)%SetTwoStepPassword_inv Hkey.
  assert (∀ a, accounts (aw_db w) !! user = Some a →
    accounts (SetTwoStepPassword user h hi (aw_db w)) !! user =
      Some (with_a_password_hash h (with_a_two_step_hint hi (with_a_two_step_enabled (if h is Some _ then true else false)
        (with_a_token_version (a_token_version a + 1) a))))) as Hacc.
  { intros a Ha. unfold SetTwoStepPassword, update_account. simpl. rewrite lookup_update_where, Ha. simpl.
    by rewrite bool_decide_true. }
  split.
  - intros a t0 dev sid tid Ha Ht0 Hu Hd Hs Hmiss. unfold AuthenticateToken.
    rewrite ParseAccessToken_issued by (done || lia). destruct (_ <=? now').
    { eexists. split; [reflexivity|]. by left. }
    rewrite bind_run. unfold or_fail. rewrite ParsedIdentity_issued by done. rewrite bind_run.
    destruct (check_denied_run now' sid (set_aw_db (SetTwoStepPassword user h hi (aw_db w)) w)) as [(e & w'' & ->)| ->].
    { eexists. split; [reflexivity|]. by right. }
    rewrite bind_run. edestruct (userWithCache_miss now' user (set_aw_db (SetTwoStepPassword user h hi (aw_db w)) w)) as [w'' ->];
      [done|by apply Hacc|]. simpl. rewrite bind_run. unfold fail_if at 1.
    rewrite (proj2 (Z.eqb_neq _ _)) by lia. eexists. split; [reflexivity|]. by right.
  - intros k r a m token Hk Hu Hl Hexp Hh Htrim Hun Ha Hact.
    edestruct (Refresh_live cfg now' m token (set_aw_db (SetTwoStepPassword user h hi (aw_db w)) w) k r)
      as (pair & w'' & Hrun & Hsid & Hat & _); [done| |exact Hk|done|done|done|exact Hun| | |].
    + intros k' r' Hk' Hh'. eapply (ok_hash _ Hok); [exact Hk'|exact Hk|congruence].
    + rewrite Hu. unfold UserByID.
      change (aw_db (set_aw_db ?d w)) with d. rewrite (Hacc a Ha). reflexivity.
    + exact Hact.
    + exists pair, w''. split; [exact Hrun|]. split; [done|]. rewrite Hat, Hu. done.
Qed.

(** ** Concrete libraries and a concrete account *)

(** A token that is its own contents. *)
#[export] Program Instance plain_jwt : JWT (string * string * Claims) := {|
  jwt_sign := λ key kid c, (key, kid, c);
  jwt_parse := λ keys issuer audience now t,
    let '(key, kid, c) := t in
    if bool_decide (keys kid = Some key) && bool_decide (Issuer c = issuer) && bool_decide (Audience c = audience)
    then if ExpiresAt c <=? now then Err JwtExpired else if now <? NotBefore c then Err JwtOther else Ok c
    else Err JwtOther;
|}.
Next Obligation. intros * Hk Hi Ha. simpl. by rewrite !bool_decide_true. Qed.

#[export] Instance canonical_uuid : UuidParse := {|
  uuid_Parse := λ s, Some (parse_uuid s);
  uuid_Parse_String := λ u Hu, f_equal Some (parse_uuid_String u Hu);
|}.
#[export] Instance plain_digest : Digest := {| sha256 := λ bs, bs |}.
#[export] Existing Instance toy_argon.

(** The Redis limiter behind the sign-in rules. *)
Definition rule_of (r : auth_rule) (rules : Rules) : Rule :=
  match r with
  | RuleOTPPerPhone => OTPPerPhone rules
  | RuleOTPPerIP => OTPPerIP rules
  | RuleLoginPerIP => LoginPerIP rules
  end.
#[export] Instance redis_auth_limiter : AuthLimiter limiter_state := {|
  auth_allow := λ now r subject l,
    let micros := now / microsecond in
    let rule := rule_of r (ls_rules l) in
    let '(res, redis) := Allow (ls_fail_open l) (ls_reachable l) micros micros (member_of micros (ls_counter l))
                           rule subject (ls_redis l) in
    (res, MkLimiterState redis (ls_reachable l) (ls_fail_open l) (ls_rules l)
            (if Limit rule <=? 0 then ls_counter l else (randomSuffix (ls_counter l)).2));
  auth_reset := λ r subject l,
    MkLimiterState (Reset (rule_of r (ls_rules l)) subject (ls_redis l)) (ls_reachable l) (ls_fail_open l)
      (ls_rules l) (ls_counter l);
|}.

Definition sample_config : AuthConfig :=
  MkAuthConfig 6 (5 * minute) 5 20 [] (15 * minute) (60 * 24 * hour) "sobh" "sobh-app" {[ "k1" := "secret" ]} "k1" false.
Definition sample_limiter : limiter_state := MkLimiterState ∅ true true (NewRules (MkRateLimits 5 20 50 300 600 60 100)) 0.
Definition empty_world : auth_world limiter_state := MkAuthWorld empty_authdb sample_limiter empty_cache [].

(** A first sign-in: the code is requested at second 1000 and given at 1010. *)
Definition sample_mints (n : N) : mints := MkMints (100 + n) (200 + n) (300 + n) "t" (λ k, replicate k n).
Definition sample_phone : string := "09123456789".
Definition sample_verify : VerifyOTPInput :=
  MkVerifyOTP sample_phone "000042" "" "Pixel" "android" "1.0" "ua" "".
Definition sample_signin : list (auth_op (T := string * string * Claims)) :=
  [OpRequestOTP (1000 * second) 42 1 true sample_phone "";
   OpVerifyOTP (1010 * second) (sample_mints 1) sample_verify].
Instance identity_fold : CaseFold := {| ToLower := λ s, s; pg_lower := λ s, s |}.
Definition signed_in : auth_world limiter_state := run_ops sample_config true false sample_signin empty_world.
Definition sample_token : string := RandomToken 48 (λ k, replicate k 1%N).

Example signed_in_session : se_user_id <$> sessions (aw_db signed_in) !! 301%N = Some 101%N.
Proof. vm_compute. reflexivity. Qed.

Lemma sample_signin_ok : auth_ok (aw_db signed_in).
Proof.
  apply (run_ops_stable sample_config true false (auth_ok_stable sample_config)); [by apply Forall_true|].
  apply auth_ok_empty.
Qed.

Lemma session_tables_in_order_witness :
  ∃ r dev, sessions (aw_db signed_in) !! 301%N = Some r ∧
    devices (core (aw_db signed_in)) !! se_device_id r = Some dev ∧ d_revoked_at dev = None.
Proof.
  destruct (session_tables_in_order sample_config true false empty_world sample_signin [] eq_refl) as (_ & Hdev & _).
  assert (∃ r, sessions (aw_db signed_in) !! 301%N = Some r ∧ se_revoked_at r = None) as (r & Hr & Hl)
    by (eexists; split; vm_compute; reflexivity).
  destruct (Hdev 301%N r Hr) as (dev & Hd & _ & Hlive). exists r, dev. split; [exact Hr|]. split; [exact Hd|].
  by apply Hlive.
Defined.

Lemma refresh_token_works_once_witness :
  ∃ pair w', Refresh (T := string * string * Claims) sample_config (2000 * second) (sample_mints 2) sample_token signed_in = (Ok pair, w') ∧
    Refresh (T := string * string * Claims) sample_config (3000 * second) (sample_mints 3) sample_token w' = (Err (rotate_error NoRecord), w').
Proof.
  destruct (run_is_Ok (Refresh (T := string * string * Claims) sample_config (2000 * second) (sample_mints 2) sample_token) signed_in)
    as [pair Hrun]; [vm_compute; reflexivity|].
  assert ((GenerateRefreshToken (mint_refresh (sample_mints 2))).2 ≠ HashToken sample_token) as Hnew by (vm_compute; discriminate).
  eexists pair, _. split; [exact Hrun|].
  exact (proj1 (proj2 (refresh_token_works_once sample_config true false (2000 * second) (sample_mints 2) sample_token
    signed_in pair _ sample_signin_ok Hnew Hrun)) [] (3000 * second) (sample_mints 3) (List.Forall_nil _)).
Defined.

Definition sample_logout : auth_op (T := string * string * Claims) := OpLogout (2000 * second) 101%N 301%N.
Lemma sample_logout_live : signs_out sample_logout 301%N (aw_db signed_in).
Proof. eexists. split; [vm_compute; reflexivity|]. split; [reflexivity|]. split; reflexivity. Qed.

Lemma signed_out_session_is_refused_witness :
  ∃ e, (AuthenticateToken sample_config (2001 * second)
          (IssueAccessToken sample_config (1010 * second) 101%N 201%N 301%N 0 "t").1
          (run_ops sample_config true false [] (run_op sample_config true false sample_logout signed_in))).1 = Err e ∧
    (Code e = CodeTokenExpired ∨ Code e = CodeSessionRevoked).
Proof.
  assert (c_up (aw_cache signed_in) = true) as Hup by reflexivity.
  assert (op_time sample_logout ≤ 2001 * second) as Hnow by (vm_compute; discriminate).
  assert (1010 * second ≤ op_time sample_logout) as Ht0 by (vm_compute; discriminate).
  assert (is_Some (SigningKeys sample_config !! ActiveKeyID sample_config)) as Hkey by by eexists.
  exact (proj1 (signed_out_session_is_refused sample_config true false sample_logout 301%N signed_in [] (2001 * second)
    sample_signin_ok sample_logout_live (List.Forall_nil _) Hnow) Hup (1010 * second) 101%N 201%N 0 "t"%string
    Hkey Ht0 eq_refl eq_refl eq_refl).
Defined.

(** A sign-out while the cache does not answer is not noticed when it answers again. *)
Example sign_out_without_the_cache :
  let token := (IssueAccessToken (T := string * string * Claims) sample_config (1900 * second) 101%N 201%N 301%N 0 "t").1 in
  let down := run_ops sample_config true false [OpCache (1950 * second) false; sample_logout] signed_in in
  let up := run_ops sample_config true false [OpCache (2100 * second) true] down in
  is_Ok (AuthenticateToken sample_config (2050 * second) token down).1 = false ∧
  is_Ok (AuthenticateToken sample_config (2200 * second) token up).1 = true.
Proof. split; vm_compute; reflexivity. Qed.

Definition sample_password (w : auth_world limiter_state) :=
  Service_SetTwoStepPassword (L := limiter_state) 101 (replicate 16 7%N) "" "correct horse" "" w.
Lemma sample_fresh : unheld (GenerateRefreshToken (mint_refresh (sample_mints 2))).2 (aw_db signed_in).
Proof.
  intros k r Hk Heq.
  assert (is_Some (one_row (holds_hash (GenerateRefreshToken (mint_refresh (sample_mints 2))).2) (sessions (aw_db signed_in)))) as [? Hrow].
  { destruct (one_row _ _) eqn:Hnone; [by eexists|]. rewrite one_row_None in Hnone.
    specialize (Hnone k r Hk). unfold holds_hash in Hnone. by rewrite bool_decide_true in Hnone. }
  vm_compute in Hrow. discriminate.
Qed.
Lemma sample_session : ∃ r a, sessions (aw_db signed_in) !! 301%N = Some r ∧ accounts (aw_db signed_in) !! 101%N = Some a ∧
  se_user_id r = 101%N ∧ live_session r = true ∧ 2000 * second < se_refresh_expires_at r ∧
  HashToken sample_token = se_refresh_token_hash r ∧ IsActive (scanUser (aw_db signed_in) 101 a) = true.
Proof. eexists _, _. split_and!; vm_compute; reflexivity. Qed.

Lemma password_change_spares_refresh_tokens_witness :
  ∃ w' pair w'', sample_password signed_in = (Ok (), w') ∧
    Refresh (T := string * string * Claims) sample_config (2000 * second) (sample_mints 2) sample_token w' = (Ok pair, w'').
Proof.
  destruct (run_is_Ok sample_password signed_in) as [[] Hrun]; [vm_compute; reflexivity|].
  destruct sample_session as (r & a & Hr & Ha & Hu & Hl & Hexp & Hh & Hact).
  assert (is_Some (SigningKeys sample_config !! ActiveKeyID sample_config)) as Hkey by by eexists.
  assert (trim_space sample_token ≠ ""%string) as Htrim by (vm_compute; discriminate).
  destruct (proj2 (password_change_spares_refresh_tokens sample_config 101 (replicate 16 7%N) "" "correct horse" "" signed_in _
    (2000 * second) sample_signin_ok Hrun Hkey) 301%N r a (sample_mints 2) sample_token Hr Hu Hl Hexp Hh Htrim sample_fresh Ha Hact)
    as (pair & w'' & Hrefresh & _).
  eexists _, pair, w''. split; [exact Hrun|exact Hrefresh].
Defined.
