(* ===== verification/SignInRace.v ===== *)
(** * Concurrent code checks ([consumeEmailCode], [VerifyOTP])

    Both checks of a one-time code are sequences of statements, and two requests
    interleave between them.  A thread is one request at one of its statements; a
    schedule says whose turn it is, and what else happens to the database between
    turns.  Run alone, a thread is the handler; run together, the threads show what
    the order of the statements is worth: an attempt spent before the comparison
    bounds the guesses, one spent after it does not. *)

From stdpp Require Import base tactics list gmap strings sorting.
From Stdlib Require Import ZArith Lia.
From S2P Require Import Prelude GoString Httpx Store EventLog RateLimit Ports Phone Security Cache AuthStore Auth Recovery AuthTheory SignOutTheory Pool.

Set Default Goal Selector "!".
Open Scope Z_scope.

(** ** A recovery code *)

Record email_guess := MkEmailGuess { eg_now : time; eg_user : uuid; eg_purpose : string; eg_code : string }.
(** The statement a request is at. *)
Inductive email_stage :=
| EmailStart
| EmailRead (id : uuid) (e : email_row)
| EmailOver (id : uuid)
| EmailRight (id : uuid) (e : email_row)
| EmailAnswered (r : result Error email_row).
(** [et_compared]: the challenge whose code the request's code was compared with. *)
Record email_thread := MkEmailThread { et_guess : email_guess; et_stage : email_stage; et_compared : option uuid }.

Definition email_step (t : email_thread) (d : authdb) : email_thread * authdb :=
  let g := et_guess t in
  let at_ s := MkEmailThread g s (et_compared t) in
  match et_stage t with
  | EmailStart =>
      (at_ match email_read (eg_now g) (eg_user g) (eg_purpose g) d with
           | Ok (id, e) => EmailRead id e
           | Err x => EmailAnswered (Err x)
           end, d)
  | EmailRead id e =>
      match BurnEmailAttempt id d with
      | (None, d') => (at_ (EmailAnswered (Err Internal)), d')
      | (Some n, d') =>
          (match email_check (eg_code g) n e with
           | EmailExceeded => at_ (EmailOver id)
           | EmailWrong => MkEmailThread g (EmailAnswered (Err code_invalid)) (Some id)
           | EmailMatch => MkEmailThread g (EmailRight id e) (Some id)
           end, d')
      end
  | EmailOver id =>
      (at_ (EmailAnswered (Err (Unauthorized CodeOTPAttemptsBurned "Too many attempts; ask for a new code"))),
       (ConsumeEmailChallenge (eg_now g) id d).2)
  | EmailRight id e =>
      let '(consumed, d') := ConsumeEmailChallenge (eg_now g) id d in
      (at_ (EmailAnswered (if consumed : bool then Ok e else Err code_invalid)), d')
  | EmailAnswered _ => (t, d)
  end.

Definition email_request (g : email_guess) : email_thread := MkEmailThread g EmailStart None.
Definition email_compared (id : uuid) (t : email_thread) : bool := bool_decide (et_compared t = Some id).
(** The request was told that its code is right. *)
Definition email_accepted (id : uuid) (t : email_thread) : bool :=
  email_compared id t && (if et_stage t is EmailAnswered (Ok _) then true else false).

Section email.
Context (id : uuid) (m a : Z).

Definition email_thread_ok (t : email_thread) : Prop :=
  match et_stage t with
  | EmailStart => et_compared t = None
  | EmailRead k e => et_compared t = None ∧ (k = id → e_max_attempts e = m)
  | EmailOver _ => et_compared t = None
  | EmailRight k _ => et_compared t = Some k
  | EmailAnswered _ => True
  end.
(** The counted comparisons are paid for and within the limit; who was accepted has
    claimed the challenge. *)
Record email_inv (l : list email_thread) (d : authdb) : Prop := {
  ei_threads : Forall email_thread_ok l;
  ei_row : ∃ e, email_challenges d !! id = Some e ∧ e_max_attempts e = m ∧
    a + tally (email_compared id) l ≤ e_attempts e ∧
    (tally (email_compared id) l = 0 ∨ a + tally (email_compared id) l ≤ m) ∧
    tally (email_accepted id) l ≤ one_if (negb (unconsumed id e));
}.

Lemma email_read_row now u p d k e : email_read now u p d = Ok (k, e) → email_challenges d !! k = Some e.
Proof.
  unfold email_read, LatestEmailChallenge. destruct (head _) as [[k' e']|] eqn:Hh; [|done].
  destruct (_ <? _); [done|]. intros [= -> ->]. apply head_Some_elem_of in Hh.
  unfold order_by_desc in Hh. rewrite elem_of_order_by in Hh. by apply elem_of_rows_where in Hh as [].
Qed.

(** A row of another challenge does not matter, and neither does a turn that leaves
    the counts alone. *)
Lemma email_inv_quiet l d d' i t t' :
  email_inv l d → l !! i = Some t → email_thread_ok t' →
  email_compared id t' = email_compared id t → email_accepted id t' = email_accepted id t →
  (∀ e, email_challenges d !! id = Some e → ∃ e', email_challenges d' !! id = Some e' ∧
     e_max_attempts e' = e_max_attempts e ∧ e_attempts e ≤ e_attempts e' ∧
     (unconsumed id e = false → unconsumed id e' = false)) →
  email_inv (<[i := t']> l) d'.
Proof.
  intros [Hall (e & He & Hm & Ha & Hlim & Hacc)] Hi Ht' Hc Hac Hrow. split; [by apply Forall_insert|].
  destruct (Hrow _ He) as (e' & He' & Hm' & Ha' & Hcons). exists e'.
  rewrite !(tally_insert _ _ _ _ _ Hi), Hc, Hac. split_and!; [done|lia|lia|lia|].
  unfold one_if in *. destruct (unconsumed id e) eqn:Hu; [|rewrite Hcons by done; simpl in *; lia].
  simpl in Hacc. destruct (unconsumed id e'); simpl; lia.
Qed.

Lemma Consume_row now k d e :
  email_challenges d !! id = Some e →
  ∃ e', email_challenges (ConsumeEmailChallenge now k d).2 !! id = Some e' ∧
    e_max_attempts e' = e_max_attempts e ∧ e_attempts e' = e_attempts e ∧
    (k = id ∨ unconsumed id e = false → unconsumed id e' = false).
Proof.
  intros He. unfold ConsumeEmailChallenge. simpl. rewrite lookup_update_where, He. simpl. eexists. split; [reflexivity|].
  unfold unconsumed. case_bool_decide; simpl; destruct (e_consumed_at e) eqn:Hc; simpl; rewrite ?Hc; naive_solver.
Qed.
Lemma Burn_row k d e :
  email_challenges d !! id = Some e →
  email_challenges (BurnEmailAttempt k d).2 !! id =
    Some (if bool_decide (k = id) then with_e_attempts (e_attempts e + 1) e else e).
Proof.
  intros He. unfold BurnEmailAttempt. simpl. case_bool_decide as Hk; [subst k|].
  - by rewrite lookup_alter_eq, He.
  - by rewrite lookup_alter_ne.
Qed.

(** The turn that spends an attempt. *)
Lemma email_inv_burn l d i t k e :
  email_inv l d → l !! i = Some t → et_stage t = EmailRead k e →
  email_inv (<[i := (email_step t d).1]> l) (email_step t d).2.
Proof.
  intros Hinv Hi Hs. pose proof Hinv as [Hall (r & Hr & Hm & Ha & Hlim & Hacc)].
  pose proof (Forall_lookup_1 _ _ _ _ Hall Hi) as Hok. unfold email_thread_ok in Hok. rewrite Hs in Hok.
  destruct Hok as [Hnone Hmax]. unfold email_step. rewrite Hs.
  pose proof (Burn_row k d _ Hr) as Hburn. destruct (BurnEmailAttempt k d) as [[n|] d'] eqn:Hb; simpl in Hburn |- *; cycle 1.
  { apply (email_inv_quiet l d _ _ t _ Hinv Hi); [done|by unfold email_compared; rewrite Hnone| |].
    - unfold email_accepted, email_compared. simpl. by rewrite Hs, Hnone.
    - intros r' Hr'. assert (r' = r) as -> by congruence. eexists. split; [exact Hburn|]. case_bool_decide; naive_solver lia. }
  case_bool_decide as Hk; cycle 1.
  { apply (email_inv_quiet l d _ _ t _ Hinv Hi).
    - unfold email_check. destruct (_ <? _); [done|]. by destruct (CompareTokenHash _ _).
    - unfold email_compared. rewrite Hnone. unfold email_check. destruct (_ <? _); [done|].
      destruct (CompareTokenHash _ _); simpl; case_bool_decide; congruence.
    - unfold email_accepted. rewrite Hs, andb_false_r. unfold email_check. destruct (_ <? _); [apply andb_false_r|].
      by destruct (CompareTokenHash _ _); apply andb_false_r.
    - intros r' Hr'. exists r. naive_solver lia. }
  subst k. specialize (Hmax eq_refl).
  assert (n = e_attempts r + 1) as ->.
  { unfold BurnEmailAttempt in Hb. rewrite Hr in Hb. simpl in Hb. congruence. }
  assert (email_compared id t = false) as Hct by by unfold email_compared; rewrite Hnone.
  assert (email_accepted id t = false) as Hat by by unfold email_accepted; rewrite Hct.
  unfold email_check. rewrite Hmax. destruct (Z.ltb_spec m (e_attempts r + 1)).
  { apply (email_inv_quiet l d _ _ t _ Hinv Hi); [done| | |].
    - unfold email_compared. by rewrite Hnone.
    - rewrite Hat. unfold email_accepted. simpl. apply andb_false_r.
    - intros r' Hr'. assert (r' = r) as -> by congruence. eexists. split; [exact Hburn|]. simpl. naive_solver lia. }
  split.
  - apply Forall_insert; [done|]. by destruct (CompareTokenHash _ _).
  - match goal with |- context [<[i := ?x]> l] => set (t' := x) end.
    assert (email_compared id t' = true ∧ email_accepted id t' = false) as [Hct' Hat'].
    { unfold t', email_accepted, email_compared. by destruct (CompareTokenHash _ _); simpl; rewrite bool_decide_true. }
    eexists. split; [exact Hburn|]. simpl. rewrite !(tally_insert _ _ _ _ _ Hi), Hct, Hat, Hct', Hat'. unfold one_if in *.
    split_and!; [done|lia|lia|]. unfold unconsumed in *. simpl. lia.
Qed.

Lemma email_inv_step l d i t :
  email_inv l d → l !! i = Some t → email_inv (<[i := (email_step t d).1]> l) (email_step t d).2.
Proof.
  intros Hinv Hi. pose proof Hinv as [Hall (r & Hr & Hm & Ha & Hlim & Hacc)].
  pose proof (Forall_lookup_1 _ _ _ _ Hall Hi) as Hok.
  destruct (et_stage t) as [|k e|k|k e|res] eqn:Hs; [|by eapply email_inv_burn| | |];
    unfold email_step, email_thread_ok in *; rewrite Hs in *; simpl in Hok |- *.
  - apply (email_inv_quiet l d _ _ t _ Hinv Hi); [|done| |naive_solver lia].
    + destruct (email_read _ _ _ d) as [[k e]|x] eqn:Hread; simpl; [|done].
      split; [done|]. intros ->. apply email_read_row in Hread. congruence.
    + unfold email_accepted, email_compared. simpl. by rewrite Hok.
  - apply (email_inv_quiet l d _ _ t _ Hinv Hi); [done|done| |].
    + unfold email_accepted, email_compared. simpl. by rewrite Hok.
    + intros e He. destruct (Consume_row (eg_now (et_guess t)) k _ _ He) as (e' & He' & ? & ? & ?). exists e'.
      naive_solver lia.
  - destruct (Consume_row (eg_now (et_guess t)) k _ _ Hr) as (e' & He' & Hm' & Ha' & Hc').
    destruct (ConsumeEmailChallenge _ k d) as [consumed d'] eqn:Hrun.
    injection Hrun as <- <-. simpl in He' |- *. split; [by apply Forall_insert|].
    set (t' := MkEmailThread _ _ _).
    assert (email_compared id t' = email_compared id t ∧ email_accepted id t = false) as [Hct Hat].
    { unfold email_accepted, email_compared. by rewrite Hs, andb_false_r. }
    assert (email_accepted id t' = bool_decide (k = id) && hits unconsumed (email_challenges d) k) as Hat'.
    { unfold email_accepted, email_compared, t'. simpl. rewrite Hok.
      rewrite (bool_decide_ext (Some k = Some id) (k = id)) by naive_solver. by destruct (hits _ _ _). }
    exists e'. rewrite !(tally_insert _ _ _ _ _ Hi), Hct, Hat, Hat'. split_and!; [done|lia|lia|lia|].
    assert (k = id → hits unconsumed (email_challenges d) k = unconsumed id r) as Hcons.
    { intros ->. unfold hits. by rewrite Hr. }
    unfold one_if in *. case_bool_decide as Hk; simpl.
    + rewrite Hc', (Hcons Hk) by by left. destruct (unconsumed id r); simpl in *; lia.
    + destruct (unconsumed id r) eqn:Hu; simpl in *; [|rewrite Hc' by (by right); simpl; lia].
      destruct (unconsumed id e'); simpl; lia.
  - apply (email_inv_quiet l d _ _ t _ Hinv Hi); [by unfold email_thread_ok; rewrite Hs|done|done|naive_solver lia].
Qed.
End email.

(** Run alone, a thread is [consumeEmailCode]. *)
Lemma email_thread_alone {L} g (w : auth_world L) :
  let c := (run_schedule email_step (replicate 3 (Thread 0)) ([email_request g], aw_db w)) in
  ∃ t, c.1 = [t] ∧ ∃ r, et_stage t = EmailAnswered r ∧
    consumeEmailCode (eg_now g) (eg_user g) (eg_purpose g) (eg_code g) w = (r, set_aw_db c.2 w).
Proof.
  unfold consumeEmailCode, read_db, exec, or_fail, fail_if, email_request, run_schedule, email_step, take_turn. simpl.
  unfold mbind, prog_bind, gets. simpl.
  destruct (email_read _ _ _ _) as [[k e]|x] eqn:Hread; simpl.
  2: { eexists. split; [done|]. eexists. split; [done|]. by destruct w. }
  destruct (email_challenges (aw_db w) !! k) as [r|] eqn:Hk; simpl.
  2: { apply email_read_row in Hread. congruence. }
  destruct (email_check _ _ _); simpl; (eexists; split; [done|]); eexists; (split; [done|]); [done|done|].
  by destruct (hits _ _ _).
Qed.

(** ** A sign-in code *)

Record otp_guess := MkOtpGuess { og_now : time; og_mints : mints; og_input : VerifyOTPInput }.
(** [OtpMissed]: the attempt is spent; [OtpPassed]: the code and the second factor
    are right; [OtpClaimed]: the challenge is the request's. *)
Inductive otp_stage {T : Type} :=
| OtpStart
| OtpAdmitted (phone : string)
| OtpJudged (phone : string) (id : uuid) (o : otp_row)
| OtpMissed (phone : string) (id : uuid) (o : otp_row) (attempts : option Z)
| OtpPassed (phone : string) (id : uuid) (user : option User)
| OtpClaimed (phone : string) (id : uuid) (user : option User)
| OtpAnswered (r : result Error (TokenPair T)).
Arguments otp_stage : clear implicits.
(** The challenges the request spent an attempt of, and claimed. *)
Record otp_thread {T : Type} := MkOtpThread {
  ot_guess : otp_guess; ot_stage : otp_stage T; ot_missed : option uuid; ot_claimed : option uuid }.
Arguments otp_thread : clear implicits.
Arguments MkOtpThread {T}.
Arguments ot_guess {T}.
Arguments ot_stage {T}.
Arguments ot_missed {T}.
Arguments ot_claimed {T}.

Section otp.
Context `{AuthLimiter L} `{JWT T} `{Digest} `{Argon2}.
Context (cfg : AuthConfig).

Definition otp_step (t : otp_thread T) (w : auth_world L) : otp_thread T * auth_world L :=
  let 'MkOtpThread (MkOtpGuess now m i as g) s missed claimed := t in
  let answer r := MkOtpThread g (OtpAnswered r) missed claimed in
  (* a part of the handler, and the stage its outcome leads to *)
  let advance {A} (part : prog (auth_world L) Error A) (next : A → otp_thread T) :=
    match part w with
    | (Ok a, w') => (next a, w')
    | (Err e, w') => (answer (Err e), w')
    end in
  let to s' := MkOtpThread g s' missed claimed in
  match s with
  | OtpStart => advance (admit_otp now i) (λ phone, to (OtpAdmitted phone))
  | OtpAdmitted phone => advance (read_otp phone) (λ '(id, o), to (OtpJudged phone id o))
  | OtpJudged phone id o =>
      match otp_check now (vi_Code i) o with
      | OtpExpired => (answer (Err otp_expired), w)
      | OtpBurned => (answer (Err otp_burned), w)
      | OtpWrong => advance (exec (BurnOTPAttempt id))
                      (λ n, MkOtpThread g (OtpMissed phone id o n) (Some id) claimed)
      | OtpMatch => advance (read_db (UserByPhone phone) ≫= λ user, second_factor now i user ≫= λ _, mret user)
                      (λ user, to (OtpPassed phone id user))
      end
  | OtpMissed phone id o n =>
      let '(r, w') := report_wrong now phone i o n w in (answer r, w')
  | OtpPassed phone id user =>
      advance (claim_otp now id) (λ _, MkOtpThread g (OtpClaimed phone id user) missed (Some id))
  | OtpClaimed phone id user =>
      let '(r, w') := finish_signin cfg now m i phone user w in (answer r, w')
  | OtpAnswered _ => (t, w)
  end.

Definition otp_request (g : otp_guess) : otp_thread T := MkOtpThread g OtpStart None None.
Definition missed (id : uuid) (t : otp_thread T) : bool := bool_decide (ot_missed t = Some id).
Definition claimed (id : uuid) (t : otp_thread T) : bool := bool_decide (ot_claimed t = Some id).

#[local] Opaque admit_otp read_otp exec report_wrong second_factor claim_otp finish_signin read_db.
(** Run alone, a thread is [VerifyOTP]. *)
Lemma otp_thread_alone g (w : auth_world L) :
  let c := run_schedule otp_step (replicate 5 (Thread 0)) ([otp_request g], w) in
  ∃ t, c.1 = [t] ∧ ∃ r, ot_stage t = OtpAnswered r ∧
    VerifyOTP cfg (og_now g) (og_mints g) (og_input g) w = (r, c.2).
Proof.
  destruct g as [now m i]. unfold otp_request, run_schedule. simpl. unfold VerifyOTP. rewrite bind_run.
  destruct (admit_otp now i w) as [[phone|e] w1] eqn:Hrun1; simpl; [|by eauto].
  rewrite bind_run. destruct (read_otp phone w1) as [[[id o]|e] w2] eqn:Hrun2; simpl; [|by eauto].
  destruct (otp_check now (vi_Code i) o) eqn:Hcheck; simpl; [by eauto|by eauto| |].
  - unfold wrong_code. rewrite bind_run. destruct (exec _ w2) as [[n|e] w3] eqn:Hrun3; simpl; [|by eauto].
    destruct (report_wrong _ _ _ _ _ w3) as [r w4] eqn:Hrun4. simpl. by eauto.
  - unfold accept_otp. rewrite !bind_run. destruct (read_db _ w2) as [[user|e] w3] eqn:Hrun3; simpl; [|by eauto].
    rewrite !bind_run. destruct (second_factor now i user w3) as [[[]|e] w4] eqn:Hrun4; simpl; [|by eauto].
    rewrite !bind_run. destruct (claim_otp now id w4) as [[[]|e] w5] eqn:Hrun5; simpl; [|by eauto].
    destruct (finish_signin _ _ _ _ _ _ w5) as [r w6] eqn:Hrun6. simpl. by eauto.
Qed.
#[local] Transparent admit_otp read_otp exec report_wrong second_factor claim_otp finish_signin read_db.

(** ** What a turn does to a challenge *)

Definition otp_spent (id : uuid) (d : authdb) : bool :=
  if otp_challenges d !! id ≫= o_consumed_at is Some _ then true else false.
Definition same_otp (id : uuid) (d d' : authdb) : Prop := otp_challenges d' !! id = otp_challenges d !! id.
Abbreviation otp_row_is id x := (on_db (λ d, otp_challenges d !! id = x)).

Lemma in_tx_state {S E A} (m : prog S E A) (P : S → Prop) s : P s → P (m s).2 → P (in_tx m s).2.
Proof. intros Hs Hm. unfold in_tx. by destruct (m s) as [[]]. Qed.
Lemma CreateUser_otp now id ph h dn d : otp_challenges (CreateUser now id ph h dn d).2 = otp_challenges d.
Proof.
  apply (in_tx_state _ (λ d', otp_challenges d' = otp_challenges d)); [done|].
  unfold mbind, prog_bind, insert_user, insert_event_counter, modify, gets, or_fail.
  repeat (case_bool_decide; [done|]). simpl. repeat (case_bool_decide; [done|]). simpl. by destruct (UserByID _ _).
Qed.
Lemma enrol_otp now id u n p v mx d : otp_challenges (enrol now id u n p v mx d).2 = otp_challenges d.
Proof.
  apply (in_tx_state _ (λ d', otp_challenges d' = otp_challenges d)); [done|].
  unfold mbind, prog_bind, in_core, modify. by destruct (UpsertDevice _ _ _ _) as [[]].
Qed.
Lemma CreateSession_otp now id u dv h exp ua d :
  otp_challenges (CreateSession now id u dv h exp ua d).2 = otp_challenges d.
Proof. unfold CreateSession. by repeat case_bool_decide. Qed.
#[local] Hint Rewrite CreateUser_otp enrol_otp CreateSession_otp : otp.
Ltac otp_kept := unfold on_db in *; simpl; autorewrite with otp; try done.

Lemma limit_otp id x now r s : keeps (otp_row_is id x) (checkLimit (L := L) now r s).
Proof. intros w Hw. unfold checkLimit. by destruct (auth_allow _ _ _ _) as [[r' []] l]; [|destruct (negb _)]. Qed.
Hint Resolve limit_otp : keeps.
Lemma admit_kept id x now i : keeps (otp_row_is id x) (admit_otp (L := L) now i).
Proof. unfold admit_otp. keeps_steps. Qed.
Lemma read_kept id x phone : keeps (otp_row_is id x) (read_otp (L := L) phone).
Proof. unfold read_otp. keeps_steps. Qed.
Lemma report_kept id x {A} now ph i o n : keeps (otp_row_is id x) (report_wrong (L := L) (A := A) now ph i o n).
Proof. unfold report_wrong. keeps_steps; otp_kept. Qed.
Lemma second_kept id x now i u : keeps (otp_row_is id x) (second_factor (L := L) now i u).
Proof. unfold second_factor. keeps_steps; otp_kept. Qed.
Lemma issue_kept id x now m u n p v ua : keeps (otp_row_is id x) (issueTokens (L := L) (T := T) cfg now m u n p v ua).
Proof. unfold issueTokens. keeps_steps; otp_kept. Qed.
Hint Resolve issue_kept : keeps.
Lemma finish_kept id x now m i ph u : keeps (otp_row_is id x) (finish_signin (L := L) (T := T) cfg now m i ph u).
Proof. unfold finish_signin, account_for. keeps_steps; otp_kept. Qed.

(** Reading a challenge changes nothing. *)
Lemma read_otp_inv phone (w w' : auth_world L) id o :
  read_otp phone w = (Ok (id, o), w') → w' = w ∧ otp_challenges (aw_db w) !! id = Some o.
Proof.
  unfold read_otp. rewrite bind_run. unfold read_db, gets, or_fail, LatestOTPChallenge.
  destruct (head _) as [[k r]|] eqn:Hh; [|done]. intros [= -> -> ->]. split; [done|].
  apply head_Some_elem_of in Hh. unfold order_by_desc in Hh. rewrite elem_of_order_by in Hh.
  by apply elem_of_rows_where in Hh as [].
Qed.
(** Claiming it, and what that needs. *)
Lemma claim_otp_inv now k (w : auth_world L) :
  let '(r, w') := claim_otp now k w in
  (∀ id, id ≠ k → same_otp id (aw_db w) (aw_db w')) ∧ (otp_spent k (aw_db w) = true → otp_spent k (aw_db w') = true) ∧
  (r = Ok () → otp_spent k (aw_db w) = false ∧ otp_spent k (aw_db w') = true).
Proof.
  unfold claim_otp. rewrite bind_run. unfold exec, ConsumeOTPChallenge, fail_if, same_otp, otp_spent. simpl.
  assert (∀ id, id ≠ k → update_where (λ k0 o, bool_decide (k0 = k) && (if o_consumed_at o is None then true else false))
    (λ _ o, with_o_consumed_at (Some now) o) (otp_challenges (aw_db w)) !! id = otp_challenges (aw_db w) !! id) as Hne.
  { intros id Hid. rewrite lookup_update_where, bool_decide_false by done. simpl.
    by destruct (otp_challenges (aw_db w) !! id). }
  unfold hits. destruct (otp_challenges (aw_db w) !! k) as [o|] eqn:Hk; simpl.
  - destruct (o_consumed_at o) eqn:Ho; simpl; split_and!; try done; rewrite lookup_update_where, Hk; simpl;
      rewrite bool_decide_true by done; rewrite Ho; simpl; by rewrite ?Ho.
  - split_and!; try done; by rewrite lookup_update_where, Hk.
Qed.

Lemma burn_otp id k (d : authdb) :
  otp_challenges (BurnOTPAttempt k d).2 !! id =
    (λ o, if bool_decide (k = id) then with_o_attempts (o_attempts o + 1) o else o) <$> otp_challenges d !! id.
Proof.
  unfold BurnOTPAttempt. simpl. case_bool_decide as Hk; [subst k; apply lookup_alter_eq|].
  rewrite lookup_alter_ne by done. by destruct (otp_challenges d !! id).
Qed.
Lemma kept_spent {A} id (part : prog (auth_world L) Error A) (w : auth_world L) :
  (∀ x, keeps (otp_row_is id x) part) → otp_spent id (aw_db (part w).2) = otp_spent id (aw_db w).
Proof. intros Hkeeps. unfold otp_spent. specialize (Hkeeps _ w eq_refl). unfold on_db in Hkeeps. by rewrite Hkeeps. Qed.

(** A turn gives the challenge away only while nobody has it. *)
Lemma otp_step_claims id (t : otp_thread T) (w : auth_world L) :
  one_if (claimed id (otp_step t w).1) + one_if (otp_spent id (aw_db w)) ≤
  one_if (claimed id t) + one_if (otp_spent id (aw_db (otp_step t w).2)).
Proof.
  destruct t as [[now m i] s mi cl]. unfold otp_step, claimed. destruct s as [|ph|ph k o|ph k o n|ph k u|ph k u|r]; simpl.
  - pose proof (kept_spent id (admit_otp now i) w (λ x, admit_kept id x now i)) as <-.
    destruct (admit_otp now i w) as [[a|e] w']; simpl; lia.
  - pose proof (kept_spent id (read_otp ph) w (λ x, read_kept id x ph)) as <-.
    destruct (read_otp ph w) as [[[k o]|e] w']; simpl; lia.
  - destruct (otp_check _ _ _); simpl; [lia|lia| |].
    + unfold otp_spent. simpl. rewrite lookup_alter. case_decide as Hk; [subst k|lia].
      destruct (otp_challenges (aw_db w) !! id); simpl; lia.
    + pose proof (kept_spent id (second_factor now i (UserByPhone ph (aw_db w))) w
        (λ x, second_kept id x now i (UserByPhone ph (aw_db w)))) as <-.
      rewrite bind_run. unfold read_db, gets. rewrite bind_run. destruct (second_factor _ _ _ w) as [[a|e] w']; simpl; lia.
  - pose proof (kept_spent id (report_wrong now ph i o n) w (λ x, report_kept id x (A := TokenPair T) now ph i o n)) as <-.
    destruct (report_wrong now ph i o n w) as [r w']; simpl; lia.
  - pose proof (claim_otp_inv now k w) as Hclaim. destruct (claim_otp now k w) as [[[]|e] w']; simpl in *;
      destruct Hclaim as (Hne & Hmono & Hok); destruct (decide (id = k)) as [->|Hid].
    + destruct (Hok eq_refl) as [-> ->]. destruct (bool_decide (Some k = _)); simpl; destruct (bool_decide _); simpl; lia.
    + specialize (Hne _ Hid). unfold otp_spent. rewrite Hne. rewrite (bool_decide_false (Some k = Some id)) by congruence.
      destruct (bool_decide _); simpl; lia.
    + destruct (otp_spent k (aw_db w)); [rewrite Hmono by done; lia|]. destruct (otp_spent k (aw_db w')); simpl; lia.
    + specialize (Hne _ Hid). unfold otp_spent. rewrite Hne. lia.
  - pose proof (kept_spent id (finish_signin cfg now m i ph u) w (λ x, finish_kept id x now m i ph u)) as <-.
    destruct (finish_signin cfg now m i ph u w) as [r w']; simpl; lia.
  - lia.
Qed.

(** Serving a request from beginning to end. *)
Definition otp_serve (t : otp_thread T) (w : auth_world L) : otp_thread T * auth_world L :=
  Nat.iter 5 (λ c, otp_step c.1 c.2) (t, w).
Definition answered (t : otp_thread T) : Prop := if ot_stage t is OtpAnswered _ then True else False.
Definition idle (t : otp_thread T) : Prop := t = otp_request (ot_guess t) ∨ answered t.

Lemma otp_step_answered t (w : auth_world L) :
  answered t → otp_step t w = (t, w).
Proof. by destruct t as [[] []]. Qed.

Lemma schedule_one n (t : otp_thread T) (w : auth_world L) :
  run_schedule otp_step (replicate n (Thread 0)) ([t], w) =
    (let c := Nat.iter n (λ c, otp_step c.1 c.2) (t, w) in ([c.1], c.2)).
Proof.
  revert t w. induction n as [|n IH]; intros t w; [done|]. rewrite Nat.iter_succ_r. simpl.
  destruct (otp_step t w) as [t' w'] eqn:Hs. simpl. apply IH.
Qed.
Lemma serve_answered (t : otp_thread T) (w : auth_world L) : idle t → answered (otp_serve t w).1.
Proof.
  intros [->|Ha].
  - destruct (otp_thread_alone (ot_guess t) w) as (t' & Ht & r & Hr & _). rewrite schedule_one in Ht.
    injection Ht as Ht. unfold otp_serve, answered. simpl. simpl in Ht. by rewrite Ht, Hr.
  - unfold otp_serve. assert (∀ n, Nat.iter n (λ c, otp_step c.1 c.2) (t, w) = (t, w)) as ->; [|done].
    intros n. induction n as [|n IH]; [done|]. simpl. rewrite IH. by apply otp_step_answered.
Qed.

(** A thread being served, next to others that have spent [n] attempts: what it read is
    still true, and the attempts are paid for. *)
Record serving (id : uuid) (m a n : Z) (t : otp_thread T) (d : authdb) : Prop := {
  sv_read : match ot_stage t with
            | OtpStart | OtpAdmitted _ => ot_missed t = None
            | OtpJudged _ k o => ot_missed t = None ∧ (k = id → otp_challenges d !! id = Some o)
            | _ => True
            end;
  sv_row : ∃ o, otp_challenges d !! id = Some o ∧ o_max_attempts o = m ∧
    a + n + one_if (missed id t) ≤ o_attempts o ∧
    (n + one_if (missed id t) = 0 ∨ a + n + one_if (missed id t) ≤ m);
}.
Lemma serving_kept id m a n t t' (d d' : authdb) :
  serving id m a n t d → ot_missed t' = ot_missed t →
  (if ot_stage t' is OtpAdmitted _ then ot_missed t = None
   else if ot_stage t' is (OtpStart | OtpJudged _ _ _) then False else True) →
  (∀ o, otp_challenges d !! id = Some o → ∃ o', otp_challenges d' !! id = Some o' ∧
     o_max_attempts o' = o_max_attempts o ∧ o_attempts o' = o_attempts o) →
  serving id m a n t' d'.
Proof.
  intros [_ (o & Ho & Hm & Ha & Hlim)] Hmiss Hstage Hrow. split.
  - rewrite Hmiss. by destruct (ot_stage t').
  - destruct (Hrow _ Ho) as (o' & Ho' & Hm' & Ha'). exists o'. unfold missed in *. rewrite Hmiss, Ha'. naive_solver.
Qed.

Lemma kept_row {A} id (part : prog (auth_world L) Error A) (w : auth_world L) o :
  (∀ x, keeps (otp_row_is id x) part) → otp_challenges (aw_db w) !! id = Some o →
  ∃ o', otp_challenges (aw_db (part w).2) !! id = Some o' ∧
    o_max_attempts o' = o_max_attempts o ∧ o_attempts o' = o_attempts o.
Proof. intros Hk Ho. exists o. split; [|done]. by apply (Hk (Some o)). Qed.
Lemma claim_otp_row id now k (w : auth_world L) o :
  otp_challenges (aw_db w) !! id = Some o →
  ∃ o', otp_challenges (aw_db (claim_otp now k w).2) !! id = Some o' ∧
    o_max_attempts o' = o_max_attempts o ∧ o_attempts o' = o_attempts o.
Proof.
  intros Ho. unfold claim_otp. rewrite bind_run. unfold exec, ConsumeOTPChallenge, fail_if. simpl.
  eexists. split.
  - destruct (hits _ _ _); simpl; rewrite lookup_update_where, Ho; reflexivity.
  - destruct (_ && _); done.
Qed.

Lemma serving_burn id m a n g ph k o cl (d : authdb) :
  serving id m a n (MkOtpThread g (OtpJudged ph k o) None cl) d → o_attempts o < o_max_attempts o →
  serving id m a n (MkOtpThread g (OtpMissed ph k o (BurnOTPAttempt k d).1) (Some k) cl) (BurnOTPAttempt k d).2.
Proof.
  intros [[_ Hcur] (r & Hr & Hm & Ha & Hlim)] Hlt. split; [done|]. rewrite burn_otp, Hr. simpl.
  eexists. split; [reflexivity|]. unfold missed in *. simpl in *.
  case_bool_decide as Hk.
  - subst k. assert (o = r) as -> by (specialize (Hcur eq_refl); congruence).
    rewrite bool_decide_true by done. simpl. split_and!; [done|lia|]. lia.
  - rewrite bool_decide_false by congruence. done.
Qed.

Lemma serving_step id m a n (t : otp_thread T) (w : auth_world L) :
  serving id m a n t (aw_db w) → serving id m a n (otp_step t w).1 (aw_db (otp_step t w).2).
Proof.
  intros Hsv. pose proof (sv_read _ _ _ _ _ _ Hsv) as Hread.
  destruct t as [[now m0 i] s mi cl]. unfold otp_step. destruct s as [|ph|ph k o|ph k o x|ph k u|ph k u|r]; simpl in Hread |- *.
  - pose proof (λ o, kept_row id (admit_otp now i) w o (λ x, admit_kept id x now i)) as Hrow.
    destruct (admit_otp now i w) as [[ph|e] w']; by eapply serving_kept.
  - pose proof (λ o, kept_row id (read_otp ph) w o (λ x, read_kept id x ph)) as Hrow.
    destruct (read_otp ph w) as [[[k o]|e] w'] eqn:Hrun; [|by eapply serving_kept].
    apply read_otp_inv in Hrun as [-> Ho]. split; [split; [done|by intros ->]|]. apply Hsv.
  - destruct (otp_check now (vi_Code i) o) eqn:Hcheck; [by eapply serving_kept; eauto|by eapply serving_kept; eauto| |].
    + unfold otp_check in Hcheck. destruct (_ <? now); [done|]. destruct (Z.leb_spec (o_max_attempts o) (o_attempts o)); [done|].
      destruct Hread as [-> _]. by apply serving_burn.
    + pose proof (λ o, kept_row id (second_factor now i (UserByPhone ph (aw_db w))) w o
        (λ x, second_kept id x now i (UserByPhone ph (aw_db w)))) as Hrow.
      rewrite bind_run. unfold read_db, gets. rewrite bind_run.
      destruct (second_factor _ _ _ w) as [[x|e] w']; by eapply serving_kept.
  - pose proof (λ y, kept_row id (report_wrong now ph i o x) w y
      (λ z, report_kept id z (A := TokenPair T) now ph i o x)) as Hrow.
    destruct (report_wrong now ph i o x w) as [r w']; by eapply serving_kept.
  - pose proof (claim_otp_row id now k w) as Hrow. destruct (claim_otp now k w) as [[[]|e] w']; by eapply serving_kept.
  - pose proof (λ o, kept_row id (finish_signin cfg now m0 i ph u) w o (λ x, finish_kept id x now m0 i ph u)) as Hrow.
    destruct (finish_signin cfg now m0 i ph u w) as [r w']; by eapply serving_kept.
  - done.
Qed.
Lemma serving_serve id m a n (t : otp_thread T) (w : auth_world L) :
  serving id m a n t (aw_db w) → serving id m a n (otp_serve t w).1 (aw_db (otp_serve t w).2).
Proof.
  intros Hsv. unfold otp_serve. generalize 5%nat. intros k. induction k as [|k IH]; [done|]. simpl.
  by apply serving_step.
Qed.

(** Requests served one after the other. *)
Record served_inv (id : uuid) (m a : Z) (l : list (otp_thread T)) (d : authdb) : Prop := {
  si_idle : Forall idle l;
  si_row : ∃ o, otp_challenges d !! id = Some o ∧ o_max_attempts o = m ∧
    a + tally (missed id) l ≤ o_attempts o ∧ (tally (missed id) l = 0 ∨ a + tally (missed id) l ≤ m);
}.
Lemma served_inv_turn id m a l (w : auth_world L) i t :
  served_inv id m a l (aw_db w) → l !! i = Some t →
  served_inv id m a (<[i := (otp_serve t w).1]> l) (aw_db (otp_serve t w).2).
Proof.
  intros [Hidle (o & Ho & Hm & Ha & Hlim)] Hi. pose proof (Forall_lookup_1 _ _ _ _ Hidle Hi) as Ht.
  assert (serving id m a (tally (missed id) l - one_if (missed id t)) t (aw_db w)) as Hsv.
  { split; [|exists o; split_and!; [done|done|lia|lia]].
    destruct Ht as [->|Hans]; [done|]. unfold answered in Hans. by destruct (ot_stage t). }
  destruct (serving_serve _ _ _ _ _ _ Hsv) as [_ (o' & Ho' & Hm' & Ha' & Hlim')].
  split; [apply Forall_insert; [done|]; right; by apply serve_answered|].
  exists o'. rewrite (tally_insert _ _ _ _ _ Hi). split_and!; [done|done|lia|lia].
Qed.

(** A request for the challenge that is past the limiter, and the verdict on its code. *)
Definition faces (phone : string) (o : otp_row) (v : otp_verdict) (g : otp_guess) : Prop :=
  NormalizePhone (vi_Phone (og_input g)) = Some phone ∧ vi_IP (og_input g) = ""%string ∧
  otp_check (og_now g) (vi_Code (og_input g)) o = v.
Definition burn_one (id : uuid) (w : auth_world L) : auth_world L := set_aw_db (BurnOTPAttempt id (aw_db w)).2 w.

Lemma burns_row id o n (w : auth_world L) :
  otp_challenges (aw_db w) !! id = Some o →
  otp_challenges (aw_db (Nat.iter n (burn_one id) w)) !! id =
    Some (with_o_attempts (o_attempts o + Z.of_nat n) o).
Proof.
  intros Ho. induction n as [|n IH].
  - simpl. rewrite Ho, Z.add_0_r. by destruct o.
  - change (aw_db (Nat.iter (S n) (burn_one id) w)) with (BurnOTPAttempt id (aw_db (Nat.iter n (burn_one id) w))).2.
    rewrite burn_otp, IH. simpl. rewrite bool_decide_true by done.
    unfold with_o_attempts. simpl. do 2 f_equal. lia.
Qed.
Lemma burns_users phone id n (w : auth_world L) :
  UserByPhone phone (aw_db (Nat.iter n (burn_one id) w)) = UserByPhone phone (aw_db w).
Proof.
  assert (accounts (aw_db (Nat.iter n (burn_one id) w)) = accounts (aw_db w) ∧
    core (aw_db (Nat.iter n (burn_one id) w)) = core (aw_db w)) as [Ha Hc].
  { induction n as [|n [IHa IHc]]; [done|]. done. }
  unfold UserByPhone, scanUser. by rewrite Ha, Hc.
Qed.

Definition at_stage (s : otp_stage T) (g : otp_guess) : otp_thread T := MkOtpThread g s None None.
(** A round in which nothing is written takes every request to the next stage. *)
Lemma quiet_round (w : auth_world L) s s' gs :
  (∀ g, g ∈ gs → otp_step (at_stage s g) w = (at_stage s' g, w)) →
  run_schedule otp_step (Thread <$> seq 0 (length gs)) (at_stage s <$> gs, w) = (at_stage s' <$> gs, w).
Proof.
  intros Hs. destruct (run_round otp_step (λ w', w' = w) (λ t t', t' = at_stage s' (ot_guess t)) id
    [] (at_stage s <$> gs) [] w) as (l' & Hrun & Hall); [|done|].
  { intros t w' (g & -> & Hg)%list_elem_of_fmap ->. eexists. split; [by apply Hs|done]. }
  rewrite !app_nil_r in Hrun. rewrite length_fmap in Hrun. simpl in Hrun. rewrite Hrun. f_equal.
  - clear Hs Hrun. revert l' Hall. induction gs as [|g gs IH]; intros l' Hall; inversion Hall; subst; [done|].
    simpl. f_equal. by apply IH.
  - clear. induction (length gs) as [|n IH]; [done|exact IH].
Qed.
(** All of them read the challenge before any of them spends an attempt. *)
Lemma requests_read (w : auth_world L) phone id o gs :
  LatestOTPChallenge phone "login" (aw_db w) = Some (id, o) → Forall (λ g, ∃ v, faces phone o v g) gs →
  run_schedule otp_step (Thread <$> seq 0 (length gs) ++ seq 0 (length gs)) (otp_request <$> gs, w) =
    (at_stage (OtpJudged phone id o) <$> gs, w).
Proof.
  intros Hlatest Hall. rewrite fmap_app. unfold run_schedule. rewrite foldl_app.
  pose proof (quiet_round w OtpStart (OtpAdmitted phone) gs) as H1'.
  pose proof (quiet_round w (OtpAdmitted phone) (OtpJudged phone id o) gs) as H2'.
  unfold run_schedule in *. change (otp_request <$> gs) with (at_stage OtpStart <$> gs). rewrite H1'; [apply H2'|];
    intros [now m i] Hg; rewrite Forall_forall in Hall; destruct (Hall _ Hg) as (v & Hph & Hip & Hv);
    unfold otp_step, at_stage; simpl in *.
  - unfold read_otp. rewrite bind_run. unfold read_db, gets. by rewrite Hlatest.
  - unfold admit_otp. rewrite Hph. rewrite bind_run. simpl. by rewrite Hip.
Qed.

(** Then all the wrong ones spend their attempts, and the right one is claimed. *)
Lemma wrong_step phone id o g (w : auth_world L) :
  faces phone o OtpWrong g →
  ∃ t', otp_step (at_stage (OtpJudged phone id o) g) w = (t', burn_one id w) ∧ missed id t' = true.
Proof.
  intros (_ & _ & Hv). destruct g as [now m i]. unfold otp_step, at_stage. simpl in Hv |- *. rewrite Hv.
  eexists. split; [reflexivity|]. unfold missed. simpl. by rewrite bool_decide_true.
Qed.
Lemma right_steps phone id o o' g (w : auth_world L) :
  faces phone o OtpMatch g → otp_challenges (aw_db w) !! id = Some o' → o_consumed_at o' = None →
  (∀ u, UserByPhone phone (aw_db w) = Some u → usTwoStepEnabled u = false) →
  let '(t1, w1) := otp_step (at_stage (OtpJudged phone id o) g) w in
  let '(t2, w2) := otp_step t1 w1 in
  missed id t2 = false ∧ claimed id t2 = true ∧
  otp_challenges (aw_db w2) !! id = Some (with_o_consumed_at (Some (og_now g)) o').
Proof.
  intros (_ & _ & Hv) Ho Hopen Htwo. destruct g as [now m i]. unfold otp_step at 2, at_stage. simpl in Hv |- *. rewrite Hv.
  rewrite bind_run. unfold read_db, gets. rewrite bind_run.
  assert (second_factor now i (UserByPhone phone (aw_db w)) w = (Ok (), w)) as ->.
  { unfold second_factor. destruct (UserByPhone phone (aw_db w)) as [u|]; [|done]. by rewrite (Htwo u). }
  simpl. unfold claim_otp. rewrite bind_run. unfold exec, ConsumeOTPChallenge, hits. simpl. rewrite Ho, Hopen. simpl.
  split_and!; [done|by unfold claimed; simpl; rewrite bool_decide_true|].
  rewrite lookup_update_where, Ho. simpl. by rewrite bool_decide_true, Hopen.
Qed.

Lemma otp_race phone id o (w : auth_world L) gs g :
  LatestOTPChallenge phone "login" (aw_db w) = Some (id, o) → otp_challenges (aw_db w) !! id = Some o →
  o_consumed_at o = None → Forall (faces phone o OtpWrong) gs → faces phone o OtpMatch g →
  (∀ u, UserByPhone phone (aw_db w) = Some u → usTwoStepEnabled u = false) →
  ∃ turns : list nat,
    let '(l, w') := run_schedule otp_step (Thread <$> turns) (otp_request <$> (gs ++ [g]), w) in
    tally (missed id) l = Z.of_nat (length gs) ∧
    (o_attempts <$> otp_challenges (aw_db w') !! id) = Some (o_attempts o + Z.of_nat (length gs)) ∧
    ∃ t, l !! length gs = Some t ∧ claimed id t = true.
Proof.
  intros Hlatest Ho Hopen Hgs Hg Htwo.
  exists ((seq 0 (length (gs ++ [g])) ++ seq 0 (length (gs ++ [g]))) ++ seq 0 (length gs) ++ [length gs; length gs]).
  rewrite (fmap_app Thread). unfold run_schedule. rewrite foldl_app.
  pose proof (requests_read w phone id o (gs ++ [g]) Hlatest) as Hread. unfold run_schedule in Hread.
  rewrite Hread; cycle 1.
  { apply Forall_app_2; [|constructor; [by eexists|constructor]]. eapply Forall_impl; [exact Hgs|]. intros x Hx. by eexists. }
  rewrite (fmap_app Thread), foldl_app.
  destruct (run_round otp_step (λ _, True) (λ _ t', missed id t' = true) (burn_one id) []
    (at_stage (OtpJudged phone id o) <$> gs) [at_stage (OtpJudged phone id o) g] w) as (l' & Hrun & Hall); [|done|].
  { intros t w' (x & -> & Hx)%list_elem_of_fmap _. rewrite Forall_forall in Hgs.
    destruct (wrong_step phone id o x w' (Hgs _ Hx)) as (t' & ? & ?). by exists t'. }
  assert (length l' = length gs) as Hlen by (apply Forall2_length in Hall; by rewrite length_fmap in Hall).
  rewrite length_fmap in Hrun. unfold run_schedule in Hrun. simpl app in Hrun. simpl length in Hrun.
  rewrite (fmap_app (at_stage _)). simpl (_ <$> [g]). rewrite Hrun.
  pose proof (burns_row id o (length gs) w Ho) as Hrow.
  pose proof (right_steps phone id o _ g _ Hg Hrow Hopen) as Hright.
  rewrite burns_users in Hright. specialize (Hright Htwo).
  destruct (otp_step _ (Nat.iter (length gs) _ w)) as [t1 w1] eqn:Hs1.
  destruct (otp_step t1 w1) as [t2 w2] eqn:Hs2. rewrite (last_twice _ _ _ _ _ _ _ _ _ Hlen Hs1 Hs2).
  destruct Hright as (Hmiss & Hclaim & Hfinal). rewrite Hfinal, tally_app, (tally_all _ l').
  - simpl. rewrite Hmiss, Hlen. split_and!; [lia|done|]. exists t2. by rewrite <-Hlen, lookup_app_r, Nat.sub_diag by done.
  - clear -Hall. induction Hall; by constructor.
Qed.
End otp.

(** C17: A recovery code is guessed a bounded number of times.  Any number of requests check
    codes of an e-mail challenge at once, in any interleaving of their statements, while
    anything else happens to the database that leaves that challenge alone: no more of
    them have their code compared with it than it had attempts left, and at most one is
    told that its code is right.  The attempt is spent before the comparison. *)
Theorem email_guesses_bounded id e (gs : list email_guess) (sched : list (turn authdb)) (d : authdb) :
  email_challenges d !! id = Some e →
  Forall (meanwhile (λ f, ∀ d, email_challenges (f d) !! id = email_challenges d !! id)) sched →
  let l := (run_schedule email_step sched (email_request <$> gs, d)).1 in
  tally (email_compared id) l ≤ Z.max 0 (e_max_attempts e - e_attempts e) ∧
  tally (email_accepted id) l ≤ 1.
Proof.
  intros He Henv l.
  destruct (run_schedule_keeps email_step (email_inv id (e_max_attempts e) (e_attempts e))
    (λ f, ∀ d, email_challenges (f d) !! id = email_challenges d !! id)
    (email_inv_step id _ _)) with (sched := sched) (c := (email_request <$> gs, d))
    as [_ (e' & _ & _ & _ & Hlim & Hacc)]; [|done| |].
  - intros l' d' f [Hall (e' & He' & Hrest)] Hf. split; [done|]. exists e'. by rewrite Hf.
  - split; [by apply Forall_fmap, Forall_true|]. exists e. simpl.
    rewrite !(tally_none _ (email_request <$> gs)) by (apply Forall_fmap, Forall_true; by intros).
    unfold one_if. split_and!; [done|done|lia|by left|by destruct (negb _)].
  - fold l in Hlim, Hacc. unfold one_if in Hacc. split; [lia|]. destruct (negb _); lia.
Qed.

(** A sign-in challenge is claimed once.  However many verifications run at once and
    however their statements interleave, with each other and with anything that leaves
    the challenge alone, at most one of them takes a given challenge, so a code signs in
    at most once; and none does when the challenge was used before they started. *)
Lemma otp_challenge_claimed_once `{AuthLimiter L} `{JWT T} `{Digest} `{Argon2}
    cfg id (gs : list otp_guess) (sched : list (turn (auth_world L))) (w : auth_world L) :
  Forall (meanwhile (λ f, ∀ w, otp_challenges (aw_db (f w)) !! id = otp_challenges (aw_db w) !! id)) sched →
  let l := (run_schedule (otp_step (T := T) cfg) sched (otp_request <$> gs, w)).1 in
  tally (claimed id) l ≤ 1 ∧ (otp_spent id (aw_db w) = true → tally (claimed id) l = 0).
Proof.
  intros Henv l. set (start := one_if (otp_spent id (aw_db w))).
  assert (tally (claimed id) l + start ≤ one_if (otp_spent id (aw_db
    (run_schedule (otp_step (T := T) cfg) sched (otp_request <$> gs, w)).2))) as Hinv.
  { apply (run_schedule_keeps (otp_step (T := T) cfg)
      (λ l w, tally (claimed id) l + start ≤ one_if (otp_spent id (aw_db w)))
      (λ f, ∀ w, otp_challenges (aw_db (f w)) !! id = otp_challenges (aw_db w) !! id)); [| |done|].
    - intros l' w' i t Hl Hi. rewrite (tally_insert _ _ _ _ _ Hi). pose proof (otp_step_claims cfg id t w'). lia.
    - intros l' w' f Hl Hf. unfold otp_spent in *. by rewrite Hf.
    - simpl. rewrite (tally_none _ (otp_request <$> gs)) by (apply Forall_fmap, Forall_true; by intros). done. }
  pose proof (tally_nonneg (claimed id) l). unfold start, one_if in *. split; [|intros Hs; rewrite Hs in Hinv];
    destruct (otp_spent id (aw_db w)), (otp_spent _ _); lia.
Qed.

(** The attempt limit of a sign-in code holds for requests served one after the other,
    and only for those.  Served in turn, in any order, no more wrong codes are compared
    with a challenge than it had attempts left.  But the limit is read with the challenge
    and the attempt is spent after the comparison: any number of verifications that read
    the challenge before the first of them spends its attempt all have their codes
    compared, and a right one among them, even the last, still takes the challenge when
    the count in the table is past the limit. *)
Lemma otp_attempts_bound_only_in_turn `{AuthLimiter L} `{JWT T} `{Digest} `{Argon2}
    cfg phone id o (w : auth_world L) :
  LatestOTPChallenge phone "login" (aw_db w) = Some (id, o) →
  (∀ (gs : list otp_guess) (turns : list nat),
     tally (missed id) (run_schedule (otp_serve (T := T) cfg) (Thread <$> turns) (otp_request <$> gs, w)).1
       ≤ Z.max 0 (o_max_attempts o - o_attempts o)) ∧
  (∀ (gs : list otp_guess) (g : otp_guess),
     Forall (faces phone o OtpWrong) gs → faces phone o OtpMatch g →
     (∀ u, UserByPhone phone (aw_db w) = Some u → usTwoStepEnabled u = false) →
     ∃ turns : list nat,
       let '(l, w') := run_schedule (otp_step (T := T) cfg) (Thread <$> turns) (otp_request <$> (gs ++ [g]), w) in
       tally (missed id) l = Z.of_nat (length gs) ∧
       (o_attempts <$> otp_challenges (aw_db w') !! id) = Some (o_attempts o + Z.of_nat (length gs)) ∧
       ∃ t, l !! length gs = Some t ∧ claimed id t = true).
Proof.
  intros Hlatest. assert (otp_challenges (aw_db w) !! id = Some o ∧ o_consumed_at o = None) as [Ho Hopen].
  { unfold LatestOTPChallenge in Hlatest. apply head_Some_elem_of in Hlatest. unfold order_by_desc in Hlatest.
    rewrite elem_of_order_by in Hlatest. apply elem_of_rows_where in Hlatest as [Ho Hopen]. split; [done|].
    unfold open_otp in Hopen. apply andb_prop in Hopen as [_ Hopen]. by destruct (o_consumed_at o). }
  split.
  - intros gs turns.
    destruct (run_schedule_keeps (otp_serve (T := T) cfg) (λ l w, served_inv id (o_max_attempts o) (o_attempts o) l (aw_db w))
      (λ _, False)) with (sched := Thread (W := auth_world L) <$> turns) (c := (otp_request (T := T) <$> gs, w))
      as [_ (o' & _ & _ & _ & Hlim)]; [|done| | |].
    + intros l w' i t. apply served_inv_turn.
    + apply threads_only.
    + split; [apply Forall_fmap, Forall_true; by left|]. exists o. simpl.
      rewrite !(tally_none _ (otp_request <$> gs)) by (apply Forall_fmap, Forall_true; by intros).
      split_and!; [done|done|lia|by left].
    + lia.
  - intros gs g Hgs Hg Htwo. exact (otp_race cfg phone id o w gs g Hlatest Ho Hopen Hgs Hg Htwo).
Qed.

(** ** Witnesses *)

(** A recovery code with five attempts, and eight requests that all read it first. *)
Definition sample_mail : authdb := with_email_challenges
  {[ 9%N := MkEmailRow 101 "a@b.ir" (HashToken "000042") "recover" 0 5 (2000 * second) None (1000 * second) ]} empty_authdb.
Definition sample_codes : list email_guess :=
  (λ c, MkEmailGuess (1001 * second) 101 "recover" c) <$> ["0"; "1"; "2"; "000042"; "000042"; "3"; "4"; "5"]%string.
Definition all_first (n : nat) : list nat := seq 0 n ++ seq 0 n ++ seq 0 n.
Lemma email_guesses_bounded_witness :
  let l := (run_schedule email_step (Thread <$> all_first 8) (email_request <$> sample_codes, sample_mail)).1 in
  (tally (email_compared 9) l ≤ 5 ∧ tally (email_accepted 9) l ≤ 1) ∧
  tally (email_compared 9) l = 5 ∧ tally (email_accepted 9) l = 1.
Proof.
  assert (email_challenges sample_mail !! 9%N =
    Some (MkEmailRow 101 "a@b.ir" (HashToken "000042") "recover" 0 5 (2000 * second) None (1000 * second))) as Hrow
    by reflexivity.
  intros l. split; [|split; vm_compute; reflexivity].
  exact (email_guesses_bounded 9%N _ sample_codes (Thread <$> all_first 8) sample_mail Hrow
    (threads_only _ _)).
Defined.

(** The challenge of the sample sign-in, and verifications that race for it. *)
Definition code_sent : auth_world limiter_state :=
  run_ops (T := string * string * Claims) sample_config true false
    [OpRequestOTP (1000 * second) 42 1 true sample_phone ""] empty_world.
Definition sample_attempt (n : N) (code : string) : otp_guess :=
  MkOtpGuess (1010 * second) (sample_mints n) (MkVerifyOTP sample_phone code "" "Pixel" "android" "1.0" "ua" "").
Lemma otp_challenge_claimed_once_witness :
  let l := (run_schedule (otp_step (T := string * string * Claims) sample_config) (Thread <$> all_first 3 ++ all_first 3)
              (otp_request <$> [sample_attempt 1 "000042"; sample_attempt 2 "000042"; sample_attempt 3 "000042"], code_sent)).1 in
  tally (claimed 1) l ≤ 1 ∧ tally (claimed 1) l = 1.
Proof.
  intros l. split; [|vm_compute; reflexivity].
  exact (proj1 (otp_challenge_claimed_once (T := string * string * Claims) sample_config 1%N
    [sample_attempt 1 "000042"; sample_attempt 2 "000042"; sample_attempt 3 "000042"]
    (Thread <$> all_first 3 ++ all_first 3) code_sent (threads_only _ _))).
Defined.

Definition sample_wrong : list otp_guess := replicate 7 (sample_attempt 1 "999999").
Lemma sample_faces : ∃ phone o,
  LatestOTPChallenge phone "login" (aw_db code_sent) = Some (1%N, o) ∧ o_max_attempts o = 5 ∧
  Forall (faces phone o OtpWrong) sample_wrong ∧ faces phone o OtpMatch (sample_attempt 2 "000042") ∧
  UserByPhone phone (aw_db code_sent) = None.
Proof.
  exists "+989123456789"%string. eexists. split; [vm_compute; reflexivity|]. split; [reflexivity|].
  split; [apply Forall_replicate|split]; unfold faces; try (split_and!; vm_compute; reflexivity). vm_compute. reflexivity.
Qed.
Lemma otp_attempts_bound_only_in_turn_witness :
  ∃ turns : list nat,
    let '(l, w') := run_schedule (otp_step (T := string * string * Claims) sample_config) (Thread <$> turns)
                      (otp_request <$> (sample_wrong ++ [sample_attempt 2 "000042"]), code_sent) in
    tally (missed 1) l = 7.
Proof.
  destruct sample_faces as (phone & o & Hlatest & Hmax & Hwrong & Hright & Hnew).
  assert (∀ u, UserByPhone phone (aw_db code_sent) = Some u → usTwoStepEnabled u = false) as Htwo
    by (intros u Hu; rewrite Hnew in Hu; discriminate Hu).
  destruct (proj2 (otp_attempts_bound_only_in_turn (T := string * string * Claims) sample_config phone 1%N o code_sent Hlatest)
    sample_wrong (sample_attempt 2 "000042") Hwrong Hright Htwo) as (turns & Hrace).
  exists turns. destruct (run_schedule _ _ _) as [l w']. exact (proj1 Hrace).
Defined.
