(* ===== verification/SignInTheory.v ===== *)
(** * Who can sign in

    What a successful [VerifyOTP] has checked and what it has created, and what an
    account recovery by e-mail changes and leaves. *)

From stdpp Require Import base tactics list gmap strings sorting.
From Stdlib Require Import ZArith Lia.
From S2P Require Import Prelude GoString Httpx Store EventLog RateLimit Ports Phone Security Cache AuthStore Auth Recovery AuthTheory SignOutTheory SignInRace.

Set Default Goal Selector "!".
Open Scope Z_scope.

Section signin.
Context `{AuthLimiter L} `{JWT T} `{UuidParse} `{Digest} `{Argon2}.
Context (cfg : AuthConfig).
Implicit Types (w : auth_world L) (d : authdb).

(** The account a sign-in of [user] ends in. *)
Definition signs_in_as (m : mints) (user : option User) (id : uuid) : Prop :=
  match user with
  | Some u => id = usID u ∧ IsActive u = true
  | None => id = mint_user m
  end.
(** The second factor was given, where the account has one. *)
Definition second_factor_given (i : VerifyOTPInput) (user : option User) : Prop :=
  ∀ u stored, user = Some u → usTwoStepEnabled u = true → usPasswordHash u = Some stored →
    VerifyPassword (vi_Password i) stored = Ok true.

Lemma admit_otp_inv now i w phone w' :
  admit_otp now i w = (Ok phone, w') → NormalizePhone (vi_Phone i) = Some phone ∧ aw_db w' = aw_db w.
Proof.
  unfold admit_otp. intros Hrun. apply bind_Ok_inv in Hrun as (ph & w1 & Hph & Hrun).
  apply or_fail_Ok_inv in Hph as [Hph ->]. apply bind_Ok_inv in Hrun as ([] & w2 & Hlim & Hrun).
  injection Hrun as -> ->. split; [done|].
  assert (keeps (on_db (λ d, d = aw_db w)) (if bool_decide (vi_IP i = ""%string) then mret ()
    else checkLimit (L := L) now RuleLoginPerIP (vi_IP i))) as Hk.
  { case_bool_decide; [apply keeps_ret|]. intros w0 Hw. unfold checkLimit.
    by destruct (auth_allow _ _ _ _) as [[r' []] l]; [|destruct (negb _)]. }
  specialize (Hk w eq_refl). by rewrite Hlim in Hk.
Qed.
Lemma second_factor_inv now i user w w' :
  second_factor (L := L) now i user w = (Ok (), w') → w' = w ∧ second_factor_given i user.
Proof.
  unfold second_factor, second_factor_given. destruct user as [u|]; [|intros [= <-]; split; [done|intros; exfalso; congruence]].
  destruct (usTwoStepEnabled u) eqn:Htwo; [|intros [= <-]; split; [done|intros; exfalso; congruence]].
  destruct (usPasswordHash u) as [stored|] eqn:Hhash; [|intros [= <-]; split; [done|intros; exfalso; congruence]].
  case_bool_decide; [done|]. destruct (VerifyPassword _ _) as [[]|] eqn:Hv; [|done|done].
  intros [= <-]. split; [done|]. intros u' s' [= <-] _. congruence.
Qed.
Lemma CreateUser_inv now id ph h dn d u d' :
  CreateUser now id ph h dn d = (Ok u, d') →
  usID u = id ∧ usTokenVersion u = 0 ∧ accounts d !! id = None ∧ sessions d' = sessions d ∧ devices (core d') = devices (core d) ∧
  otp_challenges d' = otp_challenges d.
Proof.
  unfold CreateUser. intros Hrun%in_tx_Ok_inv. revert Hrun.
  unfold mbind, prog_bind, insert_user, insert_event_counter, modify, gets, or_fail, UserByID.
  case_bool_decide as Hnew; [done|]. case_bool_decide; [done|]. simpl. case_bool_decide; [done|]. simpl.
  rewrite lookup_insert_eq. simpl. intros [= <- <-]. split_and!; try done. by apply eq_None_not_Some.
Qed.

(** Issuing the tokens: one new device under the cap, one new session. *)
Lemma issueTokens_inv now m u n p v ua w pair w' :
  issueTokens (T := T) cfg now m u n p v ua w = (Ok pair, w') →
  let r := MkSession (usID u) (mint_device m) (GenerateRefreshToken (mint_refresh m)).2 (now + RefreshTokenTTL cfg)
             None None None now now ua in
  devices (core (aw_db w)) !! mint_device m = None ∧
  count_where (live_device_of (usID u)) (devices (core (aw_db w))) < MaxDevicesPerUser cfg ∧
  devices (core (aw_db w')) = <[mint_device m := MkDevice (usID u) 0 None]> (devices (core (aw_db w))) ∧
  sessions (aw_db w) !! mint_session m = None ∧
  sessions (aw_db w') = <[mint_session m := r]> (sessions (aw_db w)) ∧
  tpUserID pair = usID u ∧ tpDeviceID pair = mint_device m ∧ tpSessionID pair = mint_session m ∧
  RefreshToken pair = (GenerateRefreshToken (mint_refresh m)).1.
Proof.
  unfold issueTokens. rewrite bind_run. unfold stmt at 1.
  destruct (enrol _ _ _ _ _ _ _ _) as [[dev|e] d1] eqn:Henrol; [|done].
  apply enrol_inv in Henrol as (-> & Hnew & Hsess & _ & _ & Hdev & Hcap). simpl.
  rewrite bind_run. unfold stmt. simpl. destruct (CreateSession _ _ _ _ _ _ _ d1) as [[s|e] d2] eqn:Hcreate; [|done].
  apply CreateSession_inv in Hcreate as (-> & Hid & _ & ->). simpl. intros [= <- <-]. simpl.
  rewrite Hsess in Hid |- *. done.
Qed.
Lemma finish_inv now m i phone user w pair w' :
  finish_signin (T := T) cfg now m i phone user w = (Ok pair, w') →
  let uid := tpUserID pair in
  let r := MkSession uid (tpDeviceID pair) (HashToken (RefreshToken pair)) (now + RefreshTokenTTL cfg)
             None None None now now (vi_UserAgent i) in
  signs_in_as m user uid ∧ IsNewAccount pair = (if user is None then true else false) ∧
  devices (core (aw_db w)) !! tpDeviceID pair = None ∧
  count_where (live_device_of uid) (devices (core (aw_db w))) < MaxDevicesPerUser cfg ∧
  devices (core (aw_db w')) = <[tpDeviceID pair := MkDevice uid 0 None]> (devices (core (aw_db w))) ∧
  sessions (aw_db w) !! tpSessionID pair = None ∧
  sessions (aw_db w') = <[tpSessionID pair := r]> (sessions (aw_db w)).
Proof.
  unfold finish_signin. intros Hrun. apply bind_Ok_inv in Hrun as (u & w1 & Hacc & Hrun).
  assert (signs_in_as m user (usID u) ∨ (user = None ∧ usID u = mint_user m)) as Has.
  { destruct user as [x|]; [|right; split; [done|]].
    - injection Hacc as <- <-. left. split; [done|]. prog_inv. by apply negb_false_iff.
    - unfold account_for, stmt in Hacc. destruct (CreateUser _ _ _ _ _ _) as [[y|e] d1] eqn:Hc; [|done].
      injection Hacc as -> _. by apply CreateUser_inv in Hc as (-> & _). }
  assert (sessions (aw_db w1) = sessions (aw_db w) ∧ devices (core (aw_db w1)) = devices (core (aw_db w))) as [Hs Hd].
  { destruct user as [x|]; [by injection Hacc as <- <-|].
    unfold account_for, stmt in Hacc. destruct (CreateUser _ _ _ _ _ _) as [[y|e] d1] eqn:Hc; [|done].
    injection Hacc as -> <-. by apply CreateUser_inv in Hc as (_ & _ & _ & Hs & Hd & _). }
  apply bind_Ok_inv in Hrun as ([] & w2 & Hact & Hrun). apply fail_if_Ok_inv in Hact as [Hact ->].
  apply bind_Ok_inv in Hrun as (p & w3 & Hissue & Hrun).
  apply issueTokens_inv in Hissue as (Hdn & Hcap & Hdev & Hsn & Hsess & Hu & Hdv & Hse & Hrt).
  assert (pair = MkTokenPair (AccessToken p) (RefreshToken p) (tpExpiresAt p) (tpUserID p)
    (tpDeviceID p) (tpSessionID p) (if user is None then true else false) ∧
    sessions (aw_db w') = sessions (aw_db w3) ∧ devices (core (aw_db w')) = devices (core (aw_db w3))) as (-> & Hs' & Hd').
  { revert Hrun. unfold exec_, modify, mbind, prog_bind. simpl. by intros [= <- <-]. }
  simpl. rewrite Hs', Hd', Hu, Hdv, Hse, Hrt, Hsess, Hdev, Hs, Hd in *.
  split_and!; try done. destruct Has as [?|[-> ->]]; done.
Qed.

Lemma claim_otp_core now k w w' :
  claim_otp now k w = (Ok (), w') → sessions (aw_db w') = sessions (aw_db w) ∧ core (aw_db w') = core (aw_db w).
Proof. unfold claim_otp. rewrite bind_run. unfold exec, ConsumeOTPChallenge, fail_if. simpl. by destruct (hits _ _ _); simpl; intros [= <-]. Qed.

(** ** Locked out

    Every session of the user is revoked while its devices still fill the cap. *)
Record locked_out (u : uuid) (d : authdb) : Prop := {
  lo_ok : auth_ok d;
  lo_sessions : ∀ k r, sessions d !! k = Some r → se_user_id r = u → live_session r = false;
  lo_cap : MaxDevicesPerUser cfg ≤ count_where (live_device_of u) (devices (core d));
}.

(** Revoking other users' devices does not free one. *)
Lemma revoke_other_devices now u (ids : list uuid) (ds : gmap uuid device_row) :
  (∀ k r, ds !! k = Some r → k ∈ ids → d_user_id r ≠ u) →
  count_where (live_device_of u) (update_where (λ k _, bool_decide (k ∈ ids))
    (λ _ r, MkDevice (d_user_id r) (d_sync_cursor r) (Some now)) ds) = count_where (live_device_of u) ds.
Proof.
  intros Hids. apply count_where_ext. intros k. rewrite lookup_update_where.
  destruct (ds !! k) as [r|] eqn:Hk; [|done]. simpl. case_bool_decide as Hin; [|done].
  unfold live_device_of. simpl. rewrite bool_decide_false by by eapply Hids. done.
Qed.
(** The devices of sessions that are live are not the locked-out user's. *)
Lemma locked_devices u d (ids : list uuid) :
  locked_out u d → (∀ k, k ∈ ids → ∃ s r, sessions d !! s = Some r ∧ se_device_id r = k ∧ live_session r = true) →
  ∀ k dv, devices (core d) !! k = Some dv → k ∈ ids → d_user_id dv ≠ u.
Proof.
  intros [Hok Hsess _] Hids k dv Hk Hin Hu. destruct (Hids k Hin) as (s & r & Hs & Hdev & Hlive).
  destruct (ok_device _ Hok s r Hs) as (dv' & Hdv & Huser & _). rewrite Hdev, Hk in Hdv. injection Hdv as <-.
  rewrite (Hsess s r Hs) in Hlive; [done|congruence].
Qed.

Lemma locked_RevokeSession now u v k reason d : locked_out u d → locked_out u (RevokeSession now v k reason d).2.
Proof.
  intros Hlo. pose proof (auth_ok_RevokeSession now v k reason d (lo_ok _ _ Hlo)) as Hok. revert Hok.
  unfold RevokeSession, in_tx. destruct (sessions d !! k) as [r|] eqn:Hk; [|done].
  destruct (bool_decide (se_user_id r = v)) eqn:Hv; [|done].
  destruct (live_session r) eqn:Hlive; [|done]. simpl. intros Hok. split; [done| |].
  - intros k' r'. simpl. intros [[<- <-]|[_ Hk']]%lookup_insert_Some; [done|by apply (lo_sessions _ _ Hlo k')].
  - simpl. rewrite revoke_other_devices; [apply Hlo|]. apply locked_devices; [done|].
    intros x ->%list_elem_of_singleton. by exists k, r.
Qed.
Lemma locked_RevokeAll now u v k reason d : locked_out u d → locked_out u (RevokeAllSessions now v k reason d).2.
Proof.
  intros Hlo. pose proof (auth_ok_RevokeAll now v k reason d (lo_ok _ _ Hlo)) as Hok. revert Hok.
  unfold RevokeAllSessions. simpl. set (rows := rows_where _ _). intros Hok. split; [done| |].
  - assert (∀ k' r', update_where (others_of v k) (λ _ r, revoke_row now (Some reason) r) (sessions d) !! k' = Some r' →
      se_user_id r' = u → live_session r' = false) as Hs.
    { intros k' r'. rewrite lookup_update_where. intros (r0 & Hk0 & ->)%fmap_Some.
      destruct (others_of _ _ _ _); [done|by apply (lo_sessions _ _ Hlo k')]. }
    case_bool_decide; exact Hs.
  - case_bool_decide; simpl; [apply Hlo|]. rewrite revoke_other_devices; [apply Hlo|]. apply locked_devices; [done|].
    intros x. rewrite <-list_fmap_compose. intros ([s r] & -> & Hin)%list_elem_of_fmap.
    apply elem_of_rows_where in Hin as [Hs Ho]. exists s, r. unfold others_of in Ho.
    by apply andb_prop in Ho as [[_ ?]%andb_prop _].
Qed.
Lemma locked_issue now u m x n p v ua : keeps (on_db (locked_out u)) (issueTokens (L := L) (T := T) cfg now m x n p v ua).
Proof.
  intros w Hlo. pose proof (keeps_auth_ok_issue cfg now m x n p v ua w (lo_ok _ _ Hlo)) as Hok. revert Hok.
  unfold issueTokens. rewrite bind_run. unfold stmt at 1 3.
  destruct (enrol _ _ _ _ _ _ _ _) as [[dev|e] d1] eqn:Henrol.
  2: { apply in_tx_Err in Henrol as ->. intros _. exact Hlo. }
  apply enrol_inv in Henrol as (-> & Hnew & Hsess & _ & _ & Hdev & Hcap). simpl.
  assert (usID x ≠ u) as Hne by (intros Heq; rewrite Heq in Hcap; pose proof (lo_cap _ _ Hlo); lia).
  assert (MaxDevicesPerUser cfg ≤ count_where (live_device_of u) (devices (core d1))) as Hcap1.
  { assert (live_device_of u (mint_device m) (MkDevice (usID x) 0 None) = false) as Hother
      by (unfold live_device_of; simpl; by rewrite bool_decide_false).
    rewrite Hdev, count_where_insert_new, Hother by done. pose proof (lo_cap _ _ Hlo). lia. }
  rewrite bind_run. unfold stmt. simpl. destruct (CreateSession _ _ _ _ _ _ _ d1) as [[s|e] d2] eqn:Hcreate; simpl.
  - apply CreateSession_inv in Hcreate as (-> & Hid & _ & ->). intros Hok. split; [done| |done].
    intros k r. simpl. intros [[<- <-]|[_ Hk]]%lookup_insert_Some; [by intros|].
    rewrite Hsess in Hk. by apply (lo_sessions _ _ Hlo k).
  - apply CreateSession_Err in Hcreate as ->. intros Hok. split; [done| |done].
    intros k r. simpl. rewrite Hsess. apply (lo_sessions _ _ Hlo).
Qed.
Lemma locked_out_stable u : stable (L := L) (T := T) cfg (λ _, True) (locked_out u).
Proof.
  split; auto using locked_RevokeSession, locked_RevokeAll, locked_issue.
  - intros d d' [Hs Hd] [Hok Hse Hcap]. split; [by apply (auth_ok_same d)|by rewrite Hs|by rewrite Hd].
  - intros now m old exp d _ [Hok Hse Hcap]. pose proof (auth_ok_rotate now old (GenerateRefreshToken (mint_refresh m)).2 exp d Hok) as Hok'.
    revert Hok'. destruct (RotateRefreshToken _ _ _ _ d) as [[s|e] d'] eqn:Hrun; [|by apply Rotate_Err in Hrun as ->].
    apply Rotate_inv in Hrun as (k & r & Hk & _ & Hlive & _ & _ & _ & ->). intros Hok'. split; [done| |done].
    intros k' r'. simpl. intros [[<- <-]|[_ Hk']]%lookup_insert_Some; [|by apply (Hse k')].
    intros Hu. by rewrite (Hse k r Hk Hu) in Hlive.
  - intros now v d [Hok Hse Hcap]. split; [by apply auth_ok_ResetTwoStep| |done].
    intros k r. simpl. rewrite lookup_update_where. intros (r0 & Hk0 & ->)%fmap_Some.
    destruct (_ && _); [done|by apply (Hse k)].
Qed.
End signin.

(** A challenge sent to the phone that is not used, and as new as any that is not. *)
Definition newest_unused (phone : string) (id : uuid) (o : otp_row) (d : authdb) : Prop :=
  (otp_challenges d !! id = Some o ∧ o_phone_number o = phone ∧ o_purpose o = "login"%string ∧ o_consumed_at o = None) ∧
  ∀ id' o', otp_challenges d !! id' = Some o' → o_phone_number o' = phone → o_purpose o' = "login"%string → o_consumed_at o' = None →
    o_created_at o' ≤ o_created_at o.
Lemma LatestOTPChallenge_newest phone id o d : LatestOTPChallenge phone "login" d = Some (id, o) → newest_unused phone id o d.
Proof.
  unfold LatestOTPChallenge, order_by_desc. intros Hhead. set (l := rows_where _ _) in Hhead.
  assert ((id, o) ∈ l ∧ ∀ y, y ∈ l → o_created_at y.2 ≤ o_created_at o) as [Hin Hmax].
  { setoid_rewrite <-(elem_of_order_by (λ r : uuid * otp_row, - o_created_at r.2)).
    pose proof (order_by_sorted (λ r : uuid * otp_row, - o_created_at r.2) l) as Hsorted.
    destruct (order_by _ l) as [|x xs]; [done|]. injection Hhead as ->. split; [by left|].
    apply StronglySorted_inv in Hsorted as [_ Hall]. intros y [->|Hy]%elem_of_cons; [done|].
    rewrite Forall_forall in Hall. specialize (Hall y Hy). unfold key_le in Hall. simpl in Hall. lia. }
  unfold l in *. apply elem_of_rows_where in Hin as [Ho Hopen]. unfold open_otp in Hopen.
  apply andb_true_iff in Hopen as [[Hp%bool_decide_eq_true Hq%bool_decide_eq_true]%andb_true_iff Hc].
  split; [split_and!; try done; by destruct (o_consumed_at o)|]. intros id' o' Ho' Hp' Hq' Hc'. apply (Hmax (id', o')).
  apply elem_of_rows_where. split; [done|]. unfold open_otp. by rewrite !bool_decide_true, Hc'.
Qed.

(** A successful verification, taken apart. *)
Definition verified `{Digest} `{Argon2} (cfg : AuthConfig) (now : time) (m : mints) (i : VerifyOTPInput)
    {T} (pair : TokenPair T) (d d' : authdb) : Prop :=
  ∃ phone id o,
    let uid := tpUserID pair in
    NormalizePhone (vi_Phone i) = Some phone ∧
    newest_unused phone id o d ∧
    (now ≤ o_expires_at o ∧ o_attempts o < o_max_attempts o ∧
     CompareTokenHash (trim_space (vi_Code i)) (o_code_hash o) = true) ∧
    second_factor_given i (UserByPhone phone d) ∧
    signs_in_as m (UserByPhone phone d) uid ∧
    IsNewAccount pair = (if UserByPhone phone d is None then true else false) ∧
    (otp_spent id d = false ∧ otp_spent id d' = true) ∧
    count_where (live_device_of uid) (devices (core d)) < MaxDevicesPerUser cfg ∧
    devices (core d) !! tpDeviceID pair = None ∧
    devices (core d') = <[tpDeviceID pair := MkDevice uid 0 None]> (devices (core d)) ∧
    sessions d !! tpSessionID pair = None ∧
    sessions d' = <[tpSessionID pair := MkSession uid (tpDeviceID pair) (HashToken (RefreshToken pair))
                      (now + RefreshTokenTTL cfg) None None None now now (vi_UserAgent i)]> (sessions d).

Lemma VerifyOTP_verified `{AuthLimiter L} `{JWT T} `{Digest} `{Argon2}
    cfg now m i (w : auth_world L) (pair : TokenPair T) w' :
  VerifyOTP cfg now m i w = (Ok pair, w') → verified cfg now m i pair (aw_db w) (aw_db w').
Proof.
  unfold VerifyOTP. intros Hrun. apply bind_Ok_inv in Hrun as (phone & w1 & Hadmit & Hrun).
  apply admit_otp_inv in Hadmit as [Hphone Hdb1].
  apply bind_Ok_inv in Hrun as ([id o] & w2 & Hread & Hrun).
  assert (w2 = w1 ∧ LatestOTPChallenge phone "login" (aw_db w1) = Some (id, o)) as [-> Hlatest].
  { revert Hread. unfold read_otp. rewrite bind_run. unfold read_db, gets. by intros [? ->]%or_fail_Ok_inv. }
  unfold otp_check in Hrun. destruct (Z.ltb_spec (o_expires_at o) now); [done|].
  destruct (Z.leb_spec (o_max_attempts o) (o_attempts o)); [done|].
  destruct (CompareTokenHash _ _) eqn:Hcode.
  2: { exfalso. revert Hrun. unfold wrong_code, report_wrong. intros Hrun.
       apply bind_Ok_inv in Hrun as (n & w3 & _ & Hrun). apply bind_Ok_inv in Hrun as (u & w4 & _ & Hrun).
       apply bind_Ok_inv in Hrun as (x & w5 & _ & Hrun). by destruct (_ <=? _). }
  unfold accept_otp in Hrun. apply bind_Ok_inv in Hrun as (user & w3 & Huser & Hrun). injection Huser as Huser <-.
  apply bind_Ok_inv in Hrun as ([] & w4 & Hsecond & Hrun). apply second_factor_inv in Hsecond as [-> Hsecond].
  apply bind_Ok_inv in Hrun as ([] & w5 & Hclaim & Hrun).
  pose proof (claim_otp_inv now id w1) as Hspent. rewrite Hclaim in Hspent. destruct Hspent as (_ & _ & Hspent).
  destruct (Hspent eq_refl) as [Hopen Hspent']. apply claim_otp_core in Hclaim as [Hs5 Hc5].
  pose proof (finish_kept cfg id _ now m i phone user w5 eq_refl) as Hkept.
  rewrite Hrun in Hkept. unfold on_db in Hkept. simpl in Hkept.
  apply finish_inv in Hrun as (Has & Hnew & Hdn & Hcap & Hdev & Hsn & Hsess).
  rewrite Hs5, Hc5, Hdb1 in *. subst user.
  apply LatestOTPChallenge_newest in Hlatest. exists phone, id, o. unfold otp_spent in *. rewrite Hkept. done.
Qed.

(** C16: A sign-in proves the phone, and the second factor.  When [VerifyOTP] succeeds, the code
    is that of the newest challenge sent to the normalised phone that is not used, which is
    unexpired and with attempts left (a code sent before it counts again once it is used); the two-step password is right, where the phone's account has one; the account
    is the phone's and is active, or is new when there was none.  The challenge is spent, one
    device is enrolled under the cap, and one session is created that holds the hash
    of the refresh token in the answer; no other session or device changes. *)
Theorem VerifyOTP_authenticates `{AuthLimiter L} `{JWT T} `{Digest} `{Argon2}
    cfg now m i (w : auth_world L) (pair : TokenPair T) w' :
  VerifyOTP cfg now m i w = (Ok pair, w') → verified cfg now m i pair (aw_db w) (aw_db w').
Proof. apply VerifyOTP_verified. Qed.

Lemma consumeEmailCode_inv {L} `{Digest} now u p code (w : auth_world L) e w' :
  consumeEmailCode now u p code w = (Ok e, w') →
  ∃ id, LatestEmailChallenge u p (aw_db w) = Some (id, e) ∧ now ≤ e_expires_at e ∧
    e_attempts e < e_max_attempts e ∧ CompareTokenHash code (e_code_hash e) = true ∧
    sessions (aw_db w') = sessions (aw_db w) ∧ accounts (aw_db w') = accounts (aw_db w) ∧
    core (aw_db w') = core (aw_db w) ∧ aw_cache w' = aw_cache w.
Proof.
  unfold consumeEmailCode. rewrite bind_run. unfold read_db, gets.
  destruct (email_read now u p (aw_db w)) as [[id ch]|x] eqn:Hread; [|done]. rewrite bind_run. unfold exec at 1.
  assert (email_challenges (aw_db w) !! id = Some ch) as Hrow by by eapply email_read_row.
  unfold BurnEmailAttempt. rewrite Hrow. simpl. unfold email_read in Hread.
  destruct (LatestEmailChallenge u p (aw_db w)) as [[k c]|] eqn:Hlatest; [|done].
  destruct (Z.ltb_spec (e_expires_at c) now); [done|]. injection Hread as -> ->.
  rewrite bind_run. simpl. unfold email_check. destruct (Z.ltb_spec (e_max_attempts ch) (e_attempts ch + 1)); [done|].
  destruct (CompareTokenHash _ _) eqn:Hcode; [|done]. rewrite bind_run. unfold exec, ConsumeEmailChallenge. simpl.
  destruct (hits _ _ _); [|done]. intros [= <- <-]. exists id. simpl. split_and!; try done. lia.
Qed.

(** Completing a recovery, taken apart. *)
Lemma CompleteEmailRecovery_inv {L} `{Digest} `{CaseFold} now email code (w : auth_world L) w' :
  CompleteEmailRecovery now email code w = (Ok (), w') →
  ∃ u id e d1, UserByRecoveryEmail (ToLower (trim_space email)) (aw_db w) = Some u ∧
    LatestEmailChallenge (usID u) "recover" (aw_db w) = Some (id, e) ∧
    (now ≤ e_expires_at e ∧ e_attempts e < e_max_attempts e ∧ CompareTokenHash code (e_code_hash e) = true) ∧
    sessions d1 = sessions (aw_db w) ∧ accounts d1 = accounts (aw_db w) ∧ core d1 = core (aw_db w) ∧
    aw_db w' = ResetTwoStep now (usID u) d1 ∧ aw_cache w' = aw_cache w.
Proof.
  unfold CompleteEmailRecovery. rewrite bind_run. unfold read_db, gets. intros Hrun.
  apply bind_Ok_inv in Hrun as (u & w1 & Hu & Hrun). apply or_fail_Ok_inv in Hu as [Hu ->].
  apply bind_Ok_inv in Hrun as (e & w2 & Hcode & Hrun).
  apply consumeEmailCode_inv in Hcode as (id & Hlatest & He & Ha & Hc & Hs & Hac & Hco & Hca).
  injection Hrun as <-. exists u, id, e, (aw_db w2). done.
Qed.

(** Recovery by e-mail clears the second factor and signs everybody out.  It succeeds only
    with the right, unexpired code last sent to an account that proved the address;
    then that account has no two-step password, its token version is one higher, all
    its sessions are revoked, other accounts and sessions are as they were, and no
    session is created for whoever completed it.  Its devices stay registered and
    the cache is not told. *)
Lemma recovery_clears_second_factor {L} `{Digest} `{CaseFold} now email code (w : auth_world L) w' :
  CompleteEmailRecovery now email code w = (Ok (), w') →
  ∃ uid a id e,
    accounts (aw_db w) !! uid = Some a ∧
    (∃ r, a_recovery_email a = Some r ∧ pg_lower r = pg_lower (ToLower (trim_space email))) ∧
    a_email_verified_at a ≠ None ∧
    LatestEmailChallenge uid "recover" (aw_db w) = Some (id, e) ∧
    (now ≤ e_expires_at e ∧ e_attempts e < e_max_attempts e ∧ CompareTokenHash code (e_code_hash e) = true) ∧
    (∃ a', accounts (aw_db w') !! uid = Some a' ∧ a_password_hash a' = None ∧ a_two_step_enabled a' = false ∧
       a_token_version a' = a_token_version a + 1 ∧ a_status a' = a_status a ∧ a_phone_number a' = a_phone_number a) ∧
    (∀ v, v ≠ uid → accounts (aw_db w') !! v = accounts (aw_db w) !! v) ∧
    (∀ k r', sessions (aw_db w') !! k = Some r' →
       ∃ r, sessions (aw_db w) !! k = Some r ∧ se_user_id r' = se_user_id r ∧
         (if decide (se_user_id r = uid) then se_revoked_at r' ≠ None else r' = r)) ∧
    core (aw_db w') = core (aw_db w) ∧ aw_cache w' = aw_cache w.
Proof.
  intros (u & id & e & d1 & Hu & Hlatest & (He1 & He2 & He3) & Hs & Ha & Hc & Hdb & Hcache)%CompleteEmailRecovery_inv.
  unfold UserByRecoveryEmail in Hu. apply fmap_Some in Hu as ([uid a] & [Hacc Hrec]%one_row_Some & ->).
  simpl in Hlatest, Hdb. exists uid, a, id, e. rewrite Hdb. unfold recovers in Hrec.
  destruct (a_recovery_email a) as [r|] eqn:Hemail; [|done].
  apply andb_prop in Hrec as [[Hlow%bool_decide_eq_true_1 Hver]%andb_prop _].
  split_and!; try done.
  - by exists r.
  - intros Hnone. by rewrite Hnone in Hver.
  - eexists. unfold ResetTwoStep, update_account. simpl. rewrite lookup_update_where, Ha, Hacc. simpl.
    rewrite bool_decide_true by done. by split; [reflexivity|].
  - intros v Hv. unfold ResetTwoStep, update_account. simpl. rewrite lookup_update_where, Ha.
    rewrite bool_decide_false by done. by destruct (accounts (aw_db w) !! v).
  - intros k r'. unfold ResetTwoStep. simpl. rewrite lookup_update_where, Hs. intros (r0 & Hk & ->)%fmap_Some.
    exists r0. split; [done|]. unfold live_session. case_decide as Huser.
    + rewrite bool_decide_true by done. destruct (se_revoked_at r0) eqn:Hr; simpl; [by rewrite Hr|done].
    + rewrite bool_decide_false by done. done.
Qed.

(** A recovery at the device cap locks the owner out.  The recovery revokes the sessions
    but not the devices they were on, and a device can be removed through its session
    only.  So when the account had filled its device cap, then from that moment,
    whatever the identity module goes on to do, every sign-in to the account is
    refused, and no session of the account is left that could be signed out. *)
Lemma recovery_at_device_cap_locks_out `{AuthLimiter L} `{JWT T} `{UuidParse} `{Digest} `{Argon2} `{CaseFold}
    cfg deliverable echo now email code (w w' : auth_world L) uid (ops : list (auth_op (T := T))) :
  auth_ok (aw_db w) →
  CompleteEmailRecovery now email code w = (Ok (), w') →
  (∃ u, UserByRecoveryEmail (ToLower (trim_space email)) (aw_db w) = Some u ∧ usID u = uid) →
  MaxDevicesPerUser cfg ≤ count_where (live_device_of uid) (devices (core (aw_db w))) →
  let w'' := run_ops cfg deliverable echo ops w' in
  (∀ now' m i phone, NormalizePhone (vi_Phone i) = Some phone → usID <$> UserByPhone phone (aw_db w'') = Some uid →
     is_Ok (VerifyOTP (T := T) cfg now' m i w'').1 = false) ∧
  (∀ now' k reason, (RevokeSession now' uid k reason (aw_db w'')).1 = Err NoRecord).
Proof.
  intros Hok Hrun (u & Hu & <-) Hcap w''.
  apply CompleteEmailRecovery_inv in Hrun as (u' & id & e & d1 & Hu' & _ & _ & Hs & Ha & Hc & Hdb & _).
  assert (u' = u) as -> by congruence.
  assert (locked_out cfg (usID u) (aw_db w'')) as [Hok'' Hsess Hcap''].
  { apply (run_ops_stable cfg deliverable echo (locked_out_stable cfg (usID u))); [by apply Forall_true|].
    rewrite Hdb. split; [apply auth_ok_ResetTwoStep; by apply (auth_ok_same (aw_db w)); [..|rewrite Hc|]| |].
    - intros k r. simpl. rewrite lookup_update_where. intros (r0 & _ & ->)%fmap_Some.
      destruct (bool_decide (se_user_id r0 = usID u)) eqn:Huser; simpl; [by destruct (live_session r0) eqn:?|].
      intros Heq. by rewrite bool_decide_true in Huser.
    - simpl. by rewrite Hc. }
  split.
  - intros now' m i phone Hphone Hby. destruct (VerifyOTP cfg now' m i w'') as [[pair|x] w3] eqn:Hverify; [|done]. exfalso.
    apply VerifyOTP_verified in Hverify as (ph & k & o & Hph & _ & _ & _ & Has & _ & _ & Hcount & _).
    assert (ph = phone) as -> by congruence. destruct (UserByPhone phone (aw_db w'')) as [v|]; [|done].
    injection Hby as Hby. destruct Has as [Has _]. rewrite Has, Hby in Hcount. lia.
  - intros now' k reason. unfold RevokeSession, in_tx. destruct (sessions (aw_db w'') !! k) as [r|] eqn:Hk; [|done].
    case_bool_decide as Huser; [|done]. by rewrite (Hsess k r Hk Huser).
Qed.

(** ** Witnesses *)

(** A code superseded by a newer one is accepted again when the newer one has been used. *)
Definition two_codes : auth_world limiter_state :=
  run_ops sample_config true false
    [OpRequestOTP (1000 * second) 42 1 true sample_phone ""; OpRequestOTP (1070 * second) 43 2 true sample_phone "";
     OpVerifyOTP (T := string * string * Claims) (1080 * second) (sample_mints 1)
       (MkVerifyOTP sample_phone "000043" "" "Pixel" "android" "1.0" "ua" "")] empty_world.
Example superseded_code_is_accepted :
  se_user_id <$> sessions (aw_db two_codes) !! 301%N = Some 101%N ∧
  is_Ok (VerifyOTP (T := string * string * Claims) sample_config (1090 * second) (sample_mints 2)
    (MkVerifyOTP sample_phone "000042" "" "Pixel" "android" "1.0" "ua" "") two_codes).1 = true.
Proof. split; vm_compute; reflexivity. Qed.

Lemma VerifyOTP_authenticates_witness : ∃ pair : TokenPair (string * string * Claims), ∃ w',
  VerifyOTP sample_config (1010 * second) (sample_mints 1) sample_verify code_sent = (Ok pair, w') ∧
  verified sample_config (1010 * second) (sample_mints 1) sample_verify pair (aw_db code_sent) (aw_db w').
Proof.
  destruct (run_is_Ok (VerifyOTP (T := string * string * Claims) sample_config (1010 * second) (sample_mints 1) sample_verify)
    code_sent) as [pair Hrun]; [vm_compute; reflexivity|].
  eexists pair, _. split; [exact Hrun|].
  exact (VerifyOTP_authenticates sample_config (1010 * second) (sample_mints 1) sample_verify code_sent pair _ Hrun).
Defined.

(** One device allowed: the owner signs in, protects the account, proves an address and
    asks for a recovery code. *)
Definition one_device : AuthConfig :=
  MkAuthConfig 6 (5 * minute) 5 1 [] (15 * minute) (60 * 24 * hour) "sobh" "sobh-app" {[ "k1" := "secret" ]} "k1" false.
Definition sample_owner : list (auth_op (T := string * string * Claims)) :=
  sample_signin ++
  [OpSetTwoStep (1050 * second) 101 (replicate 16 7%N) "" "correct horse" "";
   OpSetEmail (1100 * second) 111111 5 true 101 "a@b.ir";
   OpVerifyEmail (1110 * second) 101 "111111";
   OpStartRecovery (1200 * second) 222222 6 true "a@b.ir"].
Definition owned : auth_world limiter_state := run_ops one_device true false sample_owner empty_world.
Lemma owned_ok : auth_ok (aw_db owned).
Proof.
  apply (run_ops_stable one_device true false (auth_ok_stable one_device)); [by apply Forall_true|].
  apply auth_ok_empty.
Qed.
Lemma owned_recovers : ∃ w', CompleteEmailRecovery (1210 * second) "a@b.ir" "222222" owned = (Ok (), w').
Proof.
  destruct (run_is_Ok (CompleteEmailRecovery (1210 * second) "a@b.ir" "222222") owned) as [[] Hrun]; [vm_compute; reflexivity|].
  by eexists.
Qed.

Lemma recovery_clears_second_factor_witness : ∃ w' uid a',
  CompleteEmailRecovery (1210 * second) "a@b.ir" "222222" owned = (Ok (), w') ∧
  accounts (aw_db w') !! uid = Some a' ∧ a_two_step_enabled a' = false.
Proof.
  destruct owned_recovers as [w' Hrun].
  destruct (recovery_clears_second_factor (1210 * second) "a@b.ir" "222222" owned w' Hrun)
    as (uid & a & id & e & _ & _ & _ & _ & _ & (a' & Ha' & _ & Htwo & _) & _).
  exists w', uid, a'. split; [exact Hrun|]. split; [exact Ha'|exact Htwo].
Defined.

Lemma recovery_at_device_cap_locks_out_witness : ∃ w',
  CompleteEmailRecovery (1210 * second) "a@b.ir" "222222" owned = (Ok (), w') ∧
  ∀ k, (RevokeSession (1300 * second) 101 k "" (aw_db w')).1 = Err NoRecord.
Proof.
  destruct owned_recovers as [w' Hrun]. exists w'. split; [exact Hrun|]. intros k.
  assert (∃ u, UserByRecoveryEmail (ToLower (trim_space "a@b.ir")) (aw_db owned) = Some u ∧ usID u = 101%N) as Hu
    by (eexists; split; vm_compute; reflexivity).
  assert (MaxDevicesPerUser one_device ≤ count_where (live_device_of 101) (devices (core (aw_db owned)))) as Hcap
    by (vm_compute; discriminate).
  exact (proj2 (recovery_at_device_cap_locks_out (T := string * string * Claims) one_device true false (1210 * second)
    "a@b.ir" "222222" owned w' 101%N [] owned_ok Hrun Hu Hcap) (1300 * second) k ""%string).
Defined.
