(* ===== verification/Presence.v ===== *)
(** * Presence ([internal/presence/presence.go])

    Who is online, kept in the cache as keys that lapse on their own.  A value is
    the text Redis holds; [now] is the clock of the caller, taken to agree with the
    server's; the events published on the bus are outputs.  The cache is up or down
    for the whole of a call. *)

From stdpp Require Import base tactics list gmap strings.
From Stdlib Require Import ZArith Lia.
From S2P Require Import Prelude GoString Cache.

Set Default Goal Selector "!".
Open Scope Z_scope.

Definition onlineTTL : Z := 90 * second.

Definition deviceKey (userID deviceID : uuid) : string :=
  ("presence:device:" +:+ uuid_String userID +:+ ":" +:+ uuid_String deviceID)%string.
Definition userDevicesKey (userID : uuid) : string := ("presence:user:" +:+ uuid_String userID)%string.
Definition lastSeenKey (userID : uuid) : string := ("presence:last_seen:" +:+ uuid_String userID)%string.

(** [strconv.FormatInt(time.Now().Unix(), 10)] *)
Definition unix_text (now : time) : string := Itoa (now / second).

(** [Status] *)
Record Status := MkStatus { st_UserID : uuid; st_Online : bool; st_LastSeen : option time }.

(** [IsOnline]: [None] is an error of the cache. *)
Definition IsOnline (now : time) (userID : uuid) (c : cache string) : option bool :=
  match SMembers now (userDevicesKey userID) c with
  | None => None
  | Some devices =>
      Some (existsb (λ device,
        match Get now ("presence:device:" +:+ uuid_String userID +:+ ":" +:+ device)%string c with
        | Found _ => true | _ => false end) devices)
  end.

(** What is announced: a user and whether they are online now. *)
Definition announce (userID : uuid) (online : bool) : list (uuid * bool) := [(userID, online)].

Definition MarkOnline (now : time) (userID deviceID : uuid) (c : cache string) : list (uuid * bool) * cache string :=
  let '(ok, c1) := Set_ now (deviceKey userID deviceID) (unix_text now) onlineTTL c in
  if negb ok then ([], c1)
  else
    let c2 := (SAdd now (userDevicesKey userID) (uuid_String deviceID) c1).2 in
    let c3 := (Expire now (userDevicesKey userID) (onlineTTL * 2) c2).2 in
    (announce userID true, c3).
Definition MarkOffline (now : time) (userID deviceID : uuid) (c : cache string) : list (uuid * bool) * cache string :=
  let c1 := (Delete (deviceKey userID deviceID) c).2 in
  let c2 := (SRem now (userDevicesKey userID) (uuid_String deviceID) c1).2 in
  let c3 := (Set_ now (lastSeenKey userID) (unix_text now) (30 * 24 * hour) c2).2 in
  (if default false (IsOnline now userID c3) then [] else announce userID false, c3).
(** Nothing in the repository calls it. *)
Definition Refresh (now : time) (userID deviceID : uuid) (c : cache string) : cache string :=
  (Expire now (deviceKey userID deviceID) onlineTTL c).2.

Definition status_of (now : time) (userID : uuid) (c : cache string) : option Status :=
  online ← IsOnline now userID c;
  Some (MkStatus userID online
    (if online : bool then None
     else match Get now (lastSeenKey userID) c with
          | Found raw => (λ unix, unix * second) <$> Atoi (trim_space raw)
          | _ => None
          end)).
Definition Statuses (now : time) (userIDs : list uuid) (c : cache string) : option (gmap uuid Status) :=
  foldl (λ acc u, out ← acc; s ← status_of now u c; Some (<[u := s]> out)) (Some ∅) userIDs.

(** ** Runs *)

(** What may happen to the keys of presence: the calls, by any node, and the cache
    going down or coming back with what it holds. *)
Inductive presence_op :=
| POnline (t : time) (userID deviceID : uuid)
| POffline (t : time) (userID deviceID : uuid)
| PRefresh (t : time) (userID deviceID : uuid)
| PCache (up : bool).
Definition run_op (o : presence_op) (c : cache string) : cache string :=
  match o with
  | POnline t u d => (MarkOnline t u d c).2
  | POffline t u d => (MarkOffline t u d c).2
  | PRefresh t u d => Refresh t u d c
  | PCache up => MkCache up (c_entries c)
  end.
Definition run_ops (ops : list presence_op) (c : cache string) : cache string := foldl (λ c o, run_op o c) c ops.
Definition op_ids_ok (o : presence_op) : Prop :=
  match o with
  | POnline _ u d | POffline _ u d | PRefresh _ u d => (u < 2 ^ 128)%N ∧ (d < 2 ^ 128)%N
  | PCache _ => True
  end.

(** ** Keys *)

Lemma app_inj_length (a b x y : string) :
  String.length a = String.length b → (a +:+ x = b +:+ y)%string → a = b ∧ x = y.
Proof.
  revert b. induction a as [|ch a IH]; intros [|ch' b]; simpl; try done. intros [= Hlen] [= -> Heq].
  destruct (IH b Hlen Heq) as [-> ->]. done.
Qed.
Lemma deviceKey_inj u d u' d' :
  (u < 2 ^ 128)%N → (d < 2 ^ 128)%N → (u' < 2 ^ 128)%N → (d' < 2 ^ 128)%N →
  deviceKey u d = deviceKey u' d' → u = u' ∧ d = d'.
Proof.
  intros ? ? ? ? Heq. unfold deviceKey in Heq. apply app_inj_length in Heq as [_ Heq]; [|done].
  apply app_inj_length in Heq as [Hu Heq]; [|by rewrite !length_uuid_String].
  apply app_inj_length in Heq as [_ Hd]; [|done]. split; by apply uuid_String_inj.
Qed.
Lemma userDevicesKey_inj u u' :
  (u < 2 ^ 128)%N → (u' < 2 ^ 128)%N → userDevicesKey u = userDevicesKey u' → u = u'.
Proof.
  intros ? ? Heq. unfold userDevicesKey in Heq. apply app_inj_length in Heq as [_ Heq]; [|done].
  by apply uuid_String_inj.
Qed.
Lemma lastSeenKey_inj u u' :
  (u < 2 ^ 128)%N → (u' < 2 ^ 128)%N → lastSeenKey u = lastSeenKey u' → u = u'.
Proof.
  intros ? ? Heq. unfold lastSeenKey in Heq. apply app_inj_length in Heq as [_ Heq]; [|done].
  by apply uuid_String_inj.
Qed.
Lemma device_user_keys u d u' : deviceKey u d ≠ userDevicesKey u'.
Proof. done. Qed.
Lemma device_seen_keys u d u' : deviceKey u d ≠ lastSeenKey u'.
Proof. done. Qed.
Lemma user_seen_keys u u' : userDevicesKey u ≠ lastSeenKey u'.
Proof. done. Qed.

(** ** What the cache holds *)

Definition live_op (u d : uuid) (t : time) (ops : list presence_op) : Prop :=
  POnline t u d ∈ ops ∨ PRefresh t u d ∈ ops.
Inductive entry_ok (ops : list presence_op) : string → centry string → Prop :=
| device_entry u d t b :
    (u < 2 ^ 128)%N → (d < 2 ^ 128)%N → live_op u d t ops →
    entry_ok ops (deviceKey u d) (MkEntry (CString b) (Some (t + onlineTTL)))
| user_entry u d t m :
    (u < 2 ^ 128)%N → POnline t u d ∈ ops → (∀ s, s ∈ m → ∃ d, (d < 2 ^ 128)%N ∧ s = uuid_String d) →
    entry_ok ops (userDevicesKey u) (MkEntry (CSet m) (Some (t + onlineTTL * 2)))
| seen_entry u b expires : entry_ok ops (lastSeenKey u) (MkEntry (CString b) expires).
Definition presence_ok (ops : list presence_op) (c : cache string) : Prop :=
  ∀ key e, c_entries c !! key = Some e → entry_ok ops key e.

Lemma entry_ok_more ops ops' key e : entry_ok ops key e → entry_ok (ops ++ ops') key e.
Proof.
  intros [u d t b Hu Hd Hop|u d t m Hu Hop Hm|u b x]; [apply device_entry; [done..|]|eapply user_entry; [done| |done]|apply seen_entry].
  - destruct Hop; [left|right]; apply elem_of_app; by left.
  - apply elem_of_app. left. exact Hop.
Qed.
Lemma entry_at_entries now key (c : cache string) e :
  entry_at now key c = Some e → c_entries c !! key = Some e ∧ ∀ t, ce_expires e = Some t → now < t.
Proof.
  unfold entry_at. destruct (c_entries c !! key) as [e'|]; [|done]. simpl.
  destruct (ce_expires e') as [t|] eqn:Ht.
  - destruct (t <=? now) eqn:Hle; [done|]. intros [= <-]. split; [done|]. intros t' Ht'.
    apply Z.leb_gt in Hle. rewrite Ht in Ht'. by injection Ht' as <-.
  - intros [= <-]. split; [done|]. intros t' Ht'. congruence.
Qed.
(** Under the key of a user there is only ever the set of their devices. *)
Lemma user_entry_inv ops u e :
  (u < 2 ^ 128)%N → entry_ok ops (userDevicesKey u) e →
  ∃ d t m, e = MkEntry (CSet m) (Some (t + onlineTTL * 2)) ∧ POnline t u d ∈ ops ∧
    ∀ s, s ∈ m → ∃ d, (d < 2 ^ 128)%N ∧ s = uuid_String d.
Proof.
  intros Hu Hok. remember (userDevicesKey u) as key eqn:Hkey.
  destruct Hok as [u' d t b ? ? ?|u' d t m Hu' Hop Hm|u' b x]; [by destruct (device_user_keys _ _ _ Hkey)| |by destruct (user_seen_keys _ _ (eq_sym Hkey))].
  apply userDevicesKey_inj in Hkey; [|done..]. subst u'. by exists d, t, m.
Qed.
Lemma set_at_user ops c now u :
  (u < 2 ^ 128)%N → presence_ok ops c →
  ∃ m, set_at now (userDevicesKey u) c = Some m ∧ ∀ s, s ∈ m → ∃ d, (d < 2 ^ 128)%N ∧ s = uuid_String d.
Proof.
  intros Hu Hc. unfold set_at. destruct (entry_at now (userDevicesKey u) c) as [e|] eqn:He; [|exists ∅; set_solver].
  apply entry_at_entries in He as [He _]. apply Hc, user_entry_inv in He as (d & t & m & -> & _ & Hm); [|done].
  by exists m.
Qed.

Lemma MarkOnline_down now u d c : c_up c = false → MarkOnline now u d c = ([], c).
Proof. unfold MarkOnline, Set_. by intros ->. Qed.
Lemma set_at_put_other now key key' e (c : cache string) :
  key ≠ key' → set_at now key (put key' e c) = set_at now key c.
Proof. intros Hne. unfold set_at. by rewrite entry_at_put, decide_False. Qed.
Lemma MarkOnline_up ops now u d c :
  c_up c = true → (u < 2 ^ 128)%N → presence_ok ops c →
  ∃ m, (∀ s, s ∈ m → ∃ d, (d < 2 ^ 128)%N ∧ s = uuid_String d) ∧
    (MarkOnline now u d c).1 = announce u true ∧
    c_up (MarkOnline now u d c).2 = true ∧
    c_entries (MarkOnline now u d c).2 =
      <[userDevicesKey u := MkEntry (CSet ({[uuid_String d]} ∪ m)) (Some (now + onlineTTL * 2))]>
        (<[deviceKey u d := MkEntry (CString (unix_text now)) (Some (now + onlineTTL))]> (c_entries c)).
Proof.
  intros Hup Hu Hc. destruct (set_at_user ops c now u Hu Hc) as (m & Hm & Hms). exists m. split; [done|].
  set (dev := MkEntry (CString (unix_text now)) (Some (now + onlineTTL))).
  set (c1 := put (deviceKey u d) dev c).
  assert (Set_ now (deviceKey u d) (unix_text now) onlineTTL c = (true, c1)) as Hset by (unfold Set_; by rewrite Hup).
  set (e2 := @MkEntry string (CSet ({[uuid_String d]} ∪ m)) (entry_at now (userDevicesKey u) c ≫= ce_expires)).
  assert (entry_at now (userDevicesKey u) c1 = entry_at now (userDevicesKey u) c) as Hat
    by (unfold c1; rewrite entry_at_put; by rewrite decide_False).
  assert (SAdd now (userDevicesKey u) (uuid_String d) c1 = (true, put (userDevicesKey u) e2 c1)) as Hadd.
  { unfold SAdd. simpl. rewrite Hup. simpl. unfold set_at. rewrite Hat. fold (set_at now (userDevicesKey u) c).
    by rewrite Hm. }
  assert (entry_at now (userDevicesKey u) (put (userDevicesKey u) e2 c1) = Some e2) as Hat2.
  { rewrite entry_at_put, decide_True by done. unfold e2 at 1. simpl.
    destruct (entry_at now (userDevicesKey u) c) as [e|] eqn:He; [|done]. simpl.
    destruct (ce_expires e) as [t|] eqn:Ht; [|done]. apply entry_at_entries in He as [_ He]. specialize (He t Ht).
    by rewrite (proj2 (Z.leb_gt _ _)) by lia. }
  assert (Expire now (userDevicesKey u) (onlineTTL * 2) (put (userDevicesKey u) e2 c1) =
          (true, put (userDevicesKey u) (MkEntry (ce_value e2) (Some (now + onlineTTL * 2))) (put (userDevicesKey u) e2 c1))) as Hexp.
  { unfold Expire. simpl. rewrite Hup. simpl. by rewrite Hat2. }
  unfold MarkOnline. rewrite Hset. simpl. rewrite Hadd. simpl. rewrite Hexp. simpl.
  split; [done|]. split; [done|]. by rewrite insert_insert_eq.
Qed.

Lemma presence_ok_put ops key e c : presence_ok ops c → entry_ok ops key e → presence_ok ops (put key e c).
Proof.
  intros Hc He key' e'. unfold put. simpl. intros [[<- <-]|[_ Hk]]%lookup_insert_Some; [done|by apply Hc].
Qed.
Lemma presence_ok_drop ops key c : presence_ok ops c → presence_ok ops (drop_key key c).
Proof. intros Hc key' e'. unfold drop_key. simpl. intros [_ Hk]%lookup_delete_Some. by apply Hc. Qed.
Lemma presence_ok_more ops ops' c : presence_ok ops c → presence_ok (ops ++ ops') c.
Proof. intros Hc key e Hk. by apply entry_ok_more, Hc. Qed.

Lemma MarkOnline_ok ops now u d c :
  (u < 2 ^ 128)%N → (d < 2 ^ 128)%N → presence_ok ops c → presence_ok (ops ++ [POnline now u d]) (MarkOnline now u d c).2.
Proof.
  intros Hu Hd Hc. destruct (c_up c) eqn:Hup; [|rewrite MarkOnline_down by done; by apply presence_ok_more].
  destruct (MarkOnline_up ops now u d c Hup Hu Hc) as (m & Hm & _ & _ & Hes).
  assert (POnline now u d ∈ ops ++ [POnline now u d]) as Hin by (apply elem_of_app; right; by left).
  intros key e. rewrite Hes. intros [[<- <-]|[_ [[<- <-]|[_ Hk]]%lookup_insert_Some]]%lookup_insert_Some.
  - apply (user_entry _ u d); [done..|]. intros s [->%elem_of_singleton|Hs]%elem_of_union; [by exists d|by apply Hm].
  - apply device_entry; [done..|by left].
  - by apply entry_ok_more, Hc.
Qed.
Lemma SRem_user_ok ops now u member c :
  (u < 2 ^ 128)%N → presence_ok ops c → presence_ok ops (SRem now (userDevicesKey u) member c).2.
Proof.
  intros Hu Hc. unfold SRem. destruct (c_up c); [|done]. simpl.
  destruct (set_at now (userDevicesKey u) c) as [m|] eqn:Hm; [|done]. simpl.
  case_bool_decide as Hempty; [by apply presence_ok_drop|].
  apply presence_ok_put; [done|]. unfold set_at in Hm.
  destruct (entry_at now (userDevicesKey u) c) as [e|] eqn:He; [|simplify_eq; set_solver].
  apply entry_at_entries in He as [He _]. apply Hc, user_entry_inv in He as (d & t & m' & -> & Hop & Hms); [|done].
  injection Hm as ->. simpl. apply (user_entry _ u d); [done..|]. intros s [Hs _]%elem_of_difference. by apply Hms.
Qed.
Lemma MarkOffline_ok ops now u d c :
  (u < 2 ^ 128)%N → presence_ok ops c → presence_ok ops (MarkOffline now u d c).2.
Proof.
  intros Hu Hc. unfold MarkOffline. simpl.
  assert (presence_ok ops (Delete (deviceKey u d) c).2) as H1.
  { unfold Delete. destruct (c_up c); [|done]. by apply presence_ok_drop. }
  pose proof (SRem_user_ok ops now u (uuid_String d) _ Hu H1) as H2.
  destruct (SRem now _ _ _) as [ok c2]. simpl in *. unfold Set_. destruct (c_up c2); [|done]. simpl.
  apply presence_ok_put; [done|]. apply seen_entry.
Qed.
Lemma Refresh_ok ops now u d c :
  (u < 2 ^ 128)%N → (d < 2 ^ 128)%N → presence_ok ops c → presence_ok (ops ++ [PRefresh now u d]) (Refresh now u d c).
Proof.
  intros Hu Hd Hc. unfold Refresh, Expire. destruct (c_up c); [|by apply presence_ok_more]. simpl.
  destruct (entry_at now (deviceKey u d) c) as [e|] eqn:He; [|by apply presence_ok_more].
  apply presence_ok_put; [by apply presence_ok_more|]. apply entry_at_entries in He as [He _]. apply Hc in He.
  remember (deviceKey u d) as key eqn:Hkey. destruct He as [u' d' t b Hu' Hd' _|u' d' t m ? ? ?|u' b x].
  - rewrite Hkey. apply device_entry; [done..|]. right. apply elem_of_app. right. by left.
  - by destruct (device_user_keys _ _ _ (eq_sym Hkey)).
  - by destruct (device_seen_keys _ _ _ (eq_sym Hkey)).
Qed.
Lemma run_ops_ok ops : Forall op_ids_ok ops → presence_ok ops (run_ops ops empty_cache).
Proof.
  induction ops as [|o ops IH] using rev_ind; intros Hids; [by intros key e|].
  apply Forall_app in Hids as [Hops Ho]. rewrite Forall_singleton in Ho. specialize (IH Hops).
  unfold run_ops in *. rewrite foldl_snoc. destruct o as [t u d|t u d|t u d|up]; cbn [op_ids_ok run_op] in Ho |- *.
  - destruct Ho. by apply MarkOnline_ok.
  - destruct Ho. by apply MarkOffline_ok, presence_ok_more.
  - destruct Ho. by apply Refresh_ok.
  - apply presence_ok_more. exact IH.
Qed.

Lemma IsOnline_inv now u c :
  IsOnline now u c = Some true →
  ∃ m s b, set_at now (userDevicesKey u) c = Some m ∧ s ∈ m ∧
    Get now ("presence:device:" +:+ uuid_String u +:+ ":" +:+ s)%string c = Found b.
Proof.
  unfold IsOnline, SMembers. destruct (negb (c_up c)); [done|].
  destruct (set_at now (userDevicesKey u) c) as [m|]; [|done]. simpl. intros [= Hex].
  apply existsb_exists in Hex as (s & Hs%list_elem_of_In%elem_of_elements & Hget).
  destruct (Get _ _ c) as [b| |] eqn:Hb; [|done..]. by exists m, s, b.
Qed.

(** Presence is soft state: whatever calls the nodes made, in any order, with the cache
    going down and coming back, a user is only reported online when one of their devices was
    marked online or refreshed less than ninety seconds ago, and some device of theirs was
    marked online less than three minutes ago; a node that dies leaves nobody online, and
    refreshing alone keeps nobody online past those three minutes. *)
Lemma online_is_recent ops now u :
  Forall op_ids_ok ops → (u < 2 ^ 128)%N →
  IsOnline now u (run_ops ops empty_cache) = Some true →
  (∃ d t, live_op u d t ops ∧ now < t + onlineTTL) ∧
  (∃ d t, POnline t u d ∈ ops ∧ now < t + onlineTTL * 2).
Proof.
  intros Hids Hu Hon. pose proof (run_ops_ok ops Hids) as Hc.
  apply IsOnline_inv in Hon as (m & s & b & Hm & Hs & Hget).
  unfold set_at in Hm. destruct (entry_at now (userDevicesKey u) _) as [e|] eqn:He; [|simplify_eq; set_solver].
  apply entry_at_entries in He as [He Hlive]. apply Hc, user_entry_inv in He as (d & t & m' & -> & Hop & Hms); [|done].
  injection Hm as ->. split; [|exists d, t; split; [done|by apply Hlive]].
  destruct (Hms s Hs) as (d' & Hd' & ->). fold (deviceKey u d') in Hget. unfold Get in Hget.
  destruct (c_up _); [|done]. simpl in Hget. destruct (entry_at now (deviceKey u d') _) as [e|] eqn:He; [|done].
  apply entry_at_entries in He as [He Hlive']. apply Hc in He. remember (deviceKey u d') as key eqn:Hkey.
  destruct He as [u1 d1 t1 b1 Hu1 Hd1 Hlo|u1 d1 t1 m1 ? ? ?|u1 b1 x1].
  - apply deviceKey_inj in Hkey as [-> ->]; [|done..]. exists d', t1. split; [done|]. by apply Hlive'.
  - by destruct (device_user_keys _ _ _ (eq_sym Hkey)).
  - by destruct (device_seen_keys _ _ _ (eq_sym Hkey)).
Qed.

(** Marking a device online shows at once and lasts ninety seconds. *)
Lemma MarkOnline_shows ops now now' u d c :
  c_up c = true → (u < 2 ^ 128)%N → presence_ok ops c → now ≤ now' < now + onlineTTL →
  (MarkOnline now u d c).1 = [(u, true)] ∧ IsOnline now' u (MarkOnline now u d c).2 = Some true.
Proof.
  intros Hup Hu Hc Hnow. destruct (MarkOnline_up ops now u d c Hup Hu Hc) as (m & _ & Hout & Hup' & Hes).
  split; [done|]. set (c' := (MarkOnline now u d c).2) in *.
  assert (entry_at now' (userDevicesKey u) c' = Some (MkEntry (CSet ({[uuid_String d]} ∪ m)) (Some (now + onlineTTL * 2)))) as Hset.
  { unfold entry_at. rewrite Hes, lookup_insert_eq. simpl. by rewrite (proj2 (Z.leb_gt _ _)) by lia. }
  assert (entry_at now' (deviceKey u d) c' = Some (MkEntry (CString (unix_text now)) (Some (now + onlineTTL)))) as Hdev.
  { unfold entry_at. rewrite Hes, lookup_insert_ne, lookup_insert_eq by done. simpl. by rewrite (proj2 (Z.leb_gt _ _)) by lia. }
  unfold IsOnline, SMembers, set_at. rewrite Hup', Hset. simpl. f_equal. apply existsb_exists.
  exists (uuid_String d). split; [apply list_elem_of_In, elem_of_elements; set_solver|].
  fold (deviceKey u d). unfold Get. rewrite Hup'. simpl. by rewrite Hdev.
Qed.

(** ** Concrete runs *)

Definition heartbeats : list presence_op :=
  POnline 0 1 7 :: ((λ k, PRefresh (Z.of_nat k * (25 * second)) 1 7) <$> seq 1 8).

Lemma online_is_recent_witness :
  ∃ d t, POnline t 1 d ∈ heartbeats ∧ 100 * second < t + onlineTTL * 2.
Proof.
  exact (proj2 (online_is_recent heartbeats (100 * second) 1
    ltac:(repeat constructor) ltac:(constructor) ltac:(vm_compute; reflexivity))).
Defined.
(** A heartbeat every 25 seconds through [Refresh] would not keep a device online: the
    user's set lapses three minutes after [MarkOnline], with the device's key alive. *)
Example heartbeats_lapse :
  IsOnline (175 * second) 1 (run_ops heartbeats empty_cache) = Some true ∧
  IsOnline (185 * second) 1 (run_ops heartbeats empty_cache) = Some false ∧
  Get (185 * second) (deviceKey 1 7) (run_ops heartbeats empty_cache) = Found "0"%string.
Proof. by vm_compute. Qed.
(** The keys are those of a device, not of a socket: when a device reconnects before its
    old socket is given up, the end of the old one takes the device offline. *)
Example reconnecting_goes_offline :
  let c := run_ops [POnline 0 1 7; POnline second 1 7; POffline (2 * second) 1 7] empty_cache in
  IsOnline (3 * second) 1 c = Some false.
Proof. by vm_compute. Qed.
