(* ===== verification/Users.v ===== *)
(** * Profiles, usernames and privacy settings ([internal/users/users.go])

    Over the social graph's tables.  The presence reader is the cache-backed one of
    [Presence], or absent.  A claim of a username reads the availability first and locks
    its own row later: what others commit between is an argument. *)

From stdpp Require Import base tactics list gmap strings sorting.
From Stdlib Require Import ZArith Lia.
From S2P Require Import Prelude Steps GoString Httpx Cache Presence Social.

Set Default Goal Selector "!".
Open Scope Z_scope.

Inductive usererr := UserNotFound | ErrUsernameTaken | UsForeignKey | UsCheck.

(** [usernamePattern], on a folded name *)
Definition name_byte (b : N) : bool := in_range 97 122 b || in_range 48 57 b || (b =? 95)%N.
Definition usernamePattern (s : string) : bool :=
  match bytes_of s with
  | b :: bs => in_range 97 122 b && forallb name_byte bs && (4 <=? length bs)%nat && (length bs <=? 31)%nat
  | [] => false
  end.
Definition reservedNames : list string :=
  ["admin"; "sobh"; "support"; "help"; "api"; "www"; "app"; "bot"; "bots"; "me"; "settings"; "security"; "abuse";
   "news"; "official"; "system"; "root"]%string.
Definition usernameReleaseHold : Z := 30 * 24 * hour.

Record Profile := MkProfile {
  pf_UserID : uuid;
  pf_Username : option string;
  pf_DisplayName : string;
  pf_About : string;
  pf_AvatarID : option uuid;
  pf_Language : string;
  pf_IsBot : bool;
  pf_LastSeen : option time;
  pf_IsOnline : bool;
  pf_IsContact : bool;
  pf_IsBlocked : bool;
}.
Definition with_pf_IsOnline v (p : Profile) :=
  MkProfile (pf_UserID p) (pf_Username p) (pf_DisplayName p) (pf_About p) (pf_AvatarID p) (pf_Language p) (pf_IsBot p)
    (pf_LastSeen p) v (pf_IsContact p) (pf_IsBlocked p).
Record SelfProfile := MkSelfProfile {
  sp_Profile : Profile;
  sp_PhoneNumber : string;
  sp_Birthday : option time;
  sp_TwoStepEnabled : bool;
  sp_TwoStepHint : string;
}.
Definition PrivacyKeys : list string :=
  ["last_seen"; "profile_photo"; "phone_number"; "read_receipts"; "typing"; "calls"; "group_invites"; "messages";
   "stories"]%string.
Definition PrivacyRules : list string := ["everyone"; "contacts"; "nobody"]%string.
Record PrivacySetting := MkPrivacySetting {
  ps_Key : string; ps_Rule : string; ps_AllowList : list uuid; ps_DenyList : list uuid }.

(** ** Repository *)

Definition ByID (userID viewerID : uuid) (d : socialdb) : option Profile :=
  a ← accounts d !! userID;
  if live_account a then
    Some (MkProfile userID (ac_username a) (display_name userID d) (from_option pr_about ""%string (profiles d !! userID))
      (if visible_profile_photo userID viewerID d then avatar_of userID d else None)
      (from_option pr_language "fa"%string (profiles d !! userID)) (ac_is_bot a)
      (if visible_last_seen userID viewerID d then ac_last_seen_at a else None)
      false (has_contact viewerID userID d) (has_blocked viewerID userID d))
  else None.
(** The live account with a username, of which there is one. *)
Definition user_by_name (name : string) (d : socialdb) : option uuid :=
  head (rows_where (λ _ a, username_is name a && live_account a) (accounts d)).*1.
Definition ByUsername (name : string) (viewerID : uuid) (d : socialdb) : option Profile :=
  id ← user_by_name name d; ByID id viewerID d.
Definition Self (userID : uuid) (d : socialdb) : option SelfProfile :=
  a ← accounts d !! userID;
  if live_account a then
    Some (MkSelfProfile
      (MkProfile userID (ac_username a) (display_name userID d) (from_option pr_about ""%string (profiles d !! userID))
         (avatar_of userID d) (from_option pr_language "fa"%string (profiles d !! userID)) (ac_is_bot a)
         (ac_last_seen_at a) false false false)
      (ac_phone_number a) (profiles d !! userID ≫= pr_birthday) (ac_two_step_enabled a)
      (default ""%string (ac_two_step_hint a)))
  else None.

Record ProfileUpdate := MkProfileUpdate {
  pu_DisplayName : option string;
  pu_About : option string;
  pu_AvatarID : option uuid;
  pu_Language : option string;
  pu_Birthday : option time;
}.
(** [COALESCE($n, stored)] *)
Definition coalesce {A} (given stored : option A) : option A := match given with Some v => Some v | None => stored end.
Definition UpdateProfile (userID : uuid) (in_ : ProfileUpdate) : prog socialdb usererr () := λ d,
  if negb (has_account userID d) then (Err UsForeignKey, d)
  else
    let old := default (MkProfileRow "" "" None None "fa") (profiles d !! userID) in
    (Ok (), with_profiles (<[userID :=
       MkProfileRow (default (pr_display_name old) (pu_DisplayName in_)) (default (pr_about old) (pu_About in_))
         (coalesce (pu_AvatarID in_) (pr_avatar old)) (coalesce (pu_Birthday in_) (pr_birthday old))
         (default (pr_language old) (pu_Language in_))]> (profiles d)) d).

(** The statements of a claim after the availability check. *)
Definition reserve_name (now : time) (name : string) (owner : uuid) (d : socialdb) : socialdb :=
  with_reserved_usernames (<[to_lower name := MkReserved (Some owner) (now + usernameReleaseHold)]> (reserved_usernames d)) d.
(** users_username_key holds among live accounts. *)
Definition set_username (userID : uuid) (a : account_row) (name : string) : prog socialdb usererr () := λ d,
  if live_account a && name_held name userID d then (Err ErrUsernameTaken, d)
  else (Ok (), with_accounts (<[userID := with_ac_username (Some name) a]> (accounts d)) d).
Definition take_name (now : time) (userID : uuid) (name : string) : prog socialdb usererr () :=
  in_tx (
    gets (λ d, accounts d !! userID) ≫= λ a, or_fail a UserNotFound ≫= λ a,
    (match ac_username a with
     | Some previous => if decide (to_lower previous = to_lower name) then mret () else modify (reserve_name now previous userID)
     | None => mret ()
     end) ≫= λ _,
    set_username userID a name ≫= λ _,
    modify (λ d, with_reserved_usernames (delete (to_lower name) (reserved_usernames d)) d)).
Definition ClaimUsername (now : time) (meanwhile : socialdb → socialdb) (userID : uuid) (name : string)
    : prog socialdb usererr () :=
  gets (username_available now name userID) ≫= λ available, fail_if (negb available) ErrUsernameTaken ≫= λ _,
  modify meanwhile ≫= λ _,
  take_name now userID name.

Definition defaultPrivacyRule (key : string) : string :=
  if decide (key ∈ ["profile_photo"; "read_receipts"; "typing"; "messages"]%string) then "everyone"
  else if decide (key = "phone_number"%string) then "nobody"
  else "contacts".
Definition setting_of (userID : uuid) (d : socialdb) (key : string) : PrivacySetting :=
  match privacy d !! (userID, key) with
  | Some r => MkPrivacySetting key (pv_rule r) (pv_allow_list r) (pv_deny_list r)
  | None => MkPrivacySetting key (defaultPrivacyRule key) [] []
  end.
Definition PrivacySettings (userID : uuid) (d : socialdb) : list PrivacySetting := setting_of userID d <$> PrivacyKeys.
Definition SetPrivacy (userID : uuid) (s : PrivacySetting) : prog socialdb usererr () := λ d,
  if negb (has_account userID d) then (Err UsForeignKey, d)
  else if negb (bool_decide (ps_Rule s ∈ PrivacyRules)) then (Err UsCheck, d)
  else (Ok (), with_privacy (<[(userID, ps_Key s) := MkPrivacyRow (ps_Rule s) (ps_AllowList s) (ps_DenyList s)]> (privacy d)) d).

(** ** Service *)

Abbreviation uprog := (prog socialdb Error).

(** [withPresence] of one profile: the reader is asked only about someone whose last
    seen the viewer may see, and an error leaves the profile as it is. *)
Definition withPresence (now : time) (presence : option (cache string)) (p : Profile) : Profile :=
  match presence, pf_LastSeen p with
  | Some c, Some _ =>
      match Statuses now [pf_UserID p] c with
      | Some statuses => with_pf_IsOnline (from_option st_Online false (statuses !! pf_UserID p)) p
      | None => p
      end
  | _, _ => p
  end.
Definition Service_Profile (now : time) (presence : option (cache string)) (userID viewerID : uuid) : uprog Profile :=
  gets (ByID userID viewerID) ≫= λ p, or_fail p (NotFound CodeNotFound "User not found") ≫= λ p,
  mret (withPresence now presence p).
Definition Service_ByUsername (now : time) (presence : option (cache string)) (username : string) (viewerID : uuid)
    : uprog Profile :=
  gets (ByUsername (to_lower (trim_prefix username "@")) viewerID) ≫= λ p,
  or_fail p (NotFound CodeNotFound "No account has that username") ≫= λ p,
  mret (withPresence now presence p).
Definition Service_Self (userID : uuid) : uprog SelfProfile :=
  gets (Self userID) ≫= λ p, or_fail p (NotFound CodeNotFound "User not found").

Definition supportedLanguages : list string := ["fa"; "en"; "tr"; "ar"]%string.
(** The display name as it is stored. *)
Definition check_display_name (name : option string) : result Error (option string) :=
  match name with
  | None => Ok None
  | Some name =>
      let trimmed := trim_space name in
      if decide (trimmed = ""%string)
      then Err (WithField (Validation "A display name is required") "display_name" "cannot be empty")
      else if 64 <? rune_count trimmed
      then Err (WithField (Validation "That display name is too long") "display_name" "at most 64 characters")
      else Ok (Some trimmed)
  end.
Definition internal (_ : usererr) : Error := Internal.
Definition Service_UpdateProfile (userID : uuid) (in_ : ProfileUpdate) : uprog () :=
  (λ d, (check_display_name (pu_DisplayName in_), d)) ≫= λ name,
  fail_if (from_option (λ a, 280 <? rune_count a) false (pu_About in_))
    (WithField (Validation "That bio is too long") "about" "at most 280 characters") ≫= λ _,
  fail_if (from_option (λ l, negb (bool_decide (l ∈ supportedLanguages))) false (pu_Language in_))
    (WithField (Validation "That language is not supported") "language" "must be one of fa, en, tr, ar") ≫= λ _,
  map_err internal
    (UpdateProfile userID (MkProfileUpdate name (pu_About in_) (pu_AvatarID in_) (pu_Language in_) (pu_Birthday in_))).

(** The folded name; letters outside ASCII, which no valid name has, are left as they are. *)
Definition normalize_username (username : string) : string := to_lower (trim_space (trim_prefix username "@")).
Definition claim_error (e : usererr) : Error :=
  match e with
  | ErrUsernameTaken => Conflict CodeUsernameTaken "That username is taken"
  | UserNotFound => NotFound CodeNotFound "User not found"
  | _ => Internal
  end.
Definition Service_ClaimUsername (now : time) (meanwhile : socialdb → socialdb) (userID : uuid) (username : string) : uprog () :=
  let normalized := normalize_username username in
  fail_if (negb (usernamePattern normalized))
    (WithField (Validation "That username is not valid") "username"
       "5 to 32 characters, starting with a letter, using a-z, 0-9 and _") ≫= λ _,
  fail_if (bool_decide (normalized ∈ reservedNames)) (Conflict CodeUsernameTaken "That username is reserved") ≫= λ _,
  map_err claim_error (ClaimUsername now meanwhile userID normalized).

Record Availability := MkAvailability { av_Username : string; av_Available : bool; av_Reason : string }.
Definition CheckUsername (now : time) (username : string) (claimant : uuid) (d : socialdb) : Availability :=
  let normalized := normalize_username username in
  if negb (usernamePattern normalized) then MkAvailability normalized false "invalid"
  else if bool_decide (normalized ∈ reservedNames) then MkAvailability normalized false "reserved"
  else
    let available := username_available now normalized claimant d in
    MkAvailability normalized available (if available then "" else "taken").

Definition Service_PrivacySettings (userID : uuid) : uprog (list PrivacySetting) := gets (PrivacySettings userID).
Definition maxPrivacyListEntries : Z := 1000.
Definition check_setting (s : PrivacySetting) : result Error () :=
  if negb (bool_decide (ps_Key s ∈ PrivacyKeys))
  then Err (WithField (Validation "Unknown privacy setting") "key"
    "must be one of last_seen, profile_photo, phone_number, read_receipts, typing, calls, group_invites, messages, stories")
  else if negb (bool_decide (ps_Rule s ∈ PrivacyRules))
  then Err (WithField (Validation "Unknown privacy rule") "rule" "must be everyone, contacts or nobody")
  else if (maxPrivacyListEntries <? Z.of_nat (length (ps_AllowList s))) || (maxPrivacyListEntries <? Z.of_nat (length (ps_DenyList s)))
  then Err (WithField (Validation "Too many exceptions in one privacy rule") "allow_list" "at most 1000 entries")
  else if existsb (λ u, bool_decide (u ∈ ps_DenyList s)) (ps_AllowList s)
  then Err (WithField (Validation "A person cannot be both allowed and denied") "deny_list" "overlaps allow_list")
  else Ok ().
Definition Service_SetPrivacy (userID : uuid) (s : PrivacySetting) : uprog () :=
  (λ d, (check_setting s, d)) ≫= λ _, map_err internal (SetPrivacy userID s).

(** * Usernames and privacy: the theorems

    A name that was given up stays with its last holder for thirty days, whatever claims
    come in between; a profile shows what its owner's rules let the viewer see. *)

(** ** A name that is kept *)

(** Until [until], [name] is [owner]'s: nobody else has it, and the owner, whose account
    lives, holds it or has first refusal on it. *)
Definition name_kept (name : string) (owner : uuid) (until : time) (d : socialdb) : Prop :=
  (∀ u a, accounts d !! u = Some a → username_is name a = true → u = owner) ∧
  (∃ a, accounts d !! owner = Some a ∧ live_account a = true ∧
    (username_is name a = true ∨ ∃ r, reserved_usernames d !! to_lower name = Some r ∧ rv_previous_owner r = Some owner ∧ until ≤ rv_until r)).

Lemma name_held_spec name claimant d :
  name_held name claimant d = true ↔
  ∃ u a, accounts d !! u = Some a ∧ username_is name a = true ∧ live_account a = true ∧ u ≠ claimant.
Proof.
  unfold name_held. rewrite Z.ltb_lt. split.
  - intros Hpos. match type of Hpos with 0 < count_where ?P ?m => set (Q := P) in *; pose proof (count_where_0 Q m) as Hz end.
    destruct (rows_where Q (accounts d)) as [|[u a] l] eqn:Hrows; [unfold count_where in Hpos; rewrite Hrows in Hpos; simpl in Hpos; lia|].
    assert ((u, a) ∈ rows_where Q (accounts d)) as Hin by (rewrite Hrows; by left).
    apply elem_of_rows_where in Hin as [Ha HQ]. unfold Q in HQ.
    rewrite !andb_true_iff, negb_true_iff, bool_decide_eq_false in HQ. exists u, a. tauto.
  - intros (u & a & Ha & Hn & Hl & Hu).
    match goal with |- 0 < count_where ?P ?m => set (Q := P); pose proof (count_where_nonneg Q m); pose proof (count_where_0 Q m) as Hz end.
    assert (count_where Q (accounts d) ≠ 0); [|lia]. intros H0. rewrite H0 in Hz.
    pose proof (proj1 Hz eq_refl u a Ha) as HQ. unfold Q in HQ. by rewrite Hn, Hl, bool_decide_false in HQ.
Qed.
(** Someone else is refused. *)
Lemma name_kept_unavailable name owner until now claimant d :
  name_kept name owner until d → now < until → claimant ≠ owner → username_available now name claimant d = false.
Proof.
  intros (_ & a & Ha & Hl & [Hn|(r & Hr & Hp & Hu)]) Hnow Hne; unfold username_available.
  - rewrite (proj2 (name_held_spec name claimant d)); [done|]. by exists owner, a.
  - unfold name_reserved. rewrite Hr, Hp. rewrite (proj2 (Z.ltb_lt _ _)) by lia. rewrite bool_decide_false by congruence.
    by rewrite andb_false_r.
Qed.

Lemma username_is_fold name name' a : to_lower name = to_lower name' → username_is name a = username_is name' a.
Proof. unfold username_is. by intros ->. Qed.
Lemma username_available_fold now name name' claimant d :
  to_lower name = to_lower name' → username_available now name claimant d = username_available now name' claimant d.
Proof.
  intros Heq. unfold username_available, name_held, name_reserved. rewrite Heq. do 2 f_equal. f_equal.
  apply count_where_ext. intros k. destruct (accounts d !! k) as [a|]; simpl; [|done].
  by rewrite (username_is_fold _ _ a Heq).
Qed.
Lemma username_is_set name name' a :
  username_is name (with_ac_username (Some name') a) = bool_decide (to_lower name' = to_lower name).
Proof. unfold username_is. simpl. repeat case_bool_decide; congruence. Qed.

(** What a successful claim did to the tables. *)
Lemma take_name_Ok now userID name d u d' :
  take_name now userID name d = (Ok u, d') →
  ∃ a, accounts d !! userID = Some a ∧ (live_account a && name_held name userID d) = false ∧
    accounts d' = <[userID := with_ac_username (Some name) a]> (accounts d) ∧
    reserved_usernames d' = delete (to_lower name)
      (match ac_username a with
       | Some previous => if decide (to_lower previous = to_lower name) then reserved_usernames d
                          else <[to_lower previous := MkReserved (Some userID) (now + usernameReleaseHold)]> (reserved_usernames d)
       | None => reserved_usernames d
       end).
Proof.
  unfold take_name. intros Hrun. apply in_tx_Ok_inv in Hrun.
  rewrite bind_run in Hrun. unfold gets at 1 in Hrun. cbn beta iota in Hrun.
  rewrite bind_run in Hrun. unfold or_fail at 1 in Hrun.
  destruct (accounts d !! userID) as [a|] eqn:Ha; [|done].
  exists a. split; [done|]. rewrite bind_run in Hrun.
  assert (∀ d1, accounts d1 = accounts d →
    (set_username userID a name ≫= λ _, modify (λ d, with_reserved_usernames (delete (to_lower name) (reserved_usernames d)) d)) d1 = (Ok u, d') →
    (live_account a && name_held name userID d) = false ∧
    accounts d' = <[userID := with_ac_username (Some name) a]> (accounts d) ∧
    reserved_usernames d' = delete (to_lower name) (reserved_usernames d1)) as Hset.
  { intros d1 Hacc. rewrite bind_run. unfold set_username.
    assert (name_held name userID d1 = name_held name userID d) as -> by (unfold name_held; by rewrite Hacc).
    destruct (live_account a && name_held name userID d); [done|]. unfold modify. intros [= _ <-]. simpl. by rewrite Hacc. }
  destruct (ac_username a) as [previous|]; [|by apply Hset in Hrun].
  case_decide; [by apply Hset in Hrun|]. unfold modify at 1 in Hrun. cbn beta iota in Hrun. by apply Hset in Hrun.
Qed.

Lemma ClaimUsername_cases now env userID name d :
  (username_available now name userID d = false ∧ ClaimUsername now env userID name d = (Err ErrUsernameTaken, d)) ∨
  (username_available now name userID d = true ∧ ClaimUsername now env userID name d = take_name now userID name (env d)).
Proof.
  unfold ClaimUsername. destruct (username_available now name userID d) eqn:Hav; [right|left]; (split; [done|]);
    rewrite bind_run; unfold gets at 1; cbn beta iota; by rewrite bind_run, Hav.
Qed.

(** Taking a name with a fold other than [name]'s. *)
Lemma take_other_keeps name owner until now userID name' d u d' :
  name_kept name owner until d → until ≤ now + usernameReleaseHold → to_lower name' ≠ to_lower name →
  take_name now userID name' d = (Ok u, d') → name_kept name owner until d'.
Proof.
  intros (Honly & a & Ha & Hl & Hkept) Hext Hne Hrun.
  destruct (take_name_Ok _ _ _ _ _ _ Hrun) as (b & Hb & _ & Hacc & Hres).
  split; rewrite Hacc.
  - intros u' a' [[<- <-]|[_ Ha']]%lookup_insert_Some Hn; [|by eapply Honly].
    rewrite username_is_set, bool_decide_false in Hn by done. done.
  - assert (∀ r, reserved_usernames d !! to_lower name = Some r → userID ≠ owner →
      reserved_usernames d' !! to_lower name = Some r) as Hother.
    { intros r Hr Hu. rewrite Hres, lookup_delete_ne by done. destruct (ac_username b) as [prev|] eqn:Hprev; [|done].
      case_decide; [done|]. rewrite lookup_insert_ne; [done|]. intros Heq. apply Hu, (Honly userID b Hb).
      unfold username_is. rewrite Hprev. simpl. by rewrite Heq, bool_decide_true. }
    destruct (decide (userID = owner)) as [->|Hu].
    + rewrite Ha in Hb. injection Hb as <-. rewrite lookup_insert_eq. eexists. split; [done|]. split; [done|]. right.
      rewrite Hres, lookup_delete_ne by done. destruct (ac_username a) as [prev|] eqn:Hprev.
      * assert (username_is name a = bool_decide (to_lower prev = to_lower name)) as Hn.
        { unfold username_is. rewrite Hprev. simpl. repeat case_bool_decide; congruence. }
        destruct (decide (to_lower prev = to_lower name)) as [Heq|Hneq].
        -- rewrite decide_False by congruence. rewrite Heq, lookup_insert_eq. by eexists.
        -- destruct Hkept as [Hk|Hk]; [rewrite Hn, bool_decide_false in Hk by done; done|].
           case_decide; [done|]. by rewrite lookup_insert_ne.
      * destruct Hkept as [Hk|Hk]; [|done]. unfold username_is in Hk. rewrite Hprev in Hk. done.
    + rewrite lookup_insert_ne by done. exists a. split; [done|]. split; [done|].
      destruct Hkept as [Hk|(r & Hr & Hk)]; [by left|right]. exists r. split; [by apply Hother|done].
Qed.
(** The owner takes it back. *)
Lemma take_back_keeps name owner until now name' d u d' :
  name_kept name owner until d → to_lower name' = to_lower name →
  take_name now owner name' d = (Ok u, d') → name_kept name owner until d'.
Proof.
  intros (Honly & a & Ha & Hl & _) Heq Hrun.
  destruct (take_name_Ok _ _ _ _ _ _ Hrun) as (b & Hb & _ & Hacc & _). rewrite Ha in Hb. injection Hb as <-.
  split; rewrite Hacc.
  - intros u' a' [[<- _]|[_ Ha']]%lookup_insert_Some Hn; [done|by eapply Honly].
  - rewrite lookup_insert_eq. eexists. split; [done|]. split; [done|]. left.
    rewrite username_is_set. by apply bool_decide_eq_true_2.
Qed.
Lemma take_name_Err now userID name d e d' : take_name now userID name d = (Err e, d') → d' = d.
Proof. unfold take_name. apply in_tx_Err. Qed.
(** The step of any claim. *)
Lemma ClaimUsername_keeps name owner until now env userID name' d :
  name_kept name owner until d → (∀ d, name_kept name owner until d → name_kept name owner until (env d)) →
  now < until → until ≤ now + usernameReleaseHold →
  name_kept name owner until (ClaimUsername now env userID name' d).2.
Proof.
  intros Hkept Henv Hlt Hext. destruct (ClaimUsername_cases now env userID name' d) as [[_ ->]|[Hav ->]]; [done|].
  destruct (take_name now userID name' (env d)) as [[u|e] d'] eqn:Hrun; simpl.
  - destruct (decide (to_lower name' = to_lower name)) as [Heq|Hne]; [|eapply take_other_keeps; [by apply Henv|done|done|exact Hrun]].
    destruct (decide (userID = owner)) as [->|Hu]; [eapply take_back_keeps; [by apply Henv|done|exact Hrun]|].
    exfalso. pose proof (name_kept_unavailable name owner until now userID d Hkept Hlt Hu) as Hno.
    rewrite (username_available_fold _ _ _ _ _ Heq) in Hav. congruence.
  - apply take_name_Err in Hrun as ->. by apply Henv.
Qed.

(** A request to claim a name, with what others commit in the middle of it. *)
Record claim := MkClaim { cl_now : time; cl_env : socialdb → socialdb; cl_user : uuid; cl_username : string }.
Definition run_claim (d : socialdb) (c : claim) : socialdb :=
  (Service_ClaimUsername (cl_now c) (cl_env c) (cl_user c) (cl_username c) d).2.
Definition claim_rely (name : string) (owner : uuid) (released : time) (c : claim) : Prop :=
  released ≤ cl_now c < released + usernameReleaseHold ∧
  ∀ d, name_kept name owner (released + usernameReleaseHold) d → name_kept name owner (released + usernameReleaseHold) (cl_env c d).

Lemma Service_ClaimUsername_cases now env userID username d :
  let n := normalize_username username in
  (∃ e, Service_ClaimUsername now env userID username d = (Err e, d)) ∨
  Service_ClaimUsername now env userID username d = map_err claim_error (ClaimUsername now env userID n) d.
Proof.
  cbv zeta. unfold Service_ClaimUsername. rewrite !bind_run. unfold fail_if at 1.
  destruct (negb (usernamePattern _)); [left; by eexists|]. cbn beta iota. rewrite bind_run. unfold fail_if at 1.
  case_bool_decide; [left; by eexists|by right].
Qed.
Lemma run_claim_keeps name owner released d c :
  name_kept name owner (released + usernameReleaseHold) d → claim_rely name owner released c →
  name_kept name owner (released + usernameReleaseHold) (run_claim d c).
Proof.
  intros Hkept [Hnow Henv]. unfold run_claim.
  destruct (Service_ClaimUsername_cases (cl_now c) (cl_env c) (cl_user c) (cl_username c) d) as [[e ->]| ->]; [done|].
  rewrite map_err_snd. apply ClaimUsername_keeps; [done|done|lia|lia].
Qed.

(** A username that is given up is kept for its last holder for thirty days.
    Suppose a live account takes another name, and the name it had was its own alone.
    Whatever claims are made in the thirty days that follow, by whom and in whatever
    spelling, with other requests committing in between, the old name is nobody else's:
    any attempt of somebody else to claim it, in any spelling, is refused. *)
Lemma released_username_is_held now env owner name a new_name d u d' cs :
  ClaimUsername now env owner new_name d = (Ok u, d') →
  accounts (env d) !! owner = Some a → live_account a = true → ac_username a = Some name →
  (∀ v b, accounts (env d) !! v = Some b → username_is name b = true → v = owner) →
  to_lower new_name ≠ to_lower name →
  Forall (claim_rely name owner now) cs →
  let d'' := foldl run_claim d' cs in
  name_kept name owner (now + usernameReleaseHold) d'' ∧
  (∀ t env' claimant username, t < now + usernameReleaseHold → claimant ≠ owner →
     to_lower (normalize_username username) = to_lower name →
     is_Ok (Service_ClaimUsername t env' claimant username d'').1 = false ∧
     (Service_ClaimUsername t env' claimant username d'').2 = d'').
Proof.
  intros Hrun Ha Hl Hname Honly Hne Hcs. cbv zeta.
  assert (name_kept name owner (now + usernameReleaseHold) d') as Hstart.
  { destruct (ClaimUsername_cases now env owner new_name d) as [[_ Hc]|[_ Hc]]; rewrite Hc in Hrun; [done|].
    eapply take_other_keeps; [| |exact Hne|exact Hrun]; [|lia].
    split; [done|]. exists a. split; [done|]. split; [done|]. left. unfold username_is. rewrite Hname. by apply bool_decide_eq_true_2. }
  assert (name_kept name owner (now + usernameReleaseHold) (foldl run_claim d' cs)) as Hkept.
  { clear -Hstart Hcs. revert d' Hstart. induction Hcs as [|c cs Hc _ IH]; intros d' Hstart; [done|].
    simpl. apply IH. by apply run_claim_keeps. }
  split; [done|]. intros t env' claimant username Ht Hu Hspell.
  destruct (Service_ClaimUsername_cases t env' claimant username (foldl run_claim d' cs)) as [[e ->]| ->]; [done|].
  assert (username_available t (normalize_username username) claimant (foldl run_claim d' cs) = false) as Hno.
  { rewrite (username_available_fold _ _ _ _ _ Hspell). by eapply name_kept_unavailable. }
  unfold map_err, catch. destruct (ClaimUsername_cases t env' claimant (normalize_username username) (foldl run_claim d' cs))
    as [[_ ->]|[Hav _]]; [done|congruence].
Qed.

(** Ann gives up ann01; Ben, who takes another name meanwhile, cannot have it. *)
Definition names_before : socialdb :=
  MkSocialDb
    (<[1%N := MkAccount (Some "ann01"%string) "+1" [1%N] "active" false false None None None]>
      (<[2%N := MkAccount None "+2" [2%N] "active" false false None None None]> ∅))
    ∅ ∅ ∅ ∅ ∅ ∅.
Lemma released_username_is_held_witness :
  ∃ d', ClaimUsername 100 (λ d, d) 1 "annie"%string names_before = (Ok (), d') ∧
    let d'' := foldl run_claim d' [MkClaim 200 (λ d, d) 2 "@Benny"] in
    (∃ a, accounts d'' !! 2%N = Some a ∧ ac_username a = Some "benny"%string) ∧
    is_Ok (Service_ClaimUsername 300 (λ d, d) 2 " ANN01" d'').1 = false.
Proof.
  destruct (run_is_Ok (ClaimUsername 100 (λ d, d) 1 "annie"%string) names_before) as [[] Hrun]; [by vm_compute|].
  eexists. split; [exact Hrun|]. cbv zeta. split; [eexists; split; by vm_compute|].
  assert (Forall (claim_rely "ann01" 1 100) [MkClaim 200 (λ d, d) 2 "@Benny"]) as Hrely.
  { constructor; [|constructor]. split; [by vm_compute|done]. }
  destruct (released_username_is_held 100 (λ d, d) 1 "ann01" (MkAccount (Some "ann01"%string) "+1" [1%N] "active" false false None None None)
    "annie"%string names_before () _ [MkClaim 200 (λ d, d) 2 "@Benny"] Hrun) as [_ Hrefused]; [done|done|done| |by vm_compute|exact Hrely|].
  - intros v b. unfold names_before. simpl. intros [[<- _]|[_ [[<- <-]|[_ Hb]]%lookup_insert_Some]]%lookup_insert_Some Hn; [done| |].
    + revert Hn. by vm_compute.
    + by rewrite lookup_empty in Hb.
  - apply (Hrefused 300 (λ d, d) 2%N " ANN01"%string); by vm_compute.
Defined.

(** ** Privacy *)
Lemma check_setting_Ok s u : check_setting s = Ok u →
  ps_Key s ∈ PrivacyKeys ∧ ps_Rule s ∈ PrivacyRules ∧ (∀ v, v ∈ ps_AllowList s → v ∉ ps_DenyList s).
Proof.
  unfold check_setting. case_bool_decide as Hk; [|done]. case_bool_decide as Hr; [|done]. cbn [negb].
  destruct (_ || _); [done|]. destruct (existsb _ _) eqn:Hex; [done|]. intros _. split_and!; [done..|].
  intros v Hv Hd. assert (existsb (λ u, bool_decide (u ∈ ps_DenyList s)) (ps_AllowList s) = true); [|congruence].
  apply existsb_exists. exists v. split; [by apply list_elem_of_In|by apply bool_decide_eq_true_2].
Qed.
Lemma Service_SetPrivacy_Ok userID s d u d' :
  Service_SetPrivacy userID s d = (Ok u, d') →
  check_setting s = Ok () ∧
  d' = with_privacy (<[(userID, ps_Key s) := MkPrivacyRow (ps_Rule s) (ps_AllowList s) (ps_DenyList s)]> (privacy d)) d.
Proof.
  unfold Service_SetPrivacy. rewrite bind_run. destruct (check_setting s) as [[]|e]; [|done].
  unfold map_err, catch, SetPrivacy. destruct (negb _); [done|]. destruct (negb _); [done|]. by intros [= _ <-].
Qed.
Lemma withPresence_hidden now presence p : pf_LastSeen p = None → withPresence now presence p = p.
Proof. unfold withPresence. intros ->. by destruct presence. Qed.
Lemma withPresence_fields now presence p :
  pf_LastSeen (withPresence now presence p) = pf_LastSeen p ∧ pf_AvatarID (withPresence now presence p) = pf_AvatarID p ∧
  (pf_IsOnline (withPresence now presence p) = true → pf_IsOnline p = true ∨
     ∃ c st, presence = Some c ∧ Statuses now [pf_UserID p] c = Some st ∧
       from_option st_Online false (st !! pf_UserID p) = true).
Proof.
  unfold withPresence. destruct presence as [c|]; [|by split_and!; [..|left]].
  destruct (pf_LastSeen p) eqn:Hl; [|by split_and!; [..|left]].
  destruct (Statuses now [pf_UserID p] c) as [st|] eqn:Hst; [|by split_and!; [..|left]].
  split_and!; [done..|]. intros Hon. right. by exists c, st.
Qed.

(** What a person rules is what others see.  A privacy setting that is accepted is
    shown back, in its place among the nine, the others unchanged, and from then on it
    decides: the people it denies do not see, the people it allows do, and for everyone
    else its rule does.  A profile shows its picture, the last time its owner was seen
    and whether they are online to those the owner's rules let see it, and to nobody
    else; being online is only ever shown when presence says so. *)
Lemma privacy_rules_govern :
  (∀ userID s d u d', Service_SetPrivacy userID s d = (Ok u, d') →
     ps_Key s ∈ PrivacyKeys ∧
     PrivacySettings userID d' = (λ p, if decide (ps_Key p = ps_Key s) then s else p) <$> PrivacySettings userID d ∧
     (∀ viewer, viewer ≠ userID →
        (viewer ∈ ps_DenyList s → privacy_allows userID viewer (ps_Key s) d' = false) ∧
        (viewer ∈ ps_AllowList s → privacy_allows userID viewer (ps_Key s) d' = true) ∧
        (viewer ∉ ps_DenyList s → viewer ∉ ps_AllowList s →
           (privacy_allows userID viewer (ps_Key s) d' = true ↔
            ps_Rule s = "everyone"%string ∨ ps_Rule s = "contacts"%string ∧ has_contact userID viewer d = true)))) ∧
  (∀ now presence userID viewer d p d', Service_Profile now presence userID viewer d = (Ok p, d') →
     (pf_AvatarID p = if visible_profile_photo userID viewer d then avatar_of userID d else None) ∧
     (∀ t, pf_LastSeen p = Some t → visible_last_seen userID viewer d = true) ∧
     (pf_IsOnline p = true → visible_last_seen userID viewer d = true ∧
        ∃ c st, presence = Some c ∧ Statuses now [userID] c = Some st ∧
          from_option st_Online false (st !! userID) = true)).
Proof.
  split.
  - intros userID s d u d' (Hcheck & ->)%Service_SetPrivacy_Ok. apply check_setting_Ok in Hcheck as (Hkey & Hrule & Hdis).
    split; [done|]. split.
    + unfold PrivacySettings. rewrite <-list_fmap_compose. apply list_fmap_ext. intros _ k _. cbn [compose].
      unfold setting_of. cbn [privacy with_privacy]. destruct (decide (k = ps_Key s)) as [->|Hne].
      * rewrite lookup_insert_eq. unfold compose. destruct (privacy d !! (userID, ps_Key s)); simpl;
          rewrite decide_True by done; by destruct s.
      * rewrite lookup_insert_ne by congruence. unfold compose. destruct (privacy d !! (userID, k)); simpl;
          by rewrite decide_False.
    + intros viewer Hv. unfold privacy_allows. rewrite decide_False by done. cbn [privacy with_privacy].
      rewrite lookup_insert_eq. cbn [default from_option pv_deny_list pv_allow_list pv_rule id]. split_and!.
      * intros Hd. by rewrite decide_True.
      * intros Ha. rewrite decide_False by by apply Hdis. by rewrite decide_True.
      * intros Hd Ha. rewrite !decide_False by done.
        unfold PrivacyRules in Hrule. rewrite !elem_of_cons in Hrule.
        destruct Hrule as [->|[->|[->|[]%not_elem_of_nil]]]; simpl; naive_solver.
  - intros now presence userID viewer d p d'. unfold Service_Profile. rewrite bind_run. unfold gets at 1. cbn beta iota.
    rewrite bind_run. unfold or_fail at 1. destruct (ByID userID viewer d) as [p0|] eqn:Hp; [|done].
    intros [= <- _]. unfold ByID in Hp. destruct (accounts d !! userID) as [a|]; [|done]. cbn [mbind option_bind] in Hp.
    destruct (live_account a); [|done]. injection Hp as <-.
    match goal with |- context [withPresence now presence ?q] => destruct (withPresence_fields now presence q) as (Hl & Ha & Hon);
      pose proof (withPresence_hidden now presence q) as Hhid end.
    simpl in *. rewrite Hl, Ha. destruct (visible_last_seen userID viewer d).
    + split_and!; [done..|]. intros H. split; [done|]. by destruct (Hon H).
    + rewrite Hhid by done. by split_and!.
Qed.

Lemma privacy_rules_govern_witness :
  ∃ d', Service_SetPrivacy 1 (MkPrivacySetting "last_seen" "everyone" [] [2%N]) names_before = (Ok (), d') ∧
    privacy_allows 1 2 "last_seen" d' = false.
Proof.
  destruct (run_is_Ok (Service_SetPrivacy 1 (MkPrivacySetting "last_seen" "everyone" [] [2%N])) names_before) as [[] Hrun];
    [by vm_compute|].
  eexists. split; [exact Hrun|].
  apply (proj1 privacy_rules_govern _ _ _ _ _ Hrun); [by vm_compute|]. simpl. by left.
Defined.

(** For a key that was never written the settings screen and the resolver differ. *)
Lemma unset_messages_rule_is_misreported userID viewer d :
  privacy d !! (userID, "messages"%string) = None → viewer ≠ userID → has_contact userID viewer d = false →
  ps_Rule (setting_of userID d "messages") = "everyone"%string ∧ privacy_allows userID viewer "messages" d = false.
Proof.
  intros Hnone Hv Hc. unfold setting_of, privacy_allows. rewrite Hnone, decide_False by done. split; [done|].
  cbn. by rewrite Hc.
Qed.
