(* ===== verification/FeatureFlags.v ===== *)
(** * Feature flags ([internal/featureflags/flags.go])

    The table of flags, the copy shared through the cache and the snapshot each node
    keeps.  A cached value stands for the JSON of the map it holds.  Whether the
    database answers is an argument of a load, [now] the clock of the node, taken to
    agree with the others'. *)

From stdpp Require Import base tactics list gmap strings sorting.
From Stdlib Require Import ZArith Lia.
From S2P Require Import Prelude GoString Httpx Cache.

Set Default Goal Selector "!".
Open Scope Z_scope.

Definition refreshInterval : Z := 30 * second.
Definition cacheKey : string := "feature_flags:all".

Record Flag := MkFlag {
  f_Key : string;
  f_Enabled : bool;
  f_RolloutPercent : Z;
  f_Description : string;
  f_UpdatedAt : time;
}.
Abbreviation flag_table := (gmap string Flag) (only parsing).

(** A node's service: [loadedAt] is [None] for the zero time. *)
Record node := MkNode { n_flags : flag_table; n_loadedAt : option time }.
Definition NewService : node := MkNode ∅ None.

(** ** Buckets *)

(** [hash/fnv.New32a] *)
Definition fnv_step (h : N) (b : N) : N := (N.lxor h b * 16777619 mod 2 ^ 32)%N.
Definition fnv32a (bs : list N) : N := foldl fnv_step 2166136261%N bs.
(** The sixteen bytes of a [uuid.UUID], most significant first. *)
Definition uuid_bytes (u : uuid) : list N := (λ k, N.land (N.shiftr u (8 * N.of_nat (15 - k))) 255) <$> seq 0 16.
Definition bucket (key : string) (userID : uuid) : Z :=
  Z.of_N (fnv32a (bytes_of key ++ uuid_bytes userID) mod 100).

(** What [Enabled] answers for the flag it found. *)
Definition flag_on (key : string) (userID : uuid) (f : option Flag) : bool :=
  match f with
  | None => false
  | Some f =>
      if negb (f_Enabled f) then false
      else if 100 <=? f_RolloutPercent f then true
      else if f_RolloutPercent f <=? 0 then false
      else bucket key userID <? f_RolloutPercent f
  end.

(** ** The node *)

Section node.
Context (dbUp : bool) (flags_db : flag_table).

(** [load]: [None] is an error of the database. *)
Definition load (now : time) (c : cache flag_table) : option flag_table * cache flag_table :=
  match Get now cacheKey c with
  | Found cached => (Some cached, c)
  | _ => if negb dbUp then (None, c) else (Some flags_db, (Set_ now cacheKey flags_db refreshInterval c).2)
  end.

Definition fresh (now : time) (n : node) : bool :=
  if n_loadedAt n is Some t then now - t <? refreshInterval else false.
Definition ensureFresh (now : time) (s : node * cache flag_table) : node * cache flag_table :=
  if fresh now s.1 then s
  else match load now s.2 with
       | (Some flags, c) => (MkNode flags (Some now), c)
       | (None, c) => (s.1, c)
       end.
Definition lookup (now : time) (key : string) (s : node * cache flag_table) : option Flag * (node * cache flag_table) :=
  let s := ensureFresh now s in (n_flags s.1 !! key, s).
Definition Enabled (now : time) (key : string) (userID : uuid) (s : node * cache flag_table)
    : bool * (node * cache flag_table) :=
  let '(f, s) := lookup now key s in (flag_on key userID f, s).
Definition Require_ (now : time) (key : string) (userID : uuid) (s : node * cache flag_table)
    : result Error () * (node * cache flag_table) :=
  let '(on, s) := Enabled now key userID s in
  (if on then Ok () else Err (FeatureDisabled key), s).
(** In no particular order. *)
Definition All (now : time) (s : node * cache flag_table) : list Flag * (node * cache flag_table) :=
  let s := ensureFresh now s in ((map_to_list (n_flags s.1)).*2, s).
(** The list a signed-in caller gets: their own answers. *)
Definition List_ (now : time) (principal : option uuid) (s : node * cache flag_table) : list Flag * (node * cache flag_table) :=
  let '(flags, s) := All now s in
  match principal with
  | None => (flags, s)
  | Some u =>
      foldl (λ acc f, let '(on, s) := Enabled now (f_Key f) u acc.2 in
               (acc.1 ++ [MkFlag (f_Key f) on 100 (f_Description f) (f_UpdatedAt f)], s)) ([], s) flags
  end.
(** A request under [Gate]: refused, or let through. *)
Definition Gate (now : time) (key : string) (principal : option uuid) (s : node * cache flag_table)
    : result Error () * (node * cache flag_table) :=
  Require_ now key (default uuid_nil principal) s.
End node.

(** [Set], over the table, the shared copy and the node it runs on. *)
Record system := MkSystem { sys_db : flag_table; sys_cache : cache flag_table; sys_nodes : gmap N node }.
Definition upsert_flag (now : time) (key : string) (enabled : bool) (rollout : Z) (t : flag_table) : flag_table :=
  <[key := MkFlag key enabled rollout (match t !! key with Some f => f_Description f | None => "" end)%string now]> t.
Definition Set_flag (now : time) (i : N) (key : string) (enabled : bool) (rollout : Z) : prog system Error () := λ s,
  if (rollout <? 0) || (100 <? rollout) then
    (Err (WithField (Validation "rollout_percent must be between 0 and 100") "rollout_percent" "0-100"), s)
  else (Ok (), MkSystem (upsert_flag now key enabled rollout (sys_db s)) (Delete cacheKey (sys_cache s)).2
                 (alter (λ n, MkNode (n_flags n) None) i (sys_nodes s))).

(** ** Runs of several nodes, newest operation first *)

Inductive flag_op :=
| FSet (t : time) (i : N) (key : string) (enabled : bool) (rollout : Z)
| FRead (t : time) (i : N) (dbUp : bool)
| FCache (t : time) (up : bool)
| FStart (t : time) (i : N).
Definition op_time (o : flag_op) : time :=
  match o with FSet t _ _ _ _ | FRead t _ _ | FCache t _ | FStart t _ => t end.
(** A change that [Set] accepts. *)
Definition is_set (o : flag_op) : bool :=
  match o with FSet _ _ _ _ rollout => (0 <=? rollout) && (rollout <=? 100) | _ => false end.
Definition is_outage (o : flag_op) : bool := if o is FCache _ _ then true else false.
Definition node_at (i : N) (s : system) : node := default NewService (sys_nodes s !! i).
Definition run_flag_op (o : flag_op) (s : system) : system :=
  match o with
  | FSet t i key enabled rollout => (Set_flag t i key enabled rollout s).2
  | FRead t i dbUp =>
      let '(n, c) := ensureFresh dbUp (sys_db s) t (node_at i s, sys_cache s) in
      MkSystem (sys_db s) c (<[i := n]> (sys_nodes s))
  | FCache _ up => MkSystem (sys_db s) (MkCache up (c_entries (sys_cache s))) (sys_nodes s)
  | FStart _ i => MkSystem (sys_db s) (sys_cache s) (<[i := NewService]> (sys_nodes s))
  end.
Definition seeded (t : flag_table) : system := MkSystem t empty_cache ∅.
Definition run_flags (t : flag_table) (h : list flag_op) : system := foldr run_flag_op (seeded t) h.

(** A later operation has a later time. *)
Definition newest_first (h : list flag_op) : Prop := StronglySorted (λ o o', op_time o' ≤ op_time o) h.

Section staleness.
Context (t0 : flag_table) (slack : Z) (Hslack : slack = 0 ∨ slack = refreshInterval).

(** [F] is what the table held before the changes in [h2], none older than [b]. *)
Definition snapshot (F : flag_table) (b : time) (h : list flag_op) : Prop :=
  ∃ h2 h1, h = h2 ++ h1 ∧ F = sys_db (run_flags t0 h1) ∧ ∀ o, o ∈ h2 → is_set o = true → b ≤ op_time o + slack.
Record flags_ok (now : time) (h : list flag_op) (s : system) : Prop := {
  ok_db : sys_db s = sys_db (run_flags t0 h);
  ok_up : slack = 0 → c_up (sys_cache s) = true;
  ok_cache : ∀ en, c_entries (sys_cache s) !! cacheKey = Some en →
    ∃ F e, en = MkEntry (CString F) (Some e) ∧ e ≤ now + refreshInterval ∧ snapshot F e h;
  ok_node : ∀ i n l, sys_nodes s !! i = Some n → n_loadedAt n = Some l → l ≤ now ∧ snapshot (n_flags n) l h;
}.

Lemma snapshot_now h b : snapshot (sys_db (run_flags t0 h)) b h.
Proof. exists [], h. split; [done|]. split; [done|]. by intros o ?%not_elem_of_nil. Qed.
Lemma snapshot_cons F b h o : snapshot F b h → (is_set o = true → b ≤ op_time o + slack) → snapshot F b (o :: h).
Proof.
  intros (h2 & h1 & -> & -> & Hall) Ho. exists (o :: h2), h1. split; [done|]. split; [done|].
  intros o' [->|Hin]%elem_of_cons; [done|by apply Hall].
Qed.
Lemma snapshot_weaken F b b' h : snapshot F b h → b' ≤ b → snapshot F b' h.
Proof.
  intros (h2 & h1 & -> & -> & Hall) Hle. exists h2, h1. split; [done|]. split; [done|].
  intros o Ho Hs. specialize (Hall o Ho Hs). lia.
Qed.

(** What a node holds after [ensureFresh]. *)
Lemma load_ok now0 now h s dbUp :
  flags_ok now0 h s → now0 ≤ now →
  match load dbUp (sys_db s) now (sys_cache s) with
  | (Some F, c) => snapshot F now h ∧ c_up c = c_up (sys_cache s) ∧
      ∀ en, c_entries c !! cacheKey = Some en →
        ∃ F e, en = MkEntry (CString F) (Some e) ∧ e ≤ now + refreshInterval ∧ snapshot F e h
  | (None, c) => dbUp = false ∧ c = sys_cache s
  end.
Proof.
  intros [Hdb Hup Hcache Hnode] Hle. unfold load.
  assert (∀ en, c_entries (sys_cache s) !! cacheKey = Some en →
    ∃ F e, en = MkEntry (CString F) (Some e) ∧ e ≤ now + refreshInterval ∧ snapshot F e h) as Hcache'.
  { intros en Hen. destruct (Hcache en Hen) as (F & e & ? & ? & ?). exists F, e. split; [done|]. split; [lia|done]. }
  destruct (Get now cacheKey (sys_cache s)) as [F| |] eqn:Hget.
  - split; [|done]. unfold Get in Hget. destruct (negb (c_up (sys_cache s))); [done|].
    unfold entry_at in Hget. destruct (c_entries (sys_cache s) !! cacheKey) as [en|] eqn:Hen; [|done]. simpl in Hget.
    destruct (Hcache _ eq_refl) as (F' & e & -> & _ & Hsnap). simpl in Hget. destruct (e <=? now) eqn:He; [done|].
    injection Hget as <-. apply Z.leb_gt in He. apply (snapshot_weaken _ e); [done|lia].
  - destruct dbUp; simpl; [|done]. rewrite Hdb. split; [apply snapshot_now|].
    unfold Set_. destruct (c_up (sys_cache s)) eqn:Hc; simpl; [|done]. split; [done|].
    intros en. rewrite lookup_insert_eq. intros [= <-]. eexists _, _. split; [done|]. split; [lia|apply snapshot_now].
  - destruct dbUp; simpl; [|done]. rewrite Hdb. split; [apply snapshot_now|].
    unfold Set_. destruct (c_up (sys_cache s)) eqn:Hc; simpl; [|done]. split; [done|].
    intros en. rewrite lookup_insert_eq. intros [= <-]. eexists _, _. split; [done|]. split; [lia|apply snapshot_now].
Qed.

Lemma run_flag_op_ok now h s o :
  (slack = 0 → is_outage o = false) → now ≤ op_time o →
  sys_db s = sys_db (run_flags t0 h) → sys_db (run_flag_op o s) = sys_db (run_flags t0 (o :: h)) →
  flags_ok now h s → flags_ok (op_time o) (o :: h) (run_flag_op o s).
Proof.
  intros Hout Hle Hdb Hdb' Hok. pose proof Hok as [_ Hup Hcache Hnode].
  assert (∀ F e, is_set o = false → snapshot F e h → snapshot F e (o :: h)) as Hkeep
    by (intros F e Ho Hs; apply snapshot_cons; [done|congruence]).
  assert (∀ en, is_set o = false → c_entries (sys_cache s) !! cacheKey = Some en →
    ∃ F e, en = MkEntry (CString F) (Some e) ∧ e ≤ op_time o + refreshInterval ∧ snapshot F e (o :: h)) as Hcache'.
  { intros en Ho Hen. destruct (Hcache en Hen) as (F & e & ? & ? & ?). exists F, e. split; [done|]. split; [lia|auto]. }
  assert (∀ i n l, sys_nodes s !! i = Some n → n_loadedAt n = Some l → l ≤ op_time o ∧ snapshot (n_flags n) l (o :: h)) as Hnode'.
  { intros i n l Hi Hl. destruct (Hnode i n l Hi Hl) as [Hll Hs]. split; [lia|]. apply snapshot_cons; [done|].
    intros _. unfold refreshInterval, second in Hslack. lia. }
  destruct o as [t i key en ro|t i dbUp|t up|t i]; cbn [run_flag_op op_time is_outage] in *.
  - unfold Set_flag in *. simpl is_set in *. destruct ((ro <? 0) || (100 <? ro)) eqn:Hro; simpl in *.
    + split; [done|done| |done]. intros en' Hen. apply Hcache'; [|done].
      apply orb_true_iff in Hro. rewrite !Z.ltb_lt in Hro. apply andb_false_iff. rewrite !Z.leb_gt. lia.
    + split; simpl; [done|intros Hs; unfold Delete; rewrite (Hup Hs); simpl; by apply Hup| |].
      * intros en'. unfold Delete. destruct (c_up (sys_cache s)) eqn:Hc; simpl; [by rewrite lookup_delete_eq|].
        intros Hen. destruct (Hcache en' Hen) as (F & e & ? & He & Hs). exists F, e. split; [done|]. split; [lia|].
        destruct Hslack as [Hz| ->]; [specialize (Hup Hz); congruence|]. apply snapshot_cons; [done|]. simpl. lia.
      * intros j n l. rewrite lookup_alter. destruct (decide (i = j)) as [->|Hne]; [|by apply Hnode'].
        destruct (sys_nodes s !! j); [|done]. by intros [= <-].
  - pose proof (load_ok now t h s dbUp Hok Hle) as Hload. unfold ensureFresh in *. cbn [fst snd] in *.
    destruct (fresh t (node_at i s)) eqn:Hf; [|destruct (load dbUp (sys_db s) t (sys_cache s)) as [[F|] c]].
    + split; simpl; [done|done|by intros en' Hen; apply Hcache'|].
      intros j n l. destruct (decide (j = i)) as [->|Hne]; [|rewrite lookup_insert_ne by done; by apply Hnode'].
      rewrite lookup_insert_eq. intros [= <-] Hl. unfold node_at in *.
      destruct (sys_nodes s !! i) as [n|] eqn:Hi; [by apply (Hnode' i n)|done].
    + destruct Hload as (Hsnap & Hcup & Hc). split; simpl; [done|intros Hs; rewrite Hcup; by apply Hup| |].
      * intros en' Hen. destruct (Hc en' Hen) as (F' & e & ? & ? & ?). exists F', e. split; [done|]. split; [done|].
        by apply snapshot_cons.
      * intros j n l. destruct (decide (j = i)) as [->|Hne]; [|rewrite lookup_insert_ne by done; by apply Hnode'].
        rewrite lookup_insert_eq. intros [= <-] [= <-]. split; [simpl; lia|]. by apply snapshot_cons.
    + destruct Hload as [-> ->]. split; simpl; [done|done|by intros en' Hen; apply Hcache'|].
      intros j n l. destruct (decide (j = i)) as [->|Hne]; [|rewrite lookup_insert_ne by done; by apply Hnode'].
      rewrite lookup_insert_eq. intros [= <-] Hl. unfold node_at in *.
      destruct (sys_nodes s !! i) as [n|] eqn:Hi; [by apply (Hnode' i n)|done].
  - split; simpl; [done| |by intros en' Hen; apply Hcache'|done]. intros Hs. by specialize (Hout Hs).
  - split; simpl; [done|done|by intros en' Hen; apply Hcache'|].
    intros j n l. destruct (decide (j = i)) as [->|Hne]; [|rewrite lookup_insert_ne by done; by apply Hnode'].
    rewrite lookup_insert_eq. by intros [= <-].
Qed.
End staleness.

Lemma flags_ok_later t0 slack now now' h s : now ≤ now' → flags_ok t0 slack now h s → flags_ok t0 slack now' h s.
Proof.
  intros Hle [Hdb Hup Hcache Hnode]. split; [done|done| |].
  - intros en Hen. destruct (Hcache en Hen) as (F & e & ? & ? & ?). exists F, e. split; [done|]. split; [lia|done].
  - intros i n l Hi Hl. destruct (Hnode i n l Hi Hl). split; [lia|done].
Qed.
Lemma run_flags_ok t0 slack now h :
  slack = 0 ∨ slack = refreshInterval → (slack = 0 → existsb is_outage h = false) →
  newest_first h → Forall (λ o, op_time o ≤ now) h → flags_ok t0 slack now h (run_flags t0 h).
Proof.
  intros Hslack. revert now. induction h as [|o h IH]; intros now Hout Hnf Hnow.
  - split; [done|done| |]; simpl; intros *; by rewrite lookup_empty.
  - apply StronglySorted_inv in Hnf as [Hnf Ho]. apply Forall_cons in Hnow as [Hle _].
    apply (flags_ok_later _ _ (op_time o)); [done|].
    assert (slack = 0 → is_outage o = false ∧ existsb is_outage h = false) as Hout'
      by (intros Hs; specialize (Hout Hs); simpl in Hout; by apply orb_false_iff in Hout).
    apply (run_flag_op_ok t0 slack Hslack (op_time o)); [intros Hs; by apply Hout'|lia|done|done|].
    apply IH; [intros Hs; by apply Hout'|done|done].
Qed.

(** With the database up, a node answers for a user by the flag as the table held it
    before at most the changes of the last thirty seconds, whatever sequence of reads,
    changes and restarts of nodes came before; when the shared cache has failed at some
    point, the changes of the last minute.  A flag left alone for that long is answered as
    stored, on every node. *)
Lemma flags_are_nearly_fresh t0 h now i key u :
  newest_first h → Forall (λ o, op_time o ≤ now) h →
  let s := run_flags t0 h in
  let bound := if existsb is_outage h then refreshInterval * 2 else refreshInterval in
  ∃ recent before, h = recent ++ before ∧
    (∀ o, o ∈ recent → is_set o = true → now < op_time o + bound) ∧
    (Enabled true (sys_db s) now key u (node_at i s, sys_cache s)).1 =
      flag_on key u (sys_db (run_flags t0 before) !! key).
Proof.
  intros Hnf Hnow. simpl.
  set (slack := if existsb is_outage h then refreshInterval else 0).
  assert (slack = 0 ∨ slack = refreshInterval) as Hslack by (unfold slack; destruct (existsb _ _); [by right|by left]).
  assert (slack = 0 → existsb is_outage h = false) as Hout by (unfold slack; by destruct (existsb _ _)).
  pose proof (run_flags_ok t0 slack now h Hslack Hout Hnf Hnow) as Hok.
  assert (snapshot t0 slack (n_flags (ensureFresh true (sys_db (run_flags t0 h)) now
            (node_at i (run_flags t0 h), sys_cache (run_flags t0 h))).1) (now - refreshInterval + 1) h) as Hsnap.
  { unfold ensureFresh. cbn [fst snd]. destruct (fresh now _) eqn:Hf.
    - unfold fresh, node_at in *. destruct (sys_nodes _ !! i) as [n|] eqn:Hi; [|done]. simpl in *.
      destruct (n_loadedAt n) as [l|] eqn:Hl; [|done]. apply Z.ltb_lt in Hf.
      destruct (ok_node _ _ _ _ _ Hok i n l Hi Hl) as [_ Hs]. apply (snapshot_weaken _ _ _ l); [done|lia].
    - pose proof (load_ok t0 slack now now h _ true Hok ltac:(lia)) as Hload.
      destruct (load true _ now _) as [[F|] c]; [|by destruct Hload]. destruct Hload as [Hs _]. simpl.
      apply (snapshot_weaken _ _ _ now); [done|]. unfold refreshInterval, second. lia. }
  destruct Hsnap as (h2 & h1 & Heq & HF & Hall). exists h2, h1. split; [done|]. split.
  - intros o Ho Hs. specialize (Hall o Ho Hs). revert Hall. unfold slack.
    destruct (existsb _ _); lia.
  - unfold Enabled, lookup. cbn [fst snd]. by rewrite HF.
Qed.

(** Raising a rollout never takes a flag away from anybody, and a hundred percent is
    everybody. *)
Lemma rollout_only_grows key u f f' :
  f_Enabled f' = true → f_RolloutPercent f ≤ f_RolloutPercent f' →
  flag_on key u (Some f) = true → flag_on key u (Some f') = true.
Proof.
  unfold flag_on. intros -> Hle. destruct (f_Enabled f); simpl; [|done].
  destruct (Z.leb_spec 100 (f_RolloutPercent f)); destruct (Z.leb_spec 100 (f_RolloutPercent f')); try done.
  { intros _. exfalso. lia. }
  destruct (Z.leb_spec (f_RolloutPercent f) 0); [done|]. rewrite (proj2 (Z.leb_gt (f_RolloutPercent f') 0)) by lia.
  rewrite !Z.ltb_lt. lia.
Qed.
Lemma bucket_range key u : 0 ≤ bucket key u < 100.
Proof.
  unfold bucket. assert (100 ≠ 0)%N as H by done.
  pose proof (N.mod_lt (fnv32a (bytes_of key ++ uuid_bytes u)) 100 H) as Hlt. revert Hlt.
  generalize (fnv32a (bytes_of key ++ uuid_bytes u) mod 100)%N as x. intros x Hx. lia.
Qed.
(** The published test vectors of the hash. *)
Example fnv32a_vectors :
  (fnv32a (bytes_of ""), fnv32a (bytes_of "a"), fnv32a (bytes_of "foobar")) = (0x811c9dc5, 0xe40c292c, 0xbf9cf968)%N.
Proof. by vm_compute. Qed.

(** A table read before a change and stored in the cache after it is served, by a node
    that refreshes late, a minute after the change. *)
Example late_store_outlives_the_bound :
  let on := {["calls_enabled"%string := MkFlag "calls_enabled" true 100 "" 0]} in
  let s := (Set_flag second 1 "calls_enabled" false 100 (seeded on)).2 in
  let c := (Set_ (2 * second) cacheKey on refreshInterval (sys_cache s)).2 in
  let '(answer, s') := Enabled true (sys_db s) (31 * second) "calls_enabled" 5 (NewService, c) in
  answer = true ∧ (Enabled true (sys_db s) (60 * second) "calls_enabled" 5 s').1 = true.
Proof. by vm_compute. Qed.

(** Two nodes, a change while the cache is down. *)
Definition flags_history : list flag_op :=
  [FSet (50 * second) 1 "calls_enabled" false 100; FRead (41 * second) 2 true; FRead (20 * second) 1 true].
Definition flags_seed : flag_table := {["calls_enabled"%string := MkFlag "calls_enabled" true 100 "" 0]}.
Lemma flags_are_nearly_fresh_witness :
  ∃ recent before, flags_history = recent ++ before ∧
    (∀ o, o ∈ recent → is_set o = true → 60 * second < op_time o + refreshInterval) ∧
    (Enabled true (sys_db (run_flags flags_seed flags_history)) (60 * second) "calls_enabled" 5
       (node_at 2 (run_flags flags_seed flags_history), sys_cache (run_flags flags_seed flags_history))).1 =
      flag_on "calls_enabled" 5 (sys_db (run_flags flags_seed before) !! "calls_enabled"%string).
Proof.
  apply (flags_are_nearly_fresh flags_seed flags_history (60 * second) 2 "calls_enabled" 5).
  - repeat constructor; unfold second; simpl; lia.
  - repeat constructor; unfold second; simpl; lia.
Defined.
