(* ===== verification/NetGuard.v ===== *)
(** * The guard of outgoing requests ([internal/netguard/netguard.go])

    Which addresses the server may talk to, which URLs it accepts and what the guarded
    client connects to.  A [net.IP] is its bytes, four or sixteen, most significant
    first; [net/url] and [net.ParseIP] are a class, the answers of the resolver are
    arguments, one for each time it is asked. *)

From stdpp Require Import base tactics list strings.
From Stdlib Require Import ZArith Lia.
From S2P Require Import Prelude GoString.

Set Default Goal Selector "!".
Open Scope N_scope.

Abbreviation IP := (list N) (only parsing).

(** ** [net.IP] *)

(** [To4]: the four bytes of an IPv4 address, mapped into IPv6 or not. *)
Definition To4 (ip : IP) : option IP :=
  if Nat.eqb (length ip) 4 then Some ip
  else if Nat.eqb (length ip) 16 && bool_decide (take 12 ip = replicate 10 0 ++ [255; 255]) then Some (drop 12 ip)
  else None.
Definition byte_at (ip : IP) (i : nat) : N := nth i ip 0.
Definition is16 (ip : IP) : bool := Nat.eqb (length ip) 16.
Definition all_bytes (l : list N) (ip : IP) : bool := bool_decide (ip = l).

Definition IsUnspecified (ip : IP) : bool :=
  match To4 ip with
  | Some ip4 => all_bytes [0; 0; 0; 0] ip4
  | None => all_bytes (replicate 16 0) ip
  end.
Definition IsLoopback (ip : IP) : bool :=
  match To4 ip with
  | Some ip4 => byte_at ip4 0 =? 127
  | None => all_bytes (replicate 15 0 ++ [1]) ip
  end.
Definition IsPrivate (ip : IP) : bool :=
  match To4 ip with
  | Some ip4 =>
      (byte_at ip4 0 =? 10)
      || (byte_at ip4 0 =? 172) && (N.land (byte_at ip4 1) 240 =? 16)
      || (byte_at ip4 0 =? 192) && (byte_at ip4 1 =? 168)
  | None => is16 ip && (N.land (byte_at ip 0) 254 =? 252)
  end.
Definition IsMulticast (ip : IP) : bool :=
  match To4 ip with
  | Some ip4 => N.land (byte_at ip4 0) 240 =? 224
  | None => is16 ip && (byte_at ip 0 =? 255)
  end.
Definition IsInterfaceLocalMulticast (ip : IP) : bool :=
  is16 ip && (byte_at ip 0 =? 255) && (N.land (byte_at ip 1) 15 =? 1).
Definition IsLinkLocalMulticast (ip : IP) : bool :=
  match To4 ip with
  | Some ip4 => (byte_at ip4 0 =? 224) && (byte_at ip4 1 =? 0) && (byte_at ip4 2 =? 0)
  | None => is16 ip && (byte_at ip 0 =? 255) && (N.land (byte_at ip 1) 15 =? 2)
  end.
Definition IsLinkLocalUnicast (ip : IP) : bool :=
  match To4 ip with
  | Some ip4 => (byte_at ip4 0 =? 169) && (byte_at ip4 1 =? 254)
  | None => is16 ip && (byte_at ip 0 =? 254) && (N.land (byte_at ip 1) 192 =? 128)
  end.

(** [IPNet]: the address and the length of the prefix; [Contains] compares under the
    mask, and only addresses of the same family. *)
Definition mask_byte (p : nat) : N := 255 - (2 ^ N.of_nat (8 - p) - 1).
Fixpoint masked_eq (net : list N) (p : nat) (ip : list N) : bool :=
  match net, ip with
  | [], [] => true
  | x :: net, y :: ip => (N.land x (mask_byte (min p 8)) =? N.land y (mask_byte (min p 8))) && masked_eq net (p - 8) ip
  | _, _ => false
  end.
Definition Contains (block : list N * nat) (ip : IP) : bool :=
  masked_eq block.1 block.2 (default ip (To4 ip)).

Definition blockedRanges : list (list N * nat) :=
  [([100; 64; 0; 0], 10%nat); ([192; 0; 0; 0], 24%nat); ([192; 0; 2; 0], 24%nat); ([198; 18; 0; 0], 15%nat);
   ([198; 51; 100; 0], 24%nat); ([203; 0; 113; 0], 24%nat); ([240; 0; 0; 0], 4%nat);
   (252 :: replicate 15 0, 7%nat); ([32; 1; 13; 184] ++ replicate 12 0, 32%nat)].

(** [nil] is no address. *)
Definition IsPublic (ip : option IP) : bool :=
  match ip with
  | None => false
  | Some ip =>
      if IsLoopback ip || IsUnspecified ip || IsLinkLocalUnicast ip || IsLinkLocalMulticast ip
         || IsInterfaceLocalMulticast ip || IsMulticast ip || IsPrivate ip
      then false
      else
        let mapped := default ip (To4 ip) in
        negb (existsb (λ block, Contains block mapped) blockedRanges)
  end.

(** ** URLs *)

Record URL := MkURL { Scheme : string; Host : string; Port : string; Hostname : string }.
Class UrlLibrary := {
  url_Parse : string → option URL;
  ParseIP : string → option IP;
}.

Inductive guard_error := ErrParse | ErrSchemeNotAllowed | ErrPrivateAddress | ErrHostNotResolvable | ErrPortNotAllowed | ErrTooManyRedirects.

Definition allowedPorts : list string := [""; "80"; "443"; "8080"; "8443"]%string.

Section guard.
Context `{UrlLibrary}.

(** [dns] is what the resolver answers this time; [None] is an error. *)
Definition ValidateURL (dns : string → option (list IP)) (raw : string) : result guard_error URL :=
  match url_Parse (trim_space raw) with
  | None => Err ErrParse
  | Some parsed =>
      if negb (bool_decide (Scheme parsed = "http"%string)) && negb (bool_decide (Scheme parsed = "https"%string))
      then Err ErrSchemeNotAllowed
      else if bool_decide (Host parsed = ""%string) then Err ErrHostNotResolvable
      else if negb (bool_decide (Port parsed ∈ allowedPorts)) then Err ErrPortNotAllowed
      else
        match ParseIP (Hostname parsed) with
        | Some ip => if IsPublic (Some ip) then Ok parsed else Err ErrPrivateAddress
        | None =>
            match dns (Hostname parsed) with
            | None | Some [] => Err ErrHostNotResolvable
            | Some addresses =>
                if forallb (λ ip, IsPublic (Some ip)) addresses then Ok parsed else Err ErrPrivateAddress
            end
        end
  end.

(** [SafeClient]: the [Control] of its dialler on the address about to be connected to,
    and its [CheckRedirect]. *)
Definition Control (host : string) : result guard_error () :=
  if IsPublic (ParseIP host) then Ok () else Err ErrPrivateAddress.
Definition CheckRedirect (dns : string → option (list IP)) (url : string) (via : nat) : result guard_error () :=
  if (3 <=? via)%nat then Err ErrTooManyRedirects
  else match ValidateURL dns url with Ok _ => Ok () | Err e => Err e end.

(** A request the client is about to make: its URL, what the resolver says when the URL is
    validated, the addresses the dialler then tries, as text, and the URL it is redirected
    to. *)
Record hop := MkHop { hop_url : string; hop_dns : string → option (list IP); hop_tries : list string }.
(** The addresses connected to in a run of [client.Do]: the first request is made, each
    redirect is checked with the number of requests made before it.  Of the addresses a
    hop tries, those that pass [Control]. *)
Fixpoint follow (via : nat) (hops : list hop) : list (nat * string) :=
  match hops with
  | [] => []
  | h :: hops =>
      if (if (0 <? via)%nat then is_Ok (CheckRedirect (hop_dns h) (hop_url h) via) else true)
      then ((λ a, (via, a)) <$> filter (λ a, is_Ok (Control a) = true) (hop_tries h)) ++ follow (S via) hops
      else []
  end.
(** A guarded fetch: the URL is validated, then requested. *)
Definition guarded_fetch (h : hop) (redirects : list hop) : list (nat * string) :=
  match ValidateURL (hop_dns h) (hop_url h) with
  | Ok _ => follow 0 (h :: redirects)
  | Err _ => []
  end.
End guard.

(** ** Prefixes as numbers *)

Definition value (bs : list N) : N := foldl (λ acc b, acc * 256 + b) 0 bs.
Definition is_byte (b : N) : Prop := b < 256.
(** The standard meaning of [net/p] over [w] bits. *)
Definition in_prefix (w : nat) (net : N) (p : nat) (v : N) : Prop :=
  v / 2 ^ N.of_nat (w - p) = net / 2 ^ N.of_nat (w - p).
#[export] Instance in_prefix_decision w net p v : Decision (in_prefix w net p v).
Proof. unfold in_prefix. apply _. Defined.

Lemma value_from bs acc : foldl (λ acc b, acc * 256 + b) acc bs = acc * 2 ^ N.of_nat (8 * length bs) + value bs.
Proof.
  unfold value. revert acc. induction bs as [|b bs IH]; intros acc; simpl length; [simpl; lia|].
  simpl foldl. rewrite (IH (acc * 256 + b)), (IH (0 * 256 + b)).
  replace (N.of_nat (8 * S (length bs))) with (8 + N.of_nat (8 * length bs)) by lia.
  rewrite N.pow_add_r. change (2 ^ 8) with 256. lia.
Qed.
Lemma value_cons b bs : value (b :: bs) = b * 2 ^ N.of_nat (8 * length bs) + value bs.
Proof. unfold value at 1. simpl foldl. rewrite value_from. done. Qed.
Lemma value_bound bs : Forall is_byte bs → value bs < 2 ^ N.of_nat (8 * length bs).
Proof.
  induction 1 as [|b bs Hb Hbs IH]; [done|]. rewrite value_cons. simpl length.
  replace (N.of_nat (8 * S (length bs))) with (8 + N.of_nat (8 * length bs)) by lia.
  rewrite N.pow_add_r. change (2 ^ 8) with 256. unfold is_byte in Hb. nia.
Qed.

Lemma mask_byte_top p b : (p ≤ 8)%nat → is_byte b → N.land b (mask_byte p) = b / 2 ^ N.of_nat (8 - p) * 2 ^ N.of_nat (8 - p).
Proof.
  intros Hp Hb. unfold is_byte in Hb.
  assert (forallb (λ p, forallb (λ b, N.land b (mask_byte p) =? b / 2 ^ N.of_nat (8 - p) * 2 ^ N.of_nat (8 - p))
            (N.of_nat <$> seq 0 256)) (seq 0 9) = true) as Hall by (vm_compute; reflexivity).
  rewrite forallb_forall in Hall. specialize (Hall p). rewrite <-list_elem_of_In, elem_of_seq in Hall.
  specialize (Hall ltac:(lia)). apply (forallb_below _ 256 b) in Hall; [by apply N.eqb_eq|done].
Qed.

(** Division by the weight of the bits a prefix leaves out. *)
Lemma div_cons x v e k : v < 2 ^ (e + k) → (x * 2 ^ (e + k) + v) / 2 ^ e = x * 2 ^ k + v / 2 ^ e.
Proof.
  intros Hv. rewrite N.pow_add_r. replace (x * (2 ^ e * 2 ^ k) + v) with (v + x * 2 ^ k * 2 ^ e) by lia.
  rewrite N.div_add by (apply N.pow_nonzero; done). lia.
Qed.
Lemma quotient_unique x y a b m : a < m → b < m → x * m + a = y * m + b → x = y ∧ a = b.
Proof.
  intros Ha Hb Heq. assert (x = y) as ->; [|split; [done|lia]].
  destruct (N.lt_trichotomy x y) as [Hlt|[Hxy|Hlt]]; [exfalso|done|exfalso].
  - assert ((x + 1) * m ≤ y * m) by (apply N.mul_le_mono_r; lia). lia.
  - assert ((y + 1) * m ≤ x * m) by (apply N.mul_le_mono_r; lia). lia.
Qed.
Lemma masked_eq_prefix net p ip :
  Forall is_byte net → Forall is_byte ip → length ip = length net → (p ≤ 8 * length net)%nat →
  masked_eq net p ip = true ↔ in_prefix (8 * length net) (value net) p (value ip).
Proof.
  intros Hnet. revert p ip. induction Hnet as [|x net Hx Hnet IH]; intros p [|y ip] Hip; simpl length; try done.
  intros [= Hlen] Hp. apply Forall_cons in Hip as [Hy Hip]. cbn [masked_eq].
  rewrite andb_true_iff, N.eqb_eq, !mask_byte_top by (done || lia). unfold in_prefix. rewrite !value_cons, Hlen.
  pose proof (value_bound net Hnet) as Hvn. pose proof (value_bound ip Hip) as Hvi. rewrite Hlen in Hvi.
  destruct (le_lt_dec 8 p) as [Hge|Hlt].
  - replace (min p 8) with 8%nat by lia. simpl (N.of_nat (8 - 8)). change (2 ^ 0) with 1. rewrite !N.div_1_r, !N.mul_1_r.
    rewrite (IH (p - 8)%nat ip Hip Hlen) by lia. unfold in_prefix.
    replace (8 * S (length net) - p)%nat with (8 * length net - (p - 8))%nat by lia.
    set (e := N.of_nat (8 * length net - (p - 8))). set (k := N.of_nat (p - 8)).
    assert (N.of_nat (8 * length net) = e + k) as Hek by (unfold e, k; lia). rewrite Hek in *. rewrite !div_cons by done.
    assert (value net / 2 ^ e < 2 ^ k) by (apply N.Div0.div_lt_upper_bound; by rewrite <-N.pow_add_r).
    assert (value ip / 2 ^ e < 2 ^ k) by (apply N.Div0.div_lt_upper_bound; by rewrite <-N.pow_add_r).
    split; [by intros [-> ->]|]. intros Heq.
    destruct (quotient_unique y x (value ip / 2 ^ e) (value net / 2 ^ e) (2 ^ k)) as [-> ->]; done.
  - replace (min p 8) with p by lia. replace (p - 8)%nat with 0%nat by lia.
    assert (masked_eq net 0 ip = true) as Hrest.
    { apply (IH 0%nat ip Hip Hlen ltac:(lia)). unfold in_prefix. rewrite Nat.sub_0_r, !N.div_small by done. done. }
    rewrite Hrest. replace (N.of_nat (8 * S (length net) - p)) with (N.of_nat (8 * length net) + N.of_nat (8 - p)) by lia.
    set (w := N.of_nat (8 * length net)) in *. set (r := N.of_nat (8 - p)).
    rewrite N.pow_add_r, <-!N.Div0.div_div, !(N.add_comm (_ * 2 ^ w)), !N.div_add, !(N.div_small _ (2 ^ w)), !N.add_0_l
      by (try apply N.pow_nonzero; done).
    assert (2 ^ r ≠ 0) by (apply N.pow_nonzero; done). split; [intros [Heq _]; nia|intros ->; done].
Qed.

(** ** What is public *)

(** The blocks refused, as prefixes. *)
Definition v4_blocks : list (list N * nat) :=
  [([0; 0; 0; 0], 32%nat); ([10; 0; 0; 0], 8%nat); ([100; 64; 0; 0], 10%nat); ([127; 0; 0; 0], 8%nat);
   ([169; 254; 0; 0], 16%nat); ([172; 16; 0; 0], 12%nat); ([192; 0; 0; 0], 24%nat); ([192; 0; 2; 0], 24%nat);
   ([192; 168; 0; 0], 16%nat); ([198; 18; 0; 0], 15%nat); ([198; 51; 100; 0], 24%nat); ([203; 0; 113; 0], 24%nat);
   ([224; 0; 0; 0], 4%nat); ([240; 0; 0; 0], 4%nat)].
Definition v6_blocks : list (list N * nat) :=
  [(replicate 16 0, 128%nat); (replicate 15 0 ++ [1], 128%nat); (252 :: replicate 15 0, 7%nat);
   (254 :: 128 :: replicate 14 0, 10%nat); (255 :: replicate 15 0, 8%nat); ([32; 1; 13; 184] ++ replicate 12 0, 32%nat)].
Definition blocked (w : nat) (blocks : list (list N * nat)) (v : N) : bool :=
  existsb (λ b, bool_decide (in_prefix w (value b.1) b.2 v)) blocks.
Definition is_address (ip : IP) : Prop := Forall is_byte ip ∧ (length ip = 4 ∨ length ip = 16)%nat.

Lemma blocked_masked w blocks ip :
  Forall is_byte ip → (8 * length ip)%nat = w →
  forallb (λ b, Nat.eqb (length b.1) (length ip) && Nat.leb b.2 w && forallb (λ x, x <? 256) b.1) blocks = true →
  blocked w blocks (value ip) = existsb (λ b, masked_eq b.1 b.2 ip) blocks.
Proof.
  intros Hip <- Hall. unfold blocked. induction blocks as [|[net p] blocks IH]; [done|]. cbn [existsb forallb fst snd] in Hall |- *.
  apply andb_true_iff in Hall as [[[Hlen%Nat.eqb_eq Hp%Nat.leb_le]%andb_true_iff Hnet]%andb_true_iff Hall].
  rewrite IH by done. f_equal. apply eq_true_iff_eq. rewrite bool_decide_eq_true.
  rewrite masked_eq_prefix; [by rewrite Hlen| |done|done|lia].
  rewrite forallb_forall in Hnet. apply Forall_forall. intros x Hx. apply N.ltb_lt, Hnet. by apply list_elem_of_In.
Qed.
Lemma IsPublic_negb ip :
  IsPublic (Some ip) =
    negb ((IsLoopback ip || IsUnspecified ip || IsLinkLocalUnicast ip || IsLinkLocalMulticast ip
           || IsInterfaceLocalMulticast ip || IsMulticast ip || IsPrivate ip)
          || existsb (λ block, Contains block (default ip (To4 ip))) blockedRanges).
Proof. unfold IsPublic. by destruct (_ || IsPrivate ip). Qed.

Lemma land_255 b : is_byte b → N.land b 255 = b.
Proof. intros Hb. change 255 with (N.ones 8). rewrite N.land_ones. by apply N.mod_small. Qed.
Lemma To4_Some ip ip4 :
  To4 ip = Some ip4 → length ip4 = 4%nat ∧ (ip = ip4 ∨ ip = replicate 10 0 ++ [255; 255] ++ ip4).
Proof.
  unfold To4. destruct (Nat.eqb (length ip) 4) eqn:Hlen.
  { intros [= <-]. split; [by apply Nat.eqb_eq|by left]. }
  destruct (Nat.eqb (length ip) 16 && _) eqn:Hmap; [|done]. intros [= <-].
  apply andb_true_iff in Hmap as [H16%Nat.eqb_eq Htake%bool_decide_eq_true]. split; [rewrite length_drop; lia|right].
  rewrite <-(take_drop 12 ip) at 1. by rewrite Htake.
Qed.
Lemma To4_idem ip ip4 : To4 ip = Some ip4 → To4 ip4 = Some ip4.
Proof. intros [H4 _]%To4_Some. unfold To4. by rewrite H4. Qed.
Lemma To4_bytes ip ip4 : Forall is_byte ip → To4 ip = Some ip4 → Forall is_byte ip4.
Proof. intros Hb [_ [->| ->]]%To4_Some; [done|]. apply Forall_app in Hb as [_ Hb]. by apply Forall_app in Hb as [_ Hb]. Qed.

Lemma public_v4 a b c d ip :
  To4 ip = Some [a; b; c; d] → Forall is_byte [a; b; c; d] →
  IsPublic (Some ip) = negb (blocked 32 v4_blocks (value [a; b; c; d])).
Proof.
  intros H4 Hb. rewrite IsPublic_negb, H4. rewrite blocked_masked by (done || vm_compute; reflexivity).
  assert (IsInterfaceLocalMulticast ip = false) as Hif.
  { apply To4_Some in H4 as [_ [->| ->]]; done. }
  unfold IsLoopback, IsUnspecified, IsLinkLocalUnicast, IsLinkLocalMulticast, IsMulticast, IsPrivate.
  rewrite Hif, H4. f_equal.
  repeat (apply Forall_cons in Hb as [? Hb]).
  cbn -[N.land N.eqb]. unfold all_bytes. rewrite !land_255, !N.land_0_r by done.
  apply eq_true_iff_eq. rewrite !orb_true_iff, !andb_true_iff, !N.eqb_eq, !bool_decide_eq_true.
  assert (a = 224 → N.land a 240 = 224) by (by intros ->).
  assert ([a; b; c; d] = [0; 0; 0; 0] ↔ 0 = a ∧ 0 = b ∧ 0 = c ∧ 0 = d ∧ true = true) by naive_solver.
  change (N.land 16 (mask_byte 4)) with 16. change (N.land 224 (mask_byte 4)) with 224.
  change (N.land 240 (mask_byte 4)) with 240. change (mask_byte 4) with 240.
  assert (false = true ↔ False) as Hf by done. assert (∀ x : N, x = x ↔ True) as Ht by done.
  assert (true = true ↔ True) as Htt by done. rewrite Hf, !Ht, Htt.
  intuition congruence.
Qed.

Lemma masked_zeros (net ip : list N) : length net = length ip → masked_eq net 0 ip = true.
Proof.
  revert ip. induction net as [|x net IH]; intros [|y ip]; try done. intros [= Hlen]. cbn [masked_eq min].
  change (mask_byte 0) with 0. rewrite !N.land_0_r, N.eqb_refl. by apply IH.
Qed.
Lemma masked_full (net ip : list N) p :
  Forall is_byte net → Forall is_byte ip → p = (8 * length net)%nat → length net = length ip →
  masked_eq net p ip = bool_decide (ip = net).
Proof.
  intros Hnet Hip ->. revert ip Hip. induction Hnet as [|x net Hx Hnet IH]; intros [|y ip] Hip; try done. intros [= Hlen].
  apply Forall_cons in Hip as [Hy Hip]. simpl length. cbn [masked_eq].
  replace (min (8 * S (length net)) 8) with 8%nat by lia. replace (8 * S (length net) - 8)%nat with (8 * length net)%nat by lia.
  change (mask_byte 8) with 255. rewrite !land_255, IH by done. apply eq_true_iff_eq.
  rewrite andb_true_iff, N.eqb_eq, !bool_decide_eq_true. naive_solver.
Qed.
Lemma masked_eq_app net net' p ip ip' :
  length net = length ip → (p ≤ 8 * length net)%nat → length net' = length ip' →
  masked_eq (net ++ net') p (ip ++ ip') = masked_eq net p ip.
Proof.
  intros Hlen Hp Hlen'. revert p ip Hlen Hp. induction net as [|x net IH]; intros p [|y ip]; try done; simpl length.
  - intros _ Hp. simpl. replace p with 0%nat by lia. by apply masked_zeros.
  - intros [= Hlen] Hp. cbn [masked_eq app]. f_equal. apply IH; [done|lia].
Qed.

Lemma public_v6 ip :
  To4 ip = None → Forall is_byte ip → length ip = 16%nat →
  IsPublic (Some ip) = negb (blocked 128 v6_blocks (value ip)).
Proof.
  intros H4 Hb Hlen. rewrite IsPublic_negb, H4.
  rewrite blocked_masked by (try done; rewrite Hlen; vm_compute; reflexivity).
  unfold IsLoopback, IsUnspecified, IsLinkLocalUnicast, IsLinkLocalMulticast, IsInterfaceLocalMulticast, IsMulticast, IsPrivate, Contains.
  rewrite H4. f_equal. cbn [default]. rewrite H4. cbn [default from_option id].
  unfold v6_blocks, blockedRanges, all_bytes. cbn [existsb fst snd].
  rewrite (masked_full (replicate 16 0)), (masked_full (replicate 15 0 ++ [1]))
    by (try done; repeat constructor).
  destruct ip as [|a [|b [|c [|d rest]]]]; try done.
  assert (length rest = 12%nat) as Hrest by (simpl in Hlen; lia).
  change (a :: b :: c :: d :: rest) with ([a; b; c; d] ++ rest).
  change (252 :: replicate 15 0) with ([252; 0; 0; 0] ++ replicate 12 0).
  change (254 :: 128 :: replicate 14 0) with ([254; 128; 0; 0] ++ replicate 12 0).
  change (255 :: replicate 15 0) with ([255; 0; 0; 0] ++ replicate 12 0).
  rewrite !(masked_eq_app [_; _; _; _]) by (done || simpl; lia).
  destruct rest as [|e rest]; [done|]. unfold is16. rewrite length_app, Hrest.
  repeat match goal with H : Forall _ (_ :: _) |- _ => apply Forall_cons in H as [? H] end.
  cbn -[N.land N.eqb]. rewrite !land_255, !N.land_0_r by done. rewrite !andb_false_r.
  change (N.land 252 (mask_byte 7)) with 252. change (N.land 128 (mask_byte 2)) with 128.
  change (mask_byte 7) with 254. change (mask_byte 2) with 192.
  generalize (bool_decide (a :: b :: c :: d :: e :: rest = [0; 0; 0; 0; 0; 0; 0; 0; 0; 0; 0; 0; 0; 0; 0; 0])).
  generalize (bool_decide (a :: b :: c :: d :: e :: rest = [0; 0; 0; 0; 0; 0; 0; 0; 0; 0; 0; 0; 0; 0; 0; 1])).
  intros one zero. apply eq_true_iff_eq. rewrite !orb_true_iff, !andb_true_iff, !N.eqb_eq.
  assert (false = true ↔ False) as Hf by done. assert (∀ x : N, x = x ↔ True) as Ht by done.
  assert (true = true ↔ True) as Htt by done. rewrite Hf, !Ht, Htt.
  intuition congruence.
Qed.

(** An address is public exactly when it is in none of the listed blocks: for an IPv4
    address, or the IPv4 address mapped into an IPv6 one, unspecified, private,
    carrier-grade NAT, loopback, link-local, protocol assignments, documentation,
    benchmarking, multicast and reserved; for an IPv6 address unspecified, loopback,
    unique local, link-local, multicast and documentation. *)
Lemma IsPublic_is_the_block_list ip :
  is_address ip →
  IsPublic (Some ip) =
    negb (match To4 ip with
          | Some ip4 => blocked 32 v4_blocks (value ip4)
          | None => blocked 128 v6_blocks (value ip)
          end).
Proof.
  intros [Hb Hlen]. destruct (To4 ip) as [ip4|] eqn:H4.
  - pose proof (To4_Some _ _ H4) as [Hl _]. pose proof (To4_bytes _ _ Hb H4) as Hb4.
    destruct ip4 as [|a [|b [|c [|d []]]]]; try done. by apply public_v4.
  - apply public_v6; [done..|]. destruct Hlen as [Hl|]; [|done]. unfold To4 in H4. by rewrite Hl in H4.
Qed.

(** ** What the server must never connect to *)

(** The addresses of special use, first and last, from the registries of IANA: the
    unspecified address, private, carrier-grade NAT, loopback, link-local (with the
    metadata endpoint of a cloud), protocol assignments, documentation, benchmarking,
    multicast and reserved. *)
Definition internal_v4 : list (N * N) :=
  [(0x00000000, 0x00000000); (0x0A000000, 0x0AFFFFFF); (0x64400000, 0x647FFFFF); (0x7F000000, 0x7FFFFFFF);
   (0xA9FE0000, 0xA9FEFFFF); (0xAC100000, 0xAC1FFFFF); (0xC0000000, 0xC00000FF); (0xC0000200, 0xC00002FF);
   (0xC0A80000, 0xC0A8FFFF); (0xC6120000, 0xC613FFFF); (0xC6336400, 0xC63364FF); (0xCB007100, 0xCB0071FF);
   (0xE0000000, 0xEFFFFFFF); (0xF0000000, 0xFFFFFFFF)].
(** Unspecified, loopback, unique local, link-local, multicast, documentation. *)
Definition internal_v6 : list (N * N) :=
  [(0, 0); (1, 1);
   (0xFC000000000000000000000000000000, 0xFDFFFFFFFFFFFFFFFFFFFFFFFFFFFFFF);
   (0xFE800000000000000000000000000000, 0xFEBFFFFFFFFFFFFFFFFFFFFFFFFFFFFF);
   (0xFF000000000000000000000000000000, 0xFFFFFFFFFFFFFFFFFFFFFFFFFFFFFFFF);
   (0x20010DB8000000000000000000000000, 0x20010DB8FFFFFFFFFFFFFFFFFFFFFFFF)].
Definition in_ranges (v : N) (l : list (N * N)) : Prop := Exists (λ r, r.1 ≤ v ≤ r.2) l.
(** An IPv4 address, also when it comes mapped into an IPv6 one, or an IPv6 address. *)
Definition internal (ip : IP) : Prop :=
  (∃ ip4, length ip4 = 4%nat ∧ (ip = ip4 ∨ ip = replicate 10 0 ++ [255; 255] ++ ip4) ∧
     in_ranges (value ip4) internal_v4) ∨
  (length ip = 16%nat ∧ in_ranges (value ip) internal_v6).

(** The numbers of a prefix are an interval. *)
Lemma in_prefix_range w net p q v :
  let m := 2 ^ N.of_nat (w - p) in net = q * m → q * m ≤ v ≤ q * m + (m - 1) → in_prefix w net p v.
Proof.
  intros m -> Hv. assert (m ≠ 0) as Hm by (by apply N.pow_nonzero). unfold in_prefix. fold m.
  rewrite N.div_mul by done. symmetry. apply (N.div_unique v m q (v - q * m)); lia.
Qed.
(** Each block that covers the interval, checked by computation. *)
Definition covers (w : nat) (b : list N * nat) (r : N * N) : bool :=
  let m := 2 ^ N.of_nat (w - b.2) in
  (value b.1 mod m =? 0) && (value b.1 <=? r.1) && (r.2 <=? value b.1 + (m - 1)).
Lemma covers_blocked w blocks l v :
  forallb (λ r, existsb (λ b, covers w b r) blocks) l = true → in_ranges v l → blocked w blocks v = true.
Proof.
  intros Hall (r & Hr & Hv)%Exists_exists. rewrite forallb_forall in Hall.
  specialize (Hall r (proj1 (list_elem_of_In _ _) Hr)). apply existsb_exists in Hall as (b & Hb & Hcov).
  unfold blocked. apply existsb_exists. exists b. split; [done|]. apply bool_decide_eq_true.
  unfold covers in Hcov. apply andb_true_iff in Hcov as [[Hmod%N.eqb_eq Hlo%N.leb_le]%andb_true_iff Hhi%N.leb_le].
  set (m := 2 ^ N.of_nat (w - b.2)) in *. assert (m ≠ 0) as Hm by (by apply N.pow_nonzero).
  pose proof (N.div_mod (value b.1) m Hm) as Hdiv. rewrite Hmod, N.add_0_r in Hdiv.
  apply (in_prefix_range w (value b.1) b.2 (value b.1 / m) v); fold m; lia.
Qed.
Lemma v4_covered v : in_ranges v internal_v4 → blocked 32 v4_blocks v = true.
Proof. apply covers_blocked. vm_compute. reflexivity. Qed.
Lemma v6_covered v : in_ranges v internal_v6 → blocked 128 v6_blocks v = true.
Proof. apply covers_blocked. vm_compute. reflexivity. Qed.
Lemma public_not_internal ip : is_address ip → IsPublic (Some ip) = true → ¬ internal ip.
Proof.
  intros Ha Hpub Hin. rewrite (IsPublic_is_the_block_list ip Ha) in Hpub. apply negb_true_iff in Hpub.
  destruct Hin as [(ip4 & H4 & Hip & Hr)|[H16 Hr]].
  - assert (To4 ip = Some ip4) as Hto.
    { destruct Hip as [->| ->]; [unfold To4; by rewrite H4|].
      destruct ip4 as [|x1 [|x2 [|x3 [|x4 []]]]]; done. }
    by rewrite Hto, v4_covered in Hpub.
  - destruct (To4 ip) as [ip4|] eqn:Hto; [|by rewrite v6_covered in Hpub].
    apply To4_Some in Hto as [H4 [->| ->]]; [lia|].
    destruct ip4 as [|a [|b [|c [|d []]]]]; try done. destruct Ha as [Hb _].
    do 2 apply Forall_app in Hb as [_ Hb].
    repeat match goal with H : Forall is_byte (_ :: _) |- _ => apply Forall_cons in H as [? H] end.
    unfold is_byte in *. unfold in_ranges, internal_v6, value in Hr. cbn [foldl replicate app] in Hr.
    rewrite !Exists_cons, Exists_nil in Hr. cbn [fst snd] in Hr. lia.
Qed.

(** ** The guarded client *)

Section client.
Context `{UrlLibrary}.

Lemma follow_public via hops k a :
  (k, a) ∈ follow via hops →
  (via ≤ k)%nat ∧ is_Ok (Control a) = true ∧
  ((0 < k)%nat → (k < 3)%nat) ∧
  ∃ h, h ∈ hops ∧ a ∈ hop_tries h ∧ ((0 < k)%nat → ∃ u, ValidateURL (hop_dns h) (hop_url h) = Ok u).
Proof.
  revert via. induction hops as [|h hops IH]; intros via Hin; simpl in Hin; [by apply not_elem_of_nil in Hin|].
  destruct (if (0 <? via)%nat then _ else true) eqn:Hgo; [|by apply not_elem_of_nil in Hin].
  apply elem_of_app in Hin as [Hin|Hin].
  - apply list_elem_of_fmap in Hin as (a' & [= -> ->] & [Hc Ha]%list_elem_of_filter).
    split; [done|]. split; [done|].
    assert ((0 < via)%nat → (via < 3)%nat ∧ ∃ u, ValidateURL (hop_dns h) (hop_url h) = Ok u) as Hvia.
    { intros Hv. rewrite (proj2 (Nat.ltb_lt _ _) Hv) in Hgo. unfold CheckRedirect in Hgo.
      destruct (3 <=? via)%nat eqn:H3; [done|]. apply Nat.leb_gt in H3. split; [done|].
      destruct (ValidateURL _ _) as [u|]; [by exists u|done]. }
    split; [naive_solver|]. exists h. split; [by left|]. split; [done|naive_solver].
  - destruct (IH _ Hin) as (Hle & Hc & H3 & h' & Hh' & Ha & Hv). split; [lia|]. split; [done|]. split; [done|].
    exists h'. split; [by right|done].
Qed.

(** C23: whatever the resolver answers when a URL is validated and, again, when it is
    dialled, and wherever the servers redirect, a guarded fetch never connects to an
    address of special use (unspecified, loopback, private, carrier-grade NAT,
    link-local, protocol assignments, documentation, benchmarking, multicast, reserved;
    IPv4, mapped or not, and the corresponding IPv6 blocks), follows at most two
    redirects, and requests only URLs that passed validation: http or https, on a
    standard web port.  Addresses that carry an IPv4 address by translation (NAT64,
    6to4), and 0.0.0.0/8 but for 0.0.0.0, are not among them. *)
Theorem guarded_fetch_stays_outside h redirects k a :
  (k, a) ∈ guarded_fetch h redirects →
  (k < 3)%nat ∧ (∃ ip, ParseIP a = Some ip ∧ (is_address ip → ¬ internal ip)) ∧
  ∃ hp u, hp ∈ h :: redirects ∧ a ∈ hop_tries hp ∧ url_Parse (trim_space (hop_url hp)) = Some u ∧
    (Scheme u = "http"%string ∨ Scheme u = "https"%string) ∧
    Port u ∈ [""; "80"; "443"; "8080"; "8443"]%string.
Proof.
  unfold guarded_fetch. destruct (ValidateURL (hop_dns h) (hop_url h)) as [u0|] eqn:Hu0; [|by intros ?%not_elem_of_nil].
  assert (∀ hp u, ValidateURL (hop_dns hp) (hop_url hp) = Ok u → url_Parse (trim_space (hop_url hp)) = Some u ∧
    (Scheme u = "http"%string ∨ Scheme u = "https"%string) ∧ Port u ∈ allowedPorts) as Hvalid.
  { intros hp u. unfold ValidateURL. destruct (url_Parse _) as [p|]; [|done].
    destruct (negb _ && negb _) eqn:Hs; [done|]. destruct (bool_decide (Host p = _)); [done|].
    destruct (negb (bool_decide (Port p ∈ allowedPorts))) eqn:Hp; [done|].
    intros Hrest. assert (p = u) as <-.
    { destruct (ParseIP _); [destruct (IsPublic _); congruence|]. destruct (hop_dns hp _) as [[|ip l]|]; [done| |done].
      destruct (forallb _ _); congruence. }
    split; [done|]. apply negb_false_iff, bool_decide_eq_true in Hp. split; [|done].
    destruct (decide (Scheme p = "http"%string)); [by left|right].
    apply andb_false_iff in Hs as [Hs|Hs]; apply negb_false_iff, bool_decide_eq_true in Hs; done. }
  assert (∀ b, is_Ok (Control b) = true → ∃ ip, ParseIP b = Some ip ∧ (is_address ip → ¬ internal ip)) as Hpublic.
  { intros b. unfold Control. destruct (ParseIP b) as [ip|]; [|done]. destruct (IsPublic (Some ip)) eqn:Hip; [|done].
    exists ip. split; [done|]. intros Ha. by apply public_not_internal. }
  intros Hin. destruct (follow_public _ _ _ _ Hin) as (_ & Hc & H3 & hp & Hhp & Ha & Hv).
  split; [destruct k; [lia|apply H3; lia]|]. split; [by apply Hpublic|]. destruct k as [|k].
  - cbn [follow Nat.ltb] in Hin. simpl in Hin. apply elem_of_app in Hin as [Hin|Hin].
    + apply list_elem_of_fmap in Hin as (a' & [= <-] & [_ Ha']%list_elem_of_filter).
      exists h, u0. split; [by left|]. split; [done|]. by apply Hvalid.
    + apply follow_public in Hin as [Hle _]. lia.
  - destruct Hv as [u Hu]; [lia|]. exists hp, u. split; [done|]. split; [done|]. by apply Hvalid.
Qed.
End client.

(** What the list leaves out is fetched: "this network", and addresses that carry a
    private IPv4 address by translation (NAT64, 6to4). *)
Example this_network_is_public : IsPublic (Some [0; 0; 0; 1]) = true.
Proof. by vm_compute. Qed.
Example nat64_metadata_is_public :
  IsPublic (Some ([0; 100; 255; 155] ++ replicate 8 0 ++ [169; 254; 169; 254])) = true.
Proof. by vm_compute. Qed.

(** ** Concrete runs *)

(** Two addresses and one URL. *)
#[local] Instance toy_urls : UrlLibrary := {|
  url_Parse := λ s, if bool_decide (s = "https://sobh.example"%string)
                    then Some (MkURL "https" "sobh.example" "" "sobh.example") else None;
  ParseIP := λ s, if bool_decide (s = "8.8.8.8"%string) then Some [8; 8; 8; 8]
                  else if bool_decide (s = "10.0.0.1"%string) then Some [10; 0; 0; 1] else None;
|}.
Definition rebound : hop :=
  MkHop "https://sobh.example" (λ _, Some [[8; 8; 8; 8]]) ["10.0.0.1"; "8.8.8.8"]%string.

Lemma IsPublic_is_the_block_list_witness :
  IsPublic (Some [169; 254; 169; 254]) = negb (blocked 32 v4_blocks (value [169; 254; 169; 254])).
Proof.
  assert (is_address [169; 254; 169; 254]) as Ha by (split; [repeat constructor|by left]).
  exact (IsPublic_is_the_block_list [169; 254; 169; 254] Ha).
Defined.
Lemma guarded_fetch_stays_outside_witness :
  guarded_fetch rebound [] = [(0%nat, "8.8.8.8"%string)] ∧
  ∃ ip, ParseIP "8.8.8.8" = Some ip ∧ (is_address ip → ¬ internal ip).
Proof.
  assert (guarded_fetch rebound [] = [(0%nat, "8.8.8.8"%string)]) as Hrun by (vm_compute; reflexivity).
  split; [exact Hrun|]. refine (proj1 (proj2 (guarded_fetch_stays_outside rebound [] 0 "8.8.8.8" _))).
  rewrite Hrun. by left.
Defined.
