(* ===== verification/Http.v ===== *)
(** * The edge of the server ([internal/httpx]: middleware.go, response.go, context.go)

    Whose request it is: the address a client is taken to have, the origins a browser may call
    from, the principal and the permissions a route asks for, and what decoding a body refuses.
    A route's handler is a [prog] on the state of its component whose answer is what it writes;
    identifiers of the path arrive as [uuid.Parse] returned them, bodies as [encoding/json]
    decoded them.  [net.ParseCIDR] is a class. *)

From stdpp Require Import base tactics list strings.
From Stdlib Require Import ZArith Lia.
From S2P Require Import Prelude Steps GoString Httpx Auth NetGuard.

Set Default Goal Selector "!".
Open Scope Z_scope.

(** ** The caller *)

Definition MustPrincipal {S} (p : option Principal) : prog S Error Principal :=
  or_fail p (Unauthorized CodeUnauthorized "Authentication is required").
(** [RequirePermission]: the gate before a route's handler. *)
Definition RequirePermission {S A} (permission : string) (p : option Principal) (next : prog S Error A) : prog S Error A :=
  match p with
  | None => fail (Unauthorized CodeUnauthorized "Authentication is required")
  | Some principal =>
      if HasPermission principal permission then next
      else fail (Forbidden CodeForbidden "You do not have permission to perform this action")
  end.

(** ** What a request carries *)

(** [uuid.Parse] of a path or query parameter *)
Definition path_id {S} (message : string) (parsed : option uuid) : prog S Error uuid := or_fail parsed (BadRequest message).
Definition queryInt (raw : string) (fallback : Z) : Z :=
  if bool_decide (raw = ""%string) then fallback
  else match Atoi raw with Some v => if v <? 0 then fallback else v | None => fallback end.

(** [n, _ := strconv.Atoi(raw)]: what is returned next to the error, too.  The digits are read
    from the left, and one too many ends the reading. *)
Inductive uint_reading := URead (n : Z) | UOverflow | USyntax.
Fixpoint read_uint (ds : list N) (n : Z) : uint_reading :=
  match ds with
  | [] => URead n
  | d :: ds =>
      if negb (is_decimal_digit d) then USyntax
      else let n := n * 10 + (Z.of_N d - 48) in if 2 ^ 64 <=? n then UOverflow else read_uint ds n
  end.
Definition atoi_value (raw : string) : Z :=
  let '(neg, ds) := match bytes_of raw with 45%N :: ds => (true, ds) | 43%N :: ds => (false, ds) | ds => (false, ds) end in
  let magnitude := match ds with
                   | [] => None
                   | _ => match read_uint ds 0 with URead n => Some n | UOverflow => Some (2 ^ 64 - 1) | USyntax => None end
                   end in
  match magnitude with
  | None => 0
  | Some n => if (neg : bool) then - Z.min n (2 ^ 63) else Z.min n (2 ^ 63 - 1)
  end.

Definition maxBodyBytes : Z := Z.shiftl 1 20.
Definition blank (b : N) : bool := ((b =? 32) || (b =? 9))%N.
Fixpoint drop_blank (l : list N) : list N := match l with b :: l' => if blank b then drop_blank l' else l | [] => [] end.
(** The package's own [trimSpace] *)
Definition trimSpace (l : list N) : list N := reverse (drop_blank (reverse (drop_blank l))).
Definition isJSONContentType (ct : string) : bool :=
  let media := string_of (trimSpace (default [] (head (split_bytes 59 (bytes_of ct))))) in
  bool_decide (media ∈ ["application/json"; "application/json; charset=utf-8"; "text/json"]%string).
Definition CodeUnsupportedMedia : string := "UNSUPPORTED_MEDIA_TYPE".
Definition UnsupportedMedia (message : string) : Error := newError 415 CodeUnsupportedMedia message.
(** What the decoder says of the first value of the stream. *)
Inductive decode_failure := SyntaxError | UnmarshalTypeError (field type : string) | MaxBytesError | EmptyStream | OtherFailure.
Record Body (B : Type) := MkBody {
  content_type : string;
  first_value : result decode_failure B;
  at_end : bool;
}.
Arguments MkBody {B}.
Arguments content_type {B}.
Arguments first_value {B}.
Arguments at_end {B}.
Definition decode_error (f : decode_failure) : Error :=
  match f with
  | SyntaxError => BadRequest "Request body is not valid JSON"
  | UnmarshalTypeError field type => WithField (Validation "Field has the wrong type") field ("expected " +:+ type)
  | MaxBytesError => TooLarge "Request body is too large"
  | EmptyStream => BadRequest "Request body is empty"
  | OtherFailure => BadRequest "Request body could not be read"
  end.
Definition DecodeJSON {S B} (b : Body B) : prog S Error B :=
  if negb (bool_decide (content_type b = ""%string)) && negb (isJSONContentType (content_type b))
  then fail (UnsupportedMedia "Content-Type must be application/json")
  else match first_value b with
       | Err f => fail (decode_error f)
       | Ok v => if at_end b then mret v else fail (BadRequest "Request body must contain a single JSON object")
       end.

(** A handler works on the part of the state its package owns. *)
Definition zoom {S T E A} (get : S → T) (put : T → S → S) (m : prog T E A) : prog S E A := λ s,
  let r := m (get s) in (r.1, put r.2 s).

(** A preorder on the part is one on the whole. *)
Definition seen_by {S T} (get : S → T) (R : T → T → Prop) : S → S → Prop := λ s s', R (get s) (get s').
#[export] Instance seen_by_preorder {S T} (get : S → T) (R : T → T → Prop) `{!PreOrder R} : PreOrder (seen_by get R).
Proof. split; [by intros s; unfold seen_by|]. intros s1 s2 s3. unfold seen_by. apply transitivity. Qed.
Lemma follows_zoom {S T E A} (get : S → T) (put : T → S → S) (R : T → T → Prop) (m : prog T E A) :
  (∀ t s, get (put t s) = t) → follows R m → follows (seen_by get R) (zoom get put m).
Proof. intros Hgp Hm s. unfold seen_by, zoom. simpl. rewrite Hgp. apply Hm. Qed.
(** The plumbing of a handler writes nothing. *)
Lemma follows_MustPrincipal {S} (R : S → S → Prop) `{!PreOrder R} p : follows R (MustPrincipal p).
Proof. apply follows_or_fail. apply _. Qed.
Lemma follows_path_id {S} (R : S → S → Prop) `{!PreOrder R} message parsed : follows R (path_id message parsed).
Proof. apply follows_or_fail. apply _. Qed.
Lemma follows_DecodeJSON {S B} (R : S → S → Prop) `{!PreOrder R} (b : Body B) : follows R (DecodeJSON b).
Proof.
  unfold DecodeJSON. destruct (negb _ && negb _); [apply follows_fail; apply _|].
  destruct (first_value b); [|apply follows_fail; apply _]. destruct (at_end b); [apply follows_ret|apply follows_fail]; apply _.
Qed.
Lemma follows_RequirePermission {S A} (R : S → S → Prop) `{!PreOrder R} permission p (next : prog S Error A) :
  (∀ principal, p = Some principal → HasPermission principal permission = true → follows R next) → follows R (RequirePermission permission p next).
Proof.
  intros Hnext. unfold RequirePermission. destruct p as [principal|]; [|apply follows_fail; apply _].
  destruct (HasPermission principal permission) eqn:Hp; [by apply (Hnext principal)|apply follows_fail; apply _].
Qed.

#[export] Hint Resolve follows_MustPrincipal follows_path_id follows_DecodeJSON : follows.

(** ** The address of the client *)

Class CIDRLibrary := {
  (** The network's address and the length of its prefix. *)
  ParseCIDR : string → option (list N * nat);
}.
(** [strings.LastIndexByte], [strings.IndexByte] *)
Fixpoint index_byte (b : N) (l : list N) : option nat :=
  match l with [] => None | x :: l => if (x =? b)%N then Some O else S <$> index_byte b l end.
Definition last_index_byte (b : N) (l : list N) : option nat :=
  i ← index_byte b (reverse l); Some (length l - 1 - i)%nat.
Definition contains_byte (b : N) (l : list N) : bool := existsb (λ x, (x =? b)%N) l.
(** The host of [net.SplitHostPort]. *)
Definition SplitHostPort (hostport : list N) : option (list N) :=
  i ← last_index_byte 58 hostport;
  match hostport with
  | 91%N :: _ =>
      e ← index_byte 93 hostport;
      if Nat.eqb (e + 1) i && negb (contains_byte 91 (drop 1 hostport)) && negb (contains_byte 93 (drop (e + 1) hostport))
      then Some (take (e - 1) (drop 1 hostport)) else None
  | _ =>
      if contains_byte 58 (take i hostport) || contains_byte 91 hostport || contains_byte 93 hostport then None
      else Some (take i hostport)
  end.
Definition peerIP (remoteAddr : string) : string :=
  match SplitHostPort (bytes_of remoteAddr) with Some host => string_of host | None => remoteAddr end.

Section edge.
Context `{UrlLibrary} `{CIDRLibrary}.
Definition parseCIDR_entry (entry : string) : option (list N * nat) :=
  let entry := trim_space entry in
  if bool_decide (entry = ""%string) then None
  else if contains_byte 47 (bytes_of entry) then ParseCIDR entry
  else ip ← ParseIP entry; Some (match To4 ip with Some ip4 => (ip4, 32%nat) | None => (ip, 128%nat) end).
Definition parseCIDRs (entries : list string) : list (list N * nat) := omap parseCIDR_entry entries.
Definition isTrusted (ip : string) (networks : list (list N * nat)) : bool :=
  match ParseIP ip with
  | None => false
  | Some parsed => existsb (λ network, Contains network parsed) networks
  end.
Definition clientFromForwardedFor (header : string) : string :=
  if bool_decide (header = ""%string) then ""
  else
    let first := trim_space (string_of (default [] (head (split_bytes 44 (bytes_of header))))) in
    if ParseIP first then first else "".
Record Peer := MkPeer { RemoteAddr : string; XForwardedFor : string; XRealIP : string }.
(** What [RealIP] puts in the context of the request. *)
Definition RealIP (trustedProxies : list string) (r : Peer) : string :=
  let ip := peerIP (RemoteAddr r) in
  if isTrusted ip (parseCIDRs trustedProxies) then
    let forwarded := clientFromForwardedFor (XForwardedFor r) in
    if negb (bool_decide (forwarded = ""%string)) then forwarded
    else let real := trim_space (XRealIP r) in if negb (bool_decide (real = ""%string)) then real else ip
  else ip.

(** ** Browsers *)

(** [CORS]: the origin that is allowed to read the answer, and whether the request goes on to
    its handler. *)
Definition CORS (allowedOrigins : list string) (method origin : string) : option string * bool :=
  let allowAll := bool_decide (allowedOrigins = ["*"]%string) in
  let allowed := (λ o, to_lower (trim_space o)) <$> allowedOrigins in
  let granted := negb (bool_decide (origin = ""%string)) && (bool_decide (to_lower origin ∈ allowed) || allowAll) in
  (if granted then Some origin else None, negb (bool_decide (method = "OPTIONS"%string))).

(** ** Theorems *)

(** The left-most entry of what a proxy of the usual kind sends on: the header it was sent,
    then the address it saw. *)
Definition appended (header peer : string) : string := header +:+ ", " +:+ peer.

Lemma first_forwarded claim seen : 44%N ∉ bytes_of claim → claim ≠ ""%string → trim_space claim = claim → is_Some (ParseIP claim) →
  clientFromForwardedFor (appended claim seen) = claim.
Proof.
  intros Hcomma Hne Htrim [ip Hip]. unfold clientFromForwardedFor, appended. rewrite bool_decide_false.
  2:{ by destruct claim. }
  rewrite !bytes_of_app. change (bytes_of ", "%string) with [44; 32]%N. change ([44; 32]%N ++ bytes_of seen) with (44%N :: 32%N :: bytes_of seen).
  rewrite split_bytes_app by done. cbn [head default from_option id]. rewrite string_of_bytes_of, Htrim. by rewrite Hip.
Qed.

(** The address a client is taken to have.  A request that does not come from a configured
    proxy is known by its connection, whatever its headers say.  One that comes through a
    configured proxy that appends the address it saw to the header it was sent, as the shipped
    [nginx] does, is known by whatever address its sender wrote there: the left-most entry is
    the client's, not the proxy's. *)
Lemma client_address_of_a_request trusted r claim seen :
  (isTrusted (peerIP (RemoteAddr r)) (parseCIDRs trusted) = false → RealIP trusted r = peerIP (RemoteAddr r)) ∧
  (isTrusted (peerIP (RemoteAddr r)) (parseCIDRs trusted) = true → XForwardedFor r = appended claim seen →
     44%N ∉ bytes_of claim → claim ≠ ""%string → trim_space claim = claim → is_Some (ParseIP claim) →
     RealIP trusted r = claim) ∧
  (isTrusted (peerIP (RemoteAddr r)) (parseCIDRs trusted) = true → XForwardedFor r = ""%string → XRealIP r = seen →
     trim_space seen = seen → seen ≠ ""%string → RealIP trusted r = seen).
Proof.
  unfold RealIP. split; [by intros ->|]. split.
  - intros -> -> Hcomma Hne Htrim Hip. rewrite first_forwarded by done. by rewrite bool_decide_false.
  - intros -> -> -> Htrim Hne. change (clientFromForwardedFor "") with ""%string. rewrite bool_decide_true by done. cbn [negb].
    rewrite Htrim. by rewrite bool_decide_false.
Qed.
End edge.

(** A proxy at one address, and addresses written as themselves. *)
#[local] Instance edge_urls : UrlLibrary := {|
  url_Parse := λ _, None;
  ParseIP := λ s, if bool_decide (s = "10.0.0.7"%string) then Some [10; 0; 0; 7]%N
                  else if bool_decide (s = "203.0.113.9"%string) then Some [203; 0; 113; 9]%N else None
|}.
#[local] Instance edge_cidrs : CIDRLibrary := {|
  ParseCIDR := λ s, if bool_decide (s = "10.0.0.0/8"%string) then Some ([10; 0; 0; 0]%N, 8%nat) else None
|}.
Definition spoofed : Peer := MkPeer "10.0.0.7:4111" (appended "203.0.113.9" "198.51.100.3") "198.51.100.3".
Example spoofed_address : RealIP ["10.0.0.0/8"%string] spoofed = "203.0.113.9"%string.
Proof. vm_compute. reflexivity. Qed.
Lemma client_address_of_a_request_witness :
  isTrusted (peerIP (RemoteAddr spoofed)) (parseCIDRs ["10.0.0.0/8"%string]) = true ∧ RealIP ["10.0.0.0/8"%string] spoofed = "203.0.113.9"%string.
Proof.
  split; [vm_compute; reflexivity|]. destruct (client_address_of_a_request ["10.0.0.0/8"%string] spoofed "203.0.113.9" "198.51.100.3") as (_ & Hsp & _).
  apply Hsp; [vm_compute; reflexivity|reflexivity| |done|vm_compute; reflexivity|by eexists].
  vm_compute. intros Hin. repeat (apply elem_of_cons in Hin as [Hin|Hin]; [discriminate Hin|]). by apply elem_of_nil in Hin.
Defined.
Example body_checks :
  isJSONContentType " application/json ; charset=utf-8" = true ∧ isJSONContentType "text/plain" = false ∧
  (DecodeJSON (S:=()) (MkBody "text/plain" (Ok 1) true) ()).1 = Err (UnsupportedMedia "Content-Type must be application/json") ∧
  (DecodeJSON (S:=()) (MkBody "" (Ok 1) false) ()).1 = Err (BadRequest "Request body must contain a single JSON object").
Proof. vm_compute. done. Qed.
Example host_forms : peerIP "10.0.0.7:4111" = "10.0.0.7"%string ∧ peerIP "[::1]:80" = "::1"%string ∧ peerIP "::1" = "::1"%string.
Proof. vm_compute. done. Qed.
