(* ===== verification/SecretChat.v ===== *)
(** * Encrypted chats, the server's half ([internal/secretchat/secretchat.go])

    A key directory and a mailbox.  Key material and ciphertext are bytes the server
    does not look into.  The tables of this package stand next to the messaging
    database, whose [devices], [users] and [chats] it reads.  Ids of rows are minted by
    the caller of the model. *)

From stdpp Require Import base tactics list gmap strings sorting.
From Stdlib Require Import ZArith Lia.
From S2P Require Import Prelude GoString Httpx Permissions Store ChatContext MessageRepo Security.

Set Default Goal Selector "!".
Open Scope Z_scope.

Definition identityKeyLength : Z := 33.
Definition signedPrekeyLength : Z := 33.
Definition prekeySignatureLength : Z := 64.
Definition oneTimePrekeyLength : Z := 33.
Definition maxOneTimePrekeys : Z := 200.
Definition lowPrekeyWatermark : Z := 20.
Definition CurrentEncryptionVersion : Z := 1.

Abbreviation bytes := (list N) (only parsing).

(** ** Tables *)

(** [device_identity_keys] *)
Record identity_row := MkIdentity {
  ik_user_id : uuid;
  ik_identity_key : bytes;
  ik_signed_prekey : bytes;
  ik_prekey_signature : bytes;
  ik_registration_id : Z;
  ik_signed_prekey_id : Z;
}.
(** [device_one_time_prekeys] *)
Record prekey_row := MkPrekey {
  pk_device_id : uuid;
  pk_key_id : Z;
  pk_public_key : bytes;
  pk_claimed_at : option time;
  pk_claimed_by : option uuid;
}.
Definition claim_prekey (now : time) (by_ : uuid) (r : prekey_row) : prekey_row :=
  MkPrekey (pk_device_id r) (pk_key_id r) (pk_public_key r) (Some now) (Some by_).
(** [secret_chat_sessions] *)
Record secret_session := MkSecretSession {
  ss_chat_id : uuid;
  ss_initiator : uuid;
  ss_responder : uuid;
  ss_state : string;
  ss_fingerprint : option bytes;
  ss_established_at : option time;
  ss_terminated_at : option time;
}.
(** [secret_messages] *)
Record envelope_row := MkEnvelope {
  en_chat_id : uuid;
  en_sender : uuid;
  en_recipient : uuid;
  en_ciphertext : bytes;
  en_message_type : Z;
  en_encryption_version : Z;
  en_client_message_id : uuid;
  en_created_at : time;
  en_delivered_at : option time;
}.
Record secretdb := MkSecretDb {
  sd_core : db;
  identities : gmap uuid identity_row;
  prekeys : gmap uuid prekey_row;
  secret_sessions : gmap uuid secret_session;
  envelopes : gmap uuid envelope_row;
  secret_chat_keys : gmap (uuid * uuid) uuid;
}.
Definition with_sd_core v (d : secretdb) := MkSecretDb v (identities d) (prekeys d) (secret_sessions d) (envelopes d) (secret_chat_keys d).
Definition with_identities v (d : secretdb) := MkSecretDb (sd_core d) v (prekeys d) (secret_sessions d) (envelopes d) (secret_chat_keys d).
Definition with_prekeys v (d : secretdb) := MkSecretDb (sd_core d) (identities d) v (secret_sessions d) (envelopes d) (secret_chat_keys d).
Definition with_secret_sessions v (d : secretdb) := MkSecretDb (sd_core d) (identities d) (prekeys d) v (envelopes d) (secret_chat_keys d).
Definition with_envelopes v (d : secretdb) := MkSecretDb (sd_core d) (identities d) (prekeys d) (secret_sessions d) v (secret_chat_keys d).
Definition with_secret_chat_keys v (d : secretdb) := MkSecretDb (sd_core d) (identities d) (prekeys d) (secret_sessions d) (envelopes d) v.

Inductive secreterr :=
| SecNotFound | ErrKeysMissing | ErrInvalidKey | SecForeignKey | SecUnique (constraint : string) | SecApi (e : Error) | SecDb (e : dberr).

(** ** Go structures *)

Record OneTimePrekey := MkOneTimePrekey { otp_KeyID : Z; otp_PublicKey : string }.
Record KeyBundle := MkKeyBundle {
  kb_DeviceID : uuid;
  kb_UserID : uuid;
  kb_RegistrationID : Z;
  kb_IdentityKey : string;
  kb_SignedPrekeyID : Z;
  kb_SignedPrekey : string;
  kb_PrekeySignature : string;
  kb_OneTimePrekey : option OneTimePrekey;
}.
Record Envelope := MkEnvelopeOut {
  eo_ID : uuid;
  eo_ChatID : uuid;
  eo_SenderDeviceID : uuid;
  eo_RecipientDeviceID : uuid;
  eo_Ciphertext : string;
  eo_MessageType : Z;
  eo_EncryptionVersion : Z;
  eo_ClientMessageID : uuid;
  eo_CreatedAt : time;
}.

(** ** Statements *)

Definition device_live (deviceID : uuid) (d : secretdb) : bool :=
  match devices (sd_core d) !! deviceID with Some r => if d_revoked_at r is None then true else false | None => false end.

Definition upsert_identity (deviceID : uuid) (r : identity_row) (d : secretdb) : secretdb :=
  with_identities (<[deviceID :=
    MkIdentity (from_option ik_user_id (ik_user_id r) (identities d !! deviceID))
      (ik_identity_key r) (ik_signed_prekey r) (ik_prekey_signature r) (ik_registration_id r) (ik_signed_prekey_id r)]>
    (identities d)) d.
(** What a new identity key drops: the prekeys and the sessions of the device. *)
Definition clear_prekeys (deviceID : uuid) (d : secretdb) : secretdb :=
  with_prekeys (delete_where (λ _ r, bool_decide (pk_device_id r = deviceID)) (prekeys d)) d.
Definition terminate_sessions (now : time) (deviceID : uuid) (d : secretdb) : secretdb :=
  with_secret_sessions (update_where
    (λ _ s, (bool_decide (ss_initiator s = deviceID) || bool_decide (ss_responder s = deviceID))
            && negb (bool_decide (ss_state s = "terminated"%string)))
    (λ _ s, MkSecretSession (ss_chat_id s) (ss_initiator s) (ss_responder s) "terminated" (ss_fingerprint s)
              (ss_established_at s) (Some now)) (secret_sessions d)) d.
Definition same_prekey (deviceID : uuid) (keyID : Z) (_ : uuid) (r : prekey_row) : bool :=
  bool_decide (pk_device_id r = deviceID) && (pk_key_id r =? keyID).
Definition insert_prekey (deviceID : uuid) (p : uuid * OneTimePrekey) : prog secretdb secreterr () := λ d,
  match std_decode (otp_PublicKey p.2) with
  | None => (Err ErrInvalidKey, d)
  | Some raw =>
      if 0 <? count_where (same_prekey deviceID (otp_KeyID p.2)) (prekeys d) then (Ok (), d)
      else if bool_decide (is_Some (prekeys d !! p.1)) then (Err (SecUnique "device_one_time_prekeys_pkey"), d)
      else (Ok (), with_prekeys (<[p.1 := MkPrekey deviceID (otp_KeyID p.2) raw None None]> (prekeys d)) d)
  end.
Definition identity_changed (deviceID : uuid) (identityKey : bytes) (d : secretdb) : bool :=
  match identities d !! deviceID with
  | Some r => negb (bool_decide (ik_identity_key r = [])) && negb (bool_decide (ik_identity_key r = identityKey))
  | None => false
  end.
(** [ids] mints the ids of the prekeys. *)
Definition PublishKeys (now : time) (deviceID userID : uuid) (identityKey signedPrekey signature : bytes)
    (registrationID signedPrekeyID : Z) (ids : nat → uuid) (oneTimePrekeys : list OneTimePrekey)
    : prog secretdb secreterr () :=
  in_tx (
    gets (identity_changed deviceID identityKey) ≫= λ changed : bool,
    gets (λ d, negb (bool_decide (is_Some (devices (sd_core d) !! deviceID)))) ≫= λ missing, fail_if missing SecForeignKey ≫= λ _,
    modify (upsert_identity deviceID
      (MkIdentity userID identityKey signedPrekey signature registrationID signedPrekeyID)) ≫= λ _,
    (if changed then modify (clear_prekeys deviceID) ≫= λ _, modify (terminate_sessions now deviceID) else mret ()) ≫= λ _,
    for_each (imap (λ k p, (ids k, p)) oneTimePrekeys) (insert_prekey deviceID)).

(** A device that has published keys and has not been revoked. *)
Definition key_device (deviceID : uuid) (d : secretdb) : option identity_row :=
  if device_live deviceID d then identities d !! deviceID else None.
(** The prekey a claim takes: the lowest unclaimed key id that no concurrent claim has
    locked ([FOR UPDATE SKIP LOCKED]). *)
Definition available (deviceID : uuid) (_ : uuid) (r : prekey_row) : bool :=
  bool_decide (pk_device_id r = deviceID) && (if pk_claimed_at r is None then true else false).
Definition next_prekey (deviceID : uuid) (locked : gset uuid) (d : secretdb) : option (uuid * prekey_row) :=
  head (order_by (λ kr : uuid * prekey_row, pk_key_id kr.2)
    (rows_where (λ k r, available deviceID k r && negb (bool_decide (k ∈ locked))) (prekeys d))).
(** Also what was handed out, the row and the device that asked. *)
Definition ClaimBundle (now : time) (locked : gset uuid) (deviceID claimedBy : uuid)
    : prog secretdb secreterr (KeyBundle * option uuid) :=
  in_tx (
    gets (key_device deviceID) ≫= λ k, or_fail k ErrKeysMissing ≫= λ k,
    gets (next_prekey deviceID locked) ≫= λ p,
    let bundle one := MkKeyBundle deviceID (ik_user_id k) (ik_registration_id k) (std_encode (ik_identity_key k))
      (ik_signed_prekey_id k) (std_encode (ik_signed_prekey k)) (std_encode (ik_prekey_signature k)) one in
    match p with
    | None => mret (bundle None, None)
    | Some (id, r) =>
        modify (λ d, with_prekeys (<[id := claim_prekey now claimedBy r]> (prekeys d)) d) ≫= λ _,
        mret (bundle (Some (MkOneTimePrekey (pk_key_id r) (std_encode (pk_public_key r)))), Some id)
    end).

(** In no particular order. *)
Definition DevicesFor (userID : uuid) (d : secretdb) : list uuid :=
  (rows_where (λ k r, bool_decide (ik_user_id r = userID) && device_live k d) (identities d)).*1.
Definition DeviceOwner (deviceID : uuid) (d : secretdb) : option uuid :=
  r ← devices (sd_core d) !! deviceID; if d_revoked_at r is None then Some (d_user_id r) else None.
Definition AvailablePrekeyCount (deviceID : uuid) (d : secretdb) : Z := count_where (available deviceID) (prekeys d).

Definition core_stmt {A} (m : prog db dberr A) : prog secretdb secreterr A := λ d,
  match m (sd_core d) with
  | (Ok a, c) => (Ok a, with_sd_core c d)
  | (Err e, c) => (Err (SecDb e), with_sd_core c d)
  end.
Definition lookup_secret_chat (low high : uuid) (d : secretdb) : option uuid := secret_chat_keys d !! (low, high).
Definition link_secret_chat (chatID low high : uuid) : prog secretdb secreterr () := λ d,
  match secret_chat_keys d !! (low, high) with
  | Some _ => (Err (SecUnique "secret_chat_keys_user_a_id_user_b_id_key"), d)
  | None => (Ok (), with_secret_chat_keys (<[(low, high) := chatID]> (secret_chat_keys d)) d)
  end.
Definition create_secret_chat (now : time) (new_id a b low high : uuid) : prog secretdb secreterr uuid :=
  core_stmt (insert_chat new_id (new_chat_row now ChatSecret a 2)) ≫= λ _,
  link_secret_chat new_id low high ≫= λ _,
  core_stmt (insert_member new_id a (new_member_row now RoleMember)) ≫= λ _,
  core_stmt (insert_member new_id b (new_member_row now RoleMember)) ≫= λ _,
  core_stmt (insert_settings new_id 2) ≫= λ _,
  mret new_id.
Definition is_unique (e : secreterr) : bool :=
  match e with SecUnique _ => true | SecDb e => is_unique_violation e | _ => false end.
(** [before] is what other connections commit between the lookup and the transaction,
    [after] between its rollback and the second lookup. *)
Definition EnsureSecretChat (now : time) (new_id : uuid) (before after : secretdb → secretdb) (a b : uuid)
    : prog secretdb secreterr (uuid * bool) := λ d,
  if decide (a = b) then
    (Err (SecApi (WithField (Validation "You cannot start an encrypted chat with yourself") "user_id" "must be someone else")), d)
  else
    let low := N.min a b in
    let high := N.max a b in
    match lookup_secret_chat low high d with
    | Some chatID => (Ok (chatID, false), d)
    | None =>
        match in_tx (create_secret_chat now new_id a b low high) (before d) with
        | (Ok chatID, d1) => (Ok (chatID, true), d1)
        | (Err e, d1) =>
            if is_unique e then
              match lookup_secret_chat low high (after d1) with
              | Some chatID => (Ok (chatID, false), after d1)
              | None => (Err SecNotFound, after d1)
              end
            else (Err e, d1)
        end
    end.

(** A session row per chat and pair of devices; [now] is not recorded on insert.
    [SET state = 'pending', fingerprint = EXCLUDED.fingerprint, terminated_at = NULL]. *)
Definition session_of (chatID initiator responder : uuid) (_ : uuid) (s : secret_session) : bool :=
  bool_decide (ss_chat_id s = chatID) && bool_decide (ss_initiator s = initiator) && bool_decide (ss_responder s = responder).
Definition device_exists (deviceID : uuid) (d : secretdb) : bool := bool_decide (is_Some (devices (sd_core d) !! deviceID)).
Definition CreateSession (new_id chatID initiator responder : uuid) (fingerprint : option bytes)
    : prog secretdb secreterr uuid := λ d,
  if negb (device_exists initiator d && device_exists responder d) then (Err SecForeignKey, d)
  else match rows_where (session_of chatID initiator responder) (secret_sessions d) with
       | (id, s) :: _ =>
           (Ok id, with_secret_sessions (<[id := MkSecretSession chatID initiator responder "pending" fingerprint
                                                   (ss_established_at s) None]> (secret_sessions d)) d)
       | [] =>
           if bool_decide (is_Some (secret_sessions d !! new_id)) then (Err (SecUnique "secret_chat_sessions_pkey"), d)
           else (Ok new_id, with_secret_sessions
                  (<[new_id := MkSecretSession chatID initiator responder "pending" fingerprint None None]>
                   (secret_sessions d)) d)
       end.
Definition EstablishSession (now : time) (sessionID : uuid) : prog secretdb secreterr () := λ d,
  match secret_sessions d !! sessionID with
  | Some s =>
      if bool_decide (ss_state s = "pending"%string) then
        (Ok (), with_secret_sessions (<[sessionID := MkSecretSession (ss_chat_id s) (ss_initiator s) (ss_responder s)
                  "established" (ss_fingerprint s) (Some now) (ss_terminated_at s)]> (secret_sessions d)) d)
      else (Err SecNotFound, d)
  | None => (Err SecNotFound, d)
  end.

Definition encryptionVersion (sent : Z) : Z := if sent <=? 0 then CurrentEncryptionVersion else sent.
Definition same_envelope (recipient sender clientMessageID : uuid) (_ : uuid) (e : envelope_row) : bool :=
  bool_decide (en_recipient e = recipient) && bool_decide (en_sender e = sender)
  && bool_decide (en_client_message_id e = clientMessageID).
(** [ON CONFLICT ... DO UPDATE SET ciphertext, encryption_version]. *)
Definition StoreEnvelope (now : time) (new_id chatID sender recipient : uuid) (ciphertext : bytes)
    (messageType version : Z) (clientMessageID : uuid) : prog secretdb secreterr uuid := λ d,
  if negb (device_exists sender d && device_exists recipient d) then (Err SecForeignKey, d)
  else match rows_where (same_envelope recipient sender clientMessageID) (envelopes d) with
       | (id, e) :: _ =>
           (Ok id, with_envelopes (<[id := MkEnvelope (en_chat_id e) (en_sender e) (en_recipient e) ciphertext
                      (en_message_type e) (encryptionVersion version) (en_client_message_id e) (en_created_at e)
                      (en_delivered_at e)]> (envelopes d)) d)
       | [] =>
           if bool_decide (is_Some (envelopes d !! new_id)) then (Err (SecUnique "secret_messages_pkey"), d)
           else (Ok new_id, with_envelopes (<[new_id := MkEnvelope chatID sender recipient ciphertext messageType
                      (encryptionVersion version) clientMessageID now None]> (envelopes d)) d)
       end.

Definition pending (deviceID : uuid) (_ : uuid) (e : envelope_row) : bool :=
  bool_decide (en_recipient e = deviceID) && (if en_delivered_at e is None then true else false).
Definition envelope_out (ke : uuid * envelope_row) : Envelope :=
  let e := ke.2 in
  MkEnvelopeOut ke.1 (en_chat_id e) (en_sender e) (en_recipient e) (std_encode (en_ciphertext e)) (en_message_type e)
    (en_encryption_version e) (en_client_message_id e) (en_created_at e).
Definition PendingEnvelopes (deviceID : uuid) (limit : Z) (d : secretdb) : list Envelope :=
  envelope_out <$> take (Z.to_nat limit)
    (order_by (λ ke : uuid * envelope_row, en_created_at ke.2) (rows_where (pending deviceID) (envelopes d))).
Definition acknowledged (deviceID : uuid) (ids : list uuid) (k : uuid) (e : envelope_row) : bool :=
  bool_decide (en_recipient e = deviceID) && bool_decide (k ∈ ids).
Definition AcknowledgeEnvelopes (deviceID : uuid) (ids : list uuid) : prog secretdb secreterr Z := λ d,
  (Ok (count_where (acknowledged deviceID ids) (envelopes d)),
   with_envelopes (delete_where (acknowledged deviceID ids) (envelopes d)) d).

(** ** The service *)

(** What is published on the subject of a user: the chat, the device and the envelope. *)
Record notice := MkNotice { nt_user : uuid; nt_chat : uuid; nt_device : uuid; nt_envelope : uuid }.
Record secret_world := MkSecretWorld { sw_db : secretdb; sw_out : list notice }.
Abbreviation handler := (prog secret_world Error) (only parsing).

Definition sec_stmt {A} (m : prog secretdb secreterr A) (h : secreterr → Error) : handler A := λ w,
  match m (sw_db w) with
  | (Ok a, d) => (Ok a, MkSecretWorld d (sw_out w))
  | (Err e, d) => (Err (h e), MkSecretWorld d (sw_out w))
  end.
Definition sec_read {A} (f : secretdb → A) : handler A := gets (λ w, f (sw_db w)).

Definition decodeKey (value : string) (expected : Z) (field : string) : result Error bytes :=
  match std_decode value with
  | None => Err (WithField (Validation "Key material must be base64") field "must be base64")
  | Some raw =>
      if Z.of_nat (length raw) =? expected then Ok raw
      else Err (WithField (Validation "Key material is the wrong length") field
                  ("must decode to " +:+ Itoa expected +:+ " bytes"))
  end.
Definition check {A} (r : result Error A) : handler A := λ w, (r, w).

Record PublishInput := MkPublishInput {
  pi_DeviceID : uuid;
  pi_UserID : uuid;
  pi_RegistrationID : Z;
  pi_IdentityKey : string;
  pi_SignedPrekeyID : Z;
  pi_SignedPrekey : string;
  pi_PrekeySignature : string;
  pi_OneTimePrekeys : list OneTimePrekey;
}.
Definition publish_error (e : secreterr) : Error :=
  match e with
  | ErrInvalidKey => WithField (Validation "A one-time prekey is not valid base64") "one_time_prekeys" "must be base64"
  | _ => Internal
  end.
Definition Service_PublishKeys (now : time) (ids : nat → uuid) (i : PublishInput) : handler () :=
  check (decodeKey (pi_IdentityKey i) identityKeyLength "identity_key") ≫= λ identityKey,
  check (decodeKey (pi_SignedPrekey i) signedPrekeyLength "signed_prekey") ≫= λ signedPrekey,
  check (decodeKey (pi_PrekeySignature i) prekeySignatureLength "prekey_signature") ≫= λ signature,
  fail_if (pi_RegistrationID i <=? 0)
    (WithField (Validation "registration_id is required") "registration_id" "must be positive") ≫= λ _,
  fail_if (pi_SignedPrekeyID i <=? 0)
    (WithField (Validation "signed_prekey_id is required") "signed_prekey_id"
       "must be positive; a session initiator quotes it back") ≫= λ _,
  fail_if (maxOneTimePrekeys <? Z.of_nat (length (pi_OneTimePrekeys i)))
    (WithField (Validation "Too many one-time prekeys") "one_time_prekeys" "at most 200 per request") ≫= λ _,
  for_each (pi_OneTimePrekeys i)
    (λ p, check (decodeKey (otp_PublicKey p) oneTimePrekeyLength "one_time_prekeys") ≫= λ _, mret ()) ≫= λ _,
  sec_stmt (PublishKeys now (pi_DeviceID i) (pi_UserID i) identityKey signedPrekey signature (pi_RegistrationID i)
    (pi_SignedPrekeyID i) ids (pi_OneTimePrekeys i)) publish_error.

Record PrekeyStatus := MkPrekeyStatus { ps_Available : Z; ps_Watermark : Z; ps_NeedsUpload : bool }.
Definition Service_PrekeyStatus (deviceID : uuid) : handler PrekeyStatus :=
  sec_read (AvailablePrekeyCount deviceID) ≫= λ count,
  mret (MkPrekeyStatus count lowPrekeyWatermark (count <? lowPrekeyWatermark)).

Definition no_device : Error := NotFound CodeNotFound "That user has no device set up for encrypted chats".
Definition open_error (e : secreterr) : Error :=
  match e with
  | SecApi e => e
  | SecForeignKey => NotFound CodeNotFound "User not found"
  | _ => Internal
  end.
Definition OpenChat (now : time) (new_id : uuid) (before after : secretdb → secretdb) (userID peerID : uuid)
    : handler (uuid * bool) :=
  fail_if (bool_decide (peerID = uuid_nil)) (WithField (Validation "user_id is required") "user_id" "required") ≫= λ _,
  sec_read (DevicesFor peerID) ≫= λ devices,
  fail_if (bool_decide (devices = [])) no_device ≫= λ _,
  sec_stmt (EnsureSecretChat now new_id before after userID peerID) open_error.

(** Each claim is a transaction of its own; [locked k] is what concurrent claims hold at
    the [k]th.  Also the rows handed out. *)
Fixpoint claim_all (now : time) (locked : nat → gset uuid) (claimedBy : uuid) (deviceIDs : list uuid)
    : handler (list (KeyBundle * option uuid)) :=
  match deviceIDs with
  | [] => mret []
  | deviceID :: rest => λ w,
      match ClaimBundle now (locked (length rest)) deviceID claimedBy (sw_db w) with
      | (Ok b, d) => (claim_all now locked claimedBy rest ≫= λ bs, mret (b :: bs)) (MkSecretWorld d (sw_out w))
      | (Err ErrKeysMissing, d) => claim_all now locked claimedBy rest (MkSecretWorld d (sw_out w))
      | (Err _, d) => (Err Internal, MkSecretWorld d (sw_out w))
      end
  end.
Definition Bundles (now : time) (locked : nat → gset uuid) (userID claimedBy : uuid) : handler (list (KeyBundle * option uuid)) :=
  sec_read (DevicesFor userID) ≫= λ deviceIDs,
  fail_if (bool_decide (deviceIDs = [])) no_device ≫= λ _,
  claim_all now locked claimedBy deviceIDs ≫= λ bundles,
  fail_if (match bundles with [] => true | _ => false end) no_device ≫= λ _,
  mret bundles.

Record SecretSend := MkSecretSend {
  sn_ChatID : uuid;
  sn_SenderUserID : uuid;
  sn_SenderDeviceID : uuid;
  sn_RecipientDeviceID : uuid;
  sn_Ciphertext : string;
  sn_MessageType : Z;
  sn_EncryptionVersion : Z;
  sn_ClientMessageID : uuid;
}.
Definition member_context (chatID userID : uuid) : handler ChatContext :=
  sec_read (λ d, chat_context (sd_core d) chatID userID) ≫= λ cx,
  or_fail cx (NotFound CodeChatNotFound "Chat not found") ≫= λ cx,
  fail_if (negb (ctx_is_member cx)) (Forbidden CodeNotChatMember "You are not a member of this chat") ≫= λ _,
  mret cx.
Definition device_error (e : secreterr) : Error :=
  match e with SecForeignKey => NotFound CodeNotFound "That device no longer exists" | _ => Internal end.
Definition announce_envelope (i : SecretSend) (id : uuid) : handler () := λ w,
  (Ok (), match DeviceOwner (sn_RecipientDeviceID i) (sw_db w) with
          | Some owner => MkSecretWorld (sw_db w)
                            (sw_out w ++ [MkNotice owner (sn_ChatID i) (sn_RecipientDeviceID i) id])
          | None => w
          end).
Definition not_base64 : Error := WithField (Validation "ciphertext must be non-empty base64") "ciphertext" "must be base64".
Definition Service_SendSecret (now : time) (new_id : uuid) (i : SecretSend) : handler uuid :=
  fail_if (bool_decide (sn_ClientMessageID i = uuid_nil))
    (WithField (Validation "client_message_id is required") "client_message_id" "required for idempotent delivery") ≫= λ _,
  or_fail (std_decode (sn_Ciphertext i)) not_base64 ≫= λ ciphertext,
  fail_if (bool_decide (ciphertext = [])) not_base64 ≫= λ _,
  fail_if (128 * 1024 <? Z.of_nat (length ciphertext)) (TooLarge "Encrypted payload is too large for a message") ≫= λ _,
  member_context (sn_ChatID i) (sn_SenderUserID i) ≫= λ cx,
  fail_if (negb (bool_decide (ctx_chat_type cx = ChatSecret)))
    (WithField (Validation "That chat is not an encrypted chat") "chat_id" "must be a secret chat") ≫= λ _,
  sec_stmt (StoreEnvelope now new_id (sn_ChatID i) (sn_SenderDeviceID i) (sn_RecipientDeviceID i) ciphertext
    (sn_MessageType i) (sn_EncryptionVersion i) (sn_ClientMessageID i)) device_error ≫= λ id,
  announce_envelope i id ≫= λ _,
  mret id.

Definition inbox_limit (limit : Z) : Z := if (limit <=? 0) || (500 <? limit) then 100 else limit.
Definition Inbox (deviceID : uuid) (limit : Z) : handler (list Envelope) :=
  sec_read (PendingEnvelopes deviceID (inbox_limit limit)).
Definition Acknowledge (deviceID : uuid) (ids : list uuid) : handler Z :=
  if bool_decide (ids = []) then mret 0
  else
    fail_if (500 <? Z.of_nat (length ids))
      (WithField (Validation "Too many acknowledgements in one request") "ids" "at most 500") ≫= λ _,
    sec_stmt (AcknowledgeEnvelopes deviceID ids) (λ _, Internal).

Definition StartSession (new_id chatID initiatorDevice responderDevice : uuid) (fingerprint : string) (userID : uuid)
    : handler uuid :=
  member_context chatID userID ≫= λ _,
  (if bool_decide (fingerprint = ""%string) then mret None
   else or_fail (std_decode fingerprint) (WithField (Validation "fingerprint must be base64") "fingerprint" "must be base64")
        ≫= λ raw, mret (Some raw)) ≫= λ raw,
  sec_stmt (CreateSession new_id chatID initiatorDevice responderDevice raw) device_error.
Definition establish_error (e : secreterr) : Error :=
  match e with SecNotFound => NotFound CodeNotFound "Session not found or already established" | _ => Internal end.
Definition Service_EstablishSession (now : time) (sessionID : uuid) : handler () :=
  sec_stmt (EstablishSession now sessionID) establish_error.
