(* ===== verification/SecretChatTheory.v ===== *)
(** * The key directory and the mailbox

    A one-time prekey is handed out once, and an envelope stays in the mailbox of its
    device until that device acknowledges it. *)

From stdpp Require Import base tactics list gmap strings sorting.
From Stdlib Require Import ZArith Lia.
From S2P Require Import Prelude GoString Httpx Permissions Store ChatContext MessageRepo Security SecretChat.

Set Default Goal Selector "!".
Open Scope Z_scope.

(** ** The directory *)

(** A device has one prekey under a key id. *)
Definition keys_ok (d : secretdb) : Prop :=
  ∀ k k' r r', prekeys d !! k = Some r → prekeys d !! k' = Some r' →
    pk_device_id r = pk_device_id r' → pk_key_id r = pk_key_id r' → k = k'.
(** The key ids of a device that have been claimed. *)
Definition claimed (deviceID : uuid) (keyID : Z) (d : secretdb) : Prop :=
  ∃ k r, prekeys d !! k = Some r ∧ pk_device_id r = deviceID ∧ pk_key_id r = keyID ∧ is_Some (pk_claimed_at r).
Definition identity_is (deviceID : uuid) (ik : list N) (d : secretdb) : Prop :=
  ∀ r, identities d !! deviceID = Some r → ik_identity_key r = ik.

(** What a statement may do to the directory of a device whose identity key stays. *)
Record directory_step (deviceID : uuid) (ik : list N) (d d' : secretdb) : Prop := {
  ds_ok : keys_ok d → keys_ok d';
  ds_identity : identity_is deviceID ik d → identity_is deviceID ik d';
  ds_claimed : ∀ k, claimed deviceID k d → claimed deviceID k d';
}.
#[export] Instance directory_step_preorder deviceID ik : PreOrder (directory_step deviceID ik).
Proof.
  split; [intros d; by split|]. intros d1 d2 d3 [A1 B1 C1] [A2 B2 C2]. split; auto.
Qed.
Lemma directory_same deviceID ik d d' :
  prekeys d' = prekeys d → identities d' = identities d → directory_step deviceID ik d d'.
Proof.
  intros Hp Hi. split; unfold keys_ok, identity_is, claimed; by rewrite ?Hp, ?Hi.
Qed.

Lemma insert_prekey_step deviceID ik dev p d : directory_step deviceID ik d (insert_prekey dev p d).2.
Proof.
  unfold insert_prekey. destruct (std_decode _) as [raw|]; [|done].
  destruct (0 <? count_where _ _) eqn:Hdup; [done|]. case_bool_decide as Hid; [done|]. simpl.
  apply eq_None_not_Some in Hid. apply Z.ltb_ge in Hdup.
  assert (∀ k r, prekeys d !! k = Some r → pk_device_id r = dev → pk_key_id r ≠ otp_KeyID p.2) as Hnew.
  { intros k r Hk Hdev Hkey. pose proof (count_where_nonneg (same_prekey dev (otp_KeyID p.2)) (prekeys d)).
    assert (count_where (same_prekey dev (otp_KeyID p.2)) (prekeys d) = 0) as Hz by lia.
    rewrite count_where_0 in Hz. specialize (Hz k r Hk). unfold same_prekey in Hz.
    rewrite bool_decide_eq_true_2, Hkey, Z.eqb_refl in Hz by done. done. }
  split; unfold keys_ok; simpl; [|done|].
  - intros Hok k k' r r' [[<- <-]|[Hne Hk]]%lookup_insert_Some [[<- <-]|[Hne' Hk']]%lookup_insert_Some Hd Hkid; simpl in *.
    + done.
    + by destruct (Hnew k' r' Hk').
    + by destruct (Hnew k r Hk).
    + by apply (Hok k k' r r').
  - intros k (id & r & Hr & Hrest). exists id, r. split; [|done]. simpl. rewrite lookup_insert_ne by congruence. done.
Qed.
Lemma for_each_step {A} deviceID ik (f : A → prog secretdb secreterr ()) l d :
  (∀ x d, directory_step deviceID ik d (f x d).2) → directory_step deviceID ik d (for_each l f d).2.
Proof.
  intros Hf. revert d. induction l as [|x l IH]; intros d; simpl; [done|]. rewrite bind_run.
  specialize (Hf x d). destruct (f x d) as [[[]|e] d1]; simpl in *; [|done]. etrans; [exact Hf|apply IH].
Qed.
Lemma in_tx_step {A} deviceID ik (m : prog secretdb secreterr A) d :
  directory_step deviceID ik d (m d).2 → directory_step deviceID ik d (in_tx m d).2.
Proof. unfold in_tx. by destruct (m d) as [[]]. Qed.

Lemma PublishKeys_step deviceID ik now dev u idk spk sig reg spid ids otps d :
  (dev = deviceID → idk = ik) → identity_is deviceID ik d →
  directory_step deviceID ik d (PublishKeys now dev u idk spk sig reg spid ids otps d).2.
Proof.
  intros Hdev Hid. unfold PublishKeys. apply in_tx_step. rewrite bind_run. unfold gets at 1. cbn beta iota.
  rewrite bind_run. unfold gets at 1. cbn beta iota. rewrite bind_run. unfold fail_if.
  destruct (negb _); [done|]. cbn beta iota. rewrite bind_run. unfold modify at 1. cbn beta iota.
  set (d1 := upsert_identity _ _ d).
  assert (directory_step deviceID ik d d1) as H1.
  { split; [done| |done]. intros _ r. unfold d1, upsert_identity. simpl.
    intros [[<- <-]|[_ Hr]]%lookup_insert_Some; [by apply Hdev|by apply Hid]. }
  rewrite bind_run. destruct (identity_changed dev idk d) eqn:Hch.
  - assert (dev ≠ deviceID) as Hne.
    { intros ->. unfold identity_changed in Hch. destruct (identities d !! deviceID) as [r|] eqn:Hr; [|done].
      rewrite (Hid r Hr), Hdev in Hch by done. rewrite (bool_decide_eq_true_2 (ik = ik)) in Hch by done.
      by rewrite andb_false_r in Hch. }
    rewrite bind_run. unfold modify at 1. cbn beta iota. unfold modify at 1. cbn beta iota.
    etrans; [exact H1|]. etrans; [|apply for_each_step; intros; apply insert_prekey_step].
    split; unfold keys_ok; simpl; [|done|].
    + intros Hok k k' r r' [Hk _]%lookup_delete_where_Some [Hk' _]%lookup_delete_where_Some. by apply Hok.
    + intros k (id & r & Hr & Hrd & Hrest). exists id, r. split; [|done]. simpl. apply lookup_delete_where_Some.
      split; [done|]. apply bool_decide_eq_false. congruence.
  - cbn beta iota. unfold mret at 1, prog_ret. cbn beta iota. etrans; [exact H1|]. apply for_each_step. intros. apply insert_prekey_step.
Qed.

(** ** Claims *)

Lemma next_prekey_Some deviceID locked d id r :
  next_prekey deviceID locked d = Some (id, r) →
  prekeys d !! id = Some r ∧ pk_device_id r = deviceID ∧ pk_claimed_at r = None ∧ id ∉ locked.
Proof.
  unfold next_prekey. intros Hhead%head_Some_elem_of. apply elem_of_order_by, elem_of_rows_where in Hhead as [Hr Ha].
  unfold available in Ha. apply andb_true_iff in Ha as [[Hd%bool_decide_eq_true Hc]%andb_true_iff Hl].
  apply negb_true_iff, bool_decide_eq_false in Hl. by destruct (pk_claimed_at r).
Qed.
Definition bundle_of (deviceID : uuid) (k : identity_row) (one : option OneTimePrekey) : KeyBundle :=
  MkKeyBundle deviceID (ik_user_id k) (ik_registration_id k) (std_encode (ik_identity_key k))
    (ik_signed_prekey_id k) (std_encode (ik_signed_prekey k)) (std_encode (ik_prekey_signature k)) one.
Lemma ClaimBundle_run now locked deviceID by_ d :
  ClaimBundle now locked deviceID by_ d =
    match key_device deviceID d with
    | None => (Err ErrKeysMissing, d)
    | Some k =>
        match next_prekey deviceID locked d with
        | None => (Ok (bundle_of deviceID k None, None), d)
        | Some (id, r) =>
            (Ok (bundle_of deviceID k (Some (MkOneTimePrekey (pk_key_id r) (std_encode (pk_public_key r)))), Some id),
             with_prekeys (<[id := claim_prekey now by_ r]> (prekeys d)) d)
        end
    end.
Proof.
  unfold ClaimBundle, in_tx. rewrite bind_run. unfold gets at 1. cbn beta iota. rewrite bind_run. unfold or_fail.
  destruct (key_device deviceID d) as [k|]; [|done]. cbn beta iota. rewrite bind_run. unfold gets. cbn beta iota.
  by destruct (next_prekey deviceID locked d) as [[id r]|].
Qed.
Lemma claim_step dev ik now by_ d id r :
  prekeys d !! id = Some r → pk_claimed_at r = None → keys_ok d →
  let d' := with_prekeys (<[id := claim_prekey now by_ r]> (prekeys d)) d in
  directory_step dev ik d d' ∧ claimed (pk_device_id r) (pk_key_id r) d' ∧ ¬ claimed (pk_device_id r) (pk_key_id r) d.
Proof.
  intros Hr Hnone Hok. simpl. split; [split|split].
  - intros _. unfold keys_ok. simpl. intros k k' s s' [[<- <-]|[Hne Hk]]%lookup_insert_Some
      [[<- <-]|[Hne' Hk']]%lookup_insert_Some Hd Hkid; simpl in *; [done| | |by apply (Hok k k' s s')].
    + by apply (Hok id k' r s').
    + by apply (Hok k id s r).
  - done.
  - intros k (k' & s & Hs & Hrest). destruct (decide (k' = id)) as [->|Hne].
    + exists id, (claim_prekey now by_ r). simpl. rewrite lookup_insert_eq. simplify_eq. naive_solver.
    + exists k', s. simpl. by rewrite lookup_insert_ne.
  - exists id, (claim_prekey now by_ r). simpl. by rewrite lookup_insert_eq.
  - intros (k & s & Hs & Hd & Hkid & Hc). assert (k = id) as -> by by apply (Hok k id s r).
    rewrite Hs in Hr. injection Hr as ->. rewrite Hnone in Hc. by destruct Hc.
Qed.

(** The key ids of a device among the bundles handed out. *)
Definition handed (deviceID : uuid) (bs : list (KeyBundle * option uuid)) : list Z :=
  omap (λ b, if bool_decide (kb_DeviceID b.1 = deviceID) then otp_KeyID <$> kb_OneTimePrekey b.1 else None) bs.

Lemma claim_all_step dev ik now locked by_ ids w :
  keys_ok (sw_db w) →
  let '(res, w') := claim_all now locked by_ ids w in
  directory_step dev ik (sw_db w) (sw_db w') ∧
  match res with
  | Ok bs => NoDup (handed dev bs) ∧ ∀ k, k ∈ handed dev bs → ¬ claimed dev k (sw_db w) ∧ claimed dev k (sw_db w')
  | Err _ => True
  end.
Proof.
  revert w. induction ids as [|id ids IH]; intros w Hok; cbn [claim_all].
  { split; [done|]. split; [constructor|]. by intros k ?%not_elem_of_nil. }
  rewrite ClaimBundle_run. destruct (key_device id (sw_db w)) as [idk|].
  2:{ specialize (IH (MkSecretWorld (sw_db w) (sw_out w)) Hok). by destruct (claim_all _ _ _ _ _). }
  destruct (next_prekey id (locked (length ids)) (sw_db w)) as [[row r]|] eqn:Hnext.
  - apply next_prekey_Some in Hnext as (Hr & Hdev & Hnone & _).
    destruct (claim_step dev ik now by_ (sw_db w) row r Hr Hnone Hok) as (Hstep & Hnow & Hbefore).
    set (d1 := with_prekeys _ (sw_db w)) in *. specialize (IH (MkSecretWorld d1 (sw_out w)) (ds_ok _ _ _ _ Hstep Hok)).
    rewrite bind_run. destruct (claim_all _ _ _ _ _) as [[bs|e] w']; simpl in IH |- *; destruct IH as [Hs1 IH].
    2:{ split; [by etrans|done]. }
    split; [by etrans|]. destruct IH as [Hnd Hin]. unfold handed in *. simpl.
    case_bool_decide as Hid; simpl; [|split; [done|]].
    + split.
      * constructor; [|done]. intros Hk. destruct (Hin _ Hk) as [Hno _]. apply Hno. by rewrite <-Hid, <-Hdev.
      * intros k [->|Hk]%elem_of_cons; [|destruct (Hin k Hk) as [Hno Hyes]; split; [|done]].
        -- rewrite <-Hid, <-Hdev. split; [done|]. rewrite Hdev, Hid. apply (ds_claimed _ _ _ _ Hs1). by rewrite <-Hid, <-Hdev.
        -- intros Hc. apply Hno. by apply (ds_claimed _ _ _ _ Hstep).
    + intros k Hk. destruct (Hin k Hk) as [Hno Hyes]. split; [|done].
      intros Hc. apply Hno. by apply (ds_claimed _ _ _ _ Hstep).
  - specialize (IH (MkSecretWorld (sw_db w) (sw_out w)) Hok). rewrite bind_run.
    destruct (claim_all _ _ _ _ _) as [[bs|e] w']; simpl in IH |- *; [|done]. unfold handed in *. simpl.
    by case_bool_decide.
Qed.

(** ** Runs *)

(** The requests of the package, and what other packages do to the messaging tables. *)
Inductive secret_op :=
| KPublish (now : time) (ids : nat → uuid) (i : PublishInput)
| KBundles (now : time) (locked : nat → gset uuid) (userID claimedBy : uuid)
| KOpen (now : time) (new_id userID peerID : uuid)
| KSend (now : time) (new_id : uuid) (i : SecretSend)
| KInbox (deviceID : uuid) (limit : Z)
| KAck (deviceID : uuid) (ids : list uuid)
| KStart (new_id chatID initiator responder : uuid) (fingerprint : string) (userID : uuid)
| KEstablish (now : time) (sessionID : uuid)
| KCore (f : db → db).
(** The bundles handed out, and what is left. *)
Definition run_secret_op (o : secret_op) (w : secret_world) : list (KeyBundle * option uuid) * secret_world :=
  match o with
  | KPublish now ids i => ([], (Service_PublishKeys now ids i w).2)
  | KBundles now locked u by_ =>
      match Bundles now locked u by_ w with (Ok bs, w') => (bs, w') | (Err _, w') => ([], w') end
  | KOpen now id u p => ([], (OpenChat now id (λ d, d) (λ d, d) u p w).2)
  | KSend now id i => ([], (Service_SendSecret now id i w).2)
  | KInbox dev limit => ([], (Inbox dev limit w).2)
  | KAck dev ids => ([], (Acknowledge dev ids w).2)
  | KStart id chat i r fp u => ([], (StartSession id chat i r fp u w).2)
  | KEstablish now id => ([], (Service_EstablishSession now id w).2)
  | KCore f => ([], MkSecretWorld (with_sd_core (f (sd_core (sw_db w))) (sw_db w)) (sw_out w))
  end.
Fixpoint run_secret (ops : list secret_op) (w : secret_world) : list (KeyBundle * option uuid) * secret_world :=
  match ops with
  | [] => ([], w)
  | o :: ops =>
      let '(bs, w1) := run_secret_op o w in
      let '(bs', w2) := run_secret ops w1 in (bs ++ bs', w2)
  end.
(** The device only publishes under one identity key. *)
Definition one_identity (deviceID : uuid) (ik : list N) (o : secret_op) : Prop :=
  match o with KPublish _ _ i => pi_DeviceID i = deviceID → std_decode (pi_IdentityKey i) = Some ik | _ => True end.

Lemma sec_stmt_db {A} (m : prog secretdb secreterr A) h w : sw_db (sec_stmt m h w).2 = (m (sw_db w)).2.
Proof. unfold sec_stmt. by destruct (m (sw_db w)) as [[]]. Qed.
Lemma check_each_world {A} (f : A → result Error (list N)) l w :
  (for_each l (λ x, check (f x) ≫= λ _, mret ()) w : result Error () * secret_world).2 = w.
Proof.
  induction l as [|x l IH]; simpl; [done|]. rewrite !bind_run. unfold check at 1. by destruct (f x).
Qed.
Lemma Service_PublishKeys_step dev ik now ids i w :
  one_identity dev ik (KPublish now ids i) → identity_is dev ik (sw_db w) →
  directory_step dev ik (sw_db w) (sw_db (Service_PublishKeys now ids i w).2).
Proof.
  simpl. intros Hone Hid. unfold Service_PublishKeys. rewrite bind_run. unfold check at 1.
  destruct (decodeKey (pi_IdentityKey i) _ _) as [idk|] eqn:Hdec; [|done]. cbn beta iota.
  assert (std_decode (pi_IdentityKey i) = Some idk) as Hidk.
  { unfold decodeKey in Hdec. destruct (std_decode _); [|done]. destruct (_ =? _); congruence. }
  rewrite bind_run. unfold check at 1.
  destruct (decodeKey (pi_SignedPrekey i) _ _) as [spk|]; [|done]. cbn beta iota. rewrite bind_run. unfold check at 1.
  destruct (decodeKey (pi_PrekeySignature i) _ _) as [sig|]; [|done]. cbn beta iota.
  rewrite bind_run. unfold fail_if at 1. destruct (pi_RegistrationID i <=? 0); [done|]. cbn beta iota.
  rewrite bind_run. unfold fail_if at 1. destruct (pi_SignedPrekeyID i <=? 0); [done|]. cbn beta iota.
  rewrite bind_run. unfold fail_if at 1. destruct (maxOneTimePrekeys <? _); [done|]. cbn beta iota.
  rewrite bind_run. pose proof (check_each_world (λ p, decodeKey (otp_PublicKey p) oneTimePrekeyLength "one_time_prekeys")
    (pi_OneTimePrekeys i) w) as Hw.
  destruct (for_each _ _ w) as [[[]|e] w1]; simpl in Hw; subst w1; [|done]. rewrite sec_stmt_db.
  apply PublishKeys_step; [|done]. intros Hdev. specialize (Hone Hdev). congruence.
Qed.
Lemma member_context_world chatID u (w : secret_world) : (member_context chatID u w).2 = w.
Proof.
  unfold member_context. rewrite bind_run. unfold sec_read, gets. cbn beta iota. rewrite bind_run. unfold or_fail.
  destruct (chat_context _ chatID u) as [cx|]; [|done]. cbn beta iota. rewrite bind_run. unfold fail_if.
  by destruct (negb (ctx_is_member cx)).
Qed.
(** Everything else leaves the directory alone. *)
Lemma EnsureSecretChat_same now id a b d :
  prekeys (EnsureSecretChat now id (λ d, d) (λ d, d) a b d).2 = prekeys d ∧
  identities (EnsureSecretChat now id (λ d, d) (λ d, d) a b d).2 = identities d.
Proof.
  unfold EnsureSecretChat. destruct (decide (a = b)); [done|]. destruct (lookup_secret_chat _ _ d); [done|].
  destruct (in_tx (create_secret_chat _ _ _ _ _ _) d) as [[c|e] d1] eqn:Hrun.
  - apply in_tx_Ok_inv in Hrun. unfold create_secret_chat in Hrun. prog_inv.
    unfold core_stmt, link_secret_chat in *. repeat case_match; simplify_eq; done.
  - apply in_tx_Err in Hrun. subst d1. destruct (is_unique e); [|done]. by destruct (lookup_secret_chat _ _ d).
Qed.
Lemma run_secret_op_step dev ik o w :
  keys_ok (sw_db w) → identity_is dev ik (sw_db w) → one_identity dev ik o →
  let '(bs, w') := run_secret_op o w in
  directory_step dev ik (sw_db w) (sw_db w') ∧ NoDup (handed dev bs) ∧
  ∀ k, k ∈ handed dev bs → ¬ claimed dev k (sw_db w) ∧ claimed dev k (sw_db w').
Proof.
  intros Hok Hid Hone.
  assert (∀ w', directory_step dev ik (sw_db w) (sw_db w') →
    directory_step dev ik (sw_db w) (sw_db w') ∧ NoDup (handed dev []) ∧
    ∀ k, k ∈ handed dev [] → ¬ claimed dev k (sw_db w) ∧ claimed dev k (sw_db w')) as Hnil.
  { intros w' Hs. split; [done|]. split; [constructor|]. by intros k ?%not_elem_of_nil. }
  destruct o as [now ids i|now locked u by_|now id u p|now id i|d limit|d ids|id chat i r fp u|now id|f]; cbn [run_secret_op].
  - by apply Hnil, Service_PublishKeys_step.
  - unfold Bundles. rewrite bind_run. unfold sec_read, gets. cbn beta iota. rewrite bind_run. unfold fail_if at 1.
    case_bool_decide; [by apply Hnil|]. cbn beta iota. rewrite bind_run.
    pose proof (claim_all_step dev ik now locked by_ (DevicesFor u (sw_db w)) w Hok) as Hc.
    destruct (claim_all _ _ _ _ w) as [[bs|e] w']; destruct Hc as [Hs Hc]; [|by apply Hnil].
    rewrite bind_run. unfold fail_if. destruct bs as [|b bs]; [by apply Hnil|]. done.
  - apply Hnil. unfold OpenChat. rewrite bind_run. unfold fail_if at 1. case_bool_decide; [done|]. cbn beta iota.
    rewrite bind_run. unfold sec_read, gets. cbn beta iota. rewrite bind_run. unfold fail_if. case_bool_decide; [done|].
    rewrite sec_stmt_db. apply directory_same; apply EnsureSecretChat_same.
  - apply Hnil. unfold Service_SendSecret. rewrite bind_run. unfold fail_if at 1. case_bool_decide; [done|]. cbn beta iota.
    rewrite bind_run. unfold or_fail. destruct (std_decode _) as [raw|]; [|done]. cbn beta iota.
    rewrite bind_run. unfold fail_if at 1. case_bool_decide; [done|]. cbn beta iota.
    rewrite bind_run. unfold fail_if at 1. destruct (128 * 1024 <? _); [done|]. cbn beta iota. rewrite bind_run.
    pose proof (member_context_world (sn_ChatID i) (sn_SenderUserID i) w) as Hw.
    destruct (member_context _ _ w) as [[cx|] w1]; simpl in Hw; subst w1; [|done]. cbn beta iota. rewrite bind_run.
    unfold fail_if. destruct (negb _); [done|]. cbn beta iota. rewrite bind_run. unfold sec_stmt, StoreEnvelope.
    destruct (negb _); [done|]. destruct (rows_where _ _) as [|[? ?] ?]; [case_bool_decide; [done|]|];
      cbn beta iota; rewrite bind_run; unfold announce_envelope; cbn beta iota; apply directory_same; by destruct (DeviceOwner _ _).
  - by apply Hnil.
  - apply Hnil. unfold Acknowledge. case_bool_decide; [done|]. rewrite bind_run. unfold fail_if. destruct (500 <? _); [done|].
    rewrite sec_stmt_db. by apply directory_same.
  - apply Hnil. unfold StartSession. rewrite bind_run.
    pose proof (member_context_world chat u w) as Hw. destruct (member_context _ _ w) as [[cx|] w1]; simpl in Hw; subst w1; [|done].
    cbn beta iota. rewrite bind_run. destruct (bool_decide (fp = ""%string)).
    + unfold mret at 1, prog_ret. cbn beta iota. rewrite sec_stmt_db. unfold CreateSession.
      destruct (negb _); [done|]. destruct (rows_where _ _) as [|[? ?] ?]; [case_bool_decide; [done|]|]; by apply directory_same.
    + rewrite bind_run. unfold or_fail. destruct (std_decode fp); [|done]. unfold mret at 1, prog_ret. cbn beta iota.
      rewrite sec_stmt_db. unfold CreateSession.
      destruct (negb _); [done|]. destruct (rows_where _ _) as [|[? ?] ?]; [case_bool_decide; [done|]|]; by apply directory_same.
  - apply Hnil. unfold Service_EstablishSession. rewrite sec_stmt_db. unfold EstablishSession.
    destruct (secret_sessions _ !! id) as [s|]; [|done]. case_bool_decide; [|done]. by apply directory_same.
  - apply Hnil. by apply directory_same.
Qed.

(** C22: as long as a device publishes under one identity key, whatever is requested of the
    directory and however claims overlap, no one-time prekey of the device is handed out
    twice, none that had been claimed before is handed out again, and what is handed out is
    marked as claimed for good. *)
Theorem one_time_prekeys_handed_out_once dev ik ops w :
  keys_ok (sw_db w) → identity_is dev ik (sw_db w) → Forall (one_identity dev ik) ops →
  let '(bs, w') := run_secret ops w in
  keys_ok (sw_db w') ∧ NoDup (handed dev bs) ∧
  ∀ k, k ∈ handed dev bs → ¬ claimed dev k (sw_db w) ∧ claimed dev k (sw_db w').
Proof.
  intros Hok Hid Hops.
  enough (let '(bs, w') := run_secret ops w in directory_step dev ik (sw_db w) (sw_db w') ∧ NoDup (handed dev bs) ∧
    ∀ k, k ∈ handed dev bs → ¬ claimed dev k (sw_db w) ∧ claimed dev k (sw_db w')) as Hrun.
  { destruct (run_secret ops w) as [bs w']. destruct Hrun as (Hs & ? & ?). split; [by apply (ds_ok _ _ _ _ Hs)|done]. }
  revert w Hok Hid. induction Hops as [|o ops Ho Hops IH]; intros w Hok Hid; cbn [run_secret].
  { split; [done|]. split; [constructor|]. by intros k ?%not_elem_of_nil. }
  pose proof (run_secret_op_step dev ik o w Hok Hid Ho) as Hone. destruct (run_secret_op o w) as [bs w1].
  destruct Hone as (Hs & Hnd & Hin). specialize (IH w1 (ds_ok _ _ _ _ Hs Hok) (ds_identity _ _ _ _ Hs Hid)).
  destruct (run_secret ops w1) as [bs' w2]. destruct IH as (Hs' & Hnd' & Hin').
  unfold handed in *. rewrite omap_app. split; [by etrans|]. split.
  - apply NoDup_app. split; [done|]. split; [|done]. intros k Hk Hk'.
    destruct (Hin k Hk) as [_ Hyes]. destruct (Hin' k Hk') as [Hno _]. by apply Hno.
  - intros k [Hk|Hk]%elem_of_app.
    + destruct (Hin k Hk) as [Hno Hyes]. split; [done|]. by apply (ds_claimed _ _ _ _ Hs').
    + destruct (Hin' k Hk) as [Hno Hyes]. split; [|done]. intros Hc. apply Hno. by apply (ds_claimed _ _ _ _ Hs).
Qed.

(** ** The mailbox *)

Definition mailbox (deviceID : uuid) (d : secretdb) : list (uuid * envelope_row) :=
  rows_where (pending deviceID) (envelopes d).
Definition page (deviceID : uuid) (limit : Z) (d : secretdb) : list (uuid * envelope_row) :=
  take (Z.to_nat (inbox_limit limit)) (order_by (λ ke : uuid * envelope_row, en_created_at ke.2) (mailbox deviceID d)).
Lemma inbox_limit_bounds limit : 1 ≤ inbox_limit limit ≤ 500.
Proof. unfold inbox_limit. destruct (_ || _) eqn:Hl; [lia|]. apply orb_false_iff in Hl. rewrite Z.leb_gt, Z.ltb_ge in Hl. lia. Qed.
Lemma Inbox_page deviceID limit w :
  Inbox deviceID limit w = (Ok (envelope_out <$> page deviceID limit (sw_db w)), w).
Proof. done. Qed.
Lemma page_ids deviceID limit d : eo_ID <$> (envelope_out <$> page deviceID limit d) = (page deviceID limit d).*1.
Proof. rewrite <-list_fmap_compose. by apply list_fmap_ext. Qed.
Lemma page_sub deviceID limit d k e :
  (k, e) ∈ page deviceID limit d → envelopes d !! k = Some e ∧ pending deviceID k e = true.
Proof.
  unfold page. intros Hin. apply elem_of_rows_where. fold (mailbox deviceID d).
  apply (elem_of_order_by (λ ke : uuid * envelope_row, en_created_at ke.2)).
  rewrite <-(take_drop (Z.to_nat (inbox_limit limit))). apply elem_of_app. by left.
Qed.
Lemma mailbox_NoDup deviceID d : NoDup (mailbox deviceID d).*1.
Proof. apply NoDup_fst_rows_where. Qed.

(** Acknowledging a page takes exactly the page out of the mailbox. *)
Lemma acknowledge_page deviceID limit d :
  let d' := (AcknowledgeEnvelopes deviceID (page deviceID limit d).*1 d).2 in
  page deviceID limit d ++ mailbox deviceID d' ≡ₚ mailbox deviceID d ∧
  delete_where (pending deviceID) (envelopes d') = delete_where (pending deviceID) (envelopes d).
Proof.
  simpl. set (sorted := order_by (λ ke : uuid * envelope_row, en_created_at ke.2) (mailbox deviceID d)).
  assert (∀ k e, envelopes d !! k = Some e → acknowledged deviceID (page deviceID limit d).*1 k e = true ↔ (k, e) ∈ page deviceID limit d) as Hack.
  { intros k e Hk. unfold acknowledged. rewrite andb_true_iff, !bool_decide_eq_true. split.
    - intros [_ ([k' e'] & -> & He')%list_elem_of_fmap]. destruct (page_sub _ _ _ _ _ He'). simpl in *. by simplify_eq.
    - intros Hin. destruct (page_sub _ _ _ _ _ Hin) as [_ Hp]. unfold pending in Hp.
      apply andb_true_iff in Hp as [Hd%bool_decide_eq_true _]. split; [done|]. apply list_elem_of_fmap. by exists (k, e). }
  split.
  - assert (mailbox deviceID (with_envelopes (delete_where (acknowledged deviceID (page deviceID limit d).*1) (envelopes d)) d)
      ≡ₚ drop (Z.to_nat (inbox_limit limit)) sorted) as ->.
    { apply NoDup_Permutation; [apply NoDup_rows_where| |].
      - assert (NoDup sorted) as Hs by (unfold sorted; rewrite order_by_Permutation; apply NoDup_rows_where).
        rewrite <-(take_drop (Z.to_nat (inbox_limit limit)) sorted) in Hs. by apply NoDup_app in Hs as (_ & _ & Hs).
      - intros [k e]. unfold mailbox. rewrite elem_of_rows_where. simpl. rewrite lookup_delete_where_Some.
        assert ((k, e) ∈ sorted ↔ envelopes d !! k = Some e ∧ pending deviceID k e = true) as Hsorted
          by (unfold sorted; rewrite elem_of_order_by; apply elem_of_rows_where).
        assert (NoDup sorted) as Hs by (unfold sorted; rewrite order_by_Permutation; apply NoDup_rows_where).
        rewrite <-(take_drop (Z.to_nat (inbox_limit limit)) sorted) in Hs, Hsorted.
        fold (page deviceID limit d) in Hs, Hsorted. apply NoDup_app in Hs as (_ & Hdisj & _).
        rewrite elem_of_app in Hsorted. split.
        + intros [[Hk Hna] Hp]. assert ((k, e) ∉ page deviceID limit d); [|naive_solver].
          rewrite <-(Hack k e Hk). by rewrite Hna.
        + intros Hd. assert ((k, e) ∉ page deviceID limit d) as Hn by (intros Hin; by apply (Hdisj _ Hin)).
          destruct (proj1 Hsorted (or_intror Hd)) as [Hk Hp]. split; [|done]. split; [done|].
          apply not_true_iff_false. by rewrite (Hack k e Hk). }
    unfold page. fold sorted. rewrite take_drop. apply order_by_Permutation.
  - apply map_eq. intros k. rewrite !lookup_delete_where. simpl. destruct (envelopes d !! k) as [e|] eqn:Hk; [|done]. simpl.
    destruct (acknowledged _ _ k e) eqn:Ha; [|done]. simpl. apply (Hack k e Hk), page_sub in Ha as [_ Hp]. by rewrite Hp.
Qed.

(** A device that reads its inbox and acknowledges what it got, until it is empty. *)
Fixpoint drain (fuel : nat) (deviceID : uuid) (limit : Z) (w : secret_world) : list Envelope * secret_world :=
  match fuel with
  | O => ([], w)
  | S fuel =>
      match Inbox deviceID limit w with
      | (Ok [], w1) => ([], w1)
      | (Ok es, w1) =>
          let '(rest, w2) := drain fuel deviceID limit (Acknowledge deviceID (eo_ID <$> es) w1).2 in (es ++ rest, w2)
      | (Err _, w1) => ([], w1)
      end
  end.

Lemma Acknowledge_page_world deviceID limit w :
  page deviceID limit (sw_db w) ≠ [] →
  (Acknowledge deviceID (page deviceID limit (sw_db w)).*1 w).2 =
    MkSecretWorld (AcknowledgeEnvelopes deviceID (page deviceID limit (sw_db w)).*1 (sw_db w)).2 (sw_out w).
Proof.
  intros Hne. unfold Acknowledge. rewrite bool_decide_eq_false_2 by (intros Hnil%fmap_nil_inv; done).
  rewrite bind_run. unfold fail_if. assert (500 <? Z.of_nat (length (page deviceID limit (sw_db w)).*1) = false) as ->; [|done].
  apply Z.ltb_ge. rewrite length_fmap. unfold page. rewrite length_take. pose proof (inbox_limit_bounds limit). lia.
Qed.

(** A device that reads its inbox and acknowledges each page, with any page size, gets
    every envelope waiting for it exactly once and ends with an empty mailbox, in as many
    rounds as there are pages; no envelope of another device is touched. *)
Lemma inbox_drains fuel deviceID limit w :
  Z.of_nat (length (mailbox deviceID (sw_db w))) ≤ Z.of_nat fuel * inbox_limit limit →
  let '(es, w') := drain fuel deviceID limit w in
  es ≡ₚ envelope_out <$> mailbox deviceID (sw_db w) ∧
  envelopes (sw_db w') = delete_where (pending deviceID) (envelopes (sw_db w)) ∧
  mailbox deviceID (sw_db w') = [].
Proof.
  assert (∀ d, delete_where (pending deviceID) (envelopes d) = envelopes d ↔ mailbox deviceID d = []) as Hempty.
  { intros d. split; intros Heq.
    - apply rows_where_nil. intros k e Hk Hp. rewrite <-Heq in Hk. apply lookup_delete_where_Some in Hk as [_ Hk]. congruence.
    - apply map_eq. intros k. rewrite lookup_delete_where. destruct (envelopes d !! k) as [e|] eqn:Hk; [|done]. simpl.
      destruct (pending deviceID k e) eqn:Hp; [|done]. exfalso.
      assert ((k, e) ∈ mailbox deviceID d) as Hin by by apply elem_of_rows_where. rewrite Heq in Hin.
      by apply not_elem_of_nil in Hin. }
  revert w. induction fuel as [|fuel IH]; intros w Hfuel; cbn [drain].
  { assert (mailbox deviceID (sw_db w) = []) as Hnil by (destruct (mailbox _ _); [done|simpl in Hfuel; lia]).
    rewrite Hnil. split; [done|]. split; [by rewrite (proj2 (Hempty _))|done]. }
  rewrite Inbox_page. destruct (envelope_out <$> page deviceID limit (sw_db w)) as [|e0 es0] eqn:Hpage.
  { apply fmap_nil_inv in Hpage. assert (mailbox deviceID (sw_db w) = []) as Hnil.
    { unfold page in Hpage. pose proof (inbox_limit_bounds limit) as Hb.
      assert (length (order_by (λ ke : uuid * envelope_row, en_created_at ke.2) (mailbox deviceID (sw_db w))) = 0)%nat as Hz.
      { pose proof (f_equal length Hpage) as Hlen. rewrite length_take in Hlen. simpl in Hlen. lia. }
      rewrite (Permutation_length (order_by_Permutation _ _)) in Hz. by apply length_zero_iff_nil in Hz. }
    rewrite Hnil. split; [done|]. split; [by rewrite (proj2 (Hempty _))|done]. }
  assert (page deviceID limit (sw_db w) ≠ []) as Hne by (intros Hnil; by rewrite Hnil in Hpage).
  rewrite <-Hpage, page_ids, Acknowledge_page_world by done.
  destruct (acknowledge_page deviceID limit (sw_db w)) as [Hperm Hdel]. simpl in Hperm, Hdel.
  set (d' := with_envelopes _ (sw_db w)) in *.
  assert (Z.of_nat (length (mailbox deviceID d')) ≤ Z.of_nat fuel * inbox_limit limit) as Hfuel'.
  { pose proof (Permutation_length Hperm) as Hlen. rewrite length_app in Hlen. pose proof (inbox_limit_bounds limit) as Hb.
    destruct (le_lt_dec (length (page deviceID limit (sw_db w))) 0) as [Hle|Hlt].
    { destruct (page deviceID limit (sw_db w)); [done|simpl in Hle; lia]. }
    assert (length (page deviceID limit (sw_db w)) = min (Z.to_nat (inbox_limit limit)) (length (mailbox deviceID (sw_db w)))) as Hmin.
    { unfold page. rewrite length_take. by rewrite (Permutation_length (order_by_Permutation _ _)). }
    nia. }
  specialize (IH (MkSecretWorld d' (sw_out w)) Hfuel'). simpl in IH |- *.
  destruct (drain fuel deviceID limit _) as [rest w2]. destruct IH as (Hes & Hdb & Hmail).
  split; [|split; [by rewrite Hdb, Hdel|done]].
  rewrite Hes, <-fmap_app. by rewrite Hperm.
Qed.

Lemma StoreEnvelope_Ok now new_id ch snd rcp raw ty ver cid d id d' :
  StoreEnvelope now new_id ch snd rcp raw ty ver cid d = (Ok id, d') →
  sd_core d' = sd_core d ∧ (∀ k, k ≠ id → envelopes d' !! k = envelopes d !! k) ∧
  ∃ e, envelopes d' !! id = Some e ∧ en_ciphertext e = raw ∧ en_recipient e = rcp ∧ en_sender e = snd ∧
    en_client_message_id e = cid.
Proof.
  unfold StoreEnvelope. destruct (negb _); [done|].
  destruct (rows_where (same_envelope rcp snd cid) (envelopes d)) as [|[k e] l] eqn:Hrows.
  - case_bool_decide; [done|]. intros [= <- <-]. simpl. split; [done|].
    split; [intros k Hk; by rewrite lookup_insert_ne|]. eexists. rewrite lookup_insert_eq. done.
  - intros [= <- <-]. simpl. split; [done|]. split; [intros k' Hk; by rewrite lookup_insert_ne|].
    eexists. rewrite lookup_insert_eq. split; [done|]. simpl.
    assert ((k, e) ∈ rows_where (same_envelope rcp snd cid) (envelopes d)) as Hin by (rewrite Hrows; by left).
    apply elem_of_rows_where in Hin as [_ Hs]. unfold same_envelope in Hs. rewrite !andb_true_iff, !bool_decide_eq_true in Hs.
    naive_solver.
Qed.
(** What a successful send stores, and for whom.  The recipient's device only has to exist:
    it need not belong to a member of the chat. *)
Lemma Send_stores now new_id i w id w' :
  Service_SendSecret now new_id i w = (Ok id, w') →
  (∃ cx, chat_context (sd_core (sw_db w)) (sn_ChatID i) (sn_SenderUserID i) = Some cx ∧
    ctx_is_member cx = true ∧ ctx_chat_type cx = ChatSecret) ∧
  (∃ raw e, std_decode (sn_Ciphertext i) = Some raw ∧ raw ≠ [] ∧ envelopes (sw_db w') !! id = Some e ∧
    en_ciphertext e = raw ∧ en_recipient e = sn_RecipientDeviceID i ∧ en_sender e = sn_SenderDeviceID i) ∧
  (∀ k, k ≠ id → envelopes (sw_db w') !! k = envelopes (sw_db w) !! k) ∧
  sw_out w' = sw_out w ++ from_option (λ owner, [MkNotice owner (sn_ChatID i) (sn_RecipientDeviceID i) id]) []
                            (DeviceOwner (sn_RecipientDeviceID i) (sw_db w)).
Proof.
  intros Hrun. unfold Service_SendSecret in Hrun. prog_inv.
  match goal with H : member_context _ _ _ = _ |- _ => unfold member_context, sec_read in H; prog_inv end.
  match goal with H : sec_stmt _ _ _ = _ |- _ => unfold sec_stmt in H; rename H into Hst end.
  destruct (StoreEnvelope _ _ _ _ _ _ _ _ _ _) as [[id'|e] d'] eqn:Hstore; [|done].
  injection Hst as <- <-. apply StoreEnvelope_Ok in Hstore as (Hcore & Hother & e & He & Hc & Hr & Hs & _).
  unfold announce_envelope in *. simpl in *.
  assert (DeviceOwner (sn_RecipientDeviceID i) d' = DeviceOwner (sn_RecipientDeviceID i) (sw_db w)) as Howner
    by (unfold DeviceOwner; by rewrite Hcore).
  rewrite Howner in *. apply negb_false_iff in Hcond3. apply negb_false_iff, bool_decide_eq_true in Hcond.
  apply bool_decide_eq_false in Hcond1.
  split; [by eexists|]. match goal with H : (Ok (), _) = _ |- _ => injection H as _ <- end.
  destruct (DeviceOwner _ (sw_db w)) as [owner|]; simpl; [by split; [eexists _, _|]|].
  rewrite app_nil_r. by split; [eexists _, _|].
Qed.

(** ** Concrete runs *)

Definition key33 : string := std_encode (replicate 33 7%N).
Definition key_input (device user : uuid) (otps : list OneTimePrekey) : PublishInput :=
  MkPublishInput device user 1 key33 1 key33 (std_encode (replicate 64 9%N)) otps.
(** Users 1 and 2 with the devices 100, 101 and 200, and user 3 with the device 300. *)
Definition secret_core : db :=
  with_devices (list_to_map [(100%N, MkDevice 1 0 None); (101%N, MkDevice 1 0 None); (200%N, MkDevice 2 0 None);
                             (300%N, MkDevice 3 0 None)]) empty_db.
Definition secret_start : secret_world := MkSecretWorld (MkSecretDb secret_core ∅ ∅ ∅ ∅ ∅) [].
Definition directory_ops : list secret_op :=
  [KPublish 1 (λ k, 500 + N.of_nat k)%N (key_input 200 2 [MkOneTimePrekey 5 key33; MkOneTimePrekey 4 key33]);
   KBundles 2 (λ _, ∅) 2 100; KBundles 3 (λ _, ∅) 2 101; KBundles 4 (λ _, ∅) 2 300].

Lemma one_time_prekeys_handed_out_once_witness :
  handed 200 (run_secret directory_ops secret_start).1 = [4; 5] ∧
  NoDup (handed 200 (run_secret directory_ops secret_start).1).
Proof.
  assert (handed 200 (run_secret directory_ops secret_start).1 = [4; 5]) as Hh by (vm_compute; reflexivity).
  split; [exact Hh|].
  assert (keys_ok (sw_db secret_start)) as Hok by (intros k k' r r' Hk; discriminate Hk).
  assert (identity_is 200 (replicate 33 7%N) (sw_db secret_start)) as Hid by (intros r Hr; discriminate Hr).
  assert (Forall (one_identity 200 (replicate 33 7%N)) directory_ops) as Hone.
  { repeat constructor. }
  pose proof (one_time_prekeys_handed_out_once 200 (replicate 33 7%N) directory_ops secret_start Hok Hid Hone) as Hthm.
  destruct (run_secret directory_ops secret_start) as [bs w']. exact (proj1 (proj2 Hthm)).
Defined.

(** A chat, the first message of a session, and its retry. *)
Definition relay_ops : list secret_op :=
  [KPublish 1 (λ k, 500 + N.of_nat k)%N (key_input 200 2 []); KOpen 2 10 1 2;
   KSend 3 700 (MkSecretSend 10 1 100 200 (std_encode [1; 2; 3]%N) 3 1 77);
   KSend 4 701 (MkSecretSend 10 1 101 200 (std_encode [4]%N) 1 1 78)].
Definition relay_world : secret_world := (run_secret relay_ops secret_start).2.

Lemma inbox_drains_witness :
  mailbox 200 (sw_db (drain 2 200 1 relay_world).2) = [] ∧
  length (drain 2 200 1 relay_world).1 = 2%nat.
Proof.
  assert (Z.of_nat (length (mailbox 200 (sw_db relay_world))) ≤ Z.of_nat 2 * inbox_limit 1) as Hfuel by (vm_compute; done).
  pose proof (inbox_drains 2 200 1 relay_world Hfuel) as Hthm.
  assert (length (drain 2 200 1 relay_world).1 = 2%nat) as Hlen by (vm_compute; reflexivity).
  destruct (drain 2 200 1 relay_world) as [es w']. split; [exact (proj2 (proj2 Hthm))|exact Hlen].
Defined.

(** A retry encrypted anew keeps the type of the first attempt: ratchet bytes stored as a
    prekey message. *)
Example retry_keeps_the_type :
  let w := (run_secret [KSend 5 702 (MkSecretSend 10 1 100 200 (std_encode [9]%N) 1 1 77)] relay_world).2 in
  (en_ciphertext <$> envelopes (sw_db w) !! 700%N, en_message_type <$> envelopes (sw_db w) !! 700%N) =
    (Some [9]%N, Some 3).
Proof. by vm_compute. Qed.
(** A retry after the acknowledgement is a second delivery. *)
Example retry_after_ack_is_delivered_again :
  let w := (run_secret [KAck 200 [700]%N; KSend 6 703 (MkSecretSend 10 1 100 200 (std_encode [1; 2; 3]%N) 3 1 77)]
              relay_world).2 in
  eo_ClientMessageID <$> PendingEnvelopes 200 100 (sw_db w) = [78; 77]%N.
Proof. by vm_compute. Qed.
(** A member of one secret chat reaches the device of anybody. *)
Example anybody_can_be_addressed :
  let '(r, w) := Service_SendSecret 7 704 (MkSecretSend 10 1 100 300 (std_encode [1]%N) 1 1 79) relay_world in
  r = Ok 704%N ∧ eo_ChatID <$> PendingEnvelopes 300 100 (sw_db w) = [10]%N ∧ nt_user <$> sw_out w = [2; 2; 3]%N.
Proof. by vm_compute. Qed.
