(* ===== verification/Polls.v ===== *)
(** * Polls ([internal/polls/polls.go])

    The statements on [polls], [poll_options] and [poll_votes] and the service over
    them and over [messaging.Service].  The ids of a poll and of its options are
    minted by the caller of the model; [messages.poll_id], which only this package
    sets, is kept here, next to the messaging world. *)

From stdpp Require Import base tactics list gmap strings sorting relations.
From Stdlib Require Import ZArith Lia.
From S2P Require Import Prelude GoString Httpx Permissions Store ChatContext EventLog MessageRepo MessageTheory RateLimit Ports Antispam Payloads MessagingService MessagingTheory.

Set Default Goal Selector "!".
Open Scope Z_scope.

Definition minOptions : Z := 2.
Definition maxOptions : Z := 12.
Definition maxQuestionRunes : Z := 300.
Definition maxOptionRunes : Z := 100.

(** ** Tables *)

Record poll_row := MkPollRow {
  p_chat_id : uuid;
  p_created_by : option uuid;
  p_question : string;
  p_is_anonymous : bool;
  p_allows_multiple : bool;
  p_is_quiz : bool;
  p_correct_option : option Z;
  p_total_voters : Z;
  p_closes_at : option time;
  p_closed_at : option time;
  p_created_at : time;
}.
Definition with_p_total_voters (v : Z) (r : poll_row) : poll_row :=
  MkPollRow (p_chat_id r) (p_created_by r) (p_question r) (p_is_anonymous r) (p_allows_multiple r) (p_is_quiz r)
    (p_correct_option r) v (p_closes_at r) (p_closed_at r) (p_created_at r).
Definition with_p_closed_at (v : option time) (r : poll_row) : poll_row :=
  MkPollRow (p_chat_id r) (p_created_by r) (p_question r) (p_is_anonymous r) (p_allows_multiple r) (p_is_quiz r)
    (p_correct_option r) (p_total_voters r) (p_closes_at r) v (p_created_at r).
Record option_row := MkOptionRow { op_poll_id : uuid; op_position : Z; op_text : string; op_vote_count : Z }.
Definition with_op_vote_count (v : Z) (o : option_row) : option_row :=
  MkOptionRow (op_poll_id o) (op_position o) (op_text o) v.

(** [poll_votes] maps (poll, option, user) to the time of the vote. *)
Record polldb := MkPollDb {
  polls : gmap uuid poll_row;
  poll_options : gmap uuid option_row;
  poll_votes : gmap (uuid * uuid * uuid) time;
  message_poll : gmap uuid uuid;
}.
Definition with_polls v (d : polldb) := MkPollDb v (poll_options d) (poll_votes d) (message_poll d).
Definition with_poll_options v (d : polldb) := MkPollDb (polls d) v (poll_votes d) (message_poll d).
Definition with_poll_votes v (d : polldb) := MkPollDb (polls d) (poll_options d) v (message_poll d).
Definition with_message_poll v (d : polldb) := MkPollDb (polls d) (poll_options d) (poll_votes d) v.

Inductive pollerr :=
| PollNotFound | ErrClosed | ErrSingleChoice | ErrInvalidOption | ErrNotCreator | ErrAnonymous
| PollUnique (constraint : string).

(** ** Go structures *)

Record Option_ := MkOption { on_ID : uuid; on_Position : Z; on_Text : string; on_VoteCount : Z }.
Record Poll := MkPoll {
  po_ID : uuid;
  po_MessageID : option uuid;
  po_row : poll_row;
  po_CorrectOption : option Z;
  po_Options : list Option_;
  po_MyVotes : list uuid;
}.
Record Voter := MkVoter {
  vo_UserID : uuid;
  vo_DisplayName : string;
  vo_Username : option string;
  vo_AvatarID : option uuid;
  vo_VotedAt : time;
}.
Record CreateInput := MkCreateInput {
  ci_ChatID : uuid;
  ci_CreatedBy : uuid;
  ci_Question : string;
  ci_Options : list string;
  ci_IsAnonymous : bool;
  ci_AllowsMultiple : bool;
  ci_IsQuiz : bool;
  ci_CorrectOption : option Z;
  ci_ClosesAt : option time;
}.

(** ** Statements *)

Definition insert_poll (now : time) (id : uuid) (i : CreateInput) : prog polldb pollerr () := λ d,
  if bool_decide (is_Some (polls d !! id)) then (Err (PollUnique "polls_pkey"), d)
  else (Ok (), with_polls (<[id := MkPollRow (ci_ChatID i) (Some (ci_CreatedBy i)) (ci_Question i) (ci_IsAnonymous i)
                                     (ci_AllowsMultiple i) (ci_IsQuiz i) (ci_CorrectOption i) 0 (ci_ClosesAt i) None now]>
                             (polls d)) d).
Definition same_slot (pollID : uuid) (position : Z) (_ : uuid) (o : option_row) : bool :=
  bool_decide (op_poll_id o = pollID) && (op_position o =? position).
Definition insert_option (pollID : uuid) (o : uuid * Z * string) : prog polldb pollerr () := λ d,
  let '(id, position, text) := o in
  if bool_decide (is_Some (poll_options d !! id)) then (Err (PollUnique "poll_options_pkey"), d)
  else if 0 <? count_where (same_slot pollID position) (poll_options d)
  then (Err (PollUnique "poll_options_poll_id_position_key"), d)
  else (Ok (), with_poll_options (<[id := MkOptionRow pollID position text 0]> (poll_options d)) d).
(** The options with their positions and the ids they get. *)
Definition numbered (ids : nat → uuid) (options : list string) : list (uuid * Z * string) :=
  imap (λ k text, (ids k, Z.of_nat k, text)) options.

Definition options_of (pollID : uuid) (_ : uuid) (o : option_row) : bool := bool_decide (op_poll_id o = pollID).
Definition ballot_of (pollID userID : uuid) (k : uuid * uuid * uuid) (_ : time) : bool :=
  bool_decide (k.1.1 = pollID) && bool_decide (k.2 = userID).
(** The options a user has voted for. *)
Definition ballot (pollID userID : uuid) (d : polldb) : list uuid :=
  (λ kt, kt.1.1.2) <$> rows_where (ballot_of pollID userID) (poll_votes d).
(** [LEFT JOIN messages m ON m.poll_id = p.id], one row of it *)
Definition carrier (pollID : uuid) (d : polldb) : option uuid :=
  fst <$> head (rows_where (λ _ p, bool_decide (p = pollID)) (message_poll d)).
Definition ByID (pollID viewerID : uuid) (d : polldb) : option Poll :=
  (λ r, MkPoll pollID
     (carrier pollID d) r (p_correct_option r)
     (order_by on_Position ((λ ko, MkOption ko.1 (op_position ko.2) (op_text ko.2) (op_vote_count ko.2)) <$>
        rows_where (options_of pollID) (poll_options d)))
     (ballot pollID viewerID d)) <$> polls d !! pollID.

Definition Create (now : time) (id : uuid) (ids : nat → uuid) (i : CreateInput) : prog polldb pollerr Poll :=
  in_tx (insert_poll now id i ≫= λ _, for_each (numbered ids (ci_Options i)) (insert_option id)) ≫= λ _,
  gets (ByID id (ci_CreatedBy i)) ≫= λ p, or_fail p PollNotFound.

(** The update finds no row when the message is gone; messages are never removed. *)
Definition AttachToMessage (pollID messageID : uuid) (d : polldb) : polldb :=
  with_message_poll (<[messageID := pollID]> (message_poll d)) d.

Definition poll_closed (now : time) (r : poll_row) : bool :=
  (if p_closed_at r is Some _ then true else false)
  || (if p_closes_at r is Some t then t <? now else false).

(** The statements of [Vote], after the poll's row is locked. *)
Definition valid_options (pollID : uuid) (optionIDs : list uuid) (d : polldb) : Z :=
  count_where (λ k o, options_of pollID k o && bool_decide (k ∈ optionIDs)) (poll_options d).
Definition had_voted (pollID userID : uuid) (d : polldb) : bool := negb (bool_decide (ballot pollID userID d = [])).
Definition withdraw_counts (pollID userID : uuid) (d : polldb) : polldb :=
  with_poll_options (update_where (λ k _, bool_decide (k ∈ ballot pollID userID d))
    (λ _ o, with_op_vote_count (Z.max 0 (op_vote_count o - 1)) o) (poll_options d)) d.
Definition withdraw_votes (pollID userID : uuid) (d : polldb) : polldb :=
  with_poll_votes (delete_where (ballot_of pollID userID) (poll_votes d)) d.
Definition change_voters (pollID : uuid) (f : Z → Z) (d : polldb) : polldb :=
  with_polls (update_where (λ k _, bool_decide (k = pollID)) (λ _ r, with_p_total_voters (f (p_total_voters r)) r)
    (polls d)) d.
(** The primary key refuses an option named twice. *)
Definition insert_votes (now : time) (pollID userID : uuid) (optionIDs : list uuid) : prog polldb pollerr () := λ d,
  if bool_decide (NoDup optionIDs)
  then (Ok (), with_poll_votes (foldr (λ o m, <[(pollID, o, userID) := now]> m) (poll_votes d) optionIDs) d)
  else (Err (PollUnique "poll_votes_pkey"), d).
Definition count_votes (optionIDs : list uuid) (d : polldb) : polldb :=
  with_poll_options (update_where (λ k _, bool_decide (k ∈ optionIDs))
    (λ _ o, with_op_vote_count (op_vote_count o + 1) o) (poll_options d)) d.

Definition Vote (now : time) (pollID userID : uuid) (optionIDs : list uuid) : prog polldb pollerr () :=
  in_tx (
    gets (λ d, polls d !! pollID) ≫= λ r, or_fail r PollNotFound ≫= λ r,
    fail_if (poll_closed now r) ErrClosed ≫= λ _,
    fail_if (negb (p_allows_multiple r) && (1 <? Z.of_nat (length optionIDs))) ErrSingleChoice ≫= λ _,
    gets (valid_options pollID optionIDs) ≫= λ valid,
    fail_if (negb (valid =? Z.of_nat (length optionIDs))) ErrInvalidOption ≫= λ _,
    gets (had_voted pollID userID) ≫= λ hadVoted : bool,
    modify (withdraw_counts pollID userID) ≫= λ _,
    modify (withdraw_votes pollID userID) ≫= λ _,
    if bool_decide (optionIDs = []) then
      if hadVoted then modify (change_voters pollID (λ n, Z.max 0 (n - 1))) else mret ()
    else
      insert_votes now pollID userID optionIDs ≫= λ _,
      modify (count_votes optionIDs) ≫= λ _,
      if hadVoted then mret () else modify (change_voters pollID (λ n, n + 1))).

Definition Close (now : time) (pollID actorID : uuid) : prog polldb pollerr () := λ d,
  let mine k r := bool_decide (k = pollID) && bool_decide (p_created_by r = Some actorID)
                  && (if p_closed_at r is None then true else false) in
  if 0 <? count_where mine (polls d)
  then (Ok (), with_polls (update_where mine (λ _ r, with_p_closed_at (Some now) r) (polls d)) d)
  else (Err ErrNotCreator, d).

(** Votes of users that still exist. *)
Definition Voters (core : db) (pollID optionID : uuid) (limit : Z) : prog polldb pollerr (list Voter) :=
  gets (λ d, polls d !! pollID) ≫= λ r, or_fail r PollNotFound ≫= λ r,
  fail_if (p_is_anonymous r) ErrAnonymous ≫= λ _,
  gets (λ d, take (Z.to_nat limit) (order_by vo_VotedAt (omap (λ kt : uuid * uuid * uuid * time,
    u ← users core !! kt.1.2;
    if u_deleted_at u is None
    then Some (MkVoter kt.1.2 (default ""%string (u_display_name u)) (u_username u) (u_avatar_media_id u) kt.2)
    else None)
    (rows_where (λ k _, bool_decide (k.1 = (pollID, optionID))) (poll_votes d))))).

(** ** The service *)

Record poll_world (G L : Type) := MkPollWorld { pw_world : world G L; pw_db : polldb }.
Arguments MkPollWorld {G L}.
Arguments pw_world {G L}.
Arguments pw_db {G L}.

Section service.
Context `{SpamGuard G} `{MessageLimiter L} `{PayloadCodec}.

Abbreviation handler := (prog (poll_world G L) Error) (only parsing).

Definition poll_stmt {A} (m : prog polldb pollerr A) (h : pollerr → Error) : handler A := λ w,
  match m (pw_db w) with
  | (Ok a, d) => (Ok a, MkPollWorld (pw_world w) d)
  | (Err e, d) => (Err (h e), MkPollWorld (pw_world w) d)
  end.
Definition poll_exec (f : polldb → polldb) : handler () := modify (λ w, MkPollWorld (pw_world w) (f (pw_db w))).
Definition poll_read {A} (f : polldb → A) : handler A := gets (λ w, f (pw_db w)).
Definition in_messaging {A} (m : prog (world G L) Error A) : handler A := λ w,
  let '(r, w') := m (pw_world w) in (r, MkPollWorld w' (pw_db w)).
Definition internal_poll (_ : pollerr) : Error := Internal.

(** Blank options are dropped, the others trimmed. *)
Fixpoint clean_options (l : list string) : result Error (list string) :=
  match l with
  | [] => Ok []
  | o :: l =>
      let trimmed := trim_space o in
      if bool_decide (trimmed = ""%string) then clean_options l
      else if maxOptionRunes <? rune_count trimmed then
        Err (WithField (Validation "An option is too long") "options" "at most 100 characters each")
      else match clean_options l with Ok rest => Ok (trimmed :: rest) | Err e => Err e end
  end.

(** The checks of [Create]: the input as it is stored. *)
Definition validate_poll (now : time) (i : CreateInput) : result Error CreateInput :=
  let question := trim_space (ci_Question i) in
  if bool_decide (question = ""%string) || (maxQuestionRunes <? rune_count question) then
    Err (WithField (Validation "Question is not valid") "question" "between 1 and 300 characters")
  else match clean_options (ci_Options i) with
  | Err e => Err e
  | Ok cleaned =>
      let n := Z.of_nat (length cleaned) in
      if (n <? minOptions) || (maxOptions <? n) then
        Err (WithField (Validation "Provide between 2 and 12 options") "options" "2-12 entries")
      else if ci_IsQuiz i && negb (if ci_CorrectOption i is Some c then (0 <=? c) && (c <? n) else false) then
        Err (WithField (Validation "A quiz needs a valid correct answer") "correct_option" "must index one of the options")
      else if (if ci_ClosesAt i is Some t then t <? now else false) then
        Err (WithField (Validation "Closing time is in the past") "closes_at" "must be in the future")
      else Ok (MkCreateInput (ci_ChatID i) (ci_CreatedBy i) question cleaned (ci_IsAnonymous i)
                 (ci_AllowsMultiple i && negb (ci_IsQuiz i)) (ci_IsQuiz i) (ci_CorrectOption i) (ci_ClosesAt i))
  end.

(** The message that carries a poll. *)
Definition poll_message (i : CreateInput) (pollID clientMessageID : uuid) : SendInput :=
  MkSendInput (ci_ChatID i) (ci_CreatedBy i) clientMessageID TypePoll (ci_Question i) RawNil
    (RawDoc (JObj [("poll_id"%string, JStr (uuid_String pollID))])) None [] [] None RawNil false None.

(** [new_id] is the message's id, [before] and [after] what happens to the messaging tables
    around the send ([MessagingService.Service_Send]). *)
Definition Service_Create (now : time) (id new_id : uuid) (ids : nat → uuid) (before after : db → db)
    (i : CreateInput) (clientMessageID : uuid) : handler Poll :=
  (λ w, (validate_poll now i, w)) ≫= λ i,
  poll_stmt (Create now id ids i) internal_poll ≫= λ poll,
  in_messaging (Service_Send now new_id before after (poll_message i id clientMessageID)) ≫= λ message,
  poll_exec (AttachToMessage id (mID message)) ≫= λ _,
  mret (MkPoll (po_ID poll) (Some (mID message)) (po_row poll) (po_CorrectOption poll) (po_Options poll) (po_MyVotes poll)).

Definition poll_not_found : Error := NotFound CodeNotFound "Poll not found".
(** A quiz hides its answer from who has not voted. *)
Definition Service_Get (pollID viewerID : uuid) : handler Poll :=
  poll_read (ByID pollID viewerID) ≫= λ p, or_fail p poll_not_found ≫= λ p,
  mret (if p_is_quiz (po_row p) && bool_decide (po_MyVotes p = []) && (if p_closed_at (po_row p) is None then true else false)
        then MkPoll (po_ID p) (po_MessageID p) (po_row p) None (po_Options p) (po_MyVotes p) else p).

Definition vote_error (e : pollerr) : Error :=
  match e with
  | PollNotFound => poll_not_found
  | ErrClosed => Conflict CodeConflict "This poll is closed"
  | ErrSingleChoice => WithField (Validation "This poll accepts a single answer") "option_ids" "exactly one entry"
  | ErrInvalidOption => WithField (Validation "That option does not belong to this poll") "option_ids" "invalid option"
  | _ => Internal
  end.
Definition Service_Vote (now : time) (pollID userID : uuid) (optionIDs : list uuid) : handler Poll :=
  fail_if (maxOptions <? Z.of_nat (length optionIDs))
    (WithField (Validation "Too many options selected") "option_ids" "at most 12 entries") ≫= λ _,
  poll_stmt (Vote now pollID userID optionIDs) vote_error ≫= λ _,
  Service_Get pollID userID.

Definition close_error (e : pollerr) : Error :=
  match e with ErrNotCreator => Forbidden CodeForbidden "Only the poll's creator can close it" | _ => Internal end.
Definition Service_Close (now : time) (pollID actorID : uuid) : handler () :=
  poll_stmt (Close now pollID actorID) close_error.

Definition voters_error (e : pollerr) : Error :=
  match e with
  | PollNotFound => poll_not_found
  | ErrAnonymous => Forbidden CodeForbidden "This poll is anonymous"
  | _ => Internal
  end.
Definition Service_Voters (pollID optionID : uuid) : handler (list Voter) := λ w,
  poll_stmt (Voters (w_db (pw_world w)) pollID optionID 500) voters_error w.
End service.

(** * Tallies and ballots

    A vote replaces the whole ballot of a voter, and the counters stored with the
    poll and its options always agree with the votes. *)

(** ** Ballots *)

Definition votes_for (k : uuid) (key : uuid * uuid * uuid) (_ : time) : bool := bool_decide (key.1.2 = k).
(** Who has voted in a poll. *)
Definition voters_of (pollID : uuid) (d : polldb) : gset uuid :=
  list_to_set ((λ kt, kt.1.2) <$> rows_where (λ k _, bool_decide (k.1.1 = pollID)) (poll_votes d)).

Lemma elem_of_ballot pollID userID d o :
  o ∈ ballot pollID userID d ↔ is_Some (poll_votes d !! (pollID, o, userID)).
Proof.
  unfold ballot. rewrite list_elem_of_fmap. split.
  - intros ([[[p o'] u] t] & -> & [Hk HP]%elem_of_rows_where). unfold ballot_of in HP. simpl in *.
    apply andb_true_iff in HP as [->%bool_decide_eq_true ->%bool_decide_eq_true]. by exists t.
  - intros [t Ht]. exists (pollID, o, userID, t). split; [done|]. apply elem_of_rows_where. split; [done|].
    unfold ballot_of. simpl. by rewrite !bool_decide_eq_true_2.
Qed.
Lemma NoDup_ballot pollID userID d : NoDup (ballot pollID userID d).
Proof.
  unfold ballot. apply NoDup_fmap_2_strong; [|apply NoDup_rows_where].
  intros [[[p o] u] t] [[[p' o'] u'] t'] [H1 HP]%elem_of_rows_where [H2 HP']%elem_of_rows_where.
  unfold ballot_of in *. simpl in *. intros ->.
  apply andb_true_iff in HP as [->%bool_decide_eq_true ->%bool_decide_eq_true].
  apply andb_true_iff in HP' as [->%bool_decide_eq_true ->%bool_decide_eq_true]. by simplify_eq.
Qed.
Lemma elem_of_voters_of pollID d u :
  u ∈ voters_of pollID d ↔ ∃ o, is_Some (poll_votes d !! (pollID, o, u)).
Proof.
  unfold voters_of. rewrite elem_of_list_to_set, list_elem_of_fmap. split.
  - intros ([[[p o] u'] t] & -> & [Hk HP]%elem_of_rows_where). simpl in *.
    apply bool_decide_eq_true in HP. subst p. by exists o, t.
  - intros (o & t & Ht). exists (pollID, o, u, t). split; [done|]. apply elem_of_rows_where. split; [done|].
    by apply bool_decide_eq_true.
Qed.
Lemma had_voted_true pollID userID d : had_voted pollID userID d = true ↔ userID ∈ voters_of pollID d.
Proof.
  unfold had_voted. rewrite elem_of_voters_of, negb_true_iff, bool_decide_eq_false. split.
  - intros Hne. destruct (ballot pollID userID d) as [|o l] eqn:Hb; [done|]. exists o.
    apply elem_of_ballot. rewrite Hb. by left.
  - intros (o & Ho%elem_of_ballot) Hnil. rewrite Hnil in Ho. by apply not_elem_of_nil in Ho.
Qed.

(** ** What [Vote] does, branch by branch *)

(** A ballot that has passed the checks. *)
Definition cast (now : time) (pollID userID : uuid) (optionIDs : list uuid) (d : polldb) : polldb :=
  let d1 := withdraw_votes pollID userID (withdraw_counts pollID userID d) in
  let d2 := count_votes optionIDs (with_poll_votes
              (foldr (λ o m, <[(pollID, o, userID) := now]> m) (poll_votes d1) optionIDs) d1) in
  match bool_decide (optionIDs = []), had_voted pollID userID d with
  | true, true => change_voters pollID (λ n, Z.max 0 (n - 1)) d1
  | true, false => d1
  | false, true => d2
  | false, false => change_voters pollID (λ n, n + 1) d2
  end.

Lemma valid_options_NoDup pollID optionIDs d :
  valid_options pollID optionIDs d = Z.of_nat (length optionIDs) →
  NoDup optionIDs ∧ ∀ k, k ∈ optionIDs → ∃ o, poll_options d !! k = Some o ∧ op_poll_id o = pollID.
Proof.
  unfold valid_options, count_where. intros Hlen%Nat2Z.inj.
  set (P := λ (k : uuid) o, options_of pollID k o && bool_decide (k ∈ optionIDs)) in *.
  rewrite <-(length_fmap fst) in Hlen.
  assert ((rows_where P (poll_options d)).*1 ⊆ optionIDs) as Hsub.
  { intros k Hk%elem_of_fst_rows_where. destruct (poll_options d !! k); [|done]. simpl in Hk. unfold P in Hk.
    injection Hk as Hk. apply andb_true_iff in Hk as [_ Hk]. by apply bool_decide_eq_true in Hk. }
  assert ((rows_where P (poll_options d)).*1 ≡ₚ optionIDs) as Hperm.
  { apply submseteq_length_Permutation; [|lia]. apply NoDup_submseteq; [apply NoDup_fst_rows_where|done]. }
  split; [rewrite <-Hperm; apply NoDup_fst_rows_where|]. intros k Hk. rewrite <-Hperm in Hk.
  apply elem_of_fst_rows_where in Hk. destruct (poll_options d !! k) as [o|]; [|done]. exists o. split; [done|].
  simpl in Hk. unfold P, options_of in Hk. injection Hk as Hk. apply andb_true_iff in Hk as [Hk _].
  by apply bool_decide_eq_true in Hk.
Qed.
Lemma valid_options_intro pollID optionIDs d :
  NoDup optionIDs → (∀ k, k ∈ optionIDs → ∃ o, poll_options d !! k = Some o ∧ op_poll_id o = pollID) →
  valid_options pollID optionIDs d = Z.of_nat (length optionIDs).
Proof.
  intros Hnd Hall. unfold valid_options, count_where. f_equal. rewrite <-(length_fmap fst).
  apply Permutation_length, NoDup_Permutation; [apply NoDup_fst_rows_where|done|].
  intros k. rewrite elem_of_fst_rows_where. split.
  - destruct (poll_options d !! k); [|done]. simpl. intros [= H]. apply andb_true_iff in H as [_ H].
    by apply bool_decide_eq_true in H.
  - intros Hk. destruct (Hall k Hk) as (o & -> & Hp). simpl. unfold options_of.
    by rewrite !bool_decide_eq_true_2.
Qed.

Lemma Vote_run now pollID userID optionIDs d :
  Vote now pollID userID optionIDs d =
    match polls d !! pollID with
    | None => (Err PollNotFound, d)
    | Some r =>
        if poll_closed now r then (Err ErrClosed, d)
        else if negb (p_allows_multiple r) && (1 <? Z.of_nat (length optionIDs)) then (Err ErrSingleChoice, d)
        else if negb (valid_options pollID optionIDs d =? Z.of_nat (length optionIDs)) then (Err ErrInvalidOption, d)
        else (Ok (), cast now pollID userID optionIDs d)
    end.
Proof.
  unfold Vote, in_tx. rewrite bind_run. unfold gets at 1. cbn beta iota.
  destruct (polls d !! pollID) as [r|] eqn:Hr; [|done].
  rewrite bind_run. unfold or_fail at 1. cbn beta iota. rewrite bind_run. unfold fail_if at 1.
  destruct (poll_closed now r); [done|]. cbn beta iota. rewrite bind_run. unfold fail_if at 1.
  destruct (negb (p_allows_multiple r) && _); [done|]. cbn beta iota. rewrite bind_run. unfold gets at 1.
  cbn beta iota. rewrite bind_run. unfold fail_if.
  destruct (negb (valid_options pollID optionIDs d =? _)) eqn:Hv; [done|].
  apply negb_false_iff, Z.eqb_eq in Hv. destruct (valid_options_NoDup _ _ _ Hv) as [Hnd _].
  cbn beta iota. rewrite bind_run. unfold gets. cbn beta iota.
  do 2 (rewrite bind_run; unfold modify at 1; cbn beta iota). unfold cast. case_bool_decide as Hnil.
  - by destruct (had_voted pollID userID d).
  - rewrite bind_run. unfold insert_votes at 1. rewrite bool_decide_eq_true_2 by done.
    cbn beta iota. rewrite bind_run. cbn beta iota. by destruct (had_voted pollID userID d).
Qed.

(** The tables after a ballot is cast, row by row. *)
Definition b2z (b : bool) : Z := if b then 1 else 0.

Lemma lookup_insert_votes (now : time) (pollID userID : uuid) (optionIDs : list uuid) (m : gmap (uuid * uuid * uuid) time) key :
  foldr (λ o m, <[(pollID, o, userID) := now]> m) m optionIDs !! key =
    if bool_decide (key.1.1 = pollID) && bool_decide (key.2 = userID) && bool_decide (key.1.2 ∈ optionIDs)
    then Some now else m !! key.
Proof.
  destruct key as [[p o] u]. induction optionIDs as [|o' l IH]; cbn [foldr fst snd].
  { rewrite (bool_decide_eq_false_2 (o ∈ [])) by apply not_elem_of_nil. by rewrite andb_false_r. }
  destruct (decide ((pollID, o', userID) = (p, o, u))) as [[= -> -> ->]|Hne].
  - rewrite lookup_insert_eq, !bool_decide_eq_true_2; [done|by left|done|done].
  - rewrite lookup_insert_ne, IH by done. cbn [fst snd].
    destruct (bool_decide (p = pollID) && bool_decide (u = userID)) eqn:Hpu; [|done].
    apply andb_true_iff in Hpu as [->%bool_decide_eq_true ->%bool_decide_eq_true]. cbn [andb].
    rewrite (bool_decide_ext (o ∈ l) (o ∈ o' :: l)); [done|]. rewrite elem_of_cons. naive_solver.
Qed.
Lemma poll_votes_cast now pollID userID optionIDs d key :
  poll_votes (cast now pollID userID optionIDs d) !! key =
    if bool_decide (key.1.1 = pollID) && bool_decide (key.2 = userID)
    then if bool_decide (key.1.2 ∈ optionIDs) then Some now else None
    else poll_votes d !! key.
Proof.
  set (pu := bool_decide (key.1.1 = pollID) && bool_decide (key.2 = userID)).
  assert (delete_where (ballot_of pollID userID) (poll_votes d) !! key =
          if pu then None else poll_votes d !! key) as Hdel.
  { rewrite lookup_delete_where. unfold ballot_of, pu. destruct (poll_votes d !! key); simpl; [done|].
    by destruct (_ && _). }
  assert (poll_votes (cast now pollID userID optionIDs d) = if bool_decide (optionIDs = [])
    then delete_where (ballot_of pollID userID) (poll_votes d)
    else foldr (λ o m, <[(pollID, o, userID) := now]> m) (delete_where (ballot_of pollID userID) (poll_votes d)) optionIDs) as ->.
  { unfold cast. repeat case_match; done. }
  case_bool_decide as Hnil.
  - rewrite Hdel, Hnil. rewrite (bool_decide_eq_false_2 (_ ∈ [])) by apply not_elem_of_nil. done.
  - rewrite lookup_insert_votes, Hdel. fold pu. destruct pu; [|done]. simpl. by case_bool_decide.
Qed.
Lemma poll_options_cast now pollID userID optionIDs d k :
  poll_options (cast now pollID userID optionIDs d) !! k =
    (λ o, with_op_vote_count
       ((if bool_decide (k ∈ ballot pollID userID d) then Z.max 0 (op_vote_count o - 1) else op_vote_count o)
        + b2z (bool_decide (k ∈ optionIDs))) o) <$> poll_options d !! k.
Proof.
  assert (poll_options (cast now pollID userID optionIDs d) = if bool_decide (optionIDs = [])
    then poll_options (withdraw_counts pollID userID d)
    else poll_options (count_votes optionIDs (withdraw_counts pollID userID d))) as ->.
  { unfold cast. repeat case_match; done. }
  unfold count_votes, withdraw_counts. destruct (decide (optionIDs = [])) as [->|Hnil].
  - rewrite (bool_decide_eq_false_2 (k ∈ [])) by apply not_elem_of_nil.
    rewrite bool_decide_eq_true_2 by done. simpl. rewrite lookup_update_where.
    destruct (poll_options d !! k) as [[]|]; [|done]. simpl.
    case_bool_decide; unfold with_op_vote_count; simpl; do 2 f_equal; lia.
  - rewrite bool_decide_eq_false_2 by done. simpl. rewrite !lookup_update_where.
    destruct (poll_options d !! k) as [[]|]; [|done]. simpl. unfold with_op_vote_count.
    repeat case_bool_decide; simpl; do 2 f_equal; lia.
Qed.
Lemma polls_cast now pollID userID optionIDs d q :
  polls (cast now pollID userID optionIDs d) !! q =
    (λ r, if bool_decide (q = pollID)
          then with_p_total_voters (match bool_decide (optionIDs = []), had_voted pollID userID d with
                 | true, true => Z.max 0 (p_total_voters r - 1)
                 | false, false => p_total_voters r + 1
                 | _, _ => p_total_voters r end) r
          else r) <$> polls d !! q.
Proof.
  assert (∀ r, with_p_total_voters (p_total_voters r) r = r) as Hid by (by intros []).
  unfold cast. destruct (bool_decide (optionIDs = [])), (had_voted pollID userID d); simpl;
    rewrite ?lookup_update_where; destruct (polls d !! q) as [r|]; simpl; try done;
    case_bool_decide; simpl; rewrite ?Hid; done.
Qed.
Lemma message_poll_cast now pollID userID optionIDs d :
  message_poll (cast now pollID userID optionIDs d) = message_poll d.
Proof. unfold cast. by repeat case_match. Qed.

Lemma is_Some_cast_votes now pollID userID optionIDs d p o u :
  is_Some (poll_votes (cast now pollID userID optionIDs d) !! (p, o, u)) ↔
    if decide (p = pollID ∧ u = userID) then o ∈ optionIDs else is_Some (poll_votes d !! (p, o, u)).
Proof.
  rewrite poll_votes_cast. simpl. destruct (decide (p = pollID ∧ u = userID)) as [[-> ->]|Hne].
  - rewrite !bool_decide_eq_true_2 by done. simpl. case_bool_decide; rewrite ?is_Some_alt; naive_solver.
  - destruct (bool_decide (p = pollID) && bool_decide (u = userID)) eqn:Hpu; [|done].
    apply andb_true_iff in Hpu as [?%bool_decide_eq_true ?%bool_decide_eq_true]. naive_solver.
Qed.
(** The ballot is the one given; every other ballot is what it was. *)
Lemma ballot_cast now pollID userID optionIDs d o p u :
  o ∈ ballot p u (cast now pollID userID optionIDs d) ↔
    if decide (p = pollID ∧ u = userID) then o ∈ optionIDs else o ∈ ballot p u d.
Proof. rewrite elem_of_ballot, is_Some_cast_votes. case_decide; [done|]. by rewrite elem_of_ballot. Qed.
Lemma voters_of_cast now pollID userID optionIDs d p :
  voters_of p (cast now pollID userID optionIDs d) =
    if decide (p = pollID) then
      if decide (optionIDs = []) then voters_of p d ∖ {[userID]} else voters_of p d ∪ {[userID]}
    else voters_of p d.
Proof.
  apply set_eq. intros u. rewrite elem_of_voters_of. setoid_rewrite is_Some_cast_votes.
  destruct (decide (p = pollID)) as [->|Hp].
  - destruct (decide (u = userID)) as [->|Hu].
    + destruct (decide (optionIDs = [])) as [->|Hnil].
      * split; [|set_solver]. intros [o Ho]. case_decide; [|naive_solver]. by apply not_elem_of_nil in Ho.
      * split; [set_solver|]. intros _. destruct optionIDs as [|o l]; [done|]. exists o. case_decide; [by left|naive_solver].
    + transitivity (u ∈ voters_of pollID d); [|destruct (decide (optionIDs = [])); set_solver].
      rewrite elem_of_voters_of. split; intros [o Ho]; exists o; case_decide; naive_solver.
  - rewrite elem_of_voters_of. split; intros [o Ho]; exists o; case_decide; naive_solver.
Qed.

(** ** The tally *)

Record tally (d : polldb) : Prop := {
  tally_option : ∀ k o, poll_options d !! k = Some o → op_vote_count o = count_where (votes_for k) (poll_votes d);
  tally_voters : ∀ p r, polls d !! p = Some r → p_total_voters r = Z.of_nat (size (voters_of p d));
  tally_known : ∀ p o u, is_Some (poll_votes d !! (p, o, u)) →
    ∃ row, poll_options d !! o = Some row ∧ op_poll_id row = p;
  tally_poll : ∀ k o, poll_options d !! k = Some o → is_Some (polls d !! op_poll_id o);
  tally_single : ∀ p r u, polls d !! p = Some r → p_allows_multiple r = false → (length (ballot p u d) ≤ 1)%nat;
}.

Lemma count_votes_for_cast now pollID userID optionIDs d k :
  count_where (votes_for k) (poll_votes (cast now pollID userID optionIDs d)) =
    count_where (votes_for k) (poll_votes d) - b2z (bool_decide (k ∈ ballot pollID userID d))
    + b2z (bool_decide (k ∈ optionIDs)).
Proof.
  assert (∀ d' : polldb, hits (votes_for k) (poll_votes d') (pollID, k, userID) = bool_decide (k ∈ ballot pollID userID d')) as Hhits.
  { intros d'. apply eq_true_iff_eq. rewrite hits_true, bool_decide_eq_true, elem_of_ballot. split.
    - intros (v & Hv & _). by exists v.
    - intros [v Hv]. exists v. split; [done|]. by apply bool_decide_eq_true. }
  rewrite (count_where_change (votes_for k) (votes_for k) (poll_votes d) _ (pollID, k, userID)), !Hhits.
  - unfold b2z. rewrite (bool_decide_ext (k ∈ ballot pollID userID (cast _ _ _ _ _)) (k ∈ optionIDs)); [done|].
    rewrite ballot_cast. case_decide; [done|naive_solver].
  - intros [[p o] u] Hne. rewrite poll_votes_cast. unfold votes_for. simpl.
    destruct (bool_decide (p = pollID) && bool_decide (u = userID)) eqn:Hpu; [|done].
    apply andb_true_iff in Hpu as [->%bool_decide_eq_true ->%bool_decide_eq_true].
    rewrite (bool_decide_eq_false_2 (o = k)) by naive_solver.
    destruct (poll_votes d !! _), (bool_decide (o ∈ optionIDs)); simpl; naive_solver.
Qed.
(** A ballot is counted where it was cast. *)
Lemma ballot_counted pollID userID d k o :
  tally d → k ∈ ballot pollID userID d → poll_options d !! k = Some o → 1 ≤ op_vote_count o.
Proof.
  intros Ht [t Hk]%elem_of_ballot Ho. rewrite (tally_option _ Ht _ _ Ho).
  destruct (Z.eq_dec (count_where (votes_for k) (poll_votes d)) 0) as [Hz|Hz].
  - rewrite count_where_0 in Hz. specialize (Hz _ _ Hk). unfold votes_for in Hz. simpl in Hz.
    by apply bool_decide_eq_false in Hz.
  - pose proof (count_where_nonneg (votes_for k) (poll_votes d)). lia.
Qed.

Lemma cast_tally now pollID userID optionIDs d r :
  tally d → polls d !! pollID = Some r →
  (p_allows_multiple r = false → (length optionIDs ≤ 1)%nat) →
  NoDup optionIDs → (∀ k, k ∈ optionIDs → ∃ o, poll_options d !! k = Some o ∧ op_poll_id o = pollID) →
  tally (cast now pollID userID optionIDs d).
Proof.
  intros Ht Hr Hsingle Hnd Hopts. split.
  - intros k o'. rewrite poll_options_cast, count_votes_for_cast.
    destruct (poll_options d !! k) as [o|] eqn:Ho; simpl; [intros [= <-]|done]. simpl.
    pose proof (tally_option _ Ht _ _ Ho). case_bool_decide as Hin; simpl; [|lia].
    pose proof (ballot_counted _ _ _ _ _ Ht Hin Ho). lia.
  - intros p r'. rewrite polls_cast, voters_of_cast. destruct (polls d !! p) as [rp|] eqn:Hp; simpl; [intros [= <-]|done].
    pose proof (tally_voters _ Ht _ _ Hp) as Hsize. case_bool_decide as Hpp; [|by rewrite decide_False]. subst p.
    rewrite decide_True by done.
    destruct (had_voted pollID userID d) eqn:Hhad; [|apply not_true_iff_false in Hhad]; rewrite had_voted_true in Hhad;
      case_bool_decide as Hnil; simpl; [rewrite decide_True|rewrite decide_False|rewrite decide_True|rewrite decide_False];
      try done; rewrite Hsize.
    + assert (voters_of pollID d = {[userID]} ∪ voters_of pollID d ∖ {[userID]}) as Heq.
      { rewrite <-(union_difference_L {[userID]} (voters_of pollID d)); set_solver. }
      rewrite Heq at 1. rewrite size_union by set_solver. rewrite size_singleton. lia.
    + f_equal. f_equal. set_solver.
    + f_equal. f_equal. set_solver.
    + rewrite size_union by set_solver. rewrite size_singleton. lia.
  - intros p o u. rewrite is_Some_cast_votes, poll_options_cast. intros Hv.
    assert (∃ row, poll_options d !! o = Some row ∧ op_poll_id row = p) as (row & -> & Hrow).
    { case_decide as Hpu; [|by apply (tally_known _ Ht _ _ u)]. destruct Hpu as [-> ->]. by apply Hopts. }
    eexists; split; [done|]. done.
  - intros k o'. rewrite poll_options_cast, polls_cast. destruct (poll_options d !! k) as [o|] eqn:Ho; simpl; [intros [= <-]|done].
    simpl. destruct (tally_poll _ Ht _ _ Ho) as [rp ->]. done.
  - intros p r' u. rewrite polls_cast. destruct (polls d !! p) as [rp|] eqn:Hp; simpl; [intros [= <-]|done].
    intros Hm. assert (p_allows_multiple rp = false) as Hm' by (by case_bool_decide).
    assert (∀ l, ballot p u (cast now pollID userID optionIDs d) ⊆ l → (length l ≤ 1)%nat →
            (length (ballot p u (cast now pollID userID optionIDs d)) ≤ 1)%nat) as Hle.
    { intros l Hl Hlen. etrans; [|exact Hlen]. apply submseteq_length, NoDup_submseteq; [apply NoDup_ballot|done]. }
    destruct (decide (p = pollID ∧ u = userID)) as [[-> ->]|Hne].
    + apply (Hle optionIDs); [|apply Hsingle; by simplify_eq].
      intros o. rewrite ballot_cast, decide_True by done. done.
    + apply (Hle (ballot p u d)); [|by apply (tally_single _ Ht _ rp)].
      intros o. rewrite ballot_cast, decide_False by done. done.
Qed.
Lemma Vote_tally now pollID userID optionIDs d :
  tally d → tally (Vote now pollID userID optionIDs d).2.
Proof.
  intros Ht. rewrite Vote_run. destruct (polls d !! pollID) as [r|] eqn:Hr; [|done].
  destruct (poll_closed now r); [done|]. destruct (negb (p_allows_multiple r) && _) eqn:Hs; [done|].
  destruct (negb (valid_options _ _ _ =? _)) eqn:Hv; [done|]. apply negb_false_iff, Z.eqb_eq in Hv.
  destruct (valid_options_NoDup _ _ _ Hv) as [Hnd Hopts].
  apply (cast_tally _ _ _ _ _ r); [done..| |done|done]. intros Hm. rewrite Hm in Hs. simpl in Hs.
  apply Z.ltb_ge in Hs. lia.
Qed.

(** Creating and closing keep the tally. *)
Lemma for_each_inv {S E A} (I : S → Prop) (f : A → prog S E ()) (l : list A) s :
  (∀ x s, x ∈ l → I s → I (f x s).2) → I s → I (for_each l f s).2.
Proof.
  revert s. induction l as [|x l IH]; intros s Hf Hs; simpl; [done|]. rewrite bind_run.
  assert (I (f x s).2) as Hx by (apply Hf; [by left|done]).
  destruct (f x s) as [[[]|e] s']; simpl in *; [|done]. apply IH; [|done]. intros y s1 Hy. apply Hf. by right.
Qed.

Lemma insert_poll_tally now id i d : tally d → tally (insert_poll now id i d).2.
Proof.
  intros Ht. unfold insert_poll. case_bool_decide as Hid; [done|]. apply eq_None_not_Some in Hid. simpl.
  assert (∀ u o, poll_votes d !! (id, o, u) = None) as Hnone.
  { intros u o. apply eq_None_not_Some. intros (row & Ho & <-)%(tally_known _ Ht).
    destruct (tally_poll _ Ht _ _ Ho). congruence. }
  split; simpl.
  - apply (tally_option _ Ht).
  - intros p r [[<- <-]|[Hne Hp]]%lookup_insert_Some; [|by apply (tally_voters _ Ht)]. simpl.
    assert (voters_of id d = ∅) as Hv; [|unfold voters_of in *; simpl in *; by rewrite Hv].
    apply set_eq. intros u. rewrite elem_of_voters_of. split; [|set_solver]. intros (o & t & Ho). by rewrite Hnone in Ho.
  - apply (tally_known _ Ht).
  - intros k o Ho. destruct (tally_poll _ Ht _ _ Ho) as [r Hr]. rewrite lookup_insert_is_Some. right.
    split; [congruence|by exists r].
  - intros p r u [[<- <-]|[Hne Hp]]%lookup_insert_Some Hm; [|by apply (tally_single _ Ht _ r)]. simpl in Hm.
    destruct (ballot id u d) as [|o l] eqn:Hb; [by unfold ballot in *; simpl in *; rewrite Hb; simpl; lia|].
    assert (o ∈ ballot id u d) as [t Ho]%elem_of_ballot by (rewrite Hb; by left). by rewrite Hnone in Ho.
Qed.
Lemma insert_option_tally pollID o d :
  tally d → is_Some (polls d !! pollID) →
  tally (insert_option pollID o d).2 ∧ polls (insert_option pollID o d).2 = polls d.
Proof.
  destruct o as [[id position] text]. intros Ht Hp. unfold insert_option.
  case_bool_decide as Hid; [done|]. apply eq_None_not_Some in Hid. destruct (0 <? _); [done|]. simpl. split; [|done].
  split; simpl.
  - intros k o [[<- <-]|[Hne Hk]]%lookup_insert_Some; [|by apply (tally_option _ Ht)]. simpl. symmetry.
    apply count_where_0. intros [[p o] u] t Hv. unfold votes_for. simpl. apply bool_decide_eq_false. intros ->.
    destruct (tally_known _ Ht p id u) as (row & Hrow & _); [by exists t|congruence].
  - apply (tally_voters _ Ht).
  - intros p o u Hv. destruct (tally_known _ Ht _ _ _ Hv) as (row & Hrow & Hrp). exists row.
    rewrite lookup_insert_ne by congruence. done.
  - intros k o [[<- <-]|[Hne Hk]]%lookup_insert_Some; [done|by apply (tally_poll _ Ht k)].
  - apply (tally_single _ Ht).
Qed.
Lemma Create_tally now id ids i d : tally d → tally (Create now id ids i d).2.
Proof.
  intros Ht. unfold Create. rewrite bind_run.
  assert (tally (in_tx (insert_poll now id i ≫= λ _, for_each (numbered ids (ci_Options i)) (insert_option id)) d).2) as Hin.
  { unfold in_tx. rewrite bind_run. destruct (insert_poll now id i d) as [[[]|e] d1] eqn:Hp; [|done].
    pose proof (insert_poll_tally now id i d Ht) as Ht1. rewrite Hp in Ht1. simpl in Ht1.
    assert (is_Some (polls d1 !! id)) as Hid.
    { unfold insert_poll in Hp. case_bool_decide; [done|]. injection Hp as <-. simpl. by rewrite lookup_insert_eq. }
    pose proof (for_each_inv (λ d, tally d ∧ is_Some (polls d !! id)) (insert_option id) (numbered ids (ci_Options i)) d1) as Hinv.
    destruct Hinv as [Hinv _]; [|done|].
    - intros o s _ [Hs Hsp]. destruct (insert_option_tally id o s Hs Hsp) as [? ->]. done.
    - destruct (for_each _ _ d1) as [[[]|]]; done. }
  destruct (in_tx _ d) as [[[]|e] d1]; [|done]. rewrite bind_run. simpl in *. unfold or_fail. by destruct (ByID _ _ d1).
Qed.
Lemma Close_tally now pollID actorID d : tally d → tally (Close now pollID actorID d).2.
Proof.
  intros Ht. unfold Close. destruct (0 <? _); [|done]. destruct Ht as [Hopt Hvot Hkn Hpoll Hsin].
  split; simpl; [done| |done| |].
  - intros p r' (r & Hr & ->)%lookup_update_where_Some. transitivity (p_total_voters r); [by destruct (_ && _)|by apply Hvot].
  - intros k o Ho. destruct (Hpoll _ _ Ho) as [r Hr]. rewrite lookup_update_where, Hr. done.
  - intros p r' u (r & Hr & ->)%lookup_update_where_Some Hm. apply (Hsin _ r); [done|]. by destruct (_ && _).
Qed.

(** ** A closed poll *)

Record frozen (p : uuid) (d d' : polldb) : Prop := {
  frozen_poll : polls d' !! p = polls d !! p;
  frozen_options : ∀ k o, op_poll_id o = p → poll_options d !! k = Some o ↔ poll_options d' !! k = Some o;
  frozen_votes : ∀ o u, poll_votes d' !! (p, o, u) = poll_votes d !! (p, o, u);
}.
#[export] Instance frozen_preorder p : PreOrder (frozen p).
Proof.
  split; [intros d; by split|]. intros d1 d2 d3 [P1 O1 V1] [P2 O2 V2]. split; [congruence| |intros; congruence].
  intros k o Ho. rewrite (O1 k o Ho). by apply O2.
Qed.

Lemma Vote_frozen now pollID userID optionIDs d p r :
  tally d → polls d !! p = Some r → is_Some (p_closed_at r) → frozen p d (Vote now pollID userID optionIDs d).2.
Proof.
  intros Ht Hp Hclosed. rewrite Vote_run. destruct (polls d !! pollID) as [r'|] eqn:Hr; [|done].
  destruct (poll_closed now r') eqn:Hc; [done|]. destruct (negb (p_allows_multiple r') && _); [done|].
  destruct (negb (valid_options _ _ _ =? _)) eqn:Hv; [done|]. apply negb_false_iff, Z.eqb_eq in Hv.
  destruct (valid_options_NoDup _ _ _ Hv) as [_ Hopts].
  assert (p ≠ pollID) as Hne.
  { intros Heq. destruct Hclosed as [t Ht2]. unfold poll_closed in Hc. assert (r' = r) as Hrr by congruence. by rewrite Hrr, Ht2 in Hc. }
  assert (∀ o, with_op_vote_count (op_vote_count o) o = o) as Hid by (by intros []).
  split; simpl.
  - rewrite polls_cast. rewrite bool_decide_eq_false_2 by done. by destruct (polls d !! p).
  - intros k o Ho. rewrite poll_options_cast. destruct (poll_options d !! k) as [o'|] eqn:Hk; simpl; [|done].
    assert (op_poll_id o' = p → k ∉ ballot pollID userID d ∧ k ∉ optionIDs) as Hother.
    { intros Hp'. split; [intros (row & ? & ?)%elem_of_ballot%(tally_known _ Ht); congruence|].
      intros (row & ? & ?)%Hopts. congruence. }
    split; intros [= <-]; destruct (Hother Ho) as [H1 H2]; rewrite (bool_decide_eq_false_2 _ H1), (bool_decide_eq_false_2 _ H2);
      simpl; rewrite Z.add_0_r, Hid; done.
  - intros o u. rewrite poll_votes_cast. simpl. by rewrite (bool_decide_eq_false_2 _ Hne).
Qed.
Lemma Close_frozen now pollID actorID d p r :
  polls d !! p = Some r → is_Some (p_closed_at r) → frozen p d (Close now pollID actorID d).2.
Proof.
  intros Hp [t Hclosed]. unfold Close. destruct (0 <? _); [|done]. split; simpl; [|done|done].
  rewrite lookup_update_where, Hp. simpl. rewrite Hclosed. by rewrite andb_false_r.
Qed.
Lemma Create_frozen now id ids i d p r :
  polls d !! p = Some r → frozen p d (Create now id ids i d).2.
Proof.
  intros Hp. unfold Create. rewrite bind_run.
  assert (frozen p d (in_tx (insert_poll now id i ≫= λ _, for_each (numbered ids (ci_Options i)) (insert_option id)) d).2) as Hin.
  { unfold in_tx. rewrite bind_run. unfold insert_poll at 1. case_bool_decide as Hid; [done|].
    apply eq_None_not_Some in Hid. assert (id ≠ p) as Hne by congruence.
    set (d1 := with_polls _ d). assert (frozen p d d1) as H1 by (split; simpl; [by rewrite lookup_insert_ne|done|done]).
    pose proof (for_each_inv (frozen p d) (insert_option id) (numbered ids (ci_Options i)) d1) as Hinv.
    destruct (for_each _ _ d1) as [[[]|] d2]; [|done]. apply Hinv; [|done]. clear Hinv H1.
    intros [[k position] text] s _ Hs. etrans; [exact Hs|]. unfold insert_option.
    case_bool_decide as Hk; [done|]. apply eq_None_not_Some in Hk. destruct (0 <? _); [done|]. split; simpl; [done| |done].
    intros k' o Ho. rewrite lookup_insert_Some. split; [|naive_solver]. intros Hk'. right. split; [congruence|done]. }
  destruct (in_tx _ d) as [[[]|e] d1]; [|done]. rewrite bind_run. simpl in *. unfold or_fail. by destruct (ByID _ _ d1).
Qed.

(** ** The service *)

Definition same_polls (d d' : polldb) : Prop :=
  polls d' = polls d ∧ poll_options d' = poll_options d ∧ poll_votes d' = poll_votes d.
Inductive poll_step : polldb → polldb → Prop :=
| step_create now id ids i d : poll_step d (Create now id ids i d).2
| step_vote now p u os d : poll_step d (Vote now p u os d).2
| step_close now p u d : poll_step d (Close now p u d).2
| step_link d d' : same_polls d d' → poll_step d d'.

Lemma poll_step_tally d d' : poll_step d d' → tally d → tally d'.
Proof.
  intros [now id ids i d0|now p u os d0|now p u d0|d0 d1 (Hp & Ho & Hv)] Ht.
  - by apply Create_tally.
  - by apply Vote_tally.
  - by apply Close_tally.
  - destruct d0, d1. simpl in *. subst. destruct Ht. by split.
Qed.
Lemma poll_step_frozen d d' p r :
  poll_step d d' → tally d → polls d !! p = Some r → is_Some (p_closed_at r) → frozen p d d'.
Proof.
  intros [now id ids i d0|now q u os d0|now q u d0|d0 d1 (Hq & Ho & Hv)] Ht Hp Hc.
  - by eapply Create_frozen.
  - by eapply Vote_frozen.
  - by eapply Close_frozen.
  - split; [by rewrite Hq|by rewrite Ho|by rewrite Hv].
Qed.
Lemma poll_steps_tally d d' : rtc poll_step d d' → tally d → tally d'.
Proof. induction 1; eauto using poll_step_tally. Qed.
Lemma poll_steps_frozen d d' p r :
  rtc poll_step d d' → tally d → polls d !! p = Some r → is_Some (p_closed_at r) → frozen p d d'.
Proof.
  induction 1 as [d|d d1 d2 H1 H2 IH]; intros Ht Hp Hc; [done|].
  pose proof (poll_step_frozen _ _ _ _ H1 Ht Hp Hc) as Hf. etrans; [exact Hf|].
  apply IH; [by eapply poll_step_tally|by rewrite (frozen_poll _ _ _ Hf)|done].
Qed.

Section service.
Context `{SpamGuard G} `{MessageLimiter L} `{PayloadCodec}.

(** A request to the poll service. *)
Inductive poll_op :=
| OpCreate (now : time) (id new_id : uuid) (ids : nat → uuid) (before after : db → db) (i : CreateInput) (clientMessageID : uuid)
| OpVote (now : time) (pollID userID : uuid) (optionIDs : list uuid)
| OpClose (now : time) (pollID actorID : uuid)
| OpGet (pollID viewerID : uuid)
| OpVoters (pollID optionID : uuid).
Definition run_poll_op (o : poll_op) (w : poll_world G L) : poll_world G L :=
  match o with
  | OpCreate now id new_id ids before after i c => (Service_Create now id new_id ids before after i c w).2
  | OpVote now p u os => (Service_Vote now p u os w).2
  | OpClose now p u => (Service_Close now p u w).2
  | OpGet p u => (Service_Get p u w).2
  | OpVoters p o => (Service_Voters p o w).2
  end.
Definition run_poll_ops (l : list poll_op) (w : poll_world G L) : poll_world G L := foldl (λ w o, run_poll_op o w) w l.

Lemma poll_stmt_db {A} (m : prog polldb pollerr A) h (w : poll_world G L) :
  pw_db (poll_stmt m h w).2 = (m (pw_db w)).2.
Proof. unfold poll_stmt. by destruct (m (pw_db w)) as [[]]. Qed.
Lemma Service_Get_db p u (w : poll_world G L) : (Service_Get p u w).2 = w.
Proof.
  unfold Service_Get. rewrite bind_run. unfold poll_read, gets. cbn beta iota. rewrite bind_run.
  unfold or_fail. by destruct (ByID p u (pw_db w)).
Qed.
Lemma Service_Vote_run now p u os (w : poll_world G L) :
  Service_Vote now p u os w =
    if maxOptions <? Z.of_nat (length os)
    then (Err (WithField (Validation "Too many options selected") "option_ids" "at most 12 entries"), w)
    else match Vote now p u os (pw_db w) with
         | (Ok _, d) => Service_Get p u (MkPollWorld (pw_world w) d)
         | (Err e, d) => (Err (vote_error e), MkPollWorld (pw_world w) d)
         end.
Proof.
  unfold Service_Vote. rewrite bind_run. unfold fail_if. destruct (maxOptions <? _); [done|]. cbn beta iota.
  rewrite bind_run. unfold poll_stmt. by destruct (Vote now p u os (pw_db w)) as [[]].
Qed.

Lemma run_poll_op_steps o w : rtc poll_step (pw_db w) (pw_db (run_poll_op o w)).
Proof.
  destruct o as [now id new_id ids before after i c|now p u os|now p u|p u|p o]; simpl.
  - unfold Service_Create. rewrite bind_run. cbn beta iota. destruct (validate_poll now i) as [i'|e]; [|done].
    cbn beta iota. rewrite bind_run. unfold poll_stmt.
    assert (poll_step (pw_db w) (Create now id ids i' (pw_db w)).2) as Hstep by constructor.
    destruct (Create now id ids i' (pw_db w)) as [[p|e] d]; cbn beta iota; simpl in *; [|by apply rtc_once].
    etrans; [by apply rtc_once|]. rewrite bind_run. unfold in_messaging. simpl.
    destruct (Service_Send _ _ _ _ _ (pw_world w)) as [[m|e] w']; cbn beta iota; simpl; [|done].
    apply rtc_once. by apply step_link.
  - rewrite Service_Vote_run. destruct (maxOptions <? _); [done|].
    assert (poll_step (pw_db w) (Vote now p u os (pw_db w)).2) as Hstep by constructor.
    destruct (Vote now p u os (pw_db w)) as [[[]|e] d]; simpl in *; rewrite ?Service_Get_db; by apply rtc_once.
  - unfold Service_Close. rewrite poll_stmt_db. apply rtc_once. constructor.
  - by rewrite Service_Get_db.
  - unfold Service_Voters. rewrite poll_stmt_db. unfold Voters. rewrite bind_run. unfold gets at 1. cbn beta iota.
    rewrite bind_run. unfold or_fail. destruct (polls (pw_db w) !! p); [|done]. cbn beta iota. rewrite bind_run.
    unfold fail_if. by destruct (p_is_anonymous _).
Qed.
Lemma run_poll_ops_steps l w : rtc poll_step (pw_db w) (pw_db (run_poll_ops l w)).
Proof.
  revert w. induction l as [|o l IH]; intros w; [done|]. simpl. etrans; [apply run_poll_op_steps|apply IH].
Qed.

Definition no_polls : polldb := MkPollDb ∅ ∅ ∅ ∅.
Lemma no_polls_tally : tally no_polls.
Proof. split; simpl; intros *; rewrite ?lookup_empty; first [done|by intros []]. Qed.

(** C21: whatever sequence of requests the poll service has served, every option's stored
    counter is the number of votes cast for it, a poll's [total_voters] the number of
    distinct people who voted, every vote is for an option of its own poll, and nobody
    holds two votes in a single-choice poll; once a poll has been closed its row, its
    options with their counters and every vote in it are final. *)
Theorem polls_tally_and_close (ops1 ops2 : list poll_op) (w : poll_world G L) :
  pw_db w = no_polls →
  let d1 := pw_db (run_poll_ops ops1 w) in
  let d2 := pw_db (run_poll_ops ops2 (run_poll_ops ops1 w)) in
  tally d2 ∧
  ∀ p r, polls d1 !! p = Some r → is_Some (p_closed_at r) → frozen p d1 d2.
Proof.
  intros Hw. simpl.
  assert (tally (pw_db (run_poll_ops ops1 w))) as Ht1.
  { apply (poll_steps_tally (pw_db w)); [apply run_poll_ops_steps|rewrite Hw; apply no_polls_tally]. }
  split.
  - apply (poll_steps_tally (pw_db (run_poll_ops ops1 w))); [apply run_poll_ops_steps|exact Ht1].
  - intros p r Hp Hc. apply (poll_steps_frozen _ _ _ r); [apply run_poll_ops_steps|done..].
Qed.

(** What a ballot must satisfy. *)
Definition acceptable (now : time) (p : uuid) (os : list uuid) (d : polldb) : Prop :=
  ∃ r, polls d !! p = Some r ∧ poll_closed now r = false ∧
    (p_allows_multiple r = true ∨ (length os ≤ 1)%nat) ∧ Z.of_nat (length os) ≤ maxOptions ∧ NoDup os ∧
    ∀ k, k ∈ os → ∃ o, poll_options d !! k = Some o ∧ op_poll_id o = p.

Lemma Vote_accepts now p u os d :
  Z.of_nat (length os) ≤ maxOptions →
  (acceptable now p os d ∧ Vote now p u os d = (Ok (), cast now p u os d)) ∨
  (¬ acceptable now p os d ∧ ∃ e, Vote now p u os d = (Err e, d)).
Proof.
  intros Hmax. rewrite Vote_run. unfold acceptable. destruct (polls d !! p) as [r|] eqn:Hr;
    [|right; split; [by intros (? & ? & _)|by eexists]].
  destruct (poll_closed now r) eqn:Hc; [right; split; [intros (? & ? & ? & _); congruence|by eexists]|].
  destruct (negb (p_allows_multiple r) && (1 <? Z.of_nat (length os))) eqn:Hs.
  { apply andb_true_iff in Hs as [Hm%negb_true_iff Hl%Z.ltb_lt]. right. split; [|by eexists].
    intros (r' & Hr' & _ & [?|?] & _); [congruence|lia]. }
  destruct (valid_options p os d =? Z.of_nat (length os)) eqn:Hv; simpl.
  - apply Z.eqb_eq, valid_options_NoDup in Hv as [Hnd Hos]. left. split; [|done]. exists r. do 2 (split; [done|]).
    split; [|done]. destruct (p_allows_multiple r); [by left|right]. simpl in Hs. apply Z.ltb_ge in Hs. lia.
  - apply Z.eqb_neq in Hv. right. split; [|by eexists]. intros (_ & _ & _ & _ & _ & Hnd & Hos). apply Hv.
    by apply valid_options_intro.
Qed.

(** A vote is accepted exactly when the poll is open and the options named are
    distinct options of that poll, at most twelve and at most one when the poll is
    single-choice; it then replaces the voter's whole ballot by the given one (the empty
    ballot withdraws the vote), leaves every other ballot of every poll alone, and moves
    the counters by exactly the difference; a refused vote changes nothing.  Nothing
    requires the voter to be a member of the chat. *)
Lemma Vote_replaces_the_ballot now p u os (w : poll_world G L) :
  tally (pw_db w) →
  let '(res, w') := Service_Vote now p u os w in
  match res with
  | Err _ => ¬ acceptable now p os (pw_db w) ∧ w' = w
  | Ok poll =>
      acceptable now p os (pw_db w) ∧ pw_world w' = pw_world w ∧ po_MyVotes poll ≡ₚ os ∧
      (∀ o p' u', o ∈ ballot p' u' (pw_db w') ↔
         if decide (p' = p ∧ u' = u) then o ∈ os else o ∈ ballot p' u' (pw_db w)) ∧
      (∀ k, poll_options (pw_db w') !! k =
         (λ o, with_op_vote_count (op_vote_count o - b2z (bool_decide (k ∈ ballot p u (pw_db w)))
                                   + b2z (bool_decide (k ∈ os))) o) <$> poll_options (pw_db w) !! k) ∧
      (∀ q, polls (pw_db w') !! q =
         (λ r, if bool_decide (q = p)
               then with_p_total_voters (p_total_voters r - b2z (negb (bool_decide (ballot p u (pw_db w) = [])))
                                         + b2z (negb (bool_decide (os = [])))) r
               else r) <$> polls (pw_db w) !! q)
  end.
Proof.
  intros Ht. rewrite Service_Vote_run. destruct (maxOptions <? _) eqn:Hmax.
  { apply Z.ltb_lt in Hmax. split; [|done]. intros (r & _ & _ & _ & Hle & _). lia. }
  apply Z.ltb_ge in Hmax. destruct (Vote_accepts now p u os (pw_db w) Hmax) as [[Hacc ->]|[Hno [e ->]]];
    [|split; [done|by destruct w]].
  pose proof Hacc as (r & Hr & _ & _ & _ & Hnd & _).
  set (d := cast now p u os (pw_db w)). set (w1 := MkPollWorld (pw_world w) d).
  assert (ballot p u d ≡ₚ os) as Hballot.
  { apply NoDup_Permutation; [apply NoDup_ballot|done|]. intros o. unfold d. by rewrite ballot_cast, decide_True. }
  unfold Service_Get. rewrite bind_run. unfold poll_read, gets. cbn beta iota. rewrite bind_run.
  assert (∃ r', polls d !! p = Some r') as [r' Hr'] by (unfold d; rewrite polls_cast, Hr; by eexists).
  unfold ByID at 1. simpl. rewrite Hr'. simpl.
  split; [done|]. split; [done|]. split; [by case_match|]. split; [intros; apply ballot_cast|].
  split.
  - intros k. unfold d. rewrite poll_options_cast. destruct (poll_options (pw_db w) !! k) as [o|] eqn:Ho; [|done]. simpl.
    do 2 f_equal. case_bool_decide as Hin; simpl; [|lia]. pose proof (ballot_counted _ _ _ _ _ Ht Hin Ho). lia.
  - intros q. unfold d. rewrite polls_cast. destruct (polls (pw_db w) !! q) as [rq|] eqn:Hq; [|done]. simpl.
    case_bool_decide as Hqp; [|done]. subst q. do 2 f_equal.
    pose proof (tally_voters _ Ht _ _ Hq) as Hsize. pose proof (had_voted_true p u (pw_db w)) as Hhad.
    unfold had_voted in *. destruct (bool_decide (ballot p u (pw_db w) = [])); simpl in *.
    + case_bool_decide; simpl; lia.
    + assert (p_total_voters rq ≠ 0) as Hpos; [|case_bool_decide; simpl; lia].
      assert (u ∈ voters_of p (pw_db w)) as Hu by by apply Hhad.
      rewrite Hsize. intros Hz%(Nat2Z.inj _ 0)%size_empty_inv. set_solver.
Qed.
End service.

(** Blank options are dropped before the poll is stored and [correct_option] is not
    moved: it is checked, and kept, as an index into what is left. *)
Lemma quiz_answer_is_not_shifted now i i' :
  validate_poll now i = Ok i' →
  ci_CorrectOption i' = ci_CorrectOption i ∧ clean_options (ci_Options i) = Ok (ci_Options i').
Proof.
  unfold validate_poll. destruct (_ || _); [done|]. destruct (clean_options (ci_Options i)) as [l|e]; [|done].
  destruct ((_ <? _) || _); [done|]. destruct (ci_IsQuiz i && _); [done|].
  destruct (if ci_ClosesAt i is Some t then t <? now else false); [done|]. by intros [= <-].
Qed.
Example blank_option_moves_the_answer :
  let i := MkCreateInput 10 2 "Capital?" ["  "; "Tehran"; "Shiraz"; "Tabriz"]%string false false true (Some 1) None in
  match validate_poll 0 i with
  | Ok i' => nth_error (ci_Options i) 1 = Some "Tehran"%string ∧ nth_error (ci_Options i') 1 = Some "Shiraz"%string
             ∧ ci_CorrectOption i' = Some 1
  | Err _ => False
  end.
Proof. by vm_compute. Qed.

(** The poll is stored before the message is sent: a refused message leaves it behind. *)
Lemma refused_message_leaves_the_poll `{SpamGuard G} `{MessageLimiter L} `{PayloadCodec}
    now id new_id ids before after i i' c p d e (w : poll_world G L) w1 :
  validate_poll now i = Ok i' → Create now id ids i' (pw_db w) = (Ok p, d) →
  Service_Send now new_id before after (poll_message i' id c) (pw_world w) = (Err e, w1) →
  Service_Create now id new_id ids before after i c w = (Err e, MkPollWorld w1 d).
Proof.
  intros Hv Hc Hs. unfold Service_Create. rewrite bind_run. cbn beta iota. rewrite Hv. cbn beta iota.
  rewrite bind_run. unfold poll_stmt at 1. rewrite Hc. cbn beta iota. rewrite bind_run.
  unfold in_messaging at 1. simpl. by rewrite Hs.
Qed.
(** The message ends up with the poll stored last: publishing again under the same
    [client_message_id] finds the message sent before, and takes it from its poll. *)
Lemma last_poll_takes_the_message `{SpamGuard G} `{MessageLimiter L} `{PayloadCodec}
    now id new_id ids before after i c p (w w' : poll_world G L) :
  Service_Create now id new_id ids before after i c w = (Ok p, w') →
  ∃ m, po_MessageID p = Some m ∧ message_poll (pw_db w') !! m = Some id.
Proof.
  unfold Service_Create. rewrite bind_run. cbn beta iota. destruct (validate_poll now i) as [i'|e]; [|done].
  cbn beta iota. rewrite bind_run. destruct (poll_stmt _ _ w) as [[q|] w1]; [|done]. rewrite bind_run.
  destruct (in_messaging _ w1) as [[m|] w2]; [|done]. intros [= <- <-]. exists (mID m). simpl.
  by rewrite lookup_insert_eq.
Qed.

(** ** Concrete runs *)
#[local] Existing Instance toy_codec.

Definition poll_start : poll_world (gmap (string * string) Antispam.Score) limiter_state :=
  MkPollWorld sample_world no_polls.
Definition lunch : CreateInput :=
  MkCreateInput 10 2 "Lunch?" ["kebab"; " "; "pizza"; "salad"]%string false true false None None.
Definition lunch_ops : list poll_op :=
  [OpCreate minute 7 300 (λ k, 70 + N.of_nat k)%N sample_env sample_env lunch 81;
   OpVote (2 * minute) 7 2 [70; 72]%N; OpVote (2 * minute) 7 3 [70]%N; OpVote (3 * minute) 7 3 [71]%N].
Definition lunch_world := run_poll_ops lunch_ops poll_start.

Definition closing_ops : list poll_op := lunch_ops ++ [OpClose (4 * minute) 7 2].
Definition late_ops : list poll_op := [OpVote (5 * minute) 7 3 [70]%N].

Lemma polls_tally_and_close_witness :
  tally (pw_db (run_poll_ops late_ops (run_poll_ops closing_ops poll_start))) ∧
  (∃ r, polls (pw_db (run_poll_ops closing_ops poll_start)) !! 7%N = Some r ∧ p_total_voters r = 2) ∧
  frozen 7 (pw_db (run_poll_ops closing_ops poll_start))
    (pw_db (run_poll_ops late_ops (run_poll_ops closing_ops poll_start))).
Proof.
  assert (∃ r, polls (pw_db (run_poll_ops closing_ops poll_start)) !! 7%N = Some r ∧ p_total_voters r = 2 ∧
            p_closed_at r = Some (4 * minute)) as (r & Hr & Hn & Hc).
  { eexists. vm_compute. repeat split. }
  pose proof (polls_tally_and_close closing_ops late_ops poll_start eq_refl) as [Ht Hf].
  split; [exact Ht|]. split; [exists r; exact (conj Hr Hn)|].
  exact (Hf 7%N r Hr (mk_is_Some _ _ Hc)).
Defined.

Lemma Vote_replaces_the_ballot_witness : ∃ poll w',
  Service_Vote (3 * minute) 7 2 [71]%N lunch_world = (Ok poll, w') ∧ po_MyVotes poll ≡ₚ [71]%N.
Proof.
  assert (tally (pw_db lunch_world)) as Ht.
  { exact (poll_steps_tally (pw_db poll_start) (pw_db lunch_world) (run_poll_ops_steps lunch_ops poll_start) no_polls_tally). }
  pose proof (Vote_replaces_the_ballot (3 * minute) 7 2 [71]%N lunch_world Ht) as Hv.
  assert (is_Ok (Service_Vote (3 * minute) 7 2 [71]%N lunch_world).1 = true) as Hok by (vm_compute; reflexivity).
  destruct (Service_Vote (3 * minute) 7 2 [71]%N lunch_world) as [[poll|e] w']; [|discriminate Hok].
  exists poll, w'. split; [reflexivity|]. exact (proj1 (proj2 (proj2 Hv))).
Defined.
