(* ===== verification/Calls.v ===== *)
(** * Calls ([internal/calls/calls.go])

    Call signalling: the statements on [calls], [call_participants] and
    [call_sessions], and the handlers over them.  An SDP or ICE payload is its
    JSON text and is passed through; HMAC-SHA1 is a class.  [call_sessions] is
    keyed by its unique pair (call_sessions_participant_key).  A failing publish
    is only logged, so what is published is an output of the model. *)

From stdpp Require Import base tactics list gmap strings sorting relations.
From Stdlib Require Import ZArith Lia.
From S2P Require Import Prelude Pool GoString Httpx Permissions Store ChatContext EventLog Security.

Set Default Goal Selector "!".
Open Scope Z_scope.

(** ** Tables *)

Record call_row := MkCallRow {
  cl_chat_id : option uuid;
  cl_initiator_id : uuid;
  cl_type : string;
  cl_scope : string;
  cl_state : string;
  cl_end_reason : string;
  cl_max_participants : Z;
  cl_started_at : time;
  cl_connected_at : option time;
  cl_ended_at : option time;
  cl_duration_seconds : option Z;
}.
(** The columns the statements set. *)
Definition set_cl_phase (state reason : string) (connected ended : option time) (duration : option Z)
    (r : call_row) : call_row :=
  MkCallRow (cl_chat_id r) (cl_initiator_id r) (cl_type r) (cl_scope r) state reason (cl_max_participants r)
    (cl_started_at r) connected ended duration.

Record participant_row := MkParticipantRow {
  cp_state : string;
  cp_is_muted : bool;
  cp_video_enabled : bool;
  cp_screen_sharing : bool;
  cp_joined_at : option time;
  cp_left_at : option time;
}.
Definition set_cp_state (state : string) (joined left : option time) (p : participant_row) : participant_row :=
  MkParticipantRow state (cp_is_muted p) (cp_video_enabled p) (cp_screen_sharing p) joined left.

Record call_session_row := MkCallSessionRow {
  cs_device_id : option uuid;
  cs_ws_node : string;
  cs_network_type : string;
  cs_sdp_offer : option string;
  cs_sdp_answer : option string;
  cs_ice_candidates : list string;
  cs_created_at : time;
  cs_closed_at : option time;
}.

Record calldb := MkCallDb {
  cd_core : db;
  calls : gmap uuid call_row;
  call_participants : gmap (uuid * uuid) participant_row;
  call_sessions : gmap (uuid * uuid) call_session_row;
}.
Definition with_calls v (d : calldb) := MkCallDb (cd_core d) v (call_participants d) (call_sessions d).
Definition with_call_participants v (d : calldb) := MkCallDb (cd_core d) (calls d) v (call_sessions d).
Definition with_call_sessions v (d : calldb) := MkCallDb (cd_core d) (calls d) (call_participants d) v.

(** [calls.ErrNotFound] and the others *)
Inductive callerr := CallNotFound | ErrCallEnded | ErrCallFull | CallUnique (constraint : string).

(** ** Go structures *)

Record Participant := MkParticipant {
  pa_UserID : uuid;
  pa_DisplayName : string;
  pa_State : string;
  pa_IsMuted : bool;
  pa_VideoEnabled : bool;
  pa_ScreenSharing : bool;
  pa_JoinedAt : option time;
  pa_LeftAt : option time;
}.
Record Call := MkCall {
  ca_ID : uuid;
  ca_row : call_row;
  ca_Participants : list Participant;
}.
(** [calls.Session] *)
Record CallSession := MkCallSession {
  se_UserID : uuid;
  se_DeviceID : option uuid;
  se_Node : string;
  se_NetworkType : string;
  se_HasOffer : bool;
  se_HasAnswer : bool;
  se_CandidateCount : Z;
  se_CreatedAt : time;
  se_ClosedAt : option time;
}.
Record ICEServer := MkICEServer { URLs : list string; ice_Username : string; ice_Credential : string }.

(** ** Statements *)

(** [EXTRACT(EPOCH FROM d)::int]: to the nearest second, halves away from zero. *)
Definition epoch_int (d : Z) : Z :=
  if 0 <=? d then (2 * d + second) / (2 * second) else - ((2 * (- d) + second) / (2 * second)).
(** [state NOT IN ('ended', 'rejected', 'missed')] *)
Definition call_over (state : string) : bool := bool_decide (state ∈ ["ended"; "rejected"; "missed"]%string).

Definition insert_call (now : time) (id : uuid) (chatID : option uuid) (initiatorID : uuid) (callType scope : string)
    (maxParticipants : Z) : prog calldb callerr call_row := λ d,
  if bool_decide (is_Some (calls d !! id)) then (Err (CallUnique "calls_pkey"), d)
  else
    let r := MkCallRow chatID initiatorID callType scope "ringing" "" maxParticipants now None None None in
    (Ok r, with_calls (<[id := r]> (calls d)) d).
Definition insert_participant (id userID : uuid) (p : participant_row) : prog calldb callerr () := λ d,
  if bool_decide (is_Some (call_participants d !! (id, userID))) then (Err (CallUnique "call_participants_pkey"), d)
  else (Ok (), with_call_participants (<[(id, userID) := p]> (call_participants d)) d).
Definition invite (id userID : uuid) : prog calldb callerr () := modify (λ d,
  match call_participants d !! (id, userID) with
  | Some _ => d
  | None => with_call_participants
      (<[(id, userID) := MkParticipantRow "ringing" false false false None None]> (call_participants d)) d
  end).

Definition Create (now : time) (id : uuid) (chatID : option uuid) (initiatorID : uuid) (callType scope : string)
    (maxParticipants : Z) (invitees : list uuid) : prog calldb callerr Call :=
  in_tx (
    insert_call now id chatID initiatorID callType scope maxParticipants ≫= λ r,
    insert_participant id initiatorID (MkParticipantRow "joined" false false false (Some now) None) ≫= λ _,
    for_each invitees (λ invitee,
      if bool_decide (invitee = initiatorID) then mret () else invite id invitee) ≫= λ _,
    mret (MkCall id r [])).

Definition in_call (callID : uuid) (k : uuid * uuid) (_ : participant_row) : bool := bool_decide (k.1 = callID).
Definition Participants (callID : uuid) (d : calldb) : list Participant :=
  (λ kp, MkParticipant kp.1.2 (default ""%string (users (cd_core d) !! kp.1.2 ≫= u_display_name))
     (cp_state kp.2) (cp_is_muted kp.2) (cp_video_enabled kp.2) (cp_screen_sharing kp.2)
     (cp_joined_at kp.2) (cp_left_at kp.2)) <$> rows_where (in_call callID) (call_participants d).
Definition ByID (callID : uuid) (d : calldb) : option Call :=
  (λ r, MkCall callID r (Participants callID d)) <$> calls d !! callID.

(** The participants in a state of [states]. *)
Definition with_state (callID : uuid) (states : list string) (k : uuid * uuid) (p : participant_row) : bool :=
  in_call callID k p && bool_decide (cp_state p ∈ states).
Definition count_state (callID : uuid) (states : list string) (d : calldb) : Z :=
  count_where (with_state callID states) (call_participants d).

(** [Join]: the call's row is locked, and read as it is then, but the participants who
    have joined are counted in the snapshot [snap] the statement started with, before it
    waited for the lock. *)
Definition join_participant (now : time) (callID userID : uuid) (d : calldb) : calldb :=
  with_call_participants
    (<[(callID, userID) :=
       match call_participants d !! (callID, userID) with
       | Some p => set_cp_state "joined" (Some (default now (cp_joined_at p))) None p
       | None => MkParticipantRow "joined" false false false (Some now) None
       end]> (call_participants d)) d.
Definition activate (now : time) (callID : uuid) (d : calldb) : calldb :=
  with_calls (update_where (λ k _, bool_decide (k = callID))
    (λ _ r, set_cl_phase "active" (cl_end_reason r) (Some (default now (cl_connected_at r))) (cl_ended_at r)
              (cl_duration_seconds r) r) (calls d)) d.
Definition Join (snap : calldb) (now : time) (callID userID : uuid) : prog calldb callerr () :=
  in_tx (λ d,
    match calls snap !! callID ≫= λ _, calls d !! callID with
    | None => (Err CallNotFound, d)
    | Some c =>
        if call_over (cl_state c) then (Err ErrCallEnded, d)
        else if cl_max_participants c <=? count_state callID ["joined"]%string snap then (Err ErrCallFull, d)
        else
          let d := join_participant now callID userID d in
          (Ok (), if bool_decide (cl_state c = "ringing"%string) then activate now callID d else d)
    end).

(** Ending a call that is not over: [SetState], and the last statement of [Leave]. *)
Definition finish_call (now : time) (callID : uuid) (state reason : string) (d : calldb) : calldb :=
  with_calls (update_where (λ k r, bool_decide (k = callID) && negb (call_over (cl_state r)))
    (λ _ r, set_cl_phase state reason (cl_connected_at r) (Some now)
              (Some (match cl_connected_at r with Some t => epoch_int (now - t) | None => 0 end)) r)
    (calls d)) d.
Definition SetState (now : time) (callID : uuid) (state reason : string) : calldb → calldb :=
  finish_call now callID state reason.

(** The three statements of [Leave]. *)
Definition mark_left (now : time) (callID userID : uuid) (d : calldb) : calldb :=
  with_call_participants
    (update_where (λ k p, bool_decide (k = (callID, userID)) && negb (bool_decide (cp_state p = "left"%string)))
       (λ _ p, set_cp_state "left" (cp_joined_at p) (Some now) p) (call_participants d)) d.
Definition remaining (callID : uuid) (d : calldb) : Z := count_state callID ["joined"; "ringing"; "invited"]%string d.
Definition all_left : string := "all_participants_left".
Definition Leave (now : time) (callID userID : uuid) (d : calldb) : bool * calldb :=
  let d := mark_left now callID userID d in
  if 0 <? remaining callID d then (false, d)
  else (true, finish_call now callID "ended" all_left d).

Definition SetParticipantState (callID userID : uuid) (state : string) (d : calldb) : calldb :=
  with_call_participants
    (update_where (λ k _, bool_decide (k = (callID, userID)))
       (λ _ p, set_cp_state state (cp_joined_at p) (cp_left_at p) p) (call_participants d)) d.
Definition SetMedia (callID userID : uuid) (muted video screen : option bool) (d : calldb) : calldb :=
  with_call_participants
    (update_where (λ k _, bool_decide (k = (callID, userID)))
       (λ _ p, MkParticipantRow (cp_state p) (default (cp_is_muted p) muted) (default (cp_video_enabled p) video)
                 (default (cp_screen_sharing p) screen) (cp_joined_at p) (cp_left_at p)) (call_participants d)) d.
Definition IsParticipant (callID userID : uuid) (d : calldb) : bool :=
  bool_decide (is_Some (call_participants d !! (callID, userID))).

Definition History (userID : uuid) (limit : Z) (d : calldb) : list Call :=
  take (Z.to_nat limit) (order_by_desc (λ c, cl_started_at (ca_row c))
    ((λ kr, MkCall kr.1 kr.2 []) <$> rows_where (λ k _, IsParticipant k userID d) (calls d))).

Definition SignalOffer : string := "offer".
Definition SignalAnswer : string := "answer".
Definition SignalCandidate : string := "ice-candidate".

(** The row an [INSERT] proposes, and its merge into one that is there. *)
Definition signal_row (now : time) (deviceID : option uuid) (node signalType networkType payload : string)
    : call_session_row :=
  MkCallSessionRow deviceID node networkType
    (if bool_decide (signalType = "offer"%string) then Some payload else None)
    (if bool_decide (signalType = "answer"%string) then Some payload else None)
    (if bool_decide (signalType = "ice-candidate"%string) then [payload] else []) now None.
Definition coalesce {A} (x y : option A) : option A := if x is Some _ then x else y.
Definition merge_signal (new old : call_session_row) : call_session_row :=
  MkCallSessionRow (coalesce (cs_device_id new) (cs_device_id old)) (cs_ws_node new)
    (if bool_decide (cs_network_type new = ""%string) then cs_network_type old else cs_network_type new)
    (coalesce (cs_sdp_offer new) (cs_sdp_offer old)) (coalesce (cs_sdp_answer new) (cs_sdp_answer old))
    (cs_ice_candidates old ++ cs_ice_candidates new) (cs_created_at old) (cs_closed_at old).
Definition RecordSignal (now : time) (callID userID : uuid) (deviceID : option uuid)
    (node signalType networkType payload : string) (d : calldb) : calldb :=
  if bool_decide (signalType ∉ [SignalOffer; SignalAnswer; SignalCandidate]) then d
  else
    let new := signal_row now deviceID node signalType networkType payload in
    with_call_sessions
      (<[(callID, userID) := match call_sessions d !! (callID, userID) with
                             | Some old => merge_signal new old
                             | None => new
                             end]> (call_sessions d)) d.

Definition CloseSessions (now : time) (callID : uuid) (d : calldb) : calldb :=
  with_call_sessions
    (update_where (λ k s, bool_decide (k.1 = callID) && (if cs_closed_at s is None then true else false))
       (λ _ s, MkCallSessionRow (cs_device_id s) (cs_ws_node s) (cs_network_type s) (cs_sdp_offer s)
                 (cs_sdp_answer s) (cs_ice_candidates s) (cs_created_at s) (Some now)) (call_sessions d)) d.

Definition has {A} (x : option A) : bool := if x is Some _ then true else false.
Definition Sessions (callID : uuid) (d : calldb) : list CallSession :=
  order_by se_CreatedAt
    ((λ ks, MkCallSession ks.1.2 (cs_device_id ks.2) (cs_ws_node ks.2) (cs_network_type ks.2)
              (has (cs_sdp_offer ks.2)) (has (cs_sdp_answer ks.2))
              (Z.of_nat (length (cs_ice_candidates ks.2))) (cs_created_at ks.2) (cs_closed_at ks.2))
       <$> rows_where (λ k _, bool_decide (k.1 = callID)) (call_sessions d)).

(** ** The service *)

(** [config.Calls], and the node the service runs on *)
Record CallsConfig := MkCallsConfig {
  STUNServers : list string;
  TURNServers : list string;
  TURNSecret : string;
  TURNCredentialTTL : Z;
  MaxGroupParticipants : Z;
  nodeID : string;
}.

(** What is published to a user's subject. *)
Inductive call_event :=
| CallIncoming (call : Call) (from : uuid)
| CallAccepted (callID userID : uuid)
| CallRejected (callID userID : uuid)
| CallEnded (callID userID : uuid) (ended : bool)
| CallSignal (callID from : uuid) (signalType payload : string)
| CallMediaChanged (callID userID : uuid) (muted video screen : option bool).
Definition event_name (e : call_event) : string :=
  match e with
  | CallIncoming _ _ => "call.incoming"
  | CallAccepted _ _ => "call.accepted"
  | CallRejected _ _ => "call.rejected"
  | CallEnded _ _ _ => "call.ended"
  | CallSignal _ _ _ _ => "call.signal"
  | CallMediaChanged _ _ _ _ _ => "call.media_changed"
  end.

Record call_world := MkCallWorld { kw_db : calldb; kw_out : list (uuid * call_event) }.

Class Hmac_sha1 := { hmac_sha1 : list N → list N → list N }.
(** [base64.StdEncoding]: with padding. *)
Definition base64_std (bs : list N) : string :=
  let ds := base64_encode base64_std_digit bs in
  string_of (ds ++ replicate ((4 - length ds mod 4) mod 4) 61%N).

Section service.
Context (cfg : CallsConfig).

Abbreviation handler := (prog call_world Error) (only parsing).

Definition set_call_db (d : calldb) (w : call_world) : call_world := MkCallWorld d (kw_out w).
Definition call_stmt {A} (m : prog calldb callerr A) (h : callerr → Error) : handler A := λ w,
  match m (kw_db w) with
  | (Ok a, d) => (Ok a, set_call_db d w)
  | (Err e, d) => (Err (h e), set_call_db d w)
  end.
Definition call_core {A} (m : prog db dberr A) (h : dberr → Error) : handler A := λ w,
  match m (cd_core (kw_db w)) with
  | (Ok a, c) => (Ok a, set_call_db (MkCallDb c (calls (kw_db w)) (call_participants (kw_db w)) (call_sessions (kw_db w))) w)
  | (Err e, _) => (Err (h e), w)
  end.
Definition call_exec (f : calldb → calldb) : handler () := modify (λ w, set_call_db (f (kw_db w)) w).
Definition call_read {A} (f : calldb → A) : handler A := gets (λ w, f (kw_db w)).
Definition notify (userID : uuid) (e : call_event) : handler () :=
  modify (λ w, MkCallWorld (kw_db w) (kw_out w ++ [(userID, e)])).

Definition call_not_found : Error := NotFound CodeCallNotFound "Call not found".
Definition internal_call (_ : callerr) : Error := Internal.

(** Someone who is not in the call is told what a missing call is told. *)
Definition requireParticipant (callID userID : uuid) : handler () :=
  call_read (IsParticipant callID userID) ≫= λ ok, fail_if (negb ok) call_not_found.

Definition broadcast (c : Call) (e : call_event) (except : uuid) : handler () :=
  for_each (ca_Participants c) (λ p,
    if bool_decide (pa_UserID p = except) then mret () else notify (pa_UserID p) e).

Definition chat_lookup_error (e : dberr) : Error :=
  match e with ErrNotFound => NotFound CodeChatNotFound "Chat not found" | _ => Internal end.

Definition Start (now : time) (id chatID initiatorID : uuid) (callType : string) : handler Call :=
  fail_if (negb (bool_decide (callType = "voice"%string)) && negb (bool_decide (callType = "video"%string)))
    (WithField (Validation "Unsupported call type") "type" "must be voice or video") ≫= λ _,
  call_core (ChatContextFor chatID initiatorID) chat_lookup_error ≫= λ cx,
  fail_if (negb (ctx_is_member cx)) (Forbidden CodeNotChatMember "You are not a member of this chat") ≫= λ _,
  let direct := bool_decide (ctx_chat_type cx = ChatPrivate) in
  fail_if (negb direct && negb (ManageCalls (ctx_permissions cx)))
    (Forbidden CodePermissionDenied "You cannot start calls in this chat") ≫= λ _,
  call_read (λ d, ChatMemberIDs chatID (cd_core d)) ≫= λ members,
  call_stmt (Create now id (Some chatID) initiatorID callType (if direct then "direct" else "group")%string
    (MaxGroupParticipants cfg) members) internal_call ≫= λ call,
  for_each members (λ member,
    if bool_decide (member = initiatorID) then mret () else notify member (CallIncoming call initiatorID)) ≫= λ _,
  mret call.

Definition join_error (e : callerr) : Error :=
  match e with
  | CallNotFound => call_not_found
  | ErrCallEnded => Conflict CodeCallEnded "This call has already ended"
  | ErrCallFull => Forbidden CodeCallFull "This call is full"
  | CallUnique _ => Internal
  end.
(** [meanwhile] is what others commit while [Join] waits for the lock. *)
Definition Accept (meanwhile : calldb → calldb) (now : time) (callID userID : uuid) : handler Call :=
  requireParticipant callID userID ≫= λ _,
  call_read (λ d, d) ≫= λ snap,
  call_exec meanwhile ≫= λ _,
  call_stmt (Join snap now callID userID) join_error ≫= λ _,
  call_read (ByID callID) ≫= λ c, or_fail c Internal ≫= λ c,
  broadcast c (CallAccepted callID userID) userID ≫= λ _,
  mret c.

Definition is_direct (c : Call) : bool := bool_decide (cl_scope (ca_row c) = "direct"%string).
Definition Reject (now : time) (callID userID : uuid) : handler () :=
  requireParticipant callID userID ≫= λ _,
  call_read (ByID callID) ≫= λ c, or_fail c call_not_found ≫= λ c,
  call_exec (SetParticipantState callID userID "rejected") ≫= λ _,
  (if is_direct c then call_exec (SetState now callID "rejected" "declined") else mret ()) ≫= λ _,
  broadcast c (CallRejected callID userID) userID.

Definition End_ (now : time) (callID userID : uuid) (reason : string) : handler () :=
  requireParticipant callID userID ≫= λ _,
  call_read (ByID callID) ≫= λ c, or_fail c call_not_found ≫= λ c,
  (λ w, let '(ended, d) := Leave now callID userID (kw_db w) in (Ok ended, set_call_db d w)) ≫= λ ended : bool,
  (if is_direct c && negb ended
   then call_exec (SetState now callID "ended" reason) ≫= λ _, mret true else mret ended) ≫= λ ended : bool,
  (if ended then call_exec (CloseSessions now callID) else mret ()) ≫= λ _,
  broadcast c (CallEnded callID userID ended) uuid_nil.

Definition Signal (now : time) (callID fromUserID toUserID : uuid) (signalType networkType payload : string)
    : handler () :=
  requireParticipant callID fromUserID ≫= λ _,
  call_read (IsParticipant callID toUserID) ≫= λ ok,
  fail_if (negb ok) (NotFound CodeNotFound "That user is not in this call") ≫= λ _,
  call_exec (RecordSignal now callID fromUserID None (nodeID cfg) signalType networkType payload) ≫= λ _,
  notify toUserID (CallSignal callID fromUserID signalType payload).

Definition Service_Sessions (callID userID : uuid) : handler (list CallSession) :=
  requireParticipant callID userID ≫= λ _, call_read (Sessions callID).

Definition Service_SetMedia (callID userID : uuid) (muted video screen : option bool) : handler () :=
  requireParticipant callID userID ≫= λ _,
  call_exec (SetMedia callID userID muted video screen) ≫= λ _,
  call_read (ByID callID) ≫= λ c, or_fail c Internal ≫= λ c,
  broadcast c (CallMediaChanged callID userID muted video screen) userID.

Definition Service_History (userID : uuid) (limit : Z) : handler (list Call) :=
  call_read (History userID (if (limit <=? 0) || (200 <? limit) then 50 else limit)).

Definition Service_Get (callID userID : uuid) : handler Call :=
  requireParticipant callID userID ≫= λ _,
  call_read (ByID callID) ≫= λ c, or_fail c call_not_found.

(** The credential is an HMAC of the expiry and the user. *)
Definition ICEServers `{Hmac_sha1} (now : time) (userID : uuid) : list ICEServer :=
  (if bool_decide (STUNServers cfg = []) then [] else [MkICEServer (STUNServers cfg) "" ""]) ++
  (if negb (bool_decide (TURNServers cfg = [])) && negb (bool_decide (TURNSecret cfg = ""%string)) then
     let username := (Itoa ((now + TURNCredentialTTL cfg) / second) +:+ ":" +:+ uuid_String userID)%string in
     [MkICEServer (TURNServers cfg) username
        (base64_std (hmac_sha1 (bytes_of (TURNSecret cfg)) (bytes_of username)))]
   else []).
End service.

(** * The life of a call

    Every handler is a sequence of statements, and what the statements keep they
    keep in any interleaving: a call's phases, who may touch it.  Its capacity is kept
    only while nobody joins between another's count and that other's lock. *)

(** ** Statements *)

(** A statement that runs.  When [solo] holds a join counts who is there; otherwise its
    snapshot can be of any earlier moment (and is left open here). *)
Inductive call_step (solo : bool) : calldb → calldb → Prop :=
| step_create now id chat u ty scope cap invitees d c d' :
    1 ≤ cap → Create now id chat u ty scope cap invitees d = (Ok c, d') → call_step solo d d'
| step_join snap now k u d d' :
    (solo = true → count_state k ["joined"]%string snap = count_state k ["joined"]%string d) →
    Join snap now k u d = (Ok (), d') → call_step solo d d'
| step_mark_left now k u d : call_step solo d (mark_left now k u d)
| step_finish now k state reason d :
    call_over state = true → call_step solo d (finish_call now k state reason d)
| step_participant k u state d : state ≠ "joined"%string → call_step solo d (SetParticipantState k u state d)
| step_media k u m v s d : call_step solo d (SetMedia k u m v s d)
| step_other d d' :
    calls d' = calls d → call_participants d' = call_participants d → call_step solo d d'.

(** Ringing, then active, then over. *)
Definition call_rank (state : string) : Z :=
  if call_over state then 2 else if bool_decide (state = "ringing"%string) then 0 else 1.
(** How a call may change. *)
Record call_later (r r' : call_row) : Prop := {
  later_fixed : cl_chat_id r' = cl_chat_id r ∧ cl_initiator_id r' = cl_initiator_id r ∧ cl_type r' = cl_type r ∧
    cl_scope r' = cl_scope r ∧ cl_max_participants r' = cl_max_participants r ∧ cl_started_at r' = cl_started_at r;
  later_connected : ∀ t, cl_connected_at r = Some t → cl_connected_at r' = Some t;
  later_over : call_over (cl_state r) = true → r' = r;
  later_rank : call_rank (cl_state r) ≤ call_rank (cl_state r');
}.
#[export] Instance call_later_preorder : PreOrder call_later.
Proof.
  split.
  - intros r. by split.
  - intros r1 r2 r3 [F1 C1 O1 A1] [F2 C2 O2 A2]. split; [naive_solver congruence|auto|intros Ho|lia].
    specialize (O1 Ho). subst r2. auto.
Qed.


(** ** What a statement keeps *)

Definition calls_later (d d' : calldb) : Prop :=
  ∀ k r, calls d !! k = Some r → ∃ r', calls d' !! k = Some r' ∧ call_later r r'.
#[export] Instance calls_later_preorder : PreOrder calls_later.
Proof.
  split; [intros d k r Hk; by exists r|]. intros d1 d2 d3 H1 H2 k r Hk.
  destruct (H1 _ _ Hk) as (r2 & Hk2 & L1). destruct (H2 _ _ Hk2) as (r3 & Hk3 & L2).
  exists r3. split; [done|by etrans].
Qed.








(** ** Handlers are sequences of statements *)

Section steps.
Context {solo : bool}.
Definition steps {A} (m : prog call_world Error A) : Prop :=
  ∀ w, rtc (call_step solo) (kw_db w) (kw_db (m w).2).
Lemma steps_bind {A B} (m : prog call_world Error A) (f : A → prog call_world Error B) :
  steps m → (∀ a, steps (f a)) → steps (m ≫= f).
Proof.
  intros Hm Hf w. unfold mbind, prog_bind. specialize (Hm w). destruct (m w) as [[a|e] w']; [|done].
  etrans; [exact Hm|]. apply Hf.
Qed.
Lemma steps_quiet {A} (m : prog call_world Error A) : (∀ w, kw_db (m w).2 = kw_db w) → steps m.
Proof. intros Hm w. by rewrite Hm. Qed.
Lemma steps_for_each {A} (l : list A) (f : A → prog call_world Error ()) :
  (∀ a, steps (f a)) → steps (for_each l f).
Proof. intros Hf. induction l as [|a l IH]; [by apply steps_quiet|]. simpl. by apply steps_bind. Qed.
Lemma steps_ret {A} (a : A) : steps (mret a). Proof. by apply steps_quiet. Qed.
Lemma steps_fail_if b e : steps (fail_if b e). Proof. apply steps_quiet. intros w. unfold fail_if. by destruct b. Qed.
Lemma steps_or_fail {A} (o : option A) e : steps (or_fail o e). Proof. apply steps_quiet. intros w. unfold or_fail. by destruct o. Qed.
Lemma steps_read {A} (f : calldb → A) : steps (call_read f). Proof. by apply steps_quiet. Qed.
Lemma steps_notify u e : steps (notify u e). Proof. by apply steps_quiet. Qed.
Lemma steps_require k u : steps (requireParticipant k u).
Proof. apply steps_quiet. intros w. unfold requireParticipant, fail_if, mbind, prog_bind, call_read, gets. by destruct (negb _). Qed.
Lemma steps_core {A} (m : prog db dberr A) h : steps (call_core m h).
Proof. intros w. unfold call_core. destruct (m _) as [[a|e] c]; [|done]. by apply rtc_once, step_other. Qed.
Lemma steps_broadcast c e x : steps (broadcast c e x).
Proof. apply steps_for_each. intros p. case_bool_decide; [apply steps_ret|apply steps_notify]. Qed.
End steps.
#[local] Hint Resolve steps_ret steps_fail_if steps_or_fail steps_read steps_notify steps_require steps_core
  steps_broadcast : calls.
Ltac steps :=
  repeat match goal with
  | |- steps (_ ≫= _) => apply steps_bind; [|intros ?]
  | |- steps (if ?b then _ else _) => destruct b
  | |- steps (for_each _ _) => apply steps_for_each; intros ?
  | |- steps _ => solve [eauto with calls]
  end.

(** The requests, with what they mint and when. *)
Inductive call_op :=
| OpStart (now : time) (id chat user : uuid) (callType : string)
| OpAccept (meanwhile : calldb → calldb) (now : time) (call user : uuid)
| OpReject (now : time) (call user : uuid)
| OpEnd (now : time) (call user : uuid) (reason : string)
| OpSignal (now : time) (call from to : uuid) (signalType networkType payload : string)
| OpSetMedia (call user : uuid) (muted video screen : option bool).
Definition run_call_op (cfg : CallsConfig) (o : call_op) (w : call_world) : call_world :=
  match o with
  | OpStart now id chat user ty => (Start cfg now id chat user ty w).2
  | OpAccept meanwhile now call user => (Accept meanwhile now call user w).2
  | OpReject now call user => (Reject now call user w).2
  | OpEnd now call user reason => (End_ now call user reason w).2
  | OpSignal now call from to ty net payload => (Signal cfg now call from to ty net payload w).2
  | OpSetMedia call user m v s => (Service_SetMedia call user m v s w).2
  end.
(** The call a request is about, and who makes it. *)
Definition op_target (o : call_op) : option (uuid * uuid) :=
  match o with
  | OpStart _ _ _ _ _ => None
  | OpAccept _ _ c u | OpReject _ c u | OpEnd _ c u _ | OpSignal _ c u _ _ _ _ | OpSetMedia c u _ _ _ => Some (c, u)
  end.



(** ** Two people hang up at once

    [Leave] is a transaction: it marks its own participant, counts who is left among
    what has been committed and its own mark, and commits.  The rows two different
    users mark do not conflict. *)
Inductive leave_stage := LeaveStart | LeaveMarked | LeaveCounted (n : Z) | LeaveDone (ended : bool).
Record leave_thread := MkLeaveThread { lt_now : time; lt_call : uuid; lt_user : uuid; lt_stage : leave_stage }.
Definition leave_step (t : leave_thread) (d : calldb) : leave_thread * calldb :=
  let 'MkLeaveThread now k u s := t in
  let own := mark_left now k u d in
  match s with
  | LeaveStart => (MkLeaveThread now k u LeaveMarked, d)
  | LeaveMarked => (MkLeaveThread now k u (LeaveCounted (remaining k own)), d)
  | LeaveCounted n =>
      if 0 <? n then (MkLeaveThread now k u (LeaveDone false), own)
      else (MkLeaveThread now k u (LeaveDone true), finish_call now k "ended" all_left own)
  | LeaveDone _ => (t, d)
  end.
(** Alone, it is [Leave]. *)
Lemma leave_thread_alone now k u d :
  run_schedule leave_step (Thread <$> [0; 0; 0]%nat) ([MkLeaveThread now k u LeaveStart], d) =
    ([MkLeaveThread now k u (LeaveDone (Leave now k u d).1)], (Leave now k u d).2).
Proof. unfold run_schedule, Leave. simpl. by destruct (0 <? _). Qed.

(** Who is still in the call. *)
Definition present (p : participant_row) : bool := bool_decide (cp_state p ∈ ["joined"; "ringing"; "invited"]%string).
Lemma remaining_0 k d :
  remaining k d = 0 ↔ ∀ u p, call_participants d !! (k, u) = Some p → present p = false.
Proof.
  unfold remaining, count_state. rewrite count_where_0. split.
  - intros Hall u p Hp. specialize (Hall _ _ Hp). unfold with_state, in_call in Hall. simpl in Hall.
    by rewrite bool_decide_true in Hall.
  - intros Hall [k' u] p Hp. unfold with_state, in_call. simpl. case_bool_decide; [subst k'; by eapply Hall|done].
Qed.
Lemma mark_left_lookup now k u d k' :
  call_participants (mark_left now k u d) !! k' =
    (λ p, if bool_decide (k' = (k, u)) && negb (bool_decide (cp_state p = "left"%string))
          then set_cp_state "left" (cp_joined_at p) (Some now) p else p) <$> call_participants d !! k'.
Proof. unfold mark_left. simpl. by rewrite lookup_update_where. Qed.
Lemma mark_left_gone now k u d p :
  call_participants (mark_left now k u d) !! (k, u) = Some p → present p = false.
Proof.
  rewrite mark_left_lookup, bool_decide_true by done. simpl. intros (p0 & _ & ->)%fmap_Some.
  case_bool_decide as Hs; simpl; [|done]. unfold present. by rewrite Hs.
Qed.
Lemma mark_left_other now k u d k' p :
  call_participants (mark_left now k u d) !! k' = Some p → k' ≠ (k, u) → call_participants d !! k' = Some p.
Proof.
  rewrite mark_left_lookup. intros (p0 & Hp & ->)%fmap_Some Hne. by rewrite bool_decide_false.
Qed.
Lemma remaining_pos k u d p : call_participants d !! (k, u) = Some p → present p = true → 0 < remaining k d.
Proof.
  intros Hp Hpres. pose proof (count_where_nonneg (with_state k ["joined"; "ringing"; "invited"]%string) (call_participants d)).
  destruct (decide (remaining k d = 0)) as [Hz|Hnz]; [|unfold remaining, count_state in *; lia].
  exfalso. rewrite (proj1 (remaining_0 k d) Hz u p Hp) in Hpres. done.
Qed.
(** After both have left, nobody is there. *)
Lemma both_left now1 now2 k u v d :
  (∀ x p, call_participants d !! (k, x) = Some p → present p = true → x = u ∨ x = v) →
  remaining k (mark_left now2 k v (mark_left now1 k u d)) = 0.
Proof.
  intros Honly. apply remaining_0. intros x p Hp.
  destruct (decide (x = v)) as [->|Hv]; [by eapply mark_left_gone|].
  apply mark_left_other in Hp; [|congruence].
  destruct (decide (x = u)) as [->|Hu]; [by eapply mark_left_gone|].
  apply mark_left_other in Hp; [|congruence].
  destruct (present p) eqn:Hpres; [|done]. destruct (Honly x p Hp Hpres); congruence.
Qed.
Lemma leave_race now1 now2 k u v pu pv d :
  u ≠ v → call_participants d !! (k, u) = Some pu → present pu = true →
  call_participants d !! (k, v) = Some pv → present pv = true →
  run_schedule leave_step (Thread <$> [0; 1; 0; 1; 0; 1]%nat)
    ([MkLeaveThread now1 k u LeaveStart; MkLeaveThread now2 k v LeaveStart], d) =
  ([MkLeaveThread now1 k u (LeaveDone false); MkLeaveThread now2 k v (LeaveDone false)],
   mark_left now2 k v (mark_left now1 k u d)).
Proof.
  intros Hne Hu Hpu Hv Hpv.
  assert (0 < remaining k (mark_left now1 k u d)) as H1.
  { eapply (remaining_pos k v); [|exact Hpv]. rewrite mark_left_lookup, Hv. simpl. by rewrite bool_decide_false by congruence. }
  assert (0 < remaining k (mark_left now2 k v d)) as H2.
  { eapply (remaining_pos k u); [|exact Hpu]. rewrite mark_left_lookup, Hu. simpl. by rewrite bool_decide_false by congruence. }
  unfold run_schedule. simpl. rewrite (proj2 (Z.ltb_lt _ _) H1). simpl. by rewrite (proj2 (Z.ltb_lt _ _) H2).
Qed.


Lemma require_outsider {A} k u (f : () → prog call_world Error A) w :
  IsParticipant k u (kw_db w) = false → (requireParticipant k u ≫= f) w = (Err call_not_found, w).
Proof. intros Hout. unfold requireParticipant, mbind, prog_bind, call_read, gets, fail_if. by rewrite Hout. Qed.
Lemma require_insider {A} k u (f : () → prog call_world Error A) w :
  IsParticipant k u (kw_db w) = true → (requireParticipant k u ≫= f) w = f () w.
Proof. intros Hin. unfold requireParticipant, mbind, prog_bind, call_read, gets, fail_if. by rewrite Hin. Qed.

(** The error a request is answered with. *)
Definition error_of {A} (r : result Error A) : option Error := match r with Err e => Some e | Ok _ => None end.
Definition call_op_error (cfg : CallsConfig) (o : call_op) (w : call_world) : option Error :=
  match o with
  | OpStart now id chat user ty => error_of (Start cfg now id chat user ty w).1
  | OpAccept meanwhile now call user => error_of (Accept meanwhile now call user w).1
  | OpReject now call user => error_of (Reject now call user w).1
  | OpEnd now call user reason => error_of (End_ now call user reason w).1
  | OpSignal now call from to ty net payload => error_of (Signal cfg now call from to ty net payload w).1
  | OpSetMedia call user m v s => error_of (Service_SetMedia call user m v s w).1
  end.

(** C20: Someone who is not in a call cannot touch it, or tell that it exists.  Whatever they
    ask of a call (to join it, decline it, hang it up, signal to somebody in it, change
    media, read it or its sessions) they are told that there is no such call, the same
    answer as for an id that was never used, and nothing changes and nobody is
    notified. *)
Theorem outsiders_cannot_touch_a_call cfg k u w :
  IsParticipant k u (kw_db w) = false →
  (∀ o, op_target o = Some (k, u) → run_call_op cfg o w = w ∧ call_op_error cfg o w = Some call_not_found) ∧
  Service_Get k u w = (Err call_not_found, w) ∧ Service_Sessions k u w = (Err call_not_found, w).
Proof.
  intros Hout. split; [|split; by apply require_outsider].
  intros o Ho. destruct o; simpl in Ho; [done|injection Ho as -> ->..];
    unfold run_call_op, call_op_error, Accept, Reject, End_, Signal, Service_SetMedia; by rewrite require_outsider.
Qed.

(** What a broadcast publishes. *)
Definition addressed (l : list Participant) (e : call_event) (except : uuid) : list (uuid * call_event) :=
  (λ p, (pa_UserID p, e)) <$> filter (λ p, pa_UserID p ≠ except) l.
Lemma broadcast_run c e x w :
  broadcast c e x w = (Ok (), MkCallWorld (kw_db w) (kw_out w ++ addressed (ca_Participants c) e x)).
Proof.
  unfold broadcast, addressed. revert w. induction (ca_Participants c) as [|p l IH]; intros w; simpl.
  - rewrite app_nil_r. by destruct w.
  - rewrite bind_run, filter_cons. case_bool_decide as Hp; case_decide; try done; simpl; rewrite IH; simpl; [done|].
    by rewrite <-app_assoc.
Qed.
(** Everyone in the call but [except], once each. *)
Lemma addressed_participants k d e x :
  NoDup (addressed (Participants k d) e x).*1 ∧
  ∀ v e', (v, e') ∈ addressed (Participants k d) e x ↔ e' = e ∧ v ≠ x ∧ IsParticipant k v d = true.
Proof.
  unfold addressed, Participants. split.
  - rewrite <-list_fmap_compose. apply (NoDup_fmap_2_strong _).
    + intros p q (_ & ([[a1 b1] p1] & -> & [Hk1 Hin1]%elem_of_rows_where)%list_elem_of_fmap)%list_elem_of_filter
        (_ & ([[a2 b2] p2] & -> & [Hk2 Hin2]%elem_of_rows_where)%list_elem_of_fmap)%list_elem_of_filter Heq.
      unfold in_call in *. apply bool_decide_eq_true_1 in Hin1, Hin2. simpl in *. subst.
      assert (p1 = p2) as -> by congruence. done.
    + apply NoDup_filter. apply (NoDup_fmap_2_strong _); [|apply NoDup_rows_where].
      intros [[a1 b1] p1] [[a2 b2] p2] [Hk1 Hin1]%elem_of_rows_where [Hk2 Hin2]%elem_of_rows_where Heq.
      unfold in_call in *. apply bool_decide_eq_true_1 in Hin1, Hin2. simpl in *. injection Heq as ->. subst. congruence.
  - intros v e'. rewrite list_elem_of_fmap. unfold IsParticipant. rewrite bool_decide_eq_true. split.
    + intros (p & [= -> ->] & [Hx ([[a1 b1] p1] & -> & [Hk Hin]%elem_of_rows_where)%list_elem_of_fmap]%list_elem_of_filter).
      unfold in_call in Hin. apply bool_decide_eq_true_1 in Hin. simpl in *. subst a1. by eauto.
    + intros (-> & Hx & [p Hp]). eexists (MkParticipant v _ _ _ _ _ _ _). split; [done|].
      apply list_elem_of_filter. split; [done|]. apply list_elem_of_fmap. exists ((k, v), p). split; [reflexivity|].
      apply elem_of_rows_where. split; [done|]. unfold in_call. by apply bool_decide_eq_true_2.
Qed.

Lemma ByID_run k (w : call_world) r :
  calls (kw_db w) !! k = Some r → ByID k (kw_db w) = Some (MkCall k r (Participants k (kw_db w))).
Proof. intros Hr. unfold ByID. by rewrite Hr. Qed.

(** Accepting a call when no other commit comes in between. *)
Lemma Accept_alone now k u w :
  IsParticipant k u (kw_db w) = true →
  Accept id now k u w =
    (call_stmt (Join (kw_db w) now k u) join_error ≫= λ _,
     call_read (ByID k) ≫= λ c, or_fail c Internal ≫= λ c,
     broadcast c (CallAccepted k u) u ≫= λ _, mret c) w.
Proof.
  intros Hin. unfold Accept. rewrite require_insider by done.
  rewrite bind_run. unfold call_read at 1, gets at 1. cbn beta iota. rewrite bind_run. unfold call_exec, modify.
  cbn beta iota. by destruct w.
Qed.

(** What accepting a call answers and does when no other commit comes in between.  To somebody in the call: when it is over they
    are told so, when as many have joined as it takes they are told it is full, and nothing
    changes; otherwise they are joined, a ringing call becomes active and is connected
    from then on, nobody else's state changes, and everyone else in the call is told once.
    That goes for the initiator too: by accepting their own call they make it active
    before anyone has answered. *)
Lemma Accept_answers now k u w r :
  IsParticipant k u (kw_db w) = true → calls (kw_db w) !! k = Some r →
  let joined := count_state k ["joined"]%string (kw_db w) in
  (call_over (cl_state r) = true → Accept id now k u w = (Err (join_error ErrCallEnded), w)) ∧
  (call_over (cl_state r) = false → cl_max_participants r ≤ joined →
     Accept id now k u w = (Err (join_error ErrCallFull), w)) ∧
  (call_over (cl_state r) = false → joined < cl_max_participants r →
     ∃ c d' news, Accept id now k u w = (Ok c, MkCallWorld d' (kw_out w ++ news)) ∧
       (∃ p, call_participants d' !! (k, u) = Some p ∧ cp_state p = "joined"%string) ∧
       (∀ k', k' ≠ (k, u) → call_participants d' !! k' = call_participants (kw_db w) !! k') ∧
       (∃ r', calls d' !! k = Some r' ∧
          (if decide (cl_state r = "ringing"%string)
           then cl_state r' = "active"%string ∧ cl_connected_at r' = Some (default now (cl_connected_at r)) else r' = r)) ∧
       NoDup news.*1 ∧
       ∀ v e, (v, e) ∈ news ↔ e = CallAccepted k u ∧ v ≠ u ∧ IsParticipant k v (kw_db w) = true).
Proof.
  intros Hin Hr joined. rewrite Accept_alone, bind_run by done.
  assert (∀ e, Join (kw_db w) now k u (kw_db w) = (Err e, kw_db w) →
    call_stmt (Join (kw_db w) now k u) join_error w = (Err (join_error e), w)) as Herr.
  { intros e He. unfold call_stmt. rewrite He. by destruct w. }
  split_and!.
  - intros Hover. rewrite (Herr ErrCallEnded); [done|]. unfold Join, in_tx. rewrite Hr. simpl. by rewrite Hover.
  - intros Hover Hfull. rewrite (Herr ErrCallFull); [done|]. unfold Join, in_tx. rewrite Hr. simpl. rewrite Hover.
    by rewrite (proj2 (Z.leb_le _ _)).
  - intros Hover Hroom. set (dj := join_participant now k u (kw_db w)).
    set (d' := if bool_decide (cl_state r = "ringing"%string) then activate now k dj else dj).
    assert (call_stmt (Join (kw_db w) now k u) join_error w = (Ok (), MkCallWorld d' (kw_out w))) as ->.
    { unfold call_stmt, Join, in_tx. rewrite Hr. simpl. rewrite Hover, (proj2 (Z.leb_gt _ _)) by done. done. }
    assert (∃ r', calls d' !! k = Some r' ∧ (if decide (cl_state r = "ringing"%string)
      then cl_state r' = "active"%string ∧ cl_connected_at r' = Some (default now (cl_connected_at r)) else r' = r)) as (r' & Hr' & Hphase).
    { unfold d'. case_bool_decide as Hs; case_decide; try done; [|by exists r].
      unfold activate. simpl. rewrite lookup_update_where, Hr. simpl. rewrite bool_decide_true by done. by eexists. }
    assert (call_participants d' = call_participants dj) as Hp by (unfold d'; by case_bool_decide).
    cbn beta iota. rewrite bind_run. unfold call_read, gets. rewrite (ByID_run k (MkCallWorld d' (kw_out w)) r' Hr').
    cbn beta iota. rewrite bind_run. unfold or_fail. cbn beta iota. rewrite bind_run, broadcast_run. simpl.
    destruct (addressed_participants k d' (CallAccepted k u) u) as [Hnd Helem].
    eexists _, d', _. split; [reflexivity|]. rewrite Hp. split_and!; [| |by exists r'|done|].
    + eexists. unfold dj, join_participant. simpl. rewrite lookup_insert_eq. split; [reflexivity|].
      by destruct (call_participants (kw_db w) !! (k, u)).
    + intros k' Hk'. unfold dj, join_participant. simpl. by rewrite lookup_insert_ne.
    + intros v e. rewrite Helem. unfold IsParticipant. rewrite Hp. unfold dj, join_participant. simpl.
      destruct (decide (v = u)) as [->|Hv]; [naive_solver|]. by rewrite lookup_insert_ne by congruence.
Qed.

(** Finishing a call that is not over. *)
Lemma finish_call_lookup now k state reason d r :
  calls d !! k = Some r → call_over (cl_state r) = false →
  calls (finish_call now k state reason d) !! k =
    Some (set_cl_phase state reason (cl_connected_at r) (Some now)
      (Some (match cl_connected_at r with Some t => epoch_int (now - t) | None => 0 end)) r).
Proof.
  intros Hr Hover. unfold finish_call. simpl. rewrite lookup_update_where, Hr. simpl.
  by rewrite bool_decide_true, Hover.
Qed.

(** In a direct call, hanging up ends it and declining rejects it.  Either party hanging
    up ends a direct call that is not over, with the seconds since it was connected; every
    session of it is closed, and both parties are told.  Declining rejects it at
    once and tells the other party, but leaves the sessions open, although an open
    session is meant to be the mark of a call that never ended cleanly. *)
Lemma direct_call_ends now k u reason w r :
  IsParticipant k u (kw_db w) = true → calls (kw_db w) !! k = Some r →
  cl_scope r = "direct"%string → call_over (cl_state r) = false →
  let seconds := match cl_connected_at r with Some t => epoch_int (now - t) | None => 0 end in
  (∃ w' r', End_ now k u reason w = (Ok (), w') ∧
     calls (kw_db w') !! k = Some r' ∧ cl_state r' = "ended"%string ∧ cl_ended_at r' = Some now ∧
     cl_duration_seconds r' = Some seconds ∧
     (∀ v s, call_sessions (kw_db w') !! (k, v) = Some s → cs_closed_at s ≠ None) ∧
     (∀ v, IsParticipant k v (kw_db w) = true → v ≠ uuid_nil → (v, CallEnded k u true) ∈ kw_out w')) ∧
  (∃ w' r', Reject now k u w = (Ok (), w') ∧
     calls (kw_db w') !! k = Some r' ∧ cl_state r' = "rejected"%string ∧ cl_ended_at r' = Some now ∧
     cl_duration_seconds r' = Some seconds ∧ call_sessions (kw_db w') = call_sessions (kw_db w) ∧
     (∀ v, IsParticipant k v (kw_db w) = true → v ≠ u → (v, CallRejected k u) ∈ kw_out w')).
Proof.
  intros Hin Hr Hdirect Hover seconds. set (c := MkCall k r (Participants k (kw_db w))).
  assert (is_direct c = true) as Hd by by apply bool_decide_eq_true_2.
  assert (∀ e x v, IsParticipant k v (kw_db w) = true → v ≠ x → (v, e) ∈ addressed (ca_Participants c) e x) as Htold.
  { intros e x v Hv Hx. by apply (addressed_participants k (kw_db w) e x). }
  split.
  - unfold End_. rewrite require_insider, bind_run by done. unfold call_read at 1, gets. rewrite (ByID_run _ _ _ Hr). fold c.
    cbn beta iota. rewrite bind_run. unfold or_fail. cbn beta iota. rewrite bind_run.
    assert (∃ d1 r1, calls d1 !! k = Some r1 ∧ cl_state r1 = "ended"%string ∧ cl_ended_at r1 = Some now ∧
      cl_duration_seconds r1 = Some seconds ∧
      (let '(ended, d) := Leave now k u (kw_db w) in (Ok ended, set_call_db d w)) =
        (Ok (Leave now k u (kw_db w)).1, set_call_db (Leave now k u (kw_db w)).2 w) ∧
      ((if is_direct c && negb (Leave now k u (kw_db w)).1
        then call_exec (SetState now k "ended" reason) ≫= λ _, mret true
        else mret (Leave now k u (kw_db w)).1) (set_call_db (Leave now k u (kw_db w)).2 w) =
       (Ok true, set_call_db d1 w))) as (d1 & r1 & Hr1 & Hs1 & He1 & Hd1 & -> & Hfinish).
    { rewrite Hd. unfold Leave. destruct (0 <? remaining k (mark_left now k u (kw_db w))); simpl.
      - eexists (SetState now k "ended" reason (mark_left now k u (kw_db w))), _.
        split; [by apply finish_call_lookup|]. split_and!; done.
      - eexists (finish_call now k "ended" all_left (mark_left now k u (kw_db w))), _.
        split; [by apply finish_call_lookup|]. split_and!; done. }
    cbn beta iota. rewrite bind_run, Hfinish. cbn beta iota. rewrite bind_run. unfold call_exec at 1, modify. cbn beta iota.
    rewrite broadcast_run. simpl.
    eexists _, r1. split; [reflexivity|]. simpl. split_and!; [done..| |].
    + intros v s. rewrite lookup_update_where. intros (s0 & _ & ->)%fmap_Some. rewrite bool_decide_true by done. simpl.
      destruct (cs_closed_at s0) eqn:Hs0; simpl; [by rewrite Hs0|done].
    + intros v Hv Hnil. apply elem_of_app. right. by apply Htold.
  - unfold Reject. rewrite require_insider, bind_run by done. unfold call_read at 1, gets. rewrite (ByID_run _ _ _ Hr). fold c.
    cbn beta iota. rewrite bind_run. unfold or_fail. cbn beta iota. rewrite bind_run. unfold call_exec at 1, modify.
    cbn beta iota. rewrite bind_run, Hd. unfold call_exec, modify. cbn beta iota. rewrite broadcast_run. simpl. eexists _, _. split; [reflexivity|]. simpl.
    split; [by apply finish_call_lookup|]. split_and!; try done.
    intros v Hv Hu. apply elem_of_app. right. by apply Htold.
Qed.

(** A group call everybody has left can stay open for good.  A call is meant to be over
    when nobody is left in it, but only [Leave] looks, and it looks before it commits.
    When the last person present declines instead of hanging up, nobody is left and the
    call is as it was; and when the last two hang up at once, each still sees the other:
    both transactions commit, nobody is left, and neither has ended the call, although
    one after the other they would have. *)
Lemma deserted_group_call_stays_open now1 now2 k u v r w :
  calls (kw_db w) !! k = Some r → cl_scope r = "group"%string → call_over (cl_state r) = false →
  IsParticipant k u (kw_db w) = true →
  ((∀ x p, call_participants (kw_db w) !! (k, x) = Some p → present p = true → x = u) →
     ∃ w', Reject now1 k u w = (Ok (), w') ∧ remaining k (kw_db w') = 0 ∧ calls (kw_db w') = calls (kw_db w)) ∧
  (∀ pu pv, u ≠ v → call_participants (kw_db w) !! (k, u) = Some pu → present pu = true →
     call_participants (kw_db w) !! (k, v) = Some pv → present pv = true →
     (∀ x p, call_participants (kw_db w) !! (k, x) = Some p → present p = true → x = u ∨ x = v) →
     (∃ turns d', run_schedule leave_step (Thread <$> turns)
          ([MkLeaveThread now1 k u LeaveStart; MkLeaveThread now2 k v LeaveStart], kw_db w) =
          ([MkLeaveThread now1 k u (LeaveDone false); MkLeaveThread now2 k v (LeaveDone false)], d') ∧
        remaining k d' = 0 ∧ calls d' = calls (kw_db w)) ∧
     (Leave now2 k v (Leave now1 k u (kw_db w)).2).1 = true).
Proof.
  intros Hr Hgroup Hover Hin. split.
  - intros Honly. unfold Reject. rewrite require_insider, bind_run by done. unfold call_read at 1, gets.
    rewrite (ByID_run _ _ _ Hr). cbn beta iota. rewrite bind_run. unfold or_fail. cbn beta iota. rewrite bind_run.
    unfold call_exec at 1, modify. cbn beta iota. rewrite bind_run.
    assert (is_direct (MkCall k r (Participants k (kw_db w))) = false) as -> by (unfold is_direct; simpl; by rewrite Hgroup).
    cbn beta iota. unfold mret, prog_ret. rewrite broadcast_run.
    eexists. split; [reflexivity|]. simpl. split; [|done]. apply remaining_0. intros x p Hp.
    unfold SetParticipantState in Hp. simpl in Hp. rewrite lookup_update_where in Hp.
    apply fmap_Some in Hp as (p0 & Hp0 & ->). case_bool_decide as Hx; [done|].
    destruct (present p0) eqn:Hpres; [|done]. rewrite (Honly x p0 Hp0 Hpres) in Hx. done.
  - intros pu pv Hne Hu Hpu Hv Hpv Honly.
    pose proof (both_left now1 now2 k u v (kw_db w) Honly) as Hgone. split.
    + eexists _, _. split; [by apply (leave_race now1 now2 k u v pu pv)|]. by split.
    + unfold Leave at 2. destruct (0 <? remaining k (mark_left now1 k u (kw_db w))); simpl; unfold Leave.
      * by rewrite Hgone.
      * assert (remaining k (mark_left now2 k v (finish_call now1 k "ended" all_left (mark_left now1 k u (kw_db w)))) = 0) as ->;
          [exact Hgone|done].
Qed.

(** ** Witnesses *)

Definition sample_calls : CallsConfig := MkCallsConfig [] [] "" (24 * hour) 2 "node-1".
Definition no_calls : calldb := MkCallDb empty_db ∅ ∅ ∅.
(** A call of three that takes two: the first has placed it. *)
Definition placed (scope : string) : calldb := (Create (1000 * second) 7 (Some 3%N) 1 "video" scope 2 [1; 2; 4]%N no_calls).2.
Definition placed_world (scope : string) : call_world := MkCallWorld (placed scope) [].
Definition placed_row (scope : string) : call_row :=
  MkCallRow (Some 3%N) 1 "video" scope "ringing" "" 2 (1000 * second) None None None.
Lemma placed_call scope : calls (kw_db (placed_world scope)) !! 7%N = Some (placed_row scope).
Proof. reflexivity. Qed.

(** Two accepts that overlap: each counts before the other's join is there, and the call
    of two has three. *)
Example overlapping_accepts_overfill :
  let other := λ d, kw_db (Accept id (1010 * second) 7 4 (MkCallWorld d [])).2 in
  let d := kw_db (Accept other (1010 * second) 7 2 (placed_world "group")).2 in
  cl_max_participants (placed_row "group") = 2 ∧ count_state 7 ["joined"]%string d = 3.
Proof. split; vm_compute; reflexivity. Qed.

Lemma outsiders_cannot_touch_a_call_witness :
  Service_Get 7 9 (placed_world "group") = (Err call_not_found, placed_world "group").
Proof.
  assert (IsParticipant 7 9 (kw_db (placed_world "group")) = false) as Hout by reflexivity.
  exact (proj1 (proj2 (outsiders_cannot_touch_a_call sample_calls 7 9 (placed_world "group") Hout))).
Defined.
Lemma Accept_answers_witness : ∃ c d' news,
  Accept id (1010 * second) 7 2 (placed_world "group") = (Ok c, MkCallWorld d' news).
Proof.
  assert (IsParticipant 7 2 (kw_db (placed_world "group")) = true) as Hin by reflexivity.
  assert (call_over (cl_state (placed_row "group")) = false) as Hover by reflexivity.
  assert (count_state 7 ["joined"]%string (kw_db (placed_world "group")) < cl_max_participants (placed_row "group")) as Hroom
    by (vm_compute; reflexivity).
  destruct (proj2 (proj2 (Accept_answers (1010 * second) 7 2 (placed_world "group") _ Hin (placed_call "group"))) Hover Hroom)
    as (c & d' & news & Hrun & _).
  exists c, d', news. exact Hrun.
Defined.
Lemma direct_call_ends_witness : ∃ w', End_ (1020 * second) 7 2 "hangup" (placed_world "direct") = (Ok (), w').
Proof.
  assert (IsParticipant 7 2 (kw_db (placed_world "direct")) = true) as Hin by reflexivity.
  destruct (proj1 (direct_call_ends (1020 * second) 7 2 "hangup" (placed_world "direct") _ Hin (placed_call "direct") eq_refl eq_refl))
    as (w' & _ & Hrun & _).
  exists w'. exact Hrun.
Defined.

(** A group call of two, one of them still ringing. *)
Definition pair_world : call_world :=
  MkCallWorld (Create (1000 * second) 7 (Some 3%N) 1 "video" "group" 2 [1; 2]%N no_calls).2 [].
Lemma deserted_group_call_stays_open_witness : ∃ turns d',
  run_schedule leave_step (Thread <$> turns)
    ([MkLeaveThread (1010 * second) 7 1 LeaveStart; MkLeaveThread (1010 * second) 7 2 LeaveStart], kw_db pair_world) =
    ([MkLeaveThread (1010 * second) 7 1 (LeaveDone false); MkLeaveThread (1010 * second) 7 2 (LeaveDone false)], d') ∧
  remaining 7 d' = 0.
Proof.
  assert (calls (kw_db pair_world) !! 7%N = Some (placed_row "group")) as Hr by reflexivity.
  assert (IsParticipant 7 1 (kw_db pair_world) = true) as Hin by reflexivity.
  assert (∀ x p, call_participants (kw_db pair_world) !! (7%N, x) = Some p → present p = true → x = 1%N ∨ x = 2%N) as Honly.
  { intros x p Hp _.
    change (<[(7%N, 2%N) := MkParticipantRow "ringing" false false false None None]>
      (<[(7%N, 1%N) := MkParticipantRow "joined" false false false (Some (1000 * second)) None]>
        (∅ : gmap (uuid * uuid) participant_row)) !! (7%N, x) = Some p) in Hp.
    apply lookup_insert_Some in Hp as [[[= <-] _]|[_ Hp]]; [by right|].
    apply lookup_insert_Some in Hp as [[[= <-] _]|[_ Hp]]; [by left|]. by rewrite lookup_empty in Hp. }
  assert (1%N ≠ 2%N) as Hne by done.
  destruct (proj1 (proj2 (deserted_group_call_stays_open (1010 * second) (1010 * second) 7 1 2 _ pair_world Hr eq_refl eq_refl Hin)
    _ _ Hne eq_refl eq_refl eq_refl eq_refl Honly)) as (turns & d' & Hrun & Hgone & _).
  exists turns, d'. split; [exact Hrun|exact Hgone].
Defined.
