(* ===== verification/Roster.v ===== *)
(** * The roster: what group administration promises

    The abstract state of membership: for every chat its kind, its counters and
    whether it is live, and for every pair of a chat and a user the seat held.
    [roster_step] is what administration may do to it, [roster_ok] what must
    always hold, and [roster_of] reads a roster off the tables.  [GroupsTheory]
    proves that the service's handlers are such steps. *)

From stdpp Require Import base tactics list gmap strings relations.
From Stdlib Require Import ZArith Lia.
From S2P Require Import Prelude GoString Httpx Permissions Store ChatContext.

Set Default Goal Selector "!".
Open Scope Z_scope.

(** ** The abstract state *)
Record room := MkRoom {
  rm_type : string;
  rm_count : Z;
  rm_subscribers : option Z;
  rm_live : bool;
}.
Record seat := MkSeat {
  st_role : string;
  st_present : bool;
}.
Record roster := MkRoster {
  rooms : gmap uuid room;
  seats : gmap (uuid * uuid) seat;
}.

(** The counters move together; a subscriber counter only exists for a channel. *)
Definition room_add (delta : Z) (rm : room) : room :=
  MkRoom (rm_type rm) (Z.max 0 (rm_count rm + delta))
    (if bool_decide (rm_type rm = ChatChannel) then (λ n, Z.max 0 (n + delta)) <$> rm_subscribers rm
     else rm_subscribers rm) (rm_live rm).
Definition room_close (rm : room) : room :=
  MkRoom (rm_type rm) (rm_count rm) (rm_subscribers rm) false.

Definition seated (ch : uuid) (k : uuid * uuid) (s : seat) : bool :=
  bool_decide (k.1 = ch) && st_present s.
(** How many people sit in a chat. *)
Definition present (ch : uuid) (R : roster) : Z := count_where (seated ch) (seats R).

(** ** What administration does *)
Inductive roster_step (R : roster) : roster → Prop :=
| roster_open ch u type subs :
    rooms R !! ch = None →
    (type = ChatChannel → subs = Some 1) →
    roster_step R (MkRoster (<[ch := MkRoom type 1 subs true]> (rooms R))
      (<[(ch, u) := MkSeat RoleOwner true]> (seats R)))
| roster_join ch u rm role :
    rooms R !! ch = Some rm → rm_live rm = true →
    hits (seated ch) (seats R) (ch, u) = false →
    (role = RoleMember ∨ seats R !! (ch, u) = Some (MkSeat role false)) →
    roster_step R (MkRoster (<[ch := room_add 1 rm]> (rooms R))
      (<[(ch, u) := MkSeat role true]> (seats R)))
| roster_leave ch u rm role :
    rooms R !! ch = Some rm → seats R !! (ch, u) = Some (MkSeat role true) → role ≠ RoleOwner →
    roster_step R (MkRoster (<[ch := room_add (-1) rm]> (rooms R))
      (<[(ch, u) := MkSeat role false]> (seats R)))
| roster_leave_and_close ch u rm role :
    rooms R !! ch = Some rm → seats R !! (ch, u) = Some (MkSeat role true) →
    roster_step R (MkRoster (<[ch := room_close (room_add (-1) rm)]> (rooms R))
      (<[(ch, u) := MkSeat role false]> (seats R)))
| roster_role ch u old role :
    seats R !! (ch, u) = Some (MkSeat old true) → old ≠ RoleOwner → role ≠ RoleOwner →
    roster_step R (MkRoster (rooms R) (<[(ch, u) := MkSeat role true]> (seats R)))
| roster_transfer ch u v old :
    seats R !! (ch, u) = Some (MkSeat RoleOwner true) →
    seats R !! (ch, v) = Some (MkSeat old true) →
    roster_step R (MkRoster (rooms R)
      (<[(ch, v) := MkSeat RoleOwner true]> (<[(ch, u) := MkSeat RoleAdmin true]> (seats R))))
| roster_close ch rm :
    rooms R !! ch = Some rm →
    roster_step R (MkRoster (<[ch := room_close rm]> (rooms R)) (seats R)).

(** ** What must hold *)
Definition counters_exact (ch : uuid) (rm : room) (R : roster) : Prop :=
  rm_count rm = present ch R
  ∧ (rm_type rm = ChatChannel → ∀ n, rm_subscribers rm = Some n → n = present ch R).
Definition one_owner (ch : uuid) (R : roster) : Prop :=
  ∃ u, seats R !! (ch, u) = Some (MkSeat RoleOwner true)
    ∧ ∀ v s, seats R !! (ch, v) = Some s → st_role s = RoleOwner → v = u.
Definition administered (type : string) : Prop := type = ChatGroup ∨ type = ChatChannel.

Record roster_ok (R : roster) : Prop := {
  ok_known : ∀ ch u s, seats R !! (ch, u) = Some s → is_Some (rooms R !! ch);
  ok_counters : ∀ ch rm, rooms R !! ch = Some rm → counters_exact ch rm R;
  ok_owner : ∀ ch rm, rooms R !! ch = Some rm → rm_live rm = true → administered (rm_type rm) →
    one_owner ch R;
}.

(** ** Seats and counts *)
Section counts.
Implicit Types (R : roster) (S : gmap (uuid * uuid) seat).

Lemma present_insert ch ch' u s S rs :
  present ch' (MkRoster rs (<[(ch, u) := s]> S)) =
    count_where (seated ch') S
    - (if hits (seated ch') S (ch, u) then 1 else 0) + (if seated ch' (ch, u) s then 1 else 0).
Proof. unfold present. simpl. apply count_where_insert. Qed.

Lemma hits_seated_ne ch ch' u S : ch ≠ ch' → hits (seated ch') S (ch, u) = false.
Proof.
  intros Hne. unfold hits, seated. destruct (S !! (ch, u)); [|done]. simpl.
  by rewrite bool_decide_false.
Qed.

Lemma seated_eq ch u s : seated ch (ch, u) s = st_present s.
Proof. unfold seated. simpl. by rewrite bool_decide_true. Qed.
Lemma seated_ne ch ch' u s : ch ≠ ch' → seated ch' (ch, u) s = false.
Proof. intros. unfold seated. simpl. by rewrite bool_decide_false. Qed.

Lemma hits_seated_Some ch u s S : S !! (ch, u) = Some s → hits (seated ch) S (ch, u) = st_present s.
Proof. intros Hs. unfold hits. by rewrite Hs, seated_eq. Qed.

(** A new seat in another chat changes nothing here. *)
Lemma present_insert_other ch ch' u s R rs :
  ch ≠ ch' → present ch' (MkRoster rs (<[(ch, u) := s]> (seats R))) = present ch' R.
Proof.
  intros Hne. rewrite present_insert, hits_seated_ne, seated_ne by done. unfold present. lia.
Qed.

(** An exchange of seats in the same chat. *)
Lemma present_insert_here ch u s R rs :
  present ch (MkRoster rs (<[(ch, u) := s]> (seats R))) =
    present ch R - (if hits (seated ch) (seats R) (ch, u) then 1 else 0)
    + (if st_present s then 1 else 0).
Proof. rewrite present_insert, seated_eq. done. Qed.

Lemma present_none ch R : roster_ok R → rooms R !! ch = None → present ch R = 0.
Proof.
  intros Hok Hch. apply count_where_0. intros [ch' u] s Hs. unfold seated. simpl.
  case_bool_decide as Heq; [|done]. subst ch'.
  destruct (ok_known _ Hok _ _ _ Hs) as [rm Hrm]. by rewrite Hch in Hrm.
Qed.

Lemma present_pos ch u R role :
  seats R !! (ch, u) = Some (MkSeat role true) → 1 ≤ present ch R.
Proof.
  intros Hs.
  assert (present ch (MkRoster (rooms R) (<[(ch, u) := MkSeat role false]> (seats R))) = present ch R - 1) as Hp.
  { rewrite present_insert_here, (hits_seated_Some _ _ _ _ Hs). simpl. lia. }
  pose proof (count_where_nonneg (seated ch) (<[(ch, u) := MkSeat role false]> (seats R))) as Hnn.
  unfold present at 1 in Hp. simpl in Hp. lia.
Qed.

(** The counters follow one seat being taken or left. *)
Lemma counters_add delta ch rm R R' :
  counters_exact ch rm R → present ch R' = present ch R + delta → 0 ≤ present ch R' →
  counters_exact ch (room_add delta rm) R'.
Proof.
  intros [Hc Hs] Heq Hnn. split; simpl; [lia|]. intros Hty n. rewrite bool_decide_true by done.
  intros (n0 & Hn0 & ->)%fmap_Some. specialize (Hs Hty n0 Hn0). lia.
Qed.
Lemma counters_close ch rm R : counters_exact ch rm R → counters_exact ch (room_close rm) R.
Proof. done. Qed.
Lemma counters_present ch rm R R' :
  present ch R' = present ch R → counters_exact ch rm R → counters_exact ch rm R'.
Proof. intros Heq [Hc Hs]. split; rewrite Heq; auto. Qed.
End counts.

(** ** The steps keep it *)
Section preservation.
Context (R : roster) (HR : roster_ok R).

(** A change that stays inside one chat. *)
Lemma roster_ok_local ch rm S :
  (∀ k, k.1 ≠ ch → S !! k = seats R !! k) →
  counters_exact ch rm (MkRoster (<[ch := rm]> (rooms R)) S) →
  (rm_live rm = true → administered (rm_type rm) → one_owner ch (MkRoster (<[ch := rm]> (rooms R)) S)) →
  roster_ok (MkRoster (<[ch := rm]> (rooms R)) S).
Proof.
  intros Hother Hcount Howner. split.
  - intros ch' v s Hs. simpl in *. destruct (decide (ch = ch')) as [->|Hne].
    + rewrite lookup_insert_eq. eauto.
    + rewrite lookup_insert_ne by done. rewrite Hother in Hs by done. by eapply ok_known.
  - intros ch' rm' Hl. simpl in Hl. destruct (decide (ch = ch')) as [->|Hne].
    + rewrite lookup_insert_eq in Hl. by injection Hl as <-.
    + rewrite lookup_insert_ne in Hl by done.
      eapply counters_present, (ok_counters _ HR), Hl.
      apply count_where_ext. intros [c v]. simpl. destruct (decide (c = ch)) as [->|].
      * unfold seated. simpl. rewrite bool_decide_false by done.
        by destruct (S !! _), (seats R !! _).
      * by rewrite Hother.
  - intros ch' rm' Hl Hlive Hadm. simpl in Hl. destruct (decide (ch = ch')) as [->|Hne].
    + rewrite lookup_insert_eq in Hl. injection Hl as <-. auto.
    + rewrite lookup_insert_ne in Hl by done.
      destruct (ok_owner _ HR _ _ Hl Hlive Hadm) as (w & Hw & Huniq). exists w. simpl.
      split; [by rewrite Hother|]. intros v s. rewrite Hother by done. apply Huniq.
Qed.

Lemma one_owner_keep ch u s rs :
  st_role s ≠ RoleOwner → (∀ s0, seats R !! (ch, u) = Some s0 → st_present s0 = true → st_role s0 ≠ RoleOwner) →
  one_owner ch R → one_owner ch (MkRoster rs (<[(ch, u) := s]> (seats R))).
Proof.
  intros Hrole Hold (w & Hw & Huniq).
  assert (u ≠ w) as Hne by (intros ->; by apply (Hold _ Hw)).
  exists w. simpl. split; [by rewrite lookup_insert_ne by congruence|].
  intros v s'. destruct (decide (v = u)) as [->|Hvu].
  - rewrite lookup_insert_eq. by intros [= <-].
  - rewrite lookup_insert_ne by congruence. apply Huniq.
Qed.

(** In a live group or channel an absent seat is not the owner's. *)
Lemma absent_not_owner ch u role :
  one_owner ch R → seats R !! (ch, u) = Some (MkSeat role false) → role ≠ RoleOwner.
Proof.
  intros (w & Hw & Huniq) Hs ->. assert (u = w) as -> by by eapply Huniq. by rewrite Hw in Hs.
Qed.

Lemma seat_elsewhere (ch u : uuid) (s : seat) (S : gmap (uuid * uuid) seat) : (∀ k, k.1 ≠ ch → S !! k = seats R !! k) →
  ∀ k, k.1 ≠ ch → <[(ch, u) := s]> S !! k = seats R !! k.
Proof. intros HS k Hk. rewrite lookup_insert_ne by (intros <-; done). by apply HS. Qed.

Lemma roster_ok_open ch u type subs :
  rooms R !! ch = None → (type = ChatChannel → subs = Some 1) →
  roster_ok (MkRoster (<[ch := MkRoom type 1 subs true]> (rooms R))
    (<[(ch, u) := MkSeat RoleOwner true]> (seats R))).
Proof.
  intros Hch Hsubs.
  assert (∀ v, seats R !! (ch, v) = None) as Hnone.
  { intros v. destruct (seats R !! (ch, v)) eqn:Hs; [|done].
    destruct (ok_known _ HR _ _ _ Hs) as [? Hrm]. by rewrite Hch in Hrm. }
  assert (present ch (MkRoster (<[ch := MkRoom type 1 subs true]> (rooms R))
    (<[(ch, u) := MkSeat RoleOwner true]> (seats R))) = 1) as Hp.
  { rewrite present_insert_here, present_none by done. unfold hits. by rewrite Hnone. }
  apply roster_ok_local; [by apply seat_elsewhere|..].
  - split; rewrite Hp; [done|]. simpl. intros Hty n. rewrite (Hsubs Hty). congruence.
  - intros _ _. exists u. simpl. rewrite lookup_insert_eq. split; [done|]. intros v s.
    destruct (decide (v = u)) as [->|]; [done|]. rewrite lookup_insert_ne by congruence.
    by rewrite Hnone.
Qed.

Lemma roster_ok_join ch u rm role :
  rooms R !! ch = Some rm → rm_live rm = true → hits (seated ch) (seats R) (ch, u) = false →
  (role = RoleMember ∨ seats R !! (ch, u) = Some (MkSeat role false)) →
  roster_ok (MkRoster (<[ch := room_add 1 rm]> (rooms R)) (<[(ch, u) := MkSeat role true]> (seats R))).
Proof.
  intros Hch Hlive Hhits Hrole. apply roster_ok_local; [by apply seat_elsewhere|..].
  - eapply counters_add; [by apply (ok_counters _ HR)|..].
    + rewrite present_insert_here, Hhits. simpl. lia.
    + apply count_where_nonneg.
  - simpl. intros _ Hadm. pose proof (ok_owner _ HR _ _ Hch Hlive Hadm) as Hown.
    apply one_owner_keep; [|..|done].
    + simpl. destruct Hrole as [->|Hs]; [done|]. by eapply absent_not_owner.
    + intros s0 Hs0 Hpres. rewrite (hits_seated_Some _ _ _ _ Hs0), Hpres in Hhits. done.
Qed.

Lemma roster_ok_leave ch u rm rm' role :
  rooms R !! ch = Some rm → seats R !! (ch, u) = Some (MkSeat role true) →
  (rm' = room_add (-1) rm ∧ role ≠ RoleOwner) ∨ rm' = room_close (room_add (-1) rm) →
  roster_ok (MkRoster (<[ch := rm']> (rooms R)) (<[(ch, u) := MkSeat role false]> (seats R))).
Proof.
  intros Hch Hs Hrm. apply roster_ok_local; [by apply seat_elsewhere|..].
  - assert (counters_exact ch (room_add (-1) rm) (MkRoster (<[ch := rm']> (rooms R))
      (<[(ch, u) := MkSeat role false]> (seats R)))) as Hc.
    { eapply counters_add; [by apply (ok_counters _ HR)|..].
      - rewrite present_insert_here, (hits_seated_Some _ _ _ _ Hs). simpl. lia.
      - apply count_where_nonneg. }
    destruct Hrm as [[-> _]| ->]; exact Hc.
  - destruct Hrm as [[-> Hrole]| ->]; [|done]. simpl. intros Hlive Hadm.
    apply one_owner_keep; [done|..|by eapply ok_owner].
    intros s0 Hs0. rewrite Hs in Hs0. by injection Hs0 as <-.
Qed.

Lemma roster_ok_role ch u old role :
  seats R !! (ch, u) = Some (MkSeat old true) → old ≠ RoleOwner → role ≠ RoleOwner →
  roster_ok (MkRoster (rooms R) (<[(ch, u) := MkSeat role true]> (seats R))).
Proof.
  intros Hs Hold Hrole. destruct (ok_known _ HR _ _ _ Hs) as [rm Hrm].
  rewrite <-(insert_id (rooms R) ch rm) by done. apply roster_ok_local; [by apply seat_elsewhere|..].
  - eapply counters_present, (ok_counters _ HR), Hrm.
    rewrite present_insert_here, (hits_seated_Some _ _ _ _ Hs). simpl. lia.
  - intros Hlive Hadm. apply one_owner_keep; [done|..|by eapply ok_owner].
    intros s0 Hs0. rewrite Hs in Hs0. by injection Hs0 as <-.
Qed.

Lemma roster_ok_transfer ch u v old :
  seats R !! (ch, u) = Some (MkSeat RoleOwner true) → seats R !! (ch, v) = Some (MkSeat old true) →
  roster_ok (MkRoster (rooms R)
    (<[(ch, v) := MkSeat RoleOwner true]> (<[(ch, u) := MkSeat RoleAdmin true]> (seats R)))).
Proof.
  intros Hu Hv. destruct (ok_known _ HR _ _ _ Hu) as [rm Hrm].
  rewrite <-(insert_id (rooms R) ch rm) by done.
  apply roster_ok_local; [by repeat apply seat_elsewhere|..].
  - eapply counters_present, (ok_counters _ HR), Hrm.
    unfold present. simpl. rewrite !count_where_insert, !seated_eq, (hits_seated_Some _ _ _ _ Hu). simpl.
    assert (hits (seated ch) (<[(ch, u) := MkSeat RoleAdmin true]> (seats R)) (ch, v) = true) as ->; [|lia].
    unfold hits. destruct (decide (u = v)) as [->|].
    + by rewrite lookup_insert_eq, seated_eq.
    + by rewrite lookup_insert_ne, Hv, seated_eq by congruence.
  - intros Hlive Hadm. destruct (ok_owner _ HR _ _ Hrm Hlive Hadm) as (w & Hw & Huniq).
    assert (u = w) as -> by by eapply Huniq.
    exists v. simpl. rewrite lookup_insert_eq. split; [done|]. intros x s.
    destruct (decide (x = v)) as [->|]; [done|]. rewrite lookup_insert_ne by congruence.
    destruct (decide (x = w)) as [->|].
    + rewrite lookup_insert_eq. by intros [= <-].
    + rewrite lookup_insert_ne by congruence. intros Hs Hr. by destruct (Huniq _ _ Hs Hr).
Qed.

Lemma roster_ok_close ch rm :
  rooms R !! ch = Some rm → roster_ok (MkRoster (<[ch := room_close rm]> (rooms R)) (seats R)).
Proof.
  intros Hrm. apply roster_ok_local; [done|..|done].
  apply counters_close. eapply counters_present, (ok_counters _ HR), Hrm. done.
Qed.

Lemma roster_step_ok R' : roster_step R R' → roster_ok R'.
Proof.
  destruct 1; eauto using roster_ok_open, roster_ok_join, roster_ok_role, roster_ok_transfer,
    roster_ok_close.
  - eapply roster_ok_leave; eauto.
  - eapply roster_ok_leave; eauto.
Qed.
End preservation.

Lemma roster_steps_ok R R' : rtc roster_step R R' → roster_ok R → roster_ok R'.
Proof. induction 1; eauto using roster_step_ok. Qed.
Lemma roster_ok_empty : roster_ok (MkRoster ∅ ∅).
Proof. split; intros *; simpl; by rewrite lookup_empty. Qed.

(** ** Reading a roster off the tables *)
Definition is_none {A} (o : option A) : bool := if o is None then true else false.
Definition room_of (d : db) (ch : uuid) (c : chat_row) : room :=
  MkRoom (c_type c) (c_member_count c) (ch_subscriber_count <$> channels d !! ch) (is_none (c_deleted_at c)).
Definition seat_of (m : member_row) : seat := MkSeat (m_role m) (is_none (m_left_at m)).
Definition roster_of (d : db) : roster :=
  MkRoster (map_imap (λ ch c, Some (room_of d ch c)) (chats d)) (seat_of <$> chat_members d).

Lemma lookup_rooms d ch : rooms (roster_of d) !! ch = room_of d ch <$> chats d !! ch.
Proof. unfold roster_of. simpl. rewrite map_lookup_imap. by destruct (chats d !! ch). Qed.
Lemma lookup_seats d k : seats (roster_of d) !! k = seat_of <$> chat_members d !! k.
Proof. unfold roster_of. simpl. apply lookup_fmap. Qed.

(** From here on a roster is known by its lookups. *)
#[global] Opaque roster_of.

Lemma roster_eq (R R' : roster) :
  (∀ ch, rooms R !! ch = rooms R' !! ch) → (∀ k, seats R !! k = seats R' !! k) → R = R'.
Proof. destruct R, R'. simpl. intros Hr Hs. f_equal; by apply map_eq. Qed.

(** People present, counted in the membership table. *)
Lemma present_roster_of ch d :
  present ch (roster_of d) =
    count_where (λ k m, bool_decide (k.1 = ch) && is_none (m_left_at m)) (chat_members d).
Proof.
  apply count_where_ext. intros k. rewrite lookup_seats. by destruct (chat_members d !! k).
Qed.
