(* ===== verification/GroupsRepo.v ===== *)
(** * The group repository ([internal/groups/repository.go], [roles.go])

    One definition per method, over the tables of [Store].  [now] is the
    statement's [now()]; ids and slugs the database or the token generator mints
    are arguments. *)

From stdpp Require Import base tactics list gmap strings sorting.
From Stdlib Require Import ZArith Ascii String Lia.
From S2P Require Import Prelude GoString Httpx Permissions Store ChatContext MessageRepo.

Set Default Goal Selector "!".
Open Scope Z_scope.

(** The package's sentinel errors; [GDatabase] is any other error, wrapped. *)
Inductive grouperr :=
| GNotFound
| GNotMember
| GAlreadyMember
| GChatFull
| GUsernameTaken
| GStickerSetNotFound
| GRoleNotFound
| GRoleTaken
| GTooManyRoles
| GDatabase (e : dberr).

#[export] Instance grouperr_eq_dec : EqDecision grouperr.
Proof. solve_decision. Defined.

(** ** Column types *)

(** [CITEXT] equality, on the ASCII strings the pattern-checked columns hold. *)
Definition lower_ascii (s : string) : string :=
  string_of ((λ b, if in_range 65 90 b then (b + 32)%N else b) <$> bytes_of s).
Definition citext_eqb (a b : string) : bool := bool_decide (lower_ascii a = lower_ascii b).

(** [INT] *)
Definition in_int4 (z : Z) : bool := (- 2 ^ 31 <=? z) && (z <? 2 ^ 31).

(** [CHECK (role IN (...))] *)
Definition valid_role (role : string) : bool :=
  bool_decide (role ∈ [RoleOwner; RoleAdmin; RoleModerator; RoleMember; RoleRestricted]).
(** [CHECK (type IN (...))] *)
Definition valid_chat_type (type : string) : bool :=
  bool_decide (type ∈ [ChatPrivate; ChatGroup; ChatChannel; ChatSecret]).

(** [chats_username_key]: the name is held by another live chat. *)
Definition username_held (self : uuid) (username : option string) (d : db) : bool :=
  match username with
  | None => false
  | Some u => negb (count_where (λ id c,
      bool_decide (id ≠ self) && (if c_deleted_at c is None then true else false)
      && (if c_username c is Some u' then citext_eqb u u' else false)) (chats d) =? 0)
  end.

(** [COALESCE($n, column)] *)
Definition coalesce {A} (v : option A) (old : A) : A := default old v.
Definition coalesce_null {A} (v : option A) (old : option A) : option A :=
  match v with Some _ => v | None => old end.

(** [permissionsJSON] and [defaultPermissionsJSON] *)
Definition permissionsJSON (permissions : gmap string bool) : json :=
  if bool_decide (permissions = ∅) then JObj [] else encode_bool_map permissions.
Definition defaultPermissionsJSON (permissions : gmap string bool) : json :=
  if bool_decide (permissions = ∅) then JObj [] else encode_bool_map permissions.

(** ** Chats and membership *)

Definition group_chat_row (now : time) (chatType title description : string) (ownerID : uuid)
    (isPublic : bool) (username : option string) : chat_row :=
  MkChat chatType title description None username (Some ownerID) 0 None None 1 isPublic now None.

Definition insert_group_chat (id : uuid) (c : chat_row) : prog db grouperr () := λ d,
  if negb (valid_chat_type (c_type c)) then (Err (GDatabase (ErrCheck "chats_type_check")), d)
  else if username_held id (c_username c) d then (Err GUsernameTaken, d)
  else map_err GDatabase (insert_chat id c) d.

(** The extension row. *)
Definition insert_extension (chatID : uuid) (chatType : string) : prog db grouperr () := λ d,
  if bool_decide (chatType = ChatGroup) then
    (Ok (), with_groups (<[chatID := MkGroup false false "" None]> (groups d)) d)
  else if bool_decide (chatType = ChatChannel) then
    (Ok (), with_channels (<[chatID := MkChannel 1 false true None]> (channels d)) d)
  else (Ok (), d).

Definition CreateChat (now : time) (new_id : uuid) (chatType title description : string)
    (ownerID : uuid) (isPublic : bool) (username : option string) : prog db grouperr uuid :=
  in_tx (
    insert_group_chat new_id (group_chat_row now chatType title description ownerID isPublic username);;
    map_err GDatabase (insert_member new_id ownerID (new_member_row now RoleOwner));;
    map_err GDatabase (insert_settings new_id 200000);;
    insert_extension new_id chatType;;
    mret new_id).

(** The denormalised counters. *)
Definition bumpMemberCount (now : time) (chatID : uuid) (chatType : string) (delta : Z)
    : prog db grouperr () :=
  modify (λ d, with_chats (update_where (λ id _, bool_decide (id = chatID))
    (λ _ c, with_c_updated_at now (with_c_member_count (Z.max 0 (c_member_count c + delta)) c))
    (chats d)) d);;
  if bool_decide (chatType = ChatChannel) then
    modify (λ d, with_channels (update_where (λ id _, bool_decide (id = chatID))
      (λ _ c, with_ch_subscriber_count (Z.max 0 (ch_subscriber_count c + delta)) c)
      (channels d)) d)
  else mret ().

(** [INSERT ... ON CONFLICT (chat_id, user_id) DO UPDATE ... WHERE left_at IS NOT NULL] *)
Definition reinstate (now : time) (role : string) (m : member_row) : member_row :=
  with_m_left_at None (with_m_role role (with_m_joined_at now m)).
Definition upsert_member (now : time) (chatID userID : uuid) (role : string)
    (invitedBy : option uuid) : prog db grouperr () := λ d,
  if negb (valid_role role) then (Err (GDatabase (ErrCheck "chat_members_role_check")), d)
  else
    let put m := with_chat_members (<[(chatID, userID) := m]> (chat_members d)) d in
    match chat_members d !! (chatID, userID) with
    | None => (Ok (), put (with_m_invited_by invitedBy (new_member_row now role)))
    | Some m =>
        if m_left_at m is None then (Err GAlreadyMember, d)
        else (Ok (), put (reinstate now role m))
    end.

Definition max_members_of (chatID : uuid) (d : db) : Z :=
  from_option s_max_members 200000 (chat_settings d !! chatID).

Definition AddMember (now : time) (chatID userID : uuid) (role : string) (invitedBy : option uuid)
    : prog db grouperr () :=
  in_tx (
    d ← gets id;
    c ← or_fail (live_chat d chatID) GNotFound;
    fail_if (max_members_of chatID d <=? c_member_count c) GChatFull;;
    upsert_member now chatID userID role invitedBy;;
    bumpMemberCount now chatID (c_type c) 1).

(** An update of one member's row where [left_at IS NULL]; no row is [e]. *)
Definition update_member (chatID userID : uuid) (P : member_row → bool) (f : member_row → member_row)
    (e : grouperr) : prog db grouperr () := λ d,
  match active_member d chatID userID with
  | Some m =>
      if P m then (Ok (), with_chat_members (<[(chatID, userID) := f m]> (chat_members d)) d)
      else (Err e, d)
  | None => (Err e, d)
  end.

Definition RemoveMember (now : time) (chatID userID : uuid) : prog db grouperr () :=
  in_tx (
    d ← gets id;
    c ← or_fail (chats d !! chatID) GNotFound;
    update_member chatID userID (λ _, true) (with_m_left_at (Some now)) GNotMember;;
    bumpMemberCount now chatID (c_type c) (-1)).

Definition SetRole (chatID userID : uuid) (role : string) (permissions : gmap string bool)
    (customTitle : string) : prog db grouperr () :=
  let rawdoc := if bool_decide (permissions = ∅) then None else Some (encode_bool_map permissions) in
  d ← gets id;
  fail_if (bool_decide (is_Some (active_member d chatID userID)) && negb (valid_role role))
    (GDatabase (ErrCheck "chat_members_role_check"));;
  update_member chatID userID (λ _, true)
    (λ m, with_m_custom_title customTitle (with_m_permissions rawdoc (with_m_role role m))) GNotMember.

Definition TransferOwnership (chatID fromUserID toUserID : uuid) : prog db grouperr () :=
  in_tx (
    update_member chatID fromUserID (λ m, bool_decide (m_role m = RoleOwner)) (with_m_role RoleAdmin)
      GNotFound;;
    update_member chatID toUserID (λ _, true)
      (λ m, with_m_permissions None (with_m_role RoleOwner m)) GNotMember).

(** [Member], the row of a member list *)
Record Member := MkMemberView {
  mv_UserID : uuid;
  mv_DisplayName : string;
  mv_Username : option string;
  mv_AvatarID : option uuid;
  mv_Role : string;
  mv_CustomTitle : string;
  mv_JoinedAt : time;
  mv_InvitedBy : option uuid;
}.

Definition role_order (role : string) : Z :=
  if bool_decide (role = RoleOwner) then 0
  else if bool_decide (role = RoleAdmin) then 1
  else if bool_decide (role = RoleModerator) then 2 else 3.
(** [ORDER BY CASE m.role ... END, m.joined_at] *)
Definition member_le (a b : Member) : Prop :=
  role_order (mv_Role a) < role_order (mv_Role b)
  ∨ (role_order (mv_Role a) = role_order (mv_Role b) ∧ mv_JoinedAt a ≤ mv_JoinedAt b).
#[export] Instance member_le_dec a b : Decision (member_le a b).
Proof. unfold member_le. apply _. Defined.

Definition member_view (d : db) (kv : (uuid * uuid) * member_row) : option Member :=
  u ← users d !! kv.1.2;
  Some (MkMemberView kv.1.2 (default ""%string (u_display_name u)) (u_username u) (u_avatar_media_id u)
    (m_role kv.2) (m_custom_title kv.2) (m_joined_at kv.2) (m_invited_by kv.2)).
Definition is_active_in (chatID : uuid) (k : uuid * uuid) (m : member_row) : bool :=
  bool_decide (k.1 = chatID) && (if m_left_at m is None then true else false).
Definition Members (chatID : uuid) (limit offset : Z) : prog db grouperr (list Member) := λ d,
  if (limit <? 0) || (offset <? 0) then (Err (GDatabase ErrInternal), d)
  else (Ok (take (Z.to_nat limit) (drop (Z.to_nat offset) (merge_sort member_le
    (omap (member_view d) (rows_where (is_active_in chatID) (chat_members d)))))), d).

Definition UpdateChat (now : time) (chatID : uuid) (title description : option string)
    (photoMediaID : option uuid) (username : option string) : prog db grouperr () := λ d,
  match live_chat d chatID with
  | None => (Ok (), d)
  | Some c =>
      let c' := with_c_updated_at now (with_c_username (coalesce_null username (c_username c))
        (with_c_photo_media_id (coalesce_null photoMediaID (c_photo_media_id c))
        (with_c_description (coalesce description (c_description c))
        (with_c_title (coalesce title (c_title c)) c)))) in
      if username_held chatID (c_username c') d then (Err GUsernameTaken, d)
      else (Ok (), with_chats (<[chatID := c']> (chats d)) d)
  end.

(** [UPDATE chats SET deleted_at = now() WHERE id = $1 AND deleted_at IS NULL] *)
Definition Delete_chat (now : time) (chatID : uuid) : prog db grouperr () :=
  modify (λ d, with_chats (update_where
    (λ id c, bool_decide (id = chatID) && (if c_deleted_at c is None then true else false))
    (λ _ c, with_c_deleted_at (Some now) c) (chats d)) d).

(** ** Settings *)

(** [Settings]; the pointer fields of one chat type are options. *)
Record Settings := MkSettingsInput {
  st_SlowModeSeconds : Z;
  st_HistoryVisibleToNew : bool;
  st_JoinRequiresApproval : bool;
  st_MaxMembers : Z;
  st_AutoDeleteSeconds : Z;
  st_DefaultPermissions : gmap string bool;
  st_SignatureEnabled : option bool;
  st_CommentsEnabled : option bool;
  st_DiscussionChatID : option uuid;
  st_StickerSet : option string;
  st_LinkedChannelID : option uuid;
  st_IsForum : option bool;
  st_IsBroadcast : option bool;
}.

Definition settings_fit (s : Settings) : bool :=
  in_int4 (st_SlowModeSeconds s) && in_int4 (st_MaxMembers s) && in_int4 (st_AutoDeleteSeconds s).
Definition update_settings_row (chatID : uuid) (s : Settings) : prog db grouperr () :=
  modify (λ d, with_chat_settings (update_where (λ id _, bool_decide (id = chatID))
    (λ _ _, MkSettings (st_SlowModeSeconds s) (st_HistoryVisibleToNew s) (st_JoinRequiresApproval s)
       (st_MaxMembers s) (st_AutoDeleteSeconds s) (defaultPermissionsJSON (st_DefaultPermissions s)))
    (chat_settings d)) d).
Definition update_channel_settings (chatID : uuid) (s : Settings) : prog db grouperr () :=
  match st_SignatureEnabled s, st_CommentsEnabled s with
  | None, None => mret ()
  | sig, com => modify (λ d, with_channels (update_where (λ id _, bool_decide (id = chatID))
      (λ _ c, with_ch_comments_enabled (coalesce com (ch_comments_enabled c))
        (with_ch_signature_enabled (coalesce sig (ch_signature_enabled c)) c)) (channels d)) d)
  end.
Definition update_group_settings (chatID : uuid) (f : group_row → group_row) : prog db grouperr () :=
  modify (λ d, with_groups (update_where (λ id _, bool_decide (id = chatID)) (λ _ g, f g) (groups d)) d).
(** [EXISTS (SELECT 1 FROM sticker_sets WHERE slug = $1 AND deleted_at IS NULL)] *)
Definition sticker_set_exists (slug : string) (d : db) : bool :=
  negb (count_where (λ _ s, citext_eqb slug (ss_slug s) && (if ss_deleted_at s is None then true else false))
    (sticker_sets d) =? 0).
Definition update_sticker_set (chatID : uuid) (s : Settings) : prog db grouperr () :=
  match st_StickerSet s with
  | None => mret ()
  | Some slug =>
      d ← gets id;
      fail_if (bool_decide (slug ≠ ""%string) && negb (sticker_set_exists slug d)) GStickerSetNotFound;;
      update_group_settings chatID (with_g_sticker_set slug)
  end.

Definition UpdateSettings (chatID : uuid) (s : Settings) : prog db grouperr () :=
  in_tx (
    fail_if (negb (settings_fit s)) (GDatabase ErrInternal);;
    update_settings_row chatID s;;
    update_channel_settings chatID s;;
    match st_IsBroadcast s with
    | Some b => update_group_settings chatID (with_g_is_broadcast b)
    | None => mret ()
    end;;
    update_sticker_set chatID s).

Definition read_settings (chatID : uuid) (d : db) : option Settings :=
  s ← chat_settings d !! chatID;
  let ch := channels d !! chatID in
  let g := groups d !! chatID in
  Some (MkSettingsInput (s_slow_mode_seconds s) (s_history_visible_to_new s)
    (s_join_requires_approval s) (s_max_members s) (s_auto_delete_seconds s)
    (default ∅ (decode_bool_map (s_default_permissions s)))
    (ch_signature_enabled <$> ch) (ch_comments_enabled <$> ch) (ch ≫= ch_discussion_chat_id)
    (g_sticker_set <$> g) (g ≫= g_linked_channel_id) (g_is_forum <$> g) (g_is_broadcast <$> g)).
Definition Read_Settings (chatID : uuid) : prog db grouperr Settings :=
  d ← gets id;
  or_fail (read_settings chatID d) GNotFound.

(** ** Invite links *)

(** [InviteLink]; [URL] is filled in by the service. *)
Record InviteLink := MkInviteLink {
  lk_ID : uuid;
  lk_Slug : string;
  lk_URL : string;
  lk_Name : string;
  lk_MemberLimit : option Z;
  lk_UsageCount : Z;
  lk_ExpiresAt : option time;
  lk_CreatedAt : time;
}.
Definition link_view (kv : uuid * invite_row) : InviteLink :=
  MkInviteLink kv.1 (il_slug kv.2) "" (il_name kv.2) (il_member_limit kv.2) (il_usage_count kv.2)
    (il_expires_at kv.2) (il_created_at kv.2).

(** [slug] is [security.RandomToken(16)]. *)
Definition CreateInviteLink (now : time) (new_id : uuid) (slug : string) (chatID creatorID : uuid)
    (name : string) (memberLimit : option Z) (expiresAt : option time) : prog db grouperr InviteLink := λ d,
  if negb (count_where (λ _ l, bool_decide (il_slug l = slug)) (chat_invite_links d) =? 0)
    || bool_decide (is_Some (chat_invite_links d !! new_id))
  then (Err (GDatabase (ErrUnique "chat_invite_links_slug_key")), d)
  else
    let row := MkInvite chatID slug (Some creatorID) name memberLimit 0 expiresAt None now in
    (Ok (link_view (new_id, row)),
     with_chat_invite_links (<[new_id := row]> (chat_invite_links d)) d).

Definition InviteLinks (chatID : uuid) : prog db grouperr (list InviteLink) := gets (λ d,
  link_view <$> order_by_desc (λ kv, il_created_at kv.2)
    (rows_where (λ _ l, bool_decide (il_chat_id l = chatID)
      && (if il_revoked_at l is None then true else false)) (chat_invite_links d))).

Definition RevokeInviteLink (now : time) (chatID linkID : uuid) : prog db grouperr () := λ d,
  let P (id : uuid) l := bool_decide (id = linkID) && bool_decide (il_chat_id l = chatID)
    && (if il_revoked_at l is None then true else false) in
  if hits P (chat_invite_links d) linkID then
    (Ok (), with_chat_invite_links
      (update_where P (λ _ l, with_il_revoked_at (Some now) l) (chat_invite_links d)) d)
  else (Err GNotFound, d).

Record ResolvedInvite := MkResolvedInvite {
  ri_LinkID : uuid;
  ri_ChatID : uuid;
  ri_ChatType : string;
  ri_Title : string;
  ri_MemberCount : Z;
  ri_RequiresApproval : bool;
}.

Definition invite_usable (now : time) (slug : string) (l : invite_row) : bool :=
  bool_decide (il_slug l = slug) && (if il_revoked_at l is None then true else false)
  && (if il_expires_at l is Some t then now <? t else true)
  && (if il_member_limit l is Some n then il_usage_count l <? n else true).
Definition resolved_invite (d : db) (kv : uuid * invite_row) : option ResolvedInvite :=
  let '(id, l) := kv in
  c ← live_chat d (il_chat_id l);
  Some (MkResolvedInvite id (il_chat_id l) (c_type c) (c_title c) (c_member_count c)
    (from_option s_join_requires_approval false (chat_settings d !! il_chat_id l))).
(** [slug] is unique, so the statement finds at most one row. *)
Definition ResolveInvite (now : time) (slug : string) : prog db grouperr ResolvedInvite :=
  d ← gets id;
  or_fail (head (omap (resolved_invite d) (rows_where (λ _ l, invite_usable now slug l) (chat_invite_links d))))
    GNotFound.

Definition CountInviteUse (linkID : uuid) : prog db grouperr () :=
  modify (λ d, with_chat_invite_links (update_where (λ id _, bool_decide (id = linkID))
    (λ _ l, with_il_usage_count (il_usage_count l + 1) l) (chat_invite_links d)) d).

(** ** Join requests *)
Definition StatusPending := "pending"%string.
Definition StatusApproved := "approved"%string.
Definition StatusRejected := "rejected"%string.

Definition CreateJoinRequest (now : time) (chatID userID : uuid) (linkID : option uuid)
    : prog db grouperr () :=
  modify (λ d,
    let put r := with_chat_join_requests (<[(chatID, userID) := r]> (chat_join_requests d)) d in
    match chat_join_requests d !! (chatID, userID) with
    | None => put (MkJoinRequest StatusPending linkID now None None)
    | Some r =>
        if bool_decide (jr_status r = StatusPending) then d
        else put (MkJoinRequest StatusPending (jr_invite_link_id r) now None None)
    end).

(** [JoinRequest], an application as it is listed *)
Record JoinRequest := MkJoinRequestView {
  jv_UserID : uuid;
  jv_DisplayName : string;
  jv_Username : option string;
  jv_CreatedAt : time;
}.
Definition request_view (d : db) (kv : (uuid * uuid) * join_request_row) : option JoinRequest :=
  u ← users d !! kv.1.2;
  Some (MkJoinRequestView kv.1.2 (default ""%string (u_display_name u)) (u_username u) (jr_created_at kv.2)).
Definition JoinRequests (chatID : uuid) (limit : Z) : prog db grouperr (list JoinRequest) := gets (λ d,
  take (Z.to_nat limit) (order_by jv_CreatedAt (omap (request_view d)
    (rows_where (λ k r, bool_decide (k.1 = chatID) && bool_decide (jr_status r = StatusPending))
      (chat_join_requests d))))).

(** [INSERT ... ON CONFLICT DO UPDATE SET left_at = NULL, joined_at = now()] *)
Definition approve_member (now : time) (chatID userID : uuid) : prog db grouperr () := modify (λ d,
  let m := match chat_members d !! (chatID, userID) with
           | None => new_member_row now RoleMember
           | Some m => with_m_left_at None (with_m_joined_at now m)
           end in
  with_chat_members (<[(chatID, userID) := m]> (chat_members d)) d).

Definition ResolveJoinRequest (now : time) (chatID userID resolverID : uuid) (approve : bool)
    : prog db grouperr () :=
  let status := if approve then StatusApproved else StatusRejected in
  in_tx (
    d ← gets id;
    r ← or_fail (chat_join_requests d !! (chatID, userID)) GNotFound;
    fail_if (negb (bool_decide (jr_status r = StatusPending))) GNotFound;;
    modify (λ d, with_chat_join_requests (<[(chatID, userID) :=
      MkJoinRequest status (jr_invite_link_id r) (jr_created_at r) (Some now) (Some resolverID)]>
      (chat_join_requests d)) d);;
    if negb approve then mret ()
    else
      c ← or_fail (chats d !! chatID) (GDatabase ErrInternal);
      approve_member now chatID userID;;
      bumpMemberCount now chatID (c_type c) 1).

(** ** Channel posts *)
Definition RecordPostView (messageID chatID userID : uuid) : prog db grouperr () :=
  in_tx (λ d,
    if bool_decide ((messageID, userID) ∈ channel_post_views d) then (Ok (), d)
    else
      let s := match channel_post_stats d !! messageID with
               | None => MkPostStatsRow chatID 1 0 0 0
               | Some s => with_ps_view_count (ps_view_count s + 1) s
               end in
      (Ok (), with_messages (update_where (λ id _, bool_decide (id = messageID))
                (λ _ r, with_r_view_count (r_view_count r + 1) r) (messages d))
              (with_channel_post_stats (<[messageID := s]> (channel_post_stats d))
              (with_channel_post_views ({[(messageID, userID)]} ∪ channel_post_views d) d)))).

Record PostStats := MkPostStats {
  pv_MessageID : uuid;
  pv_ViewCount : Z;
  pv_ForwardCount : Z;
  pv_ReactionCount : Z;
  pv_CommentCount : Z;
}.
Definition Read_PostStats (chatID : uuid) (messageIDs : list uuid) : prog db grouperr (list PostStats) :=
  gets (λ d, (λ kv, MkPostStats kv.1 (ps_view_count kv.2) (ps_forward_count kv.2)
      (ps_reaction_count kv.2) (ps_comment_count kv.2))
    <$> rows_where (λ id s, bool_decide (ps_chat_id s = chatID) && bool_decide (id ∈ messageIDs))
          (channel_post_stats d)).

(** ** Named roles *)
Definition maxRolesPerChat : Z := 20.
Definition maxRoleName : Z := 64.

Record Role := MkRoleView {
  rv_ID : uuid;
  rv_ChatID : uuid;
  rv_Name : string;
  rv_Permissions : gmap string bool;
  rv_Rank : Z;
  rv_MemberCount : Z;
  rv_CreatedAt : time;
}.
Definition role_view (memberCount : Z) (kv : uuid * role_row) : Role :=
  MkRoleView kv.1 (ro_chat_id kv.2) (ro_name kv.2) (default ∅ (decode_bool_map (ro_permissions kv.2)))
    (ro_rank kv.2) memberCount (ro_created_at kv.2).
Definition holders (roleID : uuid) (d : db) : Z :=
  count_where (λ _ m, bool_decide (m_custom_role_id m = Some roleID)
    && (if m_left_at m is None then true else false)) (chat_members d).
Definition role_le (a b : Role) : Prop :=
  rv_Rank a < rv_Rank b ∨ (rv_Rank a = rv_Rank b ∧ string_le (rv_Name a) (rv_Name b)).
#[export] Instance role_le_dec a b : Decision (role_le a b).
Proof. unfold role_le. apply _. Defined.
Definition Roles (chatID : uuid) : prog db grouperr (list Role) := gets (λ d,
  merge_sort role_le ((λ kv, role_view (holders kv.1 d) kv)
    <$> rows_where (λ _ r, bool_decide (ro_chat_id r = chatID)) (group_roles d))).

(** The unique [(chat_id, name)]. *)
Definition role_name_held (self chatID : uuid) (name : string) (d : db) : bool :=
  negb (count_where (λ id r, bool_decide (id ≠ self) && bool_decide (ro_chat_id r = chatID)
    && bool_decide (ro_name r = name)) (group_roles d) =? 0).
Definition role_count (chatID : uuid) (d : db) : Z :=
  count_where (λ _ r, bool_decide (ro_chat_id r = chatID)) (group_roles d).

Definition CreateRole (now : time) (new_id chatID : uuid) (name : string)
    (permissions : gmap string bool) (rank : Z) : prog db grouperr Role :=
  in_tx (
    d ← gets id;
    fail_if (maxRolesPerChat <=? role_count chatID d) GTooManyRoles;;
    fail_if (role_name_held new_id chatID name d) GRoleTaken;;
    fail_if (bool_decide (is_Some (group_roles d !! new_id))) (GDatabase (ErrUnique "group_roles_pkey"));;
    let row := MkRole chatID name (permissionsJSON permissions) rank now in
    modify (λ d, with_group_roles (<[new_id := row]> (group_roles d)) d);;
    mret (role_view 0 (new_id, row))).

Definition role_in (chatID roleID : uuid) (d : db) : option role_row :=
  r ← group_roles d !! roleID;
  if decide (ro_chat_id r = chatID) then Some r else None.

Definition UpdateRole (chatID roleID : uuid) (name : string) (permissions : gmap string bool)
    (rank : Z) : prog db grouperr Role :=
  d ← gets id;
  r ← or_fail (role_in chatID roleID d) GRoleNotFound;
  fail_if (role_name_held roleID chatID name d) GRoleTaken;;
  let row := with_ro_rank rank (with_ro_permissions (permissionsJSON permissions) (with_ro_name name r)) in
  modify (λ d, with_group_roles (<[roleID := row]> (group_roles d)) d);;
  mret (role_view 0 (roleID, row)).

(** The reference from [chat_members.custom_role_id] is [ON DELETE SET NULL]. *)
Definition DeleteRole (chatID roleID : uuid) : prog db grouperr () :=
  d ← gets id;
  _ ← or_fail (role_in chatID roleID d) GRoleNotFound;
  modify (λ d, with_chat_members (update_where (λ _ m, bool_decide (m_custom_role_id m = Some roleID))
      (λ _ m, with_m_custom_role_id None m) (chat_members d))
    (with_group_roles (delete roleID (group_roles d)) d)).

Definition AssignRole (chatID userID : uuid) (roleID : option uuid) : prog db grouperr () := λ d,
  let exists_here := match roleID with None => true | Some r => bool_decide (is_Some (role_in chatID r d)) end in
  match active_member d chatID userID with
  | Some m =>
      if exists_here then
        (Ok (), with_chat_members
          (<[(chatID, userID) := with_m_custom_role_id roleID m]> (chat_members d)) d)
      else (Err GRoleNotFound, d)
  | None => (Err (if exists_here then GNotMember else GRoleNotFound), d)
  end.
