(* ===== verification/Groups.v ===== *)
(** * The group service ([internal/groups/service.go], [roles.go])

    Who may administer a group or channel.  The handlers run in the world of
    [MessagingService]: they use its database and its outgoing frames, and none
    of its guard or limiter.  Log lines are left out. *)

From stdpp Require Import base tactics list gmap strings sorting.
From Stdlib Require Import ZArith Ascii String Lia.
From S2P Require Import Prelude GoString Httpx Permissions Store ChatContext MessageRepo MessagingService GroupsRepo.

Set Default Goal Selector "!".
Open Scope Z_scope.

Definition maxTitleRunes : Z := 128.
Definition maxDescriptionRunes : Z := 1024.
Definition defaultMemberPage : Z := 100.

(** ** Patterns *)
Definition is_lower (b : N) : bool := in_range 97 122 b.
Definition is_letter (b : N) : bool := is_lower b || in_range 65 90 b.
Definition is_digit (b : N) : bool := in_range 48 57 b.

(** [^[a-zA-Z][a-zA-Z0-9_]{4,31}$] *)
Definition usernamePattern (s : string) : bool :=
  match bytes_of s with
  | b :: rest => is_letter b && forallb (λ b, is_letter b || is_digit b || (b =? 95)%N) rest
                 && (4 <=? Z.of_nat (List.length rest)) && (Z.of_nat (List.length rest) <=? 31)
  | [] => false
  end.
(** [^[a-z][a-z0-9_]{2,31}$] *)
Definition stickerSetSlug (s : string) : bool :=
  match bytes_of s with
  | b :: rest => is_lower b && forallb (λ b, is_lower b || is_digit b || (b =? 95)%N) rest
                 && (2 <=? Z.of_nat (List.length rest)) && (Z.of_nat (List.length rest) <=? 31)
  | [] => false
  end.

(** [rank]: a lower number outranks a higher one. *)
Definition rank (role : string) : Z :=
  if bool_decide (role = RoleOwner) then 0
  else if bool_decide (role = RoleAdmin) then 1
  else if bool_decide (role = RoleModerator) then 2
  else if bool_decide (role = RoleMember) then 3
  else 4.

(** [strings.Join(keys, sep)] *)
Definition join (sep : string) (l : list string) : string := String.concat sep l.

Definition rejectUnknownPermissions (permissions : gmap string bool) (chatType : string) : option Error :=
  match UnknownPermissionKeys permissions chatType with
  | [] => None
  | unknown => Some (WithField (Validation "That is not a permission this chat has")
      "permissions" ("unknown or inapplicable: " +:+ join ", " unknown))
  end.

(** The keys of a bundle that the definer does not hold. *)
Definition overreach (permissions : gmap string bool) (held : Permissions) : list string :=
  sort_strings ((filter (λ kv, kv.2 = true ∧ perm_get kv.1 held ≠ Some true)
    (map_to_list permissions)).*1).
Definition withinOwnGrant (permissions : gmap string bool) (held : Permissions) : option Error :=
  match overreach permissions held with
  | [] => None
  | keys => Some (Forbidden CodePermissionDenied
      ("You cannot grant a permission you do not hold: " +:+ join ", " keys))
  end.

(** [validateRole]: the trimmed name. *)
Definition validateRole (name : string) (permissions : gmap string bool) (rk : Z) (chatType : string)
    : result Error string :=
  let name := trim_space name in
  if bool_decide (name = ""%string) then
    Err (WithField (Validation "A role needs a name") "name" "required")
  else if maxRoleName <? rune_count name then
    Err (WithField (Validation "That name is too long") "name" "at most 64 characters")
  else if (rk <? 0) || (1000 <? rk) then
    Err (WithField (Validation "Rank is out of range") "rank" "between 0 and 1000")
  else match rejectUnknownPermissions permissions chatType with
       | Some e => Err e
       | None => Ok name
       end.

(** [CreateInput] *)
Record CreateInput := MkCreateInput {
  cr_OwnerID : uuid;
  cr_Type : string;
  cr_Title : string;
  cr_Description : string;
  cr_Username : string;
  cr_IsPublic : bool;
  cr_MemberIDs : list uuid;
}.

(** [JoinResult] *)
Record JoinResult := MkJoinResult {
  jn_ChatID : uuid;
  jn_Joined : bool;
  jn_Pending : bool;
  jn_ChatType : string;
  jn_Title : string;
}.

(** The checks [Create] makes before it touches the database: the trimmed title
    and the handle. *)
Definition username_error : Error :=
  WithField (Validation "Username is not valid") "username"
    "5-32 characters, letters, digits and underscore, starting with a letter".
Definition validateCreate (i : CreateInput) : result Error (string * option string) :=
  let title := trim_space (cr_Title i) in
  let handle := trim_space (cr_Username i) in
  if negb (bool_decide (cr_Type i = ChatGroup)) && negb (bool_decide (cr_Type i = ChatChannel)) then
    Err (WithField (Validation "Unsupported chat type") "type" "must be group or channel")
  else if bool_decide (title = ""%string) then
    Err (WithField (Validation "A title is required") "title" "required")
  else if maxTitleRunes <? rune_count title then
    Err (WithField (Validation "Title is too long") "title" "exceeds the maximum length")
  else if maxDescriptionRunes <? rune_count (cr_Description i) then
    Err (WithField (Validation "Description is too long") "description" "exceeds the maximum length")
  else if bool_decide (handle ≠ ""%string) && negb (usernamePattern handle) then Err username_error
  else if cr_IsPublic i && bool_decide (handle = ""%string) then
    Err (WithField (Validation "A public chat needs a username") "username" "required for public chats")
  else Ok (title, if bool_decide (handle = ""%string) then None else Some handle).

Section service.
Context {G L : Type}.

Abbreviation handler := (prog (world G L) Error) (only parsing).

Definition announce (chatID : uuid) (event : string) (payload : event_payload) : handler () :=
  emit [PublishChat chatID event payload].

Definition internal {E} (_ : E) : Error := Internal.
Definition not_a_member : Error := NotFound CodeNotFound "That user is not a member".
Definition not_member_or_internal (e : grouperr) : Error :=
  match e with GNotMember => not_a_member | _ => Internal end.

(** [authorize], the gate of every administrative action *)
Definition authorize (chatID actorID : uuid) (allowed : Permissions → bool) (denial : string)
    : handler ChatContext :=
  cx ← repo (ChatContextFor chatID actorID) chat_not_found;
  fail_if (negb (ctx_is_member cx)) not_member_error;;
  fail_if (negb (allowed (ctx_permissions cx))) (Forbidden CodePermissionDenied denial);;
  mret cx.

(** A repository call whose error is only logged. *)
Definition best_effort {A} (m : prog db grouperr A) : handler () := λ w,
  (Ok (), set_db (m (w_db w)).2 w).

Definition Service_Create (now : time) (new_id : uuid) (i : CreateInput) : handler uuid :=
  '(title, username) ← (λ w, (validateCreate i, w));
  chatID ← repo (CreateChat now new_id (cr_Type i) title (cr_Description i) (cr_OwnerID i)
      (cr_IsPublic i) username)
    (λ e, match e with
          | GUsernameTaken => Conflict CodeUsernameTaken "That username is already taken"
          | _ => Internal
          end);
  for_each (cr_MemberIDs i) (λ memberID,
    if decide (memberID = cr_OwnerID i) then mret ()
    else best_effort (AddMember now chatID memberID RoleMember (Some (cr_OwnerID i))));;
  mret chatID.

(** The outcome of one invitation; the world gains a frame when it succeeds. *)
Definition add_one (now : time) (chatID actorID userID : uuid) : handler string := λ w,
  match AddMember now chatID userID RoleMember (Some actorID) (w_db w) with
  | (Ok _, d) =>
      (announce chatID EventChatMemberAdded (PayloadMember chatID userID (Some actorID));;
       mret "added"%string) (set_db d w)
  | (Err GAlreadyMember, d) => (Ok "already_member"%string, set_db d w)
  | (Err GChatFull, d) => (Ok "chat_full"%string, set_db d w)
  | (Err _, d) => (Ok "failed"%string, set_db d w)
  end.
Fixpoint add_all (now : time) (chatID actorID : uuid) (userIDs : list uuid) (acc : gmap uuid string)
    : handler (gmap uuid string) :=
  match userIDs with
  | [] => mret acc
  | u :: rest =>
      r ← add_one now chatID actorID u;
      add_all now chatID actorID rest (<[u := r]> acc)
  end.
Definition Service_AddMembers (now : time) (chatID actorID : uuid) (userIDs : list uuid)
    : handler (gmap uuid string) :=
  authorize chatID actorID AddMembers "You cannot add members to this chat";;
  add_all now chatID actorID userIDs ∅.

Definition Service_RemoveMember (now : time) (chatID actorID targetID : uuid) : handler () :=
  cx ← authorize chatID actorID RemoveMembers "You cannot remove members from this chat";
  target ← repo (ChatContextFor chatID targetID) internal;
  fail_if (negb (ctx_is_member target)) not_a_member;;
  fail_if (rank (ctx_role target) <=? rank (ctx_role cx))
    (Forbidden CodePermissionDenied "You cannot remove someone with an equal or higher role");;
  repo (RemoveMember now chatID targetID) not_member_or_internal;;
  announce chatID EventChatMemberLeft (PayloadMember chatID targetID (Some actorID)).

Definition Service_Leave (now : time) (chatID userID : uuid) : handler () :=
  cx ← repo (ChatContextFor chatID userID) chat_not_found;
  fail_if (negb (ctx_is_member cx)) not_member_error;;
  fail_if (bool_decide (ctx_role cx = RoleOwner) && (1 <? ctx_member_count cx))
    (Conflict CodeConflict "Transfer ownership before leaving, or delete the chat");;
  repo (RemoveMember now chatID userID) internal;;
  (if ctx_member_count cx <=? 1 then best_effort (Delete_chat now chatID) else mret ());;
  announce chatID EventChatMemberLeft (PayloadMember chatID userID None).

(** The roles the endpoint may assign. *)
Definition assignable (role : string) : option Error :=
  if bool_decide (role ∈ [RoleAdmin; RoleModerator; RoleMember; RoleRestricted]) then None
  else if bool_decide (role = RoleOwner) then
    Some (WithField (Validation "Use the ownership transfer endpoint") "role" "owner cannot be assigned directly")
  else Some (WithField (Validation "Unknown role") "role" "unsupported").

Definition Service_SetRole (chatID actorID targetID : uuid) (role : string)
    (permissions : gmap string bool) (customTitle : string) : handler () :=
  cx ← authorize chatID actorID ManageAdmins "You cannot manage administrators in this chat";
  refuse (assignable role);;
  fail_if (rank role <? rank (ctx_role cx))
    (Forbidden CodePermissionDenied "You cannot grant a role higher than your own");;
  refuse (rejectUnknownPermissions permissions (ctx_chat_type cx));;
  repo (SetRole chatID targetID role permissions customTitle) not_member_or_internal.

Definition Service_TransferOwnership (chatID actorID targetID : uuid) : handler () :=
  cx ← repo (ChatContextFor chatID actorID) internal;
  fail_if (negb (ctx_is_member cx) || negb (bool_decide (ctx_role cx = RoleOwner)))
    (Forbidden CodePermissionDenied "Only the owner can transfer ownership");;
  repo (TransferOwnership chatID actorID targetID) not_member_or_internal.

Definition Service_Members (chatID actorID : uuid) (limit offset : Z) : handler (list Member) :=
  cx ← repo (ChatContextFor chatID actorID) chat_not_found;
  fail_if (negb (ctx_is_member cx)) not_member_error;;
  fail_if (bool_decide (ctx_chat_type cx = ChatChannel) && (rank RoleModerator <? rank (ctx_role cx)))
    (Forbidden CodePermissionDenied "Only channel administrators can see the subscriber list");;
  repo (Members chatID (if (limit <=? 0) || (200 <? limit) then defaultMemberPage else limit) offset) internal.

(** The checks of [Update]; the title is stored trimmed. *)
Definition validateTitle (title : option string) : result Error (option string) :=
  match trim_space <$> title with
  | Some t =>
      if bool_decide (t = ""%string) || (maxTitleRunes <? rune_count t) then
        Err (WithField (Validation "Title is not valid") "title" "must be between 1 and 128 characters")
      else Ok (Some t)
  | None => Ok None
  end.
Definition validateDescription (description : option string) : option Error :=
  match description with
  | Some t => if maxDescriptionRunes <? rune_count t then
      Some (WithField (Validation "Description is too long") "description" "exceeds the maximum length") else None
  | None => None
  end.
Definition validateUsername (username : option string) : option Error :=
  match username with
  | Some u => if bool_decide (u ≠ ""%string) && negb (usernamePattern u) then Some username_error else None
  | None => None
  end.
Definition username_conflict (e : grouperr) : Error :=
  match e with
  | GUsernameTaken => Conflict CodeUsernameTaken "That username is already taken"
  | _ => Internal
  end.
Definition Service_Update (now : time) (chatID actorID : uuid)
    (title description username : option string) (photoMediaID : option uuid) : handler () :=
  authorize chatID actorID EditGroup "You cannot edit this chat";;
  title ← (λ w, (validateTitle title, w));
  refuse (validateDescription description);;
  refuse (validateUsername username);;
  repo (UpdateChat now chatID title description photoMediaID username) username_conflict;;
  announce chatID EventChatUpdated (PayloadChat chatID).

Definition with_sticker_set (slug : option string) (s : Settings) : Settings :=
  MkSettingsInput (st_SlowModeSeconds s) (st_HistoryVisibleToNew s) (st_JoinRequiresApproval s)
    (st_MaxMembers s) (st_AutoDeleteSeconds s) (st_DefaultPermissions s) (st_SignatureEnabled s)
    (st_CommentsEnabled s) (st_DiscussionChatID s) slug (st_LinkedChannelID s) (st_IsForum s)
    (st_IsBroadcast s).
Definition validateSettings (s : Settings) (chatType : string) : result Error Settings :=
  if (st_SlowModeSeconds s <? 0) || (21600 <? st_SlowModeSeconds s) then
    Err (WithField (Validation "Slow mode is out of range") "slow_mode_seconds" "between 0 and 21600")
  else if (st_MaxMembers s <? 2) || (1000000 <? st_MaxMembers s) then
    Err (WithField (Validation "Member limit is out of range") "max_members" "between 2 and 1000000")
  else match rejectUnknownPermissions (st_DefaultPermissions s) chatType with
  | Some e => Err e
  | None =>
      match st_StickerSet s with
      | None => Ok s
      | Some slug =>
          let slug := to_lower (trim_space slug) in
          if bool_decide (slug ≠ ""%string) && negb (stickerSetSlug slug) then
            Err (WithField (Validation "That is not a sticker set slug") "sticker_set"
              "3 to 32 characters, starting with a letter")
          else Ok (with_sticker_set (Some slug) s)
      end
  end.
Definition Service_UpdateSettings (chatID actorID : uuid) (s : Settings) : handler () :=
  cx ← authorize chatID actorID EditGroup "You cannot change this chat's settings";
  s ← (λ w, (validateSettings s (ctx_chat_type cx), w));
  repo (UpdateSettings chatID s) (λ e, match e with
    | GStickerSetNotFound =>
        WithField (Validation "No sticker set has that name") "sticker_set" "must name an existing set"
    | _ => Internal
    end).

Definition Service_Settings (chatID actorID : uuid) : handler Settings :=
  cx ← repo (ChatContextFor chatID actorID) internal;
  fail_if (negb (ctx_is_member cx)) not_member_error;;
  repo (Read_Settings chatID) (λ e, match e with
    | GNotFound => NotFound CodeNotFound "Chat settings not found"
    | _ => Internal
    end).

Definition Service_Delete_chat (now : time) (chatID actorID : uuid) : handler () :=
  cx ← repo (ChatContextFor chatID actorID) internal;
  fail_if (negb (ctx_is_member cx) || negb (bool_decide (ctx_role cx = RoleOwner)))
    (Forbidden CodePermissionDenied "Only the owner can delete this chat");;
  repo (Delete_chat now chatID) internal.

(** *** Invitations *)

Definition with_URL (base : string) (l : InviteLink) : InviteLink :=
  MkInviteLink (lk_ID l) (lk_Slug l) (base +:+ "/joinchat/" +:+ lk_Slug l) (lk_Name l) (lk_MemberLimit l)
    (lk_UsageCount l) (lk_ExpiresAt l) (lk_CreatedAt l).
(** [publicBaseURL] is the configuration's. *)
Definition Service_CreateInviteLink (now : time) (new_id : uuid) (slug publicBaseURL : string)
    (chatID actorID : uuid) (name : string) (memberLimit : option Z) (expiresAt : option time)
    : handler InviteLink :=
  authorize chatID actorID ManageInvites "You cannot create invite links for this chat";;
  fail_if (if expiresAt is Some t then t <? now else false)
    (WithField (Validation "Expiry is in the past") "expires_at" "must be in the future");;
  fail_if (if memberLimit is Some n then (n <? 1) || (100000 <? n) else false)
    (WithField (Validation "Member limit is out of range") "member_limit" "between 1 and 100000");;
  link ← repo (CreateInviteLink now new_id slug chatID actorID name memberLimit expiresAt) internal;
  mret (with_URL publicBaseURL link).

Definition Service_InviteLinks (publicBaseURL : string) (chatID actorID : uuid) : handler (list InviteLink) :=
  authorize chatID actorID ManageInvites "You cannot see this chat's invite links";;
  links ← repo (InviteLinks chatID) internal;
  mret (with_URL publicBaseURL <$> links).

Definition Service_RevokeInviteLink (now : time) (chatID actorID linkID : uuid) : handler () :=
  authorize chatID actorID ManageInvites "You cannot revoke this chat's invite links";;
  repo (RevokeInviteLink now chatID linkID) (λ e, match e with
    | GNotFound => NotFound CodeNotFound "Invite link not found"
    | _ => Internal
    end).

Definition chat_full_error : Error := Forbidden CodeChatFull "This chat is full".

(** [between] is what other sessions commit after the link was read. *)
Definition JoinByInvite (now : time) (between : db → db) (slug : string) (userID : uuid) : handler JoinResult :=
  invite ← repo (ResolveInvite now slug) (λ e, match e with
    | GNotFound => NotFound CodeNotFound "This invite link is no longer valid"
    | _ => Internal
    end);
  modify (λ w, set_db (between (w_db w)) w);;
  let result joined pending := MkJoinResult (ri_ChatID invite) joined pending (ri_ChatType invite) (ri_Title invite) in
  if ri_RequiresApproval invite then
    repo (CreateJoinRequest now (ri_ChatID invite) userID (Some (ri_LinkID invite))) internal;;
    mret (result false true)
  else λ w,
    match AddMember now (ri_ChatID invite) userID RoleMember None (w_db w) with
    | (Ok _, d) =>
        (best_effort (CountInviteUse (ri_LinkID invite));;
         announce (ri_ChatID invite) EventChatMemberAdded (PayloadMember (ri_ChatID invite) userID None);;
         mret (result true false)) (set_db d w)
    | (Err GAlreadyMember, d) => (Ok (result true false), set_db d w)
    | (Err GChatFull, d) => (Err chat_full_error, set_db d w)
    | (Err _, d) => (Err Internal, set_db d w)
    end.

Definition JoinPublic (now : time) (chatID userID : uuid) : handler JoinResult :=
  cx ← repo (ChatContextFor chatID userID) chat_not_found;
  let result joined pending := MkJoinResult chatID joined pending (ctx_chat_type cx) "" in
  if ctx_is_member cx then mret (result true false)
  else
    settings ← gets (λ w, read_settings chatID (w_db w));
    if from_option st_JoinRequiresApproval false settings then
      repo (CreateJoinRequest now chatID userID None) internal;;
      mret (result false true)
    else λ w,
      match AddMember now chatID userID RoleMember None (w_db w) with
      | (Ok _, d) => (Ok (result true false), set_db d w)
      | (Err GChatFull, d) => (Err chat_full_error, set_db d w)
      | (Err GAlreadyMember, d) => (Ok (result true false), set_db d w)
      | (Err _, d) => (Err Internal, set_db d w)
      end.

Definition Service_JoinRequests (chatID actorID : uuid) : handler (list JoinRequest) :=
  authorize chatID actorID AddMembers "You cannot review join requests for this chat";;
  repo (JoinRequests chatID 200) internal.

Definition Service_ResolveJoinRequest (now : time) (chatID actorID targetID : uuid) (approve : bool) : handler () :=
  authorize chatID actorID AddMembers "You cannot review join requests for this chat";;
  repo (ResolveJoinRequest now chatID targetID actorID approve) (λ e, match e with
    | GNotFound => NotFound CodeNotFound "No pending request from that user"
    | GChatFull => chat_full_error
    | _ => Internal
    end).

Definition RecordView (chatID messageID userID : uuid) : handler () :=
  cx ← repo (ChatContextFor chatID userID) internal;
  fail_if (negb (ctx_is_member cx)) not_member_error;;
  repo (RecordPostView messageID chatID userID) internal.

Definition Service_PostStats (chatID actorID : uuid) (messageIDs : list uuid) : handler (list PostStats) :=
  authorize chatID actorID EditGroup "You cannot see this channel's statistics";;
  repo (Read_PostStats chatID messageIDs) internal.

(** *** Named roles *)
Definition manage_roles : string := "You cannot manage roles in this chat".
Definition no_such_role : Error := NotFound CodeNotFound "No such role".
Definition role_name_taken : Error := Conflict CodeConflict "A role with that name already exists".

Definition Service_Roles (chatID actorID : uuid) : handler (list Role) :=
  authorize chatID actorID ManageAdmins manage_roles;;
  repo (Roles chatID) internal.

Definition Service_CreateRole (now : time) (new_id chatID actorID : uuid) (name : string)
    (permissions : gmap string bool) (rk : Z) : handler Role :=
  cx ← authorize chatID actorID ManageAdmins manage_roles;
  name ← (λ w, (validateRole name permissions rk (ctx_chat_type cx), w));
  refuse (withinOwnGrant permissions (ctx_permissions cx));;
  repo (CreateRole now new_id chatID name permissions rk) (λ e, match e with
    | GRoleTaken => role_name_taken
    | GTooManyRoles => Conflict CodeConflict "A chat can have at most 20 roles"
    | _ => Internal
    end).

Definition Service_UpdateRole (chatID roleID actorID : uuid) (name : string)
    (permissions : gmap string bool) (rk : Z) : handler Role :=
  cx ← authorize chatID actorID ManageAdmins manage_roles;
  name ← (λ w, (validateRole name permissions rk (ctx_chat_type cx), w));
  refuse (withinOwnGrant permissions (ctx_permissions cx));;
  repo (UpdateRole chatID roleID name permissions rk) (λ e, match e with
    | GRoleNotFound => no_such_role
    | GRoleTaken => role_name_taken
    | _ => Internal
    end).

Definition Service_DeleteRole (chatID roleID actorID : uuid) : handler () :=
  authorize chatID actorID ManageAdmins manage_roles;;
  repo (DeleteRole chatID roleID) (λ e, match e with GRoleNotFound => no_such_role | _ => Internal end).

Definition Service_AssignRole (chatID targetID actorID : uuid) (roleID : option uuid) : handler () :=
  cx ← authorize chatID actorID ManageAdmins manage_roles;
  target ← repo (ChatContextFor chatID targetID) internal;
  fail_if (negb (ctx_is_member target)) not_a_member;;
  fail_if (bool_decide (targetID ≠ actorID) && (rank (ctx_role target) <=? rank (ctx_role cx)))
    (Forbidden CodePermissionDenied "You cannot change the role of someone with an equal or higher standing");;
  repo (AssignRole chatID targetID roleID) (λ e, match e with
    | GNotMember => not_a_member
    | GRoleNotFound => NotFound CodeNotFound "That is not a role in this chat"
    | _ => Internal
    end).
End service.
