(* ===== verification/GroupsTheory.v ===== *)
(** * What group administration keeps ([internal/groups])

    The handlers of [Groups] are steps of the abstract [Roster] except in two
    situations the code lets through; the roster's invariants, and what the gate
    of the handlers decides. *)

From stdpp Require Import base tactics list gmap strings sorting relations.
From Stdlib Require Import ZArith Ascii String Lia.
From S2P Require Import Prelude GoString Httpx Permissions Store ChatContext EventLog MessageRepo RateLimit Ports Payloads MessagingService Roster GroupsRepo Groups.

Set Default Goal Selector "!".
Open Scope Z_scope.

(** ** Statements and rosters *)
Section statements.
Implicit Types (d : db) (ch u : uuid).

Lemma roster_eq_parts R rs ss :
  (∀ ch, rooms R !! ch = rs !! ch) → (∀ k, seats R !! k = ss !! k) → R = MkRoster rs ss.
Proof. intros. by apply roster_eq. Qed.

Lemma roster_same d d' :
  (∀ ch, room_of d' ch <$> chats d' !! ch = room_of d ch <$> chats d !! ch) →
  (∀ k, seat_of <$> chat_members d' !! k = seat_of <$> chat_members d !! k) →
  roster_of d' = roster_of d.
Proof.
  intros Hr Hs. apply roster_eq; intros x.
  - by rewrite !lookup_rooms.
  - by rewrite !lookup_seats.
Qed.

Lemma roster_put_member k m d :
  roster_of (with_chat_members (<[k := m]> (chat_members d)) d) =
    MkRoster (rooms (roster_of d)) (<[k := seat_of m]> (seats (roster_of d))).
Proof.
  apply roster_eq_parts; intros x; [by rewrite !lookup_rooms|].
  rewrite lookup_seats. simpl. destruct (decide (k = x)) as [->|].
  - by rewrite !lookup_insert_eq.
  - by rewrite !lookup_insert_ne, lookup_seats by done.
Qed.

(** Only the roles and the presence of the members matter. *)
Lemma roster_members_same (f : gmap (uuid * uuid) member_row) d :
  (∀ k, seat_of <$> f !! k = seat_of <$> chat_members d !! k) →
  roster_of (with_chat_members f d) = roster_of d.
Proof. intros Hf. by apply roster_same. Qed.

Lemma roster_bump now ch delta c d :
  chats d !! ch = Some c →
  roster_of (bumpMemberCount now ch (c_type c) delta d).2 =
    MkRoster (<[ch := room_add delta (room_of d ch c)]> (rooms (roster_of d))) (seats (roster_of d)).
Proof.
  intros Hc. unfold bumpMemberCount. prog_run.
  apply roster_eq_parts; [|intros k; case_bool_decide; done].
  intros ch'. rewrite lookup_rooms. destruct (decide (ch = ch')) as [<-|Hne].
  - rewrite lookup_insert_eq.
    case_bool_decide as Hty; simpl; rewrite lookup_update_where, Hc; simpl;
      rewrite bool_decide_true by done; simpl; unfold room_of, room_add; simpl; f_equal.
    + rewrite (bool_decide_true (c_type c = ChatChannel)) by done. rewrite lookup_update_where.
      destruct (channels d !! ch); simpl; [|done]. by rewrite bool_decide_true by done.
    + by rewrite (bool_decide_false (c_type c = ChatChannel)) by done.
  - rewrite lookup_insert_ne, lookup_rooms by done.
    case_bool_decide; simpl; rewrite lookup_update_where; destruct (chats d !! ch'); try done;
      simpl; rewrite bool_decide_false by done; unfold room_of; simpl; [|done].
    rewrite lookup_update_where. destruct (channels d !! ch'); simpl; [|done].
    by rewrite bool_decide_false.
Qed.

Lemma bump_Ok now ch type delta d x d' :
  bumpMemberCount now ch type delta d = (Ok x, d') → d' = (bumpMemberCount now ch type delta d).2.
Proof. by intros ->. Qed.

(** A member row put in place and the counters moved. *)
Lemma roster_seat_and_bump now ch u m delta c d :
  chats d !! ch = Some c →
  roster_of (bumpMemberCount now ch (c_type c) delta
      (with_chat_members (<[(ch, u) := m]> (chat_members d)) d)).2 =
    MkRoster (<[ch := room_add delta (room_of d ch c)]> (rooms (roster_of d)))
      (<[(ch, u) := seat_of m]> (seats (roster_of d))).
Proof. intros Hc. by rewrite roster_bump, roster_put_member by done. Qed.

Lemma upsert_member_inv now ch u role by_id d x d' :
  upsert_member now ch u role by_id d = (Ok x, d') →
  ∃ m, d' = with_chat_members (<[(ch, u) := m]> (chat_members d)) d
    ∧ m_role m = role ∧ m_left_at m = None ∧ active_member d ch u = None.
Proof.
  unfold upsert_member. destruct (negb (valid_role role)); [done|].
  unfold active_member. destruct (chat_members d !! (ch, u)) as [m|]; simpl.
  - destruct (m_left_at m); [|done]. intros [= _ <-]. by eexists.
  - intros [= _ <-]. by eexists.
Qed.

Lemma update_member_inv ch u P f e d x d' :
  update_member ch u P f e d = (Ok x, d') →
  ∃ m, active_member d ch u = Some m ∧ P m = true
    ∧ d' = with_chat_members (<[(ch, u) := f m]> (chat_members d)) d.
Proof.
  unfold update_member. destruct (active_member d ch u) as [m|]; [|done].
  destruct (P m) eqn:HP; [|done]. intros [= _ <-]. by exists m.
Qed.

Lemma active_seat d ch u m :
  active_member d ch u = Some m → seats (roster_of d) !! (ch, u) = Some (MkSeat (m_role m) true).
Proof.
  intros [Hm Hl]%active_member_Some. rewrite lookup_seats, Hm. simpl. unfold seat_of. by rewrite Hl.
Qed.
Lemma not_active_seat d ch u :
  active_member d ch u = None → hits (seated ch) (seats (roster_of d)) (ch, u) = false.
Proof.
  intros Hna. unfold hits. rewrite lookup_seats. destruct (chat_members d !! (ch, u)) as [m|] eqn:Hm; [|done].
  simpl. rewrite seated_eq. unfold seat_of. simpl. destruct (m_left_at m) eqn:Hl; [done|].
  assert (active_member d ch u = Some m) by by apply active_member_Some. congruence.
Qed.
End statements.

(** ** The repository's methods, one by one *)
Section methods.
Implicit Types (d : db) (ch u : uuid).

Lemma insert_group_chat_inv id c d x d' :
  insert_group_chat id c d = (Ok x, d') →
  chats d !! id = None ∧ d' = with_chats (<[id := c]> (chats d)) d.
Proof.
  unfold insert_group_chat, insert_chat. destruct (negb (valid_chat_type _)); [done|].
  destruct (username_held _ _ _); [done|]. prog_run.
  destruct (chats d !! id); [done|]. by intros [= _ <-].
Qed.
Lemma insert_member_inv ch u m d x d' :
  map_err GDatabase (insert_member ch u m) d = (Ok x, d') →
  d' = with_chat_members (<[(ch, u) := m]> (chat_members d)) d.
Proof.
  unfold insert_member. prog_run. destruct (chat_members d !! _); [done|]. by intros [= _ <-].
Qed.
Lemma insert_settings_inv ch n d x d' :
  map_err GDatabase (insert_settings ch n) d = (Ok x, d') → ∃ s, d' = with_chat_settings s d.
Proof.
  unfold insert_settings. prog_run. destruct (chat_settings d !! _); [done|]. intros [= _ <-]. eauto.
Qed.
Lemma insert_extension_inv id type d x d' :
  insert_extension id type d = (Ok x, d') →
  chats d' = chats d ∧ chat_members d' = chat_members d
  ∧ (∀ ch, id ≠ ch → channels d' !! ch = channels d !! ch)
  ∧ (type = ChatChannel → ch_subscriber_count <$> channels d' !! id = Some 1).
Proof.
  unfold insert_extension. case_bool_decide as Hg; [|case_bool_decide as Hc].
  - intros [= _ <-]. subst type. repeat split; done.
  - intros [= _ <-]. simpl. repeat split; [|by rewrite lookup_insert_eq].
    intros ch Hne. by rewrite lookup_insert_ne.
  - intros [= _ <-]. done.
Qed.

Lemma CreateChat_open now id type title desc owner pub name d chatID d' :
  CreateChat now id type title desc owner pub name d = (Ok chatID, d') →
  chatID = id ∧ roster_step (roster_of d) (roster_of d').
Proof.
  unfold CreateChat. intros Hrun. prog_inv. split; [done|].
  apply insert_group_chat_inv in Hrun0 as [Hnew ->].
  apply insert_member_inv in Hrun1 as ->. apply insert_settings_inv in Hrun2 as [s ->].
  apply insert_extension_inv in Hrun3 as (Hc & Hm & Hch & Hsubs).
  simpl in Hc, Hm, Hch.
  assert (roster_of st2 = MkRoster
    (<[id := MkRoom type 1 (ch_subscriber_count <$> channels st2 !! id) true]> (rooms (roster_of d)))
    (<[(id, owner) := MkSeat RoleOwner true]> (seats (roster_of d)))) as ->.
  { apply roster_eq_parts.
    - intros ch. rewrite lookup_rooms, Hc. simpl. destruct (decide (id = ch)) as [<-|Hne].
      + by rewrite !lookup_insert_eq.
      + rewrite !lookup_insert_ne, lookup_rooms by done. unfold room_of. by rewrite Hch.
    - intros k. rewrite lookup_seats, Hm. simpl. destruct (decide ((id, owner) = k)) as [<-|Hne].
      + by rewrite !lookup_insert_eq.
      + by rewrite !lookup_insert_ne, lookup_seats by done. }
  apply roster_open.
  - by rewrite lookup_rooms, Hnew.
  - intros Hty. by rewrite Hsubs.
Qed.

Lemma AddMember_join now ch u by_id d x d' :
  AddMember now ch u RoleMember by_id d = (Ok x, d') →
  active_member d ch u = None ∧ roster_step (roster_of d) (roster_of d').
Proof.
  unfold AddMember. intros Hrun. prog_inv.
  apply live_chat_Some in Hsome as [Hc Hlive].
  apply upsert_member_inv in Hrun3 as (m & -> & Hrole & Hl & Hna). split; [done|].
  apply bump_Ok in Hrun as ->. rewrite roster_seat_and_bump by done.
  unfold seat_of. rewrite Hrole, Hl. eapply (roster_join _ ch u).
  - by rewrite lookup_rooms, Hc.
  - simpl. by rewrite Hlive.
  - by apply not_active_seat.
  - by left.
Qed.

(** The capacity is checked before the seat is taken. *)
Lemma AddMember_capacity now ch u role by_id d x d' :
  AddMember now ch u role by_id d = (Ok x, d') →
  ∃ c, live_chat d ch = Some c ∧ c_member_count c < max_members_of ch d.
Proof. unfold AddMember. intros Hrun. prog_inv. exists v0. split; [done|]. apply Z.leb_gt. done. Qed.

Lemma RemoveMember_inv now ch u d x d' :
  RemoveMember now ch u d = (Ok x, d') →
  ∃ c m, chats d !! ch = Some c ∧ active_member d ch u = Some m ∧
    roster_of d' = MkRoster (<[ch := room_add (-1) (room_of d ch c)]> (rooms (roster_of d)))
      (<[(ch, u) := MkSeat (m_role m) false]> (seats (roster_of d))) ∧
    chats d' !! ch = Some (with_c_updated_at now (with_c_member_count (Z.max 0 (c_member_count c - 1)) c)).
Proof.
  unfold RemoveMember. intros Hrun. prog_inv.
  apply update_member_inv in Hrun2 as (m & Hm & _ & ->).
  apply bump_Ok in Hrun as ->. exists v0, m. split; [done|]. split; [done|].
  rewrite roster_seat_and_bump by done. split; [done|].
  unfold bumpMemberCount. prog_run. case_bool_decide; simpl; rewrite lookup_update_where, Hsome; simpl;
    by rewrite bool_decide_true by done.
Qed.

Lemma RemoveMember_leave now ch u d x d' m :
  RemoveMember now ch u d = (Ok x, d') → active_member d ch u = Some m → m_role m ≠ RoleOwner →
  roster_step (roster_of d) (roster_of d').
Proof.
  intros (c & m' & Hc & Hm' & -> & _)%RemoveMember_inv Hm Hrole.
  assert (m' = m) as -> by congruence. eapply (roster_leave _ ch u); [|by apply active_seat|done].
  by rewrite lookup_rooms, Hc.
Qed.

Lemma roster_delete now ch c d :
  chats d !! ch = Some c →
  roster_of (Delete_chat now ch d).2 =
    MkRoster (<[ch := room_close (room_of d ch c)]> (rooms (roster_of d))) (seats (roster_of d)).
Proof.
  intros Hc. unfold Delete_chat. prog_run.
  apply roster_eq_parts; [|intros k; by rewrite !lookup_seats].
  intros ch'. rewrite lookup_rooms. simpl. rewrite lookup_update_where.
  destruct (decide (ch = ch')) as [<-|Hne].
  - rewrite lookup_insert_eq, Hc. simpl. rewrite bool_decide_true by done. simpl.
    destruct (c_deleted_at c) eqn:Hd; unfold room_of, room_close; simpl; [by rewrite Hd|done].
  - rewrite lookup_insert_ne, lookup_rooms by done. destruct (chats d !! ch'); simpl; [|done].
    by rewrite bool_decide_false.
Qed.

(** The last member leaves and the chat is deleted. *)
Lemma leave_and_close now ch u d x d' m :
  RemoveMember now ch u d = (Ok x, d') → active_member d ch u = Some m →
  roster_step (roster_of d) (roster_of (Delete_chat now ch d').2).
Proof.
  intros (c & m' & Hc & Hm' & Hr & Hc')%RemoveMember_inv Hm.
  assert (m' = m) as -> by congruence. rewrite (roster_delete _ _ _ _ Hc').
  assert (∀ c', chats d' !! ch = Some c' →
    room_of d' ch c' = room_add (-1) (room_of d ch c)) as Hroom.
  { intros c' Hcc. apply (inj Some). pose proof (lookup_rooms d' ch) as Hl. rewrite Hcc in Hl.
    cbn [fmap option_fmap option_map] in Hl. rewrite <-Hl, Hr. cbn [rooms]. by rewrite lookup_insert_eq. }
  rewrite Hr, (Hroom _ Hc'). cbn [rooms seats]. rewrite insert_insert_eq.
  eapply (roster_leave_and_close _ ch u); [|by apply active_seat]. by rewrite lookup_rooms, Hc.
Qed.

Lemma SetRole_inv ch u role perms title d x d' :
  SetRole ch u role perms title d = (Ok x, d') →
  ∃ m, active_member d ch u = Some m ∧ valid_role role = true ∧
    d' = with_chat_members (<[(ch, u) := with_m_custom_title title (with_m_permissions
      (if bool_decide (perms = ∅) then None else Some (encode_bool_map perms)) (with_m_role role m))]>
      (chat_members d)) d.
Proof.
  unfold SetRole. intros Hrun. prog_inv. apply update_member_inv in Hrun as (m & Hm & _ & ->).
  exists m. split; [done|]. split; [|done]. rewrite Hm in Hcond. simpl in Hcond.
  by destruct (valid_role role).
Qed.

Lemma SetRole_role ch u role perms title d x d' m :
  SetRole ch u role perms title d = (Ok x, d') →
  active_member d ch u = Some m → m_role m ≠ RoleOwner → role ≠ RoleOwner →
  roster_step (roster_of d) (roster_of d').
Proof.
  intros (m' & Hm' & _ & ->)%SetRole_inv Hm Hold Hnew. assert (m' = m) as -> by congruence.
  rewrite roster_put_member. unfold seat_of. simpl.
  apply active_member_Some in Hm as Hm2. destruct Hm2 as [_ Hl]. rewrite Hl.
  eapply (roster_role _ ch u); [by apply active_seat|done|done].
Qed.

Lemma TransferOwnership_transfer ch u v d x d' :
  TransferOwnership ch u v d = (Ok x, d') → roster_step (roster_of d) (roster_of d').
Proof.
  unfold TransferOwnership. intros Hrun. prog_inv.
  apply update_member_inv in Hrun0 as (m & Hm & Hrole & ->). apply bool_decide_eq_true_1 in Hrole.
  apply update_member_inv in Hrun as (m' & Hm' & _ & ->).
  apply active_member_Some in Hm as Hm2. destruct Hm2 as [_ Hl].
  apply active_member_Some in Hm' as Hm2. destruct Hm2 as [Hv Hl'].
  rewrite !roster_put_member. unfold seat_of. simpl. rewrite Hl, Hl'.
  apply (roster_transfer _ ch u v (if decide (u = v) then RoleOwner else m_role m')).
  - by rewrite (active_seat _ _ _ _ Hm), Hrole.
  - destruct (decide (u = v)) as [<-|Hne].
    + by rewrite (active_seat _ _ _ _ Hm), Hrole.
    + simpl in Hv. rewrite lookup_insert_ne in Hv by congruence.
      rewrite lookup_seats, Hv. simpl. unfold seat_of. by rewrite Hl'.
Qed.

Lemma ResolveJoinRequest_reject now ch u by_id d x d' :
  ResolveJoinRequest now ch u by_id false d = (Ok x, d') → roster_of d' = roster_of d.
Proof. unfold ResolveJoinRequest. intros Hrun. prog_inv. by apply roster_same. Qed.

(** What approving does, whoever the applicant is. *)
Lemma ResolveJoinRequest_approve now ch u by_id d x d' :
  ResolveJoinRequest now ch u by_id true d = (Ok x, d') →
  ∃ c role, chats d !! ch = Some c ∧
    (match chat_members d !! (ch, u) with Some m => role = m_role m | None => role = RoleMember end) ∧
    roster_of d' = MkRoster (<[ch := room_add 1 (room_of d ch c)]> (rooms (roster_of d)))
      (<[(ch, u) := MkSeat role true]> (seats (roster_of d))).
Proof.
  unfold ResolveJoinRequest. intros Hrun. prog_inv.
  match goal with H : approve_member _ _ _ _ = _ |- _ => injection H as <- <- end.
  apply bump_Ok in Hrun as ->.
  exists v3, (from_option m_role RoleMember (chat_members d !! (ch, u))). split; [done|].
  split; [by destruct (chat_members d !! (ch, u))|].
  assert (∀ J, roster_of (with_chat_join_requests J d) = roster_of d) as Hsame
    by (intros J; by apply roster_same).
  rewrite <-(Hsame (<[(ch, u) := MkJoinRequest StatusApproved (jr_invite_link_id v0) (jr_created_at v0)
    (Some now) (Some by_id)]> (chat_join_requests d))).
  etrans; [exact (roster_seat_and_bump now ch u _ 1 v3 (with_chat_join_requests _ d) Hsome)|]. do 2 f_equal. by destruct (chat_members d !! (ch, u)).
Qed.

Lemma ResolveJoinRequest_join now ch u by_id d x d' :
  ResolveJoinRequest now ch u by_id true d = (Ok x, d') →
  is_Some (live_chat d ch) → active_member d ch u = None →
  roster_step (roster_of d) (roster_of d').
Proof.
  intros (c & role & Hc & Hrole & ->)%ResolveJoinRequest_approve [c' Hlive] Hna.
  apply live_chat_Some in Hlive as [Hc' Hlive]. assert (c' = c) as -> by congruence.
  eapply (roster_join _ ch u).
  - by rewrite lookup_rooms, Hc.
  - simpl. by rewrite Hlive.
  - by apply not_active_seat.
  - rewrite lookup_seats. destruct (chat_members d !! (ch, u)) as [m|] eqn:Hm; subst role; [right|by left].
    simpl. unfold seat_of. destruct (m_left_at m) eqn:Hl; [done|].
    assert (active_member d ch u = Some m) by by apply active_member_Some. congruence.
Qed.
End methods.

(** ** Methods that leave the roster alone *)
Section neutral.
Implicit Types (d : db) (ch u : uuid).

Lemma UpdateChat_neutral now ch t ds ph un d : roster_of (UpdateChat now ch t ds ph un d).2 = roster_of d.
Proof.
  unfold UpdateChat. destruct (live_chat d ch) as [c|] eqn:Hc; [|done].
  apply live_chat_Some in Hc as [Hc _]. destruct (username_held _ _ _); [done|].
  apply roster_same; [|done]. intros ch'. simpl. destruct (decide (ch = ch')) as [<-|].
  - by rewrite lookup_insert_eq, Hc.
  - by rewrite lookup_insert_ne.
Qed.

Lemma roster_channels_same f d :
  (∀ ch, ch_subscriber_count <$> f !! ch = ch_subscriber_count <$> channels d !! ch) →
  roster_of (with_channels f d) = roster_of d.
Proof.
  intros Hf. apply roster_same; [|done]. intros ch. simpl. destruct (chats d !! ch); [|done].
  simpl. unfold room_of. simpl. by rewrite Hf.
Qed.

Lemma update_group_settings_neutral ch f d : roster_of (update_group_settings ch f d).2 = roster_of d.
Proof. by apply roster_same. Qed.
Lemma update_channel_settings_neutral ch s d : roster_of (update_channel_settings ch s d).2 = roster_of d.
Proof.
  unfold update_channel_settings.
  assert (∀ f, (∀ c, ch_subscriber_count (f c) = ch_subscriber_count c) → roster_of (with_channels
    (update_where (λ id _, bool_decide (id = ch)) (λ _ c, f c) (channels d)) d) = roster_of d) as Hf.
  { intros f Hf. apply roster_channels_same. intros id. rewrite lookup_update_where.
    destruct (channels d !! id); [|done]. simpl. destruct (bool_decide _); [by rewrite Hf|done]. }
  destruct (st_SignatureEnabled s), (st_CommentsEnabled s); try done; by apply Hf.
Qed.
Lemma update_sticker_set_neutral ch s d x d' :
  update_sticker_set ch s d = (Ok x, d') → roster_of d' = roster_of d.
Proof.
  unfold update_sticker_set. destruct (st_StickerSet s); intros Hrun; prog_inv; [|done].
  by rewrite <-(update_group_settings_neutral ch (with_g_sticker_set s0) d), Hrun.
Qed.

Lemma UpdateSettings_neutral ch s d x d' : UpdateSettings ch s d = (Ok x, d') → roster_of d' = roster_of d.
Proof.
  unfold UpdateSettings. intros Hrun. prog_inv.
  apply update_sticker_set_neutral in Hrun as ->.
  match goal with H : update_channel_settings _ _ ?d1 = (_, ?d2) |- _ =>
    assert (roster_of d2 = roster_of d1) as Hch
      by (by rewrite <-(update_channel_settings_neutral ch s d1), H) end.
  match goal with H : update_settings_row _ _ _ = _ |- _ => injection H as _ <- end.
  destruct (st_IsBroadcast s) as [b|].
  - match goal with H : update_group_settings _ _ ?d1 = (_, ?d2) |- _ =>
      assert (roster_of d2 = roster_of d1) as ->
        by (by rewrite <-(update_group_settings_neutral ch (with_g_is_broadcast b) d1), H) end.
    rewrite Hch. by apply roster_same.
  - prog_inv. rewrite Hch. by apply roster_same.
Qed.

Lemma DeleteRole_neutral ch r d x d' : DeleteRole ch r d = (Ok x, d') → roster_of d' = roster_of d.
Proof.
  unfold DeleteRole. intros Hrun. prog_inv. apply roster_same; [done|]. intros k. simpl.
  rewrite lookup_update_where. destruct (chat_members d !! k); [|done]. simpl. by destruct (bool_decide _).
Qed.

Lemma AssignRole_inv ch u r d x d' :
  AssignRole ch u r d = (Ok x, d') →
  ∃ m, active_member d ch u = Some m ∧
    (∀ id, r = Some id → is_Some (role_in ch id d)) ∧
    d' = with_chat_members (<[(ch, u) := with_m_custom_role_id r m]> (chat_members d)) d.
Proof.
  unfold AssignRole. destruct (active_member d ch u) as [m|]; [|done].
  destruct r as [id|].
  - destruct (bool_decide (is_Some (role_in ch id d))) eqn:Hin; [|done].
    apply bool_decide_eq_true_1 in Hin. intros [= _ <-]. exists m. split; [done|]. split; [|done].
    by intros id' [= <-].
  - simpl. intros [= _ <-]. by exists m.
Qed.
Lemma AssignRole_neutral ch u r d x d' : AssignRole ch u r d = (Ok x, d') → roster_of d' = roster_of d.
Proof.
  intros (m & [Hm _]%active_member_Some & _ & ->)%AssignRole_inv. apply roster_members_same. intros k.
  destruct (decide ((ch, u) = k)) as [<-|]; [by rewrite lookup_insert_eq, Hm|by rewrite lookup_insert_ne].
Qed.
Lemma CreateRole_neutral now id ch n ps rk d x d' :
  CreateRole now id ch n ps rk d = (Ok x, d') → roster_of d' = roster_of d.
Proof. unfold CreateRole. intros Hrun. prog_inv. by apply roster_same. Qed.
Lemma UpdateRole_neutral id ch n ps rk d x d' :
  UpdateRole id ch n ps rk d = (Ok x, d') → roster_of d' = roster_of d.
Proof. unfold UpdateRole. intros Hrun. prog_inv. by apply roster_same. Qed.
Lemma links_neutral f d : roster_of (with_chat_invite_links f d) = roster_of d.
Proof. by apply roster_same. Qed.
Lemma CreateJoinRequest_neutral now ch u l d : roster_of (CreateJoinRequest now ch u l d).2 = roster_of d.
Proof.
  unfold CreateJoinRequest. prog_run. destruct (chat_join_requests d !! _); [|by apply roster_same].
  case_bool_decide; [done|by apply roster_same].
Qed.
Lemma RecordPostView_neutral m ch u d : roster_of (RecordPostView m ch u d).2 = roster_of d.
Proof. unfold RecordPostView, in_tx. case_bool_decide; [done|]. by apply roster_same. Qed.
End neutral.

(** ** The handlers as operations *)
Inductive admin_op :=
| OpCreate (new_id : uuid) (input : CreateInput)
| OpAddMembers (ch actor : uuid) (users : list uuid)
| OpRemoveMember (ch actor target : uuid)
| OpLeave (ch user : uuid)
| OpSetRole (ch actor target : uuid) (role : string) (permissions : gmap string bool) (title : string)
| OpTransfer (ch actor target : uuid)
| OpUpdate (ch actor : uuid) (title description username : option string) (photo : option uuid)
| OpSettings (ch actor : uuid) (s : Settings)
| OpDelete (ch actor : uuid)
| OpCreateLink (new_id : uuid) (slug base : string) (ch actor : uuid) (name : string)
    (limit : option Z) (expires : option time)
| OpRevokeLink (ch actor link : uuid)
| OpJoinByInvite (slug : string) (user : uuid)
| OpJoinPublic (ch user : uuid)
| OpResolve (ch actor target : uuid) (approve : bool)
| OpRecordView (ch message user : uuid)
| OpCreateRole (new_id ch actor : uuid) (name : string) (permissions : gmap string bool) (rk : Z)
| OpUpdateRole (ch role actor : uuid) (name : string) (permissions : gmap string bool) (rk : Z)
| OpDeleteRole (ch role actor : uuid)
| OpAssignRole (ch target actor : uuid) (role : option uuid).

Section handlers.
Context {G L : Type}.
Abbreviation handler := (prog (world G L) Error) (only parsing).
Implicit Types (w : world G L).

Definition done_ {A} (m : handler A) : handler () := m ≫= λ _, mret ().
Definition run_op (now : time) (op : admin_op) : handler () :=
  match op with
  | OpCreate id i => done_ (Service_Create now id i)
  | OpAddMembers ch a us => done_ (Service_AddMembers now ch a us)
  | OpRemoveMember ch a t => Service_RemoveMember now ch a t
  | OpLeave ch u => Service_Leave now ch u
  | OpSetRole ch a t role perms title => Service_SetRole ch a t role perms title
  | OpTransfer ch a t => Service_TransferOwnership ch a t
  | OpUpdate ch a title desc name photo => Service_Update now ch a title desc name photo
  | OpSettings ch a s => Service_UpdateSettings ch a s
  | OpDelete ch a => Service_Delete_chat now ch a
  | OpCreateLink id slug base ch a name lim exp =>
      done_ (Service_CreateInviteLink now id slug base ch a name lim exp)
  | OpRevokeLink ch a l => Service_RevokeInviteLink now ch a l
  | OpJoinByInvite slug u => done_ (JoinByInvite now id slug u)
  | OpJoinPublic ch u => done_ (JoinPublic now ch u)
  | OpResolve ch a t b => Service_ResolveJoinRequest now ch a t b
  | OpRecordView ch m u => RecordView ch m u
  | OpCreateRole id ch a name perms rk => done_ (Service_CreateRole now id ch a name perms rk)
  | OpUpdateRole ch r a name perms rk => done_ (Service_UpdateRole ch r a name perms rk)
  | OpDeleteRole ch r a => Service_DeleteRole ch r a
  | OpAssignRole ch t a r => Service_AssignRole ch t a r
  end.

(** The two situations the code lets through: re-ranking the owner, and
    approving an applicant who has become a member meanwhile. *)
Definition sound_op (op : admin_op) (d : db) : bool :=
  match op with
  | OpSetRole ch _ t _ _ _ =>
      match active_member d ch t with Some m => negb (bool_decide (m_role m = RoleOwner)) | None => true end
  | OpResolve ch _ t true => is_none (active_member d ch t)
  | _ => true
  end.

Lemma set_db_id w : set_db (w_db w) w = w.
Proof. by destruct w. Qed.

(** A handler whose effect on the roster is made of roster steps. *)
Definition wsim {A} (m : handler A) w : Prop :=
  rtc roster_step (roster_of (w_db w)) (roster_of (w_db (m w).2)).

Lemma wsim_bind {A B} (m : handler A) (f : A → handler B) w :
  wsim m w → (∀ a w1, m w = (Ok a, w1) → wsim (f a) w1) → wsim (m ≫= f) w.
Proof.
  unfold wsim. intros Hm Hf. unfold mbind, prog_bind.
  destruct (m w) as [[a|e] w1] eqn:Hmw; [|done]. etrans; [exact Hm|]. by apply Hf.
Qed.
Lemma wsim_still {A} (m : handler A) w : w_db (m w).2 = w_db w → wsim m w.
Proof. unfold wsim. by intros ->. Qed.
Lemma wsim_done {A} (m : handler A) w : wsim m w → wsim (done_ m) w.
Proof. intros Hm. apply wsim_bind; [done|]. intros a w1 _. by apply wsim_still. Qed.

(** A repository call that, on an error, leaves the database as it was. *)
Lemma wsim_repo {E A} (m : prog db E A) h w :
  (∀ e d', m (w_db w) = (Err e, d') → d' = w_db w) →
  (∀ a d', m (w_db w) = (Ok a, d') → rtc roster_step (roster_of (w_db w)) (roster_of d')) →
  wsim (repo m h) w.
Proof.
  unfold wsim, repo. intros Herr Hok. destruct (m (w_db w)) as [[a|e] d'] eqn:Hm; simpl; [by eauto|].
  by rewrite (Herr e d').
Qed.
Lemma wsim_best_effort {A} (m : prog db grouperr A) w :
  rtc roster_step (roster_of (w_db w)) (roster_of (m (w_db w)).2) → wsim (best_effort m) w.
Proof. done. Qed.

Lemma authorize_inv ch u allowed denial w r w' :
  authorize ch u allowed denial w = (r, w') →
  w' = w ∧ (∀ cx, r = Ok cx → chat_context (w_db w) ch u = Some cx ∧ ctx_is_member cx = true
    ∧ allowed (ctx_permissions cx) = true).
Proof.
  unfold authorize, repo, ChatContextFor. prog_run.
  destruct (chat_context (w_db w) ch u) as [cx|] eqn:Hcx.
  - rewrite set_db_id. destruct (ctx_is_member cx) eqn:Hm; simpl; [|by intros [= <- <-]].
    destruct (allowed (ctx_permissions cx)) eqn:Ha; simpl; [|by intros [= <- <-]].
    intros [= <- <-]. split; [done|]. by intros cx' [= <-].
  - rewrite set_db_id. by intros [= <- <-].
Qed.
Lemma authorize_same ch u allowed denial w : (authorize ch u allowed denial w).2 = w.
Proof. destruct (authorize ch u allowed denial w) as [r w'] eqn:H. by apply authorize_inv in H as [-> _]. Qed.

Lemma context_inv ch u (h : dberr → Error) w r w1 :
  repo (ChatContextFor ch u) h w = (r, w1) →
  w1 = w ∧ (∀ cx, r = Ok cx → chat_context (w_db w) ch u = Some cx).
Proof.
  unfold repo, ChatContextFor. destruct (chat_context (w_db w) ch u) as [cx'|]; rewrite set_db_id.
  - intros [= <- <-]. split; [done|]. by intros cx [= <-].
  - by intros [= <- <-].
Qed.

Lemma wsim_bind_authorize {B} ch u allowed denial (f : ChatContext → handler B) w :
  (∀ cx, chat_context (w_db w) ch u = Some cx → ctx_is_member cx = true →
    allowed (ctx_permissions cx) = true → wsim (f cx) w) →
  wsim (authorize ch u allowed denial ≫= f) w.
Proof.
  intros Hf. apply wsim_bind; [apply wsim_still; by rewrite authorize_same|].
  intros cx w1 (-> & Hcx)%authorize_inv. destruct (Hcx cx eq_refl) as (? & ? & ?). auto.
Qed.
Lemma wsim_bind_context {B} ch u h (f : ChatContext → handler B) w :
  (∀ cx, chat_context (w_db w) ch u = Some cx → wsim (f cx) w) →
  wsim (repo (ChatContextFor ch u) h ≫= f) w.
Proof.
  intros Hf. apply wsim_bind.
  - apply wsim_still. destruct (repo (ChatContextFor ch u) h w) as [r w1] eqn:Hr.
    by apply context_inv in Hr as [-> _].
  - intros cx w1 (-> & Hcx)%context_inv. by apply Hf, Hcx.
Qed.
Lemma wsim_bind_fail_if {B} b e (f : () → handler B) w :
  (b = false → wsim (f ()) w) → wsim (fail_if b e ≫= f) w.
Proof.
  intros Hf. destruct b; [by apply wsim_still|]. apply wsim_bind; [by apply wsim_still|].
  intros [] w1 [= <-]. by apply Hf.
Qed.
Lemma wsim_bind_refuse {B} o (f : () → handler B) w :
  (o = None → wsim (f ()) w) → wsim (refuse o ≫= f) w.
Proof.
  intros Hf. destruct o; [by apply wsim_still|]. apply wsim_bind; [by apply wsim_still|].
  intros [] w1 [= <-]. by apply Hf.
Qed.
Lemma wsim_bind_pure {A B} (r : result Error A) (f : A → handler B) w :
  (∀ a, r = Ok a → wsim (f a) w) → wsim ((λ w, (r, w)) ≫= f) w.
Proof.
  intros Hf. destruct r; [|by apply wsim_still]. apply wsim_bind; [by apply wsim_still|].
  intros a' w1 [= <- <-]. by apply Hf.
Qed.
Lemma wsim_announce ch e p w : wsim (announce ch e p) w.
Proof. by apply wsim_still. Qed.

(** A repository call that leaves the roster alone, whatever it returns. *)
Lemma wsim_repo_neutral {E A} (m : prog db E A) h w :
  roster_of (m (w_db w)).2 = roster_of (w_db w) → wsim (repo m h) w.
Proof. unfold wsim, repo. destruct (m (w_db w)) as [[a|e] d']; simpl; by intros ->. Qed.
Lemma wsim_repo_step {A} (m : prog db grouperr A) h w :
  (∀ e d', m (w_db w) = (Err e, d') → d' = w_db w) →
  (∀ a d', m (w_db w) = (Ok a, d') → roster_step (roster_of (w_db w)) (roster_of d')) →
  wsim (repo m h) w.
Proof. intros Herr Hok. apply wsim_repo; [done|]. intros a d' Hm. by eapply rtc_once, Hok. Qed.

Lemma AddMember_sim now ch u by_id d :
  rtc roster_step (roster_of d) (roster_of (AddMember now ch u RoleMember by_id d).2).
Proof.
  destruct (AddMember now ch u RoleMember by_id d) as [[x|e] d'] eqn:Hm.
  - apply rtc_once. by apply AddMember_join in Hm as [_ Hm].
  - by apply in_tx_Err in Hm as ->.
Qed.

Lemma member_context d ch u cx m :
  chat_context d ch u = Some cx → ctx_is_member cx = true → active_member d ch u = Some m →
  ctx_role cx = m_role m.
Proof. intros Hcx Hm Ha. destruct (chat_context_member _ _ _ _ Hcx Hm) as (m' & Hm' & ->). congruence. Qed.

Lemma rank_owner role : rank role <=? 0 = false → role ≠ RoleOwner.
Proof. by intros H ->. Qed.
Lemma rank_nonneg role : 0 ≤ rank role.
Proof. unfold rank. repeat case_bool_decide; lia. Qed.

Lemma Create_sim now id i w : wsim (Service_Create now id i) w.
Proof.
  unfold Service_Create. apply wsim_bind_pure. intros [title username] _.
  apply wsim_bind.
  { apply wsim_repo_step; [intros e d'; apply in_tx_Err|].
    by intros a d' [_ Hs]%CreateChat_open. }
  intros ch w1 _. apply wsim_bind; [|intros; by apply wsim_still].
  generalize (cr_MemberIDs i) as us. intros us. revert w1. induction us as [|u us IH]; intros w1.
  - by apply wsim_still.
  - simpl. apply wsim_bind; [|intros; apply IH].
    destruct (decide _); [by apply wsim_still|]. apply wsim_best_effort, AddMember_sim.
Qed.

Lemma add_one_sim now ch a u w : wsim (add_one now ch a u) w.
Proof.
  unfold wsim, add_one. pose proof (AddMember_sim now ch u (Some a) (w_db w)) as Hs.
  destruct (AddMember now ch u RoleMember (Some a) (w_db w)) as [[x|e] d']; [done|].
  by destruct e.
Qed.
Lemma AddMembers_sim now ch a us w : wsim (Service_AddMembers now ch a us) w.
Proof.
  unfold Service_AddMembers. apply wsim_bind_authorize. intros cx _ _ _.
  generalize (∅ : gmap uuid string) as acc. revert w. induction us as [|u us IH]; intros w acc.
  - by apply wsim_still.
  - simpl. apply wsim_bind; [apply add_one_sim|]. intros; apply IH.
Qed.

Lemma RemoveMember_sim now ch a t w : wsim (Service_RemoveMember now ch a t) w.
Proof.
  unfold Service_RemoveMember. apply wsim_bind_authorize. intros cx _ _ _.
  apply wsim_bind_context. intros target Ht. apply wsim_bind_fail_if. intros Hm%negb_false_iff.
  apply wsim_bind_fail_if. intros Hrank. apply wsim_bind; [|intros; apply wsim_announce].
  apply wsim_repo_step; [intros e d'; apply in_tx_Err|]. intros x d' Hrun.
  destruct (chat_context_member _ _ _ _ Ht Hm) as (m & Ha & Hrole).
  eapply RemoveMember_leave; [done..|]. rewrite <-Hrole. apply rank_owner.
  apply Z.leb_gt in Hrank. apply Z.leb_gt. pose proof (rank_nonneg (ctx_role cx)). lia.
Qed.

Lemma Leave_sim now ch u w : wsim (Service_Leave now ch u) w.
Proof.
  unfold Service_Leave. apply wsim_bind_context. intros cx Hcx.
  apply wsim_bind_fail_if. intros Hm%negb_false_iff. apply wsim_bind_fail_if. intros Hown.
  destruct (chat_context_member _ _ _ _ Hcx Hm) as (m & Ha & Hrole).
  destruct (ctx_member_count cx <=? 1) eqn:Hcount.
  - (* the chat closes behind the last member *)
    unfold wsim, mbind, prog_bind, repo, best_effort.
    destruct (RemoveMember now ch u (w_db w)) as [[x|e] d'] eqn:Hrun; simpl.
    + by eapply rtc_once, leave_and_close.
    + by apply in_tx_Err in Hrun as ->.
  - apply wsim_bind.
    { apply wsim_repo_step; [intros e d'; apply in_tx_Err|]. intros x d' Hrun.
      eapply RemoveMember_leave; [done..|]. rewrite <-Hrole. intros Howner.
      rewrite bool_decide_true in Hown by done. simpl in Hown.
      apply Z.ltb_ge in Hown. apply Z.leb_gt in Hcount. lia. }
    intros [] w1 _. apply wsim_bind; [by apply wsim_still|]. intros; apply wsim_announce.
Qed.

Lemma assignable_owner role : assignable role = None → role ≠ RoleOwner.
Proof. by intros H ->. Qed.
Lemma update_member_err ch u P f e d e' d' : update_member ch u P f e d = (Err e', d') → d' = d.
Proof. unfold update_member. destruct (active_member d ch u) as [m|]; [destruct (P m)|]; naive_solver. Qed.
Lemma SetRole_err ch u role perms title d e d' : SetRole ch u role perms title d = (Err e, d') → d' = d.
Proof.
  unfold SetRole. prog_run. destruct (_ && _); [by intros [= _ <-]|]. apply update_member_err.
Qed.

Lemma SetRole_sim ch a t role perms title w :
  sound_op (OpSetRole ch a t role perms title) (w_db w) = true →
  wsim (Service_SetRole ch a t role perms title) w.
Proof.
  simpl. intros Hsound. unfold Service_SetRole. apply wsim_bind_authorize. intros cx _ _ _.
  apply wsim_bind_refuse. intros Hrole%assignable_owner. apply wsim_bind_fail_if. intros _.
  apply wsim_bind_refuse. intros _. apply wsim_repo_step; [intros e d'; apply SetRole_err|].
  intros x d' Hrun. destruct (SetRole_inv _ _ _ _ _ _ _ _ Hrun) as (m & Hm & _).
  eapply SetRole_role; [done..| |done]. rewrite Hm in Hsound.
  by apply negb_true_iff, bool_decide_eq_false_1 in Hsound.
Qed.

Lemma Transfer_sim ch a t w : wsim (Service_TransferOwnership ch a t) w.
Proof.
  unfold Service_TransferOwnership. apply wsim_bind_context. intros cx _.
  apply wsim_bind_fail_if. intros _. apply wsim_repo_step; [intros e d'; apply in_tx_Err|].
  intros x d'. apply TransferOwnership_transfer.
Qed.

Lemma Delete_sim now ch a w : wsim (Service_Delete_chat now ch a) w.
Proof.
  unfold Service_Delete_chat. apply wsim_bind_context. intros cx Hcx. apply wsim_bind_fail_if. intros _.
  apply wsim_repo_step; [done|]. intros x d' Hrun.
  destruct (chat_context_chat _ _ _ _ Hcx) as [_ (c & [Hc _]%live_chat_Some & _)].
  assert (d' = (Delete_chat now ch (w_db w)).2) as -> by by rewrite Hrun.
  rewrite (roster_delete _ _ c) by done. apply roster_close. by rewrite lookup_rooms, Hc.
Qed.

Lemma JoinByInvite_sim now slug u w : wsim (JoinByInvite now id slug u) w.
Proof.
  unfold JoinByInvite. apply wsim_bind.
  { apply wsim_repo_neutral. unfold ResolveInvite. prog_run.
    by destruct (head _). }
  intros inv w1 _. apply wsim_bind; [by apply wsim_still|]. intros [] w2 _. simpl.
  destruct (ri_RequiresApproval inv).
  - apply wsim_bind; [|intros; by apply wsim_still]. apply wsim_repo_neutral, CreateJoinRequest_neutral.
  - unfold wsim. pose proof (AddMember_sim now (ri_ChatID inv) u None (w_db w2)) as Hs.
    destruct (AddMember now (ri_ChatID inv) u RoleMember None (w_db w2)) as [[x|e] d'].
    + etrans; [exact Hs|]. by rewrite <-(links_neutral
        (update_where (λ id _, bool_decide (id = ri_LinkID inv))
          (λ _ l, with_il_usage_count (il_usage_count l + 1) l) (chat_invite_links d'))).
    + by destruct e.
Qed.

Lemma JoinPublic_sim now ch u w : wsim (JoinPublic now ch u) w.
Proof.
  unfold JoinPublic. apply wsim_bind_context. intros cx _. simpl.
  destruct (ctx_is_member cx); [by apply wsim_still|].
  apply wsim_bind; [by apply wsim_still|]. intros st w1 _.
  destruct (from_option st_JoinRequiresApproval false st).
  - apply wsim_bind; [|intros; by apply wsim_still]. apply wsim_repo_neutral, CreateJoinRequest_neutral.
  - unfold wsim. pose proof (AddMember_sim now ch u None (w_db w1)) as Hs.
    destruct (AddMember now ch u RoleMember None (w_db w1)) as [[x|e] d']; [done|]. by destruct e.
Qed.

Lemma Resolve_sim now ch a t b w :
  sound_op (OpResolve ch a t b) (w_db w) = true → wsim (Service_ResolveJoinRequest now ch a t b) w.
Proof.
  simpl. intros Hsound. unfold Service_ResolveJoinRequest. apply wsim_bind_authorize. intros cx Hcx _ _.
  destruct (chat_context_chat _ _ _ _ Hcx) as [_ (c & Hc & _)].
  apply wsim_repo; [intros e d'; apply in_tx_Err|]. intros x d' Hrun. destruct b.
  - apply rtc_once. eapply ResolveJoinRequest_join; [done|by eexists|].
    by destruct (active_member _ _ _).
  - by rewrite (ResolveJoinRequest_reject _ _ _ _ _ _ _ Hrun).
Qed.

Lemma neutral_sim {A} (m : prog db grouperr A) h w :
  (∀ e d', m (w_db w) = (Err e, d') → d' = w_db w) →
  (∀ a d', m (w_db w) = (Ok a, d') → roster_of d' = roster_of (w_db w)) → wsim (repo m h) w.
Proof. intros Herr Hok. apply wsim_repo; [done|]. intros a d' Hm. by rewrite (Hok _ _ Hm). Qed.

Lemma CreateInviteLink_neutral now id slug ch a name lim exp d :
  roster_of (CreateInviteLink now id slug ch a name lim exp d).2 = roster_of d.
Proof. unfold CreateInviteLink. destruct (_ || _); [done|apply links_neutral]. Qed.
Lemma RevokeInviteLink_neutral now ch l d : roster_of (RevokeInviteLink now ch l d).2 = roster_of d.
Proof. unfold RevokeInviteLink. destruct (hits _ _ _); [apply links_neutral|done]. Qed.
Lemma UpdateRole_err ch id n ps rk d e d' : UpdateRole ch id n ps rk d = (Err e, d') → d' = d.
Proof.
  unfold UpdateRole. prog_run. destruct (role_in ch id d); [|by intros [= _ <-]].
  destruct (role_name_held _ _ _ _); [by intros [= _ <-]|done].
Qed.
Lemma DeleteRole_err ch id d e d' : DeleteRole ch id d = (Err e, d') → d' = d.
Proof. unfold DeleteRole. prog_run. destruct (role_in ch id d); [done|by intros [= _ <-]]. Qed.
Lemma AssignRole_err ch u r d e d' : AssignRole ch u r d = (Err e, d') → d' = d.
Proof.
  unfold AssignRole. destruct (active_member d ch u); [|by intros [= _ <-]].
  destruct r; [destruct (bool_decide _)|]; [done| |done]. by intros [= _ <-].
Qed.
Lemma UpdateChat_err now ch t ds ph un d e d' : UpdateChat now ch t ds ph un d = (Err e, d') → d' = d.
Proof.
  unfold UpdateChat. destruct (live_chat d ch); [|done]. destruct (username_held _ _ _); [|done].
  by intros [= _ <-].
Qed.

Lemma run_op_sim now op w : sound_op op (w_db w) = true → wsim (run_op now op) w.
Proof.
  destruct op; intros Hsound; simpl run_op.
  - apply wsim_done, Create_sim.
  - apply wsim_done, AddMembers_sim.
  - apply RemoveMember_sim.
  - apply Leave_sim.
  - by apply SetRole_sim.
  - apply Transfer_sim.
  - unfold Service_Update. apply wsim_bind_authorize. intros cx _ _ _. apply wsim_bind_pure. intros t _.
    apply wsim_bind_refuse. intros _. apply wsim_bind_refuse. intros _.
    apply wsim_bind; [|intros; apply wsim_announce]. apply wsim_repo_neutral, UpdateChat_neutral.
  - unfold Service_UpdateSettings. apply wsim_bind_authorize. intros cx _ _ _. apply wsim_bind_pure. intros t _.
    apply neutral_sim; [intros e d'; apply in_tx_Err|]. intros a d'. apply UpdateSettings_neutral.
  - apply Delete_sim.
  - apply wsim_done. unfold Service_CreateInviteLink. apply wsim_bind_authorize. intros cx _ _ _.
    apply wsim_bind_fail_if. intros _. apply wsim_bind_fail_if. intros _.
    apply wsim_bind; [|intros; by apply wsim_still]. apply wsim_repo_neutral, CreateInviteLink_neutral.
  - unfold Service_RevokeInviteLink. apply wsim_bind_authorize. intros cx _ _ _.
    apply wsim_repo_neutral, RevokeInviteLink_neutral.
  - apply wsim_done, JoinByInvite_sim.
  - apply wsim_done, JoinPublic_sim.
  - by apply Resolve_sim.
  - unfold RecordView. apply wsim_bind_context. intros cx _. apply wsim_bind_fail_if. intros _.
    apply wsim_repo_neutral, RecordPostView_neutral.
  - apply wsim_done. unfold Service_CreateRole. apply wsim_bind_authorize. intros cx _ _ _.
    apply wsim_bind_pure. intros n _. apply wsim_bind_refuse. intros _.
    apply neutral_sim; [intros e d'; apply in_tx_Err|]. intros a d'. apply CreateRole_neutral.
  - apply wsim_done. unfold Service_UpdateRole. apply wsim_bind_authorize. intros cx _ _ _.
    apply wsim_bind_pure. intros n _. apply wsim_bind_refuse. intros _.
    apply neutral_sim; [intros e d'; apply UpdateRole_err|]. intros a d'. apply UpdateRole_neutral.
  - unfold Service_DeleteRole. apply wsim_bind_authorize. intros cx _ _ _.
    apply neutral_sim; [intros e d'; apply DeleteRole_err|]. intros a d'. apply DeleteRole_neutral.
  - unfold Service_AssignRole. apply wsim_bind_authorize. intros cx _ _ _. apply wsim_bind_context.
    intros tcx _. apply wsim_bind_fail_if. intros _. apply wsim_bind_fail_if. intros _.
    apply neutral_sim; [intros e d'; apply AssignRole_err|]. intros a d'. apply AssignRole_neutral.
Qed.

(** ** Runs of many operations *)
Fixpoint run_ops (l : list (time * admin_op)) w : world G L :=
  match l with
  | [] => w
  | (now, op) :: l => run_ops l (run_op now op w).2
  end.
Fixpoint sound_ops (l : list (time * admin_op)) w : bool :=
  match l with
  | [] => true
  | (now, op) :: l => sound_op op (w_db w) && sound_ops l (run_op now op w).2
  end.

Lemma run_ops_sim l w :
  sound_ops l w = true → rtc roster_step (roster_of (w_db w)) (roster_of (w_db (run_ops l w))).
Proof.
  revert w. induction l as [|[now op] l IH]; intros w; [done|]. simpl.
  intros [Hop Hl]%andb_prop. etrans; [by apply (run_op_sim now)|by apply IH].
Qed.
End handlers.

(** ** What the roster's invariant says of the tables *)
Definition membership_exact (d : db) : Prop := ∀ ch c, chats d !! ch = Some c →
  c_member_count c = count_where (is_active_in ch) (chat_members d) ∧
  (c_type c = ChatChannel → ∀ x, channels d !! ch = Some x → ch_subscriber_count x = c_member_count c).
Definition owned_once (d : db) : Prop := ∀ ch c, live_chat d ch = Some c → administered (c_type c) →
  ∃ u m, active_member d ch u = Some m ∧ m_role m = RoleOwner ∧
    ∀ v mv, chat_members d !! (ch, v) = Some mv → m_role mv = RoleOwner → v = u.

Lemma roster_ok_membership d : roster_ok (roster_of d) → membership_exact d.
Proof.
  intros Hok ch c Hc.
  destruct (ok_counters _ Hok ch (room_of d ch c)) as [Hn Hs]; [by rewrite lookup_rooms, Hc|].
  rewrite present_roster_of in Hn, Hs. simpl in Hn. split; [exact Hn|].
  intros Hty x Hx. rewrite Hn. apply Hs; [done|]. simpl. by rewrite Hx.
Qed.
Lemma roster_ok_owned d : roster_ok (roster_of d) → owned_once d.
Proof.
  intros Hok ch c [Hc Hl]%live_chat_Some Hadm.
  destruct (ok_owner _ Hok ch (room_of d ch c)) as (u & Hu & Huniq).
  - by rewrite lookup_rooms, Hc.
  - simpl. by rewrite Hl.
  - done.
  - rewrite lookup_seats in Hu. apply fmap_Some in Hu as (m & Hm & Hseat). unfold seat_of in Hseat.
    injection Hseat as Hrole Hleft. exists u, m. split; [|split; [done|]].
    + apply active_member_Some. split; [done|]. by destruct (m_left_at m).
    + intros v mv Hmv Hr. apply (Huniq v (seat_of mv)); [|done]. by rewrite lookup_seats, Hmv.
Qed.

Lemma roster_ok_empty_db : roster_ok (roster_of empty_db).
Proof.
  split; intros *; rewrite ?lookup_seats, ?lookup_rooms; simpl; rewrite lookup_empty; done.
Qed.
