(* ===== verification/Comments.v ===== *)
(** * Channel comments and the discussion group ([internal/groups/comments.go])

    A post of a channel with a discussion group is mirrored into the group, and the
    comments on it are the replies to the mirror.  [channel_post_comments] ties the two
    copies together.  Nothing locks a post while it is mirrored: a run of [mirrorPost] is
    a send, a claim and perhaps a withdrawal, with other commits in between. *)

From stdpp Require Import base tactics list sorting relations gmap strings.
From Stdlib Require Import ZArith Lia.
From S2P Require Import Prelude Steps GoString Httpx Permissions Store ChatContext EventLog MessageRepo MessageTheory RateLimit Ports Antispam Payloads MessagingService MessagingTheory OrganiseTheory TopicsTheory GroupsRepo Groups.

Set Default Goal Selector "!".
Open Scope Z_scope.

Inductive commenterr := ErrNotAChannel | ErrNotAGroup | ErrAlreadyLinked | ErrNoDiscussionGroup | CommentNotFound.

Record Discussion := MkDiscussion {
  di_ChannelChatID : uuid;
  di_DiscussionChatID : uuid;
  di_CommentsEnabled : bool;
}.
Record CommentThread := MkCommentThread {
  th_PostMessageID : uuid;
  th_DiscussionChatID : uuid;
  th_RootMessageID : uuid;
  th_CommentCount : Z;
}.

(** ** The repository *)

Definition set_discussion (channelID : uuid) (v : option uuid) (d : db) : db :=
  with_channels (update_where (λ k _, bool_decide (k = channelID)) (λ _, with_ch_discussion_chat_id v) (channels d)) d.
Definition set_linked (groupID : uuid) (v : option uuid) (d : db) : db :=
  with_groups (update_where (λ k _, bool_decide (k = groupID)) (λ _, with_g_linked_channel_id v) (groups d)) d.
(** Linked to something other than [id]. *)
Definition linked_elsewhere (link : option uuid) (id : uuid) : bool :=
  match link with Some x => negb (bool_decide (x = id)) | None => false end.
Definition LinkDiscussion (channelID groupID : uuid) : prog db commenterr () :=
  in_tx (
    c ← gets (λ d, channels d !! channelID);
    c ← or_fail c ErrNotAChannel;
    g ← gets (λ d, groups d !! groupID);
    g ← or_fail g ErrNotAGroup;
    fail_if (linked_elsewhere (ch_discussion_chat_id c) groupID) ErrAlreadyLinked;;
    fail_if (linked_elsewhere (g_linked_channel_id g) channelID) ErrAlreadyLinked;;
    modify (set_discussion channelID (Some groupID));;
    modify (set_linked groupID (Some channelID))).
Definition UnlinkDiscussion (channelID : uuid) : prog db commenterr () :=
  in_tx (
    c ← gets (λ d, channels d !! channelID);
    c ← or_fail c ErrNotAChannel;
    groupID ← or_fail (ch_discussion_chat_id c) ErrNoDiscussionGroup;
    modify (set_discussion channelID None);;
    modify (set_linked groupID None)).
Definition DiscussionOf (channelID : uuid) (d : db) : result commenterr Discussion :=
  match channels d !! channelID with
  | None => Err ErrNotAChannel
  | Some c =>
      match ch_discussion_chat_id c with
      | None => Err ErrNoDiscussionGroup
      | Some g => Ok (MkDiscussion channelID g (ch_comments_enabled c))
      end
  end.
Definition comment_count (postID : uuid) (d : db) : Z := from_option ps_comment_count 0 (channel_post_stats d !! postID).
Definition CommentThreadOf (postID : uuid) (d : db) : result commenterr CommentThread :=
  match channel_post_comments d !! postID with
  | Some t => Ok (MkCommentThread postID (pc_discussion_chat_id t) (pc_discussion_message_id t) (comment_count postID d))
  | None => Err CommentNotFound
  end.
(** [ON CONFLICT (post_message_id) DO NOTHING] *)
Definition RecordCommentThread (postID channelID discussionChatID discussionMessageID : uuid) : prog db commenterr bool := λ d,
  match channel_post_comments d !! postID with
  | Some _ => (Ok false, d)
  | None => (Ok true, with_channel_post_comments
      (<[postID := MkPostComments channelID discussionChatID discussionMessageID]> (channel_post_comments d)) d)
  end.
Definition withdrawn (now : time) (r : message_row) : message_row :=
  with_r_deleted_at (Some now) (with_r_content "" (with_r_entities (JArr []) (with_r_payload (JObj []) r))).
Definition WithdrawMirror (now : time) (messageID : uuid) (d : db) : db :=
  with_messages (update_where (λ k r, bool_decide (k = messageID) && (if r_deleted_at r is None then true else false))
    (λ _, withdrawn now) (messages d)) d.
Definition is_comment (rootMessageID : uuid) (_ : uuid) (r : message_row) : bool :=
  bool_decide (r_reply_to_id r = Some rootMessageID) && (if r_deleted_at r is None then true else false).
Definition CountComments (postID chatID rootMessageID : uuid) : prog db commenterr Z := λ d,
  let count := count_where (is_comment rootMessageID) (messages d) in
  let s := match channel_post_stats d !! postID with
           | Some s => with_ps_comment_count count s
           | None => MkPostStatsRow chatID 0 0 0 count
           end in
  (Ok count, with_channel_post_stats (<[postID := s]> (channel_post_stats d)) d).

(** ** The handlers *)

(** What a run mints and what others commit during it: before it sends, during the send,
    before it claims, before it withdraws and before it reads again. *)
Record mirror_env (G L : Type) := MkMirrorEnv {
  me_client : uuid;
  me_id : uuid;
  me_before_send : world G L → world G L;
  me_before : db → db;
  me_after : db → db;
  me_before_claim : world G L → world G L;
  me_before_withdraw : world G L → world G L;
  me_before_read : world G L → world G L;
}.
Arguments MkMirrorEnv {G L}.
Arguments me_client {G L}.
Arguments me_id {G L}.
Arguments me_before_send {G L}.
Arguments me_before {G L}.
Arguments me_after {G L}.
Arguments me_before_claim {G L}.
Arguments me_before_withdraw {G L}.
Arguments me_before_read {G L}.

Section service.
Context `{SpamGuard G} `{MessageLimiter L} `{PayloadCodec}.
Abbreviation handler := (prog (world G L) Error) (only parsing).

Definition link_error (e : commenterr) : Error :=
  match e with
  | ErrNotAChannel | ErrNotAGroup => NotFound CodeChatNotFound "Chat not found"
  | ErrAlreadyLinked => Conflict CodeConflict "One of those chats is already linked to another"
  | _ => Internal
  end.
Definition Service_LinkDiscussion (channelID groupID actorID : uuid) : handler () :=
  channelCtx ← authorize channelID actorID EditGroup "You cannot change this channel";
  fail_if (negb (bool_decide (ctx_chat_type channelCtx = ChatChannel)))
    (WithField (Validation "Only a channel can have a discussion group") "chat_id" "must be a channel");;
  groupCtx ← authorize groupID actorID EditGroup "You cannot change that group";
  fail_if (negb (bool_decide (ctx_chat_type groupCtx = ChatGroup)))
    (WithField (Validation "A discussion group has to be a group") "group_chat_id" "must be a group");;
  repo (LinkDiscussion channelID groupID) link_error;;
  announce channelID EventChatUpdated (PayloadOther (JObj [("chat_id", JStr (uuid_String channelID));
    ("discussion_chat_id", JStr (uuid_String groupID))]%string));;
  announce groupID EventChatUpdated (PayloadOther (JObj [("chat_id", JStr (uuid_String groupID));
    ("linked_channel_id", JStr (uuid_String channelID))]%string)).
Definition Service_UnlinkDiscussion (channelID actorID : uuid) : handler () := λ w,
  match authorize channelID actorID EditGroup "You cannot change this channel" w with
  | (Err e, w) => (Err e, w)
  | (Ok _, w) =>
      match UnlinkDiscussion channelID (w_db w) with
      | (Err ErrNotAChannel, _) => (Err (WithField (Validation "Only a channel can have a discussion group") "chat_id" "must be a channel"), w)
      | (Err ErrNoDiscussionGroup, _) => (Ok (), w)
      | (Err _, _) => (Err Internal, w)
      | (Ok _, d) => announce channelID EventChatUpdated (PayloadOther (JObj [("chat_id", JStr (uuid_String channelID));
          ("discussion_chat_id", JNull)]%string)) (set_db d w)
      end
  end.

(** Members, and anyone at all for a public channel. *)
Definition canSeeChannel (channelID viewerID : uuid) : handler () :=
  cx ← repo (ChatContextFor channelID viewerID) chat_not_found;
  if ctx_is_member cx then mret ()
  else
    c ← gets (λ w, live_chat (w_db w) channelID);
    c ← or_fail c Internal;
    fail_if (negb (c_is_public c)) not_member_error.

Definition answer {A} (r : result Error A) : handler A := λ w, (r, w).
(** Posted by the chat, not by a person. *)
Definition mirror_params (client : uuid) (discussion : Discussion) (post : Message) : SendParams :=
  MkSendParams (di_DiscussionChatID discussion) uuid_nil client (mType post) (mContent post)
    (RawDoc (mEntities post)) (RawDoc (mPayload post)) None [] []
    (Some (MkForward (Some (mChatID post)) (Some (mID post)) None (mAuthorSignature post))) RawNil false true None.
Definition post_not_found : Error := NotFound CodeMessageNotFound "Post not found".
Definition mirrorPost (now : time) (env : mirror_env G L) (discussion : Discussion) (postID : uuid) : handler CommentThread :=
  post ← repo (MessageByID postID) (λ e, match e with ErrNotFound => post_not_found | _ => Internal end);
  fail_if (negb (bool_decide (mChatID post = di_ChannelChatID discussion))) post_not_found;;
  fail_if (bool_decide (is_Some (mDeletedAt post))) post_not_found;;
  modify (me_before_send env);;
  mirror ← repo (Send now (me_id env) (me_before env) (me_after env) (mirror_params (me_client env) discussion post)) internal;
  modify (me_before_claim env);;
  won ← repo (RecordCommentThread postID (di_ChannelChatID discussion) (di_DiscussionChatID discussion) (mID (sr_Message mirror))) internal;
  if won : bool then mret (MkCommentThread postID (di_DiscussionChatID discussion) (mID (sr_Message mirror)) 0)
  else
    modify (me_before_withdraw env);;
    modify (λ w, set_db (WithdrawMirror now (mID (sr_Message mirror)) (w_db w)) w);;
    modify (me_before_read env);;
    t ← gets (λ w, CommentThreadOf postID (w_db w));
    answer (match t with Ok t => Ok t | Err _ => Err Internal end).
Definition CommentThreadFor (now : time) (env : mirror_env G L) (channelID postID viewerID : uuid) : handler CommentThread :=
  canSeeChannel channelID viewerID;;
  discussion ← (λ w, (match DiscussionOf channelID (w_db w) with
                      | Ok x => Ok x
                      | Err ErrNotAChannel => Err (WithField (Validation "Only a channel has comments") "chat_id" "must be a channel")
                      | Err ErrNoDiscussionGroup => Err (NotFound CodeNotFound "This channel has no discussion group")
                      | Err _ => Err Internal
                      end, w));
  fail_if (negb (di_CommentsEnabled discussion)) (Forbidden CodeForbidden "Comments are switched off here");;
  thread ← gets (λ w, CommentThreadOf postID (w_db w));
  match thread with
  | Ok t => mret t
  | Err _ => mirrorPost now env discussion postID
  end.
Definition Comments (now : time) (env : mirror_env G L) (channelID postID viewerID : uuid) (beforeSeq : option Z) (limit : Z)
    : handler (CommentThread * list Message) :=
  let limit := if (limit <=? 0) || (200 <? limit) then 50 else limit in
  thread ← CommentThreadFor now env channelID postID viewerID;
  comments ← gets (λ w, History (MkHistoryQuery (th_DiscussionChatID thread) viewerID beforeSeq None limit
    (Some (th_RootMessageID thread)) None) (w_db w));
  mret (thread, comments).
(** The reader joins the discussion group by commenting. *)
Definition join_discussion (now : time) (chatID authorID : uuid) : handler () := λ w,
  match AddMember now chatID authorID RoleMember None (w_db w) with
  | (Ok _, d) => (Ok (), set_db d w)
  | (Err GAlreadyMember, _) => (Ok (), w)
  | (Err GChatFull, _) => (Err (Conflict CodeConflict "The discussion group is full"), w)
  | (Err _, _) => (Err Internal, w)
  end.
Definition comment_input (thread : CommentThread) (authorID : uuid) (i : SendInput) : SendInput :=
  MkSendInput (th_DiscussionChatID thread) authorID (in_ClientMessageID i) (in_Type i) (in_Content i) (in_Entities i) (in_Payload i)
    (Some (th_RootMessageID thread)) (in_Attachments i) (in_Mentions i) (in_Forward i) (in_ReplyMarkup i) (in_IsSilent i) (in_TopicID i).
Definition Comment (now : time) (env : mirror_env G L) (new_id : uuid) (before after : db → db) (channelID postID authorID : uuid)
    (i : SendInput) : handler Message :=
  thread ← CommentThreadFor now env channelID postID authorID;
  cx ← repo (ChatContextFor (th_DiscussionChatID thread) authorID) internal;
  (if ctx_is_member cx then mret () else join_discussion now (th_DiscussionChatID thread) authorID);;
  comment ← Service_Send now new_id before after (comment_input thread authorID i);
  modify (λ w, set_db (CountComments postID channelID (th_RootMessageID thread) (w_db w)).2 w);;
  mret comment.
(** The observer: mirrors a post as it goes out; failures are only logged. *)
Definition ObserveMessage (now : time) (env : mirror_env G L) (cx : ChatContext) (m : Message) (w : world G L) : world G L :=
  if negb (bool_decide (ctx_chat_type cx = ChatChannel)) || bool_decide (is_Some (mDeletedAt m)) then w
  else match DiscussionOf (ctx_chat_id cx) (w_db w) with
       | Err _ => w
       | Ok discussion => if negb (di_CommentsEnabled discussion) then w else (mirrorPost now env discussion (mID m) w).2
       end.
End service.

(** * Channel comments: the theorems

    A post has at most one comment thread, every other mirror of it is withdrawn, and the
    links between channels and discussion groups go both ways. *)

(** ** Threads and mirrors *)

Definition dead (id : uuid) (d : db) : Prop := ∃ r, messages d !! id = Some r ∧ r_deleted_at r ≠ None.
(** A thread that is recorded stays as it is, and a deleted message stays deleted. *)
Definition threads_grow (d d' : db) : Prop :=
  (∀ post row, channel_post_comments d !! post = Some row → channel_post_comments d' !! post = Some row) ∧
  (∀ id, dead id d → dead id d').
#[export] Instance threads_grow_preorder : PreOrder threads_grow.
Proof. split; [by intros d|]. intros d1 d2 d3 [H12 K12] [H23 K23]. split; auto. Qed.

Definition mirror_rel (d d' : db) : Prop := store_ok d → store_ok d' ∧ threads_grow d d'.
#[export] Instance mirror_rel_preorder : PreOrder mirror_rel.
Proof.
  split; [intros d Hok; split; [done|reflexivity]|]. intros d1 d2 d3 H12 H23 Hok.
  destruct (H12 Hok) as [Hok2 Ht12]. destruct (H23 Hok2) as [Hok3 Ht23]. split; [done|by etransitivity].
Qed.
(** Others keep the store in order, threads and tombstones, and store no message under an
    id that is this run's. *)
Definition others_do (id : uuid) (d d' : db) : Prop :=
  mirror_rel d d' ∧ (messages d !! id = None → messages d' !! id = None).
#[export] Instance others_do_preorder id : PreOrder (others_do id).
Proof.
  split; [intros d; split; [reflexivity|done]|]. intros d1 d2 d3 [H12 K12] [H23 K23]. split; [by etransitivity|auto].
Qed.
Record mirror_env_ok {G L} (env : mirror_env G L) : Prop := {
  mo_before_send : ∀ w, others_do (me_id env) (w_db w) (w_db (me_before_send env w));
  mo_before : ∀ d, others_do (me_id env) d (me_before env d);
  mo_after : ∀ d, others_do (me_id env) d (me_after env d);
  mo_before_claim : ∀ w, others_do (me_id env) (w_db w) (w_db (me_before_claim env w));
  mo_before_withdraw : ∀ w, others_do (me_id env) (w_db w) (w_db (me_before_withdraw env w));
  mo_before_read : ∀ w, others_do (me_id env) (w_db w) (w_db (me_before_read env w));
}.
(** A mirror that is there and not the root of the post's thread is dead. *)
Definition no_stray (postID id : uuid) (d : db) : Prop :=
  messages d !! id = None ∨ dead id d ∨
  ∃ row, channel_post_comments d !! postID = Some row ∧ pc_discussion_message_id row = id.

Lemma sent_db_threads now id p row n d : channel_post_comments (sent_db now id p row n d) = channel_post_comments d.
Proof. unfold sent_db. by destruct (FanoutThreshold <? _), (sp_AsChat p), (sp_TopicID p). Qed.
Lemma send_body_rel now id p d r d' : send_body now id p d = (Ok r, d') →
  mirror_rel d d' ∧ (store_ok d → mID (sr_Message r) = id).
Proof.
  intros Hbody. split.
  - intros Hok. split; [by eapply store_step_ok, Hok; econstructor|].
    apply send_body_Ok in Hbody as (c & ent & pay & mk & _ & _ & _ & _ & [_ _ Hid _ _] & -> & _); [|apply Hok]. split.
    + intros post row. by rewrite sent_db_threads.
    + intros id' (m & Hm & Hd). exists m. rewrite messages_sent_db, lookup_insert_ne by congruence. done.
  - intros Hok. apply send_body_Ok in Hbody as (c & ent & pay & mk & _ & _ & _ & _ & _ & _ & -> & _); [done|apply Hok].
Qed.
Lemma mirror_send now id before after p d r d' :
  sp_AsChat p = true → (∀ d, others_do id d (before d)) → (∀ d, others_do id d (after d)) →
  Send now id before after p d = (r, d') →
  mirror_rel d d' ∧ (store_ok d → messages d !! id = None → messages d' !! id = None ∨
    ∃ res, r = Ok res ∧ mID (sr_Message res) = id).
Proof.
  intros Has Hb Ha. unfold Send. rewrite Has. rewrite decide_True by done. specialize (Hb d). destruct Hb as [Hb Hfresh].
  destruct (in_tx (send_body now id p) (before d)) as [[res|e] d1] eqn:Htx.
  - apply in_tx_Ok_inv in Htx. apply send_body_rel in Htx as [Hrel Hid]. intros [= <- <-].
    split; [by etransitivity|]. intros Hok _. right. exists res. split; [done|]. apply Hid. by apply Hb.
  - apply in_tx_Err in Htx as ->. destruct (is_unique_violation_of _ _).
    + pose proof (messageByClientID_db (sp_ChatID p) (sp_SenderID p) (sp_ClientMessageID p) (after (before d))) as Hd.
      destruct (Ha (before d)) as [Ha1 Hfresh2].
      destruct (messageByClientID _ _ _ (after (before d))) as [[m|e'] d2]; simpl in *; subst d2; intros [= <- <-];
        (split; [by etransitivity|intros _ Hn; left; auto]).
    + intros [= <- <-]. split; [done|]. intros _ Hn. left. auto.
Qed.

Section mirrors.
Context `{SpamGuard G} `{MessageLimiter L} `{PayloadCodec}.
Implicit Types (w : world G L).

Lemma RecordCommentThread_spec post c g id d r d' :
  RecordCommentThread post c g id d = (r, d') →
  mirror_rel d d' ∧ messages d' = messages d ∧
  ((∃ row, channel_post_comments d !! post = Some row ∧ r = Ok false) ∨
   r = Ok true ∧ channel_post_comments d' !! post = Some (MkPostComments c g id)).
Proof.
  unfold RecordCommentThread. destruct (channel_post_comments d !! post) as [row|] eqn:Hrow; intros [= <- <-].
  - split; [reflexivity|]. split; [done|]. left. by exists row.
  - split; [|split; [done|right; split; [done|apply lookup_insert_eq]]]. intros Hok. split; [by apply (store_ok_same d)|].
    split; [|done]. intros post' row' Hrow'. simpl. rewrite lookup_insert_ne; [done|]. intros <-. congruence.
Qed.
Lemma WithdrawMirror_spec now id d :
  mirror_rel d (WithdrawMirror now id d) ∧ (is_Some (messages d !! id) → dead id (WithdrawMirror now id d)).
Proof.
  split.
  - intros Hok. split.
    + eapply (store_ok_rewrite d _ _ (withdrawn now)); try done. all: by intros.
    + split; [done|]. intros id' (r & Hr & Hd). eexists. unfold WithdrawMirror. simpl. rewrite lookup_update_where, Hr. simpl.
      split; [done|]. by destruct (_ && _).
  - intros [r Hr]. eexists. unfold WithdrawMirror. simpl. rewrite lookup_update_where, Hr. simpl. split; [done|].
    rewrite bool_decide_true by done. simpl. by destruct (r_deleted_at r) eqn:Hd; simpl; rewrite ?Hd.
Qed.
Lemma no_stray_grows post id d d' : threads_grow d d' → dead id d ∨
  (∃ row, channel_post_comments d !! post = Some row ∧ pc_discussion_message_id row = id) → no_stray post id d'.
Proof.
  intros [Ht Hd] [Hdead|(row & Hrow & Hm)]; right; [left; auto|right]. exists row. auto.
Qed.

(** What a run of [mirrorPost] does, whatever others do meanwhile. *)
Definition mirror_outcome (post id : uuid) (r : result Error CommentThread) (d d' : db) : Prop :=
  store_ok d' ∧ threads_grow d d' ∧ no_stray post id d' ∧
  ∀ t, r = Ok t → th_PostMessageID t = post ∧ ∃ row, channel_post_comments d' !! post = Some row ∧
    pc_discussion_chat_id row = th_DiscussionChatID t ∧ pc_discussion_message_id row = th_RootMessageID t.
Lemma mirrorPost_outcome now env disc post w r w' :
  mirror_env_ok env → store_ok (w_db w) → messages (w_db w) !! me_id env = None →
  mirrorPost now env disc post w = (r, w') → mirror_outcome post (me_id env) r (w_db w) (w_db w').
Proof.
  intros [E1 E2 E3 E4 E5 E6] Hok Hfresh.
  assert (∀ e, mirror_outcome post (me_id env) (Err e) (w_db w) (w_db w)) as Hnone.
  { intros e. split; [done|]. split; [reflexivity|]. split; [by left|done]. }
  unfold mirrorPost. rewrite bind_run. unfold repo at 1, MessageByID. destruct (messages (w_db w) !! post) as [m|] eqn:Hpost.
  2: { rewrite set_db_same. intros [= <- <-]. apply Hnone. }
  rewrite set_db_same. rewrite bind_run. unfold fail_if at 1. destruct (negb _); [intros [= <- <-]; apply Hnone|].
  cbn beta iota. rewrite bind_run. unfold fail_if at 1. destruct (bool_decide _); [intros [= <- <-]; apply Hnone|].
  cbn beta iota. rewrite bind_run. unfold modify at 1. cbn beta iota.
  set (w1 := me_before_send env w). destruct (E1 w) as [R1 F1]. fold w1 in R1, F1. destruct (R1 Hok) as [Hok1 G1].
  rewrite bind_run. unfold repo at 1.
  destruct (Send now (me_id env) (me_before env) (me_after env) (mirror_params (me_client env) disc (base_message post m)) (w_db w1))
    as [s d2] eqn:Hsend. apply mirror_send in Hsend as [R2 F2]; [|done..]. destruct (R2 Hok1) as [Hok2 G2].
  specialize (F2 Hok1 (F1 Hfresh)).
  destruct s as [res|e].
  2: { intros [= <- <-]. split; [done|]. split; [by etransitivity|]. split; [|done]. left. by destruct F2 as [?|(? & ? & _)]. }
  rewrite bind_run. unfold modify at 1. cbn beta iota. set (w3 := me_before_claim env (set_db d2 w1)).
  destruct (E4 (set_db d2 w1)) as [R3 F3]. fold w3 in R3, F3. destruct (R3 Hok2) as [Hok3 G3].
  rewrite bind_run. unfold repo at 1. destruct (RecordCommentThread _ _ _ _ (w_db w3)) as [won d4] eqn:Hrec.
  apply RecordCommentThread_spec in Hrec as (R4 & Hmsg & Hcase). destruct (R4 Hok3) as [Hok4 G4].
  assert (threads_grow (w_db w) d4) as G14 by (etransitivity; [|exact G4]; etransitivity; [|exact G3]; by etransitivity).
  destruct Hcase as [(row & Hrow & ->)|[-> Hwon]]; cbn beta iota.
  2: { intros [= <- <-]. split; [done|]. split; [done|]. split.
       - destruct F2 as [Hn|(res' & [= <-] & Hid)].
         + left. cbn [w_db set_db]. rewrite Hmsg. by apply F3.
         + right; right. eexists. split; [exact Hwon|done].
       - intros t [= <-]. split; [done|]. eexists. split; [exact Hwon|done]. }
  rewrite bind_run. unfold modify at 1. cbn beta iota. set (w5 := me_before_withdraw env (set_db d4 w3)).
  destruct (E5 (set_db d4 w3)) as [R5 F5]. fold w5 in R5, F5. destruct (R5 Hok4) as [Hok5 G5].
  rewrite bind_run. unfold modify at 1. cbn beta iota. set (d6 := WithdrawMirror now (mID (sr_Message res)) (w_db w5)).
  destruct (WithdrawMirror_spec now (mID (sr_Message res)) (w_db w5)) as [R6 Hdead]. fold d6 in R6, Hdead.
  destruct (R6 Hok5) as [Hok6 G6].
  rewrite bind_run. unfold modify at 1. cbn beta iota. set (w7 := me_before_read env (set_db d6 w5)).
  destruct (E6 (set_db d6 w5)) as [R7 F7]. fold w7 in R7, F7. destruct (R7 Hok6) as [Hok7 G7].
  assert (threads_grow d4 (w_db w7)) as G47 by (etransitivity; [exact G5|]; by etransitivity).
  assert (channel_post_comments (w_db w7) !! post = Some row) as Hrow7 by (apply G47, G4; exact Hrow).
  rewrite bind_run. unfold gets at 1. cbn beta iota. unfold answer, CommentThreadOf. rewrite Hrow7. intros [= <- <-].
  split; [done|]. split; [by etransitivity|]. split.
  2: { intros t [= <-]. split; [done|]. exists row. done. }
  assert (messages (w_db w5) !! me_id env = None → messages (w_db w7) !! me_id env = None) as Hgone.
  { intros Hn. apply F7. unfold d6, WithdrawMirror. simpl. by rewrite lookup_update_where, Hn. }
  destruct F2 as [Hn|(res' & [= <-] & Hid)].
  - left. apply Hgone, F5. cbn [w_db set_db]. rewrite Hmsg. by apply F3.
  - destruct (messages (w_db w5) !! me_id env) as [r|] eqn:Hr; [|left; by apply Hgone].
    right; left. apply G7. rewrite <-Hid. apply Hdead. rewrite Hid, Hr. by eexists.
Qed.

Lemma reads_seen ch u : reads (canSeeChannel (G := G) (L := L) ch u).
Proof.
  unfold canSeeChannel. apply reads_bind; [apply reads_context|intros cx]. destruct (ctx_is_member cx); [by intros w|].
  apply reads_bind; [by intros w|intros c]. apply reads_bind; [by intros w; unfold or_fail; destruct c|intros c'].
  apply reads_fail_if.
Qed.
Lemma CommentThreadFor_outcome now env ch post u w r w' :
  mirror_env_ok env → store_ok (w_db w) → messages (w_db w) !! me_id env = None →
  CommentThreadFor now env ch post u w = (r, w') → mirror_outcome post (me_id env) r (w_db w) (w_db w').
Proof.
  intros Henv Hok Hfresh. unfold CommentThreadFor. rewrite bind_run. pose proof (reads_seen ch u w) as Hseen.
  assert (∀ (w0 : world G L) e, w_db w0 = w_db w → mirror_outcome post (me_id env) (Err e) (w_db w) (w_db w0)) as Hnone.
  { intros w0 e ->. split; [done|]. split; [reflexivity|]. split; [by left|done]. }
  destruct (canSeeChannel ch u w) as [[[]|e] w1]; cbn [snd] in Hseen; [|intros [= <- <-]; by apply Hnone].
  rewrite bind_run. destruct (match DiscussionOf ch (w_db w1) with Ok x => Ok x | Err _ => _ end) as [disc|e];
    [|intros [= <- <-]; by apply Hnone].
  rewrite bind_run. unfold fail_if at 1. destruct (negb _); [intros [= <- <-]; by apply Hnone|]. cbn beta iota.
  rewrite bind_run. unfold gets at 1. cbn beta iota. unfold CommentThreadOf. rewrite Hseen.
  destruct (channel_post_comments (w_db w) !! post) as [row|] eqn:Hrow.
  - intros [= <- <-]. rewrite Hseen. split; [done|]. split; [reflexivity|]. split; [by left|].
    intros t [= <-]. split; [done|]. exists row. done.
  - rewrite <-Hseen in *. by apply mirrorPost_outcome.
Qed.
End mirrors.

(** However requests for the comments of a post overlap, with each other and with
    anything that keeps recorded threads and tombstones: a request answers with the one
    thread recorded for the post, which no later request ever answers differently; and a
    mirror it stored is the root of that thread or has been withdrawn, so that the
    discussion group shows the post at most once. *)
Lemma a_post_has_one_thread `{SpamGuard G} `{MessageLimiter L} `{PayloadCodec} now env ch post u (w : world G L) r w' :
  mirror_env_ok env → store_ok (w_db w) → messages (w_db w) !! me_id env = None →
  CommentThreadFor now env ch post u w = (r, w') →
  store_ok (w_db w') ∧ threads_grow (w_db w) (w_db w') ∧ no_stray post (me_id env) (w_db w') ∧
  ∀ t, r = Ok t →
    (∃ row, channel_post_comments (w_db w') !! post = Some row ∧
      pc_discussion_chat_id row = th_DiscussionChatID t ∧ pc_discussion_message_id row = th_RootMessageID t) ∧
    ∀ now2 env2 ch2 u2 (w2 : world G L) t2 w2',
      threads_grow (w_db w') (w_db w2) → mirror_env_ok env2 → store_ok (w_db w2) → messages (w_db w2) !! me_id env2 = None →
      CommentThreadFor now2 env2 ch2 post u2 w2 = (Ok t2, w2') →
      th_RootMessageID t2 = th_RootMessageID t ∧ th_DiscussionChatID t2 = th_DiscussionChatID t.
Proof.
  intros Henv Hok Hfresh Hrun.
  destruct (CommentThreadFor_outcome now env ch post u w r w' Henv Hok Hfresh Hrun) as (Hok' & Hgrow & Hstray & Hres).
  split_and!; [done..|]. intros t Ht. destruct (Hres t Ht) as [_ (row & Hrow & Hd & Hm)]. split; [by exists row|].
  intros now2 env2 ch2 u2 w2 t2 w2' Hlater Henv2 Hok2 Hfresh2 Hrun2.
  destruct (CommentThreadFor_outcome now2 env2 ch2 post u2 w2 _ w2' Henv2 Hok2 Hfresh2 Hrun2) as (_ & Hgrow2 & _ & Hres2).
  destruct (Hres2 t2 eq_refl) as [_ (row2 & Hrow2 & Hd2 & Hm2)].
  assert (channel_post_comments (w_db w2') !! post = Some row) as Hrow' by (by apply Hgrow2, Hlater).
  rewrite Hrow' in Hrow2. injection Hrow2 as <-. split; congruence.
Qed.

(** ** Links *)

(** A channel names a group exactly when the group names the channel. *)
Definition links_mutual (d : db) : Prop :=
  ∀ c g, (∃ row, channels d !! c = Some row ∧ ch_discussion_chat_id row = Some g) ↔
         (∃ row, groups d !! g = Some row ∧ g_linked_channel_id row = Some c).
Lemma lookup_set_discussion c v d k :
  channels (set_discussion c v d) !! k = (λ r, if decide (k = c) then with_ch_discussion_chat_id v r else r) <$> channels d !! k.
Proof.
  unfold set_discussion. simpl. rewrite lookup_update_where. destruct (channels d !! k); [|done]. simpl.
  destruct (decide (k = c)); [by rewrite bool_decide_true|by rewrite bool_decide_false].
Qed.
Lemma lookup_set_linked g v d k :
  groups (set_linked g v d) !! k = (λ r, if decide (k = g) then with_g_linked_channel_id v r else r) <$> groups d !! k.
Proof.
  unfold set_linked. simpl. rewrite lookup_update_where. destruct (groups d !! k); [|done]. simpl.
  destruct (decide (k = g)); [by rewrite bool_decide_true|by rewrite bool_decide_false].
Qed.
Lemma discussion_of_set c v d c' g' :
  (∃ row, channels (set_discussion c v d) !! c' = Some row ∧ ch_discussion_chat_id row = Some g') ↔
  if decide (c' = c) then is_Some (channels d !! c) ∧ v = Some g'
  else ∃ row, channels d !! c' = Some row ∧ ch_discussion_chat_id row = Some g'.
Proof.
  setoid_rewrite lookup_set_discussion. case_decide as Heq.
  - subst. destruct (channels d !! c) as [row|]; simpl; split.
    + intros (? & [= <-] & Hv). split; [by eexists|done].
    + intros [_ ->]. by eexists.
    + by intros (? & ? & _).
    + by intros [[? ?] _].
  - destruct (channels d !! c') as [row|]; simpl; naive_solver.
Qed.
Lemma linked_of_set g v d g' c' :
  (∃ row, groups (set_linked g v d) !! g' = Some row ∧ g_linked_channel_id row = Some c') ↔
  if decide (g' = g) then is_Some (groups d !! g) ∧ v = Some c'
  else ∃ row, groups d !! g' = Some row ∧ g_linked_channel_id row = Some c'.
Proof.
  setoid_rewrite lookup_set_linked. case_decide as Heq.
  - subst. destruct (groups d !! g) as [row|]; simpl; split.
    + intros (? & [= <-] & Hv). split; [by eexists|done].
    + intros [_ ->]. by eexists.
    + by intros (? & ? & _).
    + by intros [[? ?] _].
  - destruct (groups d !! g') as [row|]; simpl; naive_solver.
Qed.
Lemma linked_elsewhere_false link id : linked_elsewhere link id = false ↔ link = None ∨ link = Some id.
Proof.
  destruct link as [x|]; simpl; [|naive_solver]. rewrite negb_false_iff, bool_decide_eq_true. naive_solver.
Qed.
Lemma LinkDiscussion_mutual c g d : links_mutual d → links_mutual (LinkDiscussion c g d).2.
Proof.
  intros Hm. destruct (LinkDiscussion c g d) as [[[]|e] d'] eqn:Hrun; cbn [snd].
  2: { unfold LinkDiscussion in Hrun. by apply in_tx_Err in Hrun as ->. }
  unfold LinkDiscussion in Hrun. prog_inv. rename Hcond into Hc2, Hcond0 into Hc1.
  apply linked_elsewhere_false in Hc1, Hc2.
  match goal with H : channels d !! c = Some ?x |- _ => rename x into cr, H into Hcr end.
  match goal with H : groups d !! g = Some ?x |- _ => rename x into gr, H into Hgr end.
  injection Hrun as <-.
  intros c' g'. rewrite linked_of_set. change (channels (set_linked g (Some c) ?x)) with (channels x).
  rewrite (discussion_of_set c (Some g) d c' g'). change (groups (set_discussion c (Some g) d)) with (groups d).
  destruct (decide (c' = c)) as [->|Hnc], (decide (g' = g)) as [->|Hng].
  - rewrite Hcr, Hgr. split; intros _; split; by eauto.
  - split; [intros [_ [= ->]]; done|]. intros Hx. apply Hm in Hx as (row & Hrow & Hd). rewrite Hcr in Hrow. injection Hrow as <-.
    destruct Hc1; congruence.
  - split; [|intros [_ [= ->]]; done]. intros Hx. apply Hm in Hx as (row & Hrow & Hd). rewrite Hgr in Hrow. injection Hrow as <-.
    destruct Hc2; congruence.
  - apply Hm.
Qed.
Lemma UnlinkDiscussion_mutual c d : links_mutual d → links_mutual (UnlinkDiscussion c d).2.
Proof.
  intros Hm. destruct (UnlinkDiscussion c d) as [[[]|e] d'] eqn:Hrun; cbn [snd].
  2: { unfold UnlinkDiscussion in Hrun. by apply in_tx_Err in Hrun as ->. }
  unfold UnlinkDiscussion in Hrun. prog_inv.
  match goal with H : channels d !! c = Some ?x |- _ => rename x into cr, H into Hcr end.
  match goal with H : ch_discussion_chat_id cr = Some ?x |- _ => rename x into g, H into Hg end.
  destruct (proj1 (Hm c g)) as (gr & Hgr & Hl); [by exists cr|].
  injection Hrun as <-.
  intros c' g'. rewrite linked_of_set. change (channels (set_linked g None ?x)) with (channels x).
  rewrite (discussion_of_set c None d c' g'). change (groups (set_discussion c None d)) with (groups d).
  destruct (decide (c' = c)) as [->|Hnc], (decide (g' = g)) as [->|Hng].
  - split; by intros [_ ?].
  - split; [by intros [_ ?]|]. intros Hx. apply Hm in Hx as (row & Hrow & Hd). congruence.
  - split; [|by intros [_ ?]]. intros Hx. apply Hm in Hx as (row & Hrow & Hd). congruence.
  - apply Hm.
Qed.

#[local] Existing Instance toy_codec.

(** ** Samples: Ben (2) owns the public channel 30, whose discussion group is 20, with the
    post 400 in it; the private channel 31 has the group 21 and the post 401. *)
Definition channel_chat (public : bool) : chat_row := MkChat ChatChannel "" "" None None None 0 None None 1 public 0 None.
Definition post_of (ch : uuid) : SendParams :=
  MkSendParams ch 2 90 TypeText "news" RawNil RawNil None [] [] None RawNil false false None.
Definition add_channel (ch : uuid) (public : bool) (d : db) : db :=
  with_chat_members (<[(ch, 2%N) := MkMember RoleOwner None "" 0 0 0 0 "" 0 None None None None 0]> (chat_members d))
    (with_chats (<[ch := channel_chat public]> (chats d)) d).
Definition link_rows (d : db) : db :=
  with_groups {[20%N := MkGroup false false "" (Some 30%N); 21%N := MkGroup false false "" (Some 31%N)]}
    (with_channels {[30%N := MkChannel 0 false true (Some 20%N); 31%N := MkChannel 0 false true (Some 21%N)]} d).
Definition channels_db1 : db := link_rows (add_channel 31 false (add_channel 30 true (add_group 21 2 group_db))).
Definition channels_db2 : db := (send_body 5 400 (post_of 30) channels_db1).2.
Definition channels_db : db := (send_body 6 401 (post_of 31) channels_db2).2.
Abbreviation cworld := (world (gmap (string * string) Antispam.Score) limiter_state).
Definition channels_world : cworld := set_db channels_db sample_world.
Definition plain_env (client id : uuid) : mirror_env (gmap (string * string) Antispam.Score) limiter_state :=
  MkMirrorEnv client id (λ w, w) (λ d, d) (λ d, d) (λ w, w) (λ w, w) (λ w, w).
Lemma plain_env_ok client id : mirror_env_ok (plain_env client id).
Proof. split; intros x; reflexivity. Qed.

Lemma add_channel_ok (d : db) ch public : chats d !! ch = None → store_ok d → store_ok (add_channel ch public d).
Proof.
  intros Hnew Hok. eapply store_step_ok; [|exact Hok]. destruct Hok as (Hlog & _ & Hcur). apply step_rest; [exact Hlog|done| |].
  - by apply extends_chats_insert.
  - simpl. eapply cursors_ok_insert; [apply lookup_insert_eq|simpl; lia|].
    eapply cursors_ok_extends; [by apply extends_chats_insert|exact Hcur].
Qed.
Lemma link_rows_ok d : store_ok d → store_ok (link_rows d).
Proof. intros Hok. by apply (store_ok_same d). Qed.
Lemma channels_db_ok : store_ok channels_db.
Proof.
  assert (store_ok channels_db1) as H1.
  { apply link_rows_ok, add_channel_ok; [vm_compute; reflexivity|]. apply add_channel_ok; [vm_compute; reflexivity|].
    apply add_group_store_ok; [vm_compute; reflexivity|]. exact (proj1 group_db_ok). }
  assert (store_ok channels_db2) as H2.
  { destruct (run_is_Ok (send_body 5 400 (post_of 30)) channels_db1) as [r Hr]; [vm_compute; reflexivity|].
    eapply store_step_ok; [exact (step_send _ _ _ _ _ _ Hr)|exact H1]. }
  destruct (run_is_Ok (send_body 6 401 (post_of 31)) channels_db2) as [r Hr]; [vm_compute; reflexivity|].
  eapply store_step_ok; [exact (step_send _ _ _ _ _ _ Hr)|exact H2].
Qed.
Lemma a_post_has_one_thread_witness :
  ∃ t w', CommentThreadFor minute (plain_env 91 500) 30 400 1 channels_world = (Ok t, w') ∧ th_RootMessageID t = 500%N ∧
    no_stray 400 500 (w_db w') ∧
    ∃ row, channel_post_comments (w_db w') !! 400%N = Some row ∧ pc_discussion_message_id row = 500%N.
Proof.
  destruct (run_is_Ok (CommentThreadFor minute (plain_env 91 500) 30 400 1) channels_world) as [t Hrun]; [vm_compute; reflexivity|].
  destruct (a_post_has_one_thread minute (plain_env 91 500) 30 400 1 channels_world (Ok t) _ (plain_env_ok 91 500) channels_db_ok
    ltac:(vm_compute; reflexivity) Hrun) as (_ & _ & Hstray & Hres).
  destruct (Hres t eq_refl) as [(row & Hrow & _ & Hm) _].
  assert (th_RootMessageID <$> (match (CommentThreadFor minute (plain_env 91 500) 30 400 1 channels_world).1 with Ok t => Some t | Err _ => None end)
    = Some 500%N) as Hroot by (vm_compute; reflexivity).
  rewrite Hrun in Hroot. cbn [fst fmap option_fmap option_map] in Hroot. injection Hroot as Hroot.
  eexists t, _. split; [exact Hrun|]. split; [exact Hroot|]. split; [exact Hstray|].
  exists row. split; [exact Hrow|]. rewrite Hm. exact Hroot.
Defined.

(** Two requests at once: the second claims before the first, whose mirror is withdrawn. *)
Definition racing_env : mirror_env (gmap (string * string) Antispam.Score) limiter_state :=
  MkMirrorEnv 91 500 (λ w, w) (λ d, d) (λ d, d) (λ w, (CommentThreadFor minute (plain_env 92 501) 30 400 2 w).2) (λ w, w) (λ w, w).
Lemma the_losing_mirror_is_withdrawn :
  let '(r, w) := CommentThreadFor minute racing_env 30 400 1 channels_world in
  (match r with Ok t => th_RootMessageID t | Err _ => 0%N end) = 501%N ∧
  r_deleted_at <$> messages (w_db w) !! 500%N = Some (Some minute) ∧ r_deleted_at <$> messages (w_db w) !! 501%N = Some None.
Proof. vm_compute. done. Qed.

(** ** What is not checked *)

(** The thread is looked up by the post alone: through any channel with comments that they
    may see, anybody reaches the comments of any post. *)
Lemma any_channel_opens_any_thread `{SpamGuard G} `{MessageLimiter L} `{PayloadCodec} now env ch post u (w : world G L) c cr g row :
  live_chat (w_db w) ch = Some c → c_is_public c = true →
  channels (w_db w) !! ch = Some cr → ch_discussion_chat_id cr = Some g → ch_comments_enabled cr = true →
  channel_post_comments (w_db w) !! post = Some row →
  CommentThreadFor now env ch post u w =
    (Ok (MkCommentThread post (pc_discussion_chat_id row) (pc_discussion_message_id row) (comment_count post (w_db w))), w).
Proof.
  intros Hc Hpub Hcr Hg Hen Hrow. unfold CommentThreadFor. rewrite bind_run.
  assert (canSeeChannel ch u w = (Ok (), w)) as ->.
  { unfold canSeeChannel. rewrite bind_run. unfold repo, ChatContextFor, chat_context. rewrite Hc. cbn beta iota.
    rewrite set_db_same. match goal with |- (if ?b then _ else _) _ = _ => destruct b end; [done|].
    rewrite bind_run. unfold gets at 1. cbn beta iota. rewrite Hc. rewrite bind_run. unfold or_fail at 1. cbn beta iota.
    unfold fail_if. by rewrite Hpub. }
  rewrite bind_run. unfold DiscussionOf. rewrite Hcr, Hg. cbn beta iota.
  rewrite bind_run. unfold fail_if at 1. cbn [di_CommentsEnabled]. rewrite Hen. cbn [negb]. cbn beta iota.
  rewrite bind_run. unfold gets at 1. cbn beta iota. unfold CommentThreadOf. rewrite Hrow. done.
Qed.
(** Anna (1), in no channel, comments on the post of the private channel 31 through the
    public one, and is thereby a member of its private group. *)
Lemma commenting_enters_a_private_group :
  let w1 := (CommentThreadFor minute (plain_env 91 500) 31 401 2 channels_world).2 in
  let i := MkSendInput 0 0 93 TypeText "hello" RawNil RawNil None [] [] None RawNil false None in
  let '(r, w2) := Comment (2 * minute) (plain_env 94 501) 502 (λ d, d) (λ d, d) 30 401 1 i w1 in
  is_Ok r = true ∧ active_member (w_db w1) 21 1 = None ∧ m_role <$> active_member (w_db w2) 21 1 = Some RoleMember ∧
  is_Ok (canSeeChannel 31 1 w2).1 = false.
Proof. vm_compute. done. Qed.
(** A mirror carries neither the attachments of the post nor its signature. *)
Lemma mirrors_lose_media client disc id r :
  sp_Attachments (mirror_params client disc (base_message id r)) = [] ∧
  fwd_signature <$> sp_Forward (mirror_params client disc (base_message id r)) = Some ""%string.
Proof. done. Qed.
