(* ===== verification/AdminTheory.v ===== *)
(** * Group administration: the theorems

    That the handlers implement the abstract roster, what that gives for the
    tables, who may do what, and the situations the code does not guard. *)

From stdpp Require Import base tactics list gmap strings sorting relations.
From Stdlib Require Import ZArith Ascii String Lia.
From S2P Require Import Prelude GoString Httpx Permissions Store ChatContext EventLog MessageRepo RateLimit Ports Payloads MessagingService Roster GroupsRepo Groups GroupsTheory.

Set Default Goal Selector "!".
Open Scope Z_scope.

(** C10: Group administration refines the abstract roster: whatever handler runs, on
    whatever world, with success or not, what it does to chats, counters, roles and
    presence is a sequence of roster steps (open, join, leave, re-rank a non-owner,
    transfer, close); except re-ranking an owner and approving an applicant who is
    already in, the two runs [sound_op] names. *)
Theorem administration_refines_roster {G L} now op (w : world G L) :
  sound_op op (w_db w) = true →
  rtc roster_step (roster_of (w_db w)) (roster_of (w_db (run_op now op w).2)).
Proof. apply run_op_sim. Qed.

(** C11: Through any number of administrative operations by anyone, as long as none of them
    is one of the two the code lets through although they break the books (a change of the
    owner's own role, and the approval of an applicant who has become a member meanwhile),
    the denormalised counters stay exact (the member count of every chat is the number
    of its current members, and a channel's subscriber count agrees with it), and every
    live group or channel has exactly one owner, who is present. *)
Theorem administration_keeps_counts_and_owner {G L} ops (w : world G L) :
  roster_ok (roster_of (w_db w)) → sound_ops ops w = true →
  membership_exact (w_db (run_ops ops w)) ∧ owned_once (w_db (run_ops ops w)).
Proof.
  intros Hok Hops. pose proof (roster_steps_ok _ _ (run_ops_sim ops w Hops) Hok) as Hok'.
  split; [by apply roster_ok_membership|by apply roster_ok_owned].
Qed.

(** ** Failure changes nothing *)
Section atomicity.
Context {G L : Type}.
Abbreviation handler := (prog (world G L) Error) (only parsing).
Implicit Types (w : world G L).

(** A failing run leaves the world as it found it. *)
Definition atomic {A} (m : handler A) : Prop := ∀ w e w', m w = (Err e, w') → w' = w.
(** A successful run does. *)
Definition observing {A} (m : handler A) : Prop := ∀ w a w', m w = (Ok a, w') → w' = w.
(** No run fails. *)
Definition certain {A} (m : handler A) : Prop := ∀ w, is_Ok (m w).1 = true.

Lemma atomic_read {A B} (m : handler A) (f : A → handler B) :
  atomic m → observing m → (∀ a, atomic (f a)) → atomic (m ≫= f).
Proof.
  intros Hat Hobs Hf w e w'. unfold mbind, prog_bind. destruct (m w) as [[a|e'] w1] eqn:Hm.
  - apply Hobs in Hm as ->. apply Hf.
  - intros [= _ <-]. by eapply Hat.
Qed.
Lemma atomic_last {A B} (m : handler A) (f : A → handler B) :
  atomic m → (∀ a, certain (f a)) → atomic (m ≫= f).
Proof.
  intros Hat Hf w e w'. unfold mbind, prog_bind. destruct (m w) as [[a|e'] w1] eqn:Hm.
  - intros Herr. specialize (Hf a w1). by rewrite Herr in Hf.
  - intros [= _ <-]. by eapply Hat.
Qed.
Lemma certain_atomic {A} (m : handler A) : certain m → atomic m.
Proof. intros Hm w e w' Herr. specialize (Hm w). by rewrite Herr in Hm. Qed.
Lemma certain_bind {A B} (m : handler A) (f : A → handler B) :
  certain m → (∀ a, certain (f a)) → certain (m ≫= f).
Proof.
  intros Hm Hf w. unfold mbind, prog_bind. specialize (Hm w). destruct (m w) as [[a|e'] w1]; [apply Hf|done].
Qed.
Lemma certain_ret {A} (a : A) : certain (mret a).
Proof. done. Qed.
Lemma certain_announce ch e p : certain (announce (G := G) (L := L) ch e p).
Proof. done. Qed.
Lemma certain_best_effort {A} (m : prog db grouperr A) : certain (best_effort m).
Proof. done. Qed.
Lemma atomic_fail_if b e : atomic (fail_if b e).
Proof. intros w e' w'. destruct b; by intros [= _ <-]. Qed.
Lemma observing_fail_if b e : observing (fail_if b e).
Proof. intros w e' w'. destruct b; by intros [= _ <-]. Qed.
Lemma atomic_refuse o : atomic (refuse o).
Proof. intros w e' w'. destruct o; by intros [= _ <-]. Qed.
Lemma observing_refuse o : observing (refuse o).
Proof. intros w e' w'. destruct o; by intros [= _ <-]. Qed.
Lemma atomic_pure {A} (r : result Error A) : atomic (λ w, (r, w)).
Proof. intros w e w' [= _ <-]. done. Qed.
Lemma observing_pure {A} (r : result Error A) : observing (λ w, (r, w)).
Proof. intros w e w' [= _ <-]. done. Qed.
Lemma atomic_context ch u h : atomic (repo (ChatContextFor ch u) h).
Proof. intros w e w'. by intros [-> _]%context_inv. Qed.
Lemma observing_context ch u h : observing (repo (ChatContextFor ch u) h).
Proof. intros w e w'. by intros [-> _]%context_inv. Qed.
Lemma atomic_authorize ch u P s : atomic (authorize ch u P s).
Proof. intros w e w'. by intros [-> _]%authorize_inv. Qed.
Lemma observing_authorize ch u P s : observing (authorize ch u P s).
Proof. intros w e w'. by intros [-> _]%authorize_inv. Qed.
Lemma atomic_repo {E A} (m : prog db E A) h :
  (∀ d e d', m d = (Err e, d') → d' = d) → atomic (repo m h).
Proof.
  intros Hm w e w'. unfold repo. destruct (m (w_db w)) as [[a|e'] d'] eqn:Hrun; [done|].
  intros [= _ <-]. rewrite (Hm _ _ _ Hrun). apply set_db_id.
Qed.
Lemma atomic_done {A} (m : handler A) : atomic m → atomic (done_ m).
Proof. intros Hm. by apply atomic_last. Qed.
End atomicity.

#[local] Hint Resolve atomic_fail_if observing_fail_if atomic_refuse observing_refuse atomic_pure
  observing_pure atomic_context observing_context atomic_authorize observing_authorize
  certain_announce certain_best_effort certain_ret certain_bind atomic_done : gate.
(** Reads first, one change, then what cannot fail. *)
Ltac gate_read := apply atomic_read; [solve [auto with gate]..|intros ?].
Ltac gate_last := apply atomic_last; [apply atomic_repo|intros; repeat (apply certain_bind; intros); auto with gate].

Section atomic_ops.
Context {G L : Type}.
Implicit Types (w : world G L).

Lemma add_all_certain now ch a us acc : certain (add_all (G := G) (L := L) now ch a us acc).
Proof.
  revert acc. induction us as [|u us IH]; intros acc; [done|]. simpl. apply certain_bind; [|intros; apply IH].
  intros w. unfold add_one. destruct (AddMember _ _ _ _ _ _) as [[x|[]] d]; done.
Qed.

Lemma join_atomic now ch u (J : JoinResult) (f : prog (world G L) Error JoinResult) :
  certain f →
  atomic (λ w, match AddMember now ch u RoleMember None (w_db w) with
    | (Ok _, d) => f (set_db d w)
    | (Err GAlreadyMember, d) => (Ok J, set_db d w)
    | (Err GChatFull, d) => (Err chat_full_error, set_db d w)
    | (Err _, d) => (Err Internal, set_db d w)
    end).
Proof.
  intros Hf w e w'. destruct (AddMember now ch u RoleMember None (w_db w)) as [[x|e'] d] eqn:Hm.
  - intros Herr. specialize (Hf (set_db d w)). by rewrite Herr in Hf.
  - apply in_tx_Err in Hm as ->. rewrite set_db_id. destruct e'; by intros [= _ <-].
Qed.

Lemma run_op_atomic now op : atomic (G := G) (L := L) (run_op now op).
Proof.
  destruct op; simpl run_op; try apply atomic_done.
  - unfold Service_Create. gate_read. destruct a as [t n].
    gate_last; [intros ???; apply in_tx_Err|].
    generalize (cr_MemberIDs input) as us. intros us. induction us as [|u us IH]; [done|]. simpl.
    apply certain_bind; [|intros; apply IH]. by destruct (decide _).
  - unfold Service_AddMembers. gate_read. apply certain_atomic, add_all_certain.
  - unfold Service_RemoveMember. do 4 gate_read. gate_last. intros ???; apply in_tx_Err.
  - unfold Service_Leave. do 3 gate_read. gate_last; [intros ???; apply in_tx_Err|].
    by destruct (_ <=? _).
  - unfold Service_SetRole. do 4 gate_read. apply atomic_repo. intros ???; apply SetRole_err.
  - unfold Service_TransferOwnership. do 2 gate_read. apply atomic_repo. intros ???; apply in_tx_Err.
  - unfold Service_Update. do 4 gate_read. gate_last. intros ???; apply UpdateChat_err.
  - unfold Service_UpdateSettings. do 2 gate_read. apply atomic_repo. intros ???; apply in_tx_Err.
  - unfold Service_Delete_chat. do 2 gate_read. by apply atomic_repo.
  - unfold Service_CreateInviteLink. do 3 gate_read. gate_last.
    intros d e d'. unfold CreateInviteLink. destruct (_ || _); [by intros [= _ <-]|done].
  - unfold Service_RevokeInviteLink. gate_read. apply atomic_repo.
    intros d e d'. unfold RevokeInviteLink. destruct (hits _ _ _); [done|by intros [= _ <-]].
  - unfold JoinByInvite. apply atomic_read.
    + apply atomic_repo. intros d e d'. unfold ResolveInvite. prog_run.
      destruct (head _); [done|by intros [= _ <-]].
    + intros w inv w'. unfold repo, ResolveInvite. prog_run. destruct (head _); [|done].
      rewrite set_db_id. by intros [= _ <-].
    + intros inv. apply atomic_read; [by apply certain_atomic| |].
      * intros w a w'. unfold modify. simpl. unfold id. rewrite set_db_id. by intros [= _ <-].
      * intros _. simpl. destruct (ri_RequiresApproval inv).
        -- gate_last. done.
        -- set (J := MkJoinResult (ri_ChatID inv) true false (ri_ChatType inv) (ri_Title inv)).
           apply (join_atomic now (ri_ChatID inv) user J
             (best_effort (CountInviteUse (ri_LinkID inv));;
              announce (ri_ChatID inv) EventChatMemberAdded (PayloadMember (ri_ChatID inv) user None);;
              mret J)). done.
  - unfold JoinPublic. gate_read. simpl. destruct (ctx_is_member _); [by apply certain_atomic|].
    apply atomic_read; [by apply certain_atomic|by intros w a' w' [= _ <-]|]. intros st.
    destruct (from_option _ _ _).
    + gate_last. done.
    + set (J := MkJoinResult ch true false (ctx_chat_type a) ""). by apply (join_atomic now ch user J (λ w, (Ok J, w))).
  - unfold Service_ResolveJoinRequest. gate_read. apply atomic_repo. intros ???; apply in_tx_Err.
  - unfold RecordView. do 2 gate_read. apply atomic_repo. intros ???; apply in_tx_Err.
  - unfold Service_CreateRole. do 3 gate_read. apply atomic_repo. intros ???; apply in_tx_Err.
  - unfold Service_UpdateRole. do 3 gate_read. apply atomic_repo. intros ???; apply UpdateRole_err.
  - unfold Service_DeleteRole. gate_read. apply atomic_repo. intros ???; apply DeleteRole_err.
  - unfold Service_AssignRole. do 4 gate_read. apply atomic_repo. intros ???; apply AssignRole_err.
Qed.
End atomic_ops.

(** ** Who may do what *)

(** The permission an operation is gated on, in the actor's own context. *)
Definition op_gate (op : admin_op) : option (uuid * uuid * (Permissions → bool)) :=
  match op with
  | OpAddMembers ch a _ | OpResolve ch a _ _ => Some (ch, a, AddMembers)
  | OpRemoveMember ch a _ => Some (ch, a, RemoveMembers)
  | OpUpdate ch a _ _ _ _ | OpSettings ch a _ => Some (ch, a, EditGroup)
  | OpCreateLink _ _ _ ch a _ _ _ | OpRevokeLink ch a _ => Some (ch, a, ManageInvites)
  | OpSetRole ch a _ _ _ _ | OpCreateRole _ ch a _ _ _ | OpUpdateRole ch _ a _ _ _
  | OpDeleteRole ch _ a | OpAssignRole ch _ a _ => Some (ch, a, ManageAdmins)
  | _ => None
  end.
Definition owner_only (op : admin_op) : option (uuid * uuid) :=
  match op with
  | OpTransfer ch a _ | OpDelete ch a => Some (ch, a)
  | _ => None
  end.
(** The member a member is set against. *)
Definition outranked (op : admin_op) : option (uuid * uuid * uuid) :=
  match op with
  | OpRemoveMember ch a t => Some (ch, a, t)
  | OpAssignRole ch t a _ => if decide (t = a) then None else Some (ch, a, t)
  | _ => None
  end.

Section gate.
Context {G L : Type}.
Implicit Types (w : world G L).

Lemma gated_Ok {B} ch u P s (f : ChatContext → prog (world G L) Error B) w b w' :
  (authorize ch u P s ≫= f) w = (Ok b, w') →
  ∃ cx m, f cx w = (Ok b, w') ∧ chat_context (w_db w) ch u = Some cx ∧ ctx_is_member cx = true ∧
    active_member (w_db w) ch u = Some m ∧ ctx_role cx = m_role m ∧
    is_Some (live_chat (w_db w) ch) ∧ P (ctx_permissions cx) = true.
Proof.
  intros (cx & w1 & [-> Hcx]%authorize_inv & Hf)%bind_Ok_inv. destruct (Hcx cx eq_refl) as (Hc & Hm & HP).
  destruct (chat_context_member _ _ _ _ Hc Hm) as (m & Ha & Hr).
  destruct (chat_context_chat _ _ _ _ Hc) as [_ (c & Hlive & _)]. exists cx, m. eauto 8.
Qed.
Lemma observed_Ok {B} ch u h (f : ChatContext → prog (world G L) Error B) w b w' :
  (repo (ChatContextFor ch u) h ≫= f) w = (Ok b, w') →
  ∃ cx, f cx w = (Ok b, w') ∧ chat_context (w_db w) ch u = Some cx.
Proof.
  intros (cx & w1 & [-> Hcx]%context_inv & Hf)%bind_Ok_inv. eauto.
Qed.
Lemma fail_if_Ok {B} b e (f : () → prog (world G L) Error B) w x w' :
  (fail_if b e ≫= f) w = (Ok x, w') → b = false ∧ f () w = (Ok x, w').
Proof. destruct b; [done|]. by intros. Qed.

(** Everything after the gate. *)
Lemma op_gate_Ok now op w w' ch a P :
  run_op now op w = (Ok (), w') → op_gate op = Some (ch, a, P) →
  ∃ cx m, chat_context (w_db w) ch a = Some cx ∧ active_member (w_db w) ch a = Some m ∧
    is_Some (live_chat (w_db w) ch) ∧ P (ctx_permissions cx) = true.
Proof.
  intros Hrun Hgate.
  destruct op; try discriminate Hgate; injection Hgate as <- <- <-; cbn [run_op] in Hrun;
    try (lazymatch type of Hrun with done_ _ _ = _ =>
      apply bind_Ok_inv in Hrun as (? & ? & Hrun & _) end);
    apply gated_Ok in Hrun as (cx & m & _ & Hcx & _ & Hm & _ & Hlive & HP); eauto 8.
Qed.

Lemma owner_only_Ok now op w w' ch a :
  run_op now op w = (Ok (), w') → owner_only op = Some (ch, a) →
  ∃ m, active_member (w_db w) ch a = Some m ∧ m_role m = RoleOwner.
Proof.
  intros Hrun Howner.
  destruct op; try discriminate Howner; injection Howner as <- <-; simpl in Hrun;
    apply observed_Ok in Hrun as (cx & [[Hm Hr]%orb_false_elim Hrun]%fail_if_Ok & Hcx);
    apply negb_false_iff in Hm; apply negb_false_iff, bool_decide_eq_true_1 in Hr;
    destruct (chat_context_member _ _ _ _ Hcx Hm) as (m & Ha & Hrole); exists m; by rewrite <-Hrole.
Qed.

Lemma outranked_Ok now op w w' ch a t :
  run_op now op w = (Ok (), w') → outranked op = Some (ch, a, t) →
  ∃ ma mt, active_member (w_db w) ch a = Some ma ∧ active_member (w_db w) ch t = Some mt ∧
    rank (m_role ma) < rank (m_role mt).
Proof.
  intros Hrun Hout.
  destruct op; try discriminate Hout; simpl in Hout; [|destruct (decide _) as [|Hne]; [done|]];
    injection Hout as <- <- <-; simpl in Hrun;
    apply gated_Ok in Hrun as (cx & ma & Hrun & Hcx & Hma & Ha & Hra & _);
    apply observed_Ok in Hrun as (tcx & [Hm Hrun]%fail_if_Ok & Htcx); apply negb_false_iff in Hm;
    destruct (chat_context_member _ _ _ _ Htcx Hm) as (mt & Ht & Hrt);
    apply fail_if_Ok in Hrun as [Hrank _]; exists ma, mt; rewrite <-Hra, <-Hrt; split_and!; try done.
  - by apply Z.leb_gt.
  - rewrite bool_decide_true in Hrank by done. by apply Z.leb_gt.
Qed.
End gate.

(** C12: Administrative actions pass one gate, and a refusal changes nothing.  When an
    operation succeeds its actor is a present member of a live chat and their resolved
    permissions grant what the operation needs; transferring and deleting are the
    owner's alone; and a member is removed, or given a named role by someone else,
    only by a member of strictly higher rank.  When an operation fails, the database
    and what was published are exactly what they were. *)
Theorem administration_is_gated {G L} now op (w : world G L) r w' :
  run_op now op w = (r, w') →
  (∀ e, r = Err e → w' = w) ∧
  (r = Ok () →
    (∀ ch a P, op_gate op = Some (ch, a, P) → ∃ cx m, chat_context (w_db w) ch a = Some cx ∧
      active_member (w_db w) ch a = Some m ∧ is_Some (live_chat (w_db w) ch) ∧
      P (ctx_permissions cx) = true) ∧
    (∀ ch a, owner_only op = Some (ch, a) →
      ∃ m, active_member (w_db w) ch a = Some m ∧ m_role m = RoleOwner) ∧
    (∀ ch a t, outranked op = Some (ch, a, t) → ∃ ma mt, active_member (w_db w) ch a = Some ma ∧
      active_member (w_db w) ch t = Some mt ∧ rank (m_role ma) < rank (m_role mt))).
Proof.
  intros Hrun. split.
  - intros e ->. by eapply run_op_atomic.
  - intros ->. split_and!.
    + intros ch a P. by apply (op_gate_Ok _ _ _ _ _ _ _ Hrun).
    + intros ch a. by apply (owner_only_Ok _ _ _ _ _ _ Hrun).
    + intros ch a t. by apply (outranked_Ok _ _ _ _ _ _ _ Hrun).
Qed.

(** ** What the code does not guard *)
Section unguarded.
Context {G L : Type}.
Implicit Types (w : world G L).

Lemma authorize_run ch u P s w cx :
  chat_context (w_db w) ch u = Some cx → ctx_is_member cx = true → P (ctx_permissions cx) = true →
  authorize ch u P s w = (Ok cx, w).
Proof.
  intros Hcx Hm HP. unfold authorize, repo, ChatContextFor. prog_run. by rewrite Hcx, set_db_id, Hm, HP.
Qed.

Lemma chat_context_perms d ch u c m :
  live_chat d ch = Some c → active_member d ch u = Some m →
  ∃ cx, chat_context d ch u = Some cx ∧ ctx_permissions cx =
    resolve_permissions (m_role m) (c_type c) (s_default_permissions <$> (chat_settings d !! ch))
      (g_is_broadcast <$> groups d !! ch)
      (ro_permissions <$> (m_custom_role_id m ≫= λ rid, group_roles d !! rid)) (m_permissions m).
Proof. intros Hc Hm. unfold chat_context. rewrite Hc, Hm. eauto. Qed.

(** The outermost layer, and the one under it. *)
Lemma resolve_override role type defs bc rp raw k b :
  override_of raw k = Some b → is_Some (PermissionKeys !! k) →
  perm_get k (resolve_permissions role type defs bc rp raw) = Some b.
Proof.
  intros Hraw Hk. unfold resolve_permissions. rewrite perm_get_applyOverrides, Hraw.
  match goal with |- context [perm_get k ?p] => apply (perm_get_known k p) in Hk as [x ->] end. done.
Qed.
Lemma resolve_named role type defs bc rp raw k b :
  override_of raw k = None → override_of rp k = Some b → is_Some (PermissionKeys !! k) →
  perm_get k (resolve_permissions role type defs bc rp raw) = Some b.
Proof.
  intros Hraw Hrp Hk. unfold resolve_permissions. rewrite perm_get_applyOverrides, Hraw.
  rewrite perm_get_applyOverrides, Hrp.
  match goal with |- context [perm_get k ?p] => apply (perm_get_known k p) in Hk as [x ->] end. done.
Qed.

Lemma override_of_map (perms : gmap string bool) k b :
  perms !! k = Some b →
  override_of (if bool_decide (perms = ∅) then None else Some (encode_bool_map perms)) k = Some b.
Proof.
  intros Hk. rewrite bool_decide_false by (intros ->; by rewrite lookup_empty in Hk).
  unfold override_of. cbn [mbind option_bind]. by rewrite decode_encode_bool_map.
Qed.

Lemma active_insert d ch u m :
  m_left_at m = None → active_member (with_chat_members (<[(ch, u) := m]> (chat_members d)) d) ch u = Some m.
Proof. intros Hl. apply active_member_Some. simpl. by rewrite lookup_insert_eq. Qed.
End unguarded.

(** Approving a join request takes the applicant as they are.  It always succeeds
    on a pending request, whatever the member limit; someone who left keeps the built-in
    role, the personal overrides and the named role they had; and someone who has become
    a member since is counted a second time, so that the member count no longer is the
    number of members. *)
Lemma approval_takes_anyone {G L} now ch a t (w : world G L) cx r m c :
  chat_context (w_db w) ch a = Some cx → ctx_is_member cx = true →
  AddMembers (ctx_permissions cx) = true →
  chat_join_requests (w_db w) !! (ch, t) = Some r → jr_status r = StatusPending →
  chats (w_db w) !! ch = Some c → 0 ≤ c_member_count c →
  chat_members (w_db w) !! (ch, t) = Some m →
  ∃ w' c', Service_ResolveJoinRequest now ch a t true w = (Ok (), w') ∧
    active_member (w_db w') ch t = Some (with_m_left_at None (with_m_joined_at now m)) ∧
    chats (w_db w') !! ch = Some c' ∧ c_member_count c' = c_member_count c + 1 ∧
    (m_left_at m = None → c_member_count c = count_where (is_active_in ch) (chat_members (w_db w)) →
      c_member_count c' = count_where (is_active_in ch) (chat_members (w_db w')) + 1).
Proof.
  intros Hcx Hmem HP Hr Hpend Hc Hnn Hm. unfold Service_ResolveJoinRequest.
  unfold mbind at 1, prog_bind at 1. rewrite (authorize_run _ _ _ _ _ _ Hcx Hmem HP).
  unfold repo, ResolveJoinRequest. prog_run. rewrite Hr. simpl.
  rewrite Hpend, bool_decide_true by done. simpl. rewrite Hc. simpl.
  unfold bumpMemberCount, approve_member. prog_run. rewrite Hm.
  assert (m_left_at m = None → c_member_count c = count_where (is_active_in ch) (chat_members (w_db w)) →
    c_member_count c + 1 = count_where (is_active_in ch)
      (<[(ch, t) := with_m_left_at None (with_m_joined_at now m)]> (chat_members (w_db w))) + 1) as Hcount.
  { intros Hl Heq. rewrite Heq, count_where_insert. unfold hits, is_active_in. simpl.
    rewrite Hm, Hl, bool_decide_true by done. simpl. lia. }
  set (c' := with_c_updated_at now (with_c_member_count (Z.max 0 (c_member_count c + 1)) c)).
  assert (c_member_count c' = c_member_count c + 1) as Hc' by (simpl; lia).
  case_bool_decide as Hty; simpl.
  all: eexists _, c'; split; [done|]; split; [by apply active_member_Some; simpl; rewrite lookup_insert_eq|].
  all: simpl; rewrite lookup_update_where, Hc; simpl; rewrite bool_decide_true by done.
  all: split; [done|]; split; [exact Hc'|]; intros; etrans; [exact Hc'|]; by apply Hcount.
Qed.

(** Setting a role is checked against the actor's rank and not the target's.  A member
    who holds [manage_admins] can give any member, the owner and themselves included, any
    role of their own rank or below with any personal overrides; the overrides then are in
    force, and a chat whose owner was the target has no owner. *)
Lemma SetRole_reaches_anyone {G L} ch a t role perms title (w : world G L) cx m :
  chat_context (w_db w) ch a = Some cx → ctx_is_member cx = true →
  ManageAdmins (ctx_permissions cx) = true →
  assignable role = None → rank (ctx_role cx) ≤ rank role →
  UnknownPermissionKeys perms (ctx_chat_type cx) = [] →
  active_member (w_db w) ch t = Some m →
  ∃ w' m' cx', Service_SetRole ch a t role perms title w = (Ok (), w') ∧
    active_member (w_db w') ch t = Some m' ∧ m_role m' = role ∧
    chat_context (w_db w') ch t = Some cx' ∧
    (∀ k b, perms !! k = Some b → perm_get k (ctx_permissions cx') = Some b) ∧
    (m_role m = RoleOwner → owned_once (w_db w) → administered (ctx_chat_type cx) →
      ∀ v mv, chat_members (w_db w') !! (ch, v) = Some mv → m_role mv ≠ RoleOwner).
Proof.
  intros Hcx Hmem HP Hass Hrank Hunk Ht. pose proof (assignable_owner _ Hass) as Hne.
  apply active_member_Some in Ht as Ht2. destruct Ht2 as [Hm Hl].
  destruct (chat_context_chat _ _ _ _ Hcx) as [_ (c & Hc & Hty & _)].
  assert (valid_role role = true) as Hvalid.
  { unfold assignable in Hass. destruct (bool_decide (role ∈ _)) eqn:Hin;
      [|by destruct (bool_decide (role = RoleOwner))].
    apply bool_decide_eq_true_1 in Hin. apply bool_decide_eq_true_2. set_solver. }
  unfold Service_SetRole. unfold mbind at 1, prog_bind at 1.
  rewrite (authorize_run _ _ _ _ _ _ Hcx Hmem HP). rewrite Hass.
  unfold rejectUnknownPermissions. rewrite Hunk. unfold repo, SetRole, update_member. prog_run.
  rewrite (proj2 (Z.ltb_ge _ _) Hrank), Hvalid, andb_false_r, Ht.
  set (m' := with_m_custom_title _ _).
  assert (active_member (with_chat_members (<[(ch, t) := m']> (chat_members (w_db w))) (w_db w)) ch t = Some m')
    as Hm' by by apply active_insert.
  destruct (chat_context_perms (with_chat_members (<[(ch, t) := m']> (chat_members (w_db w))) (w_db w)) ch t c m')
    as (cx' & Hcx' & Hperms); [exact Hc|exact Hm'|].
  eexists _, m', cx'. split; [done|]. split; [exact Hm'|]. split; [done|]. split; [exact Hcx'|]. split.
  - intros k b Hk. rewrite Hperms. apply resolve_override; [by apply override_of_map|].
    eapply UnknownPermissionKeys_nil; [done|]. eauto.
  - intros Howner Honce Hadm v mv. simpl. destruct (decide (v = t)) as [->|Hvt].
    + rewrite lookup_insert_eq. by intros [= <-].
    + rewrite lookup_insert_ne by congruence. intros Hv Hrole. rewrite Hty in Hadm.
      destruct (Honce ch c Hc Hadm) as (u & mu & _ & _ & Huniq).
      rewrite (Huniq _ _ Hv Hrole), (Huniq _ _ Hm Howner) in Hvt. done.
Qed.

Section bundles.
Context {G L : Type}.
Implicit Types (w : world G L).

Lemma withinOwnGrant_held perms held k :
  withinOwnGrant perms held = None → perms !! k = Some true → perm_get k held = Some true.
Proof.
  unfold withinOwnGrant, overreach. intros Hnone Hk. destruct (decide (perm_get k held = Some true)) as [|Hne]; [done|].
  exfalso. assert (k ∈ sort_strings (filter (λ kv, kv.2 = true ∧ perm_get kv.1 held ≠ Some true)
    (map_to_list perms)).*1) as Hin.
  { unfold sort_strings. rewrite merge_sort_Permutation, list_elem_of_fmap. exists (k, true). split; [done|].
    rewrite list_elem_of_filter, elem_of_map_to_list. done. }
  destruct (sort_strings _); [by apply not_elem_of_nil in Hin|done].
Qed.
Lemma validateRole_name name perms rk type n : validateRole name perms rk type = Ok n → n = trim_space name.
Proof.
  unfold validateRole. repeat case_match; try done. by intros [= <-].
Qed.

(** Counting and naming after one more role. *)
Lemma CreateRole_inv now id ch n perms rk d role d' :
  CreateRole now id ch n perms rk d = (Ok role, d') →
  role_count ch d' = role_count ch d + 1 ∧ role_count ch d' ≤ maxRolesPerChat ∧
  ∀ id' r, group_roles d' !! id' = Some r → ro_chat_id r = ch → ro_name r = n → id' = id.
Proof.
  unfold CreateRole. intros Hrun. prog_inv.
  assert (group_roles d !! id = None) as Hid.
  { destruct (group_roles d !! id) eqn:Hid; [|done]. exfalso.
    match goal with H : bool_decide (is_Some _) = false |- _ => apply bool_decide_eq_false_1 in H; apply H end.
    eauto. }
  assert (role_count ch d < maxRolesPerChat) as Hlt
    by (match goal with H : (maxRolesPerChat <=? _) = false |- _ => by apply Z.leb_gt in H end).
  match goal with H : role_name_held _ _ _ _ = false |- _ => rename H into Hname end.
  assert (role_count ch (with_group_roles (<[id := MkRole ch n (permissionsJSON perms) rk now]> (group_roles d)) d)
    = role_count ch d + 1) as Hcount.
  { unfold role_count. simpl. rewrite count_where_insert_new by done. simpl. by rewrite bool_decide_true. }
  split; [exact Hcount|]. split; [etrans; [exact (Z.eq_le_incl _ _ Hcount)|lia]|].
  intros id' r. simpl. destruct (decide (id' = id)) as [|Hne]; [done|].
  rewrite lookup_insert_ne by done. intros Hr Hch Hn. exfalso.
  unfold role_name_held in Hname. apply negb_false_iff, Z.eqb_eq in Hname.
  apply (proj1 (count_where_0 _ _) Hname) in Hr. simpl in Hr.
  rewrite Hch, Hn, !bool_decide_true in Hr by done. done.
Qed.

Lemma AssignRole_self ch a rid row w cx m :
  chat_context (w_db w) ch a = Some cx → ctx_is_member cx = true →
  ManageAdmins (ctx_permissions cx) = true → active_member (w_db w) ch a = Some m →
  role_in ch rid (w_db w) = Some row →
  ∃ w2 cx2, Service_AssignRole ch a a (Some rid) w = (Ok (), w2) ∧
    chat_context (w_db w2) ch a = Some cx2 ∧
    ∀ k, override_of (Some (ro_permissions row)) k = Some true → is_Some (PermissionKeys !! k) →
      override_of (m_permissions m) k = None → perm_get k (ctx_permissions cx2) = Some true.
Proof.
  intros Hcx Hmem HP Hm Hrow. unfold Service_AssignRole. unfold mbind at 1, prog_bind at 1.
  rewrite (authorize_run _ _ _ _ _ _ Hcx Hmem HP). unfold repo, ChatContextFor, AssignRole. prog_run.
  rewrite Hcx. simpl. rewrite Hmem. simpl. rewrite (bool_decide_false (a ≠ a)) by (intros Hn; by apply Hn).
  simpl. rewrite Hm, Hrow. simpl.
  apply active_member_Some in Hm as Hm2. destruct Hm2 as [Hmk Hl].
  destruct (chat_context_chat _ _ _ _ Hcx) as [_ (c & Hc & _)].
  set (m' := with_m_custom_role_id (Some rid) m).
  assert (active_member (with_chat_members (<[(ch, a) := m']> (chat_members (w_db w))) (w_db w)) ch a = Some m')
    as Hm' by by apply active_insert.
  destruct (chat_context_perms (with_chat_members (<[(ch, a) := m']> (chat_members (w_db w))) (w_db w)) ch a c m')
    as (cx' & Hcx' & Hperms); [exact Hc|exact Hm'|].
  eexists _, cx'. split; [done|]. split; [exact Hcx'|].
  intros k Hk Hknown Hraw. rewrite Hperms. apply resolve_named; [exact Hraw| |done].
  simpl. unfold role_in in Hrow. destruct (group_roles (w_db w) !! rid) as [row'|] eqn:Hg; [|done].
  simpl in Hrow. destruct (decide _); [|done]. injection Hrow as ->. done.
Qed.

Lemma JoinPublic_run now ch u w c :
  live_chat (w_db w) ch = Some c → active_member (w_db w) ch u = None →
  c_member_count c < max_members_of ch (w_db w) →
  (∀ s, chat_settings (w_db w) !! ch = Some s → s_join_requires_approval s = false) →
  ∃ d' m, JoinPublic now ch u w = (Ok (MkJoinResult ch true false (c_type c) ""), set_db d' w) ∧
    AddMember now ch u RoleMember None (w_db w) = (Ok (), d') ∧
    chat_members d' !! (ch, u) = Some m ∧ m_left_at m = None ∧ m_role m = RoleMember.
Proof.
  intros Hc Hna Hcap Hset.
  assert (∃ d' m, AddMember now ch u RoleMember None (w_db w) = (Ok (), d') ∧
    chat_members d' !! (ch, u) = Some m ∧ m_left_at m = None ∧ m_role m = RoleMember) as (d' & m & Hadd & Hm).
  { unfold AddMember, upsert_member, bumpMemberCount. prog_run. rewrite Hc. simpl.
    rewrite (proj2 (Z.leb_gt _ _)) by done.
    unfold active_member in Hna. destruct (chat_members (w_db w) !! (ch, u)) as [m|]; simpl in *.
    - destruct (m_left_at m); [|done]. case_bool_decide; simpl; eexists _, _; (split; [done|]);
        simpl; rewrite lookup_insert_eq; done.
    - case_bool_decide; simpl; eexists _, _; (split; [done|]); simpl; rewrite lookup_insert_eq; done. }
  exists d', m. split; [|done]. unfold JoinPublic, repo, ChatContextFor, chat_context. prog_run.
  rewrite Hc, Hna. simpl. rewrite set_db_id.
  assert (from_option st_JoinRequiresApproval false (read_settings ch (w_db w)) = false) as ->.
  { unfold read_settings. destruct (chat_settings (w_db w) !! ch) as [s|]; [|done]. by apply Hset. }
  by rewrite Hadd.
Qed.
End bundles.

(** A bundle is checked when it is defined and not when it is handed out.  Defining one
    succeeds only if its definer holds every permission it grants, it is the chat's only role
    of that name and the chat has at most twenty; but whoever holds [manage_admins] can give
    themselves any bundle of the chat, and then holds what it grants and no personal override
    takes away. *)
Lemma bundles_checked_when_defined {G L} now id ch a name perms rk (w : world G L) role w' :
  Service_CreateRole now id ch a name perms rk w = (Ok role, w') →
  (∃ cx, chat_context (w_db w) ch a = Some cx ∧
    (∀ k, perms !! k = Some true → perm_get k (ctx_permissions cx) = Some true)) ∧
  role_count ch (w_db w') = role_count ch (w_db w) + 1 ∧ role_count ch (w_db w') ≤ maxRolesPerChat ∧
  (∀ id' r, group_roles (w_db w') !! id' = Some r → ro_chat_id r = ch → ro_name r = trim_space name → id' = id) ∧
  (∀ cx m rid row, chat_context (w_db w) ch a = Some cx → ctx_is_member cx = true →
    ManageAdmins (ctx_permissions cx) = true → active_member (w_db w) ch a = Some m →
    role_in ch rid (w_db w) = Some row →
    ∃ w2 cx2, Service_AssignRole ch a a (Some rid) w = (Ok (), w2) ∧
      chat_context (w_db w2) ch a = Some cx2 ∧
      ∀ k, override_of (Some (ro_permissions row)) k = Some true → is_Some (PermissionKeys !! k) →
        override_of (m_permissions m) k = None → perm_get k (ctx_permissions cx2) = Some true).
Proof.
  intros Hrun. unfold Service_CreateRole in Hrun.
  apply gated_Ok in Hrun as (cx & m & Hrun & Hcx & _).
  apply bind_Ok_inv in Hrun as (n & w1 & Hn & Hrun). injection Hn as Hn <-. apply validateRole_name in Hn as ->.
  apply bind_Ok_inv in Hrun as (u & w2 & Hrefuse & Hrun). unfold refuse in Hrefuse.
  destruct (withinOwnGrant perms (ctx_permissions cx)) eqn:Hgrant; [done|]. injection Hrefuse as _ <-.
  unfold repo in Hrun. destruct (CreateRole _ _ _ _ _ _ _) as [[x|e] d'] eqn:Hcreate; [|done].
  injection Hrun as -> <-. destruct (CreateRole_inv _ _ _ _ _ _ _ _ _ Hcreate) as (Hcount & Hle & Huniq).
  split; [exists cx; split; [done|]; intros k; by apply withinOwnGrant_held|].
  split; [exact Hcount|]. split; [exact Hle|]. split; [exact Huniq|].
  intros cx2 m2 rid row. apply AssignRole_self.
Qed.

(** Joining by id asks no question about the chat.  Anyone who knows the id of a live
    chat that does not ask for approval and is not full becomes a member of it, public or
    not and whatever its kind. *)
Lemma JoinPublic_admits_to_any_chat {G L} now ch u (w : world G L) c :
  live_chat (w_db w) ch = Some c → active_member (w_db w) ch u = None →
  c_member_count c < max_members_of ch (w_db w) →
  (∀ s, chat_settings (w_db w) !! ch = Some s → s_join_requires_approval s = false) →
  ∃ w' m, JoinPublic now ch u w = (Ok (MkJoinResult ch true false (c_type c) ""), w') ∧
    active_member (w_db w') ch u = Some m ∧ m_role m = RoleMember.
Proof.
  intros Hc Hna Hcap Hset. destruct (JoinPublic_run now ch u w c Hc Hna Hcap Hset) as (d' & m & Hrun & _ & Hm & Hl & Hr).
  exists (set_db d' w), m. split; [exact Hrun|]. split; [|done]. by apply active_member_Some.
Qed.

(** ** Concrete runs *)
Definition blank : world unit unit := MkWorld empty_db None tt 0 [].
Definition sample_grants : gmap string bool := {["manage_admins" := true]}%string.
Definition sample_settings : Settings :=
  MkSettingsInput 0 true true 10 0 ∅ None None None None None None None.

(** A group 20 owned by 1, with 2 promoted to an administrator who manages others and 3
    a plain member; then approval is switched on, 4 applies and is added meanwhile. *)
Definition founding : list (time * admin_op) :=
  [(0, OpCreate 20 (MkCreateInput 1 ChatGroup "team" "" "" false [2; 3]%N));
   (1, OpSetRole 20 1 2 RoleAdmin sample_grants "");
   (2, OpCreateRole 30 20 1 "mods" {["ban_members" := true]}%string 1)].
Definition applying : list (time * admin_op) :=
  [(3, OpSettings 20 1 sample_settings); (4, OpJoinPublic 20 4); (5, OpAddMembers 20 1 [4%N])].
Definition founded : world unit unit := run_ops founding blank.
Definition applied : world unit unit := run_ops applying founded.

Lemma administration_refines_roster_witness :
  sound_op (OpRemoveMember 20 1 3) (w_db founded) = true ∧
  rtc roster_step (roster_of (w_db founded))
    (roster_of (w_db (run_op 3 (OpRemoveMember 20 1 3) founded).2)).
Proof. split; [reflexivity|]. apply administration_refines_roster. reflexivity. Defined.

Lemma administration_keeps_counts_and_owner_witness :
  roster_ok (roster_of empty_db) ∧ sound_ops (founding ++ applying) blank = true ∧
  membership_exact (w_db (run_ops (founding ++ applying) blank)) ∧
  owned_once (w_db (run_ops (founding ++ applying) blank)).
Proof.
  split; [apply roster_ok_empty_db|]. split; [vm_compute; reflexivity|].
  apply administration_keeps_counts_and_owner; [apply roster_ok_empty_db|vm_compute; reflexivity].
Defined.

Lemma administration_is_gated_witness :
  ∃ w' cx, run_op 3 (OpRemoveMember 20 1 3) founded = (Ok (), w') ∧
    chat_context (w_db founded) 20 1 = Some cx ∧ RemoveMembers (ctx_permissions cx) = true.
Proof.
  destruct (run_is_Ok (run_op 3 (OpRemoveMember 20 1 3)) founded) as [[] Hrun]; [vm_compute; reflexivity|].
  destruct (administration_is_gated _ _ _ _ _ Hrun) as [_ Hok].
  destruct (Hok eq_refl) as [Hgate _]. destruct (Hgate 20%N 1%N RemoveMembers eq_refl) as (cx & m & Hcx & _ & _ & HP).
  eexists _, cx. split; [exact Hrun|]. split; [exact Hcx|exact HP].
Defined.

Lemma approval_takes_anyone_witness :
  ∃ w' c', Service_ResolveJoinRequest 6 20 1 4 true applied = (Ok (), w') ∧
    chats (w_db w') !! 20%N = Some c' ∧ c_member_count c' = 5 ∧
    count_where (is_active_in 20) (chat_members (w_db w')) = 4.
Proof.
  assert (∃ cx r c m, chat_context (w_db applied) 20 1 = Some cx ∧ ctx_is_member cx = true ∧
    AddMembers (ctx_permissions cx) = true ∧ chat_join_requests (w_db applied) !! (20, 4)%N = Some r ∧
    jr_status r = StatusPending ∧ chats (w_db applied) !! 20%N = Some c ∧ c_member_count c = 4 ∧
    chat_members (w_db applied) !! (20, 4)%N = Some m ∧ m_left_at m = None)
    as (cx & r & c & m & Hcx & Hmem & HP & Hr & Hst & Hc & Hn & Hm & Hl).
  { eexists _, _, _, _. split; [vm_compute; reflexivity|]. do 2 (split; [reflexivity|]).
    split; [vm_compute; reflexivity|]. split; [reflexivity|]. split; [vm_compute; reflexivity|].
    split; [reflexivity|]. split; [vm_compute; reflexivity|]. reflexivity. }
  destruct (approval_takes_anyone 6 20 1 4 applied cx r m c Hcx Hmem HP Hr Hst Hc) as
    (w' & c' & Hrun & _ & Hc' & Hn' & Hdrift); [rewrite Hn; discriminate|exact Hm|].
  assert (c_member_count c' = 5) as H5 by (rewrite Hn', Hn; reflexivity).
  exists w', c'. split; [exact Hrun|]. split; [exact Hc'|]. split; [exact H5|].
  assert (c_member_count c = count_where (is_active_in 20) (chat_members (w_db applied))) as Heq
    by (rewrite Hn; vm_compute; reflexivity).
  specialize (Hdrift Hl Heq). rewrite H5 in Hdrift. lia.
Defined.

(** The administrator 2 removes the owner's role from 1. *)
Lemma SetRole_reaches_anyone_witness :
  ∃ w' m', Service_SetRole 20 2 1 RoleRestricted ∅ "" founded = (Ok (), w') ∧
    active_member (w_db w') 20 1 = Some m' ∧ m_role m' = RoleRestricted.
Proof.
  assert (∃ cx m, chat_context (w_db founded) 20 2 = Some cx ∧ ctx_is_member cx = true ∧
    ManageAdmins (ctx_permissions cx) = true ∧ ctx_role cx = RoleAdmin ∧ ctx_chat_type cx = ChatGroup ∧
    active_member (w_db founded) 20 1 = Some m) as (cx & m & Hcx & Hmem & HP & Hrole & Hty & Hm).
  { eexists _, _. split; [vm_compute; reflexivity|]. do 4 (split; [reflexivity|]). vm_compute. reflexivity. }
  destruct (SetRole_reaches_anyone 20 2 1 RoleRestricted ∅ "" founded cx m Hcx Hmem HP)
    as (w' & m' & cx' & Hrun & Hm' & Hr & _).
  - reflexivity.
  - rewrite Hrole. discriminate.
  - reflexivity.
  - exact Hm.
  - exists w', m'. split; [exact Hrun|]. split; [exact Hm'|exact Hr].
Defined.

Lemma bundles_checked_when_defined_witness :
  ∃ role w', Service_CreateRole 3 31 20 1 " editors " {["edit_group" := true]}%string 2 founded = (Ok role, w') ∧
    role_count 20 (w_db w') = 2.
Proof.
  destruct (run_is_Ok (Service_CreateRole 3 31 20 1 " editors " {["edit_group" := true]}%string 2) founded)
    as [role Hrun]; [vm_compute; reflexivity|].
  destruct (bundles_checked_when_defined _ _ _ _ _ _ _ _ _ _ Hrun) as (_ & Hcount & _).
  eexists role, _. split; [exact Hrun|]. rewrite Hcount. vm_compute. reflexivity.
Defined.

Lemma JoinPublic_admits_to_any_chat_witness :
  ∃ w' m, JoinPublic 3 20 9 founded = (Ok (MkJoinResult 20 true false ChatGroup ""), w') ∧
    active_member (w_db w') 20 9 = Some m ∧ m_role m = RoleMember.
Proof.
  assert (∃ c, live_chat (w_db founded) 20 = Some c ∧ c_type c = ChatGroup ∧ c_is_public c = false ∧
    c_member_count c = 3) as (c & Hc & Hty & _ & Hn).
  { eexists. split; [vm_compute; reflexivity|]. do 2 (split; [reflexivity|]). reflexivity. }
  rewrite <-Hty. apply (JoinPublic_admits_to_any_chat 3 20 9 founded c Hc).
  - vm_compute. reflexivity.
  - rewrite Hn. vm_compute. reflexivity.
  - intros s Hs. vm_compute in Hs. injection Hs as <-. reflexivity.
Defined.
