(* ===== verification/Communities.v ===== *)
(** * Communities ([internal/communities/communities.go])

    A community is a directory of rooms, each an ordinary chat: its tables here, its chats
    those of [Store] that the group service of [Groups] administers.  [chat_community] is
    the column [chats.community_id], which nothing else writes.  [collate] is the order of
    the database's collation. *)

From stdpp Require Import base tactics list sorting gmap strings.
From Stdlib Require Import ZArith Lia.
From S2P Require Import Prelude GoString Httpx Permissions Store ChatContext MessageRepo RateLimit Ports MessagingService GroupsRepo Groups Roster GroupsTheory AdminTheory.

Set Default Goal Selector "!".
Open Scope Z_scope.

(** ** Tables *)

(** [communities] *)
Record community_row := MkCommunityRow {
  cy_title : string;
  cy_description : string;
  cy_username : option string;
  cy_photo : option uuid;
  cy_owner : option uuid;
  cy_member_count : Z;
  cy_is_public : bool;
  cy_created_at : time;
  cy_deleted_at : option time;
}.
Definition with_cy_member_count v (c : community_row) :=
  MkCommunityRow (cy_title c) (cy_description c) (cy_username c) (cy_photo c) (cy_owner c) v (cy_is_public c) (cy_created_at c)
    (cy_deleted_at c).
(** [community_members], keyed by [(community_id, user_id)] *)
Record commember_row := MkComMember { cm_role : string; cm_joined_at : time; cm_left_at : option time }.
(** [community_rooms], keyed by [(community_id, chat_id)] *)
Record room_row := MkRoomRow { rm_section : string; rm_position : Z }.

Record commdb (G L : Type) := MkCommDb {
  cd_world : world G L;
  communities : gmap uuid community_row;
  community_members : gmap (uuid * uuid) commember_row;
  community_rooms : gmap (uuid * uuid) room_row;
  chat_community : gmap uuid uuid;
}.
Arguments MkCommDb {G L}.
Arguments cd_world {G L}.
Arguments communities {G L}.
Arguments community_members {G L}.
Arguments community_rooms {G L}.
Arguments chat_community {G L}.

Inductive commerr := ComNotFound | ComUsernameTaken | ComForeignKey | ComCheck.

Record Room := MkRoom {
  ru_ChatID : uuid;
  ru_ChatType : string;
  ru_Title : string;
  ru_Section : string;
  ru_Position : Z;
  ru_MemberCount : Z;
  ru_IsMember : bool;
}.
Record Community := MkCommunity {
  cu_ID : uuid;
  cu_Title : string;
  cu_Description : string;
  cu_Username : option string;
  cu_PhotoMediaID : option uuid;
  cu_OwnerID : option uuid;
  cu_MemberCount : Z;
  cu_IsPublic : bool;
  cu_CreatedAt : time;
  cu_Rooms : list Room;
  cu_Role : string;
}.

Section communities.
Context {G L : Type} (collate : string → Z).
Implicit Types (d : commdb G L).

Definition with_cd_world v d : commdb G L := MkCommDb v (communities d) (community_members d) (community_rooms d) (chat_community d).
Definition with_communities v d : commdb G L := MkCommDb (cd_world d) v (community_members d) (community_rooms d) (chat_community d).
Definition with_community_members v d : commdb G L := MkCommDb (cd_world d) (communities d) v (community_rooms d) (chat_community d).
Definition with_community_rooms v d : commdb G L := MkCommDb (cd_world d) (communities d) (community_members d) v (chat_community d).
Definition with_chat_community v d : commdb G L := MkCommDb (cd_world d) (communities d) (community_members d) (community_rooms d) v.
Definition cd_db d : db := w_db (cd_world d).

(** ** Repository *)

Definition handle_taken (username : option string) d : bool :=
  match username with
  | Some n => 0 <? count_where (λ _ c, bool_decide (to_lower <$> cy_username c = Some (to_lower n))) (communities d)
  | None => false
  end.
Definition CreateCommunity (now : time) (id : uuid) (title description : string) (username : option string) (ownerID : uuid)
    (isPublic : bool) : prog (commdb G L) commerr uuid := λ d,
  if handle_taken username d then (Err ComUsernameTaken, d)
  else if bool_decide (is_Some (communities d !! id)) then (Err ComUsernameTaken, d)
  else if negb (bool_decide (is_Some (users (cd_db d) !! ownerID))) then (Err ComForeignKey, d)
  else (Ok id, with_community_members (<[(id, ownerID) := MkComMember "owner" now None]> (community_members d))
    (with_communities (<[id := MkCommunityRow title description username None (Some ownerID) 1 isPublic now None]> (communities d)) d)).

Definition active_commember (communityID userID : uuid) d : option commember_row :=
  m ← community_members d !! (communityID, userID); if cm_left_at m is None then Some m else None.
Definition listed_room (viewer : uuid) d (communityID chatID : uuid) (r : room_row) : option Room :=
  c ← live_chat (cd_db d) chatID;
  Some (MkRoom chatID (c_type c) (c_title c) (rm_section r) (rm_position r) (c_member_count c)
    (bool_decide (is_Some (active_member (cd_db d) chatID viewer)))).
Definition Rooms (communityID viewer : uuid) d : list Room :=
  order_by_keys (λ r, [collate (ru_Section r); ru_Position r])
    (omap (λ kr : (uuid * uuid) * room_row, listed_room viewer d communityID kr.1.2 kr.2)
      (rows_where (λ k _, bool_decide (k.1 = communityID)) (community_rooms d))).
Definition community_of (id : uuid) (c : community_row) (rooms : list Room) (role : string) : Community :=
  MkCommunity id (cy_title c) (cy_description c) (cy_username c) (cy_photo c) (cy_owner c) (cy_member_count c) (cy_is_public c)
    (cy_created_at c) rooms role.
Definition live_community (id : uuid) d : option community_row :=
  c ← communities d !! id; if cy_deleted_at c is None then Some c else None.
Definition CommunityByID (id viewer : uuid) d : option Community :=
  c ← live_community id d;
  Some (community_of id c (Rooms id viewer d) (from_option cm_role ""%string (active_commember id viewer d))).

Definition AddRoom (communityID chatID : uuid) (section : string) (position : Z) : prog (commdb G L) commerr () := λ d,
  if negb (bool_decide (is_Some (communities d !! communityID))) || negb (bool_decide (is_Some (chats (cd_db d) !! chatID)))
  then (Err ComForeignKey, d)
  else (Ok (), with_chat_community (<[chatID := communityID]> (chat_community d))
    (with_community_rooms (<[(communityID, chatID) := MkRoomRow section position]> (community_rooms d)) d)).
Definition RemoveRoom (communityID chatID : uuid) : prog (commdb G L) commerr () := λ d,
  if bool_decide (is_Some (community_rooms d !! (communityID, chatID)))
  then (Ok (), with_chat_community (delete chatID (chat_community d))
    (with_community_rooms (delete (communityID, chatID) (community_rooms d)) d))
  else (Err ComNotFound, d).

Definition bump_community (id : uuid) (f : Z → Z) d : commdb G L :=
  with_communities (update_where (λ id' _, bool_decide (id' = id)) (λ _ c, with_cy_member_count (f (cy_member_count c)) c) (communities d)) d.
(** The upsert says whether it wrote a row. *)
Definition join_row (now : time) (communityID userID : uuid) (role : string) : prog (commdb G L) commerr bool := λ d,
  match community_members d !! (communityID, userID) with
  | Some m =>
      if cm_left_at m is None then (Ok false, d)
      else (Ok true, with_community_members (<[(communityID, userID) := MkComMember (cm_role m) now None]> (community_members d)) d)
  | None =>
      if negb (bool_decide (is_Some (communities d !! communityID))) || negb (bool_decide (is_Some (users (cd_db d) !! userID)))
      then (Err ComForeignKey, d)
      else if negb (bool_decide (role ∈ ["owner"; "admin"; "moderator"; "member"]%string)) then (Err ComCheck, d)
      else (Ok true, with_community_members (<[(communityID, userID) := MkComMember role now None]> (community_members d)) d)
  end.
Definition AddCommunityMember (now : time) (communityID userID : uuid) (role : string) : prog (commdb G L) commerr () :=
  in_tx (
    joined ← join_row now communityID userID role;
    if joined : bool then modify (bump_community communityID (λ n, n + 1)) else mret ()).
Definition RemoveCommunityMember (now : time) (communityID userID : uuid) : prog (commdb G L) commerr () :=
  in_tx (
    m ← gets (active_commember communityID userID); m ← or_fail m ComNotFound;
    modify (λ d, with_community_members (<[(communityID, userID) := MkComMember (cm_role m) (cm_joined_at m) (Some now)]>
      (community_members d)) d);;
    modify (bump_community communityID (λ n, Z.max 0 (n - 1)))).
Definition RoleFor (communityID userID : uuid) d : option string := cm_role <$> active_commember communityID userID d.
Definition ListForUser (userID : uuid) d : list Community :=
  order_by (λ c, collate (cu_Title c))
    (omap (λ km : (uuid * uuid) * commember_row,
        c ← live_community km.1.1 d; Some (community_of km.1.1 c [] (cm_role km.2)))
      (rows_where (λ k m, bool_decide (k.2 = userID) && (if cm_left_at m is None then true else false)) (community_members d))).

(** ** Service *)

Abbreviation chandler := (prog (commdb G L) Error) (only parsing).
(** A call of the group service: its answer, and the chats as it leaves them. *)
Definition on_groups {A} (m : prog (world G L) Error A) : chandler (result Error A) := λ d,
  let '(r, w) := m (cd_world d) in (Ok r, with_cd_world w d).
Definition com_internal (_ : commerr) : Error := Internal.
Definition community_not_found : Error := NotFound CodeNotFound "Community not found".

Definition DefaultSections : list (string * string * string) :=
  [("announcements", "Announcements", ChatChannel); ("general", "General", ChatGroup)]%string.
Definition starter_input (ownerID : uuid) (title : string) (s : string * string * string) : CreateInput :=
  MkCreateInput ownerID s.2 (title +:+ " — " +:+ s.1.2) "" "" false [].
(** One starter room; a chat that cannot be created is left out. *)
Definition starter_room (now : time) (communityID ownerID chatID : uuid) (title : string) (position : Z) (s : string * string * string)
    : chandler () :=
  r ← on_groups (Service_Create now chatID (starter_input ownerID title s));
  match r with
  | Ok chatID => map_err com_internal (AddRoom communityID chatID s.1.1 position)
  | Err _ => mret ()
  end.
Definition Communities_Get (communityID viewer : uuid) : chandler Community :=
  c ← gets (CommunityByID communityID viewer); c ← or_fail c community_not_found;
  fail_if (negb (cu_IsPublic c) && bool_decide (cu_Role c = ""%string)) (Forbidden CodeForbidden "This community is private");;
  mret c.
(** The trimmed title and handle. *)
Definition check_community (title username : string) (isPublic : bool) : result Error (string * option string) :=
  let title := trim_space title in
  let trimmed := trim_space username in
  let handle := if bool_decide (trimmed = ""%string) then None else Some trimmed in
  if bool_decide (title = ""%string) || (128 <? rune_count title)
  then Err (WithField (Validation "Title is not valid") "title" "must be between 1 and 128 characters")
  else if isPublic && (if handle is None then true else false)
  then Err (WithField (Validation "A public community needs a username") "username" "required for public communities")
  else Ok (title, handle).
(** [chatIDs] are the ids the two rooms get. *)
Definition Communities_Create (now : time) (id : uuid) (chatIDs : uuid * uuid) (ownerID : uuid) (title description username : string)
    (isPublic : bool) : chandler Community :=
  '(title, handle) ← (λ d, (check_community title username isPublic, d));
  communityID ← map_err (λ e, match e with
      | ComUsernameTaken => Conflict CodeUsernameTaken "That username is already taken"
      | _ => Internal
      end) (CreateCommunity now id title description handle ownerID isPublic);
  for_each (zip (zip [chatIDs.1; chatIDs.2] [0; 1]) DefaultSections) (λ x,
    starter_room now communityID ownerID x.1.1 title x.1.2 x.2);;
  Communities_Get communityID ownerID.

Definition Communities_List (userID : uuid) : chandler (list Community) := gets (ListForUser userID).

Definition default_section (s : string) : bool := bool_decide (s = "announcements"%string) || bool_decide (s = "general"%string).
(** The announcement and general rooms; a room that cannot be joined is passed over. *)
Definition join_rooms (now : time) (userID : uuid) (rooms : list Room) : chandler () :=
  for_each rooms (λ room,
    if negb (default_section (ru_Section room)) then mret ()
    else on_groups (JoinPublic now (ru_ChatID room) userID);; mret ()).
Definition Communities_Join (now : time) (communityID userID : uuid) : chandler () :=
  c ← gets (CommunityByID communityID userID); c ← or_fail c community_not_found;
  fail_if (negb (cu_IsPublic c)) (Forbidden CodeForbidden "This community is invite-only");;
  map_err com_internal (AddCommunityMember now communityID userID "member");;
  join_rooms now userID (cu_Rooms c).
Definition Communities_Leave (now : time) (communityID userID : uuid) : chandler () :=
  map_err (λ e, match e with
      | ComNotFound => NotFound CodeNotFound "You are not a member of this community"
      | _ => Internal
      end) (RemoveCommunityMember now communityID userID).
Definition requireAdmin (communityID userID : uuid) : chandler () :=
  role ← gets (RoleFor communityID userID);
  role ← or_fail role (Forbidden CodeForbidden "You are not a member of this community");
  fail_if (bool_decide (role ≠ "owner"%string) && bool_decide (role ≠ "admin"%string))
    (Forbidden CodePermissionDenied "You cannot administer this community").
Definition Communities_AddRoom (communityID actorID chatID : uuid) (section : string) (position : Z) : chandler () :=
  requireAdmin communityID actorID;;
  map_err com_internal (AddRoom communityID chatID section position).
Definition Communities_RemoveRoom (communityID actorID chatID : uuid) : chandler () :=
  requireAdmin communityID actorID;;
  map_err (λ e, match e with
      | ComNotFound => NotFound CodeNotFound "That room is not part of this community"
      | _ => Internal
      end) (RemoveRoom communityID chatID).
End communities.

(** * Communities: the theorems

    Member counts and roles stay in order, only the founder administers, and joining brings
    the announcement and general rooms and no other. *)

(** ** What joining a chat leaves alone *)

(** The rows of other chats, other memberships and the settings. *)
Record joins_only (ch u : uuid) (d d' : db) : Prop := {
  jo_chats : ∀ ch', ch' ≠ ch → chats d' !! ch' = chats d !! ch';
  jo_members : ∀ k, k ≠ (ch, u) → chat_members d' !! k = chat_members d !! k;
  jo_settings : chat_settings d' = chat_settings d;
}.
Lemma joins_only_refl ch u d : joins_only ch u d d.
Proof. done. Qed.
Lemma bump_only now ch type delta d :
  let d' := (bumpMemberCount now ch type delta d).2 in
  (∀ ch', ch' ≠ ch → chats d' !! ch' = chats d !! ch') ∧ chat_members d' = chat_members d ∧ chat_settings d' = chat_settings d.
Proof.
  assert (∀ ch', ch' ≠ ch → update_where (λ id _, bool_decide (id = ch))
    (λ _ c, with_c_updated_at now (with_c_member_count (Z.max 0 (c_member_count c + delta)) c)) (chats d) !! ch' = chats d !! ch').
  { intros ch' Hne. rewrite lookup_update_where, bool_decide_false by done. by destruct (chats d !! ch'). }
  unfold bumpMemberCount. prog_run. by case_bool_decide.
Qed.
Lemma AddMember_only now ch u role by_id d : joins_only ch u d (AddMember now ch u role by_id d).2.
Proof.
  destruct (AddMember now ch u role by_id d) as [[x|e] d'] eqn:Hrun; simpl.
  - unfold AddMember in Hrun. prog_inv.
    apply upsert_member_inv in Hrun3 as (m & -> & _). apply bump_Ok in Hrun as ->.
    match goal with |- context [bumpMemberCount now ch ?t 1 ?d0] => destruct (bump_only now ch t 1 d0) as (Hc & Hm & Hs) end.
    split; simpl in *; [exact Hc| |exact Hs].
    intros k Hne. by rewrite Hm, lookup_insert_ne.
  - unfold AddMember in Hrun. apply in_tx_Err in Hrun. by subst d'.
Qed.
Lemma CreateJoinRequest_only now ch u l d : joins_only ch u d (CreateJoinRequest now ch u l d).2.
Proof. unfold CreateJoinRequest, modify. simpl. destruct (chat_join_requests d !! (ch, u)); [by case_bool_decide|done]. Qed.

Section communities.
Context {G L : Type} (collate : string → Z).
Implicit Types (w : world G L) (d : commdb G L).

Lemma w_db_set_db (d' : db) w : w_db (set_db d' w) = d'.
Proof. done. Qed.
Lemma JoinPublic_only now ch u w : joins_only ch u (w_db w) (w_db (JoinPublic now ch u w).2).
Proof.
  unfold JoinPublic. rewrite bind_run. unfold repo at 1, ChatContextFor.
  destruct (chat_context (w_db w) ch u) as [cx|]; [|done]. rewrite set_db_id.
  destruct (ctx_is_member cx); [done|]. rewrite bind_run. unfold gets at 1. cbn beta iota.
  destruct (from_option _ _ _).
  - rewrite bind_run. unfold repo. pose proof (CreateJoinRequest_only now ch u None (w_db w)) as Hj.
    by destruct (CreateJoinRequest now ch u None (w_db w)) as [[]].
  - pose proof (AddMember_only now ch u RoleMember None (w_db w)) as Hj.
    by destruct (AddMember now ch u RoleMember None (w_db w)) as [[|[]] d'].
Qed.

(** A chat that takes whoever asks: live, not full, no approval. *)
Definition open_chat (ch : uuid) (d : db) : Prop :=
  (∃ c, live_chat d ch = Some c ∧ c_member_count c < max_members_of ch d) ∧
  (∀ s, chat_settings d !! ch = Some s → s_join_requires_approval s = false).
Definition seated (ch u : uuid) (d : db) : Prop := is_Some (active_member d ch u).
Lemma JoinPublic_seats now ch u w : open_chat ch (w_db w) → seated ch u (w_db (JoinPublic now ch u w).2).
Proof.
  intros [(c & Hc & Hcap) Hset]. destruct (active_member (w_db w) ch u) as [m|] eqn:Hm.
  - unfold JoinPublic. rewrite bind_run. unfold repo at 1, ChatContextFor, chat_context. rewrite Hc, Hm. simpl.
    unfold seated. rewrite Hm. eauto.
  - destruct (JoinPublic_run now ch u w c Hc Hm Hcap Hset) as (d' & m & -> & _ & Hm' & Hl & _).
    exists m. simpl. by apply active_member_Some.
Qed.

Lemma joins_only_open ch u ch' (d d' : db) : joins_only ch u d d' → ch' ≠ ch → open_chat ch' d → open_chat ch' d'.
Proof.
  intros [Hc _ Hs] Hne. unfold open_chat, live_chat, max_members_of. by rewrite Hc, Hs by done.
Qed.
Lemma joins_only_seated ch u ch' (d d' : db) : joins_only ch u d d' → ch' ≠ ch → seated ch' u d → seated ch' u d'.
Proof. intros [_ Hm _] Hne. unfold seated, active_member. by rewrite Hm by congruence. Qed.

Definition default_room (r : Room) : bool := default_section (ru_Section r).
(** Everything [join_rooms] does, one room after another. *)
Lemma join_rooms_run now u rooms d : NoDup (ru_ChatID <$> rooms) →
  ∃ d', join_rooms now u rooms d = (Ok (), d') ∧
    communities d' = communities d ∧ community_members d' = community_members d ∧
    community_rooms d' = community_rooms d ∧ chat_community d' = chat_community d ∧
    (∀ ch, (∀ r, r ∈ rooms → default_room r = true → ru_ChatID r ≠ ch) →
       (∀ v, chat_members (cd_db d') !! (ch, v) = chat_members (cd_db d) !! (ch, v)) ∧
       (open_chat ch (cd_db d) → open_chat ch (cd_db d')) ∧ (seated ch u (cd_db d) → seated ch u (cd_db d'))) ∧
    (∀ k, k.2 ≠ u → chat_members (cd_db d') !! k = chat_members (cd_db d) !! k) ∧
    (∀ r, r ∈ rooms → default_room r = true → open_chat (ru_ChatID r) (cd_db d) → seated (ru_ChatID r) u (cd_db d')).
Proof.
  revert d. induction rooms as [|r rooms IH]; intros d Hnd.
  - exists d. do 6 (split; [done|]). split; [done|]. intros r Hr. by apply not_elem_of_nil in Hr.
  - rewrite fmap_cons in Hnd. apply NoDup_cons in Hnd as [Hr Hnd].
    unfold join_rooms. simpl. rewrite bind_run.
    destruct (negb (default_section (ru_Section r))) eqn:Hdef.
    + destruct (IH d Hnd) as (d' & Hrun & Hc & Hm & Hro & Hcc & Hframe & Hk & Hseat). exists d'.
      split; [exact Hrun|]. do 4 (split; [done|]). split; [|split; [done|]].
      * intros ch Hch. apply Hframe. intros r' Hr'. apply Hch. by right.
      * intros r' [->|Hr']%elem_of_cons Hd; [|by apply Hseat]. unfold default_room in Hd. by rewrite Hd in Hdef.
    + rewrite bind_run. unfold on_groups at 1.
      destruct (JoinPublic now (ru_ChatID r) u (cd_world d)) as [rr w'] eqn:Hjoin.
      assert (joins_only (ru_ChatID r) u (cd_db d) (w_db w')) as Honly.
      { pose proof (JoinPublic_only now (ru_ChatID r) u (cd_world d)) as Honly. by rewrite Hjoin in Honly. }
      assert (open_chat (ru_ChatID r) (cd_db d) → seated (ru_ChatID r) u (w_db w')) as Hsit.
      { intros Hopen. pose proof (JoinPublic_seats now (ru_ChatID r) u (cd_world d) Hopen) as Hs. by rewrite Hjoin in Hs. }
      destruct (IH (with_cd_world w' d) Hnd) as (d' & Hrun & Hc & Hm & Hro & Hcc & Hframe & Hk & Hseat). exists d'.
      split; [exact Hrun|]. do 4 (split; [done|]). split; [|split].
      * intros ch Hch. assert (ch ≠ ru_ChatID r) as Hne.
        { intros ->. apply (Hch r); [by left|by destruct (default_room r) eqn:E; unfold default_room in *; rewrite ?E in *|done]. }
        destruct (Hframe ch) as (Hmem & Ho & Hs); [intros r' Hr'; apply Hch; by right|]. split; [|split].
        -- intros v. rewrite Hmem. apply (jo_members _ _ _ _ Honly). congruence.
        -- intros Hopen. by eapply Ho, joins_only_open.
        -- intros Hseated. by eapply Hs, joins_only_seated.
      * intros k Hku. rewrite Hk by done. apply (jo_members _ _ _ _ Honly). intros ->. done.
      * intros r' [->|Hr']%elem_of_cons Hd Hopen.
        -- apply (Hframe (ru_ChatID r)); [|by apply Hsit]. intros r' Hr' _ Heq. apply Hr. rewrite <-Heq.
           by apply list_elem_of_fmap_2.
        -- apply Hseat; [done..|]. eapply joins_only_open; [exact Honly| |exact Hopen]. intros Heq. apply Hr. rewrite <-Heq.
           by apply list_elem_of_fmap_2.
Qed.

(** ** The rooms of a community *)

Lemma elem_of_Rooms id viewer d r : r ∈ Rooms collate id viewer d ↔
  ∃ row c, community_rooms d !! (id, ru_ChatID r) = Some row ∧ live_chat (cd_db d) (ru_ChatID r) = Some c ∧
    listed_room viewer d id (ru_ChatID r) row = Some r ∧ ru_Section r = rm_section row.
Proof.
  unfold Rooms. rewrite elem_of_order_by_keys, list_elem_of_omap. split.
  - intros ([[id' ch] row] & [Hrow Hid%bool_decide_eq_true]%elem_of_rows_where & Hroom). simpl in *. subst id'.
    unfold listed_room in *. destruct (live_chat (cd_db d) ch) as [c|] eqn:Hc; [|done]. injection Hroom as <-. exists row, c. simpl.
    by rewrite Hc.
  - intros (row & c & Hrow & Hc & Hroom & _). exists ((id, ru_ChatID r), row). split; [|done].
    apply elem_of_rows_where. split; [done|]. by apply bool_decide_eq_true.
Qed.
Lemma Rooms_NoDup id viewer d : NoDup (ru_ChatID <$> Rooms collate id viewer d).
Proof.
  unfold Rooms. rewrite order_by_keys_Permutation.
  apply (omap_ids_NoDup _ (λ kr : (uuid * uuid) * room_row, kr.1.2)).
  - intros [[id' ch] row] r. unfold listed_room. simpl. destruct (live_chat (cd_db d) ch); [|done]. by intros [= <-].
  - apply (NoDup_snd_rows_where _ _ id). intros k v. by rewrite bool_decide_eq_true.
Qed.

(** ** Memberships, counts and roles *)

Definition counted (id : uuid) (k : uuid * uuid) (m : commember_row) : bool :=
  bool_decide (k.1 = id) && (if cm_left_at m is None then true else false).
Record community_ok d : Prop := {
  ck_count : ∀ id c, communities d !! id = Some c → cy_member_count c = count_where (counted id) (community_members d);
  ck_known : ∀ id u, is_Some (community_members d !! (id, u)) → is_Some (communities d !! id);
  ck_owner : ∀ id c, communities d !! id = Some c →
    ∃ o m, cy_owner c = Some o ∧ community_members d !! (id, o) = Some m ∧ cm_role m = "owner"%string;
  ck_roles : ∀ id c u m, communities d !! id = Some c → community_members d !! (id, u) = Some m →
    cm_role m = if decide (cy_owner c = Some u) then "owner"%string else "member"%string;
}.

Lemma live_community_Some id d c :
  live_community id d = Some c → communities d !! id = Some c.
Proof. unfold live_community. destruct (communities d !! id) as [c'|]; [|done]. simpl. by destruct (cy_deleted_at c'); [|intros [= ->]]. Qed.
Lemma active_commember_Some id u d m :
  active_commember id u d = Some m ↔ community_members d !! (id, u) = Some m ∧ cm_left_at m = None.
Proof.
  unfold active_commember. destruct (community_members d !! (id, u)) as [m'|]; simpl; [|naive_solver].
  destruct (cm_left_at m') eqn:Hl; naive_solver.
Qed.
(** The tables of communities are all that counts. *)
Lemma community_ok_same d d' : communities d' = communities d → community_members d' = community_members d →
  community_ok d → community_ok d'.
Proof. intros Hc Hm [H1 H2 H3 H4]. split; rewrite ?Hc, ?Hm; done. Qed.

(** One member row put in place, the count moved with it. *)
Lemma community_ok_seat id u m delta c d : communities d !! id = Some c →
  cm_role m = (if decide (cy_owner c = Some u) then "owner"%string else "member"%string) →
  cy_member_count c + delta = count_where (counted id) (<[(id, u) := m]> (community_members d)) →
  community_ok d →
  ∀ f, f (cy_member_count c) = cy_member_count c + delta →
  community_ok (bump_community id f (with_community_members (<[(id, u) := m]> (community_members d)) d)).
Proof.
  intros Hc Hrole Hcount [H1 H2 H3 H4] f Hf. split; unfold bump_community; simpl.
  - intros id' c' Hc'. apply lookup_update_where_Some in Hc' as (c0 & Hc0 & ->).
    destruct (bool_decide_reflect (id' = id)) as [->|Hne]; simpl.
    + assert (c0 = c) as -> by congruence. by rewrite Hf.
    + rewrite (H1 id' c0 Hc0). symmetry. rewrite count_where_insert. unfold hits, counted. simpl.
      rewrite (bool_decide_false (id = id')) by congruence. simpl.
      destruct (community_members d !! (id, u)); simpl; lia.
  - intros id' u' Hu'. rewrite lookup_update_where. destruct (decide (id' = id)) as [->|Hne].
    + rewrite Hc. simpl. eauto.
    + rewrite lookup_insert_ne in Hu' by congruence. destruct (H2 id' u' Hu') as [c' ->]. simpl. eauto.
  - intros id' c' Hc'. apply lookup_update_where_Some in Hc' as (c0 & Hc0 & ->).
    destruct (H3 id' c0 Hc0) as (o & m0 & Ho & Hm0 & Hr). exists o.
    assert (cy_owner (if bool_decide (id' = id) then with_cy_member_count (f (cy_member_count c0)) c0 else c0) = cy_owner c0) as ->
      by by case_bool_decide.
    destruct (decide ((id, u) = (id', o))) as [[= <- <-]|Hne].
    + exists m. rewrite lookup_insert_eq. split; [done|]. split; [done|]. rewrite Hrole.
      assert (c0 = c) as -> by congruence. by rewrite decide_True.
    + exists m0. by rewrite lookup_insert_ne.
  - intros id' c' u' m' Hc' Hm'. apply lookup_update_where_Some in Hc' as (c0 & Hc0 & ->).
    assert (cy_owner (if bool_decide (id' = id) then with_cy_member_count (f (cy_member_count c0)) c0 else c0) = cy_owner c0) as ->
      by by case_bool_decide.
    destruct (decide ((id, u) = (id', u'))) as [[= <- <-]|Hne].
    + rewrite lookup_insert_eq in Hm'. injection Hm' as <-. rewrite Hrole. by assert (c0 = c) as -> by congruence.
    + rewrite lookup_insert_ne in Hm' by done. by apply (H4 id' c0 u' m').
Qed.

Lemma AddCommunityMember_inv now id u d x d' : AddCommunityMember now id u "member" d = (Ok x, d') →
  (is_Some (active_commember id u d) ∧ d' = d) ∨
  (∃ m, active_commember id u d = None ∧ cm_left_at m = None ∧
     cm_role m = from_option cm_role "member"%string (community_members d !! (id, u)) ∧
     (community_members d !! (id, u) = None → is_Some (communities d !! id)) ∧
     d' = bump_community id (λ n, n + 1) (with_community_members (<[(id, u) := m]> (community_members d)) d)).
Proof.
  unfold AddCommunityMember. intros Hrun. prog_inv. unfold join_row in Hrun0.
  unfold active_commember. destruct (community_members d !! (id, u)) as [m|] eqn:Hm; simpl.
  - destruct (cm_left_at m) eqn:Hl; injection Hrun0 as <- <-; injection Hrun as <-; [right|by left; eauto].
    exists (MkComMember (cm_role m) now None). done.
  - destruct (bool_decide_reflect (is_Some (communities d !! id))) as [Hc|]; [|done].
    destruct (bool_decide (is_Some (users (cd_db d) !! u))); [|done].
    injection Hrun0 as <- <-. injection Hrun as <-. right. by exists (MkComMember "member" now None).
Qed.
Lemma AddCommunityMember_ok now id u d : community_ok d → community_ok (AddCommunityMember now id u "member" d).2.
Proof.
  intros Hok. destruct (AddCommunityMember now id u "member" d) as [[x|e] d'] eqn:Hrun; simpl.
  - destruct (AddCommunityMember_inv _ _ _ _ _ _ Hrun) as [[_ ->]|(m & Hna & Hl & Hr & Hk & ->)]; [done|].
    assert (is_Some (communities d !! id)) as [c Hc].
    { destruct (community_members d !! (id, u)) eqn:Hm; [|by apply Hk]. apply (ck_known _ Hok id u). by rewrite Hm. }
    eapply community_ok_seat; [exact Hc| | |done|done].
    + rewrite Hr. destruct (community_members d !! (id, u)) as [m0|] eqn:Hm; simpl; [by apply (ck_roles _ Hok id c u m0)|].
      destruct (ck_owner _ Hok id c Hc) as (o & m0 & Ho & Hm0 & _). rewrite decide_False; [done|congruence].
    + rewrite (ck_count _ Hok id c Hc), count_where_insert.
      assert (hits (counted id) (community_members d) (id, u) = false) as ->.
      { unfold hits, counted, active_commember in *. destruct (community_members d !! (id, u)) as [m0|]; [|done]. simpl in *.
        destruct (cm_left_at m0); [by rewrite andb_false_r|done]. }
      unfold counted at 3. simpl. rewrite bool_decide_true, Hl by done. simpl. lia.
  - unfold AddCommunityMember in Hrun. apply in_tx_Err in Hrun. by subst d'.
Qed.
Lemma RemoveCommunityMember_ok now id u d : community_ok d → community_ok (RemoveCommunityMember now id u d).2.
Proof.
  intros Hok. unfold RemoveCommunityMember, in_tx. rewrite bind_run. unfold gets at 1. cbn beta iota.
  destruct (active_commember id u d) as [m|] eqn:Hm; [|done].
  apply active_commember_Some in Hm as [Hm Hl]. destruct (ck_known _ Hok id u) as [c Hc]; [by exists m|].
  cbn. eapply (community_ok_seat id u _ (-1) c); [exact Hc| | |done|].
  - simpl. by apply (ck_roles _ Hok id c u m).
  - rewrite (ck_count _ Hok id c Hc), count_where_insert. unfold hits, counted. rewrite Hm. simpl.
    rewrite bool_decide_true, Hl by done. simpl. lia.
  - rewrite (ck_count _ Hok id c Hc). rewrite (count_where_delete _ _ (id, u)). unfold hits. rewrite Hm.
    unfold counted at 2 4. simpl. rewrite bool_decide_true, Hl by done. simpl.
    pose proof (count_where_nonneg (counted id) (delete (id, u) (community_members d))). lia.
Qed.
Lemma CreateCommunity_ok now id t ds un o pub d : community_ok d → community_ok (CreateCommunity now id t ds un o pub d).2.
Proof.
  intros [H1 H2 H3 H4]. unfold CreateCommunity. destruct (handle_taken un d); [done|].
  destruct (bool_decide_reflect (is_Some (communities d !! id))) as [|Hnew]; [done|]. destruct (negb _); [done|].
  apply eq_None_not_Some in Hnew.
  assert (∀ u, community_members d !! (id, u) = None) as Hnone.
  { intros u. destruct (community_members d !! (id, u)) eqn:Hm; [|done]. destruct (H2 id u) as [c' Hc']; [by rewrite Hm|]. congruence. }
  split; simpl.
  - intros id' c' Hc'. rewrite count_where_insert. unfold hits. rewrite Hnone. destruct (decide (id = id')) as [<-|Hne].
    + rewrite lookup_insert_eq in Hc'. injection Hc' as <-. simpl. unfold counted at 2. simpl. rewrite bool_decide_true by done. simpl.
      assert (count_where (counted id) (community_members d) = 0) as ->; [|done]. apply count_where_0. intros [i u] m Hm. unfold counted. simpl.
      rewrite bool_decide_false; [done|]. intros ->. by rewrite Hnone in Hm.
    + rewrite lookup_insert_ne in Hc' by done. rewrite (H1 id' c' Hc'). unfold counted at 3. simpl.
      rewrite bool_decide_false by done. simpl. lia.
  - intros id' u Hu. destruct (decide (id = id')) as [<-|Hne]; [by rewrite lookup_insert_eq|].
    rewrite lookup_insert_ne in Hu by congruence. rewrite lookup_insert_ne by done. by apply (H2 id' u).
  - intros id' c' Hc'. destruct (decide (id = id')) as [<-|Hne].
    + rewrite lookup_insert_eq in Hc'. injection Hc' as <-. eexists o, _. simpl. by rewrite lookup_insert_eq.
    + rewrite lookup_insert_ne in Hc' by done. destruct (H3 id' c' Hc') as (o' & m & ? & ? & ?). exists o', m.
      by rewrite lookup_insert_ne by congruence.
  - intros id' c' u m Hc' Hm. destruct (decide (id = id')) as [<-|Hne].
    + rewrite lookup_insert_eq in Hc'. injection Hc' as <-. simpl. destruct (decide (o = u)) as [<-|Hou].
      * rewrite lookup_insert_eq in Hm. injection Hm as <-. by rewrite decide_True.
      * rewrite lookup_insert_ne in Hm by congruence. by rewrite Hnone in Hm.
    + rewrite lookup_insert_ne in Hc' by done. rewrite lookup_insert_ne in Hm by congruence. by apply (H4 id' c' u m).
Qed.

Inductive community_op :=
| OpFound (now : time) (id : uuid) (chatIDs : uuid * uuid) (owner : uuid) (title description username : string) (isPublic : bool)
| OpJoinCommunity (now : time) (id user : uuid)
| OpLeaveCommunity (now : time) (id user : uuid)
| OpAddRoom (id actor chat : uuid) (section : string) (position : Z)
| OpRemoveRoom (id actor chat : uuid)
| OpChats (w : world G L).
Definition run_community_op (op : community_op) d : commdb G L :=
  match op with
  | OpFound now id chatIDs owner title description username isPublic =>
      (Communities_Create collate now id chatIDs owner title description username isPublic d).2
  | OpJoinCommunity now id user => (Communities_Join collate now id user d).2
  | OpLeaveCommunity now id user => (Communities_Leave now id user d).2
  | OpAddRoom id actor chat section position => (Communities_AddRoom id actor chat section position d).2
  | OpRemoveRoom id actor chat => (Communities_RemoveRoom id actor chat d).2
  | OpChats w => with_cd_world w d
  end.
Definition run_community_ops (ops : list community_op) d : commdb G L := foldl (λ d op, run_community_op op d) d ops.

(** A run that keeps the two tables. *)
Definition same_members d d' : Prop := communities d' = communities d ∧ community_members d' = community_members d.
Lemma AddRoom_same id ch sec pos d : same_members d (AddRoom id ch sec pos d).2.
Proof. unfold AddRoom. by destruct (_ || _). Qed.
Lemma RemoveRoom_same id ch d : same_members d (RemoveRoom id ch d).2.
Proof. unfold RemoveRoom. by destruct (bool_decide _). Qed.
Lemma starter_room_same now id o ch t pos sec d : same_members d (starter_room now id o ch t pos sec d).2.
Proof.
  unfold starter_room. rewrite bind_run. unfold on_groups. destruct (Service_Create _ _ _ _) as [[x|e] w]; [|done].
  pose proof (AddRoom_same id x sec.1.1 pos (with_cd_world w d)) as Hr.
  rewrite map_err_snd. exact Hr.
Qed.
Lemma starter_rooms_same now id o t l d :
  same_members d (for_each l (λ x : (uuid * Z) * (string * string * string), starter_room now id o x.1.1 t x.1.2 x.2) d).2.
Proof.
  revert d. induction l as [|x l IH]; intros d; [done|]. simpl. rewrite bind_run.
  destruct (starter_room_same now id o x.1.1 t x.1.2 x.2 d) as [Hc Hm].
  destruct (starter_room _ _ _ _ _ _ _ d) as [[[]|e] d1]; [|done]. destruct (IH d1) as [Hc1 Hm1]. simpl in *.
  split; congruence.
Qed.
Lemma Communities_Get_state id u d : (Communities_Get collate id u d).2 = d.
Proof.
  unfold Communities_Get. rewrite bind_run. unfold gets at 1. cbn beta iota. rewrite bind_run. unfold or_fail.
  destruct (CommunityByID _ id u d); [|done]. rewrite bind_run. unfold fail_if. by destruct (_ && _).
Qed.
Lemma requireAdmin_state id u d : (requireAdmin id u d).2 = d.
Proof.
  unfold requireAdmin. rewrite bind_run. unfold gets at 1. cbn beta iota. rewrite bind_run. unfold or_fail.
  destruct (RoleFor id u d); [|done]. unfold fail_if. by destruct (_ && _).
Qed.
Lemma admin_then {B} id u (f : () → prog (commdb G L) Error B) d :
  ((requireAdmin id u ≫= f) d).2 = d ∨
  (requireAdmin id u d = (Ok (), d) ∧ ((requireAdmin id u ≫= f) d).2 = (f () d).2).
Proof.
  rewrite bind_run. pose proof (requireAdmin_state id u d) as Hs.
  destruct (requireAdmin id u d) as [[[]|e] d1]; simpl in Hs; subst d1; [by right|by left].
Qed.

Ltac admin_first :=
  match goal with |- context [(requireAdmin ?i ?u ≫= ?f) ?d] =>
    let Hs := fresh in destruct (admin_then i u f d) as [Hs|[_ Hs]]; rewrite Hs; [done|] end.

Lemma run_community_op_ok op d : community_ok d → community_ok (run_community_op op d).
Proof.
  intros Hok. destruct op; simpl.
  - unfold Communities_Create. rewrite bind_run. destruct (check_community title username isPublic) as [[t handle]|]; [|done].
    rewrite bind_run. pose proof (CreateCommunity_ok now id t description handle owner isPublic d Hok) as Hnew. unfold map_err at 1, catch.
    destruct (CreateCommunity _ _ _ _ _ _ _ d) as [[i|e] d1]; [|done]. simpl in Hnew. cbn beta iota.
    rewrite bind_run. pose proof (starter_rooms_same now i owner t (zip (zip [chatIDs.1; chatIDs.2] [0; 1]) DefaultSections) d1) as [Hc Hm].
    destruct (for_each _ _ d1) as [[[]|e] d2]; simpl in Hc, Hm; [rewrite Communities_Get_state|]; by apply (community_ok_same d1).
  - unfold Communities_Join. rewrite bind_run. unfold gets at 1. cbn beta iota. rewrite bind_run. unfold or_fail.
    destruct (CommunityByID _ id user d) as [c|] eqn:Hc; [|done]. rewrite bind_run. unfold fail_if. destruct (negb (cu_IsPublic c)); [done|].
    cbn beta iota. rewrite bind_run. pose proof (AddCommunityMember_ok now id user d Hok) as Hadd. unfold map_err, catch.
    destruct (AddCommunityMember _ _ _ _ d) as [[[]|e] d1]; [|done]. simpl in Hadd. cbn beta iota.
    assert (NoDup (ru_ChatID <$> cu_Rooms c)) as Hnd.
    { unfold CommunityByID in Hc. destruct (live_community id d); [|done]. injection Hc as <-. apply Rooms_NoDup. }
    destruct (join_rooms_run now user (cu_Rooms c) d1 Hnd) as (d2 & -> & Hcs & Hms & _). by apply (community_ok_same d1).
  - unfold Communities_Leave. rewrite map_err_snd. by apply RemoveCommunityMember_ok.
  - unfold Communities_AddRoom. admin_first.
    rewrite map_err_snd. apply (community_ok_same d); [apply AddRoom_same..|done].
  - unfold Communities_RemoveRoom. admin_first.
    rewrite map_err_snd. apply (community_ok_same d); [apply RemoveRoom_same..|done].
  - by apply (community_ok_same d).
Qed.
Lemma requireAdmin_spec id u d : community_ok d →
  requireAdmin id u d = (Ok (), d) ↔
  ∃ c m, communities d !! id = Some c ∧ cy_owner c = Some u ∧ active_commember id u d = Some m.
Proof.
  intros Hok. unfold requireAdmin, RoleFor. rewrite bind_run. unfold gets at 1. cbn beta iota. rewrite bind_run. unfold or_fail.
  destruct (active_commember id u d) as [m|] eqn:Hm; simpl; [|naive_solver].
  apply active_commember_Some in Hm as [Hm Hl]. destruct (ck_known _ Hok id u) as [c Hc]; [by exists m|].
  rewrite (ck_roles _ Hok id c u m) by done. unfold fail_if. case_decide as Ho.
  - split; [|done]. intros _. by exists c, m.
  - split; [done|]. intros (c' & m' & Hc' & Ho' & _). congruence.
Qed.

(** The founder of a private community who has left: no run brings an administrator back. *)
Definition abandoned (id : uuid) d : Prop :=
  ∃ c o m, communities d !! id = Some c ∧ cy_is_public c = false ∧ cy_owner c = Some o ∧
    community_members d !! (id, o) = Some m ∧ cm_left_at m ≠ None.
Lemma abandoned_same id d d' : communities d' = communities d → community_members d' = community_members d →
  abandoned id d → abandoned id d'.
Proof. unfold abandoned. by intros -> ->. Qed.
Lemma abandoned_seat id id' u m f d :
  (id' = id → ∀ c o, communities d !! id = Some c → cy_owner c = Some o → u = o → cm_left_at m ≠ None) →
  abandoned id d → abandoned id (bump_community id' f (with_community_members (<[(id', u) := m]> (community_members d)) d)).
Proof.
  intros Hleft (c & o & m0 & Hc & Hp & Ho & Hm & Hl).
  exists (if bool_decide (id = id') then with_cy_member_count (f (cy_member_count c)) c else c), o.
  destruct (decide ((id', u) = (id, o))) as [[= -> ->]|Hne].
  - exists m. unfold bump_community. simpl. rewrite lookup_update_where, Hc, lookup_insert_eq. simpl.
    case_bool_decide; [|done]. repeat (split; [done|]). eapply Hleft; [done|exact Hc|exact Ho|done].
  - exists m0. unfold bump_community. simpl. rewrite lookup_update_where, Hc, lookup_insert_ne by done. simpl.
    by case_bool_decide.
Qed.

Lemma CommunityByID_row id u d c : CommunityByID collate id u d = Some c →
  ∃ row, live_community id d = Some row ∧ c = community_of id row (Rooms collate id u d) (from_option cm_role ""%string (active_commember id u d)).
Proof. unfold CommunityByID. destruct (live_community id d) as [row|]; [|done]. intros [= <-]. by exists row. Qed.
(** What [Join] comes to when the community is public and the member row is written. *)
Lemma Communities_Join_run now id u d row d1 : live_community id d = Some row → cy_is_public row = true →
  AddCommunityMember now id u "member" d = (Ok (), d1) →
  Communities_Join collate now id u d = join_rooms now u (Rooms collate id u d) d1.
Proof.
  intros Hrow Hpub Hadd. unfold Communities_Join. rewrite bind_run. unfold gets at 1, CommunityByID. cbn beta iota. rewrite Hrow.
  rewrite bind_run. unfold or_fail at 1. simpl. rewrite bind_run. unfold fail_if. simpl. rewrite Hpub. simpl.
  rewrite bind_run. unfold map_err, catch. by rewrite Hadd.
Qed.
Lemma Communities_Join_private now id u d row : communities d !! id = Some row → cy_is_public row = false →
  (Communities_Join collate now id u d).2 = d.
Proof.
  intros Hrow Hpriv. unfold Communities_Join. rewrite bind_run. unfold gets at 1. cbn beta iota. rewrite bind_run. unfold or_fail.
  destruct (CommunityByID collate id u d) as [c|] eqn:Hc; [|done].
  apply CommunityByID_row in Hc as (row' & Hl & ->). apply live_community_Some in Hl. assert (row' = row) as -> by congruence.
  rewrite bind_run. unfold fail_if. simpl. by rewrite Hpriv.
Qed.
Lemma abandoned_op id op d : abandoned id d → abandoned id (run_community_op op d).
Proof.
  intros Hab. pose proof Hab as (c & o & m & Hc & Hp & Ho & Hm & Hl). destruct op as [now id' ids o' t ds un pub|now id' u|now id' u|id' a ch sec pos|id' a ch|w]; simpl.
  - unfold Communities_Create. rewrite bind_run. destruct (check_community _ _ _) as [[t' handle]|]; [|done].
    rewrite bind_run. unfold map_err at 1, catch, CreateCommunity. destruct (handle_taken handle d); [done|].
    destruct (bool_decide_reflect (is_Some (communities d !! id'))) as [|Hnew]; [done|]. destruct (negb _); [done|]. cbn beta iota.
    assert (id' ≠ id) as Hne by (intros ->; by apply Hnew).
    rewrite bind_run. match goal with |- context [for_each ?l ?f ?d1] => pose proof (starter_rooms_same now id' o' t' l d1) as [Hcs Hms] end.
    destruct (for_each _ _ _) as [[[]|e] d2]; simpl in Hcs, Hms; [rewrite Communities_Get_state|];
      exists c, o, m; simpl; rewrite Hcs, Hms, !lookup_insert_ne by congruence; done.
  - destruct (AddCommunityMember now id' u "member" d) as [[[]|e] d1] eqn:Hadd.
    + destruct (decide (id' = id)) as [->|Hne]; [by rewrite (Communities_Join_private now id u d c)|].
      assert (abandoned id d1) as Hab1.
      { apply AddCommunityMember_inv in Hadd as [[_ ->]|(m' & _ & _ & _ & _ & ->)]; [done|]. by apply abandoned_seat. }
      destruct (live_community id' d) as [row|] eqn:Hrow.
      * destruct (cy_is_public row) eqn:Hpub.
        -- rewrite (Communities_Join_run now id' u d row d1) by done.
           destruct (join_rooms_run now u (Rooms collate id' u d) d1 (Rooms_NoDup id' u d)) as (d2 & -> & Hcs & Hms & _).
           by apply (abandoned_same id d1).
        -- by rewrite (Communities_Join_private now id' u d row) by (done || by apply live_community_Some).
      * unfold Communities_Join. rewrite bind_run. unfold gets at 1. cbn beta iota. rewrite bind_run. unfold or_fail, CommunityByID.
        by rewrite Hrow.
    + unfold Communities_Join. rewrite bind_run. unfold gets at 1. cbn beta iota. rewrite bind_run. unfold or_fail.
      destruct (CommunityByID collate id' u d); [|done]. rewrite bind_run. unfold fail_if. destruct (negb _); [done|]. cbn beta iota.
      rewrite bind_run. unfold map_err, catch. rewrite Hadd. unfold AddCommunityMember in Hadd. apply in_tx_Err in Hadd. by subst d1.
  - unfold Communities_Leave. rewrite map_err_snd. unfold RemoveCommunityMember, in_tx. rewrite bind_run. unfold gets at 1. cbn beta iota.
    destruct (active_commember id' u d) as [m'|]; [|done]. simpl. by apply abandoned_seat.
  - unfold Communities_AddRoom. admin_first. rewrite map_err_snd. apply (abandoned_same id d); [apply AddRoom_same..|done].
  - unfold Communities_RemoveRoom. admin_first. rewrite map_err_snd. apply (abandoned_same id d); [apply RemoveRoom_same..|done].
  - done.
Qed.
Lemma run_community_ops_ok ops d : community_ok d → community_ok (run_community_ops ops d).
Proof. revert d. induction ops as [|op ops IH]; intros d Hok; [done|]. by apply IH, run_community_op_ok. Qed.
Lemma abandoned_ops id ops d : abandoned id d → abandoned id (run_community_ops ops d).
Proof. revert d. induction ops as [|op ops IH]; intros d Hok; [done|]. by apply IH, abandoned_op. Qed.
(** Nobody administers it again, whatever is done. *)
Lemma abandoned_for_good id ops d u : community_ok d → abandoned id d →
  requireAdmin id u (run_community_ops ops d) ≠ (Ok (), run_community_ops ops d).
Proof.
  intros Hok Hab. rewrite requireAdmin_spec by by apply run_community_ops_ok. intros (c & m & Hc & Ho & Hm).
  destruct (abandoned_ops id ops d Hab) as (c' & o & m' & Hc' & _ & Ho' & Hm' & Hl').
  apply active_commember_Some in Hm as [Hm Hl]. congruence.
Qed.

(** ** Properties *)

(** The tables of communities stay in order under every sequence of foundings, joins,
    departures and room changes, with anything happening in the chats in between: the
    member count is the number of members who have not left, every row belongs to a
    community, and exactly one row has the role owner, that of the founder, whatever they
    leave and rejoin; so the right to attach and detach rooms is the founder's while they
    are in and nobody else's ever. *)
Lemma communities_stay_in_order ops d : community_ok d →
  community_ok (run_community_ops ops d) ∧
  ∀ id u, let d' := run_community_ops ops d in
    requireAdmin id u d' = (Ok (), d') ↔
    ∃ c m, communities d' !! id = Some c ∧ cy_owner c = Some u ∧ active_commember id u d' = Some m.
Proof.
  intros Hok. assert (community_ok (run_community_ops ops d)) as Hok' by by apply run_community_ops_ok.
  split; [done|]. intros id u d'. by apply requireAdmin_spec.
Qed.

(** Joining a public community makes the user a member of it and of every announcement
    and general room that takes whoever asks (live, not full, no approval), rooms that fail
    being passed over; no other membership of any chat changes, neither in the other rooms
    nor anybody else's, and joining again changes no row of the community. *)
Lemma joining_brings_the_default_rooms now id u d row :
  live_community id d = Some row → cy_is_public row = true → is_Some (users (cd_db d) !! u) →
  ∃ d', Communities_Join collate now id u d = (Ok (), d') ∧
    is_Some (active_commember id u d') ∧
    (is_Some (active_commember id u d) → communities d' = communities d ∧ community_members d' = community_members d) ∧
    (∀ ch r, community_rooms d !! (id, ch) = Some r → default_section (rm_section r) = true → open_chat ch (cd_db d) →
       seated ch u (cd_db d')) ∧
    (∀ ch v, chat_members (cd_db d') !! (ch, v) ≠ chat_members (cd_db d) !! (ch, v) →
       v = u ∧ ∃ r, community_rooms d !! (id, ch) = Some r ∧ default_section (rm_section r) = true).
Proof.
  intros Hrow Hpub Hu. pose proof (live_community_Some _ _ _ Hrow) as Hc.
  assert (∃ d1, AddCommunityMember now id u "member" d = (Ok (), d1) ∧ cd_world d1 = cd_world d ∧ is_Some (active_commember id u d1) ∧
    (is_Some (active_commember id u d) → d1 = d)) as (d1 & Hadd & Hw & Hin & Hsame).
  { unfold AddCommunityMember, in_tx, join_row. rewrite bind_run. unfold active_commember.
    destruct (community_members d !! (id, u)) as [m|] eqn:Hm; simpl.
    - destruct (cm_left_at m) eqn:Hl.
      + eexists. split; [done|]. split; [done|]. simpl. rewrite lookup_insert_eq. split; [by eauto|]. by intros [].
      + eexists. split; [done|]. split; [done|]. rewrite Hm. simpl. rewrite Hl. by eauto.
    - rewrite !bool_decide_true by (done || by exists row). simpl. eexists. split; [done|]. split; [done|]. simpl.
      rewrite lookup_insert_eq. split; [by eauto|]. by intros []. }
  rewrite (Communities_Join_run now id u d row d1) by done.
  destruct (join_rooms_run now u (Rooms collate id u d) d1 (Rooms_NoDup id u d))
    as (d2 & Hrun & Hcs & Hms & _ & _ & Hframe & Hother & Hseat).
  exists d2. assert (cd_db d1 = cd_db d) as Hdb by (unfold cd_db; by rewrite Hw).
  split; [done|]. split; [unfold active_commember in *; by rewrite Hms|]. split; [|split].
  - intros Hmem. by rewrite Hcs, Hms, Hsame.
  - intros ch r Hr Hdef Hopen. pose proof Hopen as [(c & Hlive & _) _].
    destruct (listed_room u d id ch r) as [room|] eqn:Hroom; [|unfold listed_room in Hroom; by rewrite Hlive in Hroom].
    assert (ru_ChatID room = ch ∧ ru_Section room = rm_section r) as [<- Hsec].
    { unfold listed_room in Hroom. rewrite Hlive in Hroom. by injection Hroom as <-. }
    apply Hseat; [|unfold default_room; by rewrite Hsec|by rewrite Hdb]. apply elem_of_Rooms. by exists r, c.
  - intros ch v Hch. destruct (decide (v = u)) as [->|Hv]; [|by rewrite Hother, Hdb in Hch]. split; [done|].
    destruct (from_option (λ r, default_section (rm_section r)) false (community_rooms d !! (id, ch))) eqn:Hr.
    { destruct (community_rooms d !! (id, ch)) as [r|]; [by exists r|done]. }
    exfalso. apply Hch. rewrite <-Hdb. apply Hframe. intros room (r & c & Hroom & _ & _ & Hsec)%elem_of_Rooms Hdef <-.
    rewrite Hroom in Hr. simpl in Hr. unfold default_room in Hdef. by rewrite Hsec, Hr in Hdef.
Qed.
End communities.

(** ** Concrete runs *)

Definition by_length (s : string) : Z := Z.of_nat (String.length s).
Definition town_user : user_row := MkUser None None None false None.
Definition town_start : commdb unit unit :=
  MkCommDb (MkWorld (with_users {[1%N := town_user; 2%N := town_user; 3%N := town_user]} empty_db) None tt 0 []) ∅ ∅ ∅ ∅.
(** A public community 50 of account 1, with its rooms 60 and 61. *)
Definition founding_day : list (community_op (G := unit) (L := unit)) :=
  [OpFound 1 50 (60%N, 61%N) 1 "town" "" "town" true; OpJoinCommunity 2 50 3; OpLeaveCommunity 3 50 3].
Definition town : commdb unit unit := run_community_ops by_length founding_day town_start.

Lemma community_ok_start : community_ok town_start.
Proof. split; simpl; [intros id c Hc|intros id u [m Hm]|intros id c Hc|intros id c u m Hc]; by rewrite lookup_empty in *. Qed.

Lemma communities_stay_in_order_witness :
  community_ok town_start ∧ community_ok town ∧
  ∀ id u, requireAdmin id u town = (Ok (), town) ↔
    ∃ c m, communities town !! id = Some c ∧ cy_owner c = Some u ∧ active_commember id u town = Some m.
Proof.
  split; [exact community_ok_start|]. exact (communities_stay_in_order by_length founding_day town_start community_ok_start).
Defined.

(** What the founding stored. *)
Definition town_summary (d : commdb unit unit) : list (uuid * string) * Z * list bool :=
  ((λ r, (ru_ChatID r, ru_Section r)) <$> Rooms by_length 50 2 d,
   from_option cy_member_count 0 (communities d !! 50%N),
   (λ k : uuid * uuid, bool_decide (is_Some (active_member (cd_db d) k.1 k.2))) <$> [(60%N, 1%N); (61%N, 1%N); (60%N, 2%N); (61%N, 2%N)]).
Example town_is_founded :
  town_summary town = ([(61%N, "general"); (60%N, "announcements")], 1, [true; true; false; false])%string.
Proof. vm_compute. reflexivity. Qed.

Definition town_row : community_row := MkCommunityRow "town" "" (Some "town"%string) None (Some 1%N) 1 true 1 None.
Lemma joining_brings_the_default_rooms_witness :
  ∃ d', Communities_Join by_length 4 50 2 town = (Ok (), d') ∧
    is_Some (active_commember 50 2 d') ∧
    (is_Some (active_commember 50 2 town) → communities d' = communities town ∧ community_members d' = community_members town) ∧
    (∀ ch r, community_rooms town !! (50%N, ch) = Some r → default_section (rm_section r) = true → open_chat ch (cd_db town) →
       seated ch 2 (cd_db d')) ∧
    (∀ ch v, chat_members (cd_db d') !! (ch, v) ≠ chat_members (cd_db town) !! (ch, v) →
       v = 2%N ∧ ∃ r, community_rooms town !! (50%N, ch) = Some r ∧ default_section (rm_section r) = true).
Proof.
  apply (joining_brings_the_default_rooms by_length 4 50 2 town town_row); [vm_compute; reflexivity|reflexivity|].
  exists town_user. vm_compute. reflexivity.
Defined.

(** Attaching a room asks nothing about the chat: the founder attaches any chat there is,
    and the community then shows its title and its size. *)
Lemma founders_attach_any_chat {G L} (collate : string → Z) id a ch sec pos (d : commdb G L) c :
  requireAdmin id a d = (Ok (), d) → is_Some (communities d !! id) → live_chat (cd_db d) ch = Some c →
  ∃ d', Communities_AddRoom id a ch sec pos d = (Ok (), d') ∧
    ∃ room, room ∈ Rooms collate id a d' ∧ ru_ChatID room = ch ∧ ru_Title room = c_title c ∧ ru_MemberCount room = c_member_count c.
Proof.
  intros Hadmin Hid Hc. unfold Communities_AddRoom. rewrite bind_run, Hadmin. unfold map_err, catch, AddRoom.
  rewrite (bool_decide_true _ Hid), bool_decide_true.
  2: { apply live_chat_Some in Hc as [Hc _]. by exists c. }
  simpl. eexists. split; [done|].
  exists (MkRoom ch (c_type c) (c_title c) sec pos (c_member_count c) (bool_decide (is_Some (active_member (cd_db d) ch a)))).
  split; [|done]. apply elem_of_Rooms. exists (MkRoomRow sec pos), c. simpl. rewrite lookup_insert_eq. split; [done|].
  assert (live_chat (cd_db (with_chat_community (<[ch:=id]> (chat_community d))
    (with_community_rooms (<[(id, ch):=MkRoomRow sec pos]> (community_rooms d)) d))) ch = Some c) as Hlive by exact Hc.
  split; [exact Hlive|]. split; [|done]. unfold listed_room. by rewrite Hlive.
Qed.

(** A title of 113 to 128 letters is accepted, and the announcements room, whose title would
    be longer than a chat's may be, is not created. *)
Definition long_title : string := string_of (repeat 97%N 115).
Example long_titles_lose_a_room :
  (λ r, ru_Section r) <$> Rooms by_length 50 1 (Communities_Create by_length 1 50 (60%N, 61%N) 1 long_title "" "" false town_start).2
    = ["general"]%string.
Proof. vm_compute. reflexivity. Qed.

(** The founder of a private community leaves it: nobody can administer or join it again. *)
Definition hamlet : commdb unit unit :=
  run_community_ops by_length [OpFound 1 51 (62%N, 63%N) 1 "hamlet" "" "" false; OpLeaveCommunity 2 51 1] town_start.
Lemma a_private_community_can_be_orphaned ops u :
  requireAdmin 51 u (run_community_ops by_length ops hamlet) ≠ (Ok (), run_community_ops by_length ops hamlet).
Proof.
  apply abandoned_for_good; [apply run_community_ops_ok, community_ok_start|].
  exists (MkCommunityRow "hamlet" "" None None (Some 1%N) 0 false 1 None), 1%N, (MkComMember "owner" 1 (Some 2)).
  split; [vm_compute; reflexivity|]. split; [done|]. split; [done|]. split; [vm_compute; reflexivity|done].
Qed.
