(* ===== verification/Stories.v ===== *)
(** * Stories ([internal/stories/stories.go])

    Posts that are live for a day, seen by an audience worked out when they are read.  The
    module reads the social graph ([Social]) and the chats ([Store]); its own tables are
    [stories], [story_views] and [close_friends].  [expireStories] is the worker's. *)

From stdpp Require Import base tactics list sorting gmap strings.
From Stdlib Require Import ZArith Lia.
From S2P Require Import Prelude GoString Httpx Permissions Store ChatContext Social.

Set Default Goal Selector "!".
Open Scope Z_scope.

Definition Lifetime : Z := 24 * hour.

Definition PrivacyEveryone : string := "everyone".
Definition PrivacyContacts : string := "contacts".
Definition PrivacyCloseFriends : string := "close_friends".
Definition PrivacySelected : string := "selected".
Definition validPrivacy : list string := [PrivacyEveryone; PrivacyContacts; PrivacyCloseFriends; PrivacySelected].

(** ** Tables *)

(** [stories] *)
Record story_row := MkStoryRow {
  sy_author : uuid;
  sy_channel : option uuid;
  sy_type : string;
  sy_media : option uuid;
  sy_caption : string;
  sy_background : string;
  sy_privacy : string;
  sy_allow_list : list uuid;
  sy_deny_list : list uuid;
  sy_view_count : Z;
  sy_created_at : time;
  sy_expires_at : time;
  sy_deleted_at : option time;
}.
Definition with_sy_view_count v (s : story_row) :=
  MkStoryRow (sy_author s) (sy_channel s) (sy_type s) (sy_media s) (sy_caption s) (sy_background s) (sy_privacy s)
    (sy_allow_list s) (sy_deny_list s) v (sy_created_at s) (sy_expires_at s) (sy_deleted_at s).
Definition with_sy_deleted_at v (s : story_row) :=
  MkStoryRow (sy_author s) (sy_channel s) (sy_type s) (sy_media s) (sy_caption s) (sy_background s) (sy_privacy s)
    (sy_allow_list s) (sy_deny_list s) (sy_view_count s) (sy_created_at s) (sy_expires_at s) v.
(** [story_views], keyed by [(story_id, user_id)] *)
Record story_view_row := MkStoryView { vw_reaction : option string; vw_viewed_at : time }.

Record storydb := MkStoryDb {
  sd_graph : socialdb;
  sd_chats : db;
  sd_media : gset uuid;
  stories : gmap uuid story_row;
  story_views : gmap (uuid * uuid) story_view_row;
  close_friends : gset (uuid * uuid);
}.
Definition with_stories v (d : storydb) := MkStoryDb (sd_graph d) (sd_chats d) (sd_media d) v (story_views d) (close_friends d).
Definition with_story_views v (d : storydb) := MkStoryDb (sd_graph d) (sd_chats d) (sd_media d) (stories d) v (close_friends d).
Definition with_close_friends v (d : storydb) := MkStoryDb (sd_graph d) (sd_chats d) (sd_media d) (stories d) (story_views d) v.

Inductive storyerr := StoryNotFound | StoryForeignKey | StoryCheck | StoryUnique.

Record Story := MkStory {
  so_ID : uuid;
  so_AuthorID : uuid;
  so_AuthorName : string;
  so_ChannelChatID : option uuid;
  so_Type : string;
  so_MediaID : option uuid;
  so_Caption : string;
  so_Background : string;
  so_Privacy : string;
  so_ViewCount : Z;
  so_CreatedAt : time;
  so_ExpiresAt : time;
  so_SeenByMe : bool;
  so_MyReaction : option string;
}.
Record Viewer := MkViewer {
  vr_UserID : uuid;
  vr_DisplayName : string;
  vr_Reaction : option string;
  vr_ViewedAt : time;
}.
Record StoryInput := MkStoryInput {
  si_AuthorID : uuid;
  si_ChannelChatID : option uuid;
  si_Type : string;
  si_MediaID : option uuid;
  si_Caption : string;
  si_Background : string;
  si_Privacy : string;
  si_AllowList : list uuid;
  si_DenyList : list uuid;
}.
Definition with_si_Privacy v (i : StoryInput) :=
  MkStoryInput (si_AuthorID i) (si_ChannelChatID i) (si_Type i) (si_MediaID i) (si_Caption i) (si_Background i) v
    (si_AllowList i) (si_DenyList i).

(** ** Repository *)

Definition opt_in (o : option uuid) (P : uuid → bool) : bool := match o with Some x => P x | None => true end.
Definition story_of (name : string) (view : option story_view_row) (id : uuid) (s : story_row) : Story :=
  MkStory id (sy_author s) name (sy_channel s) (sy_type s) (sy_media s) (sy_caption s) (sy_background s) (sy_privacy s)
    (sy_view_count s) (sy_created_at s) (sy_expires_at s) (bool_decide (is_Some view)) (view ≫= vw_reaction).
Definition CreateStory (now : time) (id : uuid) (i : StoryInput) : prog storydb storyerr Story := λ d,
  let s := MkStoryRow (si_AuthorID i) (si_ChannelChatID i) (si_Type i) (si_MediaID i) (si_Caption i) (si_Background i)
    (si_Privacy i) (si_AllowList i) (si_DenyList i) 0 now (now + Lifetime) None in
  if negb (bool_decide (si_Type i ∈ ["image"; "video"; "text"]%string)) then (Err StoryCheck, d)
  else if negb (bool_decide (si_Privacy i ∈ validPrivacy)) then (Err StoryCheck, d)
  else if bool_decide (is_Some (stories d !! id)) then (Err StoryUnique, d)
  else if negb (has_account (si_AuthorID i) (sd_graph d)) then (Err StoryForeignKey, d)
  else if negb (opt_in (si_ChannelChatID i) (λ c, bool_decide (is_Some (chats (sd_chats d) !! c)))) then (Err StoryForeignKey, d)
  else if negb (opt_in (si_MediaID i) (λ x, bool_decide (x ∈ sd_media d))) then (Err StoryForeignKey, d)
  else (Ok (story_of "" None id s), with_stories (<[id := s]> (stories d)) d).

(** The [WHERE] of the feed; the author's account is the join. *)
Definition feed_where (now : time) (viewer : uuid) (d : storydb) (s : story_row) : bool :=
  (if sy_deleted_at s is None then true else false)
  && (now <? sy_expires_at s)
  && negb (bool_decide (viewer ∈ sy_deny_list s))
  && (bool_decide (sy_author s = viewer)
      || bool_decide (sy_privacy s = PrivacyEveryone)
      || (bool_decide (sy_privacy s = PrivacyContacts) && has_contact (sy_author s) viewer (sd_graph d))
      || (bool_decide (sy_privacy s = PrivacyCloseFriends) && bool_decide ((sy_author s, viewer) ∈ close_friends d))
      || (bool_decide (sy_privacy s = PrivacySelected) && bool_decide (viewer ∈ sy_allow_list s))).
Definition author_live (s : story_row) (d : storydb) : bool :=
  from_option live_account false (accounts (sd_graph d) !! sy_author s).
(** [ORDER BY s.author_id = $1 DESC, s.created_at DESC] *)
Definition feed_keys (viewer : uuid) (s : uuid * story_row) : list Z :=
  [if bool_decide (sy_author s.2 = viewer) then 0 else 1; - sy_created_at s.2].
Definition Feed (now : time) (viewer : uuid) (limit : Z) (d : storydb) : list Story :=
  (λ s, story_of (display_name (sy_author s.2) (sd_graph d)) (story_views d !! (s.1, viewer)) s.1 s.2) <$>
    take (Z.to_nat limit) (order_by_keys (feed_keys viewer)
      (rows_where (λ _ s, author_live s d && feed_where now viewer d s) (stories d))).

Definition can_view_where (viewer : uuid) (d : storydb) (s : story_row) : bool :=
  (bool_decide (sy_author s = viewer)
   || bool_decide (sy_privacy s = PrivacyEveryone)
   || (bool_decide (sy_privacy s = PrivacyContacts) && has_contact (sy_author s) viewer (sd_graph d))
   || (bool_decide (sy_privacy s = PrivacyCloseFriends) && bool_decide ((sy_author s, viewer) ∈ close_friends d))
   || (bool_decide (sy_privacy s = PrivacySelected) && bool_decide (viewer ∈ sy_allow_list s)))
  && negb (bool_decide (viewer ∈ sy_deny_list s)).
Definition CanView (now : time) (storyID viewer : uuid) (d : storydb) : result storyerr bool :=
  match stories d !! storyID with
  | Some s =>
      if (if sy_deleted_at s is None then true else false) && (now <? sy_expires_at s)
      then Ok (can_view_where viewer d s) else Err StoryNotFound
  | None => Err StoryNotFound
  end.

(** The upsert; [xmax = 0] is the row being new. *)
Definition upsert_view (now : time) (storyID viewer : uuid) (reaction : option string) : prog storydb storyerr bool := λ d,
  match story_views d !! (storyID, viewer) with
  | Some v =>
      (Ok false, with_story_views (<[(storyID, viewer) :=
         MkStoryView (match reaction with Some r => Some r | None => vw_reaction v end) (vw_viewed_at v)]> (story_views d)) d)
  | None =>
      if negb (bool_decide (is_Some (stories d !! storyID))) || negb (has_account viewer (sd_graph d)) then (Err StoryForeignKey, d)
      else (Ok true, with_story_views (<[(storyID, viewer) := MkStoryView reaction now]> (story_views d)) d)
  end.
Definition count_view (storyID : uuid) (d : storydb) : storydb :=
  with_stories (update_where (λ id _, bool_decide (id = storyID)) (λ _ s, with_sy_view_count (sy_view_count s + 1) s) (stories d)) d.
Definition RecordStoryView (now : time) (storyID viewer : uuid) (reaction : option string) : prog storydb storyerr () :=
  in_tx (
    upsert_view now storyID viewer reaction ≫= λ inserted,
    if inserted : bool then modify (count_view storyID) else mret ()).

Definition Viewers (storyID authorID : uuid) (limit : Z) (d : storydb) : list Viewer :=
  match stories d !! storyID with
  | Some s =>
      if bool_decide (sy_author s = authorID) then
        (λ v : (uuid * uuid) * story_view_row,
           MkViewer v.1.2 (display_name v.1.2 (sd_graph d)) (vw_reaction v.2) (vw_viewed_at v.2)) <$>
          take (Z.to_nat limit) (order_by_desc (λ v : (uuid * uuid) * story_view_row, vw_viewed_at v.2)
            (rows_where (λ k _, bool_decide (k.1 = storyID)) (story_views d)))
      else []
  | None => []
  end.

Definition own_live_story (authorID : uuid) (s : story_row) : bool :=
  bool_decide (sy_author s = authorID) && (if sy_deleted_at s is None then true else false).
Definition DeleteStory (now : time) (storyID authorID : uuid) : prog storydb storyerr () := λ d,
  match stories d !! storyID with
  | Some s =>
      if own_live_story authorID s
      then (Ok (), with_stories (<[storyID := with_sy_deleted_at (Some now) s]> (stories d)) d)
      else (Err StoryNotFound, d)
  | None => (Err StoryNotFound, d)
  end.

(** The rows of [unnest], repeats ignored; one that names no account fails them all. *)
Definition insert_friends (ownerID : uuid) (friendIDs : list uuid) : prog storydb storyerr () := λ d,
  if negb (forallb (λ f, has_account f (sd_graph d)) (ownerID :: friendIDs)) then (Err StoryForeignKey, d)
  else (Ok (), with_close_friends (close_friends d ∪ list_to_set (pair ownerID <$> friendIDs)) d).
Definition SetCloseFriends (ownerID : uuid) (friendIDs : list uuid) : prog storydb storyerr () :=
  in_tx (
    modify (λ d, with_close_friends (filter (λ p, p.1 ≠ ownerID) (close_friends d)) d) ≫= λ _,
    if decide (friendIDs = []) then mret () else insert_friends ownerID friendIDs).
Definition CloseFriends (ownerID : uuid) (d : storydb) : list uuid :=
  snd <$> filter (λ p, p.1 = ownerID) (elements (close_friends d)).

(** The worker's sweep. *)
Definition expireStories (now : time) (d : storydb) : storydb :=
  with_stories (update_where (λ _ s, (sy_expires_at s <? now) && (if sy_deleted_at s is None then true else false))
    (λ _ s, with_sy_deleted_at (Some now) s) (stories d)) d.

(** ** Service *)

Abbreviation shandler := (prog storydb Error).
Definition story_internal (_ : storyerr) : Error := Internal.
Definition story_gone : Error := NotFound CodeNotFound "This story is no longer available".
Definition channel_not_found : Error := NotFound CodeChatNotFound "Channel not found".

Definition story_type_error (i : StoryInput) : option Error :=
  if bool_decide (si_Type i ∈ ["image"; "video"]%string) then
    if si_MediaID i is None then Some (WithField (Validation "Media is required for this story type") "media_id" "required") else None
  else if decide (si_Type i = "text"%string) then
    if decide (trim_space (si_Caption i) = ""%string)
    then Some (WithField (Validation "Text stories need some text") "caption" "required") else None
  else Some (WithField (Validation "Unsupported story type") "type" "must be image, video or text").
(** The input as it is stored. *)
Definition check_story (i : StoryInput) : result Error StoryInput :=
  match story_type_error i with
  | Some e => Err e
  | None =>
      let i := if decide (si_Privacy i = ""%string) then with_si_Privacy PrivacyContacts i else i in
      if negb (bool_decide (si_Privacy i ∈ validPrivacy))
      then Err (WithField (Validation "Unsupported privacy setting") "privacy" "must be everyone, contacts, close_friends or selected")
      else if bool_decide (si_Privacy i = PrivacySelected) && bool_decide (si_AllowList i = [])
      then Err (WithField (Validation "Select at least one person") "allow_list" "required for the selected privacy setting")
      else if 2000 <? rune_count (si_Caption i)
      then Err (WithField (Validation "Caption is too long") "caption" "exceeds the maximum length")
      else Ok i
  end.
Definition authorize_channel (channel author : uuid) : shandler () :=
  gets (λ d, chat_context (sd_chats d) channel author) ≫= λ cx, or_fail cx channel_not_found ≫= λ cx,
  fail_if (negb (bool_decide (ctx_chat_type cx = ChatChannel)))
    (WithField (Validation "Only a channel can publish a story") "channel_chat_id" "must be a channel") ≫= λ _,
  fail_if (negb (ctx_is_member cx)) channel_not_found ≫= λ _,
  fail_if (negb (PostStories (ctx_permissions cx)))
    (Forbidden CodePermissionDenied "You cannot publish stories for this channel").
Definition Stories_Create (now : time) (id : uuid) (i : StoryInput) : shandler Story :=
  (λ d, (check_story i, d)) ≫= λ i,
  (match si_ChannelChatID i with Some c => authorize_channel c (si_AuthorID i) | None => mret () end) ≫= λ _,
  map_err story_internal (CreateStory now id i).

Definition Stories_Feed (now : time) (viewer : uuid) (limit : Z) : shandler (list Story) :=
  gets (Feed now viewer (if (limit <=? 0) || (200 <? limit) then 100 else limit)).
Definition Stories_View (now : time) (storyID viewer : uuid) (reaction : option string) : shandler () :=
  (λ d, (match CanView now storyID viewer d with
         | Ok allowed => Ok allowed
         | Err StoryNotFound => Err story_gone
         | Err _ => Err Internal
         end, d)) ≫= λ allowed,
  fail_if (negb allowed) story_gone ≫= λ _,
  fail_if (from_option (λ r, 8 <? rune_count r) false reaction)
    (WithField (Validation "Reaction is not valid") "reaction" "must be a single emoji") ≫= λ _,
  map_err story_internal (RecordStoryView now storyID viewer reaction).
Definition Stories_Viewers (storyID authorID : uuid) : shandler (list Viewer) := gets (Viewers storyID authorID 500).
Definition delete_story_error (e : storyerr) : Error :=
  match e with StoryNotFound => NotFound CodeNotFound "Story not found" | _ => Internal end.
Definition Stories_Delete (now : time) (storyID authorID : uuid) : shandler () :=
  map_err delete_story_error (DeleteStory now storyID authorID).
Definition Stories_SetCloseFriends (ownerID : uuid) (friendIDs : list uuid) : shandler () :=
  fail_if (1000 <? Z.of_nat (length friendIDs)) (WithField (Validation "Too many close friends") "friend_ids" "at most 1000 entries") ≫= λ _,
  map_err story_internal (SetCloseFriends ownerID friendIDs).
Definition Stories_CloseFriends (ownerID : uuid) : shandler (list uuid) := gets (CloseFriends ownerID).
