(* ===== verification/StoriesTheory.v ===== *)
(** * Stories: the theorems

    The feed and the single-story check let the same audience in, nobody sees a story past
    its day, and every viewer is counted once. *)

From stdpp Require Import base tactics list sorting gmap strings.
From Stdlib Require Import ZArith Lia.
From S2P Require Import Prelude GoString Httpx Permissions Store ChatContext Social Stories.

Set Default Goal Selector "!".
Open Scope Z_scope.

(** ** The audience *)

(** Whom the author let in, by the story's scope. *)
Inductive audience (d : storydb) (viewer : uuid) (s : story_row) : Prop :=
| AudAuthor : sy_author s = viewer → audience d viewer s
| AudEveryone : sy_privacy s = PrivacyEveryone → audience d viewer s
| AudContacts : sy_privacy s = PrivacyContacts →
    is_Some (address_book (sd_graph d) !! (sy_author s, viewer)) → audience d viewer s
| AudCloseFriends : sy_privacy s = PrivacyCloseFriends → (sy_author s, viewer) ∈ close_friends d → audience d viewer s
| AudSelected : sy_privacy s = PrivacySelected → viewer ∈ sy_allow_list s → audience d viewer s.
Record visible (now : time) (d : storydb) (viewer : uuid) (s : story_row) : Prop := {
  vs_live : sy_deleted_at s = None;
  vs_unexpired : now < sy_expires_at s;
  vs_not_denied : viewer ∉ sy_deny_list s;
  vs_audience : audience d viewer s;
}.

Lemma match_none {A} (o : option A) : (if o is None then true else false) = true ↔ o = None.
Proof. by destruct o. Qed.
Lemma audience_spec d viewer s :
  bool_decide (sy_author s = viewer)
  || bool_decide (sy_privacy s = PrivacyEveryone)
  || (bool_decide (sy_privacy s = PrivacyContacts) && has_contact (sy_author s) viewer (sd_graph d))
  || (bool_decide (sy_privacy s = PrivacyCloseFriends) && bool_decide ((sy_author s, viewer) ∈ close_friends d))
  || (bool_decide (sy_privacy s = PrivacySelected) && bool_decide (viewer ∈ sy_allow_list s)) = true ↔
  audience d viewer s.
Proof.
  unfold has_contact. rewrite !orb_true_iff, !andb_true_iff, !bool_decide_eq_true. split.
  - intros [[[[?|?]|[? ?]]|[? ?]]|[? ?]]; [by constructor 1|by constructor 2|by constructor 3|by constructor 4|by constructor 5].
  - intros [?|?|? ?|? ?|? ?]; tauto.
Qed.
Lemma feed_where_spec now viewer d s : feed_where now viewer d s = true ↔ visible now d viewer s.
Proof.
  unfold feed_where. rewrite !andb_true_iff, negb_true_iff, bool_decide_eq_false, audience_spec, match_none, Z.ltb_lt.
  split; [intros [[[] ] ]|intros []]; firstorder.
Qed.
Lemma can_view_where_spec viewer d s :
  can_view_where viewer d s = true ↔ audience d viewer s ∧ viewer ∉ sy_deny_list s.
Proof.
  unfold can_view_where. by rewrite andb_true_iff, negb_true_iff, bool_decide_eq_false, audience_spec.
Qed.
Lemma CanView_spec now id viewer d :
  CanView now id viewer d = Ok true ↔ ∃ s, stories d !! id = Some s ∧ visible now d viewer s.
Proof.
  unfold CanView. destruct (stories d !! id) as [s|] eqn:Hs; [|naive_solver].
  destruct (sy_deleted_at s) eqn:Hdel; simpl.
  { split; [done|]. intros (s' & [= <-] & []). congruence. }
  destruct (now <? sy_expires_at s) eqn:Hexp.
  - split.
    + intros [= [Ha Hd]%can_view_where_spec]. exists s. split; [done|]. split; [done|lia|done|done].
    + intros (s' & [= <-] & []). f_equal. by apply can_view_where_spec.
  - split; [done|]. intros (s' & [= <-] & []). lia.
Qed.

(** ** Counting *)

Definition views_of (id : uuid) (d : storydb) : Z := count_where (λ k _, bool_decide (k.1 = id)) (story_views d).
Record views_exact (d : storydb) : Prop := {
  vx_count : ∀ id s, stories d !! id = Some s → sy_view_count s = views_of id d;
  vx_known : ∀ id u, is_Some (story_views d !! (id, u)) → is_Some (stories d !! id);
}.

Lemma views_of_upsert id u v id' d : story_views d !! (id, u) = None →
  views_of id' (with_story_views (<[(id, u) := v]> (story_views d)) d) =
    views_of id' d + (if decide (id = id') then 1 else 0).
Proof.
  intros Hnew. unfold views_of. simpl. rewrite count_where_insert_new by done. simpl.
  destruct (decide (id = id')); [rewrite bool_decide_true by done|rewrite bool_decide_false by done]; lia.
Qed.
Lemma views_of_again id u v id' d : is_Some (story_views d !! (id, u)) →
  views_of id' (with_story_views (<[(id, u) := v]> (story_views d)) d) = views_of id' d.
Proof.
  intros [v0 Hv0]. unfold views_of. simpl. rewrite count_where_insert. unfold hits. rewrite Hv0. simpl.
  destruct (bool_decide (id = id')); lia.
Qed.
(** Rewriting stories without touching their counts. *)
Lemma views_exact_rewrite (f : gmap uuid story_row) d :
  (∀ id s, f !! id = Some s → ∃ s0, stories d !! id = Some s0 ∧ sy_view_count s0 = sy_view_count s) →
  (∀ id, is_Some (stories d !! id) → is_Some (f !! id)) →
  views_exact d → views_exact (with_stories f d).
Proof.
  intros Hf Hdom [Hc Hk]. split; simpl.
  - intros id s Hs. destruct (Hf id s Hs) as (s0 & Hs0 & <-). by rewrite (Hc id s0 Hs0).
  - intros id u Hu. by apply Hdom, (Hk id u).
Qed.
Lemma views_exact_friends f d : views_exact d → views_exact (with_close_friends f d).
Proof. by intros [Hc Hk]. Qed.

Lemma RecordStoryView_again now id u reaction v d : story_views d !! (id, u) = Some v →
  RecordStoryView now id u reaction d =
    (Ok (), with_story_views (<[(id, u) := MkStoryView (match reaction with Some r => Some r | None => vw_reaction v end)
      (vw_viewed_at v)]> (story_views d)) d).
Proof. intros Hv. unfold RecordStoryView, in_tx, upsert_view. rewrite bind_run, Hv. done. Qed.
Lemma RecordStoryView_first now id u reaction d : story_views d !! (id, u) = None → is_Some (stories d !! id) →
  has_account u (sd_graph d) = true →
  RecordStoryView now id u reaction d =
    (Ok (), count_view id (with_story_views (<[(id, u) := MkStoryView reaction now]> (story_views d)) d)).
Proof.
  intros Hv Hs Hu. unfold RecordStoryView, in_tx, upsert_view. rewrite bind_run, Hv, Hu, bool_decide_true by done. done.
Qed.
Lemma RecordStoryView_inv now id u reaction d x d' : RecordStoryView now id u reaction d = (Ok x, d') →
  (∃ v, story_views d !! (id, u) = Some v) ∨
  (story_views d !! (id, u) = None ∧ is_Some (stories d !! id) ∧ has_account u (sd_graph d) = true).
Proof.
  intros Hrun. destruct (story_views d !! (id, u)) as [v|] eqn:Hv; [left; by exists v|right]. unfold RecordStoryView in Hrun.
  prog_inv. unfold upsert_view in Hrun0. rewrite Hv in Hrun0.
  destruct (bool_decide_reflect (is_Some (stories d !! id))); [|done].
  by destruct (has_account u (sd_graph d)).
Qed.
Lemma RecordStoryView_counts now id u reaction d x d' : views_exact d → RecordStoryView now id u reaction d = (Ok x, d') →
  views_exact d'.
Proof.
  intros [Hc Hk] Hrun. destruct (RecordStoryView_inv _ _ _ _ _ _ _ Hrun) as [[v Hv]|(Hv & Hs & Hu)].
  - rewrite (RecordStoryView_again _ _ _ _ v) in Hrun by done. injection Hrun as _ <-. split.
    + intros id' s Hs. rewrite views_of_again by by exists v. by apply Hc.
    + intros id' u' [v' Hv']. simpl in Hv'. apply (Hk id' u').
      destruct (decide ((id, u) = (id', u'))) as [[= <- <-]|Hne]; [by exists v|]. rewrite lookup_insert_ne in Hv' by done. by exists v'.
  - rewrite RecordStoryView_first in Hrun by done. injection Hrun as _ <-. split.
    + intros id' s Hs'. simpl in Hs'. apply lookup_update_where_Some in Hs' as (s0 & Hs0 & ->). simpl in Hs0.
      unfold views_of. simpl.
      pose proof (views_of_upsert id u (MkStoryView reaction now) id' d Hv) as Hviews. unfold views_of in Hviews. simpl in Hviews.
      rewrite Hviews.
      destruct (bool_decide_reflect (id' = id)) as [->|Hne]; simpl.
      * rewrite decide_True by done. rewrite (Hc id s0 Hs0). done.
      * rewrite decide_False by done. rewrite (Hc id' s0 Hs0). unfold views_of. lia.
    + intros id' u' [v' Hv']. simpl in *. rewrite lookup_update_where.
      destruct (decide ((id, u) = (id', u'))) as [[= <- <-]|Hne].
      * destruct Hs as [s Hs]. rewrite Hs. simpl. eauto.
      * rewrite lookup_insert_ne in Hv' by done. destruct (Hk id' u') as [s' Hs']; [by eauto|]. rewrite Hs'. simpl. eauto.
Qed.

(** ** The sessions *)

Inductive story_op :=
| OpStory (now : time) (id : uuid) (i : StoryInput)
| OpViewStory (now : time) (id viewer : uuid) (reaction : option string)
| OpDeleteStory (now : time) (id author : uuid)
| OpCloseFriends (owner : uuid) (friends : list uuid)
| OpExpire (now : time)
| OpElsewhere (graph : socialdb) (chats : db) (media : gset uuid).
Definition run_story_op (op : story_op) (d : storydb) : storydb :=
  match op with
  | OpStory now id i => (Stories_Create now id i d).2
  | OpViewStory now id viewer reaction => (Stories_View now id viewer reaction d).2
  | OpDeleteStory now id author => (Stories_Delete now id author d).2
  | OpCloseFriends owner friends => (Stories_SetCloseFriends owner friends d).2
  | OpExpire now => expireStories now d
  | OpElsewhere graph chats media => MkStoryDb graph chats media (stories d) (story_views d) (close_friends d)
  end.
Definition run_story_ops (ops : list story_op) (d : storydb) : storydb := foldl (λ d op, run_story_op op d) d ops.

Lemma authorize_channel_same c u d : (authorize_channel c u d).2 = d.
Proof.
  unfold authorize_channel. rewrite bind_run. unfold gets at 1. cbn beta iota. rewrite bind_run. unfold or_fail.
  destruct (chat_context _ c u) as [cx|]; [|done]. rewrite bind_run. unfold fail_if at 1.
  destruct (negb (bool_decide _)); [done|]. cbn beta iota. rewrite bind_run. unfold fail_if at 1.
  destruct (negb (ctx_is_member cx)); [done|]. cbn beta iota. unfold fail_if. by destruct (negb _).
Qed.
Lemma views_exact_new id s d : stories d !! id = None → sy_view_count s = 0 → views_exact d →
  views_exact (with_stories (<[id := s]> (stories d)) d).
Proof.
  intros Hnew Hzero [Hc Hk]. split; simpl.
  - intros id' s' Hs'. destruct (decide (id = id')) as [<-|Hne].
    + rewrite lookup_insert_eq in Hs'. injection Hs' as <-. rewrite Hzero. symmetry. apply count_where_0.
      intros [id' u] v Hv. apply bool_decide_eq_false. intros Heq. simpl in Heq. subst id'.
      destruct (Hk id u) as [s' Hs']; [by exists v|]. congruence.
    + rewrite lookup_insert_ne in Hs' by done. by apply Hc.
  - intros id' u Hu. destruct (Hk id' u Hu) as [s' Hs']. destruct (decide (id = id')) as [<-|Hne].
    + congruence.
    + rewrite lookup_insert_ne by done. by exists s'.
Qed.
Lemma CreateStory_counts now id i d : views_exact d → views_exact (CreateStory now id i d).2.
Proof.
  intros Hd. unfold CreateStory. destruct (negb _); [done|]. destruct (negb _); [done|].
  destruct (bool_decide_reflect (is_Some (stories d !! id))) as [|Hnew]; [done|].
  destruct (negb _); [done|]. destruct (negb _); [done|]. destruct (negb _); [done|].
  apply views_exact_new; [|done..]. destruct (stories d !! id) eqn:Hs; [|done]. by destruct Hnew.
Qed.
Lemma Stories_Create_counts now id i d : views_exact d → views_exact (Stories_Create now id i d).2.
Proof.
  intros Hd. unfold Stories_Create. rewrite bind_run. destruct (check_story i) as [j|]; [|done]. rewrite bind_run.
  assert (∀ m : shandler (), (m d).2 = d →
    views_exact (match m d with (Ok _, d') => map_err story_internal (CreateStory now id j) d' | (Err e, d') => (Err e, d') end).2) as Hrest.
  { intros m Hm. destruct (m d) as [[[]|e] d']; simpl in Hm; subst d'; [|done]. unfold map_err, catch.
    pose proof (CreateStory_counts now id j d Hd). by destruct (CreateStory now id j d) as [[]]. }
  apply Hrest. destruct (si_ChannelChatID j); [apply authorize_channel_same|done].
Qed.
Lemma RecordStoryView_run now id u reaction d : views_exact d → views_exact (RecordStoryView now id u reaction d).2.
Proof.
  intros Hd. destruct (RecordStoryView now id u reaction d) as [[x|e] d'] eqn:Hrun.
  - by eapply RecordStoryView_counts.
  - unfold RecordStoryView in Hrun. apply in_tx_Err in Hrun. by subst d'.
Qed.
Lemma Stories_View_counts now id u reaction d : views_exact d → views_exact (Stories_View now id u reaction d).2.
Proof.
  intros Hd. unfold Stories_View. rewrite bind_run.
  destruct (match CanView now id u d with Ok allowed => Ok allowed | Err StoryNotFound => Err story_gone | Err _ => Err Internal end)
    as [allowed|]; [|done]. rewrite bind_run. unfold fail_if at 1. destruct (negb allowed); [done|]. cbn beta iota.
  rewrite bind_run. unfold fail_if at 1. destruct (from_option _ _ _); [done|]. cbn beta iota. unfold map_err, catch.
  pose proof (RecordStoryView_run now id u reaction d Hd). by destruct (RecordStoryView now id u reaction d) as [[]].
Qed.
Lemma Stories_Delete_counts now id u d : views_exact d → views_exact (Stories_Delete now id u d).2.
Proof.
  intros Hd. unfold Stories_Delete, map_err, catch, DeleteStory. destruct (stories d !! id) as [s|] eqn:Hs; [|done].
  destruct (own_live_story u s); [|done]. simpl. apply views_exact_rewrite; [| |done].
  - intros id' s' Hs'. destruct (decide (id = id')) as [<-|Hne].
    + rewrite lookup_insert_eq in Hs'. injection Hs' as <-. by exists s.
    + rewrite lookup_insert_ne in Hs' by done. by exists s'.
  - intros id' [s' Hs']. destruct (decide (id = id')) as [<-|Hne]; [by rewrite lookup_insert_eq|].
    rewrite lookup_insert_ne by done. by exists s'.
Qed.
Lemma expireStories_counts now d : views_exact d → views_exact (expireStories now d).
Proof.
  apply views_exact_rewrite.
  - intros id s Hs. apply lookup_update_where_Some in Hs as (s0 & Hs0 & ->). exists s0. by destruct (_ && _).
  - intros id [s Hs]. rewrite lookup_update_where, Hs. simpl. eauto.
Qed.
Lemma SetCloseFriends_counts owner friends d : views_exact d → views_exact (Stories_SetCloseFriends owner friends d).2.
Proof.
  intros Hd. unfold Stories_SetCloseFriends. rewrite bind_run. unfold fail_if. destruct (1000 <? _); [done|].
  unfold map_err, catch, SetCloseFriends, in_tx. rewrite bind_run. unfold modify. cbn beta iota.
  destruct (decide (friends = [])); [by apply views_exact_friends|]. unfold insert_friends.
  destruct (negb _); [done|]. simpl. by do 2 apply views_exact_friends.
Qed.
Lemma run_story_op_counts op d : views_exact d → views_exact (run_story_op op d).
Proof.
  intros Hd. destruct op; simpl.
  - by apply Stories_Create_counts.
  - by apply Stories_View_counts.
  - by apply Stories_Delete_counts.
  - by apply SetCloseFriends_counts.
  - by apply expireStories_counts.
  - by destruct Hd.
Qed.

Definition short_reaction (reaction : option string) : Prop := from_option (λ r, 8 <? rune_count r) false reaction = false.

Lemma RecordStoryView_Ok now id u reaction d : is_Some (stories d !! id) → has_account u (sd_graph d) = true →
  ∃ d', RecordStoryView now id u reaction d = (Ok (), d').
Proof.
  intros Hs Hu. destruct (story_views d !! (id, u)) as [v|] eqn:Hv.
  - rewrite (RecordStoryView_again _ _ _ _ v) by done. eauto.
  - rewrite RecordStoryView_first by done. eauto.
Qed.
Lemma Stories_View_allowed now id u reaction d : CanView now id u d = Ok true → short_reaction reaction →
  has_account u (sd_graph d) = true →
  ∃ d', Stories_View now id u reaction d = (Ok (), d') ∧ RecordStoryView now id u reaction d = (Ok (), d').
Proof.
  intros Hcan Hshort Hu. destruct (proj1 (CanView_spec _ _ _ _) Hcan) as (s & Hs & _).
  destruct (RecordStoryView_Ok now id u reaction d) as [d' Hrec]; [by exists s|done|]. exists d'. split; [|done].
  unfold Stories_View. rewrite bind_run, Hcan. cbn beta iota. rewrite bind_run. unfold fail_if at 1. cbn beta iota zeta delta [negb].
  rewrite bind_run. unfold fail_if at 1. rewrite Hshort. cbn beta iota. unfold map_err, catch. by rewrite Hrec.
Qed.
(** A story that is gone and one that is not for the caller answer alike. *)
Lemma Stories_View_refused now id u reaction d : CanView now id u d ≠ Ok true →
  Stories_View now id u reaction d = (Err story_gone, d).
Proof.
  unfold Stories_View. rewrite bind_run. unfold CanView.
  destruct (stories d !! id) as [s|]; [|done]. destruct (_ && _); [|done]. cbn beta iota.
  destruct (can_view_where u d s); [done|]. done.
Qed.
Lemma elem_of_feed now viewer limit d st :
  st ∈ Feed now viewer limit d → ∃ s, stories d !! so_ID st = Some s ∧ author_live s d = true ∧ visible now d viewer s.
Proof.
  unfold Feed. intros ([id s] & -> & Hin)%list_elem_of_fmap. apply elem_of_take in Hin as (i & Hin & _).
  apply list_elem_of_lookup_2 in Hin. rewrite elem_of_order_by_keys in Hin.
  apply elem_of_rows_where in Hin as [Hs [Ha Hw]%andb_true_iff]. exists s. by rewrite feed_where_spec in Hw.
Qed.
Lemma elem_of_whole_feed now viewer limit d id s :
  count_where (λ _ s, author_live s d && feed_where now viewer d s) (stories d) ≤ limit →
  stories d !! id = Some s → author_live s d = true → visible now d viewer s →
  id ∈ so_ID <$> Feed now viewer limit d.
Proof.
  intros Hlen Hs Ha Hv. unfold Feed. apply list_elem_of_fmap.
  exists (story_of (display_name (sy_author s) (sd_graph d)) (story_views d !! (id, viewer)) id s). split; [done|].
  apply list_elem_of_fmap. exists (id, s). split; [done|]. rewrite take_ge.
  - rewrite elem_of_order_by_keys. apply elem_of_rows_where. by rewrite Ha, (proj2 (feed_where_spec _ _ _ _)).
  - rewrite order_by_keys_Permutation. unfold count_where in Hlen. lia.
Qed.

(** ** Properties *)

(** C26: Stories reach the audience their author chose and nobody else.  A story can be
    opened, and the view recorded, exactly when it is not deleted, its day is not over, the
    viewer is not on its deny list and is the author, anybody (for 'everyone'), in the
    author's address book ('contacts'), on the author's close-friends list or on the story's
    allow list; in every other case the answer is the one a story that does not exist gives,
    and nothing is written.  Everything the feed lists can be opened, and the feed lists
    every such story of a live account when there are no more than fit. *)
Theorem stories_reach_their_audience now viewer limit reaction d :
  has_account viewer (sd_graph d) = true → short_reaction reaction →
  (∀ id, (∃ s, stories d !! id = Some s ∧ visible now d viewer s) ∧ (∃ d', Stories_View now id viewer reaction d = (Ok (), d')) ∨
     ¬ (∃ s, stories d !! id = Some s ∧ visible now d viewer s) ∧ Stories_View now id viewer reaction d = (Err story_gone, d)) ∧
  (∀ st, st ∈ Feed now viewer limit d → ∃ d', Stories_View now (so_ID st) viewer reaction d = (Ok (), d')) ∧
  (count_where (λ _ s, author_live s d && feed_where now viewer d s) (stories d) ≤ limit →
     ∀ id s, stories d !! id = Some s → author_live s d = true → visible now d viewer s →
       id ∈ so_ID <$> Feed now viewer limit d).
Proof.
  intros Hu Hshort. split; [|split].
  - intros id. destruct (CanView now id viewer d) as [[]|] eqn:Hcan.
    + left. split; [by apply CanView_spec|].
      destruct (Stories_View_allowed now id viewer reaction d) as (d' & ? & _); [done..|]. by exists d'.
    + right. rewrite <-CanView_spec. split; [congruence|]. apply Stories_View_refused. congruence.
    + right. rewrite <-CanView_spec. split; [congruence|]. apply Stories_View_refused. congruence.
  - intros st (s & Hs & _ & Hv)%elem_of_feed.
    destruct (Stories_View_allowed now (so_ID st) viewer reaction d) as (d' & ? & _); [|done..|by exists d'].
    apply CanView_spec. by exists s.
  - intros Hlen id s. by apply elem_of_whole_feed.
Qed.

(** A story's view counter is the number of people who have opened it: whatever is
    published, opened, deleted, expired and relisted, and whatever the rest of the program
    does meanwhile, [view_count] stays the number of rows of [story_views], and opening a
    story adds one for somebody new and nothing for somebody who has seen it, whose
    reaction is kept unless they send another. *)
Lemma each_viewer_counts_once ops d now id viewer reaction d' : views_exact d →
  let d1 := run_story_ops ops d in
  views_exact d1 ∧
  (Stories_View now id viewer reaction d1 = (Ok (), d') →
   ∃ s s', stories d1 !! id = Some s ∧ stories d' !! id = Some s' ∧ views_exact d' ∧
     match story_views d1 !! (id, viewer) with
     | None => sy_view_count s' = sy_view_count s + 1 ∧ story_views d' !! (id, viewer) = Some (MkStoryView reaction now)
     | Some v => sy_view_count s' = sy_view_count s ∧
         story_views d' !! (id, viewer) = Some (MkStoryView (match reaction with Some r => Some r | None => vw_reaction v end) (vw_viewed_at v))
     end).
Proof.
  intros Hd d1. assert (views_exact d1) as Hd1.
  { subst d1. revert d Hd. induction ops as [|op ops IH]; intros d Hd; [done|]. by apply IH, run_story_op_counts. }
  split; [done|]. generalize dependent d1. clear d Hd. intros d Hd Hrun.
  assert (CanView now id viewer d = Ok true) as Hcan.
  { destruct (CanView now id viewer d) as [[]|] eqn:Hcan; [done|..]; rewrite Stories_View_refused in Hrun by congruence; done. }
  destruct (proj1 (CanView_spec _ _ _ _) Hcan) as (s & Hs & _). exists s.
  pose proof (Stories_View_counts now id viewer reaction d Hd) as Hd'. rewrite Hrun in Hd'. simpl in Hd'.
  assert (RecordStoryView now id viewer reaction d = (Ok (), d')) as Hrec.
  { unfold Stories_View in Hrun. rewrite bind_run, Hcan in Hrun. cbn beta iota in Hrun. prog_inv.
    injection Hrun0 as _ <-. unfold map_err, catch, fail in Hrun. destruct (RecordStoryView now id viewer reaction d) as [[[]|] d2]; [by injection Hrun as <-|discriminate Hrun]. }
  destruct (RecordStoryView_inv _ _ _ _ _ _ _ Hrec) as [[v Hv]|(Hv & Hs' & Hu)].
  - rewrite (RecordStoryView_again _ _ _ _ v) in Hrec by done. injection Hrec as <-. exists s. rewrite Hv. simpl.
    by rewrite lookup_insert_eq.
  - rewrite RecordStoryView_first in Hrec by done. injection Hrec as <-. rewrite Hv.
    exists (with_sy_view_count (sy_view_count s + 1) s). unfold count_view in *. simpl in *.
    rewrite lookup_update_where, Hs. simpl. rewrite bool_decide_true by done. by rewrite lookup_insert_eq.
Qed.

(** ** A close-friends story

    Account 1 keeps 2 as a close friend; story 10 is for close friends, 11 for everyone. *)
Definition story_account : account_row := MkAccount None "" [] "active" false false None None None.
Definition story_graph : socialdb :=
  MkSocialDb {[1%N := story_account; 2%N := story_account; 3%N := story_account]} ∅ ∅ ∅ ∅ ∅ ∅.
Definition story_start : storydb := MkStoryDb story_graph empty_db ∅ ∅ ∅ ∅.
Definition text_story (privacy : string) : StoryInput := MkStoryInput 1 None "text" None "salam" "" privacy [] [].
Definition story_day : list story_op :=
  [OpCloseFriends 1 [2%N; 2%N]; OpStory 5 10 (text_story PrivacyCloseFriends); OpStory 6 11 (text_story PrivacyEveryone);
   OpViewStory 7 10 2 (Some "!"%string); OpViewStory 8 10 2 None].
Definition told : storydb := run_story_ops story_day story_start.

Example feeds_of_the_sample :
  (so_ID <$> Feed 9 2 100 told, so_ID <$> Feed 9 3 100 told, so_ID <$> Feed 9 1 100 told, so_ID <$> Feed (7 + Lifetime) 2 100 told)
    = ([11%N; 10%N], [11%N], [11%N; 10%N], []).
Proof. vm_compute. reflexivity. Qed.

Lemma views_exact_start : views_exact story_start.
Proof. split; [intros id s Hs|intros id u [v Hv]]; simpl in *; by rewrite lookup_empty in *. Qed.

Lemma stories_reach_their_audience_witness :
  (∀ id, (∃ s, stories told !! id = Some s ∧ visible 9 told 2 s) ∧ (∃ d', Stories_View 9 id 2 None told = (Ok (), d')) ∨
     ¬ (∃ s, stories told !! id = Some s ∧ visible 9 told 2 s) ∧ Stories_View 9 id 2 None told = (Err story_gone, told)) ∧
  (∀ st, st ∈ Feed 9 2 100 told → ∃ d', Stories_View 9 (so_ID st) 2 None told = (Ok (), d')) ∧
  (count_where (λ _ s, author_live s told && feed_where 9 2 told s) (stories told) ≤ 100 →
     ∀ id s, stories told !! id = Some s → author_live s told = true → visible 9 told 2 s →
       id ∈ so_ID <$> Feed 9 2 100 told).
Proof. apply (stories_reach_their_audience 9 2 100 None told); vm_compute; reflexivity. Defined.

Lemma each_viewer_counts_once_witness :
  let d1 := run_story_ops story_day story_start in
  let d' := (Stories_View 9 11 3 None d1).2 in
  views_exact d1 ∧
  (Stories_View 9 11 3 None d1 = (Ok (), d') →
   ∃ s s', stories d1 !! 11%N = Some s ∧ stories d' !! 11%N = Some s' ∧ views_exact d' ∧
     match story_views d1 !! (11%N, 3%N) with
     | None => sy_view_count s' = sy_view_count s + 1 ∧ story_views d' !! (11%N, 3%N) = Some (MkStoryView None 9)
     | Some v => sy_view_count s' = sy_view_count s ∧
         story_views d' !! (11%N, 3%N) = Some (MkStoryView (vw_reaction v) (vw_viewed_at v))
     end).
Proof. intros d1 d'. apply (each_viewer_counts_once story_day story_start 9 11 3 None d'), views_exact_start. Defined.

(** The check made when a story is opened does not read the author's account: a live story
    of a deleted account is off every feed and still opens. *)
Lemma deleted_authors_stories_still_open now id u s reaction d :
  stories d !! id = Some s → visible now d u s → author_live s d = false → has_account u (sd_graph d) = true → short_reaction reaction →
  (∀ limit, id ∉ so_ID <$> Feed now u limit d) ∧ ∃ d', Stories_View now id u reaction d = (Ok (), d').
Proof.
  intros Hs Hv Ha Hu Hshort. split.
  - intros limit (st & -> & (s' & Hs' & Ha' & _)%elem_of_feed)%list_elem_of_fmap. congruence.
  - destruct (Stories_View_allowed now id u reaction d) as (d' & ? & _); [|done..|by exists d'].
    apply CanView_spec. by exists s.
Qed.
