(* ===== verification/Bots.v ===== *)
(** * The bot platform: accounts, tokens and the update queue ([internal/bots/bots.go], [service.go])

    A bot is an account with a row in [bots], a set of hashed tokens, a menu of commands, an
    optional webhook and a queue of updates it collects by polling.  [users] is in the social
    graph and in the chats' database, and a registration writes both views of it.  Identifiers
    and secrets are drawn by the caller. *)

From stdpp Require Import base tactics list sorting gmap strings.
From Stdlib Require Import ZArith Lia.
From S2P Require Import Prelude GoString Httpx Permissions Store ChatContext RateLimit Ports MessagingService Social Security NetGuard.

Set Default Goal Selector "!".
Open Scope Z_scope.

Definition MaxBotsPerOwner : Z := 20.
Definition MaxTokensPerBot : Z := 5.
Definition MaxCommands : Z := 100.
Definition tokenSecretBytes : nat := 32.
Definition UpdateBacklog : Z := 10000.

Definition UpdateMessage : string := "message".
Definition UpdateEditedMessage : string := "edited_message".
Definition UpdateCallbackQuery : string := "callback_query".
Definition UpdateInlineQuery : string := "inline_query".
Definition UpdateChosenInlineResult : string := "chosen_inline_result".
Definition UpdateChatMember : string := "chat_member".
Definition UpdateMyChatMember : string := "my_chat_member".
Definition update_types : list string :=
  [UpdateMessage; UpdateEditedMessage; UpdateCallbackQuery; UpdateInlineQuery; UpdateChosenInlineResult; UpdateChatMember;
   UpdateMyChatMember].

(** ** Tables *)

(** [bots] *)
Record bot_row := MkBotRow {
  bt_owner : uuid;
  bt_description : string;
  bt_about : string;
  bt_can_join_groups : bool;
  bt_privacy_mode : bool;
  bt_inline_enabled : bool;
  bt_inline_placeholder : string;
  bt_is_active : bool;
  bt_is_internal : bool;
  bt_created_at : time;
}.
(** [bot_tokens] *)
Record token_row := MkTokenRow {
  tk_bot : uuid;
  tk_hash : list N;
  tk_prefix : string;
  tk_label : string;
  tk_created_at : time;
  tk_last_used_at : option time;
  tk_revoked_at : option time;
}.
Definition with_tk_last_used_at v (t : token_row) :=
  MkTokenRow (tk_bot t) (tk_hash t) (tk_prefix t) (tk_label t) (tk_created_at t) v (tk_revoked_at t).
Definition with_tk_revoked_at v (t : token_row) :=
  MkTokenRow (tk_bot t) (tk_hash t) (tk_prefix t) (tk_label t) (tk_created_at t) (tk_last_used_at t) v.
(** [bot_commands], keyed by [(bot_id, command, COALESCE(locale, ''))] *)
Record command_row := MkCommandRow { cd_description : string; cd_position : Z; cd_locale : option string }.
(** [bot_webhooks] *)
Record webhook_row := MkWebhookRow {
  wh_url : string;
  wh_secret : string;
  wh_max_connections : Z;
  wh_allowed_updates : list string;
  wh_last_error : string;
  wh_last_error_at : option time;
  wh_failure_count : Z;
}.
(** A command as a user typed it ([observer.go]). *)
Record CommandCall := MkCommandCall { cc_Name : string; cc_Addressee : string; cc_Args : string }.
(** What an update carries: the Go maps that are marshalled. *)
Inductive update_payload :=
| UMessage (chat : uuid) (chat_type : string) (m : Message) (command : option CommandCall)
| UCallback (id from : uuid) (chat message : option uuid) (data : string)
| UInline (id from : uuid) (query offset : string)
| UChosen (result_id : string) (from : uuid) (query : string).
(** [bot_updates] *)
Record update_row := MkUpdateRow {
  up_bot : uuid;
  up_type : string;
  up_payload : update_payload;
  up_created_at : time;
  up_delivered_at : option time;
}.
Definition with_up_delivered_at v (u : update_row) :=
  MkUpdateRow (up_bot u) (up_type u) (up_payload u) (up_created_at u) v.
(** [bot_callback_queries] *)
Record callback_row := MkCallbackRow {
  cq_bot : uuid;
  cq_user : uuid;
  cq_chat : option uuid;
  cq_message : option uuid;
  cq_data : string;
  cq_created_at : time;
  cq_expires_at : time;
  cq_answered_at : option time;
  cq_answer_text : string;
  cq_show_alert : bool;
}.

(** [bot_dialog_states]: the flow, the step and what has been gathered *)
Record dialog_row := MkDialogRow { dl_flow : string; dl_step : string; dl_data : gmap string string; dl_expires_at : time }.

(** ** Keyboards and inline results ([keyboard.go], [inline.go]) *)
Record Button := MkButton {
  bn_Text : string;
  bn_CallbackData : string;
  bn_URL : string;
  bn_SwitchInlineQuery : option string;
}.
Abbreviation Keyboard := (list (list Button)).
Record InlineResult := MkInlineResult {
  ir_ID : string;
  ir_Type : string;
  ir_Title : string;
  ir_Description : string;
  ir_Content : string;
  ir_MediaID : option uuid;
  ir_ThumbnailMediaID : option uuid;
  ir_Keyboard : option Keyboard;
}.
(** [bot_inline_queries] and [bot_chosen_inline_results] *)
Record inline_row := MkInlineRow {
  iq_bot : uuid;
  iq_user : uuid;
  iq_query : string;
  iq_offset : string;
  iq_results : list InlineResult;
  iq_answered_at : option time;
  iq_created_at : time;
  iq_expires_at : time;
}.
Record chosen_row := MkChosenRow { cs_bot : uuid; cs_user : uuid; cs_query_id : uuid; cs_result_id : string; cs_query : string }.

Record botdb (G L : Type) := MkBotDb {
  bd_world : world G L;
  bd_graph : socialdb;
  bots : gmap uuid bot_row;
  bot_tokens : gmap uuid token_row;
  bot_commands : gmap (uuid * string * string) command_row;
  bot_webhooks : gmap uuid webhook_row;
  bot_updates : gmap Z update_row;
  bot_updates_seq : Z;
  bot_callback_queries : gmap uuid callback_row;
  bot_dialog_states : gmap uuid dialog_row;
  bot_inline_queries : gmap uuid inline_row;
  bot_chosen_inline_results : list chosen_row;
}.
Arguments MkBotDb {G L}.
Arguments bd_world {G L}.
Arguments bd_graph {G L}.
Arguments bots {G L}.
Arguments bot_tokens {G L}.
Arguments bot_commands {G L}.
Arguments bot_webhooks {G L}.
Arguments bot_updates {G L}.
Arguments bot_updates_seq {G L}.
Arguments bot_callback_queries {G L}.
Arguments bot_dialog_states {G L}.
Arguments bot_inline_queries {G L}.
Arguments bot_chosen_inline_results {G L}.

Inductive boterr :=
| BotNotFound | ErrInvalidToken | ErrTooManyBots | BotUsernameTaken | ErrTooManyTokens | ErrInvalidCommand | ErrCallbackNotFound
| ErrAlreadyAnswered | ErrInlineNotEnabled | ErrQueryNotFound | BotDatabase.

Section bots.
Context {G L : Type} `{Digest}.
Implicit Types (d : botdb G L).

Definition with_bd_world v (d : botdb G L) : botdb G L := MkBotDb v (bd_graph d) (bots d) (bot_tokens d) (bot_commands d) (bot_webhooks d) (bot_updates d) (bot_updates_seq d) (bot_callback_queries d) (bot_dialog_states d) (bot_inline_queries d) (bot_chosen_inline_results d).
Definition with_bd_graph v (d : botdb G L) : botdb G L := MkBotDb (bd_world d) v (bots d) (bot_tokens d) (bot_commands d) (bot_webhooks d) (bot_updates d) (bot_updates_seq d) (bot_callback_queries d) (bot_dialog_states d) (bot_inline_queries d) (bot_chosen_inline_results d).
Definition with_bots v (d : botdb G L) : botdb G L := MkBotDb (bd_world d) (bd_graph d) v (bot_tokens d) (bot_commands d) (bot_webhooks d) (bot_updates d) (bot_updates_seq d) (bot_callback_queries d) (bot_dialog_states d) (bot_inline_queries d) (bot_chosen_inline_results d).
Definition with_bot_tokens v (d : botdb G L) : botdb G L := MkBotDb (bd_world d) (bd_graph d) (bots d) v (bot_commands d) (bot_webhooks d) (bot_updates d) (bot_updates_seq d) (bot_callback_queries d) (bot_dialog_states d) (bot_inline_queries d) (bot_chosen_inline_results d).
Definition with_bot_commands v (d : botdb G L) : botdb G L := MkBotDb (bd_world d) (bd_graph d) (bots d) (bot_tokens d) v (bot_webhooks d) (bot_updates d) (bot_updates_seq d) (bot_callback_queries d) (bot_dialog_states d) (bot_inline_queries d) (bot_chosen_inline_results d).
Definition with_bot_webhooks v (d : botdb G L) : botdb G L := MkBotDb (bd_world d) (bd_graph d) (bots d) (bot_tokens d) (bot_commands d) v (bot_updates d) (bot_updates_seq d) (bot_callback_queries d) (bot_dialog_states d) (bot_inline_queries d) (bot_chosen_inline_results d).
Definition with_bot_updates v (d : botdb G L) : botdb G L := MkBotDb (bd_world d) (bd_graph d) (bots d) (bot_tokens d) (bot_commands d) (bot_webhooks d) v (bot_updates_seq d) (bot_callback_queries d) (bot_dialog_states d) (bot_inline_queries d) (bot_chosen_inline_results d).
Definition with_bot_updates_seq v (d : botdb G L) : botdb G L := MkBotDb (bd_world d) (bd_graph d) (bots d) (bot_tokens d) (bot_commands d) (bot_webhooks d) (bot_updates d) v (bot_callback_queries d) (bot_dialog_states d) (bot_inline_queries d) (bot_chosen_inline_results d).
Definition with_bot_callback_queries v (d : botdb G L) : botdb G L := MkBotDb (bd_world d) (bd_graph d) (bots d) (bot_tokens d) (bot_commands d) (bot_webhooks d) (bot_updates d) (bot_updates_seq d) v (bot_dialog_states d) (bot_inline_queries d) (bot_chosen_inline_results d).
Definition with_bot_dialog_states v (d : botdb G L) : botdb G L := MkBotDb (bd_world d) (bd_graph d) (bots d) (bot_tokens d) (bot_commands d) (bot_webhooks d) (bot_updates d) (bot_updates_seq d) (bot_callback_queries d) v (bot_inline_queries d) (bot_chosen_inline_results d).
Definition with_bot_inline_queries v (d : botdb G L) : botdb G L := MkBotDb (bd_world d) (bd_graph d) (bots d) (bot_tokens d) (bot_commands d) (bot_webhooks d) (bot_updates d) (bot_updates_seq d) (bot_callback_queries d) (bot_dialog_states d) v (bot_chosen_inline_results d).
Definition with_bot_chosen_inline_results v (d : botdb G L) : botdb G L := MkBotDb (bd_world d) (bd_graph d) (bots d) (bot_tokens d) (bot_commands d) (bot_webhooks d) (bot_updates d) (bot_updates_seq d) (bot_callback_queries d) (bot_dialog_states d) (bot_inline_queries d) v.
Definition bd_db d : db := w_db (bd_world d).
Definition with_bd_db v d : botdb G L := with_bd_world (set_db v (bd_world d)) d.

(** ** Repository: registration *)

Record Bot := MkBot {
  bo_UserID : uuid;
  bo_OwnerID : uuid;
  bo_Username : option string;
  bo_DisplayName : string;
  bo_Description : string;
  bo_About : string;
  bo_CanJoinGroups : bool;
  bo_PrivacyMode : bool;
  bo_InlineEnabled : bool;
  bo_InlinePlaceholder : string;
  bo_IsActive : bool;
  bo_CreatedAt : time;
}.
Record Token := MkToken {
  to_ID : uuid;
  to_Prefix : string;
  to_Label : string;
  to_CreatedAt : time;
  to_LastUsedAt : option time;
  to_RevokedAt : option time;
}.
Record IssuedToken := MkIssuedToken { it_Token : Token; it_Secret : string }.
(** A drawn identifier and the secret that goes with it. *)
Record token_draw := MkTokenDraw { td_id : uuid; td_secret : string }.

(** [username_available($1, NULL)]: nobody is excepted. *)
Definition name_free (now : time) (name : string) (g : socialdb) : bool :=
  negb (0 <? count_where (λ _ a, username_is name a && live_account a) (accounts g))
  && negb (match reserved_usernames g !! to_lower name with Some r => now <? rv_until r | None => false end).
Definition bot_of (id : uuid) (b : bot_row) (a : account_row) d : Bot :=
  MkBot id (bt_owner b) (ac_username a) (display_name id (bd_graph d)) (bt_description b) (bt_about b) (bt_can_join_groups b)
    (bt_privacy_mode b) (bt_inline_enabled b) (bt_inline_placeholder b) (bt_is_active b) (bt_created_at b).
Definition BotByID (botID : uuid) d : option Bot :=
  b ← bots d !! botID; a ← accounts (bd_graph d) !! botID;
  if live_account a then Some (bot_of botID b a d) else None.
Definition owned_rows (ownerID : uuid) d : list (uuid * bot_row) := rows_where (λ _ b, bool_decide (bt_owner b = ownerID)) (bots d).
Definition ListForOwner (ownerID : uuid) d : list Bot :=
  omap (λ kb : uuid * bot_row, BotByID kb.1 d) (order_by (λ kb, bt_created_at kb.2) (owned_rows ownerID d)).

(** [INSERT INTO bot_tokens]; the trigger refuses an internal bot. *)
Definition issueToken (now : time) (draw : token_draw) (botID : uuid) (username label : string) : prog (botdb G L) boterr IssuedToken := λ d,
  let plaintext := username +:+ ":" +:+ td_secret draw in
  let row := MkTokenRow botID (HashToken plaintext) username label now None None in
  if from_option bt_is_internal false (bots d !! botID) then (Err BotDatabase, d)
  else if negb (bool_decide (is_Some (bots d !! botID))) then (Err BotDatabase, d)
  else if bool_decide (is_Some (bot_tokens d !! td_id draw))
          || (0 <? count_where (λ _ t, bool_decide (tk_hash t = HashToken plaintext)) (bot_tokens d))
  then (Err BotDatabase, d)
  else (Ok (MkIssuedToken (MkToken (td_id draw) username label now None None) plaintext),
        with_bot_tokens (<[td_id draw := row]> (bot_tokens d)) d).

Definition synthetic_phone (username : string) : string := "bot:" +:+ username.
Definition phone_taken (phone : string) (g : socialdb) : bool :=
  0 <? count_where (λ _ a, bool_decide (ac_phone_number a = phone)) (accounts g).
(** The account behind a bot, in both views of [users], with its profile and counter. *)
Definition insert_bot_account (id : uuid) (username displayName : string) : prog (botdb G L) boterr () := λ d,
  let phone := synthetic_phone username in
  let g := bd_graph d in
  if bool_decide (is_Some (accounts g !! id)) || phone_taken phone g || name_held username id g then (Err BotUsernameTaken, d)
  else
    (Ok (),
     with_bd_graph (with_profiles (<[id := MkProfileRow displayName "" None None "fa"]> (profiles g))
       (with_accounts (<[id := MkAccount (Some username) phone (HashToken phone) "active" true false None None None]> (accounts g)) g))
       (with_bd_db (with_user_event_counters (<[id := 0]> (user_event_counters (bd_db d)))
         (with_users (<[id := MkUser (Some username) (Some displayName) None true None]> (users (bd_db d))) (bd_db d))) d)).
Definition insert_bot (now : time) (id ownerID : uuid) (description : string) : prog (botdb G L) boterr () := λ d,
  if bool_decide (is_Some (bots d !! id)) || negb (has_account ownerID (bd_graph d)) then (Err BotDatabase, d)
  else (Ok (), with_bots (<[id := MkBotRow ownerID description "" true true false "" true false now]> (bots d)) d).
Definition CreateBot (now : time) (id : uuid) (draw : token_draw) (ownerID : uuid) (username displayName description : string)
    : prog (botdb G L) boterr (Bot * IssuedToken) :=
  in_tx (
    count ← gets (λ d, count_where (λ _ b, bool_decide (bt_owner b = ownerID)) (bots d));
    fail_if (MaxBotsPerOwner <=? count) ErrTooManyBots;;
    available ← gets (λ d, name_free now username (bd_graph d));
    fail_if (negb available) BotUsernameTaken;;
    insert_bot_account id username displayName;;
    insert_bot now id ownerID description;;
    issued ← issueToken now draw id username "default";
    mret (MkBot id ownerID (Some username) displayName description "" true true false "" true now, issued)).

(** ** Repository: tokens *)

Definition live_token (t : token_row) : bool := if tk_revoked_at t is None then true else false.
(** The row with a hash, of which there is one. *)
Definition token_with_hash (hash : list N) d : option (uuid * token_row) :=
  head (rows_where (λ _ t, bool_decide (tk_hash t = hash) && live_token t) (bot_tokens d)).
(** The use is stamped before the bot is read. *)
Definition Authenticate (now : time) (token : string) : prog (botdb G L) boterr Bot :=
  t ← gets (token_with_hash (HashToken token)); t ← or_fail t ErrInvalidToken;
  modify (λ d, with_bot_tokens (<[t.1 := with_tk_last_used_at (Some now) t.2]> (bot_tokens d)) d);;
  bot ← gets (BotByID (tk_bot t.2)); bot ← or_fail bot BotNotFound;
  fail_if (negb (bo_IsActive bot)) ErrInvalidToken;;
  mret bot.
Definition live_tokens (botID : uuid) d : Z := count_where (λ _ t, bool_decide (tk_bot t = botID) && live_token t) (bot_tokens d).
Definition IssueToken (now : time) (draw : token_draw) (botID : uuid) (label : string) : prog (botdb G L) boterr IssuedToken :=
  in_tx (
    a ← gets (λ d, accounts (bd_graph d) !! botID); a ← or_fail a BotNotFound;
    live ← gets (live_tokens botID);
    fail_if (MaxTokensPerBot <=? live) ErrTooManyTokens;;
    issueToken now draw botID (default ""%string (ac_username a)) label).
Definition ListTokens (botID : uuid) d : list Token :=
  (λ t : uuid * token_row, MkToken t.1 (tk_prefix t.2) (tk_label t.2) (tk_created_at t.2) (tk_last_used_at t.2) (tk_revoked_at t.2)) <$>
    order_by (λ t, tk_created_at t.2) (rows_where (λ _ t, bool_decide (tk_bot t = botID)) (bot_tokens d)).
Definition RevokeToken (now : time) (botID tokenID : uuid) : prog (botdb G L) boterr () := λ d,
  if hits (λ _ t, bool_decide (tk_bot t = botID) && live_token t) (bot_tokens d) tokenID
  then (Ok (), with_bot_tokens (update_where (λ id _, bool_decide (id = tokenID)) (λ _, with_tk_revoked_at (Some now)) (bot_tokens d)) d)
  else (Err BotNotFound, d).
Definition RevokeAllTokens (now : time) (botID : uuid) d : botdb G L :=
  with_bot_tokens (update_where (λ _ t, bool_decide (tk_bot t = botID) && live_token t) (λ _, with_tk_revoked_at (Some now)) (bot_tokens d)) d.

(** ** Repository: settings, menu, webhook *)

Record BotSettings := MkBotSettings {
  bs_DisplayName : option string;
  bs_Description : option string;
  bs_About : option string;
  bs_CanJoinGroups : option bool;
  bs_PrivacyMode : option bool;
  bs_InlineEnabled : option bool;
  bs_InlinePlaceholder : option string;
  bs_IsActive : option bool;
}.
Definition no_change : BotSettings := MkBotSettings None None None None None None None None.
Definition changed_bot (in_ : BotSettings) (b : bot_row) : bot_row :=
  MkBotRow (bt_owner b) (default (bt_description b) (bs_Description in_)) (default (bt_about b) (bs_About in_))
    (default (bt_can_join_groups b) (bs_CanJoinGroups in_)) (default (bt_privacy_mode b) (bs_PrivacyMode in_))
    (default (bt_inline_enabled b) (bs_InlineEnabled in_)) (default (bt_inline_placeholder b) (bs_InlinePlaceholder in_))
    (default (bt_is_active b) (bs_IsActive in_)) (bt_is_internal b) (bt_created_at b).
(** The upsert of the profile, in both views. *)
Definition set_display_name (id : uuid) (name : string) : prog (botdb G L) boterr () := λ d,
  let g := bd_graph d in
  if negb (has_account id g) then (Err BotDatabase, d)
  else
    let p := default (MkProfileRow "" "" None None "fa") (profiles g !! id) in
    (Ok (),
     with_bd_graph (with_profiles (<[id := MkProfileRow name (pr_about p) (pr_avatar p) (pr_birthday p) (pr_language p)]> (profiles g)) g)
       (with_bd_db (with_users (alter (λ u, MkUser (u_username u) (Some name) (u_avatar_media_id u) (u_is_bot u) (u_deleted_at u)) id
         (users (bd_db d))) (bd_db d)) d)).
Definition UpdateSettings (botID : uuid) (in_ : BotSettings) : prog (botdb G L) boterr () :=
  (match bs_DisplayName in_ with Some name => set_display_name botID name | None => mret () end);;
  b ← gets (λ d, bots d !! botID); b ← or_fail b BotNotFound;
  modify (λ d, with_bots (<[botID := changed_bot in_ b]> (bots d)) d).

Record Command := MkCommand { co_Command : string; co_Description : string; co_Position : Z; co_Locale : option string }.
Definition handle_byte (b : N) : bool := in_range 97 122 b || in_range 48 57 b || (b =? 95)%N.
(** [^[a-z0-9_]{1,32}$], the pattern and the column's check *)
Definition commandPattern (s : string) : bool :=
  let bs := bytes_of s in forallb handle_byte bs && (1 <=? length bs)%nat && (length bs <=? 32)%nat.
Definition insert_command (botID : uuid) (i : Z) (c : Command) : prog (botdb G L) boterr () := λ d,
  let name := to_lower (co_Command c) in
  let k := (botID, name, default ""%string (co_Locale c)) in
  if negb (commandPattern name) then (Err ErrInvalidCommand, d)
  else if negb (bool_decide (is_Some (bots d !! botID))) || bool_decide (is_Some (bot_commands d !! k)) then (Err BotDatabase, d)
  else (Ok (), with_bot_commands (<[k := MkCommandRow (co_Description c) i (co_Locale c)]> (bot_commands d)) d).
Definition SetCommands (botID : uuid) (commands : list Command) : prog (botdb G L) boterr () :=
  in_tx (
    modify (λ d, with_bot_commands (delete_where (λ k _, bool_decide (k.1.1 = botID)) (bot_commands d)) d);;
    for_each (zip (seqZ 0 (Z.of_nat (length commands))) commands) (λ ic, insert_command botID ic.1 ic.2)).
Definition Commands (botID : uuid) (locale : string) d : list Command :=
  (λ r : (uuid * string * string) * command_row, MkCommand r.1.1.2 (cd_description r.2) (cd_position r.2) (cd_locale r.2)) <$>
    order_by (λ r, cd_position r.2)
      (rows_where (λ k c, bool_decide (k.1.1 = botID) && (bool_decide (cd_locale c = None) || bool_decide (cd_locale c = Some locale)))
        (bot_commands d)).

Record Webhook := MkWebhook {
  we_URL : string;
  we_MaxConnections : Z;
  we_AllowedUpdates : list string;
  we_LastError : string;
  we_LastErrorAt : option time;
  we_FailureCount : Z;
}.
Definition SetWebhook (secret : string) (botID : uuid) (url : string) (maxConnections : Z) (allowed : list string)
    : prog (botdb G L) boterr string := λ d,
  if negb (bool_decide (is_Some (bots d !! botID))) then (Err BotDatabase, d)
  else (Ok secret, with_bot_webhooks (<[botID := MkWebhookRow url secret maxConnections allowed "" None 0]> (bot_webhooks d)) d).
Definition WebhookOf (botID : uuid) d : option Webhook :=
  w ← bot_webhooks d !! botID;
  Some (MkWebhook (wh_url w) (wh_max_connections w) (wh_allowed_updates w) (wh_last_error w) (wh_last_error_at w) (wh_failure_count w)).
Definition DeleteWebhook (botID : uuid) d : botdb G L := with_bot_webhooks (delete botID (bot_webhooks d)) d.
Definition pending (botID : uuid) (_ : Z) (u : update_row) : bool :=
  bool_decide (up_bot u = botID) && (if up_delivered_at u is None then true else false).
Record WebhookTarget := MkWebhookTarget {
  wt_BotID : uuid; wt_URL : string; wt_Secret : string; wt_AllowedUpdates : list string; wt_FailureCount : Z }.
(** In whatever order the rows come. *)
Definition PendingWebhooks (limit : Z) d : list WebhookTarget :=
  (λ w : uuid * webhook_row, MkWebhookTarget w.1 (wh_url w.2) (wh_secret w.2) (wh_allowed_updates w.2) (wh_failure_count w.2)) <$>
    take (Z.to_nat limit) (rows_where (λ id w, (0 <? count_where (pending id) (bot_updates d)) && (wh_failure_count w <? 20)) (bot_webhooks d)).
Definition RecordWebhookResult (now : time) (botID : uuid) (failure : string) d : botdb G L :=
  with_bot_webhooks (alter (λ w,
    if decide (failure = ""%string)
    then MkWebhookRow (wh_url w) (wh_secret w) (wh_max_connections w) (wh_allowed_updates w) "" None 0
    else MkWebhookRow (wh_url w) (wh_secret w) (wh_max_connections w) (wh_allowed_updates w) failure (Some now) (wh_failure_count w + 1))
    botID (bot_webhooks d)) d.

(** ** Repository: the update queue *)

Record Update := MkUpdate { ud_ID : Z; ud_Type : string; ud_Payload : update_payload }.
(** [nextval] of the table's sequence, which no rollback gives back, and the insert under
    the number it gave. *)
Definition next_update_id : prog (botdb G L) boterr Z := λ d,
  (Ok (bot_updates_seq d), with_bot_updates_seq (bot_updates_seq d + 1) d).
Definition store_update (now : time) (id : Z) (botID : uuid) (type : string) (payload : update_payload)
    : prog (botdb G L) boterr () := λ d,
  if negb (bool_decide (type ∈ update_types)) || negb (bool_decide (is_Some (bots d !! botID))) then (Err BotDatabase, d)
  else (Ok (), with_bot_updates (<[id := MkUpdateRow botID type payload now None]> (bot_updates d)) d).
(** The newest [UpdateBacklog] undelivered updates stay. *)
Definition newest (botID : uuid) d : list Z :=
  take (Z.to_nat UpdateBacklog) (order_by_desc id (rows_where (pending botID) (bot_updates d)).*1).
Definition trim_backlog (botID : uuid) d : botdb G L :=
  with_bot_updates (delete_where (λ id u, pending botID id u && negb (bool_decide (id ∈ newest botID d))) (bot_updates d)) d.
Definition Enqueue (now : time) (botID : uuid) (type : string) (payload : update_payload) : prog (botdb G L) boterr () := λ d,
  match next_update_id d with
  | (Ok id, d) => in_tx (store_update now id botID type payload;; modify (trim_backlog botID)) d
  | (Err e, d) => (Err e, d)
  end.
Definition confirm (now : time) (botID : uuid) (offset : Z) d : botdb G L :=
  with_bot_updates (update_where (λ id u, pending botID id u && (id <=? offset)) (λ _, with_up_delivered_at (Some now)) (bot_updates d)) d.
Definition updates_after (botID : uuid) (offset : Z) d : list (Z * update_row) :=
  order_by fst (rows_where (λ id u, pending botID id u && (offset <? id)) (bot_updates d)).
Definition Poll (now : time) (botID : uuid) (offset limit : Z) : prog (botdb G L) boterr (list Update) :=
  (if 0 <? offset then modify (confirm now botID offset) else mret ());;
  gets (λ d, (λ u : Z * update_row, MkUpdate u.1 (up_type u.2) (up_payload u.2)) <$>
    take (Z.to_nat limit) (updates_after botID offset d)).
Definition PendingUpdates (now : time) (botID : uuid) (limit : Z) : prog (botdb G L) boterr (list Update) := Poll now botID 0 limit.
Definition MarkDelivered (now : time) (botID : uuid) (ids : list Z) d : botdb G L :=
  with_bot_updates (update_where (λ id u, bool_decide (up_bot u = botID) && bool_decide (id ∈ ids)) (λ _, with_up_delivered_at (Some now))
    (bot_updates d)) d.

(** ** Repository: who hears a message *)

Definition hears (chatType : string) (isCommand : bool) (replyToBot : option uuid) (mentioned : list uuid) (id : uuid) (b : bot_row) : bool :=
  bool_decide (chatType = "private"%string) || negb (bt_privacy_mode b) || isCommand || bool_decide (replyToBot = Some id)
  || bool_decide (id ∈ mentioned).
Definition SubscribedBots (chatID : uuid) (isCommand : bool) (replyToBot : option uuid) (mentioned : list uuid) d : list uuid :=
  match live_chat (bd_db d) chatID with
  | None => []
  | Some c =>
      omap (λ km : (uuid * uuid) * member_row,
          b ← bots d !! km.1.2;
          if bt_is_active b && hears (c_type c) isCommand replyToBot mentioned km.1.2 b then Some km.1.2 else None)
        (rows_where (λ k m, bool_decide (k.1 = chatID) && (if m_left_at m is None then true else false)) (chat_members (bd_db d)))
  end.
Definition IsPrivateChat (chatID : uuid) d : bool :=
  from_option (λ c, bool_decide (c_type c = "private"%string)) false (live_chat (bd_db d) chatID).
Definition MessageAuthorIfBot (messageID : uuid) d : option uuid :=
  m ← messages (bd_db d) !! messageID; u ← r_sender_id m; if bool_decide (is_Some (bots d !! u)) then Some u else None.
Definition named_bot (handle : string) d : uuid → bot_row → bool := λ id b,
  bt_is_active b && from_option (λ a, username_is handle a && live_account a) false (accounts (bd_graph d) !! id).
Definition BotIDByUsername (username : string) d : option uuid := head (rows_where (named_bot username d) (bots d)).*1.
Definition BotIDsByUsernames (usernames : list string) d : list uuid :=
  (rows_where (λ id b, existsb (λ u, named_bot u d id b) usernames) (bots d)).*1.

(** [SignPayload]: HMAC-SHA-256 of the body, in hexadecimal. *)
Definition SignPayload (secret body : list N) : list N :=
  let key := hmac_key secret in
  hex_encode (sha256 ((N.lxor 92 <$> key) ++ sha256 ((N.lxor 54 <$> key) ++ body))).

(** ** Service *)

Abbreviation bothandler := (prog (botdb G L) Error) (only parsing).
Definition bot_internal (_ : boterr) : Error := Internal.
Definition bot_not_found : Error := NotFound CodeNotFound "Bot not found".

(** [^[a-z][a-z0-9_]{3,27}bot$] *)
Definition botUsernamePattern (s : string) : bool :=
  match bytes_of s with
  | b :: bs =>
      in_range 97 122 b && forallb handle_byte bs && bool_decide (drop (length bs - 3) bs = bytes_of "bot")
      && (6 <=? length bs)%nat && (length bs <=? 30)%nat
  | [] => false
  end.
Definition normalize_handle (username : string) : string := to_lower (trim_space (trim_prefix username "@")).
(** The folded handle and the trimmed name. *)
Definition check_bot (username displayName : string) : result Error (string * string) :=
  let normalized := normalize_handle username in
  let displayName := trim_space displayName in
  if negb (botUsernamePattern normalized)
  then Err (WithField (Validation "That bot username is not valid") "username" "4 to 32 characters, ending in 'bot', using a-z, 0-9 and _")
  else if bool_decide (displayName = ""%string)
  then Err (WithField (Validation "A display name is required") "display_name" "cannot be empty")
  else if 64 <? rune_count displayName
  then Err (WithField (Validation "That display name is too long") "display_name" "at most 64 characters")
  else Ok (normalized, displayName).
Definition register_error (e : boterr) : Error :=
  match e with
  | BotUsernameTaken => Conflict CodeUsernameTaken "That username is taken"
  | ErrTooManyBots => Forbidden CodeForbidden "You have reached the maximum number of bots"
  | _ => Internal
  end.
Definition Register (now : time) (id : uuid) (draw : token_draw) (ownerID : uuid) (username displayName description : string)
    : bothandler (Bot * IssuedToken) :=
  '(handle, name) ← (λ d, (check_bot username displayName, d));
  map_err register_error (CreateBot now id draw ownerID handle name description).
Definition Bots_List (ownerID : uuid) : bothandler (list Bot) := gets (ListForOwner ownerID).
Definition Owned (botID ownerID : uuid) : bothandler Bot :=
  bot ← gets (BotByID botID); bot ← or_fail bot bot_not_found;
  fail_if (negb (bool_decide (bo_OwnerID bot = ownerID))) bot_not_found;;
  mret bot.
Definition Service_UpdateSettings (botID ownerID : uuid) (in_ : BotSettings) : bothandler () :=
  Owned botID ownerID;;
  fail_if (from_option (λ a, 512 <? rune_count a) false (bs_About in_))
    (WithField (Validation "That description is too long") "about" "at most 512 characters");;
  map_err bot_internal (UpdateSettings botID in_).
Definition Service_IssueToken (now : time) (draw : token_draw) (botID ownerID : uuid) (label : string) : bothandler IssuedToken :=
  Owned botID ownerID;;
  map_err (λ e, match e with ErrTooManyTokens => Forbidden CodeForbidden "Revoke a token before issuing another" | _ => Internal end)
    (IssueToken now draw botID label).
Definition Service_ListTokens (botID ownerID : uuid) : bothandler (list Token) := Owned botID ownerID;; gets (ListTokens botID).
Definition Service_RevokeToken (now : time) (botID ownerID tokenID : uuid) : bothandler () :=
  Owned botID ownerID;;
  map_err (λ e, match e with BotNotFound => NotFound CodeNotFound "Token not found" | _ => Internal end) (RevokeToken now botID tokenID).
Definition check_command (c : Command) : option Error :=
  if negb (commandPattern (to_lower (trim_prefix (co_Command c) "/")))
  then Some (WithField (Validation "A command name is not valid") "commands" "use a-z, 0-9 and _, up to 32 characters")
  else if 256 <? rune_count (co_Description c)
  then Some (WithField (Validation "A command description is too long") "commands" "at most 256 characters each")
  else None.
Definition Service_SetCommands (botID : uuid) (commands : list Command) : bothandler () :=
  fail_if (MaxCommands <? Z.of_nat (length commands)) (WithField (Validation "Too many commands") "commands" "at most 100");;
  (λ d, (match head (omap check_command commands) with Some e => Err e | None => Ok () end, d));;
  map_err (λ e, match e with
      | ErrInvalidCommand => WithField (Validation "A command name is not valid") "commands" "use a-z, 0-9 and _"
      | _ => Internal
      end) (SetCommands botID commands).
Definition Service_Commands (botID : uuid) (locale : string) : bothandler (list Command) := gets (Commands botID locale).
Definition Service_Webhook (botID : uuid) : bothandler (option Webhook) := gets (WebhookOf botID).
Definition Service_DeleteWebhook (botID : uuid) : bothandler () := modify (DeleteWebhook botID).
Definition GetUpdates (now : time) (botID : uuid) (offset limit : Z) : bothandler (list Update) :=
  map_err bot_internal (Poll now botID offset (if (limit <=? 0) || (100 <? limit) then 100 else limit)).
End bots.

Section webhooks.
Context {G L : Type} `{UrlLibrary}.
(** [validateWebhookURL] *)
Definition validateWebhookURL (dns : string → option (list IP)) (raw : string) : result Error () :=
  match ValidateURL dns raw with
  | Err ErrSchemeNotAllowed => Err (WithField (Validation "A webhook must be an http or https URL") "url" "must be http or https")
  | Err ErrPrivateAddress => Err (WithField (Validation "That address is not publicly reachable") "url" "must resolve to a public address")
  | Err ErrPortNotAllowed => Err (WithField (Validation "That port is not allowed") "url" "use 80, 443, 8080 or 8443")
  | Err _ => Err (WithField (Validation "That webhook URL is not usable") "url" "must be a resolvable public URL")
  | Ok parsed =>
      if bool_decide (Scheme parsed = "https"%string) then Ok ()
      else Err (WithField (Validation "A webhook must use https") "url" "must be https")
  end.
Definition Service_SetWebhook (dns : string → option (list IP)) (secret : string) (botID : uuid) (url : string) (maxConnections : Z)
    (allowed : list string) : prog (botdb G L) Error string :=
  (λ d, (validateWebhookURL dns url, d));;
  map_err bot_internal
    (SetWebhook secret botID url (if (maxConnections <=? 0) || (100 <? maxConnections) then 40 else maxConnections) allowed).
End webhooks.
