(* ===== verification/BotKeyboard.v ===== *)
(** * Keyboards, taps and inline mode ([internal/bots/keyboard.go], [inline.go])

    Buttons under a bot's message, the callback queries their taps open, and inline queries
    answered with results that the person who asked sends. *)

From stdpp Require Import base tactics list sorting gmap strings.
From Stdlib Require Import ZArith Lia.
From S2P Require Import Prelude GoString Httpx Permissions Store ChatContext RateLimit Ports Payloads MessagingService Social Security NetGuard Bots.

Set Default Goal Selector "!".
Open Scope Z_scope.

Definition MaxKeyboardRows : Z := 20.
Definition MaxButtonsPerRow : Z := 8.
Definition MaxButtonTextRunes : Z := 64.
Definition MaxCallbackDataBytes : Z := 64.
Definition callbackTTL : Z := hour.
Definition inlineQueryTTL : Z := 5 * minute.
Definition MaxInlineResults : Z := 50.

(** ** Keyboards *)

Definition markup_error (title detail : string) : Error := WithField (Validation title) "reply_markup" detail.
Definition button_actions (b : Button) : nat :=
  (if bool_decide (bn_CallbackData b = ""%string) then 0 else 1) + (if bool_decide (bn_URL b = ""%string) then 0 else 1)
  + (if bn_SwitchInlineQuery b is None then 0 else 1).

Section keyboards.
Context `{UrlLibrary} (dns : string → option (list IP)).
Definition button_validate (b : Button) : option Error :=
  let text := trim_space (bn_Text b) in
  if bool_decide (text = ""%string) then Some (markup_error "A button needs a label" "every button needs text")
  else if MaxButtonTextRunes <? rune_count text then Some (markup_error "That button label is too long" "at most 64 characters")
  else if negb (button_actions b =? 1)%nat
  then Some (markup_error "A button needs exactly one action" "set one of callback_data, url or switch_inline_query")
  else if MaxCallbackDataBytes <? len (bn_CallbackData b)
  then Some (markup_error "That callback data is too long" "at most 64 bytes")
  else if bool_decide (bn_URL b = ""%string) then None
  else match ValidateURL dns (bn_URL b) with
       | Ok _ => None
       | Err _ => Some (markup_error "That button URL is not usable" "must be a public http or https URL")
       end.
Definition row_validate (row : list Button) : option Error :=
  if bool_decide (row = []) then Some (markup_error "A keyboard row cannot be empty" "every row needs a button")
  else if MaxButtonsPerRow <? Z.of_nat (length row)
  then Some (markup_error "Too many buttons in a row" "at most 8 buttons per row")
  else head (omap button_validate row).
Definition Keyboard_Validate (k : Keyboard) : option Error :=
  if bool_decide (k = []) then Some (markup_error "A keyboard needs at least one row" "at least one row")
  else if MaxKeyboardRows <? Z.of_nat (length k) then Some (markup_error "Too many keyboard rows" "at most 20 rows")
  else head (omap row_validate k).
End keyboards.

(** [json.Marshal]; empty fields are left out. *)
Definition text_field (name value : string) : list (string * json) := if decide (value = ""%string) then [] else [(name, JStr value)].
Definition button_json (b : Button) : json :=
  JObj (("text", JStr (bn_Text b)) :: text_field "callback_data" (bn_CallbackData b) ++ text_field "url" (bn_URL b)
    ++ match bn_SwitchInlineQuery b with Some q => [("switch_inline_query", JStr q)] | None => [] end)%string.
Definition keyboard_json (k : Keyboard) : json := JObj [("inline_keyboard"%string, JArr ((λ row, JArr (button_json <$> row)) <$> k))].

(** [->], [->>] and [jsonb_array_elements] on the documents [keyboard_json] makes. *)
Definition json_field (key : string) (j : json) : option json :=
  match j with JObj l => r ← list_find (λ kv, kv.1 = key) l; Some r.2.2 | _ => None end.
Definition json_text (j : option json) : option string := match j with Some (JStr s) => Some s | _ => None end.
Definition json_elements (j : option json) : list json := match j with Some (JArr l) => l | _ => [] end.
Definition names_button (markup : json) (data : string) : bool :=
  existsb (λ button, bool_decide (json_text (json_field "callback_data" button) = Some data))
    (json_elements (json_field "inline_keyboard" markup) ≫= λ row, json_elements (Some row)).

Section bots.
Context `{SpamGuard G} `{MessageLimiter L} `{PayloadCodec} `{UrlLibrary}.
Context (dns : string → option (list IP)).
Implicit Types (d : botdb G L).

Abbreviation bothandler := (prog (botdb G L) Error) (only parsing).
Definition refuse_bot (o : option Error) : bothandler () := λ d, (match o with Some e => Err e | None => Ok () end, d).
(** A call of the messaging service. *)
Definition on_world {A} (m : prog (world G L) Error A) : bothandler A := λ d, let '(r, w) := m (bd_world d) in (r, with_bd_world w d).

(** The drawn message id and client id of a send, and what other transactions commit around
    its lock. *)
Record send_draw := MkSendDraw { sd_id : uuid; sd_client : uuid; sd_before : db → db; sd_after : db → db }.
Definition bot_message (s : send_draw) (botID chatID : uuid) (content : string) (replyTo : option uuid) (keyboard : option Keyboard)
    : SendInput :=
  MkSendInput chatID botID (sd_client s) TypeText content RawNil RawNil replyTo [] [] None
    (match keyboard with Some k => RawDoc (keyboard_json k) | None => RawNil end) false None.
Definition SendMessageWithKeyboard (now : time) (s : send_draw) (botID chatID : uuid) (content : string) (replyTo : option uuid)
    (keyboard : option Keyboard) : bothandler Message :=
  refuse_bot (keyboard ≫= Keyboard_Validate dns);;
  on_world (Service_Send now (sd_id s) (sd_before s) (sd_after s) (bot_message s botID chatID content replyTo keyboard)).
Definition SendMessage (now : time) (s : send_draw) (botID chatID : uuid) (content : string) (replyTo : option uuid) : bothandler Message :=
  SendMessageWithKeyboard now s botID chatID content replyTo None.

(** ** Taps *)

Record CallbackQuery := MkCallbackQuery {
  cb_ID : uuid;
  cb_BotID : uuid;
  cb_UserID : uuid;
  cb_ChatID : option uuid;
  cb_MessageID : option uuid;
  cb_Data : string;
  cb_CreatedAt : time;
}.
(** The [target] of the insert: the message with its author, if the button is on it and the
    caller in its chat. *)
Definition tap_target (messageID userID : uuid) (data : string) d : option (uuid * message_row) :=
  m ← messages (bd_db d) !! messageID; bot ← r_sender_id m; b ← bots d !! bot; markup ← r_reply_markup m;
  if bool_decide (is_Some (active_member (bd_db d) (r_chat_id m) userID)) && bt_is_active b
     && (if r_deleted_at m is None then true else false) && names_button markup data
  then Some (bot, m) else None.
Definition RecordCallback (now : time) (id messageID userID : uuid) (data : string) : prog (botdb G L) boterr CallbackQuery := λ d,
  match tap_target messageID userID data d with
  | Some (bot, m) =>
      (Ok (MkCallbackQuery id bot userID (Some (r_chat_id m)) (Some messageID) data now),
       with_bot_callback_queries (<[id := MkCallbackRow bot userID (Some (r_chat_id m)) (Some messageID) data now (now + callbackTTL) None "" false]>
         (bot_callback_queries d)) d)
  | None => (Err ErrCallbackNotFound, d)
  end.
Definition answered (now : time) (text : string) (alert : bool) (q : callback_row) : callback_row :=
  MkCallbackRow (cq_bot q) (cq_user q) (cq_chat q) (cq_message q) (cq_data q) (cq_created_at q) (cq_expires_at q) (Some now) text alert.
Definition AnswerCallback (now : time) (botID queryID : uuid) (text : string) (showAlert : bool) : prog (botdb G L) boterr () := λ d,
  match bot_callback_queries d !! queryID with
  | Some q =>
      if bool_decide (cq_bot q = botID) && (if cq_answered_at q is None then true else false)
      then (Ok (), with_bot_callback_queries (<[queryID := answered now text showAlert q]> (bot_callback_queries d)) d)
      else (Err ErrAlreadyAnswered, d)
  | None => (Err ErrAlreadyAnswered, d)
  end.
Definition SetReplyMarkup (now : time) (botID messageID : uuid) (keyboard : option Keyboard) : prog (botdb G L) boterr () := λ d,
  match messages (bd_db d) !! messageID with
  | Some m =>
      if bool_decide (r_sender_id m = Some botID) && (if r_deleted_at m is None then true else false)
      then (Ok (), with_bd_db (with_messages (<[messageID :=
              with_r_edited_at (Some now) (with_r_reply_markup (keyboard_json <$> keyboard) m)]> (messages (bd_db d))) (bd_db d)) d)
      else (Err BotNotFound, d)
  | None => (Err BotNotFound, d)
  end.
Definition PurgeExpiredCallbacks (now : time) d : botdb G L :=
  with_bot_callback_queries (delete_where (λ _ q, cq_expires_at q <? now) (bot_callback_queries d)) d.

(** An update that cannot be queued is only logged. *)
Definition enqueue_or_log (now : time) (botID : uuid) (type : string) (payload : update_payload) : bothandler () := λ d,
  (Ok (), (Enqueue now botID type payload d).2).
Definition Tap (now : time) (id userID messageID : uuid) (data : string) : bothandler CallbackQuery :=
  q ← map_err (λ e, match e with ErrCallbackNotFound => NotFound CodeNotFound "That button is not available" | _ => Internal end)
    (RecordCallback now id messageID userID data);
  enqueue_or_log now (cb_BotID q) UpdateCallbackQuery (UCallback (cb_ID q) (cb_UserID q) (cb_ChatID q) (cb_MessageID q) (cb_Data q));;
  mret q.
Definition Service_AnswerCallback (now : time) (botID queryID : uuid) (text : string) (showAlert : bool) : bothandler () :=
  fail_if (200 <? rune_count text) (WithField (Validation "That answer is too long") "text" "at most 200 characters");;
  map_err (λ e, match e with
      | ErrAlreadyAnswered => Conflict CodeConflict "That query has already been answered, or is not yours"
      | _ => Internal
      end) (AnswerCallback now botID queryID text showAlert).
Definition Service_SetReplyMarkup (now : time) (botID messageID : uuid) (keyboard : option Keyboard) : bothandler () :=
  refuse_bot (keyboard ≫= Keyboard_Validate dns);;
  map_err (λ e, match e with BotNotFound => NotFound CodeMessageNotFound "That message is not one this bot can edit" | _ => Internal end)
    (SetReplyMarkup now botID messageID keyboard).

(** ** Inline mode *)

Definition validInlineResultTypes : gmap string string :=
  list_to_map [("article", TypeText); ("photo", TypeImage); ("video", TypeVideo); ("audio", TypeAudio); ("document", TypeFile);
    ("sticker", TypeSticker); ("gif", TypeGIF)]%string.
Record InlineQuery := MkInlineQuery {
  il_ID : uuid;
  il_BotID : uuid;
  il_UserID : uuid;
  il_Query : string;
  il_Offset : string;
  il_CreatedAt : time;
}.
Definition OpenInlineQuery (now : time) (id botID userID : uuid) (query offset : string) : prog (botdb G L) boterr InlineQuery := λ d,
  if from_option (λ b, bt_is_active b && bt_inline_enabled b) false (bots d !! botID)
  then (Ok (MkInlineQuery id botID userID query offset now),
        with_bot_inline_queries (<[id := MkInlineRow botID userID query offset [] None now (now + inlineQueryTTL)]> (bot_inline_queries d)) d)
  else (Err ErrInlineNotEnabled, d).
Definition AnswerInlineQuery (now : time) (botID queryID : uuid) (results : list InlineResult) : prog (botdb G L) boterr () := λ d,
  match bot_inline_queries d !! queryID with
  | Some q =>
      if bool_decide (iq_bot q = botID) && (now <? iq_expires_at q)
      then (Ok (), with_bot_inline_queries (<[queryID :=
              MkInlineRow (iq_bot q) (iq_user q) (iq_query q) (iq_offset q) results (Some now) (iq_created_at q) (iq_expires_at q)]>
              (bot_inline_queries d)) d)
      else (Err ErrQueryNotFound, d)
  | None => (Err ErrQueryNotFound, d)
  end.
Definition InlineResults (now : time) (queryID userID : uuid) d : result boterr (list InlineResult * uuid * string) :=
  match bot_inline_queries d !! queryID with
  | Some q => if bool_decide (iq_user q = userID) && (now <? iq_expires_at q) then Ok (iq_results q, iq_bot q, iq_query q) else Err ErrQueryNotFound
  | None => Err ErrQueryNotFound
  end.
Definition RecordChosenResult (botID userID queryID : uuid) (resultID query : string) d : botdb G L :=
  with_bot_chosen_inline_results (bot_chosen_inline_results d ++ [MkChosenRow botID userID queryID resultID query]) d.
Definition PurgeExpiredInlineQueries (now : time) d : botdb G L :=
  with_bot_inline_queries (delete_where (λ _ q, iq_expires_at q <? now) (bot_inline_queries d)) d.

Definition StartInlineQuery (now : time) (id userID : uuid) (botUsername query offset : string) : bothandler InlineQuery :=
  let handle := to_lower (trim_prefix (trim_space botUsername) "@") in
  botID ← gets (BotIDByUsername handle); botID ← or_fail botID (NotFound CodeNotFound "No bot has that username");
  fail_if (256 <? rune_count query) (WithField (Validation "That query is too long") "query" "at most 256 characters");;
  opened ← map_err (λ e, match e with
      | ErrInlineNotEnabled => Forbidden CodeForbidden "That bot does not answer inline queries"
      | _ => Internal
      end) (OpenInlineQuery now id botID userID query offset);
  enqueue_or_log now botID UpdateInlineQuery (UInline id userID query offset);;
  mret opened.

Definition results_error (title detail : string) : Error := WithField (Validation title) "results" detail.
Definition check_result (seen : list string) (r : InlineResult) : option Error :=
  if bool_decide (trim_space (ir_ID r) = ""%string) then Some (results_error "Every result needs an id" "id is required")
  else if bool_decide (ir_ID r ∈ seen) then Some (results_error "Two results share an id" "each id must be distinct")
  else if negb (bool_decide (is_Some (validInlineResultTypes !! ir_Type r)))
  then Some (results_error "Unsupported result type" "one of article, photo, video, audio, document, sticker, gif")
  else if bool_decide (trim_space (ir_Title r) = ""%string) then Some (results_error "Every result needs a title" "title is required")
  else if bool_decide (ir_Type r = "article"%string) && bool_decide (trim_space (ir_Content r) = ""%string)
  then Some (results_error "An article result needs content" "content is required for article results")
  else if bool_decide (ir_Type r ≠ "article"%string) && (if ir_MediaID r is None then true else false)
  then Some (results_error "A media result needs a media id" "media_id is required for media results")
  else ir_Keyboard r ≫= Keyboard_Validate dns.
Fixpoint check_results (seen : list string) (results : list InlineResult) : option Error :=
  match results with
  | [] => None
  | r :: rest => match check_result seen r with Some e => Some e | None => check_results (ir_ID r :: seen) rest end
  end.
Definition Service_AnswerInlineQuery (now : time) (botID queryID : uuid) (results : list InlineResult) : bothandler () :=
  fail_if (MaxInlineResults <? Z.of_nat (length results)) (results_error "Too many results" "at most 50");;
  refuse_bot (check_results [] results);;
  map_err (λ e, match e with ErrQueryNotFound => NotFound CodeNotFound "That query is not open, or is not this bot's" | _ => Internal end)
    (AnswerInlineQuery now botID queryID results).
Definition query_closed (e : boterr) : Error :=
  match e with ErrQueryNotFound => NotFound CodeNotFound "That query is no longer open" | _ => Internal end.
Definition read_results (now : time) (queryID userID : uuid) : bothandler (list InlineResult * uuid * string) := λ d,
  (match InlineResults now queryID userID d with Ok x => Ok x | Err e => Err (query_closed e) end, d).
Definition Service_InlineResults (now : time) (userID queryID : uuid) : bothandler (list InlineResult) :=
  x ← read_results now queryID userID; mret x.1.1.
(** Sent by the person who asked. *)
Definition chosen_message (s : send_draw) (userID chatID : uuid) (chosen : InlineResult) : SendInput :=
  MkSendInput chatID userID (sd_client s) (default ""%string (validInlineResultTypes !! ir_Type chosen)) (ir_Content chosen) RawNil RawNil
    None (match ir_MediaID chosen with Some x => [MkAttachment x 0 ""] | None => [] end) [] None RawNil false None.
Definition ChooseInlineResult (now : time) (s : send_draw) (userID queryID chatID : uuid) (resultID : string) : bothandler Message :=
  x ← read_results now queryID userID;
  chosen ← or_fail (snd <$> list_find (λ r, ir_ID r = resultID) x.1.1) (NotFound CodeNotFound "That result is not in this query");
  message ← on_world (Service_Send now (sd_id s) (sd_before s) (sd_after s) (chosen_message s userID chatID chosen));
  modify (RecordChosenResult x.1.2 userID queryID resultID x.2);;
  enqueue_or_log now x.1.2 UpdateChosenInlineResult (UChosen resultID userID x.2);;
  mret message.
End bots.
