(* ===== verification/BotObserver.v ===== *)
(** * Delivering messages to bots ([internal/bots/observer.go])

    Which bots hear a message: the command grammar, the mentions, and the observer that
    queues an update for each and runs the bots the server answers for itself. *)

From stdpp Require Import base tactics list sorting gmap strings.
From Stdlib Require Import ZArith Lia.
From S2P Require Import Prelude GoString Httpx Permissions Store ChatContext RateLimit Ports Payloads MessagingService Social Security NetGuard Bots BotKeyboard.

Set Default Goal Selector "!".
Open Scope Z_scope.

(** ** Commands

    [^/([a-z][a-z0-9_]{0,31})(?:@([a-zA-Z][a-zA-Z0-9_]{3,31}))?(?:\s|$)]: what may follow a
    name is in no name, so the longest reading is the only one. *)
Definition lower_letter (b : N) : bool := in_range 97 122 b.
Definition letter (b : N) : bool := in_range 97 122 b || in_range 65 90 b.
Definition word_byte (b : N) : bool := letter b || in_range 48 57 b || (b =? 95)%N.
Definition re_space (b : N) : bool := (b =? 32)%N || (b =? 9)%N || (b =? 10)%N || (b =? 12)%N || (b =? 13)%N.
(** The longest prefix of at most [n] bytes in a class, and the rest. *)
Fixpoint span (P : N → bool) (n : nat) (bs : list N) : list N * list N :=
  match n, bs with
  | S n, b :: rest => if P b then let '(w, r) := span P n rest in (b :: w, r) else ([], bs)
  | _, _ => ([], bs)
  end.
(** [(?:@(...))?], what it captured and what is left *)
Definition addressee (bs : list N) : option (list N * list N) :=
  match bs with
  | 64%N :: b :: rest =>
      if letter b then
        let '(w, r) := span word_byte 31 rest in
        if (3 <=? length w)%nat then Some (b :: w, r) else None
      else None
  | 64%N :: [] => None
  | _ => Some ([], bs)
  end.
Definition command_match (bs : list N) : option (list N * list N * list N) :=
  match bs with
  | 47%N :: b :: rest =>
      if lower_letter b then
        let '(w, r) := span handle_byte 31 rest in
        x ← addressee r;
        match x.2 with
        | [] => Some (b :: w, x.1, [])
        | s :: args => if re_space s then Some (b :: w, x.1, args) else None
        end
      else None
  | _ => None
  end.
Definition ParseCommand (content : string) : option CommandCall :=
  m ← command_match (bytes_of (trim_space content));
  Some (MkCommandCall (to_lower (string_of m.1.1)) (to_lower (string_of m.1.2)) (trim_space (string_of m.2))).

(** ** Mentions

    [@([a-zA-Z][a-zA-Z0-9_]{4,31})]: no handle has an [@] in it. *)
Definition mention_at (bs : list N) : option string :=
  match bs with
  | b :: rest =>
      if letter b then
        let w := (span word_byte 31 rest).1 in
        if (4 <=? length w)%nat then Some (to_lower (string_of (b :: w))) else None
      else None
  | [] => None
  end.
Fixpoint mentions_in (bs : list N) : list string :=
  match bs with
  | [] => []
  | b :: rest =>
      match (if (b =? 64)%N then mention_at rest else None) with
      | Some h => h :: mentions_in rest
      | None => mentions_in rest
      end
  end.
(** The first of each. *)
Fixpoint distinct (seen : list string) (l : list string) : list string :=
  match l with
  | [] => []
  | h :: l => if decide (h ∈ seen) then distinct seen l else h :: distinct (h :: seen) l
  end.
Definition mentionedHandles (content : string) : list string := distinct [] (mentions_in (bytes_of content)).

(** ** The observer *)

Record InternalMessage := MkInternalMessage {
  im_BotID : uuid;
  im_ChatID : uuid;
  im_SenderID : uuid;
  im_Content : string;
  im_Command : option CommandCall;
}.

Section observer.
Context {G L : Type}.
(** The bots answered in this process, by their account; an error is only logged. *)
Context (internal : uuid → option (InternalMessage → botdb G L → botdb G L)).
Implicit Types (d : botdb G L).

Definition runInternal (handler : InternalMessage → botdb G L → botdb G L) (botID : uuid) (m : Message) (command : option CommandCall) d
    : botdb G L :=
  match mSenderID m with
  | None => d
  | Some sender => handler (MkInternalMessage botID (mChatID m) sender (mContent m) command) d
  end.
Definition enqueueUpdate (now : time) (botID : uuid) (cx : ChatContext) (m : Message) (command : option CommandCall) d : botdb G L :=
  if decide (botID = uuid_nil) then d
  else
    match Enqueue now botID UpdateMessage (UMessage (mChatID m) (ctx_chat_type cx) m command) d with
    | (Err _, d) => d
    | (Ok _, d) =>
        match internal botID with
        | Some handler => runInternal handler botID m command d
        | None => d
        end
    end.
Definition recipients (m : Message) (command : option CommandCall) d : list uuid :=
  let replyToBot := mReplyToID m ≫= λ id, MessageAuthorIfBot id d in
  let mentioned := BotIDsByUsernames (mentionedHandles (mContent m)) d in
  SubscribedBots (mChatID m) (bool_decide (is_Some command)) replyToBot mentioned d.
Definition ObserveMessage (now : time) (cx : ChatContext) (m : Message) d : botdb G L :=
  match mSenderID m with
  | None => d
  | Some sender =>
      let command := ParseCommand (mContent m) in
      match command with
      | Some c =>
          if decide (cc_Addressee c ≠ ""%string) then
            match BotIDByUsername (cc_Addressee c) d with
            | Some target => enqueueUpdate now target cx m (Some c) d
            | None => d
            end
          else
            foldl (λ d botID, if decide (botID = sender) then d else enqueueUpdate now botID cx m (Some c) d) d
              (recipients m command d)
      | None =>
          foldl (λ d botID, if decide (botID = sender) then d else enqueueUpdate now botID cx m None d) d (recipients m command d)
      end
  end.
End observer.
