(* ===== verification/BotFather.v ===== *)
(** * BotFather ([internal/bots/botfather.go])

    The bot that makes bots, as a conversation kept in [bot_dialog_states]: one per person, a
    flow, a step and what has been gathered.  What it says ([botfather_messages.go]) is a
    value of [father_text] with what the words are about, and [render] the words. *)

From stdpp Require Import base tactics list sorting gmap strings.
From Stdlib Require Import ZArith Lia.
From S2P Require Import Prelude GoString Httpx Permissions Store ChatContext RateLimit Ports Payloads MessagingService Social Security NetGuard Bots BotKeyboard BotObserver.

Set Default Goal Selector "!".
Open Scope Z_scope.

Definition BotFatherUsername : string := "sobhfather_bot".
Definition BotFatherDisplayName : string := "SOBH BotFather".
Definition dialogTTL : Z := hour.

Definition flowNewBot : string := "newbot".
Definition flowSetName : string := "setname".
Definition flowSetDescription : string := "setdescription".
Definition flowSetAbout : string := "setabout".
Definition flowSetCommands : string := "setcommands".
Definition flowDeleteBot : string := "deletebot".
Definition flowRevokeToken : string := "revoke".
Definition stepAwaitName : string := "await_name".
Definition stepAwaitUsername : string := "await_username".
Definition stepAwaitTarget : string := "await_target".
Definition stepAwaitValue : string := "await_value".
Definition stepAwaitConfirm : string := "await_confirm".

Inductive bad_list := NoDash (line : string) | MissingHalf (line : string) | NoCommands.
Inductive father_text :=
| THelp | TOnlyInPrivate | TCancelled | TUnknownCommand | TSaved | TNoBotsYet | TNotYourBot
| TYourBots (owned : list Bot)
| TAskWhich (command : string) (owned : list Bot)
| TNewBotAskName | TNewBotBadName | TNewBotAskUsername | TNewBotBadUsername
| TNewBotRejected (e : Error) | TNewBotDone (handle secret : string)
| TTokenConfirm (handle : string) | TTokenIssued (handle secret : string)
| TDeleteConfirm (handle : string) | TDeleted (handle : string)
| TPrompt (flow : string) (bot : Bot) | TSetCommandsBad (e : bad_list)
| TFlagUsage (command : string) | TFlagSet (flag handle : string) (enabled : bool).

(** ** Reading what people type *)

(** [strings.EqualFold] against ASCII: the capitals, U+212A and U+017F. *)
Definition fold_rune (r : N) : N :=
  if in_range 65 90 r then (r + 32)%N else if (r =? 8490)%N then 107%N else if (r =? 383)%N then 115%N else r.
Definition equal_fold (s t : string) : bool := bool_decide (fold_rune <$> runes s = fold_rune <$> runes t).
Definition parse_command_line (position : Z) (line : string) : result bad_list Command :=
  match cut_bytes 45 (bytes_of line) with
  | None => Err (NoDash line)
  | Some (name, description) =>
      let name := to_lower (trim_space (trim_prefix (trim_space (string_of name)) "/")) in
      let description := trim_space (string_of description) in
      if bool_decide (name = ""%string) || bool_decide (description = ""%string) then Err (MissingHalf line)
      else Ok (MkCommand name description position None)
  end.
Fixpoint parse_lines (commands : list Command) (lines : list string) : result bad_list (list Command) :=
  match lines with
  | [] => if decide (commands = []) then Err NoCommands else Ok commands
  | line :: lines =>
      let line := trim_space line in
      if decide (line = ""%string) then parse_lines commands lines
      else match parse_command_line (Z.of_nat (length commands)) line with
           | Err e => Err e
           | Ok c => parse_lines (commands ++ [c]) lines
           end
  end.
Definition parseCommandList (text : string) : result bad_list (list Command) := parse_lines [] (split 10 (trim_space text)).
Definition isAffirmative (answer : string) : bool :=
  bool_decide (to_lower (trim_space answer) ∈
    ["yes"; "y"; "ok"; "okay"; "confirm"; "بله"; "آره"; "تایید"; "تأیید"; "evet"; "tamam"; "نعم"; "موافق"]%string).
Definition flag_value (value : string) : option bool :=
  if bool_decide (value ∈ ["on"; "enable"; "enabled"; "yes"; "true"]%string) then Some true
  else if bool_decide (value ∈ ["off"; "disable"; "disabled"; "no"; "false"]%string) then Some false
  else None.

(** What a message draws: for the reply, for a bot, for a token. *)
Record father_draw := MkFatherDraw { fd_send : send_draw; fd_bot : uuid; fd_token : token_draw }.

Section father.
Context `{SpamGuard G} `{MessageLimiter L} `{PayloadCodec} `{UrlLibrary} `{Digest}.
Context (dns : string → option (list IP)) (render : father_text → string).
Context (father : uuid).
Implicit Types (d : botdb G L).

Abbreviation bothandler := (prog (botdb G L) Error) (only parsing).

(** ** The dialog table *)

Record dialogState := MkDialog { ds_Flow : string; ds_Step : string; ds_Data : gmap string string }.
Definition loadState (now : time) (userID : uuid) d : option dialogState :=
  r ← bot_dialog_states d !! userID;
  if now <? dl_expires_at r then Some (MkDialog (dl_flow r) (dl_step r) (dl_data r)) else None.
Definition saveState (now : time) (userID : uuid) (s : dialogState) : bothandler () := λ d,
  if negb (has_account userID (bd_graph d)) then (Err Internal, d)
  else (Ok (), with_bot_dialog_states (<[userID := MkDialogRow (ds_Flow s) (ds_Step s) (ds_Data s) (now + dialogTTL)]> (bot_dialog_states d)) d).
Definition clearState (userID : uuid) : bothandler () :=
  modify (λ d, with_bot_dialog_states (delete userID (bot_dialog_states d)) d).
Definition PurgeExpiredDialogs (now : time) d : botdb G L :=
  with_bot_dialog_states (delete_where (λ _ r, dl_expires_at r <? now) (bot_dialog_states d)) d.

(** ** Answering *)

Definition reply (now : time) (w : father_draw) (chatID : uuid) (t : father_text) : bothandler () :=
  SendMessage dns now (fd_send w) father chatID (render t) None;; mret ().
Definition finishAnd (now : time) (w : father_draw) (userID chatID : uuid) (t : father_text) : bothandler () :=
  clearState userID;; reply now w chatID t.
Definition ownedBotByHandle (ownerID : uuid) (handle : string) d : option Bot :=
  snd <$> list_find (λ b, Is_true (from_option (λ u, equal_fold u handle) false (bo_Username b))) (ListForOwner ownerID d).
Definition handle_of (typed : string) : string := to_lower (trim_prefix typed "@").
Definition bot_handle (s : dialogState) : string := default ""%string (ds_Data s !! "bot"%string).

Definition toggleFlag (now : time) (w : father_draw) (m : InternalMessage) (c : CommandCall) (flag : string) : bothandler () :=
  match fields (cc_Args c) with
  | typed :: value :: _ =>
      let handle := handle_of typed in
      match flag_value (to_lower value) with
      | None => reply now w (im_ChatID m) (TFlagUsage (cc_Name c))
      | Some enabled =>
          bot ← gets (ownedBotByHandle (im_SenderID m) handle);
          match bot with
          | None => reply now w (im_ChatID m) TNotYourBot
          | Some bot =>
              Service_UpdateSettings (bo_UserID bot) (im_SenderID m)
                (if decide (flag = "privacy"%string) then MkBotSettings None None None None (Some enabled) None None None
                 else if decide (flag = "inline"%string) then MkBotSettings None None None None None (Some enabled) None None
                 else MkBotSettings None None None (Some enabled) None None None None);;
              reply now w (im_ChatID m) (TFlagSet flag handle enabled)
          end
      end
  | _ => reply now w (im_ChatID m) (TFlagUsage (cc_Name c))
  end.

(** Past "which bot?" to the question of the flow. *)
Definition advanceAfterTarget (now : time) (w : father_draw) (m : InternalMessage) (s : dialogState) (bot : Bot) : bothandler () :=
  let to step := saveState now (im_SenderID m) (MkDialog (ds_Flow s) step (ds_Data s)) in
  if decide (ds_Flow s = flowRevokeToken) then to stepAwaitConfirm;; reply now w (im_ChatID m) (TTokenConfirm (bot_handle s))
  else if decide (ds_Flow s = flowDeleteBot) then to stepAwaitConfirm;; reply now w (im_ChatID m) (TDeleteConfirm (bot_handle s))
  else to stepAwaitValue;; reply now w (im_ChatID m) (TPrompt (ds_Flow s) bot).
Definition startTargetedFlow (now : time) (w : father_draw) (m : InternalMessage) (flow command : string) : bothandler () :=
  owned ← gets (ListForOwner (im_SenderID m));
  match owned with
  | [] => reply now w (im_ChatID m) TNoBotsYet
  | owned =>
      match (match owned with [bot] => u ← bo_Username bot; Some (u, bot) | _ => None end) with
      | Some (u, bot) => advanceAfterTarget now w m (MkDialog flow stepAwaitTarget {["bot"%string := u]}) bot
      | None =>
          saveState now (im_SenderID m) (MkDialog flow stepAwaitTarget ∅);;
          reply now w (im_ChatID m) (TAskWhich command owned)
      end
  end.
Definition your_bots (ownerID : uuid) d : father_text :=
  match ListForOwner ownerID d with [] => TNoBotsYet | owned => TYourBots owned end.
Definition targeted : list (string * string) :=
  [("token", flowRevokeToken); ("revoke", flowRevokeToken); ("setname", flowSetName); ("setdescription", flowSetDescription);
   ("setabout", flowSetAbout); ("setcommands", flowSetCommands); ("deletebot", flowDeleteBot)]%string.
Definition flags : list (string * string) :=
  [("setprivacy", "privacy"); ("setinline", "inline"); ("setjoingroups", "joingroups")]%string.
Definition lookup_name (name : string) (l : list (string * string)) : option string :=
  r ← list_find (λ x, x.1 = name) l; Some r.2.2.
Definition handleCommand (now : time) (w : father_draw) (m : InternalMessage) (c : CommandCall) : bothandler () :=
  let name := cc_Name c in
  if bool_decide (name ∈ ["start"; "help"]%string) then finishAnd now w (im_SenderID m) (im_ChatID m) THelp
  else if decide (name = "cancel"%string) then clearState (im_SenderID m);; reply now w (im_ChatID m) TCancelled
  else if decide (name = "newbot"%string) then
    saveState now (im_SenderID m) (MkDialog flowNewBot stepAwaitName ∅);; reply now w (im_ChatID m) TNewBotAskName
  else if decide (name = "mybots"%string) then
    t ← gets (your_bots (im_SenderID m)); finishAnd now w (im_SenderID m) (im_ChatID m) t
  else match lookup_name name targeted, lookup_name name flags with
       | Some flow, _ => startTargetedFlow now w m flow name
       | None, Some flag => toggleFlag now w m c flag
       | None, None => reply now w (im_ChatID m) TUnknownCommand
       end.

(** ** The conversation *)

Definition bad_name (answer : string) : bool := bool_decide (answer = ""%string) || (64 <? rune_count answer).
Definition continueNewBot (now : time) (w : father_draw) (m : InternalMessage) (s : dialogState) (answer : string) : bothandler () :=
  if decide (ds_Step s = stepAwaitName) then
    if bad_name answer then reply now w (im_ChatID m) TNewBotBadName
    else
      saveState now (im_SenderID m) (MkDialog (ds_Flow s) stepAwaitUsername (<["name"%string := answer]> (ds_Data s)));;
      reply now w (im_ChatID m) TNewBotAskUsername
  else if decide (ds_Step s = stepAwaitUsername) then
    let handle := handle_of answer in
    if negb (botUsernamePattern handle) then reply now w (im_ChatID m) TNewBotBadUsername
    else λ d,
      match Register now (fd_bot w) (fd_token w) (im_SenderID m) handle (default ""%string (ds_Data s !! "name"%string)) "" d with
      | (Err e, d) => reply now w (im_ChatID m) (TNewBotRejected e) d
      | (Ok (_, token), d) => (clearState (im_SenderID m);; reply now w (im_ChatID m) (TNewBotDone handle (it_Secret token))) d
      end
  else finishAnd now w (im_SenderID m) (im_ChatID m) THelp.
Definition applyValue (now : time) (w : father_draw) (m : InternalMessage) (s : dialogState) (answer : string) : bothandler () :=
  bot ← gets (ownedBotByHandle (im_SenderID m) (bot_handle s));
  match bot with
  | None => finishAnd now w (im_SenderID m) (im_ChatID m) TNotYourBot
  | Some bot =>
      let change in_ := Service_UpdateSettings (bo_UserID bot) (im_SenderID m) in_;; finishAnd now w (im_SenderID m) (im_ChatID m) TSaved in
      if decide (ds_Flow s = flowSetName) then
        if bad_name answer then reply now w (im_ChatID m) TNewBotBadName
        else change (MkBotSettings (Some answer) None None None None None None None)
      else if decide (ds_Flow s = flowSetDescription) then change (MkBotSettings None (Some answer) None None None None None None)
      else if decide (ds_Flow s = flowSetAbout) then change (MkBotSettings None None (Some answer) None None None None None)
      else
        match parseCommandList answer with
        | Err e => reply now w (im_ChatID m) (TSetCommandsBad e)
        | Ok commands => Service_SetCommands (bo_UserID bot) commands;; finishAnd now w (im_SenderID m) (im_ChatID m) TSaved
        end
  end.
Definition confirmDelete (now : time) (w : father_draw) (m : InternalMessage) (s : dialogState) (answer : string) : bothandler () :=
  let handle := bot_handle s in
  if decide (handle_of (trim_space answer) ≠ handle) then finishAnd now w (im_SenderID m) (im_ChatID m) TCancelled
  else
    bot ← gets (ownedBotByHandle (im_SenderID m) handle);
    match bot with
    | None => finishAnd now w (im_SenderID m) (im_ChatID m) TNotYourBot
    | Some bot =>
        Service_UpdateSettings (bo_UserID bot) (im_SenderID m) (MkBotSettings None None None None None None None (Some false));;
        finishAnd now w (im_SenderID m) (im_ChatID m) (TDeleted handle)
    end.
Definition confirmRevoke (now : time) (w : father_draw) (m : InternalMessage) (s : dialogState) (answer : string) : bothandler () :=
  if negb (isAffirmative answer) then finishAnd now w (im_SenderID m) (im_ChatID m) TCancelled
  else
    bot ← gets (ownedBotByHandle (im_SenderID m) (bot_handle s));
    match bot with
    | None => finishAnd now w (im_SenderID m) (im_ChatID m) TNotYourBot
    | Some bot =>
        modify (RevokeAllTokens now (bo_UserID bot));;
        token ← Service_IssueToken now (fd_token w) (bo_UserID bot) (im_SenderID m) "botfather";
        finishAnd now w (im_SenderID m) (im_ChatID m) (TTokenIssued (bot_handle s) (it_Secret token))
    end.
Definition continueFlow (now : time) (w : father_draw) (m : InternalMessage) (s : dialogState) : bothandler () :=
  let answer := trim_space (im_Content m) in
  if decide (ds_Step s = stepAwaitTarget) then
    let handle := handle_of answer in
    bot ← gets (ownedBotByHandle (im_SenderID m) handle);
    match bot with
    | None => reply now w (im_ChatID m) TNotYourBot
    | Some bot => advanceAfterTarget now w m (MkDialog (ds_Flow s) (ds_Step s) (<["bot"%string := handle]> (ds_Data s))) bot
    end
  else if decide (ds_Flow s = flowNewBot) then continueNewBot now w m s answer
  else if bool_decide (ds_Flow s ∈ [flowSetName; flowSetDescription; flowSetAbout; flowSetCommands]) then applyValue now w m s answer
  else if decide (ds_Flow s = flowDeleteBot) then confirmDelete now w m s answer
  else if decide (ds_Flow s = flowRevokeToken) then confirmRevoke now w m s answer
  else finishAnd now w (im_SenderID m) (im_ChatID m) THelp.

Definition Handle (now : time) (w : father_draw) (m : InternalMessage) : bothandler () :=
  private ← gets (IsPrivateChat (im_ChatID m));
  if negb private then reply now w (im_ChatID m) TOnlyInPrivate
  else
    match im_Command m with
    | Some c => handleCommand now w m c
    | None =>
        state ← gets (loadState now (im_SenderID m));
        match state with
        | None => reply now w (im_ChatID m) THelp
        | Some s => continueFlow now w m s
        end
    end.
(** What [RegisterInternal] attaches. *)
Definition internal_father (now : time) (w : father_draw) (botID : uuid) : option (InternalMessage → botdb G L → botdb G L) :=
  if decide (botID = father) then Some (λ m d, (Handle now w m d).2) else None.
End father.

(** ** Provisioning

    The account is found by its phone number. *)
Definition father_menu : list (string * string) :=
  [("newbot", "ساخت یک ربات تازه"); ("mybots", "فهرست ربات‌های شما"); ("token", "گرفتن توکن تازه برای یک ربات");
   ("revoke", "ابطال توکن‌های یک ربات"); ("setname", "تغییر نام نمایشی ربات"); ("setdescription", "تغییر توضیح ربات");
   ("setabout", "تغییر متن دربارهٔ ربات"); ("setcommands", "تعیین فهرست دستورهای ربات");
   ("setprivacy", "روشن یا خاموش کردن حالت حریم خصوصی"); ("setinline", "روشن یا خاموش کردن حالت درون‌خطی");
   ("setjoingroups", "اجازهٔ افزوده شدن به گروه‌ها"); ("deletebot", "غیرفعال کردن یک ربات"); ("cancel", "لغو کار نیمه‌تمام");
   ("help", "همین راهنما")]%string.
Definition botFatherDescription : string := "ساخت و مدیریت ربات‌های سُبح".
Definition botFatherAbout : string :=
  "با من ربات بسازید، توکن بگیرید و تنظیماتش را عوض کنید. برای شروع /newbot را بفرستید.".

Section provisioning.
Context {G L : Type}.
Implicit Types (d : botdb G L).

(** [INSERT INTO users ... ON CONFLICT (phone_number) DO UPDATE ... RETURNING id] *)
Definition claim_account (id : uuid) : prog (botdb G L) boterr uuid := λ d,
  let g := bd_graph d in
  let phone := synthetic_phone BotFatherUsername in
  match rows_where (λ _ a, bool_decide (ac_phone_number a = phone)) (accounts g) with
  | (existing, a) :: _ =>
      if live_account a && name_held BotFatherUsername existing g then (Err BotUsernameTaken, d)
      else
        let a := MkAccount (Some BotFatherUsername) phone (ac_phone_hash a) (ac_status a) true (ac_two_step_enabled a)
                   (ac_two_step_hint a) (ac_last_seen_at a) (ac_deleted_at a) in
        (Ok existing,
         with_bd_graph (with_accounts (<[existing := a]> (accounts g)) g)
           (with_bd_db (with_users (alter (λ u, MkUser (Some BotFatherUsername) (u_display_name u) (u_avatar_media_id u) true (u_deleted_at u))
             existing (users (bd_db d))) (bd_db d)) d))
  | [] =>
      if bool_decide (is_Some (accounts g !! id)) || name_held BotFatherUsername id g then (Err BotUsernameTaken, d)
      else
        (Ok id,
         with_bd_graph (with_accounts (<[id :=
             MkAccount (Some BotFatherUsername) phone (bytes_of ("botfather:" +:+ BotFatherUsername)) "active" true false None None None]> (accounts g)) g)
           (with_bd_db (with_users (<[id := MkUser (Some BotFatherUsername) None None true None]> (users (bd_db d))) (bd_db d)) d))
  end.
Definition claim_profile (botID : uuid) d : botdb G L :=
  match profiles (bd_graph d) !! botID with
  | Some _ => d
  | None =>
      with_bd_graph (with_profiles (<[botID := MkProfileRow BotFatherDisplayName botFatherAbout None None "fa"]> (profiles (bd_graph d))) (bd_graph d))
        (with_bd_db (with_users (alter (λ u, MkUser (u_username u) (Some BotFatherDisplayName) (u_avatar_media_id u) (u_is_bot u) (u_deleted_at u))
          botID (users (bd_db d))) (bd_db d)) d)
  end.
Definition claim_counter (botID : uuid) d : botdb G L :=
  with_bd_db (with_user_event_counters (partial_alter (λ o, Some (default 0 o)) botID (user_event_counters (bd_db d))) (bd_db d)) d.
Definition claim_bot (now : time) (botID : uuid) d : botdb G L :=
  with_bots (partial_alter (λ o, Some (default (MkBotRow botID botFatherDescription botFatherAbout false true false "" true true now) o)) botID (bots d)) d.
Definition claim_command (botID : uuid) (ic : Z * (string * string)) d : botdb G L :=
  with_bot_commands (partial_alter (λ o, Some (default (MkCommandRow ic.2.2 ic.1 None) o)) (botID, ic.2.1, ""%string) (bot_commands d)) d.
Definition EnsureBotFather (now : time) (id : uuid) : prog (botdb G L) boterr uuid :=
  existing ← gets (BotIDByUsername BotFatherUsername);
  match existing with
  | Some botID => mret botID
  | None =>
      catch
        (in_tx (
          botID ← claim_account id;
          modify (claim_profile botID);;
          modify (claim_counter botID);;
          modify (claim_bot now botID);;
          modify (λ d, foldl (λ d ic, claim_command botID ic d) d (zip (seqZ 0 (Z.of_nat (length father_menu))) father_menu));;
          mret botID))
        (λ e,
          existing ← gets (BotIDByUsername BotFatherUsername);
          match e, existing with
          | BotUsernameTaken, Some botID => mret botID
          | _, _ => fail e
          end)
  end.
End provisioning.
