(* ===== verification/BotsTheory.v ===== *)
(** * The bot platform: the theorems on tokens and updates

    A polling bot collects every update once and in order, its backlog is bounded, and a
    token opens its bot exactly while it is live. *)

From stdpp Require Import base tactics list sorting gmap strings.
From Stdlib Require Import ZArith Lia.
From S2P Require Import Prelude GoString Httpx Permissions Store ChatContext RateLimit Ports Payloads MessagingService Social Security NetGuard Bots.

Set Default Goal Selector "!".
Open Scope Z_scope.

Section theory.
Context {G L : Type} `{Digest}.
Implicit Types (d : botdb G L).

(** ** The queue *)

(** Numbers are positive and below the sequence. *)
Definition queue_numbered d : Prop := 0 < bot_updates_seq d ∧ ∀ id, is_Some (bot_updates d !! id) → 0 < id < bot_updates_seq d.

Lemma updates_after_ext botID offset d d' :
  (∀ id, offset < id → bot_updates d' !! id = bot_updates d !! id) → updates_after botID offset d' = updates_after botID offset d.
Proof.
  intros Heq. unfold updates_after.
  apply (StronglySorted_strict_unique fst).
  1,2: apply order_by_strict, NoDup_fst_rows_where.
  intros [id u]. rewrite !elem_of_order_by, !elem_of_rows_where.
  split; intros [Hu Hp]; split; try done; apply andb_true_iff in Hp as [_ Hlt%Z.ltb_lt]; [by rewrite <-Heq|by rewrite Heq].
Qed.
Lemma updates_after_next botID offset id d : offset <= id →
  updates_after botID id d = filter (λ u, id < u.1) (updates_after botID offset d).
Proof.
  intros Hle. unfold updates_after. apply (StronglySorted_strict_unique fst).
  - apply order_by_strict, NoDup_fst_rows_where.
  - apply StronglySorted_key_lt_filter, order_by_strict, NoDup_fst_rows_where.
  - intros [id' u]. rewrite list_elem_of_filter, !elem_of_order_by, !elem_of_rows_where, !andb_true_iff, !Z.ltb_lt. simpl.
    split; [intros (? & ? & ?)|intros (? & ? & ? & ?)]; repeat split; try done; lia.
Qed.
Lemma elem_of_updates_after botID offset d id u :
  (id, u) ∈ updates_after botID offset d ↔ bot_updates d !! id = Some u ∧ pending botID id u = true ∧ offset < id.
Proof. unfold updates_after. rewrite elem_of_order_by, elem_of_rows_where, andb_true_iff, Z.ltb_lt. tauto. Qed.

Definition update_of (u : Z * update_row) : Update := MkUpdate u.1 (up_type u.2) (up_payload u.2).
Lemma Poll_run now botID offset limit d :
  let d' := if 0 <? offset then confirm now botID offset d else d in
  Poll now botID offset limit d = (Ok (update_of <$> take (Z.to_nat limit) (updates_after botID offset d)), d').
Proof.
  unfold Poll. rewrite bind_run. destruct (0 <? offset); [|done]. unfold modify, gets. cbn beta iota. do 4 f_equal.
  apply updates_after_ext. intros id Hid. unfold confirm. simpl. rewrite lookup_update_where.
  destruct (bot_updates d !! id) as [u|]; [|done]. simpl. rewrite (proj2 (Z.leb_gt _ _)) by lia. by rewrite andb_false_r.
Qed.

(** A client that asks for what comes after the last update it was given, until it is given
    none. *)
Fixpoint collect (fuel : nat) (now : time) (botID : uuid) (offset limit : Z) d : list Update * botdb G L :=
  match fuel with
  | O => ([], d)
  | S fuel =>
      match GetUpdates now botID offset limit d with
      | (Ok us, d') =>
          match last us with
          | None => ([], d')
          | Some u => let '(rest, d'') := collect fuel now botID (ud_ID u) limit d' in (us ++ rest, d'')
          end
      | (Err _, d') => ([], d')
      end
  end.
Definition poll_limit (limit : Z) : Z := if (limit <=? 0) || (100 <? limit) then 100 else limit.
Lemma poll_limit_pos limit : (0 < Z.to_nat (poll_limit limit))%nat.
Proof. unfold poll_limit. destruct (_ || _) eqn:E; [lia|]. apply orb_false_iff in E as [?%Z.leb_gt _]. lia. Qed.
Lemma GetUpdates_run now botID offset limit d :
  GetUpdates now botID offset limit d =
    (Ok (update_of <$> take (Z.to_nat (poll_limit limit)) (updates_after botID offset d)), if 0 <? offset then confirm now botID offset d else d).
Proof. unfold GetUpdates, map_err, catch. fold (poll_limit limit). by rewrite Poll_run. Qed.
Lemma confirm_after now botID offset d id : offset < id → bot_updates (confirm now botID offset d) !! id = bot_updates d !! id.
Proof.
  intros Hid. unfold confirm. simpl. rewrite lookup_update_where. destruct (bot_updates d !! id); [|done]. simpl.
  rewrite (proj2 (Z.leb_gt _ _)) by lia. by rewrite andb_false_r.
Qed.
Lemma confirm_not_pending now botID offset d id u : bot_updates (confirm now botID offset d) !! id = Some u →
  pending botID id u = true → offset < id ∧ bot_updates d !! id = Some u.
Proof.
  unfold confirm. simpl. intros Hu Hp. apply lookup_update_where_Some in Hu as (u0 & Hu0 & ->).
  destruct (pending botID id u0) eqn:Hp0; simpl in *; [|by rewrite Hp0 in Hp].
  destruct (id <=? offset) eqn:Hle; [|split; [lia|done]]. unfold pending in Hp. simpl in Hp. by rewrite andb_false_r in Hp.
Qed.

Lemma collect_run fuel now botID offset limit d : 0 <= offset →
  (length (updates_after botID offset d) < fuel)%nat →
  let '(us, d') := collect fuel now botID offset limit d in
  us = update_of <$> updates_after botID offset d ∧
  (∀ id u, bot_updates d' !! id = Some u → pending botID id u = true →
     bot_updates d !! id = Some u ∧ (id <= offset ∧ offset = 0)) ∧
  (∀ id u, bot_updates d !! id = Some u → up_bot u ≠ botID → bot_updates d' !! id = Some u).
Proof.
  revert offset d. induction fuel as [|fuel IH]; intros offset d Hoff Hlen; [lia|]. simpl.
  rewrite GetUpdates_run. set (n := Z.to_nat (poll_limit limit)) in *. pose proof (poll_limit_pos limit : (0 < n)%nat) as Hn.
  set (d1 := if 0 <? offset then confirm now botID offset d else d).
  assert (∀ id, offset < id → bot_updates d1 !! id = bot_updates d !! id) as Hafter.
  { intros id Hid. subst d1. destruct (0 <? offset); [by apply confirm_after|done]. }
  assert (∀ id u, bot_updates d1 !! id = Some u → pending botID id u = true → bot_updates d !! id = Some u ∧ (id <= offset → offset = 0)) as Hpend.
  { intros id u Hu Hp. subst d1. destruct (0 <? offset) eqn:Hpos; [|split; [done|lia]].
    destruct (confirm_not_pending _ _ _ _ _ _ Hu Hp). split; [done|lia]. }
  assert (∀ id u, bot_updates d !! id = Some u → up_bot u ≠ botID → bot_updates d1 !! id = Some u) as Hothers.
  { intros id u Hu Hb. subst d1. destruct (0 <? offset); [|done]. unfold confirm. simpl. rewrite lookup_update_where, Hu. simpl.
    unfold pending. by rewrite bool_decide_false. }
  rewrite fmap_last. destruct (last (take n (updates_after botID offset d))) as [[id u]|] eqn:Hlast.
  - simpl. apply last_Some in Hlast as [l Hl].
    assert (updates_after botID offset d = l ++ (id, u) :: drop n (updates_after botID offset d)) as Hsplit.
    { rewrite <-(take_drop n (updates_after botID offset d)) at 1. rewrite Hl, <-app_assoc. done. }
    assert ((id, u) ∈ updates_after botID offset d) as (Hu & Hp & Hlt)%elem_of_updates_after by (rewrite Hsplit; set_solver).
    assert (updates_after botID id d1 = drop n (updates_after botID offset d)) as Hrest.
    { rewrite (updates_after_ext botID id d d1) by (intros id' Hid'; apply Hafter; lia).
      rewrite (updates_after_next botID offset) by lia. rewrite Hsplit at 1. apply (filter_after_split (fst : Z * update_row → Z) l (id, u)).
      rewrite <-Hsplit. apply order_by_strict, NoDup_fst_rows_where. }
    specialize (IH id d1). destruct (collect fuel now botID id limit d1) as [us d2].
    destruct IH as (-> & Hd2 & Ho2); [lia|rewrite Hrest; apply (f_equal length) in Hsplit; rewrite length_app in Hsplit; simpl in Hsplit; lia|].
    split; [|split].
    + by rewrite Hrest, <-fmap_app, take_drop.
    + intros id' u' Hu' Hp'. destruct (Hd2 id' u' Hu' Hp') as [_ [_ ?]]. lia.
    + intros id' u' Hu' Hb'. apply Ho2; [|done]. by apply Hothers.
  - simpl. apply last_None in Hlast. assert (updates_after botID offset d = []) as Hnil.
    { destruct (updates_after botID offset d); [done|]. destruct n; [lia|done]. }
    split; [by rewrite Hnil|]. split; [|done]. intros id u Hu Hp. destruct (Hpend id u Hu Hp) as [Hu0 Hle].
    destruct (decide (id <= offset)) as [Hid|Hid]; [by auto|]. exfalso.
    assert ((id, u) ∈ updates_after botID offset d) as Hin by (apply elem_of_updates_after; split; [done|]; split; [done|lia]).
    rewrite Hnil in Hin. by apply not_elem_of_nil in Hin.
Qed.

Lemma collect_all now botID fuel limit d us d' : queue_numbered d →
  (Z.to_nat (count_where (pending botID) (bot_updates d)) < fuel)%nat →
  collect fuel now botID 0 limit d = (us, d') →
  us = update_of <$> updates_after botID 0 d ∧
  (∀ id u, bot_updates d' !! id = Some u → pending botID id u = false) ∧
  (∀ id u, bot_updates d !! id = Some u → up_bot u ≠ botID → bot_updates d' !! id = Some u).
Proof.
  intros [_ Hnum] Hfuel Hrun. pose proof (collect_run fuel now botID 0 limit d) as Hall. rewrite Hrun in Hall.
  destruct Hall as (Hus & Hpend & Hothers); [lia| |].
  - eapply Nat.le_lt_trans; [|exact Hfuel]. unfold updates_after, count_where. rewrite order_by_Permutation, Nat2Z.id.
    apply submseteq_length, NoDup_submseteq; [apply NoDup_rows_where|].
    intros [id u] [Hu [Hp _]%andb_true_iff]%elem_of_rows_where. by apply elem_of_rows_where.
  - split; [done|]. split; [|done]. intros id u Hu. destruct (pending botID id u) eqn:Hp; [|done].
    destruct (Hpend id u Hu Hp) as (Hu0 & Hle & _). destruct (Hnum id) as [? _]; [by exists u|]. lia.
Qed.

(** ** The backlog *)

Definition backlog_ok d : Prop := ∀ botID, count_where (pending botID) (bot_updates d) ≤ UpdateBacklog.

Lemma newest_length botID d : (length (newest botID d) ≤ Z.to_nat UpdateBacklog)%nat.
Proof. unfold newest. rewrite length_take. lia. Qed.
Lemma trim_lookup botID d id u : bot_updates (trim_backlog botID d) !! id = Some u ↔
  bot_updates d !! id = Some u ∧ (pending botID id u = true → id ∈ newest botID d).
Proof.
  unfold trim_backlog. simpl. rewrite lookup_delete_where_Some. destruct (pending botID id u); simpl; [|naive_solver].
  rewrite negb_false_iff, bool_decide_eq_true. naive_solver.
Qed.
Lemma trim_count botID d : count_where (pending botID) (bot_updates (trim_backlog botID d)) ≤ UpdateBacklog.
Proof.
  unfold count_where. assert (length (rows_where (pending botID) (bot_updates (trim_backlog botID d))).*1 ≤ Z.to_nat UpdateBacklog)%nat as Hlen.
  { etransitivity; [|apply (newest_length botID d)]. apply submseteq_length, NoDup_submseteq; [apply NoDup_fst_rows_where|].
    intros id Hid. apply list_elem_of_fmap in Hid as ([id' u] & -> & [Hu Hp]%elem_of_rows_where).
    by apply trim_lookup in Hu as [_ Hin]; auto. }
  rewrite length_fmap in Hlen. unfold UpdateBacklog in *. lia.
Qed.
(** What is dropped is older than everything kept. *)
Lemma trim_drops_oldest botID d id u id' u' :
  bot_updates d !! id = Some u → pending botID id u = true → bot_updates (trim_backlog botID d) !! id = None →
  bot_updates (trim_backlog botID d) !! id' = Some u' → pending botID id' u' = true → id < id'.
Proof.
  intros Hu Hp Hgone Hu' Hp'. apply trim_lookup in Hu' as [Hu' Hin']. specialize (Hin' Hp').
  assert (id ∉ newest botID d) as Hout.
  { intros Hin. assert (bot_updates (trim_backlog botID d) !! id = Some u) as Hk by by apply trim_lookup. congruence. }
  assert (id ∈ order_by_desc Datatypes.id (rows_where (pending botID) (bot_updates d)).*1) as Hall.
  { unfold order_by_desc. apply elem_of_order_by. apply elem_of_fst_rows_where. rewrite Hu. simpl. by rewrite Hp. }
  unfold newest in *. revert Hall Hout Hin'. set (n := Z.to_nat UpdateBacklog).
  assert (StronglySorted (key_lt (λ x, - Datatypes.id x)) (order_by_desc Datatypes.id (rows_where (pending botID) (bot_updates d)).*1)) as Hsorted.
  { apply order_by_strict. apply NoDup_fmap_2; [intros x y Hxy; unfold Datatypes.id in Hxy; lia|apply NoDup_fst_rows_where]. }
  revert Hsorted. generalize (order_by_desc Datatypes.id (rows_where (pending botID) (bot_updates d)).*1). intros l Hsorted Hall Hout Hin'.
  rewrite <-(take_drop n l) in Hsorted, Hall. apply elem_of_app in Hall as [|Hdrop]; [done|].
  pose proof (StronglySorted_app_1_elem_of _ _ _ _ _ Hsorted Hin' Hdrop) as Hlt. unfold key_lt, Datatypes.id in Hlt. lia.
Qed.
Inductive queue_op :=
| OpEnqueue (now : time) (botID : uuid) (type : string) (payload : update_payload)
| OpGetUpdates (now : time) (botID : uuid) (offset limit : Z)
| OpMarkDelivered (now : time) (botID : uuid) (ids : list Z).
Definition run_queue_op (op : queue_op) d : botdb G L :=
  match op with
  | OpEnqueue now botID type payload => (Enqueue now botID type payload d).2
  | OpGetUpdates now botID offset limit => (GetUpdates now botID offset limit d).2
  | OpMarkDelivered now botID ids => MarkDelivered now botID ids d
  end.
Definition run_queue_ops (ops : list queue_op) d : botdb G L := foldl (λ d op, run_queue_op op d) d ops.

Lemma Enqueue_run now botID type payload d :
  let d1 := with_bot_updates_seq (bot_updates_seq d + 1) d in
  Enqueue now botID type payload d =
    if negb (bool_decide (type ∈ update_types)) || negb (bool_decide (is_Some (bots d !! botID))) then (Err BotDatabase, d1)
    else (Ok (), trim_backlog botID
      (with_bot_updates (<[bot_updates_seq d := MkUpdateRow botID type payload now None]> (bot_updates d)) d1)).
Proof. unfold Enqueue, next_update_id, in_tx, store_update. cbn beta iota. rewrite bind_run. simpl. by destruct (_ || _). Qed.
(** Settling updates leaves fewer of them. *)
Lemma backlog_settle d d' :
  (∀ id u, bot_updates d' !! id = Some u → up_delivered_at u = None → bot_updates d !! id = Some u) →
  backlog_ok d → backlog_ok d'.
Proof.
  intros Hsub Hok botID. etransitivity; [|apply (Hok botID)]. apply count_where_le. intros id u Hu Hp.
  exists u. split; [|done]. apply Hsub; [done|]. unfold pending in Hp. apply andb_true_iff in Hp as [_ Hp].
  by destruct (up_delivered_at u).
Qed.
Lemma settled_lookup P now d id u :
  update_where P (λ _, with_up_delivered_at (Some now)) (bot_updates d) !! id = Some u → up_delivered_at u = None → bot_updates d !! id = Some u.
Proof. intros (u0 & Hu0 & ->)%lookup_update_where_Some Hnone. by destruct (P id u0). Qed.
Lemma run_queue_op_ok op d : queue_numbered d ∧ backlog_ok d → queue_numbered (run_queue_op op d) ∧ backlog_ok (run_queue_op op d).
Proof.
  intros [[Hseq Hnum] Hok]. destruct op as [now botID type payload|now botID offset limit|now botID ids]; simpl.
  - rewrite Enqueue_run. destruct (_ || _); simpl.
    { split; [|done]. split; simpl; [lia|]. intros id Hid. specialize (Hnum id Hid). lia. }
    set (d1 := with_bot_updates _ _). split.
    + split; [simpl; lia|]. intros id [u [Hu _]%trim_lookup]. subst d1. simpl in *.
      apply lookup_insert_Some in Hu as [[<- _]|[_ Hu]]; [lia|]. destruct (Hnum id); [by eauto|lia].
    + intros bot. destruct (decide (bot = botID)) as [->|Hne]; [apply trim_count|].
      etransitivity; [|apply (Hok bot)]. apply count_where_le. intros id u [Hu _]%trim_lookup Hp. exists u. split; [|done].
      subst d1. simpl in Hu. apply lookup_insert_Some in Hu as [[_ <-]|[_ Hu]]; [|done].
      unfold pending in Hp. simpl in Hp. by rewrite bool_decide_false in Hp.
  - rewrite GetUpdates_run. simpl. destruct (0 <? offset); [|done]. split.
    + split; [done|]. intros id [u Hu]. unfold confirm in Hu. simpl in Hu. apply lookup_update_where_Some in Hu as (u0 & Hu0 & _). eauto.
    + eapply backlog_settle; [|exact Hok]. intros id u. apply settled_lookup.
  - split.
    + split; [done|]. intros id [u Hu]. unfold MarkDelivered in Hu. simpl in Hu. apply lookup_update_where_Some in Hu as (u0 & Hu0 & _). eauto.
    + eapply backlog_settle; [|exact Hok]. intros id u. apply settled_lookup.
Qed.
Lemma run_queue_ops_ok ops d : queue_numbered d ∧ backlog_ok d → queue_numbered (run_queue_ops ops d) ∧ backlog_ok (run_queue_ops ops d).
Proof. revert d. induction ops as [|op ops IH]; intros d Hd; [done|]. by apply IH, run_queue_op_ok. Qed.

(** ** Tokens and limits *)

Definition of_bot (botID : uuid) (_ : uuid) (t : token_row) : bool := bool_decide (tk_bot t = botID) && live_token t.
Definition of_owner (ownerID : uuid) (_ : uuid) (b : bot_row) : bool := bool_decide (bt_owner b = ownerID).
Record registry_ok d : Prop := {
  rg_hashes : ∀ i j t u, bot_tokens d !! i = Some t → bot_tokens d !! j = Some u → tk_hash t = tk_hash u → i = j;
  rg_tokens : ∀ botID, count_where (of_bot botID) (bot_tokens d) ≤ MaxTokensPerBot;
  rg_bots : ∀ ownerID, count_where (of_owner ownerID) (bots d) ≤ MaxBotsPerOwner;
  rg_known : ∀ i t, bot_tokens d !! i = Some t → ∃ b, bots d !! tk_bot t = Some b ∧ bt_is_internal b = false;
}.

Lemma issueToken_Ok now draw botID username label d issued d' : issueToken now draw botID username label d = (Ok issued, d') →
  let row := MkTokenRow botID (HashToken (it_Secret issued)) username label now None None in
  d' = with_bot_tokens (<[td_id draw := row]> (bot_tokens d)) d ∧ bot_tokens d !! td_id draw = None ∧
  (∀ i t, bot_tokens d !! i = Some t → tk_hash t ≠ HashToken (it_Secret issued)) ∧
  (∃ b, bots d !! botID = Some b ∧ bt_is_internal b = false) ∧
  it_Secret issued = username +:+ ":" +:+ td_secret draw.
Proof.
  unfold issueToken. destruct (bots d !! botID) as [b|]; simpl; [|done]. destruct (bt_is_internal b) eqn:Hint; [done|].
  destruct (bool_decide_reflect (is_Some (bot_tokens d !! td_id draw))) as [|Hnew]; [done|]. simpl.
  destruct (0 <? count_where _ (bot_tokens d)) eqn:Hcount; [done|]. intros [= <- <-]. simpl. split; [done|].
  split; [by apply eq_None_not_Some|]. split; [|split; [by exists b|done]].
  intros i t Ht Heq. apply Z.ltb_ge in Hcount.
  pose proof (count_where_nonneg (λ _ t, bool_decide (tk_hash t = HashToken (username +:+ ":" +:+ td_secret draw))) (bot_tokens d)).
  assert (count_where (λ _ t, bool_decide (tk_hash t = HashToken (username +:+ ":" +:+ td_secret draw))) (bot_tokens d) = 0) as Hzero by lia.
  apply count_where_0 with (k := i) (v := t) in Hzero; [|done]. by apply bool_decide_eq_false in Hzero.
Qed.
Lemma registry_ok_same d d' : bots d' = bots d → bot_tokens d' = bot_tokens d → registry_ok d → registry_ok d'.
Proof. intros Hb Ht [H1 H2 H3 H4]. split; rewrite ?Hb, ?Ht; done. Qed.
(** Rewriting token rows that stay where they are and come to life nowhere. *)
Lemma registry_ok_tokens f d :
  (∀ i t, f !! i = Some t → ∃ t0, bot_tokens d !! i = Some t0 ∧ tk_hash t = tk_hash t0 ∧ tk_bot t = tk_bot t0 ∧
     (tk_revoked_at t = None → tk_revoked_at t0 = None)) →
  registry_ok d → registry_ok (with_bot_tokens f d).
Proof.
  intros Hf [H1 H2 H3 H4]. split; simpl.
  - intros i j t u Ht Hu Heq. destruct (Hf i t Ht) as (t0 & Ht0 & Hh & _), (Hf j u Hu) as (u0 & Hu0 & Hh' & _).
    apply (H1 i j t0 u0); congruence.
  - intros botID. etransitivity; [|apply (H2 botID)]. apply count_where_le. intros i t Ht Hp.
    destruct (Hf i t Ht) as (t0 & Ht0 & _ & Hb & Hr). exists t0. split; [done|]. unfold of_bot, live_token in *.
    apply andb_true_iff in Hp as [Hbot Hl]. rewrite <-Hb. apply andb_true_iff. split; [done|].
    destruct (tk_revoked_at t); [done|]. by rewrite Hr.
  - done.
  - intros i t Ht. destruct (Hf i t Ht) as (t0 & Ht0 & _ & Hb & _). destruct (H4 i t0 Ht0) as (b & Hb0 & ?). exists b. by rewrite Hb.
Qed.
Lemma issueToken_ok now draw botID username label d issued d' : registry_ok d → live_tokens botID d < MaxTokensPerBot →
  issueToken now draw botID username label d = (Ok issued, d') → registry_ok d'.
Proof.
  intros [H1 H2 H3 H4] Hlt Hrun. apply issueToken_Ok in Hrun as (-> & Hnew & Hfresh & (b & Hb & Hint) & _).
  set (row := MkTokenRow _ _ _ _ _ _ _). split; simpl.
  - intros i j t u Ht Hu Heq. destruct (decide (td_id draw = i)) as [<-|Hi], (decide (td_id draw = j)) as [<-|Hj]; try done.
    + rewrite lookup_insert_eq in Ht. rewrite lookup_insert_ne in Hu by done. injection Ht as <-. by destruct (Hfresh j u Hu).
    + rewrite lookup_insert_eq in Hu. rewrite lookup_insert_ne in Ht by done. injection Hu as <-. by destruct (Hfresh i t Ht).
    + rewrite lookup_insert_ne in Ht, Hu by done. by apply (H1 i j t u).
  - intros bot. rewrite count_where_insert_new by done. unfold of_bot at 2. simpl. destruct (bool_decide_reflect (botID = bot)) as [->|Hne]; simpl.
    + unfold live_tokens in Hlt. fold (of_bot bot) in Hlt. unfold MaxTokensPerBot in *.
      assert (count_where (of_bot bot) (bot_tokens d) < 5) by exact Hlt. lia.
    + specialize (H2 bot). lia.
  - done.
  - intros i t Ht. destruct (decide (td_id draw = i)) as [<-|Hi].
    + rewrite lookup_insert_eq in Ht. injection Ht as <-. by exists b.
    + rewrite lookup_insert_ne in Ht by done. by apply (H4 i t).
Qed.
Lemma insert_bot_account_Ok id un name d x d' : insert_bot_account id un name d = (Ok x, d') →
  bots d' = bots d ∧ bot_tokens d' = bot_tokens d.
Proof. unfold insert_bot_account. destruct (_ || _ || _); [done|]. by intros [= _ <-]. Qed.
Lemma insert_bot_Ok now id o desc d x d' : insert_bot now id o desc d = (Ok x, d') →
  bots d !! id = None ∧ d' = with_bots (<[id := MkBotRow o desc "" true true false "" true false now]> (bots d)) d.
Proof.
  unfold insert_bot. destruct (bool_decide_reflect (is_Some (bots d !! id))) as [|Hnew]; [done|].
  apply eq_None_not_Some in Hnew. destruct (negb _); [done|]. simpl. by intros [= _ <-].
Qed.
Lemma CreateBot_ok now id draw o un name desc d r d' : registry_ok d → CreateBot now id draw o un name desc d = (Ok r, d') → registry_ok d'.
Proof.
  intros Hok Hrun. unfold CreateBot in Hrun. prog_inv.
  match goal with Hx : insert_bot_account _ _ _ _ = _ |- _ => apply insert_bot_account_Ok in Hx as [Hbots Htokens] end.
  match goal with Hx : insert_bot _ _ _ _ _ = _ |- _ => apply insert_bot_Ok in Hx as [Hnew ->] end.
  rewrite Hbots in Hnew.
  match goal with Hx : issueToken _ _ _ _ _ ?d1 = _ |- _ => set (d2 := d1) in *; rename Hx into Hissue end.
  assert (∀ i t, bot_tokens d !! i = Some t → tk_bot t ≠ id) as Hnone.
  { intros i t Ht Heq. destruct (rg_known _ Hok i t Ht) as (b & Hb & _). congruence. }
  apply (issueToken_ok now draw id un "default" d2 _ _) in Hissue; [done| |].
  - destruct Hok as [H1 H2 H3 H4]. split; subst d2; simpl; rewrite ?Hbots, ?Htokens; try done.
    + intros o'. rewrite count_where_insert_new by done. unfold of_owner at 2. simpl.
      destruct (bool_decide_reflect (o = o')) as [->|]; [|specialize (H3 o'); lia].
      match goal with Hx : (MaxBotsPerOwner <=? _) = false |- _ => apply Z.leb_gt in Hx; rename Hx into Hcount end. unfold MaxBotsPerOwner in *.
      assert (count_where (of_owner o') (bots d) < 20) by exact Hcount. lia.
    + intros i t Ht. destruct (H4 i t Ht) as (b & Hb & ?). exists b. rewrite lookup_insert_ne; [done|]. intros ->. congruence.
  - assert (live_tokens id d2 = 0) as ->; [|done]. apply count_where_0. intros i t Ht. subst d2. simpl in Ht. rewrite Htokens in Ht.
    rewrite bool_decide_false; [done|]. by eapply Hnone.
Qed.

Lemma UpdateSettings_rows botID in_ d r d' : UpdateSettings botID in_ d = (r, d') →
  bot_tokens d' = bot_tokens d ∧ bot_updates d' = bot_updates d ∧ bot_updates_seq d' = bot_updates_seq d ∧
  (bots d' = bots d ∨ ∃ b, bots d !! botID = Some b ∧ bots d' = <[botID := changed_bot in_ b]> (bots d)).
Proof.
  unfold UpdateSettings. rewrite bind_run.
  assert (∀ r1 d1, (match bs_DisplayName in_ with Some name => set_display_name botID name | None => mret () end : prog _ _ _) d = (r1, d1) →
    bots d1 = bots d ∧ bot_tokens d1 = bot_tokens d ∧ bot_updates d1 = bot_updates d ∧ bot_updates_seq d1 = bot_updates_seq d) as Hname.
  { intros r1 d1. destruct (bs_DisplayName in_) as [name|]; [unfold set_display_name; destruct (negb _)|]; by intros [= _ <-]. }
  destruct ((match bs_DisplayName in_ with Some name => _ | None => _ end : prog _ _ _) d) as [[u|e] d1];
    destruct (Hname _ _ eq_refl) as (Hb & Ht & Hu & Hs); [|intros [= _ <-]; auto].
  rewrite bind_run. unfold gets at 1. cbn beta iota. rewrite bind_run. unfold or_fail. rewrite Hb.
  destruct (bots d !! botID) as [b|] eqn:Hrow; [|intros [= _ <-]; auto].
  unfold modify. intros [= _ <-]. simpl. rewrite Hb. repeat (split; [done|]). right. by exists b.
Qed.
Lemma registry_ok_settings botID in_ d r d' : registry_ok d → UpdateSettings botID in_ d = (r, d') → registry_ok d'.
Proof.
  intros Hok Hrun. apply UpdateSettings_rows in Hrun as (Ht & _ & _ & [Hb|(b & Hrow & Hb)]); [by apply (registry_ok_same d)|].
  destruct Hok as [H1 H2 H3 H4]. split; rewrite ?Ht, ?Hb; try done.
  - intros o. rewrite count_where_insert. unfold hits. rewrite Hrow. specialize (H3 o).
    assert (of_owner o botID (changed_bot in_ b) = of_owner o botID b) as -> by done. destruct (of_owner o botID b); lia.
  - intros i t Hi. destruct (H4 i t Hi) as (b' & Hb' & Hint). destruct (decide (botID = tk_bot t)) as [Heq|Hne].
    + rewrite <-Heq in *. exists (changed_bot in_ b). rewrite lookup_insert_eq. split; [done|]. simpl. congruence.
    + exists b'. by rewrite lookup_insert_ne.
Qed.
Lemma Owned_run botID ownerID d : (Owned botID ownerID d).2 = d ∧
  ∀ bot, (Owned botID ownerID d).1 = Ok bot → BotByID botID d = Some bot ∧ bo_OwnerID bot = ownerID.
Proof.
  unfold Owned. rewrite bind_run. unfold gets. cbn beta iota. rewrite bind_run. unfold or_fail.
  destruct (BotByID botID d) as [bot|]; [|simpl; split; [done|]; intros bot Hb; discriminate Hb]. rewrite bind_run. unfold fail_if.
  destruct (bool_decide_reflect (bo_OwnerID bot = ownerID)); simpl; [|split; [done|]; intros bot' Hb; discriminate Hb]. split; [done|]. by intros bot' [= <-].
Qed.
(** A handler behind [Owned] changes what its body changes. *)
Lemma Owned_then {B} botID ownerID (f : Bot → prog (botdb G L) Error B) d :
  ((Owned botID ownerID ≫= f) d).2 = d ∨ ∃ bot, BotByID botID d = Some bot ∧ bo_OwnerID bot = ownerID ∧ (Owned botID ownerID ≫= f) d = f bot d.
Proof.
  rewrite bind_run. destruct (Owned_run botID ownerID d) as [Hs Hok]. destruct (Owned botID ownerID d) as [[bot|e] d1]; simpl in *; subst d1.
  - right. exists bot. by destruct (Hok bot).
  - by left.
Qed.
Lemma token_with_hash_Some hash d i t : token_with_hash hash d = Some (i, t) →
  bot_tokens d !! i = Some t ∧ tk_hash t = hash ∧ tk_revoked_at t = None.
Proof.
  unfold token_with_hash. intros Hhead. apply head_Some_elem_of in Hhead. apply elem_of_rows_where in Hhead as [Ht Hp].
  apply andb_true_iff in Hp as [Hh%bool_decide_eq_true Hl]. unfold live_token in Hl. by destruct (tk_revoked_at t).
Qed.
Lemma token_with_hash_live hash d i t : registry_ok d → bot_tokens d !! i = Some t → tk_hash t = hash → tk_revoked_at t = None →
  token_with_hash hash d = Some (i, t).
Proof.
  intros Hok Ht Hh Hl.
  assert ((i, t) ∈ rows_where (λ _ t, bool_decide (tk_hash t = hash) && live_token t) (bot_tokens d)) as Hin.
  { apply elem_of_rows_where. split; [done|]. unfold live_token. rewrite Hl, Hh. by rewrite bool_decide_true. }
  destruct (token_with_hash hash d) as [[j u]|] eqn:Hr.
  - destruct (token_with_hash_Some _ _ _ _ Hr) as (Hu & Hh' & _). assert (j = i) as -> by (apply (rg_hashes _ Hok j i u t); congruence).
    congruence.
  - unfold token_with_hash in Hr. destruct (rows_where _ _); [by apply not_elem_of_nil in Hin|done].
Qed.
Lemma Authenticate_run now token d :
  Authenticate now token d =
    match token_with_hash (HashToken token) d with
    | None => (Err ErrInvalidToken, d)
    | Some (i, t) =>
        let d1 := with_bot_tokens (<[i := with_tk_last_used_at (Some now) t]> (bot_tokens d)) d in
        match BotByID (tk_bot t) d with
        | None => (Err BotNotFound, d1)
        | Some bot => if bo_IsActive bot then (Ok bot, d1) else (Err ErrInvalidToken, d1)
        end
    end.
Proof.
  unfold Authenticate. rewrite bind_run. unfold gets at 1. cbn beta iota. rewrite bind_run. unfold or_fail at 1.
  destruct (token_with_hash (HashToken token) d) as [[i t]|]; [|done]. rewrite bind_run. unfold modify at 1. cbn beta iota.
  rewrite bind_run. unfold gets at 1. cbn beta iota. rewrite bind_run. unfold or_fail. simpl.
  assert (BotByID (tk_bot t) (with_bot_tokens (<[i:=with_tk_last_used_at (Some now) t]> (bot_tokens d)) d) = BotByID (tk_bot t) d) as -> by done.
  destruct (BotByID (tk_bot t) d) as [bot|]; [|done]. rewrite bind_run. unfold fail_if. by destruct (bo_IsActive bot).
Qed.

Inductive bot_op :=
| OpRegister (now : time) (id : uuid) (draw : token_draw) (owner : uuid) (username name description : string)
| OpBotSettings (botID owner : uuid) (in_ : BotSettings)
| OpIssueToken (now : time) (draw : token_draw) (botID owner : uuid) (label : string)
| OpRevokeToken (now : time) (botID owner tokenID : uuid)
| OpRevokeAll (now : time) (botID : uuid)
| OpAuthenticate (now : time) (token : string)
| OpSetCommands (botID : uuid) (commands : list Command)
| OpQueue (op : queue_op)
| OpRest (graph : socialdb) (w : world G L).
Definition run_bot_op (op : bot_op) d : botdb G L :=
  match op with
  | OpRegister now id draw owner username name description => (Register now id draw owner username name description d).2
  | OpBotSettings botID owner in_ => (Service_UpdateSettings botID owner in_ d).2
  | OpIssueToken now draw botID owner label => (Service_IssueToken now draw botID owner label d).2
  | OpRevokeToken now botID owner tokenID => (Service_RevokeToken now botID owner tokenID d).2
  | OpRevokeAll now botID => RevokeAllTokens now botID d
  | OpAuthenticate now token => (Authenticate now token d).2
  | OpSetCommands botID commands => (Service_SetCommands botID commands d).2
  | OpQueue op => run_queue_op op d
  | OpRest graph w => with_bd_world w (with_bd_graph graph d)
  end.
Definition run_bot_ops (ops : list bot_op) d : botdb G L := foldl (λ d op, run_bot_op op d) d ops.

Lemma IssueToken_ok now draw botID label d issued d' : registry_ok d → IssueToken now draw botID label d = (Ok issued, d') → registry_ok d'.
Proof.
  intros Hok Hrun. unfold IssueToken in Hrun. prog_inv.
  match goal with Hx : issueToken _ _ _ _ _ _ = _ |- _ => apply (issueToken_ok _ _ _ _ _ _ _ _ Hok) in Hx; [exact Hx|] end.
  match goal with Hx : (MaxTokensPerBot <=? _) = false |- _ => by apply Z.leb_gt in Hx end.
Qed.
Lemma insert_commands_rows botID l d :
  bots (for_each l (λ ic : Z * Command, insert_command botID ic.1 ic.2) d).2 = bots d ∧
  bot_tokens (for_each l (λ ic : Z * Command, insert_command botID ic.1 ic.2) d).2 = bot_tokens d.
Proof.
  revert d. induction l as [|[i c] l IH]; intros d; [done|]. simpl. rewrite bind_run. unfold insert_command at 1 3. cbn beta iota zeta.
  destruct (negb (commandPattern _)); [done|]. destruct (_ || _); [done|]. cbn beta iota.
  match goal with |- context [for_each l _ ?d1] => by destruct (IH d1) as [-> ->] end.
Qed.
Lemma SetCommands_rows botID commands d : bots (SetCommands botID commands d).2 = bots d ∧ bot_tokens (SetCommands botID commands d).2 = bot_tokens d.
Proof.
  unfold SetCommands, in_tx. rewrite bind_run. unfold modify. cbn beta iota.
  match goal with |- context [for_each ?l _ ?d1] => pose proof (insert_commands_rows botID l d1) as Hrows end.
  destruct (for_each _ _ _) as [[u|e] d2]; [exact Hrows|done].
Qed.

Lemma run_bot_op_ok op d : registry_ok d → registry_ok (run_bot_op op d).
Proof.
  intros Hok. destruct op as [now id draw owner un name desc|botID owner in_|now draw botID owner label|now botID owner tokenID|now botID|now token|botID commands|op|graph w]; simpl.
  - unfold Register. rewrite bind_run. destruct (check_bot un name) as [[handle nm]|]; [|done]. rewrite map_err_snd.
    destruct (CreateBot now id draw owner handle nm desc d) as [[r|e] d'] eqn:Hrun; [by eapply CreateBot_ok|].
    unfold CreateBot in Hrun. apply in_tx_Err in Hrun. by subst d'.
  - unfold Service_UpdateSettings.
    match goal with |- context [(Owned ?b ?o ≫= ?f) d] => destruct (Owned_then b o f d) as [->|(bot & _ & _ & ->)]; [done|] end.
    rewrite bind_run. unfold fail_if. destruct (from_option _ _ _); [done|]. cbn beta iota. rewrite map_err_snd.
    destruct (UpdateSettings botID in_ d) as [r d'] eqn:Hrun. by eapply registry_ok_settings.
  - unfold Service_IssueToken.
    match goal with |- context [(Owned ?b ?o ≫= ?f) d] => destruct (Owned_then b o f d) as [->|(bot & _ & _ & ->)]; [done|] end.
    rewrite map_err_snd. destruct (IssueToken now draw botID label d) as [[r|e] d'] eqn:Hrun; [by eapply IssueToken_ok|].
    unfold IssueToken in Hrun. apply in_tx_Err in Hrun. by subst d'.
  - unfold Service_RevokeToken.
    match goal with |- context [(Owned ?b ?o ≫= ?f) d] => destruct (Owned_then b o f d) as [->|(bot & _ & _ & ->)]; [done|] end.
    rewrite map_err_snd. unfold RevokeToken. destruct (hits _ _ _); [|done]. apply registry_ok_tokens; [|done].
    intros i t (t0 & Ht0 & ->)%lookup_update_where_Some. exists t0. by case_bool_decide.
  - apply registry_ok_tokens; [|done]. intros i t (t0 & Ht0 & ->)%lookup_update_where_Some. exists t0. by destruct (_ && _).
  - rewrite Authenticate_run. destruct (token_with_hash _ d) as [[i t]|] eqn:Ht; [|done].
    apply token_with_hash_Some in Ht as (Ht & _ & _).
    assert (registry_ok (with_bot_tokens (<[i:=with_tk_last_used_at (Some now) t]> (bot_tokens d)) d)) as Hok1.
    { apply registry_ok_tokens; [|done]. intros j u Hu. destruct (decide (i = j)) as [<-|Hne].
      - rewrite lookup_insert_eq in Hu. injection Hu as <-. by exists t.
      - rewrite lookup_insert_ne in Hu by done. by exists u. }
    destruct (BotByID (tk_bot t) d) as [bot|]; [|done]. by destruct (bo_IsActive bot).
  - unfold Service_SetCommands. rewrite bind_run. unfold fail_if. destruct (MaxCommands <? _); [done|]. cbn beta iota.
    rewrite bind_run. destruct (head (omap check_command commands)); [done|]. cbn beta iota. rewrite map_err_snd.
    by apply (registry_ok_same d); [apply SetCommands_rows..|].
  - destruct op as [now botID type payload|now botID offset limit|now botID ids]; simpl.
    + rewrite Enqueue_run. by destruct (_ || _); apply (registry_ok_same d).
    + rewrite GetUpdates_run. simpl. by destruct (0 <? offset); apply (registry_ok_same d).
    + by apply (registry_ok_same d).
  - by apply (registry_ok_same d).
Qed.
Lemma run_bot_ops_ok ops d : registry_ok d → registry_ok (run_bot_ops ops d).
Proof. revert d. induction ops as [|op ops IH]; intros d Hok; [done|]. by apply IH, run_bot_op_ok. Qed.

(** ** Properties *)

(** C27: A bot that polls collects its whole queue: asking again from the last number it was
    given until nothing comes back, whatever page size it asks for, it is handed every update
    that was waiting, each once and in the order of their numbers; when it is done nothing is
    left waiting for it, and no other bot's queue has changed. *)
Theorem polling_collects_every_update now botID fuel limit d us d' : queue_numbered d →
  (Z.to_nat (count_where (pending botID) (bot_updates d)) < fuel)%nat →
  collect fuel now botID 0 limit d = (us, d') →
  (∀ id u, bot_updates d !! id = Some u → pending botID id u = true → MkUpdate id (up_type u) (up_payload u) ∈ us) ∧
  (∀ u, u ∈ us → ∃ row, bot_updates d !! ud_ID u = Some row ∧ pending botID (ud_ID u) row = true) ∧
  StronglySorted Z.lt (ud_ID <$> us) ∧
  (∀ id u, bot_updates d' !! id = Some u → pending botID id u = false) ∧
  (∀ id u, bot_updates d !! id = Some u → up_bot u ≠ botID → bot_updates d' !! id = Some u).
Proof.
  intros Hnum Hfuel Hrun. destruct (collect_all _ _ _ _ _ _ _ Hnum Hfuel Hrun) as (-> & Hleft & Hothers).
  split; [|split; [|split; [|done]]].
  - intros id u Hu Hp. apply (list_elem_of_fmap_2 update_of _ (id, u)), elem_of_updates_after.
    destruct Hnum as [_ Hnum]. destruct (Hnum id); [by exists u|]. split; [done|]. split; [done|lia].
  - intros u ([id row] & -> & (Hrow & Hp & _)%elem_of_updates_after)%list_elem_of_fmap. by exists row.
  - rewrite <-list_fmap_compose. apply (StronglySorted_key_fmap fst), order_by_strict, NoDup_fst_rows_where.
Qed.

(** The queue of a bot that never collects stops growing.  Under any sequence of new
    updates, polls and webhook confirmations every bot has at most 10000 updates waiting, and
    when a new one takes it past that, what is dropped is older than everything that is kept. *)
Lemma backlog_is_bounded ops d : queue_numbered d → backlog_ok d →
  (∀ botID, count_where (pending botID) (bot_updates (run_queue_ops ops d)) ≤ UpdateBacklog) ∧
  ∀ now botID type payload d2, let d1 := run_queue_ops ops d in
    Enqueue now botID type payload d1 = (Ok (), d2) →
    ∀ id u id' u', bot_updates d1 !! id = Some u → pending botID id u = true → bot_updates d2 !! id = None →
      bot_updates d2 !! id' = Some u' → pending botID id' u' = true → id < id'.
Proof.
  intros Hnum Hok. destruct (run_queue_ops_ok ops d) as [Hnum1 Hok1]; [done|]. split; [exact Hok1|].
  intros now botID type payload d2 d1 Hrun id u id' u' Hu Hp. rewrite Enqueue_run in Hrun.
  destruct (_ || _); [done|]. injection Hrun as <-. apply (trim_drops_oldest botID _ id u id' u'); [|done].
  simpl. destruct Hnum1 as [_ Hnum1]. destruct (Hnum1 id) as [_ Hlt]; [by exists u|]. by rewrite lookup_insert_ne by (fold d1 in Hlt; lia).
Qed.

(** A token opens its bot exactly while it is live.  Whatever was registered, issued and
    revoked before, a string is accepted if and only if its hash is that of a token that is
    not revoked, whose bot is active and its account not deleted; nobody owns more than 20
    bots and no bot has more than 5 live tokens; and after all tokens of a bot are revoked and
    one issued in their place, nothing whose hash is not the new token's opens that bot, and
    the new token does. *)
Lemma tokens_open_their_bot ops d0 now draw botID label : registry_ok d0 → let d := run_bot_ops ops d0 in
  (∀ ownerID, count_where (of_owner ownerID) (bots d) ≤ MaxBotsPerOwner) ∧
  (∀ bot, live_tokens bot d ≤ MaxTokensPerBot) ∧
  (∀ token bot, (Authenticate now token d).1 = Ok bot ↔
     ∃ i t, bot_tokens d !! i = Some t ∧ tk_hash t = HashToken token ∧ tk_revoked_at t = None ∧
       BotByID (tk_bot t) d = Some bot ∧ bo_IsActive bot = true) ∧
  (∀ issued d2, IssueToken now draw botID label (RevokeAllTokens now botID d) = (Ok issued, d2) →
     (∀ token bot, (Authenticate now token d2).1 = Ok bot → bo_UserID bot = botID → HashToken token = HashToken (it_Secret issued)) ∧
     (∀ bot, BotByID botID d = Some bot → bo_IsActive bot = true → (Authenticate now (it_Secret issued) d2).1 = Ok bot)).
Proof.
  intros Hok0 d. assert (registry_ok d) as Hok by by apply run_bot_ops_ok. clearbody d. clear ops d0 Hok0.
  assert (∀ d token bot, registry_ok d → (Authenticate now token d).1 = Ok bot ↔
     ∃ i t, bot_tokens d !! i = Some t ∧ tk_hash t = HashToken token ∧ tk_revoked_at t = None ∧
       BotByID (tk_bot t) d = Some bot ∧ bo_IsActive bot = true) as Hauth.
  { clear d Hok. intros d token bot Hok. rewrite Authenticate_run. split.
    - destruct (token_with_hash _ d) as [[i t]|] eqn:Ht; [|done]. apply token_with_hash_Some in Ht as (Ht & Hh & Hl).
      destruct (BotByID (tk_bot t) d) as [bot'|] eqn:Hb; [|done]. destruct (bo_IsActive bot') eqn:Ha; [|done]. intros [= ->].
      by exists i, t.
    - intros (i & t & Ht & Hh & Hl & Hb & Ha). rewrite (token_with_hash_live _ d i t) by done. by rewrite Hb, Ha. }
  split; [apply Hok|]. split; [apply Hok|]. split; [by intros; apply Hauth|].
  intros issued d2 Hrun. set (d1 := RevokeAllTokens now botID d) in *.
  assert (registry_ok d1) as Hok1.
  { apply registry_ok_tokens; [|done]. intros i t (t0 & Ht0 & ->)%lookup_update_where_Some. exists t0. by destruct (_ && _). }
  pose proof (IssueToken_ok _ _ _ _ _ _ _ Hok1 Hrun) as Hok2. unfold IssueToken in Hrun. prog_inv.
  match goal with Hx : issueToken _ _ _ _ _ _ = _ |- _ => apply issueToken_Ok in Hx as (-> & Hnew & Hfresh & _ & _) end.
  split.
  - intros token bot (i & t & Ht & Hh & Hl & Hb & _)%Hauth Hid; [|done]. simpl in Ht. destruct (decide (td_id draw = i)) as [<-|Hne].
    + rewrite lookup_insert_eq in Ht. injection Ht as <-. simpl in Hh. done.
    + rewrite lookup_insert_ne in Ht by done. exfalso.
      assert (tk_bot t = botID) as Hbot.
      { unfold BotByID in Hb. destruct (bots _ !! tk_bot t); [|done]. simpl in Hb. destruct (accounts _ !! tk_bot t) as [a|]; [|done].
        simpl in Hb. destruct (live_account a); [|done]. injection Hb as <-. done. }
      subst d1. unfold RevokeAllTokens in Ht. simpl in Ht. apply lookup_update_where_Some in Ht as (t0 & _ & ->).
      destruct (bool_decide (tk_bot t0 = botID) && live_token t0) eqn:Hlive; [done|].
      rewrite bool_decide_true in Hlive by done. unfold live_token in Hlive. simpl in Hlive. by rewrite Hl in Hlive.
  - intros bot Hb Ha. apply Hauth; [done|]. eexists (td_id draw), _. simpl. rewrite lookup_insert_eq. split; [done|]. simpl.
    split; [done|]. split; [done|]. split; [exact Hb|done].
Qed.
End theory.

(** ** Concrete runs *)

Definition bot_digest : Digest := {| sha256 := λ bs, bs |}.
#[local] Existing Instance bot_digest.
Definition person_account (name : string) : account_row := MkAccount (Some name) name [] "active" false false None None None.
Definition platform_start : botdb unit unit :=
  MkBotDb (MkWorld empty_db None tt 0 []) (MkSocialDb {[1%N := person_account "ada"]} ∅ ∅ ∅ ∅ ∅ ∅) ∅ ∅ ∅ ∅ ∅ 1 ∅ ∅ ∅ [].
Lemma platform_registry : registry_ok platform_start.
Proof.
  split; simpl; [intros i j t u Ht|intros b; vm_compute; discriminate|intros b; vm_compute; discriminate|intros i t Ht];
    by rewrite lookup_empty in Ht.
Qed.
(** Account 1 registers a bot, and two updates come in for it. *)
Definition weather : list (bot_op (G := unit) (L := unit)) :=
  [OpRegister 5 100 (MkTokenDraw 200 "s3cret") 1 "@Weather_Bot" "Weather" "";
   OpQueue (OpEnqueue 6 100 UpdateInlineQuery (UInline 7 1 "rain" ""));
   OpQueue (OpEnqueue 7 100 UpdateInlineQuery (UInline 8 1 "snow" ""))].
Definition weather_day : botdb unit unit := run_bot_ops weather platform_start.
Example weather_registered :
  (ListForOwner 1 weather_day ≫= λ b, [(bo_UserID b, bo_Username b)], ListTokens 100 weather_day ≫= λ t, [to_Prefix t],
   bo_UserID <$> (match (Authenticate 9 "weather_bot:s3cret" weather_day).1 with Ok b => Some b | Err _ => None end))
  = ([(100%N, Some "weather_bot"%string)], ["weather_bot"%string], Some 100%N).
Proof. vm_compute. reflexivity. Qed.

Definition weather_queue : list queue_op :=
  [OpEnqueue 6 100 UpdateInlineQuery (UInline 7 1 "rain" ""); OpEnqueue 7 100 UpdateInlineQuery (UInline 8 1 "snow" "")].
Definition weather_bot : botdb unit unit := run_bot_ops (take 1 weather) platform_start.
Lemma weather_bot_queue : queue_numbered weather_bot ∧ backlog_ok weather_bot.
Proof.
  assert (bot_updates weather_bot = ∅) as Hempty by (vm_compute; reflexivity).
  split; [split; [vm_compute; reflexivity|]|].
  - intros id [u Hu]. by rewrite Hempty, lookup_empty in Hu.
  - intros botID. unfold backlog_ok. rewrite Hempty. vm_compute. discriminate.
Qed.
Lemma weather_day_numbered : queue_numbered weather_day.
Proof.
  assert (weather_day = run_queue_ops weather_queue weather_bot) as -> by (vm_compute; reflexivity).
  apply run_queue_ops_ok, weather_bot_queue.
Qed.
Lemma polling_collects_every_update_witness :
  let c := collect 3 9 100 0 1 weather_day in
  (∀ id u, bot_updates weather_day !! id = Some u → pending 100 id u = true → MkUpdate id (up_type u) (up_payload u) ∈ c.1) ∧
  (∀ u, u ∈ c.1 → ∃ row, bot_updates weather_day !! ud_ID u = Some row ∧ pending 100 (ud_ID u) row = true) ∧
  StronglySorted Z.lt (ud_ID <$> c.1) ∧
  (∀ id u, bot_updates c.2 !! id = Some u → pending 100 id u = false) ∧
  (∀ id u, bot_updates weather_day !! id = Some u → up_bot u ≠ 100%N → bot_updates c.2 !! id = Some u).
Proof.
  intros c. apply (polling_collects_every_update 9 100 3 1 weather_day c.1 c.2); [exact weather_day_numbered|vm_compute; lia|].
  apply surjective_pairing.
Defined.
Example weather_collected : ud_ID <$> (collect 3 9 100 0 1 weather_day).1 = [1; 2].
Proof. vm_compute. reflexivity. Qed.

Lemma backlog_is_bounded_witness :
  let ops := [OpEnqueue 6 100 UpdateInlineQuery (UInline 7 1 "rain" ""); OpGetUpdates 7 100 0 5; OpMarkDelivered 8 100 [1]] in
  (∀ botID, count_where (pending botID) (bot_updates (run_queue_ops ops weather_day)) ≤ UpdateBacklog) ∧
  ∀ now botID type payload d2, let d1 := run_queue_ops ops weather_day in
    Enqueue now botID type payload d1 = (Ok (), d2) →
    ∀ id u id' u', bot_updates d1 !! id = Some u → pending botID id u = true → bot_updates d2 !! id = None →
      bot_updates d2 !! id' = Some u' → pending botID id' u' = true → id < id'.
Proof.
  intros ops. apply (backlog_is_bounded ops weather_day weather_day_numbered).
  intros botID. unfold count_where. assert (length (rows_where (pending botID) (bot_updates weather_day)) ≤ 2)%nat as Hlen.
  { etransitivity; [apply length_filter|]. vm_compute. lia. }
  unfold UpdateBacklog. lia.
Defined.

Lemma tokens_open_their_bot_witness : let d := run_bot_ops weather platform_start in
  (∀ ownerID, count_where (of_owner ownerID) (bots d) ≤ MaxBotsPerOwner) ∧
  (∀ bot, live_tokens bot d ≤ MaxTokensPerBot) ∧
  (∀ token bot, (Authenticate 9 token d).1 = Ok bot ↔
     ∃ i t, bot_tokens d !! i = Some t ∧ tk_hash t = HashToken token ∧ tk_revoked_at t = None ∧
       BotByID (tk_bot t) d = Some bot ∧ bo_IsActive bot = true) ∧
  (∀ issued d2, IssueToken 9 (MkTokenDraw 201 "n3w") 100 "botfather" (RevokeAllTokens 9 100 d) = (Ok issued, d2) →
     (∀ token bot, (Authenticate 9 token d2).1 = Ok bot → bo_UserID bot = 100%N → HashToken token = HashToken (it_Secret issued)) ∧
     (∀ bot, BotByID 100 d = Some bot → bo_IsActive bot = true → (Authenticate 9 (it_Secret issued) d2).1 = Ok bot)).
Proof. exact (tokens_open_their_bot weather platform_start 9 (MkTokenDraw 201 "n3w") 100 "botfather" platform_registry). Defined.

(** A poll confirms everything up to its offset, handed over or not: an update that took its
    number before the last one handed over and was committed after it is settled unseen. *)
Lemma late_commits_are_lost {G L} `{Digest} now botID n u limit (d : botdb G L) :
  0 < n → pending botID n u = true → bot_updates d !! n = None →
  let d1 := with_bot_updates (<[n := u]> (bot_updates d)) d in
  ∀ last, n < last → ∀ us d2, GetUpdates now botID last limit d1 = (Ok us, d2) →
    n ∉ ud_ID <$> us ∧ ∃ u', bot_updates d2 !! n = Some u' ∧ up_delivered_at u' = Some now.
Proof.
  intros Hn Hp Hnew d1 last Hlast us d2 Hrun. rewrite GetUpdates_run in Hrun. injection Hrun as <- <-. split.
  - intros (x & Heq & (y & -> & Hy)%list_elem_of_fmap)%list_elem_of_fmap. simpl in Heq. subst n.
    apply elem_of_take in Hy as (i & Hy & _). apply list_elem_of_lookup_2 in Hy. destruct y as [id row].
    apply elem_of_updates_after in Hy as (_ & _ & Hlt). simpl in *. lia.
  - rewrite (proj2 (Z.ltb_lt _ _)) by lia. unfold confirm. simpl. rewrite lookup_update_where, lookup_insert_eq. simpl.
    rewrite Hp, (proj2 (Z.leb_le _ _)) by lia. simpl. by eexists.
Qed.

(** A command written with its slash passes the check of the service and is refused by the
    column it is stored in. *)
Example slashed_commands_are_refused :
  check_command (MkCommand "/start" "begin" 0 None) = None ∧
  (Service_SetCommands 100 [MkCommand "/start" "begin" 0 None] weather_day).1
    = Err (WithField (Validation "A command name is not valid") "commands" "use a-z, 0-9 and _").
Proof. vm_compute. done. Qed.
