(* ===== verification/BotFatherTheory.v ===== *)
(** * Bots that listen: the theorems on the observer and on BotFather

    A message reaches exactly the bots it concerns; BotFather changes nobody's bots but the
    sender's, and answers in private chats only. *)

From stdpp Require Import base tactics list sorting gmap strings.
From Stdlib Require Import ZArith Lia.
From S2P Require Import Prelude GoString Httpx Permissions Store ChatContext RateLimit Ports Payloads MessagingService Social Security NetGuard Bots BotKeyboard BotObserver BotFather Steps Antispam MessageTheory MessagingTheory BotsTheory.

Set Default Goal Selector "!".
Open Scope Z_scope.

Section observer.
Context {G L : Type} `{Digest}.
Context (internal : uuid → option (InternalMessage → botdb G L → botdb G L)).
Implicit Types (d : botdb G L).

(** What a bot answered in the process may not touch: the queues, and bots go away. *)
Record quiet d d' : Prop := {
  qt_updates : bot_updates d' = bot_updates d;
  qt_seq : bot_updates_seq d' = bot_updates_seq d;
  qt_bots : ∀ b, is_Some (bots d !! b) → is_Some (bots d' !! b);
}.
Lemma quiet_refl d : quiet d d.
Proof. done. Qed.
Lemma quiet_trans d1 d2 d3 : quiet d1 d2 → quiet d2 d3 → quiet d1 d3.
Proof. intros [H1 H2 H3] [K1 K2 K3]. split; [congruence|congruence|auto]. Qed.
Definition internal_quiet : Prop := ∀ botID handler m d, internal botID = Some handler → quiet d (handler m d).

Definition message_update (now : time) (cx : ChatContext) (m : Message) (command : option CommandCall) (b : uuid) : update_row :=
  MkUpdateRow b UpdateMessage (UMessage (mChatID m) (ctx_chat_type cx) m command) now None.

(** The newest update of a bot survives its own trim. *)
Lemma trim_keeps_newest botID d id u : bot_updates d !! id = Some u → pending botID id u = true →
  (∀ id', is_Some (bot_updates d !! id') → id' <= id) → bot_updates (trim_backlog botID d) !! id = Some u.
Proof.
  intros Hu Hp Hmax. apply trim_lookup. split; [done|]. intros _. unfold newest.
  set (l := order_by_desc Datatypes.id (rows_where (pending botID) (bot_updates d)).*1).
  assert (id ∈ l) as Hin by (apply elem_of_order_by, elem_of_fst_rows_where; by rewrite Hu; simpl; rewrite Hp).
  assert (StronglySorted (key_le (λ x, - Datatypes.id x)) l) as Hsorted by apply order_by_sorted.
  assert (∀ x, x ∈ l → x <= id) as Hle.
  { intros x Hx. apply elem_of_order_by, elem_of_fst_rows_where, fmap_Some in Hx as (v & Hv & _). apply Hmax. by exists v. }
  clearbody l. destruct l as [|x l]; [by apply not_elem_of_nil in Hin|].
  assert (x = id) as ->.
  { apply elem_of_cons in Hin as [|Hin]; [done|]. apply StronglySorted_inv in Hsorted as [_ Hall].
    rewrite Forall_forall in Hall. specialize (Hall id Hin). unfold key_le, Datatypes.id in Hall.
    specialize (Hle x (list_elem_of_here _ _)). lia. }
  destruct (Z.to_nat UpdateBacklog) eqn:Hn; [done|]. simpl. by left.
Qed.

Record enqueued (b : uuid) (row : update_row) d d' : Prop := {
  en_seq : bot_updates_seq d' = bot_updates_seq d + 1;
  en_numbered : queue_numbered d';
  en_new : bot_updates d' !! bot_updates_seq d = Some row;
  en_old : ∀ id u, bot_updates d' !! id = Some u → bot_updates d !! id = Some u ∨ u = row;
  en_others : ∀ id u, bot_updates d !! id = Some u → up_bot u ≠ b → bot_updates d' !! id = Some u;
  en_bots : ∀ b', is_Some (bots d !! b') → is_Some (bots d' !! b');
}.
Lemma Enqueue_enqueued now b payload d : queue_numbered d → is_Some (bots d !! b) →
  ∃ d', Enqueue now b UpdateMessage payload d = (Ok (), d') ∧ enqueued b (MkUpdateRow b UpdateMessage payload now None) d d'.
Proof.
  intros [Hseq Hnum] Hb. rewrite Enqueue_run. rewrite (bool_decide_true (is_Some _)) by done.
  assert (bool_decide (UpdateMessage ∈ update_types) = true) as -> by (vm_compute; reflexivity). simpl. eexists. split; [done|].
  set (row := MkUpdateRow b UpdateMessage payload now None).
  set (d1 := with_bot_updates _ _).
  assert (∀ id u, bot_updates d1 !! id = Some u → bot_updates d !! id = Some u ∨ (id = bot_updates_seq d ∧ u = row)) as Hd1.
  { intros id u Hu. subst d1. simpl in Hu. destruct (decide (bot_updates_seq d = id)) as [<-|Hne].
    - rewrite lookup_insert_eq in Hu. injection Hu as <-. by right.
    - rewrite lookup_insert_ne in Hu by done. by left. }
  split; [done| | | | |done].
  - split; [simpl; lia|]. intros id [u [Hu _]%trim_lookup]. simpl. destruct (Hd1 id u Hu) as [Hu0|[-> _]]; [|lia].
    destruct (Hnum id); [by exists u|lia].
  - apply trim_keeps_newest.
    + subst d1. simpl. apply lookup_insert_eq.
    + unfold pending. subst row. simpl. by rewrite bool_decide_true.
    + intros id [u Hu]. destruct (Hd1 id u Hu) as [Hu0|[-> _]]; [|lia]. destruct (Hnum id); [by exists u|lia].
  - intros id u [Hu _]%trim_lookup. destruct (Hd1 id u Hu) as [|[_ ->]]; auto.
  - intros id u Hu Hne. apply trim_lookup. split.
    + subst d1. simpl. rewrite lookup_insert_ne; [done|]. intros <-. destruct (Hnum (bot_updates_seq d)); [by exists u|lia].
    + unfold pending. by rewrite bool_decide_false.
Qed.
Lemma enqueued_quiet b row d d1 d2 : enqueued b row d d1 → quiet d1 d2 → enqueued b row d d2.
Proof.
  intros [E1 [E2 E2'] E3 E4 E5 E6] [Q1 Q2 Q3]. split; rewrite ?Q1, ?Q2; auto. split; rewrite ?Q1, ?Q2; auto.
Qed.
Lemma enqueueUpdate_enqueued now b cx m command d : internal_quiet → queue_numbered d → is_Some (bots d !! b) → b ≠ uuid_nil →
  enqueued b (message_update now cx m command b) d (enqueueUpdate internal now b cx m command d).
Proof.
  intros Hq Hnum Hb Hnil. unfold enqueueUpdate. rewrite decide_False by done.
  destruct (Enqueue_enqueued now b (UMessage (mChatID m) (ctx_chat_type cx) m command) d) as (d1 & -> & Hen); [done..|].
  destruct (internal b) as [handler|] eqn:Hint; [|exact Hen]. eapply enqueued_quiet; [exact Hen|].
  unfold runInternal. destruct (mSenderID m); [by eapply Hq|apply quiet_refl].
Qed.

(** Telling a list of bots, the sender left out. *)
Definition tell (now : time) (cx : ChatContext) (m : Message) (command : option CommandCall) (sender : uuid) (l : list uuid) d : botdb G L :=
  foldl (λ d botID, if decide (botID = sender) then d else enqueueUpdate internal now botID cx m command d) d l.
Lemma tell_run now cx m command sender l d : internal_quiet → queue_numbered d → NoDup l →
  (∀ b, b ∈ l → is_Some (bots d !! b)) →
  let d' := tell now cx m command sender l d in
  (∀ id u, bot_updates d' !! id = Some u →
     bot_updates d !! id = Some u ∨ ∃ b, b ∈ l ∧ b ≠ sender ∧ u = message_update now cx m command b) ∧
  (∀ b, b ∈ l → b ≠ sender → b ≠ uuid_nil →
     ∃ id, bot_updates_seq d <= id ∧ bot_updates d' !! id = Some (message_update now cx m command b)) ∧
  (∀ id u, bot_updates d !! id = Some u → up_bot u ∉ l → bot_updates d' !! id = Some u) ∧
  bot_updates_seq d <= bot_updates_seq d'.
Proof.
  intros Hq Hnum Hnd. revert d Hnum. induction Hnd as [|b l Hb Hnd IH]; intros d Hnum Hreg d'.
  { subst d'. simpl. repeat split; [auto|by intros b ?%not_elem_of_nil|done|lia]. }
  assert (∀ b', b' ∈ l → is_Some (bots d !! b')) as Hreg' by (intros b' Hb'; apply Hreg; by right).
  destruct (decide (b = sender ∨ b = uuid_nil)) as [Hskip|Hgo].
  - assert (d' = tell now cx m command sender l d) as Heq.
    { subst d'. unfold tell. simpl. case_decide; [done|]. destruct Hskip as [|Hnil]; [done|]. unfold enqueueUpdate at 2. by rewrite decide_True. }
    rewrite Heq. destruct (IH d Hnum Hreg') as (H1 & H2 & H3 & H4). split; [|split; [|split; [|done]]].
    + intros id u Hu. destruct (H1 id u Hu) as [|(b' & ? & ? & ?)]; [by left|right]. exists b'. split; [by right|done].
    + intros b' [->|Hb']%elem_of_cons Hs Hn; [by destruct Hskip|by apply H2].
    + intros id u Hu Hout. apply H3; [done|]. intros Hin. apply Hout. by right.
  - set (d1 := enqueueUpdate internal now b cx m command d).
    assert (d' = tell now cx m command sender l d1) as Heq.
    { subst d'. unfold tell. simpl. rewrite decide_False by tauto. done. }
    assert (enqueued b (message_update now cx m command b) d d1) as Hen.
    { apply enqueueUpdate_enqueued; [done|done|apply Hreg; by left|tauto]. }
    destruct (IH d1) as (H1 & H2 & H3 & H4); [apply Hen|intros b' Hb'; by apply (en_bots _ _ _ _ Hen), Hreg'|].
    rewrite Heq. pose proof (en_seq _ _ _ _ Hen) as Hseq. split; [|split; [|split]].
    + intros id u Hu. destruct (H1 id u Hu) as [Hu1|(b' & ? & ? & ?)].
      * destruct (en_old _ _ _ _ Hen id u Hu1) as [|Hrow]; [by left|]. right. exists b. split; [by left|]. split; [tauto|done].
      * right. exists b'. split; [by right|done].
    + intros b' [->|Hb']%elem_of_cons Hs Hn.
      * exists (bot_updates_seq d). split; [lia|]. apply H3; [apply Hen|done].
      * destruct (H2 b' Hb' Hs Hn) as (id & Hid & Hrow). exists id. split; [lia|done].
    + intros id u Hu Hout. apply H3; [apply (en_others _ _ _ _ Hen); [done|]|]; intros Hin; apply Hout; subst; [by left|by right].
    + lia.
Qed.

(** ** Whom a message concerns *)

Lemma elem_of_SubscribedBots ch isc reply mentioned d b :
  b ∈ SubscribedBots ch isc reply mentioned d ↔
  ∃ c r, live_chat (bd_db d) ch = Some c ∧ is_Some (active_member (bd_db d) ch b) ∧ bots d !! b = Some r ∧ bt_is_active r = true ∧
    hears (c_type c) isc reply mentioned b r = true.
Proof.
  unfold SubscribedBots. destruct (live_chat (bd_db d) ch) as [c|]; [|split; [by intros ?%not_elem_of_nil|naive_solver]].
  rewrite list_elem_of_omap. split.
  - intros ([[ch' u] mem] & [Hmem [Hch%bool_decide_eq_true Hl]%andb_true_iff]%elem_of_rows_where & Hb). simpl in *. subst ch'.
    destruct (bots d !! u) as [r|] eqn:Hr; [|done]. simpl in Hb. destruct (_ && _) eqn:Hc; [|done]. injection Hb as ->.
    apply andb_true_iff in Hc as [Ha Hh]. exists c, r. split; [done|]. split; [|done].
    exists mem. apply active_member_Some. split; [done|]. by destruct (m_left_at mem).
  - intros (c' & r & [= <-] & [mem [Hmem Hl]%active_member_Some] & Hr & Ha & Hh). exists ((ch, b), mem). split.
    + apply elem_of_rows_where. split; [done|]. simpl. rewrite bool_decide_true by done. by rewrite Hl.
    + simpl. rewrite Hr. simpl. by rewrite Ha, Hh.
Qed.
Lemma SubscribedBots_NoDup ch isc reply mentioned d : NoDup (SubscribedBots ch isc reply mentioned d).
Proof.
  unfold SubscribedBots. destruct (live_chat (bd_db d) ch) as [c|]; [|constructor]. rewrite <-(list_fmap_id (omap _ _)).
  apply (omap_ids_NoDup _ (λ km : (uuid * uuid) * member_row, km.1.2) Datatypes.id).
  - intros [[ch' u] mem] b. simpl. destruct (bots d !! u); [|done]. simpl. destruct (_ && _); [|done]. by intros [= <-].
  - apply (NoDup_snd_rows_where _ _ ch). intros k v [Hk _]%andb_true_iff. by apply bool_decide_eq_true in Hk.
Qed.
Lemma BotIDByUsername_bot handle d b : BotIDByUsername handle d = Some b → is_Some (bots d !! b).
Proof.
  unfold BotIDByUsername. intros Hhead%head_Some_elem_of. apply elem_of_fst_rows_where in Hhead.
  apply fmap_Some in Hhead as (r & Hr & _). by exists r.
Qed.

Inductive concerns (d : botdb G L) (m : Message) (sender b : uuid) : Prop :=
| ConcernsAddressee c : ParseCommand (mContent m) = Some c → cc_Addressee c ≠ ""%string →
    BotIDByUsername (cc_Addressee c) d = Some b → concerns d m sender b
| ConcernsMember ch r : (∀ c, ParseCommand (mContent m) = Some c → cc_Addressee c = ""%string) → b ≠ sender →
    live_chat (bd_db d) (mChatID m) = Some ch → is_Some (active_member (bd_db d) (mChatID m) b) →
    bots d !! b = Some r → bt_is_active r = true →
    c_type ch = "private"%string ∨ bt_privacy_mode r = false ∨ is_Some (ParseCommand (mContent m)) ∨
      (mReplyToID m ≫= λ id, MessageAuthorIfBot id d) = Some b ∨ b ∈ BotIDsByUsernames (mentionedHandles (mContent m)) d →
    concerns d m sender b.

Lemma recipients_spec m sender d b : (∀ c, ParseCommand (mContent m) = Some c → cc_Addressee c = ""%string) →
  b ∈ recipients m (ParseCommand (mContent m)) d ∧ b ≠ sender ↔ concerns d m sender b.
Proof.
  intros Hno. unfold recipients. rewrite elem_of_SubscribedBots. unfold hears. split.
  - intros [(c & r & Hc & Hm & Hr & Ha & Hh) Hs]. eapply ConcernsMember; try done.
    rewrite !orb_true_iff, !bool_decide_eq_true, negb_true_iff in Hh. tauto.
  - intros [c Hp Had _|ch r _ Hs Hc Hm Hr Ha Hh]; [by rewrite (Hno c Hp) in Had|]. split; [|done]. exists ch, r.
    repeat (split; [done|]). rewrite !orb_true_iff, !bool_decide_eq_true, negb_true_iff. tauto.
Qed.
Lemma ObserveMessage_broadcast now cx m sender d : mSenderID m = Some sender →
  (∀ c, ParseCommand (mContent m) = Some c → cc_Addressee c = ""%string) →
  ObserveMessage internal now cx m d =
    tell now cx m (ParseCommand (mContent m)) sender (recipients m (ParseCommand (mContent m)) d) d.
Proof.
  intros Hs Hno. unfold ObserveMessage. rewrite Hs. destruct (ParseCommand (mContent m)) as [c|] eqn:Hc; [|done].
  rewrite decide_False; [done|]. intros Had. apply Had. by apply Hno.
Qed.

(** A message reaches exactly the bots it concerns.  A command addressed to a bot by name
    is queued for that bot alone; anything else is queued for every active bot that is a
    member of the chat, other than the sender, and either the chat is private, or its privacy
    mode is off, or the message is a command, a reply to the bot or names it.  Every such bot
    finds the message in its queue under a new number, no other update appears in any queue,
    and nothing a bot answered in the process does changes that. *)
Lemma messages_reach_the_bots_they_concern now cx m sender d : internal_quiet → queue_numbered d → mSenderID m = Some sender →
  let d' := ObserveMessage internal now cx m d in
  (∀ b, concerns d m sender b → b ≠ uuid_nil →
     ∃ id, bot_updates d !! id = None ∧ bot_updates d' !! id = Some (message_update now cx m (ParseCommand (mContent m)) b)) ∧
  (∀ id u, bot_updates d' !! id = Some u →
     bot_updates d !! id = Some u ∨ ∃ b, concerns d m sender b ∧ u = message_update now cx m (ParseCommand (mContent m)) b).
Proof.
  intros Hq Hnum Hs d'.
  assert (∀ id, bot_updates_seq d <= id → bot_updates d !! id = None) as Hfree.
  { intros id Hid. apply eq_None_not_Some. intros Hu. destruct Hnum as [_ Hn]. specialize (Hn id Hu). lia. }
  destruct (decide (from_option cc_Addressee ""%string (ParseCommand (mContent m)) = ""%string)) as [Hno|Had].
  - assert (∀ c, ParseCommand (mContent m) = Some c → cc_Addressee c = ""%string) as Hno'.
    { intros c Hc. by rewrite Hc in Hno. }
    subst d'. rewrite (ObserveMessage_broadcast now cx m sender) by done.
    destruct (tell_run now cx m (ParseCommand (mContent m)) sender (recipients m (ParseCommand (mContent m)) d) d) as (H1 & H2 & _); [done|done|apply SubscribedBots_NoDup| |].
    { intros b Hb. unfold recipients in Hb. apply elem_of_SubscribedBots in Hb as (c & r & _ & _ & Hr & _). by exists r. }
    split.
    + intros b Hb Hnil. apply recipients_spec in Hb as [Hb Hbs]; [|done]. destruct (H2 b Hb Hbs Hnil) as (id & Hid & Hrow).
      exists id. split; [by apply Hfree|done].
    + intros id u Hu. destruct (H1 id u Hu) as [|(b & Hb & Hbs & ->)]; [by left|right]. exists b. split; [|done]. by apply recipients_spec.
  - destruct (ParseCommand (mContent m)) as [c|] eqn:Hc; [|done]. simpl in Had.
    assert (d' = match BotIDByUsername (cc_Addressee c) d with Some b => enqueueUpdate internal now b cx m (Some c) d | None => d end) as ->.
    { subst d'. unfold ObserveMessage. rewrite Hs, Hc. by rewrite decide_True. }
    destruct (BotIDByUsername (cc_Addressee c) d) as [b|] eqn:Hb.
    + destruct (decide (b = uuid_nil)) as [->|Hnil].
      { assert (enqueueUpdate internal now uuid_nil cx m (Some c) d = d) as -> by (unfold enqueueUpdate; by rewrite decide_True).
        split; [|by left]. intros b [c' Hc' _ Hb'|ch r Hno _ _ _ _ _ _] Hn; [congruence|]. by rewrite (Hno c Hc) in Had. }
      pose proof (enqueueUpdate_enqueued now b cx m (Some c) d Hq Hnum (BotIDByUsername_bot _ _ _ Hb) Hnil) as Hen. split.
      * intros b' [c' Hc' _ Hb'|ch r Hno _ _ _ _ _ _] _; [|by rewrite (Hno c Hc) in Had].
        assert (b' = b) as -> by congruence. exists (bot_updates_seq d). split; [by apply Hfree|apply Hen].
      * intros id u Hu. destruct (en_old _ _ _ _ Hen id u Hu) as [Hu1|Heq]; [by left|right]. exists b. split; [|done].
        by eapply ConcernsAddressee.
    + split; [|by left]. intros b' [c' Hc' _ Hb'|ch r Hno _ _ _ _ _ _] _; [congruence|]. by rewrite (Hno c Hc) in Had.
Qed.
End observer.

(** ** What BotFather may change for somebody *)

Section minding.
Context {G L : Type}.
Implicit Types (d : botdb G L).

(** A bot that is registered to somebody else. *)
Definition foreign (S b : uuid) d : Prop := ∃ r, bots d !! b = Some r ∧ bt_owner r ≠ S.
Record minds (S : uuid) d d' : Prop := {
  mi_foreign : ∀ b r, bots d !! b = Some r → bt_owner r ≠ S → bots d' !! b = Some r;
  mi_own : ∀ b r, bots d !! b = Some r → bt_owner r = S → ∃ r', bots d' !! b = Some r' ∧ bt_owner r' = S;
  mi_new : ∀ b r, bots d !! b = None → bots d' !! b = Some r → bt_owner r = S;
  mi_tokens : ∀ b, foreign S b d → ∀ i t, tk_bot t = b → bot_tokens d' !! i = Some t ↔ bot_tokens d !! i = Some t;
  mi_commands : ∀ k, foreign S k.1.1 d → bot_commands d' !! k = bot_commands d !! k;
  mi_profiles : ∀ b, foreign S b d → profiles (bd_graph d') !! b = profiles (bd_graph d) !! b;
  mi_accounts : ∀ u a, accounts (bd_graph d) !! u = Some a → accounts (bd_graph d') !! u = Some a;
  mi_dialogs : ∀ u, u ≠ S → bot_dialog_states d' !! u = bot_dialog_states d !! u;
  mi_webhooks : bot_webhooks d' = bot_webhooks d;
  mi_updates : bot_updates d' = bot_updates d;
  mi_seq : bot_updates_seq d' = bot_updates_seq d;
}.
Lemma minds_foreign S b d d' : minds S d d' → foreign S b d → foreign S b d'.
Proof. intros Hm (r & Hr & Hs). exists r. split; [|done]. by apply (mi_foreign _ _ _ Hm). Qed.
#[export] Instance minds_preorder S : PreOrder (minds S).
Proof.
  split.
  - intros d. split; try done. + intros b r Hr Ho. by exists r. + intros b r Hn Hr. congruence.
  - intros d1 d2 d3 H12 H23. pose proof (λ b, minds_foreign S b _ _ H12) as Hf. split.
    + intros b r Hr Ho. apply (mi_foreign _ _ _ H23); [|done]. by apply (mi_foreign _ _ _ H12).
    + intros b r Hr Ho. destruct (mi_own _ _ _ H12 b r Hr Ho) as (r' & Hr' & Ho'). by apply (mi_own _ _ _ H23 b r').
    + intros b r Hn Hr. destruct (bots d2 !! b) as [r2|] eqn:Hr2; [|by apply (mi_new _ _ _ H23 b)].
      assert (bt_owner r2 = S) as Ho by by apply (mi_new _ _ _ H12 b).
      destruct (mi_own _ _ _ H23 b r2 Hr2 Ho) as (r' & Hr' & Ho'). congruence.
    + intros b Hb i t Ht. by rewrite (mi_tokens _ _ _ H23 b (Hf b Hb) i t Ht), (mi_tokens _ _ _ H12 b Hb i t Ht).
    + intros k Hk. by rewrite (mi_commands _ _ _ H23 k (Hf _ Hk)), (mi_commands _ _ _ H12 k Hk).
    + intros b Hb. by rewrite (mi_profiles _ _ _ H23 b (Hf _ Hb)), (mi_profiles _ _ _ H12 b Hb).
    + intros u a Ha. by apply (mi_accounts _ _ _ H23), (mi_accounts _ _ _ H12).
    + intros u Hu. by rewrite (mi_dialogs _ _ _ H23 u Hu), (mi_dialogs _ _ _ H12 u Hu).
    + by rewrite (mi_webhooks _ _ _ H23), (mi_webhooks _ _ _ H12).
    + by rewrite (mi_updates _ _ _ H23), (mi_updates _ _ _ H12).
    + by rewrite (mi_seq _ _ _ H23), (mi_seq _ _ _ H12).
Qed.
(** A change to nothing a registration is made of. *)
Lemma minds_same S d d' : bots d' = bots d → bot_tokens d' = bot_tokens d → bot_commands d' = bot_commands d → bd_graph d' = bd_graph d →
  bot_dialog_states d' = bot_dialog_states d → bot_webhooks d' = bot_webhooks d → bot_updates d' = bot_updates d →
  bot_updates_seq d' = bot_updates_seq d → minds S d d'.
Proof.
  intros Hb Ht Hc Hg Hd Hw Hu Hs. split; rewrite ?Hb, ?Ht, ?Hc, ?Hg, ?Hd; try done.
  - intros b r Hr Ho. by exists r.
  - intros b r Hn Hr. congruence.
Qed.
(** One's own dialog, and the tokens and commands of one's own bots. *)
Lemma minds_dialog S f d : (∀ u, u ≠ S → f (bot_dialog_states d) !! u = bot_dialog_states d !! u) →
  minds S d (with_bot_dialog_states (f (bot_dialog_states d)) d).
Proof. intros Hf. split; simpl; try done; [intros b r Hr Ho; by exists r|congruence]. Qed.
Definition owned_by (S b : uuid) d : Prop := ∃ r, bots d !! b = Some r ∧ bt_owner r = S.
Lemma owned_not_foreign S b b' d : owned_by S b d → foreign S b' d → b' ≠ b.
Proof. intros (r & Hr & Ho) (r' & Hr' & Ho') ->. congruence. Qed.
Lemma minds_tokens S b f d : owned_by S b d →
  (∀ i t, tk_bot t ≠ b → f (bot_tokens d) !! i = Some t ↔ bot_tokens d !! i = Some t) →
  minds S d (with_bot_tokens (f (bot_tokens d)) d).
Proof.
  intros Hown Hf. split; simpl; try done; [intros b' r Hr Ho; by exists r|congruence|].
  intros b' Hb' i t <-. apply Hf. by eapply owned_not_foreign.
Qed.
Lemma minds_commands S b f d : owned_by S b d →
  (∀ k, k.1.1 ≠ b → f (bot_commands d) !! k = bot_commands d !! k) → minds S d (with_bot_commands (f (bot_commands d)) d).
Proof.
  intros Hown Hf. split; simpl; try done; [intros b' r Hr Ho; by exists r|congruence|].
  intros k Hk. apply Hf. by eapply owned_not_foreign.
Qed.
Lemma owned_by_ListForOwner S bot d : bot ∈ ListForOwner S d → owned_by S (bo_UserID bot) d.
Proof.
  unfold ListForOwner. intros ([id r] & [Hr Ho%bool_decide_eq_true]%elem_of_order_by%elem_of_rows_where & Hbot)%list_elem_of_omap.
  simpl in *. unfold BotByID in Hbot. rewrite Hr in Hbot. simpl in Hbot.
  destruct (accounts (bd_graph d) !! id) as [a|]; [|done]. simpl in Hbot. destruct (live_account a); [|done].
  injection Hbot as <-. by exists r.
Qed.
Lemma owned_by_Owned S b bot d : BotByID b d = Some bot → bo_OwnerID bot = S → owned_by S b d.
Proof.
  unfold BotByID. destruct (bots d !! b) as [r|] eqn:Hr; [|done]. simpl.
  destruct (accounts (bd_graph d) !! b) as [a|]; [|done]. simpl. destruct (live_account a); [|done].
  intros [= <-] <-. by exists r.
Qed.
End minding.

Section father_theory.
Context `{SpamGuard G} `{MessageLimiter L} `{PayloadCodec} `{UrlLibrary} `{Digest}.
Context (dns : string → option (list IP)) (render : father_text → string) (father : uuid).
Implicit Types (d : botdb G L).

Lemma Owned_minds {B} S botID (f : Bot → prog (botdb G L) Error B) d :
  (∀ bot, owned_by S botID d → minds S d (f bot d).2) → minds S d ((Owned botID S ≫= f) d).2.
Proof.
  intros Hf. destruct (Owned_then botID S f d) as [->|(bot & Hb & Ho & ->)]; [reflexivity|].
  apply Hf. by eapply owned_by_Owned.
Qed.
Lemma set_display_name_minds S botID name d : owned_by S botID d → minds S d (set_display_name botID name d).2.
Proof.
  intros Hown. unfold set_display_name. destruct (negb _); [simpl; reflexivity|]. split; simpl; try done.
  - intros b r Hr Ho. by exists r.
  - congruence.
  - intros b Hb. rewrite lookup_insert_ne; [done|]. intros <-. by eapply owned_not_foreign.
Qed.
Lemma UpdateSettings_minds S botID in_ d : owned_by S botID d → minds S d (UpdateSettings botID in_ d).2.
Proof.
  intros Hown. unfold UpdateSettings. rewrite bind_run.
  pose proof (set_display_name_minds S botID (default ""%string (bs_DisplayName in_)) d Hown) as Hname.
  assert (minds S d ((match bs_DisplayName in_ with Some name => set_display_name botID name | None => mret () end : prog _ _ _) d).2) as Hm1.
  { destruct (bs_DisplayName in_); [exact Hname|simpl; reflexivity]. }
  destruct ((match bs_DisplayName in_ with Some name => set_display_name botID name | None => mret () end : prog _ _ _) d) as [[[]|e] d1];
    simpl in Hm1; [|exact Hm1].
  etransitivity; [exact Hm1|]. rewrite bind_run. unfold gets at 1. cbn beta iota. rewrite bind_run.
  destruct Hown as (r & Hr & Ho). destruct (mi_own _ _ _ Hm1 botID r Hr Ho) as (r1 & Hr1 & Ho1). rewrite Hr1. unfold or_fail, modify. simpl.
  split; simpl; try done.
  - intros b r' Hr' Ho'. rewrite lookup_insert_ne; [done|]. intros <-. congruence.
  - intros b r' Hr' Ho'. destruct (decide (botID = b)) as [<-|Hne]; [|rewrite lookup_insert_ne by done; by exists r'].
    rewrite lookup_insert_eq. by eexists.
  - intros b r' Hn. destruct (decide (botID = b)) as [<-|Hne]; [congruence|]. rewrite lookup_insert_ne by done. congruence.
Qed.
Lemma Service_UpdateSettings_minds S botID in_ : follows (minds S) (Service_UpdateSettings (G := G) (L := L) botID S in_).
Proof.
  intros d. unfold Service_UpdateSettings. apply Owned_minds. intros _ Hown. rewrite bind_run. unfold fail_if.
  destruct (from_option _ _ _); [simpl; reflexivity|]. cbn beta iota. rewrite map_err_snd. by apply UpdateSettings_minds.
Qed.
Lemma issueToken_minds S now draw botID un label d : owned_by S botID d → minds S d (issueToken now draw botID un label d).2.
Proof.
  intros Hown. destruct (issueToken now draw botID un label d) as [[issued|e] d'] eqn:Hrun.
  - apply issueToken_Ok in Hrun as (-> & Hnew & _). cbn [snd].
    apply (minds_tokens S botID (λ m, <[td_id draw := _]> m)); [done|]. intros i t Ht. simpl.
    destruct (decide (td_id draw = i)) as [<-|Hne]; [|by rewrite lookup_insert_ne]. rewrite lookup_insert_eq, Hnew.
    split; [by intros [= <-]|done].
  - unfold issueToken in Hrun. repeat case_match; by simplify_eq.
Qed.
Lemma Service_IssueToken_minds S now draw botID label : follows (minds S) (Service_IssueToken (G := G) (L := L) now draw botID S label).
Proof.
  intros d. unfold Service_IssueToken. apply Owned_minds. intros _ Hown. rewrite map_err_snd.
  unfold IssueToken, in_tx. rewrite bind_run. unfold gets at 1. cbn beta iota. rewrite bind_run.
  destruct (accounts (bd_graph d) !! botID) as [a|]; [|simpl; reflexivity]. unfold or_fail at 1. cbn beta iota.
  rewrite bind_run. unfold gets at 1. cbn beta iota. rewrite bind_run. unfold fail_if. destruct (_ <=? _); [simpl; reflexivity|]. cbn beta iota.
  pose proof (issueToken_minds S now draw botID (default ""%string (ac_username a)) label d Hown) as Hm.
  destruct (issueToken _ _ _ _ _ d) as [[]]; [exact Hm|simpl; reflexivity].
Qed.
Lemma RevokeAllTokens_minds S now botID d : owned_by S botID d → minds S d (RevokeAllTokens now botID d).
Proof.
  intros Hown. apply (minds_tokens S botID (λ m, update_where _ _ m)); [done|]. intros i t Ht. rewrite lookup_update_where.
  destruct (bot_tokens d !! i) as [t0|]; [|done]. simpl. case_bool_decide as Hb; [|done]. destruct (live_token t0); [|done]. simpl.
  split; [by intros [= <-]|by intros [= ->]].
Qed.
Lemma SetCommands_minds S botID commands d : owned_by S botID d → minds S d (SetCommands botID commands d).2.
Proof.
  intros Hown. unfold SetCommands, in_tx. rewrite bind_run. unfold modify. cbn beta iota.
  set (d1 := with_bot_commands (delete_where _ _) d).
  assert (minds S d d1) as Hm1.
  { apply (minds_commands S botID (λ m, delete_where _ m)); [done|]. intros k Hk. rewrite lookup_delete_where.
    destruct (bot_commands d !! k); [|done]. simpl. by rewrite bool_decide_false. }
  assert (∀ l d0, owned_by S botID d0 → minds S d0 (for_each l (λ ic : Z * Command, insert_command botID ic.1 ic.2) d0).2) as Hl.
  { induction l as [|[i c] l IH]; intros d0 Hown0; [simpl; reflexivity|]. simpl. rewrite bind_run. unfold insert_command at 1. cbn beta iota zeta.
    destruct (negb (commandPattern _)); [simpl; reflexivity|]. destruct (_ || _); [simpl; reflexivity|]. cbn beta iota.
    etransitivity; [|apply IH; exact Hown0]. apply (minds_commands S botID (λ m, <[_ := _]> m)); [done|]. intros k Hk.
    rewrite lookup_insert_ne; [done|]. by intros <-. }
  assert (owned_by S botID d1) as Hown1 by exact Hown. specialize (Hl (zip (seqZ 0 (Z.of_nat (length commands))) commands) d1 Hown1).
  destruct (for_each _ _ d1) as [[u|e] d2]; [|simpl; reflexivity]. by etransitivity.
Qed.
Lemma Service_SetCommands_minds S botID commands d : owned_by S botID d → minds S d (Service_SetCommands botID commands d).2.
Proof.
  intros Hown. unfold Service_SetCommands. rewrite bind_run. unfold fail_if. destruct (_ <? _); [simpl; reflexivity|]. cbn beta iota.
  rewrite bind_run. destruct (head _); [simpl; reflexivity|]. cbn beta iota. rewrite map_err_snd. by apply SetCommands_minds.
Qed.
Lemma Register_minds S now id draw un name desc : follows (minds S) (Register (G := G) (L := L) now id draw S un name desc).
Proof.
  intros d. unfold Register. rewrite bind_run. destruct (check_bot un name) as [[handle nm]|]; [|simpl; reflexivity]. rewrite map_err_snd.
  destruct (CreateBot now id draw S handle nm desc d) as [[r|e] d'] eqn:Hrun.
  2:{ unfold CreateBot in Hrun. apply in_tx_Err in Hrun. subst d'. reflexivity. }
  unfold CreateBot in Hrun. prog_inv.
  match goal with Hx : insert_bot_account _ _ _ _ = (_, ?d1) |- _ => pose proof (insert_bot_account_Ok _ _ _ _ _ _ Hx) as [Hbots _];
    rename Hx into Hacc, d1 into da end.
  match goal with Hx : insert_bot _ _ _ _ _ = _ |- _ => apply insert_bot_Ok in Hx as [Hnew ->] end. rewrite Hbots in Hnew.
  match goal with Hx : issueToken _ _ _ _ _ ?d1 = _ |- _ => set (d2 := d1) in *; rename Hx into Hissue end.
  assert (minds S d da) as Hm1.
  { unfold insert_bot_account in Hacc. destruct (bool_decide_reflect (is_Some (accounts (bd_graph d) !! id))) as [|Hid]; [done|].
    apply eq_None_not_Some in Hid. destruct (_ || _); [done|]. injection Hacc as _ <-. split; simpl; try done.
    - intros b r' Hr Ho. by exists r'.
    - congruence.
    - intros b (r' & Hr & _). rewrite lookup_insert_ne; [done|]. intros <-. congruence.
    - intros u a Ha. rewrite lookup_insert_ne; [done|]. intros <-. congruence. }
  assert (minds S da d2) as Hm2.
  { split; subst d2; simpl; try done; rewrite ?Hbots.
    - intros b r' Hr Ho. rewrite lookup_insert_ne; [done|]. intros <-. congruence.
    - intros b r' Hr Ho. exists r'. rewrite lookup_insert_ne; [done|]. intros <-. congruence.
    - intros b r' Hn. destruct (decide (id = b)) as [<-|Hne]; [rewrite lookup_insert_eq; by intros [= <-]|].
      rewrite lookup_insert_ne by done. congruence. }
  etransitivity; [exact Hm1|]. etransitivity; [exact Hm2|].
  pose proof (issueToken_minds S now draw id handle "default" d2) as Hm3. rewrite Hissue in Hm3. apply Hm3.
  eexists. subst d2. simpl. by rewrite lookup_insert_eq.
Qed.

Lemma on_world_minds {A} S (m : prog (world G L) Error A) : follows (minds S) (on_world m).
Proof. intros d. unfold on_world. destruct (m (bd_world d)) as [r w]. by apply minds_same. Qed.
Lemma SendMessageWithKeyboard_minds S now s botID ch content re k : follows (minds S) (SendMessageWithKeyboard (G := G) (L := L) dns now s botID ch content re k).
Proof. unfold SendMessageWithKeyboard, refuse_bot. follow_steps. apply on_world_minds. Qed.
Lemma saveState_minds now S s : follows (minds S) (saveState (G := G) (L := L) now S s).
Proof.
  intros d. unfold saveState. destruct (negb _); [simpl; reflexivity|].
  apply (minds_dialog S (λ m, <[_ := _]> m)). intros u Hu. by rewrite lookup_insert_ne.
Qed.
Lemma clearState_minds S : follows (minds S) (clearState (G := G) (L := L) S).
Proof. intros d. apply (minds_dialog S (λ m, delete S m)). intros u Hu. by rewrite lookup_delete_ne. Qed.
Lemma reply_minds S now w ch t : follows (minds S) (reply (G := G) (L := L) dns render father now w ch t).
Proof. unfold reply, SendMessage. follow_step; [apply SendMessageWithKeyboard_minds|follow_steps]. Qed.
Lemma finishAnd_minds S now w ch t : follows (minds S) (finishAnd (G := G) (L := L) dns render father now w S ch t).
Proof. unfold finishAnd. follow_step; [apply clearState_minds|apply reply_minds]. Qed.
Lemma owned_minds {B} S handle (f : option Bot → prog (botdb G L) Error B) :
  (∀ d, minds S d (f None d).2) → (∀ bot d, owned_by S (bo_UserID bot) d → minds S d (f (Some bot) d).2) →
  follows (minds S) (gets (ownedBotByHandle S handle) ≫= f).
Proof.
  intros Hnone Hsome d. rewrite bind_run. unfold gets. cbn beta iota. destruct (ownedBotByHandle S handle d) as [bot|] eqn:Hbot; [|apply Hnone].
  apply Hsome. unfold ownedBotByHandle in Hbot. apply fmap_Some in Hbot as ([i b] & Hb & ->).
  apply list_find_Some in Hb as (Hb & _). apply owned_by_ListForOwner. by eapply list_elem_of_lookup_2.
Qed.
#[local] Hint Resolve reply_minds finishAnd_minds saveState_minds clearState_minds Service_UpdateSettings_minds Service_IssueToken_minds : follows.

Lemma advanceAfterTarget_minds now w m s bot :
  follows (minds (im_SenderID m)) (advanceAfterTarget (G := G) (L := L) dns render father now w m s bot).
Proof. unfold advanceAfterTarget. cbv zeta. repeat case_decide; follow_steps. Qed.
#[local] Hint Resolve advanceAfterTarget_minds : follows.
Lemma toggleFlag_minds now w m c flag : follows (minds (im_SenderID m)) (toggleFlag (G := G) (L := L) dns render father now w m c flag).
Proof. unfold toggleFlag. cbv zeta. follow_steps. Qed.
Lemma startTargetedFlow_minds now w m flow command :
  follows (minds (im_SenderID m)) (startTargetedFlow (G := G) (L := L) dns render father now w m flow command).
Proof. unfold startTargetedFlow. follow_steps. Qed.
#[local] Hint Resolve toggleFlag_minds startTargetedFlow_minds : follows.
Lemma handleCommand_minds now w m c : follows (minds (im_SenderID m)) (handleCommand (G := G) (L := L) dns render father now w m c).
Proof. unfold handleCommand. cbv zeta. follow_steps. Qed.
Lemma continueNewBot_minds now w m s answer :
  follows (minds (im_SenderID m)) (continueNewBot (G := G) (L := L) dns render father now w m s answer).
Proof.
  unfold continueNewBot. cbv zeta. case_decide; [follow_steps|]. case_decide; [|follow_steps].
  destruct (negb _); [follow_steps|]. intros d.
  pose proof (Register_minds (im_SenderID m) now (fd_bot w) (fd_token w) (handle_of answer) (default ""%string (ds_Data s !! "name"%string)) "" d) as Hreg.
  destruct (Register _ _ _ _ _ _ _ d) as [[[bot token]|e] d1]; cbn [snd] in Hreg; (etransitivity; [exact Hreg|]).
  - match goal with |- minds _ _ (?p _).2 => assert (follows (minds (im_SenderID m)) p) as Hp by follow_steps; apply Hp end.
  - apply reply_minds.
Qed.
Lemma applyValue_minds now w m s answer : follows (minds (im_SenderID m)) (applyValue (G := G) (L := L) dns render father now w m s answer).
Proof.
  unfold applyValue. apply owned_minds; [apply finishAnd_minds|]. intros bot d Hown. cbv zeta.
  assert (∀ in_, follows (minds (im_SenderID m))
    (Service_UpdateSettings (bo_UserID bot) (im_SenderID m) in_;; finishAnd (G := G) (L := L) dns render father now w (im_SenderID m) (im_ChatID m) TSaved)) as Hchange
    by (intros in_; follow_steps).
  case_decide; [destruct (bad_name answer); [apply reply_minds|apply Hchange]|]. case_decide; [apply Hchange|]. case_decide; [apply Hchange|].
  destruct (parseCommandList answer) as [commands|e]; [|apply reply_minds]. rewrite bind_run.
  pose proof (Service_SetCommands_minds (im_SenderID m) (bo_UserID bot) commands d Hown) as Hset.
  destruct (Service_SetCommands _ _ d) as [[u|e] d1]; [|exact Hset]. etransitivity; [exact Hset|apply finishAnd_minds].
Qed.
Lemma confirmDelete_minds now w m s answer : follows (minds (im_SenderID m)) (confirmDelete (G := G) (L := L) dns render father now w m s answer).
Proof. unfold confirmDelete. cbv zeta. case_decide; follow_steps. Qed.
Lemma confirmRevoke_minds now w m s answer : follows (minds (im_SenderID m)) (confirmRevoke (G := G) (L := L) dns render father now w m s answer).
Proof.
  unfold confirmRevoke. destruct (negb _); [follow_steps|]. apply owned_minds; [apply finishAnd_minds|]. intros bot d Hown. rewrite bind_run.
  unfold modify. cbn beta iota. etransitivity; [apply (RevokeAllTokens_minds _ now _ _ Hown)|].
  match goal with |- minds _ _ (?p _).2 => assert (follows (minds (im_SenderID m)) p) as Hp by follow_steps; apply Hp end.
Qed.
#[local] Hint Resolve handleCommand_minds continueNewBot_minds applyValue_minds confirmDelete_minds confirmRevoke_minds : follows.
Lemma continueFlow_minds now w m s : follows (minds (im_SenderID m)) (continueFlow (G := G) (L := L) dns render father now w m s).
Proof. unfold continueFlow. cbv zeta. repeat case_decide; follow_steps. Qed.
#[local] Hint Resolve continueFlow_minds : follows.
Lemma Handle_minds now w m : follows (minds (im_SenderID m)) (Handle (G := G) (L := L) dns render father now w m).
Proof. unfold Handle. follow_steps. Qed.

(** BotFather answers without touching anybody's queue. *)
Lemma minds_quiet S d d' : minds S d d' → quiet d d'.
Proof.
  intros Hm. split; [apply Hm|apply Hm|]. intros b [r Hr]. destruct (decide (bt_owner r = S)) as [Ho|Ho].
  - destruct (mi_own _ _ _ Hm b r Hr Ho) as (r' & Hr' & _). by exists r'.
  - exists r. by apply (mi_foreign _ _ _ Hm).
Qed.
Lemma internal_father_quiet now w : internal_quiet (internal_father (G := G) (L := L) dns render father now w).
Proof.
  intros botID handler m d. unfold internal_father. case_decide; [|done]. intros [= <-]. eapply minds_quiet, Handle_minds.
Qed.

(** BotFather acts for whoever wrote to it and for nobody else.  Whatever the message and
    whatever the dialog, the bots of other people keep their rows, their tokens, their
    commands and their names, other people's dialogs stay where they are, no account, webhook
    or queued update changes, and a bot that is new is the sender's.  Outside a private chat
    it changes nothing at all but what sending its one answer changes. *)
Lemma botfather_acts_for_the_sender now w m d :
  let d' := (Handle dns render father now w m d).2 in
  minds (im_SenderID m) d d' ∧
  (IsPrivateChat (im_ChatID m) d = false → d' = with_bd_world (bd_world d') d ∧
     d' = (SendMessage dns now (fd_send w) father (im_ChatID m) (render TOnlyInPrivate) None d).2).
Proof.
  intros d'. split; [apply Handle_minds|]. intros Hpub.
  assert (d' = (SendMessage dns now (fd_send w) father (im_ChatID m) (render TOnlyInPrivate) None d).2) as Hrun.
  { subst d'. unfold Handle. rewrite bind_run. unfold gets. cbn beta iota. rewrite Hpub. cbn [negb]. unfold reply. rewrite bind_run.
    by destruct (SendMessage _ _ _ _ _ _ _ d) as [[]]. }
  split; [|exact Hrun]. rewrite Hrun. unfold SendMessage, SendMessageWithKeyboard, refuse_bot. rewrite bind_run. cbn beta iota. unfold on_world.
  match goal with |- context [Service_Send ?a ?b ?c ?e ?f ?g] => destruct (Service_Send a b c e f g) as [r w'] end. by destruct d.
Qed.
End father_theory.

(** BotFather is provisioned once: a second node finds the account the first one made. *)
Lemma EnsureBotFather_again {G L} now now' id id' botID (d d' : botdb G L) :
  EnsureBotFather now id d = (Ok botID, d') → BotIDByUsername BotFatherUsername d' = Some botID →
  EnsureBotFather now' id' d' = (Ok botID, d').
Proof. intros _ Hb. unfold EnsureBotFather. rewrite bind_run. unfold gets at 1. by rewrite Hb. Qed.

(** ** A conversation

    Account 1 makes a bot: BotFather is account 2, chat 10 is theirs. *)
#[local] Existing Instance toy_codec.
#[local] Instance no_urls : UrlLibrary := {| url_Parse := λ _, None; ParseIP := λ _, None |}.
#[local] Instance no_digest : Digest := {| sha256 := λ bs, bs |}.
Abbreviation father_db := (botdb (gmap (string * string) Antispam.Score) limiter_state).
Definition father_start : father_db :=
  MkBotDb sample_world
    (MkSocialDb {[1%N := person_account "ada"; 2%N := MkAccount None (synthetic_phone BotFatherUsername) [] "active" false false None None None]}
       ∅ ∅ ∅ ∅ ∅ ∅) ∅ ∅ ∅ ∅ ∅ 1 ∅ ∅ ∅ [].
Definition provisioned : father_db := (EnsureBotFather 4 2 father_start).2.
Definition words (t : father_text) : string := match t with THelp => "help" | TNewBotAskName => "name?" | TNewBotAskUsername => "username?" | _ => "..." end.
Definition draws (n : N) : father_draw := MkFatherDraw (MkSendDraw (400 + n) (500 + n) sample_env sample_env) 100 (MkTokenDraw 200 "s3cret").
Definition ada_says (id : uuid) (text : string) : Message :=
  MkMessage id 10 0 (Some 1%N) id TypeText text (JArr []) JNull None None [] [] None "" None false 0 5 None None.
Definition ada_context : option ChatContext := chat_context (bd_db provisioned) 10 1.
Definition hear (d : father_db) (line : Z * string) : father_db :=
  match ada_context with
  | Some cx => ObserveMessage (internal_father (λ _, None) words 2 (5 + line.1) (draws (Z.to_N line.1))) (5 + line.1) cx (ada_says (600 + Z.to_N line.1) line.2) d
  | None => d
  end.
Definition dialog : list (Z * string) := [(1, "/newbot"); (2, " Weather "); (3, "Weather_Bot")]%string.
Definition after_dialog : father_db := foldl hear provisioned dialog.
(** Every line is answered, and the last one with a token that opens the bot. *)
Example a_bot_is_made :
  (bo_Username <$> ListForOwner 1 after_dialog, bo_DisplayName <$> ListForOwner 1 after_dialog, bot_dialog_states after_dialog !! 1%N,
   bo_UserID <$> (match (Authenticate 9 "weather_bot:s3cret" after_dialog).1 with Ok b => Some b | Err _ => None end),
   (λ n, r_content <$> messages (bd_db after_dialog) !! n) <$> [401; 402; 403]%N, length (Commands 2 "" after_dialog))
  = ([Some "weather_bot"], ["Weather"], None, Some 100%N, [Some "name?"; Some "username?"; Some "..."], 14%nat)%string.
Proof. vm_compute. reflexivity. Qed.

Lemma provisioned_numbered : queue_numbered provisioned.
Proof. split; [vm_compute; reflexivity|]. assert (bot_updates provisioned = ∅) as Hempty by (vm_compute; reflexivity). intros id [u Hu]. by rewrite Hempty, lookup_empty in Hu. Qed.
Abbreviation father_of := (internal_father (G := gmap (string * string) Antispam.Score) (L := limiter_state) (λ _, None) words 2).
Definition first_line : Message := ada_says 601 "/newbot".
Definition hears_first (cx : ChatContext) : father_db := ObserveMessage (father_of 6 (draws 1)) 6 cx first_line provisioned.
Lemma messages_reach_the_bots_they_concern_witness : ∃ cx, ada_context = Some cx ∧
  (∀ b, concerns provisioned first_line 1 b → b ≠ uuid_nil →
     ∃ id, bot_updates provisioned !! id = None ∧
       bot_updates (hears_first cx) !! id = Some (message_update 6 cx first_line (ParseCommand (mContent first_line)) b)) ∧
  (∀ id u, bot_updates (hears_first cx) !! id = Some u →
     bot_updates provisioned !! id = Some u ∨
     ∃ b, concerns provisioned first_line 1 b ∧ u = message_update 6 cx first_line (ParseCommand (mContent first_line)) b) ∧
  up_bot <$> bot_updates (hears_first cx) !! 1 = Some 2%N.
Proof.
  destruct ada_context as [cx|] eqn:Hcx; [|exfalso; vm_compute in Hcx; discriminate Hcx]. exists cx. split; [done|].
  pose proof (messages_reach_the_bots_they_concern (father_of 6 (draws 1)) 6 cx first_line 1 provisioned
    (internal_father_quiet (λ _, None) words 2 6 (draws 1)) provisioned_numbered eq_refl) as [Hto Hfrom].
  split; [exact Hto|]. split; [exact Hfrom|].
  assert (up_bot <$> (ada_context ≫= λ cx, bot_updates (hears_first cx) !! 1) = Some 2%N) as Hq by (vm_compute; reflexivity).
  rewrite Hcx in Hq. exact Hq.
Defined.

Lemma botfather_acts_for_the_sender_witness :
  let d := foldl hear provisioned (take 2 dialog) in
  let m := MkInternalMessage 2 10 1 "Weather_Bot" None in
  let d' := (Handle (λ _, None) words 2 8 (draws 3) m d).2 in
  minds 1 d d' ∧
  (IsPrivateChat 10 d = false → d' = with_bd_world (bd_world d') d ∧
     d' = (SendMessage (λ _, None) 8 (fd_send (draws 3)) 2 10 (words TOnlyInPrivate) None d).2).
Proof.
  intros d m. exact (botfather_acts_for_the_sender (λ _, None) words 2 8 (draws 3) m d).
Defined.

(** A command that names a bot is queued for it whatever chat it is written in, and whoever
    wrote it: the bot need not be a member, and may be the author. *)
Example addressed_commands_cross_chats :
  active_member (bd_db after_dialog) 10 100 = None ∧
  (∀ sender, sender ∈ [1; 100]%N →
     (λ cx, up_bot <$> bot_updates (ObserveMessage (λ _, None) 9 cx
        (MkMessage 604 10 0 (Some sender) 604 TypeText "/start@weather_bot now" (JArr []) JNull None None [] [] None "" None false 0 9 None None)
        after_dialog) !! bot_updates_seq after_dialog) <$> ada_context = Some (Some 100%N)).
Proof.
  split; [vm_compute; reflexivity|]. intros sender [->|[->|[]%elem_of_nil]%elem_of_cons]%elem_of_cons; vm_compute; reflexivity.
Qed.
