(* ===== verification/Jobs.v ===== *)
(** * Durable jobs ([internal/bus/nats.go])

    The stream of background work: a publish with its duplicate window, and what becomes of a
    job at each delivery.  JetStream itself is a parameter. *)

From stdpp Require Import base tactics list strings.
From Stdlib Require Import ZArith Lia.
From S2P Require Import Prelude GoString.

Set Default Goal Selector "!".
Open Scope Z_scope.

Definition SubjectJobMediaProcess : string := "SOBH.jobs.media.process".
Definition SubjectJobPushSend : string := "SOBH.jobs.push.send".
Definition SubjectJobSearchIndex : string := "SOBH.jobs.search.index".
Definition SubjectJobNewsPublish : string := "SOBH.jobs.news.publish".
(** The stream's [Duplicates]. *)
Definition Duplicates : Z := 5 * minute.

(** ** Publishing *)

Record Job (P : Type) := MkJob { jb_ID : string; jb_Type : string; jb_Payload : P; jb_CreatedAt : time }.
Arguments MkJob {P}.
Arguments jb_ID {P}.
Arguments jb_Type {P}.
Arguments jb_Payload {P}.
Arguments jb_CreatedAt {P}.

(** Whether an identifier was taken by a job of the last five minutes. *)
Definition recent {P} (now : time) (id : string) (l : list (Job P)) : bool :=
  existsb (λ j, bool_decide (jb_ID j = id) && (now - jb_CreatedAt j <? Duplicates)) l.
(** A publish the server acknowledges stores the job, unless its identifier is one it has
    seen within the window; it may also fail. *)
Class JetStream (P : Type) := {
  js_Publish : Job P → list (Job P) → option (list (Job P));
  js_Publish_stores : ∀ j l l', js_Publish j l = Some l' →
    l' = if negb (bool_decide (jb_ID j = ""%string)) && recent (jb_CreatedAt j) (jb_ID j) l then l else l ++ [j];
}.
Inductive buserr := ErrPublish.
Definition PublishJob `{JetStream P} (now : time) (subject dedupeID : string) (payload : P) : prog (list (Job P)) buserr () := λ l,
  match js_Publish (MkJob dedupeID subject payload now) l with
  | Some l' => (Ok (), l')
  | None => (Err ErrPublish, l)
  end.

(** A server that is always up. *)
Definition live_stream (P : Type) : JetStream P.
Proof.
  refine {| js_Publish := λ j l,
    Some (if negb (bool_decide (jb_ID j = ""%string)) && recent (jb_CreatedAt j) (jb_ID j) l then l else l ++ [j]) |}.
  by intros j l l' [= <-].
Defined.

(** ** Consuming *)

Inductive outcome := Handled | Failed | Panicked | Malformed.
Inductive verdict := Ack | Nak | NakWithDelay (delay : Z) | Term.
Definition retry_delay (attempt : Z) : Z := Z.shiftl 1 (Z.min attempt 6) * second.
Definition handleJob (maxRetries attempt : Z) (o : outcome) : verdict :=
  match o with
  | Panicked => Nak
  | Malformed => Term
  | Failed => if maxRetries <? attempt then Term else NakWithDelay (retry_delay attempt)
  | Handled => Ack
  end.
(** [ConsumeJobs]: the consumer is bound with [MaxDeliver(maxRetries+1)]. *)
Definition max_deliver (maxRetries : Z) : Z := maxRetries + 1.
Definition handed_back (v : verdict) : bool := match v with Nak | NakWithDelay _ => true | _ => false end.
(** A message handed back is delivered again, until it has been delivered that often. *)
Class Redelivery := {
  redelivers : Z → Z → verdict → bool;
  redelivers_spec : ∀ maxDeliver attempt v, redelivers maxDeliver attempt v = handed_back v && (attempt <? maxDeliver);
}.
(** The verdicts on one job, attempt by attempt. *)
Fixpoint deliveries `{Redelivery} (fuel : nat) (maxRetries attempt : Z) (outcomes : Z → outcome) : list verdict :=
  match fuel with
  | O => []
  | S fuel =>
      let v := handleJob maxRetries attempt (outcomes attempt) in
      v :: (if redelivers (max_deliver maxRetries) attempt v then deliveries fuel maxRetries (attempt + 1) outcomes else [])
  end.

(** ** What becomes of a job *)

Section theory.
Context `{Redelivery}.

Lemma PublishJob_run `{JetStream P} now subject id (payload : P) l l' : PublishJob now subject id payload l = (Ok (), l') →
  l' = if negb (bool_decide (id = ""%string)) && recent now id l then l else l ++ [MkJob id subject payload now].
Proof.
  unfold PublishJob. destruct (js_Publish _ l) as [l''|] eqn:Hp; [|done]. intros [= <-]. by apply js_Publish_stores in Hp.
Qed.
Lemma retry_delay_bound attempt : 0 <= attempt → second <= retry_delay attempt <= 64 * second.
Proof.
  intros Ha. unfold retry_delay. rewrite Z.shiftl_mul_pow2 by lia. rewrite Z.mul_1_l.
  assert (2 ^ 0 <= 2 ^ Z.min attempt 6 <= 2 ^ 6) as Hb by (split; apply Z.pow_le_mono_r; lia). unfold second. lia.
Qed.
Lemma deliveries_run fuel maxRetries attempt outcomes vs : 0 < attempt <= max_deliver maxRetries →
  max_deliver maxRetries - attempt < Z.of_nat fuel → vs = deliveries fuel maxRetries attempt outcomes →
  Z.of_nat (length vs) <= max_deliver maxRetries - attempt + 1 ∧
  (∀ v, v ∈ vs → ∀ delay, v = NakWithDelay delay → second <= delay <= 64 * second) ∧
  (∀ k, attempt <= k <= max_deliver maxRetries → (∀ j, attempt <= j < k → outcomes j ∈ [Failed; Panicked]) → outcomes k = Handled →
     last vs = Some Ack ∧ Z.of_nat (length vs) = k - attempt + 1) ∧
  ((∀ j, attempt <= j <= max_deliver maxRetries → outcomes j = Failed) →
     last vs = Some Term ∧ Z.of_nat (length vs) = max_deliver maxRetries - attempt + 1).
Proof.
  unfold max_deliver. revert attempt vs. induction fuel as [|fuel IH]; intros attempt vs Ha Hf ->; [lia|]. simpl deliveries.
  set (v := handleJob maxRetries attempt (outcomes attempt)). rewrite redelivers_spec. unfold max_deliver.
  assert (∀ delay, v = NakWithDelay delay → second <= delay <= 64 * second) as Hdelay.
  { intros delay. subst v. unfold handleJob. destruct (outcomes attempt); [done| |done|done].
    destruct (maxRetries <? attempt); [done|]. intros [= <-]. apply retry_delay_bound. lia. }
  destruct (handed_back v && (attempt <? maxRetries + 1)) eqn:Hback.
  - apply andb_true_iff in Hback as [Hb Hlt%Z.ltb_lt]. destruct (IH (attempt + 1) (deliveries fuel maxRetries (attempt + 1) outcomes)) as (Hlen & Hd & Hok & Hbad); [lia|lia|reflexivity|].
    split; [simpl length; lia|]. split; [|split].
    + intros v' [->|Hv']%elem_of_cons; [exact Hdelay|by apply Hd].
    + intros k Hk Hj Hh. assert (k ≠ attempt) as Hne.
      { intros ->. subst v. rewrite Hh in Hb. discriminate Hb. }
      destruct (Hok k) as [Hlast Hl]; [lia|intros j Hj'; apply Hj; lia|done|].
      split; [|simpl length; lia]. rewrite last_cons, Hlast. done.
    + intros Hall. destruct Hbad as [Hlast Hl]; [intros j Hj; apply Hall; lia|]. split; [|simpl length; lia]. by rewrite last_cons, Hlast.
  - split; [simpl length; lia|]. split; [|split].
    + intros v' [->|[]%elem_of_nil]%elem_of_cons. exact Hdelay.
    + intros k Hk Hj Hh. destruct (decide (k = attempt)) as [->|Hne].
      * subst v. rewrite Hh. simpl. split; [done|lia].
      * exfalso. assert (outcomes attempt ∈ [Failed; Panicked]) as Ho by (apply Hj; lia). apply andb_false_iff in Hback as [Hb|Hb].
        -- subst v. unfold handleJob in Hb. apply elem_of_cons in Ho as [Ho|Ho]; [|apply list_elem_of_singleton in Ho].
           ++ rewrite Ho in Hb. rewrite (proj2 (Z.ltb_ge _ _)) in Hb by lia. discriminate Hb.
           ++ rewrite Ho in Hb. discriminate Hb.
        -- apply Z.ltb_ge in Hb. lia.
    + intros Hall. subst v. rewrite (Hall attempt) in * by lia. unfold handleJob in *. destruct (maxRetries <? attempt) eqn:Hr.
      * apply Z.ltb_lt in Hr. simpl. split; [done|lia].
      * apply Z.ltb_ge in Hr. simpl in Hback. apply Z.ltb_ge in Hback. lia.
Qed.

(** A job is settled after a bounded number of deliveries.  It is delivered at most once
    more than its retries, each wait between one second and sixty-four; if it is handled at
    some attempt after failing or panicking at the earlier ones it is acknowledged at that
    attempt, and if it fails every time the last delivery terminates it. *)
Lemma jobs_are_settled maxRetries outcomes : 0 <= maxRetries →
  let vs := deliveries (Z.to_nat (max_deliver maxRetries)) maxRetries 1 outcomes in
  0 < Z.of_nat (length vs) <= max_deliver maxRetries ∧
  (∀ v, v ∈ vs → ∀ delay, v = NakWithDelay delay → second <= delay <= 64 * second) ∧
  (∀ k, 1 <= k <= max_deliver maxRetries → (∀ j, 1 <= j < k → outcomes j ∈ [Failed; Panicked]) → outcomes k = Handled →
     last vs = Some Ack ∧ Z.of_nat (length vs) = k) ∧
  ((∀ j, 1 <= j <= max_deliver maxRetries → outcomes j = Failed) → last vs = Some Term ∧ Z.of_nat (length vs) = max_deliver maxRetries).
Proof.
  intros Hr vs. destruct (deliveries_run (Z.to_nat (max_deliver maxRetries)) maxRetries 1 outcomes vs) as (Hlen & Hd & Hok & Hbad);
    [unfold max_deliver; lia..|done|].
  split; [|split; [exact Hd|split]].
  - split; [|lia]. subst vs. unfold max_deliver. destruct (Z.to_nat (maxRetries + 1)) eqn:Hn; [lia|]. simpl length. lia.
  - intros k Hk Hj Hh. destruct (Hok k Hk Hj Hh) as [? ?]. split; [done|]. lia.
  - intros Hall. destruct (Hbad Hall) as [? ?]. split; [done|]. lia.
Qed.
End theory.

Definition nats_redelivery : Redelivery.
Proof. by refine {| redelivers := λ maxDeliver attempt v, handed_back v && (attempt <? maxDeliver) |}. Defined.
#[local] Existing Instance nats_redelivery.
(** A push job that fails twice before it gets through. *)
Definition flaky (attempt : Z) : outcome := if attempt <? 3 then Failed else Handled.
Lemma jobs_are_settled_witness :
  let vs := deliveries (Z.to_nat (max_deliver 4)) 4 1 flaky in
  0 < Z.of_nat (length vs) <= max_deliver 4 ∧
  (∀ v, v ∈ vs → ∀ delay, v = NakWithDelay delay → second <= delay <= 64 * second) ∧
  (∀ k, 1 <= k <= max_deliver 4 → (∀ j, 1 <= j < k → flaky j ∈ [Failed; Panicked]) → flaky k = Handled →
     last vs = Some Ack ∧ Z.of_nat (length vs) = k) ∧
  ((∀ j, 1 <= j <= max_deliver 4 → flaky j = Failed) → last vs = Some Term ∧ Z.of_nat (length vs) = max_deliver 4).
Proof. apply (jobs_are_settled 4 flaky). lia. Defined.
Example flaky_deliveries : deliveries 5 4 1 flaky = [NakWithDelay (2 * second); NakWithDelay (4 * second); Ack].
Proof. reflexivity. Qed.
