(* ===== verification/Notifications.v ===== *)
(** * Notifications and pushes ([internal/notifications], [internal/worker/push.go])

    Who is notified of what, the push tokens of devices, the two providers and the jobs that
    deliver.  The HTTP clients, the signing of provider tokens and [json.Marshal] on a value
    are parameters; the local time of the server is its offset. *)

From stdpp Require Import base tactics list sorting gmap strings.
From Stdlib Require Import ZArith Lia.
From S2P Require Import Prelude GoString Httpx Store Social Jobs.

Set Default Goal Selector "!".
Open Scope Z_scope.

Definition TypeNewMessage : string := "new_message".
Definition TypeMention : string := "mention".
Definition TypeReply : string := "reply".
Definition TypeReaction : string := "reaction".
Definition TypeChannelPost : string := "channel_post".
Definition TypeBreakingNews : string := "breaking_news".
Definition TypeCall : string := "call".
Definition TypeGroupInvite : string := "group_invite".
Definition TypeContactRequest : string := "contact_request".
Definition TypeStory : string := "story".
Definition TypeSystem : string := "system".
Definition notification_types : list string :=
  [TypeNewMessage; TypeMention; TypeReply; TypeReaction; TypeChannelPost; TypeBreakingNews; TypeCall; TypeGroupInvite;
   TypeContactRequest; TypeStory; TypeSystem].

(** ** Tables *)

(** [notifications] *)
Record notification_row := MkNotificationRow {
  nt_user : uuid;
  nt_type : string;
  nt_title : string;
  nt_body : string;
  nt_data : json;
  nt_priority : string;
  nt_read_at : option time;
  nt_created_at : time;
}.
Definition with_nt_read_at v (n : notification_row) :=
  MkNotificationRow (nt_user n) (nt_type n) (nt_title n) (nt_body n) (nt_data n) (nt_priority n) v (nt_created_at n).
(** [notification_settings] and the Go [Settings] *)
Record NotifySettings := MkNotifySettings {
  ns_PrivateChats : bool;
  ns_Groups : bool;
  ns_Channels : bool;
  ns_BreakingNews : bool;
  ns_Calls : bool;
  ns_Stories : bool;
  ns_ShowPreview : bool;
  ns_QuietHoursStart : option Z;
  ns_QuietHoursEnd : option Z;
}.
(** [push_tokens] *)
Record push_token_row := MkPushTokenRow {
  pu_user : uuid;
  pu_device : uuid;
  pu_provider : string;
  pu_token : string;
  pu_locale : string;
  pu_is_valid : bool;
  pu_failure_count : Z;
}.
Definition invalidated (t : push_token_row) := MkPushTokenRow (pu_user t) (pu_device t) (pu_provider t) (pu_token t) (pu_locale t) false (pu_failure_count t).
Definition retired (t : push_token_row) := MkPushTokenRow (pu_user t) (pu_device t) (pu_provider t) (pu_token t) (pu_locale t) false (pu_failure_count t + 1).
(** [notification_deliveries] *)
Record delivery_row := MkDeliveryRow {
  de_notification : uuid; de_token : uuid; de_provider : string; de_status : string; de_error : string; de_sent_at : option time }.
(** The payload of a push job. *)
Record push_job := MkPushJob {
  pj_notification_id : uuid;
  pj_user_id : uuid;
  pj_type : string;
  pj_title : string;
  pj_body : string;
  pj_data : json;
  pj_priority : string;
}.
Record notifydb := MkNotifyDb {
  ny_graph : socialdb;
  ny_devices : gmap uuid device_row;
  ny_device_push : gmap uuid (string * string);
  notifications : gmap uuid notification_row;
  notification_settings : gmap uuid NotifySettings;
  push_tokens : gmap uuid push_token_row;
  notification_deliveries : list delivery_row;
  ny_jobs : list (Job push_job);
}.
Definition with_notifications v d := MkNotifyDb (ny_graph d) (ny_devices d) (ny_device_push d) v (notification_settings d) (push_tokens d) (notification_deliveries d) (ny_jobs d).
Definition with_notification_settings v d := MkNotifyDb (ny_graph d) (ny_devices d) (ny_device_push d) (notifications d) v (push_tokens d) (notification_deliveries d) (ny_jobs d).
Definition with_push_tokens v d := MkNotifyDb (ny_graph d) (ny_devices d) (ny_device_push d) (notifications d) (notification_settings d) v (notification_deliveries d) (ny_jobs d).
Definition with_deliveries v d := MkNotifyDb (ny_graph d) (ny_devices d) (ny_device_push d) (notifications d) (notification_settings d) (push_tokens d) v (ny_jobs d).
Definition with_device_push v d := MkNotifyDb (ny_graph d) (ny_devices d) v (notifications d) (notification_settings d) (push_tokens d) (notification_deliveries d) (ny_jobs d).
Definition with_ny_jobs v d := MkNotifyDb (ny_graph d) (ny_devices d) (ny_device_push d) (notifications d) (notification_settings d) (push_tokens d) (notification_deliveries d) v.

Inductive notifyerr := NotifyNotFound | NotifyDatabase | NotifyBus.

(** ** Repository *)

Record Notification := MkNotification {
  no_ID : uuid; no_Type : string; no_Title : string; no_Body : string; no_Data : json; no_Priority : string; no_ReadAt : option time;
  no_CreatedAt : time }.
Definition notification_of (r : uuid * notification_row) : Notification :=
  MkNotification r.1 (nt_type r.2) (nt_title r.2) (nt_body r.2) (nt_data r.2) (nt_priority r.2) (nt_read_at r.2) (nt_created_at r.2).
Definition unread (n : notification_row) : bool := if nt_read_at n is None then true else false.
Definition CreateNotification (now : time) (id userID : uuid) (type title body : string) (data : json) (priority : string)
    : prog notifydb notifyerr Notification := λ d,
  let row := MkNotificationRow userID type title body data priority None now in
  if bool_decide (type ∈ notification_types) && bool_decide (priority ∈ ["normal"; "high"]%string) && has_account userID (ny_graph d)
     && negb (bool_decide (is_Some (notifications d !! id)))
  then (Ok (notification_of (id, row)), with_notifications (<[id := row]> (notifications d)) d)
  else (Err NotifyDatabase, d).
Definition ListNotifications (userID : uuid) (unreadOnly : bool) (limit : Z) (before : option time) d : list Notification :=
  notification_of <$> take (Z.to_nat limit) (order_by_desc (λ r, nt_created_at r.2)
    (rows_where (λ _ n, bool_decide (nt_user n = userID) && (negb unreadOnly || unread n)
       && from_option (λ t, nt_created_at n <? t) true before) (notifications d))).
Definition UnreadCount (userID : uuid) d : Z := count_where (λ _ n, bool_decide (nt_user n = userID) && unread n) (notifications d).
Definition MarkNotificationsRead (now : time) (userID : uuid) (ids : list uuid) d : notifydb :=
  with_notifications (update_where (λ id n, bool_decide (nt_user n = userID) && (bool_decide (ids = []) || bool_decide (id ∈ ids)) && unread n)
    (λ _, with_nt_read_at (Some now)) (notifications d)) d.
Definition UpdateNotifySettings (userID : uuid) (s : NotifySettings) : prog notifydb notifyerr () := λ d,
  if has_account userID (ny_graph d) then (Ok (), with_notification_settings (<[userID := s]> (notification_settings d)) d)
  else (Err NotifyDatabase, d).
Definition token_is (provider token : string) (_ : uuid) (t : push_token_row) : bool :=
  bool_decide (pu_provider t = provider) && bool_decide (pu_token t = token).
(** The insert meets [UNIQUE (provider, token)] with an update; then the device. *)
Definition RegisterPushToken (id userID deviceID : uuid) (provider token locale : string) : prog notifydb notifyerr () := λ d,
  let row failures := MkPushTokenRow userID deviceID provider token locale true failures in
  if negb (has_account userID (ny_graph d)) || negb (bool_decide (is_Some (ny_devices d !! deviceID))) then (Err NotifyDatabase, d)
  else
    match rows_where (token_is provider token) (push_tokens d) with
    | (k, _) :: _ =>
        (Ok (), with_device_push (<[deviceID := (token, provider)]> (ny_device_push d)) (with_push_tokens (<[k := row 0]> (push_tokens d)) d))
    | [] =>
        if bool_decide (is_Some (push_tokens d !! id)) then (Err NotifyDatabase, d)
        else (Ok (), with_device_push (<[deviceID := (token, provider)]> (ny_device_push d)) (with_push_tokens (<[id := row 0]> (push_tokens d)) d))
    end.
Definition UnregisterPushToken (provider token : string) d : notifydb :=
  with_push_tokens (update_where (token_is provider token) (λ _, invalidated) (push_tokens d)) d.
Record PushToken := MkPushToken { pt_ID : uuid; pt_DeviceID : uuid; pt_Provider : string; pt_Token : string; pt_Locale : string }.
Definition device_live (deviceID : uuid) d : bool := from_option (λ v, if d_revoked_at v is None then true else false) false (ny_devices d !! deviceID).
Definition TokensFor (userID : uuid) d : list PushToken :=
  (λ t : uuid * push_token_row, MkPushToken t.1 (pu_device t.2) (pu_provider t.2) (pu_token t.2) (pu_locale t.2)) <$>
    rows_where (λ _ t, bool_decide (pu_user t = userID) && pu_is_valid t && device_live (pu_device t) d) (push_tokens d).
Definition RecordDelivery (now : time) (notificationID tokenID : uuid) (provider status errText : string) d : notifydb :=
  with_deliveries (notification_deliveries d ++
    [MkDeliveryRow notificationID tokenID provider status errText (if decide (status = "sent"%string) then Some now else None)]) d.
Definition InvalidateToken (tokenID : uuid) d : notifydb :=
  with_push_tokens (update_where (λ id _, bool_decide (id = tokenID)) (λ _, retired) (push_tokens d)) d.
Definition wants_breaking (u : uuid) (s : NotifySettings) d : bool :=
  ns_BreakingNews s
  && from_option (λ a, live_account a && bool_decide (ac_status a = "active"%string)) false (accounts (ny_graph d) !! u).
Definition audience d : list uuid :=
  order_by Z.of_N (rows_where (λ u s, wants_breaking u s d) (notification_settings d)).*1.
Definition BreakingNewsAudience (limit offset : nat) d : list uuid := take limit (drop offset (audience d)).

(** ** Service *)

Definition allowsType (s : NotifySettings) (type : string) : bool :=
  if bool_decide (type ∈ [TypeNewMessage; TypeReply; TypeReaction]) then ns_PrivateChats s || ns_Groups s
  else if bool_decide (type = TypeChannelPost) then ns_Channels s
  else if bool_decide (type = TypeBreakingNews) then ns_BreakingNews s
  else if bool_decide (type = TypeCall) then ns_Calls s
  else if bool_decide (type = TypeStory) then ns_Stories s
  else true.
(** The hour on the server's clock. *)
Definition hour_of_day (offset : time → Z) (now : time) : Z := ((now + offset now) / hour) mod 24.
Definition inQuietHours (offset : time → Z) (s : NotifySettings) (now : time) : bool :=
  match ns_QuietHoursStart s, ns_QuietHoursEnd s with
  | Some start, Some end_ =>
      if start =? end_ then false
      else
        let hour := hour_of_day offset now in
        if start <? end_ then (start <=? hour) && (hour <? end_) else (start <=? hour) || (hour <? end_)
  | _, _ => false
  end.

Section delivering.
Context `{JetStream push_job} (offset : time → Z).

Definition publish_push (now : time) (payload : push_job) : prog notifydb notifyerr () := λ d,
  match PublishJob now SubjectJobPushSend (uuid_String (pj_notification_id payload)) payload (ny_jobs d) with
  | (Ok _, jobs) => (Ok (), with_ny_jobs jobs d)
  | (Err _, jobs) => (Err NotifyBus, with_ny_jobs jobs d)
  end.
Definition quiet_now (now : time) (type : string) (settings : option NotifySettings) : bool :=
  from_option (λ s, negb (bool_decide (type = TypeCall)) && inQuietHours offset s now) false settings.
Definition shows_preview (settings : option NotifySettings) : bool := from_option ns_ShowPreview true settings.
Definition push_of (id userID : uuid) (type title body : string) (data : json) (priority : string) (settings : option NotifySettings) : push_job :=
  if shows_preview settings then MkPushJob id userID type title body data priority
  else MkPushJob id userID type "SOBH" "" data priority.
Definition Deliver (now : time) (id userID : uuid) (type title body : string) (data : json) (priority : string) : prog notifydb notifyerr () :=
  settings ← gets (λ d, notification_settings d !! userID);
  if negb (from_option (λ s, allowsType s type) true settings) then mret ()
  else
    CreateNotification now id userID type title body data priority;;
    if quiet_now now type settings then mret ()
    else publish_push now (push_of id userID type title body data priority settings).

Definition default_settings : NotifySettings := MkNotifySettings true true true true true false true None None.
Definition Notify_List (userID : uuid) (unreadOnly : bool) (limit : Z) (before : option time) : prog notifydb Error (list Notification) :=
  gets (ListNotifications userID unreadOnly (if (limit <=? 0) || (100 <? limit) then 50 else limit) before).
Definition Notify_UnreadCount (userID : uuid) : prog notifydb Error Z := gets (UnreadCount userID).
Definition Notify_MarkRead (now : time) (userID : uuid) (ids : list uuid) : prog notifydb Error () := modify (MarkNotificationsRead now userID ids).
Definition Notify_Settings (userID : uuid) : prog notifydb Error NotifySettings :=
  gets (λ d, default default_settings (notification_settings d !! userID)).
Definition bad_hour (h : option Z) : bool := from_option (λ h, (h <? 0) || (23 <? h)) false h.
Definition Notify_UpdateSettings (userID : uuid) (s : NotifySettings) : prog notifydb Error () :=
  fail_if (bad_hour (ns_QuietHoursStart s) || bad_hour (ns_QuietHoursEnd s))
    (WithField (Validation "Quiet hours must be an hour of the day") "quiet_hours" "between 0 and 23");;
  map_err (λ _, Internal) (UpdateNotifySettings userID s).
Definition Notify_RegisterToken (id userID deviceID : uuid) (provider token locale : string) : prog notifydb Error () :=
  fail_if (negb (bool_decide (provider ∈ ["fcm"; "apns"; "web"]%string)))
    (WithField (Validation "Unsupported push provider") "provider" "must be fcm, apns or web");;
  fail_if (bool_decide (token = ""%string)) (WithField (Validation "A push token is required") "token" "required");;
  map_err (λ _, Internal) (RegisterPushToken id userID deviceID provider token (if decide (locale = ""%string) then "fa"%string else locale)).
Definition Notify_UnregisterToken (provider token : string) : prog notifydb Error () := modify (UnregisterPushToken provider token).

(** ** The breaking-news job *)

Record news_job := MkNewsJob { nj_article : uuid; nj_slug : string; nj_title : string; nj_locale : string }.
Definition breakingTitle (locale : string) : string :=
  if decide (locale = "en"%string) then "🔴 Breaking news"
  else if decide (locale = "ar"%string) then "🔴 خبر عاجل"
  else if decide (locale = "tr"%string) then "🔴 Son dakika"
  else "🔴 خبر فوری".
Definition news_data (p : news_job) : json := JObj [("article_id", JStr (uuid_String (nj_article p))); ("slug", JStr (nj_slug p))]%string.
(** One reader; an error is logged. *)
Definition dispatch (now : time) (ids : uuid → uuid) (p : news_job) d (userID : uuid) : notifydb :=
  (Deliver now (ids userID) userID TypeBreakingNews (breakingTitle (nj_locale p)) (nj_title p) (news_data p) "high" d).2.
Definition page_size : nat := 500.
Fixpoint dispatch_pages (fuel : nat) (now : time) (ids : uuid → uuid) (p : news_job) (off : nat) d : option notifydb :=
  match fuel with
  | O => None
  | S fuel =>
      match BreakingNewsAudience page_size off d with
      | [] => Some d
      | page =>
          let d := foldl (dispatch now ids p) d page in
          if (length page <? page_size)%nat then Some d else dispatch_pages fuel now ids p (off + length page) d
      end
  end.
(** One page more than the rows there are. *)
Definition handleNewsPublish (now : time) (ids : uuid → uuid) (p : news_job) d : option notifydb :=
  dispatch_pages (S (length (audience d))) now ids p 0 d.
End delivering.

(** ** The push job *)

(** A push, rendered per provider, and what became of it. *)
Record push_message := MkPushMessage {
  pm_Token : string;
  pm_Title : string;
  pm_Body : string;
  pm_Data : gmap string string;
  pm_Priority : string;
  pm_Badge : option Z;
  pm_Sound : string;
  pm_CollapseKey : string;
}.
Record SendResult := MkSendResult { sr_Delivered : bool; sr_TokenInvalid : bool; sr_Detail : string }.

Section pushing.
(** [json.Marshal] of a decoded value. *)
Context (marshal : json → string).

(** What unmarshals into a [map[string]any]: of a repeated key the last value. *)
Definition json_fields (data : json) : gmap string json :=
  match data with JObj l => foldl (λ m kv, <[kv.1 := kv.2]> m) ∅ l | _ => ∅ end.
Definition push_field (v : json) : option string :=
  match v with JStr s => Some s | JNull => None | v => Some (marshal v) end.
Definition pushData (type : string) (notificationID : uuid) (data : json) : gmap string string :=
  omap push_field (json_fields data) ∪ {["type"%string := type; "notification_id"%string := uuid_String notificationID]}.
Definition string_field (key : string) (fields : gmap string json) : option string :=
  match fields !! key with Some (JStr s) => if decide (s = ""%string) then None else Some s | _ => None end.
Definition collapseKeyFor (type : string) (data : json) : string :=
  let fields := json_fields data in
  match string_field "chat_id" fields, string_field "article_id" fields with
  | Some chat, _ => "chat-" +:+ chat
  | None, Some article => "article-" +:+ article
  | None, None => type
  end.
Definition push_message_for (j : push_job) (t : PushToken) : push_message :=
  MkPushMessage (pt_Token t) (pj_title j) (pj_body j) (pushData (pj_type j) (pj_notification_id j) (pj_data j)) (pj_priority j) None ""
    (collapseKeyFor (pj_type j) (pj_data j)).

(** The providers that are configured. *)
Context (senders : gmap string (push_message → result string SendResult)).
Definition push_to (now : time) (j : push_job) d (t : PushToken) : notifydb :=
  let record status detail d := RecordDelivery now (pj_notification_id j) (pt_ID t) (pt_Provider t) status detail d in
  match senders !! pt_Provider t with
  | None => d
  | Some send =>
      match send (push_message_for j t) with
      | Err e => record "failed" e d
      | Ok r =>
          if sr_TokenInvalid r then record "dropped" (sr_Detail r) (InvalidateToken (pt_ID t) d)
          else if sr_Delivered r then record "sent" "" d
          else record "failed" (sr_Detail r) d
      end
  end%string.
Definition handlePushSend (now : time) (j : push_job) d : notifydb :=
  if bool_decide (senders = ∅) then d else foldl (push_to now j) d (TokensFor (pj_user_id j) d).
End pushing.
