(* ===== verification/PushSenders.v ===== *)
(** * The push providers ([internal/notifications/push.go])

    FCM and APNs: the provider tokens they cache, the requests they make and how an answer
    is read.  The HTTP exchange and the signing are parameters; a signer may fail. *)

From stdpp Require Import base tactics list gmap strings.
From Stdlib Require Import ZArith Lia.
From S2P Require Import Prelude GoString Httpx Jobs Notifications.

Set Default Goal Selector "!".
Open Scope Z_scope.

Record PushConfig := MkPushConfig {
  FCMEndpoint : string;
  APNsEndpoint : string;
  APNsTeamID : string;
  APNsKeyID : string;
  APNsBundleID : string;
}.
Record request := MkRequest { rq_url : string; rq_headers : list (string * string); rq_body : json }.
Record response := MkResponse { rs_status : Z; rs_body : list N }.

Definition defaultString (value fallback : string) : string := if decide (value = ""%string) then fallback else value.
Definition truncate (value : string) (max : Z) : string := if len value <=? max then value else slice value 0 max.
(** What is kept of an error answer. *)
Definition detail_of (body : list N) : list N := take 512 body.
Definition strings_json (data : gmap string string) : list (string * json) := (λ kv : string * string, (kv.1, JStr kv.2)) <$> map_to_list data.
(** [strings.TrimRight(s, "/")] *)
Definition trim_slashes (s : string) : string :=
  string_of (reverse ((fix drop l := match l with 47%N :: l => drop l | _ => l end) (reverse (bytes_of s)))).

(** ** FCM *)

(** The cached access token. *)
Record fcm_cache := MkFcmCache { fc_token : string; fc_expires_at : time }.
(** What the token endpoint answered: nothing readable, or a token and its lifetime. *)
Definition accessTokenFor (now : time) (answer : option (string * Z)) : prog fcm_cache string string := λ c,
  if negb (bool_decide (fc_token c = ""%string)) && (now <? fc_expires_at c - minute) then (Ok (fc_token c), c)
  else
    match answer with
    | None => (Err "notifications: request FCM token"%string, c)
    | Some (token, expires_in) =>
        if decide (token = ""%string) then (Err "notifications: FCM returned no access token"%string, c)
        else (Ok token, MkFcmCache token (now + expires_in * second))
    end.
Definition fcm_payload (m : push_message) : json :=
  JObj [("message", JObj [
    ("token", JStr (pm_Token m));
    ("notification", JObj [("title", JStr (pm_Title m)); ("body", JStr (pm_Body m))]);
    ("data", JObj (strings_json (pm_Data m)));
    ("android", JObj [
      ("priority", JStr (if decide (pm_Priority m = "high"%string) then "high" else "normal"));
      ("collapse_key", JStr (pm_CollapseKey m));
      ("notification", JObj [
        ("sound", JStr (defaultString (pm_Sound m) "default"));
        ("channel_id", JStr "sobh_messages");
        ("default_vibrate_timings", JBool true)])])])]%string.
Definition fcm_request (cfg : PushConfig) (projectID token : string) (m : push_message) : request :=
  MkRequest (trim_slashes (FCMEndpoint cfg) +:+ "/projects/" +:+ projectID +:+ "/messages:send")
    [("Authorization", "Bearer " +:+ token); ("Content-Type", "application/json")]%string (fcm_payload m).
Definition fcm_result (r : response) : SendResult :=
  if rs_status r <? 300 then MkSendResult true false ""
  else
    let detail := detail_of (rs_body r) in
    let invalid := (rs_status r =? 404) || contains detail (bytes_of "UNREGISTERED") || contains detail (bytes_of "INVALID_ARGUMENT") in
    MkSendResult false invalid ("fcm " +:+ Itoa (rs_status r) +:+ ": " +:+ trim_space (string_of detail)).

Section sending.
Context (http : request → option response).

Definition fcm_Send (now : time) (cfg : PushConfig) (projectID : string) (answer : option (string * Z)) (m : push_message)
    : prog fcm_cache string SendResult :=
  token ← accessTokenFor now answer;
  match http (fcm_request cfg projectID token m) with
  | None => fail "notifications: FCM send"%string
  | Some r => mret (fcm_result r)
  end.

(** ** APNs *)

(** The cached provider token. *)
Record apns_cache := MkApnsCache { ap_token : string; ap_issued_at : time }.
Definition authToken (now : time) (sign : option string) : prog apns_cache string string := λ c,
  if negb (bool_decide (ap_token c = ""%string)) && (now - ap_issued_at c <? 45 * minute) then (Ok (ap_token c), c)
  else
    match sign with
    | None => (Err "notifications: sign APNs token"%string, c)
    | Some token => (Ok token, MkApnsCache token now)
    end.
Definition apns_aps (m : push_message) : json :=
  let alert := JObj (("title"%string, JStr (pm_Title m)) :: (if decide (pm_Body m = ""%string) then [] else [("body"%string, JStr (pm_Body m))])) in
  let badge := match pm_Badge m with Some n => [("badge"%string, JInt n)] | None => [] end in
  JObj (("alert"%string, alert) :: ("sound"%string, JStr (defaultString (pm_Sound m) "default")) :: badge).
(** A data field named [aps] would take its place. *)
Definition apns_payload (m : push_message) : gmap string json := (JStr <$> pm_Data m) ∪ {["aps"%string := apns_aps m]}.
Definition apns_request (cfg : PushConfig) (token : string) (m : push_message) : request :=
  MkRequest (trim_slashes (APNsEndpoint cfg) +:+ "/3/device/" +:+ pm_Token m)
    ([("authorization", "bearer " +:+ token); ("apns-topic", APNsBundleID cfg); ("apns-push-type", "alert")]%string
     ++ (if decide (pm_CollapseKey m = ""%string) then [] else [("apns-collapse-id"%string, truncate (pm_CollapseKey m) 64)])
     ++ [("apns-priority", if decide (pm_Priority m = "high"%string) then "10" else "5")]%string)
    (JObj (map_to_list (apns_payload m))).
Definition apns_result (r : response) : SendResult :=
  if rs_status r =? 200 then MkSendResult true false ""
  else
    let detail := detail_of (rs_body r) in
    let invalid := (rs_status r =? 410) || contains detail (bytes_of "BadDeviceToken") || contains detail (bytes_of "Unregistered") in
    MkSendResult false invalid ("apns " +:+ Itoa (rs_status r) +:+ ": " +:+ trim_space (string_of detail)).
Definition apns_Send (now : time) (cfg : PushConfig) (sign : option string) (m : push_message) : prog apns_cache string SendResult :=
  token ← authToken now sign;
  match http (apns_request cfg token m) with
  | None => fail "notifications: APNs send"%string
  | Some r => mret (apns_result r)
  end.
End sending.
