(* ===== verification/NotificationsTheory.v ===== *)
(** * Notifications: the theorems

    A breaking story reaches everybody who asked for it once; a push is tried on every live
    device and on none twice; a push token belongs to whoever registered it last. *)

From stdpp Require Import base tactics list sorting gmap strings.
From Stdlib Require Import ZArith Lia.
From S2P Require Import Prelude GoString Httpx Store Social Jobs Notifications PushSenders.

Set Default Goal Selector "!".
Open Scope Z_scope.

(** ** A breaking story *)

Section breaking.
Context `{JetStream push_job} (offset : time → Z).
Implicit Types (d : notifydb).

Lemma order_of_NoDup (l : list N) : NoDup l → NoDup (order_by Z.of_N l).
Proof. by rewrite order_by_Permutation. Qed.
Lemma audience_NoDup d : NoDup (audience d).
Proof. apply order_of_NoDup, NoDup_fst_rows_where. Qed.
Lemma elem_of_audience u d : u ∈ audience d ↔ ∃ s, notification_settings d !! u = Some s ∧ wants_breaking u s d = true.
Proof.
  unfold audience. rewrite elem_of_order_by, elem_of_fst_rows_where, fmap_Some. split; intros (s & Hs & Hw); exists s; by rewrite ?Hw.
Qed.

Definition story_note (now : time) (p : news_job) (u : uuid) : notification_row :=
  MkNotificationRow u TypeBreakingNews (breakingTitle (nj_locale p)) (nj_title p) (news_data p) "high" None now.
Definition story_push (ids : uuid → uuid) (p : news_job) d (u : uuid) : push_job :=
  push_of (ids u) u TypeBreakingNews (breakingTitle (nj_locale p)) (nj_title p) (news_data p) "high" (notification_settings d !! u).
(** What telling some readers does. *)
Record dispatched (now : time) (ids : uuid → uuid) (p : news_job) (us : list uuid) d d' : Prop := {
  di_notes : ∀ id n, notifications d' !! id = Some n ↔
    notifications d !! id = Some n ∨ ∃ u, u ∈ us ∧ id = ids u ∧ n = story_note now p u;
  di_jobs : ∃ new, ny_jobs d' = ny_jobs d ++ new ∧
    ∀ j, j ∈ new → jb_Type j = SubjectJobPushSend ∧
      ∃ u, u ∈ us ∧ jb_Payload j = story_push ids p d u ∧ quiet_now offset now TypeBreakingNews (notification_settings d !! u) = false;
  di_settings : notification_settings d' = notification_settings d;
  di_graph : ny_graph d' = ny_graph d;
  di_tokens : push_tokens d' = push_tokens d;
  di_deliveries : notification_deliveries d' = notification_deliveries d;
}.
Lemma dispatched_nil now ids p d : dispatched now ids p [] d d.
Proof.
  split; [|exists []|done..].
  - intros id n. split; [by left|]. by intros [|(u & []%elem_of_nil & _)].
  - rewrite app_nil_r. split; [done|]. by intros j ?%elem_of_nil.
Qed.
Lemma dispatched_app now ids p us1 us2 d1 d2 d3 : dispatched now ids p us1 d1 d2 → dispatched now ids p us2 d2 d3 →
  dispatched now ids p (us1 ++ us2) d1 d3.
Proof.
  intros [N1 (n1 & J1 & J1') S1 G1 T1 D1] [N2 (n2 & J2 & J2') S2 G2 T2 D2]. split; [|exists (n1 ++ n2)|congruence..].
  - intros id n. rewrite N2, N1. setoid_rewrite elem_of_app. naive_solver.
  - split; [by rewrite J2, J1, app_assoc|]. intros j [Hj|Hj]%elem_of_app.
    + destruct (J1' j Hj) as (? & u & ? & ?). split; [done|]. exists u. by rewrite elem_of_app; auto.
    + destruct (J2' j Hj) as (? & u & ? & Hp & Hq). split; [done|]. exists u. unfold story_push in *. rewrite S1 in Hp, Hq. by rewrite elem_of_app; auto.
Qed.
Lemma audience_same d d' : notification_settings d' = notification_settings d → ny_graph d' = ny_graph d → audience d' = audience d.
Proof. intros Hs Hg. unfold audience, wants_breaking. by rewrite Hs, Hg. Qed.

Lemma CreateNotification_fresh now id u type title body data priority d :
  type ∈ notification_types → priority ∈ ["normal"; "high"]%string → has_account u (ny_graph d) = true → notifications d !! id = None →
  CreateNotification now id u type title body data priority d =
    (Ok (notification_of (id, MkNotificationRow u type title body data priority None now)),
     with_notifications (<[id := MkNotificationRow u type title body data priority None now]> (notifications d)) d).
Proof.
  intros Ht Hp Ha Hn. unfold CreateNotification. rewrite !bool_decide_true by done. rewrite Ha, bool_decide_false; [done|].
  rewrite Hn. by intros [].
Qed.
Lemma dispatch_reader now ids p d u : u ∈ audience d → notifications d !! ids u = None →
  dispatched now ids p [u] d (dispatch offset now ids p d u).
Proof.
  intros (s & Hs & [Hb Ha]%andb_true_iff)%elem_of_audience Hn. unfold dispatch, Deliver. rewrite bind_run. unfold gets. cbn beta iota.
  rewrite Hs. cbn [from_option]. assert (allowsType s TypeBreakingNews = true) as -> by done. cbn [negb]. rewrite bind_run.
  rewrite CreateNotification_fresh; [|by vm_compute; repeat constructor|by right; left| |done].
  2:{ unfold has_account. destruct (accounts (ny_graph d) !! u); [by apply bool_decide_true; eexists|done]. }
  cbn beta iota. set (d1 := with_notifications _ d).
  assert (∀ d2, ny_jobs d2 = ny_jobs d1 ∨ (quiet_now offset now TypeBreakingNews (Some s) = false ∧
      ny_jobs d2 = ny_jobs d1 ++ [MkJob (uuid_String (ids u)) SubjectJobPushSend (story_push ids p d u) now]) →
    notifications d2 = notifications d1 → notification_settings d2 = notification_settings d1 → ny_graph d2 = ny_graph d1 →
    push_tokens d2 = push_tokens d1 → notification_deliveries d2 = notification_deliveries d1 → dispatched now ids p [u] d d2) as Hgoal.
  { intros d2 Hj Hn2 Hs2 Hg2 Ht2 Hd2. split; [| |done..].
    - intros id n. rewrite Hn2. subst d1. simpl. split.
      + intros [[<- <-]|[_ ?]]%lookup_insert_Some; [|by left]. right. exists u. split; [by left|done].
      + intros [Hl|(u' & ->%list_elem_of_singleton & -> & ->)]; [|apply lookup_insert_eq].
        rewrite lookup_insert_ne; [done|]. intros <-. congruence.
    - destruct Hj as [Hj|[Hq Hj]]; rewrite Hj.
      + exists []. rewrite app_nil_r. split; [done|]. by intros j ?%elem_of_nil.
      + eexists. split; [done|]. intros j ->%list_elem_of_singleton. split; [done|]. exists u. rewrite Hs. split; [by left|done]. }
  destruct (quiet_now offset now TypeBreakingNews (Some s)) eqn:Hq; [apply Hgoal; auto|].
  unfold publish_push. destruct (PublishJob _ _ _ _ (ny_jobs d1)) as [[[]|e] l] eqn:Hp; cbn [snd].
  - apply PublishJob_run in Hp. apply Hgoal; [|done..]. simpl. rewrite Hp. unfold story_push. rewrite Hs. cbn [jb_ID pj_notification_id].
    destruct (_ && _); [by left|]. right. split; [done|]. unfold push_of. by destruct (shows_preview (Some s)).
  - unfold PublishJob in Hp. destruct (js_Publish _ _); [done|]. simplify_eq. apply Hgoal; auto.
Qed.
Lemma dispatch_readers now ids p us d : (∀ u, u ∈ us → u ∈ audience d) → NoDup us → NoDup (ids <$> us) →
  (∀ u, u ∈ us → notifications d !! ids u = None) → dispatched now ids p us d (foldl (dispatch offset now ids p) d us).
Proof.
  intros Haud Hnd Hids Hfresh. revert d Haud Hfresh. induction us as [|u us IH]; intros d Haud Hfresh; [apply dispatched_nil|].
  apply NoDup_cons in Hnd as [Hu Hnd]. rewrite fmap_cons in Hids. apply NoDup_cons in Hids as [Hid Hids]. simpl.
  assert (dispatched now ids p [u] d (dispatch offset now ids p d u)) as Hone by (apply dispatch_reader; [apply Haud|apply Hfresh]; by left).
  apply (dispatched_app now ids p [u] us _ (dispatch offset now ids p d u)); [done|]. apply IH; [done|done| |].
  - intros u' Hu'. rewrite (audience_same d) by apply Hone. apply Haud. by right.
  - intros u' Hu'. apply eq_None_not_Some. intros [n Hn]. apply (di_notes _ _ _ _ _ _ Hone) in Hn as [Hn|(u2 & ->%list_elem_of_singleton & Heq & _)].
    + rewrite Hfresh in Hn by (by right). done.
    + apply Hid. rewrite <-Heq. by apply list_elem_of_fmap_2.
Qed.
(** The loop over pages tells everybody past its offset. *)
Lemma dispatch_pages_run fuel now ids p off d :
  (length (drop off (audience d)) < fuel)%nat →
  (∀ us, us ⊆ audience d → audience (foldl (dispatch offset now ids p) d us) = audience d) →
  dispatch_pages offset fuel now ids p off d = Some (foldl (dispatch offset now ids p) d (drop off (audience d))).
Proof.
  revert off d. induction fuel as [|fuel IH]; intros off d Hlen Hsame; [lia|]. simpl. unfold BreakingNewsAudience.
  destruct (drop off (audience d)) as [|u rest] eqn:Hdrop; [done|].
  destruct (take page_size (u :: rest)) as [|v0 page0] eqn:Htake; [done|].
  change (dispatch offset now ids p d v0) with (foldl (dispatch offset now ids p) d [v0]). rewrite <-foldl_app.
  change (S (length page0)) with (length (v0 :: page0)). change ([v0] ++ page0) with (v0 :: page0). rewrite <-Htake.
  set (page := take page_size (u :: rest)). assert (u :: rest = page ++ drop page_size (u :: rest)) as Hsplit by (symmetry; apply take_drop).
  assert (∀ v, v ∈ u :: rest → v ∈ audience d) as Hsub.
  { intros v Hv. rewrite <-Hdrop in Hv. apply list_elem_of_lookup in Hv as [i Hi]. rewrite lookup_drop in Hi. by apply list_elem_of_lookup_2 in Hi. }
  destruct (length page <? page_size)%nat eqn:Hlast.
  - apply Nat.ltb_lt in Hlast. subst page. rewrite length_take in Hlast. rewrite take_ge by lia. done.
  - apply Nat.ltb_ge in Hlast.
    assert (length page = page_size) as Hp by (subst page; rewrite length_take in *; lia).
    assert (audience (foldl (dispatch offset now ids p) d page) = audience d) as Haud.
    { apply Hsame. intros v Hv. apply Hsub. rewrite Hsplit. apply elem_of_app. by left. }
    rewrite IH.
    + rewrite Haud, <-drop_drop, Hdrop, Hp. rewrite Hsplit at 2. by rewrite foldl_app.
    + rewrite Haud, <-drop_drop, Hdrop, length_drop, Hp. unfold page_size in *. simpl in *. lia.
    + intros us Hus. rewrite Haud in Hus. rewrite <-foldl_app, Haud. apply Hsame. intros v [Hv|Hv]%elem_of_app; [|by apply Hus].
      apply Hsub. rewrite Hsplit. apply elem_of_app. by left.
Qed.
Lemma dispatch_audience now ids p us d : audience (foldl (dispatch offset now ids p) d us) = audience d.
Proof.
  revert d. induction us as [|u us IH]; intros d; [done|]. simpl. rewrite IH. apply audience_same; unfold dispatch, Deliver; rewrite bind_run; unfold gets; cbn beta iota;
    destruct (negb _); try done; rewrite bind_run; unfold CreateNotification; destruct (_ && _); try done; cbn beta iota;
    destruct (quiet_now _ _ _ _); try done; unfold publish_push; by destruct (PublishJob _ _ _ _ _) as [[]].
Qed.

(** A breaking story reaches everybody who asked for it, once.  Whatever the number of
    readers the job ends, and then there is one new notification for each account that is
    active, not deleted and has breaking news switched on, and none for anybody else; the
    pushes it queued are for such readers only, none of them in their quiet hours, and a
    reader who hides previews is sent neither the headline nor the title. *)
Lemma breaking_news_reaches_its_audience now ids p d : NoDup (ids <$> audience d) →
  (∀ u, u ∈ audience d → notifications d !! ids u = None) →
  ∃ d', handleNewsPublish offset now ids p d = Some d' ∧
    (∀ id n, notifications d' !! id = Some n ↔ notifications d !! id = Some n ∨ ∃ u, u ∈ audience d ∧ id = ids u ∧ n = story_note now p u) ∧
    (∃ new, ny_jobs d' = ny_jobs d ++ new ∧
      ∀ j, j ∈ new → ∃ u s, u ∈ audience d ∧ notification_settings d !! u = Some s ∧ pj_user_id (jb_Payload j) = u ∧
        inQuietHours offset s now = false ∧
        (ns_ShowPreview s = false → pj_title (jb_Payload j) = "SOBH"%string ∧ pj_body (jb_Payload j) = ""%string) ∧
        (ns_ShowPreview s = true → pj_body (jb_Payload j) = nj_title p)).
Proof.
  intros Hids Hfresh. eexists. split; [|split].
  - apply dispatch_pages_run; [rewrite drop_0; lia|]. intros us _. apply dispatch_audience.
  - rewrite drop_0. apply (dispatch_readers now ids p (audience d) d); [done|apply audience_NoDup|done|done].
  - rewrite drop_0. destruct (dispatch_readers now ids p (audience d) d) as [_ (new & Hnew & Hj) _ _ _ _]; [done|apply audience_NoDup|done|done|].
    exists new. split; [done|]. intros j Hin. destruct (Hj j Hin) as (_ & u & Hu & Hp & Hq).
    pose proof Hu as (s & Hs & _)%elem_of_audience. rewrite Hs in Hq. exists u, s. split; [done|]. split; [done|].
    rewrite Hp. unfold story_push, push_of. rewrite Hs. simpl in *. by destruct (ns_ShowPreview s).
Qed.
End breaking.

(** ** A push to the devices of somebody *)

Section pushing.
Context (marshal : json → string) (senders : gmap string (push_message → result string SendResult)).
Implicit Types (d : notifydb).

(** What a device's provider makes of it, the row of the attempt, and whether the token is
    retired for it. *)
Definition attempt (j : push_job) (t : PushToken) : option (result string SendResult) :=
  send ← senders !! pt_Provider t; Some (send (push_message_for marshal j t)).
Definition delivery_of (now : time) (j : push_job) (t : PushToken) : option delivery_row :=
  o ← attempt j t;
  let row status detail sent := MkDeliveryRow (pj_notification_id j) (pt_ID t) (pt_Provider t) status detail sent in
  Some match o with
       | Err e => row "failed" e None
       | Ok r => if sr_TokenInvalid r then row "dropped" (sr_Detail r) None
                 else if sr_Delivered r then row "sent" "" (Some now) else row "failed" (sr_Detail r) None
       end%string.
Definition refuses (j : push_job) (t : PushToken) : bool :=
  match attempt j t with Some (Ok r) => sr_TokenInvalid r | _ => false end.
Definition refused (j : push_job) (ts : list PushToken) (id : uuid) : bool := existsb (λ t, bool_decide (pt_ID t = id) && refuses j t) ts.

Lemma push_to_run now j d t :
  notification_deliveries (push_to marshal senders now j d t) = notification_deliveries d ++ option_list (delivery_of now j t) ∧
  push_tokens (push_to marshal senders now j d t) =
    (if refuses j t then push_tokens (InvalidateToken (pt_ID t) d) else push_tokens d) ∧
  notifications (push_to marshal senders now j d t) = notifications d.
Proof.
  unfold push_to, delivery_of, refuses, attempt. destruct (senders !! pt_Provider t) as [send|]; simpl; [|by rewrite app_nil_r].
  destruct (send (push_message_for marshal j t)) as [r|e]; simpl; [|done].
  destruct (sr_TokenInvalid r); simpl; [done|]. by destruct (sr_Delivered r).
Qed.
Lemma push_all_run now j ts d : NoDup (pt_ID <$> ts) →
  let d' := foldl (push_to marshal senders now j) d ts in
  notification_deliveries d' = notification_deliveries d ++ omap (delivery_of now j) ts ∧
  (∀ id, push_tokens d' !! id = (λ t, if refused j ts id then retired t else t) <$> push_tokens d !! id) ∧
  notifications d' = notifications d.
Proof.
  revert d. induction ts as [|t ts IH]; intros d Hnd d'; subst d'.
  { simpl. rewrite app_nil_r. split; [done|]. split; [|done]. intros id. by destruct (push_tokens d !! id). }
  rewrite fmap_cons in Hnd. apply NoDup_cons in Hnd as [Ht Hnd]. simpl foldl.
  destruct (push_to_run now j d t) as (Hd1 & Ht1 & Hn1). destruct (IH (push_to marshal senders now j d t) Hnd) as (Hd2 & Ht2 & Hn2). split; [|split].
  - rewrite Hd2, Hd1, <-app_assoc. f_equal. simpl. by destruct (delivery_of now j t).
  - intros id. rewrite Ht2, Ht1. simpl refused. unfold refused in *. simpl.
    assert (bool_decide (pt_ID t = id) = true → existsb (λ t', bool_decide (pt_ID t' = id) && refuses j t') ts = false) as Hno.
    { intros <-%bool_decide_eq_true. apply not_true_is_false. intros (t' & Hin & [Heq%bool_decide_eq_true _]%andb_true_iff)%existsb_exists.
      apply Ht. rewrite <-Heq. by apply list_elem_of_fmap_2, list_elem_of_In. }
    destruct (refuses j t) eqn:Hr; simpl; [|by rewrite andb_false_r].
    rewrite lookup_update_where, andb_true_r. destruct (push_tokens d !! id) as [tok|]; [|done]. simpl.
    case_bool_decide as Heq.
    + subst id. rewrite (bool_decide_true (pt_ID t = pt_ID t)) in * by done. simpl. by rewrite Hno.
    + rewrite bool_decide_false by done. done.
  - by rewrite Hn2, Hn1.
Qed.
Lemma TokensFor_NoDup u d : NoDup (pt_ID <$> TokensFor u d).
Proof. unfold TokensFor. rewrite <-list_fmap_compose. apply NoDup_fst_rows_where. Qed.
Lemma elem_of_TokensFor u d pt : pt ∈ TokensFor u d ↔
  ∃ t, push_tokens d !! pt_ID pt = Some t ∧ pu_user t = u ∧ pu_is_valid t = true ∧ device_live (pu_device t) d = true ∧
    pt = MkPushToken (pt_ID pt) (pu_device t) (pu_provider t) (pu_token t) (pu_locale t).
Proof.
  unfold TokensFor. rewrite list_elem_of_fmap. split.
  - intros ([id t] & -> & [Hl [[Hu%bool_decide_eq_true Hv]%andb_true_iff Hd]%andb_true_iff]%elem_of_rows_where). simpl. eauto 6.
  - intros (t & Hl & Hu & Hv & Hd & ->). exists (pt_ID pt, t). split; [done|]. apply elem_of_rows_where. split; [done|]. simpl.
    by rewrite bool_decide_true, Hv, Hd.
Qed.

Lemma pushed_tokens now j d id t' : push_tokens (handlePushSend marshal senders now j d) !! id = Some t' →
  ∃ t, push_tokens d !! id = Some t ∧ pu_provider t' = pu_provider t ∧ pu_token t' = pu_token t.
Proof.
  unfold handlePushSend. case_bool_decide; [by exists t'|].
  destruct (push_all_run now j (TokensFor (pj_user_id j) d) d (TokensFor_NoDup _ _)) as (_ & -> & _).
  intros (t & Hl & ->)%fmap_Some. exists t. by destruct (refused _ _ _).
Qed.

(** A push job tries every device of its addressee that can take a push, and no other,
    once each: the devices are those that are not revoked and whose token is valid, each
    attempt leaves one delivery row with what the provider said in the order of the devices,
    and the tokens that go out of use are exactly those the provider refused for good — a
    failure on one device changes nothing for another. *)
Lemma pushes_are_tried_on_every_device now j d :
  let d' := handlePushSend marshal senders now j d in
  notification_deliveries d' = notification_deliveries d ++ omap (delivery_of now j) (TokensFor (pj_user_id j) d) ∧
  NoDup (pt_ID <$> TokensFor (pj_user_id j) d) ∧
  (∀ id t, push_tokens d !! id = Some t →
     push_tokens d' !! id = Some t ∧ refused j (TokensFor (pj_user_id j) d) id = false ∨
     push_tokens d' !! id = Some (retired t) ∧
       ∃ pt, pt ∈ TokensFor (pj_user_id j) d ∧ pt_ID pt = id ∧ ∃ r, attempt j pt = Some (Ok r) ∧ sr_TokenInvalid r = true) ∧
  (∀ id, is_Some (push_tokens d' !! id) ↔ is_Some (push_tokens d !! id)) ∧
  notifications d' = notifications d.
Proof.
  intros d'. pose proof (TokensFor_NoDup (pj_user_id j) d) as Hnd.
  assert (d' = foldl (push_to marshal senders now j) d (TokensFor (pj_user_id j) d)) as ->.
  { subst d'. unfold handlePushSend. case_bool_decide as He; [|done]. generalize (TokensFor (pj_user_id j) d). intros ts.
    induction ts as [|t ts IH]; [done|]. simpl.
    assert (push_to marshal senders now j d t = d) as -> by (unfold push_to; by rewrite He, lookup_empty). done. }
  destruct (push_all_run now j (TokensFor (pj_user_id j) d) d Hnd) as (Hd & Ht & Hn). split; [done|]. split; [done|]. split; [|split; [|done]].
  - intros id t Hl. rewrite Ht, Hl. simpl. destruct (refused j (TokensFor (pj_user_id j) d) id) eqn:Hr; [|by left]. right. split; [done|].
    apply existsb_exists in Hr as (pt & Hin & [Hid%bool_decide_eq_true Href]%andb_true_iff). exists pt. apply list_elem_of_In in Hin. split; [done|]. split; [done|].
    unfold refuses in Href. destruct (attempt j pt) as [[r|e]|]; [by exists r|done|done].
  - intros id. rewrite Ht. by rewrite fmap_is_Some.
Qed.
End pushing.

(** ** Push tokens and whose they are *)

Section tokens.
Implicit Types (d : notifydb).

(** [UNIQUE (provider, token)] *)
Definition tokens_unique d : Prop := ∀ i j t u, push_tokens d !! i = Some t → push_tokens d !! j = Some u →
  pu_provider t = pu_provider u → pu_token t = pu_token u → i = j.
Inductive token_op :=
| OpRegisterToken (id user device : uuid) (provider token locale : string)
| OpUnregisterToken (provider token : string)
| OpInvalidateToken (tokenID : uuid)
| OpPushSend (marshal : json → string) (senders : gmap string (push_message → result string SendResult)) (now : time) (j : push_job)
| OpNotifyElsewhere (f : notifydb → notifydb).
(** The rest of the program leaves the table alone. *)
Definition token_op_ok (op : token_op) : Prop :=
  match op with OpNotifyElsewhere f => ∀ d, push_tokens (f d) = push_tokens d | _ => True end.
Definition run_token_op (op : token_op) d : notifydb :=
  match op with
  | OpRegisterToken id user device provider token locale => (Notify_RegisterToken id user device provider token locale d).2
  | OpUnregisterToken provider token => (Notify_UnregisterToken provider token d).2
  | OpInvalidateToken tokenID => InvalidateToken tokenID d
  | OpPushSend marshal senders now j => handlePushSend marshal senders now j d
  | OpNotifyElsewhere f => f d
  end.
Definition run_token_ops (ops : list token_op) d : notifydb := foldl (λ d op, run_token_op op d) d ops.

Lemma tokens_unique_same_keys d d' :
  (∀ id t', push_tokens d' !! id = Some t' → ∃ t, push_tokens d !! id = Some t ∧ pu_provider t' = pu_provider t ∧ pu_token t' = pu_token t) →
  tokens_unique d → tokens_unique d'.
Proof.
  intros Hsub Hu i j t u Hi Hj Hp Ht. destruct (Hsub i t Hi) as (t0 & Hi0 & Hp0 & Ht0), (Hsub j u Hj) as (u0 & Hj0 & Hp1 & Ht1).
  apply (Hu i j t0 u0); congruence.
Qed.
Lemma token_row_cases provider token d :
  (∃ k t, rows_where (token_is provider token) (push_tokens d) = [(k, t)] ∧ push_tokens d !! k = Some t ∧ pu_provider t = provider ∧ pu_token t = token) ∨
  (rows_where (token_is provider token) (push_tokens d) = [] ∧ ∀ k t, push_tokens d !! k = Some t → pu_provider t = provider → pu_token t ≠ token) ∨
  ¬ tokens_unique d.
Proof.
  destruct (rows_where (token_is provider token) (push_tokens d)) as [|[k t] [|[k' t'] rest]] eqn:Hrows.
  - right. left. split; [done|]. intros k t Hl Hp Ht.
    assert ((k, t) ∈ rows_where (token_is provider token) (push_tokens d)) as Hin.
    { apply elem_of_rows_where. split; [done|]. unfold token_is. by rewrite !bool_decide_true. }
    rewrite Hrows in Hin. by apply not_elem_of_nil in Hin.
  - left. exists k, t. split; [done|]. assert ((k, t) ∈ rows_where (token_is provider token) (push_tokens d)) as Hin by (rewrite Hrows; by left).
    apply elem_of_rows_where in Hin as [Hl [Hp%bool_decide_eq_true Ht%bool_decide_eq_true]%andb_true_iff]. done.
  - right. right. intros Hu.
    assert (∀ x, x ∈ [(k, t); (k', t')] → push_tokens d !! x.1 = Some x.2 ∧ pu_provider x.2 = provider ∧ pu_token x.2 = token) as Hin.
    { intros [k0 t0] Hx. assert ((k0, t0) ∈ rows_where (token_is provider token) (push_tokens d)) as Hin.
      { rewrite Hrows. apply elem_of_cons in Hx as [Hx|Hx%list_elem_of_singleton]; rewrite Hx; [by left|right; by left]. }
      by apply elem_of_rows_where in Hin as [? [?%bool_decide_eq_true ?%bool_decide_eq_true]%andb_true_iff]. }
    destruct (Hin (k, t)) as (H1 & H2 & H3); [by left|]. destruct (Hin (k', t')) as (H4 & H5 & H6); [right; by left|]. simpl in *.
    assert (k = k') as -> by (apply (Hu k k' t t'); congruence).
    pose proof (NoDup_fst_rows_where (token_is provider token) (push_tokens d)) as Hnd. rewrite Hrows in Hnd. simpl in Hnd.
    apply NoDup_cons in Hnd as [Hnot _]. apply Hnot. by left.
Qed.
(** A registration that succeeds leaves the pair in one row, the new one. *)
Lemma RegisterPushToken_Ok id user device provider token locale d d' : tokens_unique d →
  RegisterPushToken id user device provider token locale d = (Ok (), d') →
  let row := MkPushTokenRow user device provider token locale true 0 in
  ∃ k, push_tokens d' = <[k := row]> (push_tokens d) ∧ ny_devices d' = ny_devices d ∧
    (∀ k' t, push_tokens d !! k' = Some t → pu_provider t = provider → pu_token t = token → k' = k).
Proof.
  intros Hu. unfold RegisterPushToken. destruct (_ || _); [done|].
  destruct (token_row_cases provider token d) as [(k & t & -> & Hk & Hp & Ht)|[[-> Hno]|Hnot]]; [| |done].
  - intros [= <-]. exists k. split; [done|]. split; [done|]. intros k' t' Hl Hp' Ht'. apply (Hu k' k t' t); congruence.
  - case_bool_decide; [done|]. intros [= <-]. exists id. split; [done|]. split; [done|]. intros k' t' Hl Hp' Ht'. by apply Hno in Hl.
Qed.
Lemma tokens_unique_register id user device provider token locale d d' : tokens_unique d →
  RegisterPushToken id user device provider token locale d = (Ok (), d') → tokens_unique d'.
Proof.
  intros Hu Hrun. destruct (RegisterPushToken_Ok _ _ _ _ _ _ _ _ Hu Hrun) as (k & Hk & _ & Hone). intros i j t u. rewrite Hk.
  intros [[<- <-]|[Hi Hli]]%lookup_insert_Some [[<- <-]|[Hj Hlj]]%lookup_insert_Some; simpl; [done| | |by apply Hu].
  - intros Hp Ht. symmetry. by apply (Hone j u).
  - intros Hp Ht. by apply (Hone i t).
Qed.
Lemma run_token_op_unique op d : token_op_ok op → tokens_unique d → tokens_unique (run_token_op op d).
Proof.
  intros Hok Hu. destruct op as [id user device provider token locale|provider token|tokenID|marshal senders now j|f]; simpl in *.
  - unfold Notify_RegisterToken. rewrite bind_run. unfold fail_if. destruct (negb _); [done|]. cbn beta iota. rewrite bind_run.
    destruct (bool_decide _); [done|]. cbn beta iota. rewrite map_err_snd.
    destruct (RegisterPushToken _ _ _ _ _ _ d) as [[[]|e] d'] eqn:Hrun; [by eapply tokens_unique_register|].
    unfold RegisterPushToken in Hrun. repeat case_match; by simplify_eq.
  - eapply tokens_unique_same_keys; [|exact Hu]. intros id t' (t & Hl & ->)%lookup_update_where_Some. exists t. by destruct (token_is _ _ _ _).
  - eapply tokens_unique_same_keys; [|exact Hu]. intros id t' (t & Hl & ->)%lookup_update_where_Some. exists t. by case_bool_decide.
  - eapply tokens_unique_same_keys; [|exact Hu]. intros id t'. apply pushed_tokens.
  - intros i k t u. rewrite Hok. apply Hu.
Qed.

(** A push token has one row, and the person it belongs to is whoever registered it
    last: however tokens are registered, unregistered, refused by their provider and pushed
    to, no provider and token are in two rows; and once somebody has registered one from a
    live device, a push for them is tried on that device and a push for anybody else is
    not tried on that token. *)
Lemma push_tokens_have_one_owner ops d id user device provider token locale d2 :
  tokens_unique d → Forall token_op_ok ops →
  let d1 := run_token_ops ops d in
  tokens_unique d1 ∧
  (Notify_RegisterToken id user device provider token locale d1 = (Ok (), d2) →
     (∀ u pt, pt ∈ TokensFor u d2 → pt_Provider pt = provider → pt_Token pt = token → u = user ∧ pt_DeviceID pt = device) ∧
     (device_live device d1 = true →
        ∃ pt, pt ∈ TokensFor user d2 ∧ pt_Provider pt = provider ∧ pt_Token pt = token ∧ pt_DeviceID pt = device)).
Proof.
  intros Hu Hok d1. assert (tokens_unique d1) as Hu1.
  { subst d1. revert d Hu. induction Hok as [|op ops Hop _ IH]; intros d Hu; [done|]. by apply IH, run_token_op_unique. }
  split; [done|]. intros Hrun. unfold Notify_RegisterToken in Hrun. prog_inv.
  assert (∃ locale', RegisterPushToken id user device provider token locale' d1 = (Ok (), d2)) as (locale' & Hreg).
  { eexists. match goal with Hx : map_err _ ?m d1 = _ |- _ => unfold map_err, catch in Hx; destruct (m d1) as [[[]|e] dx] eqn:Hm end; [|done].
    simplify_eq. exact Hm. }
  destruct (RegisterPushToken_Ok _ _ _ _ _ _ _ _ Hu1 Hreg) as (k & Hk & Hdev & Hone). split.
  - intros u pt (t & Hl & <- & _ & _ & ->)%elem_of_TokensFor Hp Ht. simpl in *. rewrite Hk in Hl.
    apply lookup_insert_Some in Hl as [[_ <-]|[Hne Hl]]; [done|]. exfalso. apply Hne. symmetry. by apply (Hone _ t).
  - intros Hlive. exists (MkPushToken k device provider token locale'). split; [|done]. apply elem_of_TokensFor.
    exists (MkPushTokenRow user device provider token locale' true 0). simpl. rewrite Hk, lookup_insert_eq.
    repeat (split; [done|]). split; [|done]. unfold device_live. by rewrite Hdev.
Qed.
End tokens.

(** ** The cached provider tokens *)

(** Whatever FCM handed out last is used only up to a minute before it expires, unless it was
    handed out in this very call. *)
Lemma fcm_token_in_time now answer c token c' : accessTokenFor now answer c = (Ok token, c') →
  token = fc_token c' ∧ token ≠ ""%string ∧ (now < fc_expires_at c' - minute ∨ ∃ life, answer = Some (token, life) ∧ fc_expires_at c' = now + life * second).
Proof.
  unfold accessTokenFor. case_bool_decide as Ht; simpl.
  - destruct answer as [[t life]|]; [|done]. case_decide; [done|]. intros [= <- <-]. simpl. split; [done|]. split; [done|]. right. by exists life.
  - destruct (now <? fc_expires_at c - minute) eqn:Hlt; [intros [= <- <-]; apply Z.ltb_lt in Hlt; split; [done|]; split; [done|]; by left|].
    destruct answer as [[t life]|]; [|done]. case_decide; [done|]. intros [= <- <-]. simpl. split; [done|]. split; [done|]. right. by exists life.
Qed.
(** An APNs provider token is less than 45 minutes old. *)
Lemma apns_token_is_young now sign c token c' : authToken now sign c = (Ok token, c') → token = ap_token c' ∧ now - ap_issued_at c' < 45 * minute.
Proof.
  unfold authToken. destruct (_ && _) eqn:Hc.
  - apply andb_true_iff in Hc as [_ Hlt%Z.ltb_lt]. by intros [= <- <-].
  - destruct sign; [|done]. intros [= <- <-]. simpl. split; [done|]. unfold minute, second. lia.
Qed.

(** ** A story and three readers

    Reader 1 has quiet hours from 22 to 7, reader 2 hides previews, reader 3 is banned; it is
    23:00. *)
#[local] Existing Instance live_stream.
Definition reader (status : string) : account_row := MkAccount None "" [] status false false None None None.
Definition wanting (preview : bool) (start end_ : option Z) : NotifySettings := MkNotifySettings true true true true true false preview start end_.
Definition newsdesk : notifydb :=
  MkNotifyDb (MkSocialDb {[1%N := reader "active"; 2%N := reader "active"; 3%N := reader "banned"]} ∅ ∅ ∅ ∅ ∅ ∅)
    {[20%N := MkDevice 2 0 None; 21%N := MkDevice 2 0 (Some 3); 10%N := MkDevice 1 0 None]} ∅ ∅
    {[1%N := wanting true (Some 22) (Some 7); 2%N := wanting false None None; 3%N := wanting true None None]}
    {[30%N := MkPushTokenRow 2 20 "fcm" "aa" "fa" true 0; 31%N := MkPushTokenRow 2 21 "fcm" "bb" "fa" true 0]} [] [].
Definition scoop : news_job := MkNewsJob 900 "scoop" "It happened" "en".
Definition late : time := 23 * hour.
Lemma breaking_news_reaches_its_audience_witness :
  ∃ d', handleNewsPublish (λ _, 0) late (λ u, (u + 100)%N) scoop newsdesk = Some d' ∧
    (∀ id n, notifications d' !! id = Some n ↔
       notifications newsdesk !! id = Some n ∨ ∃ u, u ∈ audience newsdesk ∧ id = (u + 100)%N ∧ n = story_note late scoop u) ∧
    (∃ new, ny_jobs d' = ny_jobs newsdesk ++ new ∧
      ∀ j, j ∈ new → ∃ u s, u ∈ audience newsdesk ∧ notification_settings newsdesk !! u = Some s ∧ pj_user_id (jb_Payload j) = u ∧
        inQuietHours (λ _, 0) s late = false ∧
        (ns_ShowPreview s = false → pj_title (jb_Payload j) = "SOBH"%string ∧ pj_body (jb_Payload j) = ""%string) ∧
        (ns_ShowPreview s = true → pj_body (jb_Payload j) = nj_title scoop)).
Proof.
  apply (breaking_news_reaches_its_audience (λ _, 0) late (λ u, (u + 100)%N) scoop newsdesk).
  - assert (audience newsdesk = [1; 2]%N) as -> by (vm_compute; reflexivity). apply (bool_decide_unpack _). vm_compute. exact I.
  - intros u _. apply lookup_empty.
Defined.
Example scoop_dispatched :
  (λ d, (nt_user ∘ snd <$> map_to_list (notifications d), (λ j, (pj_user_id (jb_Payload j), pj_title (jb_Payload j))) <$> ny_jobs d))
    <$> handleNewsPublish (λ _, 0) late (λ u, (u + 100)%N) scoop newsdesk
  = Some ([2; 1]%N, [(2%N, "SOBH"%string)]).
Proof. vm_compute. reflexivity. Qed.

Definition fcm_only (answer : result string SendResult) : gmap string (push_message → result string SendResult) := {["fcm"%string := λ _, answer]}.
Definition gone : SendResult := MkSendResult false true "fcm 404: ".
Definition scoop_push : push_job := MkPushJob 102 2 TypeBreakingNews "SOBH" "" (news_data scoop) "high".
(** Only the device that is not revoked is tried; its token is refused and retired. *)
Example scoop_pushed :
  (λ d, (notification_deliveries d, push_tokens d !! 30%N, push_tokens d !! 31%N)) (handlePushSend (λ _, "") (fcm_only (Ok gone)) 5 scoop_push newsdesk)
  = ([MkDeliveryRow 102 30 "fcm" "dropped" "fcm 404: " None], Some (MkPushTokenRow 2 20 "fcm" "aa" "fa" false 1),
     Some (MkPushTokenRow 2 21 "fcm" "bb" "fa" true 0)).
Proof. vm_compute. reflexivity. Qed.

Lemma newsroom_unique : tokens_unique newsdesk.
Proof.
  intros i j t u. unfold newsdesk. simpl. intros [[<- <-]|[_ Hi]]%lookup_insert_Some [[<- <-]|[_ Hj]]%lookup_insert_Some; simpl; [done| | |].
  - apply lookup_singleton_Some in Hj as [<- <-]. done.
  - apply lookup_singleton_Some in Hi as [<- <-]. done.
  - apply lookup_singleton_Some in Hi as [<- <-]. by apply lookup_singleton_Some in Hj as [<- <-].
Qed.
Lemma push_tokens_have_one_owner_witness :
  let d1 := run_token_ops [OpUnregisterToken "fcm" "bb"] newsdesk in
  let d2 := (Notify_RegisterToken 40 1 10 "fcm" "aa" "" d1).2 in
  tokens_unique d1 ∧
  (Notify_RegisterToken 40 1 10 "fcm" "aa" "" d1 = (Ok (), d2) →
     (∀ u pt, pt ∈ TokensFor u d2 → pt_Provider pt = "fcm"%string → pt_Token pt = "aa"%string → u = 1%N ∧ pt_DeviceID pt = 10%N) ∧
     (device_live 10 d1 = true → ∃ pt, pt ∈ TokensFor 1 d2 ∧ pt_Provider pt = "fcm"%string ∧ pt_Token pt = "aa"%string ∧ pt_DeviceID pt = 10%N)).
Proof.
  apply (push_tokens_have_one_owner [OpUnregisterToken "fcm" "bb"] newsdesk 40 1 10 "fcm" "aa" ""); [exact newsroom_unique|].
  constructor; [done|constructor].
Defined.

(** ** What modelling showed *)

(** Switching group notifications off alone switches nothing off: the category of a message
    is either switch. *)
Lemma groups_switch_is_shadowed s type : ns_PrivateChats s = true →
  allowsType s type = allowsType (MkNotifySettings true false (ns_Channels s) (ns_BreakingNews s) (ns_Calls s) (ns_Stories s) (ns_ShowPreview s)
    (ns_QuietHoursStart s) (ns_QuietHoursEnd s)) type.
Proof. intros Hp. unfold allowsType. simpl. by rewrite Hp. Qed.
(** Whoever knows a push token switches it off, whosever it is. *)
Lemma anybody_unregisters provider token d id t : push_tokens d !! id = Some t → pu_provider t = provider → pu_token t = token →
  push_tokens (Notify_UnregisterToken provider token d).2 !! id = Some (invalidated t).
Proof. intros Hl Hp Ht. simpl. rewrite lookup_update_where, Hl. unfold token_is. simpl. by rewrite !bool_decide_true. Qed.
(** One malformed request costs the device its token: FCM answers INVALID_ARGUMENT to a bad
    payload too. *)
Example invalid_argument_retires_the_token :
  sr_TokenInvalid (fcm_result (MkResponse 400 (bytes_of "INVALID_ARGUMENT: Invalid data payload"))) = true.
Proof. vm_compute. reflexivity. Qed.
