(* ===== verification/News.v ===== *)
(** * The newsroom ([internal/news], [internal/worker]: publishScheduledArticles)

    Articles and their editorial states, sections, bylines, tags, galleries and translations,
    the feed and what readers do with it, and the routes of the editors with the permissions
    they check.  [collate] is the order of the database's collation, [lower] is
    [strings.ToLower], [day_of] the date of an instant in the database's zone; the words of a
    search document are the article itself. *)

From stdpp Require Import base tactics list sorting gmap strings.
From Stdlib Require Import ZArith Lia.
From S2P Require Import Prelude GoString Httpx Permissions Store Social Auth BotObserver BotFather Jobs.

Set Default Goal Selector "!".
Open Scope Z_scope.

Definition StatusDraft : string := "draft".
Definition StatusReview : string := "review".
Definition StatusScheduled : string := "scheduled".
Definition StatusPublished : string := "published".
Definition StatusArchived : string := "archived".
Definition PermRead : string := "news.read".
Definition PermWrite : string := "news.write".
Definition PermPublish : string := "news.publish".
Definition PermCategories : string := "news.categories".
Definition article_kinds : list string := ["article"; "video"; "podcast"; "gallery"; "live"]%string.
Definition defaultLocale : string := "fa".
Definition maxGalleryItems : Z := 50.

(** ** Tables *)

(** [news_articles] *)
Record article_row := MkArticleRow {
  na_slug : string;
  na_locale : string;
  na_title : string;
  na_subtitle : string;
  na_lead : string;
  na_body : string;
  na_body_format : string;
  na_cover : option uuid;
  na_video : option uuid;
  na_audio : option uuid;
  na_category : option uuid;
  na_author : option uuid;
  na_created_by : option uuid;
  na_reviewed_by : option uuid;
  na_status : string;
  na_kind : string;
  na_is_breaking : bool;
  na_is_featured : bool;
  na_reading_minutes : Z;
  na_view_count : Z;
  na_ai_summary : string;
  na_ai_keywords : list string;
  na_publish_at : option time;
  na_published_at : option time;
  na_created_at : time;
  na_updated_at : time;
  na_archived_at : option time;
}.
(** [news_categories] with its names, [news_authors], [news_tags] *)
Record category_row := MkCategoryRow { nc_slug : string; nc_parent : option uuid; nc_position : Z; nc_is_active : bool }.
Record author_row := MkAuthorRow { nu_user : option uuid; nu_display_name : string; nu_bio : string; nu_avatar : option uuid; nu_is_active : bool }.
Record tag_row := MkTagRow { tg_slug : string; tg_name : string }.
(** [news_article_gallery], [news_article_translations] *)
Record gallery_row := MkGalleryRow { gr_position : Z; gr_caption : string }.
Record translation_row := MkTranslationRow {
  tr_title : string; tr_subtitle : string; tr_body : string; tr_source : string; tr_approved_by : option uuid; tr_created_at : time }.
(** What is followed: of the three columns exactly one is set. *)
Inductive follow_target := FollowCategory (id : uuid) | FollowTag (id : uuid) | FollowAuthor (id : uuid).
#[export] Instance follow_target_eq_dec : EqDecision follow_target.
Proof. solve_decision. Defined.

Record newsdb := MkNewsDb {
  nw_graph : socialdb;
  nw_media : gset uuid;
  articles : gmap uuid article_row;
  categories : gmap uuid category_row;
  category_names : gmap (uuid * string) string;
  authors : gmap uuid author_row;
  tags : gmap uuid tag_row;
  article_tags : gset (uuid * uuid);
  gallery : gmap (uuid * uuid) gallery_row;
  translations : gmap (uuid * string) translation_row;
  article_views : gmap (uuid * uuid * Z) Z;
  follows : list (uuid * follow_target);
  bookmarks : gmap (uuid * uuid) time;
}.
Definition with_articles v d := MkNewsDb (nw_graph d) (nw_media d) v (categories d) (category_names d) (authors d) (tags d) (article_tags d) (gallery d) (translations d) (article_views d) (follows d) (bookmarks d).
Definition with_categories v d := MkNewsDb (nw_graph d) (nw_media d) (articles d) v (category_names d) (authors d) (tags d) (article_tags d) (gallery d) (translations d) (article_views d) (follows d) (bookmarks d).
Definition with_category_names v d := MkNewsDb (nw_graph d) (nw_media d) (articles d) (categories d) v (authors d) (tags d) (article_tags d) (gallery d) (translations d) (article_views d) (follows d) (bookmarks d).
Definition with_authors v d := MkNewsDb (nw_graph d) (nw_media d) (articles d) (categories d) (category_names d) v (tags d) (article_tags d) (gallery d) (translations d) (article_views d) (follows d) (bookmarks d).
Definition with_tags v d := MkNewsDb (nw_graph d) (nw_media d) (articles d) (categories d) (category_names d) (authors d) v (article_tags d) (gallery d) (translations d) (article_views d) (follows d) (bookmarks d).
Definition with_article_tags v d := MkNewsDb (nw_graph d) (nw_media d) (articles d) (categories d) (category_names d) (authors d) (tags d) v (gallery d) (translations d) (article_views d) (follows d) (bookmarks d).
Definition with_gallery v d := MkNewsDb (nw_graph d) (nw_media d) (articles d) (categories d) (category_names d) (authors d) (tags d) (article_tags d) v (translations d) (article_views d) (follows d) (bookmarks d).
Definition with_translations v d := MkNewsDb (nw_graph d) (nw_media d) (articles d) (categories d) (category_names d) (authors d) (tags d) (article_tags d) (gallery d) v (article_views d) (follows d) (bookmarks d).
Definition with_article_views v d := MkNewsDb (nw_graph d) (nw_media d) (articles d) (categories d) (category_names d) (authors d) (tags d) (article_tags d) (gallery d) (translations d) v (follows d) (bookmarks d).
Definition with_follows v d := MkNewsDb (nw_graph d) (nw_media d) (articles d) (categories d) (category_names d) (authors d) (tags d) (article_tags d) (gallery d) (translations d) (article_views d) v (bookmarks d).
Definition with_bookmarks v d := MkNewsDb (nw_graph d) (nw_media d) (articles d) (categories d) (category_names d) (authors d) (tags d) (article_tags d) (gallery d) (translations d) (article_views d) (follows d) v.

Inductive newserr := NewsNotFound | ErrSlugTaken | ErrInvalidTransition | ErrArticleNotFound | NewsDatabase.

(** ** Slugs and lengths *)

(** The loop of [slugify]: what has been written, and whether a dash was last. *)
Fixpoint slug_loop (written : list N) (lastDash : bool) (l : list (N * list N)) : list N :=
  match l with
  | [] => written
  | (r, bs) :: l =>
      if in_range 97 122 r || in_range 48 57 r || (127 <? r)%N then slug_loop (written ++ encode_segment (r, bs)) false l
      else if (r =? 32)%N || (r =? 45)%N || (r =? 95)%N then
        if negb lastDash && negb (bool_decide (written = [])) then slug_loop (written ++ [45%N]) true l else slug_loop written lastDash l
      else slug_loop written lastDash l
  end.
Fixpoint drop_dashes (l : list N) : list N := match l with 45%N :: l => drop_dashes l | _ => l end.
(** [strings.Trim(s, "-")] *)
Definition trim_dashes (l : list N) : list N := reverse (drop_dashes (reverse (drop_dashes l))).
Definition estimateReadingMinutes (body : string) : Z :=
  let minutes := Z.of_nat (length (fields body)) / 200 in if minutes <? 1 then 1 else minutes.

Section news.
Context (collate : string → Z) (lower : string → string) (day_of : time → Z).
Definition slugify (value : string) : string := string_of (trim_dashes (slug_loop [] false (segments (lower (trim_space value))))).

(** ** Repository: sections and bylines *)

Record Category := MkCategory {
  ct_ID : uuid; ct_Slug : string; ct_ParentID : option uuid; ct_Position : Z; ct_IsActive : bool; ct_Names : gmap string string; ct_Name : string }.
Definition names_of (id : uuid) d : gmap string string :=
  list_to_map ((λ r : (uuid * string) * string, (r.1.2, r.2)) <$> rows_where (λ k _, bool_decide (k.1 = id)) (category_names d)).
Definition Categories (locale : string) (includeInactive : bool) d : list Category :=
  (λ r : uuid * category_row, MkCategory r.1 (nc_slug r.2) (nc_parent r.2) (nc_position r.2) (nc_is_active r.2) (names_of r.1 d)
     (default (nc_slug r.2) (names_of r.1 d !! locale))) <$>
    order_by_keys (λ r, [nc_position r.2; collate (nc_slug r.2)]) (rows_where (λ _ c, includeInactive || nc_is_active c) (categories d)).
Definition exists_in {V} (o : option uuid) (m : gmap uuid V) : bool := from_option (λ id, bool_decide (is_Some (m !! id))) true o.
Definition category_slug_is (slug : string) (_ : uuid) (c : category_row) : bool := bool_decide (nc_slug c = slug).
Definition UpsertCategory (drawn : uuid) (c : Category) : prog newsdb newserr uuid :=
  in_tx (
    existing ← gets (λ d, head (rows_where (category_slug_is (ct_Slug c)) (categories d)).*1);
    known ← gets (λ d, exists_in (ct_ParentID c) (categories d));
    fail_if (negb known) NewsDatabase;;
    clash ← gets (λ d, bool_decide (is_Some (categories d !! drawn)));
    fail_if (bool_decide (existing = None) && clash) NewsDatabase;;
    let id := default drawn existing in
    modify (λ d, with_categories (<[id := MkCategoryRow (ct_Slug c) (ct_ParentID c) (ct_Position c) (ct_IsActive c)]> (categories d)) d);;
    modify (λ d, with_category_names (foldl (λ m kv, <[(id, kv.1) := kv.2]> m) (category_names d) (map_to_list (ct_Names c))) d);;
    mret id).
Definition DeleteCategory (id : uuid) : prog newsdb newserr () := λ d,
  match categories d !! id with
  | Some c => (Ok (), with_categories (<[id := MkCategoryRow (nc_slug c) (nc_parent c) (nc_position c) false]> (categories d)) d)
  | None => (Err NewsNotFound, d)
  end.

Record Author := MkAuthor { au_ID : uuid; au_UserID : option uuid; au_DisplayName : string; au_Bio : string; au_AvatarID : option uuid; au_IsActive : bool }.
Definition media_known (o : option uuid) d : bool := from_option (λ id, bool_decide (id ∈ nw_media d)) true o.
Definition UpsertAuthor (drawn : uuid) (a : Author) : prog newsdb newserr uuid := λ d,
  if decide (au_ID a ≠ uuid_nil) then
    match authors d !! au_ID a with
    | Some r =>
        if media_known (au_AvatarID a) d
        then (Ok (au_ID a), with_authors (<[au_ID a := MkAuthorRow (nu_user r) (au_DisplayName a) (au_Bio a) (au_AvatarID a) (au_IsActive a)]> (authors d)) d)
        else (Err NewsDatabase, d)
    | None => (Err NewsNotFound, d)
    end
  else if negb (media_known (au_AvatarID a) d) || negb (from_option (λ u, has_account u (nw_graph d)) true (au_UserID a))
          || bool_decide (is_Some (authors d !! drawn))
  then (Err NewsDatabase, d)
  else (Ok drawn, with_authors (<[drawn := MkAuthorRow (au_UserID a) (au_DisplayName a) (au_Bio a) (au_AvatarID a) (au_IsActive a)]> (authors d)) d).
Definition Authors d : list Author :=
  (λ r : uuid * author_row, MkAuthor r.1 (nu_user r.2) (nu_display_name r.2) (nu_bio r.2) (nu_avatar r.2) (nu_is_active r.2)) <$>
    order_by (λ r, collate (nu_display_name r.2)) (map_to_list (authors d)).

(** ** Repository: articles *)

Record SaveInput := MkSaveInput {
  sv_ID : uuid;
  sv_Slug : string;
  sv_Locale : string;
  sv_Title : string;
  sv_Subtitle : string;
  sv_Lead : string;
  sv_Body : string;
  sv_BodyFormat : string;
  sv_CoverMediaID : option uuid;
  sv_VideoMediaID : option uuid;
  sv_AudioMediaID : option uuid;
  sv_CategoryID : option uuid;
  sv_AuthorID : option uuid;
  sv_Kind : string;
  sv_IsBreaking : bool;
  sv_IsFeatured : bool;
  sv_Tags : list string;
  sv_CreatedBy : uuid;
}.
(** The columns a save writes over those it keeps. *)
Definition saved (now : time) (in_ : SaveInput) (old : article_row) : article_row :=
  MkArticleRow (sv_Slug in_) (sv_Locale in_) (sv_Title in_) (sv_Subtitle in_) (sv_Lead in_) (sv_Body in_) (sv_BodyFormat in_)
    (sv_CoverMediaID in_) (sv_VideoMediaID in_) (sv_AudioMediaID in_) (sv_CategoryID in_) (sv_AuthorID in_) (na_created_by old)
    (na_reviewed_by old) (na_status old) (sv_Kind in_) (sv_IsBreaking in_) (sv_IsFeatured in_) (estimateReadingMinutes (sv_Body in_))
    (na_view_count old) (na_ai_summary old) (na_ai_keywords old) (na_publish_at old) (na_published_at old) (na_created_at old) now
    (na_archived_at old).
Definition new_article (now : time) (in_ : SaveInput) : article_row :=
  saved now in_ (MkArticleRow "" "" "" "" "" "" "" None None None None None (Some (sv_CreatedBy in_)) None StatusDraft "" false false 0 0 "" []
    None None now now None).
Definition slug_used (slug : string) (except : uuid) d : bool :=
  0 <? count_where (λ id a, bool_decide (na_slug a = slug) && negb (bool_decide (id = except))) (articles d).
(** The foreign keys and checks of a row. *)
Definition article_fits (a : article_row) d : bool :=
  bool_decide (na_kind a ∈ article_kinds) && bool_decide (na_body_format a ∈ ["markdown"; "html"]%string)
  && media_known (na_cover a) d && media_known (na_video a) d && media_known (na_audio a) d
  && exists_in (na_category a) (categories d) && exists_in (na_author a) (authors d).
Definition insert_article (now : time) (drawn : uuid) (in_ : SaveInput) : prog newsdb newserr uuid := λ d,
  let a := new_article now in_ in
  if negb (article_fits a d) || negb (has_account (sv_CreatedBy in_) (nw_graph d)) || bool_decide (is_Some (articles d !! drawn))
  then (Err NewsDatabase, d)
  else if slug_used (sv_Slug in_) drawn d then (Err ErrSlugTaken, d)
  else (Ok drawn, with_articles (<[drawn := a]> (articles d)) d).
Definition update_article (now : time) (in_ : SaveInput) : prog newsdb newserr uuid := λ d,
  match articles d !! sv_ID in_ with
  | None => (Err NewsNotFound, d)
  | Some old =>
      let a := saved now in_ old in
      if negb (article_fits a d) then (Err NewsDatabase, d)
      else if slug_used (sv_Slug in_) (sv_ID in_) d then (Err ErrSlugTaken, d)
      else (Ok (sv_ID in_), with_articles (<[sv_ID in_ := a]> (articles d)) d)
  end.
(** One tag, under the identifier drawn for its slug if it is new. *)
Definition link_tag (drawn : string → uuid) (articleID : uuid) (tag : string) d : newsdb :=
  let slug := slugify tag in
  if decide (slug = ""%string) then d
  else
    let id := default (drawn slug) (head (rows_where (λ _ t, bool_decide (tg_slug t = slug)) (tags d)).*1) in
    with_article_tags ({[(articleID, id)]} ∪ article_tags d) (with_tags (<[id := MkTagRow slug tag]> (tags d)) d).
Definition replaceTags (drawn : string → uuid) (articleID : uuid) (l : list string) d : newsdb :=
  foldl (λ d tag, link_tag drawn articleID tag d)
    (with_article_tags (filter (λ k, k.1 ≠ articleID) (article_tags d)) d) l.
Definition Save (now : time) (drawn : uuid) (tag_ids : string → uuid) (in_ : SaveInput) : prog newsdb newserr uuid :=
  in_tx (
    id ← (if decide (sv_ID in_ = uuid_nil) then insert_article now drawn in_ else update_article now in_);
    modify (replaceTags tag_ids id (sv_Tags in_));;
    mret id).

Definition with_status (now : time) (status : string) (reviewer : uuid) (publishAt : option time) (a : article_row) : article_row :=
  MkArticleRow (na_slug a) (na_locale a) (na_title a) (na_subtitle a) (na_lead a) (na_body a) (na_body_format a) (na_cover a) (na_video a)
    (na_audio a) (na_category a) (na_author a) (na_created_by a) (Some reviewer) status (na_kind a) (na_is_breaking a) (na_is_featured a)
    (na_reading_minutes a) (na_view_count a) (na_ai_summary a) (na_ai_keywords a) publishAt
    (if decide (status = StatusPublished) then Some (default now (na_published_at a)) else na_published_at a)
    (na_created_at a) now (if decide (status = StatusArchived) then Some now else None).
Definition SetStatus (now : time) (id : uuid) (status : string) (reviewer : uuid) (publishAt : option time) (allowedFrom : list string)
    : prog newsdb newserr () := λ d,
  if hits (λ _ a, bool_decide (na_status a ∈ allowedFrom)) (articles d) id
  then if negb (has_account reviewer (nw_graph d)) then (Err NewsDatabase, d)
  else (Ok (), with_articles (update_where (λ k _, bool_decide (k = id)) (λ _, with_status now status reviewer publishAt) (articles d)) d)
  else (Err ErrInvalidTransition, d).
(** The maintenance task of the worker. *)
Definition promoted (a : article_row) : article_row :=
  MkArticleRow (na_slug a) (na_locale a) (na_title a) (na_subtitle a) (na_lead a) (na_body a) (na_body_format a) (na_cover a) (na_video a)
    (na_audio a) (na_category a) (na_author a) (na_created_by a) (na_reviewed_by a) StatusPublished (na_kind a) (na_is_breaking a)
    (na_is_featured a) (na_reading_minutes a) (na_view_count a) (na_ai_summary a) (na_ai_keywords a) (na_publish_at a)
    (match na_published_at a with Some t => Some t | None => na_publish_at a end) (na_created_at a) (na_updated_at a) (na_archived_at a).
Definition publication_due (now : time) (a : article_row) : bool :=
  bool_decide (na_status a = StatusScheduled) && from_option (λ t, t <=? now) false (na_publish_at a).
Definition publishScheduledArticles (now : time) d : newsdb :=
  with_articles (update_where (λ _ a, publication_due now a) (λ _, promoted) (articles d)) d.

(** An article as it is read: its row, the names joined to it, its tags. *)
Record Article := MkArticle { ar_ID : uuid; ar_Row : article_row; ar_CategoryName : string; ar_AuthorName : string; ar_Tags : list string; ar_IsBookmarked : bool }.
Definition without_body (a : article_row) : article_row :=
  MkArticleRow (na_slug a) (na_locale a) (na_title a) (na_subtitle a) (na_lead a) "" (na_body_format a) (na_cover a) (na_video a)
    (na_audio a) (na_category a) (na_author a) (na_created_by a) (na_reviewed_by a) (na_status a) (na_kind a) (na_is_breaking a)
    (na_is_featured a) (na_reading_minutes a) (na_view_count a) (na_ai_summary a) (na_ai_keywords a) (na_publish_at a)
    (na_published_at a) (na_created_at a) (na_updated_at a) (na_archived_at a).
Definition tags_of (id : uuid) d : list string :=
  order_by collate (omap (λ k : uuid * uuid, if decide (k.1 = id) then tg_name <$> tags d !! k.2 else None) (elements (article_tags d))).
Definition scan_article (locale : string) d (r : uuid * article_row) : Article :=
  MkArticle r.1 r.2 (default ""%string (na_category r.2 ≫= λ c, category_names d !! (c, locale)))
    (from_option nu_display_name ""%string (na_author r.2 ≫= λ u, authors d !! u)) [] false.
Definition with_ar_Tags v (a : Article) := MkArticle (ar_ID a) (ar_Row a) (ar_CategoryName a) (ar_AuthorName a) v (ar_IsBookmarked a).
Definition with_ar_IsBookmarked v (a : Article) := MkArticle (ar_ID a) (ar_Row a) (ar_CategoryName a) (ar_AuthorName a) (ar_Tags a) v.
Definition summary (a : Article) : Article := MkArticle (ar_ID a) (without_body (ar_Row a)) (ar_CategoryName a) (ar_AuthorName a) (ar_Tags a) (ar_IsBookmarked a).
Definition bookmarked (viewer id : uuid) d : bool := bool_decide (is_Some (bookmarks d !! (viewer, id))).
Definition is_published (a : article_row) : bool := bool_decide (na_status a = StatusPublished).
Definition BySlug (slug locale : string) (viewer : uuid) d : option Article :=
  r ← head (rows_where (λ _ a, bool_decide (na_slug a = slug) && is_published a) (articles d));
  Some (with_ar_IsBookmarked (negb (bool_decide (viewer = uuid_nil)) && bookmarked viewer r.1 d) (with_ar_Tags (tags_of r.1 d) (scan_article locale d r))).
Definition ArticleByID (id : uuid) (locale : string) d : option Article :=
  a ← articles d !! id; Some (with_ar_Tags (tags_of id d) (scan_article locale d (id, a))).

Record FeedQuery := MkFeedQuery {
  fq_Mode : string; fq_Locale : string; fq_CategoryID : option uuid; fq_Tag : string; fq_ViewerID : uuid; fq_Limit : Z; fq_Before : option time }.
Definition follows_target (viewer : uuid) (t : follow_target) d : bool := bool_decide ((viewer, t) ∈ follows d).
Definition followed (viewer id : uuid) (a : article_row) d : bool :=
  from_option (λ c, follows_target viewer (FollowCategory c) d) false (na_category a)
  || from_option (λ u, follows_target viewer (FollowAuthor u) d) false (na_author a)
  || existsb (λ k : uuid * uuid, bool_decide (k.1 = id) && follows_target viewer (FollowTag k.2) d) (elements (article_tags d)).
Definition tagged (id : uuid) (slug : string) d : bool :=
  existsb (λ k : uuid * uuid, bool_decide (k.1 = id) && bool_decide (tg_slug <$> tags d !! k.2 = Some slug)) (elements (article_tags d)).
Definition before_ok (before : option time) (a : article_row) : bool :=
  match before with None => true | Some t => from_option (λ p, p <? t) false (na_published_at a) end.
Definition articles_where (q : FeedQuery) d (id : uuid) (a : article_row) : bool :=
  is_published a && before_ok (fq_Before q) a
  && (if decide (fq_Mode q = "following"%string) then followed (fq_ViewerID q) id a d
      else if decide (fq_Mode q = "breaking"%string) then na_is_breaking a else true)
  && from_option (λ c, bool_decide (na_category a = Some c)) true (fq_CategoryID q)
  && (bool_decide (fq_Tag q = ""%string) || tagged id (fq_Tag q) d).
(** [published_at DESC], the absent ones first *)
Definition date_keys (a : article_row) : list Z := match na_published_at a with None => [0] | Some t => [1; - t] end.
(** Views over hours, as the fraction [3600 v / (3600 + age)] in nanoseconds: which of two is
    more read. *)
Definition more_read (now : time) (a b : uuid * article_row) : Prop :=
  let weight (x : article_row) := hour + (now - default now (na_published_at x)) in
  Is_true (let va := na_view_count a.2 * weight b.2 in
           let vb := na_view_count b.2 * weight a.2 in
           (vb <? va) || ((va =? vb) && lex_le (date_keys a.2) (date_keys b.2))).
#[local] Instance more_read_dec now : RelDecision (more_read now).
Proof. intros x y. unfold more_read. apply _. Defined.
Definition feed_order (now : time) (mode : string) (l : list (uuid * article_row)) : list (uuid * article_row) :=
  if decide (mode = "popular"%string) then merge_sort (more_read now) l
  else if bool_decide (mode ∈ ["following"; "breaking"]%string) then order_by_keys (λ r, date_keys r.2) l
  else order_by_keys (λ r, (if na_is_featured r.2 then 0 else 1) :: date_keys r.2) l.
Definition Feed (now : time) (q : FeedQuery) d : list Article :=
  (λ r, summary (with_ar_IsBookmarked (bookmarked (fq_ViewerID q) r.1 d) (scan_article (fq_Locale q) d r))) <$>
    take (Z.to_nat (fq_Limit q)) (feed_order now (fq_Mode q) (rows_where (articles_where q d) (articles d))).
Definition EditorialList (status locale : string) (limit offset : Z) d : list Article :=
  (λ r, summary (scan_article locale d r)) <$>
    take (Z.to_nat limit) (drop (Z.to_nat offset) (order_by_desc (λ r, na_updated_at r.2)
      (rows_where (λ _ a, bool_decide (status = ""%string) || bool_decide (na_status a = status)) (articles d)))).
Definition LatestBreaking (now : time) (locale : string) (within : Z) d : option Article :=
  r ← head (order_by_keys (λ r, date_keys r.2)
    (rows_where (λ _ a, is_published a && na_is_breaking a && from_option (λ t, now - within <? t) false (na_published_at a)) (articles d)));
  Some (summary (scan_article locale d r)).

(** ** Repository: readers *)

Definition with_na_view_count v (a : article_row) : article_row :=
  MkArticleRow (na_slug a) (na_locale a) (na_title a) (na_subtitle a) (na_lead a) (na_body a) (na_body_format a) (na_cover a) (na_video a)
    (na_audio a) (na_category a) (na_author a) (na_created_by a) (na_reviewed_by a) (na_status a) (na_kind a) (na_is_breaking a)
    (na_is_featured a) (na_reading_minutes a) v (na_ai_summary a) (na_ai_keywords a) (na_publish_at a) (na_published_at a) (na_created_at a)
    (na_updated_at a) (na_archived_at a).
Definition RecordView (now : time) (articleID viewerID : uuid) : prog newsdb newserr () := λ d,
  let k := (articleID, viewerID, day_of now) in
  if negb (bool_decide (is_Some (articles d !! articleID))) || negb (has_account viewerID (nw_graph d)) then (Err NewsDatabase, d)
  else match article_views d !! k with
       | Some n => (Ok (), with_article_views (<[k := n + 1]> (article_views d)) d)
       | None =>
           (Ok (), with_articles (update_where (λ id _, bool_decide (id = articleID)) (λ _ a, with_na_view_count (na_view_count a + 1) a) (articles d))
             (with_article_views (<[k := 1]> (article_views d)) d))
       end.
Definition SetBookmark (now : time) (userID articleID : uuid) (on : bool) : prog newsdb newserr () := λ d,
  if on then
    if negb (bool_decide (is_Some (articles d !! articleID))) || negb (has_account userID (nw_graph d)) then (Err NewsDatabase, d)
    else (Ok (), with_bookmarks (partial_alter (λ o, Some (default now o)) (userID, articleID) (bookmarks d)) d)
  else (Ok (), with_bookmarks (delete (userID, articleID) (bookmarks d)) d).
Definition Bookmarks (userID : uuid) (locale : string) (limit : Z) d : list Article :=
  (λ r : uuid * article_row, with_ar_IsBookmarked true (summary (scan_article locale d r))) <$>
    take (Z.to_nat limit) (fst <$> order_by_desc (λ r : (uuid * article_row) * time, r.2)
      (omap (λ b : (uuid * uuid) * time, a ← articles d !! b.1.2; if is_published a then Some ((b.1.2, a), b.2) else None)
        (rows_where (λ k _, bool_decide (k.1 = userID)) (bookmarks d)))).
Definition target_known (t : follow_target) d : bool :=
  match t with
  | FollowCategory id => bool_decide (is_Some (categories d !! id))
  | FollowTag id => bool_decide (is_Some (tags d !! id))
  | FollowAuthor id => bool_decide (is_Some (authors d !! id))
  end.
Definition SetFollow (userID : uuid) (t : follow_target) (follow : bool) : prog newsdb newserr () := λ d,
  if follow then
    if negb (target_known t d) || negb (has_account userID (nw_graph d)) then (Err NewsDatabase, d)
    else if follows_target userID t d then (Ok (), d) else (Ok (), with_follows (follows d ++ [(userID, t)]) d)
  else (Ok (), with_follows (filter (λ f, f ≠ (userID, t)) (follows d)) d).
Definition SetAIFields (articleID : uuid) (summary : string) (keywords : list string) d : newsdb :=
  with_articles (update_where (λ id _, bool_decide (id = articleID)) (λ _ a,
    MkArticleRow (na_slug a) (na_locale a) (na_title a) (na_subtitle a) (na_lead a) (na_body a) (na_body_format a) (na_cover a) (na_video a)
      (na_audio a) (na_category a) (na_author a) (na_created_by a) (na_reviewed_by a) (na_status a) (na_kind a) (na_is_breaking a)
      (na_is_featured a) (na_reading_minutes a) (na_view_count a) summary keywords (na_publish_at a) (na_published_at a) (na_created_at a)
      (na_updated_at a) (na_archived_at a)) (articles d)) d.

(** ** Repository: galleries and translations ([gallery.go]) *)

Record GalleryItem := MkGalleryItem { gi_MediaID : uuid; gi_Position : Z; gi_Caption : string }.
Definition Gallery (articleID : uuid) d : list GalleryItem :=
  (λ r : (uuid * uuid) * gallery_row, MkGalleryItem r.1.2 (gr_position r.2) (gr_caption r.2)) <$>
    order_by (λ r, gr_position r.2) (rows_where (λ k _, bool_decide (k.1 = articleID)) (gallery d)).
Definition put_item (articleID : uuid) (pi : Z * GalleryItem) : prog newsdb newserr () := λ d,
  if bool_decide (gi_MediaID pi.2 ∈ nw_media d)
  then (Ok (), with_gallery (<[(articleID, gi_MediaID pi.2) := MkGalleryRow pi.1 (gi_Caption pi.2)]> (gallery d)) d)
  else (Err NewsDatabase, d).
Definition ReplaceGallery (articleID : uuid) (items : list GalleryItem) : prog newsdb newserr () :=
  in_tx (
    known ← gets (λ d, bool_decide (is_Some (articles d !! articleID)));
    fail_if (negb known) ErrArticleNotFound;;
    modify (λ d, with_gallery (delete_where (λ k _, bool_decide (k.1 = articleID)) (gallery d)) d);;
    for_each (zip (seqZ 0 (Z.of_nat (length items))) items) (put_item articleID)).
Record Translation := MkTranslation {
  tl_Locale : string; tl_Title : string; tl_Subtitle : string; tl_Body : string; tl_Source : string; tl_ApprovedBy : option uuid; tl_CreatedAt : time }.
Definition translation_of (locale : string) (r : translation_row) : Translation :=
  MkTranslation locale (tr_title r) (tr_subtitle r) (tr_body r) (tr_source r) (tr_approved_by r) (tr_created_at r).
Definition Translations (articleID : uuid) d : list Translation :=
  (λ r : (uuid * string) * translation_row, translation_of r.1.2 r.2) <$>
    order_by (λ r, collate r.1.2) (rows_where (λ k _, bool_decide (k.1 = articleID)) (translations d)).
Definition TranslationIn (articleID : uuid) (locale : string) d : option Translation :=
  r ← translations d !! (articleID, locale); Some (translation_of locale r).
Definition SaveTranslation (now : time) (articleID : uuid) (in_ : Translation) : prog newsdb newserr () := λ d,
  if negb (bool_decide (is_Some (articles d !! articleID))) then (Err ErrArticleNotFound, d)
  else if negb (from_option (λ u, has_account u (nw_graph d)) true (tl_ApprovedBy in_)) then (Err ErrArticleNotFound, d)
  else if negb (bool_decide (tl_Source in_ ∈ ["human"; "ai"]%string)) then (Err NewsDatabase, d)
  else
    let created := from_option tr_created_at now (translations d !! (articleID, tl_Locale in_)) in
    (Ok (), with_translations (<[(articleID, tl_Locale in_) :=
      MkTranslationRow (tl_Title in_) (tl_Subtitle in_) (tl_Body in_) (tl_Source in_) (tl_ApprovedBy in_) created]> (translations d)) d).
Definition DeleteTranslation (articleID : uuid) (locale : string) : prog newsdb newserr () := λ d,
  if bool_decide (is_Some (translations d !! (articleID, locale)))
  then (Ok (), with_translations (delete (articleID, locale) (translations d)) d)
  else (Err ErrArticleNotFound, d).
End news.
