(* ===== verification/NewsService.v ===== *)
(** * The newsroom: service and routes ([internal/news]: service.go, gallery.go)

    What a request of a reader, a writer or an editor checks before the statements of [News],
    and the jobs a publication leaves.  [before] is what other requests and the worker commit
    between two statements of a handler that is not one transaction. *)

From stdpp Require Import base tactics list sorting gmap strings.
From Stdlib Require Import ZArith Lia.
From S2P Require Import Prelude GoString Httpx Store Social Auth Jobs Notifications Http News.

Set Default Goal Selector "!".
Open Scope Z_scope.

(** The editorial state machine: from where a status may be reached. *)
Definition transitions (status : string) : option (list string) :=
  if bool_decide (status = StatusDraft) then Some [StatusDraft; StatusReview; StatusScheduled]
  else if bool_decide (status = StatusReview) then Some [StatusDraft; StatusReview]
  else if bool_decide (status = StatusScheduled) then Some [StatusReview; StatusDraft; StatusScheduled]
  else if bool_decide (status = StatusPublished) then Some [StatusReview; StatusScheduled; StatusArchived]
  else if bool_decide (status = StatusArchived) then Some [StatusPublished]
  else None.
Definition publishStates (status : string) : bool := bool_decide (status ∈ [StatusScheduled; StatusPublished; StatusArchived]).

(** The two jobs of a publication. *)
Inductive news_payload :=
| IndexArticle (document : Article)
| BreakingStory (story : news_job).
Record newsroom := MkNewsroom { nr_db : newsdb; nr_jobs : list (Job news_payload) }.
Definition with_nr_db v (s : newsroom) := MkNewsroom v (nr_jobs s).
Definition with_nr_jobs v (s : newsroom) := MkNewsroom (nr_db s) v.
Definition repo {E A} (m : prog newsdb E A) : prog newsroom E A := zoom nr_db with_nr_db m.
Definition reading {A} (f : newsdb → A) : prog newsroom Error A := gets (λ s, f (nr_db s)).
Definition news_internal (_ : newserr) : Error := Internal.
Definition article_missing (e : newserr) : Error :=
  match e with ErrArticleNotFound => NotFound CodeNotFound "Article not found" | _ => Internal end.

Section service.
Context (collate : string → Z) (lower : string → string) (day_of : time → Z) `{JetStream news_payload}.

(** ** Readers *)

Definition or_default (v fallback : string) : string := if bool_decide (v = ""%string) then fallback else v.
Definition Service_Feed (now : time) (q : FeedQuery) : prog newsroom Error (list Article) :=
  let limit := if (fq_Limit q <=? 0) || (100 <? fq_Limit q) then 20 else fq_Limit q in
  let q := MkFeedQuery (fq_Mode q) (or_default (fq_Locale q) defaultLocale) (fq_CategoryID q) (fq_Tag q) (fq_ViewerID q) limit (fq_Before q) in
  fail_if (negb (bool_decide (fq_Mode q ∈ [""; "latest"; "popular"; "following"; "breaking"]%string)))
    (WithField (Validation "Unknown feed mode") "mode" "must be latest, popular, following or breaking");;
  fail_if (bool_decide (fq_Mode q = "following"%string) && bool_decide (fq_ViewerID q = uuid_nil))
    (Unauthorized CodeUnauthorized "Sign in to see the articles you follow");;
  reading (Feed now q).
(** A view that cannot be counted is logged. *)
Definition logged {A} (m : prog newsdb newserr A) : prog newsroom Error () := modify (λ s, (repo m s).2).
Definition Service_Article (now : time) (before : newsdb → newsdb) (slug locale : string) (viewer : uuid) : prog newsroom Error Article :=
  article ← (o ← reading (BySlug collate slug (or_default locale defaultLocale) viewer); or_fail o (NotFound CodeNotFound "Article not found"));
  if bool_decide (viewer = uuid_nil) then mret article
  else
    repo (modify before);;
    logged (RecordView day_of now (ar_ID article) viewer);;
    mret article.
Definition Service_Categories (locale : string) (includeInactive : bool) : prog newsroom Error (list Category) :=
  reading (Categories collate (or_default locale defaultLocale) includeInactive).
Definition Service_Breaking (now : time) (locale : string) : prog newsroom Error (option Article) :=
  reading (LatestBreaking now (or_default locale defaultLocale) (12 * hour)).

(** ** Writers and editors *)

Definition Service_Save (now : time) (drawn : uuid) (tag_ids : string → uuid) (in_ : SaveInput) : prog newsroom Error Article :=
  let title := trim_space (sv_Title in_) in
  fail_if (bool_decide (title = ""%string) || (300 <? rune_count title))
    (WithField (Validation "Title is not valid") "title" "must be between 1 and 300 characters");;
  let format := or_default (sv_BodyFormat in_) "markdown" in
  fail_if (negb (bool_decide (format ∈ ["markdown"; "html"]%string)))
    (WithField (Validation "Unsupported body format") "body_format" "must be markdown or html");;
  let slug := or_default (slugify lower (sv_Slug in_)) (slugify lower title) in
  fail_if (bool_decide (slug = ""%string)) (WithField (Validation "Could not derive a slug") "slug" "provide one explicitly");;
  fail_if (20 <? Z.of_nat (length (sv_Tags in_))) (WithField (Validation "Too many tags") "tags" "at most 20");;
  let in_ := MkSaveInput (sv_ID in_) slug (or_default (sv_Locale in_) defaultLocale) title (sv_Subtitle in_) (sv_Lead in_) (sv_Body in_) format
    (sv_CoverMediaID in_) (sv_VideoMediaID in_) (sv_AudioMediaID in_) (sv_CategoryID in_) (sv_AuthorID in_)
    (or_default (sv_Kind in_) "article") (sv_IsBreaking in_) (sv_IsFeatured in_) (sv_Tags in_) (sv_CreatedBy in_) in
  id ← map_err (λ e, match e with
      | ErrSlugTaken => Conflict CodeConflict "That slug is already in use"
      | NewsNotFound => NotFound CodeNotFound "Article not found"
      | _ => Internal
      end) (repo (Save lower now drawn tag_ids in_));
  o ← reading (ArticleByID collate id (sv_Locale in_));
  or_fail o Internal.

(** [PublishJob]: one that fails is logged. *)
Definition enqueue_job (now : time) (subject dedupeID : string) (p : news_payload) (s : newsroom) : newsroom :=
  with_nr_jobs (PublishJob now subject dedupeID p (nr_jobs s)).2 s.
Definition announcePublication (now : time) (a : Article) (s : newsroom) : newsroom :=
  let s := enqueue_job now SubjectJobSearchIndex ("article-" +:+ uuid_String (ar_ID a)) (IndexArticle a) s in
  if negb (na_is_breaking (ar_Row a)) then s
  else enqueue_job now SubjectJobNewsPublish ("breaking-" +:+ uuid_String (ar_ID a))
         (BreakingStory (MkNewsJob (ar_ID a) (na_slug (ar_Row a)) (na_title (ar_Row a)) (na_locale (ar_Row a)))) s.
Definition Service_SetStatus (now : time) (before : newsdb → newsdb) (articleID : uuid) (status : string) (actor : Principal) (publishAt : option time)
    : prog newsroom Error Article :=
  allowedFrom ← or_fail (transitions status)
    (WithField (Validation "Unknown status") "status" "must be draft, review, scheduled, published or archived");
  fail_if (publishStates status && negb (HasPermission actor PermPublish))
    (Forbidden CodeForbidden "You do not have permission to publish articles");;
  fail_if (bool_decide (status = StatusScheduled) && from_option (λ t, t <? now) true publishAt)
    (WithField (Validation "Scheduled articles need a future publish time") "publish_at" "must be in the future");;
  let publishAt := if bool_decide (status = StatusScheduled) then publishAt else None in
  map_err (λ e, match e with
      | ErrInvalidTransition => Conflict CodeConflict "That status change is not allowed from the article's current state"
      | _ => Internal
      end) (repo (SetStatus now articleID status (prUserID actor) publishAt allowedFrom));;
  repo (modify before);;
  article ← (o ← reading (ArticleByID collate articleID defaultLocale); or_fail o Internal);
  (if bool_decide (status = StatusPublished) then modify (announcePublication now article) else mret ());;
  mret article.

Definition Service_EditorialList (status locale : string) (limit offset : Z) : prog newsroom Error (list Article) :=
  let limit := if (limit <=? 0) || (100 <? limit) then 50 else limit in
  reading (EditorialList status (or_default locale defaultLocale) limit offset).
Definition Service_Draft (articleID : uuid) (locale : string) : prog newsroom Error Article :=
  o ← reading (ArticleByID collate articleID (or_default locale defaultLocale));
  or_fail o (NotFound CodeNotFound "Article not found").
Definition Service_UpsertCategory (drawn : uuid) (c : Category) : prog newsroom Error uuid :=
  let c := MkCategory (ct_ID c) (slugify lower (ct_Slug c)) (ct_ParentID c) (ct_Position c) (ct_IsActive c) (ct_Names c) (ct_Name c) in
  fail_if (bool_decide (ct_Slug c = ""%string)) (WithField (Validation "A slug is required") "slug" "required");;
  fail_if (bool_decide (ct_Names c = ∅)) (WithField (Validation "At least one localised name is required") "names" "provide a name per locale");;
  map_err news_internal (repo (UpsertCategory drawn c)).
Definition Service_DeleteCategory (id : uuid) : prog newsroom Error () :=
  map_err (λ e, match e with NewsNotFound => NotFound CodeNotFound "Category not found" | _ => Internal end) (repo (DeleteCategory id)).
Definition Service_Authors : prog newsroom Error (list Author) := reading (Authors collate).
Definition Service_UpsertAuthor (drawn : uuid) (a : Author) : prog newsroom Error uuid :=
  let name := trim_space (au_DisplayName a) in
  fail_if (bool_decide (name = ""%string)) (WithField (Validation "A display name is required") "display_name" "required");;
  map_err (λ e, match e with NewsNotFound => NotFound CodeNotFound "Author not found" | _ => Internal end)
    (repo (UpsertAuthor drawn (MkAuthor (au_ID a) (au_UserID a) name (au_Bio a) (au_AvatarID a) (au_IsActive a)))).
Definition Service_SetBookmark (now : time) (userID articleID : uuid) (on : bool) : prog newsroom Error () :=
  map_err news_internal (repo (SetBookmark now userID articleID on)).
Definition Service_Bookmarks (userID : uuid) (locale : string) : prog newsroom Error (list Article) :=
  reading (Bookmarks userID (or_default locale defaultLocale) 100).
Definition Service_SetFollow (userID : uuid) (categoryID tagID authorID : option uuid) (follow : bool) : prog newsroom Error () :=
  match omap id [FollowCategory <$> categoryID; FollowTag <$> tagID; FollowAuthor <$> authorID] with
  | [target] => map_err news_internal (repo (SetFollow userID target follow))
  | _ => fail (WithField (Validation "Follow exactly one of a category, tag or author") "target" "provide exactly one")
  end.

(** ** Galleries and translations *)

Definition Service_Gallery (articleID : uuid) : prog newsroom Error (list GalleryItem) := reading (Gallery articleID).
(** The loop over the items with [seen]. *)
Fixpoint check_items (seen : list uuid) (items : list GalleryItem) : result Error () :=
  match items with
  | [] => Ok ()
  | item :: items =>
      if bool_decide (gi_MediaID item = uuid_nil) then Err (WithField (Validation "Every gallery item needs media") "media_id" "required")
      else if bool_decide (gi_MediaID item ∈ seen) then
        Err (WithField (Validation "The same image appears twice") "media_id" "must be unique within a gallery")
      else check_items (gi_MediaID item :: seen) items
  end.
Definition Service_ReplaceGallery (articleID : uuid) (items : list GalleryItem) : prog newsroom Error () :=
  fail_if (maxGalleryItems <? Z.of_nat (length items)) (WithField (Validation "That is too many images") "items" ("at most " +:+ Itoa maxGalleryItems));;
  match check_items [] items with Ok _ => mret () | Err e => fail e end;;
  map_err article_missing (repo (ReplaceGallery articleID items)).
Definition Service_Translations (articleID : uuid) : prog newsroom Error (list Translation) := reading (Translations collate articleID).
Definition Service_SaveTranslation (now : time) (articleID : uuid) (in_ : Translation) (approver : uuid) : prog newsroom Error () :=
  let locale := lower (trim_space (tl_Locale in_)) in
  fail_if (bool_decide (locale = ""%string) || (8 <? len locale)) (WithField (Validation "A locale is required") "locale" "e.g. fa, en, ar, tr");;
  fail_if (bool_decide (trim_space (tl_Title in_) = ""%string)) (WithField (Validation "A translation needs a title") "title" "required");;
  let written source approved := MkTranslation locale (tl_Title in_) (tl_Subtitle in_) (tl_Body in_) source approved (tl_CreatedAt in_) in
  t ← (if bool_decide (tl_Source in_ ∈ [""; "human"]%string) then mret (written "human"%string (Some approver))
       else if bool_decide (tl_Source in_ = "ai"%string) then mret (written "ai"%string (tl_ApprovedBy in_))
       else fail (WithField (Validation "Unsupported translation source") "source" "must be human or ai"));
  map_err article_missing (repo (SaveTranslation now articleID t)).
Definition no_translation (e : newserr) : Error :=
  match e with ErrArticleNotFound => NotFound CodeNotFound "No translation in that language" | _ => Internal end.
Definition Service_ApproveTranslation (now : time) (before : newsdb → newsdb) (articleID : uuid) (locale : string) (approver : uuid) : prog newsroom Error () :=
  t ← (o ← reading (TranslationIn articleID (lower locale)); or_fail o (NotFound CodeNotFound "No translation in that language"));
  repo (modify before);;
  map_err news_internal (repo (SaveTranslation now articleID
    (MkTranslation (tl_Locale t) (tl_Title t) (tl_Subtitle t) (tl_Body t) (tl_Source t) (Some approver) (tl_CreatedAt t)))).
Definition Service_DeleteTranslation (articleID : uuid) (locale : string) : prog newsroom Error () :=
  map_err no_translation (repo (DeleteTranslation articleID (lower locale))).

(** ** Routes

    [p] is the principal the middleware attached.  [now], [drawn] and [tag_ids] are the clock
    and the identifiers drawn; a list is answered as it is. *)

Section routes.
Context (now : time) (before : newsdb → newsdb) (drawn : uuid) (tag_ids : string → uuid) (p : option Principal).
Definition viewer_of : uuid := from_option prUserID uuid_nil p.
Definition article_id (parsed : option uuid) : prog newsroom Error uuid := path_id "articleID is not a valid UUID" parsed.
Definition gallery_article (parsed : option uuid) : prog newsroom Error uuid := path_id "article id must be a UUID" parsed.

(** A page of the feed with [meta.has_more] and [meta.next_cursor]. *)
Record FeedPage := MkFeedPage { fp_Articles : list Article; fp_HasMore : bool; fp_NextCursor : option time }.
(** An absent parameter is [None], one that does not parse [Some None]. *)
Definition optional_param {A} (message : string) (raw : option (option A)) : prog newsroom Error (option A) :=
  match raw with None => mret None | Some parsed => a ← or_fail parsed (BadRequest message); mret (Some a) end.
Definition handle_feed (mode locale tag rawLimit : string) (category : option (option uuid)) (before_ : option (option time)) : prog newsroom Error FeedPage :=
  c ← optional_param "category_id is not a valid UUID" category;
  b ← optional_param "before must be an RFC3339 timestamp" before_;
  let q := MkFeedQuery mode locale c tag viewer_of (queryInt rawLimit 20) b in
  articles ← Service_Feed now q;
  mret (MkFeedPage articles (bool_decide (Z.of_nat (length articles) = fq_Limit q))
    (last articles ≫= λ a, na_published_at (ar_Row a))).
Definition handle_categories (locale : string) : prog newsroom Error (list Category) := Service_Categories locale false.
Definition handle_breaking (locale : string) : prog newsroom Error (option Article) := Service_Breaking now locale.
Definition handle_article (slug locale : string) : prog newsroom Error Article := Service_Article now before slug locale viewer_of.
Definition handle_bookmarks (locale : string) : prog newsroom Error (list Article) :=
  principal ← MustPrincipal p; Service_Bookmarks (prUserID principal) locale.
Definition handle_bookmark (articleID : option uuid) (on : bool) : prog newsroom Error () :=
  principal ← MustPrincipal p;
  id ← article_id articleID;
  Service_SetBookmark now (prUserID principal) id on.
Definition handle_setFollow (body : Body (option uuid * option uuid * option uuid * bool)) : prog newsroom Error () :=
  principal ← MustPrincipal p;
  b ← DecodeJSON body;
  Service_SetFollow (prUserID principal) b.1.1.1 b.1.1.2 b.1.2 b.2.

Definition handle_editorialList (status locale rawLimit rawOffset : string) : prog newsroom Error (list Article) :=
  Service_EditorialList status locale (queryInt rawLimit 50) (queryInt rawOffset 0).
Definition handle_draft (articleID : option uuid) (locale : string) : prog newsroom Error Article :=
  id ← article_id articleID; Service_Draft id locale.
(** The body and who sends it make the input: [articleID] is absent when an article is
    created. *)
Definition save_input (body : SaveInput) (id creator : uuid) : SaveInput :=
  MkSaveInput id (sv_Slug body) (sv_Locale body) (sv_Title body) (sv_Subtitle body) (sv_Lead body) (sv_Body body) (sv_BodyFormat body)
    (sv_CoverMediaID body) (sv_VideoMediaID body) (sv_AudioMediaID body) (sv_CategoryID body) (sv_AuthorID body) (sv_Kind body)
    (sv_IsBreaking body) (sv_IsFeatured body) (sv_Tags body) creator.
Definition handle_saveArticle (articleID : option (option uuid)) (body : Body SaveInput) : prog newsroom Error (Z * Article) :=
  principal ← MustPrincipal p;
  fail_if (negb (HasPermission principal PermWrite)) (Forbidden CodeForbidden "You do not have permission to write articles");;
  b ← DecodeJSON body;
  id ← optional_param "articleID is not a valid UUID" articleID;
  let input := save_input b (default uuid_nil id) (prUserID principal) in
  article ← Service_Save now drawn tag_ids input;
  mret (if bool_decide (sv_ID input = uuid_nil) then 201 else 200, article).
Definition handle_setStatus (articleID : option uuid) (body : Body (string * option time)) : prog newsroom Error Article :=
  principal ← MustPrincipal p;
  id ← article_id articleID;
  b ← DecodeJSON body;
  Service_SetStatus now before id b.1 principal b.2.
Definition handle_editorialCategories (locale : string) : prog newsroom Error (list Category) := Service_Categories locale true.
Definition handle_upsertCategory (body : Body Category) : prog newsroom Error uuid :=
  principal ← MustPrincipal p;
  fail_if (negb (HasPermission principal PermCategories)) (Forbidden CodeForbidden "You do not have permission to manage categories");;
  b ← DecodeJSON body;
  Service_UpsertCategory drawn b.
Definition handle_deleteCategory (categoryID : option uuid) : prog newsroom Error () :=
  principal ← MustPrincipal p;
  fail_if (negb (HasPermission principal PermCategories)) (Forbidden CodeForbidden "You do not have permission to manage categories");;
  id ← path_id "categoryID is not a valid UUID" categoryID;
  Service_DeleteCategory id.
Definition handle_authors : prog newsroom Error (list Author) := Service_Authors.
Definition handle_upsertAuthor (body : Body Author) : prog newsroom Error uuid :=
  principal ← MustPrincipal p;
  fail_if (negb (HasPermission principal PermWrite)) (Forbidden CodeForbidden "You do not have permission to manage authors");;
  b ← DecodeJSON body;
  Service_UpsertAuthor drawn b.
Definition handle_gallery (articleID : option uuid) : prog newsroom Error (list GalleryItem) :=
  id ← gallery_article articleID; Service_Gallery id.
Definition handle_replaceGallery (articleID : option uuid) (body : Body (list GalleryItem)) : prog newsroom Error () :=
  id ← gallery_article articleID; items ← DecodeJSON body; Service_ReplaceGallery id items.
Definition handle_translations (articleID : option uuid) : prog newsroom Error (list Translation) :=
  id ← gallery_article articleID; Service_Translations id.
(** The fields of the body, in the language the path names. *)
Definition handle_saveTranslation (articleID : option uuid) (locale : string) (body : Body (string * string * string * string)) : prog newsroom Error () :=
  principal ← MustPrincipal p;
  id ← gallery_article articleID;
  b ← DecodeJSON body;
  Service_SaveTranslation now id (MkTranslation locale b.1.1.1 b.1.1.2 b.1.2 b.2 None 0) (prUserID principal).
Definition handle_approveTranslation (articleID : option uuid) (locale : string) : prog newsroom Error () :=
  principal ← MustPrincipal p;
  id ← gallery_article articleID;
  Service_ApproveTranslation now before id locale (prUserID principal).
Definition handle_deleteTranslation (articleID : option uuid) (locale : string) : prog newsroom Error () :=
  id ← gallery_article articleID; Service_DeleteTranslation id locale.

(** The three route tables: what changes the newsroom.  The reading routes are above. *)
Inductive reader_request :=
| ReadArticle (slug locale : string)
| Bookmark (articleID : option uuid) (on : bool)
| Follow (body : Body (option uuid * option uuid * option uuid * bool)).
Definition PublicRoutes (r : reader_request) : prog newsroom Error () :=
  match r with ReadArticle slug locale => handle_article slug locale;; mret () | _ => mret () end.
Definition ReaderRoutes (r : reader_request) : prog newsroom Error () :=
  match r with Bookmark id on => handle_bookmark id on | Follow body => handle_setFollow body | ReadArticle _ _ => mret () end.
Inductive editorial_request :=
| SaveArticle (articleID : option (option uuid)) (body : Body SaveInput)
| ChangeStatus (articleID : option uuid) (body : Body (string * option time))
| PutCategory (body : Body Category)
| DropCategory (categoryID : option uuid)
| PutAuthor (body : Body Author)
| PutGallery (articleID : option uuid) (body : Body (list GalleryItem))
| PutTranslation (articleID : option uuid) (locale : string) (body : Body (string * string * string * string))
| ApproveIn (articleID : option uuid) (locale : string)
| DropTranslation (articleID : option uuid) (locale : string).
Definition editorial_handler (r : editorial_request) : prog newsroom Error () :=
  match r with
  | SaveArticle id body => handle_saveArticle id body;; mret ()
  | ChangeStatus id body => handle_setStatus id body;; mret ()
  | PutCategory body => handle_upsertCategory body;; mret ()
  | DropCategory id => handle_deleteCategory id
  | PutAuthor body => handle_upsertAuthor body;; mret ()
  | PutGallery id body => handle_replaceGallery id body
  | PutTranslation id locale body => handle_saveTranslation id locale body
  | ApproveIn id locale => handle_approveTranslation id locale
  | DropTranslation id locale => handle_deleteTranslation id locale
  end.
(** Mounted behind [news.read]. *)
Definition EditorialRoutes (r : editorial_request) : prog newsroom Error () := RequirePermission PermRead p (editorial_handler r).
End routes.
End service.
