(* ===== verification/NewsTheory.v ===== *)
(** * The newsroom: the theorems

    The table of articles stays in order whatever readers, writers, editors and the worker do;
    only an editor puts an article before the public or takes it away; what a publication
    announces. *)

From stdpp Require Import base tactics list sorting gmap strings.
From Stdlib Require Import ZArith Lia.
From S2P Require Import Prelude Steps GoString Httpx Store Social Auth Jobs Notifications Http News NewsService.

Set Default Goal Selector "!".
Open Scope Z_scope.

(** ** Events *)

Definition statuses : list string := [StatusDraft; StatusReview; StatusScheduled; StatusPublished; StatusArchived].
(** What happens to the newsroom: the requests of the three route tables, the worker's tick and
    the summaries a machine writes.  Each request carries what commits between its
    statements. *)
Inductive newsroom_event :=
| EvPublic (now : time) (before : newsdb → newsdb) (p : option Principal) (r : reader_request)
| EvReader (now : time) (before : newsdb → newsdb) (p : option Principal) (r : reader_request)
| EvEditorial (now : time) (before : newsdb → newsdb) (drawn : uuid) (tag_ids : string → uuid) (p : option Principal) (r : editorial_request)
| EvWorker (now : time)
| EvSummary (articleID : uuid) (summary : string) (keywords : list string).

Section theory.
Context (collate : string → Z) (lower : string → string) (day_of : time → Z) `{JetStream news_payload}.

Definition newsroom_run (e : newsroom_event) (s : newsroom) : newsroom :=
  match e with
  | EvPublic now before p r => (PublicRoutes collate day_of now before p r s).2
  | EvReader now before p r => (ReaderRoutes now p r s).2
  | EvEditorial now before drawn tag_ids p r => (EditorialRoutes collate lower now before drawn tag_ids p r s).2
  | EvWorker now => with_nr_db (publishScheduledArticles now (nr_db s)) s
  | EvSummary id summary keywords => with_nr_db (SetAIFields id summary keywords (nr_db s)) s
  end.
(** What the other requests do in between is of the kind [R] speaks of. *)
Definition event_before (e : newsroom_event) : newsdb → newsdb :=
  match e with EvPublic _ b _ _ | EvReader _ b _ _ | EvEditorial _ b _ _ _ _ => b | _ => id end.

(** ** The table of articles *)

Record article_ok (a : article_row) : Prop := {
  ao_status : na_status a ∈ statuses;
  ao_published : na_status a = StatusPublished → is_Some (na_published_at a);
  ao_scheduled : na_status a = StatusScheduled → is_Some (na_publish_at a);
  ao_archived : na_status a = StatusArchived ↔ is_Some (na_archived_at a);
}.
Definition viewed (id : uuid) (k : uuid * uuid * Z) (_ : Z) : bool := bool_decide (k.1.1 = id).
Record news_ok (d : newsdb) : Prop := {
  no_articles : ∀ i a, articles d !! i = Some a → article_ok a ∧ na_view_count a = count_where (viewed i) (article_views d);
  no_slugs : ∀ i j a b, articles d !! i = Some a → articles d !! j = Some b → na_slug a = na_slug b → i = j;
  no_views : ∀ i u day n, article_views d !! (i, u, day) = Some n → is_Some (articles d !! i) ∧ 0 < n;
}.
(** What an article keeps. *)
Record article_kept (a a' : article_row) : Prop := {
  ak_published_at : is_Some (na_published_at a) → na_published_at a' = na_published_at a;
  ak_created : na_created_by a' = na_created_by a ∧ na_created_at a' = na_created_at a;
  ak_views : na_view_count a <= na_view_count a';
}.
Definition news_kept (d d' : newsdb) : Prop := ∀ i a, articles d !! i = Some a → ∃ a', articles d' !! i = Some a' ∧ article_kept a a'.
Definition in_order (d d' : newsdb) : Prop := news_ok d → news_ok d' ∧ news_kept d d'.

#[local] Instance article_kept_preorder : PreOrder article_kept.
Proof.
  split; [by intros a; split|]. intros a b c [P1 [C1 C1'] V1] [P2 [C2 C2'] V2]. split; [|split; congruence|lia].
  intros Hs. rewrite P2; [by apply P1|]. by rewrite P1.
Qed.
#[local] Instance in_order_preorder : PreOrder in_order.
Proof.
  split; [intros d Hd; split; [done|]; intros i a Ha; by exists a|].
  intros d1 d2 d3 H12 H23 Hok. destruct (H12 Hok) as [Hok2 K12]. destruct (H23 Hok2) as [Hok3 K23]. split; [done|].
  intros i a Ha. destruct (K12 i a Ha) as (b & Hb & Hab). destruct (K23 i b Hb) as (c & Hc & Hbc). exists c. split; [done|]. by transitivity b.
Qed.

(** Changing single articles, view rows apart. *)
Lemma in_order_update P f d : (∀ i a, articles d !! i = Some a → P i a = true → article_ok a →
    article_ok (f i a) ∧ article_kept a (f i a) ∧ na_view_count (f i a) = na_view_count a ∧ na_slug (f i a) = na_slug a) →
  in_order d (with_articles (update_where P f (articles d)) d).
Proof.
  intros Hf [Ha Hs Hv].
  assert (∀ i a', update_where P f (articles d) !! i = Some a' → ∃ a, articles d !! i = Some a ∧ article_ok a' ∧ article_kept a a' ∧
    na_view_count a' = na_view_count a ∧ na_slug a' = na_slug a) as Hback.
  { intros i a'. rewrite lookup_update_where, fmap_Some. intros (a & Hi & ->). exists a. split; [done|].
    destruct (P i a) eqn:HP; [apply Hf; [done|done|by apply (Ha i)]|]. split; [by apply (Ha i)|]. split; [reflexivity|done]. }
  split; [split|].
  - intros i a' (a & Hi & Hok & _ & Hc & _)%Hback. split; [done|]. simpl. rewrite Hc. by apply Ha.
  - intros i j a' b' (a & Hi & _ & _ & _ & Hsa)%Hback (b & Hj & _ & _ & _ & Hsb)%Hback Heq. apply (Hs i j a b); congruence.
  - intros i u day n Hn. destruct (Hv i u day n Hn) as [[a Hi] Hpos]. split; [|done]. simpl. rewrite lookup_update_where, Hi. by eexists.
  - intros i a Hi. simpl. rewrite lookup_update_where, Hi. eexists. split; [done|].
    destruct (P i a) eqn:HP; [apply Hf; [done|done|by apply (Ha i)]|reflexivity].
Qed.
(** Everything that leaves the articles and their views alone. *)
Lemma in_order_other d d' : articles d' = articles d → article_views d' = article_views d → in_order d d'.
Proof.
  intros Ha Hv [Oa Os Ov]. split; [split|].
  - intros i a. rewrite Ha, Hv. apply Oa.
  - intros i j a b. rewrite Ha. apply Os.
  - intros i u day n. rewrite Hv, Ha. apply Ov.
  - intros i a Hi. exists a. rewrite Ha. split; [done|reflexivity].
Qed.

(** ** The statements keep it in order *)

Lemma views_of_new d i : news_ok d → articles d !! i = None → count_where (viewed i) (article_views d) = 0.
Proof.
  intros [_ _ Hv] Hi. apply count_where_0. intros [[j u] day] n Hn. unfold viewed. simpl. apply bool_decide_false. intros ->.
  destruct (Hv i u day n Hn) as [[a Ha] _]. congruence.
Qed.
Lemma slug_used_false slug except d : slug_used slug except d = false → ∀ j b, articles d !! j = Some b → na_slug b = slug → j = except.
Proof.
  unfold slug_used. intros Hu%Z.ltb_ge j b Hj Hs. destruct (decide (j = except)) as [|Hne]; [done|]. exfalso.
  assert (count_where (λ id a, bool_decide (na_slug a = slug) && negb (bool_decide (id = except))) (articles d) = 0) as Hz.
  { pose proof (count_where_nonneg (λ id a, bool_decide (na_slug a = slug) && negb (bool_decide (id = except))) (articles d)). lia. }
  rewrite count_where_0 in Hz. specialize (Hz j b Hj). simpl in Hz. by rewrite bool_decide_true, bool_decide_false in Hz.
Qed.
Lemma in_order_put i a' d :
  (∀ j b, articles d !! j = Some b → na_slug b = na_slug a' → j = i) → article_ok a' →
  na_view_count a' = from_option na_view_count 0 (articles d !! i) →
  (∀ a, articles d !! i = Some a → article_kept a a') →
  in_order d (with_articles (<[i := a']> (articles d)) d).
Proof.
  intros Hslug Hok Hcount Hkept Hd. pose proof Hd as [Ha Hs Hv]. split; [split|].
  - intros j b. simpl. intros [[<- <-]|[_ Hj]]%lookup_insert_Some; [|by apply Ha]. split; [done|]. rewrite Hcount.
    destruct (articles d !! i) as [a|] eqn:Hi; [by apply Ha|]. simpl. symmetry. by apply views_of_new.
  - intros j k b c. simpl. intros [[<- <-]|[Hij Hj]]%lookup_insert_Some [[<- <-]|[Hik Hk]]%lookup_insert_Some Heq; [done| | |by apply (Hs j k b c)].
    + symmetry. by apply (Hslug k c).
    + by apply (Hslug j b).
  - intros j u day n Hn. destruct (Hv j u day n Hn) as [[b Hb] Hpos]. split; [|done]. simpl.
    destruct (decide (i = j)) as [<-|]; [rewrite lookup_insert_eq|rewrite lookup_insert_ne by done]; by eexists.
  - intros j b Hj. simpl. destruct (decide (i = j)) as [<-|]; [rewrite lookup_insert_eq|rewrite lookup_insert_ne by done].
    + exists a'. split; [done|by apply Hkept].
    + exists b. split; [done|reflexivity].
Qed.
Lemma statuses_distinct : StatusDraft ≠ StatusPublished ∧ StatusDraft ≠ StatusScheduled ∧ StatusDraft ≠ StatusArchived ∧
  StatusPublished ≠ StatusScheduled ∧ StatusPublished ≠ StatusArchived ∧ StatusScheduled ≠ StatusArchived.
Proof. done. Qed.
Lemma insert_article_in_order now drawn in_ : Steps.follows in_order (insert_article now drawn in_).
Proof.
  intros d. unfold insert_article. destruct (negb _ || _ || _) eqn:Hfit; [reflexivity|].
  destruct (slug_used _ _ d) eqn:Hslug; [reflexivity|]. apply orb_false_iff in Hfit as [_ Hfresh]. simpl.
  assert (articles d !! drawn = None) as Hnone by (apply eq_None_not_Some; by apply bool_decide_eq_false in Hfresh).
  apply in_order_put; [|split|by rewrite Hnone|intros a Ha; congruence].
  - intros j b Hj Hs. by apply (slug_used_false _ _ _ Hslug j b).
  - by left.
  - intros [=].
  - intros [=].
  - split; [intros [=]|by intros []].
Qed.
Lemma update_article_in_order now in_ : Steps.follows in_order (update_article now in_).
Proof.
  intros d. unfold update_article. destruct (articles d !! sv_ID in_) as [old|] eqn:Hold; [|reflexivity].
  destruct (negb _); [reflexivity|]. destruct (slug_used _ _ d) eqn:Hslug; [reflexivity|]. simpl. intros Hd.
  destruct (no_articles d Hd _ _ Hold) as [Hok _]. revert Hd. apply in_order_put.
  - intros j b Hj Hs. by apply (slug_used_false _ _ _ Hslug j b).
  - by destruct Hok.
  - by rewrite Hold.
  - intros a Ha. rewrite Hold in Ha. injection Ha as <-. by split.
Qed.
Lemma replaceTags_other drawn i l d : articles (replaceTags lower drawn i l d) = articles d ∧
  article_views (replaceTags lower drawn i l d) = article_views d.
Proof.
  unfold replaceTags. set (d0 := with_article_tags _ d).
  assert (articles d0 = articles d ∧ article_views d0 = article_views d) as [<- <-] by done. generalize d0. clear d0.
  induction l as [|tag l IH]; intros d0; [done|]. simpl. destruct (IH (link_tag lower drawn i tag d0)) as [-> ->].
  unfold link_tag. by destruct (decide _).
Qed.
Lemma Save_in_order now drawn tag_ids in_ : Steps.follows in_order (Save lower now drawn tag_ids in_).
Proof.
  unfold Save. follow_steps; [apply insert_article_in_order|apply update_article_in_order|].
  apply in_order_other; apply replaceTags_other.
Qed.
Lemma SetStatus_in_order now i status reviewer publishAt allowedFrom : status ∈ statuses →
  (status = StatusScheduled → is_Some publishAt) → Steps.follows in_order (SetStatus now i status reviewer publishAt allowedFrom).
Proof.
  intros Hst Hsch d. unfold SetStatus. destruct (hits _ _ _); [|reflexivity]. destruct (negb _); [reflexivity|]. simpl.
  apply in_order_update. intros j a Ha _ [Os Op Oc Oa]. split; [split|]; simpl.
  - done.
  - intros ->. rewrite decide_True by done. by eexists.
  - done.
  - destruct (decide (status = StatusArchived)) as [->|Hne]; split; [by eexists|done|done|by intros []].
  - split; [|done]. split; [|done|simpl; lia]. simpl. intros [t Ht]. rewrite Ht. by destruct (decide _).
Qed.
Lemma worker_in_order now d : in_order d (publishScheduledArticles now d).
Proof.
  apply in_order_update. intros i a Ha Hdue [Os Op Oc Oa]. unfold publication_due in Hdue. apply andb_true_iff in Hdue as [Hst%bool_decide_eq_true Hat].
  destruct (na_publish_at a) as [t|] eqn:Ht; [|done]. split; [split|]; simpl.
  - by do 3 right; left.
  - intros _. rewrite Ht. by destruct (na_published_at a); eexists.
  - intros [=].
  - split; [intros [=]|]. intros Harch%Oa. by rewrite Hst in Harch.
  - split; [|done]. split; [|done|simpl; lia]. simpl. intros [t' Ht']. by rewrite Ht'.
Qed.
Lemma SetAIFields_in_order i summary keywords d : in_order d (SetAIFields i summary keywords d).
Proof. apply in_order_update. intros j a Ha _ Hok. by destruct Hok. Qed.
Lemma viewed_other i j u day (n : Z) : viewed i (j, u, day) n = bool_decide (j = i).
Proof. done. Qed.
Lemma RecordView_in_order now i u : Steps.follows in_order (RecordView day_of now i u).
Proof.
  intros d. unfold RecordView. destruct (negb _ || _) eqn:Hk; [reflexivity|].
  apply orb_false_iff in Hk as [Hknown%negb_false_iff%bool_decide_eq_true _]. destruct Hknown as [ai Hai].
  set (k := (i, u, day_of now)). destruct (article_views d !! k) as [n|] eqn:Hn; simpl; intros Hd; pose proof Hd as [Ha Hs Hv].
  - split; [split|].
    + intros j a Hj. destruct (Ha j a Hj) as [Hok Hc]. split; [done|]. rewrite Hc. simpl. rewrite count_where_insert. unfold hits. rewrite Hn.
      unfold viewed. simpl. lia.
    + exact Hs.
    + intros j v day m. simpl. destruct (decide (k = (j, v, day))) as [Hk|Hk].
      * rewrite Hk, lookup_insert_eq. intros [= <-]. subst k. injection Hk as <- <- <-. destruct (Hv _ _ _ _ Hn). split; [done|lia].
      * rewrite lookup_insert_ne by done. apply Hv.
    + intros j a Hj. exists a. split; [done|reflexivity].
  - split; [split|].
    + intros j a'. simpl. rewrite lookup_update_where, fmap_Some. intros (a & Hj & ->). destruct (Ha j a Hj) as [Hok Hc].
      rewrite count_where_insert_new by done. subst k. rewrite viewed_other. destruct (decide (j = i)) as [->|Hne].
      * rewrite !bool_decide_true by done. split; [by destruct Hok|]. simpl. lia.
      * rewrite !bool_decide_false by done. split; [done|]. lia.
    + intros j l a b. simpl. rewrite !lookup_update_where, !fmap_Some. intros (a0 & Hj & ->) (b0 & Hl & ->) Heq. apply (Hs j l a0 b0); [done|done|].
      by destruct (bool_decide (j = i)), (bool_decide (l = i)).
    + intros j v day m. simpl. rewrite lookup_update_where, fmap_is_Some. destruct (decide (k = (j, v, day))) as [Hk|Hk].
      * rewrite Hk, lookup_insert_eq. intros [= <-]. subst k. injection Hk as <- <- <-. split; [by eexists|lia].
      * rewrite lookup_insert_ne by done. apply Hv.
    + intros j a Hj. simpl. rewrite lookup_update_where, Hj. eexists. split; [done|].
      destruct (bool_decide (j = i)); [|reflexivity]. split; [done|done|simpl; lia].
Qed.
(** The rest of the tables. *)
Lemma other_in_order {A} (m : prog newsdb newserr A) :
  (∀ d, articles (m d).2 = articles d ∧ article_views (m d).2 = article_views d) → Steps.follows in_order m.
Proof. intros Hm d. apply in_order_other; apply Hm. Qed.
Lemma SetBookmark_in_order now u i on : Steps.follows in_order (SetBookmark now u i on).
Proof. apply other_in_order. intros d. unfold SetBookmark. by repeat case_match. Qed.
Lemma SetFollow_in_order u t on : Steps.follows in_order (SetFollow u t on).
Proof. apply other_in_order. intros d. unfold SetFollow. by repeat case_match. Qed.
Lemma UpsertCategory_in_order drawn c : Steps.follows in_order (UpsertCategory drawn c).
Proof. unfold UpsertCategory. follow_steps; by apply in_order_other. Qed.
Lemma DeleteCategory_in_order i : Steps.follows in_order (DeleteCategory i).
Proof. apply other_in_order. intros d. unfold DeleteCategory. by destruct (categories d !! i). Qed.
Lemma UpsertAuthor_in_order drawn a : Steps.follows in_order (UpsertAuthor drawn a).
Proof.
  apply other_in_order. intros d. unfold UpsertAuthor. destruct (decide _).
  - destruct (authors d !! _); [|done]. by destruct (media_known _ _).
  - by destruct (negb _ || _ || _).
Qed.
Lemma put_item_in_order i x : Steps.follows in_order (put_item i x).
Proof. apply other_in_order. intros d. unfold put_item. by destruct (bool_decide _). Qed.
Lemma ReplaceGallery_in_order i l : Steps.follows in_order (ReplaceGallery i l).
Proof. unfold ReplaceGallery. follow_steps; [by apply in_order_other|apply put_item_in_order]. Qed.
Lemma SaveTranslation_in_order now i t : Steps.follows in_order (SaveTranslation now i t).
Proof. apply other_in_order. intros d. unfold SaveTranslation. by repeat case_match. Qed.
Lemma DeleteTranslation_in_order i locale : Steps.follows in_order (DeleteTranslation i locale).
Proof. apply other_in_order. intros d. unfold DeleteTranslation. by destruct (bool_decide _). Qed.

(** ** So do the requests *)

Abbreviation room_in_order := (seen_by nr_db in_order).
Lemma repo_follows {E A} (m : prog newsdb E A) (R : newsdb → newsdb → Prop) : Steps.follows R m → Steps.follows (seen_by nr_db R) (repo m).
Proof. apply follows_zoom. done. Qed.
Lemma reading_follows {A} (f : newsdb → A) (R : newsdb → newsdb → Prop) `{!PreOrder R} : Steps.follows (seen_by nr_db R) (reading f).
Proof. apply follows_gets. apply _. Qed.
Lemma logged_follows {A} (m : prog newsdb newserr A) (R : newsdb → newsdb → Prop) : Steps.follows R m → Steps.follows (seen_by nr_db R) (logged m).
Proof. intros Hm. apply follows_modify. intros s. by apply (repo_follows m R). Qed.
Lemma before_follows {E} (before : newsdb → newsdb) (R : newsdb → newsdb → Prop) : (∀ d, R d (before d)) → Steps.follows (seen_by nr_db R) (repo (modify before : prog newsdb E ())).
Proof. intros Hb. apply repo_follows. by apply follows_modify. Qed.
Lemma announce_keeps now a s : nr_db (announcePublication now a s) = nr_db s.
Proof. unfold announcePublication, enqueue_job. by destruct (negb _). Qed.

(** A relation every statement follows is followed by every request; [may] is what moving an
    article to a publishing state asks for. *)
Section requests.
Context (R : newsdb → newsdb → Prop) `{!PreOrder R} (may : Prop).
Record statements_follow : Prop := {
  sf_view : ∀ now i u, Steps.follows R (RecordView day_of now i u);
  sf_bookmark : ∀ now u i on, Steps.follows R (SetBookmark now u i on);
  sf_follow : ∀ u t on, Steps.follows R (SetFollow u t on);
  sf_save : ∀ now drawn tag_ids in_, Steps.follows R (Save lower now drawn tag_ids in_);
  sf_status : ∀ now i status reviewer publishAt allowedFrom, transitions status = Some allowedFrom →
    (publishStates status = true → may) → (status = StatusScheduled ↔ is_Some publishAt) →
    Steps.follows R (SetStatus now i status reviewer publishAt allowedFrom);
  sf_category : ∀ drawn c, Steps.follows R (UpsertCategory drawn c);
  sf_drop_category : ∀ i, Steps.follows R (DeleteCategory i);
  sf_author : ∀ drawn a, Steps.follows R (UpsertAuthor drawn a);
  sf_gallery : ∀ i l, Steps.follows R (ReplaceGallery i l);
  sf_translation : ∀ now i t, Steps.follows R (SaveTranslation now i t);
  sf_drop_translation : ∀ i locale, Steps.follows R (DeleteTranslation i locale);
}.
Context (Hst : statements_follow) (before : newsdb → newsdb) (Hbefore : ∀ d, R d (before d)).

Ltac news_step :=
  first
    [ apply reading_follows; typeclasses eauto
    | apply before_follows; exact Hbefore
    | apply logged_follows
    | apply repo_follows
    | follow_step ].
Ltac news_steps := repeat news_step; try (apply Hst; done).

Lemma optional_follows {A} message (raw : option (option A)) : Steps.follows (seen_by nr_db R) (optional_param message raw).
Proof. unfold optional_param. news_steps. Qed.
Lemma Article_follows now slug locale viewer : Steps.follows (seen_by nr_db R) (Service_Article collate day_of now before slug locale viewer).
Proof. unfold Service_Article. news_steps. Qed.
Lemma PublicRoutes_follow now p r : Steps.follows (seen_by nr_db R) (PublicRoutes collate day_of now before p r).
Proof. unfold PublicRoutes, handle_article. destruct r; news_steps. apply Article_follows. Qed.
Lemma ReaderRoutes_follow now p r : Steps.follows (seen_by nr_db R) (ReaderRoutes now p r).
Proof.
  unfold ReaderRoutes, handle_bookmark, handle_setFollow, article_id, Service_SetBookmark, Service_SetFollow. destruct r; news_steps.
Qed.
Lemma SetStatus_follows now i status actor publishAt : (HasPermission actor PermPublish = true → may) →
  Steps.follows (seen_by nr_db R) (Service_SetStatus collate now before i status actor publishAt).
Proof.
  intros Hmay s. unfold Service_SetStatus. rewrite bind_run. unfold or_fail at 1.
  destruct (transitions status) as [allowedFrom|] eqn:Ht; [|unfold seen_by; simpl; reflexivity].
  cbn beta iota. rewrite bind_run. unfold fail_if at 1. destruct (publishStates status && _) eqn:Hp; [unfold seen_by; simpl; reflexivity|].
  cbn beta iota. rewrite bind_run. unfold fail_if at 1. destruct (bool_decide (status = StatusScheduled) && _) eqn:Hs; [unfold seen_by; simpl; reflexivity|].
  cbn beta iota zeta. match goal with |- seen_by _ _ s ((?m s).2) => enough (Steps.follows (seen_by nr_db R) m) as Hm; [apply Hm|] end.
  news_steps; [|unfold seen_by; rewrite announce_keeps; reflexivity].
  apply Hst; [done| |].
  - intros Hps. apply Hmay. rewrite Hps in Hp. by destruct (HasPermission actor PermPublish).
  - case_bool_decide as Hsch; [|split; [done|by intros []]]. rewrite andb_true_l in Hs. destruct publishAt; [split; [by eexists|done]|done].
Qed.
Lemma handle_setStatus_follows now p i body : (∀ principal, p = Some principal → HasPermission principal PermPublish = true → may) →
  Steps.follows (seen_by nr_db R) (handle_setStatus collate now before p i body).
Proof.
  intros Hmay. destruct p as [principal|]; [|intros s; unfold seen_by; reflexivity].
  enough (Steps.follows (seen_by nr_db R) (id ← article_id i; b ← DecodeJSON body; Service_SetStatus collate now before id b.1 principal b.2)) as Hm by exact Hm.
  unfold article_id. news_steps. apply SetStatus_follows. by apply Hmay.
Qed.
Lemma editorial_follows now drawn tag_ids p r : (∀ principal, p = Some principal → HasPermission principal PermPublish = true → may) →
  Steps.follows (seen_by nr_db R) (editorial_handler collate lower now before drawn tag_ids p r).
Proof.
  intros Hmay. unfold editorial_handler. destruct r; unfold handle_saveArticle, handle_upsertCategory, handle_deleteCategory,
    handle_upsertAuthor, handle_replaceGallery, handle_saveTranslation, handle_approveTranslation, handle_deleteTranslation, gallery_article, article_id,
    Service_Save, Service_UpsertCategory, Service_DeleteCategory, Service_UpsertAuthor, Service_ReplaceGallery, Service_SaveTranslation,
    Service_ApproveTranslation, Service_DeleteTranslation; news_steps; first [apply optional_follows|by apply handle_setStatus_follows].
Qed.
Lemma EditorialRoutes_follow now drawn tag_ids p r : (∀ principal, p = Some principal → HasPermission principal PermPublish = true → may) →
  Steps.follows (seen_by nr_db R) (EditorialRoutes collate lower now before drawn tag_ids p r).
Proof. intros Hmay. unfold EditorialRoutes. apply follows_RequirePermission; [apply _|]. intros _ _ _. by apply editorial_follows. Qed.
End requests.

(** ** Order *)

Lemma transitions_known status allowedFrom : transitions status = Some allowedFrom → status ∈ statuses.
Proof. unfold transitions. intros Ht. repeat case_bool_decide; subst; [by repeat constructor..|done]. Qed.
Lemma statements_in_order : statements_follow in_order True.
Proof.
  split; intros; eauto using RecordView_in_order, SetBookmark_in_order, SetFollow_in_order, Save_in_order, UpsertCategory_in_order,
    DeleteCategory_in_order, UpsertAuthor_in_order, ReplaceGallery_in_order, SaveTranslation_in_order, DeleteTranslation_in_order.
  apply SetStatus_in_order; [by eapply transitions_known|naive_solver].
Qed.
Lemma event_follows (R : newsdb → newsdb → Prop) `{!PreOrder R} may e s : statements_follow R may → (∀ d, R d (event_before e d)) →
  match e with
  | EvEditorial _ _ _ _ p _ => ∀ principal, p = Some principal → HasPermission principal PermPublish = true → may
  | EvWorker now => ∀ d, R d (publishScheduledArticles now d)
  | EvSummary i summary keywords => ∀ d, R d (SetAIFields i summary keywords d)
  | _ => True
  end → R (nr_db s) (nr_db (newsroom_run e s)).
Proof.
  intros Hst Hb He. destruct e; simpl in *.
  - by apply (PublicRoutes_follow R may Hst before Hb).
  - by apply (ReaderRoutes_follow R may Hst).
  - by apply (EditorialRoutes_follow R may Hst before Hb).
  - apply He.
  - apply He.
Qed.
Lemma run_in_order e s : (∀ d, in_order d (event_before e d)) → in_order (nr_db s) (nr_db (newsroom_run e s)).
Proof.
  intros Hb. apply (event_follows _ True); [apply statements_in_order|done|].
  destruct e; try done; [apply worker_in_order|apply SetAIFields_in_order].
Qed.

(** C28: The newsroom stays in order.  Whatever readers, writers, editors, the worker and the
    summariser do, in any order and with anything of the kind in between: two articles never
    share a slug; a published article has a publication time, a scheduled one the time it is
    due, and exactly the archived ones an archival time; the view counter of an article is the
    number of its (reader, day) rows.  An article is never lost, and who created it, when, and
    the time it was first published never change. *)
Theorem newsroom_stays_in_order es s : news_ok (nr_db s) → Forall (λ e, ∀ d, in_order d (event_before e d)) es →
  let s' := foldl (λ s e, newsroom_run e s) s es in news_ok (nr_db s') ∧ news_kept (nr_db s) (nr_db s').
Proof.
  intros Hok Hes. enough (in_order (nr_db s) (nr_db (foldl (λ s e, newsroom_run e s) s es))) as Hgo by exact (Hgo Hok).
  apply (follows_foldl (seen_by nr_db in_order) newsroom_run (λ e, ∀ d, in_order d (event_before e d))); [|done].
  intros e s' He. by apply run_in_order.
Qed.

(** ** Who publishes *)

(** One article between two moments at which nobody holding [news.publish] acted; [T] is the
    latest tick of the worker. *)
Record untouched (T : time) (a a' : article_row) : Prop := {
  un_published : na_status a' = StatusPublished → na_status a = StatusPublished ∨
    na_status a = StatusScheduled ∧ ∃ t, na_publish_at a = Some t ∧ t <= T;
  un_scheduled : na_status a' = StatusScheduled → na_status a = StatusScheduled ∧ na_publish_at a' = na_publish_at a;
  un_public : na_status a ∈ [StatusPublished; StatusArchived] → na_status a' = na_status a;
  un_draft : na_status a ∈ [StatusDraft; StatusReview] → na_status a' ∈ [StatusDraft; StatusReview];
}.
Record by_no_editor (T : time) (d d' : newsdb) : Prop := {
  bn_old : ∀ i a, articles d !! i = Some a → ∃ a', articles d' !! i = Some a' ∧ untouched T a a';
  bn_new : ∀ i a', articles d' !! i = Some a' → articles d !! i = None → na_status a' ∈ [StatusDraft; StatusReview];
}.
#[local] Instance untouched_preorder T : PreOrder (untouched T).
Proof.
  split; [intros a; split; auto|]. intros a b c [P1 S1 K1 D1] [P2 S2 K2 D2]. split; [| | |auto].
  - intros [Hb|[Hb (t & Ht & Hle)]]%P2; [by apply P1|]. destruct (S1 Hb) as [Ha Heq]. right. split; [done|]. exists t. by rewrite <-Heq.
  - intros [Hb Hcb]%S2. destruct (S1 Hb) as [Ha Hba]. split; [done|congruence].
  - intros Ha. rewrite <-(K1 Ha). apply K2. by rewrite (K1 Ha).
Qed.
#[local] Instance by_no_editor_preorder T : PreOrder (by_no_editor T).
Proof.
  split.
  - intros d. split; [intros i a Ha; exists a; split; [done|reflexivity]|intros i a' Ha Hn; congruence].
  - intros d1 d2 d3 [O1 N1] [O2 N2]. split.
    + intros i a Ha. destruct (O1 i a Ha) as (b & Hb & Hab). destruct (O2 i b Hb) as (c & Hc & Hbc). exists c. split; [done|by transitivity b].
    + intros i c Hc Hn. destruct (articles d2 !! i) as [b|] eqn:Hb; [|by apply (N2 i)].
      destruct (O2 i b Hb) as (c' & Hc' & Hbc). assert (c' = c) as -> by congruence. apply (un_draft _ _ _ Hbc). by apply (N1 i).
Qed.
Lemma by_no_editor_update T P f d : (∀ i a, articles d !! i = Some a → P i a = true → untouched T a (f i a)) →
  by_no_editor T d (with_articles (update_where P f (articles d)) d).
Proof.
  intros Hf. split; simpl.
  - intros i a Ha. rewrite lookup_update_where, Ha. eexists. split; [done|]. destruct (P i a) eqn:HP; [by apply Hf|reflexivity].
  - intros i a' Ha' Hn. by rewrite lookup_update_where, Hn in Ha'.
Qed.
Lemma by_no_editor_other T d d' : articles d' = articles d → by_no_editor T d d'.
Proof. intros Heq. assert (by_no_editor T d d) as [O N] by reflexivity. split; intros i a; rewrite Heq; eauto. Qed.
Lemma same_untouched T a a' : na_status a' = na_status a → na_publish_at a' = na_publish_at a → untouched T a a'.
Proof. intros Hs Hp. split; rewrite ?Hs; auto. Qed.
Lemma by_no_editor_put T i a' d : (∀ a, articles d !! i = Some a → untouched T a a') →
  (articles d !! i = None → na_status a' ∈ [StatusDraft; StatusReview]) → by_no_editor T d (with_articles (<[i := a']> (articles d)) d).
Proof.
  intros Hold Hnew. split; simpl.
  - intros j a Ha. destruct (decide (i = j)) as [<-|]; [rewrite lookup_insert_eq|rewrite lookup_insert_ne by done].
    + exists a'. split; [done|by apply Hold].
    + exists a. split; [done|reflexivity].
  - intros j b [[<- <-]|[_ Hb]]%lookup_insert_Some Hn; [by apply Hnew|congruence].
Qed.
Lemma other_by_no_editor {A} T (m : prog newsdb newserr A) : (∀ d, articles (m d).2 = articles d) → Steps.follows (by_no_editor T) m.
Proof. intros Hm d. by apply by_no_editor_other. Qed.
Lemma Save_by_no_editor T now drawn tag_ids in_ : Steps.follows (by_no_editor T) (Save lower now drawn tag_ids in_).
Proof.
  unfold Save. follow_steps.
  - intros d. unfold insert_article. destruct (negb _ || _ || _) eqn:Hf; [reflexivity|]. destruct (slug_used _ _ _); [reflexivity|].
    apply by_no_editor_put; [|by left]. intros a Ha. apply orb_false_iff in Hf as [_ Hf%bool_decide_eq_false]. simpl in Ha. rewrite Ha in Hf. by destruct Hf; eexists.
  - intros d. unfold update_article. destruct (articles d !! sv_ID in_) as [old|] eqn:Hold; [|reflexivity]. destruct (negb _); [reflexivity|].
    destruct (slug_used _ _ _); [reflexivity|]. apply by_no_editor_put; [|congruence]. intros a Ha. simpl in Ha. assert (a = old) as -> by congruence.
    by apply same_untouched.
  - apply by_no_editor_other. apply replaceTags_other.
Qed.
Lemma SetStatus_by_no_editor T now i status reviewer publishAt allowedFrom : transitions status = Some allowedFrom → publishStates status = false →
  Steps.follows (by_no_editor T) (SetStatus now i status reviewer publishAt allowedFrom).
Proof.
  intros Ht Hp d. unfold SetStatus. destruct (hits _ _ _) eqn:Hh; [|reflexivity]. destruct (negb _); [reflexivity|]. simpl.
  apply hits_true in Hh as (a0 & Ha0 & Hfrom%bool_decide_eq_true). apply by_no_editor_update. intros j a Ha ->%bool_decide_eq_true.
  assert (a = a0) as -> by congruence. unfold publishStates in Hp. apply bool_decide_eq_false in Hp.
  assert (status ∈ [StatusDraft; StatusReview]) as Hst.
  { apply transitions_known in Ht. repeat (apply elem_of_cons in Ht as [->|Ht]); try (by repeat constructor); by destruct Hp; repeat constructor. }
  assert (na_status a0 ∈ [StatusDraft; StatusReview; StatusScheduled]) as Hfrom'.
  { apply elem_of_cons in Hst as [->|Hst%list_elem_of_singleton]; [|subst status]; vm_compute in Ht; injection Ht as <-; [exact Hfrom|].
    repeat (apply elem_of_cons in Hfrom as [->|Hfrom]); by repeat constructor. }
  split; simpl.
  - intros ->. by destruct Hp; repeat constructor.
  - intros ->. by destruct Hp; repeat constructor.
  - intros Hpub. exfalso. apply elem_of_cons in Hpub as [Hpub|Hpub%list_elem_of_singleton]; rewrite Hpub in Hfrom'; clear -Hfrom';
      repeat (apply elem_of_cons in Hfrom' as [Hfrom'|Hfrom']); try discriminate Hfrom'; by apply elem_of_nil in Hfrom'.
  - done.
Qed.
Lemma worker_by_no_editor T now d : now <= T → by_no_editor T d (publishScheduledArticles now d).
Proof.
  intros Hle. apply by_no_editor_update. intros i a _ [Hst%bool_decide_eq_true Hat]%andb_true_iff.
  destruct (na_publish_at a) as [t|] eqn:Ht; [|done]. simpl in Hat. apply Z.leb_le in Hat. split; simpl.
  - intros _. right. split; [done|]. exists t. split; [done|lia].
  - intros [=].
  - rewrite Hst. intros Hin. repeat (apply elem_of_cons in Hin as [Hin|Hin]); [discriminate Hin..|by apply elem_of_nil in Hin].
  - rewrite Hst. intros Hin. repeat (apply elem_of_cons in Hin as [Hin|Hin]); [discriminate Hin..|by apply elem_of_nil in Hin].
Qed.
Lemma statements_by_no_editor T : statements_follow (by_no_editor T) False.
Proof.
  split.
  - intros now i u d. unfold RecordView. destruct (negb _ || _); [reflexivity|]. destruct (article_views d !! _); [by apply by_no_editor_other|].
    simpl. set (d1 := with_article_views _ d). transitivity d1; [by apply by_no_editor_other|].
    apply (by_no_editor_update T _ _ d1). intros j a _ _. by apply same_untouched.
  - intros. apply other_by_no_editor. intros d. unfold SetBookmark. by repeat case_match.
  - intros. apply other_by_no_editor. intros d. unfold SetFollow. by repeat case_match.
  - intros. apply Save_by_no_editor.
  - intros now i status reviewer publishAt allowedFrom Ht Hmay _. apply SetStatus_by_no_editor; [done|].
    destruct (publishStates status); [by destruct Hmay|done].
  - intros. unfold UpsertCategory. follow_steps; by apply by_no_editor_other.
  - intros. apply other_by_no_editor. intros d. unfold DeleteCategory. by repeat case_match.
  - intros. apply other_by_no_editor. intros d. unfold UpsertAuthor. by repeat case_match.
  - intros. unfold ReplaceGallery. follow_steps; [by apply by_no_editor_other|]. apply other_by_no_editor. intros d. unfold put_item. by repeat case_match.
  - intros. apply other_by_no_editor. intros d. unfold SaveTranslation. by repeat case_match.
  - intros. apply other_by_no_editor. intros d. unfold DeleteTranslation. by repeat case_match.
Qed.
(** An event in which nobody holding [news.publish] acts, no tick being later than [T]. *)
Definition no_editor (T : time) (e : newsroom_event) : Prop :=
  (∀ d, by_no_editor T d (event_before e d)) ∧
  match e with
  | EvEditorial _ _ _ _ p _ => ∀ principal, p = Some principal → HasPermission principal PermPublish = false
  | EvWorker now => now <= T
  | _ => True
  end.
Lemma run_by_no_editor T e s : no_editor T e → by_no_editor T (nr_db s) (nr_db (newsroom_run e s)).
Proof.
  intros [Hb He]. apply (event_follows _ False); [apply statements_by_no_editor|done|].
  destruct e; try done.
  - intros principal Hp Hperm. rewrite He in Hperm; done.
  - intros d. by apply worker_by_no_editor.
  - intros d. apply by_no_editor_update. intros i a _ _. by apply same_untouched.
Qed.

(** Only editors publish.  In any history of requests by readers, writers and reviewers, none
    of whom holds [news.publish], and of ticks of the worker up to [T]: whatever is published at
    the end was published at the start, or an editor had scheduled it for a time not after [T];
    what was published or archived stays so; what is still scheduled is due when the editor
    said; and drafts, the new ones included, stay drafts or wait for review.  Somebody without
    [news.read] changes nothing through the editorial routes. *)
Lemma only_editors_publish T es s : Forall (no_editor T) es →
  by_no_editor T (nr_db s) (nr_db (foldl (λ s e, newsroom_run e s) s es)) ∧
  ∀ now before drawn tag_ids p r, (∀ principal, p = Some principal → HasPermission principal PermRead = false) →
    newsroom_run (EvEditorial now before drawn tag_ids p r) s = s.
Proof.
  intros Hes. split.
  - apply (follows_foldl (seen_by nr_db (by_no_editor T)) newsroom_run (no_editor T)); [|done].
    intros e s' He. by apply run_by_no_editor.
  - intros now before drawn tag_ids p r Hp. simpl. unfold EditorialRoutes, RequirePermission.
    destruct p as [principal|]; [|done]. by rewrite (Hp principal).
Qed.

(** ** What a publication announces *)

Definition index_job (now : time) (a : Article) : Job news_payload :=
  MkJob ("article-" +:+ uuid_String (ar_ID a)) SubjectJobSearchIndex (IndexArticle a) now.
Definition breaking_job (now : time) (a : Article) : Job news_payload :=
  MkJob ("breaking-" +:+ uuid_String (ar_ID a)) SubjectJobNewsPublish
    (BreakingStory (MkNewsJob (ar_ID a) (na_slug (ar_Row a)) (na_title (ar_Row a)) (na_locale (ar_Row a)))) now.
Lemma enqueue_run now subject id p s : id ≠ ""%string → (∀ j l, is_Some (js_Publish j l)) → recent now id (nr_jobs s) = false →
  enqueue_job now subject id p s = with_nr_jobs (nr_jobs s ++ [MkJob id subject p now]) s.
Proof.
  intros Hid Hlive Hr. unfold enqueue_job, PublishJob. destruct (Hlive (MkJob id subject p now) (nr_jobs s)) as [l Hl]. rewrite Hl. simpl.
  rewrite (js_Publish_stores _ _ _ Hl). simpl. by rewrite Hr, andb_false_r.
Qed.
Lemma recent_app {P} now id (l1 l2 : list (Job P)) : recent now id (l1 ++ l2) = recent now id l1 || recent now id l2.
Proof. unfold recent. apply existsb_app. Qed.
Lemma announce_run now a s : (∀ j l, is_Some (js_Publish j l)) →
  recent now ("article-" +:+ uuid_String (ar_ID a)) (nr_jobs s) = false → recent now ("breaking-" +:+ uuid_String (ar_ID a)) (nr_jobs s) = false →
  announcePublication now a s =
    with_nr_jobs (nr_jobs s ++ index_job now a :: (if na_is_breaking (ar_Row a) then [breaking_job now a] else [])) s.
Proof.
  intros Hlive Hi Hb. unfold announcePublication. rewrite enqueue_run by done. fold (index_job now a).
  destruct (na_is_breaking (ar_Row a)); [|done]. simpl. rewrite enqueue_run; [|done|done|].
  - simpl. by rewrite <-app_assoc.
  - simpl. by rewrite recent_app, Hb.
Qed.
Lemma BySlug_finds slug locale viewer d i a : news_ok d → articles d !! i = Some a → na_slug a = slug → na_status a = StatusPublished →
  ∃ x, BySlug collate slug locale viewer d = Some x ∧ ar_ID x = i ∧ ar_Row x = a.
Proof.
  intros Hok Ha Hs Hp. unfold BySlug. set (P := λ (_ : uuid) b, bool_decide (na_slug b = slug) && is_published b).
  assert ((i, a) ∈ rows_where P (articles d)) as Hin.
  { apply elem_of_rows_where. split; [done|]. unfold P, is_published. by rewrite !bool_decide_true. }
  destruct (rows_where P (articles d)) as [|[j b] rows] eqn:Hrows; [by apply elem_of_nil in Hin|]. simpl. eexists. split; [done|]. simpl.
  assert ((j, b) ∈ rows_where P (articles d)) as Hj by (rewrite Hrows; by left).
  apply elem_of_rows_where in Hj as [Hj [Hsj%bool_decide_eq_true _]%andb_true_iff].
  assert (j = i) as -> by (apply (no_slugs d Hok j i b a); congruence). split; [done|congruence].
Qed.

(** An editor's publication reaches the readers and the queues.  An article waiting for
    review, scheduled or archived, once an editor publishes it, is what every reader finds under
    its slug, in the order it first appeared; its indexing is queued, and its announcement if it
    is a breaking story, unless one was queued under its id within the window.  A scheduled
    article the worker promotes instead is published without either: the tick queues nothing. *)
Lemma publication_is_announced now i actor a s : (∀ j l, is_Some (js_Publish j l)) → news_ok (nr_db s) →
  HasPermission actor PermPublish = true → has_account (prUserID actor) (nw_graph (nr_db s)) = true →
  articles (nr_db s) !! i = Some a → na_status a ∈ [StatusReview; StatusScheduled; StatusArchived] →
  recent now ("article-" +:+ uuid_String i) (nr_jobs s) = false → recent now ("breaking-" +:+ uuid_String i) (nr_jobs s) = false →
  (∃ art s', Service_SetStatus collate now id i StatusPublished actor None s = (Ok art, s') ∧
     ar_ID art = i ∧ na_status (ar_Row art) = StatusPublished ∧ na_published_at (ar_Row art) = Some (default now (na_published_at a)) ∧
     (∀ locale viewer, ∃ x, BySlug collate (na_slug a) locale viewer (nr_db s') = Some x ∧ ar_ID x = i ∧ ar_Row x = ar_Row art) ∧
     nr_jobs s' = nr_jobs s ++ index_job now art :: (if na_is_breaking a then [breaking_job now art] else [])) ∧
  ∀ tick, nr_jobs (newsroom_run (EvWorker tick) s) = nr_jobs s ∧
    (publication_due tick a = true → ∃ a', articles (nr_db (newsroom_run (EvWorker tick) s)) !! i = Some a' ∧ na_status a' = StatusPublished).
Proof.
  intros Hlive Hok Hperm Hacc Ha Hst Hri Hrb. split.
  - set (a' := with_status now StatusPublished (prUserID actor) None a).
    set (d' := with_articles (update_where (λ k _, bool_decide (k = i)) (λ _, with_status now StatusPublished (prUserID actor) None) (articles (nr_db s))) (nr_db s)).
    assert (articles d' !! i = Some a') as Ha'.
    { simpl. rewrite lookup_update_where, Ha. simpl. by rewrite bool_decide_true. }
    assert (SetStatus now i StatusPublished (prUserID actor) None [StatusReview; StatusScheduled; StatusArchived] (nr_db s) = (Ok (), d')) as Hset.
    { unfold SetStatus, hits. rewrite Ha. rewrite bool_decide_true by done. by rewrite Hacc. }
    assert (news_ok d') as Hok'.
    { assert (d' = (SetStatus now i StatusPublished (prUserID actor) None [StatusReview; StatusScheduled; StatusArchived] (nr_db s)).2) as -> by (by rewrite Hset).
      apply SetStatus_in_order; [by do 3 right; left|intros [=]|done]. }
    set (art := with_ar_Tags (tags_of collate i d') (scan_article defaultLocale d' (i, a'))).
    exists art, (announcePublication now art (with_nr_db d' s)). split.
    { unfold Service_SetStatus. rewrite bind_run. change (transitions StatusPublished) with (Some [StatusReview; StatusScheduled; StatusArchived]).
      cbn beta iota delta [or_fail]. rewrite Hperm, andb_false_r.
      assert (bool_decide (StatusPublished = StatusScheduled) = false) as -> by done. cbn [andb].
      rewrite bind_run. unfold fail_if at 1. cbn beta iota. rewrite bind_run. unfold fail_if at 1. cbn beta iota zeta.
      rewrite bind_run. unfold map_err, catch, repo at 1, zoom at 1. rewrite Hset. cbn beta iota. cbn [fst snd].
      rewrite bind_run. unfold repo, zoom, modify. cbn [fst snd nr_db with_nr_db id]. rewrite bind_run, bind_run. unfold reading, gets.
      cbn [nr_db with_nr_db id]. unfold ArticleByID. rewrite Ha'.
      reflexivity. }
    split; [done|]. split; [done|]. split; [done|]. split.
    + intros locale viewer. rewrite announce_keeps. by apply BySlug_finds.
    + rewrite announce_run by done. done.
  - intros tick. split; [done|]. intros Hdue. simpl. rewrite lookup_update_where, Ha. simpl. rewrite Hdue. by eexists.
Qed.
End theory.

(** ** A story from draft to the front page *)

Definition order0 (_ : string) : Z := 0.
Definition date_of (t : time) : Z := t / (24 * hour).
#[local] Existing Instance in_order_preorder.
#[local] Instance live_news : JetStream news_payload := live_stream news_payload.
Definition staff (u : uuid) (permissions : list string) : Principal := MkPrincipal u 0 0 "" [] permissions.
Definition writer1 : Principal := staff 1 [PermRead; PermWrite].
Definition editor2 : Principal := staff 2 [PermRead; PermWrite; PermPublish].
Definition reader3 : Principal := staff 3 [].
Definition people : socialdb :=
  let a := MkAccount None "+1" [] "active" false false None None None in
  MkSocialDb (<[1%N := a]> (<[2%N := a]> {[3%N := a]})) ∅ ∅ ∅ ∅ ∅ ∅.
Definition newsroom0 : newsroom := MkNewsroom (MkNewsDb people {[50%N]} ∅ ∅ ∅ ∅ ∅ ∅ ∅ ∅ ∅ [] ∅) [].
Definition story_body : SaveInput :=
  MkSaveInput 0 "" "" " Quake in the north " "" "" "Body" "" None None None None None "" true false ["Quake"; "North"]%string 0.
Definition sent {B} (b : B) : Body B := MkBody "application/json" (Ok b) true.
Definition tag_id (slug : string) : uuid := if bool_decide (slug = "quake"%string) then 91%N else 92%N.
Definition by_staff (now : time) (p : Principal) (r : editorial_request) : newsroom_event := EvEditorial now id 60 tag_id (Some p) r.
Definition drafted : list newsroom_event :=
  [by_staff (10 * second) writer1 (SaveArticle None (sent story_body)); by_staff (20 * second) writer1 (ChangeStatus (Some 60%N) (sent (StatusReview, None)))].
Definition published : list newsroom_event :=
  drafted ++ [by_staff (30 * second) editor2 (ChangeStatus (Some 60%N) (sent (StatusPublished, None)));
              EvPublic (40 * second) id (Some reader3) (ReadArticle "quake-in-the-north" "fa");
              EvPublic (50 * second) id (Some reader3) (ReadArticle "quake-in-the-north" "fa"); EvWorker (60 * second)].
Abbreviation run_news := (foldl (λ s e, newsroom_run order0 to_lower date_of e s)).
Example the_story : let s := run_news newsroom0 published in
  (λ a, (na_slug a, na_status a, na_published_at a, na_view_count a)) <$> articles (nr_db s) !! 60%N
    = Some ("quake-in-the-north"%string, StatusPublished, Some (30 * second), 1) ∧
  jb_ID <$> nr_jobs s = [("article-" +:+ uuid_String 60)%string; ("breaking-" +:+ uuid_String 60)%string] ∧
  tags_of order0 60 (nr_db s) = ["North"; "Quake"]%string.
Proof. vm_compute. done. Qed.

Lemma newsroom0_ok : news_ok (nr_db newsroom0).
Proof. split; [intros i a|intros i j a b|intros i u day n]; simpl; by rewrite lookup_empty. Qed.
Lemma newsroom_stays_in_order_witness :
  let s' := run_news newsroom0 published in news_ok (nr_db s') ∧ news_kept (nr_db newsroom0) (nr_db s').
Proof.
  apply (newsroom_stays_in_order order0 to_lower date_of published newsroom0 newsroom0_ok).
  unfold published, drafted, app, by_staff. repeat (constructor; [intros d; by apply in_order_other|]). constructor.
Defined.
Lemma only_editors_publish_witness :
  let s := run_news newsroom0 published in
  by_no_editor 0 (nr_db s) (nr_db (run_news s [by_staff (70 * second) writer1 (ChangeStatus (Some 60%N) (sent (StatusArchived, None)))])).
Proof.
  intros s. refine (proj1 (only_editors_publish order0 to_lower date_of 0
    [by_staff (70 * second) writer1 (ChangeStatus (Some 60%N) (sent (StatusArchived, None)))] s _)).
  constructor; [|constructor]. split; [intros d; by apply by_no_editor_other|]. intros principal [= <-]. reflexivity.
Defined.
Definition reviewed : newsroom := run_news newsroom0 drafted.
Lemma reviewed_ok : news_ok (nr_db reviewed).
Proof.
  unfold reviewed. apply (follows_foldl (seen_by nr_db in_order) (newsroom_run order0 to_lower date_of) (λ e, ∀ d, in_order d (event_before e d)) drafted newsroom0);
    [|by repeat (constructor; [intros d; reflexivity|]); constructor|apply newsroom0_ok].
  intros e s' He. by apply run_in_order.
Qed.
Lemma publication_is_announced_witness : ∃ a, articles (nr_db reviewed) !! 60%N = Some a ∧
  ∃ art s', Service_SetStatus order0 (30 * second) id 60 StatusPublished editor2 None reviewed = (Ok art, s') ∧
    ar_ID art = 60%N ∧ length (nr_jobs s') = 2%nat.
Proof.
  destruct (articles (nr_db reviewed) !! 60%N) as [a|] eqn:Ha; [|vm_compute in Ha; discriminate Ha]. exists a. split; [reflexivity|].
  destruct (publication_is_announced order0 to_lower date_of (30 * second) 60 editor2 a reviewed) as [(art & s' & Hrun & Hid & _ & _ & _ & Hjobs) _].
  - intros j l. by eexists.
  - exact reviewed_ok.
  - reflexivity.
  - vm_compute. reflexivity.
  - exact Ha.
  - vm_compute in Ha. injection Ha as <-. by left.
  - vm_compute. reflexivity.
  - vm_compute. reflexivity.
  - exists art, s'. split; [exact Hrun|]. split; [exact Hid|]. rewrite Hjobs. vm_compute in Ha. injection Ha as <-. vm_compute. reflexivity.
Defined.

(** ** What modelling showed *)

(** Whoever may write rewrites what is already published, and nothing is queued to index it
    again. *)
Example a_writer_rewrites_the_front_page :
  let s := run_news newsroom0 published in
  let s' := run_news s [by_staff (70 * second) writer1 (SaveArticle (Some (Some 60%N))
    (sent (MkSaveInput 0 "quake-in-the-north" "" "Nothing happened" "" "" "" "" None None None None None "" false false [] 0)))] in
  (λ a, (na_title a, na_status a)) <$> articles (nr_db s') !! 60%N = Some ("Nothing happened"%string, StatusPublished) ∧ nr_jobs s' = nr_jobs s.
Proof. vm_compute. done. Qed.
(** [news.read] alone replaces the gallery of a published article and translates it. *)
Example reading_staff_edits :
  let s := run_news (run_news newsroom0 published) [by_staff (70 * second) (staff 3 [PermRead]) (PutGallery (Some 60%N) (sent [MkGalleryItem 50 0 "mine"]));
    by_staff (80 * second) (staff 3 [PermRead]) (PutTranslation (Some 60%N) "en" (sent ("Mine", "", "", "human")%string))] in
  (gi_Caption <$> Gallery 60 (nr_db s), tl_ApprovedBy <$> TranslationIn 60 "en" (nr_db s)) = (["mine"%string], Some (Some 3%N)).
Proof. vm_compute. reflexivity. Qed.
(** The feed puts featured articles first but pages by the time of the last one: after an old
    featured article, everything newer is skipped. *)
Definition front_page : newsdb :=
  let art slug featured t := MkArticleRow slug "fa" slug "" "" "" "markdown" None None None None None None None StatusPublished "article" false featured 1 0 "" []
    None (Some t) 0 0 None in
  MkNewsDb people ∅ (<[61%N := art "old"%string true 100]> (<[62%N := art "newer"%string false 200]> {[63%N := art "newest"%string false 300]}))
    ∅ ∅ ∅ ∅ ∅ ∅ ∅ ∅ [] ∅.
Definition page_after (before : option time) : list Article := Feed 1000 (MkFeedQuery "latest" "fa" None "" 0 1 before) front_page.
Example featured_paging_loses_articles :
  ar_ID <$> page_after None = [61%N] ∧ page_after (last (page_after None) ≫= λ a, na_published_at (ar_Row a)) = [].
Proof. vm_compute. done. Qed.
(** A limit out of range is replaced by 20, but [has_more] compares with what was asked. *)
Example has_more_of_a_clamped_page :
  fp_HasMore <$> (match (handle_feed 1000 None "latest" "fa" "" "500" None None
     (MkNewsroom (with_articles (list_to_map ((λ i, (N.of_nat i, match articles front_page !! 62%N with Some a => a | None => promoted (with_na_view_count 0 (new_article 0 story_body)) end)) <$> seq 1 25)) front_page) [])).1 with
     Ok page => Some page | Err _ => None end) = Some false.
Proof. vm_compute. reflexivity. Qed.
