(* ===== verification/DataRights.v ===== *)
(** * Data rights ([internal/datarights], [internal/worker]: carryOutDataRequests)

    A copy of what is held about a person and the deletion of their account: the requests, the
    worker that carries them out and everything the two touch.  The tables are those of the
    other components, the [users] table being seen by three of them; [stamp] is how a time is
    written in JSON, [marshal] is [json.MarshalIndent]; IP columns are left out. *)

From stdpp Require Import base tactics list sorting gmap strings relations.
From Stdlib Require Import ZArith Lia.
From S2P Require Import Prelude Steps GoString Httpx Store AuthStore Auth Social Organise SecretChat Notifications Stories Http.

Set Default Goal Selector "!".
Open Scope Z_scope.

Definition DeletionDelay : Z := 7 * 24 * hour.
Definition TypeExport : string := "export".
Definition TypeDelete : string := "delete".
Definition StatusPending : string := "pending".
Definition StatusProcessing : string := "processing".
Definition StatusReady : string := "ready".
Definition StatusFailed : string := "failed".
Definition StatusCancelled : string := "cancelled".
Definition StatusCompleted : string := "completed".

(** [data_requests] and the Go [Request] *)
Record Request := MkRequest {
  rq_UserID : uuid;
  rq_Type : string;
  rq_Status : string;
  rq_ResultMediaID : option uuid;
  rq_ExecuteAfter : time;
  rq_Error : string;
  rq_CreatedAt : time;
  rq_CompletedAt : option time;
}.
Definition Cancellable (r : Request) : bool := bool_decide (rq_Status r ∈ [StatusPending; StatusProcessing]).
(** The columns of [media] an export reads and fills. *)
Record export_media_row := MkExportMedia { xm_owner : uuid; xm_kind : string; xm_key : string; xm_size : Z; xm_file_name : string; xm_created_at : time }.
Record rightsdb := MkRightsDb {
  data_requests : gmap uuid Request;
  rg_auth : authdb;
  rg_graph : socialdb;
  rg_organise : organisedb;
  rg_push : gmap uuid push_token_row;
  rg_identities : gmap uuid identity_row;
  rg_prekeys : gmap uuid prekey_row;
  rg_stories : gmap uuid story_row;
  rg_media : gmap uuid export_media_row;
  rg_objects : gmap string json;
}.
Definition with_requests v d := MkRightsDb v (rg_auth d) (rg_graph d) (rg_organise d) (rg_push d) (rg_identities d) (rg_prekeys d) (rg_stories d) (rg_media d) (rg_objects d).
Definition with_rg_auth v d := MkRightsDb (data_requests d) v (rg_graph d) (rg_organise d) (rg_push d) (rg_identities d) (rg_prekeys d) (rg_stories d) (rg_media d) (rg_objects d).
Definition with_rg_graph v d := MkRightsDb (data_requests d) (rg_auth d) v (rg_organise d) (rg_push d) (rg_identities d) (rg_prekeys d) (rg_stories d) (rg_media d) (rg_objects d).
Definition with_rg_organise v d := MkRightsDb (data_requests d) (rg_auth d) (rg_graph d) v (rg_push d) (rg_identities d) (rg_prekeys d) (rg_stories d) (rg_media d) (rg_objects d).
Definition with_rg_push v d := MkRightsDb (data_requests d) (rg_auth d) (rg_graph d) (rg_organise d) v (rg_identities d) (rg_prekeys d) (rg_stories d) (rg_media d) (rg_objects d).
Definition with_rg_identities v d := MkRightsDb (data_requests d) (rg_auth d) (rg_graph d) (rg_organise d) (rg_push d) v (rg_prekeys d) (rg_stories d) (rg_media d) (rg_objects d).
Definition with_rg_prekeys v d := MkRightsDb (data_requests d) (rg_auth d) (rg_graph d) (rg_organise d) (rg_push d) (rg_identities d) v (rg_stories d) (rg_media d) (rg_objects d).
Definition with_rg_media v d := MkRightsDb (data_requests d) (rg_auth d) (rg_graph d) (rg_organise d) (rg_push d) (rg_identities d) (rg_prekeys d) (rg_stories d) v (rg_objects d).
Definition with_rg_objects v d := MkRightsDb (data_requests d) (rg_auth d) (rg_graph d) (rg_organise d) (rg_push d) (rg_identities d) (rg_prekeys d) (rg_stories d) (rg_media d) v.

Inductive rightserr := ErrNotOpen | ErrDuplicate | RightsDatabase.

(** ** Repository: the requests *)

Definition open_request (user : uuid) (kind : string) (_ : uuid) (r : Request) : bool :=
  bool_decide (rq_UserID r = user) && bool_decide (rq_Type r = kind) && Cancellable r.
Definition new_request (now : time) (user : uuid) (kind : string) (executeAfter : time) : Request :=
  MkRequest user kind StatusPending None executeAfter "" now None.
(** [FOR UPDATE] locks the open request if there is one; when there is none nothing is locked,
    and [before] is what commits between the check and the insert. *)
Definition Create (now : time) (id : uuid) (before : rightsdb → rightsdb) (user : uuid) (kind : string) (executeAfter : time)
    : prog rightsdb rightserr (uuid * Request) :=
  open ← gets (λ d, negb (count_where (open_request user kind) (data_requests d) =? 0));
  fail_if open ErrDuplicate;;
  modify before;;
  clash ← gets (λ d, bool_decide (is_Some (data_requests d !! id)) || negb (has_account user (rg_graph d)));
  fail_if clash RightsDatabase;;
  modify (λ d, with_requests (<[id := new_request now user kind executeAfter]> (data_requests d)) d);;
  mret (id, new_request now user kind executeAfter).
Definition ListRequests (user : uuid) (limit : Z) d : list (uuid * Request) :=
  take (Z.to_nat limit) (order_by_desc (λ r, rq_CreatedAt r.2) (rows_where (λ _ r, bool_decide (rq_UserID r = user)) (data_requests d))).
Definition with_rq_status (status : string) (completed : option time) (r : Request) : Request :=
  MkRequest (rq_UserID r) (rq_Type r) status (rq_ResultMediaID r) (rq_ExecuteAfter r) (rq_Error r) (rq_CreatedAt r) completed.
Definition CancelRequest (now : time) (user requestID : uuid) : prog rightsdb rightserr () := λ d,
  let mine (_ : uuid) r := bool_decide (rq_UserID r = user) && Cancellable r in
  if hits mine (data_requests d) requestID
  then (Ok (), with_requests (update_where (λ k r, bool_decide (k = requestID) && mine k r) (λ _, with_rq_status StatusCancelled (Some now)) (data_requests d)) d)
  else (Err ErrNotOpen, d).
Definition claimable_request (now : time) (_ : uuid) (r : Request) : bool := bool_decide (rq_Status r = StatusPending) && (rq_ExecuteAfter r <=? now).
(** [locked] are the rows other workers hold. *)
Definition ClaimDue (now : time) (locked : gset uuid) (limit : Z) d : list (uuid * Request) * rightsdb :=
  let ids := take (Z.to_nat limit) (order_by (λ r, rq_ExecuteAfter r.2)
    (rows_where (λ k r, claimable_request now k r && negb (bool_decide (k ∈ locked))) (data_requests d))).*1 in
  let d' := with_requests (update_where (λ k _, bool_decide (k ∈ ids)) (λ _ r, with_rq_status StatusProcessing (rq_CompletedAt r) r) (data_requests d)) d in
  (rows_where (λ k _, bool_decide (k ∈ ids)) (data_requests d'), d').
Definition mark (requestID : uuid) (f : Request → Request) d : rightsdb :=
  with_requests (update_where (λ k r, bool_decide (k = requestID) && bool_decide (rq_Status r = StatusProcessing)) (λ _, f) (data_requests d)) d.
Definition MarkReady (now : time) (requestID mediaID : uuid) : rightsdb → rightsdb :=
  mark requestID (λ r, MkRequest (rq_UserID r) (rq_Type r) StatusReady (Some mediaID) (rq_ExecuteAfter r) "" (rq_CreatedAt r) (Some now)).
Definition MarkCompleted (now : time) (requestID : uuid) : rightsdb → rightsdb :=
  mark requestID (λ r, MkRequest (rq_UserID r) (rq_Type r) StatusCompleted (rq_ResultMediaID r) (rq_ExecuteAfter r) "" (rq_CreatedAt r) (Some now)).
Definition MarkFailed (now : time) (requestID : uuid) (reason : string) : rightsdb → rightsdb :=
  mark requestID (λ r, MkRequest (rq_UserID r) (rq_Type r) StatusPending (rq_ResultMediaID r) (now + 15 * minute) reason (rq_CreatedAt r) (rq_CompletedAt r)).

(** ** Service and routes *)

Definition Service_Request (now : time) (id : uuid) (before : rightsdb → rightsdb) (user : uuid) (kind : string) : prog rightsdb Error (uuid * Request) :=
  executeAfter ← (if bool_decide (kind = TypeExport) then mret now
                  else if bool_decide (kind = TypeDelete) then mret (now + DeletionDelay)
                  else fail (WithField (Validation "Unsupported request type") "type" "must be export or delete"));
  map_err (λ e, match e with
      | ErrDuplicate => Conflict CodeConflict "You already have a request of that kind in progress"
      | _ => Internal
      end) (in_tx (Create now id before user kind executeAfter)).
Definition Service_ListRequests (user : uuid) : prog rightsdb Error (list (uuid * Request)) := gets (ListRequests user 50).
Definition Service_Cancel (now : time) (user requestID : uuid) : prog rightsdb Error () :=
  map_err (λ e, match e with
      | ErrNotOpen => NotFound CodeNotFound "No request of yours is waiting to be carried out"
      | _ => Internal
      end) (CancelRequest now user requestID).
Definition handle_list (p : option Principal) : prog rightsdb Error (list (uuid * Request) * Z) :=
  principal ← MustPrincipal p;
  requests ← Service_ListRequests (prUserID principal);
  mret (requests, DeletionDelay / second).
Definition handle_create (now : time) (id : uuid) (before : rightsdb → rightsdb) (p : option Principal) (body : Body string)
    : prog rightsdb Error (uuid * Request) :=
  principal ← MustPrincipal p;
  kind ← DecodeJSON body;
  Service_Request now id before (prUserID principal) kind.
Definition handle_cancel (now : time) (p : option Principal) (requestID : option uuid) : prog rightsdb Error () :=
  principal ← MustPrincipal p;
  id ← path_id "request id must be a UUID" requestID;
  Service_Cancel now (prUserID principal) id.

(** ** Carrying out: the export *)

Section carrying_out.
Context (stamp : time → string) (marshal : json → string).

Definition jopt {A} (f : A → json) (o : option A) : json := from_option f JNull o.
Definition jtime (t : time) : json := JStr (stamp t).
Definition jid (u : uuid) : json := JStr (uuid_String u).
Definition jagg {K V} (f : K * V → json) (l : list (K * V)) : json := JArr (f <$> l).
Definition export_profile (u : uuid) d : option json :=
  a ← AuthStore.accounts (rg_auth d) !! u;
  let p := profiles (rg_graph d) !! u in
  Some (JObj [("phone_number", JStr (a_phone_number a)); ("username", jopt JStr (Social.accounts (rg_graph d) !! u ≫= ac_username));
    ("email", jopt JStr (a_email a)); ("status", JStr (a_status a)); ("created_at", jtime (a_created_at a));
    ("display_name", jopt (λ p, JStr (pr_display_name p)) p); ("about", jopt (λ p, JStr (pr_about p)) p);
    ("language", jopt (λ p, JStr (pr_language p)) p); ("birthday", jopt (λ p, jopt jtime (pr_birthday p)) p)]%string).
Definition export_devices (u : uuid) d : json :=
  jagg (λ r : uuid * device_info_row, JObj [("name", JStr (di_name r.2)); ("platform", JStr (di_platform r.2)); ("app_version", JStr (di_app_version r.2));
      ("created_at", jtime (di_created_at r.2)); ("last_seen_at", jtime (di_last_seen_at r.2))]%string)
    (rows_where (λ k _, bool_decide (d_user_id <$> devices (core (rg_auth d)) !! k = Some u)) (device_info (rg_auth d))).
Definition export_logins (u : uuid) d : json :=
  JArr ((λ l, JObj [("user_agent", JStr (lh_user_agent l)); ("event", JStr (lh_event l)); ("succeeded", JBool (lh_succeeded l));
      ("created_at", jtime (lh_created_at l))]%string) <$>
    order_by_desc lh_created_at (filter (λ l, lh_user_id l = u) (login_history (rg_auth d)))).
Definition export_contacts (u : uuid) d : json :=
  jagg (λ r : uuid * uuid * contact_row, JObj [("contact_id", jid r.1.2); ("first_name", JStr (ct_first_name r.2)); ("last_name", JStr (ct_last_name r.2));
      ("is_favorite", JBool (ct_is_favorite r.2))]%string) (rows_where (λ k _, bool_decide (k.1 = u)) (address_book (rg_graph d))).
Definition export_blocked (u : uuid) d : json :=
  jagg (λ r : uuid * uuid * block_row, JObj [("blocked_id", jid r.1.2); ("reason", JStr (bl_reason r.2))]%string)
    (rows_where (λ k _, bool_decide (k.1 = u)) (blocked_users (rg_graph d))).
Definition export_chats (u : uuid) d : json :=
  let c := core (rg_auth d) in
  JArr (omap (λ r : uuid * uuid * member_row, ch ← chats c !! r.1.1;
      Some (JObj [("chat_id", jid r.1.1); ("type", JStr (c_type ch)); ("title", JStr (c_title ch)); ("role", JStr (m_role r.2));
        ("joined_at", jtime (m_joined_at r.2))]%string))
    (rows_where (λ k m, bool_decide (k.2 = u) && (if m_left_at m is None then true else false)) (chat_members c))).
Definition export_messages (u : uuid) d : json :=
  jagg (λ r : uuid * message_row, JObj [("chat_id", jid (r_chat_id r.2)); ("seq", JInt (r_seq r.2)); ("type", JStr (r_type r.2));
      ("content", JStr (r_content r.2)); ("created_at", jtime (r_created_at r.2)); ("edited_at", jopt jtime (r_edited_at r.2));
      ("deleted_at", jopt jtime (r_deleted_at r.2))]%string)
    (order_by (λ r, r_created_at r.2) (rows_where (λ _ m, bool_decide (r_sender_id m = Some u)) (messages (core (rg_auth d))))).
Definition export_privacy (u : uuid) d : json :=
  JObj ((λ r : uuid * string * privacy_row, (r.1.2, JObj [("rule", JStr (pv_rule r.2)); ("allow_list", JArr (jid <$> pv_allow_list r.2));
      ("deny_list", JArr (jid <$> pv_deny_list r.2))]%string)) <$> rows_where (λ k _, bool_decide (k.1 = u)) (privacy (rg_graph d))).
Definition export_stories (u : uuid) d : json :=
  jagg (λ r : uuid * story_row, JObj [("type", JStr (sy_type r.2)); ("caption", JStr (sy_caption r.2)); ("privacy", JStr (sy_privacy r.2));
      ("created_at", jtime (sy_created_at r.2))]%string) (rows_where (λ _ s, bool_decide (sy_author s = u)) (rg_stories d)).
Definition export_media (u : uuid) d : json :=
  jagg (λ r : uuid * export_media_row, JObj [("media_id", jid r.1); ("kind", JStr (xm_kind r.2)); ("file_name", JStr (xm_file_name r.2));
      ("size_bytes", JInt (xm_size r.2)); ("created_at", jtime (xm_created_at r.2))]%string)
    (rows_where (λ _ x, bool_decide (xm_owner x = u)) (rg_media d)).
Definition export_contact_requests (u : uuid) d : json :=
  jagg (λ r : uuid * request_row, JObj [("requester_id", jid (cr_requester r.2)); ("target_id", jid (cr_target r.2)); ("status", JStr (cr_status r.2));
      ("message", JStr (cr_message r.2)); ("created_at", jtime (cr_created_at r.2))]%string)
    (rows_where (λ _ r, bool_decide (cr_requester r = u) || bool_decide (cr_target r = u)) (contact_requests (rg_graph d))).
Definition export_folders (u : uuid) d : json :=
  jagg (λ r : uuid * folder_row, JObj [("title", JStr (fo_title r.2)); ("emoji", JStr (fo_emoji r.2)); ("position", JInt (fo_position r.2))]%string)
    (rows_where (λ _ f, bool_decide (fo_owner f = u)) (chat_folders (rg_organise d))).
(** The sections in order; one without a row is left out. *)
Definition sections (u : uuid) d : list (string * json) :=
  omap (λ s : string * option json, j ← s.2; Some (s.1, j))
    [("profile", export_profile u d); ("devices", Some (export_devices u d)); ("login_history", Some (export_logins u d));
     ("contacts", Some (export_contacts u d)); ("blocked", Some (export_blocked u d)); ("chats", Some (export_chats u d));
     ("messages", Some (export_messages u d)); ("privacy", Some (export_privacy u d)); ("stories", Some (export_stories u d));
     ("media", Some (export_media u d)); ("contact_requests", Some (export_contact_requests u d)); ("chat_folders", Some (export_folders u d))]%string.
Definition export_document (now : time) (u : uuid) d : json := JObj (("exported_at", jtime now) :: ("user_id", jid u) :: sections u d)%string.
Definition export_key (now : time) (u : uuid) : string := "exports/" +:+ uuid_String u +:+ "/" +:+ Itoa (now / second) +:+ ".json".
(** [stored]: whether the object store took the archive.  The sections are read in one state:
    nothing the export does depends on them. *)
Definition Export (now : time) (mediaID : uuid) (stored : bool) (u : uuid) : prog rightsdb string uuid :=
  document ← gets (export_document now u);
  fail_if (negb stored) "datarights: upload export"%string;;
  modify (λ d, with_rg_objects (<[export_key now u := document]> (rg_objects d)) d);;
  clash ← gets (λ d, bool_decide (is_Some (rg_media d !! mediaID)) || negb (has_account u (rg_graph d)));
  fail_if clash "datarights: record export media"%string;;
  modify (λ d, with_rg_media (<[mediaID := MkExportMedia u "file" (export_key now u) (len (marshal document)) "sobh-export.json" now]> (rg_media d)) d);;
  mret mediaID.

(** ** Carrying out: the deletion *)

Definition on_core (f : db → db) d : rightsdb := with_rg_auth (AuthStore.with_core (f (core (rg_auth d))) (rg_auth d)) d.
Definition on_auth (f : authdb → authdb) d : rightsdb := with_rg_auth (f (rg_auth d)) d.
Definition on_graph (f : socialdb → socialdb) d : rightsdb := with_rg_graph (f (rg_graph d)) d.
Definition involves (u : uuid) (k : uuid * uuid) : bool := bool_decide (k.1 = u) || bool_decide (k.2 = u).
Definition blank_profile (p : profile_row) : profile_row := MkProfileRow "" "" None None (pr_language p).
Definition delete_profile (u : uuid) d : rightsdb :=
  on_core (λ c, Store.with_users (alter (λ r, MkUser (u_username r) ((λ _, ""%string) <$> u_display_name r) None (u_is_bot r) (u_deleted_at r)) u (users c)) c)
    (on_graph (λ g, with_profiles (alter blank_profile u (profiles g)) g) d).
Definition delete_contacts (u : uuid) d : rightsdb :=
  on_core (λ c, Store.with_contacts (filter (λ k, ¬ (k.1 = u ∨ k.2 = u)) (contacts c)) c)
    (on_graph (λ g, with_address_book (delete_where (λ k _, involves u k) (address_book g)) g) d).
Definition delete_blocks (u : uuid) : rightsdb → rightsdb :=
  on_graph (λ g, with_blocked_users (delete_where (λ k _, involves u k) (blocked_users g)) g).
Definition delete_contact_requests (u : uuid) : rightsdb → rightsdb :=
  on_graph (λ g, with_contact_requests (delete_where (λ _ r, involves u (cr_requester r, cr_target r)) (contact_requests g)) g).
Definition delete_privacy (u : uuid) d : rightsdb :=
  on_auth (λ a, AuthStore.with_privacy_settings (delete_where (λ k _, bool_decide (k.1 = u)) (privacy_settings a)) a)
    (on_graph (λ g, with_privacy (delete_where (λ k _, bool_decide (k.1 = u)) (privacy g)) g) d).
Definition device_of (u : uuid) (d : rightsdb) (device : uuid) : bool := bool_decide (d_user_id <$> devices (core (rg_auth d)) !! device = Some u).
Definition delete_push_tokens (u : uuid) d : rightsdb :=
  on_auth (λ a, AuthStore.with_push_tokens (delete_where (λ _ t, device_of u d (AuthStore.pt_device_id t)) (AuthStore.push_tokens a)) a)
    (with_rg_push (delete_where (λ _ t, bool_decide (pu_user t = u)) (rg_push d)) d).
(** The chats of a folder go with it. *)
Definition delete_folders (u : uuid) d : rightsdb :=
  let o := rg_organise d in
  let mine k := bool_decide (fo_owner <$> chat_folders o !! k = Some u) in
  with_rg_organise (MkOrganiseDb (scheduled o) (chat_flags o) (delete_where (λ k _, mine k) (chat_folders o))
    (delete_where (λ k _, mine k.1) (chat_folder_chats o))) d.
Definition delete_identity_keys (u : uuid) d : rightsdb := with_rg_identities (delete_where (λ _ r, bool_decide (ik_user_id r = u)) (rg_identities d)) d.
Definition delete_prekeys (u : uuid) d : rightsdb := with_rg_prekeys (delete_where (λ _ r, device_of u d (pk_device_id r)) (rg_prekeys d)) d.
Definition revoke_sessions (now : time) (u : uuid) : rightsdb → rightsdb :=
  on_auth (λ a, AuthStore.with_sessions (update_where (λ _ s, bool_decide (se_user_id s = u) && (if se_revoked_at s is None then true else false))
    (λ _ s, with_se_revoked_reason (Some "account_deleted"%string) (with_se_revoked_at (Some now) s)) (sessions a)) a).
Definition revoke_all_devices (now : time) (u : uuid) : rightsdb → rightsdb :=
  on_core (λ c, Store.with_devices (update_where (λ _ r, bool_decide (d_user_id r = u) && (if d_revoked_at r is None then true else false))
    (λ _ r, MkDevice (d_user_id r) (d_sync_cursor r) (Some now)) (devices c)) c).
Definition leave_chats (now : time) (u : uuid) : rightsdb → rightsdb :=
  on_core (λ c, Store.with_chat_members (update_where (λ k m, bool_decide (k.2 = u) && (if m_left_at m is None then true else false))
    (λ _, with_m_left_at (Some now)) (chat_members c)) c).
Definition deleted_phone (u : uuid) : string := "deleted:" +:+ uuid_String u.
(** The last statement, on the [users] row as each component sees it; [hash] is drawn. *)
Definition empty_account (now : time) (hash : list N) (u : uuid) d : rightsdb :=
  on_core (λ c, Store.with_users (alter (λ r, MkUser None (u_display_name r) (u_avatar_media_id r) (u_is_bot r) (Some now)) u (users c)) c)
    (on_graph (λ g, Social.with_accounts (alter (λ a, Social.MkAccount None (deleted_phone u) hash "deleted" (ac_is_bot a) false None (ac_last_seen_at a) (Some now))
                                    u (Social.accounts g)) g)
      (on_auth (λ a, AuthStore.with_accounts (alter (λ r, AuthStore.MkAccount (deleted_phone u) hash "deleted" false None None (a_token_version r + 1) None None None
                                                            (a_created_at r)) u (AuthStore.accounts a)) a) d)).
Definition Delete (now : time) (hash : list N) (u : uuid) d : rightsdb :=
  empty_account now hash u (leave_chats now u (revoke_all_devices now u (revoke_sessions now u (delete_prekeys u (delete_identity_keys u
    (delete_folders u (delete_push_tokens u (delete_privacy u (delete_contact_requests u (delete_blocks u (delete_contacts u (delete_profile u d)))))))))))).

(** ** The worker *)

(** A claimed request as the worker holds it, and how carrying it out went once it has. *)
Record flight := MkFlight { fl_id : uuid; fl_request : Request; fl_outcome : option (result string (option uuid)) }.
Definition dataRequestBatch : Z := 20.
(** What carrying out one request draws and meets: the clock, an identifier, thirty-two bytes,
    whether the store takes an archive, and the reason the deletion's transaction fails, if it
    does. *)
Record turn := MkTurn { tn_now : time; tn_media : uuid; tn_hash : list N; tn_stored : bool; tn_failure : option string }.
Definition carry_out (t : turn) (r : Request) d : result string (option uuid) * rightsdb :=
  if bool_decide (rq_Type r = TypeExport) then
    match Export (tn_now t) (tn_media t) (tn_stored t) (rq_UserID r) d with
    | (Ok mediaID, d) => (Ok (Some mediaID), d)
    | (Err e, d) => (Err e, d)
    end
  else if bool_decide (rq_Type r = TypeDelete) then
    match tn_failure t with Some e => (Err e, d) | None => (Ok None, Delete (tn_now t) (tn_hash t) (rq_UserID r) d) end
  else (Ok None, d).
(** The statement that records the outcome. *)
Definition settle (now : time) (id : uuid) (r : Request) (outcome : result string (option uuid)) : rightsdb → rightsdb :=
  match outcome with
  | Ok (Some mediaID) => if bool_decide (rq_Type r = TypeExport) then MarkReady now id mediaID else λ d, d
  | Ok None => if bool_decide (rq_Type r = TypeDelete) then MarkCompleted now id else λ d, d
  | Err reason => MarkFailed now id reason
  end.
(** The loop over the requests claimed; [between] is what commits before a request is carried
    out and before its outcome is recorded. *)
Fixpoint carry_out_each (turns : uuid → turn) (between : uuid → bool → rightsdb → rightsdb) (due : list (uuid * Request)) (done : Z) d : Z * rightsdb :=
  match due with
  | [] => (done, d)
  | (id, r) :: due =>
      let '(outcome, d) := carry_out (turns id) r (between id false d) in
      let d := settle (tn_now (turns id)) id r outcome (between id true d) in
      carry_out_each turns between due (if outcome is Ok _ then done + 1 else done) d
  end.
Definition carryOutDataRequests (storage : bool) (now : time) (locked : gset uuid) turns between d : Z * rightsdb :=
  if negb storage then (0, d)
  else let '(due, d) := ClaimDue now locked dataRequestBatch d in carry_out_each turns between due 0 d.
End carrying_out.

(** * Data rights: the theorems

    The requests, the worker's loop and whatever else happens as a step relation: an account is
    only ever emptied a week after its owner asked, what is settled stays settled; and what is
    left of an account that has been emptied. *)

Section theory.
Context (stamp : time → string) (marshal : json → string).

(** ** The machine *)

(** The database, the requests some worker holds, and the latest clock read. *)
Record rights_world := MkRightsWorld { rw_db : rightsdb; rw_flights : list flight; rw_clock : time }.
Definition gone (u : uuid) (d : rightsdb) : bool :=
  from_option (λ a, if ac_deleted_at a is Some _ then true else false) false (Social.accounts (rg_graph d) !! u).
(** What everything else may do: not touch the requests, and delete no account. *)
Definition elsewhere (d d' : rightsdb) : Prop := data_requests d' = data_requests d ∧ ∀ u, gone u d' = true → gone u d = true.

(** [old] is what an insertion's check may have read, any state at all; a request that is
    refused changes nothing. *)
Inductive rights_step : rights_world → rights_world → Prop :=
| RightsAsk old now id user kind res d d' l t :
    t <= now → Service_Request now id (λ _, d) user kind old = (Ok res, d') → rights_step (MkRightsWorld d l t) (MkRightsWorld d' l now)
| RightsWithdraw now p requestID d l t :
    t <= now → rights_step (MkRightsWorld d l t) (MkRightsWorld (handle_cancel now p requestID d).2 l now)
| RightsClaim now locked limit d l t :
    t <= now → rights_step (MkRightsWorld d l t)
      (MkRightsWorld (ClaimDue now locked limit d).2 (l ++ ((λ r, MkFlight r.1 r.2 None) <$> (ClaimDue now locked limit d).1)) now)
| RightsRun tn id r l1 l2 d t :
    t <= tn_now tn → rights_step (MkRightsWorld d (l1 ++ MkFlight id r None :: l2) t)
      (MkRightsWorld (carry_out stamp marshal tn r d).2 (l1 ++ MkFlight id r (Some (carry_out stamp marshal tn r d).1) :: l2) (tn_now tn))
| RightsSettle now id r outcome l1 l2 d t :
    t <= now → rights_step (MkRightsWorld d (l1 ++ MkFlight id r (Some outcome) :: l2) t) (MkRightsWorld (settle now id r outcome d) (l1 ++ l2) now)
| RightsCrash l' d l t : l' ⊆+ l → rights_step (MkRightsWorld d l t) (MkRightsWorld d l' t)
| RightsElsewhere d' now d l t : t <= now → elsewhere d d' → rights_step (MkRightsWorld d l t) (MkRightsWorld d' l now).

(** ** What stays true *)

Record request_ok (t : time) (r : Request) : Prop := {
  qo_type : rq_Type r ∈ [TypeExport; TypeDelete];
  qo_status : rq_Status r ∈ [StatusPending; StatusProcessing; StatusReady; StatusCancelled; StatusCompleted];
  qo_wait : rq_Type r = TypeDelete → rq_CreatedAt r + DeletionDelay <= rq_ExecuteAfter r;
  qo_claimed : rq_Status r ∈ [StatusProcessing; StatusReady; StatusCompleted] → rq_ExecuteAfter r <= t;
}.
(** A request in a worker's hands: its row is the one that was claimed, or its owner has
    withdrawn it since. *)
Definition flight_ok (d : rightsdb) (t : time) (f : flight) : Prop :=
  ∃ r, data_requests d !! fl_id f = Some r ∧ rq_UserID r = rq_UserID (fl_request f) ∧ rq_Type r = rq_Type (fl_request f) ∧
    rq_Status r ∈ [StatusProcessing; StatusCancelled] ∧ rq_ExecuteAfter r <= t.
Record rights_ok (w : rights_world) : Prop := {
  ro_requests : ∀ id r, data_requests (rw_db w) !! id = Some r → request_ok (rw_clock w) r;
  ro_flights : ∀ f, f ∈ rw_flights w → flight_ok (rw_db w) (rw_clock w) f;
  ro_once : NoDup (fl_id <$> rw_flights w);
  ro_gone : ∀ u, gone u (rw_db w) = true → ∃ id r, data_requests (rw_db w) !! id = Some r ∧ rq_UserID r = u ∧ rq_Type r = TypeDelete ∧
    rq_CreatedAt r + DeletionDelay <= rw_clock w;
}.
Definition final (r : Request) : Prop := rq_Status r ∈ [StatusReady; StatusCompleted; StatusCancelled].
Definition settled (d d' : rightsdb) : Prop := ∀ id r, data_requests d !! id = Some r → final r → data_requests d' !! id = Some r.
#[local] Instance settled_preorder : PreOrder settled.
Proof. split; [by intros d id r|]. intros d1 d2 d3 H12 H23 id r Hr Hf. by apply H23, Hf; apply H12. Qed.

(** A row that is changed keeps whose it is, what it asks for and when it was asked. *)
Definition same_request (r r' : Request) : Prop := rq_UserID r' = rq_UserID r ∧ rq_Type r' = rq_Type r ∧ rq_CreatedAt r' = rq_CreatedAt r.
Lemma requests_updated P f d :
  data_requests (with_requests (update_where P f (data_requests d)) d) = update_where P f (data_requests d).
Proof. done. Qed.
(** Rows change one by one and the accounts do not: enough for everything but the flights. *)
Lemma rights_ok_rows P f d d' t now l : t <= now → data_requests d' = update_where P f (data_requests d) → (∀ u, gone u d' = true → gone u d = true) →
  (∀ id r, data_requests d !! id = Some r → P id r = true → request_ok t r → same_request r (f id r) ∧ request_ok now (f id r)) →
  rights_ok (MkRightsWorld d l t) →
  (∀ id r', data_requests d' !! id = Some r' → request_ok now r') ∧
  (∀ u, gone u d' = true → ∃ id r, data_requests d' !! id = Some r ∧ rq_UserID r = u ∧ rq_Type r = TypeDelete ∧ rq_CreatedAt r + DeletionDelay <= now).
Proof.
  intros Ht Hd Hgone Hf [Hreq _ _ Hg]. simpl in *. split.
  - intros id r'. rewrite Hd, lookup_update_where, fmap_Some. intros (r & Hr & ->). specialize (Hreq id r Hr).
    destruct (P id r) eqn:HP; [by apply Hf|]. destruct Hreq as [A B C D]. split; auto. intros Hs. specialize (D Hs). lia.
  - intros u (id & r & Hr & Hu & Hty & Hle)%Hgone%Hg. exists id, (if P id r then f id r else r).
    rewrite Hd, lookup_update_where, Hr. split; [done|]. destruct (P id r) eqn:HP; [|repeat split; auto; lia].
    destruct (Hf id r Hr HP) as [(-> & -> & ->) _]; [by apply (Hreq id)|]. repeat split; auto; lia.
Qed.
Lemma settled_rows P f d d' : data_requests d' = update_where P f (data_requests d) →
  (∀ id r, data_requests d !! id = Some r → P id r = true → ¬ final r) → settled d d'.
Proof.
  intros Hd HP id r Hr Hf. rewrite Hd, lookup_update_where, Hr. simpl. destruct (P id r) eqn:Hp; [|done]. by destruct (HP id r Hr Hp).
Qed.
Lemma later_ok t now r : t <= now → request_ok t r → request_ok now r.
Proof. intros Hle [A B C D]. split; auto. intros Hs. specialize (D Hs). lia. Qed.
Lemma later_flight d t now f : t <= now → flight_ok d t f → flight_ok d now f.
Proof. intros Hle (r & Hr & Hu & Hty & Hs & Hx). exists r. repeat split; auto. lia. Qed.

(** ** Asking and withdrawing *)

Lemma Service_Request_inv now id d user kind old res d' : Service_Request now id (λ _, d) user kind old = (Ok res, d') →
  ∃ ea, (kind = TypeExport ∧ ea = now ∨ kind = TypeDelete ∧ ea = now + DeletionDelay) ∧ data_requests d !! id = None ∧
    d' = with_requests (<[id := new_request now user kind ea]> (data_requests d)) d.
Proof.
  unfold Service_Request. intros Hrun. apply bind_Ok_inv in Hrun as (ea & s & Hea & Hrun).
  assert (s = old ∧ (kind = TypeExport ∧ ea = now ∨ kind = TypeDelete ∧ ea = now + DeletionDelay)) as [-> Hcase].
  { case_bool_decide; [injection Hea as <- <-; auto|]. case_bool_decide; [injection Hea as <- <-; auto|done]. }
  exists ea. split; [done|]. unfold map_err, catch in Hrun. destruct (in_tx _ old) as [[a|e] s] eqn:Htx; [|done]. injection Hrun as _ ->.
  apply in_tx_Ok_inv in Htx. unfold Create in Htx. rewrite bind_run in Htx. unfold gets in Htx at 1. cbn beta iota in Htx.
  rewrite bind_run in Htx. unfold fail_if at 1 in Htx. destruct (negb _); [done|]. cbn beta iota in Htx. rewrite bind_run in Htx.
  unfold modify at 1 in Htx. cbn beta iota in Htx. rewrite bind_run in Htx. unfold gets in Htx. cbn beta iota in Htx. rewrite bind_run in Htx.
  unfold fail_if in Htx. destruct (_ || _) eqn:Hc; [done|]. cbn beta iota in Htx. rewrite bind_run in Htx. simpl in Htx. injection Htx as _ <-.
  apply orb_false_iff in Hc as [Hc%bool_decide_eq_false _]. split; [by apply eq_None_not_Some|done].
Qed.

Lemma handle_cancel_rows now p requestID d : ∃ P, data_requests (handle_cancel now p requestID d).2 =
    update_where P (λ _, with_rq_status StatusCancelled (Some now)) (data_requests d) ∧
  rg_graph (handle_cancel now p requestID d).2 = rg_graph d ∧ ∀ id r, P id r = true → Cancellable r = true.
Proof.
  unfold handle_cancel. rewrite bind_run. unfold MustPrincipal, or_fail. destruct p as [principal|]; simpl.
  2:{ exists (λ _ _, false). by rewrite update_where_id. }
  rewrite bind_run. unfold path_id, or_fail. destruct requestID as [id|]; simpl.
  2:{ exists (λ _ _, false). by rewrite update_where_id. }
  unfold Service_Cancel. rewrite map_err_snd. unfold CancelRequest. cbv zeta. destruct (hits _ _ _); simpl.
  - eexists. split; [reflexivity|]. split; [done|]. intros k r [_ [_ Hc]%andb_true_iff]%andb_true_iff. exact Hc.
  - exists (λ _ _, false). by rewrite update_where_id.
Qed.
Lemma gone_graph u d d' : rg_graph d' = rg_graph d → gone u d' = gone u d.
Proof. intros Hg. unfold gone. by rewrite Hg. Qed.
Lemma not_final r : Cancellable r = true → ¬ final r.
Proof.
  unfold Cancellable, final. intros Hc%bool_decide_eq_true Hf.
  repeat (apply elem_of_cons in Hc as [Hc|Hc]); rewrite ?Hc in Hf; [..|by apply elem_of_nil in Hc];
    repeat (apply elem_of_cons in Hf as [Hf|Hf]); try discriminate Hf; by apply elem_of_nil in Hf.
Qed.
(** The flights, when rows change one by one. *)
Lemma flights_rows P f d d' t now (l : list flight) : t <= now → data_requests d' = update_where P f (data_requests d) →
  (∀ id r, data_requests d !! id = Some r → P id r = true → request_ok t r → id ∈ fl_id <$> l → rq_Status r ∈ [StatusProcessing; StatusCancelled] →
     rq_UserID (f id r) = rq_UserID r ∧ rq_Type (f id r) = rq_Type r ∧ rq_Status (f id r) ∈ [StatusProcessing; StatusCancelled] ∧
     rq_ExecuteAfter (f id r) = rq_ExecuteAfter r) →
  (∀ id r, data_requests d !! id = Some r → request_ok t r) →
  (∀ x, x ∈ l → flight_ok d t x) → ∀ x, x ∈ l → flight_ok d' now x.
Proof.
  intros Ht Hd Hf Hreq Hl x Hx. destruct (Hl x Hx) as (r & Hr & Hu & Hty & Hs & Hle).
  exists (if P (fl_id x) r then f (fl_id x) r else r). rewrite Hd, lookup_update_where, Hr. split; [done|].
  destruct (P (fl_id x) r) eqn:HP; [|repeat split; auto; lia].
  destruct (Hf _ r Hr HP) as (-> & -> & Hs' & ->); [by apply (Hreq (fl_id x))|by apply list_elem_of_fmap_2|done|]. repeat split; auto. lia.
Qed.
Lemma withdraw_ok now p requestID d l t : t <= now → rights_ok (MkRightsWorld d l t) →
  rights_ok (MkRightsWorld (handle_cancel now p requestID d).2 l now) ∧ settled d (handle_cancel now p requestID d).2.
Proof.
  intros Ht Hok. destruct (handle_cancel_rows now p requestID d) as (P & Hrows & Hg & HP). set (d' := (handle_cancel now p requestID d).2) in *.
  split; [|by apply (settled_rows P _ _ _ Hrows); intros id r _ Hp; apply not_final; apply (HP id)].
  destruct (rights_ok_rows P _ d d' t now l Ht Hrows) as [Hr Hgone]; [by intros u; rewrite (gone_graph u d d' Hg)| |done|].
  - intros id r _ Hp [A B C D]. split; [done|]. split; [done|by repeat constructor|done|].
    simpl. intros Hs. exfalso. repeat (apply elem_of_cons in Hs as [Hs|Hs]; [discriminate Hs|]). by apply elem_of_nil in Hs.
  - destruct Hok as [Hreq Hfl Honce _]. split; simpl; [done| |done|done].
    apply (flights_rows P _ d d' t now l Ht Hrows); [|done|done]. intros id r _ _ _ _ _. simpl. repeat split; auto. by right; left.
Qed.
Lemma ask_ok now id d user kind old res d' l t : t <= now → Service_Request now id (λ _, d) user kind old = (Ok res, d') →
  rights_ok (MkRightsWorld d l t) → rights_ok (MkRightsWorld d' l now) ∧ settled d d'.
Proof.
  intros Ht (ea & Hea & Hfresh & ->)%Service_Request_inv [Hreq Hfl Honce Hg]. simpl in *. split; [split; simpl|].
  - intros id' r [[<- <-]|[_ Hr]]%lookup_insert_Some; [|by eapply later_ok, Hreq].
    split; simpl; [|by left| |].
    + destruct Hea as [[-> _]|[-> _]]; by repeat constructor.
    + intros ->. destruct Hea as [[? _]|[_ ->]]; [done|]. lia.
    + intros Hs. exfalso. repeat (apply elem_of_cons in Hs as [Hs|Hs]; [discriminate Hs|]). by apply elem_of_nil in Hs.
  - intros f Hf. destruct (Hfl f Hf) as (r & Hr & Hu & Hty & Hs & Hle). exists r. simpl. rewrite lookup_insert_ne by congruence. repeat split; auto. lia.
  - done.
  - intros u Hu. destruct (Hg u Hu) as (id' & r & Hr & Hru & Hty & Hle). exists id', r. rewrite lookup_insert_ne by congruence. repeat split; auto. lia.
  - intros id' r Hr _. simpl. rewrite lookup_insert_ne by congruence. done.
Qed.

(** ** Claiming *)

Lemma ClaimDue_spec now locked limit d due d' : ClaimDue now locked limit d = (due, d') →
  ∃ ids : list uuid, (∀ id, id ∈ ids → ∃ r, data_requests d !! id = Some r ∧ claimable_request now id r = true ∧ id ∉ locked) ∧
    data_requests d' = update_where (λ k _, bool_decide (k ∈ ids)) (λ _ r, with_rq_status StatusProcessing (rq_CompletedAt r) r) (data_requests d) ∧
    rg_graph d' = rg_graph d ∧ NoDup due.*1 ∧ ∀ id r, (id, r) ∈ due → id ∈ ids ∧ data_requests d' !! id = Some r.
Proof.
  unfold ClaimDue. cbv zeta. set (ids := take _ _). set (d1 := with_requests _ d). intros [= <- <-]. exists ids. split; [|split; [done|split; [done|split]]].
  - intros id Hid. assert (id ∈ (order_by (λ r : uuid * Request, rq_ExecuteAfter r.2)
      (rows_where (λ k r, claimable_request now k r && negb (bool_decide (k ∈ locked))) (data_requests d))).*1) as Hin.
    { apply elem_of_take in Hid as (i & Hi & _). by apply list_elem_of_lookup_2 in Hi. }
    apply list_elem_of_fmap in Hin as ([k r] & -> & Hin). rewrite elem_of_order_by in Hin.
    apply elem_of_rows_where in Hin as [Hr [Hc Hl%negb_true_iff%bool_decide_eq_false]%andb_true_iff]. by exists r.
  - apply NoDup_fst_rows_where.
  - intros id r [Hr Hid%bool_decide_eq_true]%elem_of_rows_where. done.
Qed.
Lemma claim_ok now locked limit d l t : t <= now → rights_ok (MkRightsWorld d l t) →
  rights_ok (MkRightsWorld (ClaimDue now locked limit d).2 (l ++ ((λ r, MkFlight r.1 r.2 None) <$> (ClaimDue now locked limit d).1)) now) ∧
  settled d (ClaimDue now locked limit d).2.
Proof.
  intros Ht Hok. destruct (ClaimDue now locked limit d) as [due d'] eqn:Hclaim. simpl.
  apply ClaimDue_spec in Hclaim as (ids & Hids & Hrows & Hg & Hnd & Hdue).
  assert (∀ id r, data_requests d !! id = Some r → id ∈ ids → rq_Status r = StatusPending ∧ rq_ExecuteAfter r <= now) as Hpend.
  { intros id r Hr (r' & Hr' & Hc & _)%Hids. assert (r' = r) as -> by congruence. unfold claimable_request in Hc.
    apply andb_true_iff in Hc as [Hs%bool_decide_eq_true Hx%Z.leb_le]. done. }
  assert (∀ x, x ∈ l → fl_id x ∉ ids) as Hdisj.
  { intros x Hx Hin. destruct (ro_flights _ Hok x Hx) as (r & Hr & _ & _ & Hs & _). simpl in Hr. destruct (Hpend _ _ Hr Hin) as [Hp _]. rewrite Hp in Hs.
    repeat (apply elem_of_cons in Hs as [Hs|Hs]; [discriminate Hs|]). by apply elem_of_nil in Hs. }
  destruct (rights_ok_rows (λ k _, bool_decide (k ∈ ids)) _ d d' t now l Ht Hrows) as [Hr Hgone]; [by intros u; rewrite (gone_graph u d d' Hg)| |done|].
  { intros id r Hr Hin%bool_decide_eq_true [A B C D]. destruct (Hpend id r Hr Hin) as [_ Hle]. split; [done|]. split; [done|by right; left|done|done]. }
  split; [split; simpl; [done| | |done]|].
  - intros x [Hx|Hx]%elem_of_app.
    + revert x Hx. apply (flights_rows _ _ d d' t now l Ht Hrows); [|apply Hok|apply Hok]. intros id r _ Hin%bool_decide_eq_true _ Hx.
      apply list_elem_of_fmap in Hx as (x & -> & Hx). by destruct (Hdisj x Hx).
    + apply list_elem_of_fmap in Hx as ([id r] & -> & Hx). destruct (Hdue id r Hx) as [Hin Hr']. exists r. simpl. split; [done|].
      rewrite Hrows, lookup_update_where, fmap_Some in Hr'. destruct Hr' as (r0 & Hr0 & Heq). rewrite bool_decide_true in Heq by done. subst r. simpl.
      destruct (Hpend id r0 Hr0 Hin). repeat split; auto. by left.
  - rewrite fmap_app, NoDup_app. split; [apply Hok|]. rewrite <-list_fmap_compose. split; [|exact Hnd].
    intros id Hx Hy. apply list_elem_of_fmap in Hx as (x & -> & Hx). apply list_elem_of_fmap in Hy as ([k r] & Heq & Hy). simpl in Heq.
    destruct (Hdue k r Hy) as [Hin _]. apply (Hdisj x Hx). by rewrite Heq.
  - apply (settled_rows _ _ _ _ Hrows). intros id r Hr' Hin%bool_decide_eq_true. apply not_final. unfold Cancellable. apply bool_decide_true.
    destruct (Hpend id r Hr' Hin) as [-> _]. by left.
Qed.

(** ** Carrying out and settling *)

Lemma Delete_requests now hash u d : data_requests (Delete now hash u d) = data_requests d.
Proof. reflexivity. Qed.
Lemma Delete_accounts now hash u d : Social.accounts (rg_graph (Delete now hash u d)) =
  alter (λ a, Social.MkAccount None (deleted_phone u) hash "deleted" (ac_is_bot a) false None (ac_last_seen_at a) (Some now)) u (Social.accounts (rg_graph d)).
Proof. reflexivity. Qed.
Lemma gone_Delete now hash u v d : gone v (Delete now hash u d) = true → v = u ∨ gone v d = true.
Proof.
  unfold gone. rewrite Delete_accounts. destruct (decide (v = u)) as [->|Hne]; [by left|]. rewrite lookup_alter_ne by done. by right.
Qed.
Definition only_media (d d' : rightsdb) : Prop := data_requests d' = data_requests d ∧ rg_graph d' = rg_graph d.
#[local] Instance only_media_preorder : PreOrder only_media.
Proof. split; [done|]. intros d1 d2 d3 [A B] [C D]. split; congruence. Qed.
Lemma Export_requests now mediaID stored u : Steps.follows only_media (Export stamp marshal now mediaID stored u).
Proof. unfold Export. follow_steps; done. Qed.
Lemma carry_out_requests tn r d : data_requests (carry_out stamp marshal tn r d).2 = data_requests d ∧
  ∀ v, gone v (carry_out stamp marshal tn r d).2 = true → gone v d = true ∨ v = rq_UserID r ∧ rq_Type r = TypeDelete.
Proof.
  unfold carry_out. case_bool_decide as Hx.
  - pose proof (Export_requests (tn_now tn) (tn_media tn) (tn_stored tn) (rq_UserID r) d) as [Hr Hg].
    destruct (Export _ _ _ _ _ _ d) as [[m|e] d'] eqn:He; simpl in *; (split; [done|]); intros v; rewrite (gone_graph v d d' Hg); by left.
  - case_bool_decide as Hd; [|split; [done|by left]]. destruct (tn_failure tn); [split; [done|by left]|]. simpl. split; [done|].
    intros v [->|Hv]%gone_Delete; auto.
Qed.
Lemma run_ok tn id r l1 l2 d t : t <= tn_now tn → rights_ok (MkRightsWorld d (l1 ++ MkFlight id r None :: l2) t) →
  rights_ok (MkRightsWorld (carry_out stamp marshal tn r d).2 (l1 ++ MkFlight id r (Some (carry_out stamp marshal tn r d).1) :: l2) (tn_now tn)) ∧
  settled d (carry_out stamp marshal tn r d).2.
Proof.
  intros Ht [Hreq Hfl Honce Hg]. simpl in *. destruct (carry_out_requests tn r d) as [Hrows Hgone]. set (d' := (carry_out stamp marshal tn r d).2) in *.
  assert (∀ x, flight_ok d t x → flight_ok d' (tn_now tn) x) as Hkeep.
  { intros x (r' & Hr' & Hu & Hty & Hs & Hle). exists r'. rewrite Hrows. repeat split; auto. lia. }
  split; [split; simpl|].
  - intros id' r'. rewrite Hrows. intros Hr'. by eapply later_ok, Hreq.
  - intros x [Hx|[->|Hx]%elem_of_cons]%elem_of_app.
    + apply Hkeep, Hfl. apply elem_of_app. by left.
    + apply (Hkeep (MkFlight id r None)), Hfl. apply elem_of_app. right. by left.
    + apply Hkeep, Hfl. apply elem_of_app. right. by right.
  - by rewrite fmap_app, fmap_cons in *.
  - intros u [Hu|[-> Hty]]%Hgone.
    + destruct (Hg u Hu) as (i & r' & Hr' & Hru & Hty & Hle). exists i, r'. rewrite Hrows. repeat split; auto. lia.
    + destruct (Hfl (MkFlight id r None)) as (r' & Hr' & Hru & Hrt & _ & Hle); [apply elem_of_app; right; by left|]. simpl in *.
      exists id, r'. rewrite Hrows. split; [done|]. split; [done|]. split; [congruence|]. destruct (Hreq id r' Hr') as [_ _ Hw _].
      assert (rq_Type r' = TypeDelete) as Hdel by congruence. specialize (Hw Hdel). lia.
  - intros i r' Hr' _. by rewrite Hrows.
Qed.
(** Recording an outcome touches one row, and only while it is processing. *)
Lemma settle_rows now id r outcome d : ∃ P f, data_requests (settle now id r outcome d) = update_where P f (data_requests d) ∧
  rg_graph (settle now id r outcome d) = rg_graph d ∧
  (∀ k r', P k r' = true → k = id ∧ rq_Status r' = StatusProcessing) ∧
  (∀ k r' t, P k r' = true → t <= now → request_ok t r' → same_request r' (f k r') ∧ request_ok now (f k r')).
Proof.
  assert (∃ P (f : uuid → Request → Request), data_requests d = update_where P f (data_requests d) ∧ rg_graph d = rg_graph d ∧
    (∀ k r', P k r' = true → k = id ∧ rq_Status r' = StatusProcessing) ∧
    (∀ k r' t, P k r' = true → t <= now → request_ok t r' → same_request r' (f k r') ∧ request_ok now (f k r'))) as Hnone.
  { exists (λ _ _, false), (λ _ r, r). by rewrite update_where_id. }
  assert (∀ f, (∀ r' t, rq_Status r' = StatusProcessing → t <= now → request_ok t r' → same_request r' (f r') ∧ request_ok now (f r')) →
    ∃ P (g : uuid → Request → Request), data_requests (mark id f d) = update_where P g (data_requests d) ∧ rg_graph (mark id f d) = rg_graph d ∧
    (∀ k r', P k r' = true → k = id ∧ rq_Status r' = StatusProcessing) ∧
    (∀ k r' t, P k r' = true → t <= now → request_ok t r' → same_request r' (g k r') ∧ request_ok now (g k r'))) as Hmark.
  { intros f Hf. exists (λ k r, bool_decide (k = id) && bool_decide (rq_Status r = StatusProcessing)), (λ _, f). split; [done|]. split; [done|]. split.
    - intros k r' [Hk%bool_decide_eq_true Hs%bool_decide_eq_true]%andb_true_iff. done.
    - intros k r' t [_ Hs%bool_decide_eq_true]%andb_true_iff. by apply Hf. }
  destruct outcome as [[mediaID|]|reason]; simpl.
  - case_bool_decide; [|done]. apply Hmark. intros r' t Hs Hle [A B C D]. split; [done|]. split; [done|by right; right; left|done|].
    intros _. rewrite Hs in D. simpl. specialize (D ltac:(by left)). lia.
  - case_bool_decide; [|done]. apply Hmark. intros r' t Hs Hle [A B C D]. split; [done|]. split; [done|by do 4 right; left|done|].
    intros _. rewrite Hs in D. simpl. specialize (D ltac:(by left)). lia.
  - apply Hmark. intros r' t Hs Hle [A B C D]. split; [done|]. rewrite Hs in D. specialize (D ltac:(by left)). split; [done|by left| |].
    + intros Hty. specialize (C Hty). simpl. unfold minute, second. lia.
    + simpl. intros Hin. exfalso. repeat (apply elem_of_cons in Hin as [Hin|Hin]; [discriminate Hin|]). by apply elem_of_nil in Hin.
Qed.
Lemma settle_ok now id r outcome l1 l2 d t : t <= now → rights_ok (MkRightsWorld d (l1 ++ MkFlight id r (Some outcome) :: l2) t) →
  rights_ok (MkRightsWorld (settle now id r outcome d) (l1 ++ l2) now) ∧ settled d (settle now id r outcome d).
Proof.
  intros Ht Hok. destruct (settle_rows now id r outcome d) as (P & f & Hrows & Hg & HP & Hf). set (d' := settle now id r outcome d) in *.
  pose proof (ro_once _ Hok) as Hnd. simpl in Hnd. rewrite fmap_app, fmap_cons, NoDup_app in Hnd. destruct Hnd as (Hnd1 & Hcross & [Hni Hnd2]%NoDup_cons). simpl in *.
  assert (NoDup (fl_id <$> l1 ++ l2)) as Hnd.
  { rewrite fmap_app, NoDup_app. split; [done|]. split; [|done]. intros i Hi Hi2. apply (Hcross i Hi). by right. }
  assert (id ∉ fl_id <$> l1 ++ l2) as Hout.
  { rewrite fmap_app, not_elem_of_app. split; [|done]. intros Hin. apply (Hcross id Hin). by left. }
  assert (rights_ok (MkRightsWorld d (l1 ++ l2) t)) as Hok'.
  { destruct Hok as [Hreq Hfl _ Hgn]. split; [done| |done|done]. simpl in *. intros x Hx. apply Hfl. apply elem_of_app in Hx as [Hx|Hx]; apply elem_of_app; [by left|by right; right]. }
  destruct (rights_ok_rows P f d d' t now (l1 ++ l2) Ht Hrows) as [Hr Hgone]; [by intros u; rewrite (gone_graph u d d' Hg)| |done|].
  { intros k r' _ Hp Hq. by apply (Hf k r' t). }
  split; [split; simpl; [done| |done|done]|].
  - apply (flights_rows P f d d' t now (l1 ++ l2) Ht Hrows); [|apply Hok'|apply Hok']. intros k r' _ Hp _ Hin. destruct (HP k r' Hp) as [-> _]. done.
  - apply (settled_rows P f _ _ Hrows). intros k r' _ Hp. apply not_final. unfold Cancellable. apply bool_decide_true. destruct (HP k r' Hp) as [_ ->]. by right; left.
Qed.
Lemma crash_ok l' d l t : l' ⊆+ l → rights_ok (MkRightsWorld d l t) → rights_ok (MkRightsWorld d l' t).
Proof.
  intros Hsub [Hreq Hfl Honce Hg]. split; simpl in *; [done| | |done].
  - intros x Hx. apply Hfl. by eapply elem_of_submseteq.
  - apply submseteq_Permutation in Hsub as [k Hk]. rewrite Hk, fmap_app, NoDup_app in Honce. by destruct Honce.
Qed.
Lemma step_ok w w' : rights_step w w' → rights_ok w → rights_ok w' ∧ settled (rw_db w) (rw_db w').
Proof.
  intros Hstep Hok. destruct Hstep as [old now id u kind res d d' l t Ht Hrun|now p i d l t Ht|now locked limit d l t Ht|tn id r l1 l2 d t Ht
    |now id r outcome l1 l2 d t Ht|l' d l t Hsub|d' now d l t Ht [Hreq Hgone]]; simpl.
  - by eapply ask_ok.
  - by apply withdraw_ok with t.
  - by apply claim_ok with t.
  - by apply run_ok with t.
  - by apply settle_ok with t.
  - split; [by eapply crash_ok|reflexivity].
  - split.
    + destruct Hok as [Hr Hfl Honce Hg]. simpl in *. split; simpl.
      * intros i r. rewrite Hreq. intros Hi. by eapply later_ok, Hr.
      * intros x Hx. destruct (later_flight _ _ now x Ht (Hfl x Hx)) as (r & Hr' & Hrest). exists r. by rewrite Hreq.
      * done.
      * intros u (i & r & Hi & Hu & Hty & Hle)%Hgone%Hg. exists i, r. rewrite Hreq. repeat split; auto. lia.
    + intros i r Hi _. by rewrite Hreq.
Qed.

(** C29: A deletion waits its week, and what is settled stays settled.  Whatever requests are
    made, withdrawn, claimed, carried out, recorded, retried or lost by workers that crash, in
    any order and with checks that read stale states: an account is only ever found deleted when
    its owner asked for that at least seven days before; a request is in the hands of one worker
    at a time and its row is then in progress or withdrawn; and a request that is ready,
    completed or withdrawn never changes again. *)
Theorem deletion_waits_its_week w w' : rights_ok w → rtc rights_step w w' →
  rights_ok w' ∧ settled (rw_db w) (rw_db w') ∧
  (∀ u, gone u (rw_db w') = true → ∃ id r, data_requests (rw_db w') !! id = Some r ∧ rq_UserID r = u ∧ rq_Type r = TypeDelete ∧
     rq_CreatedAt r + DeletionDelay <= rw_clock w') ∧
  NoDup (fl_id <$> rw_flights w').
Proof.
  intros Hok Hsteps. assert (rights_ok w' ∧ settled (rw_db w) (rw_db w')) as [Hok' Hset].
  { induction Hsteps as [|w1 w2 w3 Hstep _ IH]; [split; [done|reflexivity]|]. destruct (step_ok _ _ Hstep Hok) as [Hok2 Hs12].
    destruct (IH Hok2) as [Hok3 Hs23]. split; [done|]. by transitivity (rw_db w2). }
  split; [done|]. split; [done|]. split; [by apply (ro_gone _ Hok')|by apply (ro_once _ Hok')].
Qed.

(** The loop of the worker is made of the machine's steps. *)
Lemma carry_out_each_steps turns between due l n d t : (∀ id b d, elsewhere d (between id b d)) →
  Forall (λ r, t <= tn_now (turns r.1)) due → StronglySorted (λ a b, tn_now (turns a.1) <= tn_now (turns b.1)) due →
  ∃ t', rtc rights_step (MkRightsWorld d (((λ r, MkFlight r.1 r.2 None) <$> due) ++ l) t)
    (MkRightsWorld (carry_out_each stamp marshal turns between due n d).2 l t').
Proof.
  intros Hb. revert n d t. induction due as [|[id r] due IH]; intros n d t Ht Hs; [by exists t|].
  apply StronglySorted_inv in Hs as [Hs Hall]. apply Forall_cons in Ht as [Ht _]. simpl in *. set (now := tn_now (turns id)) in *.
  destruct (carry_out stamp marshal (turns id) r (between id false d)) as [outcome d1] eqn:Hrun.
  destruct (IH (if outcome is Ok _ then n + 1 else n) (settle now id r outcome (between id true d1)) now) as [t' Hrest]; [done|done|].
  exists t'. eapply rtc_l; [apply (RightsElsewhere (between id false d) t); [lia|apply Hb]|].
  eapply rtc_l; [exact (RightsRun (turns id) id r [] (((λ r, MkFlight r.1 r.2 None) <$> due) ++ l) _ _ Ht)|]. rewrite Hrun. cbn [fst snd app].
  eapply rtc_l; [apply (RightsElsewhere (between id true d1) now); [fold now; lia|apply Hb]|].
  eapply rtc_l; [exact (RightsSettle now id r outcome [] (((λ r, MkFlight r.1 r.2 None) <$> due) ++ l) _ _ (Z.le_refl now))|]. exact Hrest.
Qed.
Lemma carryOutDataRequests_steps now locked turns between d t : t <= now → (∀ id b d, elsewhere d (between id b d)) →
  (let due := (ClaimDue now locked dataRequestBatch d).1 in
   Forall (λ r, now <= tn_now (turns r.1)) due ∧ StronglySorted (λ a b, tn_now (turns a.1) <= tn_now (turns b.1)) due) →
  ∃ t', rtc rights_step (MkRightsWorld d [] t) (MkRightsWorld (carryOutDataRequests stamp marshal true now locked turns between d).2 [] t').
Proof.
  intros Ht Hb [Hnow Hsorted]. unfold carryOutDataRequests. pose proof (RightsClaim now locked dataRequestBatch d [] t Ht) as Hclaim.
  destruct (ClaimDue now locked dataRequestBatch d) as [due d'] eqn:Hdue. cbn [fst snd negb app] in *.
  destruct (carry_out_each_steps turns between due [] 0 d' now Hb Hnow Hsorted) as [t' Hrun]. exists t'.
  rewrite app_nil_r in Hrun. by eapply rtc_l.
Qed.

(** ** What is left of an account *)

(** Nothing of [u] is left in [d']. *)
Record emptied (now : time) (hash : list N) (u : uuid) (d d' : rightsdb) : Prop := {
  em_account : ∀ a', Social.accounts (rg_graph d') !! u = Some a' →
    ac_username a' = None ∧ ac_phone_number a' = deleted_phone u ∧ ac_phone_hash a' = hash ∧ ac_status a' = "deleted"%string ∧ ac_deleted_at a' = Some now;
  em_secrets : ∀ a', AuthStore.accounts (rg_auth d') !! u = Some a' → ∃ a, AuthStore.accounts (rg_auth d) !! u = Some a ∧
    a_phone_number a' = deleted_phone u ∧ a_phone_hash a' = hash ∧ a_password_hash a' = None ∧ a_email a' = None ∧ a_recovery_email a' = None ∧
    a_status a' = "deleted"%string ∧ a_token_version a' = a_token_version a + 1;
  em_profile : ∀ p, profiles (rg_graph d') !! u = Some p → pr_display_name p = ""%string ∧ pr_about p = ""%string ∧ pr_avatar p = None ∧ pr_birthday p = None;
  em_contacts : ∀ v w, u = v ∨ u = w → address_book (rg_graph d') !! (v, w) = None ∧ blocked_users (rg_graph d') !! (v, w) = None;
  em_requests : ∀ i r, contact_requests (rg_graph d') !! i = Some r → cr_requester r ≠ u ∧ cr_target r ≠ u;
  em_privacy : ∀ k, privacy (rg_graph d') !! (u, k) = None;
  em_push : ∀ i t, rg_push d' !! i = Some t → pu_user t ≠ u;
  em_folders : ∀ i f, chat_folders (rg_organise d') !! i = Some f → fo_owner f ≠ u;
  em_keys : ∀ i k, rg_identities d' !! i = Some k → ik_user_id k ≠ u;
  em_prekeys : ∀ i k dev, rg_prekeys d' !! i = Some k → devices (core (rg_auth d)) !! pk_device_id k = Some dev → d_user_id dev ≠ u;
  em_sessions : ∀ i s, sessions (rg_auth d') !! i = Some s → se_user_id s = u → is_Some (se_revoked_at s);
  em_devices : ∀ i v, devices (core (rg_auth d')) !! i = Some v → d_user_id v = u → is_Some (d_revoked_at v);
  em_chats : ∀ c m, chat_members (core (rg_auth d')) !! (c, u) = Some m → is_Some (m_left_at m);
}.
(** Everybody else's rows, and what was said, are as they were. *)
Record spared (u : uuid) (d d' : rightsdb) : Prop := {
  sp_account : ∀ v, v ≠ u → Social.accounts (rg_graph d') !! v = Social.accounts (rg_graph d) !! v ∧
    AuthStore.accounts (rg_auth d') !! v = AuthStore.accounts (rg_auth d) !! v ∧ profiles (rg_graph d') !! v = profiles (rg_graph d) !! v;
  sp_contacts : ∀ v w, v ≠ u → w ≠ u → address_book (rg_graph d') !! (v, w) = address_book (rg_graph d) !! (v, w) ∧
    blocked_users (rg_graph d') !! (v, w) = blocked_users (rg_graph d) !! (v, w);
  sp_sessions : ∀ i s, sessions (rg_auth d) !! i = Some s → se_user_id s ≠ u → sessions (rg_auth d') !! i = Some s;
  sp_chats : ∀ c v, v ≠ u → chat_members (core (rg_auth d')) !! (c, v) = chat_members (core (rg_auth d)) !! (c, v);
  sp_messages : messages (core (rg_auth d')) = messages (core (rg_auth d)) ∧ chats (core (rg_auth d')) = chats (core (rg_auth d));
}.
Lemma lookup_delete_where_clear {K V} `{Countable K} (P : K → V → bool) (m : gmap K V) k v :
  delete_where P m !! k = Some v → m !! k = Some v ∧ P k v = false.
Proof. intros Hk. by apply lookup_delete_where_Some in Hk. Qed.
Lemma delete_where_gone {K V} `{Countable K} (P : K → V → bool) (m : gmap K V) k : (∀ v, P k v = true) → delete_where P m !! k = None.
Proof. intros HP. destruct (delete_where P m !! k) as [v|] eqn:Hk; [|done]. apply lookup_delete_where_clear in Hk as [_ Hf]. by rewrite HP in Hf. Qed.
Lemma delete_where_spared {K V} `{Countable K} (P : K → V → bool) (m : gmap K V) k : (∀ v, P k v = false) → delete_where P m !! k = m !! k.
Proof.
  intros HP. destruct (m !! k) as [v|] eqn:Hk.
  - apply lookup_delete_where_Some. by rewrite HP.
  - destruct (delete_where P m !! k) as [v|] eqn:Hd; [|done]. apply lookup_delete_where_clear in Hd as [Hd _]. congruence.
Qed.
Lemma involves_true u v w : u = v ∨ u = w → involves u (v, w) = true.
Proof. unfold involves. simpl. intros [<-|<-]; rewrite (bool_decide_true (u = u)) by done; [done|apply orb_true_r]. Qed.
Lemma involves_false u v w : v ≠ u → w ≠ u → involves u (v, w) = false.
Proof. intros Hv Hw. unfold involves. simpl. by rewrite !bool_decide_false. Qed.
Lemma Delete_empties now hash u d : emptied now hash u d (Delete now hash u d).
Proof.
  split.
  - intros a'. rewrite Delete_accounts, lookup_alter_eq, fmap_Some. by intros (a & _ & ->).
  - intros a' Ha'. change (alter (λ r, AuthStore.MkAccount (deleted_phone u) hash "deleted" false None None (a_token_version r + 1) None None None (a_created_at r)) u
      (AuthStore.accounts (rg_auth d)) !! u = Some a') in Ha'. rewrite lookup_alter_eq, fmap_Some in Ha'. destruct Ha' as (a & Ha & ->). by exists a.
  - intros p Hp. change (alter blank_profile u (profiles (rg_graph d)) !! u = Some p) in Hp. rewrite lookup_alter_eq, fmap_Some in Hp. by destruct Hp as (q & _ & ->).
  - intros v w Hvw. split.
    + change (delete_where (λ k _, involves u k) (address_book (rg_graph d)) !! (v, w) = None). apply delete_where_gone. intros _. by apply involves_true.
    + change (delete_where (λ k _, involves u k) (blocked_users (rg_graph d)) !! (v, w) = None). apply delete_where_gone. intros _. by apply involves_true.
  - intros i r Hr. change (delete_where (λ _ r, involves u (cr_requester r, cr_target r)) (contact_requests (rg_graph d)) !! i = Some r) in Hr.
    apply lookup_delete_where_clear in Hr as [_ Hf]. unfold involves in Hf. simpl in Hf. apply orb_false_iff in Hf as [?%bool_decide_eq_false ?%bool_decide_eq_false]. done.
  - intros k. change (delete_where (λ k _, bool_decide (k.1 = u)) (privacy (rg_graph d)) !! (u, k) = None). apply delete_where_gone. intros _. by rewrite bool_decide_true.
  - intros i t Ht. change (delete_where (λ _ t, bool_decide (pu_user t = u)) (rg_push d) !! i = Some t) in Ht.
    by apply lookup_delete_where_clear in Ht as [_ Hf%bool_decide_eq_false].
  - intros i f Hf Ho. change (delete_where (λ k _, bool_decide (fo_owner <$> chat_folders (rg_organise d) !! k = Some u)) (chat_folders (rg_organise d)) !! i = Some f) in Hf.
    apply lookup_delete_where_clear in Hf as [Hf Hn%bool_decide_eq_false]. apply Hn. rewrite Hf. simpl. by rewrite Ho.
  - intros i k Hk. change (delete_where (λ _ r, bool_decide (ik_user_id r = u)) (rg_identities d) !! i = Some k) in Hk.
    by apply lookup_delete_where_clear in Hk as [_ Hf%bool_decide_eq_false].
  - intros i k dev Hk Hdev Ho. change (delete_where (λ _ r, device_of u d (pk_device_id r)) (rg_prekeys d) !! i = Some k) in Hk.
    apply lookup_delete_where_clear in Hk as [_ Hf%bool_decide_eq_false]. apply Hf. rewrite Hdev. simpl. by rewrite Ho.
  - intros i s Hs Ho. change (update_where (λ _ s, bool_decide (se_user_id s = u) && (if se_revoked_at s is None then true else false))
      (λ _ s, with_se_revoked_reason (Some "account_deleted"%string) (with_se_revoked_at (Some now) s)) (sessions (rg_auth d)) !! i = Some s) in Hs.
    rewrite lookup_update_where, fmap_Some in Hs. destruct Hs as (s0 & _ & ->). destruct (se_revoked_at s0) as [t|] eqn:Hr.
    + rewrite andb_false_r in *. rewrite Hr. by eexists.
    + rewrite andb_true_r in *. case_bool_decide; [by eexists|done].
  - intros i v Hv Ho. change (update_where (λ _ r, bool_decide (d_user_id r = u) && (if d_revoked_at r is None then true else false))
      (λ _ r, MkDevice (d_user_id r) (d_sync_cursor r) (Some now)) (devices (core (rg_auth d))) !! i = Some v) in Hv.
    rewrite lookup_update_where, fmap_Some in Hv. destruct Hv as (v0 & _ & ->). destruct (d_revoked_at v0) as [t|] eqn:Hr.
    + rewrite andb_false_r in *. rewrite Hr. by eexists.
    + rewrite andb_true_r in *. case_bool_decide; [by eexists|done].
  - intros c m Hm. change (update_where (λ k m, bool_decide (k.2 = u) && (if m_left_at m is None then true else false)) (λ _, with_m_left_at (Some now))
      (chat_members (core (rg_auth d))) !! (c, u) = Some m) in Hm.
    rewrite lookup_update_where, fmap_Some in Hm. destruct Hm as (m0 & _ & ->). simpl. rewrite bool_decide_true by done. destruct (m_left_at m0) as [t|] eqn:Hr; simpl; [rewrite Hr|]; by eexists.
Qed.

Lemma Delete_spares now hash u d : spared u d (Delete now hash u d).
Proof.
  split.
  - intros v Hv. split; [by rewrite Delete_accounts, lookup_alter_ne by done|]. split.
    + change (alter (λ r, AuthStore.MkAccount (deleted_phone u) hash "deleted" false None None (a_token_version r + 1) None None None (a_created_at r)) u
        (AuthStore.accounts (rg_auth d)) !! v = AuthStore.accounts (rg_auth d) !! v). by rewrite lookup_alter_ne.
    + change (alter blank_profile u (profiles (rg_graph d)) !! v = profiles (rg_graph d) !! v). by rewrite lookup_alter_ne.
  - intros v w Hv Hw. split.
    + change (delete_where (λ k _, involves u k) (address_book (rg_graph d)) !! (v, w) = address_book (rg_graph d) !! (v, w)).
      apply delete_where_spared. intros _. by apply involves_false.
    + change (delete_where (λ k _, involves u k) (blocked_users (rg_graph d)) !! (v, w) = blocked_users (rg_graph d) !! (v, w)).
      apply delete_where_spared. intros _. by apply involves_false.
  - intros i s Hs Hu. change (update_where (λ _ s, bool_decide (se_user_id s = u) && (if se_revoked_at s is None then true else false))
      (λ _ s, with_se_revoked_reason (Some "account_deleted"%string) (with_se_revoked_at (Some now) s)) (sessions (rg_auth d)) !! i = Some s).
    rewrite lookup_update_where, Hs. simpl. by rewrite bool_decide_false.
  - intros c v Hv. change (update_where (λ k m, bool_decide (k.2 = u) && (if m_left_at m is None then true else false)) (λ _, with_m_left_at (Some now))
      (chat_members (core (rg_auth d))) !! (c, v) = chat_members (core (rg_auth d)) !! (c, v)).
    rewrite lookup_update_where. destruct (chat_members _ !! (c, v)); [|done]. simpl. by rewrite bool_decide_false.
  - done.
Qed.

(** C30: An account that is deleted is emptied, and nobody else is touched.  What identified its
    owner is gone: the handle, the number and its hash, the password and addresses, the profile,
    contacts and blocks in both directions, requests, privacy rules, push tokens, folders and
    key material; every session and device is revoked, every chat left, and the token version
    moved on.  Everybody else's accounts, sessions, contacts and memberships, and every message,
    are as they were.  The number can be registered again: nobody holds it. *)
Theorem a_deleted_account_is_emptied now hash u d a :
  AuthStore.accounts (rg_auth d) !! u = Some a →
  (∀ v b, AuthStore.accounts (rg_auth d) !! v = Some b → a_phone_number b = a_phone_number a → v = u) →
  a_phone_number a ≠ deleted_phone u →
  let d' := Delete now hash u d in
  emptied now hash u d d' ∧ spared u d d' ∧
  (∀ v b, AuthStore.accounts (rg_auth d') !! v = Some b → a_phone_number b ≠ a_phone_number a) ∧
  data_requests d' = data_requests d.
Proof.
  intros Ha Huniq Hphone d'. split; [apply Delete_empties|]. split; [apply Delete_spares|]. split; [|done].
  intros v b Hb Heq. destruct (decide (v = u)) as [->|Hne].
  - destruct (em_secrets _ _ _ _ _ (Delete_empties now hash u d) b Hb) as (_ & _ & Hp & _). congruence.
  - apply Hne, (Huniq v b); [|done]. rewrite <-Hb. symmetry. by apply (Delete_spares now hash u d).
Qed.
End theory.

(** ** A week later *)

Definition plain_time (t : time) : string := Itoa t.
Definition plain_json (_ : json) : string := "{}".
Definition no_db : db := MkDb ∅ ∅ ∅ ∅ ∅ ∅ ∅ ∅ ∅ ∅ ∅ ∅ ∅ [] ∅ ∅ ∅ ∅ ∅ ∅ ∅ ∅ ∅ ∅ ∅ ∅.
Definition rights_graph : socialdb :=
  MkSocialDb (<[1%N := Social.MkAccount (Some "ann01"%string) "+1" [1%N] "active" false false None None None]>
      {[2%N := Social.MkAccount (Some "ben02"%string) "+2" [2%N] "active" false false None None None]})
    {[1%N := MkProfileRow "Ann" "" None None "fa"]} {[(2%N, 1%N) := MkContactRow "Ann" "" false 0]} ∅ ∅ ∅ ∅.
Definition rights_auth : authdb :=
  MkAuthDb (Store.with_chat_members {[(7%N, 1%N) := MkMember "owner" None "" 0 0 0 0 "" 0 None None None None 0]} no_db)
    (<[1%N := AuthStore.MkAccount "+1" [1%N] "active" false (Some "hash"%string) None 3 None None None 0]>
      {[2%N := AuthStore.MkAccount "+2" [2%N] "active" false None None 0 None None None 0]}) ∅ ∅ ∅ ∅
    {[5%N := MkSession 1 9 [] 100 None None None 0 0 ""]} ∅ ∅ [] [] ∅.
Definition rights0 : rightsdb := MkRightsDb ∅ rights_auth rights_graph (MkOrganiseDb ∅ ∅ ∅ ∅) ∅ ∅ ∅ ∅ ∅ ∅.
Definition ann : Principal := MkPrincipal 1 9 5 "" [] [].
Definition week : time := DeletionDelay.
Definition asked : rightsdb := (handle_create 10 70 id (Some ann) (MkBody "" (Ok TypeDelete) true) rights0).2.
Definition turn_at (now : time) : turn := MkTurn now 80 [7%N; 7%N] true None.
Definition worker_at (now : time) (between : uuid → bool → rightsdb → rightsdb) (d : rightsdb) : rightsdb :=
  (carryOutDataRequests plain_time plain_json true now ∅ (λ _, turn_at now) between d).2.
Definition request_status (id : uuid) (d : rightsdb) : option string := rq_Status <$> data_requests d !! id.
Example a_week_passes :
  (request_status 70 (worker_at week (λ _ _ d, d) asked), gone 1 (worker_at week (λ _ _ d, d) asked)) = (Some StatusPending, false) ∧
  (request_status 70 (worker_at (week + 10) (λ _ _ d, d) asked), gone 1 (worker_at (week + 10) (λ _ _ d, d) asked)) = (Some StatusCompleted, true).
Proof. vm_compute. done. Qed.
Lemma rights0_ok : rights_ok (MkRightsWorld rights0 [] 0).
Proof.
  split; simpl; [intros i r; by rewrite lookup_empty|by intros f ?%elem_of_nil|constructor|].
  intros u Hu. unfold gone in Hu. simpl in Hu. destruct (decide (u = 1%N)) as [->|H1]; [discriminate Hu|].
  rewrite lookup_insert_ne in Hu by done. destruct (decide (u = 2%N)) as [->|H2]; [discriminate Hu|]. by rewrite lookup_singleton_ne in Hu.
Qed.
Lemma deletion_waits_its_week_witness :
  let w := MkRightsWorld asked [] 10 in
  rtc (rights_step plain_time plain_json) (MkRightsWorld rights0 [] 0) w ∧ rights_ok w ∧ request_status 70 (rw_db w) = Some StatusPending.
Proof.
  assert (rtc (rights_step plain_time plain_json) (MkRightsWorld rights0 [] 0) (MkRightsWorld asked [] 10)) as Hstep.
  { apply rtc_once. apply (RightsAsk plain_time plain_json rights0 10 70 1 TypeDelete (70%N, new_request 10 1 TypeDelete (10 + DeletionDelay))); [lia|].
    vm_compute. reflexivity. }
  split; [exact Hstep|]. split; [|vm_compute; reflexivity].
  exact (proj1 (deletion_waits_its_week plain_time plain_json _ _ rights0_ok Hstep)).
Defined.
Lemma a_deleted_account_is_emptied_witness :
  let d' := Delete (week + 10) [7%N] 1 rights0 in
  emptied (week + 10) [7%N] 1 rights0 d' ∧ spared 1 rights0 d' ∧
  (∀ v b, AuthStore.accounts (rg_auth d') !! v = Some b → a_phone_number b ≠ "+1"%string) ∧ data_requests d' = data_requests rights0.
Proof.
  apply (a_deleted_account_is_emptied (week + 10) [7%N] 1 rights0 (AuthStore.MkAccount "+1" [1%N] "active" false (Some "hash"%string) None 3 None None None 0)).
  - vm_compute. reflexivity.
  - intros v b. simpl. intros [[<- _]|[_ Hb]]%lookup_insert_Some; [reflexivity|]. apply lookup_singleton_Some in Hb as [_ <-]. intros Hp. discriminate Hp.
  - intros Hp. vm_compute in Hp. discriminate Hp.
Defined.

(** ** What modelling showed *)

(** Withdrawing a deletion the worker has claimed is granted, and the account goes all the
    same. *)
Definition withdraw_meanwhile (id : uuid) (after : bool) (d : rightsdb) : rightsdb :=
  if after then d else (handle_cancel (week + 10) (Some ann) (Some id) d).2.
Example a_withdrawn_deletion_is_carried_out :
  (handle_cancel (week + 10) (Some ann) (Some 70%N) (ClaimDue (week + 10) ∅ 20 asked).2).1 = Ok () ∧
  (let d := worker_at (week + 10) withdraw_meanwhile asked in (request_status 70 d, gone 1 d)) = (Some StatusCancelled, true).
Proof. vm_compute. done. Qed.
(** A request whose worker died stays in progress: no worker claims it and its owner cannot ask
    again. *)
Example a_lost_request_is_stuck :
  let lost := (ClaimDue (week + 10) ∅ 20 asked).2 in
  request_status 70 (worker_at (52 * week) (λ _ _ d, d) lost) = Some StatusProcessing ∧
  (handle_create (52 * week) 71 id (Some ann) (MkBody "" (Ok TypeDelete) true) lost).1
    = Err (Conflict CodeConflict "You already have a request of that kind in progress").
Proof. vm_compute. done. Qed.
(** The check locks a row only when there is one: two requests made together both go through. *)
Example two_requests_both_pass :
  let d := (handle_create 10 70 (λ d, (handle_create 10 71 id (Some ann) (MkBody "" (Ok TypeExport) true) d).2) (Some ann)
              (MkBody "" (Ok TypeExport) true) rights0).2 in
  (request_status 70 d, request_status 71 d) = (Some StatusPending, Some StatusPending).
Proof. vm_compute. done. Qed.
(** The handle of a deleted account is not held back, as a released one is: anybody may take it
    at once. *)
Example a_deleted_handle_is_free :
  username_available 10 "ann01" 2 rights_graph = false ∧ username_available (week + 10) "ann01" 2 (rg_graph (Delete (week + 10) [7%N] 1 rights0)) = true.
Proof. vm_compute. done. Qed.
