(* ===== verification/Operators.v ===== *)
(** * The operators' desk ([internal/admin/admin.go])

    Role-based administration: the accounts' status, reports, bans, roles, flags, the audit log
    and the figures.  [admin_users] is the table of grants here, and its live rows, which is all
    sign-in reads of it, in [AuthStore]; [users] is seen by three components.  [ilike] is
    PostgreSQL's operator (the value, then the pattern), [day_of] the date of an instant in the
    database's zone, [inet] whether an address can be stored. *)

From stdpp Require Import base tactics list sorting gmap strings.
From Stdlib Require Import ZArith Lia.
From S2P Require Import Prelude Steps GoString Httpx Store RateLimit Ports Antispam Cache AuthStore Auth Social FeatureFlags Http News.

Set Default Goal Selector "!".
Open Scope Z_scope.

Definition PermUsersRead : string := "users.read".
Definition PermUsersWrite : string := "users.write".
Definition PermReportsRead : string := "reports.read".
Definition PermReportsWrite : string := "reports.write".
Definition PermBansWrite : string := "bans.write".
Definition PermFlagsWrite : string := "flags.write".
Definition PermAnalyticsRead : string := "analytics.read".
Definition PermAuditRead : string := "audit.read".

(** ** Data *)

(** [reports] and the Go [Report] *)
Record Report := MkReport {
  rp_ReporterID : option uuid;
  rp_TargetType : string;
  rp_TargetID : uuid;
  rp_Reason : string;
  rp_Detail : string;
  rp_Status : string;
  rp_AssignedTo : option uuid;
  rp_Resolution : string;
  rp_CreatedAt : time;
  rp_ResolvedAt : option time;
}.
(** The Go [Ban]; a row of [bans] also says when it was lifted. *)
Record Ban := MkBan {
  bn_UserID : option uuid;
  bn_ChatID : option uuid;
  bn_Scope : string;
  bn_Reason : string;
  bn_IssuedBy : option uuid;
  bn_ExpiresAt : option time;
  bn_CreatedAt : time;
}.
Record ban_row := MkBanRow { br_ban : Ban; br_lifted_at : option time }.
(** [audit_logs] *)
Record AuditEntry := MkAuditEntry {
  ae_ActorID : uuid;
  ae_ActorRole : string;
  ae_Action : string;
  ae_TargetType : string;
  ae_TargetID : string;
  ae_Detail : json;
  ae_IP : option string;
  ae_UserAgent : string;
  ae_CreatedAt : time;
}.
(** [admin_users] *)
Record grant_row := MkGrant { gr_granted_by : uuid; gr_granted_at : time; gr_revoked_at : option time }.
(** The columns of [media] the figures read. *)
Record stored_row := MkStored { st_size_bytes : Z; st_deleted_at : option time }.

Record UserSummary := MkUserSummary {
  um_ID : uuid;
  um_PhoneMasked : string;
  um_Username : option string;
  um_DisplayName : string;
  um_Status : string;
  um_IsBot : bool;
  um_DeviceCount : Z;
  um_ChatCount : Z;
  um_MessageCount : Z;
  um_CreatedAt : time;
  um_LastSeenAt : option time;
  um_AdminRoles : list string;
}.
Record Dashboard := MkDashboard {
  db_Users_Total : Z; db_Users_Active : Z; db_Users_Banned : Z; db_Users_NewToday : Z; db_Users_DailyActive : Z;
  db_Messages_Total : Z; db_Messages_Today : Z;
  db_Chats_Private : Z; db_Chats_Groups : Z; db_Chats_Channels : Z;
  db_Media_Objects : Z; db_Media_TotalBytes : Z;
  db_News_Published : Z; db_News_Drafts : Z; db_News_Views : Z;
  db_OpenReports : Z; db_ActiveBans : Z;
}.

Record admin_world (L : Type) := MkAdminWorld {
  am_auth : auth_world L;
  am_graph : socialdb;
  am_operators : gmap (uuid * string) grant_row;
  am_reports : gmap uuid Report;
  am_bans : gmap uuid ban_row;
  am_audit : gmap uuid AuditEntry;
  am_spam : spam_scores;
  am_flags : system;
  am_media : gmap uuid stored_row;
  am_news : newsdb;
}.
Arguments MkAdminWorld {L}.
Arguments am_auth {L}.
Arguments am_graph {L}.
Arguments am_operators {L}.
Arguments am_reports {L}.
Arguments am_bans {L}.
Arguments am_audit {L}.
Arguments am_spam {L}.
Arguments am_flags {L}.
Arguments am_media {L}.
Arguments am_news {L}.

Inductive adminerr := AdminNotFound | ErrUnknownMetric | AdminDatabase.

(** What surrounds a request: the clock, the two ids it may draw, whether the audit statement
    reaches the database, and the node that serves it. *)
Record call := MkCall { cl_now : time; cl_id : uuid; cl_audit : uuid; cl_audit_up : bool; cl_node : N }.
(** [actor] *)
Record actor := MkActor { ac_principal : Principal; ac_ip : string; ac_user_agent : string }.

Definition maskPhone (phone : string) : string :=
  let bs := bytes_of phone in
  if (Z.of_nat (length bs) <? 8) then "***"
  else string_of (take 6 bs) +:+ "***" +:+ string_of (drop (length bs - 4) bs).
Definition live_grant (_ : uuid * string) (g : grant_row) : bool := if gr_revoked_at g is None then true else false.
Definition live_grants (t : gmap (uuid * string) grant_row) : list (uuid * string) := (rows_where live_grant t).*1.

Section desk.
Context {L : Type} (ilike : string → string → bool) (day_of : time → Z) (inet : string → bool).
Implicit Types (w : admin_world L).

Definition with_am_auth (v : auth_world L) w := MkAdminWorld v (am_graph w) (am_operators w) (am_reports w) (am_bans w) (am_audit w) (am_spam w) (am_flags w) (am_media w) (am_news w).
Definition with_am_graph v w : admin_world L := MkAdminWorld (am_auth w) v (am_operators w) (am_reports w) (am_bans w) (am_audit w) (am_spam w) (am_flags w) (am_media w) (am_news w).
Definition with_am_operators v w : admin_world L := MkAdminWorld (am_auth w) (am_graph w) v (am_reports w) (am_bans w) (am_audit w) (am_spam w) (am_flags w) (am_media w) (am_news w).
Definition with_am_reports v w : admin_world L := MkAdminWorld (am_auth w) (am_graph w) (am_operators w) v (am_bans w) (am_audit w) (am_spam w) (am_flags w) (am_media w) (am_news w).
Definition with_am_bans v w : admin_world L := MkAdminWorld (am_auth w) (am_graph w) (am_operators w) (am_reports w) v (am_audit w) (am_spam w) (am_flags w) (am_media w) (am_news w).
Definition with_am_audit v w : admin_world L := MkAdminWorld (am_auth w) (am_graph w) (am_operators w) (am_reports w) (am_bans w) v (am_spam w) (am_flags w) (am_media w) (am_news w).
Definition with_am_spam v w : admin_world L := MkAdminWorld (am_auth w) (am_graph w) (am_operators w) (am_reports w) (am_bans w) (am_audit w) v (am_flags w) (am_media w) (am_news w).
Definition with_am_flags v w : admin_world L := MkAdminWorld (am_auth w) (am_graph w) (am_operators w) (am_reports w) (am_bans w) (am_audit w) (am_spam w) v (am_media w) (am_news w).

Definition authdb_of w : authdb := aw_db (am_auth w).
Definition coredb_of w : db := core (authdb_of w).
Definition on_authdb (f : authdb → authdb) w : admin_world L := with_am_auth (set_aw_db (f (authdb_of w)) (am_auth w)) w.
Definition known_user w (u : uuid) : bool := bool_decide (is_Some (AuthStore.accounts (authdb_of w) !! u)).
Definition known_chat w (c : uuid) : bool := bool_decide (is_Some (chats (coredb_of w) !! c)).
(** A nullable foreign key. *)
Definition fits (known : uuid → bool) (o : option uuid) : bool := from_option known true o.

Abbreviation statement := (prog (admin_world L) adminerr) (only parsing).
Abbreviation handler := (prog (admin_world L) Error) (only parsing).

(** ** Repository *)

(** [LIMIT] and [OFFSET]; a negative offset is an error of the database. *)
Definition page {A} (limit offset : Z) (rows : admin_world L → list A) : statement (list A) := λ w,
  if offset <? 0 then (Err AdminDatabase, w) else (Ok (take (Z.to_nat limit) (drop (Z.to_nat offset) (rows w))), w).

Definition nullableIP (ip : string) : option string := if bool_decide (ip = ""%string) then None else Some ip.
Definition Audit (c : call) (e : AuditEntry) : statement () := λ w,
  if negb (cl_audit_up c) || negb (known_user w (ae_ActorID e)) || negb (from_option inet true (ae_IP e))
     || bool_decide (is_Some (am_audit w !! cl_audit c))
  then (Err AdminDatabase, w) else (Ok (), with_am_audit (<[cl_audit c := e]> (am_audit w)) w).
Definition AuditLog (action : string) (actorID : option uuid) (limit offset : Z) : statement (list (uuid * AuditEntry)) :=
  page limit offset (λ w, order_by_desc (λ e, ae_CreatedAt e.2) (rows_where (λ _ e,
    (bool_decide (action = ""%string) || bool_decide (ae_Action e = action))
    && from_option (λ a, bool_decide (ae_ActorID e = a)) true actorID) (am_audit w))).

Definition summary w (u : uuid) (a : AuthStore.account_row) : UserSummary :=
  let pub := users (coredb_of w) !! u in
  MkUserSummary u (maskPhone (a_phone_number a)) (pub ≫= u_username) (default "" (pub ≫= u_display_name)) (a_status a)
    (from_option u_is_bot false pub)
    (count_where (λ _ d, bool_decide (d_user_id d = u) && (if d_revoked_at d is None then true else false)) (devices (coredb_of w)))
    (count_where (λ k m, bool_decide (k.2 = u) && (if m_left_at m is None then true else false)) (chat_members (coredb_of w)))
    (count_where (λ _ m, bool_decide (r_sender_id m = Some u)) (messages (coredb_of w)))
    (a_created_at a) (Social.accounts (am_graph w) !! u ≫= ac_last_seen_at)
    (snd <$> filter (λ k, k.1 = u) (live_grants (am_operators w))).
Definition matches w (query : string) (u : uuid) (a : AuthStore.account_row) : bool :=
  let like v := ilike v ("%" +:+ query +:+ "%") in
  let pub := users (coredb_of w) !! u in
  bool_decide (query = ""%string) || from_option like false (pub ≫= u_username) || from_option like false (pub ≫= u_display_name)
  || bool_decide (a_phone_number a = query).
Definition SearchUsers (query status : string) (limit offset : Z) : statement (list UserSummary) :=
  page limit offset (λ w, (λ r, summary w r.1 r.2) <$> order_by_desc (λ r, a_created_at r.2) (rows_where (λ u a,
    matches w query u a && (bool_decide (status = ""%string) || bool_decide (a_status a = status)))
    (AuthStore.accounts (authdb_of w)))).

(** The [users] row, in the two places that hold its status. *)
Definition set_graph_status (u : uuid) (status : string) (g : socialdb) : socialdb :=
  Social.with_accounts (update_where (λ k _, bool_decide (k = u)) (λ _ a,
    Social.MkAccount (ac_username a) (ac_phone_number a) (ac_phone_hash a) status (ac_is_bot a) (ac_two_step_enabled a)
      (ac_two_step_hint a) (ac_last_seen_at a) (ac_deleted_at a)) (Social.accounts g)) g.
Definition set_status (u : uuid) (status : string) w : admin_world L :=
  with_am_graph (set_graph_status u status (am_graph w))
    (on_authdb (update_account u (λ a, with_a_status status (with_a_token_version (a_token_version a + 1) a))) w).
Definition revoke_sessions_of (now : time) (u : uuid) (status : string) (d : authdb) : authdb :=
  with_sessions (update_where (λ _ s, bool_decide (se_user_id s = u) && live_session s)
    (λ _, revoke_row now (Some ("account_" +:+ status))) (sessions d)) d.
Definition revoke_devices_of (now : time) (u : uuid) (d : authdb) : authdb :=
  with_core (with_devices (update_where (λ _ r, bool_decide (d_user_id r = u) && (if d_revoked_at r is None then true else false))
    (λ _ r, MkDevice (d_user_id r) (d_sync_cursor r) (Some now)) (devices (core d))) (core d)) d.
Definition SetUserStatus (now : time) (userID : uuid) (status : string) : statement () :=
  in_tx (
    known ← gets (λ w, known_user w userID);
    modify (set_status userID status);;
    fail_if (negb known) AdminNotFound;;
    if bool_decide (status = "banned"%string) || bool_decide (status = "deleting"%string)
    then modify (on_authdb (revoke_sessions_of now userID status));; modify (on_authdb (revoke_devices_of now userID))
    else mret ()).

Definition Reports (status : string) (limit offset : Z) : statement (list (uuid * Report)) :=
  page limit offset (λ w, order_by_desc (λ r, rp_CreatedAt r.2)
    (rows_where (λ _ r, bool_decide (status = ""%string) || bool_decide (rp_Status r = status)) (am_reports w))).
Definition CreateReport (c : call) (reporterID : uuid) (targetType : string) (targetID : uuid) (reason detail : string)
    : statement uuid := λ w,
  if negb (known_user w reporterID) || bool_decide (is_Some (am_reports w !! cl_id c)) then (Err AdminDatabase, w)
  else (Ok (cl_id c), with_am_reports (<[cl_id c := MkReport (Some reporterID) targetType targetID reason detail "open" None ""
                        (cl_now c) None]> (am_reports w)) w).
(** [None] when there is no such message, otherwise who wrote it, if anybody. *)
Definition MessageAuthor (messageID : uuid) w : option (option uuid) := r_sender_id <$> messages (coredb_of w) !! messageID.
Definition unresolved (_ : uuid) (r : Report) : bool := bool_decide (rp_Status r ∈ ["open"; "reviewing"]%string).
Definition ResolveReport (now : time) (reportID resolverID : uuid) (status resolution : string) : statement () := λ w,
  if hits unresolved (am_reports w) reportID then
    if known_user w resolverID then
      (Ok (), with_am_reports (update_where (λ k r, bool_decide (k = reportID) && unresolved k r) (λ _ r,
         MkReport (rp_ReporterID r) (rp_TargetType r) (rp_TargetID r) (rp_Reason r) (rp_Detail r) status (Some resolverID) resolution
           (rp_CreatedAt r) (Some now)) (am_reports w)) w)
    else (Err AdminDatabase, w)
  else (Err AdminNotFound, w).

Definition CreateBan (c : call) (b : Ban) : statement uuid := λ w,
  if negb (fits (known_user w) (bn_UserID b)) || negb (fits (known_chat w) (bn_ChatID b)) || negb (fits (known_user w) (bn_IssuedBy b))
     || bool_decide (is_Some (am_bans w !! cl_id c))
  then (Err AdminDatabase, w)
  else (Ok (cl_id c), with_am_bans (<[cl_id c := MkBanRow (MkBan (bn_UserID b) (bn_ChatID b) (bn_Scope b) (bn_Reason b) (bn_IssuedBy b)
                        (bn_ExpiresAt b) (cl_now c)) None]> (am_bans w)) w).
Definition unlifted (_ : uuid) (r : ban_row) : bool := if br_lifted_at r is None then true else false.
Definition LiftBan (now : time) (banID : uuid) : statement () := λ w,
  if hits unlifted (am_bans w) banID
  then (Ok (), with_am_bans (update_where (λ k r, bool_decide (k = banID) && unlifted k r) (λ _ r, MkBanRow (br_ban r) (Some now)) (am_bans w)) w)
  else (Err AdminNotFound, w).
Definition active_ban (now : time) (k : uuid) (r : ban_row) : bool := unlifted k r && from_option (λ t, now <? t) true (bn_ExpiresAt (br_ban r)).
Definition Bans (now : time) (limit offset : Z) : statement (list (uuid * Ban)) :=
  page limit offset (λ w, order_by_desc (λ r, bn_CreatedAt r.2) ((λ r, (r.1, br_ban r.2)) <$> rows_where (active_ban now) (am_bans w))).

(** A change of [admin_users]: sign-in sees the live rows. *)
Definition set_operators (t : gmap (uuid * string) grant_row) w : admin_world L :=
  on_authdb (λ d, MkAuthDb (core d) (AuthStore.accounts d) (privacy_settings d) (notification_settings d) (otp_challenges d)
    (email_challenges d) (sessions d) (device_info d) (push_tokens d) (login_history d) (live_grants t) (admin_roles d))
    (with_am_operators t w).
Definition GrantRole (now : time) (userID : uuid) (roleKey : string) (grantedBy : uuid) : statement () := λ w,
  if known_user w userID && known_user w grantedBy && bool_decide (is_Some (admin_roles (authdb_of w) !! roleKey))
  then (Ok (), set_operators (<[(userID, roleKey) := MkGrant grantedBy now None]> (am_operators w)) w)
  else (Err AdminNotFound, w).
Definition RevokeRole (now : time) (userID : uuid) (roleKey : string) : statement () := λ w,
  if hits live_grant (am_operators w) (userID, roleKey)
  then (Ok (), set_operators (update_where (λ k g, bool_decide (k = (userID, roleKey)) && live_grant k g)
                 (λ _ g, MkGrant (gr_granted_by g) (gr_granted_at g) (Some now)) (am_operators w)) w)
  else (Err AdminNotFound, w).

(** ** Figures *)

Definition sum_of {A} (f : A → Z) (l : list A) : Z := foldr (λ a s, f a + s) 0 l.
Definition undeleted w (u : uuid) : bool := if users (coredb_of w) !! u ≫= u_deleted_at is None then true else false.
Definition is_today (now t : time) : bool := day_of now <=? day_of t.
Definition count_chats (type : string) w : Z :=
  count_where (λ _ c, bool_decide (c_type c = type) && (if c_deleted_at c is None then true else false)) (chats (coredb_of w)).
Definition Repo_Dashboard (now : time) w : Dashboard :=
  let accounts := AuthStore.accounts (authdb_of w) in
  let kept := rows_where (λ _ m, if st_deleted_at m is None then true else false) (am_media w) in
  MkDashboard
    (count_where (λ u _, undeleted w u) accounts)
    (count_where (λ u a, bool_decide (a_status a = "active"%string) && undeleted w u) accounts)
    (count_where (λ _ a, bool_decide (a_status a = "banned"%string)) accounts)
    (count_where (λ _ a, is_today now (a_created_at a)) accounts)
    (count_where (λ _ a, from_option (is_today now) false (ac_last_seen_at a)) (Social.accounts (am_graph w)))
    (count_where (λ _ _, true) (messages (coredb_of w)))
    (count_where (λ _ m, is_today now (r_created_at m)) (messages (coredb_of w)))
    (count_chats "private" w) (count_chats "group" w) (count_chats "channel" w)
    (Z.of_nat (length kept)) (sum_of (λ r, st_size_bytes r.2) kept)
    (count_where (λ _ a, bool_decide (na_status a = "published"%string)) (articles (am_news w)))
    (count_where (λ _ a, bool_decide (na_status a ∈ ["draft"; "review"]%string)) (articles (am_news w)))
    (sum_of (λ r, na_view_count r.2) (map_to_list (articles (am_news w))))
    (count_where unresolved (am_reports w))
    (count_where (active_ban now) (am_bans w)).

(** One point per day that has one, in order. *)
Definition daily (l : list (Z * Z)) : list (Z * Z) :=
  (λ d, (d, sum_of snd (filter (λ p, p.1 = d) l))) <$> order_by id (remove_dups l.*1).
Definition days_of (now : time) (days : Z) (l : list time) : list (Z * Z) :=
  daily ((λ t, (day_of t, 1)) <$> filter (λ t, day_of now - days <= day_of t) l).
Definition Repo_TimeSeries (now : time) (metric : string) (days : Z) : statement (list (Z * Z)) :=
  if bool_decide (metric = "new_users"%string)
  then gets (λ w, days_of now days (a_created_at <$> (map_to_list (AuthStore.accounts (authdb_of w))).*2))
  else if bool_decide (metric = "messages"%string)
  then gets (λ w, days_of now days (r_created_at <$> (map_to_list (messages (coredb_of w))).*2))
  else if bool_decide (metric = "active_users"%string)
  then gets (λ w, days_of now days (omap ac_last_seen_at (map_to_list (Social.accounts (am_graph w))).*2))
  else if bool_decide (metric = "news_views"%string)
  then gets (λ w, daily (filter (λ p, day_of now - days <= p.1)
              ((λ r : uuid * uuid * Z * Z, (r.1.2, r.2)) <$> map_to_list (article_views (am_news w)))))
  else fail ErrUnknownMetric.
End desk.

(** ** Service *)

(** [url.Values.Get] of the page, and the clamps of a limit *)
Definition clamp_limit (limit max fallback : Z) : Z := if (limit <=? 0) || (max <? limit) then fallback else limit.
Definition internal_admin (_ : adminerr) : Error := Internal.
Definition or_not_found (message : string) (e : adminerr) : Error :=
  match e with AdminNotFound => NotFound CodeNotFound message | _ => Internal end.

Section service.
Context {L : Type} (ilike : string → string → bool) (day_of : time → Z) (inet : string → bool).
Implicit Types (w : admin_world L) (c : call) (a : actor).
Abbreviation handler := (prog (admin_world L) Error) (only parsing).

(** [audit]: one that is not written is logged. *)
Definition audit_entry c a (action targetType targetID : string) (detail : json) : AuditEntry :=
  MkAuditEntry (prUserID (ac_principal a)) (default "" (head (prAdminRoles (ac_principal a)))) action targetType targetID detail
    (nullableIP (ac_ip a)) (ac_user_agent a) (cl_now c).
Definition audit c a (action targetType targetID : string) (detail : json) : handler () :=
  modify (λ w, (Audit inet c (audit_entry c a action targetType targetID detail) w).2).
(** [InvalidateUser], as the server wires it *)
Definition invalidate (userID : uuid) : handler () := zoom am_auth with_am_auth (InvalidateUserCache userID).

Definition Service_Dashboard c : handler Dashboard := gets (Repo_Dashboard day_of (cl_now c)).
Definition Service_TimeSeries c (metric : string) (days : Z) : handler (list (Z * Z)) :=
  map_err (λ e, match e with
      | ErrUnknownMetric => WithField (Validation "Unknown metric") "metric" "must be new_users, messages, active_users or news_views"
      | _ => Internal
      end) (Repo_TimeSeries day_of (cl_now c) metric (clamp_limit days 365 30)).
Definition Service_SearchUsers (query status : string) (limit offset : Z) : handler (list UserSummary) :=
  map_err internal_admin (SearchUsers ilike query status (clamp_limit limit 200 50) offset).

Definition own_status : Error := WithField (Validation "You cannot change your own account status") "user_id" "cannot target yourself".
Definition Service_SetUserStatus c a (userID : uuid) (status reason : string) : handler () :=
  fail_if (negb (bool_decide (status ∈ ["active"; "restricted"; "banned"]%string)))
    (WithField (Validation "Unsupported status") "status" "must be active, restricted or banned");;
  fail_if (bool_decide (userID = prUserID (ac_principal a))) own_status;;
  map_err (or_not_found "User not found") (SetUserStatus (cl_now c) userID status);;
  invalidate userID;;
  audit c a "user.status_changed" "user" (uuid_String userID) (JObj [("status", JStr status); ("reason", JStr reason)]%string).

Definition Service_Reports (status : string) (limit offset : Z) : handler (list (uuid * Report)) :=
  map_err internal_admin (Reports status (clamp_limit limit 200 50) offset).
Definition Service_ResolveReport c a (reportID : uuid) (status resolution : string) : handler () :=
  fail_if (negb (bool_decide (status ∈ ["reviewing"; "actioned"; "dismissed"]%string)))
    (WithField (Validation "Unsupported report status") "status" "must be reviewing, actioned or dismissed");;
  map_err (or_not_found "Report not found or already resolved")
    (ResolveReport (cl_now c) reportID (prUserID (ac_principal a)) status resolution);;
  audit c a "report.resolved" "report" (uuid_String reportID) (JObj [("status", JStr status); ("resolution", JStr resolution)]%string).

(** The ban as it is stored and whom it names, or what is wrong with it. *)
Definition admissible_ban c a (b : Ban) : handler (Ban * uuid) :=
  let stored chat user := (MkBan (Some user) chat (bn_Scope b) (bn_Reason b) (Some (prUserID (ac_principal a))) (bn_ExpiresAt b) (bn_CreatedAt b), user) in
  r ← (if bool_decide (bn_Scope b = "global"%string) then
         match bn_UserID b with
         | Some u => mret (stored None u)
         | None => fail (WithField (Validation "A global ban needs a user") "user_id" "required")
         end
       else if bool_decide (bn_Scope b = "chat"%string) then
         match bn_ChatID b, bn_UserID b with
         | Some ch, Some u => mret (stored (Some ch) u)
         | _, _ => fail (WithField (Validation "A chat ban needs a user and a chat") "chat_id" "required")
         end
       else fail (WithField (Validation "Unsupported ban scope") "scope" "must be global or chat"));
  fail_if (from_option (λ t, t <? cl_now c) false (bn_ExpiresAt b))
    (WithField (Validation "Expiry is in the past") "expires_at" "must be in the future");;
  mret r.
(** A global ban suspends the account; when that fails the ban stands and the failure is logged. *)
Definition suspend c (userID : uuid) : handler () := λ w,
  match SetUserStatus (cl_now c) userID "banned" w with
  | (Ok _, w') => invalidate userID w'
  | (Err _, w') => (Ok (), w')
  end.
Definition Service_CreateBan c a (b : Ban) : handler uuid :=
  '(ban, user) ← admissible_ban c a b;
  id ← map_err internal_admin (CreateBan c ban);
  (if bool_decide (bn_Scope ban = "global"%string) then suspend c user else mret ());;
  audit c a "ban.created" "user" (uuid_String user)
    (JObj [("scope", JStr (bn_Scope ban)); ("reason", JStr (bn_Reason ban)); ("ban_id", JStr (uuid_String id))]%string);;
  mret id.
Definition Service_LiftBan c a (banID : uuid) : handler () :=
  map_err (or_not_found "Ban not found or already lifted") (LiftBan (cl_now c) banID);;
  audit c a "ban.lifted" "ban" (uuid_String banID) JNull.
Definition Service_Bans c (limit offset : Z) : handler (list (uuid * Ban)) :=
  map_err internal_admin (Bans (cl_now c) (clamp_limit limit 200 50) offset).

Definition Service_GrantRole c a (userID : uuid) (roleKey : string) : handler () :=
  fail_if (negb (HasPermission (ac_principal a) "*")) (Forbidden CodeForbidden "Only a super admin can assign roles");;
  map_err (or_not_found "User or role not found") (GrantRole (cl_now c) userID roleKey (prUserID (ac_principal a)));;
  invalidate userID;;
  audit c a "role.granted" "user" (uuid_String userID) (JObj [("role", JStr roleKey)]%string).
Definition Service_RevokeRole c a (userID : uuid) (roleKey : string) : handler () :=
  fail_if (negb (HasPermission (ac_principal a) "*")) (Forbidden CodeForbidden "Only a super admin can revoke roles");;
  map_err (or_not_found "That role is not assigned") (RevokeRole (cl_now c) userID roleKey);;
  invalidate userID;;
  audit c a "role.revoked" "user" (uuid_String userID) (JObj [("role", JStr roleKey)]%string).

Definition Service_SetFlag c a (key : string) (enabled : bool) (rollout : Z) : handler () :=
  zoom am_flags with_am_flags (Set_flag (cl_now c) (cl_node c) key enabled rollout);;
  audit c a "flag.changed" "flag" key (JObj [("enabled", JBool enabled); ("rollout_percent", JInt rollout)]%string).
Definition Service_AuditLog (action : string) (actorID : option uuid) (limit offset : Z) : handler (list (uuid * AuditEntry)) :=
  map_err internal_admin (AuditLog action actorID (clamp_limit limit 500 100) offset).

(** A report, and whose score it counts against: the account named, or the author of the
    message. *)
Definition reported_person (targetType : string) (targetID : uuid) w : option uuid :=
  if bool_decide (targetType = "user"%string) then Some targetID
  else if bool_decide (targetType = "message"%string) then MessageAuthor targetID w ≫= id
  else None.
Definition Service_CreateReport c (reporterID : uuid) (targetType : string) (targetID : uuid) (reason detail : string) : handler uuid :=
  fail_if (negb (bool_decide (targetType ∈ ["user"; "message"; "chat"; "story"; "article"]%string)))
    (WithField (Validation "Unsupported report target") "target_type" "must be user, message, chat, story or article");;
  fail_if (negb (bool_decide (reason ∈ ["spam"; "violence"; "child_abuse"; "illegal"; "fraud"; "other"]%string)))
    (WithField (Validation "Unsupported report reason") "reason" "must be spam, violence, child_abuse, illegal, fraud or other");;
  id ← map_err internal_admin (CreateReport c reporterID targetType targetID reason detail);
  modify (λ w, match reported_person targetType targetID w with
               | Some u => with_am_spam (Reported (cl_now c) u reason (am_spam w)) w
               | None => w
               end);;
  mret id.

(** ** Handlers *)

Record requester := MkRequester { rq_principal : option Principal; rq_ip : string; rq_user_agent : string }.
Definition actorFrom (q : requester) : handler actor :=
  p ← MustPrincipal (rq_principal q); mret (MkActor p (rq_ip q) (rq_user_agent q)).

Definition handle_dashboard c : handler Dashboard := Service_Dashboard c.
Definition handle_timeSeries c (metric days : string) : handler (list (Z * Z)) := Service_TimeSeries c metric (atoi_value days).
Definition handle_searchUsers (q status limit offset : string) : handler (list UserSummary) :=
  Service_SearchUsers q status (atoi_value limit) (atoi_value offset).
Definition handle_setUserStatus c (q : requester) (userID : option uuid) (body : Body (string * string)) : handler () :=
  a ← actorFrom q;
  u ← path_id "userID is not a valid UUID" userID;
  b ← DecodeJSON body;
  Service_SetUserStatus c a u b.1 b.2.
Definition handle_grantRole c (q : requester) (userID : option uuid) (body : Body string) : handler () :=
  a ← actorFrom q;
  u ← path_id "userID is not a valid UUID" userID;
  role ← DecodeJSON body;
  Service_GrantRole c a u role.
Definition handle_revokeRole c (q : requester) (userID : option uuid) (roleKey : string) : handler () :=
  a ← actorFrom q;
  u ← path_id "userID is not a valid UUID" userID;
  Service_RevokeRole c a u roleKey.
Definition handle_reports (status limit offset : string) : handler (list (uuid * Report)) :=
  Service_Reports status (atoi_value limit) (atoi_value offset).
Definition handle_resolveReport c (q : requester) (reportID : option uuid) (body : Body (string * string)) : handler () :=
  a ← actorFrom q;
  id ← path_id "reportID is not a valid UUID" reportID;
  b ← DecodeJSON body;
  Service_ResolveReport c a id b.1 b.2.
Definition handle_bans c (limit offset : string) : handler (list (uuid * Ban)) := Service_Bans c (atoi_value limit) (atoi_value offset).
(** The body is a ban without an issuer or a time. *)
Record ban_body := MkBanBody { bb_user : option uuid; bb_chat : option uuid; bb_scope : string; bb_reason : string; bb_expires : option time }.
Definition handle_createBan c (q : requester) (body : Body ban_body) : handler uuid :=
  a ← actorFrom q;
  b ← DecodeJSON body;
  Service_CreateBan c a (MkBan (bb_user b) (bb_chat b) (bb_scope b) (bb_reason b) None (bb_expires b) 0).
Definition handle_liftBan c (q : requester) (banID : option uuid) : handler () :=
  a ← actorFrom q;
  id ← path_id "banID is not a valid UUID" banID;
  Service_LiftBan c a id.
(** A flag switched on without a share is on for everybody. *)
Definition handle_setFlag c (q : requester) (key : string) (body : Body (bool * Z)) : handler () :=
  a ← actorFrom q;
  b ← DecodeJSON body;
  Service_SetFlag c a key b.1 (if (b.2 =? 0) && b.1 then 100 else b.2).
(** [actor_id] is absent, or what parsing it gave. *)
Definition handle_auditLog (action : string) (actor_id : option (option uuid)) (limit offset : string) : handler (list (uuid * AuditEntry)) :=
  actorID ← match actor_id with
            | None => mret None
            | Some parsed => id ← path_id "actor_id is not a valid UUID" parsed; mret (Some id)
            end;
  Service_AuditLog action actorID (atoi_value limit) (atoi_value offset).
Record report_body := MkReportBody { rb_type : string; rb_target : uuid; rb_reason : string; rb_detail : string }.
Definition handle_createReport c (p : option Principal) (body : Body report_body) : handler uuid :=
  principal ← MustPrincipal p;
  b ← DecodeJSON body;
  Service_CreateReport c (prUserID principal) (rb_type b) (rb_target b) (rb_reason b) (rb_detail b).

(** ** Routes *)

Inductive admin_route :=
| GetDashboard
| GetAnalytics (metric days : string)
| GetUsers (q status limit offset : string)
| PutUserStatus (userID : option uuid) (body : Body (string * string))
| PostUserRole (userID : option uuid) (body : Body string)
| DeleteUserRole (userID : option uuid) (roleKey : string)
| GetReports (status limit offset : string)
| PutReport (reportID : option uuid) (body : Body (string * string))
| GetBans (limit offset : string)
| PostBan (body : Body ban_body)
| DeleteBan (banID : option uuid)
| PutFlag (key : string) (body : Body (bool * Z))
| GetAuditLog (action : string) (actor_id : option (option uuid)) (limit offset : string).
Definition route_permission (r : admin_route) : string :=
  match r with
  | GetDashboard | GetAnalytics _ _ => PermAnalyticsRead
  | GetUsers _ _ _ _ => PermUsersRead
  | PutUserStatus _ _ | PostUserRole _ _ | DeleteUserRole _ _ => PermUsersWrite
  | GetReports _ _ _ => PermReportsRead
  | PutReport _ _ => PermReportsWrite
  | GetBans _ _ | PostBan _ | DeleteBan _ => PermBansWrite
  | PutFlag _ _ => PermFlagsWrite
  | GetAuditLog _ _ _ _ => PermAuditRead
  end.
Definition answered {A} (m : handler A) : handler () := m ≫= λ _, mret ().
Definition route_handler c (q : requester) (r : admin_route) : handler () :=
  match r with
  | GetDashboard => answered (handle_dashboard c)
  | GetAnalytics metric days => answered (handle_timeSeries c metric days)
  | GetUsers s status limit offset => answered (handle_searchUsers s status limit offset)
  | PutUserStatus u b => handle_setUserStatus c q u b
  | PostUserRole u b => handle_grantRole c q u b
  | DeleteUserRole u k => handle_revokeRole c q u k
  | GetReports status limit offset => answered (handle_reports status limit offset)
  | PutReport id b => handle_resolveReport c q id b
  | GetBans limit offset => answered (handle_bans c limit offset)
  | PostBan b => answered (handle_createBan c q b)
  | DeleteBan id => handle_liftBan c q id
  | PutFlag key b => handle_setFlag c q key b
  | GetAuditLog action actor limit offset => answered (handle_auditLog action actor limit offset)
  end.
(** The area is mounted behind [users.read], each route behind its own permission. *)
Definition Routes c (q : requester) (r : admin_route) : handler () :=
  RequirePermission PermUsersRead (rq_principal q) (RequirePermission (route_permission r) (rq_principal q) (route_handler c q r)).
End service.
