(* ===== verification/OperatorsTheory.v ===== *)
(** * What the operators' desk guarantees

    Roles come only from super admins, every action leaves its entry in the audit log, and a
    banned account is shut out of the service; with what is not so. *)

From stdpp Require Import base tactics list sorting gmap strings.
From Stdlib Require Import ZArith Lia.
From S2P Require Import Prelude Steps GoString Httpx Store EventLog RateLimit Ports Phone Security Presence Antispam Cache AuthStore Auth Recovery AuthTheory SignOutTheory SignInRace SignInTheory Social FeatureFlags Http News Operators.

Set Default Goal Selector "!".
Open Scope Z_scope.

Section desk.
Context {L : Type} (ilike : string → string → bool) (day_of : time → Z) (inet : string → bool).
Implicit Types (w : admin_world L) (c : call) (a : actor) (q : requester).

(** ** Frames *)

(** The tables of grants and what sign-in sees of them. *)
Definition same_roles w w' : Prop :=
  am_operators w' = am_operators w ∧ admin_users (authdb_of w') = admin_users (authdb_of w)
  ∧ admin_roles (authdb_of w') = admin_roles (authdb_of w).
#[local] Instance same_roles_preorder : PreOrder same_roles.
Proof. split; [done|]. intros w1 w2 w3 (H1 & H2 & H3) (H1' & H2' & H3'). unfold same_roles. by rewrite H1', H1, H2', H2, H3', H3. Qed.
Definition unchanged w w' : Prop := w' = w.
#[local] Instance unchanged_preorder : PreOrder unchanged.
Proof. split; [done|]. intros w1 w2 w3. unfold unchanged. congruence. Qed.

Lemma follows_invalidate_frame (R : admin_world L → admin_world L → Prop) `{!PreOrder R} u :
  (∀ x w, aw_db x = authdb_of w → R w (with_am_auth x w)) → Steps.follows R (invalidate u).
Proof. intros HR w. unfold invalidate, zoom. simpl. apply HR. unfold InvalidateUserCache, on_cache, Delete, mbind, prog_bind. by destruct (c_up (aw_cache (am_auth w))) eqn:Hup; cbn; rewrite Hup. Qed.
Lemma same_roles_Audit c e : Steps.follows same_roles (Audit (L := L) inet c e).
Proof. intros w. unfold Audit. by destruct (_ || _). Qed.
Lemma same_roles_audit c a x y z d : Steps.follows same_roles (audit (L := L) inet c a x y z d).
Proof. unfold audit. apply follows_modify. intros w. apply same_roles_Audit. Qed.
Lemma same_roles_invalidate u : Steps.follows same_roles (invalidate (L := L) u).
Proof. apply follows_invalidate_frame; [apply _|]. intros x w Hx. unfold same_roles, authdb_of. simpl. by rewrite Hx. Qed.
Lemma same_roles_SetUserStatus now u s : Steps.follows same_roles (SetUserStatus (L := L) now u s).
Proof. unfold SetUserStatus. by follow_steps. Qed.
(** A statement that either fails or changes one table. *)
Lemma follows_page (R : admin_world L → admin_world L → Prop) `{!PreOrder R} {A} limit offset (rows : admin_world L → list A) :
  Steps.follows R (page limit offset rows).
Proof. intros w. unfold page. by destruct (offset <? 0). Qed.
#[local] Hint Resolve same_roles_Audit same_roles_audit same_roles_invalidate same_roles_SetUserStatus
  follows_page : follows.
Ltac table := intros ?w; unfold ResolveReport, CreateBan, LiftBan, GrantRole, RevokeRole, CreateReport;
  repeat (match goal with |- context [if ?b then _ else _] => destruct b end); done.

Lemma same_roles_suspend c u : Steps.follows same_roles (suspend (L := L) c u).
Proof.
  intros w. unfold suspend. pose proof (same_roles_SetUserStatus (cl_now c) u "banned" w) as Hs.
  destruct (SetUserStatus _ _ _ w) as [[[]|e] w']; simpl in *; [|done]. etransitivity; [exact Hs|apply same_roles_invalidate].
Qed.
Lemma follows_admissible (R : admin_world L → admin_world L → Prop) `{!PreOrder R} c a b : Steps.follows R (admissible_ban (L := L) c a b).
Proof. unfold admissible_ban. follow_steps. Qed.
Lemma follows_actorFrom (R : admin_world L → admin_world L → Prop) `{!PreOrder R} q : Steps.follows R (actorFrom (L := L) q).
Proof. unfold actorFrom. follow_steps. Qed.
Lemma follows_TimeSeries (R : admin_world L → admin_world L → Prop) `{!PreOrder R} now m d : Steps.follows R (Repo_TimeSeries (L := L) day_of now m d).
Proof. unfold Repo_TimeSeries. follow_steps. Qed.
#[local] Hint Resolve same_roles_suspend follows_admissible follows_actorFrom follows_TimeSeries : follows.

(** What only reads. *)
Definition reads (r : admin_route) : bool :=
  match r with
  | GetDashboard | GetAnalytics _ _ | GetUsers _ _ _ _ | GetReports _ _ _ | GetBans _ _ | GetAuditLog _ _ _ _ => true
  | _ => false
  end.
Lemma reads_unchanged c q r : reads r = true → Steps.follows unchanged (route_handler (L := L) ilike day_of inet c q r).
Proof.
  destruct r; try done; intros _; simpl; unfold answered, handle_dashboard, handle_timeSeries, handle_searchUsers, handle_reports, handle_bans,
    handle_auditLog, Service_Dashboard, Service_TimeSeries, Service_SearchUsers, Service_Reports, Service_Bans, Service_AuditLog,
    SearchUsers, Reports, Bans, AuditLog; follow_steps.
Qed.

(** ** Roles *)

Definition holds_role w (k : uuid * string) : bool := from_option (live_grant k) false (am_operators w !! k).
(** Sign-in reads the live grants of the table. *)
Definition roles_agree w : Prop := admin_users (authdb_of w) = live_grants (am_operators w).
Lemma elem_of_live_grants t k : k ∈ live_grants t ↔ from_option (live_grant k) false (t !! k) = true.
Proof.
  unfold live_grants. rewrite list_elem_of_fmap. split.
  - intros ([k' g] & -> & (Hk & Hl)%elem_of_rows_where). simpl. by rewrite Hk.
  - destruct (t !! k) as [g|] eqn:Hk; [|done]. simpl. intros Hl. exists (k, g). by rewrite elem_of_rows_where.
Qed.

(** Who asked, and whether it is for this grant. *)
Definition super (q : requester) : Prop := ∃ p, rq_principal q = Some p ∧ HasPermission p "*" = true.
Definition asks_to_grant (r : admin_route) (k : uuid * string) : Prop :=
  match r with PostUserRole (Some u) b => first_value b = Ok k.2 ∧ u = k.1 | _ => False end.
Definition asks_to_revoke (r : admin_route) (k : uuid * string) : Prop :=
  match r with DeleteUserRole (Some u) key => key = k.2 ∧ u = k.1 | _ => False end.

Abbreviation route := (Routes (L := L) ilike day_of inet) (only parsing).
(** A request goes through its gates, or changes nothing. *)
Lemma Routes_run c q r w :
  route c q r w = route_handler ilike day_of inet c q r w ∨ ∃ e, route c q r w = (Err e, w).
Proof.
  unfold Routes, RequirePermission. destruct (rq_principal q) as [p|]; [|right; by eexists].
  destruct (HasPermission p _); [|right; by eexists]. destruct (HasPermission p _); [by left|right; by eexists].
Qed.
Lemma Routes_follow (R : admin_world L → admin_world L → Prop) `{!PreOrder R} c q r :
  Steps.follows R (route_handler ilike day_of inet c q r) → Steps.follows R (route c q r).
Proof. intros Hf w. destruct (Routes_run c q r w) as [->|[e ->]]; [apply Hf|simpl; reflexivity]. Qed.

Definition gives_role (r : admin_route) : bool := match r with PostUserRole _ _ | DeleteUserRole _ _ => true | _ => false end.
Lemma same_roles_route c q r : gives_role r = false → Steps.follows same_roles (route_handler ilike day_of inet c q r).
Proof.
  destruct (reads r) eqn:Hr; [intros _ w; pose proof (reads_unchanged c q r Hr w) as Hu; unfold unchanged in Hu; by rewrite Hu|].
  destruct r; try done; intros _; simpl; unfold answered, handle_setUserStatus, handle_resolveReport, handle_createBan, handle_liftBan, handle_setFlag,
    Service_SetUserStatus, Service_ResolveReport, Service_CreateBan, Service_LiftBan, Service_SetFlag; follow_steps; table || (intros w; done).
Qed.

Lemma DecodeJSON_run {B} (b : Body B) w :
  (∃ v, first_value b = Ok v ∧ DecodeJSON b w = (Ok v, w)) ∨ ∃ e, DecodeJSON b w = (Err e, w).
Proof.
  unfold DecodeJSON. destruct (negb _ && negb _); [right; by eexists|]. destruct (first_value b) as [v|f]; [|right; by eexists].
  destruct (at_end b); [left; by eexists|right; by eexists].
Qed.
(** The grant and its withdrawal, either refused or done by a super admin. *)
Lemma actorFrom_run q w : (∃ p, rq_principal q = Some p ∧ actorFrom q w = (Ok (MkActor p (rq_ip q) (rq_user_agent q)), w)) ∨
  ∃ e, actorFrom (L := L) q w = (Err e, w).
Proof. unfold actorFrom, MustPrincipal. destruct (rq_principal q) as [p|]; [left; by eexists|right; by eexists]. Qed.
Lemma after_statement c a u x y z d w1 : same_roles w1 ((invalidate u ≫= λ _, audit inet c a x y z d) w1).2.
Proof. apply (follows_bind same_roles); [apply same_roles_invalidate|intros _; apply same_roles_audit]. Qed.
Lemma grant_run c q u b w :
  (handle_grantRole inet c q u b w).2 = w ∨
  ∃ p uid role, rq_principal q = Some p ∧ HasPermission p "*" = true ∧ u = Some uid ∧ first_value b = Ok role ∧
    same_roles (set_operators (<[(uid, role) := MkGrant (prUserID p) (cl_now c) None]> (am_operators w)) w) (handle_grantRole inet c q u b w).2.
Proof.
  unfold handle_grantRole. rewrite bind_run. destruct (actorFrom_run q w) as [(p & Hp & ->)|[e ->]]; [|by left].
  rewrite bind_run. unfold path_id, or_fail. destruct u as [uid|]; [|by left]. cbn [mret prog_ret].
  rewrite bind_run. destruct (DecodeJSON_run b w) as [(role & Hrole & ->)|[e ->]]; [|by left].
  unfold Service_GrantRole. rewrite bind_run. unfold fail_if. cbn [ac_principal]. destruct (HasPermission p "*") eqn:Hall; [|by left]. cbn [negb].
  rewrite bind_run. unfold map_err, catch. cbn [mret prog_ret fst snd]. unfold GrantRole.
  destruct (known_user w uid && _ && _); [|by left]. right. exists p, uid, role. do 4 (split; [done|]). apply after_statement.
Qed.
Lemma revoke_run c q u key w :
  (handle_revokeRole inet c q u key w).2 = w ∨
  ∃ p uid, rq_principal q = Some p ∧ HasPermission p "*" = true ∧ u = Some uid ∧
    same_roles (set_operators (update_where (λ k g, bool_decide (k = (uid, key)) && live_grant k g)
                 (λ _ g, MkGrant (gr_granted_by g) (gr_granted_at g) (Some (cl_now c))) (am_operators w)) w) (handle_revokeRole inet c q u key w).2.
Proof.
  unfold handle_revokeRole. rewrite bind_run. destruct (actorFrom_run q w) as [(p & Hp & ->)|[e ->]]; [|by left].
  rewrite bind_run. unfold path_id, or_fail. destruct u as [uid|]; [|by left]. cbn [mret prog_ret].
  unfold Service_RevokeRole. rewrite bind_run. unfold fail_if. cbn [ac_principal]. destruct (HasPermission p "*") eqn:Hall; [|by left]. cbn [negb].
  rewrite bind_run. unfold map_err, catch. cbn [mret prog_ret fst snd]. unfold RevokeRole.
  destruct (hits live_grant (am_operators w) (uid, key)); [|by left]. right. exists p, uid. do 3 (split; [done|]). apply after_statement.
Qed.

(** What one request does to one grant. *)
Definition role_moves (s : call * requester * admin_route) w w' (k : uuid * string) : Prop :=
  holds_role w' k = holds_role w k ∨
  super s.1.2 ∧ (asks_to_grant s.2 k ∧ holds_role w' k = true ∨ asks_to_revoke s.2 k ∧ holds_role w' k = false).
Lemma Routes_role_moves c q r w k : role_moves (c, q, r) w (route c q r w).2 k.
Proof.
  unfold role_moves. destruct (Routes_run c q r w) as [->|[e ->]]; [|by left]. destruct (gives_role r) eqn:Hg.
  2:{ left. unfold holds_role. by destruct (same_roles_route c q r Hg w) as (-> & _). }
  destruct r; try done; simpl.
  - destruct (grant_run c q userID body w) as [->|(p & uid & role & Hp & Hall & -> & Hrole & (Hops & _))]; [by left|].
    unfold holds_role. rewrite Hops. simpl. destruct (decide (k = (uid, role))) as [->|Hne].
    + right. split; [by exists p|]. left. by rewrite lookup_insert_eq.
    + left. by rewrite lookup_insert_ne.
  - destruct (revoke_run c q userID roleKey w) as [->|(p & uid & Hp & Hall & -> & (Hops & _))]; [by left|].
    unfold holds_role. rewrite Hops. simpl. rewrite lookup_update_where. destruct (decide (k = (uid, roleKey))) as [->|Hne].
    + destruct (am_operators w !! (uid, roleKey)) as [g|]; [|by left]. simpl. rewrite bool_decide_true by done. simpl.
      destruct (live_grant (uid, roleKey) g) eqn:Hl; [|by left]. right. split; [by exists p|]. by right.
    + left. destruct (am_operators w !! k) as [g|]; [|done]. simpl. by rewrite bool_decide_false.
Qed.
Lemma Routes_roles_agree c q r w : roles_agree w → roles_agree (route c q r w).2.
Proof.
  unfold roles_agree. intros Hw. destruct (Routes_run c q r w) as [->|[e ->]]; [|done]. destruct (gives_role r) eqn:Hg.
  2:{ by destruct (same_roles_route c q r Hg w) as (-> & -> & _). }
  destruct r; try done; simpl.
  - destruct (grant_run c q userID body w) as [->|(p & uid & role & _ & _ & _ & _ & (-> & -> & _))]; done.
  - destruct (revoke_run c q userID roleKey w) as [->|(p & uid & _ & _ & _ & (-> & -> & _))]; done.
Qed.

Definition served (history : list (call * requester * admin_route)) w : admin_world L :=
  foldl (λ w s, (route s.1.1 s.1.2 s.2 w).2) w history.
Lemma served_roles_agree history w : roles_agree w → roles_agree (served history w).
Proof. revert w. induction history as [|[[c q] r] history IH]; intros w Hw; [done|]. by apply IH, Routes_roles_agree. Qed.
Lemma served_role_moves history w k :
  holds_role (served history w) k = holds_role w k ∨
  ∃ s, s ∈ history ∧ super s.1.2 ∧ (if holds_role (served history w) k then asks_to_grant s.2 k else asks_to_revoke s.2 k).
Proof.
  revert w. induction history as [|[[c q] r] history IH]; intros w; [by left|].
  change (served ((c, q, r) :: history) w) with (served history (route c q r w).2).
  destruct (IH (route c q r w).2) as [Heq|(s & Hs & Hsup & Hask)].
  - rewrite Heq. destruct (Routes_role_moves c q r w k) as [->|[Hsup Hmove]]; [by left|]. right. exists (c, q, r). split; [by left|].
    split; [done|]. by destruct Hmove as [[Hg ->]|[Hr ->]].
  - right. exists s. split; [by right|]. done.
Qed.

(** ** The audit log *)

Definition route_action (r : admin_route) : string :=
  match r with
  | PutUserStatus _ _ => "user.status_changed"
  | PostUserRole _ _ => "role.granted"
  | DeleteUserRole _ _ => "role.revoked"
  | PutReport _ _ => "report.resolved"
  | PostBan _ => "ban.created"
  | DeleteBan _ => "ban.lifted"
  | PutFlag _ _ => "flag.changed"
  | _ => ""
  end.
(** The audit statement can be carried out for whoever asks. *)
Definition auditable c q w : Prop :=
  cl_audit_up c = true ∧ from_option inet true (nullableIP (rq_ip q)) = true ∧ am_audit w !! cl_audit c = None ∧
  ∀ p, rq_principal q = Some p → known_user w (prUserID p) = true.
Definition entry_of c q (action : string) (e : AuditEntry) : Prop :=
  ∃ p, rq_principal q = Some p ∧ ae_ActorID e = prUserID p ∧ ae_ActorRole e = default "" (head (prAdminRoles p)) ∧
    ae_Action e = action ∧ ae_IP e = nullableIP (rq_ip q) ∧ ae_CreatedAt e = cl_now c.
Definition same_desk w w' : Prop := am_audit w' = am_audit w ∧ ∀ u, known_user w' u = known_user w u.
#[local] Instance same_desk_preorder : PreOrder same_desk.
Proof. split; [done|]. intros w1 w2 w3 [H1 H2] [H1' H2']. split; [congruence|]. intros u. by rewrite H2', H2. Qed.
Lemma auditable_same c q w w' : same_desk w w' → auditable c q w → auditable c q w'.
Proof. intros [Ha Hk] (Hup & Hip & Hid & Hp). unfold auditable. rewrite Ha. do 3 (split; [done|]). intros p Hq. rewrite Hk. by apply Hp. Qed.

(** [m] always succeeds, without touching the log; fails without a trace or succeeds without
    touching the log; succeeds with exactly one entry; does one or fails without a trace. *)
Definition silent {A} (m : prog (admin_world L) Error A) : Prop := ∀ w, ∃ x w', m w = (Ok x, w') ∧ same_desk w w'.
Definition atomic {E A} (m : prog (admin_world L) E A) : Prop := ∀ w,
  match m w with (Ok _, w') => same_desk w w' | (Err _, w') => w' = w end.
Definition logs c q action {A} (m : prog (admin_world L) Error A) : Prop := ∀ w, auditable c q w →
  ∃ x w' e, m w = (Ok x, w') ∧ am_audit w' = <[cl_audit c := e]> (am_audit w) ∧ entry_of c q action e.
Definition acts c q action {A} (m : prog (admin_world L) Error A) : Prop := ∀ w, auditable c q w →
  match m w with
  | (Ok _, w') => ∃ e, am_audit w' = <[cl_audit c := e]> (am_audit w) ∧ entry_of c q action e
  | (Err _, w') => w' = w
  end.

Lemma logs_audit c q p action x y d : rq_principal q = Some p →
  logs c q action (audit (L := L) inet c (MkActor p (rq_ip q) (rq_user_agent q)) action x y d).
Proof.
  intros Hp w (Hup & Hip & Hid & Hk). unfold audit, modify, Audit, audit_entry. simpl. rewrite Hup, (Hk p), Hip, Hid by done. simpl.
  eexists _, _, _. split; [reflexivity|]. split; [reflexivity|]. by exists p.
Qed.
Lemma logs_after {A B} c q action (m : prog (admin_world L) Error A) (f : A → prog (admin_world L) Error B) :
  silent m → (∀ x, logs c q action (f x)) → logs c q action (m ≫= f).
Proof.
  intros Hm Hf w Hw. destruct (Hm w) as (x & w1 & Hrun & Hsame). rewrite bind_run, Hrun.
  destruct (Hf x w1 (auditable_same c q _ _ Hsame Hw)) as (y & w2 & e & Hy & Hlog & He).
  exists y, w2, e. split; [done|]. destruct Hsame as [Ha _]. by rewrite Hlog, Ha.
Qed.
Lemma logs_then {A B} c q action (m : prog (admin_world L) Error A) (y : B) :
  logs c q action m → logs c q action (m ≫= λ _, mret y).
Proof. intros Hm w Hw. destruct (Hm w Hw) as (x & w1 & e & Hrun & Hlog). rewrite bind_run, Hrun. by exists y, w1, e. Qed.
Lemma acts_logs {A B} c q action (m : prog (admin_world L) Error A) (f : A → prog (admin_world L) Error B) :
  atomic m → (∀ x, logs c q action (f x)) → acts c q action (m ≫= f).
Proof.
  intros Hm Hf w Hw. rewrite bind_run. specialize (Hm w). destruct (m w) as [[x|e] w1]; [|done].
  destruct (Hf x w1 (auditable_same c q _ _ Hm Hw)) as (y & w2 & e & -> & Hlog & He). exists e. destruct Hm as [Ha _]. by rewrite Hlog, Ha.
Qed.
Lemma acts_after {A B} c q action (m : prog (admin_world L) Error A) (f : A → prog (admin_world L) Error B) :
  Steps.follows unchanged m → (∀ x, acts c q action (f x)) → acts c q action (m ≫= f).
Proof.
  intros Hm Hf w Hw. rewrite bind_run. specialize (Hm w). unfold unchanged in Hm. destruct (m w) as [[x|e] w1]; simpl in Hm; [|done].
  subst. by apply Hf.
Qed.
Lemma acts_actor {B} c q action (f : actor → prog (admin_world L) Error B) :
  (∀ p, rq_principal q = Some p → acts c q action (f (MkActor p (rq_ip q) (rq_user_agent q)))) → acts c q action (actorFrom q ≫= f).
Proof.
  intros Hf w Hw. rewrite bind_run. destruct (actorFrom_run q w) as [(p & Hp & ->)|[e ->]]; [by apply Hf|done].
Qed.
Lemma acts_then {A B} c q action (m : prog (admin_world L) Error A) (y : B) : acts c q action m → acts c q action (m ≫= λ _, mret y).
Proof. intros Hm w Hw. rewrite bind_run. specialize (Hm w Hw). by destruct (m w) as [[x|e] w1]. Qed.
Lemma acts_assoc {A B C} c q action (m : prog (admin_world L) Error A) (f : A → prog (admin_world L) Error B) (g : B → prog (admin_world L) Error C) :
  acts c q action (m ≫= λ x, f x ≫= g) → acts c q action ((m ≫= f) ≫= g).
Proof. intros Hm w Hw. specialize (Hm w Hw). rewrite !bind_run in *. by destruct (m w) as [[x|e] w1]. Qed.

Lemma silent_invalidate u : silent (invalidate (L := L) u).
Proof.
  intros w. unfold invalidate, zoom, InvalidateUserCache, on_cache, Delete, mbind, prog_bind.
  destruct (c_up (aw_cache (am_auth w))) eqn:Hup; cbn; rewrite Hup; eexists _, _; (split; [reflexivity|]); by split.
Qed.
Lemma atomic_map_err {E E' A} (h : E → E') (m : prog (admin_world L) E A) : atomic m → atomic (map_err h m).
Proof. intros Hm w. specialize (Hm w). unfold map_err, catch. by destruct (m w) as [[x|e] w1]. Qed.
Lemma known_update u f w v : known_user (on_authdb (update_account u f) w) v = known_user w v.
Proof.
  unfold known_user, authdb_of, on_authdb, update_account. simpl. apply bool_decide_ext. rewrite lookup_update_where.
  by rewrite fmap_is_Some.
Qed.
Lemma atomic_SetUserStatus now u s : atomic (SetUserStatus (L := L) now u s).
Proof.
  intros w. unfold SetUserStatus, in_tx. rewrite bind_run. unfold gets. cbn [fst snd]. rewrite bind_run. unfold modify. cbn [fst snd].
  rewrite bind_run. unfold fail_if. destruct (known_user w u); [|done]. cbn [negb mret prog_ret].
  assert (same_desk w (set_status u s w)) as Hs by (split; [done|intros v; exact (known_update u _ w v)]).
  destruct (_ || _); [|done]. rewrite bind_run. cbn. destruct Hs as [Ha Hk]. split; [done|]. exact Hk.
Qed.
Lemma silent_suspend c u : silent (suspend (L := L) c u).
Proof.
  intros w. unfold suspend. pose proof (atomic_SetUserStatus (cl_now c) u "banned" w) as Hs.
  destruct (SetUserStatus _ _ _ w) as [[[]|e] w1].
  - destruct (silent_invalidate u w1) as (x & w2 & Hrun & Hsame). exists x, w2. split; [done|]. by transitivity w1.
  - subst. eexists _, _. split; [reflexivity|]. reflexivity.
Qed.
Ltac one_table := let w := fresh "w" in intros w; unfold ResolveReport, CreateBan, LiftBan, GrantRole, RevokeRole, zoom, Set_flag;
  repeat (match goal with |- context [if ?b then _ else _] => destruct b end); try done; split; done.
Lemma atomic_flag now n k b z : atomic (zoom (am_flags (L := L)) with_am_flags (Set_flag now n k b z)).
Proof.
  intros w. unfold zoom, Set_flag. destruct (_ || _); [|done]. simpl. by destruct w.
Qed.

Ltac read_request := repeat (match goal with
  | |- acts _ _ _ (path_id _ _ ≫= _) => apply acts_after; [unfold path_id; follow_steps|intros ?]
  | |- acts _ _ _ (DecodeJSON _ ≫= _) => apply acts_after; [follow_steps|intros ?]
  | |- acts _ _ _ (fail_if _ _ ≫= _) => apply acts_after; [follow_steps|intros ?]
  | |- acts _ _ _ (admissible_ban _ _ _ ≫= _) => apply acts_after; [follow_steps|intros [? ?]]
  end).
Lemma acts_route c q r : reads r = false → acts c q (route_action r) (route_handler (L := L) ilike day_of inet c q r).
Proof.
  destruct r; try done; intros _; simpl; unfold answered; try apply acts_then;
    unfold handle_setUserStatus, handle_grantRole, handle_revokeRole, handle_resolveReport, handle_createBan, handle_liftBan, handle_setFlag;
    apply acts_actor; intros p Hp; read_request;
    unfold Service_SetUserStatus, Service_GrantRole, Service_RevokeRole, Service_ResolveReport, Service_CreateBan, Service_LiftBan, Service_SetFlag;
    read_request; (apply acts_logs; [try apply atomic_map_err|intros ?]);
    first [apply atomic_SetUserStatus|apply atomic_flag|one_table|by apply logs_audit|idtac].
  all: repeat (first [by apply logs_audit|apply logs_then|apply logs_after; [first [apply silent_invalidate|case_bool_decide; [apply silent_suspend|]; intros w; by eexists _, w]|intros ?]]).
Qed.
Lemma reads_route c q r w : reads r = true → (route c q r w).2 = w.
Proof. intros Hr. apply (Routes_follow unchanged). by apply reads_unchanged. Qed.
Lemma Routes_gate c q r w :
  (∀ p, rq_principal q = Some p → HasPermission p PermUsersRead && HasPermission p (route_permission r) = false) →
  ∃ e, route c q r w = (Err e, w) ∧ (Code e = CodeUnauthorized ∨ Code e = CodeForbidden).
Proof.
  intros Hno. unfold Routes, RequirePermission. destruct (rq_principal q) as [p|]; [|eexists; split; [done|by left]].
  specialize (Hno p eq_refl). destruct (HasPermission p PermUsersRead); [|eexists; split; [done|by right]]. simpl in Hno. rewrite Hno.
  eexists. split; [done|by right].
Qed.

(** ** Theorems *)

(** Only a super admin gives or takes a role.  Whatever requests the operators' routes
    serve, in whatever order and by whomever, a role that someone holds at the end and did not
    hold before was asked for, for that very account, by a caller with every permission, and a
    role that is gone was withdrawn by one; and what sign-in reads of the table are its live
    grants throughout. *)
Lemma roles_come_from_super_admins history w :
  (∀ k, holds_role (served history w) k = true → holds_role w k = false → ∃ s, s ∈ history ∧ super s.1.2 ∧ asks_to_grant s.2 k) ∧
  (∀ k, holds_role (served history w) k = false → holds_role w k = true → ∃ s, s ∈ history ∧ super s.1.2 ∧ asks_to_revoke s.2 k) ∧
  (roles_agree w → ∀ k, k ∈ admin_users (authdb_of (served history w)) ↔ holds_role (served history w) k = true).
Proof.
  split; [|split].
  - intros k Hk Hw. destruct (served_role_moves history w k) as [Heq|(s & Hs)]; [congruence|]. rewrite Hk in Hs. by exists s.
  - intros k Hk Hw. destruct (served_role_moves history w k) as [Heq|(s & Hs)]; [congruence|]. rewrite Hk in Hs. by exists s.
  - intros Hw k. rewrite (served_roles_agree history w Hw). apply elem_of_live_grants.
Qed.

(** What an operator does is on record.  A caller without the permissions of a route is
    refused and changes nothing; a request that fails changes nothing; one that only reads
    changes nothing; and any other that succeeds while the log can be written leaves exactly
    one entry, with its author, the first of their roles, the action, the address and the
    time. *)
Lemma operator_actions_are_audited c q r w :
  ((∀ p, rq_principal q = Some p → HasPermission p PermUsersRead && HasPermission p (route_permission r) = false) →
     ∃ e, route c q r w = (Err e, w) ∧ (Code e = CodeUnauthorized ∨ Code e = CodeForbidden)) ∧
  (reads r = true → (route c q r w).2 = w) ∧
  (auditable c q w → reads r = false →
     match route c q r w with
     | (Ok _, w') => ∃ e, am_audit w' = <[cl_audit c := e]> (am_audit w) ∧ entry_of c q (route_action r) e
     | (Err _, w') => w' = w
     end).
Proof.
  split; [apply Routes_gate|]. split; [apply reads_route|]. intros Hw Hr.
  destruct (Routes_run c q r w) as [->|[e ->]]; [|done]. exact (acts_route c q r Hr w Hw).
Qed.
End desk.

(** ** Shut out *)

(** The identity service with the requests that have missed the cache, have read
    the account ([readUser]) and have not stored it yet ([storeUser]): the steps of
    [userWithCache] taken apart, so that anything runs between them.  A sign-in may
    be caught as well after it has read the account.  The reads and stores of a
    request named [r] are its own; [GateDoes] is any operation run whole. *)
Record gate (L : Type) := MkGate { gt_world : auth_world L; gt_read : gmap N (uuid * User) }.
Arguments MkGate {L} _ _.
Arguments gt_world {L} _.
Arguments gt_read {L} _.
Inductive gate_step {T : Type} :=
  | GateDoes (o : auth_op (T := T))
  | GateReads (r : N) (now : time) (userID : uuid)
  | GateStores (r : N) (now : time)
  | GateRoles (now : time) (userID : uuid)
  | GateSignsIn (now : time) (m : mints) (i : VerifyOTPInput) (phone : string) (user : option User).
Arguments gate_step : clear implicits.

Section gate.
Context `{AuthLimiter L} `{JWT T} `{UuidParse} `{Digest} `{Argon2} `{CaseFold}.
Context (cfg : AuthConfig) (deliverable echo : bool).

Definition run_gate_step (s : gate_step T) (g : gate L) : gate L :=
  match s with
  | GateDoes o => MkGate (run_op cfg deliverable echo o (gt_world g)) (gt_read g)
  | GateReads r now v =>
      match cachedUser now v (gt_world g) with
      | (Ok None, w1) =>
          match readUser v w1 with
          | (Ok user, w2) => MkGate w2 (<[r := (v, user)]> (gt_read g))
          | (Err _, w2) => MkGate w2 (gt_read g)
          end
      | (_, w1) => MkGate w1 (gt_read g)
      end
  | GateStores r now =>
      match gt_read g !! r with
      | Some (v, user) => MkGate (storeUser now v user (gt_world g)).2 (delete r (gt_read g))
      | None => g
      end
  | GateRoles now v => MkGate (adminRolesWithCache now v (gt_world g)).2 (gt_read g)
  | GateSignsIn now m i phone user => MkGate (finish_signin (T := T) cfg now m i phone user (gt_world g)).2 (gt_read g)
  end.
Definition run_gate (steps : list (gate_step T)) (g : gate L) : gate L := foldl (λ g s, run_gate_step s g) g steps.

(** Requests of [caught] store by the instant [last]; identifiers have sixteen bytes. *)
Definition in_flight_by (caught : gmap N (uuid * User)) (last : time) (s : gate_step T) : Prop :=
  match s with
  | GateReads _ _ v => (v < 2 ^ 128)%N
  | GateStores r now => is_Some (caught !! r) → now ≤ last
  | _ => True
  end.
End gate.

Section banned.
Context `{AuthLimiter L} `{JWT T} `{UuidParse} `{Digest} `{Argon2} `{CaseFold}.
Context (cfg : AuthConfig) (deliverable echo : bool) (u : uuid) (Hu : (u < 2 ^ 128)%N).
Context (Hparse : ∀ s v, uuid_Parse s = Some v → (v < 2 ^ 128)%N).
Implicit Types (w : auth_world L) (d : authdb).

(** The account is suspended, and whatever in the cache still says that it is
    active is gone by the instant [D]. *)
Context (D : time).
Definition suspended d : Prop := ∃ r, AuthStore.accounts d !! u = Some r ∧ a_status r = "banned"%string.
Definition cached_inactive (c : cache string) : Prop :=
  ∀ x t v del, c_entries c !! user_state_key u = Some (MkEntry (CString x) t) → decodeUserState x = Some ("active"%string, v, del) →
    ∃ e, t = Some e ∧ e ≤ D.
Definition shut_out w : Prop := suspended (aw_db w) ∧ cached_inactive (aw_cache w).

Lemma suspended_same d d' : AuthStore.accounts d' = AuthStore.accounts d → suspended d → suspended d'.
Proof. intros Heq (r & Hr & Hs). exists r. by rewrite Heq. Qed.
Lemma suspended_update v f d : (∀ r, a_status (f r) = a_status r) → suspended d → suspended (update_account v f d).
Proof.
  intros Hf (r & Hr & Hs). unfold suspended, update_account. simpl. rewrite lookup_update_where, Hr. simpl.
  eexists. split; [reflexivity|]. destruct (bool_decide _); [by rewrite Hf|done].
Qed.
Lemma suspended_in_tx {E A} (m : prog authdb E A) d : (suspended d → suspended (m d).2) → suspended d → suspended (in_tx m d).2.
Proof. intros Hm Hd. unfold in_tx. specialize (Hm Hd). by destruct (m d) as [[x|e] d']. Qed.
Lemma suspended_CreateUser now id ph h dn d : suspended d → suspended (CreateUser now id ph h dn d).2.
Proof.
  apply suspended_in_tx. intros (r & Hr & Hs). unfold insert_user, insert_event_counter, or_fail, mbind, prog_bind, modify, gets, suspended.
  case_bool_decide as Hid; simpl; [by exists r|]. case_bool_decide; simpl; [by exists r|].
  assert (id ≠ u) as Hne by (intros ->; apply Hid; by rewrite Hr).
  case_bool_decide; simpl; [by rewrite lookup_insert_ne; eauto|]. destruct (UserByID _ _); simpl; by rewrite lookup_insert_ne; eauto.
Qed.
Lemma suspended_enrol now id v n p a mx d : suspended d → suspended (enrol now id v n p a mx d).2.
Proof.
  apply suspended_in_tx. intros Hd. rewrite bind_run. unfold in_core. destruct (UpsertDevice _ _ _ _) as [[x|e] k]; simpl; [|done].
  by apply (suspended_same d).
Qed.
Lemma suspended_ResetTwoStep now v d : suspended d → suspended (ResetTwoStep now v d).
Proof.
  intros Hd. unfold ResetTwoStep. match goal with |- suspended (with_sessions _ ?x) => apply (suspended_same x); [done|] end.
  by apply suspended_update.
Qed.
Lemma suspended_statement d :
  (∀ now id v dev h e ua, suspended d → suspended (CreateSession now id v dev h e ua d).2) ∧
  (∀ now o n e, suspended d → suspended (RotateRefreshToken now o n e d).2) ∧
  (∀ now v k reason, suspended d → suspended (RevokeSession now v k reason d).2) ∧
  (∀ now v k reason, suspended d → suspended (RevokeAllSessions now v k reason d).2) ∧
  (∀ now id ph h p mx ttl, suspended d → suspended (CreateOTPChallenge now id ph h p mx ttl d).2) ∧
  (∀ now id v e h p, suspended d → suspended (CreateEmailChallenge now id v e h p d).2) ∧
  (∀ now v e, suspended d → suspended (ConfirmEmail now v e d).2).
Proof.
  repeat split; intros; unfold CreateSession, RotateRefreshToken, RevokeSession, RevokeAllSessions, CreateOTPChallenge, CreateEmailChallenge, ConfirmEmail; try (apply suspended_in_tx; [intros Hd|done]);
    repeat (match goal with |- context [if ?b then _ else _] => destruct b | |- context [match ?x with _ => _ end] => destruct x end);
    simpl; try done; try (by apply (suspended_same d)); by apply suspended_update.
Qed.

Lemma state_key_neq sid : user_state_key u ≠ sessionDenyKey sid.
Proof. by intros [=]. Qed.
Lemma state_key_neq_roles v : user_state_key u ≠ admin_roles_key v.
Proof. by intros [=]. Qed.
Lemma state_key_neq_otp ph : user_state_key u ≠ otp_cooldown_key ph.
Proof. by intros [=]. Qed.
Lemma state_key_inj v : (v < 2 ^ 128)%N → user_state_key u = user_state_key v → v = u.
Proof.
  intros Hv Heq. unfold user_state_key in Heq. apply app_inj_length in Heq as [_ Heq]; [|done]. symmetry. by apply uuid_String_inj.
Qed.
Lemma inactive_put key e c : user_state_key u ≠ key → cached_inactive c → cached_inactive (put key e c).
Proof. intros Hne Hc x t v del. unfold put. simpl. rewrite lookup_insert_ne by done. apply Hc. Qed.
Lemma inactive_drop key c : cached_inactive c → cached_inactive (drop_key key c).
Proof.
  intros Hc x t v del. unfold drop_key. simpl. destruct (decide (key = user_state_key u)) as [->|Hne].
  - by rewrite lookup_delete_eq.
  - rewrite lookup_delete_ne by done. apply Hc.
Qed.
Lemma inactive_Set now key b ttl c : user_state_key u ≠ key → cached_inactive c → cached_inactive (Set_ now key b ttl c).2.
Proof. intros Hne Hc. unfold Set_. destruct (negb _); [done|]. by apply inactive_put. Qed.
Lemma inactive_SetNX now key b ttl c : user_state_key u ≠ key → cached_inactive c → cached_inactive (SetNX now key b ttl c).2.
Proof. intros Hne Hc. unfold SetNX. destruct (negb _); [done|]. destruct (entry_at _ _ _); [done|]. by apply inactive_put. Qed.
Lemma inactive_Delete key c : cached_inactive c → cached_inactive (Delete key c).2.
Proof. intros Hc. unfold Delete. destruct (negb _); [done|]. by apply inactive_drop. Qed.

Lemma decode_banned r st v del : decodeUserState ("banned|" +:+ r) = Some (st, v, del) → st = "banned"%string.
Proof.
  unfold decodeUserState, split. change (bytes_of ("banned|" +:+ r)) with (bytes_of "banned" ++ 124%N :: bytes_of r).
  rewrite split_bytes_app; [|by apply (bool_decide_unpack _)].
  rewrite fmap_cons. destruct (string_of <$> split_bytes 124 (bytes_of r)) as [|a [|b [|]]]; try done.
  destruct (Atoi a); [|done]. simpl. intros [= <- _ _]. reflexivity.
Qed.
(** What a request stores of the account expires half a minute later. *)
Lemma inactive_store now user c :
  usStatus user = "banned"%string ∨ now + userCacheTTL ≤ D → cached_inactive c →
  cached_inactive (Set_ now (user_state_key u) (encodeUserState user) userCacheTTL c).2.
Proof.
  intros Hor Hc. unfold Set_. destruct (negb _); [done|]. intros x t v del. unfold put. simpl. rewrite lookup_insert_eq.
  intros [= <- <-] Hdec. destruct Hor as [Hs|Hle]; [|by eexists]. exfalso. revert Hdec. unfold encodeUserState. rewrite Hs.
  intros Hdec. by apply decode_banned in Hdec.
Qed.
Lemma inactive_Get now c raw v del : cached_inactive c → D ≤ now →
  Get now (user_state_key u) c = Found raw → decodeUserState raw ≠ Some ("active"%string, v, del).
Proof.
  intros Hc Hle. unfold Get. destruct (negb _); [done|]. unfold entry_at.
  destruct (c_entries c !! _) as [[[x|m] t]|] eqn:He; [| |done]; simpl.
  - intros Hget Hdec. assert (raw = x) as -> by (destruct t as [t|]; [destruct (t <=? now)|]; congruence).
    destruct (Hc x t v del He Hdec) as (e & -> & He'). rewrite (proj2 (Z.leb_le _ _)) in Hget by lia. done.
  - by destruct t as [t|]; [destruct (t <=? now)|].
Qed.
(** What is read of the account, from the cache or the table, is not active. *)
Lemma readUser_shut_out w : shut_out w → ∃ x, readUser (L := L) u w = (Ok x, w) ∧ usStatus x = "banned"%string.
Proof.
  intros [(r & Hr & Hs) _]. eexists. unfold readUser, read_db, gets, UserByID. rewrite bind_run. cbn [fst snd]. rewrite Hr. by split.
Qed.
Lemma userWithCache_shut_out now w : shut_out w →
  match userWithCache (L := L) now u w with
  | (Ok (st, _, _), w') => (D ≤ now → st ≠ "active"%string) ∧ shut_out w'
  | (Err _, w') => shut_out w'
  end.
Proof.
  intros Hw. unfold userWithCache, cachedUser. rewrite !bind_run. unfold on_cache at 1. cbn [fst snd].
  assert (set_aw_cache (aw_cache w) w = w) as -> by by destruct w.
  unfold mret at 1, prog_ret at 1.
  destruct (match Get now (user_state_key u) (aw_cache w) with Found raw => decodeUserState raw | _ => None end) as [[[st v] del]|] eqn:Hget.
  - split; [|exact Hw]. intros Hle ->. destruct (Get now _ _) as [raw| |] eqn:Hg; [|done..].
    by apply (inactive_Get now _ raw v del (proj2 Hw) Hle) in Hget.
  - destruct (readUser_shut_out w Hw) as (x & Hx & Hs). rewrite bind_run, Hx, bind_run. unfold storeUser. rewrite bind_run. unfold on_cache.
    pose proof (inactive_store now x (aw_cache w)) as Hst. destruct (Set_ _ _ _ _ _) as [b c]. unfold mret, prog_ret. rewrite Hs in *.
    split; [done|]. split; [by destruct Hw as [Hd _]|]. apply Hst; [by left|apply Hw].
Qed.

(** *** Nothing lets it back in *)

Lemma out_send o : keeps shut_out (send_out (L := L) o). Proof. by intros w. Qed.
Lemma out_limiter (f : L → L) : keeps shut_out (modify (λ w, set_aw_limiter (f (aw_limiter w)) w)). Proof. by intros w. Qed.
Lemma out_limit n r s : keeps shut_out (checkLimit (L := L) n r s).
Proof. intros w Hw. unfold checkLimit. by destruct (auth_allow _ _ _ _) as [[r' []] l]; [|destruct (negb _)]. Qed.
#[local] Hint Resolve out_send out_limiter out_limit : keeps.
#[local] Hint Resolve inactive_Set inactive_SetNX inactive_Delete state_key_neq state_key_neq_roles state_key_neq_otp : shut.
#[local] Hint Resolve suspended_CreateUser suspended_enrol suspended_ResetTwoStep : shut.
Ltac out_db Hd :=
  first [exact Hd
        |match type of Hd with suspended ?d =>
           pose proof (suspended_statement d) as (Hst1 & Hst2 & Hst3 & Hst4 & Hst5 & Hst6 & Hst7); solve [eauto with shut] end
        |apply suspended_update; [done|exact Hd]
        |eapply suspended_same; [reflexivity|exact Hd]].
Ltac out := match goal with Hw : shut_out _ |- shut_out _ =>
  let Hd := fresh in let Hc := fresh in destruct Hw as [Hd Hc]; split; cbn [aw_db aw_cache set_aw_db set_aw_cache fst snd]; [out_db Hd|eauto with shut] end.

Lemma out_deny n s : keeps shut_out (denySession (L := L) cfg n s).
Proof. unfold denySession. keeps_steps. out. Qed.
#[local] Hint Resolve out_deny : keeps.
Lemma out_issueCode n dr id dl v e p sub : keeps shut_out (issueEmailCode (L := L) cfg echo n dr id dl v e p sub).
Proof. unfold issueEmailCode. keeps_steps; out. Qed.
Lemma out_consume n v p c : keeps shut_out (consumeEmailCode (L := L) n v p c).
Proof. unfold consumeEmailCode. keeps_steps; out. Qed.
Lemma out_issue n m v a b c e : keeps shut_out (issueTokens (L := L) (T := T) cfg n m v a b c e).
Proof. unfold issueTokens. keeps_steps; out. Qed.
Lemma out_denied n s : keeps shut_out (check_denied (L := L) n s).
Proof. unfold check_denied. keeps_steps; out. Qed.
#[local] Hint Resolve out_issueCode out_consume out_issue out_denied : keeps.
Lemma out_user n v : (v < 2 ^ 128)%N → keeps shut_out (userWithCache (L := L) n v).
Proof.
  intros Hv. destruct (decide (v = u)) as [->|Hne].
  - intros w Hw. pose proof (userWithCache_shut_out n w Hw) as Hrun. destruct (userWithCache n u w) as [[[[st x] del]|e] w']; [apply Hrun|exact Hrun].
  - unfold userWithCache, cachedUser, readUser, storeUser. keeps_steps; [by destruct w|]. destruct Hw as [Hd Hc]. split; [done|].
    simpl. apply inactive_Set; [|done]. intros Heq. by apply Hne, state_key_inj.
Qed.
Lemma out_roles n v : keeps shut_out (adminRolesWithCache (L := L) n v).
Proof. unfold adminRolesWithCache. keeps_steps; out. Qed.
Lemma parsed_user c v dev sid : ParsedIdentity c = Some (v, dev, sid) → (v < 2 ^ 128)%N.
Proof.
  unfold ParsedIdentity. intros (v' & Hv & (dev' & _ & (s & _ & [= <- _ _])%bind_Some)%bind_Some)%bind_Some. by eapply Hparse.
Qed.
Lemma out_authenticate n raw : keeps shut_out (AuthenticateToken (L := L) (T := T) cfg n raw).
Proof.
  unfold AuthenticateToken. destruct (ParseAccessToken cfg n raw) as [claims|[]]; [|apply keeps_fail..].
  intros w Hw. rewrite bind_run. unfold or_fail. destruct (ParsedIdentity claims) as [[[v dev] sid]|] eqn:Hid; [|done]. cbn [mret prog_ret].
  pose proof (parsed_user _ _ _ _ Hid) as Hv. revert w Hw.
  change (keeps shut_out (check_denied (L := L) n sid ≫= λ _, userWithCache n v ≫= λ '(status, version, deleted),
    fail_if (negb (version =? TokenVersion claims)) (session_revoked "Please sign in again") ≫= λ _,
    fail_if (negb (bool_decide (status = "active"%string) && negb deleted)) (inactive_error status) ≫= λ _,
    adminRolesWithCache n v ≫= λ '(roles, permissions), mret (MkPrincipal v dev sid (TokenID claims) roles permissions))).
  pose proof (out_user n v Hv). pose proof (out_roles n v). keeps_steps.
Qed.

Lemma run_op_shut_out o w : shut_out w → shut_out (run_op (T := T) cfg deliverable echo o w).
Proof.
  revert w. change (keeps shut_out (λ w, (Ok (), run_op (T := T) cfg deliverable echo o w) : result Error () * auth_world L)).
  enough (∀ w, shut_out w → shut_out (run_op (T := T) cfg deliverable echo o w)) as Hrun by done. destruct o; simpl.
  - change (keeps shut_out (RequestOTP (L := L) cfg now draw challenge delivered phone ip)). unfold RequestOTP. keeps_steps; out.
  - change (keeps shut_out (VerifyOTP (L := L) (T := T) cfg now m i)).
    unfold VerifyOTP, admit_otp, read_otp, wrong_code, report_wrong, accept_otp, claim_otp, second_factor, finish_signin, account_for. keeps_steps; out.
  - change (keeps shut_out (Refresh (L := L) (T := T) cfg now m token)). unfold Refresh, GenerateRefreshToken. keeps_steps; out.
  - intros w [Hd Hc]. unfold Logout. pose proof (suspended_statement (aw_db w)) as (_ & _ & Hrev & _).
    specialize (Hrev now user session "user_logout"%string Hd). destruct (RevokeSession _ _ _ _ _) as [[[]|[]] d]; try done. by apply out_deny.
  - change (keeps shut_out (Service_RevokeSession (L := L) cfg now user session)). unfold Service_RevokeSession. keeps_steps; out.
  - change (keeps shut_out (RevokeOtherSessions (L := L) cfg now user keep)). unfold RevokeOtherSessions. keeps_steps; out.
  - change (keeps shut_out (Service_SetTwoStepPassword (L := L) user salt current new hint)). unfold Service_SetTwoStepPassword. keeps_steps; out.
  - change (keeps shut_out (SetRecoveryEmail (L := L) cfg deliverable echo now draw id delivered user email)). unfold SetRecoveryEmail. keeps_steps; out.
  - change (keeps shut_out (VerifyRecoveryEmail (L := L) now user code)). unfold VerifyRecoveryEmail. keeps_steps; out.
  - change (keeps shut_out (RemoveRecoveryEmail (L := L) user)). unfold RemoveRecoveryEmail. keeps_steps; out.
  - change (keeps shut_out (StartEmailRecovery (L := L) cfg deliverable echo now draw id delivered email)). unfold StartEmailRecovery. keeps_steps; out.
  - change (keeps shut_out (CompleteEmailRecovery (L := L) now email code)). unfold CompleteEmailRecovery. keeps_steps; out.
  - apply out_authenticate.
  - change (keeps shut_out (InvalidateUserCache (L := L) user)). unfold InvalidateUserCache. keeps_steps; out.
  - intros w [Hd Hc]. split; [by eapply suspended_same|done].
  - by intros w.
Qed.

Lemma run_ops_shut_out ops w : shut_out w → shut_out (run_ops (T := T) cfg deliverable echo ops w).
Proof. revert w. induction ops as [|o ops IH]; intros w Hw; [done|]. simpl. by apply IH, run_op_shut_out. Qed.

(** What was read of the account is not active. *)
Lemma scanned_inactive w r : shut_out w → AuthStore.accounts (aw_db w) !! u = Some r → IsActive (scanUser (aw_db w) u r) = false.
Proof. intros [(r' & Hr & Hs) _] Hr'. assert (r' = r) as -> by congruence. unfold IsActive, scanUser. simpl. by rewrite Hs. Qed.
Lemma kept {A} (P : auth_world L → Prop) (m : prog (auth_world L) Error A) w x w' : keeps P m → m w = (x, w') → P w → P w'.
Proof. intros Hk Hrun Hw. specialize (Hk w Hw). by rewrite Hrun in Hk. Qed.
Lemma authenticate_shut_out now raw w p w' : shut_out w → D ≤ now → AuthenticateToken (L := L) (T := T) cfg now raw w = (Ok p, w') → prUserID p ≠ u.
Proof.
  intros Hw Hle. unfold AuthenticateToken. destruct (ParseAccessToken cfg now raw) as [claims|[]]; [|done..].
  intros ([[v dev] sid] & w1 & Hid & Hrun)%bind_Ok_inv. apply or_fail_Ok_inv in Hid as [Hid ->].
  apply bind_Ok_inv in Hrun as ([] & w2 & Hden & Hrun). pose proof (kept _ _ _ _ _ (out_denied now sid) Hden Hw) as Hw2.
  apply bind_Ok_inv in Hrun as ([[st ver] del] & w3 & Huser & Hrun).
  apply bind_Ok_inv in Hrun as ([] & w4 & [_ ->]%fail_if_Ok_inv & Hrun).
  apply bind_Ok_inv in Hrun as ([] & w5 & [Hst ->]%fail_if_Ok_inv & Hrun).
  apply bind_Ok_inv in Hrun as ([roles perms] & w6 & _ & Hrun). injection Hrun as <- _. simpl. intros ->.
  pose proof (userWithCache_shut_out now w2 Hw2) as Hout. rewrite Huser in Hout. destruct Hout as [Hne _].
  by rewrite bool_decide_false in Hst by auto.
Qed.
Lemma refresh_shut_out now m token w pair w' : shut_out w → Refresh (L := L) (T := T) cfg now m token w = (Ok pair, w') → tpUserID pair ≠ u.
Proof.
  intros Hw Hrun Hu'. apply Refresh_Ok_inv in Hrun as (k & r & x & _ & Hk & _ & _ & _ & _ & Huser & Hact & _ & _ & Htp & _).
  rewrite Hu' in Htp. rewrite <-Htp in Huser. unfold UserByID in Huser. apply fmap_Some in Huser as (a & Ha & ->).
  by rewrite (scanned_inactive w a Hw Ha) in Hact.
Qed.
Lemma finish_shut_out now m i phone user w pair w' :
  shut_out w → (∀ x, user = Some x → usID x = u → IsActive x = false) →
  finish_signin (L := L) (T := T) cfg now m i phone user w = (Ok pair, w') → tpUserID pair ≠ u.
Proof.
  intros Hw Hx. unfold finish_signin. intros (x & w1 & Hacc & Hrun)%bind_Ok_inv.
  apply bind_Ok_inv in Hrun as ([] & w2 & [Hact ->]%fail_if_Ok_inv & Hrun).
  apply bind_Ok_inv in Hrun as (p & w3 & Hissue & Hrun). apply issueTokens_inv in Hissue as (_ & _ & _ & _ & _ & Hp & _).
  apply bind_Ok_inv in Hrun as ([] & w4 & _ & Hrun). apply bind_Ok_inv in Hrun as ([] & w5 & _ & Hrun). injection Hrun as <- _. simpl. rewrite Hp.
  intros Hxu. destruct user as [y|].
  - injection Hacc as <- _. by rewrite (Hx y) in Hact.
  - unfold account_for, stmt in Hacc. destruct (CreateUser _ _ _ _ _ _) as [[y|e] d] eqn:Hc; [|done]. injection Hacc as -> _.
    apply CreateUser_inv in Hc as (Hid & _ & Hnone & _). rewrite Hxu in Hid. subst. destruct Hw as [(r & Hr & _) _]. congruence.
Qed.
Lemma out_admit now i : keeps shut_out (admit_otp (L := L) now i).
Proof. unfold admit_otp. keeps_steps; out. Qed.
Lemma out_read phone : keeps shut_out (read_otp (L := L) phone).
Proof. unfold read_otp. keeps_steps; out. Qed.
Lemma out_claim now id : keeps shut_out (claim_otp (L := L) now id).
Proof. unfold claim_otp. keeps_steps; out. Qed.
Lemma verify_shut_out now m i w pair w' : shut_out w → VerifyOTP (L := L) (T := T) cfg now m i w = (Ok pair, w') → tpUserID pair ≠ u.
Proof.
  intros Hw. unfold VerifyOTP. intros (phone & w1 & Hadm & Hrun)%bind_Ok_inv.
  pose proof (kept _ _ _ _ _ (out_admit now i) Hadm Hw) as Hw1.
  apply bind_Ok_inv in Hrun as ([id o] & w2 & Hread & Hrun).
  pose proof (kept _ _ _ _ _ (out_read phone) Hread Hw1) as Hw2.
  destruct (otp_check now (vi_Code i) o); [done|done| |].
  - unfold wrong_code, report_wrong in Hrun. apply bind_Ok_inv in Hrun as (n & w3 & _ & Hrun).
    apply bind_Ok_inv in Hrun as (ex & w4 & _ & Hrun). apply bind_Ok_inv in Hrun as ([] & w5 & _ & Hrun). by destruct (_ <=? _).
  - unfold accept_otp in Hrun. apply bind_Ok_inv in Hrun as (user & w3 & Huser & Hrun). injection Huser as Huser <-.
    apply bind_Ok_inv in Hrun as ([] & w4 & Hsf & Hrun). apply second_factor_inv in Hsf as [-> _].
    apply bind_Ok_inv in Hrun as ([] & w5 & Hcl & Hrun).
    pose proof (kept _ _ _ _ _ (out_claim now id) Hcl Hw2) as Hw5.
    revert Hrun. apply finish_shut_out; [done|]. intros x -> Hxu. unfold UserByPhone in Huser.
    apply fmap_Some in Huser as ([v r] & Hrow & ->). simpl in *. subst v. apply one_row_Some in Hrow as [Hr _].
    by apply (scanned_inactive w2).
Qed.

(** *** Requests between their read of the account and their store of it *)

Lemma out_finish now m i phone user : keeps shut_out (finish_signin (L := L) (T := T) cfg now m i phone user).
Proof. unfold finish_signin, account_for. keeps_steps; out. Qed.
Lemma cachedUser_world now v w : (cachedUser (L := L) now v w).2 = w.
Proof. unfold cachedUser. rewrite bind_run. unfold on_cache. by destruct w. Qed.
Lemma readUser_world v w : (readUser (L := L) v w).2 = w.
Proof. unfold readUser. rewrite bind_run. unfold read_db, gets, or_fail. simpl. by destruct (UserByID v (aw_db w)). Qed.

(** What was in flight at the ban stores by [D] less the cache's half minute;
    what has read the account since has read that it is suspended. *)
Definition gate_shut (old : gmap N (uuid * User)) (g : gate L) : Prop :=
  shut_out (gt_world g) ∧
  ∀ r v x, gt_read g !! r = Some (v, x) → user_state_key v = user_state_key u → usStatus x = "banned"%string ∨ is_Some (old !! r).
Lemma gate_step_shut old s g :
  in_flight_by old (D - userCacheTTL) s → gate_shut old g → gate_shut old (run_gate_step (T := T) cfg deliverable echo s g).
Proof.
  intros Hs [Hw Hread]. destruct g as [w rs]. cbn [gt_world gt_read] in *.
  destruct s as [o|r now v|r now|now v|now m i phone user]; cbn [run_gate_step in_flight_by gt_world gt_read] in *.
  - split; [by apply run_op_shut_out|exact Hread].
  - pose proof (cachedUser_world now v w) as Hc. destruct (cachedUser now v w) as [[[st|]|e] w1]; cbn [snd] in Hc; subst w1; [by split| |by split].
    pose proof (readUser_world v w) as Hr. destruct (readUser v w) as [[x|e] w2] eqn:Hrun; cbn [snd] in Hr; subst w2; [|by split].
    split; [done|]. simpl. intros r' v' x'. destruct (decide (r = r')) as [<-|Hne]; [rewrite lookup_insert_eq|rewrite lookup_insert_ne by done; apply Hread].
    intros [= <- <-] Hkey. left. symmetry in Hkey. apply state_key_inj in Hkey as ->; [|done].
    destruct (readUser_shut_out w Hw) as (y & Hy & Hst). congruence.
  - destruct (rs !! r) as [[v x]|] eqn:Hr; [|by split]. split; simpl.
    + unfold storeUser. rewrite bind_run. unfold on_cache.
      destruct (decide (user_state_key v = user_state_key u)) as [Hkey|Hne].
      * rewrite Hkey. pose proof (inactive_store now x (aw_cache w)) as Hst. destruct Hw as [Hd Hc].
        destruct (Set_ _ _ _ _ _) as [b c]. simpl. split; [done|]. simpl. apply Hst; [|done].
        destruct (Hread r v x Hr Hkey) as [?|Hold]; [by left|right]. specialize (Hs Hold). lia.
      * pose proof (inactive_Set now (user_state_key v) (encodeUserState x) userCacheTTL (aw_cache w) (not_eq_sym Hne) (proj2 Hw)) as Hst.
        destruct (Set_ _ _ _ _ _) as [b c]. simpl. by split; [apply Hw|].
    + intros r' v' x' [_ Hr']%lookup_delete_Some. by apply (Hread r').
  - split; [by apply out_roles|exact Hread].
  - split; [by apply out_finish|exact Hread].
Qed.
Lemma gate_steps_shut old steps g :
  Forall (in_flight_by old (D - userCacheTTL)) steps → gate_shut old g → gate_shut old (run_gate (T := T) cfg deliverable echo steps g).
Proof. intros Hall. revert g. induction Hall as [|s steps Hs Hall IH]; intros g Hg; [done|]. simpl. by apply IH, gate_step_shut. Qed.
End banned.

(** *** The request that suspends *)

Section suspending.
Context {L : Type} (ilike : string → string → bool) (day_of : time → Z) (inet : string → bool).
Implicit Types (w : admin_world L).

(** A request to suspend an account, by its status or by a global ban. *)
Definition asks_to_suspend (r : admin_route) (u : uuid) : Prop :=
  match r with
  | PutUserStatus (Some v) b => v = u ∧ ∃ reason, first_value b = Ok ("banned"%string, reason)
  | PostBan b => ∃ body, first_value b = Ok body ∧ bb_scope body = "global"%string ∧ bb_user body = Some u
  | _ => False
  end.
(** What is revoked of an account. *)
Definition signed_off (u : uuid) (d : authdb) : Prop :=
  (∀ k s, sessions d !! k = Some s → se_user_id s = u → se_revoked_at s ≠ None) ∧
  (∀ k dv, devices (core d) !! k = Some dv → d_user_id dv = u → d_revoked_at dv ≠ None).
Definition suspension (u : uuid) w : Prop :=
  suspended u (authdb_of w) ∧ (∀ D, cached_inactive u D (aw_cache (am_auth w))) ∧ signed_off u (authdb_of w).

Lemma SetUserStatus_banned now u w w1 : SetUserStatus (L := L) now u "banned" w = (Ok (), w1) →
  suspended u (authdb_of w1) ∧ signed_off u (authdb_of w1) ∧ aw_cache (am_auth w1) = aw_cache (am_auth w).
Proof.
  unfold SetUserStatus. intros Hrun%in_tx_Ok_inv. apply bind_Ok_inv in Hrun as (known & w2 & Hk & Hrun). injection Hk as <- <-.
  apply bind_Ok_inv in Hrun as ([] & w3 & Hset & Hrun). injection Hset as <-.
  apply bind_Ok_inv in Hrun as ([] & w4 & [Hk ->]%fail_if_Ok_inv & Hrun). apply negb_false_iff in Hk.
  injection Hrun as <-. unfold known_user in Hk. apply bool_decide_eq_true in Hk as [r Hr].
  split_and!; [| |done].
  - exists (with_a_status "banned" (with_a_token_version (a_token_version r + 1) r)). simpl. split; [|done].
    change (aw_db (am_auth w)) with (authdb_of w). by rewrite lookup_update_where, Hr; simpl; rewrite bool_decide_true.
  - split; intros k x; simpl; rewrite lookup_update_where; intros (x0 & Hx0 & ->)%fmap_Some.
    + destruct (bool_decide _ && live_session _) eqn:Hb; [done|]. intros Hs. rewrite bool_decide_true in Hb by done.
      unfold live_session in Hb. simpl in Hb. by destruct (se_revoked_at x0).
    + destruct (bool_decide _ && _) eqn:Hb; [done|]. intros Hs. rewrite bool_decide_true in Hb by done. simpl in Hb. by destruct (d_revoked_at x0).
Qed.
Lemma invalidate_suspension u w : c_up (aw_cache (am_auth w)) = true → suspended u (authdb_of w) → signed_off u (authdb_of w) →
  suspension u (invalidate u w).2.
Proof.
  intros Hup Hs Ho. unfold invalidate, zoom, InvalidateUserCache, on_cache, Delete, mbind, prog_bind. rewrite Hup. cbn. rewrite Hup.
  split; [exact Hs|]. split; [|exact Ho]. intros D x t v del. unfold drop_key. simpl.
  rewrite lookup_delete_ne by (by intros [=]). by rewrite lookup_delete_eq.
Qed.
Lemma audit_suspension c a x y z d u w : suspension u w → suspension u (audit inet c a x y z d w).2.
Proof. intros Hw. unfold audit, modify, Audit. simpl. by destruct (_ || _). Qed.

Lemma map_err_Ok_inv {S E E' A} (h : E → E') (m : prog S E A) s x s' : map_err h m s = (Ok x, s') → m s = (Ok x, s').
Proof. unfold map_err, catch. by destruct (m s) as [[y|e] s1]; intros [= <- <-]. Qed.
Lemma DecodeJSON_Ok_inv {S B} (b : Body B) (s s' : S) v : DecodeJSON b s = (Ok v, s') → first_value b = Ok v ∧ s' = s.
Proof.
  unfold DecodeJSON. destruct (negb _ && negb _); [done|]. destruct (first_value b) as [v'|f]; [|done].
  destruct (at_end b); [|done]. by intros [= <- <-].
Qed.
Lemma actorFrom_Ok_inv q w a w' : actorFrom (L := L) q w = (Ok a, w') → w' = w.
Proof. unfold actorFrom, MustPrincipal. destruct (rq_principal q); [|done]. by intros [= <- <-]. Qed.
Lemma suspends_now c q r u w w' :
  c_up (aw_cache (am_auth w)) = true → asks_to_suspend r u → Routes ilike day_of inet c q r w = (Ok (), w') → suspension u w'.
Proof.
  intros Hup Hask Hrun. destruct (Routes_run ilike day_of inet c q r w) as [Heq|[e Heq]]; rewrite Heq in Hrun; [|done]. clear Heq.
  destruct r; try done; simpl in Hask, Hrun.
  - destruct userID as [v|]; [|done]. destruct Hask as (-> & reason & Hb). unfold handle_setUserStatus in Hrun.
    apply bind_Ok_inv in Hrun as (a & w1 & ->%actorFrom_Ok_inv & Hrun).
    apply bind_Ok_inv in Hrun as (v & w2 & Hid & Hrun). injection Hid as <- <-.
    apply bind_Ok_inv in Hrun as (b & w3 & [Hb' ->]%DecodeJSON_Ok_inv & Hrun). rewrite Hb in Hb'. injection Hb' as <-. simpl in Hrun.
    unfold Service_SetUserStatus in Hrun. apply bind_Ok_inv in Hrun as ([] & w4 & [_ ->]%fail_if_Ok_inv & Hrun).
    apply bind_Ok_inv in Hrun as ([] & w5 & [_ ->]%fail_if_Ok_inv & Hrun).
    apply bind_Ok_inv in Hrun as ([] & w6 & Hset%map_err_Ok_inv & Hrun). apply SetUserStatus_banned in Hset as (Hs & Ho & Hc).
    apply bind_Ok_inv in Hrun as ([] & w7 & Hinv & Hrun). rewrite <-Hc in Hup. pose proof (invalidate_suspension u w6 Hup Hs Ho) as Hsus.
    rewrite Hinv in Hsus. simpl in Hsus. match type of Hrun with audit _ _ _ ?x1 ?x2 ?x3 ?x4 _ = _ => pose proof (audit_suspension c a x1 x2 x3 x4 u w7 Hsus) as Hfin end.
    by rewrite Hrun in Hfin.
  - destruct Hask as (body0 & Hb & Hscope & Huser). unfold answered, handle_createBan in Hrun.
    apply bind_Ok_inv in Hrun as (id & w0 & Hrun & Hend). injection Hend as <-.
    apply bind_Ok_inv in Hrun as (a & w1 & ->%actorFrom_Ok_inv & Hrun).
    apply bind_Ok_inv in Hrun as (b & w3 & [Hb' ->]%DecodeJSON_Ok_inv & Hrun). rewrite Hb in Hb'. injection Hb' as <-.
    unfold Service_CreateBan in Hrun. apply bind_Ok_inv in Hrun as ([ban v] & w4 & Hadm & Hrun).
    assert (w4 = w ∧ bn_Scope ban = "global"%string ∧ bn_UserID ban = Some u ∧ v = u) as (-> & Hbs & Hbu & ->).
    { unfold admissible_ban in Hadm. simpl in Hadm. rewrite Hscope, Huser in Hadm. rewrite bool_decide_true in Hadm by done.
      apply bind_Ok_inv in Hadm as (r & w5 & Hr & Hadm). injection Hr as <- <-.
      apply bind_Ok_inv in Hadm as ([] & w6 & [_ ->]%fail_if_Ok_inv & Hadm). by injection Hadm as <- <- <-. }
    apply bind_Ok_inv in Hrun as (id' & w5 & Hban%map_err_Ok_inv & Hrun).
    assert (known_user w5 u = true ∧ am_auth w5 = am_auth w) as [Hk Hauth].
    { unfold CreateBan in Hban. destruct (negb (fits (known_user w) (bn_UserID ban))) eqn:Hk; [done|]. rewrite Hbu in Hk. apply negb_false_iff in Hk.
      destruct (_ || _); [done|]. injection Hban as _ <-. done. }
    rewrite Hbs, bool_decide_true in Hrun by done. apply bind_Ok_inv in Hrun as ([] & w6 & Hsus & Hrun).
    assert (suspension u w6) as Hw6.
    { unfold suspend in Hsus. destruct (SetUserStatus (cl_now c) u "banned" w5) as [[[]|e] w7] eqn:Hset.
      - apply SetUserStatus_banned in Hset as (Hs & Ho & Hc). rewrite <-Hauth, <-Hc in Hup.
        pose proof (invalidate_suspension u w7 Hup Hs Ho) as Hi. by rewrite Hsus in Hi.
      - exfalso. revert Hset. unfold SetUserStatus, in_tx. rewrite bind_run. unfold gets. cbn [fst snd]. rewrite Hk. by cbn. }
    apply bind_Ok_inv in Hrun as ([] & w8 & Hlog & Hrun). injection Hrun as _ <-.
    match type of Hlog with audit _ _ _ ?x1 ?x2 ?x3 ?x4 _ = _ => pose proof (audit_suspension c a x1 x2 x3 x4 u w6 Hw6) as Hfin end.
    by rewrite Hlog in Hfin.
Qed.
End suspending.

(** C31: A suspended account is shut out.  Once an operator's request to ban an account, by its
    status or by a global ban, has been carried out while the cache answers, every session and
    every device of the account is revoked.  Whatever the identity service does from then on, for
    this account or for others, in any order, whether or not the cache answers, with any number of
    requests caught at the ban between their read of an account and their store of it in the
    cache, and of sign-ins caught about to be finished: no refresh token and no one-time code
    presented after the ban lets anybody in as that account, and no access token does once half
    a minute has passed, by the clock the cache expires by, since the last of those requests
    stored what it had read; at once when there was none. *)
Theorem banned_account_is_shut_out `{AuthLimiter L} `{JWT T} `{UuidParse} `{Digest} `{Argon2} `{CaseFold} ilike day_of inet
    cfg deliverable echo c q r u (w w' : admin_world L) (caught : gmap N (uuid * User)) (last : time) steps :
  (u < 2 ^ 128)%N → (∀ s v, uuid_Parse s = Some v → (v < 2 ^ 128)%N) →
  c_up (aw_cache (am_auth w)) = true → asks_to_suspend r u → Routes ilike day_of inet c q r w = (Ok (), w') →
  Forall (in_flight_by caught last) steps →
  signed_off u (authdb_of w') ∧
  let a := gt_world (run_gate cfg deliverable echo steps (MkGate (am_auth w') caught)) in
  (∀ now raw p a', last + 30 * second ≤ now ∨ caught = ∅ → AuthenticateToken cfg now raw a = (Ok p, a') → prUserID p ≠ u) ∧
  (∀ now m token pair a', Refresh (T := T) cfg now m token a = (Ok pair, a') → tpUserID pair ≠ u) ∧
  (∀ now m i pair a', VerifyOTP (T := T) cfg now m i a = (Ok pair, a') → tpUserID pair ≠ u).
Proof.
  intros Hu Hparse Hup Hask Hrun Hsteps. destruct (suspends_now _ _ _ _ _ _ _ _ _ Hup Hask Hrun) as (Hs & Hc & Ho).
  split; [done|].
  assert (∀ D, Forall (in_flight_by caught (D - userCacheTTL)) steps →
    shut_out u D (gt_world (run_gate (T := T) cfg deliverable echo steps (MkGate (am_auth w') caught)))) as Hout.
  { intros D Hall. apply (gate_steps_shut cfg deliverable echo u Hu Hparse D caught steps _ Hall).
    split; [by split; [|apply Hc]|]. intros r' v x Hr _. right. by eexists. }
  assert (Forall (in_flight_by caught (last + userCacheTTL - userCacheTTL)) steps) as Hlast by by rewrite Z.add_simpl_r.
  cbn zeta. split_and!.
  - intros now raw p a' Hnow. apply (authenticate_shut_out cfg u Hu now); [|lia].
    apply Hout. eapply Forall_impl; [exact Hsteps|]. intros [] Hin; try done. intros Hr. specialize (Hin Hr).
    destruct Hnow as [Hle| ->]; [unfold userCacheTTL; lia|by destruct Hr; rewrite lookup_empty in *].
  - intros now m token pair a'. by eapply refresh_shut_out, Hout.
  - intros now m i pair a'. by eapply verify_shut_out, Hout.
Qed.

(** ** Concrete runs *)

(** Identifiers of sixteen bytes only. *)
Definition strict_parse (s : string) : option uuid := let v := parse_uuid s in if (v <? 2 ^ 128)%N then Some v else None.
Lemma strict_parse_String u : (u < 2 ^ 128)%N → strict_parse (uuid_String u) = Some u.
Proof. intros Hu. unfold strict_parse. rewrite parse_uuid_String by done. by rewrite (proj2 (N.ltb_lt _ _)). Qed.
#[local] Instance strict_uuid : UuidParse := {| uuid_Parse := strict_parse; uuid_Parse_String := strict_parse_String |}.
Lemma strict_uuid_bound s v : uuid_Parse s = Some v → (v < 2 ^ 128)%N.
Proof. unfold uuid_Parse, strict_uuid, strict_parse. destruct (parse_uuid s <? 2 ^ 128)%N eqn:Hlt; [|done]. intros [= <-]. by apply N.ltb_lt. Qed.

Definition desk_ilike (v pattern : string) : bool := false.
Definition desk_day (t : time) : Z := t / (24 * hour).
Definition desk_inet (ip : string) : bool := true.
Definition operator_account (phone : string) : AuthStore.account_row := AuthStore.MkAccount phone [] "active" false None None 0 None None None 0.
(** The account 101 has signed in; 7 is a super admin and 8 a moderator. *)
Definition desk_grants : gmap (uuid * string) grant_row :=
  {[ (7%N, "super_admin"%string) := MkGrant 7 0 None; (8%N, "moderator"%string) := MkGrant 7 0 None ]}.
Definition desk_authdb : authdb :=
  let d := aw_db signed_in in
  MkAuthDb (core d) (<[7%N := operator_account "+989000000007"]> (<[8%N := operator_account "+12345678"]> (AuthStore.accounts d)))
    (privacy_settings d) (notification_settings d) (otp_challenges d) (email_challenges d) (sessions d) (device_info d) (push_tokens d)
    (login_history d) (live_grants desk_grants)
    {[ "super_admin"%string := ["*"]; "moderator"%string := ["reports.read"; "reports.write"; "bans.write"; "users.read"] ]}%string.
Definition desk : admin_world limiter_state :=
  MkAdminWorld (set_aw_db desk_authdb signed_in) (MkSocialDb ∅ ∅ ∅ ∅ ∅ ∅ ∅) desk_grants ∅ ∅ ∅ ∅ (MkSystem ∅ empty_cache ∅) ∅
    (MkNewsDb (MkSocialDb ∅ ∅ ∅ ∅ ∅ ∅ ∅) ∅ ∅ ∅ ∅ ∅ ∅ ∅ ∅ ∅ ∅ [] ∅).
Definition desk_call : call := MkCall (2000 * second) 900 901 true 1.
Definition chief : requester := MkRequester (Some (MkPrincipal 7 70 71 "t" ["super_admin"] ["*"]))%string "10.0.0.7" "ua".
Definition moderator : requester :=
  MkRequester (Some (MkPrincipal 8 80 81 "t" ["moderator"] ["reports.read"; "reports.write"; "bans.write"; "users.read"]))%string "" "ua".
Definition desk_body {B} (v : B) : Body B := MkBody "" (Ok v) true.
Abbreviation desk_route := (Routes desk_ilike desk_day desk_inet) (only parsing).

Definition promotion : list (call * requester * admin_route) :=
  [(desk_call, moderator, PostUserRole (Some 8%N) (desk_body "super_admin"%string));
   (desk_call, chief, PostUserRole (Some 101%N) (desk_body "moderator"%string))].
Lemma roles_come_from_super_admins_witness :
  holds_role (served desk_ilike desk_day desk_inet promotion desk) (8%N, "super_admin"%string) = false ∧
  ∃ s, s ∈ promotion ∧ super s.1.2 ∧ asks_to_grant s.2 (101%N, "moderator"%string).
Proof.
  split; [vm_compute; reflexivity|].
  apply (proj1 (roles_come_from_super_admins desk_ilike desk_day desk_inet promotion desk)); vm_compute; reflexivity.
Defined.

Definition ban_request : admin_route := PutUserStatus (Some 101%N) (desk_body ("banned", "spam"))%string.
Lemma desk_auditable : auditable desk_inet desk_call chief desk.
Proof. do 3 (split; [vm_compute; reflexivity|]). intros p [= <-]. vm_compute. reflexivity. Qed.
Lemma operator_actions_are_audited_witness :
  ∃ e, am_audit (desk_route desk_call chief ban_request desk).2 = <[901%N := e]> (am_audit desk) ∧
    entry_of desk_call chief "user.status_changed" e.
Proof.
  pose proof (proj2 (proj2 (operator_actions_are_audited desk_ilike desk_day desk_inet desk_call chief ban_request desk)) desk_auditable eq_refl) as Hrun.
  assert (∃ x, (desk_route desk_call chief ban_request desk).1 = Ok x) as [x Hok] by (eexists; vm_compute; reflexivity).
  destruct (desk_route desk_call chief ban_request desk) as [[y|e] w']; [exact Hrun|discriminate Hok].
Defined.

(** A request that has read the account 101 before it is banned, and stores it after. *)
Definition caught_request : gmap N (uuid * User) :=
  match readUser 101 (am_auth desk) with (Ok user, _) => {[ 1%N := (101%N, user) ]} | _ => ∅ end.
Definition after_the_ban : gate limiter_state :=
  run_gate (T := string * string * Claims) sample_config true false [GateStores 1 (2001 * second)]
    (MkGate (am_auth (desk_route desk_call chief ban_request desk).2) caught_request).
(** Then the access token of before the ban lets the account in for half a minute more. *)
Definition let_in (t : time) : option uuid :=
  match (AuthenticateToken sample_config t (IssueAccessToken (T := string * string * Claims) sample_config (1999 * second) 101 201 301 0 "5").1
    (gt_world after_the_ban)).1 with Ok p => Some (prUserID p) | Err _ => None end.
Example stale_entry_delays_a_ban : (let_in (2002 * second), let_in (2030 * second), let_in (2031 * second)) = (Some 101%N, Some 101%N, None).
Proof. vm_compute. reflexivity. Qed.
Lemma banned_account_is_shut_out_witness :
  ∃ w', desk_route desk_call chief ban_request desk = (Ok (), w') ∧
    ∀ now raw p a', 2001 * second + 30 * second ≤ now →
      AuthenticateToken (T := string * string * Claims) sample_config now raw
        (gt_world (run_gate sample_config true false [GateStores 1 (2001 * second)] (MkGate (am_auth w') caught_request))) = (Ok p, a') → prUserID p ≠ 101%N.
Proof.
  destruct (run_is_Ok (desk_route desk_call chief ban_request) desk) as [[] Hrun]; [vm_compute; reflexivity|].
  eexists. split; [exact Hrun|].
  destruct (banned_account_is_shut_out (T := string * string * Claims) desk_ilike desk_day desk_inet sample_config true false desk_call chief
    ban_request 101 desk _ caught_request (2001 * second) [GateStores 1 (2001 * second)] ltac:(lia) strict_uuid_bound ltac:(vm_compute; reflexivity)
    (conj eq_refl (ex_intro _ "spam"%string eq_refl)) Hrun) as (_ & Hauth & _); [by repeat constructor|].
  intros now raw p a' Hnow. apply Hauth. by left.
Defined.

(** ** What the desk does that its comments do not say *)

(** An action whose entry cannot be written stands all the same. *)
Definition lost_call : call := MkCall (2000 * second) 900 901 false 1.
Example action_without_a_record :
  let r := desk_route lost_call chief ban_request desk in r.1 = Ok () ∧ am_audit r.2 = ∅ ∧ suspended 101 (authdb_of r.2).
Proof. split; [vm_compute; reflexivity|]. split; [vm_compute; reflexivity|]. eexists. split; vm_compute; reflexivity. Qed.
(** A ban that is lifted leaves the account suspended. *)
Definition global_ban (u : uuid) : admin_route := PostBan (desk_body (MkBanBody (Some u) None "global" "spam" None)).
Example lifted_ban_still_shuts_out :
  let w := (desk_route desk_call chief (global_ban 101) desk).2 in
  let r := desk_route (MkCall (3000 * second) 902 903 true 1) chief (DeleteBan (Some 900%N)) w in
  r.1 = Ok () ∧ count_where (active_ban (3000 * second)) (am_bans r.2) = 0 ∧ suspended 101 (authdb_of r.2).
Proof. split; [vm_compute; reflexivity|]. split; [vm_compute; reflexivity|]. eexists. split; vm_compute; reflexivity. Qed.
(** A moderator suspends a super admin, and anybody with the permission themselves. *)
Example moderator_suspends_the_chief :
  let r := desk_route desk_call moderator (global_ban 7) desk in r.1 = Ok () ∧ suspended 7 (authdb_of r.2).
Proof. split; [vm_compute; reflexivity|]. eexists. split; vm_compute; reflexivity. Qed.
Example operator_suspends_themselves :
  let r := desk_route desk_call moderator (global_ban 8) desk in
  r.1 = Ok () ∧ suspended 8 (authdb_of r.2) ∧
  (desk_route desk_call chief (PutUserStatus (Some 7%N) (desk_body ("banned", ""))%string) desk).1 = Err own_status.
Proof. split; [vm_compute; reflexivity|]. split; [eexists; split; vm_compute; reflexivity|vm_compute; reflexivity]. Qed.
(** A report under review counts as resolved. *)
Example reviewing_resolves :
  let w := with_am_reports {[ 50%N := MkReport None "user" 101 "spam" "" "open" None "" 0 None ]} desk in
  rp_ResolvedAt <$> am_reports (desk_route desk_call moderator (PutReport (Some 50%N) (desk_body ("reviewing", ""))%string) w).2 !! 50%N
    = Some (Some (2000 * second)).
Proof. vm_compute. reflexivity. Qed.
(** A short number is shown whole. *)
Example short_number_unmasked : NormalizePhone "+12345678" = Some "+12345678"%string ∧ maskPhone "+12345678" = "+12345***5678"%string.
Proof. vm_compute. done. Qed.
