(* ===== verification/Stickers.v ===== *)
(** * Stickers and link previews ([internal/stickers/stickers.go])

    Sticker sets, the sets a user has added, and the shared cache of unfurled links.  A slug is
    [CITEXT]; [ilike] is PostgreSQL's operator.  [url.URL.String] and [html.Parse] are
    parameters, the document being the tree of nodes the walk visits; what the guarded client
    ([NetGuard]) brings back is an argument of a request. *)

From stdpp Require Import base tactics list sorting gmap strings.
From Stdlib Require Import ZArith Lia.
From S2P Require Import Prelude Steps GoString Httpx Ports Security Auth Social NetGuard Http.

Set Default Goal Selector "!".
Open Scope Z_scope.

Definition MaxStickersPerSet : Z := 120.

(** [sticker_sets], [stickers], [user_sticker_sets] and [link_previews] *)
Record set_row := MkSetRow {
  ss_slug : string;
  ss_title : string;
  ss_owner : option uuid;
  ss_kind : string;
  ss_is_official : bool;
  ss_created_at : time;
  ss_deleted_at : option time;
}.
Record sticker_row := MkStickerRow { sr_set : uuid; sr_media : uuid; sr_emoji : string; sr_position : Z }.
Record added_row := MkAddedRow { us_position : Z; us_added_at : time }.
Record preview_row := MkPreviewRow {
  pw_url : string;
  pw_site_name : string;
  pw_title : string;
  pw_description : string;
  pw_image : option uuid;
  pw_failed : bool;
  pw_expires_at : time;
}.
Record stickerdb := MkStickerDb {
  sk_graph : socialdb;
  sk_media : gset uuid;
  sticker_sets : gmap uuid set_row;
  stickers : gmap uuid sticker_row;
  user_sticker_sets : gmap (uuid * uuid) added_row;
  link_previews : gmap (list N) preview_row;
}.
Definition with_sticker_sets v d := MkStickerDb (sk_graph d) (sk_media d) v (stickers d) (user_sticker_sets d) (link_previews d).
Definition with_stickers v d := MkStickerDb (sk_graph d) (sk_media d) (sticker_sets d) v (user_sticker_sets d) (link_previews d).
Definition with_user_sticker_sets v d := MkStickerDb (sk_graph d) (sk_media d) (sticker_sets d) (stickers d) v (link_previews d).
Definition with_link_previews v d := MkStickerDb (sk_graph d) (sk_media d) (sticker_sets d) (stickers d) (user_sticker_sets d) v.

Record Sticker := MkSticker { sk_ID : uuid; sk_MediaID : uuid; sk_Emoji : string; sk_Position : Z }.
Record StickerSet := MkStickerSet {
  set_ID : uuid;
  set_Slug : string;
  set_Title : string;
  set_Kind : string;
  set_IsOfficial : bool;
  set_OwnerID : option uuid;
  set_CreatedAt : time;
  set_Stickers : list Sticker;
  set_IsAdded : bool;
}.
Record LinkPreview := MkLinkPreview {
  lp_URL : string;
  lp_SiteName : string;
  lp_Title : string;
  lp_Description : string;
  lp_ImageMediaID : option uuid;
}.

Inductive stickererr := StickerNotFound | StickerSlugTaken | StickerDatabase.
Abbreviation statement := (prog stickerdb stickererr) (only parsing).

(** ** Repository: the sets *)

Definition same_slug (s : string) (r : set_row) : bool := bool_decide (to_lower (ss_slug r) = to_lower s).
Definition live_set (r : set_row) : bool := if ss_deleted_at r is None then true else false.
Definition slug_taken (slug : string) d : bool := 0 <? count_where (λ _ r, same_slug slug r && live_set r) (sticker_sets d).
Definition insert_set (now : time) (id ownerID : uuid) (slug title kind : string) : statement () := λ d,
  if negb (bool_decide (kind ∈ ["static"; "animated"; "video"]%string)) || negb (pg_text title) || negb (has_account ownerID (sk_graph d))
  then (Err StickerDatabase, d)
  else if bool_decide (is_Some (sticker_sets d !! id)) || slug_taken slug d then (Err StickerSlugTaken, d)
  else (Ok (), with_sticker_sets (<[id := MkSetRow slug title (Some ownerID) kind false now None]> (sticker_sets d)) d).
Definition insert_sticker (id setID : uuid) (position : Z) (s : Sticker) : statement Sticker := λ d,
  if negb (pg_text (sk_Emoji s)) || bool_decide (is_Some (stickers d !! id)) then (Err StickerDatabase, d)
  else if negb (bool_decide (sk_MediaID s ∈ sk_media d)) then (Err StickerNotFound, d)
  else (Ok (MkSticker id (sk_MediaID s) (sk_Emoji s) position),
        with_stickers (<[id := MkStickerRow setID (sk_MediaID s) (sk_Emoji s) position]> (stickers d)) d).
(** [drawn] are the ids the stickers get. *)
Fixpoint insert_stickers (drawn : nat → uuid) (setID : uuid) (i : nat) (l : list Sticker) : statement (list Sticker) :=
  match l with
  | [] => mret []
  | s :: l =>
      stored ← insert_sticker (drawn i) setID (Z.of_nat i) s;
      rest ← insert_stickers drawn setID (S i) l;
      mret (stored :: rest)
  end.
Definition CreateSet (now : time) (id : uuid) (drawn : nat → uuid) (ownerID : uuid) (slug title kind : string) (l : list Sticker)
    : statement StickerSet :=
  in_tx (
    insert_set now id ownerID slug title kind;;
    stored ← insert_stickers drawn id 0 l;
    mret (MkStickerSet id slug title kind false (Some ownerID) now stored false)).

Definition stickersIn (setID : uuid) d : list Sticker :=
  (λ r : uuid * sticker_row, MkSticker r.1 (sr_media r.2) (sr_emoji r.2) (sr_position r.2)) <$>
    order_by (λ r, sr_position r.2) (rows_where (λ _ r, bool_decide (sr_set r = setID)) (stickers d)).
Definition set_of (id : uuid) (r : set_row) (l : list Sticker) (added : bool) : StickerSet :=
  MkStickerSet id (ss_slug r) (ss_title r) (ss_kind r) (ss_is_official r) (ss_owner r) (ss_created_at r) l added.
Definition BySlug (slug : string) (viewerID : uuid) d : option StickerSet :=
  match head (rows_where (λ _ r, same_slug slug r && live_set r) (sticker_sets d)) with
  | Some (id, r) => Some (set_of id r (stickersIn id d) (bool_decide (is_Some (user_sticker_sets d !! (viewerID, id)))))
  | None => None
  end.
Definition added_rows (userID : uuid) d : list (uuid * added_row) :=
  order_by_keys (λ r, [us_position r.2; us_added_at r.2])
    ((λ r : uuid * uuid * added_row, (r.1.2, r.2)) <$> rows_where (λ k _, bool_decide (k.1 = userID)) (user_sticker_sets d)).
Definition Added (userID : uuid) d : list StickerSet :=
  omap (λ u, r ← sticker_sets d !! u.1; if live_set r then Some (set_of u.1 r (stickersIn u.1 d) true) else None) (added_rows userID d).
(** [COALESCE(max(position) + 1, 0)] of the user's rows *)
Definition next_position (userID : uuid) d : Z :=
  match us_position <$> (rows_where (λ k _, bool_decide (k.1 = userID)) (user_sticker_sets d)).*2 with
  | [] => 0
  | p :: ps => foldl Z.max p ps + 1
  end.
Definition Add (now : time) (userID setID : uuid) : statement () := λ d,
  if bool_decide (is_Some (user_sticker_sets d !! (userID, setID))) then (Ok (), d)
  else if negb (has_account userID (sk_graph d)) || negb (bool_decide (is_Some (sticker_sets d !! setID))) then (Err StickerNotFound, d)
  else (Ok (), with_user_sticker_sets (<[(userID, setID) := MkAddedRow (next_position userID d) now]> (user_sticker_sets d)) d).
Definition Remove (userID setID : uuid) : statement () := λ d,
  if bool_decide (is_Some (user_sticker_sets d !! (userID, setID)))
  then (Ok (), with_user_sticker_sets (delete (userID, setID) (user_sticker_sets d)) d)
  else (Err StickerNotFound, d).

(** ** Previews *)

Definition previewTTL : Z := 7 * 24 * hour.
Definition maxPreviewBytes : Z := Z.shiftl 512 10.
(** [html.Node]: an element, or anything else that has a text and children *)
Inductive html_node := Node (element : bool) (data : string) (attrs : list (string * string)) (children : list html_node).
Definition node_data (n : html_node) : string := let '(Node _ data _ _) := n in data.

Definition trimMeta (value : string) : string := truncate (String.concat " " (fields value)) 300.
Definition with_lp_title (t : string) (p : LinkPreview) := MkLinkPreview (lp_URL p) (lp_SiteName p) t (lp_Description p) (lp_ImageMediaID p).
Definition with_lp_description (t : string) (p : LinkPreview) := MkLinkPreview (lp_URL p) (lp_SiteName p) (lp_Title p) t (lp_ImageMediaID p).
Definition with_lp_site (t : string) (p : LinkPreview) := MkLinkPreview (lp_URL p) t (lp_Title p) (lp_Description p) (lp_ImageMediaID p).
(** The property and the content of a [meta] element: the last of each. *)
Definition meta_of (attrs : list (string * string)) : string * string :=
  foldl (λ acc kv, if bool_decide (kv.1 ∈ ["property"; "name"]%string) then (kv.2, acc.2)
                   else if bool_decide (kv.1 = "content"%string) then (acc.1, kv.2) else acc) (""%string, ""%string) attrs.
Definition visit (data : string) (attrs : list (string * string)) (children : list html_node) (p : LinkPreview) : LinkPreview :=
  if bool_decide (data = "title"%string) then
    match children with
    | child :: _ => if bool_decide (lp_Title p = ""%string) then with_lp_title (trimMeta (node_data child)) p else p
    | [] => p
    end
  else if bool_decide (data = "meta"%string) then
    let '(property, content) := meta_of attrs in
    if bool_decide (property = "og:title"%string) then with_lp_title (trimMeta content) p
    else if bool_decide (property ∈ ["og:description"; "description"]%string)
    then if bool_decide (lp_Description p = ""%string) then with_lp_description (trimMeta content) p else p
    else if bool_decide (property = "og:site_name"%string) then with_lp_site (trimMeta content) p
    else p
  else p.
Fixpoint walk (n : html_node) (p : LinkPreview) : LinkPreview :=
  let '(Node element data attrs children) := n in
  foldl (λ p child, walk child p) (if element then visit data attrs children p else p) children.

Record sticker_world := MkStickerWorld { sw_db : stickerdb; sw_fetched : list (time * string) }.
(** What a request for a page brings back: its status, its content type and its body. *)
Definition page : Type := option (Z * string * list N).

Section service.
Context `{Digest} `{UrlLibrary} (url_String : URL → string) (html_Parse : list N → option html_node) (ilike : string → string → bool).
Abbreviation handler := (prog sticker_world Error) (only parsing).

Definition Search (query : string) (limit : Z) d : list StickerSet :=
  let like v := ilike v ("%" +:+ query +:+ "%") in
  let carries id := 0 <? count_where (λ _ s, bool_decide (sr_set s = id) && bool_decide (sr_emoji s = query)) (stickers d) in
  let found := rows_where (λ id r, live_set r && (like (ss_title r) || like (ss_slug r) || carries id)) (sticker_sets d) in
  (λ r : uuid * set_row, set_of r.1 r.2 [] false) <$>
    take (Z.to_nat limit) (order_by_keys (λ r, [if ss_is_official r.2 then -1 else 0; - ss_created_at r.2]) found).

(** [CachedPreview]: [None] is a miss, [Some None] a failure that is remembered. *)
Definition url_hash (url : string) : list N := sha256 (bytes_of url).
Definition CachedPreview (now : time) (url : string) d : option (option LinkPreview) :=
  match link_previews d !! url_hash url with
  | Some r =>
      if now <? pw_expires_at r
      then Some (if pw_failed r then None
                 else Some (MkLinkPreview (pw_url r) (pw_site_name r) (pw_title r) (pw_description r) (pw_image r)))
      else None
  | None => None
  end.
Definition storable (p : LinkPreview) : bool :=
  pg_text (lp_URL p) && pg_text (lp_SiteName p) && pg_text (lp_Title p) && pg_text (lp_Description p).
Definition StorePreview (now : time) (p : LinkPreview) (failed : bool) : statement () := λ d,
  if negb (storable p) then (Err StickerDatabase, d)
  else
    let url := from_option pw_url (lp_URL p) (link_previews d !! url_hash (lp_URL p)) in
    (Ok (), with_link_previews (<[url_hash (lp_URL p) :=
       MkPreviewRow url (lp_SiteName p) (lp_Title p) (lp_Description p) (lp_ImageMediaID p) failed (now + previewTTL)]> (link_previews d)) d).

(** ** Service *)

(** [slugPattern] *)
Definition slug_byte (b : N) : bool := in_range 97 122 b || in_range 48 57 b || (b =? 95)%N.
Definition slugPattern (s : string) : bool :=
  match bytes_of s with
  | b :: bs => in_range 97 122 b && forallb slug_byte bs && (2 <=? length bs)%nat && (length bs <=? 31)%nat
  | [] => false
  end.
Definition on_db {A} (h : stickererr → Error) (m : statement A) : handler A :=
  zoom sw_db (λ d w, MkStickerWorld d (sw_fetched w)) (map_err h m).
Definition create_error (e : stickererr) : Error :=
  match e with
  | StickerSlugTaken => Conflict CodeConflict "That set name is taken"
  | StickerNotFound => WithField (Validation "A sticker refers to media that does not exist") "stickers" "media_id must be an uploaded object"
  | StickerDatabase => Internal
  end.
Definition sticker_error (message : string) (e : stickererr) : Error :=
  match e with StickerNotFound => NotFound CodeNotFound message | _ => Internal end.
Definition Service_CreateSet (now : time) (id : uuid) (drawn : nat → uuid) (ownerID : uuid) (slug title kind : string) (l : list Sticker)
    : handler StickerSet :=
  let normalized := to_lower (trim_space slug) in
  fail_if (negb (slugPattern normalized)) (WithField (Validation "That set name is not valid") "slug" "3 to 32 characters, starting with a letter");;
  fail_if (bool_decide (trim_space title = ""%string)) (WithField (Validation "A title is required") "title" "cannot be empty");;
  fail_if (bool_decide (l = [])) (WithField (Validation "A set needs at least one sticker") "stickers" "at least one is required");;
  fail_if (MaxStickersPerSet <? Z.of_nat (length l)) (WithField (Validation "Too many stickers in one set") "stickers" "at most 120");;
  on_db create_error (CreateSet now id drawn ownerID normalized title (if bool_decide (kind = ""%string) then "static"%string else kind) l).
Definition Service_BySlug (slug : string) (viewerID : uuid) : handler StickerSet :=
  fail_if (negb (pg_text (to_lower slug))) Internal;;
  found ← gets (λ w, BySlug (to_lower slug) viewerID (sw_db w));
  or_fail found (NotFound CodeNotFound "Sticker set not found").
Definition Service_Added (userID : uuid) : handler (list StickerSet) := gets (λ w, Added userID (sw_db w)).
Definition Service_Add (now : time) (userID setID : uuid) : handler () := on_db (sticker_error "Sticker set not found") (Add now userID setID).
Definition Service_Remove (userID setID : uuid) : handler () := on_db (sticker_error "That set is not installed") (Remove userID setID).
Definition Service_Search (query : string) (limit : Z) : handler (list StickerSet) :=
  fail_if (negb (pg_text (trim_space query))) Internal;;
  gets (λ w, Search (trim_space query) (if (limit <=? 0) || (50 <? limit) then 20 else limit) (sw_db w)).

(** [fetch] and [parseOpenGraph] *)
Definition parseOpenGraph (body : list N) (p : LinkPreview) : option LinkPreview :=
  document ← html_Parse (take (Z.to_nat maxPreviewBytes) body); Some (walk document p).
Definition fetch (target : string) (response : page) : option LinkPreview :=
  '(status, contentType, body) ← response;
  if negb (status =? 200) || negb (contains (bytes_of contentType) (bytes_of "html")) then None
  else
    p ← parseOpenGraph body (MkLinkPreview target "" "" "" None);
    if bool_decide (lp_Title p = ""%string) then None else Some p.
Definition no_preview : Error := NotFound CodeNotFound "That link has no preview".
Definition unstored (m : statement ()) : handler () := modify (λ w, MkStickerWorld (m (sw_db w)).2 (sw_fetched w)).
Definition Preview (now : time) (dns : string → option (list IP)) (response : page) (rawURL : string) : handler LinkPreview :=
  match ValidateURL dns rawURL with
  | Err _ => fail (WithField (Validation "That link cannot be previewed") "url" "must be a resolvable public http or https URL")
  | Ok target =>
      let normalized := url_String target in
      cached ← gets (λ w, CachedPreview now normalized (sw_db w));
      match cached with
      | Some None => fail no_preview
      | Some (Some p) => mret p
      | None =>
          modify (λ w, MkStickerWorld (sw_db w) ((now, normalized) :: sw_fetched w));;
          match fetch normalized response with
          | None => unstored (StorePreview now (MkLinkPreview normalized "" "" "" None) true);; fail no_preview
          | Some p => on_db (λ _, Internal) (StorePreview now p false);; mret p
          end
      end
  end.

(** ** Handlers *)

Record set_body := MkSetBody { sb_slug : string; sb_title : string; sb_kind : string; sb_stickers : list Sticker }.
Definition handle_added (p : option Principal) : handler (list StickerSet) :=
  principal ← MustPrincipal p; Service_Added (prUserID principal).
Definition handle_createSet (now : time) (id : uuid) (drawn : nat → uuid) (p : option Principal) (body : Body set_body) : handler StickerSet :=
  principal ← MustPrincipal p;
  b ← DecodeJSON body;
  Service_CreateSet now id drawn (prUserID principal) (sb_slug b) (sb_title b) (sb_kind b) (sb_stickers b).
Definition handle_bySlug (p : option Principal) (slug : string) : handler StickerSet :=
  principal ← MustPrincipal p; Service_BySlug slug (prUserID principal).
Definition handle_search (p : option Principal) (q : string) : handler (list StickerSet) :=
  MustPrincipal p;; Service_Search q 0.
Definition setContext (p : option Principal) (setID : option uuid) : handler (Principal * uuid) :=
  principal ← MustPrincipal p;
  id ← path_id "setID is not a valid UUID" setID;
  mret (principal, id).
Definition handle_add (now : time) (p : option Principal) (setID : option uuid) : handler () :=
  c ← setContext p setID; Service_Add now (prUserID c.1) c.2.
Definition handle_remove (p : option Principal) (setID : option uuid) : handler () :=
  c ← setContext p setID; Service_Remove (prUserID c.1) c.2.
Definition handle_linkPreview (now : time) (dns : string → option (list IP)) (response : page) (p : option Principal) (url : string) : handler LinkPreview :=
  MustPrincipal p;; Preview now dns response url.
End service.

(** * What stickers and previews guarantee

    A set is stored whole and found again as it was made; a link is fetched at most once a
    week, whatever came of it. *)

(** ** Sets *)

(** Stickers belong to sets, and a name to one live set. *)
Record sets_ok (d : stickerdb) : Prop := {
  so_set : ∀ k s, stickers d !! k = Some s → is_Some (sticker_sets d !! sr_set s);
  so_slug : ∀ i j r r', sticker_sets d !! i = Some r → sticker_sets d !! j = Some r' → live_set r = true → live_set r' = true →
    to_lower (ss_slug r) = to_lower (ss_slug r') → i = j;
}.

Lemma insert_set_inv now id o slug title kind d x d' : insert_set now id o slug title kind d = (Ok x, d') →
  sticker_sets d !! id = None ∧ slug_taken slug d = false ∧
  d' = with_sticker_sets (<[id := MkSetRow slug title (Some o) kind false now None]> (sticker_sets d)) d.
Proof.
  unfold insert_set. destruct (_ || _ || _); [done|]. destruct (bool_decide (is_Some (sticker_sets d !! id))) eqn:Hid; [done|].
  destruct (slug_taken slug d); [done|]. intros [= _ <-]. apply bool_decide_eq_false, eq_None_not_Some in Hid. done.
Qed.
Lemma slug_free slug d k r : slug_taken slug d = false → sticker_sets d !! k = Some r → live_set r = true → to_lower (ss_slug r) ≠ to_lower slug.
Proof.
  unfold slug_taken. intros Hfree Hk Hl Heq. apply Z.ltb_ge in Hfree. pose proof (count_where_nonneg (λ _ r, same_slug slug r && live_set r) (sticker_sets d)) as Hn.
  assert (count_where (λ _ r, same_slug slug r && live_set r) (sticker_sets d) = 0) as Hz by lia.
  rewrite count_where_0 in Hz. specialize (Hz k r Hk). unfold same_slug in Hz. by rewrite bool_decide_true, Hl in Hz.
Qed.
(** What a list of stickers adds to the table. *)
Definition stored_as (setID : uuid) (l : list Sticker) (i : nat) (stored : list Sticker) : Prop :=
  (λ s, (sk_MediaID s, sk_Emoji s)) <$> stored = (λ s, (sk_MediaID s, sk_Emoji s)) <$> l ∧
  sk_Position <$> stored = seqZ (Z.of_nat i) (Z.of_nat (length l)).
Definition row_of (setID : uuid) (s : Sticker) : sticker_row := MkStickerRow setID (sk_MediaID s) (sk_Emoji s) (sk_Position s).
Lemma insert_stickers_inv drawn setID i l d stored d' : insert_stickers drawn setID i l d = (Ok stored, d') →
  stored_as setID l i stored ∧ sticker_sets d' = sticker_sets d ∧ user_sticker_sets d' = user_sticker_sets d ∧
  (∀ k r, stickers d' !! k = Some r ↔ stickers d !! k = Some r ∨ ∃ s, s ∈ stored ∧ sk_ID s = k ∧ r = row_of setID s).
Proof.
  revert i d stored d'. induction l as [|s l IH]; intros i d stored d'; simpl.
  { intros [= <- <-]. split; [done|]. do 2 (split; [done|]). intros k r. split; [by left|]. intros [?|(s & Hs & _)]; [done|by apply elem_of_nil in Hs]. }
  intros (x & d1 & Hins & Hrun)%bind_Ok_inv. apply bind_Ok_inv in Hrun as (rest & d2 & Hrest & Hrun). injection Hrun as <- <-.
  unfold insert_sticker in Hins. destruct (negb _ || _) eqn:Hbad; [done|]. destruct (negb (bool_decide (sk_MediaID s ∈ sk_media d))); [done|].
  injection Hins as <- <-. apply orb_false_iff in Hbad as [_ Hid]. apply bool_decide_eq_false, eq_None_not_Some in Hid.
  apply IH in Hrest as ([Hm Hp] & Hsets & Husers & Hrows). split; [split|].
  - by rewrite !fmap_cons, Hm.
  - rewrite fmap_cons, Hp. cbn [length sk_Position]. rewrite (seqZ_cons (Z.of_nat i)) by lia. f_equal. f_equal; lia.
  - do 2 (split; [done|]). intros k r. rewrite Hrows. simpl. rewrite lookup_insert_Some. split.
    + intros [[[<- <-]|[Hne Hk]]|(y & Hy & Hyk & ->)]; [right; eexists; split; [by left|done]|by left|right; exists y; split; [by right|done]].
    + intros [Hk|(y & [->|Hy]%elem_of_cons & <- & ->)]; [left; right; split; [congruence|done]|left; by left|right; by exists y].
Qed.

Lemma CreateSet_inv now id drawn o slug title kind l d set d' : CreateSet now id drawn o slug title kind l d = (Ok set, d') →
  sticker_sets d !! id = None ∧ slug_taken slug d = false ∧ stored_as id l 0 (set_Stickers set) ∧
  set = MkStickerSet id slug title kind false (Some o) now (set_Stickers set) false ∧
  sticker_sets d' = <[id := MkSetRow slug title (Some o) kind false now None]> (sticker_sets d) ∧ user_sticker_sets d' = user_sticker_sets d ∧
  (∀ k r, stickers d' !! k = Some r ↔ stickers d !! k = Some r ∨ ∃ s, s ∈ set_Stickers set ∧ sk_ID s = k ∧ r = row_of id s).
Proof.
  intros Hrun%in_tx_Ok_inv. apply bind_Ok_inv in Hrun as (x & d1 & (Hid & Hslug & ->)%insert_set_inv & Hrun).
  apply bind_Ok_inv in Hrun as (stored & d2 & (Hst & Hsets & Husers & Hrows)%insert_stickers_inv & Hrun). injection Hrun as <- <-. done.
Qed.

Lemma CreateSet_ok now id drawn o slug title kind l d : sets_ok d → sets_ok (CreateSet now id drawn o slug title kind l d).2.
Proof.
  intros Hok. destruct (CreateSet _ _ _ _ _ _ _ _ d) as [[set|e] d'] eqn:Hrun; simpl.
  2:{ unfold CreateSet in Hrun. by apply in_tx_Err in Hrun as ->. }
  apply CreateSet_inv in Hrun as (Hid & Hslug & _ & _ & Hsets & _ & Hrows). split.
  - intros k s. rewrite Hrows, Hsets. intros [Hk|(y & _ & _ & ->)]; [|simpl; by rewrite lookup_insert_eq].
    destruct (so_set _ Hok k s Hk) as [r Hr]. destruct (decide (sr_set s = id)) as [->|]; [by rewrite lookup_insert_eq|by rewrite lookup_insert_ne].
  - intros i j r r'. rewrite Hsets. rewrite !lookup_insert_Some.
    intros [[<- <-]|[Hi Hri]] [[<- <-]|[Hj Hrj]] Hl Hl' Heq; simpl in *; [done| | |by eapply (so_slug _ Hok)].
    + exfalso. by apply (slug_free slug d j r' Hslug Hrj Hl').
    + exfalso. by apply (slug_free slug d i r Hslug Hri Hl).
Qed.

Lemma StronglySorted_of_keys {A} (key : A → Z) (l : list A) : StronglySorted Z.lt (key <$> l) → StronglySorted (key_lt key) l.
Proof.
  induction l as [|x l IH]; [constructor|]. rewrite fmap_cons. intros [Hs Hall]%StronglySorted_inv. constructor; [by apply IH|].
  rewrite Forall_fmap in Hall. eapply Forall_impl; [exact Hall|done].
Qed.
(** The stickers of a set that was just stored, in the order they were given. *)
Lemma stickersIn_stored id l d d' stored :
  (∀ k s, stickers d !! k = Some s → sr_set s ≠ id) → stored_as id l 0 stored →
  (∀ k r, stickers d' !! k = Some r ↔ stickers d !! k = Some r ∨ ∃ s, s ∈ stored ∧ sk_ID s = k ∧ r = row_of id s) →
  stickersIn id d' = stored.
Proof.
  intros Hnone [_ Hpos] Hrows. unfold stickersIn. set (rows := rows_where _ _).
  set (key := λ r : uuid * sticker_row, sr_position r.2). set (mine := (λ s, (sk_ID s, row_of id s)) <$> stored).
  assert (key <$> mine = seqZ 0 (Z.of_nat (length l))) as Hkeys by (unfold mine; rewrite <-list_fmap_compose; exact Hpos).
  assert (StronglySorted (key_lt key) mine) as Hsorted.
  { apply StronglySorted_of_keys. rewrite Hkeys. apply StronglySorted_seqZ. }
  assert (rows ≡ₚ mine) as Hperm.
  { apply NoDup_Permutation; [apply NoDup_rows_where| |].
    - apply (NoDup_fmap_1 key). rewrite Hkeys. apply NoDup_seqZ.
    - intros [k r]. unfold rows, mine. rewrite elem_of_rows_where, Hrows, list_elem_of_fmap. split.
      + intros [[Hk|(s & Hs & <- & ->)] Hid]; [|by exists s]. apply bool_decide_eq_true in Hid. by destruct (Hnone k r Hk).
      + intros (s & [= -> ->] & Hs). split; [right; by exists s|]. by apply bool_decide_eq_true. }
  assert (order_by key rows = mine) as Hord.
  { apply (StronglySorted_strict_unique key).
    - apply order_by_strict. rewrite Hperm, Hkeys. apply NoDup_seqZ.
    - done.
    - intros x. by rewrite elem_of_order_by, Hperm. }
  change (order_by (λ r : uuid * sticker_row, sr_position r.2) rows) with (order_by key rows). rewrite Hord. unfold mine. rewrite <-list_fmap_compose. rewrite <-(list_fmap_id stored) at 2.
  apply list_fmap_ext. by intros i [] _.
Qed.
Lemma BySlug_found id slug viewer r d : sets_ok d → sticker_sets d !! id = Some r → live_set r = true → to_lower (ss_slug r) = to_lower slug →
  BySlug slug viewer d = Some (set_of id r (stickersIn id d) (bool_decide (is_Some (user_sticker_sets d !! (viewer, id))))).
Proof.
  intros Hok Hr Hl Hs. unfold BySlug.
  destruct (rows_where (λ _ r, same_slug slug r && live_set r) (sticker_sets d)) as [|[k x] rows] eqn:Hrows.
  - exfalso. assert ((id, r) ∈ rows_where (λ _ r, same_slug slug r && live_set r) (sticker_sets d)) as Hin.
    { apply elem_of_rows_where. split; [done|]. unfold same_slug. by rewrite bool_decide_true, Hl. }
    rewrite Hrows in Hin. by apply elem_of_nil in Hin.
  - simpl. assert ((k, x) ∈ rows_where (λ _ r, same_slug slug r && live_set r) (sticker_sets d)) as Hin by (rewrite Hrows; by left).
    apply elem_of_rows_where in Hin as [Hk [Hsame%bool_decide_eq_true Hlive]%andb_prop].
    assert (k = id) as -> by (eapply (so_slug _ Hok); [exact Hk|exact Hr|done|done|congruence]). congruence.
Qed.

Section stickers.
Context `{Digest} `{UrlLibrary} (url_String : URL → string) (html_Parse : list N → option html_node) (ilike : string → string → bool).
Implicit Types (w : sticker_world).

Lemma Service_CreateSet_inv now id drawn o slug title kind l w set w' :
  Service_CreateSet now id drawn o slug title kind l w = (Ok set, w') →
  l ≠ [] ∧ Z.of_nat (length l) ≤ MaxStickersPerSet ∧ slugPattern (to_lower (trim_space slug)) = true ∧
  CreateSet now id drawn o (to_lower (trim_space slug)) title (if bool_decide (kind = ""%string) then "static"%string else kind) l (sw_db w)
    = (Ok set, sw_db w').
Proof.
  unfold Service_CreateSet. intros Hrun. apply bind_Ok_inv in Hrun as ([] & w1 & [Hpat ->]%fail_if_Ok_inv & Hrun).
  apply bind_Ok_inv in Hrun as ([] & w2 & [_ ->]%fail_if_Ok_inv & Hrun).
  apply bind_Ok_inv in Hrun as ([] & w3 & [Hne%bool_decide_eq_false ->]%fail_if_Ok_inv & Hrun).
  apply bind_Ok_inv in Hrun as ([] & w4 & [Hmax%Z.ltb_ge ->]%fail_if_Ok_inv & Hrun). apply negb_false_iff in Hpat.
  do 3 (split; [done|]). unfold on_db, zoom, map_err, catch in Hrun. destruct (CreateSet _ _ _ _ _ _ _ _ (sw_db w)) as [[x|e] d]; simpl in Hrun; [|done].
  by injection Hrun as <- <-.
Qed.

(** A sticker set is found as it was made.  A request to create a set either fails and
    leaves the sets and the stickers as they were, or stores one to 120 stickers and hands the
    set back; and whoever then asks for its name, in capitals or not, gets that very set, every
    sticker in the place it was given. *)
Lemma sticker_sets_round_trip now id drawn o slug title kind l w :
  sets_ok (sw_db w) →
  match Service_CreateSet now id drawn o slug title kind l w with
  | (Err _, w') => sw_db w' = sw_db w
  | (Ok set, w') =>
      (0 < Z.of_nat (length l) ≤ MaxStickersPerSet) ∧ sets_ok (sw_db w') ∧
      (λ s, (sk_MediaID s, sk_Emoji s)) <$> set_Stickers set = (λ s, (sk_MediaID s, sk_Emoji s)) <$> l ∧
      ∀ q viewer, to_lower q = to_lower (trim_space slug) → pg_text (to_lower q) = true →
        ∃ added, Service_BySlug q viewer w' = (Ok (MkStickerSet id (set_Slug set) title (set_Kind set) false (Some o) now (set_Stickers set) added), w')
  end.
Proof.
  intros Hok. destruct (Service_CreateSet now id drawn o slug title kind l w) as [[set|e] w'] eqn:Hrun.
  - apply Service_CreateSet_inv in Hrun as (Hne & Hmax & _ & Hrun).
    pose proof (CreateSet_ok now id drawn o (to_lower (trim_space slug)) title (if bool_decide (kind = ""%string) then "static"%string else kind) l _ Hok) as Hok'.
    rewrite Hrun in Hok'. simpl in Hok'. apply CreateSet_inv in Hrun as (Hid & _ & Hst & Hset & Hsets & _ & Hrows).
    assert (stickersIn id (sw_db w') = set_Stickers set) as Hin.
    { eapply stickersIn_stored; [|exact Hst|exact Hrows]. intros k s Hk Heq. destruct (so_set _ Hok k s Hk) as [r Hr]. congruence. }
    split; [destruct l; [done|simpl in *; lia]|]. split; [done|]. split; [apply Hst|]. intros q viewer Hq Hpg.
    unfold Service_BySlug. rewrite bind_run. unfold fail_if. rewrite Hpg. cbn [negb mret prog_ret]. rewrite bind_run. unfold gets. cbn [fst snd].
    erewrite (BySlug_found id (to_lower q) viewer); [|done|by rewrite Hsets, lookup_insert_eq|done|simpl; by rewrite Hq].
    unfold or_fail, set_of. rewrite Hin. simpl. rewrite Hset. simpl. by eexists.
  - revert Hrun. unfold Service_CreateSet. rewrite bind_run. unfold fail_if at 1. destruct (negb _); [by intros [= _ <-]|]. cbn [mret prog_ret].
    rewrite bind_run. unfold fail_if at 1. destruct (bool_decide _); [by intros [= _ <-]|]. cbn [mret prog_ret].
    rewrite bind_run. unfold fail_if at 1. destruct (bool_decide _); [by intros [= _ <-]|]. cbn [mret prog_ret].
    rewrite bind_run. unfold fail_if at 1. destruct (_ <? _); [by intros [= _ <-]|]. cbn [mret prog_ret].
    unfold on_db, zoom, map_err, catch. destruct (CreateSet _ _ _ _ _ _ _ _ (sw_db w)) as [[x|e'] d] eqn:Hc; simpl; [done|]. intros [= _ <-].
    unfold CreateSet in Hc. by apply in_tx_Err in Hc.
Qed.

(** ** Previews *)

Lemma visit_url data attrs children p : lp_URL (visit data attrs children p) = lp_URL p.
Proof.
  unfold visit. destruct (bool_decide _); [destruct children; [done|by destruct (bool_decide _)]|]. destruct (bool_decide _); [|done].
  destruct (meta_of attrs) as [property content]. by repeat destruct (bool_decide _).
Qed.
Lemma walk_url : ∀ n p, lp_URL (walk n p) = lp_URL p.
Proof.
  fix IH 1. intros [element data attrs children] p. simpl.
  assert (lp_URL (if element then visit data attrs children p else p) = lp_URL p) as <- by (destruct element; [apply visit_url|done]).
  generalize (if element then visit data attrs children p else p). induction children as [|c cs IHcs]; intros q; simpl; [done|].
  by rewrite IHcs, IH.
Qed.
Lemma fetch_url target response p : fetch html_Parse target response = Some p → lp_URL p = target.
Proof.
  unfold fetch, parseOpenGraph. intros ([[status ctype] body] & _ & Hrun)%bind_Some. destruct (_ || _); [done|].
  apply bind_Some in Hrun as (q & (doc & _ & [= <-])%bind_Some & Hrun). destruct (bool_decide _); [done|]. injection Hrun as <-. apply walk_url.
Qed.

Record asked := MkAsked { as_now : time; as_dns : string → option (list IP); as_page : page; as_url : string }.
Definition run_preview (w : sticker_world) (a : asked) : sticker_world :=
  (Preview url_String html_Parse (as_now a) (as_dns a) (as_page a) (as_url a) w).2.
(** Whatever the page says of itself can be stored. *)
Definition rememberable (a : asked) : Prop := ∀ target, ValidateURL (as_dns a) (as_url a) = Ok target →
  pg_text (url_String target) = true ∧ ∀ p, fetch html_Parse (url_String target) (as_page a) = Some p → storable p = true.
(** No page is fetched twice within a week. *)
Definition weekly (log : list (time * string)) : Prop :=
  ∀ later t' u earlier t, log = later ++ (t', u) :: earlier → (t, u) ∈ earlier → t + previewTTL ≤ t'.
Definition kept_until (now : time) (w : sticker_world) : Prop :=
  weekly (sw_fetched w) ∧ ∀ t u, (t, u) ∈ sw_fetched w →
    t ≤ now ∧ ∃ r, link_previews (sw_db w) !! url_hash u = Some r ∧ t + previewTTL ≤ pw_expires_at r.

Lemma weekly_cons t u log : weekly log → (∀ t0, (t0, u) ∈ log → t0 + previewTTL ≤ t) → weekly ((t, u) :: log).
Proof.
  intros Hw Hu [|x later] t' u' earlier t0 Heq Hin; simpl in Heq; injection Heq as Hx Heq.
  - subst. by apply Hu.
  - by eapply Hw.
Qed.
Lemma StorePreview_run now p failed d : storable p = true →
  ∃ r, StorePreview now p failed d = (Ok (), with_link_previews (<[url_hash (lp_URL p) := r]> (link_previews d)) d) ∧ pw_expires_at r = now + previewTTL.
Proof. intros Hs. unfold StorePreview. rewrite Hs. simpl. by eexists. Qed.
Lemma kept_after now u r w w' : kept_until now w → (∀ t, (t, u) ∈ sw_fetched w → t + previewTTL ≤ now) →
  sw_fetched w' = (now, u) :: sw_fetched w → link_previews (sw_db w') = <[url_hash u := r]> (link_previews (sw_db w)) → pw_expires_at r = now + previewTTL →
  kept_until now w'.
Proof.
  intros [Hweek Hkept] Hu Hlog Hdb Hr. split; rewrite Hlog; [by apply weekly_cons|]. intros t v. rewrite Hdb.
  intros [[= -> ->]|Hin]%elem_of_cons.
  - split; [lia|]. exists r. rewrite lookup_insert_eq. split; [done|lia].
  - destruct (Hkept t v Hin) as (Ht & x & Hx & Hexp). split; [done|].
    destruct (decide (url_hash u = url_hash v)) as [<-|Hne].
    + exists r. rewrite lookup_insert_eq. split; [done|lia].
    + exists x. by rewrite lookup_insert_ne.
Qed.
Lemma kept_later now now' w : now ≤ now' → kept_until now w → kept_until now' w.
Proof. intros Hle [Hw Hk]. split; [done|]. intros t u Hin. destruct (Hk t u Hin) as [Ht Hr]. split; [lia|done]. Qed.
Lemma run_preview_kept a w : rememberable a → kept_until (as_now a) w → kept_until (as_now a) (run_preview w a).
Proof.
  intros Hrem Hw. unfold run_preview, Preview. destruct (ValidateURL (as_dns a) (as_url a)) as [target|e] eqn:Hval; [|done].
  destruct (Hrem target Hval) as [Hpg Hpage]. rewrite bind_run. unfold gets. cbn [fst snd].
  destruct (CachedPreview (as_now a) (url_String target) (sw_db w)) as [[p|]|] eqn:Hcache; [done|done|].
  assert (∀ t, (t, url_String target) ∈ sw_fetched w → t + previewTTL ≤ as_now a) as Hold.
  { intros t Hin. destruct Hw as [_ Hk]. destruct (Hk _ _ Hin) as (_ & r & Hr & Hexp). unfold CachedPreview in Hcache. rewrite Hr in Hcache.
    destruct (Z.ltb_spec (as_now a) (pw_expires_at r)); [done|lia]. }
  rewrite bind_run. unfold modify. cbn [fst snd]. destruct (fetch html_Parse (url_String target) (as_page a)) as [p|] eqn:Hfetch.
  - destruct (StorePreview_run (as_now a) p false (sw_db w) (Hpage p eq_refl)) as (r & Hstore & Hexp).
    rewrite bind_run. unfold on_db, zoom, map_err, catch. simpl. rewrite Hstore. simpl.
    eapply kept_after; [exact Hw|exact Hold|done| |exact Hexp]. simpl. by rewrite (fetch_url _ _ _ Hfetch).
  - destruct (StorePreview_run (as_now a) (MkLinkPreview (url_String target) "" "" "" None) true (sw_db w)) as (r & Hstore & Hexp).
    { unfold storable. cbn [lp_URL lp_SiteName lp_Title lp_Description]. by rewrite Hpg. }
    rewrite bind_run. unfold unstored, modify. cbn [fst snd]. simpl. rewrite Hstore. simpl.
    eapply kept_after; [exact Hw|exact Hold|done|done|exact Hexp].
Qed.

(** A link is fetched at most once a week.  However many previews are asked for, one after
    the other and by whomever, and however the name servers and the pages answer, two requests
    for the same page are at least seven days apart, a page without a preview included; so long
    as what the pages say of themselves is text the database takes. *)
Lemma links_are_fetched_weekly ops w :
  sw_fetched w = [] → StronglySorted (λ a b, as_now a ≤ as_now b) ops → Forall rememberable ops →
  weekly (sw_fetched (foldl run_preview w ops)).
Proof.
  intros Hempty Hsorted Hrem.
  assert (∀ w now, kept_until now w → Forall (λ a, now ≤ as_now a) ops → weekly (sw_fetched (foldl run_preview w ops))) as Hgen.
  { clear w Hempty. induction Hsorted as [|a ops Hs IH Hall]; intros w now Hw Hnow; [apply Hw|]. simpl.
    apply Forall_cons in Hrem as [Ha Hrem]. apply Forall_cons in Hnow as [Hle _].
    eapply IH; [done| |exact Hall]. apply run_preview_kept; [done|]. by eapply kept_later. }
  assert (kept_until (from_option as_now 0 (head ops)) w) as Hw.
  { split; rewrite Hempty; [intros [|? ?] *; done|]. intros t u Hin. by apply elem_of_nil in Hin. }
  apply (Hgen w _ Hw). destruct Hsorted as [|a ops Hs Hall]; [constructor|]. simpl. constructor; [lia|done].
Qed.
End stickers.

(** ** Concrete runs *)

#[local] Instance shop_digest : Digest := {| sha256 := λ bs, bs |}.
#[local] Instance shop_urls : UrlLibrary := {|
  url_Parse := λ s, Some (MkURL "http" s "" s);
  ParseIP := λ s, Some [93; 184; 216; 34]%N
|}.
Definition shop_String (u : URL) : string := "http://" +:+ Host u.
(** A document that is all title. *)
Definition shop_Parse (body : list N) : option html_node := Some (Node true "html" [] [Node true "title" [] [Node false (string_of body) [] []]]).
Definition shop : sticker_world :=
  MkStickerWorld (MkStickerDb (MkSocialDb {[ 1%N := Social.MkAccount None "+98" [] "active" false false None None None ]} ∅ ∅ ∅ ∅ ∅ ∅) {[ 5%N; 6%N ]} ∅ ∅ ∅ ∅) [].
Lemma shop_ok : sets_ok (sw_db shop).
Proof. split; intros *; simpl; rewrite lookup_empty; done. Qed.
Definition cats : list Sticker := [MkSticker 0 6 "😺" 9; MkSticker 0 5 "😹" 9].

Lemma sticker_sets_round_trip_witness :
  ∃ set w', Service_CreateSet 100 50 (λ i, (60 + N.of_nat i)%N) 1 " Cats_1 " "Cats" "" cats shop = (Ok set, w') ∧
    ∃ added, Service_BySlug "CATS_1" 1 w' = (Ok (MkStickerSet 50 (set_Slug set) "Cats" (set_Kind set) false (Some 1%N) 100 (set_Stickers set) added), w') ∧
    sk_MediaID <$> set_Stickers set = [6; 5]%N.
Proof.
  pose proof (sticker_sets_round_trip 100 50 (λ i, (60 + N.of_nat i)%N) 1 " Cats_1 " "Cats" "" cats shop shop_ok) as Hround.
  destruct (run_is_Ok (Service_CreateSet 100 50 (λ i, (60 + N.of_nat i)%N) 1 " Cats_1 " "Cats" "" cats) shop) as [set Hrun]; [vm_compute; reflexivity|].
  rewrite Hrun in Hround. destruct Hround as (_ & _ & Hmedia & Hfound). eexists set, _. split; [exact Hrun|].
  destruct (Hfound "CATS_1"%string 1%N) as [added Hby]; [vm_compute; reflexivity|vm_compute; reflexivity|]. exists added. split; [exact Hby|].
  assert (sk_MediaID <$> set_Stickers set = fst <$> ((λ s, (sk_MediaID s, sk_Emoji s)) <$> set_Stickers set)) as -> by (by rewrite <-list_fmap_compose).
  rewrite Hmedia. reflexivity.
Defined.

Definition shop_page (title : list N) : page := Some (200, "text/html"%string, title).
Definition twice : list asked :=
  [MkAsked 100 (λ _, None) (shop_page [72; 105]%N) "a.ir"; MkAsked (100 + previewTTL) (λ _, None) None "a.ir"].
Lemma links_are_fetched_weekly_witness :
  sw_fetched (foldl (run_preview shop_String shop_Parse) shop twice) = [(100 + previewTTL, "http://a.ir"%string); (100, "http://a.ir"%string)] ∧
  weekly (sw_fetched (foldl (run_preview shop_String shop_Parse) shop twice)).
Proof.
  split; [vm_compute; reflexivity|]. apply links_are_fetched_weekly; [done| |].
  - constructor; [constructor; [constructor|constructor]|constructor; [vm_compute; discriminate|constructor]].
  - constructor; [|constructor; [|constructor]]; intros target Hval; vm_compute in Hval; injection Hval as <-;
      (split; [vm_compute; reflexivity|intros p Hp; vm_compute in Hp]).
    + injection Hp as <-. vm_compute. reflexivity.
    + discriminate Hp.
Defined.

(** ** What the code does that its comments do not say *)

(** A page in an encoding other than UTF-8 is an internal error, and is fetched anew each
    time. *)
Definition legacy : list asked :=
  [MkAsked 100 (λ _, None) (shop_page [199; 225]%N) "b.ir"; MkAsked 101 (λ _, None) (shop_page [199; 225]%N) "b.ir"].
Example legacy_page_is_fetched_again :
  length (sw_fetched (foldl (run_preview shop_String shop_Parse) shop legacy)) = 2%nat ∧
  (Preview shop_String shop_Parse 100 (λ _, None) (shop_page [199; 225]%N) "b.ir" shop).1 = Err Internal.
Proof. vm_compute. done. Qed.
(** A kind the table does not know is the server's fault. *)
Example unknown_kind_is_internal :
  (Service_CreateSet 100 50 (λ i, (60 + N.of_nat i)%N) 1 "cats" "Cats" "sparkling" cats shop).1 = Err Internal.
Proof. vm_compute. reflexivity. Qed.
