(* ===== verification/MediaRules.v ===== *)
(** * What may be uploaded ([internal/media]: validation.go; [internal/storage/objects.go],
      [path/filepath])

    Kinds, sizes and types of a file, what its first bytes say it is, and how objects are named.
    Lower case is taken as far as a comparison with ASCII text can tell, the lists of the
    configuration being ASCII; [quote] is [strconv.Quote]. *)

From stdpp Require Import base tactics list sorting strings.
From Stdlib Require Import ZArith Lia.
From S2P Require Import Prelude GoString Httpx.

Set Default Goal Selector "!".
Open Scope Z_scope.

Definition KindImage : string := "image".
Definition KindVideo : string := "video".
Definition KindAudio : string := "audio".
Definition KindVoice : string := "voice".
Definition KindFile : string := "file".
Definition KindSticker : string := "sticker".
Definition KindGIF : string := "gif".
Definition KindAvatar : string := "avatar".
Definition validKinds : list string := [KindImage; KindVideo; KindAudio; KindVoice; KindFile; KindSticker; KindGIF; KindAvatar].

(** [config.Media] *)
Record MediaConfig := MkMediaConfig {
  MaxUploadBytes : Z;
  MaxImageBytes : Z;
  MaxAvatarBytes : Z;
  PartSize : Z;
  UploadSessionTTL : Z;
  PresignTTL : Z;
  AllowedImageMIME : list string;
  AllowedVideoMIME : list string;
  AllowedAudioMIME : list string;
  AllowedFileMIME : list string;
  ClamAVAddr : string;
  VirusScanRequired : bool;
}.

(** ** Signatures *)

Record signature := MkSignature { sg_offset : nat; sg_magic : list N; sg_mime : string }.
Definition text_magic (s : string) : list N := bytes_of s.
Definition signatures : list signature :=
  [MkSignature 0 [255; 216; 255]%N "image/jpeg"; MkSignature 0 ([137] ++ text_magic "PNG" ++ [13; 10; 26; 10])%N "image/png";
   MkSignature 0 (text_magic "GIF87a") "image/gif"; MkSignature 0 (text_magic "GIF89a") "image/gif"; MkSignature 0 (text_magic "BM") "image/bmp";
   MkSignature 4 (text_magic "ftypavif") "image/avif"; MkSignature 4 (text_magic "ftypheic") "image/heic";
   MkSignature 4 (text_magic "ftypheix") "image/heic"; MkSignature 4 (text_magic "ftypmif1") "image/heic";
   MkSignature 4 (text_magic "ftypisom") "video/mp4"; MkSignature 4 (text_magic "ftypmp42") "video/mp4";
   MkSignature 4 (text_magic "ftypMSNV") "video/mp4"; MkSignature 4 (text_magic "ftypdash") "video/mp4";
   MkSignature 4 (text_magic "ftypqt  ") "video/quicktime";
   MkSignature 0 (text_magic "OggS") "audio/ogg"; MkSignature 0 (text_magic "ID3") "audio/mpeg"; MkSignature 0 [255; 251]%N "audio/mpeg";
   MkSignature 0 [255; 243]%N "audio/mpeg"; MkSignature 0 [255; 242]%N "audio/mpeg"; MkSignature 0 (text_magic "fLaC") "audio/flac";
   MkSignature 0 (text_magic "%PDF-") "application/pdf"; MkSignature 0 (text_magic "PK" ++ [3; 4])%N "application/zip";
   MkSignature 0 (text_magic "Rar!" ++ [26; 7])%N "application/x-rar-compressed"; MkSignature 0 [31; 139]%N "application/gzip";
   MkSignature 0 (text_magic "7z" ++ [188; 175; 39; 28])%N "application/x-7z-compressed"].
Definition cut (lo hi : nat) (header : list N) : list N := take (hi - lo) (drop lo header).
Definition signed_as (header : list N) (s : signature) : bool :=
  let stop := (sg_offset s + length (sg_magic s))%nat in
  negb (length header <? stop)%nat && bool_decide (cut (sg_offset s) stop header = sg_magic s).
(** [Sniff]: the empty type for bytes of no known format *)
Definition Sniff (header : list N) : string :=
  match filter (λ s, signed_as header s = true) signatures with
  | s :: _ => sg_mime s
  | [] =>
      if (12 <=? length header)%nat && bool_decide (cut 0 4 header = text_magic "RIFF") && bool_decide (cut 8 12 header = text_magic "WEBP")
      then "image/webp"
      else if (12 <=? length header)%nat && bool_decide (cut 0 4 header = text_magic "RIFF") && bool_decide (cut 8 12 header = text_magic "WAVE")
      then "audio/wav"
      else if (4 <=? length header)%nat && bool_decide (cut 0 4 header = [26; 69; 223; 163]%N)
      then if contains header (text_magic "webm") then "video/webm" else "video/x-matroska"
      else ""
  end.

(** ** Types *)

Definition normalizeMIME (mime : string) : string :=
  let m := to_lower (trim_space mime) in
  match split 59 m with
  | first :: _ :: _ => trim_space first
  | _ => m
  end.
Definition listed (l : list string) (value : string) : bool := existsb (λ item, bool_decide (normalizeMIME item = value)) l.
Definition aliases (sniffed : string) : list string :=
  if bool_decide (sniffed = "audio/ogg"%string) then ["audio/opus"; "audio/ogg; codecs=opus"; "application/ogg"]%string
  else if bool_decide (sniffed = "audio/mpeg"%string) then ["audio/mp3"]%string
  else if bool_decide (sniffed = "audio/mp4"%string) then ["audio/aac"; "audio/x-m4a"]%string
  else if bool_decide (sniffed = "video/mp4"%string) then ["audio/mp4"; "audio/aac"; "audio/x-m4a"; "video/x-m4v"]%string
  else if bool_decide (sniffed = "video/quicktime"%string) then ["video/mov"]%string
  else if bool_decide (sniffed = "image/heic"%string) then ["image/heif"]%string
  else [].
Definition equivalentMIME (sniffed declared : string) : bool :=
  bool_decide (sniffed = declared) || bool_decide (declared ∈ aliases sniffed).
Definition webContainerMIMEs : list string :=
  ["text/html"; "application/xhtml+xml"; "image/svg+xml"; "application/xml"; "text/xml"; "application/javascript"]%string.
Definition ServableContentType (mime : string) : string :=
  if bool_decide (normalizeMIME mime ∈ webContainerMIMEs) then "application/octet-stream" else mime.

(** ** Paths *)

(** [filepath.Ext]: from the last dot of the last element *)
Fixpoint ext_reversed (l acc : list N) : list N :=
  match l with
  | [] => []
  | b :: l => if (b =? 47)%N then [] else if (b =? 46)%N then b :: acc else ext_reversed l (b :: acc)
  end.
Definition Ext (path : string) : string := string_of (ext_reversed (reverse (bytes_of path)) []).
Definition dangerousExtensions : list string :=
  [".exe"; ".dll"; ".scr"; ".com"; ".pif"; ".bat"; ".cmd"; ".msi"; ".jar"; ".apk"; ".app"; ".dmg"; ".deb"; ".rpm"; ".sh";
   ".ps1"; ".vbs"; ".js"; ".jse"; ".wsf"; ".hta"; ".cpl"; ".lnk"; ".reg"]%string.
(** [filepath.Clean], element by element: [done] is what has been written, in reverse *)
Fixpoint clean_elements (rooted : bool) (l done : list string) : list string :=
  match l with
  | [] => reverse done
  | e :: l =>
      if bool_decide (e ∈ [""; "."]%string) then clean_elements rooted l done
      else if bool_decide (e = ".."%string) then
        match done with
        | d :: done' => if bool_decide (d = ".."%string) then clean_elements rooted l (e :: done) else clean_elements rooted l done'
        | [] => clean_elements rooted l (if rooted then [] else [e])
        end
      else clean_elements rooted l (e :: done)
  end.
Definition Clean (path : string) : string :=
  let rooted := has_prefix path "/" in
  let body := String.concat "/" (clean_elements rooted (split 47 path) []) in
  if rooted then "/" +:+ body else if bool_decide (body = ""%string) then "." else body.
Fixpoint until_slash (l : list N) : list N :=
  match l with b :: l => if (b =? 47)%N then [] else b :: until_slash l | [] => [] end.
Definition up_to_last_slash (path : string) : list N * list N :=
  let r := reverse (bytes_of path) in
  let base := until_slash r in
  (reverse (drop (length base) r), reverse base).
Definition Dir (path : string) : string := Clean (string_of (up_to_last_slash path).1).
Fixpoint drop_slashes (l : list N) : list N := match l with b :: l' => if (b =? 47)%N then drop_slashes l' else l | [] => [] end.
Definition Base (path : string) : string :=
  if bool_decide (path = ""%string) then "."
  else
    let stripped := reverse (drop_slashes (reverse (bytes_of path))) in
    let base := string_of (up_to_last_slash (string_of stripped)).2 in
    if bool_decide (base = ""%string) then "/" else base.
Definition Join2 (a b : string) : string :=
  match filter (λ e, e ≠ ""%string) [a; b] with [] => "" | l => Clean (String.concat "/" l) end.
Definition VariantKey (originalKey variant extension : string) : string :=
  let base := trim_suffix (Base originalKey) (Ext originalKey) in
  Join2 (Dir originalKey) (base +:+ "_" +:+ variant +:+ extension).
(** [sanitizeFilename] *)
Definition sanitizeFilename (name : string) : string :=
  let cleaned := filter (λ b, b ∉ [34; 92; 13; 10; 59]%N) (bytes_of name) in
  let cleaned := take 200 cleaned in
  if bool_decide (cleaned = []) then "download" else string_of cleaned.

(** ** Requests and contents *)

Record ValidationError := MkValidationError { ve_Field : string; ve_Reason : string }.
Section rules.
Context (quote : string → string) (cfg : MediaConfig).

Definition limitFor (kind : string) : Z :=
  if bool_decide (kind ∈ [KindImage; KindSticker; KindGIF]) then MaxImageBytes cfg
  else if bool_decide (kind = KindAvatar) then MaxAvatarBytes cfg
  else MaxUploadBytes cfg.
Definition mimeAllowedFor (kind mime : string) : bool :=
  if bool_decide (kind ∈ [KindImage; KindAvatar; KindSticker]) then listed (AllowedImageMIME cfg) mime
  else if bool_decide (kind = KindGIF) then bool_decide (mime ∈ ["image/gif"; "video/mp4"; "image/webp"]%string)
  else if bool_decide (kind = KindVideo) then listed (AllowedVideoMIME cfg) mime
  else if bool_decide (kind ∈ [KindAudio; KindVoice]) then listed (AllowedAudioMIME cfg) mime
  else if bool_decide (kind = KindFile) then
    listed (AllowedFileMIME cfg) mime || listed (AllowedImageMIME cfg) mime || listed (AllowedVideoMIME cfg) mime
    || listed (AllowedAudioMIME cfg) mime || bool_decide (mime = "application/octet-stream"%string)
  else false.
Definition CheckRequest (kind declaredMIME fileName : string) (size : Z) : result ValidationError () :=
  if negb (bool_decide (kind ∈ validKinds)) then Err (MkValidationError "kind" "unsupported media kind")
  else if size <=? 0 then Err (MkValidationError "size" "must be greater than zero")
  else if limitFor kind <? size then
    Err (MkValidationError "size" ("exceeds the " +:+ Itoa (limitFor kind) +:+ " byte limit for " +:+ kind))
  else if bool_decide (to_lower (Ext fileName) ∈ dangerousExtensions) then Err (MkValidationError "file_name" "this file type is not allowed")
  else if existsb (λ b, bool_decide (b ∈ [47; 92; 0]%N)) (bytes_of fileName) then Err (MkValidationError "file_name" "contains an illegal character")
  else
    let normalized := normalizeMIME declaredMIME in
    if bool_decide (normalized = ""%string) then Err (MkValidationError "mime_type" "is required")
    else if negb (mimeAllowedFor kind normalized) then
      Err (MkValidationError "mime_type" (quote normalized +:+ " is not accepted for " +:+ kind))
    else Ok ().
Definition CheckContent (kind declaredMIME : string) (header : list N) : result ValidationError string :=
  let sniffed := Sniff header in
  let declared := normalizeMIME declaredMIME in
  if bool_decide (sniffed = ""%string) then
    if bool_decide (kind = KindFile) then Ok "application/octet-stream"%string
    else Err (MkValidationError "content" "the uploaded bytes do not match any supported format")
  else if negb (equivalentMIME sniffed declared) then
    Err (MkValidationError "content" ("declared " +:+ quote declared +:+ " but the content is " +:+ quote sniffed))
  else if negb (mimeAllowedFor kind sniffed) then
    Err (MkValidationError "content" (quote sniffed +:+ " is not accepted for " +:+ kind))
  else Ok sniffed.

(** ** Parts *)

(** [int((size + partSize - 1) / partSize)] *)
Definition parts_for (size partSize : Z) : Z := Z.quot (wrap64 (wrap64 (size + partSize) - 1)) partSize.
(** The part size doubles until there are at most ten thousand parts. *)
Fixpoint grow (fuel : nat) (size partSize totalParts : Z) : Z * Z :=
  match fuel with
  | O => (partSize, totalParts)
  | S fuel => if 10000 <? totalParts then grow fuel size (wrap64 (partSize * 2)) (parts_for size (wrap64 (partSize * 2))) else (partSize, totalParts)
  end.
Definition plan_parts (size : Z) : Z * Z :=
  let total := parts_for size (PartSize cfg) in
  grow 64 size (PartSize cfg) (if total <? 1 then 1 else total).
End rules.

(** ** Names of objects *)

(** The date of a day counted from 1970-01-01, in the Gregorian calendar *)
Definition civil (days : Z) : Z * Z * Z :=
  let z := days + 719468 in
  let era := z / 146097 in
  let doe := z - era * 146097 in
  let yoe := (doe - doe / 1460 + doe / 36524 - doe / 146096) / 365 in
  let doy := doe - (365 * yoe + yoe / 4 - yoe / 100) in
  let mp := (5 * doy + 2) / 153 in
  let m := if mp <? 10 then mp + 3 else mp - 9 in
  (yoe + era * 400 + (if m <=? 2 then 1 else 0), m, doy - (153 * mp + 2) / 5 + 1).
Definition pad (width : nat) (n : Z) : string :=
  let s := Itoa n in string_of (replicate (width - String.length s) 48%N) +:+ s.
(** [buildObjectKey]; [drawn] is the random part of the name. *)
Definition buildObjectKey (lower : string → string) (now : time) (drawn : uuid) (kind fileName : string) : string :=
  let '(y, m, d) := civil (now / (24 * hour)) in
  let extension := lower (Ext fileName) in
  kind +:+ "/" +:+ pad 4 y +:+ "/" +:+ pad 2 m +:+ "/" +:+ pad 2 d +:+ "/" +:+ uuid_String drawn
    +:+ (if (10 <? len extension) then "" else extension).

Example dates : civil 0 = (1970, 1, 1) ∧ civil 19782 = (2024, 2, 29) ∧ civil (-1) = (1969, 12, 31).
Proof. vm_compute. done. Qed.
Example paths :
  Ext "a.tar.gz" = ".gz"%string ∧ Ext "a.b/c" = ""%string ∧ Clean "a//b/../c/." = "a/c"%string ∧ Clean "/.." = "/"%string ∧
  VariantKey "image/2024/02/29/x.png" "small" ".jpg" = "image/2024/02/29/x_small.jpg"%string ∧ VariantKey "x" "small" ".jpg" = "x_small.jpg"%string.
Proof. vm_compute. done. Qed.
Example sniffed : Sniff ([255; 216; 255; 224]%N) = "image/jpeg"%string ∧ Sniff (bytes_of "RIFF1234WEBP") = "image/webp"%string ∧
  Sniff [26; 69; 223; 163; 119; 101; 98; 109]%N = "video/webm"%string ∧ Sniff (bytes_of "hello") = ""%string.
Proof. vm_compute. done. Qed.
Example key_of_a_photo : buildObjectKey to_lower (19782 * 24 * hour) 1 "image" "Me.JPG" = "image/2024/02/29/00000000-0000-0000-0000-000000000001.jpg"%string.
Proof. vm_compute. reflexivity. Qed.
