(* ===== verification/Media.v ===== *)
(** * Uploads and downloads ([internal/media]: repository.go, service.go, handler.go;
      [internal/storage/objects.go])

    The rows of an upload from its first request to its download, and the routes.  The object
    store is a class: what a bucket holds under a key, and operations that may fail; only what
    a successful call does to the contents is relied on, and an address it signs depends on the
    clock and how long it is good for.  [pg_error] is the driver's message.

    Calls and jobs interleave: a statement on the rows and an operation of the store are each
    preceded by whatever others have committed since the last one ([mw_meanwhile]). *)

From stdpp Require Import base tactics list sorting gmap strings.
From Stdlib Require Import ZArith Lia.
From S2P Require Import Prelude Antispam GoString Httpx RateLimit Ports Jobs Auth NetGuard Http MediaRules.

Set Default Goal Selector "!".
Open Scope Z_scope.

(** ** The object store *)

(** What a reader yields, read by read, and the error it ends with if it is not the end. *)
Definition stream : Type := list (list N) * option string.
Record Part := MkPart { PartNumber : Z; ETag : string; Size : Z }.
Class ObjectStore (St : Type) := {
  os_contents : St → string * string → option (list N);
  os_NewMultipartUpload : string → string → string → prog St string string;
  os_CompleteMultipartUpload : string → string → string → list (Z * string) → prog St string ();
  os_AbortMultipartUpload : string → string → string → prog St string ();
  os_PutObject : string → string → list N → string → prog St string ();
  os_RemoveObject : string → string → prog St string ();
  os_StatObject : string → string → St → result string Z;
  os_GetObject : string → string → option (Z * Z) → St → result string stream;
  os_Presign : time → Z → string → string → string → Z → option string;
  os_PresignedGetObject : time → Z → string → string → option string → option string;
  os_put : ∀ b k data mime s s', os_PutObject b k data mime s = (Ok (), s') →
    os_contents s' (b, k) = Some data ∧ ∀ o, o ≠ (b, k) → os_contents s' o = os_contents s o;
  os_removed : ∀ b k s s', os_RemoveObject b k s = (Ok (), s') →
    os_contents s' (b, k) = None ∧ ∀ o, o ≠ (b, k) → os_contents s' o = os_contents s o;
  os_got : ∀ b k s reads, os_GetObject b k None s = Ok (reads, None) → os_contents s (b, k) = Some (concat reads);
}.
Record StorageConfig := MkStorageConfig { MediaBucket : string; PublicBucket : string; CDNBaseURL : string }.

(** [io.ReadFull] into [n] bytes, and [io.Copy] from a reader limited to [n]: an error is met
    only by who reads that far. *)
Definition read_full (n : Z) (s : stream) : result string (list N) :=
  let bytes := concat s.1 in
  if n <=? Z.of_nat (length bytes) then Ok (take (Z.to_nat n) bytes)
  else match s.2 with None => Ok bytes | Some e => Err e end.
Definition read_all (s : stream) : result string (list N) := match s.2 with None => Ok (concat s.1) | Some e => Err e end.
(** [strings.Trim] of one byte, [strings.TrimRight] *)
Fixpoint drop_byte (b : N) (l : list N) : list N := match l with x :: l' => if (x =? b)%N then drop_byte b l' else l | [] => [] end.
Definition trim_right_byte (b : N) (s : string) : string := string_of (reverse (drop_byte b (reverse (bytes_of s)))).
Definition trim_byte (b : N) (s : string) : string := trim_right_byte b (string_of (drop_byte b (bytes_of s))).

Section storage.
Context `{ObjectStore St} (storage : StorageConfig).
Definition wrap {S A} (prefix : string) (m : prog S string A) : prog S string A := map_err (λ e, prefix +:+ e) m.
Definition wrapped {A} (prefix : string) (r : result string A) : result string A := match r with Ok a => Ok a | Err e => Err (prefix +:+ e) end.
Definition NewMultipartUpload (bucket key contentType : string) : prog St string string :=
  wrap "storage: start multipart upload: " (os_NewMultipartUpload bucket key contentType).
Definition CompleteMultipartUpload (bucket key uploadID : string) (parts : list Part) : prog St string () :=
  wrap "storage: complete multipart upload: "
    (os_CompleteMultipartUpload bucket key uploadID ((λ p, (PartNumber p, trim_byte 34 (ETag p))) <$> parts)).
Definition AbortMultipartUpload (bucket key uploadID : string) : prog St string () :=
  wrap "storage: abort multipart upload: " (os_AbortMultipartUpload bucket key uploadID).
Definition Put (bucket key : string) (data : list N) (contentType : string) : prog St string () :=
  wrap "storage: put object: " (os_PutObject bucket key data contentType).
Definition Remove (bucket key : string) : prog St string () := wrap "storage: remove object: " (os_RemoveObject bucket key).
Definition Stat (bucket key : string) (s : St) : result string Z := wrapped "storage: stat object: " (os_StatObject bucket key s).
Definition GetObject (bucket key : string) (s : St) : result string stream := wrapped "storage: get object: " (os_GetObject bucket key None s).
Definition GetRange (bucket key : string) (offset length : Z) (s : St) : result string stream :=
  wrapped "storage: get object range: " (os_GetObject bucket key (Some (offset, offset + length - 1)) s).
(** [now] is the clock of the signature, [ttl] how long the address is good for. *)
Definition PresignPart (now : time) (bucket key uploadID : string) (number ttl : Z) : option string :=
  os_Presign now ttl bucket key uploadID number.
Definition PresignGet (now : time) (bucket key downloadName : string) (ttl : Z) : option string :=
  if negb (bool_decide (CDNBaseURL storage = ""%string)) && bool_decide (bucket = PublicBucket storage)
  then Some (trim_right_byte 47 (CDNBaseURL storage) +:+ "/" +:+ key)
  else
    let disposition := if bool_decide (downloadName = ""%string) then None
                       else Some ("attachment; filename=" +:+ string_of [34%N] +:+ sanitizeFilename downloadName +:+ string_of [34%N]) in
    os_PresignedGetObject now ttl bucket key disposition.
End storage.

(** ** Rows *)

(** [media]: of [metadata], the entry [error], the only one the server writes *)
Record media_row := MkMediaRow {
  md_owner : option uuid;
  md_bucket : string;
  md_key : string;
  md_kind : string;
  md_mime : string;
  md_declared_mime : string;
  md_file_name : string;
  md_size : Z;
  md_sha256 : option (list N);
  md_width : option Z;
  md_height : option Z;
  md_duration : option Z;
  md_waveform : option (list Z);
  md_blurhash : option string;
  md_scan_status : string;
  md_scan_detail : string;
  md_process_status : string;
  md_error : option string;
  md_created_at : time;
  md_ready_at : option time;
  md_deleted_at : option time;
}.
(** [media_upload_sessions], [media_chunks] and [media_variants] *)
Record session_row := MkSessionRow {
  up_user : uuid;
  up_media : uuid;
  up_bucket : string;
  up_key : string;
  up_upload : string;
  up_kind : string;
  up_declared_mime : string;
  up_file_name : string;
  up_total_size : Z;
  up_part_size : Z;
  up_total_parts : Z;
  up_status : string;
  up_expires_at : time;
  up_completed_at : option time;
}.
Record chunk_row := MkChunkRow { ck_etag : string; ck_size : Z; ck_uploaded_at : time }.
Record Variant := MkVariant {
  va_Variant : string;
  va_MimeType : string;
  va_SizeBytes : Z;
  va_Width : option Z;
  va_Height : option Z;
  va_BitrateKbps : option Z;
  va_ObjectKey : string;
}.
Record mediadb := MkMediaDb {
  md_accounts : gset uuid;
  media_rows : gmap uuid media_row;
  upload_sessions : gmap uuid session_row;
  media_chunks : gmap (uuid * Z) chunk_row;
  media_variants : gmap (uuid * string) Variant;
}.
Definition with_media v d := MkMediaDb (md_accounts d) v (upload_sessions d) (media_chunks d) (media_variants d).
Definition with_sessions v d := MkMediaDb (md_accounts d) (media_rows d) v (media_chunks d) (media_variants d).
Definition with_chunks v d := MkMediaDb (md_accounts d) (media_rows d) (upload_sessions d) v (media_variants d).
Definition with_variants v d := MkMediaDb (md_accounts d) (media_rows d) (upload_sessions d) (media_chunks d) v.

Record Media := MkMedia {
  me_ID : uuid;
  me_Row : media_row;
  me_Variants : list Variant;
}.
(** [UploadSession]: a row and its identifier *)
Record UploadSession := MkUploadSession { se_ID : uuid; se_Row : session_row }.

Inductive mediaerr := MediaNotFound | MediaFailed (message : string).
Abbreviation statement := (prog mediadb mediaerr) (only parsing).

(** ** Repository *)

Section repository.
Context (pg_error : string) (collate : string → Z).
Definition broken {A} (prefix : string) : statement A := fail (MediaFailed (prefix +:+ pg_error)).

Definition media_row_fits (s : session_row) d : bool :=
  bool_decide (up_user s ∈ md_accounts d) && bool_decide (up_kind s ∈ validKinds) && (0 <=? up_total_size s) &&
  forallb pg_text [up_bucket s; up_key s; up_declared_mime s; up_file_name s] &&
  negb (0 <? count_where (λ _ r, bool_decide (md_bucket r = up_bucket s) && bool_decide (md_key r = up_key s)) (media_rows d)).
Definition session_row_fits (s : session_row) : bool :=
  pg_text (up_upload s) && (0 <? up_total_size s) && (0 <? up_part_size s) && (0 <? up_total_parts s) && int4 (up_total_parts s).
Definition fresh_media (now : time) (s : session_row) : media_row :=
  MkMediaRow (Some (up_user s)) (up_bucket s) (up_key s) (up_kind s) (up_declared_mime s) (up_declared_mime s) (up_file_name s) (up_total_size s)
    None None None None None None "pending" "" "pending" None now None None.
Definition insert_media (now : time) (id : uuid) (s : session_row) : statement () := λ d,
  if media_row_fits s d && negb (bool_decide (is_Some (media_rows d !! id)))
  then (Ok (), with_media (<[id := fresh_media now s]> (media_rows d)) d)
  else broken "media: insert media row: " d.
Definition opened (mediaID : uuid) (s : session_row) : session_row :=
  MkSessionRow (up_user s) mediaID (up_bucket s) (up_key s) (up_upload s) (up_kind s) (up_declared_mime s)
    (up_file_name s) (up_total_size s) (up_part_size s) (up_total_parts s) "active" (up_expires_at s) None.
Definition insert_session (id mediaID : uuid) (s : session_row) : statement () := λ d,
  if session_row_fits s && negb (bool_decide (is_Some (upload_sessions d !! id)))
  then (Ok (), with_sessions (<[id := opened mediaID s]> (upload_sessions d)) d)
  else broken "" d.
(** The ids are the ones the database draws. *)
Definition CreateUploadSession (now : time) (mediaID sessionID : uuid) (s : session_row) : statement UploadSession :=
  in_tx (
    insert_media now mediaID s;;
    insert_session sessionID mediaID s;;
    mret (MkUploadSession sessionID (opened mediaID s))).
Definition UploadSessionByID (id userID : uuid) : statement UploadSession := λ d,
  match upload_sessions d !! id with
  | Some s => if bool_decide (up_user s = userID) then (Ok (MkUploadSession id s), d) else (Err MediaNotFound, d)
  | None => (Err MediaNotFound, d)
  end.
Definition RecordPart (now : time) (sessionID : uuid) (part : Part) : statement () := λ d,
  if bool_decide (is_Some (upload_sessions d !! sessionID)) && (0 <? PartNumber part) && int4 (PartNumber part) && pg_text (ETag part)
  then (Ok (), with_chunks (<[(sessionID, PartNumber part) := MkChunkRow (ETag part) (Size part) now]> (media_chunks d)) d)
  else broken "media: record part: " d.
Definition Parts (sessionID : uuid) d : list Part :=
  order_by PartNumber ((λ r : uuid * Z * chunk_row, MkPart r.1.2 (ck_etag r.2) (ck_size r.2)) <$>
    rows_where (λ k _, bool_decide (k.1 = sessionID)) (media_chunks d)).
Definition with_status (now : time) (status : string) (s : session_row) : session_row :=
  MkSessionRow (up_user s) (up_media s) (up_bucket s) (up_key s) (up_upload s) (up_kind s) (up_declared_mime s) (up_file_name s)
    (up_total_size s) (up_part_size s) (up_total_parts s) status (up_expires_at s)
    (if bool_decide (status = "completed"%string) then Some now else up_completed_at s).
Definition SetSessionStatus (now : time) (sessionID : uuid) (status : string) : statement () :=
  modify (λ d, with_sessions (update_where (λ k _, bool_decide (k = sessionID)) (λ _ s, with_status now status s) (upload_sessions d)) d).

Definition update_media (id : uuid) (f : media_row → media_row) d := with_media (update_where (λ k _, bool_decide (k = id)) (λ _ r, f r) (media_rows d)) d.
Definition finalized (mime : string) (size : Z) (sha : option (list N)) (scanStatus : string) (r : media_row) : media_row :=
  MkMediaRow (md_owner r) (md_bucket r) (md_key r) (md_kind r) mime (md_declared_mime r) (md_file_name r) size sha (md_width r) (md_height r)
    (md_duration r) (md_waveform r) (md_blurhash r) scanStatus (md_scan_detail r) "pending" (md_error r) (md_created_at r) (md_ready_at r) (md_deleted_at r).
Definition FinalizeMedia (mediaID : uuid) (mime : string) (size : Z) (sha : option (list N)) (scanStatus : string) : statement () := λ d,
  if pg_text mime && (0 <=? size) then (Ok (), update_media mediaID (finalized mime size sha scanStatus) d) else broken "media: finalize: " d.
(** [detail[:500]] *)
Definition clip (detail : string) : string := string_of (take 500 (bytes_of detail)).
Definition scanned (status detail : string) (r : media_row) : media_row :=
  MkMediaRow (md_owner r) (md_bucket r) (md_key r) (md_kind r) (md_mime r) (md_declared_mime r) (md_file_name r) (md_size r) (md_sha256 r) (md_width r)
    (md_height r) (md_duration r) (md_waveform r) (md_blurhash r) status detail (md_process_status r) (md_error r) (md_created_at r) (md_ready_at r) (md_deleted_at r).
Definition SetScanResult (mediaID : uuid) (status detail : string) : statement () := λ d,
  if pg_text (clip detail) then (Ok (), update_media mediaID (scanned status (clip detail)) d) else broken "media: set scan result: " d.
(** [COALESCE($n, column)] *)
Definition coalesce {A} (v old : option A) : option A := match v with Some _ => v | None => old end.
Definition readied (now : time) (width height durationMs : option Z) (waveform : option (list Z)) (blurhash : option string) (r : media_row) : media_row :=
  MkMediaRow (md_owner r) (md_bucket r) (md_key r) (md_kind r) (md_mime r) (md_declared_mime r) (md_file_name r) (md_size r) (md_sha256 r)
    (coalesce width (md_width r)) (coalesce height (md_height r)) (coalesce durationMs (md_duration r)) (coalesce waveform (md_waveform r))
    (coalesce blurhash (md_blurhash r)) (md_scan_status r) (md_scan_detail r) "ready" (md_error r) (md_created_at r) (Some now) (md_deleted_at r).
Definition MarkReady (now : time) (mediaID : uuid) (width height durationMs : option Z) (waveform : option (list Z)) (blurhash : option string)
    : statement () := λ d,
  if from_option int4 true width && from_option int4 true height && from_option int4 true durationMs && from_option pg_text true blurhash
  then (Ok (), update_media mediaID (readied now width height durationMs waveform blurhash) d) else broken "" d.
Definition with_process (status : string) (error : option string) (r : media_row) : media_row :=
  MkMediaRow (md_owner r) (md_bucket r) (md_key r) (md_kind r) (md_mime r) (md_declared_mime r) (md_file_name r) (md_size r) (md_sha256 r) (md_width r)
    (md_height r) (md_duration r) (md_waveform r) (md_blurhash r) (md_scan_status r) (md_scan_detail r) status error (md_created_at r) (md_ready_at r)
    (md_deleted_at r).
Definition MarkProcessing (mediaID : uuid) : statement () := modify (update_media mediaID (λ r, with_process "processing" (md_error r) r)).
Definition MarkFailed (mediaID : uuid) (reason : string) : statement () := λ d,
  if pg_text reason then (Ok (), update_media mediaID (with_process "failed" (Some reason)) d) else broken "" d.
Definition AddVariant (mediaID : uuid) (v : Variant) : statement () := λ d,
  if bool_decide (is_Some (media_rows d !! mediaID)) && forallb pg_text [va_Variant v; va_MimeType v; va_ObjectKey v]
     && forallb (from_option int4 true) [va_Width v; va_Height v; va_BitrateKbps v]
  then (Ok (), with_variants (<[(mediaID, va_Variant v) := v]> (media_variants d)) d) else broken "media: add variant: " d.

Definition variants (mediaID : uuid) d : list Variant :=
  order_by (λ v, collate (va_Variant v)) (rows_where (λ k _, bool_decide (k.1 = mediaID)) (media_variants d)).*2.
Definition live_media (r : media_row) : bool := if md_deleted_at r is None then true else false.
Definition ByID (id : uuid) : statement Media := λ d,
  match media_rows d !! id with
  | Some r => if live_media r then (Ok (MkMedia id r (variants id d)), d) else (Err MediaNotFound, d)
  | None => (Err MediaNotFound, d)
  end.
(** What the sweep reads of each row: its identifier and its kind. *)
Definition PendingProcessing (limit : Z) d : list (uuid * string) :=
  (λ r : uuid * media_row, (r.1, md_kind r.2)) <$> take (Z.to_nat limit) (order_by (λ r, md_created_at r.2)
    (rows_where (λ _ r, bool_decide (md_process_status r = "pending"%string) && bool_decide (md_scan_status r ∈ ["clean"; "skipped"]%string) && live_media r)
       (media_rows d))).
Definition deleted (now : time) (r : media_row) : media_row :=
  MkMediaRow (md_owner r) (md_bucket r) (md_key r) (md_kind r) (md_mime r) (md_declared_mime r) (md_file_name r) (md_size r) (md_sha256 r) (md_width r)
    (md_height r) (md_duration r) (md_waveform r) (md_blurhash r) (md_scan_status r) (md_scan_detail r) (md_process_status r) (md_error r) (md_created_at r)
    (md_ready_at r) (Some now).
Definition SoftDelete (now : time) (mediaID ownerID : uuid) : statement () := λ d,
  match media_rows d !! mediaID with
  | Some r => if bool_decide (md_owner r = Some ownerID) && live_media r then (Ok (), update_media mediaID (deleted now) d) else (Err MediaNotFound, d)
  | None => (Err MediaNotFound, d)
  end.
(** [LIMIT] without an order *)
Definition ExpiredSessions (limit : Z) d : list UploadSession :=
  (λ r : uuid * session_row, MkUploadSession r.1 r.2) <$>
    take (Z.to_nat limit) (rows_where (λ _ s, bool_decide (up_status s = "expired"%string)) (upload_sessions d)).
Definition DeleteSession (sessionID : uuid) : statement () :=
  modify (λ d, with_sessions (delete sessionID (upload_sessions d)) (with_chunks (delete_where (λ k _, bool_decide (k.1 = sessionID)) (media_chunks d)) d)).
End repository.

(** ** Service *)

Record media_job := MkMediaJob { mj_media_id : uuid; mj_kind : string }.
(** [mw_meanwhile]: what others do to the rows and the objects before each of the accesses to
    come; the empty list is a world where nobody else is at work. *)
Record media_world (St : Type) := MkMediaWorld {
  mw_db : mediadb;
  mw_store : St;
  mw_limiter : limiter_state;
  mw_jobs : list (Job media_job);
  mw_meanwhile : list (mediadb * St → mediadb * St);
}.
Arguments MkMediaWorld {St}.
Arguments mw_db {St}.
Arguments mw_store {St}.
Arguments mw_limiter {St}.
Arguments mw_jobs {St}.
Arguments mw_meanwhile {St}.
Definition with_mw_db {St} d (w : media_world St) := MkMediaWorld d (mw_store w) (mw_limiter w) (mw_jobs w) (mw_meanwhile w).
Definition with_mw_store {St} (v : St) (w : media_world St) := MkMediaWorld (mw_db w) v (mw_limiter w) (mw_jobs w) (mw_meanwhile w).
Definition with_mw_limiter {St} v (w : media_world St) := MkMediaWorld (mw_db w) (mw_store w) v (mw_jobs w) (mw_meanwhile w).
Definition with_mw_jobs {St} v (w : media_world St) := MkMediaWorld (mw_db w) (mw_store w) (mw_limiter w) v (mw_meanwhile w).
(** The world at the next access. *)
Definition resume {St} (w : media_world St) : media_world St :=
  match mw_meanwhile w with
  | [] => w
  | f :: l => let '(d, s) := f (mw_db w, mw_store w) in MkMediaWorld d s (mw_limiter w) (mw_jobs w) l
  end.

Definition headerBytes : Z := 512.
Definition CodeUploadExpired : string := "UPLOAD_SESSION_EXPIRED".
Definition CodeUploadIncomplete : string := "UPLOAD_INCOMPLETE".
Definition CodeFileRejected : string := "FILE_REJECTED".
Definition CodeVirusDetected : string := "VIRUS_DETECTED".
Record CreateUploadInput := MkCreateUploadInput { cu_UserID : uuid; cu_Kind : string; cu_MimeType : string; cu_FileName : string; cu_Size : Z }.
Record PartUpload := MkPartUpload { pu_PartNumber : Z; pu_URL : string; pu_Size : Z }.
Record CreateUploadResult := MkCreateUploadResult {
  cr_SessionID : uuid;
  cr_MediaID : uuid;
  cr_PartSize : Z;
  cr_Parts : list PartUpload;
  cr_ExpiresAt : time;
}.
Inductive download_answer := JSONURL (url : string) | RedirectTo (url : string).

Section service.
Context `{ObjectStore St} `{JetStream media_job}.
Context (storage : StorageConfig) (pg_error : string) (collate : string → Z) (lower quote : string → string) (cfg : MediaConfig).
Abbreviation handler := (prog (media_world St) Error) (only parsing).

Definition on_db {E A} (h : mediaerr → E) (m : prog mediadb mediaerr A) : prog (media_world St) E A := λ w,
  zoom mw_db with_mw_db (map_err h m) (resume w).
Definition on_store {E A} (h : string → E) (m : prog St string A) : prog (media_world St) E A := λ w,
  zoom mw_store with_mw_store (map_err h m) (resume w).
(** [_ = f()] *)
Definition unchecked {S E E' A} (m : prog S E A) : prog S E' () := λ s, (Ok (), (m s).2).
Definition from_store {E A} (h : string → E) (f : St → result string A) : prog (media_world St) E A := λ w,
  let w := resume w in match f (mw_store w) with Ok a => (Ok a, w) | Err e => (Err (h e), w) end.
Definition internal {E} (e : E) : Error := Internal.
Definition session_error (e : mediaerr) : Error :=
  match e with MediaNotFound => NotFound CodeNotFound "Upload session not found" | MediaFailed _ => Internal end.
Definition media_error (e : mediaerr) : Error :=
  match e with MediaNotFound => NotFound CodeNotFound "Media not found" | MediaFailed _ => Internal end.

(** [presignParts]: the first number, how many parts are left, and what is left of the file *)
Fixpoint presign_from (now : time) (s : session_row) (number : Z) (n : nat) (remaining : Z) : option (list PartUpload) :=
  match n with
  | O => Some []
  | S n =>
      url ← PresignPart now (up_bucket s) (up_key s) (up_upload s) number (PresignTTL cfg);
      let size := if remaining <? up_part_size s then remaining else up_part_size s in
      rest ← presign_from now s (number + 1) n (remaining - size);
      Some (MkPartUpload number url size :: rest)
  end.
Definition presignParts (now : time) (s : session_row) : option (list PartUpload) := presign_from now s 1 (Z.to_nat (up_total_parts s)) (up_total_size s).
Definition upload_result (s : UploadSession) (parts : list PartUpload) : CreateUploadResult :=
  MkCreateUploadResult (se_ID s) (up_media (se_Row s)) (up_part_size (se_Row s)) parts (up_expires_at (se_Row s)).

Definition allow_upload (now : time) (u : uuid) : handler () := λ w,
  let '((res, _), l) := allow_rule UploadsPerUser (uuid_String u) now (mw_limiter w) in
  if Allowed res then (Ok (), with_mw_limiter l w) else (Err (RateLimited (RateLimit.RetryAfter res / second)), with_mw_limiter l w).
(** [drawn] is the random part of the object's name, the other ids are the database's. *)
Definition CreateUpload (now : time) (drawn mediaID sessionID : uuid) (i : CreateUploadInput) : handler CreateUploadResult :=
  match CheckRequest quote cfg (cu_Kind i) (cu_MimeType i) (cu_FileName i) (cu_Size i) with
  | Err e => fail (WithField (Validation "The file was rejected") (ve_Field e) (ve_Reason e))
  | Ok _ =>
      allow_upload now (cu_UserID i);;
      let objectKey := buildObjectKey lower now drawn (cu_Kind i) (cu_FileName i) in
      let '(partSize, totalParts) := plan_parts cfg (cu_Size i) in
      let bucket := MediaBucket storage in
      uploadID ← on_store internal (NewMultipartUpload bucket objectKey (ServableContentType (cu_MimeType i)));
      session ← catch
        (on_db id (CreateUploadSession pg_error now mediaID sessionID
           (MkSessionRow (cu_UserID i) mediaID bucket objectKey uploadID (cu_Kind i) (cu_MimeType i) (cu_FileName i) (cu_Size i) partSize totalParts
              "active" (now + UploadSessionTTL cfg) None)))
        (λ _, unchecked (on_store internal (AbortMultipartUpload bucket objectKey uploadID));; fail Internal);
      parts ← or_fail (presignParts now (se_Row session)) Internal;
      mret (upload_result session parts)
  end.

Definition loadActiveSession (now : time) (sessionID userID : uuid) : handler UploadSession :=
  session ← on_db session_error (UploadSessionByID sessionID userID);
  fail_if (negb (bool_decide (up_status (se_Row session) = "active"%string)))
    (Conflict CodeUploadExpired ("This upload session is " +:+ up_status (se_Row session)));;
  if up_expires_at (se_Row session) <? now then
    unchecked (on_db internal (SetSessionStatus now sessionID "expired"));;
    fail (Conflict CodeUploadExpired "This upload session has expired")
  else mret session.
Definition RefreshParts (now : time) (sessionID userID : uuid) : handler CreateUploadResult :=
  session ← loadActiveSession now sessionID userID;
  parts ← or_fail (presignParts now (se_Row session)) Internal;
  mret (upload_result session parts).
Definition Service_RecordPart (now : time) (sessionID userID : uuid) (part : Part) : handler () :=
  session ← loadActiveSession now sessionID userID;
  fail_if ((PartNumber part <? 1) || (up_total_parts (se_Row session) <? PartNumber part))
    (WithField (Validation "Part number is out of range") "part_number" ("must be between 1 and " +:+ Itoa (up_total_parts (se_Row session))));;
  fail_if (bool_decide (trim_space (ETag part) = ""%string)) (WithField (Validation "ETag is required") "etag" "required");;
  on_db internal (RecordPart pg_error now sessionID part).

Definition Service_Get (mediaID : uuid) : handler Media := on_db media_error (ByID collate mediaID).
Definition readHeader (bucket key : string) (s : St) : result string (list N) :=
  match GetRange bucket key 0 headerBytes s with Ok reader => read_full headerBytes reader | Err e => Err e end.
Definition initial_scan : string := if bool_decide (ClamAVAddr cfg = ""%string) then "skipped" else "pending".
(** [PublishJob]: one that fails is logged. *)
Definition enqueue_media (now : time) (dedupeID : string) (j : media_job) : handler () := λ w,
  (Ok (), with_mw_jobs (PublishJob now SubjectJobMediaProcess dedupeID j (mw_jobs w)).2 w).
Definition CompleteUpload (now : time) (sessionID userID : uuid) : handler Media :=
  session ← loadActiveSession now sessionID userID;
  let s := se_Row session in
  parts ← on_db internal (gets (Parts sessionID));
  fail_if (negb (Z.of_nat (length parts) =? up_total_parts s))
    (WithField (newError 400 CodeUploadIncomplete "Some parts of this upload are missing") "parts"
       ("received " +:+ Itoa (Z.of_nat (length parts)) +:+ " of " +:+ Itoa (up_total_parts s)));;
  on_store internal (CompleteMultipartUpload (up_bucket s) (up_key s) (up_upload s) parts);;
  size ← from_store internal (Stat (up_bucket s) (up_key s));
  header ← from_store internal (readHeader (up_bucket s) (up_key s));
  match CheckContent quote cfg (up_kind s) (up_declared_mime s) header with
  | Err e =>
      unchecked (on_store internal (Remove (up_bucket s) (up_key s)));;
      unchecked (on_db internal (SetSessionStatus now sessionID "aborted"));;
      fail (WithField (newError 422 CodeFileRejected "The uploaded file was rejected") (ve_Field e) (ve_Reason e))
  | Ok actualMIME =>
      on_db internal (FinalizeMedia pg_error (up_media s) actualMIME size None initial_scan);;
      unchecked (on_db internal (SetSessionStatus now sessionID "completed"));;
      enqueue_media now (uuid_String (up_media s)) (MkMediaJob (up_media s) (up_kind s));;
      Service_Get (up_media s)
  end.
Definition AbortUpload (now : time) (sessionID userID : uuid) : handler () :=
  session ← on_db session_error (UploadSessionByID sessionID userID);
  unchecked (on_store internal (AbortMultipartUpload (up_bucket (se_Row session)) (up_key (se_Row session)) (up_upload (se_Row session))));;
  on_db internal (SetSessionStatus now sessionID "aborted").
Definition variant_key (variant : string) (m : Media) : option string :=
  if bool_decide (variant ∈ [""; "original"]%string) then Some (md_key (me_Row m))
  else va_ObjectKey <$> head (filter (λ v, va_Variant v = variant) (me_Variants m)).
Definition DownloadURL (now : time) (mediaID : uuid) (variant : string) : handler string :=
  m ← Service_Get mediaID;
  fail_if (bool_decide (md_scan_status (me_Row m) = "infected"%string)) (Forbidden CodeVirusDetected "This file was found to be malicious");;
  key ← or_fail (variant_key variant m) (NotFound CodeNotFound "That variant does not exist");
  or_fail (PresignGet storage now (md_bucket (me_Row m)) key (md_file_name (me_Row m)) (PresignTTL cfg)) Internal.
Definition Service_Delete (now : time) (mediaID userID : uuid) : handler () := on_db media_error (SoftDelete now mediaID userID).

(** ** Handlers *)

Definition sessionContext (p : option Principal) (sessionID : option uuid) : handler (Principal * uuid) :=
  principal ← MustPrincipal p;
  id ← path_id "sessionID is not a valid UUID" sessionID;
  mret (principal, id).
Record upload_body := MkUploadBody { ub_kind : string; ub_mime_type : string; ub_file_name : string; ub_size : Z }.
Definition handle_createUpload (now : time) (drawn mediaID sessionID : uuid) (p : option Principal) (body : Body upload_body) : handler CreateUploadResult :=
  principal ← MustPrincipal p;
  b ← DecodeJSON body;
  CreateUpload now drawn mediaID sessionID (MkCreateUploadInput (prUserID principal) (ub_kind b) (ub_mime_type b) (ub_file_name b) (ub_size b)).
Definition handle_refreshParts (now : time) (p : option Principal) (sessionID : option uuid) : handler CreateUploadResult :=
  c ← sessionContext p sessionID; RefreshParts now c.2 (prUserID c.1).
Definition handle_recordPart (now : time) (p : option Principal) (sessionID : option uuid) (body : Body Part) : handler () :=
  c ← sessionContext p sessionID;
  b ← DecodeJSON body;
  Service_RecordPart now c.2 (prUserID c.1) b.
Definition handle_completeUpload (now : time) (p : option Principal) (sessionID : option uuid) : handler Media :=
  c ← sessionContext p sessionID; CompleteUpload now c.2 (prUserID c.1).
Definition handle_abortUpload (now : time) (p : option Principal) (sessionID : option uuid) : handler () :=
  c ← sessionContext p sessionID; AbortUpload now c.2 (prUserID c.1).
Definition handle_getMedia (mediaID : option uuid) : handler Media :=
  id ← path_id "mediaID is not a valid UUID" mediaID; Service_Get id.
Definition handle_download (now : time) (mediaID : option uuid) (variant redirect : string) : handler download_answer :=
  id ← path_id "mediaID is not a valid UUID" mediaID;
  url ← DownloadURL now id variant;
  mret (if bool_decide (redirect = "false"%string) then JSONURL url else RedirectTo url).
Definition handle_deleteMedia (now : time) (p : option Principal) (mediaID : option uuid) : handler () :=
  principal ← MustPrincipal p;
  id ← path_id "mediaID is not a valid UUID" mediaID;
  Service_Delete now id (prUserID principal).
End service.
