(* ===== verification/MediaWorker.v ===== *)
(** * What becomes of an upload ([internal/worker/media.go]; [internal/media]: scanner.go,
      imaging.go, ffmpeg.go; [internal/worker/worker.go])

    The scan, the derived renditions and the sweeps.  [ffmpeg], [ffprobe] and [clamd] are other
    programs; decoding, scaling and encoding pictures, the placeholder and the waveform are
    floating-point work on samples: both are classes.  A scratch directory that could be made
    keeps what is written to it. *)

From stdpp Require Import base tactics list sorting gmap strings.
From Stdlib Require Import ZArith Lia.
From S2P Require Import Prelude GoString Httpx RateLimit Ports Jobs Auth NetGuard Http MediaRules Media.
From S2P Require Import Security.

Set Default Goal Selector "!".
Open Scope Z_scope.

(** ** The scanner *)

Record ScanResult := MkScanResult { sc_Status : string; sc_Detail : string }.
Definition clamChunkSize : Z := 64 * 1024.
(** [binary.BigEndian.PutUint32(b, uint32(n))] *)
Definition be32 (n : Z) : list N :=
  Z.to_N <$> [Z.land (Z.shiftr n 24) 255; Z.land (Z.shiftr n 16) 255; Z.land (Z.shiftr n 8) 255; Z.land n 255].
Definition frame (read : list N) : list N := if bool_decide (read = []) then [] else be32 (Z.of_nat (length read)) ++ read.
Definition instream (reads : list (list N)) : list N := bytes_of "zINSTREAM" ++ [0%N] ++ (reads ≫= frame) ++ be32 0.
Definition parseClamAVResponse (response : string) : ScanResult :=
  let trimmed := trim_space (trim_suffix response (string_of [0%N])) in
  if has_suffix trimmed "OK" then MkScanResult "clean" ""
  else if has_suffix trimmed "FOUND" then
    MkScanResult "infected" (trim_space (trim_prefix (trim_space (trim_suffix trimmed "FOUND")) "stream:"))
  else MkScanResult "failed" trimmed.
(** [clamd]: whether it can be reached, and what it answers to what it is sent. *)
Class ClamAV := { clamd_dial : option string; clamd : list N → result string (list N) }.
Definition Scan `{ClamAV} (content : stream) : result string ScanResult :=
  match clamd_dial with
  | Some e => Err ("media: dial clamav: " +:+ e)
  | None =>
      match content.2 with
      | Some e => Err ("media: read content: " +:+ e)
      | None =>
          match clamd (instream content.1) with
          | Err e => Err e
          | Ok response => Ok (parseClamAVResponse (string_of (take 4096 response)))
          end
      end
  end.

(** ** Pictures *)

Record ImageVariant := MkImageVariant { iv_Name : string; iv_Data : list N; iv_MimeType : string; iv_Width : Z; iv_Height : Z }.
Definition imageVariants : list (string * Z * Z) :=
  [("thumbnail", 160, 70); ("small", 320, 75); ("medium", 800, 80); ("preview", 1600, 85)]%string.
Class Imaging (Img : Type) := {
  Decode : list N → result string Img;
  Dx : Img → Z;
  Dy : Img → Z;
  resizeToBox : Img → Z → Img;
  encodeJPEG : Img → Z → result string (list N);
  EncodeBlurHash : Img → Z → Z → string;
}.
Section imaging.
Context `{Imaging Img}.
Fixpoint render (source : Img) (longestEdge : Z) (specs : list (string * Z * Z)) : result string (list ImageVariant) :=
  match specs with
  | [] => Ok []
  | (name, maxEdge, quality) :: specs =>
      if (longestEdge <? maxEdge) && negb (bool_decide (name = "thumbnail"%string)) then render source longestEdge specs
      else
        let resized := resizeToBox source maxEdge in
        match encodeJPEG resized quality with
        | Err e => Err e
        | Ok encoded =>
            match render source longestEdge specs with
            | Err e => Err e
            | Ok rest => Ok (MkImageVariant name encoded "image/jpeg" (Dx resized) (Dy resized) :: rest)
            end
        end
  end.
Definition ProcessImage (data : list N) : result string (list ImageVariant * Z * Z * string) :=
  match Decode data with
  | Err e => Err ("media: decode image: " +:+ e)
  | Ok source =>
      let width := Dx source in let height := Dy source in
      if (width =? 0) || (height =? 0) then Err "media: image has zero dimensions"%string
      else
        match render source (if width <? height then height else width) imageVariants with
        | Err e => Err e
        | Ok l => Ok (l, width, height, EncodeBlurHash (resizeToBox source 64) 4 3)
        end
  end.
End imaging.

(** ** Sound and film *)

Record MediaInfo := MkMediaInfo {
  mi_Width : Z;
  mi_Height : Z;
  mi_DurationMs : Z;
  mi_Bitrate : Z;
  mi_VideoCodec : string;
  mi_AudioCodec : string;
  mi_HasAudio : bool;
  mi_HasVideo : bool;
}.
Record probe_stream := MkProbeStream { ps_codec_type : string; ps_codec_name : string; ps_width : Z; ps_height : Z }.
Record probe_output := MkProbeOutput { po_streams : list probe_stream; po_duration : string; po_bit_rate : string }.
(** [ffmpeg] turns a file into another according to its options, or fails with the error of
    the process and what it wrote; [milliseconds] is [int(seconds * 1000)] of a decimal. *)
Class Toolchain := {
  LookPath : string → bool;
  MkdirTemp : option string;
  ffprobe : list N → result string probe_output;
  ffmpeg : list string → list N → result (string * string) (list N);
  milliseconds : string → option Z;
  peaks : Z → list N → option (list Z);
}.
Definition empty_info : MediaInfo := MkMediaInfo 0 0 0 0 "" "" false false.
Definition note_stream (i : MediaInfo) (s : probe_stream) : MediaInfo :=
  if bool_decide (ps_codec_type s = "video"%string) then
    if (0 <? ps_width s) && (0 <? ps_height s) && negb (mi_HasVideo i)
    then MkMediaInfo (ps_width s) (ps_height s) (mi_DurationMs i) (mi_Bitrate i) (ps_codec_name s) (mi_AudioCodec i) (mi_HasAudio i) true
    else i
  else if bool_decide (ps_codec_type s = "audio"%string)
  then MkMediaInfo (mi_Width i) (mi_Height i) (mi_DurationMs i) (mi_Bitrate i) (mi_VideoCodec i) (ps_codec_name s) true (mi_HasVideo i)
  else i.
Record VideoRendition := MkVideoRendition { vr_Name : string; vr_Height : Z; vr_Bitrate : string; vr_Audio : string }.
Definition videoRenditions : list VideoRendition :=
  [MkVideoRendition "360p" 360 "800k" "96k"; MkVideoRendition "720p" 720 "2500k" "128k"; MkVideoRendition "1080p" 1080 "5000k" "192k"].
Definition RenditionsFor (sourceHeight : Z) : list VideoRendition :=
  match filter (λ r, vr_Height r ≤ sourceHeight) videoRenditions with [] => take 1 videoRenditions | l => l end.
Definition formatTimestamp (d : Z) : string :=
  let total := Z.quot d second in
  pad 2 (Z.quot total 3600) +:+ ":" +:+ pad 2 (Z.quot (Z.rem total 3600) 60) +:+ ":" +:+ pad 2 (Z.rem total 60).
(** The ellipsis is three bytes of UTF-8. *)
Definition tail_of (output : string) (n : nat) : string :=
  let bs := bytes_of (trim_space output) in
  if (length bs <=? n)%nat then string_of bs else string_of ([226; 128; 166]%N ++ drop (length bs - n) bs).
Section tools.
Context `{Toolchain}.
Definition FFmpegAvailable : bool := LookPath "ffmpeg" && LookPath "ffprobe".
Definition Probe (file : list N) : result string MediaInfo :=
  match ffprobe file with
  | Err e => Err e
  | Ok o =>
      let i := foldl note_stream empty_info (po_streams o) in
      Ok (MkMediaInfo (mi_Width i) (mi_Height i) (default 0 (milliseconds (po_duration o)))
            (from_option (λ b, Z.quot b 1000) 0 (Atoi (po_bit_rate o))) (mi_VideoCodec i) (mi_AudioCodec i) (mi_HasAudio i) (mi_HasVideo i))
  end.
Definition run_ffmpeg (prefix : string) (args : list string) (file : list N) : result string (list N) :=
  match ffmpeg args file with Ok out => Ok out | Err (e, output) => Err (prefix +:+ e +:+ ": " +:+ tail_of output 400) end.
Definition TranscodeVideo (file : list N) (r : VideoRendition) : result string (list N) :=
  run_ffmpeg ("media: transcode " +:+ vr_Name r +:+ ": ")
    ["-vf"; "scale=-2:" +:+ Itoa (vr_Height r); "-c:v"; "libx264"; "-preset"; "medium"; "-crf"; "23"; "-maxrate"; vr_Bitrate r; "-bufsize"; vr_Bitrate r;
     "-c:a"; "aac"; "-b:a"; vr_Audio r; "-movflags"; "+faststart"]%string file.
Definition ExtractPoster (file : list N) (atMs : Z) : result string (list N) :=
  run_ffmpeg "media: extract poster: " ["-ss"; formatTimestamp (atMs * 1000000); "-frames:v"; "1"; "-q:v"; "3"]%string file.
Definition TranscodeVoice (file : list N) : result string (list N) :=
  run_ffmpeg "media: transcode voice: " ["-c:a"; "libopus"; "-b:a"; "32k"; "-ac"; "1"; "-ar"; "48000"; "-application"; "voip"]%string file.
End tools.

(** ** The worker *)

Definition maxInMemoryBytes : Z := Z.shiftl 64 20.

Section worker.
Context `{ObjectStore St} `{JetStream media_job} `{ClamAV} `{Imaging Img} `{Toolchain} `{Digest}.
Context (pg_error : string) (collate : string → Z) (cfg : MediaConfig).
Abbreviation task := (prog (media_world St) string) (only parsing).

Definition message_of (e : mediaerr) : string := match e with MediaNotFound => "media: not found" | MediaFailed m => m end.
Definition on_rows {A} (m : prog mediadb mediaerr A) : task A := on_db message_of m.
Definition of_result {A} (r : result string A) : task A := λ w, (r, w).
Definition labelled {A} (prefix : string) (r : result string A) : result string A := wrapped prefix r.
Definition scanner_enabled : bool := negb (bool_decide (trim_space (ClamAVAddr cfg) = ""%string)).

Definition object_stream (prefix : string) (m : Media) : task stream :=
  from_store (λ e, prefix +:+ e) (GetObject (md_bucket (me_Row m)) (md_key (me_Row m))).
Definition scanObject (m : Media) : task () :=
  if negb scanner_enabled then mret ()
  else
    reader ← object_stream "worker: fetch for scan: " m;
    match Scan reader with
    | Err e =>
        if VirusScanRequired cfg then fail ("worker: scan failed and scanning is required: " +:+ e)
        else on_rows (SetScanResult pg_error (me_ID m) "failed" e)
    | Ok r =>
        if bool_decide (sc_Status r = "infected"%string) then
          unchecked (on_store (λ e : string, e) (Remove (md_bucket (me_Row m)) (md_key (me_Row m))));;
          on_rows (SetScanResult pg_error (me_ID m) "infected" (sc_Detail r));;
          fail ("worker: object is infected: " +:+ sc_Detail r)
        else on_rows (SetScanResult pg_error (me_ID m) (sc_Status r) (sc_Detail r))
    end.

(** The bytes and their digest. *)
Definition download (m : Media) : task (list N * list N) :=
  reader ← object_stream "worker: fetch object: " m;
  data ← of_result (labelled "worker: read object: " (read_full maxInMemoryBytes reader));
  mret (data, sha256 data).
Definition downloadToFile (m : Media) : task (list N * list N) :=
  reader ← object_stream "worker: fetch object: " m;
  data ← of_result (labelled "worker: write temp file: " (read_all reader));
  mret (data, sha256 data).
Definition digest (m : Media) : task (list N) :=
  reader ← object_stream "worker: fetch for digest: " m;
  data ← of_result (labelled "worker: hash object: " (read_all reader));
  mret (sha256 data).
(** The last two statements of every kind. *)
Definition finish (now : time) (m : Media) (sha : list N) (width height durationMs : option Z) (waveform : option (list Z)) (blurhash : option string)
    : task () :=
  on_rows (FinalizeMedia pg_error (me_ID m) (md_mime (me_Row m)) (md_size (me_Row m)) (Some sha) "clean");;
  on_rows (MarkReady pg_error now (me_ID m) width height durationMs waveform blurhash).
Definition keep_original (now : time) (m : Media) : task () := on_rows (MarkReady pg_error now (me_ID m) None None None None None).
Definition store_variant (label : string → string) (m : Media) (v : ImageVariant) : task () :=
  let key := VariantKey (md_key (me_Row m)) (iv_Name v) ".jpg" in
  on_store (λ e, label (iv_Name v) +:+ e) (Put (md_bucket (me_Row m)) key (iv_Data v) (iv_MimeType v));;
  on_rows (AddVariant pg_error (me_ID m)
    (MkVariant (iv_Name v) (iv_MimeType v) (Z.of_nat (length (iv_Data v))) (Some (iv_Width v)) (Some (iv_Height v)) None key)).

Definition processImage (now : time) (m : Media) : task () :=
  fail_if (maxInMemoryBytes <? md_size (me_Row m))
    ("worker: image is too large to process (" +:+ Itoa (md_size (me_Row m)) +:+ " bytes)")%string;;
  d ← download m;
  '(l, width, height, blurhash) ← of_result (ProcessImage d.1);
  for_each l (store_variant (λ name, "worker: store " +:+ name +:+ " variant: ") m);;
  finish now m d.2 (Some width) (Some height) None None (Some blurhash).
Definition storeImageVariants (now : time) (m : Media) (poster : list N) : task () :=
  '(l, _, _, blurhash) ← of_result (ProcessImage poster);
  for_each l (store_variant (λ _, "worker: store poster variant: ") m);;
  if bool_decide (blurhash = ""%string) then mret ()
  else on_rows (MarkReady pg_error now (me_ID m) None None None None (Some blurhash)).
Definition poster_at (info : MediaInfo) : Z :=
  if (0 <? mi_DurationMs info) && (mi_DurationMs info <? 2000) then Z.quot (mi_DurationMs info) 2 else 1000.
Definition store_rendition (m : Media) (source : list N) (r : VideoRendition) : task () :=
  match TranscodeVideo source r with
  | Err _ => mret ()
  | Ok target =>
      let key := VariantKey (md_key (me_Row m)) (vr_Name r) ".mp4" in
      on_store (λ e : string, e) (Put (md_bucket (me_Row m)) key target "video/mp4");;
      on_rows (AddVariant pg_error (me_ID m)
        (MkVariant (vr_Name r) "video/mp4" (Z.of_nat (length target)) None (Some (vr_Height r)) None key))
  end.
Definition temp_dir : task () := match MkdirTemp with Some e => fail ("media: create temp dir: " +:+ e) | None => mret () end.
Definition processVideo (now : time) (m : Media) : task () :=
  if negb FFmpegAvailable then keep_original now m
  else
    temp_dir;;
    d ← downloadToFile m;
    info ← of_result (Probe d.1);
    match ExtractPoster d.1 (poster_at info) with Ok poster => storeImageVariants now m poster | Err _ => mret () end;;
    for_each (RenditionsFor (mi_Height info)) (store_rendition m d.1);;
    finish now m d.2 (Some (mi_Width info)) (Some (mi_Height info)) (Some (mi_DurationMs info)) None None.
Definition store_voice (m : Media) (source : list N) : task () :=
  match TranscodeVoice source with
  | Err _ => mret ()
  | Ok opus =>
      let key := VariantKey (md_key (me_Row m)) "opus" ".ogg" in
      on_store (λ e : string, e) (Put (md_bucket (me_Row m)) key opus "audio/ogg");;
      on_rows (AddVariant pg_error (me_ID m) (MkVariant "opus" "audio/ogg" (Z.of_nat (length opus)) None None None key))
  end.
Definition processVoice (now : time) (m : Media) : task () :=
  if negb FFmpegAvailable then keep_original now m
  else
    temp_dir;;
    d ← downloadToFile m;
    info ← of_result (Probe d.1);
    (if bool_decide (mi_AudioCodec info = "opus"%string) then mret () else store_voice m d.1);;
    finish now m d.2 None None (Some (mi_DurationMs info)) (peaks 64 d.1) None.
Definition processAudio (now : time) (m : Media) : task () :=
  if negb FFmpegAvailable then keep_original now m
  else
    temp_dir;;
    d ← downloadToFile m;
    info ← of_result (Probe d.1);
    finish now m d.2 None None (Some (mi_DurationMs info)) None None.
Definition processMedia (now : time) (m : Media) : task () :=
  scanObject m;;
  let kind := md_kind (me_Row m) in
  if bool_decide (kind ∈ [KindImage; KindAvatar; KindSticker]) then processImage now m
  else if bool_decide (kind ∈ [KindVideo; KindGIF]) then processVideo now m
  else if bool_decide (kind = KindVoice) then processVoice now m
  else if bool_decide (kind = KindAudio) then processAudio now m
  else
    sha ← digest m;
    finish now m sha None None None None None.
(** [None] is a payload that does not decode. *)
Definition handleMediaProcess (now : time) (payload : result string media_job) : task () :=
  match payload with
  | Err e => fail ("worker: decode media job: " +:+ e)
  | Ok j => λ w,
      match on_rows (ByID collate (mj_media_id j)) w with
      | (Err _, w) => (Ok (), w)
      | (Ok m, w) =>
          if bool_decide (md_process_status (me_Row m) = "ready"%string) then (Ok (), w)
          else (on_rows (MarkProcessing (me_ID m));;
                catch (processMedia now m) (λ e, unchecked (on_rows (MarkFailed pg_error (me_ID m) e)))) w
      end
  end.

(** ** Sweeps *)

Definition expireUploadSessions (now : time) : task Z := λ w,
  let w := resume w in
  let due := λ (_ : uuid) s, bool_decide (up_status s = "active"%string) && (up_expires_at s <? now) in
  (Ok (count_where due (upload_sessions (mw_db w))),
   with_mw_db (with_sessions (update_where due
     (λ _ s, MkSessionRow (up_user s) (up_media s) (up_bucket s) (up_key s) (up_upload s) (up_kind s) (up_declared_mime s) (up_file_name s)
        (up_total_size s) (up_part_size s) (up_total_parts s) "expired" (up_expires_at s) (up_completed_at s)) (upload_sessions (mw_db w))) (mw_db w)) w).
Definition release (s : UploadSession) : task () :=
  unchecked (on_store (λ e : string, e) (AbortMultipartUpload (up_bucket (se_Row s)) (up_key (se_Row s)) (up_upload (se_Row s))));;
  on_rows (DeleteSession (se_ID s)).
Definition reapExpiredUploads : task Z :=
  sessions ← on_rows (gets (ExpiredSessions 100));
  for_each sessions release;;
  mret (Z.of_nat (length sessions)).
Definition requeue (now : time) (o : uuid * string) : task () := λ w,
  match PublishJob now SubjectJobMediaProcess ("retry-" +:+ uuid_String o.1) (MkMediaJob o.1 o.2) (mw_jobs w) with
  | (Ok _, l) => (Ok (), with_mw_jobs l w)
  | (Err _, l) => (Err "publish failed"%string, with_mw_jobs l w)
  end.
Definition retryStrandedMedia (now : time) : task Z :=
  pending ← on_rows (gets (PendingProcessing 50));
  for_each pending (requeue now);;
  mret (Z.of_nat (length pending)).
End worker.
