(* ===== verification/MediaTheory.v ===== *)
(** * What is guaranteed of uploads ([internal/media], [internal/worker/media.go])

    The parts of an upload, what completing one checks, the order of the tables under any
    interleaving of calls, jobs and sweeps, what becomes of an infected file, and where a file
    that was not scanned passes for clean. *)

From stdpp Require Import base tactics list sorting gmap strings.
From Stdlib Require Import ZArith Lia.
From S2P Require Import Prelude Steps Antispam GoString Httpx RateLimit Ports Jobs Auth NetGuard Http MediaRules Media MediaWorker Security.

Set Default Goal Selector "!".
Open Scope Z_scope.

(** ** The parts of an upload *)

(** [n] parts of [ps] bytes hold [size] bytes, and one less would not. *)
Definition divides_into (size ps n : Z) : Prop := (n - 1) * ps < size ≤ n * ps.

Lemma parts_for_divides size ps : 0 < size → 0 < ps → size + ps < 2 ^ 63 → divides_into size ps (parts_for size ps).
Proof.
  intros Hs Hp Hb. unfold divides_into, parts_for. rewrite (wrap64_id (size + ps)) by lia. rewrite wrap64_id by lia.
  rewrite Z.quot_div_nonneg by lia. pose proof (Z.div_mod (size + ps - 1) ps ltac:(lia)). pose proof (Z.mod_pos_bound (size + ps - 1) ps Hp). nia.
Qed.
Lemma grow_divides fuel : ∀ size ps n, 0 < size ≤ 2 ^ 50 → 0 < ps ≤ 2 ^ 51 → size ≤ 10000 * ps * 2 ^ Z.of_nat fuel → divides_into size ps n →
  let '(ps', n') := grow fuel size ps n in
  divides_into size ps' n' ∧ n' ≤ 10000 ∧ (ps' = ps ∨ 5000 * ps' < size) ∧ ∃ k : nat, ps' = ps * 2 ^ Z.of_nat k.
Proof.
  induction fuel as [|fuel IH]; intros size ps n Hs Hp Hf Hd; simpl grow.
  - split; [done|]. unfold divides_into in Hd. split; [|split; [by left|exists O; lia]]. simpl in Hf. nia.
  - destruct (10000 <? n) eqn:Hn; [apply Z.ltb_lt in Hn|apply Z.ltb_ge in Hn].
    + unfold divides_into in Hd. assert (Hsmall : 10000 * ps < size) by nia.
      rewrite (wrap64_id (ps * 2)) by lia.
      specialize (IH size (ps * 2) (parts_for size (ps * 2)) Hs ltac:(lia)). destruct (grow _ _ _ _) as [ps' n'].
      destruct IH as (Hd' & Hn' & Hle & k & Hk).
      * rewrite Nat2Z.inj_succ, Z.pow_succ_r in Hf by lia. nia.
      * apply parts_for_divides; lia.
      * split; [done|]. split; [done|]. split; [right; destruct Hle; [lia|done]|]. exists (S k). rewrite Nat2Z.inj_succ, Z.pow_succ_r by lia. lia.
    + split; [done|]. split; [lia|]. split; [by left|]. exists O. lia.
Qed.
Lemma plan_parts_divides cfg size : 5 * 2 ^ 20 ≤ PartSize cfg ≤ 2 ^ 50 → 0 < size ≤ 2 ^ 50 →
  let '(ps, n) := plan_parts cfg size in
  divides_into size ps n ∧ n ≤ 10000 ∧ (ps = PartSize cfg ∨ 5000 * ps < size) ∧ ∃ k : nat, ps = PartSize cfg * 2 ^ Z.of_nat k.
Proof.
  intros Hp Hs. unfold plan_parts.
  pose proof (parts_for_divides size (PartSize cfg) ltac:(lia) ltac:(lia) ltac:(lia)) as Hd.
  assert (parts_for size (PartSize cfg) <? 1 = false) as ->.
  { apply Z.ltb_ge. unfold divides_into in Hd. nia. }
  apply grow_divides; [done|lia|lia|done].
Qed.

Section presigning.
Context `{ObjectStore St} (cfg : MediaConfig).
Lemma presign_from_spec now s n : ∀ number remaining l, presign_from cfg now s number n remaining = Some l → 0 < up_part_size s → 0 < remaining →
  divides_into remaining (up_part_size s) (Z.of_nat n) →
  pu_PartNumber <$> l = seqZ number (Z.of_nat n) ∧ foldr Z.add 0 (pu_Size <$> l) = remaining ∧ Forall (λ p, 0 < pu_Size p ≤ up_part_size s) l.
Proof.
  induction n as [|n IH]; intros number remaining l Hl Hps Hr Hd; simpl in Hl.
  - unfold divides_into in Hd. simpl in Hd. lia.
  - destruct (PresignPart _ _ _ _ _ _) as [url|]; [|done]. simpl in Hl.
    destruct (presign_from cfg now s (number + 1) n _) as [rest|] eqn:Hrest; [|done]. injection Hl as <-. unfold divides_into in *.
    rewrite Nat2Z.inj_succ in *. rewrite seqZ_cons by lia. rewrite !fmap_cons. cbn [pu_PartNumber pu_Size foldr]. replace (Z.pred (Z.succ (Z.of_nat n))) with (Z.of_nat n) by lia.
    destruct (remaining <? up_part_size s) eqn:Hc; [apply Z.ltb_lt in Hc|apply Z.ltb_ge in Hc].
    + assert (n = O) as -> by nia. simpl in Hrest. injection Hrest as <-. simpl. split; [done|]. split; [lia|]. repeat constructor; simpl; nia.
    + destruct n as [|n].
      * change (Z.succ (Z.of_nat 0)) with 1 in Hd. simpl in Hrest. injection Hrest as <-. simpl. split; [done|]. split; [lia|]. repeat constructor; simpl; lia.
      * destruct (IH _ _ _ Hrest Hps) as (Hnum & Hsum & Hall); [nia..|]. rewrite Hnum, Hsum. split; [done|]. split; [lia|].
        constructor; [simpl; lia|done].
Qed.
(** What the addresses are for does not depend on when they are signed. *)
Definition plan_of (p : PartUpload) : Z * Z := (pu_PartNumber p, pu_Size p).
Lemma presign_from_again now later s n : ∀ number remaining l, presign_from cfg now s number n remaining = Some l →
  (∀ k, is_Some (PresignPart later (up_bucket s) (up_key s) (up_upload s) k (PresignTTL cfg))) →
  ∃ l', presign_from cfg later s number n remaining = Some l' ∧ plan_of <$> l' = plan_of <$> l ∧
    Forall (λ p, PresignPart later (up_bucket s) (up_key s) (up_upload s) (pu_PartNumber p) (PresignTTL cfg) = Some (pu_URL p)) l'.
Proof.
  induction n as [|n IH]; intros number remaining l Hl Hsigned; simpl in Hl |- *; [injection Hl as <-; by exists []|].
  destruct (PresignPart now _ _ _ _ _) as [url|]; [|done]. simpl in Hl.
  destruct (presign_from cfg now s (number + 1) n _) as [rest|] eqn:Hrest; [|done]. injection Hl as <-.
  destruct (Hsigned number) as [url' Hurl]. rewrite Hurl. simpl.
  destruct (IH _ _ _ Hrest Hsigned) as (l' & -> & Hplan & Hall). simpl. eexists. split; [reflexivity|].
  split; [rewrite !fmap_cons; by f_equal|]. by constructor.
Qed.
End presigning.

(** ** Taking a handler apart *)

Lemma resume_alone {St} (w : media_world St) : mw_meanwhile w = [] → resume w = w.
Proof. intros Hw. unfold resume. by rewrite Hw. Qed.
Section inversion.
Context `{ObjectStore St} {E : Type}.
Implicit Types w : media_world St.

Lemma on_db_Ok {A} (h : mediaerr → E) (m : prog mediadb mediaerr A) w a w' : on_db h m w = (Ok a, w') →
  ∃ d, m (mw_db (resume w)) = (Ok a, d) ∧ w' = with_mw_db d (resume w).
Proof.
  unfold on_db, zoom, map_err, catch. destruct (m (mw_db (resume w))) as [[b|e] d]; simpl; [|done]. intros [= -> <-]. by exists d.
Qed.
Lemma on_store_Ok {A} (h : string → E) (m : prog St string A) w a w' : on_store h m w = (Ok a, w') →
  ∃ s, m (mw_store (resume w)) = (Ok a, s) ∧ w' = with_mw_store s (resume w).
Proof.
  unfold on_store, zoom, map_err, catch. destruct (m (mw_store (resume w))) as [[b|e] s]; simpl; [|done]. intros [= -> <-]. by exists s.
Qed.
Lemma from_store_Ok {A} (h : string → E) (f : St → result string A) w a w' : from_store h f w = (Ok a, w') →
  f (mw_store (resume w)) = Ok a ∧ w' = resume w.
Proof. unfold from_store. cbv zeta. destruct (f (mw_store (resume w))); [|done]. by intros [= -> <-]. Qed.
Lemma unchecked_bind {E' A B} (m : prog (media_world St) E A) (f : () → prog (media_world St) E' B) w : (unchecked m ≫= f) w = f () (m w).2.
Proof. done. Qed.
Lemma catch_fail_Ok {E' A} (m : prog (media_world St) E A) (m' : prog (media_world St) E' ()) (e : E → E') w a w' :
  catch m (λ x, m';; fail (e x)) w = (Ok a, w') → m w = (Ok a, w').
Proof.
  unfold catch. destruct (m w) as [[b|x] s]; [congruence|]. rewrite bind_run. by destruct (m' s) as [[]].
Qed.
End inversion.

Section theory.
Context `{ObjectStore St} `{JetStream media_job}.
Context (storage : StorageConfig) (pg_error : string) (collate : string → Z) (lower quote : string → string) (cfg : MediaConfig).
Implicit Types w : media_world St.

Lemma CreateUploadSession_Ok now mediaID sessionID s d u d' : CreateUploadSession pg_error now mediaID sessionID s d = (Ok u, d') →
  u = MkUploadSession sessionID (opened mediaID s) ∧ media_row_fits s d = true ∧ session_row_fits s = true ∧
  media_rows d !! mediaID = None ∧ upload_sessions d !! sessionID = None ∧
  d' = with_sessions (<[sessionID := opened mediaID s]> (upload_sessions d)) (with_media (<[mediaID := fresh_media now s]> (media_rows d)) d).
Proof.
  unfold CreateUploadSession. intros Hr. apply in_tx_Ok_inv in Hr. unfold insert_media, insert_session in Hr. rewrite bind_run in Hr.
  destruct (media_row_fits s d && _) eqn:Hm; [|done]. rewrite bind_run in Hr. destruct (session_row_fits s && _) eqn:Hs; [|done].
  injection Hr as <- <-. apply andb_true_iff in Hm as [Hm Hm'], Hs as [Hs Hs'].
  apply negb_true_iff, bool_decide_eq_false in Hm', Hs'. by apply eq_None_not_Some in Hm', Hs'.
Qed.

Lemma loadActiveSession_Ok now sessionID userID w s w' : loadActiveSession now sessionID userID w = (Ok s, w') →
  ∃ r, s = MkUploadSession sessionID r ∧ upload_sessions (mw_db (resume w)) !! sessionID = Some r ∧ up_user r = userID ∧
    up_status r = "active"%string ∧ now ≤ up_expires_at r ∧ w' = resume w.
Proof.
  unfold loadActiveSession. intros Hr. apply bind_Ok_inv in Hr as (u & w1 & Hu & Hr). apply on_db_Ok in Hu as (d & Hu & ->).
  unfold UploadSessionByID in Hu. destruct (upload_sessions _ !! sessionID) as [r|] eqn:Hl; [|done].
  destruct (bool_decide (up_user r = userID)) eqn:Huser; [|done]. injection Hu as <- <-.
  apply bind_Ok_inv in Hr as (? & w2 & Hc & Hr). apply fail_if_Ok_inv in Hc as [Hc ->]. simpl in *.
  destruct (up_expires_at r <? now) eqn:He; [by rewrite bind_run in Hr|]. injection Hr as <- <-.
  exists r. apply negb_false_iff, bool_decide_eq_true in Hc. apply bool_decide_eq_true in Huser. apply Z.ltb_ge in He.
  repeat (split; [done|]). by destruct (resume w).
Qed.

Lemma loadActiveSession_run now sid s w :
  mw_meanwhile w = [] → upload_sessions (mw_db w) !! sid = Some s → up_status s = "active"%string → now ≤ up_expires_at s →
  loadActiveSession now sid (up_user s) w = (Ok (MkUploadSession sid s), w).
Proof.
  intros Halone Hs Hact Hexp. destruct w as [d st lim jobs mean]. simpl in Halone, Hs. subst mean.
  unfold loadActiveSession. rewrite bind_run.
  assert (on_db session_error (UploadSessionByID sid (up_user s)) (MkMediaWorld d st lim jobs []) =
    (Ok (MkUploadSession sid s), MkMediaWorld d st lim jobs [])) as ->.
  { unfold on_db, zoom, map_err, catch, UploadSessionByID. simpl. rewrite Hs. by rewrite bool_decide_true. }
  rewrite bind_run. unfold fail_if. cbn [se_Row]. rewrite bool_decide_true by done. cbn [negb]. by rewrite (proj2 (Z.ltb_ge _ _) Hexp).
Qed.

(** C35: The parts a client is told to send are the file, for a configured part size between
    5 MiB and 2^50 bytes and a declared size of at most 2^50: numbered from one, none empty,
    none larger than the part size announced, ten thousand at most, and their sizes add up to
    the size declared.  The part size is the configured one doubled as often as it takes to stay
    under ten thousand parts, and not once more.  And asking again later, while the session is
    open and nobody else is at work on it, after any number of parts, gives the same parts with
    the same numbers and sizes, at addresses signed anew for the configured time, as long as
    the store signs them. *)
Theorem parts_cover_the_file now drawn mediaID sessionID i w r w' :
  5 * 2 ^ 20 ≤ PartSize cfg ≤ 2 ^ 50 → cu_Size i ≤ 2 ^ 50 →
  CreateUpload storage pg_error lower quote cfg now drawn mediaID sessionID i w = (Ok r, w') →
  (∃ n, 1 ≤ n ≤ 10000 ∧ pu_PartNumber <$> cr_Parts r = seqZ 1 n) ∧
  foldr Z.add 0 (pu_Size <$> cr_Parts r) = cu_Size i ∧
  Forall (λ p, 0 < pu_Size p ≤ cr_PartSize r) (cr_Parts r) ∧
  (∃ k : nat, cr_PartSize r = PartSize cfg * 2 ^ Z.of_nat k) ∧
  (cr_PartSize r = PartSize cfg ∨ 5000 * cr_PartSize r < cu_Size i) ∧
  ∃ s, upload_sessions (mw_db w') !! cr_SessionID r = Some s ∧
    ∀ later w'', mw_meanwhile w'' = [] → upload_sessions (mw_db w'') !! cr_SessionID r = Some s → later ≤ cr_ExpiresAt r →
      (∀ n, is_Some (PresignPart later (up_bucket s) (up_key s) (up_upload s) n (PresignTTL cfg))) →
      ∃ parts, RefreshParts cfg later (cr_SessionID r) (cu_UserID i) w'' =
          (Ok (MkCreateUploadResult (cr_SessionID r) (cr_MediaID r) (cr_PartSize r) parts (cr_ExpiresAt r)), w'') ∧
        (λ p, (pu_PartNumber p, pu_Size p)) <$> parts = (λ p, (pu_PartNumber p, pu_Size p)) <$> cr_Parts r ∧
        Forall (λ p, PresignPart later (up_bucket s) (up_key s) (up_upload s) (pu_PartNumber p) (PresignTTL cfg) = Some (pu_URL p)) parts.
Proof.
  intros Hp Hs. unfold CreateUpload. destruct (CheckRequest _ _ _ _ _ _) as [[]|e] eqn:Hcheck; [|done].
  assert (Hpos : 0 < cu_Size i).
  { unfold CheckRequest in Hcheck. destruct (negb _); [done|]. destruct (cu_Size i <=? 0) eqn:Hz; [done|]. by apply Z.leb_gt in Hz. }
  intros Hr. apply bind_Ok_inv in Hr as (? & w1 & _ & Hr). cbv zeta in Hr.
  pose proof (plan_parts_divides cfg (cu_Size i) Hp ltac:(lia)) as Hplan. destruct (plan_parts cfg (cu_Size i)) as [ps n].
  destruct Hplan as (Hd & Hn & Hgrown & Hk).
  apply bind_Ok_inv in Hr as (uploadID & w2 & _ & Hr). apply bind_Ok_inv in Hr as (u & w3 & Hu & Hr).
  apply catch_fail_Ok, on_db_Ok in Hu as (d & Hu & ->). apply CreateUploadSession_Ok in Hu as (-> & _ & _ & _ & _ & ->).
  apply bind_Ok_inv in Hr as (parts & w4 & Hparts & Hr). apply or_fail_Ok_inv in Hparts as [Hparts ->]. injection Hr as <- <-.
  assert (0 < ps) as Hps by (unfold divides_into in Hd; destruct Hk as [k ->]; nia).
  assert (1 ≤ n) as Hn1 by (unfold divides_into in Hd; nia).
  pose proof Hparts as Hspec. unfold presignParts in Hspec. apply presign_from_spec in Hspec as (Hnum & Hsum & Hall);
    [|done|done|unfold opened; simpl; by rewrite Z2Nat.id by lia].
  unfold upload_result. cbn [se_Row] in *. set (s := opened _ _) in *. simpl in Hnum. rewrite Z2Nat.id in Hnum by lia.
  split; [by exists n|]. split; [done|]. split; [done|]. split; [done|]. split; [done|].
  exists s. split; [apply lookup_insert_eq|]. intros later w'' Halone Hsame Hlater Hsigned.
  destruct (presign_from_again cfg now later s _ _ _ _ Hparts Hsigned) as (parts' & Hparts' & Hsizes & Hurls).
  exists parts'. split; [|by split].
  change (RefreshParts cfg later sessionID (up_user s) w'' = (Ok (MkCreateUploadResult sessionID mediaID ps parts' (up_expires_at s)), w'')).
  unfold RefreshParts. rewrite bind_run, (loadActiveSession_run later sessionID s w'' Halone Hsame eq_refl Hlater).
  rewrite bind_run. unfold or_fail, presignParts. cbn [se_Row]. by rewrite Hparts'.
Qed.
End theory.

(** ** The tables *)

Definition same_object (r r' : media_row) : Prop :=
  md_owner r' = md_owner r ∧ md_bucket r' = md_bucket r ∧ md_key r' = md_key r ∧ md_kind r' = md_kind r.
Definition backs (s : session_row) (r : media_row) : Prop :=
  md_owner r = Some (up_user s) ∧ md_bucket r = up_bucket s ∧ md_key r = up_key s ∧ md_kind r = up_kind s.

(** The identifier of a session is drawn once: it has one number of parts for good. *)
Section tables.
Context (parts_of : uuid → Z) (export_bucket : string).

(** A row that is ready has the instant it became so, unless it is an archive exported by
    [internal/datarights], which is inserted ready. *)
Definition row_in_order (r : media_row) : Prop :=
  md_process_status r = "ready"%string → is_Some (md_ready_at r) ∨ md_bucket r = export_bucket.
Record tables_in_order (d : mediadb) : Prop := {
  chunks_in_range : ∀ sid n c, media_chunks d !! (sid, n) = Some c → ∃ s, upload_sessions d !! sid = Some s ∧ 1 ≤ n ≤ up_total_parts s;
  sessions_planned : ∀ sid s, upload_sessions d !! sid = Some s → up_total_parts s = parts_of sid;
  sessions_backed : ∀ sid s, upload_sessions d !! sid = Some s → ∃ r, media_rows d !! up_media s = Some r ∧ backs s r;
  sessions_apart : ∀ sid sid' s s', upload_sessions d !! sid = Some s → upload_sessions d !! sid' = Some s' → up_media s = up_media s' → sid = sid';
  objects_apart : ∀ id id' r r', media_rows d !! id = Some r → media_rows d !! id' = Some r' → md_bucket r = md_bucket r' → md_key r = md_key r' → id = id';
  rows_in_order : ∀ id r, media_rows d !! id = Some r → row_in_order r;
  variants_backed : ∀ id name v, media_variants d !! (id, name) = Some v → is_Some (media_rows d !! id) ∧ va_Variant v = name;
}.

(** [INSERT INTO media] of an export ([internal/datarights/execute.go]) *)
Definition export_row (now : time) (owner : uuid) (key : string) (size : Z) : media_row :=
  MkMediaRow (Some owner) export_bucket key "file" "application/json" "application/json" "sobh-export.json" size
    None None None None None None "skipped" "" "ready" None now None None.
Definition insert_export (now : time) (id owner : uuid) (key : string) (size : Z) d : mediadb :=
  if bool_decide (is_Some (media_rows d !! id))
     || (0 <? count_where (λ _ r, bool_decide (md_bucket r = export_bucket) && bool_decide (md_key r = key)) (media_rows d))
  then d else with_media (<[id := export_row now owner key size]> (media_rows d)) d.
Definition expire_sessions (now : time) d : mediadb :=
  with_sessions (update_where (λ (_ : uuid) s, bool_decide (up_status s = "active"%string) && (up_expires_at s <? now))
    (λ _ s, MkSessionRow (up_user s) (up_media s) (up_bucket s) (up_key s) (up_upload s) (up_kind s) (up_declared_mime s) (up_file_name s)
       (up_total_size s) (up_part_size s) (up_total_parts s) "expired" (up_expires_at s) (up_completed_at s)) (upload_sessions d)) d.

(** The statements of the program on these tables, run at any time by anybody; [opens] says
    which sessions may still be opened. *)
Inductive media_step (opens : uuid → Prop) : mediadb → mediadb → Prop :=
| step_open pg now mid sid s d : opens sid → up_total_parts s = parts_of sid →
    media_step opens d (CreateUploadSession pg now mid sid s d).2
| step_part pg now sid part d : 1 ≤ PartNumber part ≤ parts_of sid → media_step opens d (RecordPart pg now sid part d).2
| step_status now sid status d : status ≠ "active"%string → media_step opens d (SetSessionStatus now sid status d).2
| step_expire now d : media_step opens d (expire_sessions now d)
| step_drop sid d : media_step opens d (DeleteSession sid d).2
| step_finalize pg id mime size sha status d : media_step opens d (FinalizeMedia pg id mime size sha status d).2
| step_scan pg id status detail d : media_step opens d (SetScanResult pg id status detail d).2
| step_processing id d : media_step opens d (MarkProcessing id d).2
| step_ready pg now id width height duration waveform blurhash d :
    media_step opens d (MarkReady pg now id width height duration waveform blurhash d).2
| step_failed pg id reason d : media_step opens d (MarkFailed pg id reason d).2
| step_variant pg id v d : media_step opens d (AddVariant pg id v d).2
| step_delete now id owner d : media_step opens d (SoftDelete now id owner d).2
| step_export now id owner key size d : media_step opens d (insert_export now id owner key size d).

Lemma tables_update_media id f d : tables_in_order d →
  (∀ r, media_rows d !! id = Some r → same_object r (f r) ∧ (row_in_order r → row_in_order (f r))) →
  tables_in_order (update_media id f d).
Proof.
  intros [Hc Hp Hb Ha Ho Hr Hv] Hf.
  assert (Hstep : ∀ k r', media_rows (update_media id f d) !! k = Some r' → ∃ r, media_rows d !! k = Some r ∧ same_object r r' ∧ row_in_order r').
  { intros k r'. unfold update_media. simpl. rewrite lookup_update_where_Some. intros (r & Hk & ->). exists r. split; [done|].
    case_bool_decide as Hid; [subst k; destruct (Hf r Hk) as [Hs Hi]; split; [done|]; by apply Hi, (Hr id)|].
    split; [by repeat split|by apply (Hr k)]. }
  split; try done.
  - intros sid s Hs. destruct (Hb sid s Hs) as (r & Hm & Hbk). unfold update_media. simpl. rewrite lookup_update_where, Hm. simpl. eexists.
    split; [done|]. case_bool_decide as Hid; [|done]. rewrite Hid in Hm. destruct (Hf r Hm) as [(H1 & H2 & H3 & H4) _].
    destruct Hbk as (? & ? & ? & ?). unfold backs. by rewrite H1, H2, H3, H4.
  - intros k k' r r' (r1 & Hk & (_ & Hb1 & Hk1 & _) & _)%Hstep (r2 & Hk' & (_ & Hb2 & Hk2 & _) & _)%Hstep. rewrite Hb1, Hk1, Hb2, Hk2. by apply Ho.
  - intros k r' (r & _ & _ & Hok)%Hstep. done.
  - intros k name v Hkv. destruct (Hv k name v Hkv) as [[r Hk] ?]. split; [|done]. unfold update_media. simpl. rewrite lookup_update_where, Hk. by eexists.
Qed.

(** An object under a key no row has. *)
Lemma key_free bucket key d :
  0 <? count_where (λ _ r, bool_decide (md_bucket r = bucket) && bool_decide (md_key r = key)) (media_rows d) = false →
  ∀ id r, media_rows d !! id = Some r → md_bucket r = bucket → md_key r = key → False.
Proof.
  intros Hn%Z.ltb_ge id r Hid H1 H2. set (P := λ (_ : uuid) r, _) in Hn. pose proof (count_where_nonneg P (media_rows d)) as Hp.
  assert (count_where P (media_rows d) = 0) as Hz by lia.
  apply count_where_0 with (k := id) (v := r) in Hz; [|done]. unfold P in Hz. by rewrite !bool_decide_true in Hz.
Qed.
(** A new row, with an object of its own. *)
Lemma tables_insert_row id r d : tables_in_order d → media_rows d !! id = None →
  (∀ id' r', media_rows d !! id' = Some r' → md_bucket r' = md_bucket r → md_key r' = md_key r → False) → row_in_order r →
  tables_in_order (with_media (<[id := r]> (media_rows d)) d).
Proof.
  intros [Hc Hp Hb Ha Ho Hr Hv] Hid Hfree Hnew. split; try done; simpl.
  - intros sid s Hs. destruct (Hb sid s Hs) as (r' & Hr' & ?). exists r'. rewrite lookup_insert_ne by congruence. done.
  - intros k k' r1 r2. rewrite !lookup_insert_Some. intros [[<- <-]|[_ H1]] [[<- <-]|[_ H2]] Hbk Hkk; [done| | |by eapply Ho].
    + by destruct (Hfree k' r2 H2).
    + by destruct (Hfree k r1 H1).
  - intros k r'. rewrite lookup_insert_Some. intros [[<- <-]|[_ Hk]]; [done|by apply (Hr k)].
  - intros k name v Hkv. destruct (Hv k name v Hkv) as [[r' Hk] ?]. split; [|done]. rewrite lookup_insert_ne by congruence. by eexists.
Qed.
(** A new session, over a row no session has. *)
Lemma tables_insert_session sid s r d : tables_in_order d → upload_sessions d !! sid = None →
  media_rows d !! up_media s = Some r → backs s r → up_total_parts s = parts_of sid →
  (∀ sid' s', upload_sessions d !! sid' = Some s' → up_media s' ≠ up_media s) →
  tables_in_order (with_sessions (<[sid := s]> (upload_sessions d)) d).
Proof.
  intros [Hc Hp Hb Ha Ho Hr Hv] Hnone Hm Hbk Hparts Hold. split; try done; simpl.
  - intros k n c Hk. destruct (Hc k n c Hk) as (s' & Hs' & ?). exists s'. rewrite lookup_insert_ne by congruence. done.
  - intros k s'. rewrite lookup_insert_Some. intros [[<- <-]|[_ Hk]]; [done|by apply (Hp k)].
  - intros k s'. rewrite lookup_insert_Some. intros [[<- <-]|[_ Hk]]; [by exists r|by apply (Hb k)].
  - intros k k' s1 s2. rewrite !lookup_insert_Some. intros [[<- <-]|[_ H1]] [[<- <-]|[_ H2]] Heq; [done| | |by eapply Ha].
    + by destruct (Hold k' s2 H2).
    + by destruct (Hold k s1 H1).
Qed.
Lemma tables_CreateUploadSession pg_error now mediaID sessionID s d : up_total_parts s = parts_of sessionID → tables_in_order d →
  tables_in_order (CreateUploadSession pg_error now mediaID sessionID s d).2.
Proof.
  intros Hparts HI. destruct (CreateUploadSession pg_error now mediaID sessionID s d) as [[u|e] d'] eqn:Hr; simpl.
  2:{ unfold CreateUploadSession in Hr. by rewrite (in_tx_Err _ _ _ _ Hr). }
  apply CreateUploadSession_Ok in Hr as (_ & Hfit & _ & Hm & Hs & ->).
  assert (Hfree := Hfit). unfold media_row_fits in Hfree. apply andb_true_iff in Hfree as [_ Hfree%negb_true_iff].
  apply (tables_insert_session sessionID (opened mediaID s) (fresh_media now s)
    (with_media (<[mediaID := fresh_media now s]> (media_rows d)) d)); simpl; [|done| | |done|].
  - apply tables_insert_row; [done|done| |done]. simpl. by apply key_free.
  - apply lookup_insert_eq.
  - by repeat split.
  - intros sid' s' Hs' Heq. destruct (sessions_backed _ HI sid' s' Hs') as (r & Hr & _). congruence.
Qed.
Lemma tables_insert_export now id owner key size d : tables_in_order d → tables_in_order (insert_export now id owner key size d).
Proof.
  intros HI. unfold insert_export. destruct (bool_decide _ || _) eqn:Hc; [done|].
  apply orb_false_iff in Hc as [Hid%bool_decide_eq_false Hfree]. apply eq_None_not_Some in Hid.
  apply tables_insert_row; [done|done| |intros _; by right]. simpl. by apply key_free.
Qed.
Lemma tables_RecordPart pg_error now sid part d : 1 ≤ PartNumber part ≤ parts_of sid → tables_in_order d →
  tables_in_order (RecordPart pg_error now sid part d).2.
Proof.
  intros Hrange HI. unfold RecordPart. destruct (_ && _) eqn:Hc; [|done]. repeat (apply andb_true_iff in Hc as [Hc ?]).
  apply bool_decide_eq_true in Hc as [s Hs]. destruct HI as [Hch Hp Hb Ha Ho Hr Hv]. split; try done. simpl.
  intros sid' n c. rewrite lookup_insert_Some. intros [[[= <- <-] _]|[_ Hk]]; [|by apply (Hch sid' n c)]. exists s.
  split; [done|]. by rewrite (Hp sid s Hs).
Qed.
(** Sessions that change their state and nothing else. *)
Lemma tables_update_sessions P f d : tables_in_order d →
  (∀ k s, up_user (f k s) = up_user s ∧ up_media (f k s) = up_media s ∧ up_bucket (f k s) = up_bucket s ∧ up_key (f k s) = up_key s ∧
     up_kind (f k s) = up_kind s ∧ up_total_parts (f k s) = up_total_parts s) →
  tables_in_order (with_sessions (update_where P f (upload_sessions d)) d).
Proof.
  intros [Hc Hp Hb Ha Ho Hr Hv] Hf.
  assert (Hstep : ∀ k s', update_where P f (upload_sessions d) !! k = Some s' → ∃ s, upload_sessions d !! k = Some s ∧
     up_user s' = up_user s ∧ up_media s' = up_media s ∧ up_bucket s' = up_bucket s ∧ up_key s' = up_key s ∧ up_kind s' = up_kind s ∧
     up_total_parts s' = up_total_parts s).
  { intros k s'. rewrite lookup_update_where_Some. intros (s & Hs & ->). exists s. split; [done|]. destruct (P k s); [|done]. apply (Hf k s). }
  split; try done; simpl.
  - intros sid n c Hk. destruct (Hc sid n c Hk) as (s & Hs & Hn). rewrite lookup_update_where, Hs. simpl. eexists. split; [done|].
    destruct (P sid s); [|done]. destruct (Hf sid s) as (_ & _ & _ & _ & _ & ->). done.
  - intros sid s' (s & Hs & _ & _ & _ & _ & _ & ->)%Hstep. by apply Hp.
  - intros sid s' (s & Hs & Hu & Hm & Hbk & Hk & Hkd & _)%Hstep. destruct (Hb sid s Hs) as (r & Hr' & ?). exists r. rewrite Hm. split; [done|].
    unfold backs. by rewrite Hu, Hbk, Hk, Hkd.
  - intros sid sid' s1 s2 (s & Hs & _ & Hm & _)%Hstep (s' & Hs' & _ & Hm' & _)%Hstep. rewrite Hm, Hm'. by apply Ha.
Qed.
Lemma tables_DeleteSession sid d : tables_in_order d → tables_in_order (DeleteSession sid d).2.
Proof.
  intros [Hc Hp Hb Ha Ho Hr Hv]. split; try done; simpl.
  - intros k n c. rewrite lookup_delete_where_Some. simpl. intros [Hk Hne%bool_decide_eq_false]. destruct (Hc k n c Hk) as (s & Hs & Hn).
    exists s. split; [|done]. by rewrite lookup_delete_ne.
  - intros k s [_ Hk]%lookup_delete_Some. by apply Hp.
  - intros k s [_ Hk]%lookup_delete_Some. by apply (Hb k).
  - intros k k' s s' [_ Hk]%lookup_delete_Some [_ Hk']%lookup_delete_Some. by apply Ha.
Qed.
Lemma tables_AddVariant pg_error id v d : tables_in_order d → tables_in_order (AddVariant pg_error id v d).2.
Proof.
  intros HI. unfold AddVariant. destruct (_ && _) eqn:Hc; [|done]. repeat (apply andb_true_iff in Hc as [Hc ?]). apply bool_decide_eq_true in Hc.
  destruct HI as [Hch Hp Hb Ha Ho Hr Hv]. split; try done. simpl.
  intros k name v'. rewrite lookup_insert_Some. intros [[[= <- <-] <-]|[_ Hk]]; [done|by apply (Hv k name)].
Qed.

(** Every statement keeps them. *)
Lemma media_step_keeps opens d d' : media_step opens d d' → tables_in_order d → tables_in_order d'.
Proof.
  intros Hstep HI. destruct Hstep; [by apply tables_CreateUploadSession|by apply tables_RecordPart|
    apply tables_update_sessions; [done|by repeat split]|apply tables_update_sessions; [done|by repeat split]|by apply tables_DeleteSession|..].
  - unfold FinalizeMedia. destruct (_ && _); [|done]. by apply tables_update_media.
  - unfold SetScanResult. destruct (pg_text _); [|done]. by apply tables_update_media.
  - by apply tables_update_media.
  - unfold MarkReady. destruct (_ && _); [|done]. apply tables_update_media; [done|]. intros r _. split; [by repeat split|]. intros _ _. left. by eexists.
  - unfold MarkFailed. destruct (pg_text _); [|done]. by apply tables_update_media.
  - by apply tables_AddVariant.
  - unfold SoftDelete. destruct (media_rows d !! id) as [r|]; [|done]. destruct (_ && _); [|done]. by apply tables_update_media.
  - by apply tables_insert_export.
Qed.
Lemma media_steps_keep opens d d' : rtc (media_step opens) d d' → tables_in_order d → tables_in_order d'.
Proof. induction 1; [done|]. eauto using media_step_keeps. Qed.

(** What others do between two accesses: statements, and anything to the objects. *)
Definition others (opens : uuid → Prop) {St} (f : mediadb * St → mediadb * St) : Prop := ∀ x, rtc (media_step opens) x.1 (f x).1.
(** A session that is closed, or gone, is not opened again. *)
Definition shut (sid : uuid) d : Prop := ∀ s, upload_sessions d !! sid = Some s → up_status s ≠ "active"%string.
Lemma shut_update_sessions sid P f d : shut sid d → (∀ k s, up_status (f k s) ≠ "active"%string) →
  shut sid (with_sessions (update_where P f (upload_sessions d)) d).
Proof.
  intros Hd Hf s. simpl. rewrite lookup_update_where_Some. intros (s0 & Hs & ->). destruct (P sid s0); [apply Hf|by apply Hd].
Qed.
Lemma media_steps_shut sid d d' : rtc (media_step (λ sid', sid' ≠ sid)) d d' → shut sid d → shut sid d'.
Proof.
  induction 1 as [|d d1 d' Hstep _ IH]; [done|]. intros Hd. apply IH. clear IH.
  assert (Hsame : ∀ d', upload_sessions d' = upload_sessions d → shut sid d') by (intros x Hx s; rewrite Hx; apply Hd).
  destruct Hstep as [pg now mid sid' s d Hne _|pg now sid' part d _|now sid' status d Hne|now d|sid' d|pg id mime size sha status d
    |pg id status detail d|id d|pg now id wd ht du wf bh d|pg id reason d|pg id v d|now id owner d|now id owner key size d].
  - destruct (CreateUploadSession pg now mid sid' s d) as [[u|e] d1] eqn:Hr; simpl.
    + apply CreateUploadSession_Ok in Hr as (_ & _ & _ & _ & _ & ->). intros s0. simpl. rewrite lookup_insert_ne by done. apply Hd.
    + unfold CreateUploadSession in Hr. by rewrite (in_tx_Err _ _ _ _ Hr).
  - apply Hsame. unfold RecordPart. by destruct (_ && _).
  - by apply shut_update_sessions.
  - by apply shut_update_sessions.
  - intros s Hs. simpl in Hs. apply lookup_delete_Some in Hs as [_ Hs]. by apply Hd.
  - apply Hsame. unfold FinalizeMedia. by destruct (_ && _).
  - apply Hsame. unfold SetScanResult. by destruct (pg_text _).
  - by apply Hsame.
  - apply Hsame. unfold MarkReady. by destruct (_ && _).
  - apply Hsame. unfold MarkFailed. by destruct (pg_text _).
  - apply Hsame. unfold AddVariant. by destruct (_ && _).
  - apply Hsame. unfold SoftDelete. destruct (media_rows d !! id); [|done]. by destruct (_ && _).
  - apply Hsame. unfold insert_export. by destruct (_ || _).
Qed.
End tables.

(** ** Every operation is a sequence of statements *)

Section keeping.
Context `{ObjectStore St} `{JetStream media_job} (parts_of : uuid → Z) (export_bucket : string).
Abbreviation tables := (tables_in_order parts_of export_bucket) (only parsing).
Abbreviation step := (media_step parts_of export_bucket (λ _, True)) (only parsing).
Abbreviation foreign := (others parts_of export_bucket (λ _, True) (St := St)) (only parsing).
(** The tables are in order, and so is what others will do. *)
Definition sound (w : media_world St) : Prop := tables (mw_db w) ∧ Forall foreign (mw_meanwhile w).
Definition evolves (w w' : media_world St) : Prop := sound w → rtc step (mw_db w) (mw_db w') ∧ sound w'.
#[export] Instance evolves_preorder : PreOrder evolves.
Proof.
  split; [by intros w Hw|]. intros w1 w2 w3 H12 H23 Hw. destruct (H12 Hw) as [Hs Hw2]. destruct (H23 Hw2) as [Hs' Hw3].
  split; [by etrans|done].
Qed.
Lemma evolves_resume w : evolves w (resume w).
Proof.
  intros [Ht Hall]. unfold resume. destruct (mw_meanwhile w) as [|f l] eqn:Hm; [split; [done|split; [done|by rewrite Hm]]|].
  apply Forall_cons in Hall as [Hf Hall]. specialize (Hf (mw_db w, mw_store w)). destruct (f (mw_db w, mw_store w)) as [d s]. simpl in *.
  split; [done|]. split; [by eapply media_steps_keep|done].
Qed.
Lemma evolves_rows w d : (tables (mw_db w) → rtc step (mw_db w) d) → evolves w (with_mw_db d w).
Proof. intros Hd [Ht Hall]. split; [by apply Hd|]. split; [by eapply media_steps_keep; [apply Hd|]|done]. Qed.
(** What leaves the rows alone. *)
Lemma evolves_rest w w' : mw_db w' = mw_db w → mw_meanwhile w' = mw_meanwhile w → evolves w w'.
Proof. intros Hd Hm [Ht Hall]. unfold sound. by rewrite Hd, Hm. Qed.

Lemma follows_on_db {E A} (h : mediaerr → E) (m : prog mediadb mediaerr A) :
  (∀ d, tables d → rtc step d (m d).2) → Steps.follows evolves (on_db h m).
Proof.
  intros Hm w. etrans; [apply evolves_resume|]. unfold on_db, zoom, map_err, catch. specialize (Hm (mw_db (resume w))).
  destruct (m (mw_db (resume w))) as [[a|e] d]; by apply evolves_rows.
Qed.
Lemma follows_stmt {E A} (h : mediaerr → E) (m : prog mediadb mediaerr A) :
  (∀ d, step d (m d).2) → Steps.follows evolves (on_db h m).
Proof. intros Hm. apply follows_on_db. intros d _. by apply rtc_once. Qed.
Lemma follows_query {E A} (h : mediaerr → E) (m : prog mediadb mediaerr A) :
  (∀ d, (m d).2 = d) → Steps.follows evolves (on_db h m).
Proof. intros Hm. apply follows_on_db. intros d _. by rewrite Hm. Qed.
Lemma follows_on_store {E A} (h : string → E) (m : prog St string A) : Steps.follows evolves (on_store h m).
Proof.
  intros w. etrans; [apply evolves_resume|]. unfold on_store, zoom, map_err, catch. destruct (m (mw_store (resume w))) as [[a|e] s]; by apply evolves_rest.
Qed.
Lemma follows_from_store {E A} (h : string → E) (f : St → result string A) : Steps.follows evolves (from_store h f).
Proof. intros w. etrans; [apply evolves_resume|]. unfold from_store. cbv zeta. by destruct (f (mw_store (resume w))). Qed.
Lemma follows_unchecked {E E' A} (m : prog (media_world St) E A) : Steps.follows evolves m → Steps.follows evolves (unchecked (E' := E') m).
Proof. intros Hm w. apply Hm. Qed.
Lemma follows_of_result {A} (r : result string A) : Steps.follows evolves (of_result r : prog (media_world St) string A).
Proof. by intros w. Qed.
Lemma follows_enqueue_media now id j : Steps.follows evolves (enqueue_media now id j).
Proof. intros w. by apply evolves_rest. Qed.
Lemma follows_requeue now o : Steps.follows evolves (requeue now o).
Proof. intros w. unfold requeue. destruct (PublishJob _ _ _ _ _) as [[]]; by apply evolves_rest. Qed.
Lemma follows_allow_upload now u : Steps.follows evolves (allow_upload (St := St) now u).
Proof. intros w. unfold allow_upload. destruct (allow_rule _ _ _ _) as [[res e] l]. destruct (Allowed res); by apply evolves_rest. Qed.
Lemma follows_catch {E E' A} (m : prog (media_world St) E A) (h : E → prog (media_world St) E' A) :
  Steps.follows evolves m → (∀ e, Steps.follows evolves (h e)) → Steps.follows evolves (catch m h).
Proof.
  intros Hm Hh w. unfold catch. specialize (Hm w). destruct (m w) as [[a|e] w'] eqn:Hr; [done|]. etrans; [exact Hm|]. apply Hh.
Qed.
End keeping.
#[local] Hint Resolve follows_on_store follows_from_store follows_of_result follows_enqueue_media follows_requeue follows_allow_upload
  follows_unchecked : follows.

Section service_tables.
Context `{ObjectStore St} `{JetStream media_job} (parts_of : uuid → Z) (export_bucket : string).
Context (storage : StorageConfig) (pg_error : string) (collate : string → Z) (lower quote : string → string) (cfg : MediaConfig).
Abbreviation evolving := (Steps.follows (evolves (St := St) parts_of export_bucket)) (only parsing).

Lemma follows_status now sid status : status ≠ "active"%string → evolving (on_db internal (SetSessionStatus now sid status)).
Proof. intros Hne. apply follows_stmt. intros d. by apply step_status. Qed.
Lemma follows_session sid u : evolving (on_db session_error (UploadSessionByID sid u)).
Proof. apply follows_query. intros d. unfold UploadSessionByID. destruct (upload_sessions d !! sid); [|done]. by case_bool_decide. Qed.
Lemma ByID_reads id d : (ByID collate id d).2 = d.
Proof. unfold ByID. destruct (media_rows d !! id); [|done]. by destruct (live_media _). Qed.
Lemma follows_Service_Get id : evolving (Service_Get collate id).
Proof. apply follows_query, ByID_reads. Qed.
Lemma follows_parts sid : evolving (on_db internal (gets (Parts sid))).
Proof. by apply follows_query. Qed.
Lemma follows_finalize id mime size sha status : evolving (on_db internal (FinalizeMedia pg_error id mime size sha status)).
Proof. apply follows_stmt. intros d. apply step_finalize. Qed.
#[local] Hint Resolve follows_session follows_Service_Get follows_parts follows_finalize : follows.
#[local] Hint Extern 1 (Steps.follows _ (on_db _ (SetSessionStatus _ _ _))) => apply follows_status; done : follows.

Lemma follows_loadActiveSession now sid u : evolving (loadActiveSession now sid u).
Proof. unfold loadActiveSession. follow_steps. Qed.
#[local] Hint Resolve follows_loadActiveSession : follows.
Lemma follows_CreateUpload now drawn mediaID sessionID i : (plan_parts cfg (cu_Size i)).2 = parts_of sessionID →
  evolving (CreateUpload storage pg_error lower quote cfg now drawn mediaID sessionID i).
Proof.
  intros Hplan. unfold CreateUpload. destruct (plan_parts cfg (cu_Size i)) as [ps n]. simpl in Hplan. follow_steps. apply follows_catch.
  - apply follows_stmt. intros d. by apply step_open.
  - intros e. follow_steps.
Qed.
Lemma follows_RefreshParts now sid u : evolving (RefreshParts cfg now sid u).
Proof. unfold RefreshParts. follow_steps. Qed.
Lemma follows_Service_RecordPart now sid u part : evolving (Service_RecordPart pg_error now sid u part).
Proof.
  intros w Hw. unfold Service_RecordPart. rewrite bind_run. destruct (follows_loadActiveSession now sid u w Hw) as [Hs1 Hw1].
  destruct (loadActiveSession now sid u w) as [[s|e] w1] eqn:Hl; [|done]. simpl in Hs1, Hw1.
  apply loadActiveSession_Ok in Hl as (r & -> & Hs & _ & _ & _ & ->). rewrite bind_run. unfold fail_if at 1. destruct (_ || _) eqn:Hrange; [done|].
  rewrite bind_run. unfold fail_if. destruct (bool_decide _); [done|]. simpl in Hrange. apply orb_false_iff in Hrange as [H1%Z.ltb_ge H2%Z.ltb_ge].
  rewrite (sessions_planned _ _ _ (proj1 Hw1) _ _ Hs) in H2. revert w Hw Hs1 Hw1 Hs. intros w Hw Hs1 Hw1 Hs.
  destruct (follows_stmt parts_of export_bucket internal (RecordPart pg_error now sid part)
    ltac:(intros d; apply step_part; lia) (resume w) Hw1) as [Hs2 Hw2].
  split; [by etrans|done].
Qed.
Lemma follows_CompleteUpload now sid u : evolving (CompleteUpload pg_error collate quote cfg now sid u).
Proof. unfold CompleteUpload. follow_steps. Qed.
Lemma follows_AbortUpload now sid u : evolving (AbortUpload now sid u).
Proof. unfold AbortUpload. follow_steps. Qed.
Lemma follows_Service_Delete now id u : evolving (Service_Delete now id u).
Proof. apply follows_stmt. intros d. apply step_delete. Qed.
End service_tables.

Section worker_tables.
Context `{ObjectStore St} `{JetStream media_job} `{ClamAV} `{Imaging Img} `{Toolchain} `{Digest} (parts_of : uuid → Z) (export_bucket : string).
Context (pg_error : string) (collate : string → Z) (cfg : MediaConfig).
Abbreviation evolving := (Steps.follows (evolves (St := St) parts_of export_bucket)) (only parsing).

Lemma follows_rows_stmt {A} (m : prog mediadb mediaerr A) : (∀ d, media_step parts_of export_bucket (λ _, True) d (m d).2) → evolving (on_rows m).
Proof. apply follows_stmt. Qed.
Lemma follows_rows_query {A} (m : prog mediadb mediaerr A) : (∀ d, (m d).2 = d) → evolving (on_rows m).
Proof. apply follows_query. Qed.
Ltac known_step :=
  lazymatch goal with
  | |- media_step _ _ _ _ (FinalizeMedia _ _ _ _ _ _ _).2 => apply step_finalize
  | |- media_step _ _ _ _ (SetScanResult _ _ _ _ _).2 => apply step_scan
  | |- media_step _ _ _ _ (MarkProcessing _ _).2 => apply step_processing
  | |- media_step _ _ _ _ (MarkReady _ _ _ _ _ _ _ _ _).2 => apply step_ready
  | |- media_step _ _ _ _ (MarkFailed _ _ _ _).2 => apply step_failed
  | |- media_step _ _ _ _ (AddVariant _ _ _ _).2 => apply step_variant
  | |- media_step _ _ _ _ (DeleteSession _ _).2 => apply step_drop
  end.
#[local] Hint Extern 2 (Steps.follows _ (on_rows _)) => apply follows_rows_stmt; intros ?; known_step : follows.
#[local] Hint Extern 2 (Steps.follows _ (on_rows (gets _))) => by apply follows_rows_query : follows.
Lemma follows_object_stream prefix m : evolving (object_stream prefix m).
Proof. unfold object_stream. follow_steps. Qed.
Lemma follows_finish now m sha a b c e f : evolving (finish pg_error now m sha a b c e f).
Proof. unfold finish. follow_steps. Qed.
Lemma follows_keep_original now m : evolving (keep_original pg_error now m).
Proof. unfold keep_original. follow_steps. Qed.
#[local] Hint Resolve follows_object_stream follows_finish follows_keep_original : follows.
Lemma follows_scanObject m : evolving (scanObject pg_error cfg m).
Proof. unfold scanObject. follow_steps. Qed.
Lemma follows_store_variant label m v : evolving (store_variant pg_error label m v).
Proof. unfold store_variant. follow_steps. Qed.
Lemma follows_store_rendition m source r : evolving (store_rendition pg_error m source r).
Proof. unfold store_rendition. follow_steps. Qed.
Lemma follows_store_voice m source : evolving (store_voice pg_error m source).
Proof. unfold store_voice. follow_steps. Qed.
#[local] Hint Resolve follows_scanObject follows_store_variant follows_store_rendition follows_store_voice : follows.
Lemma follows_storeImageVariants now m poster : evolving (storeImageVariants pg_error now m poster).
Proof. unfold storeImageVariants. follow_steps. Qed.
#[local] Hint Resolve follows_storeImageVariants : follows.
Lemma follows_download m : evolving (download m).
Proof. unfold download. follow_steps. Qed.
Lemma follows_downloadToFile m : evolving (downloadToFile m).
Proof. unfold downloadToFile. follow_steps. Qed.
Lemma follows_digest m : evolving (digest m).
Proof. unfold digest. follow_steps. Qed.
Lemma follows_temp_dir : evolving temp_dir.
Proof. unfold temp_dir. follow_steps. Qed.
#[local] Hint Resolve follows_download follows_downloadToFile follows_digest follows_temp_dir : follows.
Lemma follows_processImage now m : evolving (processImage pg_error now m).
Proof. unfold processImage. follow_steps. Qed.
Lemma follows_processVideo now m : evolving (processVideo pg_error now m).
Proof. unfold processVideo. follow_steps. Qed.
Lemma follows_processVoice now m : evolving (processVoice pg_error now m).
Proof. unfold processVoice. follow_steps. Qed.
Lemma follows_processAudio now m : evolving (processAudio pg_error now m).
Proof. unfold processAudio. follow_steps. Qed.
#[local] Hint Resolve follows_processImage follows_processVideo follows_processVoice follows_processAudio : follows.
Lemma follows_processMedia now m : evolving (processMedia pg_error cfg now m).
Proof. unfold processMedia. follow_steps. Qed.
Lemma follows_handleMediaProcess now payload : evolving (handleMediaProcess pg_error collate cfg now payload).
Proof.
  unfold handleMediaProcess. destruct payload as [j|e]; [|follow_steps]. intros w.
  pose proof (follows_rows_query (ByID collate (mj_media_id j)) (ByID_reads collate (mj_media_id j)) w) as Hread.
  destruct (on_rows (ByID collate (mj_media_id j)) w) as [[m|e] w1]; [|done]. simpl in Hread.
  case_bool_decide; [done|]. etrans; [exact Hread|].
  match goal with |- evolves _ _ _ (?p w1).2 => assert (evolving p) as Hp; [|exact (Hp w1)] end.
  follow_steps. apply follows_catch; [apply follows_processMedia|]. intros e. follow_steps.
Qed.
Lemma follows_release s : evolving (release s).
Proof. unfold release. follow_steps. Qed.
#[local] Hint Resolve follows_release : follows.
Lemma follows_reapExpiredUploads : evolving reapExpiredUploads.
Proof. unfold reapExpiredUploads. follow_steps. Qed.
Lemma follows_expireUploadSessions now : evolving (expireUploadSessions now).
Proof.
  intros w. etrans; [apply evolves_resume|]. unfold expireUploadSessions. cbv zeta. cbn [snd].
  apply evolves_rows. intros _. apply rtc_once, step_expire.
Qed.
Lemma follows_retryStrandedMedia now : evolving (retryStrandedMedia now).
Proof. unfold retryStrandedMedia. follow_steps. Qed.
End worker_tables.

(** ** Histories *)

Lemma recorded_parts_are_the_plan parts_of export_bucket sid s d : tables_in_order parts_of export_bucket d → upload_sessions d !! sid = Some s →
  Z.of_nat (length (Parts sid d)) = up_total_parts s → PartNumber <$> Parts sid d = seqZ 1 (up_total_parts s).
Proof.
  intros HI Hs Hlen. set (f := λ r : uuid * Z * chunk_row, MkPart r.1.2 (ck_etag r.2) (ck_size r.2)).
  set (rows := rows_where (λ k _, bool_decide (k.1 = sid)) (media_chunks d)).
  assert (Hnum : PartNumber <$> (f <$> rows) = (λ r : uuid * Z * chunk_row, r.1.2) <$> rows) by by rewrite <- list_fmap_compose.
  assert (Hnd : NoDup (PartNumber <$> (f <$> rows))).
  { rewrite Hnum. apply (NoDup_snd_rows_where _ _ sid). intros k v Hk. by apply bool_decide_eq_true in Hk. }
  assert (Hperm : PartNumber <$> Parts sid d ≡ₚ PartNumber <$> (f <$> rows)) by (apply fmap_Permutation, order_by_Permutation).
  assert (Hsub : PartNumber <$> Parts sid d ⊆+ seqZ 1 (up_total_parts s)).
  { rewrite Hperm. apply NoDup_submseteq; [done|]. intros n Hn. rewrite Hnum in Hn. apply list_elem_of_fmap in Hn as ([[sid' n'] c] & -> & Hin).
    apply elem_of_rows_where in Hin as [Hc Hk%bool_decide_eq_true]. simpl in Hk. subst sid'. destruct (chunks_in_range _ _ _ HI _ _ _ Hc) as (s' & Hs' & Hn').
    rewrite Hs in Hs'. injection Hs' as <-. apply elem_of_seqZ. simpl. lia. }
  apply (StronglySorted_strict_unique id).
  - rewrite <- (list_fmap_id (PartNumber <$> _)). apply (StronglySorted_key_fmap id). apply (StronglySorted_key_fmap PartNumber). by apply order_by_strict.
  - apply (StronglySorted_seqZ 1).
  - intros n. apply submseteq_length_Permutation in Hsub; [by rewrite Hsub|]. rewrite length_fmap, length_seqZ. lia.
Qed.

Section histories.
Context `{ObjectStore St} `{JetStream media_job} `{ClamAV} `{Imaging Img} `{Toolchain} `{Digest}.
Context (storage : StorageConfig) (pg_error : string) (collate : string → Z) (lower quote : string → string) (cfg : MediaConfig).
Context (parts_of : uuid → Z) (export_bucket : string).
Implicit Types w : media_world St.

(** A call, a job or a sweep, or anything the rest of the world does to the store, the limiter
    and the queue. *)
Inductive media_op :=
| OpCreateUpload (now : time) (drawn mediaID sessionID : uuid) (i : CreateUploadInput)
| OpRefreshParts (now : time) (sessionID userID : uuid)
| OpRecordPart (now : time) (sessionID userID : uuid) (part : Part)
| OpCompleteUpload (now : time) (sessionID userID : uuid)
| OpAbortUpload (now : time) (sessionID userID : uuid)
| OpDeleteMedia (now : time) (mediaID userID : uuid)
| OpProcess (now : time) (payload : result string media_job)
| OpExpireSessions (now : time)
| OpReapUploads
| OpRetryStranded (now : time)
| OpElsewhere (store : St → St) (limiter : limiter_state → limiter_state) (jobs : list (Job media_job) → list (Job media_job)).
Definition run_media (o : media_op) w : media_world St :=
  match o with
  | OpCreateUpload now drawn mediaID sessionID i => (CreateUpload storage pg_error lower quote cfg now drawn mediaID sessionID i w).2
  | OpRefreshParts now sid u => (RefreshParts cfg now sid u w).2
  | OpRecordPart now sid u part => (Service_RecordPart pg_error now sid u part w).2
  | OpCompleteUpload now sid u => (CompleteUpload pg_error collate quote cfg now sid u w).2
  | OpAbortUpload now sid u => (AbortUpload now sid u w).2
  | OpDeleteMedia now id u => (Service_Delete now id u w).2
  | OpProcess now payload => (handleMediaProcess pg_error collate cfg now payload w).2
  | OpExpireSessions now => (expireUploadSessions now w).2
  | OpReapUploads => (reapExpiredUploads w).2
  | OpRetryStranded now => (retryStrandedMedia now w).2
  | OpElsewhere store limiter jobs => MkMediaWorld (mw_db w) (store (mw_store w)) (limiter (mw_limiter w)) (jobs (mw_jobs w)) (mw_meanwhile w)
  end.
(** The identifier drawn for a session is its own. *)
Definition op_draws (o : media_op) : Prop :=
  match o with OpCreateUpload _ _ _ sid i => (plan_parts cfg (cu_Size i)).2 = parts_of sid | _ => True end.
Lemma run_media_evolves o w : op_draws o → evolves parts_of export_bucket w (run_media o w).
Proof.
  intros Ho. destruct o; simpl; [by apply follows_CreateUpload|by apply follows_RefreshParts|by apply follows_Service_RecordPart|
    by apply follows_CompleteUpload|by apply follows_AbortUpload|by apply follows_Service_Delete|by apply follows_handleMediaProcess|
    by apply follows_expireUploadSessions|by apply follows_reapExpiredUploads|by apply follows_retryStrandedMedia|by apply evolves_rest].
Qed.
Lemma tables_empty accounts : tables_in_order parts_of export_bucket (MkMediaDb accounts ∅ ∅ ∅ ∅).
Proof. by split. Qed.
(** An operation, with what others do between its accesses. *)
Definition run_among (w : media_world St) (lo : list (mediadb * St → mediadb * St) * media_op) : media_world St :=
  run_media lo.2 (MkMediaWorld (mw_db w) (mw_store w) (mw_limiter w) (mw_jobs w) lo.1).
Definition among_ok (lo : list (mediadb * St → mediadb * St) * media_op) : Prop :=
  Forall (others parts_of export_bucket (λ _, True)) lo.1 ∧ op_draws lo.2.

(** C33: The media tables after any sequence of calls, jobs and sweeps, interleaved statement by
    statement in any way, whatever the object store, the scanner and the tools do.  Between any
    two accesses of an operation others run any statements of the program on these tables, and
    every operation is itself a sequence of such statements, so a redelivered job, two jobs at
    once, or a completion in the middle of a job are among these interleavings; the export of
    an account inserts its archive, too.  Every recorded part is one of the parts of its
    session; every session writes to the object of its own row of [media], which has its owner,
    and no two sessions or rows share an object; a row that is ready has the instant it became
    so, unless it is an exported archive; and an upload with as many parts recorded as it was
    divided into has each of its parts recorded, in order.  The identifiers of sessions are
    drawn once. *)
Theorem media_tables_in_order accounts store limiter jobs ops :
  Forall among_ok ops →
  let d := mw_db (foldl run_among (MkMediaWorld (MkMediaDb accounts ∅ ∅ ∅ ∅) store limiter jobs []) ops) in
  tables_in_order parts_of export_bucket d ∧
  (∀ sid s, upload_sessions d !! sid = Some s → Z.of_nat (length (Parts sid d)) = up_total_parts s →
    PartNumber <$> Parts sid d = seqZ 1 (up_total_parts s)) ∧
  ∀ o w, op_draws o → sound parts_of export_bucket w →
    rtc (media_step parts_of export_bucket (λ _, True)) (mw_db w) (mw_db (run_media o w)).
Proof.
  intros Hok. set (w0 := MkMediaWorld _ _ _ _ _).
  assert (HI : tables_in_order parts_of export_bucket (mw_db w0)) by apply tables_empty. clearbody w0. cbv zeta.
  assert (Hall : tables_in_order parts_of export_bucket (mw_db (foldl run_among w0 ops))).
  { revert w0 HI. induction Hok as [|lo ops [Hlo Ho] _ IH]; intros w0 HI; [done|]. simpl. apply IH.
    unfold run_among. apply (run_media_evolves lo.2 _ Ho). by split. }
  split; [done|]. split; [intros sid s; by eapply recorded_parts_are_the_plan|].
  intros o w Ho Hw. by apply run_media_evolves.
Qed.
End histories.

(** ** What completing an upload checks *)

Lemma CheckContent_Ok quote cfg kind declared header mime : CheckContent quote cfg kind declared header = Ok mime →
  (Sniff header = ""%string ∧ kind = KindFile ∧ mime = "application/octet-stream"%string) ∨
  (mime = Sniff header ∧ mime ≠ ""%string ∧ equivalentMIME mime (normalizeMIME declared) = true ∧ mimeAllowedFor cfg kind mime = true).
Proof.
  unfold CheckContent. cbv zeta. case_bool_decide as Hs.
  - case_bool_decide as Hk; [|done]. intros [= <-]. by left.
  - destruct (equivalentMIME _ _) eqn:He; [|done]. destruct (mimeAllowedFor _ _ _) eqn:Ha; [|done]. intros [= <-]. by right.
Qed.

(** What the first bytes of a file must be. *)
Definition acceptable (cfg : MediaConfig) (kind declared : string) (header : list N) : Prop :=
  (Sniff header = ""%string ∧ kind = KindFile) ∨
  (Sniff header ≠ ""%string ∧ equivalentMIME (Sniff header) (normalizeMIME declared) = true ∧ mimeAllowedFor cfg kind (Sniff header) = true).
Lemma CheckContent_Err quote cfg kind declared header : ¬ acceptable cfg kind declared header →
  ∃ e, CheckContent quote cfg kind declared header = Err e.
Proof.
  intros Hbad. destruct (CheckContent quote cfg kind declared header) as [mime|e] eqn:Hc; [|by exists e]. exfalso. apply Hbad.
  apply CheckContent_Ok in Hc as [(? & ? & _)|(-> & ? & ? & ?)]; [by left|by right].
Qed.

Section completing.
Context `{ObjectStore St} `{JetStream media_job}.
Context (storage : StorageConfig) (pg_error : string) (collate : string → Z) (lower quote : string → string) (cfg : MediaConfig).
Implicit Types w : media_world St.

(** A session that is closed stays refused, whatever happens to the rows but the opening of
    another under its identifier. *)
Lemma shut_session_refused later sid u w : shut sid (mw_db w) → mw_meanwhile w = [] → is_Ok (loadActiveSession later sid u w).1 = false.
Proof.
  intros Hshut Halone. destruct (loadActiveSession later sid u w) as [[s|e] w'] eqn:Hl; [|done]. exfalso.
  apply loadActiveSession_Ok in Hl as (r & _ & Hr & _ & Hact & _). rewrite resume_alone in Hr by done. by apply (Hshut r Hr).
Qed.
Lemma shut_SetSessionStatus now sid status d : status ≠ "active"%string → shut sid (SetSessionStatus now sid status d).2.
Proof.
  intros Hne s. unfold SetSessionStatus, modify. simpl. rewrite lookup_update_where_Some. intros (r0 & _ & ->).
  by rewrite bool_decide_true.
Qed.

(** C32: What it takes to complete an upload that nobody else is at work on.  It is the owner's, it
    is open and has not run out, and each of its parts has been recorded; the first bytes of
    what the store assembled are of a type that agrees with the one declared and is accepted
    for the kind, or of no known type in a plain file, and that type is what the row says from
    then on.  The file waits for its scan, or is marked as one that has none, and nothing else
    of it was decided; a job is queued for it wherever the stream takes one.  If instead the
    store assembled bytes of any other type and could be read, the call is refused with
    FILE_REJECTED, the row and the queue are as they were, and the object is gone if the store
    did as it was told.  Either way the session is over: whatever statements run on the tables
    later, as long as the identifier is not drawn for another, no call that needs it open
    (recording a part, asking for addresses, completing) gets anywhere. *)
Theorem completed_upload_was_checked parts_of export_bucket now sid u w :
  tables_in_order parts_of export_bucket (mw_db w) → mw_meanwhile w = [] →
  let over w' := ∀ later u' w'', rtc (media_step parts_of export_bucket (λ sid', sid' ≠ sid)) (mw_db w') (mw_db w'') →
    mw_meanwhile w'' = [] → is_Ok (loadActiveSession (St := St) later sid u' w'').1 = false in
  (∀ m w', CompleteUpload pg_error collate quote cfg now sid u w = (Ok m, w') →
    ∃ s header, upload_sessions (mw_db w) !! sid = Some s ∧ up_user s = u ∧ up_status s = "active"%string ∧ now ≤ up_expires_at s ∧
      PartNumber <$> Parts sid (mw_db w) = seqZ 1 (up_total_parts s) ∧
      readHeader (up_bucket s) (up_key s) (mw_store w') = Ok header ∧
      ((Sniff header = ""%string ∧ up_kind s = KindFile ∧ md_mime (me_Row m) = "application/octet-stream"%string) ∨
       (md_mime (me_Row m) = Sniff header ∧ equivalentMIME (Sniff header) (normalizeMIME (up_declared_mime s)) = true ∧
        mimeAllowedFor cfg (up_kind s) (Sniff header) = true)) ∧
      me_ID m = up_media s ∧ media_rows (mw_db w') !! up_media s = Some (me_Row m) ∧
      md_scan_status (me_Row m) = (if bool_decide (ClamAVAddr cfg = ""%string) then "skipped" else "pending")%string ∧
      md_process_status (me_Row m) = "pending"%string ∧
      (∀ jobs, js_Publish (MkJob (uuid_String (up_media s)) SubjectJobMediaProcess (MkMediaJob (up_media s) (up_kind s)) now) (mw_jobs w) = Some jobs →
         mw_jobs w' = jobs) ∧
      over w') ∧
  (∀ s st size header, upload_sessions (mw_db w) !! sid = Some s → up_user s = u → up_status s = "active"%string → now ≤ up_expires_at s →
    Z.of_nat (length (Parts sid (mw_db w))) = up_total_parts s →
    CompleteMultipartUpload (up_bucket s) (up_key s) (up_upload s) (Parts sid (mw_db w)) (mw_store w) = (Ok (), st) →
    Stat (up_bucket s) (up_key s) st = Ok size → readHeader (up_bucket s) (up_key s) st = Ok header →
    ¬ acceptable cfg (up_kind s) (up_declared_mime s) header →
    ∃ e w', CompleteUpload pg_error collate quote cfg now sid u w = (Err e, w') ∧ Status e = 422 ∧ Code e = "FILE_REJECTED"%string ∧
      media_rows (mw_db w') = media_rows (mw_db w) ∧ mw_jobs w' = mw_jobs w ∧
      mw_store w' = (os_RemoveObject (up_bucket s) (up_key s) st).2 ∧
      (is_Ok (os_RemoveObject (up_bucket s) (up_key s) st).1 = true → os_contents (mw_store w') (up_bucket s, up_key s) = None) ∧
      over w').
Proof.
  intros HI Halone over. destruct w as [d0 st0 lim jobs0 mean]. simpl in HI, Halone. subst mean.
  assert (Hover : ∀ w' status, status ≠ "active"%string → (∃ d, mw_db w' = (SetSessionStatus now sid status d).2) → over w').
  { intros w' status Hne [d Hd] later u' w'' Hsteps Hw''. apply shut_session_refused; [|done]. eapply media_steps_shut; [exact Hsteps|].
    rewrite Hd. by apply shut_SetSessionStatus. }
  clearbody over. split.
  - intros m w' Hrun. unfold CompleteUpload in Hrun. apply bind_Ok_inv in Hrun as (ses & w1 & Hl & Hrun).
    apply loadActiveSession_Ok in Hl as (s & -> & Hs & Hu & Hact & Hexp & ->). simpl in Hs. cbn [resume mw_meanwhile] in Hrun.
    cbn [se_Row] in Hrun. apply bind_Ok_inv in Hrun as (parts & w1 & Hparts & Hrun). injection Hparts as <- <-.
    apply bind_Ok_inv in Hrun as ([] & w1 & Hcount & Hrun). apply fail_if_Ok_inv in Hcount as [Hcount ->].
    apply negb_false_iff, Z.eqb_eq in Hcount. apply bind_Ok_inv in Hrun as ([] & w1 & Hstore & Hrun).
    apply on_store_Ok in Hstore as (st & _ & ->). apply bind_Ok_inv in Hrun as (size & w1 & Hstat & Hrun). apply from_store_Ok in Hstat as [_ ->].
    apply bind_Ok_inv in Hrun as (header & w1 & Hheader & Hrun). apply from_store_Ok in Hheader as [Hheader ->].
    cbn in Hheader. destruct (CheckContent _ _ _ _ _) as [mime|e] eqn:Hcheck; [|by rewrite !unchecked_bind in Hrun].
    apply bind_Ok_inv in Hrun as ([] & w2 & Hfin & Hrun). apply on_db_Ok in Hfin as (d & Hd & ->). cbn in Hd.
    rewrite unchecked_bind, bind_run in Hrun. cbn [enqueue_media] in Hrun.
    destruct (sessions_backed _ _ _ HI _ _ Hs) as (r & Hr & Hb).
    assert (Hdd : d = update_media (up_media s) (finalized mime size None (initial_scan cfg)) d0).
    { unfold FinalizeMedia in Hd. destruct (_ && _); [|done]. by injection Hd as <-. }
    assert (Hrow : media_rows d !! up_media s = Some (finalized mime size None (initial_scan cfg) r)).
    { rewrite Hdd. unfold update_media. simpl. rewrite lookup_update_where, Hr. simpl. by rewrite bool_decide_true. }
    apply on_db_Ok in Hrun as (d2 & Hget & ->). unfold ByID in Hget. cbn in Hget. rewrite Hrow in Hget.
    destruct (live_media _); [|done]. injection Hget as <- <-. exists s, header.
    cbn [me_Row me_ID]. repeat (split; [done|]). split; [by eapply recorded_parts_are_the_plan|]. split; [exact Hheader|].
    split; [apply CheckContent_Ok in Hcheck as [?|(-> & _ & ? & ?)]; [by left|by right]|]. split; [done|]. split; [exact Hrow|].
    split; [done|]. split; [done|]. split; [|apply (Hover _ "completed"%string); [done|by exists d]].
    intros jobs Hjobs. unfold PublishJob. simpl. simpl in Hjobs. by rewrite Hjobs.
  - intros s st size header Hs Hu Hact Hexp Hcount Hstore Hstat Hheader Hbad. destruct (CheckContent_Err quote _ _ _ _ Hbad) as [e Hcheck].
    subst u. unfold CompleteUpload. rewrite bind_run, (loadActiveSession_run now sid s) by done. cbn [se_Row]. rewrite bind_run.
    assert (on_db (E := Error) internal (gets (Parts sid)) (MkMediaWorld d0 st0 lim jobs0 []) =
      (Ok (Parts sid d0), MkMediaWorld d0 st0 lim jobs0 [])) as -> by done. cbn [mw_db mw_store] in *.
    rewrite bind_run. unfold fail_if at 1. rewrite (proj2 (Z.eqb_eq _ _) Hcount). cbn [negb]. rewrite bind_run.
    unfold on_store at 1, zoom, map_err, catch. cbn [resume mw_meanwhile mw_store]. rewrite Hstore. cbn [fst snd with_mw_store].
    rewrite bind_run. unfold from_store at 1. cbn. rewrite Hstat. rewrite bind_run. unfold from_store at 1. cbn. rewrite Hheader, Hcheck.
    rewrite !unchecked_bind. unfold fail. eexists _, _. split; [reflexivity|]. unfold on_store, zoom, map_err, catch. cbn.
    unfold Remove, wrap, map_err, catch. destruct (os_RemoveObject (up_bucket s) (up_key s) st) as [[[]|e'] st'] eqn:Hrm; cbn.
    all: do 5 (split; [done|]); split; [|apply (Hover _ "aborted"%string); [done|by exists d0]].
    + intros _. by eapply os_removed.
    + done.
Qed.
End completing.

(** ** The scan *)

(** What [clamd] reads: chunks, each after its length, until one that is empty. *)
Fixpoint received (fuel : nat) (l : list N) : option (list N) :=
  match fuel, l with
  | S fuel, a :: b :: c :: e :: l =>
      let n := Z.of_N a * 2 ^ 24 + Z.of_N b * 2 ^ 16 + Z.of_N c * 2 ^ 8 + Z.of_N e in
      if n =? 0 then Some []
      else if Z.of_nat (length l) <? n then None
      else rest ← received fuel (drop (Z.to_nat n) l); Some (take (Z.to_nat n) l ++ rest)
  | _, _ => None
  end.
Definition command : list N := bytes_of "zINSTREAM" ++ [0%N].
Lemma be32_value n : 0 ≤ n < 2 ^ 32 → ∃ a b c e, be32 n = [a; b; c; e] ∧
  Z.of_N a * 2 ^ 24 + Z.of_N b * 2 ^ 16 + Z.of_N c * 2 ^ 8 + Z.of_N e = n.
Proof.
  intros Hn. do 4 eexists. split; [reflexivity|]. change 255 with (Z.ones 8). rewrite !Z.land_ones, !Z.shiftr_div_pow2 by lia.
  rewrite !Z2N.id by (apply Z.mod_pos_bound; lia).
  change (2 ^ 32) with 4294967296 in Hn. change (2 ^ 24) with 16777216. change (2 ^ 16) with 65536. change (2 ^ 8) with 256.
  Z.to_euclidean_division_equations. lia.
Qed.
Lemma received_frames reads : ∀ fuel, Forall (λ r, Z.of_nat (length r) ≤ clamChunkSize) reads → (length reads < fuel)%nat →
  received fuel ((reads ≫= frame) ++ be32 0) = Some (concat reads).
Proof.
  induction reads as [|r reads IH]; intros [|fuel] Hall Hfuel; simpl in Hfuel; try lia; [done|].
  apply Forall_cons in Hall as [Hr Hall]. rewrite bind_cons, <- app_assoc. unfold frame at 1. case_bool_decide as He.
  - subst r. simpl app. rewrite IH by (done || lia). done.
  - destruct (be32_value (Z.of_nat (length r))) as (a & b & c & e & Hb & Hv); [unfold clamChunkSize in Hr; lia|].
    rewrite Hb. cbn [app received]. rewrite Hv. rewrite (proj2 (Z.eqb_neq _ 0)) by (destruct r; [done|simpl; lia]).
    rewrite (proj2 (Z.ltb_ge _ _)) by (rewrite !length_app; lia). rewrite Nat2Z.id, drop_app_length, take_app_length, IH by (done || lia). done.
Qed.

(** The scanner sees the whole object and nothing but it, however the reader hands it over:
    in reads of any sizes up to the buffer's, empty ones included, none of which ends the
    stream early.  What it answers is clean only if it says so: every other reply, the empty
    one too, is a file that was not found clean. *)
Lemma scanner_sees_the_object reads response :
  Forall (λ r, Z.of_nat (length r) ≤ clamChunkSize) reads →
  take (length command) (instream reads) = command ∧
  received (S (length reads)) (drop (length command) (instream reads)) = Some (concat reads) ∧
  (sc_Status (parseClamAVResponse response) = "clean"%string →
     has_suffix (trim_space (trim_suffix response (string_of [0%N]))) "OK" = true).
Proof.
  intros Hall. assert (instream reads = command ++ (reads ≫= frame) ++ be32 0) as ->.
  { unfold instream, command. by rewrite <- app_assoc. }
  split; [by apply take_app_length|]. split; [rewrite drop_app_length; apply received_frames; [done|lia]|].
  unfold parseClamAVResponse. cbv zeta. destruct (has_suffix _ "OK"); [done|]. by destruct (has_suffix _ "FOUND").
Qed.
Lemma scanner_sees_the_object_witness :
  received 5 (drop 10 (instream [[1; 2]%N; []; [3]%N; []])) = Some [1; 2; 3]%N.
Proof.
  destruct (scanner_sees_the_object [[1; 2]%N; []; [3]%N; []] "") as (_ & Hr & _); [|exact Hr].
  repeat constructor; vm_compute; discriminate.
Defined.

Section quarantine.
Context `{ObjectStore St} `{JetStream media_job} `{ClamAV} `{Imaging Img} `{Toolchain} `{Digest}.
Context (storage : StorageConfig) (pg_error : string) (collate : string → Z) (cfg : MediaConfig).
Implicit Types w : media_world St.

Lemma scanObject_infected m w reader verdict :
  mw_meanwhile w = [] → scanner_enabled cfg = true → GetObject (md_bucket (me_Row m)) (md_key (me_Row m)) (mw_store w) = Ok reader → Scan reader = Ok verdict →
  sc_Status verdict = "infected"%string → pg_text (clip (sc_Detail verdict)) = true →
  scanObject pg_error cfg m w = (Err ("worker: object is infected: " +:+ sc_Detail verdict),
    with_mw_db (update_media (me_ID m) (scanned "infected" (clip (sc_Detail verdict))) (mw_db w))
      (with_mw_store (os_RemoveObject (md_bucket (me_Row m)) (md_key (me_Row m)) (mw_store w)).2 w)).
Proof.
  intros Halone Hscan Hget Hsc Hinf Hstore. destruct w as [d st lim jobs mean]. simpl in Halone, Hget. subst mean.
  unfold scanObject. rewrite Hscan. cbn [negb]. rewrite bind_run. unfold object_stream, from_store.
  cbn [resume mw_meanwhile mw_store]. rewrite Hget, Hsc. rewrite bool_decide_true by done. rewrite unchecked_bind, bind_run.
  unfold on_rows, on_db, SetScanResult. rewrite Hstore. unfold zoom, on_store, map_err, catch.
  unfold Remove, wrap, map_err, catch, zoom, map_err, catch. cbn [resume mw_meanwhile fst snd fail mw_db mw_store with_mw_store with_mw_db].
  by destruct (os_RemoveObject _ _ st) as [[]].
Qed.

(** A job that has work to do. *)
Lemma handleMediaProcess_run now j r w :
  mw_meanwhile w = [] → media_rows (mw_db w) !! mj_media_id j = Some r → md_deleted_at r = None → md_process_status r ≠ "ready"%string →
  let m := MkMedia (mj_media_id j) r (variants collate (mj_media_id j) (mw_db w)) in
  handleMediaProcess pg_error collate cfg now (Ok j) w =
    catch (processMedia pg_error cfg now m) (λ e, unchecked (on_rows (MarkFailed pg_error (me_ID m) e)))
      (with_mw_db (update_media (mj_media_id j) (λ r, with_process "processing" (md_error r) r) (mw_db w)) w).
Proof.
  intros Halone Hr Hlive Hnot. destruct w as [d st lim jobs mean]. simpl in Halone, Hr. subst mean.
  unfold handleMediaProcess, on_rows at 1, on_db, zoom, map_err, catch, ByID. cbn [resume mw_meanwhile mw_db]. rewrite Hr. unfold live_media. rewrite Hlive.
  cbn [me_Row fst snd]. rewrite bool_decide_false by done. reflexivity.
Qed.

(** C34: A file the scanner finds infected, in a job during which nobody else is at work, when
    the name of what was found, cut at 500 bytes, is text the database takes.  Its row says so,
    with that name, it is not ready, nothing was derived from it, no other object was touched,
    and its own is gone if the store did as it was told; and whoever asks for it, or for any
    rendition of it, is refused, then and for as long as its row says so, which ends if
    the job is delivered again. *)
Theorem infected_upload_is_quarantined now j r w reads response :
  mw_meanwhile w = [] →
  media_rows (mw_db w) !! mj_media_id j = Some r → md_deleted_at r = None → md_process_status r ≠ "ready"%string →
  scanner_enabled cfg = true → clamd_dial = None →
  os_GetObject (md_bucket r) (md_key r) None (mw_store w) = Ok (reads, None) → clamd (instream reads) = Ok response →
  let verdict := parseClamAVResponse (string_of (take 4096 response)) in
  sc_Status verdict = "infected"%string → pg_text (clip (sc_Detail verdict)) = true →
  let w' := (handleMediaProcess pg_error collate cfg now (Ok j) w).2 in
  (∃ r', media_rows (mw_db w') !! mj_media_id j = Some r' ∧ md_scan_status r' = "infected"%string ∧ md_scan_detail r' = clip (sc_Detail verdict) ∧
     md_process_status r' ≠ "ready"%string) ∧
  media_variants (mw_db w') = media_variants (mw_db w) ∧
  (is_Ok (os_RemoveObject (md_bucket r) (md_key r) (mw_store w)).1 = true →
     os_contents (mw_store w') (md_bucket r, md_key r) = None ∧
     ∀ o, o ≠ (md_bucket r, md_key r) → os_contents (mw_store w') o = os_contents (mw_store w) o) ∧
  (∀ later variant, (DownloadURL storage collate cfg later (mj_media_id j) variant w').1 =
     Err (Forbidden CodeVirusDetected "This file was found to be malicious")) ∧
  ∀ later variant w'' r'', mw_meanwhile w'' = [] → media_rows (mw_db w'') !! mj_media_id j = Some r'' → md_scan_status r'' = "infected"%string →
    is_Ok (DownloadURL storage collate cfg later (mj_media_id j) variant w'').1 = false.
Proof.
  assert (Hserve : ∀ later variant w0 r0, mw_meanwhile w0 = [] → media_rows (mw_db w0) !! mj_media_id j = Some r0 → md_scan_status r0 = "infected"%string →
    (DownloadURL storage collate cfg later (mj_media_id j) variant w0).1 =
      if live_media r0 then Err (Forbidden CodeVirusDetected "This file was found to be malicious") else Err (media_error MediaNotFound)).
  { intros later variant [d0 st0 lim0 jobs0 mean0] r0 Hm0 Hr0 Hs0. simpl in Hm0, Hr0. subst mean0.
    unfold DownloadURL, Service_Get, on_db, zoom, map_err, catch, ByID. rewrite bind_run. cbn [resume mw_meanwhile mw_db]. rewrite Hr0.
    destruct (live_media r0); [|done]. cbn [fst snd]. rewrite bind_run. unfold fail_if. cbn [me_Row]. by rewrite bool_decide_true. }
  intros Halone Hr Hlive Hnot Hscan Hdial Hget Hclamd verdict Hinf Hstore w'.
  set (id := mj_media_id j) in *. set (m := MkMedia id r (variants collate id (mw_db w))).
  set (d1 := update_media id (λ r, with_process "processing" (md_error r) r) (mw_db w)).
  set (d2 := update_media id (scanned "infected" (clip (sc_Detail verdict))) d1).
  set (gone := (os_RemoveObject (md_bucket r) (md_key r) (mw_store w)).2).
  set (reason := ("worker: object is infected: " +:+ sc_Detail verdict)%string).
  assert (Hscanned : processMedia pg_error cfg now m (with_mw_db d1 w) = (Err reason, with_mw_db d2 (with_mw_store gone w))).
  { unfold processMedia. rewrite bind_run.
    rewrite (scanObject_infected m (with_mw_db d1 w) (reads, None) verdict); [done|done|done|..|done|done].
    - unfold GetObject, wrapped. cbn [me_Row m mw_store with_mw_db]. by rewrite Hget.
    - unfold Scan. rewrite Hdial. cbn [fst snd]. by rewrite Hclamd. }
  clearbody verdict.
  set (r1 := scanned "infected" (clip (sc_Detail verdict)) (with_process "processing" (md_error r) r)).
  assert (Hd2 : media_rows d2 !! id = Some r1).
  { unfold d2, d1, update_media. simpl. rewrite !lookup_update_where, Hr. simpl. by rewrite !bool_decide_true. }
  assert (Hw' : ∃ d3, w' = with_mw_db d3 (with_mw_store gone w) ∧ media_variants d3 = media_variants (mw_db w) ∧
     (media_rows d3 !! id = Some r1 ∨ media_rows d3 !! id = Some (with_process "failed" (Some reason) r1))).
  { unfold w'. rewrite (handleMediaProcess_run now j r w) by done. fold id m d1.
    unfold catch at 1. rewrite Hscanned. unfold unchecked, on_rows, on_db, zoom, map_err, catch, MarkFailed.
    rewrite resume_alone by done. cbn [mw_db with_mw_store with_mw_db me_ID m]. destruct (pg_text reason); cbn [fst snd].
    - eexists. split; [reflexivity|]. split; [done|]. right. unfold update_media at 1. cbn [media_rows with_media]. rewrite lookup_update_where, Hd2. cbn [fmap option_fmap option_map].
      by rewrite bool_decide_true.
    - exists d2. split; [done|]. split; [done|]. by left. }
  clearbody w'. destruct Hw' as (d3 & -> & Hv & Hrow). cbn [mw_db with_mw_db mw_store with_mw_store].
  assert (Hr' : ∃ r', media_rows d3 !! id = Some r' ∧ md_scan_status r' = "infected"%string ∧ md_scan_detail r' = clip (sc_Detail verdict) ∧
     md_process_status r' ≠ "ready"%string ∧ md_deleted_at r' = None) by (destruct Hrow as [->| ->]; by eexists).
  destruct Hr' as (r' & Hl & H1' & H2' & H3' & H4'). split; [by exists r'|]. split; [done|]. split.
  - unfold gone. destruct (os_RemoveObject _ _ (mw_store w)) as [[[]|e] st] eqn:Hrm; [|done]. intros _. simpl. by eapply os_removed.
  - split.
    + intros later variant. rewrite (Hserve later variant _ r'); [unfold live_media; by rewrite H4'|exact Halone|exact Hl|done].
    + intros later variant w'' r'' Hm'' Hr'' Hs''. rewrite (Hserve later variant w'' r'') by done. by destruct (live_media r'').
Qed.
End quarantine.

(** ** A store, a scanner and a few files *)

Record sample_store := MkBucket { bk_objects : gmap (string * string) (list N); bk_parts : gmap string (list N) }.
#[local] Program Instance bucket_store : ObjectStore sample_store := {|
  os_contents s o := bk_objects s !! o;
  os_NewMultipartUpload b k mime s := (Ok ("upload of " +:+ k), s);
  os_CompleteMultipartUpload b k id parts s :=
    match bk_parts s !! id with
    | Some data => (Ok (), MkBucket (<[(b, k) := data]> (bk_objects s)) (delete id (bk_parts s)))
    | None => (Err "NoSuchUpload"%string, s)
    end;
  os_AbortMultipartUpload b k id s := (Ok (), MkBucket (bk_objects s) (delete id (bk_parts s)));
  os_PutObject b k data mime s := (Ok (), MkBucket (<[(b, k) := data]> (bk_objects s)) (bk_parts s));
  os_RemoveObject b k s := (Ok (), MkBucket (delete (b, k) (bk_objects s)) (bk_parts s));
  os_StatObject b k s := from_option (λ data, Ok (Z.of_nat (length data))) (Err "NoSuchKey"%string) (bk_objects s !! (b, k));
  os_GetObject b k range s := Ok match bk_objects s !! (b, k) with
    | Some data => ([match range with None => data | Some (lo, hi) => take (Z.to_nat (hi + 1 - lo)) (drop (Z.to_nat lo) data) end], None)
    | None => ([], Some "NoSuchKey"%string)
    end;
  os_Presign now ttl b k id number := Some (k +:+ "?part=" +:+ Itoa number +:+ "&expires=" +:+ Itoa (now + ttl));
  os_PresignedGetObject now ttl b k name := Some ("https://" +:+ b +:+ "/" +:+ k);
|}.
Next Obligation. intros b k data mime s s' [= <-]. simpl. split; [apply lookup_insert_eq|]. intros o Ho. by apply lookup_insert_ne. Qed.
Next Obligation. intros b k s s' [= <-]. simpl. split; [apply lookup_delete_eq|]. intros o Ho. by apply lookup_delete_ne. Qed.
Next Obligation. intros b k s reads. simpl. destruct (bk_objects s !! (b, k)) as [data|]; [|done]. intros [= <-]. simpl. by rewrite app_nil_r. Qed.
#[local] Instance sample_stream : JetStream media_job := live_stream media_job.
#[local] Instance sample_clamd : ClamAV := {|
  clamd_dial := None;
  clamd := λ sent, Ok (bytes_of (if contains sent (bytes_of "EICAR") then "stream: Eicar-Test-Signature FOUND"
                                else if contains sent (bytes_of "HUGE") then "INSTREAM size limit exceeded. ERROR" else "stream: OK"))
|}.
#[local] Instance no_pictures : Imaging () := {|
  Decode := λ _, Err "unknown format"%string; Dx := λ _, 0; Dy := λ _, 0; resizeToBox := λ i _, i; encodeJPEG := λ _ _, Ok []; EncodeBlurHash := λ _ _ _, ""%string
|}.
#[local] Instance no_tools : Toolchain := {|
  LookPath := λ _, false; MkdirTemp := None; ffprobe := λ _, Err "none"%string; ffmpeg := λ _ _, Err ("none", "")%string; milliseconds := λ _, None; peaks := λ _ _, None
|}.
#[local] Instance short_digest : Digest := {| sha256 := take 4 |}.
Definition sample_config (clamav : string) (required : bool) : MediaConfig :=
  MkMediaConfig 1000000000 1000 1000 (5 * 2 ^ 20) hour (15 * minute) ["image/jpeg"] ["video/mp4"] ["audio/ogg"] ["application/pdf"; "text/plain"]%string clamav required.
Definition sample_world (file : string) : media_world sample_store :=
  MkMediaWorld (MkMediaDb {[7%N]} ∅ ∅ ∅ ∅)
    (MkBucket ∅ {["upload of file/1970/01/01/00000000-0000-0000-0000-000000000001.txt"%string := bytes_of file]})
    (MkLimiterState ∅ true true (NewRules sample_limits) 0) [] [].
Definition sample_input (size : Z) : CreateUploadInput := MkCreateUploadInput 7 "file" "text/plain" "notes.txt" size.
Definition sample_run cfg (ops : list (media_op (St := sample_store))) (w : media_world sample_store) : media_world sample_store :=
  foldl (λ w o, run_media (MkStorageConfig "media" "public" "") "" (λ _, 0) to_lower (λ s, s) cfg o w) w ops.
Definition sample_upload (size : Z) : list (media_op (St := sample_store)) :=
  [OpCreateUpload 0 1 2 3 (sample_input size); OpRecordPart 0 3 7 (MkPart 1 "etag" size)].
Definition sample_process : media_op (St := sample_store) := OpProcess 10 (Ok (MkMediaJob 2 "file")).
Definition media_outcome (w : media_world sample_store) : option (string * string * Z) :=
  (λ r, (md_scan_status r, md_process_status r, md_size r)) <$> media_rows (mw_db w) !! 2%N.

Lemma parts_cover_the_file_witness : ∃ r w',
  CreateUpload (MkStorageConfig "media" "public" "") "" to_lower (λ s, s) (sample_config "" false) 0 1 2 3 (sample_input 12000000) (sample_world "") = (Ok r, w') ∧
  foldr Z.add 0 (pu_Size <$> cr_Parts r) = 12000000 ∧ length (cr_Parts r) = 3%nat.
Proof.
  assert (Hparts : match (CreateUpload (MkStorageConfig "media" "public" "") "" to_lower (λ s, s) (sample_config "" false) 0 1 2 3 (sample_input 12000000)
    (sample_world "")).1 with Ok r => length (cr_Parts r) | Err _ => O end = 3%nat) by (vm_compute; reflexivity).
  destruct (CreateUpload (MkStorageConfig "media" "public" "") "" to_lower (λ s, s) (sample_config "" false) 0 1 2 3 (sample_input 12000000) (sample_world ""))
    as [[r|e] w'] eqn:Hr; [|discriminate Hparts].
  exists r, w'. split; [done|]. split.
  - destruct (parts_cover_the_file (MkStorageConfig "media" "public" "") "" to_lower (λ s, s) (sample_config "" false) 0 1 2 3 (sample_input 12000000)
      (sample_world "") r w') as (_ & Hsum & _); [vm_compute; split; discriminate|vm_compute; discriminate|exact Hr|exact Hsum].
  - exact Hparts.
Defined.
(** An empty world, the operations that open session 3, and what others do meanwhile: nothing. *)
Definition single_part (_ : uuid) : Z := 1.
Lemma sample_tables clamav required size file : (plan_parts (sample_config clamav required) size).2 = 1 →
  tables_in_order single_part "exports" (mw_db (sample_run (sample_config clamav required) (sample_upload size) (sample_world file))).
Proof.
  intros Hplan. unfold sample_run, sample_upload. cbn [foldl]. do 2 (apply run_media_evolves; [done|]). split; [apply tables_empty|constructor].
Qed.
Lemma media_tables_in_order_witness :
  let cfg := sample_config "" false in
  let d := mw_db (foldl (run_among (MkStorageConfig "media" "public" "") "" (λ _, 0) to_lower (λ s, s) cfg) (sample_world "hello")
    [([], OpCreateUpload 0 1 2 3 (sample_input 5)); ([], OpRecordPart 0 3 7 (MkPart 1 "etag" 5));
     ([λ x, x; λ x, x; λ x, (insert_export "exports" 5 9 7 "exports/7/0.json" 12 x.1, x.2)], OpCompleteUpload 5 3 7)]) in
  media_outcome (MkMediaWorld d (MkBucket ∅ ∅) (MkLimiterState ∅ true true (NewRules sample_limits) 0) [] []) = Some ("skipped", "pending", 5)%string ∧
  is_Some (media_rows d !! 9%N) ∧ tables_in_order single_part "exports" d.
Proof.
  intros cfg d. split; [vm_compute; reflexivity|]. split; [vm_compute; by eexists|].
  apply (media_tables_in_order (MkStorageConfig "media" "public" "") "" (λ _, 0) to_lower (λ s, s) cfg single_part "exports" {[7%N]}).
  do 2 (constructor; [split; [constructor|vm_compute; reflexivity || done]|]). constructor; [|constructor].
  split; [|done]. do 2 (constructor; [by intros x|]). constructor; [|constructor]. intros x. apply rtc_once, step_export.
Defined.
Lemma completed_upload_was_checked_witness :
  let cfg := sample_config "clamd:3310" true in let w := sample_run cfg (sample_upload 5) (sample_world "hello") in
  is_Ok (CompleteUpload "" (λ _, 0) (λ s, s) cfg 5 3 7 w).1 = true ∧
  is_Ok (loadActiveSession (St := sample_store) 6 3 7 (CompleteUpload "" (λ _, 0) (λ s, s) cfg 5 3 7 w).2).1 = false.
Proof.
  intros cfg w. assert (HI : tables_in_order single_part "exports" (mw_db w)) by (apply sample_tables; vm_compute; reflexivity).
  assert (Halone : mw_meanwhile w = []) by (vm_compute; reflexivity).
  assert (Halone' : mw_meanwhile (CompleteUpload "" (λ _, 0) (λ s, s) cfg 5 3 7 w).2 = []) by (vm_compute; reflexivity).
  assert (Hok : is_Ok (CompleteUpload "" (λ _, 0) (λ s, s) cfg 5 3 7 w).1 = true) by (vm_compute; reflexivity).
  split; [exact Hok|]. pose proof (completed_upload_was_checked "" (λ _, 0) (λ s, s) cfg single_part "exports" 5 3 7 w HI Halone) as [Hc _]. revert Hok Halone' Hc.
  generalize (CompleteUpload "" (λ _, 0) (λ s, s) cfg 5 3 7 w). intros [[m|e] w'] Hok Halone' Hc; [|discriminate Hok].
  destruct (Hc m w' eq_refl) as (s & header & Hs). repeat (destruct Hs as [_ Hs]). exact (Hs 6 7%N w' (rtc_refl _ _) Halone').
Defined.
Definition infected_world : media_world sample_store :=
  sample_run (sample_config "clamd:3310" true) (sample_upload 5 ++ [OpCompleteUpload 5 3 7]) (sample_world "the EICAR file").
Lemma infected_upload_is_quarantined_witness :
  media_outcome infected_world = Some ("pending", "pending", 14)%string ∧
  (DownloadURL (MkStorageConfig "media" "public" "") (λ _, 0) (sample_config "clamd:3310" true) 20 2 ""
     (handleMediaProcess "" (λ _, 0) (sample_config "clamd:3310" true) 10 (Ok (MkMediaJob 2 "file")) infected_world).2).1 =
    Err (Forbidden CodeVirusDetected "This file was found to be malicious").
Proof.
  split; [vm_compute; reflexivity|]. destruct (media_rows (mw_db infected_world) !! 2%N) as [r|] eqn:Hr; [|vm_compute in Hr; discriminate Hr].
  assert (Hr' := Hr). vm_compute in Hr'. injection Hr' as Hrr.
  destruct (infected_upload_is_quarantined (MkStorageConfig "media" "public" "") "" (λ _, 0) (sample_config "clamd:3310" true) 10 (MkMediaJob 2 "file") r
    infected_world [bytes_of "the EICAR file"] (bytes_of "stream: Eicar-Test-Signature FOUND")) as (_ & _ & _ & Hd & _);
    [vm_compute; reflexivity|exact Hr|subst r; reflexivity|subst r; discriminate|vm_compute; reflexivity|reflexivity|subst r; vm_compute; reflexivity|vm_compute; reflexivity|
     vm_compute; reflexivity|vm_compute; reflexivity|].
  exact (Hd 20 ""%string).
Defined.

(** Scanning is required and the scanner could not tell: the file is served as clean. *)
Example undecided_scan_passes_for_clean :
  media_outcome (sample_run (sample_config "clamd:3310" true) (sample_upload 5 ++ [OpCompleteUpload 5 3 7; sample_process]) (sample_world "a HUGE file")) =
    Some ("clean", "ready", 11)%string.
Proof. vm_compute. reflexivity. Qed.
(** Without a scanner every processed file is recorded as clean, not as skipped. *)
Example skipped_scan_becomes_clean :
  media_outcome (sample_run (sample_config "" false) (sample_upload 5 ++ [OpCompleteUpload 5 3 7]) (sample_world "hello")) = Some ("skipped", "pending", 5)%string ∧
  media_outcome (sample_run (sample_config "" false) (sample_upload 5 ++ [OpCompleteUpload 5 3 7; sample_process]) (sample_world "hello")) =
    Some ("clean", "ready", 5)%string.
Proof. vm_compute. done. Qed.
(** An upload whose job was lost while it waited for its scan is not among those the sweep
    queues again. *)
Example unscanned_upload_is_stranded :
  let w := sample_run (sample_config "clamd:3310" true) (sample_upload 5 ++ [OpCompleteUpload 5 3 7; OpElsewhere id id (λ _, [])]) (sample_world "hello") in
  media_outcome w = Some ("pending", "pending", 5)%string ∧ mw_jobs (sample_run (sample_config "clamd:3310" true) [OpRetryStranded 100] w) = [].
Proof. vm_compute. done. Qed.
(** The size declared bounds nothing that is stored. *)
Example declared_size_is_not_enforced :
  media_outcome (sample_run (sample_config "" false) (sample_upload 1 ++ [OpCompleteUpload 5 3 7]) (sample_world "far more than one byte")) =
    Some ("skipped", "pending", 22)%string.
Proof. vm_compute. reflexivity. Qed.
(** A second job for an infected file, whose object is gone, lifts the refusal. *)
Example quarantine_does_not_last :
  let w := sample_run (sample_config "clamd:3310" false) (sample_upload 5 ++ [OpCompleteUpload 5 3 7; sample_process; sample_process]) (sample_world "the EICAR file") in
  media_outcome w = Some ("failed", "failed", 14)%string ∧ is_Ok (DownloadURL (MkStorageConfig "media" "public" "") (λ _, 0) (sample_config "clamd:3310" false) 20 2 "" w).1 = true.
Proof. vm_compute. done. Qed.
