(* ===== verification/Migrator.v ===== *)
(** * Schema migrations ([internal/database/migrator.go])

    The files, what has been applied, and the two directions.  Running a script is a parameter:
    what it does to the rest of the schema, or that it fails.  [Up] holds an advisory lock from
    before it reads the table to its end, so one of them is a step; [Down] holds none, and
    takes what others commit in between ([before]).  Files arrive as [fs.ReadDir] sorts them.
    [quote] is [strconv.Quote]; a message stops where it would go on with a library's own. *)

From stdpp Require Import base tactics list sorting gmap strings.
From Stdlib Require Import ZArith Lia.
From S2P Require Import Prelude Antispam GoString Security.

Set Default Goal Selector "!".
Open Scope Z_scope.

Record Migration := MkMigration { mg_Version : Z; mg_Name : string; mg_UpSQL : string; mg_DownSQL : string; mg_Checksum : string }.
Record applied_row := MkAppliedRow { ap_name : string; ap_checksum : string; ap_applied_at : time }.
(** A directory entry: a file has contents. *)
Definition dir_entry : Type := string * option string.
Record schema (S : Type) := MkSchema { schema_migrations : gmap Z applied_row; objects : S }.
Arguments MkSchema {S}.
Arguments schema_migrations {S}.
Arguments objects {S}.

(** [%04d_%s] *)
Definition pad4 (n : Z) : string :=
  let s := Itoa (Z.abs n) in
  let width := (if (n <? 0)%Z then 3 else 4)%nat in
  (if n <? 0 then "-" else "") +:+ string_of (replicate (width - String.length s) 48%N) +:+ s.
Definition label (m : Migration) : string := pad4 (mg_Version m) +:+ "_" +:+ mg_Name m.

Section migrator.
Context `{Digest} {S : Type} (exec : string → S → result string S) (pg_error : string) (quote : string → string).
Abbreviation step := (prog (schema S) string) (only parsing).

(** ** Loading *)

Definition parse_name (name : string) : result string (Z * string) :=
  match cut_bytes 95 (bytes_of (trim_suffix (trim_suffix name ".down.sql") ".up.sql")) with
  | None => Err ("migrate: " +:+ quote name +:+ " does not match <version>_<name>.(up|down).sql")
  | Some (versionPart, namePart) =>
      match Atoi (string_of versionPart) with
      | None => Err ("migrate: " +:+ quote name +:+ " has a non-numeric version")
      | Some v => Ok (v, string_of namePart)
      end
  end.
Definition load_file (name content : string) (version : Z) (namePart : string) (m : gmap Z Migration) : gmap Z Migration :=
  let g := default (MkMigration version namePart "" "" "") (m !! version) in
  <[version := if has_suffix name ".down.sql" then MkMigration version (mg_Name g) (mg_UpSQL g) content (mg_Checksum g)
               else MkMigration version (mg_Name g) content (mg_DownSQL g) (hex_bytes (sha256 (bytes_of content)))]> m.
Fixpoint load_entries (l : list dir_entry) (m : gmap Z Migration) : result string (gmap Z Migration) :=
  match l with
  | [] => Ok m
  | (name, Some content) :: l =>
      if negb (has_suffix name ".sql") then load_entries l m
      else match parse_name name with
           | Err e => Err e
           | Ok (version, namePart) => load_entries l (load_file name content version namePart m)
           end
  | (_, None) :: l => load_entries l m
  end.
(** Of several versions without an up file, whichever Go meets first is named; here, the
    lowest. *)
Definition load_files (fsys : list dir_entry) : result string (list Migration) :=
  match load_entries fsys ∅ with
  | Err e => Err e
  | Ok byVersion =>
      let out := order_by mg_Version (map_to_list byVersion).*2 in
      match filter (λ m, trim_space (mg_UpSQL m) = ""%string) out with
      | m :: _ => Err ("migrate: version " +:+ Itoa (mg_Version m) +:+ " has no .up.sql file")
      | [] => Ok out
      end
  end.

(** ** Up *)

Definition of_result {A} (r : result string A) : step A := λ d, (r, d).
Definition run_script (prefix : string) (sql : string) : step () := λ d,
  match exec sql (objects d) with Ok s => (Ok (), MkSchema (schema_migrations d) s) | Err e => (Err (prefix +:+ e), d) end.
Definition record_applied (now : time) (m : Migration) : step () := λ d,
  if int4 (mg_Version m) && pg_text (mg_Name m) && negb (bool_decide (is_Some (schema_migrations d !! mg_Version m)))
  then (Ok (), MkSchema (<[mg_Version m := MkAppliedRow (mg_Name m) (mg_Checksum m) now]> (schema_migrations d)) (objects d))
  else (Err pg_error, d).
Definition apply_one (now : time) (m : Migration) : step () :=
  in_tx (run_script ("migrate: apply " +:+ label m +:+ ": ") (mg_UpSQL m);; record_applied now m).
(** A file that was edited after it was applied. *)
Definition edited (applied : gmap Z applied_row) (m : Migration) : option string :=
  prior ← applied !! mg_Version m;
  if bool_decide (ap_checksum prior = mg_Checksum m) then None
  else Some ("migrate: migration " +:+ label m +:+ " was modified after being applied (recorded " +:+ slice (ap_checksum prior) 0 12 +:+ ", found "
    +:+ slice (mg_Checksum m) 0 12 +:+ "); create a new migration instead of editing an applied one").
Definition unapplied (applied : gmap Z applied_row) (l : list Migration) : list Migration := filter (λ m, applied !! mg_Version m = None) l.
Definition Up (now : time) (fsys : list dir_entry) : step () :=
  migrations ← of_result (load_files fsys);
  applied ← gets schema_migrations;
  match omap (edited applied) migrations with
  | e :: _ => fail e
  | [] => for_each (unapplied applied migrations) (apply_one now)
  end.

(** ** Down *)

Definition revert_one (m : Migration) : step () :=
  in_tx (
    run_script ("migrate: revert " +:+ label m +:+ ": ") (mg_DownSQL m);;
    modify (λ d, MkSchema (delete (mg_Version m) (schema_migrations d)) (objects d))).
Definition revert_version (l : list Migration) (v : Z) : step () :=
  match filter (λ m, mg_Version m = v) l with
  | [] => fail ("migrate: no file found for applied version " +:+ Itoa v)
  | m :: _ =>
      if bool_decide (trim_space (mg_DownSQL m) = ""%string) then fail ("migrate: migration " +:+ label m +:+ " has no down file")
      else revert_one m
  end.
(** The versions that are applied, the latest first. *)
Definition latest_first (applied : gmap Z applied_row) : list Z := order_by_desc id (map_to_list applied).*1.
Definition Down (before : schema S → schema S) (fsys : list dir_entry) (steps : Z) : step () :=
  fail_if (steps <=? 0) "migrate: steps must be positive"%string;;
  migrations ← of_result (load_files fsys);
  applied ← gets schema_migrations;
  modify before;;
  for_each (take (Z.to_nat steps) (latest_first applied)) (revert_version migrations).

(** ** Looking *)

Definition Pending (fsys : list dir_entry) : step (list Migration) :=
  migrations ← of_result (load_files fsys);
  gets (λ d, unapplied (schema_migrations d) migrations).
Definition Applied (d : schema S) : list (Z * applied_row) := order_by fst (map_to_list (schema_migrations d)).
Definition maxVersion (l : list Migration) : Z := foldl (λ h m, if h <? mg_Version m then mg_Version m else h) 0 l.
End migrator.

(** ** Theorems *)

Section theorems.
Context `{Digest} {S : Type} (exec : string → S → result string S) (pg_error : string) (quote : string → string).

Lemma load_entries_keys l : ∀ m m', (∀ v g, m !! v = Some g → mg_Version g = v) → load_entries quote l m = Ok m' →
  ∀ v g, m' !! v = Some g → mg_Version g = v.
Proof.
  induction l as [|[name [content|]] l IH]; intros m m' Hm Hl; simpl in Hl.
  - by injection Hl as <-.
  - destruct (negb _); [by eapply IH|]. destruct (parse_name quote name) as [[version namePart]|e]; [|done]. eapply IH; [|exact Hl].
    intros v g. unfold load_file. rewrite lookup_insert_Some. intros [[<- <-]|[_ Hv]]; [|by apply Hm]. by destruct (has_suffix name ".down.sql").
  - by eapply IH.
Qed.
(** The files, by version, each version once. *)
Lemma load_sorted fsys l : load_files quote fsys = Ok l → StronglySorted (key_lt mg_Version) l.
Proof.
  unfold load_files. destruct (load_entries quote fsys ∅) as [m|e] eqn:Hm; [|done]. destruct (filter _ _); [|done]. intros [= <-].
  apply order_by_strict. assert (mg_Version <$> (map_to_list m).*2 = (map_to_list m).*1) as ->; [|apply NoDup_fst_map_to_list].
  rewrite <- list_fmap_compose. apply list_fmap_ext. intros i [v g] Hi. apply list_elem_of_lookup_2, elem_of_map_to_list in Hi.
  simpl. eapply load_entries_keys; [|exact Hm|exact Hi]. intros ? ?. by rewrite lookup_empty.
Qed.
Lemma sorted_versions_NoDup (l : list Migration) : StronglySorted (key_lt mg_Version) l → NoDup (mg_Version <$> l).
Proof.
  induction 1 as [|g l Hs IH Hall]; [constructor|]. rewrite fmap_cons. constructor; [|done].
  intros (g' & Heq & Hin)%list_elem_of_fmap. rewrite Forall_forall in Hall. specialize (Hall g' Hin). unfold key_lt in Hall. lia.
Qed.

(** A script of the directory: the contents of a file whose name gives the version and the
    direction. *)
Definition file_of (fsys : list dir_entry) (up : bool) (v : Z) (sql : string) : Prop :=
  ∃ name namePart, (name, Some sql) ∈ fsys ∧ has_suffix name ".sql" = true ∧ has_suffix name ".down.sql" = negb up ∧
    parse_name quote name = Ok (v, namePart).
Definition from_files (fsys : list dir_entry) (g : Migration) : Prop :=
  (mg_UpSQL g = ""%string ∨ file_of fsys true (mg_Version g) (mg_UpSQL g)) ∧
  (mg_DownSQL g = ""%string ∨ file_of fsys false (mg_Version g) (mg_DownSQL g)).
Lemma load_entries_from fsys l : ∀ m m', (∀ x, x ∈ l → x ∈ fsys) → (∀ v g, m !! v = Some g → mg_Version g = v ∧ from_files fsys g) →
  load_entries quote l m = Ok m' → ∀ v g, m' !! v = Some g → mg_Version g = v ∧ from_files fsys g.
Proof.
  induction l as [|[name [content|]] l IH]; intros m m' Hsub Hm Hl; simpl in Hl.
  - by injection Hl as <-.
  - assert (Hsub' : ∀ x, x ∈ l → x ∈ fsys) by (intros x Hx; apply Hsub; by right).
    destruct (has_suffix name ".sql") eqn:Hsql; [|by eapply IH]. simpl in Hl.
    destruct (parse_name quote name) as [[version namePart]|e] eqn:Hparse; [|done]. eapply IH; [done| |exact Hl].
    intros v g. unfold load_file. rewrite lookup_insert_Some. intros [[<- <-]|[_ Hv]]; [|by apply Hm].
    assert (Hold : mg_Version (default (MkMigration version namePart "" "" "") (m !! version)) = version ∧
      from_files fsys (default (MkMigration version namePart "" "" "") (m !! version))).
    { destruct (m !! version) as [g0|] eqn:Hg0; [by apply Hm|]. split; [done|]. split; by left. }
    destruct Hold as [Hv [Hu Hd]]. rewrite Hv in Hu, Hd.
    assert (Hfile : ∀ up, has_suffix name ".down.sql" = negb up → file_of fsys up version content).
    { intros up Hup. exists name, namePart. split; [apply Hsub; by left|done]. }
    destruct (has_suffix name ".down.sql"); (split; [done|]); split; simpl; try done; right; by apply Hfile.
  - eapply IH; [|exact Hm|exact Hl]. intros x Hx. apply Hsub. by right.
Qed.
Lemma load_files_from fsys l g : load_files quote fsys = Ok l → g ∈ l →
  file_of fsys true (mg_Version g) (mg_UpSQL g) ∧ (trim_space (mg_DownSQL g) ≠ ""%string → file_of fsys false (mg_Version g) (mg_DownSQL g)).
Proof.
  unfold load_files. destruct (load_entries quote fsys ∅) as [m|e] eqn:Hm; [|done]. destruct (filter _ _) as [|x xs] eqn:Hblank; [|done].
  intros [= <-] Hg. assert (Hup : trim_space (mg_UpSQL g) ≠ ""%string).
  { intros Hb. assert (g ∈ @nil Migration) as Hn; [|by apply not_elem_of_nil in Hn]. rewrite <- Hblank. by apply list_elem_of_filter. }
  rewrite elem_of_order_by in Hg. apply list_elem_of_fmap in Hg as ([v g'] & -> & Hv%elem_of_map_to_list). simpl in *.
  destruct (load_entries_from fsys fsys ∅ m) with (v := v) (g := g') as [_ [Hu Hd]]; [done|by intros ??; rewrite lookup_empty|done|done|].
  split; [destruct Hu as [Hu|]; [by rewrite Hu in Hup|done]|]. intros Hdown. destruct Hd as [Hd|]; [by rewrite Hd in Hdown|done].
Qed.

(** Scripts run one after the other. *)
Fixpoint run_scripts (l : list string) (s : S) : option S :=
  match l with
  | [] => Some s
  | sql :: l => match exec sql s with Ok s' => run_scripts l s' | Err _ => None end
  end.
Lemma run_scripts_app l1 l2 s : run_scripts (l1 ++ l2) s = s' ← run_scripts l1 s; run_scripts l2 s'.
Proof. revert s. induction l1 as [|sql l1 IH]; intros s; [done|]. simpl. destruct (exec sql s); [apply IH|done]. Qed.

(** The scripts that ran, each with its direction and its version, the earliest first. *)
Abbreviation ran := (list (bool * Z * string)) (only parsing).
Definition applied_in (h : ran) (v : Z) : bool := from_option (λ e : bool * Z * string, e.1.1) false (last (filter (λ e, e.1.2 = v) h)).
Definition alternates (h : ran) : Prop := ∀ pre suf e, h = pre ++ e :: suf → e.1.1 = negb (applied_in pre e.1.2).
Definition accounts_for (source : bool * Z * string → Prop) (s0 : S) (h : ran) (d : schema S) : Prop :=
  Forall source h ∧ run_scripts h.*2 s0 = Some (objects d) ∧ alternates h ∧ ∀ v, is_Some (schema_migrations d !! v) ↔ applied_in h v = true.

Lemma applied_in_snoc h e v : applied_in (h ++ [e]) v = if decide (e.1.2 = v) then e.1.1 else applied_in h v.
Proof.
  unfold applied_in. rewrite filter_app, filter_cons, filter_nil. destruct (decide (e.1.2 = v)); [by rewrite last_snoc|by rewrite app_nil_r].
Qed.
Lemma alternates_snoc h e : alternates h → e.1.1 = negb (applied_in h e.1.2) → alternates (h ++ [e]).
Proof.
  intros Hh He pre suf e' Heq. destruct suf as [|x suf' _] using rev_ind.
  - by apply app_inj_tail in Heq as [-> ->].
  - rewrite app_comm_cons, app_assoc in Heq. apply app_inj_tail in Heq as [-> _]. by eapply Hh.
Qed.

(** One migration forward, one back: all of it or nothing. *)
Lemma apply_one_run now g d : mg_Version g ∉ dom (schema_migrations d) →
  (∃ s, exec (mg_UpSQL g) (objects d) = Ok s ∧ apply_one exec pg_error now g d =
     (Ok (), MkSchema (<[mg_Version g := MkAppliedRow (mg_Name g) (mg_Checksum g) now]> (schema_migrations d)) s)) ∨
  ∃ e, apply_one exec pg_error now g d = (Err e, d).
Proof.
  intros Hnew. apply not_elem_of_dom in Hnew. unfold apply_one, in_tx, run_script. rewrite bind_run. destruct (exec (mg_UpSQL g) (objects d)) as [s|e]; [|right; by eexists].
  unfold record_applied. cbn [schema_migrations objects]. rewrite Hnew. destruct (_ && _); [left; by exists s|right; by eexists].
Qed.
Lemma revert_one_run g d :
  (∃ s, exec (mg_DownSQL g) (objects d) = Ok s ∧ revert_one exec g d = (Ok (), MkSchema (delete (mg_Version g) (schema_migrations d)) s)) ∨
  ∃ e, revert_one exec g d = (Err e, d).
Proof.
  unfold revert_one, in_tx, run_script. rewrite bind_run. destruct (exec (mg_DownSQL g) (objects d)) as [s|e]; [left; by exists s|right; by eexists].
Qed.

Lemma accounts_for_apply source s0 h d now g : source (true, mg_Version g, mg_UpSQL g) →
  accounts_for source s0 h d → mg_Version g ∉ dom (schema_migrations d) →
  ∃ h', accounts_for source s0 h' (apply_one exec pg_error now g d).2.
Proof.
  intros Hsource (Hfrom & Hrun & Halt & Happ) Hnew. destruct (apply_one_run now g d Hnew) as [(s & Hs & ->)|(e & ->)]; simpl; [|by exists h].
  exists (h ++ [(true, mg_Version g, mg_UpSQL g)]). split; [apply Forall_app; by split; [|constructor]|]. split; [|split].
  - rewrite fmap_app, run_scripts_app, Hrun. simpl. by rewrite Hs.
  - apply alternates_snoc; [done|]. simpl. destruct (applied_in h (mg_Version g)) eqn:Ha; [|done]. apply Happ in Ha. by apply elem_of_dom in Ha.
  - intros v. rewrite applied_in_snoc. simpl. destruct (decide (mg_Version g = v)) as [<-|Hne]; [rewrite lookup_insert_eq; split; [done|by eexists]|].
    by rewrite lookup_insert_ne.
Qed.
Lemma accounts_for_revert source s0 h d g : source (false, mg_Version g, mg_DownSQL g) →
  accounts_for source s0 h d → mg_Version g ∈ dom (schema_migrations d) →
  ∃ h', accounts_for source s0 h' (revert_one exec g d).2.
Proof.
  intros Hsource (Hfrom & Hrun & Halt & Happ) Hold. destruct (revert_one_run g d) as [(s & Hs & ->)|(e & ->)]; simpl; [|by exists h].
  exists (h ++ [(false, mg_Version g, mg_DownSQL g)]). split; [apply Forall_app; by split; [|constructor]|]. split; [|split].
  - rewrite fmap_app, run_scripts_app, Hrun. simpl. by rewrite Hs.
  - apply alternates_snoc; [done|]. simpl. by rewrite (proj1 (Happ _) (proj1 (elem_of_dom _ _) Hold)).
  - intros v. rewrite applied_in_snoc. simpl. destruct (decide (mg_Version g = v)) as [<-|Hne]; [rewrite lookup_delete_eq; split; [intros []|]; done|].
    by rewrite lookup_delete_ne.
Qed.
Lemma accounts_for_Up (source : bool * Z * string → Prop) s0 h d now fsys : (∀ v sql, file_of fsys true v sql → source (true, v, sql)) →
  accounts_for source s0 h d → ∃ h', accounts_for source s0 h' (Up exec pg_error quote now fsys d).2.
Proof.
  intros Hsource Hh. unfold Up. rewrite bind_run. unfold of_result. destruct (load_files quote fsys) as [l|e] eqn:Hl; [|by exists h].
  rewrite bind_run. cbn [gets]. destruct (omap _ l); [|by exists h].
  assert (Hnd : NoDup (mg_Version <$> unapplied (schema_migrations d) l)).
  { apply sorted_versions_NoDup, StronglySorted_key_lt_filter. by eapply load_sorted. }
  assert (Hnew : ∀ g, g ∈ unapplied (schema_migrations d) l → mg_Version g ∉ dom (schema_migrations d)).
  { intros g [Hg _]%list_elem_of_filter. by apply not_elem_of_dom. }
  assert (Hup : ∀ g, g ∈ unapplied (schema_migrations d) l → source (true, mg_Version g, mg_UpSQL g)).
  { intros g [_ Hg]%list_elem_of_filter. by apply Hsource, (load_files_from fsys l g). }
  revert Hnd Hnew Hup. generalize (unapplied (schema_migrations d) l). intros todo. revert d h Hh. clear l Hl.
  induction todo as [|g todo IH]; intros d h Hh Hnd Hnew Hup; [by exists h|]. rewrite fmap_cons in Hnd. apply NoDup_cons in Hnd as [Hg Hnd].
  simpl. rewrite bind_run. destruct (accounts_for_apply source s0 h d now g) as [h' Hh']; [apply Hup; by left|done|apply Hnew; by left|].
  destruct (apply_one_run now g d) as [(s & _ & Hr)|(e & Hr)]; [apply Hnew; by left| |]; rewrite Hr in Hh' |- *; simpl in Hh'; [|by exists h'].
  apply (IH _ h'); [done|done| |intros g' Hg'; apply Hup; by right]. intros g' Hg'. simpl. rewrite dom_insert. apply not_elem_of_union. split; [|by apply Hnew; right].
  rewrite not_elem_of_singleton. intros Heq. apply Hg. rewrite <- Heq. by apply list_elem_of_fmap_2.
Qed.
Lemma revert_version_run l v d : (∃ g, g ∈ l ∧ trim_space (mg_DownSQL g) ≠ ""%string ∧ mg_Version g = v ∧ revert_version exec l v d = revert_one exec g d) ∨ ∃ e, revert_version exec l v d = (Err e, d).
Proof.
  unfold revert_version. destruct (filter _ l) as [|g gs] eqn:Hf; [right; by eexists|]. case_bool_decide as Hblank; [right; by eexists|].
  left. exists g. assert (g ∈ filter (λ m, mg_Version m = v) l) as Hin by (rewrite Hf; by left). by apply list_elem_of_filter in Hin as [? ?].
Qed.
Lemma accounts_for_Down (source : bool * Z * string → Prop) s0 h d fsys steps : (∀ v sql, file_of fsys false v sql → source (false, v, sql)) →
  accounts_for source s0 h d → ∃ h', accounts_for source s0 h' (Down exec quote id fsys steps d).2.
Proof.
  intros Hsource Hh. unfold Down. rewrite bind_run. unfold fail_if. destruct (steps <=? 0); [by exists h|]. rewrite bind_run. unfold of_result.
  destruct (load_files quote fsys) as [l|e] eqn:Hl; [|by exists h]. rewrite bind_run. cbn [gets]. rewrite bind_run. cbn [modify id].
  assert (Hin : ∀ v, v ∈ take (Z.to_nat steps) (latest_first (schema_migrations d)) → v ∈ dom (schema_migrations d)).
  { intros v Hv. apply elem_of_take in Hv as (i & Hi & _). apply list_elem_of_lookup_2 in Hi. unfold latest_first, order_by_desc in Hi.
    rewrite elem_of_order_by in Hi. apply list_elem_of_fmap in Hi as ([v' r] & -> & Hr%elem_of_map_to_list). apply elem_of_dom. by eexists. }
  assert (Hnd : NoDup (take (Z.to_nat steps) (latest_first (schema_migrations d)))).
  { apply (NoDup_app (take (Z.to_nat steps) (latest_first (schema_migrations d))) (drop (Z.to_nat steps) (latest_first (schema_migrations d)))).
    rewrite take_drop. unfold latest_first, order_by_desc. rewrite order_by_Permutation. apply NoDup_fst_map_to_list. }
  revert Hin Hnd. generalize (take (Z.to_nat steps) (latest_first (schema_migrations d))). intros vs. revert d h Hh.
  induction vs as [|v vs IH]; intros d h Hh Hin Hnd; [by exists h|]. apply NoDup_cons in Hnd as [Hv Hnd].
  simpl. rewrite bind_run. destruct (revert_version_run l v d) as [(g & Hgl & Hdown & Hg & Hr)|(e & Hr)]; rewrite Hr; [|by exists h].
  destruct (accounts_for_revert source s0 h d g) as [h' Hh']; [by apply Hsource, (load_files_from fsys l g)|done|rewrite Hg; apply Hin; by left|].
  destruct (revert_one_run g d) as [(s & _ & Hr')|(e & Hr')]; rewrite Hr' in Hh' |- *; simpl in Hh'; [|by exists h'].
  apply (IH _ h'); [done| |done]. intros v' Hv'. simpl. rewrite dom_delete. apply elem_of_difference. split; [by apply Hin; right|].
  rewrite not_elem_of_singleton. intros ->. by rewrite Hg in Hv'.
Qed.

(** A deploy: some instance migrates up, or somebody rolls back, each with the files it has. *)
Inductive migrator_op := OpUp (now : time) (fsys : list dir_entry) | OpDown (fsys : list dir_entry) (steps : Z).
Definition run_migrator (o : migrator_op) (d : schema S) : schema S :=
  match o with
  | OpUp now fsys => (Up exec pg_error quote now fsys d).2
  | OpDown fsys steps => (Down exec quote id fsys steps d).2
  end.

(** The scripts a deploy can run: the up files of what it carries when it migrates up, the down
    files when it rolls back. *)
Definition script_of (o : migrator_op) (e : bool * Z * string) : Prop :=
  match o with
  | OpUp _ fsys => e.1.1 = true ∧ file_of fsys true e.1.2 e.2
  | OpDown fsys _ => e.1.1 = false ∧ file_of fsys false e.1.2 e.2
  end.

(** C37: Any sequence of deploys and rollbacks, one at a time, whatever files each of them carries
    and wherever a script fails.  The schema is what the scripts that succeeded made of the
    first one, run one after the other: each the contents of an up file, of the version it is
    recorded under, that a deploy carried, or of a down file that a rollback carried; a version's
    up script ran only while it was not applied and its down script only while it was, so that
    neither ever ran twice in a row; and the versions recorded as applied are those whose last
    script to run was their up script.  Two rollbacks at the same time take no lock, and run
    the same script twice. *)
Theorem migrations_alternate s0 ops :
  let d := foldl (λ d o, run_migrator o d) (MkSchema ∅ s0) ops in
  ∃ h : ran, Forall (λ e, Exists (λ o, script_of o e) ops) h ∧
    run_scripts h.*2 s0 = Some (objects d) ∧ alternates h ∧ ∀ v, is_Some (schema_migrations d !! v) ↔ applied_in h v = true.
Proof.
  cbv zeta. set (source := λ e, Exists (λ o, script_of o e) ops). assert (Hh : accounts_for source s0 [] (MkSchema ∅ s0)).
  { split; [done|]. split; [done|]. split; [by intros [|? ?] suf e|].
    intros v. simpl. rewrite lookup_empty. unfold applied_in. simpl. split; [intros []|]; done. }
  assert (Hops : Forall (λ o, ∀ e, script_of o e → source e) ops).
  { apply Forall_forall. intros o Ho e He. apply Exists_exists. by exists o. }
  clearbody source. revert Hh. generalize (@nil (bool * Z * string)). generalize (MkSchema (S := S) ∅ s0).
  induction Hops as [|o ops Ho _ IH]; intros d h Hh; [by exists h|]. simpl. destruct o as [now fsys|fsys steps].
  - destruct (accounts_for_Up source s0 h d now fsys) as [h' Hh']; [by intros v sql Hf; apply Ho|done|]. by apply (IH _ h').
  - destruct (accounts_for_Down source s0 h d fsys steps) as [h' Hh']; [by intros v sql Hf; apply Ho|done|]. by apply (IH _ h').
Qed.

(** ** Up and down again *)

(** What a run of [Up] that succeeds leaves. *)
Fixpoint recorded (now : time) (l : list Migration) (m : gmap Z applied_row) : gmap Z applied_row :=
  match l with
  | [] => m
  | g :: l => recorded now l (<[mg_Version g := MkAppliedRow (mg_Name g) (mg_Checksum g) now]> m)
  end.
Lemma apply_all_Ok now l : ∀ d d', for_each l (apply_one exec pg_error now) d = (Ok (), d') →
  run_scripts (mg_UpSQL <$> l) (objects d) = Some (objects d') ∧ schema_migrations d' = recorded now l (schema_migrations d).
Proof.
  induction l as [|g l IH]; intros d d' Hr; [by injection Hr as <-|]. simpl in Hr. apply bind_Ok_inv in Hr as ([] & d1 & Hg & Hr).
  unfold apply_one in Hg. apply in_tx_Ok_inv in Hg. apply bind_Ok_inv in Hg as ([] & d2 & Hs & Hg). unfold run_script in Hs.
  destruct (exec (mg_UpSQL g) (objects d)) as [s|e] eqn:He; [|done]. injection Hs as <-. unfold record_applied in Hg.
  destruct (_ && _); [|done]. injection Hg as <-. apply IH in Hr as [Hrun Hrec]. simpl in *. by rewrite He.
Qed.
Lemma recorded_lookup now l : ∀ m v, v ∉ mg_Version <$> l → recorded now l m !! v = m !! v.
Proof.
  induction l as [|g l IH]; intros m v Hv; [done|]. rewrite fmap_cons, not_elem_of_cons in Hv. simpl. rewrite IH by tauto.
  apply lookup_insert_ne. naive_solver.
Qed.
Lemma recorded_snoc now l g m : recorded now (l ++ [g]) m = <[mg_Version g := MkAppliedRow (mg_Name g) (mg_Checksum g) now]> (recorded now l m).
Proof. revert m. induction l as [|x l IH]; intros m; [done|]. simpl. apply IH. Qed.

Lemma sort_rows_desc (l : list Z) : NoDup l → order_by_desc id l = reverse (order_by id l).
Proof.
  intros Hnd. apply (StronglySorted_strict_unique (λ x, - id x)).
  - apply order_by_strict. rewrite <- (list_fmap_id l) in Hnd. rewrite (list_fmap_ext _ (Z.opp ∘ id)) by done. rewrite list_fmap_compose.
    apply NoDup_fmap_2; [intros x y; lia|exact Hnd].
  - assert (Hs : StronglySorted (key_lt id) (order_by id l)) by (apply order_by_strict; by rewrite list_fmap_id).
    induction Hs as [|x xs Hs IH Hall]; [constructor|]. rewrite reverse_cons. apply StronglySorted_app_2; [|done|repeat constructor].
    intros a b Ha Hb. apply list_elem_of_singleton in Hb. subst b. rewrite elem_of_reverse in Ha. rewrite Forall_forall in Hall. specialize (Hall a Ha).
    unfold key_lt in *. simpl in *. lia.
  - intros x. unfold order_by_desc. by rewrite elem_of_reverse, !elem_of_order_by.
Qed.
(** The versions just recorded come first, the last one at the front. *)
Lemma latest_first_recorded now l m : StronglySorted (key_lt mg_Version) l → (∀ g v, g ∈ l → is_Some (m !! v) → v < mg_Version g) →
  latest_first (recorded now l m) = reverse (mg_Version <$> l) ++ latest_first m.
Proof.
  intros Hs Hlater. unfold latest_first. rewrite !sort_rows_desc by apply NoDup_fst_map_to_list. rewrite <- reverse_app. f_equal.
  apply (StronglySorted_strict_unique id).
  - apply order_by_strict. rewrite list_fmap_id. apply NoDup_fst_map_to_list.
  - apply StronglySorted_app_2.
    + intros v v' Hv (g & -> & Hg)%list_elem_of_fmap. rewrite elem_of_order_by in Hv. apply list_elem_of_fmap in Hv as ([v1 r] & -> & Hr%elem_of_map_to_list).
      unfold key_lt. simpl. apply Hlater; [done|by eexists].
    + apply order_by_strict. rewrite list_fmap_id. apply NoDup_fst_map_to_list.
    + eapply StronglySorted_weaken; [|by apply StronglySorted_key_fmap]. done.
  - assert (Hdom : ∀ (m' : gmap Z applied_row) v, v ∈ (map_to_list m').*1 ↔ is_Some (m' !! v)).
    { intros m' v. rewrite list_elem_of_fmap. split; [intros ([? r] & -> & Hr%elem_of_map_to_list); by eexists|].
      intros [r Hr]. exists (v, r). split; [done|]. by apply elem_of_map_to_list. }
    intros v. rewrite elem_of_app, !elem_of_order_by, !Hdom.
    destruct (decide (v ∈ mg_Version <$> l)) as [Hin|Hout]; [|rewrite recorded_lookup by done; naive_solver].
    split; [by right|]. intros _. clear Hs Hlater. revert m. induction l as [|g l IH]; intros m; [by apply elem_of_nil in Hin|]. simpl.
    destruct (decide (v ∈ mg_Version <$> l)) as [Hl|Hl]; [by apply IH|]. rewrite recorded_lookup by done.
    rewrite fmap_cons in Hin. apply elem_of_cons in Hin as [->|?]; [|done]. rewrite lookup_insert_eq. by eexists.
Qed.

(** Undoing a run of migrations, the last first. *)
Lemma revert_all files now l : ∀ d d', StronglySorted (key_lt mg_Version) files → (∀ g, g ∈ l → g ∈ files ∧ trim_space (mg_DownSQL g) ≠ ""%string) →
  NoDup (mg_Version <$> l) → (∀ g, g ∈ l → schema_migrations d !! mg_Version g = None) →
  (∀ g s s', g ∈ l → exec (mg_UpSQL g) s = Ok s' → exec (mg_DownSQL g) s' = Ok s) →
  run_scripts (mg_UpSQL <$> l) (objects d) = Some (objects d') → schema_migrations d' = recorded now l (schema_migrations d) →
  for_each (reverse (mg_Version <$> l)) (revert_version exec files) d' = (Ok (), d).
Proof.
  intros d d' Hs. revert d'. induction l as [|g l IH] using rev_ind; intros d' Hin Hnd Hnew Hinv Hrun Hrec.
  - simpl in *. injection Hrun as Hrun. destruct d, d'. simpl in *. by subst.
  - rewrite fmap_app, reverse_app. simpl. rewrite bind_run. rewrite fmap_app, run_scripts_app in Hrun.
    destruct (run_scripts (mg_UpSQL <$> l) (objects d)) as [s|] eqn:Hl; [|done]. simpl in Hrun.
    destruct (exec (mg_UpSQL g) s) as [s'|e] eqn:Hg; [|done]. injection Hrun as Hs'.
    assert (Hgin : g ∈ l ++ [g]) by (apply elem_of_app; right; by left). destruct (Hin g Hgin) as [Hfile Hdown].
    assert (Hfind : revert_version exec files (mg_Version g) d' = revert_one exec g d').
    { unfold revert_version. assert (filter (λ m, mg_Version m = mg_Version g) files = [g]) as ->; [|by rewrite bool_decide_false].
      clear -Hs Hfile. induction Hs as [|x xs Hs IH Hall]; [by apply elem_of_nil in Hfile|]. rewrite Forall_forall in Hall. unfold key_lt in Hall.
      rewrite filter_cons. apply elem_of_cons in Hfile as [<-|Hfile].
      - rewrite decide_True by done. f_equal. apply elem_of_nil_inv. intros y [Heq Hy]%list_elem_of_filter. specialize (Hall y Hy). lia.
      - specialize (Hall g Hfile). rewrite decide_False by lia. by apply IH. }
    rewrite Hfind. unfold revert_one, in_tx, run_script. rewrite bind_run. rewrite <- Hs', (Hinv g s s' Hgin Hg). cbn [modify schema_migrations objects].
    rewrite fmap_app in Hnd. apply NoDup_app in Hnd as (Hnd & Hdisj & _).
    assert (Hgl : mg_Version g ∉ mg_Version <$> l) by (intros Hbad; apply (Hdisj _ Hbad); by left).
    apply IH; simpl.
    + intros x Hx. apply Hin, elem_of_app. by left.
    + done.
    + intros x Hx. apply Hnew, elem_of_app. by left.
    + intros x s1 s2 Hx. apply Hinv, elem_of_app. by left.
    + done.
    + rewrite Hrec, recorded_snoc, delete_insert_id; [done|]. rewrite recorded_lookup by done. by apply Hnew.
Qed.

(** A deploy can be taken back.  If migrating up succeeds, the files it applied are later than
    all that was applied before, and each has a down script that undoes its up script, then
    rolling back as many steps gives exactly the schema and the records there were. *)
Lemma migrations_come_undone now fsys files d d' :
  load_files quote fsys = Ok files →
  Up exec pg_error quote now fsys d = (Ok (), d') →
  let todo := unapplied (schema_migrations d) files in
  (∀ g v, g ∈ todo → is_Some (schema_migrations d !! v) → v < mg_Version g) →
  (∀ g, g ∈ todo → trim_space (mg_DownSQL g) ≠ ""%string) →
  (∀ g s s', g ∈ todo → exec (mg_UpSQL g) s = Ok s' → exec (mg_DownSQL g) s' = Ok s) →
  todo ≠ [] →
  Down exec quote id fsys (Z.of_nat (length todo)) d' = (Ok (), d).
Proof.
  intros Hload Hup todo Hlater Hdown Hinv Hne. pose proof (load_sorted _ _ Hload) as Hs. unfold Up in Hup. rewrite bind_run in Hup.
  unfold of_result in Hup. rewrite Hload in Hup. rewrite bind_run in Hup. cbn [gets] in Hup. destruct (omap _ files); [|done].
  fold todo in Hup. apply apply_all_Ok in Hup as [Hrun Hrec].
  assert (Hst : StronglySorted (key_lt mg_Version) todo) by by apply StronglySorted_key_lt_filter.
  unfold Down. rewrite bind_run. unfold fail_if. rewrite (proj2 (Z.leb_gt _ _)) by (destruct todo; [done|simpl; lia]).
  rewrite bind_run. unfold of_result. rewrite Hload, bind_run. cbn [gets]. rewrite bind_run. cbn [modify id].
  rewrite Hrec, latest_first_recorded by done. rewrite Nat2Z.id, take_app_length' by by rewrite length_reverse, length_fmap.
  eapply revert_all; [done| |by apply sorted_versions_NoDup| |done|done|done].
  - intros g Hg. split; [by apply list_elem_of_filter in Hg as [_ ?]|by apply Hdown].
  - intros g Hg. by apply list_elem_of_filter in Hg as [? _].
Qed.
End theorems.

(** ** A schema that is a stack of tables *)

#[local] Instance any_digest : Digest := {| sha256 := λ l, l |}.
Definition stack_exec (sql : string) (s : list string) : result string (list string) :=
  if has_prefix sql "CREATE " then Ok (trim_prefix sql "CREATE " :: s)
  else match s with _ :: s => Ok s | [] => Err "no table"%string end.
Definition sample_files : list dir_entry :=
  [("0001_users.down.sql", Some "DROP"); ("0001_users.up.sql", Some "CREATE users"); ("0002_chats.down.sql", Some "DROP");
   ("0002_chats.up.sql", Some "CREATE chats"); ("README.md", Some "notes"); ("archive", None)]%string.
Definition base_schema : schema (list string) := MkSchema ∅ ["base"%string].
Example files_load : label <$> (match load_files (λ s, s) sample_files with Ok l => l | Err _ => [] end) = ["0001_users"; "0002_chats"]%string.
Proof. vm_compute. reflexivity. Qed.
Lemma migrations_come_undone_witness : ∃ d',
  Up stack_exec "" (λ s, s) 5 sample_files base_schema = (Ok (), d') ∧ objects d' = ["chats"; "users"; "base"]%string ∧
  Down stack_exec (λ s, s) id sample_files 2 d' = (Ok (), base_schema).
Proof.
  destruct (Up stack_exec "" (λ s, s) 5 sample_files base_schema) as [[[]|e] d'] eqn:Hup; [|vm_compute in Hup; discriminate Hup].
  exists d'. split; [done|]. split; [vm_compute in Hup; injection Hup as <-; reflexivity|].
  destruct (load_files (λ s, s) sample_files) as [files|e] eqn:Hload; [|vm_compute in Hload; discriminate Hload].
  assert (Htodo : mg_UpSQL <$> unapplied ∅ files = ["CREATE users"; "CREATE chats"]%string ∧ mg_DownSQL <$> unapplied ∅ files = ["DROP"; "DROP"]%string).
  { vm_compute in Hload. injection Hload as <-. split; vm_compute; reflexivity. }
  destruct Htodo as [Hups Hdowns]. assert (Hlen : length (unapplied ∅ files) = 2%nat) by by rewrite <- (length_fmap mg_UpSQL), Hups.
  assert (Hd : ∀ g, g ∈ unapplied ∅ files → mg_DownSQL g = "DROP"%string).
  { intros g Hg. apply (list_elem_of_fmap_2 mg_DownSQL) in Hg. rewrite Hdowns in Hg. rewrite elem_of_cons, elem_of_cons, elem_of_nil in Hg. clear -Hg. tauto. }
  assert (Hu : ∀ g, g ∈ unapplied ∅ files → has_prefix (mg_UpSQL g) "CREATE " = true).
  { intros g Hg. apply (list_elem_of_fmap_2 mg_UpSQL) in Hg. rewrite Hups in Hg. rewrite elem_of_cons, elem_of_cons, elem_of_nil in Hg.
    by destruct Hg as [->|[->|[]]]. }
  pose proof (migrations_come_undone stack_exec "" (λ s, s) 5 sample_files files base_schema d' Hload Hup) as Hc. cbv zeta in Hc.
  cbn [schema_migrations base_schema] in Hc. rewrite Hlen in Hc. apply Hc.
  - intros g v _ [? Hv]. by rewrite lookup_empty in Hv.
  - intros g Hg. by rewrite Hd.
  - intros g s s' Hg. rewrite Hd by done. unfold stack_exec at 1. rewrite Hu by done. by intros [= <-].
  - clear -Hlen. intros Hnil. rewrite Hnil in Hlen. discriminate Hlen.
Defined.
Lemma migrations_alternate_witness : ∃ h : list (bool * Z * string),
  run_scripts stack_exec h.*2 ["base"%string] = Some ["users"; "base"]%string ∧ alternates h ∧ (∀ v, v = 1 → applied_in h v = true).
Proof.
  destruct (migrations_alternate stack_exec "" (λ s, s) ["base"%string] [OpUp 5 sample_files; OpDown sample_files 1])
    as (h & _ & Hrun & Halt & Happ).
  exists h. split; [rewrite Hrun; vm_compute; reflexivity|]. split; [exact Halt|]. intros v ->. apply Happ. vm_compute. by eexists.
Defined.
(** A file that changed after it was applied stops everything before anything runs. *)
Example edited_file_is_refused :
  let d := (Up stack_exec "" (λ s, s) 5 sample_files base_schema).2 in
  let files := [("0001_users.up.sql", Some "CREATE people"); ("0003_calls.up.sql", Some "CREATE calls")]%string in
  is_Ok (Up stack_exec "" (λ s, s) 6 files d).1 = false ∧ objects (Up stack_exec "" (λ s, s) 6 files d).2 = objects d.
Proof. vm_compute. done. Qed.
(** Two rollbacks of one step at the same time run the same down script twice. *)
Example concurrent_rollbacks_run_twice :
  let d := (Up stack_exec "" (λ s, s) 5 sample_files base_schema).2 in
  let d' := (Down stack_exec (λ s, s) (λ d, (Down stack_exec (λ s, s) id sample_files 1 d).2) sample_files 1 d).2 in
  objects d' = ["base"%string] ∧ (Applied d').*1 = [1].
Proof. vm_compute. done. Qed.
