(* ===== verification/SearchIndex.v ===== *)
(** * Search ([internal/search]: service.go, opensearch.go; [internal/worker/push.go])

    The queries, where their scope comes from, rebuilding an index, and the queue that keeps it.
    The cluster is a class: an HTTP exchange, and what its manual says of storing, removing and
    filtering.  It is near-real-time: a search may find a document that has been replaced or
    removed since, and miss one just stored; all that is relied on is that a hit was sent to the
    index at some time and meets the filters.  [stamp] writes a time as JSON does. *)

From stdpp Require Import base tactics list sorting gmap strings.
From Stdlib Require Import ZArith Lia.
From S2P Require Import Prelude Steps GoString Httpx RateLimit Ports Permissions Store Auth Social News Http.

Set Default Goal Selector "!".
Open Scope Z_scope.

Definition IndexNews : string := "news".
Definition IndexUsers : string := "users".
Definition IndexChats : string := "chats".
Definition IndexMessages : string := "messages".
Definition ScopeAll : string := "all".
Definition ScopeNews : string := "news".
Definition ScopeUsers : string := "users".
Definition ScopeChats : string := "chats".
Definition ScopeMessages : string := "messages".

Definition bytes_contain (s sub : string) : bool := contains (bytes_of s) (bytes_of sub).
Definition str (s : string) : json := JStr s.
Definition strs (l : list string) : json := JArr (JStr <$> l).
Definition obj (l : list (string * json)) : json := JObj l.
Definition field (j : json) (k : string) : option json :=
  match j with JObj l => snd <$> head (filter (λ kv, kv.1 = k) l) | _ => None end.

(** ** The cluster *)

(** [Hit]; the score is whatever number the cluster gave. *)
Record Hit := MkHit { hit_ID : string; hit_Score : json; hit_Source : json; hit_Highlight : option json }.
(** A clause of a filter: [term] and [terms] on keywords and booleans.  Such a field holds the
    values of an array one by one, a boolean may be written as text, and a keyword is compared
    as text; of other values nothing is assumed. *)
Definition scalar_text (j : json) : option string :=
  match j with
  | JStr s => Some s
  | JBool b => Some (if b then "true" else "false")%string
  | JInt n => Some (Itoa n)
  | _ => None
  end.
Fixpoint leaves (j : json) : list json := match j with JArr l => flat_map leaves l | _ => [j] end.
Definition may_equal (value stored : json) : bool :=
  match scalar_text value, scalar_text stored with Some a, Some b => bool_decide (a = b) | _, _ => true end.
Definition value_matches (value stored : json) : bool := existsb (may_equal value) (leaves stored).
Definition clause_matches (clause doc : json) : bool :=
  match clause with
  | JObj [("term"%string, JObj [(k, v)])] => from_option (value_matches v) false (field doc k)
  | JObj [("terms"%string, JObj [(k, JArr l)])] => from_option (λ x, existsb (λ v, value_matches v x) l) false (field doc k)
  | _ => true
  end.
(** The filter clauses of a query body. *)
Definition filters (body : json) : list json :=
  match (q ← field body "query"; b ← field q "bool"; field b "filter") with Some (JArr l) => l | _ => [] end.
Inductive answer := Answered (status : Z) (detail : string) | Unreachable (reason : string).
(** What comes back of a document that was sent: its numbers are read as floating-point ones, so
    only text and booleans are as they were. *)
Definition same_texts (doc source : json) : Prop :=
  ∀ k v, field doc k = Some v → (match v with JStr _ | JBool _ => True | _ => False end) → field source k = Some v.
Class OpenSearch (E : Type) := {
  os_sent : E → string → string → json → Prop;
  os_put : string → string → json → E → answer * E;
  os_delete : string → string → E → answer * E;
  os_search : string → json → E → answer * list Hit;
  os_put_sent : ∀ index id doc e i d x, os_sent (os_put index id doc e).2 i d x →
    os_sent e i d x ∨ i = index ∧ d = id ∧ x = doc;
  os_delete_sent : ∀ index id e i d x, os_sent (os_delete index id e).2 i d x → os_sent e i d x;
  os_search_hits : ∀ index body e, Forall (λ h, ∃ doc, os_sent e index (hit_ID h) doc ∧ same_texts doc (hit_Source h) ∧
    Forall (λ clause, clause_matches clause doc = true) (filters body)) (os_search index body e).2;
}.
Record SearchConfig := MkSearchConfig { IndexPfx : string; Enabled : bool }.

Section client.
Context `{OpenSearch E} (cfg : SearchConfig).
Definition indexName (name : string) : string := IndexPfx cfg +:+ "-" +:+ name.
Definition doc_path (index documentID : string) : string := "/" +:+ indexName index +:+ "/_doc/" +:+ documentID.
(** What [request] makes of an answer. *)
Definition request_outcome (method path : string) (a : answer) : result string () :=
  match a with
  | Unreachable e => Err ("search: " +:+ method +:+ " " +:+ path +:+ ": " +:+ e)
  | Answered status detail =>
      if 300 <=? status then Err ("search: " +:+ method +:+ " " +:+ path +:+ " returned " +:+ Itoa status +:+ ": " +:+ trim_space detail)
      else Ok ()
  end.
Definition Index (index documentID : string) (document : json) : prog E string () := λ e,
  if negb (Enabled cfg) then (Ok (), e)
  else let '(a, e') := os_put (indexName index) documentID document e in (request_outcome "PUT" (doc_path index documentID) a, e').
(** [strings.Contains(err.Error(), "404")] *)
Definition Client_Delete (index documentID : string) : prog E string () := λ e,
  if negb (Enabled cfg) then (Ok (), e)
  else
    let '(a, e') := os_delete (indexName index) documentID e in
    (match request_outcome "DELETE" (doc_path index documentID) a with
     | Err m => if bytes_contain m "404" then Ok () else Err m
     | Ok _ => Ok ()
     end, e').
Definition Query (index : string) (body : json) (e : E) : result string (list Hit) :=
  if negb (Enabled cfg) then Ok []
  else
    let '(a, hits) := os_search (indexName index) body e in
    match request_outcome "POST" ("/" +:+ indexName index +:+ "/_search") a with Err m => Err m | Ok _ => Ok hits end.

(** [handleSearchIndexing] *)
Record search_job := MkIndexJob { ij_index : string; ij_document_id : string; ij_document : json; ij_delete : bool }.
Definition handleSearchIndexing (payload : result string search_job) : prog E string () :=
  match payload with
  | Err e => fail ("worker: decode search job: " +:+ e)
  | Ok j =>
      if negb (Enabled cfg) then mret ()
      else if ij_delete j then Client_Delete (ij_index j) (ij_document_id j)
      else map_err (λ e, "worker: index document: " +:+ e) (Index (ij_index j) (ij_document_id j) (ij_document j))
  end.
End client.

(** ** The bodies of the queries *)

Definition field_object (names : list string) : json := obj ((λ n, (n, obj [])) <$> names).
Definition news_query (query : string) (limit : Z) : json :=
  obj [("size", JInt limit);
       ("query", obj [("bool", obj [
          ("must", JArr [obj [("multi_match", obj [("query", str query); ("fields", strs ["title^4"; "subtitle^2"; "lead^2"; "tags^2"; "body"]);
             ("type", str "best_fields"); ("fuzziness", str "AUTO"); ("prefix_length", JInt 1); ("max_expansions", JInt 50);
             ("minimum_should_match", str "70%")])]]);
          ("should", JArr [obj [("range", obj [("published_at", obj [("gte", str "now-7d"); ("boost", JInt 2)])])];
                           obj [("term", obj [("is_breaking", obj [("value", JBool true); ("boost", JInt 3)])])]])])]);
       ("highlight", obj [("fields", obj [("title", obj []); ("lead", obj [("fragment_size", JInt 160); ("number_of_fragments", JInt 1)]);
          ("body", obj [("fragment_size", JInt 160); ("number_of_fragments", JInt 2)])])])]%string.
Definition users_query (query : string) (limit : Z) : json :=
  obj [("size", JInt limit);
       ("query", obj [("multi_match", obj [("query", str query);
          ("fields", strs ["username^3"; "username.prefix^2"; "display_name^2"; "display_name.prefix"]); ("type", str "best_fields")])])]%string.
Definition chats_query (query : string) (limit : Z) : json :=
  obj [("size", JInt limit);
       ("query", obj [("bool", obj [
          ("must", JArr [obj [("multi_match", obj [("query", str query); ("fields", strs ["title^3"; "title.prefix^2"; "username^3"; "description"])])]]);
          ("filter", JArr [obj [("term", obj [("is_public", JBool true)])]])])])]%string.
Definition messages_query (chatIDs : list string) (query : string) (limit : Z) : json :=
  obj [("size", JInt limit);
       ("query", obj [("bool", obj [
          ("must", JArr [obj [("match", obj [("content", obj [("query", str query); ("fuzziness", str "AUTO")])])]]);
          ("filter", JArr [obj [("terms", obj [("chat_id", strs chatIDs)])]])])]);
       ("sort", JArr [obj [("_score", str "desc")]; obj [("created_at", str "desc")]]);
       ("highlight", obj [("fields", obj [("content", obj [("fragment_size", JInt 120)])])])]%string.

(** ** Service *)

Record search_world (E : Type) := MkSearchWorld {
  sx_db : db;
  sx_news : newsdb;
  sx_index : E;
  sx_limiter : limiter_state;
}.
Arguments MkSearchWorld {E}.
Arguments sx_db {E}.
Arguments sx_news {E}.
Arguments sx_index {E}.
Arguments sx_limiter {E}.
Record Results := MkResults {
  res_Query : string;
  res_News : list Hit;
  res_Users : list Hit;
  res_Chats : list Hit;
  res_Messages : list Hit;
  res_Total : Z;
}.

Definition maxSearchableChats : Z := 1000.
Definition maxReindexMessages : Z := 200000.
Definition searchable (c : chat_row) : bool := (if c_deleted_at c is None then true else false) && negb (bool_decide (c_type c = ChatSecret)).
(** [ORDER BY c.last_message_at DESC NULLS LAST] *)
Definition recency (t : option time) : list Z := match t with Some t => [0; - t] | None => [1; 0] end.
Definition memberChatIDs (userID : uuid) d : list string :=
  let rows := omap (λ r : uuid * uuid * member_row, c ← chats d !! r.1.1; if searchable c then Some (r.1.1, c) else None)
    (rows_where (λ k m, bool_decide (k.2 = userID) && (if m_left_at m is None then true else false)) (chat_members d)) in
  (λ r : uuid * chat_row, uuid_String r.1) <$> take (Z.to_nat maxSearchableChats) (order_by_keys (λ r, recency (c_last_message_at r.2)) rows).

Section service.
Context `{OpenSearch E} (cfg : SearchConfig) (stamp : time → string).
Abbreviation handler := (prog (search_world E) Error) (only parsing).

(** A cluster that fails is one that finds nothing. *)
Definition run (index : string) (body : json) : handler (list Hit) := λ w,
  (Ok match Query cfg index body (sx_index w) with Ok hits => hits | Err _ => [] end, w).
Definition searchMessages (userID : uuid) (query : string) (limit : Z) : handler (list Hit) :=
  chatIDs ← gets (λ w, memberChatIDs userID (sx_db w));
  if bool_decide (chatIDs = []) then mret [] else run IndexMessages (messages_query chatIDs query limit).
Definition allow_search (now : time) (u : uuid) : handler () := λ w,
  let '((res, _), l) := allow_rule SearchPerUser (uuid_String u) now (sx_limiter w) in
  let w := MkSearchWorld (sx_db w) (sx_news w) (sx_index w) l in
  if Allowed res then (Ok (), w) else (Err (RateLimited (RateLimit.RetryAfter res / second)), w).
Definition scoped (scope which : string) (m : handler (list Hit)) : handler (list Hit) :=
  if bool_decide (scope ∈ [ScopeAll; which]) then m else mret [].
Definition Search (now : time) (userID : uuid) (query scope : string) (limit : Z) : handler Results :=
  let query := trim_space query in
  fail_if (rune_count query <? 2) (WithField (Validation "Search for at least two characters") "q" "at least 2 characters");;
  let limit := if (limit <=? 0) || (50 <? limit) then 20 else limit in
  allow_search now userID;;
  if negb (Enabled cfg) then mret (MkResults query [] [] [] [] 0)
  else
    news ← scoped scope ScopeNews (run IndexNews (news_query query limit));
    users ← scoped scope ScopeUsers (run IndexUsers (users_query query limit));
    chats ← scoped scope ScopeChats (run IndexChats (chats_query query limit));
    messages ← scoped scope ScopeMessages (searchMessages userID query limit);
    mret (MkResults query news users chats messages (Z.of_nat (length news + length users + length chats + length messages))).

(** ** Rebuilding *)

Definition doc_time (t : time) : json := JStr (stamp t).
Definition doc_id (u : uuid) : json := JStr (uuid_String u).
Definition doc_opt {A} (f : A → json) (o : option A) : json := from_option f JNull o.
Definition message_document (id : uuid) (r : message_row) : json :=
  obj [("id", doc_id id); ("chat_id", doc_id (r_chat_id r)); ("sender_id", doc_opt doc_id (r_sender_id r)); ("content", str (r_content r));
       ("seq", JInt (r_seq r)); ("created_at", doc_time (r_created_at r))]%string.
(** Documents stored one after the other; how many there were. *)
Definition index_all (index : string) (l : list (string * json)) : handler Z := λ w,
  let r := for_each l (λ doc, Index cfg index doc.1 doc.2) (sx_index w) in
  let w := MkSearchWorld (sx_db w) (sx_news w) r.2 (sx_limiter w) in
  (match r.1 with Ok _ => Ok (Z.of_nat (length l)) | Err _ => Err Internal end, w).
Definition message_documents d : list (string * json) :=
  let live r := (if r_deleted_at r is None then true else false) && negb (bool_decide (r_content r = ""%string))
                && from_option searchable false (chats d !! r_chat_id r) in
  (λ r : uuid * message_row, (uuid_String r.1, message_document r.1 r.2)) <$>
    take (Z.to_nat maxReindexMessages) (order_by_desc (λ r, r_created_at r.2) (rows_where (λ _ r, live r) (messages d))).
Definition tag_names (id : uuid) (d : newsdb) : list string :=
  tg_name <$> omap (λ k : uuid * uuid, if bool_decide (k.1 = id) then tags d !! k.2 else None) (elements (article_tags d)).
Definition article_document (d : newsdb) (id : uuid) (a : article_row) : json :=
  obj [("id", doc_id id); ("slug", str (na_slug a)); ("locale", str (na_locale a)); ("title", str (na_title a)); ("subtitle", str (na_subtitle a));
       ("lead", str (na_lead a)); ("body", str (na_body a)); ("category_id", doc_opt doc_id (na_category a)); ("tags", strs (tag_names id d));
       ("is_breaking", JBool (na_is_breaking a)); ("published_at", doc_opt doc_time (na_published_at a)); ("view_count", JInt (na_view_count a))]%string.
Definition article_documents (d : newsdb) : list (string * json) :=
  (λ r : uuid * article_row, (uuid_String r.1, article_document d r.1 r.2)) <$> rows_where (λ _ a, bool_decide (na_status a = StatusPublished)) (articles d).
Definition user_documents (g : socialdb) : list (string * json) :=
  (λ r : uuid * account_row, (uuid_String r.1,
     obj [("id", doc_id r.1); ("username", str (default "" (ac_username r.2)));
          ("display_name", str (from_option pr_display_name "" (profiles g !! r.1))); ("about", str (from_option pr_about "" (profiles g !! r.1)))]))%string <$>
    rows_where (λ _ a, live_account a && bool_decide (ac_status a = "active"%string) && (if ac_username a is Some _ then true else false)) (accounts g).
Definition chat_document (id : uuid) (c : chat_row) : json :=
  obj [("id", doc_id id); ("type", str (c_type c)); ("title", str (c_title c)); ("description", str (c_description c));
       ("username", str (default "" (c_username c))); ("member_count", JInt (c_member_count c)); ("is_public", JBool (c_is_public c))]%string.
Definition chat_documents d : list (string * json) :=
  (λ r : uuid * chat_row, (uuid_String r.1, chat_document r.1 r.2)) <$>
    rows_where (λ _ c, (if c_deleted_at c is None then true else false) && c_is_public c) (chats d).
Definition Reindex (index : string) : handler Z :=
  if negb (Enabled cfg) then mret 0
  else if bool_decide (index = IndexNews) then (l ← gets (λ w, article_documents (sx_news w)); index_all IndexNews l)
  else if bool_decide (index = IndexUsers) then (l ← gets (λ w, user_documents (nw_graph (sx_news w))); index_all IndexUsers l)
  else if bool_decide (index = IndexChats) then (l ← gets (λ w, chat_documents (sx_db w)); index_all IndexChats l)
  else if bool_decide (index = IndexMessages) then (l ← gets (λ w, message_documents (sx_db w)); index_all IndexMessages l)
  else fail (WithField (Validation "Unsupported index") "index" "must be news, users, chats or messages").

(** ** Handlers *)

Definition handle_search (now : time) (p : option Principal) (q scope limit : string) : handler Results :=
  principal ← MustPrincipal p;
  Search now (prUserID principal) q (if bool_decide (scope = ""%string) then ScopeAll else scope) (atoi_value limit).
Definition handle_reindex (index : string) : handler Z := Reindex index.

(** ** What the program sends *)

(** The jobs [internal/messaging] and [internal/news] publish: a message as it is sent or
    edited, its removal, an article as it is published. *)
Definition message_job (id : uuid) (r : message_row) : search_job := MkIndexJob IndexMessages (uuid_String id) (message_document id r) false.
Definition removal_job (id : uuid) : search_job := MkIndexJob IndexMessages (uuid_String id) JNull true.
Definition article_job (id : uuid) (article : json) : search_job := MkIndexJob IndexNews (uuid_String id) article false.
Definition published (payload : result string search_job) : Prop :=
  match payload with
  | Ok j => (∃ id r, j = message_job id r) ∨ (∃ id, j = removal_job id) ∨ ∃ id article, j = article_job id article
  | Err _ => True
  end.
(** What happens to the cluster: an index is rebuilt from the tables as they are then, a job is
    taken from the queue, again perhaps, or the cluster loses or refreshes what it holds. *)
Inductive index_op :=
| OpReindex (index : string) (d : db) (n : newsdb) (l : limiter_state)
| OpIndexJob (payload : result string search_job)
| OpCluster (f : E → E).
Definition run_index (o : index_op) (e : E) : E :=
  match o with
  | OpReindex index d n l => sx_index (Reindex index (MkSearchWorld d n e l)).2
  | OpIndexJob payload => (handleSearchIndexing cfg payload e).2
  | OpCluster f => f e
  end.
Definition index_op_ok (o : index_op) : Prop :=
  match o with
  | OpIndexJob payload => published payload
  | OpCluster f => ∀ e i d x, os_sent (f e) i d x → os_sent e i d x
  | OpReindex _ _ _ _ => True
  end.
End service.

(** ** Theorems *)

Lemma elem_of_memberChatIDs userID d text : text ∈ memberChatIDs userID d →
  ∃ chat c m, text = uuid_String chat ∧ chat_members d !! (chat, userID) = Some m ∧ m_left_at m = None ∧
    chats d !! chat = Some c ∧ c_deleted_at c = None ∧ c_type c ≠ ChatSecret.
Proof.
  unfold memberChatIDs. cbv zeta. intros ([chat c] & -> & Hin)%list_elem_of_fmap. apply elem_of_take in Hin as (i & Hi & _).
  apply list_elem_of_lookup_2 in Hi. rewrite elem_of_order_by_keys in Hi. apply list_elem_of_omap in Hi as ([[k u] m] & Hrow & Hc).
  apply elem_of_rows_where in Hrow as [Hm [Hu Hleft]%andb_true_iff]. simpl in Hu, Hleft, Hc. apply bool_decide_eq_true in Hu. subst u.
  destruct (chats d !! k) as [c'|] eqn:Hk; [|done]. simpl in Hc. destruct (searchable c') eqn:Hs; [|done]. injection Hc as -> ->.
  unfold searchable in Hs. apply andb_true_iff in Hs as [Hdel Hsec]. apply negb_true_iff, bool_decide_eq_false in Hsec.
  exists chat, c, m. destruct (m_left_at m); [done|]. destruct (c_deleted_at c); [done|]. done.
Qed.

Section theorems.
Context `{OpenSearch E} (cfg : SearchConfig) (stamp : time → string).

Abbreviation found index e h := (∃ doc, os_sent e (indexName cfg index) (hit_ID h) doc ∧ same_texts doc (hit_Source h)) (only parsing).
Lemma Query_hits index body (e : E) hits : Query cfg index body e = Ok hits →
  Forall (λ h, Enabled cfg = true → ∃ doc, os_sent e (indexName cfg index) (hit_ID h) doc ∧ same_texts doc (hit_Source h) ∧
    Forall (λ clause, clause_matches clause doc = true) (filters body)) hits.
Proof.
  unfold Query. destruct (Enabled cfg); simpl; [|intros [= <-]; constructor].
  pose proof (os_search_hits (indexName cfg index) body e) as Hall. destruct (os_search _ body e) as [a hits']. simpl in Hall.
  destruct (request_outcome _ _ a); [|done]. intros [= <-]. eapply Forall_impl; [exact Hall|]. intros h Hh _. exact Hh.
Qed.
Lemma run_hits index body w : Enabled cfg = true →
  ∃ hits, run cfg index body w = (Ok hits, w) ∧ Forall (λ h, ∃ doc, os_sent (sx_index w) (indexName cfg index) (hit_ID h) doc ∧
    same_texts doc (hit_Source h) ∧ Forall (λ clause, clause_matches clause doc = true) (filters body)) hits.
Proof.
  intros He. unfold run. destruct (Query cfg index body (sx_index w)) as [hits|m] eqn:Hq; eexists; (split; [reflexivity|]); [|constructor].
  apply Query_hits in Hq. eapply Forall_impl; [exact Hq|]. intros h Hh. by apply Hh.
Qed.
Lemma run_state index body w hits w' : run cfg index body w = (Ok hits, w') → w' = w.
Proof. unfold run. by intros [= _ <-]. Qed.
Lemma scoped_Ok scope which m w r w' : scoped (E := E) scope which m w = (Ok r, w') → r = [] ∧ w' = w ∨ m w = (Ok r, w').
Proof. unfold scoped. case_bool_decide; [by right|]. intros [= <- <-]. by left. Qed.
Lemma allow_search_Ok now u w x w' : allow_search (E := E) now u w = (Ok x, w') → sx_db w' = sx_db w ∧ sx_index w' = sx_index w.
Proof. unfold allow_search. destruct (allow_rule _ _ _ _) as [[res e] l]. destruct (Allowed res); [|done]. by intros [= _ <-]. Qed.

(** What the indices of messages and chats were ever sent. *)
Definition ours (e : E) : Prop :=
  (∀ id doc, os_sent e (indexName cfg IndexMessages) id doc → ∃ mid m, id = uuid_String mid ∧ doc = message_document stamp mid m) ∧
  (∀ id doc, os_sent e (indexName cfg IndexChats) id doc → ∃ cid c, id = uuid_String cid ∧ doc = chat_document cid c ∧ c_is_public c = true).
Definition allowed_document (index : string) (doc : string * json) : Prop :=
  (index = IndexMessages → ∃ mid m, doc = (uuid_String mid, message_document stamp mid m)) ∧
  (index = IndexChats → ∃ cid c, doc = (uuid_String cid, chat_document cid c) ∧ c_is_public c = true).
Lemma indexName_inj a b : indexName cfg a = indexName cfg b → a = b.
Proof. unfold indexName. intros Heq. by do 2 apply (inj (String.append _)) in Heq. Qed.
Lemma Index_ours index id doc (e : E) : allowed_document index (id, doc) → ours e → ours (Index cfg index id doc e).2.
Proof.
  intros [Hm Hc] [Im Ic]. unfold Index. destruct (Enabled cfg); [|by split]. simpl.
  pose proof (os_put_sent (indexName cfg index) id doc e) as Hput. destruct (os_put (indexName cfg index) id doc e) as [a e']. simpl in *.
  split; intros d x Hx; destruct (Hput _ _ _ Hx) as [Hold|(Hi%indexName_inj & -> & ->)]; [by apply Im| |by apply Ic|].
  - destruct (Hm (eq_sym Hi)) as (mid & m & [= -> ->]). by eauto.
  - destruct (Hc (eq_sym Hi)) as (cid & c & [= -> ->] & Hpub). by eauto.
Qed.
Lemma Client_Delete_ours index id (e : E) : ours e → ours (Client_Delete cfg index id e).2.
Proof.
  intros [Im Ic]. unfold Client_Delete. destruct (Enabled cfg); [|by split]. simpl.
  pose proof (os_delete_sent (indexName cfg index) id e) as Hdel. destruct (os_delete (indexName cfg index) id e) as [a e']. simpl in *.
  split; intros d x Hx; [by apply Im, Hdel|by apply Ic, Hdel].
Qed.
Lemma for_each_ours index l (e : E) : Forall (allowed_document index) l → ours e → ours (for_each l (λ doc, Index cfg index doc.1 doc.2) e).2.
Proof.
  intros Hl. revert e. induction Hl as [|[id doc] l Hdoc _ IH]; intros e He; [done|]. simpl. rewrite bind_run.
  pose proof (Index_ours index id doc e Hdoc He) as He'. destruct (Index cfg index id doc e) as [[[]|m] e']; [by apply IH|done].
Qed.
Lemma run_index_ours o e : index_op_ok stamp o → ours e → ours (run_index cfg stamp o e).
Proof.
  intros Ho He. destruct o as [index d n l|payload|f]; simpl.
  - unfold Reindex. destruct (Enabled cfg); [|done]. cbn [negb].
    assert (Hall : ∀ name docs, Forall (allowed_document name) docs →
      ours (sx_index (index_all cfg name docs (MkSearchWorld d n e l)).2)) by (intros name docs Hdocs; by apply for_each_ours).
    repeat case_bool_decide; [..|done]; rewrite bind_run; apply Hall; apply Forall_forall; intros doc Hin; split; intros Hname; try done.
    + apply list_elem_of_fmap in Hin as ([cid c] & -> & Hc). apply elem_of_rows_where in Hc as [_ [_ Hpub]%andb_true_iff]. by eauto.
    + apply list_elem_of_fmap in Hin as ([mid m] & -> & _). by eauto.
  - unfold handleSearchIndexing. destruct payload as [j|m]; [|done]. destruct (Enabled cfg) eqn:Hen; [|done]. simpl. simpl in Ho.
    destruct Ho as [(id & m & ->)|[(id & ->)|(id & article & ->)]]; simpl; [|by apply Client_Delete_ours|].
    + unfold map_err, catch. pose proof (Index_ours IndexMessages (uuid_String id) (message_document stamp id m) e) as Hk.
      destruct (Index _ _ _ _ e) as [[[]|x] e']; apply Hk; try done; split; intros Hname; try done; by eauto.
    + unfold map_err, catch. pose proof (Index_ours IndexNews (uuid_String id) article e) as Hk.
      destruct (Index _ _ _ _ e) as [[[]|x] e']; apply Hk; done.
  - destruct He as [Im Ic]. split; intros d x Hx; [by apply Im, Ho|by apply Ic, Ho].
Qed.

(** C36: Whose words a search can bring up.  The cluster starts without messages and chats; whatever
    indices are rebuilt, and whatever jobs the messaging and news services publish are worked
    off, in any order, more than once or not at all, and however stale the cluster's answers
    are: a message that is found was sent to the index as the message of a chat the caller is a
    member of now, as the tables say and not the index, which is not deleted and not a secret
    chat; a chat that is found was public when it was sent; and someone who is in no such chat
    finds no message. *)
Theorem search_stays_in_ones_chats (e0 : E) ops now userID query scope limit w r w' :
  (∀ index id doc, ¬ os_sent e0 (indexName cfg index) id doc) → Forall (index_op_ok stamp) ops →
  sx_index w = foldl (λ e o, run_index cfg stamp o e) e0 ops →
  Search cfg now userID query scope limit w = (Ok r, w') →
  Forall (λ h, ∃ mid msg chat c m, hit_ID h = uuid_String mid ∧ same_texts (message_document stamp mid msg) (hit_Source h) ∧
    uuid_String chat = uuid_String (r_chat_id msg) ∧ chat_members (sx_db w) !! (chat, userID) = Some m ∧
      m_left_at m = None ∧ chats (sx_db w) !! chat = Some c ∧ c_deleted_at c = None ∧ c_type c ≠ ChatSecret) (res_Messages r) ∧
  Forall (λ h, ∃ cid c, hit_ID h = uuid_String cid ∧ same_texts (chat_document cid c) (hit_Source h) ∧ c_is_public c = true) (res_Chats r) ∧
  (memberChatIDs userID (sx_db w) = [] → res_Messages r = []).
Proof.
  intros Hnothing Hops Hindex. assert (Hours : ours (sx_index w)).
  { rewrite Hindex. clear Hindex. assert (Hbase : ours e0) by (split; intros id doc Hs; by destruct (Hnothing _ id doc Hs)).
    clear Hnothing. revert e0 Hbase. induction Hops as [|o ops Ho _ IH]; intros e0 Hbase; [done|]. simpl. by apply IH, run_index_ours. }
  clear Hindex Hnothing. destruct Hours as [Im Ic].
  unfold Search. cbv zeta. intros Hr. apply bind_Ok_inv in Hr as (? & w1 & Hf & Hr). apply fail_if_Ok_inv in Hf as [_ ->].
  apply bind_Ok_inv in Hr as (? & w1 & Ha & Hr). apply allow_search_Ok in Ha as [Hdb Hix]. destruct (Enabled cfg) eqn:He; simpl in Hr.
  2:{ injection Hr as <- _. repeat split; constructor. }
  apply bind_Ok_inv in Hr as (news & w2 & Hn & Hr). assert (w2 = w1) as ->.
  { apply scoped_Ok in Hn as [[_ ->]|Hn]; [done|]. by apply run_state in Hn. }
  apply bind_Ok_inv in Hr as (found & w2 & Hn' & Hr). assert (w2 = w1) as ->.
  { apply scoped_Ok in Hn' as [[_ ->]|Hn']; [done|]. by apply run_state in Hn'. }
  clear Hn Hn'. set (lim := if (limit <=? 0) || (50 <? limit) then 20 else limit) in *. rewrite <- Hix in Im, Ic.
  apply bind_Ok_inv in Hr as (rooms & w2 & Hrooms & Hr).
  assert (w2 = w1 ∧ Forall (λ h, ∃ cid c, hit_ID h = uuid_String cid ∧ same_texts (chat_document cid c) (hit_Source h) ∧ c_is_public c = true) rooms)
    as [-> Hrooms'].
  { apply scoped_Ok in Hrooms as [[-> ->]|Hrun]; [split; [done|constructor]|].
    destruct (run_hits IndexChats (chats_query (trim_space query) lim) w1 He) as (hits & Heq & Hall). rewrite Heq in Hrun. injection Hrun as -> <-. split; [done|].
    eapply Forall_impl; [exact Hall|]. intros h (doc & Hsent & Hsame & _). destruct (Ic _ _ Hsent) as (cid & c & Hid & -> & Hpub). by exists cid, c. }
  clear Hrooms. apply bind_Ok_inv in Hr as (found' & w2 & Hm & Hr). injection Hr as <- _. cbn [res_Messages res_Chats].
  rewrite <- Hdb. split; [|split; [exact Hrooms'|]].
  - apply scoped_Ok in Hm as [[-> _]|Hm]; [constructor|]. unfold searchMessages in Hm. rewrite bind_run in Hm. cbn [gets] in Hm.
    case_bool_decide as Hnone; [injection Hm as <- _; constructor|].
    destruct (run_hits IndexMessages (messages_query (memberChatIDs userID (sx_db w1)) (trim_space query) lim) w1 He) as (hits & Heq & Hall).
    rewrite Heq in Hm. injection Hm as -> _. eapply Forall_impl; [exact Hall|]. intros h (doc & Hsent & Hsame & Hc).
    destruct (Im _ _ Hsent) as (mid & msg & Hid & ->). apply Forall_cons in Hc as [Hc _].
    unfold clause_matches in Hc. cbn [from_option field message_document obj] in Hc.
    change (existsb (λ v, value_matches v (doc_id (r_chat_id msg))) (JStr <$> memberChatIDs userID (sx_db w1)) = true) in Hc.
    apply existsb_exists in Hc as (j & Hj & Hmatch). apply list_elem_of_In, list_elem_of_fmap in Hj as (text & -> & Hin).
    unfold value_matches, may_equal in Hmatch. simpl in Hmatch. rewrite orb_false_r in Hmatch. apply bool_decide_eq_true in Hmatch.
    apply elem_of_memberChatIDs in Hin as (chat & c & m & Htext & Hrest). exists mid, msg, chat, c, m. split; [done|]. split; [done|].
    split; [by rewrite <- Hmatch|done].
  - intros Hnone. apply scoped_Ok in Hm as [[-> _]|Hm]; [done|]. unfold searchMessages in Hm. rewrite bind_run in Hm. cbn [gets] in Hm.
    rewrite Hnone, bool_decide_true in Hm by done. by injection Hm.
Qed.
End theorems.

(** ** A small cluster *)

Record cluster := MkCluster { cl_docs : gmap (string * string) json; cl_up : bool }.
#[local] Program Instance small_cluster : OpenSearch cluster := {|
  os_sent c index id doc := cl_docs c !! (index, id) = Some doc;
  os_put index id doc c := if cl_up c then (Answered 201 "", MkCluster (<[(index, id) := doc]> (cl_docs c)) true) else (Answered 503 "", c);
  os_delete index id c := if cl_up c then (Answered 200 "", MkCluster (delete (index, id) (cl_docs c)) true) else (Answered 503 "", c);
  os_search index body c := (Answered 200 "",
    (λ r : string * string * json, MkHit r.1.2 (JInt 1) r.2 None) <$>
      rows_where (λ k doc, bool_decide (k.1 = index) && forallb (λ clause, clause_matches clause doc) (filters body)) (cl_docs c));
|}.
Next Obligation.
  intros index id doc c i d x. simpl. destruct (cl_up c); simpl; intros Hk; [|by left].
  apply lookup_insert_Some in Hk as [[[= <- <-] <-]|[_ Hk]]; [by right|by left].
Qed.
Next Obligation.
  intros index id c i d x. simpl. destruct (cl_up c); simpl; intros Hk; [|done]. by apply lookup_delete_Some in Hk as [_ Hk].
Qed.
Next Obligation.
  intros index body c. simpl. apply Forall_fmap, Forall_forall. intros [[index' id] doc] [Hd Hc]%elem_of_rows_where.
  simpl in Hc. apply andb_true_iff in Hc as [Hi%bool_decide_eq_true Hf]. subst index'. simpl. exists doc. split; [done|]. split; [by intros k v|].
  apply Forall_forall. intros clause Hin. rewrite forallb_forall in Hf. by apply Hf, list_elem_of_In.
Qed.
Definition sample_search : SearchConfig := MkSearchConfig "sobh" true.
Definition empty_cluster : cluster := MkCluster ∅ true.
Definition clock_text (t : time) : string := Itoa t.
Definition said (content : string) (chat : uuid) : json := obj [("chat_id", doc_id chat); ("content", str content)]%string.
Definition sample_message (chat : uuid) (text : string) : message_row :=
  MkMessageRow chat 1 (Some 7%N) 1 "text" text JNull JNull None None None None "" 0 false false 0 None None None None None "".
Definition sample_ops : list (index_op (E := cluster)) :=
  [OpIndexJob (Ok (message_job clock_text 1 (sample_message 5 "hello"))); OpIndexJob (Ok (message_job clock_text 2 (sample_message 6 "hello")))].
Definition sample_db : db :=
  with_chats {[5%N := MkChat "group" "" "" None None None 1 None None 2 false 0 None; 6%N := MkChat "group" "" "" None None None 1 None None 2 false 0 None]}
    (with_chat_members {[(5, 7)%N := MkMember "member" None "" 0 0 0 0 "" 0 None None None None 0]} empty_db).
Definition no_people : socialdb := MkSocialDb ∅ ∅ ∅ ∅ ∅ ∅ ∅.
Definition sample_search_world : search_world cluster :=
  MkSearchWorld sample_db (MkNewsDb no_people ∅ ∅ ∅ ∅ ∅ ∅ ∅ ∅ ∅ ∅ [] ∅)
    (foldl (λ e o, run_index sample_search clock_text o e) empty_cluster sample_ops) (MkLimiterState ∅ true true (NewRules sample_limits) 0).
Lemma search_stays_in_ones_chats_witness : ∃ r w',
  Search sample_search 0 7 "hello" ScopeAll 20 sample_search_world = (Ok r, w') ∧ hit_ID <$> res_Messages r = [uuid_String 1] ∧
  Forall (λ h, ∃ mid msg, hit_ID h = uuid_String mid ∧ same_texts (message_document clock_text mid msg) (hit_Source h)) (res_Messages r).
Proof.
  assert (Hids : match (Search sample_search 0 7 "hello" ScopeAll 20 sample_search_world).1 with
    Ok r => hit_ID <$> res_Messages r | Err _ => [] end = [uuid_String 1]) by (vm_compute; reflexivity).
  destruct (Search sample_search 0 7 "hello" ScopeAll 20 sample_search_world) as [[r|e] w'] eqn:Hr; [|discriminate Hids].
  exists r, w'. split; [done|]. split.
  - exact Hids.
  - destruct (search_stays_in_ones_chats sample_search clock_text empty_cluster sample_ops 0 7 "hello" ScopeAll 20 sample_search_world r w')
      as (Hm & _ & _); [intros index id doc Hd; discriminate Hd| |reflexivity|exact Hr|].
    + do 2 (constructor; [left; do 2 eexists; reflexivity|]). constructor.
    + eapply Forall_impl; [exact Hm|]. intros h (mid & msg & chat & c & m & Hid & Hs & _).
      exists mid, msg. split; [exact Hid|exact Hs].
Defined.
(** The removal of a document whose identifier contains 404 is taken as done when it failed. *)
Example failed_removal_is_not_retried :
  let down := MkCluster {[("sobh-messages", "4f4041")%string := said "secret" 5]} false in
  let r := handleSearchIndexing sample_search (Ok (MkIndexJob "messages" "4f4041" JNull true)) down in
  r.1 = Ok () ∧ cl_docs r.2 !! ("sobh-messages", "4f4041")%string = Some (said "secret" 5).
Proof. vm_compute. done. Qed.
(** A job that stores a message, delivered again after the one that removes it, brings it back. *)
Example late_job_restores_a_removed_message :
  let send := Ok (message_job clock_text 3 (sample_message 5 "secret")) in
  let e := foldl (λ e j, (handleSearchIndexing sample_search j e).2) empty_cluster [send; Ok (removal_job 3); send] in
  cl_docs e !! ("sobh-messages"%string, uuid_String 3) = Some (message_document clock_text 3 (sample_message 5 "secret")).
Proof. vm_compute. done. Qed.
