(* ===== verification/Maintenance.v ===== *)
(** * Housekeeping ([internal/worker/worker.go])

    The pass that runs every quarter of an hour, its sweeps over the tables of identity and
    messaging, the loops around it and the analytics job.  The sweeps of the other components are
    modelled there and enter the pass by name.  Proved here: a message past the timer of its chat
    is swept however many others wait before it, and what a sweep leaves of it. *)

From stdpp Require Import base tactics list sorting relations gmap strings.
From Stdlib Require Import ZArith Lia.
From S2P Require Import Prelude Steps GoString Httpx Permissions Store ChatContext EventLog MessageRepo MessageTheory RateLimit Ports Payloads MessagingService Social Organise AuthStore.

Set Default Goal Selector "!".
Open Scope Z_scope.

Definition maintenanceInterval : Z := 15 * minute.
Definition autoDeleteBatch : Z := 5000.
Definition schedulerInterval : Z := 15 * second.
Definition schedulerBatch : Z := 200.

(** ** Sweeps *)

(** The sweeps of both kinds of code: a code is dropped a day after it expired. *)
Definition pruneOTPChallenges (now : time) : authdb → Z * authdb := DeleteExpiredOTPChallenges now (24 * hour).
Definition pruneEmailChallenges (now : time) (d : authdb) : Z * authdb :=
  let expired (_ : uuid) (e : email_row) := e_expires_at e <? now - 24 * hour in
  (count_where expired (email_challenges d), with_email_challenges (delete_where expired (email_challenges d)) d).
Definition pruneSyncEvents (now : time) : db → Z * db := PruneEvents now (7 * 24 * hour).
(** [turn_credentials]: when each expires *)
Definition pruneTURNCredentials (now : time) (turn : gmap uuid time) : Z * gmap uuid time :=
  let expired (_ : uuid) (t : time) := t <? now - hour in
  (count_where expired turn, delete_where expired turn).

Definition not_deleted (r : message_row) : bool := if r_deleted_at r is None then true else false.
(** A message past the timer of its chat. *)
Definition outlived (now : time) (d : db) (_ : uuid) (r : message_row) : bool :=
  match chat_settings d !! r_chat_id r with
  | Some s => (0 <? s_auto_delete_seconds s) && not_deleted r && (r_created_at r <? now - s_auto_delete_seconds s * second)
  | None => false
  end.
(** The subquery: the oldest first. *)
Definition auto_delete_batch (now : time) (d : db) : list uuid :=
  (take (Z.to_nat autoDeleteBatch) (order_by (λ p, r_created_at p.2) (rows_where (outlived now d) (messages d)))).*1.
Definition sweep_message (now : time) (r : message_row) : message_row :=
  with_r_reply_markup None (with_r_payload (JObj []) (with_r_entities (JArr []) (with_r_content ""
    (with_r_deleted_at (Some now) r)))).
Definition swept (now : time) (d : db) (k : uuid) (r : message_row) : bool :=
  outlived now d k r && bool_decide (k ∈ auto_delete_batch now d).
Definition autoDeleteMessages (now : time) (d : db) : Z * db :=
  (count_where (swept now d) (messages d),
   with_messages (update_where (swept now d) (λ _, sweep_message now) (messages d)) d).

(** ** The pass *)

(** The database as the worker sees it: the tables of identity, which hold those of messaging,
    the TURN credentials, and what other components keep. *)
Record worker_db (R : Type) := MkWorkerDb {
  wk_identity : authdb;
  wk_turn : gmap uuid time;
  wk_rest : R;
}.
Arguments MkWorkerDb {R}.
Arguments wk_identity {R}.
Arguments wk_turn {R}.
Arguments wk_rest {R}.
Definition wk_db {R} (w : worker_db R) : db := core (wk_identity w).
(** A sweep that fails has no count. *)
Definition sweep (R : Type) : Type := worker_db R → option Z * worker_db R.
Definition on_identity {R} (f : authdb → Z * authdb) : sweep R := λ w,
  let r := f (wk_identity w) in (Some r.1, MkWorkerDb r.2 (wk_turn w) (wk_rest w)).
Definition on_messaging {R} (f : db → Z * db) : sweep R :=
  on_identity (λ a, let r := f (core a) in (r.1, with_core r.2 a)).
Definition on_turn {R} (f : gmap uuid time → Z * gmap uuid time) : sweep R := λ w,
  let r := f (wk_turn w) in (Some r.1, MkWorkerDb (wk_identity w) r.2 (wk_rest w)).

Section pass.
Context {R : Type} (elsewhere : string → sweep R).

Definition maintenance_tasks (now : time) : list (string * sweep R) := [
  ("expired_otp_challenges", on_identity (pruneOTPChallenges now));
  ("expired_email_challenges", on_identity (pruneEmailChallenges now));
  ("consumed_sync_events", on_messaging (pruneSyncEvents now));
  ("expired_stories", elsewhere "expired_stories");
  ("auto_deleted_messages", on_messaging (autoDeleteMessages now));
  ("abandoned_uploads", elsewhere "abandoned_uploads");
  ("released_upload_parts", elsewhere "released_upload_parts");
  ("stranded_media", elsewhere "stranded_media");
  ("expired_turn_credentials", on_turn (pruneTURNCredentials now));
  ("decayed_spam_scores", elsewhere "decayed_spam_scores");
  ("data_requests", elsewhere "data_requests");
  ("scheduled_articles", elsewhere "scheduled_articles")]%string.
(** A task whose statement is lost, with the connection or to the deadline of five minutes,
    writes nothing; one that fails is only logged. *)
Definition run_sweep (lost : string → bool) (w : worker_db R) (task : string * sweep R) : worker_db R :=
  if lost task.1 then w else (task.2 w).2.
Definition runMaintenance (now : time) (lost : string → bool) (w : worker_db R) : worker_db R :=
  foldl (run_sweep lost) w (maintenance_tasks now).
Definition handleCleanup := runMaintenance.

(** What wakes a loop of the worker. *)
Inductive wakeup := Ticked (now : time) (lost : string → bool) | Stopped.
Fixpoint each_tick {W} (act : time → (string → bool) → W → W) (events : list wakeup) (w : W) : W :=
  match events with
  | [] | Stopped :: _ => w
  | Ticked now lost :: events => each_tick act events (act now lost w)
  end.
(** One pass at start-up, then one a tick. *)
Definition maintenanceLoop (start : time) (lost : string → bool) (events : list wakeup) (w : worker_db R) : worker_db R :=
  each_tick runMaintenance events (runMaintenance start lost w).
End pass.
(** The publisher: which posts other workers hold locked, and what each send meets, is given
    tick by tick. *)
Definition schedulerLoop `{SpamGuard G} `{MessageLimiter L} `{PayloadCodec} (locked : time → gset uuid)
    (envs : time → nat → publish_env G L) (events : list wakeup) (w : org_world G L) : org_world G L :=
  each_tick (λ now _ w, (PublishDue now (locked now) (envs now) schedulerBatch w).2) events w.

(** ** Analytics *)

(** [$1::date]; a day is a number of days *)
Class DateInput := { date_in : string → option Z }.
Record analytics_job := MkAnalyticsJob { aj_day : string; aj_metric : string; aj_dimension : string; aj_value : Z }.
Inductive analytics_error := AnalyticsDecode | AnalyticsDate | AnalyticsRange.
(** [None] is a payload that does not decode; a counter is a BIGINT. *)
Definition handleAnalytics `{DateInput} (payload : option analytics_job)
    : prog (gmap (Z * string * string) Z) analytics_error () := λ t,
  match payload with
  | None => (Err AnalyticsDecode, t)
  | Some j =>
      match date_in (aj_day j) with
      | None => (Err AnalyticsDate, t)
      | Some day =>
          let key := (day, aj_metric j, aj_dimension j) in
          let total := default 0 (t !! key) + aj_value j in
          if (- 2 ^ 63 <=? total) && (total <? 2 ^ 63) then (Ok (), <[key := total]> t) else (Err AnalyticsRange, t)
      end
  end.

(** ** What a sweep does *)

Definition waits (c : time) (_ : uuid) (r : message_row) : bool := not_deleted r && (r_created_at r <=? c).
(** The messages that a sweep may take before one sent at [c]. *)
Definition backlog (c : time) (d : db) : Z := count_where (waits c) (messages d).

Lemma not_deleted_true r : not_deleted r = true ↔ r_deleted_at r = None.
Proof. unfold not_deleted. by destruct (r_deleted_at r). Qed.
Lemma outlived_true now d k r : outlived now d k r = true ↔
  ∃ s, chat_settings d !! r_chat_id r = Some s ∧ 0 < s_auto_delete_seconds s ∧ r_deleted_at r = None ∧
    r_created_at r + s_auto_delete_seconds s * second < now.
Proof.
  unfold outlived. destruct (chat_settings d !! r_chat_id r) as [s|]; [|by split; [|intros (? & ? & _)]].
  rewrite !andb_true_iff, not_deleted_true, !Z.ltb_lt. split.
  - intros [[H1 H2] H3]. exists s. split; [done|]. split; [lia|]. split; [done|lia].
  - intros (s' & [= <-] & H1 & H2 & H3). split; [split; [lia|done]|lia].
Qed.

Section batch.
Implicit Types (d : db) (now c : time) (k : uuid).

Lemma batch_outlived now d k : k ∈ auto_delete_batch now d → ∃ r, messages d !! k = Some r ∧ outlived now d k r = true.
Proof.
  intros ([k' r] & -> & Hin)%list_elem_of_fmap. exists r.
  apply elem_of_take in Hin as (i & Hi & _). apply list_elem_of_lookup_2 in Hi.
  rewrite elem_of_order_by in Hi. by apply elem_of_rows_where in Hi.
Qed.
Lemma batch_NoDup now d : NoDup (auto_delete_batch now d).
Proof.
  unfold auto_delete_batch. rewrite fmap_take. eapply sublist_NoDup; [|apply sublist_take].
  rewrite order_by_Permutation. apply NoDup_fst_rows_where.
Qed.
Lemma batch_length now d : Z.of_nat (length (auto_delete_batch now d)) ≤ autoDeleteBatch.
Proof. unfold auto_delete_batch. rewrite length_fmap, length_take. unfold autoDeleteBatch. lia. Qed.
(** One that is left out: the batch is full, and all of it older. *)
Lemma batch_left_out now d k r : messages d !! k = Some r → outlived now d k r = true → k ∉ auto_delete_batch now d →
  Z.of_nat (length (auto_delete_batch now d)) = autoDeleteBatch ∧
  ∀ k', k' ∈ auto_delete_batch now d → ∃ r', messages d !! k' = Some r' ∧ waits (r_created_at r) k' r' = true.
Proof.
  intros Hk Hout Hnot. unfold auto_delete_batch in Hnot |- *.
  set (l := order_by (λ p, r_created_at p.2) (rows_where (outlived now d) (messages d))) in *.
  set (n := Z.to_nat autoDeleteBatch) in *.
  assert ((k, r) ∈ l) as Hin by (apply elem_of_order_by; by apply elem_of_rows_where).
  rewrite <-(take_drop n l) in Hin. apply elem_of_app in Hin as [Hin|Hin].
  { exfalso. apply Hnot. apply list_elem_of_fmap. by exists (k, r). }
  assert (n < length l)%nat as Hlen.
  { destruct (decide (n < length l)%nat) as [|Hge]; [done|]. rewrite drop_ge in Hin by lia. by apply not_elem_of_nil in Hin. }
  split; [rewrite length_fmap, length_take; unfold autoDeleteBatch in *; lia|].
  intros k' Hk'. pose proof (batch_outlived now d k' Hk') as (r' & Hr' & Hout'). exists r'. split; [done|].
  apply list_elem_of_fmap in Hk' as ([k1 r1] & Heq & Hin'). simpl in Heq. subst k1.
  assert (r1 = r') as ->.
  { apply elem_of_take in Hin' as (i & Hi & _). apply list_elem_of_lookup_2 in Hi.
    unfold l in Hi. rewrite elem_of_order_by in Hi. apply elem_of_rows_where in Hi as [Hi _]. congruence. }
  pose proof (order_by_sorted (λ p, r_created_at p.2) (rows_where (outlived now d) (messages d))) as Hs. fold l in Hs.
  rewrite <-(take_drop n l) in Hs. unfold waits. apply outlived_true in Hout' as (_ & _ & _ & Hlive & _).
  rewrite andb_true_iff, not_deleted_true, Z.leb_le. split; [done|].
  exact (StronglySorted_app_1_elem_of _ _ _ _ _ Hs Hin' Hin).
Qed.

Lemma lookup_swept now d k : messages (autoDeleteMessages now d).2 !! k =
  (λ r, if swept now d k r then sweep_message now r else r) <$> messages d !! k.
Proof. exact (lookup_update_where (swept now d) (λ _, sweep_message now) (messages d) k). Qed.
Lemma swept_in now d k r : messages d !! k = Some r → swept now d k r = true ↔ k ∈ auto_delete_batch now d.
Proof.
  intros Hk. unfold swept. rewrite andb_true_iff, bool_decide_eq_true. split; [by intros [_ ?]|].
  intros Hin. split; [|done]. destruct (batch_outlived _ _ _ Hin) as (r' & Hk' & Ho). congruence.
Qed.
(** A sweep that leaves [k] out makes the queue before it shorter by a whole batch. *)
Lemma backlog_sweep now d k r : messages d !! k = Some r → outlived now d k r = true → k ∉ auto_delete_batch now d →
  backlog (r_created_at r) (autoDeleteMessages now d).2 + autoDeleteBatch ≤ backlog (r_created_at r) d.
Proof.
  intros Hk Hout Hnot. destruct (batch_left_out now d k r Hk Hout Hnot) as [<- Holder].
  unfold backlog, count_where. set (c := r_created_at r) in *.
  set (left := rows_where (waits c) (messages (autoDeleteMessages now d).2)).
  assert (left.*1 ++ auto_delete_batch now d ⊆+ (rows_where (waits c) (messages d)).*1) as Hsub.
  { apply NoDup_submseteq.
    - apply NoDup_app. split; [apply NoDup_fst_rows_where|]. split; [|apply batch_NoDup].
      intros k' Hk' Hb. apply elem_of_fst_rows_where in Hk'. rewrite lookup_swept in Hk'.
      destruct (Holder k' Hb) as (r' & Hr' & _). rewrite Hr' in Hk'. simpl in Hk'.
      rewrite (proj2 (swept_in now d k' r' Hr') Hb) in Hk'. done.
    - intros k' [Hk'|Hb]%elem_of_app; apply elem_of_fst_rows_where.
      + apply elem_of_fst_rows_where in Hk'. rewrite lookup_swept in Hk'.
        destruct (messages d !! k') as [r'|]; [|done]. simpl in Hk' |- *. destruct (swept now d k' r'); done.
      + destruct (Holder k' Hb) as (r' & -> & Hw). simpl. by rewrite Hw. }
  apply submseteq_length in Hsub. rewrite length_app, !length_fmap in Hsub. lia.
Qed.
Lemma count_swept now d : count_where (swept now d) (messages d) ≤ autoDeleteBatch.
Proof.
  etransitivity; [|apply (batch_length now d)]. unfold count_where. rewrite <-(length_fmap fst). apply inj_le.
  apply submseteq_length, NoDup_submseteq; [apply NoDup_fst_rows_where|]. intros k Hk.
  apply elem_of_fst_rows_where, fmap_Some in Hk as (r & Hr & Hsw). by apply (swept_in now d k r).
Qed.
(** A queue shorter than a batch is swept whole. *)
Lemma sweep_of_few now d k r : messages d !! k = Some r → outlived now d k r = true →
  count_where (outlived now d) (messages d) ≤ autoDeleteBatch → k ∈ auto_delete_batch now d.
Proof.
  intros Hr Hout Hfew. unfold auto_delete_batch. rewrite take_ge.
  - apply list_elem_of_fmap. exists (k, r). split; [done|]. apply elem_of_order_by. by apply elem_of_rows_where.
  - rewrite order_by_Permutation. unfold count_where, autoDeleteBatch in *. lia.
Qed.
End batch.

(** ** What may happen between two passes *)

(** Rows stay, with their chat and their time; a deleted one stays deleted; what is new was sent
    after [c]. *)
Record ages (c : time) (d d' : db) : Prop := {
  ages_kept : ∀ k r, messages d !! k = Some r → ∃ r', messages d' !! k = Some r' ∧ r_chat_id r' = r_chat_id r ∧
    r_created_at r' = r_created_at r ∧ (r_deleted_at r ≠ None → r_deleted_at r' ≠ None);
  ages_new : ∀ k r', messages d' !! k = Some r' → messages d !! k = None → c < r_created_at r';
}.
#[export] Instance ages_preorder c : PreOrder (ages c).
Proof.
  split.
  - intros d. split; [|congruence]. intros k r Hr. by exists r.
  - intros d1 d2 d3 [Hk1 Hn1] [Hk2 Hn2]. split.
    + intros k r Hr. destruct (Hk1 k r Hr) as (r2 & Hr2 & Hc2 & Ht2 & Hd2).
      destruct (Hk2 k r2 Hr2) as (r3 & Hr3 & Hc3 & Ht3 & Hd3). exists r3. rewrite Hc3, Ht3. split_and!; [done..|]. auto.
    + intros k r' Hr' Hnone. destruct (messages d2 !! k) as [r2|] eqn:Hr2; [|by eapply Hn2].
      destruct (Hk2 k r2 Hr2) as (r3 & Hr3 & _ & Ht & _). replace r3 with r' in * by congruence.
      rewrite Ht. by eapply Hn1.
Qed.

Section aging.
Implicit Types (d : db) (now c : time) (k : uuid).

Lemma ages_same c d d' : messages d' = messages d → ages c d d'.
Proof. intros Heq. split; rewrite Heq; [|congruence]. intros k r Hr. by exists r. Qed.
(** Rows rewritten in place. *)
Lemma ages_update c d d' P f : messages d' = update_where P (λ _, f) (messages d) →
  (∀ r, r_chat_id (f r) = r_chat_id r ∧ r_created_at (f r) = r_created_at r ∧ (r_deleted_at r ≠ None → r_deleted_at (f r) ≠ None)) →
  ages c d d'.
Proof.
  intros Heq Hf. split; rewrite Heq; intros k r.
  - intros Hr. rewrite lookup_update_where, Hr. eexists. split; [reflexivity|]. destruct (P k r); [apply Hf|done].
  - intros (r0 & Hr & _)%lookup_update_where_Some. congruence.
Qed.
Lemma ages_insert c d d' k r : messages d' = <[k := r]> (messages d) → messages d !! k = None → c < r_created_at r → ages c d d'.
Proof.
  intros Heq Hnew Hc. split; rewrite Heq; intros k' r'.
  - intros Hr. exists r'. rewrite lookup_insert_ne by congruence. done.
  - intros [[_ <-]|[_ Hr]]%lookup_insert_Some; [done|congruence].
Qed.
Lemma ages_sweep now c d : ages c d (autoDeleteMessages now d).2.
Proof. by eapply (ages_update c d _ (swept now d)). Qed.
Lemma backlog_ages c d d' : ages c d d' → backlog c d' ≤ backlog c d.
Proof.
  intros [Hk Hn]. apply count_where_le. intros k r' Hr' [Hu Hc%Z.leb_le]%andb_true_iff.
  destruct (messages d !! k) as [r|] eqn:Hr; [|specialize (Hn k r' Hr' Hr); lia].
  destruct (Hk k r Hr) as (r2 & Hr2 & _ & Ht & Hdel). replace r2 with r' in * by congruence. exists r. split; [done|].
  unfold waits. rewrite andb_true_iff, not_deleted_true, Z.leb_le, <-Ht. split; [|done].
  apply not_deleted_true in Hu. destruct (r_deleted_at r) as [t|]; [|done]. by destruct (Hdel ltac:(done)).
Qed.
(** What the messaging module commits, by clocks past [c]. *)
Lemma messaging_ages now c d d' : c < now → log_good d →
  (∃ id p r, send_body now id p d = (Ok r, d')) ∨ (∃ id u content ents r, Edit now id u content ents d = (Ok r, d')) ∨
  (∃ id u r, MessageRepo.Delete now id u d = (Ok r, d')) ∨ (∃ ch u all r, ClearHistory now ch u all d = (Ok r, d')) →
  ages c d d'.
Proof.
  intros Hc Hlog [(id & p & r & Hrun)|[(id & u & content & ents & r & Hrun)|[(id & u & r & Hrun)|(ch & u & all & r & Hrun)]]].
  - apply send_body_Ok in Hrun as (ct & ent & pay & mk & _ & _ & _ & _ & [? ? Hnew ? ?] & -> & _); [|done].
    eapply ages_insert; [|exact Hnew|]; [unfold sent_db; cbn zeta|].
    + destruct (FanoutThreshold <? _), (sp_AsChat p), (sp_TopicID p); reflexivity.
    + exact Hc.
  - pose proof Hrun as (m & e & Hl & He)%Edit_Ok_inv. rewrite (Edit_run _ _ _ _ _ m e) in Hrun by done.
    injection Hrun as _ <-. eapply ages_update; [reflexivity|]. by intros r0.
  - destruct (live_message id d) as [m|] eqn:Hl; [|by rewrite Delete_missing in Hrun].
    rewrite (Delete_run _ _ _ m) in Hrun by done. injection Hrun as _ <-.
    eapply ages_update; [reflexivity|]. by intros r0.
  - pose proof Hrun as (ct & m & Hct & Hm)%ClearHistory_Ok_inv.
    destruct (ClearHistory_run now ch u all ct m d Hlog Hct Hm) as [us Heq]. rewrite Heq in Hrun.
    injection Hrun as _ <-. destruct all; [|by apply ages_same].
    eapply ages_update; [reflexivity|]. by intros r0.
Qed.
End aging.

(** ** Passes *)

(** What may commit, in any component, while a message sent at [c] to [ch] waits for its sweep. *)
Definition meanwhile {R} (ch : uuid) (c : time) (w w' : worker_db R) : Prop :=
  ages c (wk_db w) (wk_db w') ∧ chat_settings (wk_db w') !! ch = chat_settings (wk_db w) !! ch.
#[export] Instance meanwhile_preorder {R} ch c : PreOrder (@meanwhile R ch c).
Proof.
  split; [by split|]. intros w1 w2 w3 [H1 E1] [H2 E2]. split; [by etransitivity|congruence].
Qed.
Abbreviation auto_deletion := "auto_deleted_messages"%string (only parsing).

Section passes.
Context {R : Type} (elsewhere : string → sweep R) (ch : uuid) (c : time).
Hypothesis elsewhere_meanwhile : ∀ name w, meanwhile ch c w (elsewhere name w).2.

(** The passes at these times, with what is lost in each, and what commits between them. *)
Inductive passes : list (time * (string → bool)) → worker_db R → worker_db R → Prop :=
| passes_none w w' : meanwhile ch c w w' → passes [] w w'
| passes_more now lost ticks w w1 w2 :
    meanwhile ch c w w1 → passes ticks (runMaintenance elsewhere now lost w1) w2 → passes ((now, lost) :: ticks) w w2.

Lemma on_messaging_meanwhile (f : db → Z * db) :
  (∀ d, ages c d (f d).2 ∧ chat_settings (f d).2 = chat_settings d) → ∀ w : worker_db R, meanwhile ch c w (on_messaging f w).2.
Proof.
  intros Hf w. destruct (Hf (wk_db w)) as [Ha Hs]. split; [exact Ha|]. unfold wk_db in *. simpl. by rewrite Hs.
Qed.
Lemma tasks_meanwhile now task : task ∈ maintenance_tasks elsewhere now → ∀ w, meanwhile ch c w (task.2 w).2.
Proof.
  intros Hin w. unfold maintenance_tasks in Hin.
  repeat (apply elem_of_cons in Hin as [->|Hin]; [try apply elsewhere_meanwhile; try (split; [by apply ages_same|done])|]);
    [|by apply not_elem_of_nil in Hin].
  apply on_messaging_meanwhile. intros d. split; [apply ages_sweep|done].
Qed.
Lemma run_sweeps_meanwhile now lost tasks w : (∀ t, t ∈ tasks → t ∈ maintenance_tasks elsewhere now) →
  meanwhile ch c w (foldl (run_sweep lost) w tasks).
Proof.
  revert w. induction tasks as [|t tasks IH]; intros w Hin; simpl; [reflexivity|].
  etransitivity; [|apply IH; intros t' Ht'; apply Hin; by right].
  unfold run_sweep. destruct (lost t.1); [reflexivity|]. apply (tasks_meanwhile now). apply Hin. by left.
Qed.
Lemma runMaintenance_meanwhile now lost w : meanwhile ch c w (runMaintenance elsewhere now lost w).
Proof. by apply (run_sweeps_meanwhile now). Qed.
(** Whatever the other tasks do, a pass that is not cut off there sweeps the messages. *)
Lemma runMaintenance_sweeps now lost w : lost auto_deletion = false → ∃ w1,
  meanwhile ch c w w1 ∧ meanwhile ch c (on_messaging (autoDeleteMessages now) w1).2 (runMaintenance elsewhere now lost w).
Proof.
  intros Hlost. unfold runMaintenance.
  rewrite <-(take_drop 4 (maintenance_tasks elsewhere now)), foldl_app.
  exists (foldl (run_sweep lost) w (take 4 (maintenance_tasks elsewhere now))). split.
  - apply (run_sweeps_meanwhile now). intros t. apply elem_of_take_1 || (intros (i & ? & _)%elem_of_take; by eapply list_elem_of_lookup_2).
  - set (w1 := foldl _ _ _). change (drop 4 (maintenance_tasks elsewhere now)) with
      ((auto_deletion, on_messaging (autoDeleteMessages now)) :: drop 5 (maintenance_tasks elsewhere now)).
    cbn [foldl]. replace (run_sweep lost w1 (auto_deletion, on_messaging (autoDeleteMessages now)))
      with (on_messaging (autoDeleteMessages now) w1).2 by (unfold run_sweep; cbn [fst snd]; by rewrite Hlost).
    apply (run_sweeps_meanwhile now). intros t. intros Ht. rewrite <-(take_drop 5 (maintenance_tasks elsewhere now)).
    apply elem_of_app. by right.
Qed.

(** The message is gone, or it waits with at most [n] before it. *)
Definition on_its_way (id : uuid) (s : settings_row) (n : Z) (w : worker_db R) : Prop :=
  ∃ r, messages (wk_db w) !! id = Some r ∧
    (r_deleted_at r ≠ None ∨
     r_chat_id r = ch ∧ r_created_at r = c ∧ chat_settings (wk_db w) !! ch = Some s ∧ backlog c (wk_db w) ≤ n).
Lemma on_its_way_meanwhile id s n w w' : meanwhile ch c w w' → on_its_way id s n w → on_its_way id s n w'.
Proof.
  intros [Hages Hs] (r & Hr & Hcase). destruct (ages_kept _ _ _ Hages id r Hr) as (r' & Hr' & Hch & Hc & Hdel).
  exists r'. split; [done|]. destruct Hcase as [Hgone|(? & ? & ? & ?)]; [left; by apply Hdel|].
  right. rewrite Hch, Hc, Hs. pose proof (backlog_ages _ _ _ Hages). split_and!; [done..|lia].
Qed.
Definition in_time (s : settings_row) (tick : time * (string → bool)) : bool :=
  (c + s_auto_delete_seconds s * second <? tick.1) && negb (tick.2 auto_deletion).
Lemma sweep_on_its_way id s n now w : 0 < s_auto_delete_seconds s → c + s_auto_delete_seconds s * second < now →
  on_its_way id s (n + autoDeleteBatch) w → on_its_way id s n (on_messaging (autoDeleteMessages now) w).2.
Proof.
  intros Hpos Hnow (r & Hr & Hcase). unfold on_its_way.
  change (wk_db (on_messaging (autoDeleteMessages now) w).2) with (autoDeleteMessages now (wk_db w)).2.
  rewrite lookup_swept, Hr. eexists. split; [reflexivity|].
  destruct (swept now (wk_db w) id r) eqn:Hsw; [by left|]. destruct Hcase as [Hgone|(Hch & Hc & Hs & Hb)]; [by left|].
  destruct (r_deleted_at r) as [t|] eqn:Hlive; [by left|]. right. split_and!; [done..|].
  assert (outlived now (wk_db w) id r = true) as Hout by (apply outlived_true; exists s; rewrite Hch, Hc; done).
  rewrite <-Hc in Hb |- *. pose proof (backlog_sweep now (wk_db w) id r Hr Hout) as Hless.
  rewrite <-(swept_in now (wk_db w) id r Hr), Hsw in Hless. specialize (Hless ltac:(done)). lia.
Qed.
Lemma passes_on_its_way id s ticks w w' : passes ticks w w' → 0 < s_auto_delete_seconds s →
  on_its_way id s (autoDeleteBatch * Z.of_nat (length (filter (λ t, in_time s t = true) ticks))) w → on_its_way id s 0 w'.
Proof.
  intros Hrun Hpos. induction Hrun as [w w' Hm|now lost ticks w w1 w2 Hm Hrun IH]; intros Hway.
  - by eapply on_its_way_meanwhile.
  - apply IH. apply (on_its_way_meanwhile _ _ _ _ _ Hm) in Hway. rewrite filter_cons in Hway.
    destruct (decide (in_time s (now, lost) = true)) as [Hin|_]; [|by eapply on_its_way_meanwhile, Hway; apply runMaintenance_meanwhile].
    apply andb_true_iff in Hin as [Hnow%Z.ltb_lt Hlost%negb_true_iff]. simpl in Hnow, Hlost.
    destruct (runMaintenance_sweeps now lost w1 Hlost) as (w1' & Hbefore & Hafter).
    eapply on_its_way_meanwhile; [exact Hafter|]. apply sweep_on_its_way; [done..|].
    eapply on_its_way_meanwhile; [exact Hbefore|]. cbn [length] in Hway. rewrite Nat2Z.inj_succ, Z.mul_succ_r in Hway. exact Hway.
Qed.
End passes.

(** C5: A timer is kept.  A message of a chat with a timer is deleted once enough passes have run
    after its time is up: one for every 5000 undeleted messages of the server as old as it, itself
    included.  Whatever else commits between the passes and whatever the other tasks of a
    pass do, so long as clocks are past the message and the timer stays as it is; passes that are
    cut off before the task do not count. *)
Theorem timers_are_kept {R} (elsewhere : string → sweep R) id r s ticks w w' :
  (∀ name v, meanwhile (r_chat_id r) (r_created_at r) v (elsewhere name v).2) →
  messages (wk_db w) !! id = Some r → chat_settings (wk_db w) !! r_chat_id r = Some s → 0 < s_auto_delete_seconds s →
  backlog (r_created_at r) (wk_db w) ≤
    autoDeleteBatch * Z.of_nat (length (filter (λ t, in_time (r_created_at r) s t = true) ticks)) →
  passes elsewhere (r_chat_id r) (r_created_at r) ticks w w' →
  ∃ r', messages (wk_db w') !! id = Some r' ∧ r_deleted_at r' ≠ None.
Proof.
  intros Helse Hr Hs Hpos Hb Hrun.
  assert (on_its_way (r_chat_id r) (r_created_at r) id s 0 w') as (r' & Hr' & Hcase).
  { eapply passes_on_its_way; [exact Helse|exact Hrun|done|]. exists r. split; [done|]. by right. }
  exists r'. split; [done|]. destruct Hcase as [|(_ & Hc & _ & Hnone)]; [done|]. intros Hlive.
  assert (backlog (r_created_at r) (wk_db w') = 0) as Hzero by (pose proof (count_where_nonneg (waits (r_created_at r)) (messages (wk_db w'))); unfold backlog in *; lia).
  unfold backlog in Hzero. rewrite count_where_0 in Hzero. specialize (Hzero id r' Hr').
  unfold waits, not_deleted in Hzero. rewrite Hlive, Hc in Hzero. simpl in Hzero. apply Z.leb_gt in Hzero. lia.
Qed.

(** What is left of a message. *)
Definition tombstone_of (now : time) (r r' : message_row) : Prop :=
  r_content r' = ""%string ∧ r_entities r' = JArr [] ∧ r_payload r' = JObj [] ∧ r_reply_markup r' = None ∧
  r_deleted_at r' = Some now ∧ r_chat_id r' = r_chat_id r ∧ r_seq r' = r_seq r ∧ r_sender_id r' = r_sender_id r ∧
  r_client_message_id r' = r_client_message_id r ∧ r_created_at r' = r_created_at r.

(** One sweep takes at most its batch, only messages past the timer of their chat, and of
    these everything that was written; they keep their place, so the history stays numbered without
    a gap and the store in order.  If no more than a batch were due, none is afterwards. *)
Lemma sweep_takes_what_is_due now d n d' : autoDeleteMessages now d = (n, d') →
  0 ≤ n ≤ autoDeleteBatch ∧ dom (messages d') = dom (messages d) ∧
  (∀ k r r', messages d !! k = Some r → messages d' !! k = Some r' →
     r' = r ∨ outlived now d k r = true ∧ tombstone_of now r r') ∧
  (store_ok d → store_ok d') ∧
  (count_where (outlived now d) (messages d) ≤ autoDeleteBatch → ∀ k r', messages d' !! k = Some r' → outlived now d' k r' = false).
Proof.
  intros Hrun. assert (d' = (autoDeleteMessages now d).2) as -> by by rewrite Hrun.
  assert (n = count_where (swept now d) (messages d)) as -> by (unfold autoDeleteMessages in Hrun; congruence). clear Hrun.
  split_and!.
  - apply count_where_nonneg.
  - apply count_swept.
  - apply dom_update_where.
  - intros k r r' Hr. rewrite lookup_swept, Hr. intros [= <-]. destruct (swept now d k r) eqn:Hsw; [right|by left].
    apply andb_true_iff in Hsw as [Hout _]. done.
  - intros (Hlog & Hh & Hcur). split_and!; [done| |done]. by apply (history_ok_update _ _ (swept now d) (sweep_message now)).
  - intros Hfew k r'. rewrite lookup_swept. intros (r & Hr & ->)%fmap_Some.
    destruct (swept now d k r) eqn:Hsw.
    + unfold outlived. simpl. destruct (chat_settings d !! r_chat_id r); [|done]. by rewrite andb_false_r.
    + destruct (outlived now d k r) eqn:Hout; [|unfold outlived in *; exact Hout].
      pose proof (proj2 (swept_in now d k r Hr) (sweep_of_few now d k r Hr Hout Hfew)). congruence.
Qed.

(** ** Concrete runs *)

(** The private chat of [sample_db], whose messages last an hour; and the message edited once. *)
Definition timed (d : db) : db := with_chat_settings (<[10%N := MkSettings 0 true false 2 3600 (JObj [])]> (chat_settings d)) d.
Definition timed_db : db := timed sample_db.
Definition timed_message : message_row := default (MkMessageRow 0 0 None 0 "" "" (JArr []) (JObj []) None None None None "" 0 false false 0 None None None None None "")
  (messages timed_db !! 100%N).
Definition timed_worker : worker_db () := MkWorkerDb (MkAuthDb timed_db ∅ ∅ ∅ ∅ ∅ ∅ ∅ ∅ [] [] ∅) ∅ ().
Definition no_sweeps (_ : string) : sweep () := λ w, (None, w).

Lemma timers_are_kept_witness : ∃ r', messages (wk_db (runMaintenance no_sweeps (2 * hour) (λ _, false) timed_worker)) !! 100%N = Some r' ∧ r_deleted_at r' ≠ None.
Proof.
  refine (timers_are_kept no_sweeps 100 timed_message (MkSettings 0 true false 2 3600 (JObj [])) [(2 * hour, λ _, false)] timed_worker _ _ _ _ _ _ _).
  - intros name v. exact (@PreOrder_Reflexive _ _ (meanwhile_preorder _ _) v).
  - vm_compute. reflexivity.
  - vm_compute. reflexivity.
  - vm_compute. reflexivity.
  - vm_compute. discriminate.
  - eapply passes_more; [reflexivity|]. apply passes_none. reflexivity.
Defined.

Lemma sweep_takes_what_is_due_witness : ∃ r', messages (autoDeleteMessages (2 * hour) timed_db).2 !! 100%N = Some r' ∧
  outlived (2 * hour) (autoDeleteMessages (2 * hour) timed_db).2 100 r' = false.
Proof.
  destruct (messages (autoDeleteMessages (2 * hour) timed_db).2 !! 100%N) as [r'|] eqn:Hr'; [|vm_compute in Hr'; discriminate].
  exists r'. split; [reflexivity|]. destruct (sweep_takes_what_is_due (2 * hour) timed_db 1 (autoDeleteMessages (2 * hour) timed_db).2)
    as (_ & _ & _ & _ & Hnone).
  - rewrite (surjective_pairing (autoDeleteMessages (2 * hour) timed_db)) at 1. f_equal.
  - apply Hnone; [vm_compute; discriminate|exact Hr'].
Defined.

(** The text before an edit, and a photo, outlast the timer; nobody is told. *)
Definition edited_then_swept : db :=
  (autoDeleteMessages (2 * hour) (with_message_attachments {[ (100%N, 7%N) := MkAttachment 7 0 "" ]}
    (MessageRepo.Edit 6 100 1 "hello again" RawNil timed_db).2)).2.
Lemma swept_message_leaves_its_past :
  (r_content <$> messages edited_then_swept !! 100%N) = Some ""%string ∧
  (e_previous_content <$> message_edits edited_then_swept) = ["hello"%string] ∧
  is_Some (message_attachments edited_then_swept !! (100%N, 7%N)) ∧
  user_events edited_then_swept = user_events (MessageRepo.Edit 6 100 1 "hello again" RawNil timed_db).2.
Proof. vm_compute. split_and!; [reflexivity..| |reflexivity]. eexists. reflexivity. Qed.
