(* ===== verification/Frames.v ===== *)
(** * The socket protocol ([internal/realtime/handler.go], [client.go])

    The handshake, the frames a device sends and the answers it gets, over the services of
    identity and messaging, the hub of the node and presence.  [encoding/json] is a class; the
    upgrade is [gorilla/websocket]'s and an argument; times out and write failures are left out.
    What others commit enters before each frame. *)

From stdpp Require Import base tactics list gmap strings.
From Stdlib Require Import ZArith Lia.
From S2P Require Import Prelude GoString Httpx Permissions Store ChatContext EventLog MessageRepo RateLimit Ports Antispam Payloads MessageTheory MessagingService MessagingTheory Phone Security Cache Presence AuthStore Auth Hub.

Set Default Goal Selector "!".
Open Scope Z_scope.

Definition pongWait : Z := 60 * second.
Definition pingInterval : Z := 25 * second.
Definition maxFrameBytes : Z := 256 * 1024.
Definition ProtocolVersion : Z := 1.
Definition CloseInternalServerErr : Z := 1011.
Definition CodeProtocolVersion : string := "UNSUPPORTED_PROTOCOL_VERSION".

(** The events of both directions. *)
Definition evtPing : string := "ping".
Definition evtPong : string := "pong".
Definition evtMessageSend : string := "message.send".
Definition evtMessageRead : string := "message.read".
Definition evtMessageEdit : string := "message.edit".
Definition evtMessageDelete : string := "message.delete".
Definition evtMessageReact : string := "message.react".
Definition evtTypingStart : string := "typing.start".
Definition evtTypingStop : string := "typing.stop".
Definition evtChatSubscribe : string := "chat.subscribe".
Definition evtChatUnsubscribe : string := "chat.unsubscribe".
Definition evtSyncRequest : string := "sync.request".
Definition evtSyncAck : string := "sync.ack".
Definition evtConnected : string := "connected".
Definition evtMessageSent : string := "message.sent".
Definition evtSyncBatch : string := "sync.batch".
Definition evtAcknowledged : string := "ack".

(** ** Frames *)

(** A frame as it comes in; [if_Payload] is the raw document, empty when there is none. *)
Record InFrame := MkInFrame { if_ID : string; if_Event : string; if_Payload : string }.
(** The maps the handlers answer with. *)
Inductive ack :=
| AckConnected (user_id device_id : uuid) (protocol_version sync_cursor server_seq heartbeat_ms : Z)
| AckPong (now : time)
| AckSent (client_message_id message_id chat_id : uuid) (seq : Z) (created_at : time)
| AckRead (chat_id : uuid) (last_read_seq : Z)
| AckEdited (message_id : uuid) (edited_at : option time)
| AckDeleted (message_id : uuid)
| AckReacted (message_id : uuid) (emoji : string) (added : bool)
| AckSubscribed (chat_id : uuid) (subscribed : bool)
| AckSync (events : list Event) (server_seq : Z) (has_more : bool).
Record FrameError := MkFrameError { fe_Code : string; fe_Message : string }.
(** [Frame], as the server sends it; frames relayed from the bus are bytes already. *)
Record Frame := MkFrame { fr_ID : string; fr_Event : string; fr_Payload : option ack; fr_Error : option FrameError }.

Record sendPayload := MkSendPayload {
  sp_chat_id : uuid;
  sp_client_message_id : uuid;
  sp_type : string;
  sp_content : string;
  sp_entities : raw;
  sp_payload : raw;
  sp_reply_to_id : option uuid;
  sp_attachments : list Attachment;
  sp_mentions : list uuid;
  sp_is_silent : bool;
}.
(** [json.Marshal] of a frame, [json.Unmarshal] of a frame and of each payload. *)
Class FrameCodec := {
  marshal_frame : Frame → string;
  decode_frame : string → option InFrame;
  decode_send : string → option sendPayload;
  decode_read : string → option (uuid * Z);
  decode_edit : string → option (uuid * string * raw);
  decode_message : string → option uuid;
  decode_react : string → option (uuid * string);
  decode_chat : string → option uuid;
  decode_sync : string → option (Z * Z);
  decode_cursor : string → option Z;
}.

(** ** The node *)

(** What a node works on: the stores and the limiter every service shares, the search queue and
    the observers of messaging, its hub, and what it has published. *)
Record server (G L : Type) := MkServer {
  sv_auth : auth_world L;
  sv_guard : option G;
  sv_observers : nat;
  sv_out : list output;
  sv_hub : hub;
  sv_announced : list (uuid * bool);
}.
Arguments MkServer {G L}.
Arguments sv_auth {G L}.
Arguments sv_guard {G L}.
Arguments sv_observers {G L}.
Arguments sv_out {G L}.
Arguments sv_hub {G L}.
Arguments sv_announced {G L}.

(** [Client]: the socket's number in the hub, and whose it is. *)
Record socket := MkSocket { sk_id : N; sk_user : uuid; sk_device : uuid; sk_session : uuid }.
(** What a frame meets: the clock, the id a send would mint, what commits before it and during a
    send, whether the bus accepts a subscription, and which way a [select] goes. *)
Record moment (G L : Type) := MkMoment {
  mo_now : time;
  mo_new_id : uuid;
  mo_earlier : server G L → server G L;
  mo_before : db → db;
  mo_after : db → db;
  mo_bus_ok : bool;
  mo_pick : bool;
}.
Arguments MkMoment {G L}.
Arguments mo_now {G L}.
Arguments mo_new_id {G L}.
Arguments mo_earlier {G L}.
Arguments mo_before {G L}.
Arguments mo_after {G L}.
Arguments mo_bus_ok {G L}.
Arguments mo_pick {G L}.

Section node.
Context {G L T : Type} `{SpamGuard G} `{MessageLimiter L} `{PayloadCodec} `{FrameCodec}.
Implicit Types (sv : server G L) (k : socket) (fr : InFrame) (mo : moment G L).

Definition set_sv_auth (a : auth_world L) sv : server G L :=
  MkServer a (sv_guard sv) (sv_observers sv) (sv_out sv) (sv_hub sv) (sv_announced sv).
Definition set_sv_hub (h : hub) sv : server G L :=
  MkServer (sv_auth sv) (sv_guard sv) (sv_observers sv) (sv_out sv) h (sv_announced sv).
(** The part of the messaging service. *)
Definition messaging sv : world G L :=
  MkWorld (core (aw_db (sv_auth sv))) (sv_guard sv) (aw_limiter (sv_auth sv)) (sv_observers sv) (sv_out sv).
Definition set_messaging (w : world G L) sv : server G L :=
  MkServer (MkAuthWorld (with_core (w_db w) (aw_db (sv_auth sv))) (w_limiter w) (aw_cache (sv_auth sv)) (aw_out (sv_auth sv)))
    (w_guard w) (w_observers w) (w_out w) (sv_hub sv) (sv_announced sv).

Definition sendFrame mo k (f : Frame) sv : server G L :=
  set_sv_hub (enqueue_at (marshal_frame f) (λ _, mo_pick mo) (sk_id k) (sv_hub sv)) sv.
Definition sendAck mo k (id event : string) (payload : ack) : server G L → server G L :=
  sendFrame mo k (MkFrame id event (Some payload) None).
Definition sendError mo k (id code message : string) : server G L → server G L :=
  sendFrame mo k (MkFrame id "error" None (Some (MkFrameError code message))).
Definition failFrame mo k fr (e : Error) : server G L → server G L :=
  sendError mo k (if_ID fr) (Code e) (Httpx.Message e).
Definition decodePayload {P} (decode : string → option P) mo k fr (go : P → server G L → server G L) : server G L → server G L :=
  if bool_decide (if_Payload fr = ""%string) then sendError mo k (if_ID fr) "PROTOCOL_ERROR" "Frame is missing its payload"
  else match decode (if_Payload fr) with
       | None => sendError mo k (if_ID fr) "PROTOCOL_ERROR" "Payload could not be decoded"
       | Some p => go p
       end.
(** A call of the messaging service, its failure sent back. *)
Definition serve {A} mo k fr (m : prog (world G L) Error A) (answer : A → server G L → server G L) sv : server G L :=
  match m (messaging sv) with
  | (Ok a, w) => answer a (set_messaging w sv)
  | (Err e, w) => failFrame mo k fr e (set_messaging w sv)
  end.

(** ** Handlers *)

Definition send_input k (p : sendPayload) : SendInput :=
  MkSendInput (sp_chat_id p) (sk_user k) (sp_client_message_id p) (sp_type p) (sp_content p) (sp_entities p) (sp_payload p)
    (sp_reply_to_id p) (sp_attachments p) (sp_mentions p) None RawNil (sp_is_silent p) None.
Definition handleSend mo k fr : server G L → server G L :=
  decodePayload decode_send mo k fr (λ p,
    serve mo k fr (Service_Send (mo_now mo) (mo_new_id mo) (mo_before mo) (mo_after mo) (send_input k p))
      (λ m, sendAck mo k (if_ID fr) evtMessageSent (AckSent (sp_client_message_id p) (mID m) (mChatID m) (mSeq m) (mCreatedAt m)))).
Definition handleRead mo k fr : server G L → server G L :=
  decodePayload decode_read mo k fr (λ p,
    serve mo k fr (Service_MarkRead (mo_now mo) p.1 (sk_user k) p.2)
      (λ newSeq, sendAck mo k (if_ID fr) evtAcknowledged (AckRead p.1 newSeq))).
Definition handleEdit mo k fr : server G L → server G L :=
  decodePayload decode_edit mo k fr (λ p,
    serve mo k fr (Service_Edit (mo_now mo) p.1.1 (sk_user k) p.1.2 p.2)
      (λ m, sendAck mo k (if_ID fr) evtAcknowledged (AckEdited (mID m) (mEditedAt m)))).
Definition handleDelete mo k fr : server G L → server G L :=
  decodePayload decode_message mo k fr (λ messageID,
    serve mo k fr (Service_Delete (mo_now mo) messageID (sk_user k))
      (λ _, sendAck mo k (if_ID fr) evtAcknowledged (AckDeleted messageID))).
Definition handleReact mo k fr : server G L → server G L :=
  decodePayload decode_react mo k fr (λ p,
    serve mo k fr (Service_React (mo_now mo) p.1 (sk_user k) p.2)
      (λ added, sendAck mo k (if_ID fr) evtAcknowledged (AckReacted p.1 p.2 added))).
(** A success needs no answer. *)
Definition handleTyping mo k fr (typing : bool) : server G L → server G L :=
  decodePayload decode_chat mo k fr (λ chatID, serve mo k fr (SetTyping chatID (sk_user k) typing) (λ _ sv, sv)).
Definition handleChatSubscribe mo k fr (subscribe : bool) : server G L → server G L :=
  decodePayload decode_chat mo k fr (λ chatID,
    if negb subscribe then λ sv,
      sendAck mo k (if_ID fr) evtAcknowledged (AckSubscribed chatID false) (set_sv_hub (unsubscribeChat (sk_id k) chatID (sv_hub sv)) sv)
    else
      serve mo k fr (Service_History chatID (sk_user k) None None 1) (λ _ sv,
        let '(ok, h) := subscribeChat (mo_bus_ok mo) (sk_id k) chatID (sv_hub sv) in
        let sv := set_sv_hub h sv in
        if negb ok then sendError mo k (if_ID fr) "SUBSCRIBE_FAILED" "Could not subscribe to this chat" sv
        else sendAck mo k (if_ID fr) evtAcknowledged (AckSubscribed chatID true) sv)).
Definition has_more (events : list Event) (latest : Z) : bool :=
  match last events with Some e => evSeq e <? latest | None => false end.
Definition handleSyncRequest mo k fr : server G L → server G L :=
  decodePayload decode_sync mo k fr (λ p sv,
    let '(events, latest) := EventLog.Sync (sk_user k) p.1 p.2 (w_db (messaging sv)) in
    sendAck mo k (if_ID fr) evtSyncBatch (AckSync events latest (has_more events latest)) sv).
(** Not answered. *)
Definition handleSyncAck mo k fr : server G L → server G L :=
  decodePayload decode_cursor mo k fr (λ cursor sv,
    let w := messaging sv in set_messaging (set_db (UpdateSyncCursor (sk_device k) cursor (w_db w)) w) sv).

Definition handle mo k fr : server G L → server G L :=
  let event (e : string) := bool_decide (if_Event fr = e) in
  if event evtPing then sendAck mo k (if_ID fr) evtPong (AckPong (mo_now mo))
  else if event evtMessageSend then handleSend mo k fr
  else if event evtMessageRead then handleRead mo k fr
  else if event evtMessageEdit then handleEdit mo k fr
  else if event evtMessageDelete then handleDelete mo k fr
  else if event evtMessageReact then handleReact mo k fr
  else if event evtTypingStart then handleTyping mo k fr true
  else if event evtTypingStop then handleTyping mo k fr false
  else if event evtChatSubscribe then handleChatSubscribe mo k fr true
  else if event evtChatUnsubscribe then handleChatSubscribe mo k fr false
  else if event evtSyncRequest then handleSyncRequest mo k fr
  else if event evtSyncAck then handleSyncAck mo k fr
  else sendError mo k (if_ID fr) "UNKNOWN_EVENT" ("Unknown event: " +:+ if_Event fr).

(** [readPump]: what the connection delivers, until it fails, is closed or sends too much. *)
Definition socket_closed k sv : bool :=
  match clients (sv_hub sv) !! sk_id k with Some c => if cl_closed c is Some _ then true else false | None => true end.
Definition hang_up k sv : server G L :=
  let h := unregister (sk_id k) (sv_hub sv) in
  set_sv_hub (with_clients (alter (close CloseNormalClosure) (sk_id k) (clients h)) h) sv.
Definition receive mo k (data : string) sv : server G L :=
  let sv := mo_earlier mo sv in
  match decode_frame data with
  | None => sendError mo k "" "PROTOCOL_ERROR" "Frame is not valid JSON" sv
  | Some fr => handle mo k fr sv
  end.
Fixpoint readPump k (arrivals : list (moment G L * string)) sv : server G L :=
  match arrivals with
  | [] => hang_up k sv
  | (mo, data) :: arrivals =>
      if maxFrameBytes <? Z.of_nat (String.length data) then hang_up k sv
      else match decode_frame data with
           | None => readPump k arrivals (receive mo k data sv)
           | Some _ => let sv := receive mo k data sv in
                       if socket_closed k sv then hang_up k sv else readPump k arrivals sv
           end
  end.

(** ** The handshake *)

Record Handshake := MkHandshake {
  hs_token : string;
  hs_protocols : string;
  hs_version : string;
  hs_origin : string;
}.
(** A token passed as a subprotocol. *)
Definition protocol_token (part : string) : option string :=
  let part := trim_space part in
  if has_prefix part "sobh.auth." && negb (bool_decide (trim_prefix part "sobh.auth." = ""%string))
  then Some (trim_prefix part "sobh.auth.") else None.
Definition websocketProtocolToken (header : string) : string :=
  default ""%string (head (omap protocol_token (split 44 header))).
Definition CheckOrigin (allowedOrigins : list string) (origin : string) : bool :=
  bool_decide (origin = ""%string) || bool_decide ("*"%string ∈ allowedOrigins) || bool_decide (origin ∈ allowedOrigins).
Definition presented_token (rq : Handshake) : string :=
  if bool_decide (hs_token rq = ""%string) then websocketProtocolToken (hs_protocols rq) else hs_token rq.
Definition version_spoken (version : string) : bool :=
  bool_decide (version = ""%string) || bool_decide (Atoi version = Some ProtocolVersion).
Definition version_error : Error :=
  WithField (newError 400 CodeProtocolVersion "This client speaks a protocol version this server does not support")
    "protocol_version" ("expected " +:+ Itoa ProtocolVersion).

Context `{AuthLimiter L} `{JWT T} `{UuidParse} `{Digest} `{Argon2} (cfg : AuthConfig) (token_text : string → T).

(** The position of the device among those that are live. *)
Definition device_cursor (userID deviceID : uuid) (d : authdb) : Z :=
  match filter (λ dv, dvID dv = deviceID) (ListDevices userID d) with dv :: _ => dvSyncCursor dv | [] => 0 end.
(** What follows the upgrade, on a socket with the free number [id]: the frame that comes first,
    registration, presence. *)
Definition greet mo k sv : server G L :=
  let d := aw_db (sv_auth sv) in
  let cursor := device_cursor (sk_user k) (sk_device k) d in
  let latest := (EventLog.Sync (sk_user k) cursor 1 (core d)).2 in
  let h := with_clients (<[sk_id k := newClient (sk_user k)]> (clients (sv_hub sv))) (sv_hub sv) in
  sendAck mo k "" evtConnected
    (AckConnected (sk_user k) (sk_device k) ProtocolVersion cursor latest (pingInterval / (second / 1000))) (set_sv_hub h sv).
Definition announce_presence (r : list (uuid * bool) * cache string) sv : server G L :=
  MkServer (set_aw_cache r.2 (sv_auth sv)) (sv_guard sv) (sv_observers sv) (sv_out sv) (sv_hub sv) (sv_announced sv ++ r.1).
Definition enter mo k sv : bool * server G L :=
  let sv := greet mo k sv in
  let '(ok, h) := register (mo_bus_ok mo) (sk_id k) (sk_user k) (sv_hub sv) in
  let sv := set_sv_hub h sv in
  if negb ok then (false, set_sv_hub (with_clients (alter (close CloseInternalServerErr) (sk_id k) (clients h)) h) sv)
  else
    let sv := announce_presence (Presence.MarkOnline (mo_now mo) (sk_user k) (sk_device k) (aw_cache (sv_auth sv))) sv in
    (true, set_sv_auth (set_aw_db (TouchDevice (mo_now mo) (sk_device k) (aw_db (sv_auth sv))) (sv_auth sv)) sv).
(** [ServeHTTP], up to the pump: the answer of a refused request, [None] when the upgrade or the
    registration failed. *)
Definition handshake (allowedOrigins : list string) mo (id : N) (rq : Handshake) sv : result (option Error) socket * server G L :=
  let token := presented_token rq in
  if bool_decide (token = ""%string) then (Err (Some (Unauthorized CodeUnauthorized "Authentication is required")), sv)
  else if negb (version_spoken (hs_version rq)) then (Err (Some version_error), sv)
  else match AuthenticateToken cfg (mo_now mo) (token_text token) (sv_auth sv) with
       | (Err e, a) => (Err (Some e), set_sv_auth a sv)
       | (Ok p, a) =>
           let sv := set_sv_auth a sv in
           if negb (CheckOrigin allowedOrigins (hs_origin rq)) then (Err None, sv)
           else
             let k := MkSocket id (prUserID p) (prDeviceID p) (prSessionID p) in
             let '(ok, sv) := enter mo k sv in
             ((if ok : bool then Ok k else Err None), sv)
       end.
(** The whole of a connection; [gone] is the clock at its end. *)
Definition ServeHTTP allowedOrigins mo id rq (arrivals : list (moment G L * string)) (gone : time) sv : server G L :=
  match handshake allowedOrigins mo id rq sv with
  | (Err _, sv) => sv
  | (Ok k, sv) =>
      let sv := readPump k arrivals sv in
      announce_presence (Presence.MarkOffline gone (sk_user k) (sk_device k) (aw_cache (sv_auth sv))) sv
  end.
End node.

(** ** What a frame does *)

Section frames.
Context {G L : Type} `{SpamGuard G} `{MessageLimiter L} `{PayloadCodec} `{FrameCodec}.
Implicit Types (sv : server G L) (k : socket) (fr : InFrame) (mo : moment G L) (h : hub).

(** A frame of [k]'s user that may open [ch]: it asks for it, and they are a member. *)
Definition admitted k fr sv (ch : uuid) : Prop :=
  if_Event fr = evtChatSubscribe ∧ decode_chat (if_Payload fr) = Some ch ∧
  is_Some (active_member (core (aw_db (sv_auth sv))) ch (sk_user k)).
(** Nothing but the subscriptions of the socket may change, and only by what is admitted. *)
Definition settles k (may : uuid → Prop) h h' : Prop := ∀ id,
  match clients h !! id, clients h' !! id with
  | Some c, Some c' => cl_user c' = cl_user c ∧ cl_send c' = cl_send c ∧ cl_closed c' = cl_closed c ∧
      if decide (id = sk_id k) then ∀ ch, ch ∈ cl_subs c' → ch ∈ cl_subs c ∨ may ch else cl_subs c' = cl_subs c
  | None, None => True
  | _, _ => False
  end.
(** The frames that may go without an answer. *)
Definition quiet_event fr : Prop := if_Event fr ∈ [evtTypingStart; evtTypingStop; evtSyncAck].
Definition error_frame (f : Frame) : bool := if fr_Error f is Some _ then true else false.
(** What the socket is told: nothing, or one frame with the id of the one it sent. *)
Inductive answers mo k fr (may : uuid → Prop) h sv' : Prop :=
| answers_nothing : quiet_event fr → settles k may h (sv_hub sv') → answers mo k fr may h sv'
| answers_frame f sv1 : fr_ID f = if_ID fr → settles k may h (sv_hub sv1) → sv' = sendFrame mo k f sv1 → answers mo k fr may h sv'.

Lemma settles_refl k may h : settles k may h h.
Proof. intros id. destruct (clients h !! id); [|done]. split_and!; [done..|]. case_decide; auto. Qed.
Lemma settles_unsubscribe k may ch h : settles k may h (unsubscribeChat (sk_id k) ch h).
Proof.
  unfold unsubscribeChat. destruct (clients h !! sk_id k) as [c|] eqn:Hc; [|apply settles_refl].
  case_decide; [|apply settles_refl]. intros id. simpl. destruct (decide (id = sk_id k)) as [->|Hne].
  - rewrite Hc, lookup_insert_eq. split_and!; [done..|]. intros ch'. simpl. set_solver.
  - rewrite lookup_insert_ne by done. destruct (clients h !! id); done.
Qed.
Lemma settles_subscribe k (may : uuid → Prop) ok ch h : may ch → settles k may h (subscribeChat ok (sk_id k) ch h).2.
Proof.
  intros Hmay. unfold subscribeChat. destruct (clients h !! sk_id k) as [c|] eqn:Hc; [|apply settles_refl].
  case_decide; [apply settles_refl|].
  assert (∀ v, settles k may h (with_clients (<[sk_id k := with_cl_subs ({[ch]} ∪ cl_subs c) c]> (clients h)) (with_chatSubs v h))) as Hin.
  { intros v id. simpl. destruct (decide (id = sk_id k)) as [->|Hne].
    - rewrite Hc, lookup_insert_eq. split_and!; [done..|]. intros ch'. simpl. set_solver.
    - rewrite lookup_insert_ne by done. destruct (clients h !! id); done. }
  destruct (chatSubs h !! ch); [apply Hin|]. destruct ok; [apply Hin|apply settles_refl].
Qed.

Lemma answers_error mo k fr may h sv1 id code message : id = if_ID fr → settles k may h (sv_hub sv1) →
  answers mo k fr may h (sendError mo k id code message sv1).
Proof. intros -> Hs. by eapply answers_frame; [|exact Hs|reflexivity]. Qed.
Lemma answers_ack mo k fr may h sv1 event a : settles k may h (sv_hub sv1) →
  answers mo k fr may h (sendAck mo k (if_ID fr) event a sv1).
Proof. intros Hs. by eapply answers_frame; [|exact Hs|reflexivity]. Qed.
Lemma answers_decode {P} (decode : string → option P) mo k fr may (go : P → server G L → server G L) sv :
  (∀ p, decode (if_Payload fr) = Some p → answers mo k fr may (sv_hub sv) (go p sv)) →
  answers mo k fr may (sv_hub sv) (decodePayload decode mo k fr go sv).
Proof.
  intros Hgo. unfold decodePayload. destruct (bool_decide _); [apply answers_error; [done|apply settles_refl]|].
  destruct (decode (if_Payload fr)) as [p|]; [by apply Hgo|apply answers_error; [done|apply settles_refl]].
Qed.
Lemma answers_serve {A} mo k fr may (m : prog (world G L) Error A) (answer : A → server G L → server G L) sv :
  (∀ a w, m (messaging sv) = (Ok a, w) → answers mo k fr may (sv_hub sv) (answer a (set_messaging w sv))) →
  answers mo k fr may (sv_hub sv) (serve mo k fr m answer sv).
Proof.
  intros Ha. unfold serve. destruct (m (messaging sv)) as [[a|e] w] eqn:Hm; [by apply Ha|].
  apply answers_error; [done|]. apply settles_refl.
Qed.

(** Reading a chat's history takes membership. *)
Lemma Service_History_member ch u before after limit (w : world G L) r w' :
  Service_History ch u before after limit w = (Ok r, w') → is_Some (active_member (w_db w) ch u).
Proof.
  unfold Service_History. intros Hrun. apply bind_Ok_inv in Hrun as (cx & w1 & Hcx & Hrun).
  apply repo_context_inv in Hcx as [-> Hcx]. apply bind_Ok_inv in Hrun as ([] & w2 & Hmem & _).
  apply fail_if_Ok_inv in Hmem as [Hmem ->]. apply negb_false_iff in Hmem.
  destruct (chat_context_member _ _ _ _ Hcx Hmem) as (mem & Hactive & _). by exists mem.
Qed.

Lemma handle_answers mo k fr sv : answers mo k fr (admitted k fr sv) (sv_hub sv) (handle mo k fr sv).
Proof.
  unfold handle.
  repeat match goal with |- context [if bool_decide (if_Event fr = ?e) then _ else _] =>
    destruct (bool_decide_reflect (if_Event fr = e)) as [Hev|_] end;
  [apply answers_ack, settles_refl|..|apply answers_error; [done|apply settles_refl]];
  unfold handleSend, handleRead, handleEdit, handleDelete, handleReact, handleTyping, handleChatSubscribe, handleSyncRequest, handleSyncAck;
  apply answers_decode; intros p Hp; cbn [negb];
  try (apply answers_serve; intros a w Hrun; try (apply answers_ack, settles_refl); try (apply answers_nothing; [unfold quiet_event; rewrite Hev; set_solver|apply settles_refl])).
  - destruct (subscribeChat _ _ _ _) as [ok h] eqn:Hsub.
    assert (settles k (admitted k fr sv) (sv_hub sv) h) as Hs.
    { replace h with (subscribeChat (mo_bus_ok mo) (sk_id k) p (sv_hub sv)).2.
      2:{ change (sv_hub (set_messaging w sv)) with (sv_hub sv) in Hsub. by rewrite Hsub. }
      apply settles_subscribe. split_and!; [done..|]. by apply Service_History_member in Hrun. }
    destruct ok; cbn [negb]; [by apply answers_ack|by apply answers_error].
  - apply answers_ack. apply settles_unsubscribe.
  - destruct (EventLog.Sync _ _ _ _) as [events latest]. apply answers_ack, settles_refl.
  - apply answers_nothing; [unfold quiet_event; rewrite Hev; set_solver|apply settles_refl].
Qed.

Lemma sendFrame_client mo k f sv id : clients (sv_hub (sendFrame mo k f sv)) !! id =
  if decide (id = sk_id k) then enqueue (mo_pick mo) (marshal_frame f) <$> clients (sv_hub sv) !! id else clients (sv_hub sv) !! id.
Proof.
  unfold sendFrame, set_sv_hub, enqueue_at. simpl. case_decide as Hid; [subst id; by rewrite lookup_alter_eq|by rewrite lookup_alter_ne].
Qed.
Lemma enqueue_room pick data c : cl_closed c = None → Z.of_nat (length (cl_send c)) < sendBufferSize →
  enqueue pick data c = MkClient (cl_user c) (cl_subs c) (cl_send c ++ [data]) None.
Proof.
  intros Hc Hroom. unfold enqueue. rewrite Hc, (proj2 (Z.ltb_lt _ _) Hroom). done.
Qed.
End frames.

(** ** Connections *)

Section connections.
Context {G L T : Type} `{SpamGuard G} `{MessageLimiter L} `{PayloadCodec} `{FrameCodec}.
Implicit Types (sv : server G L) (k : socket) (fr : InFrame) (mo : moment G L) (h : hub).

(** One frame, one answer, to the socket that sent it and with its id; only a typing
    notice that was passed on and a cursor that was moved go without.  No other socket of the node
    sees or loses anything. *)
Lemma frames_are_answered mo k fr sv c : clients (sv_hub sv) !! sk_id k = Some c →
  cl_closed c = None → Z.of_nat (length (cl_send c)) < sendBufferSize →
  ∃ c' replies, clients (sv_hub (handle mo k fr sv)) !! sk_id k = Some c' ∧ cl_closed c' = None ∧
    cl_send c' = cl_send c ++ (marshal_frame <$> replies) ∧
    (replies = [] ∧ quiet_event fr ∨ ∃ f, replies = [f] ∧ fr_ID f = if_ID fr) ∧
    ∀ id, id ≠ sk_id k → cl_send <$> clients (sv_hub (handle mo k fr sv)) !! id = cl_send <$> clients (sv_hub sv) !! id.
Proof.
  intros Hc Hopen Hroom. destruct (handle_answers mo k fr sv) as [Hquiet Hs|f sv1 Hid Hs Heq].
  - pose proof (Hs (sk_id k)) as Hk. rewrite Hc in Hk. destruct (clients (sv_hub (handle mo k fr sv)) !! sk_id k) as [c'|]; [|done].
    destruct Hk as (_ & Hsend & Hcl & _). exists c', []. split; [done|]. rewrite Hcl, Hsend, app_nil_r.
    split_and!; [done|done|by left|]. intros id Hne. specialize (Hs id).
    destruct (clients (sv_hub sv) !! id), (clients (sv_hub (handle mo k fr sv)) !! id); try done. simpl. f_equal. apply Hs.
  - pose proof (Hs (sk_id k)) as Hk. rewrite Hc in Hk. rewrite Heq. destruct (clients (sv_hub sv1) !! sk_id k) as [c1|] eqn:Hc1; [|done].
    destruct Hk as (_ & Hsend & Hcl & _). exists (enqueue (mo_pick mo) (marshal_frame f) c1), [f].
    rewrite sendFrame_client, decide_True, Hc1 by done. split; [done|].
    rewrite enqueue_room by congruence. cbn [cl_closed cl_send]. rewrite Hsend. split_and!; [done|done|right; by exists f|].
    intros id Hne. rewrite sendFrame_client, decide_False by done. specialize (Hs id).
    destruct (clients (sv_hub sv) !! id), (clients (sv_hub sv1) !! id); try done. simpl. f_equal. apply Hs.
Qed.

Definition listens sv k (ch : uuid) : Prop := ∃ c, clients (sv_hub sv) !! sk_id k = Some c ∧ ch ∈ cl_subs c.
Lemma handle_listens mo k fr sv ch : listens (handle mo k fr sv) k ch → listens sv k ch ∨ admitted k fr sv ch.
Proof.
  assert (∀ h, settles k (admitted k fr sv) (sv_hub sv) h → ∀ c, clients h !! sk_id k = Some c → ch ∈ cl_subs c →
    listens sv k ch ∨ admitted k fr sv ch) as Hset.
  { intros h Hs c Hc Hin. specialize (Hs (sk_id k)). rewrite Hc in Hs. destruct (clients (sv_hub sv) !! sk_id k) as [c0|] eqn:Hc0; [|done].
    destruct Hs as (_ & _ & _ & Hs). rewrite decide_True in Hs by done. destruct (Hs ch Hin); [left; by exists c0|by right]. }
  intros (c & Hc & Hin). destruct (handle_answers mo k fr sv) as [_ Hs|f sv1 _ Hs Heq]; [by eapply Hset|].
  rewrite Heq, sendFrame_client, decide_True in Hc by done. apply fmap_Some in Hc as (c1 & Hc1 & ->).
  rewrite enqueue_subs in Hin. by eapply Hset.
Qed.
Lemma sendError_listens mo k id code message sv ch : listens (sendError mo k id code message sv) k ch → listens sv k ch.
Proof.
  intros (c & Hc & Hin). unfold sendError in Hc. rewrite sendFrame_client, decide_True in Hc by done.
  apply fmap_Some in Hc as (c1 & Hc1 & ->). rewrite enqueue_subs in Hin. by exists c1.
Qed.
Lemma unregister_clients id h : clients (unregister id h) = clients h.
Proof.
  unfold unregister. destruct (clients h !! id) as [c|]; [|done]. destruct (connections h !! cl_user c); [|done]. by case_decide.
Qed.
Lemma hang_up_listens k sv ch : listens (hang_up k sv) k ch → listens sv k ch.
Proof.
  intros (c & Hc & Hin). unfold hang_up in Hc. simpl in Hc. rewrite unregister_clients, lookup_alter_eq in Hc.
  apply fmap_Some in Hc as (c1 & Hc1 & ->). by exists c1.
Qed.

(** What the pump hands on, and the state it finds each time. *)
Fixpoint served k (arrivals : list (moment G L * string)) sv : list (server G L * InFrame) :=
  match arrivals with
  | [] => []
  | (mo, data) :: arrivals =>
      if maxFrameBytes <? Z.of_nat (String.length data) then []
      else match decode_frame data with
           | None => served k arrivals (receive mo k data sv)
           | Some fr => (mo_earlier mo sv, fr) ::
               (if socket_closed k (receive mo k data sv) then [] else served k arrivals (receive mo k data sv))
           end
  end.
(** What others do leaves the subscriptions of this socket alone. *)
Definition undisturbed k (arrival : moment G L * string) : Prop :=
  ∀ sv ch, listens (mo_earlier arrival.1 sv) k ch → listens sv k ch.

Lemma readPump_listens k arrivals sv ch : Forall (undisturbed k) arrivals → listens (readPump k arrivals sv) k ch →
  listens sv k ch ∨ ∃ sv1 fr, (sv1, fr) ∈ served k arrivals sv ∧ admitted k fr sv1 ch.
Proof.
  intros Hall. revert sv. induction Hall as [|[mo data] arrivals Hmo _ IH]; intros sv; simpl; [intros Hl; left; by apply hang_up_listens|].
  destruct (maxFrameBytes <? _); [intros Hl; left; by apply hang_up_listens|].
  destruct (decode_frame data) as [fr|] eqn:Hdec.
  - assert (receive mo k data sv = handle mo k fr (mo_earlier mo sv)) as Hrec by (unfold receive; by rewrite Hdec).
    assert (∀ more, listens (receive mo k data sv) k ch →
      listens sv k ch ∨ ∃ sv1 fr0, (sv1, fr0) ∈ (mo_earlier mo sv, fr) :: more ∧ admitted k fr0 sv1 ch) as Hone.
    { intros more Hl. rewrite Hrec in Hl. apply handle_listens in Hl as [Hl|Ha]; [left; by apply Hmo|].
      right. exists (mo_earlier mo sv), fr. split; [by left|done]. }
    destruct (socket_closed k (receive mo k data sv)); [intros Hl; apply Hone; by apply hang_up_listens|].
    intros Hl. apply IH in Hl as [Hl|(sv1 & fr1 & Hin & Ha)]; [by apply Hone|].
    right. exists sv1, fr1. split; [by right|done].
  - intros Hl. apply IH in Hl as [Hl|?]; [|by right]. left. apply Hmo. unfold receive in Hl. rewrite Hdec in Hl. by apply sendError_listens in Hl.
Qed.
End connections.

(** ** Sending over a socket *)

Section sending.
Context {G L : Type} `{SpamGuard G} `{MessageLimiter L} `{PayloadCodec} `{FrameCodec}.
Implicit Types (sv : server G L) (k : socket) (fr : InFrame) (mo : moment G L) (p : sendPayload).

Definition server_db sv : db := core (aw_db (sv_auth sv)).
(** The answer to a frame. *)
Definition tells mo k fr sv (f : Frame) : Prop := ∃ sv', handle mo k fr sv = sendFrame mo k f sv'.
Definition sends fr p : Prop :=
  if_Event fr = evtMessageSend ∧ if_Payload fr ≠ ""%string ∧ decode_send (if_Payload fr) = Some p.
(** The stores a send sees are in order. *)
Definition orderly mo sv : Prop :=
  store_ok (server_db sv) ∧ store_ok (mo_before mo (server_db sv)) ∧ store_ok (mo_after mo (mo_before mo (server_db sv))).
(** The message with the key of the frame. *)
Definition stored k p (mid : uuid) (seq : Z) (d : db) : Prop := ∃ row, messages d !! mid = Some row ∧ r_seq row = seq ∧
  r_chat_id row = sp_chat_id p ∧ r_sender_id row = Some (sk_user k) ∧ r_client_message_id row = sp_client_message_id p.
Definition refused (f : Frame) : Prop := ∃ code message, fr_Error f = Some (MkFrameError code message).
Definition names p (mid : uuid) (seq : Z) (f : Frame) : Prop :=
  ∃ chat t, fr_Payload f = Some (AckSent (sp_client_message_id p) mid chat seq t).

Lemma handle_sends mo k fr sv p : sends fr p → handle mo k fr sv =
  serve mo k fr (Service_Send (mo_now mo) (mo_new_id mo) (mo_before mo) (mo_after mo) (send_input k p))
    (λ m, sendAck mo k (if_ID fr) evtMessageSent (AckSent (sp_client_message_id p) (mID m) (mChatID m) (mSeq m) (mCreatedAt m))) sv.
Proof.
  intros (Hev & Hne & Hdec). unfold handle. rewrite Hev.
  rewrite bool_decide_false, bool_decide_true by done. unfold handleSend, decodePayload. by rewrite bool_decide_false, Hdec.
Qed.
(** A stored key survives what others commit. *)
Lemma stored_later k p mid seq d d' : rtc store_step d d' → store_ok d → stored k p mid seq d → stored k p mid seq d'.
Proof.
  intros Hsteps Hok (row & Hrow & Hseq & Hch & Hsd & Hcl).
  destruct (store_steps_persist _ _ Hsteps Hok mid row Hrow) as (row' & Hrow' & ? & ? & ? & ?).
  exists row'. split_and!; [done|congruence..].
Qed.
Lemma valid_key now i j : validateSend now i = Ok j →
  in_ChatID j = in_ChatID i ∧ in_SenderID j = in_SenderID i ∧ in_ClientMessageID j = in_ClientMessageID i.
Proof. intros Hv. apply validateSend_Ok, val_same in Hv. tauto. Qed.
Lemma send_stores mo k p (w : world G L) m w' :
  store_ok (w_db w) → store_ok (mo_before mo (w_db w)) → store_ok (mo_after mo (mo_before mo (w_db w))) →
  Service_Send (mo_now mo) (mo_new_id mo) (mo_before mo) (mo_after mo) (send_input k p) w = (Ok m, w') →
  store_ok (w_db w') ∧ stored k p (mID m) (mSeq m) (w_db w') ∧
  (∀ mid seq, stored k p mid seq (w_db w) → mID m = mid ∧ mSeq m = seq).
Proof.
  intros Hok Hokb Hoka (j & cx & topicID & res & d & Hval & _ & Hsend & -> & -> & _)%Service_Send_Ok_inv.
  apply valid_key in Hval as (Hch & Hsd & Hcl). simpl in Hch, Hsd, Hcl.
  assert (sp_AsChat (send_params j topicID) = false) as Has by done.
  destruct (Send_has_key _ _ _ _ _ _ _ _ Hok Hokb Hoka Has Hsend) as [Hok' (row & (Hrow & Hc & Hs & Hm) & Hseq)].
  split; [done|]. split.
  - exists row. simpl in Hc, Hs, Hm. split_and!; congruence.
  - intros mid seq (row0 & Hrow0 & Hseq0 & Hch0 & Hsd0 & Hcl0). unfold Send in Hsend.
    rewrite (messageByClientID_found (send_params j topicID) (w_db w) mid row0) in Hsend.
    + injection Hsend as <- _. by rewrite <-Hseq0.
    + done.
    + split; [done|]. simpl. split_and!; congruence.
Qed.

Lemma tells_send mo k fr sv p : sends fr p → orderly mo sv → ∃ f, tells mo k fr sv f ∧ fr_ID f = if_ID fr ∧
  (refused f ∨ ∃ mid seq, names p mid seq f ∧ store_ok (server_db (handle mo k fr sv)) ∧ stored k p mid seq (server_db (handle mo k fr sv)) ∧
     ∀ mid0 seq0, stored k p mid0 seq0 (server_db sv) → mid = mid0 ∧ seq = seq0).
Proof.
  intros Hs (Hok & Hokb & Hoka). unfold tells. rewrite (handle_sends _ _ _ _ p Hs). unfold serve.
  destruct (Service_Send _ _ _ _ _ _) as [[m|e] w] eqn:Hrun.
  - apply (send_stores mo k p) in Hrun as (Hok' & Hst & Hsame); [|done..]. unfold sendAck.
    eexists. split; [by eexists|]. split; [done|]. right. exists (mID m), (mSeq m). split_and!; [by eexists _, _|done|done|exact Hsame].
  - unfold failFrame, sendError. eexists. split; [by eexists|]. split; [done|]. left. by eexists _, _.
Qed.
End sending.

(** C8: A frame that sends a message is answered on its socket and with its id, by a refusal or by
    the number of a message that is stored under the key the device chose; and from then on,
    whatever commits in between, on any socket of the user, at any node, a frame with that key is
    refused or answered with the same message at the same number.  So a device may send again
    after a lost connection. *)
Theorem resent_frames_name_one_message `{SpamGuard G} `{MessageLimiter L} `{PayloadCodec} `{FrameCodec}
    (mo : moment G L) k fr (sv : server G L) p :
  sends fr p → orderly mo sv →
  ∃ f, tells mo k fr sv f ∧ fr_ID f = if_ID fr ∧
  (refused f ∨ ∃ mid seq, names p mid seq f ∧ stored k p mid seq (server_db (handle mo k fr sv)) ∧
     ∀ (mo2 : moment G L) k2 fr2 (sv2 : server G L) p2,
       rtc store_step (server_db (handle mo k fr sv)) (server_db sv2) → orderly mo2 sv2 → sends fr2 p2 →
       sk_user k2 = sk_user k → sp_chat_id p2 = sp_chat_id p → sp_client_message_id p2 = sp_client_message_id p →
       ∃ f2, tells mo2 k2 fr2 sv2 f2 ∧ fr_ID f2 = if_ID fr2 ∧ (refused f2 ∨ names p2 mid seq f2)).
Proof.
  intros Hs Ho. destruct (tells_send mo k fr sv p Hs Ho) as (f & Hf & Hid & Hcase). exists f. split; [done|]. split; [done|].
  destruct Hcase as [?|(mid & seq & Hn & Hok & Hst & _)]; [by left|right]. exists mid, seq. split; [done|]. split; [done|].
  intros mo2 k2 fr2 sv2 p2 Hsteps Ho2 Hs2 Hu Hch Hcl. destruct (tells_send mo2 k2 fr2 sv2 p2 Hs2 Ho2) as (f2 & Hf2 & Hid2 & Hcase2).
  exists f2. split; [done|]. split; [done|]. destruct Hcase2 as [?|(mid2 & seq2 & Hn2 & _ & _ & Hsame)]; [by left|right].
  destruct (Hsame mid seq) as [-> ->]; [|done]. pose proof (stored_later _ _ _ _ _ _ Hsteps Hok Hst) as (row & ? & ? & ? & ? & ?).
  exists row. split_and!; congruence.
Qed.

(** ** Entering, listening, and what outlives them *)

Section entering.
Context {G L : Type} `{SpamGuard G} `{MessageLimiter L} `{PayloadCodec} `{FrameCodec}.
Implicit Types (sv : server G L) (k : socket) (mo : moment G L).

Lemma register_clients ok id u h : clients (register ok id u h).2 = clients h.
Proof. unfold register. case_decide; [done|]. by destruct ok. Qed.
(** A socket starts with the [connected] frame, alone in its queue, and listening to no chat. *)
Lemma connected_comes_first mo k sv sv' : enter mo k sv = (true, sv') → ∃ cursor latest,
  clients (sv_hub sv') !! sk_id k = Some (MkClient (sk_user k) ∅ [marshal_frame (MkFrame "" evtConnected
    (Some (AckConnected (sk_user k) (sk_device k) ProtocolVersion cursor latest 25000)) None)] None) ∧
  cursor = device_cursor (sk_user k) (sk_device k) (aw_db (sv_auth sv)) ∧
  latest = default 0 (user_event_counters (server_db sv) !! sk_user k).
Proof.
  unfold enter. set (sv1 := greet mo k sv). destruct (register _ _ _ _) as [ok h] eqn:Hreg.
  assert (h = (register (mo_bus_ok mo) (sk_id k) (sk_user k) (sv_hub sv1)).2) as Hh by by rewrite Hreg.
  destruct ok; [|done]. intros [= <-]. eexists _, _. split; [|split; reflexivity]. simpl. rewrite Hh, register_clients.
  unfold sv1, greet, sendAck. rewrite sendFrame_client, decide_True by done. simpl. rewrite lookup_insert_eq. simpl.
  by rewrite enqueue_room.
Qed.

(** A handshake that is let in is its token's owner's. *)
Lemma handshake_authenticates {T} `{AuthLimiter L} `{JWT T} `{UuidParse} `{Digest} `{Argon2} cfg (token_text : string → T)
    origins mo id rq sv k sv' : handshake cfg token_text origins mo id rq sv = (Ok k, sv') →
  ∃ p a, AuthenticateToken cfg (mo_now mo) (token_text (presented_token rq)) (sv_auth sv) = (Ok p, a) ∧
    k = MkSocket id (prUserID p) (prDeviceID p) (prSessionID p) ∧ presented_token rq ≠ ""%string ∧
    version_spoken (hs_version rq) = true ∧ CheckOrigin origins (hs_origin rq) = true ∧
    enter mo k (set_sv_auth a sv) = (true, sv').
Proof.
  unfold handshake. destruct (bool_decide_reflect (presented_token rq = ""%string)) as [|Htok]; [done|].
  destruct (version_spoken (hs_version rq)) eqn:Hver; [|done]. cbn [negb].
  destruct (AuthenticateToken _ _ _ _) as [[p|e] a] eqn:Hauth; [|done].
  destruct (CheckOrigin origins (hs_origin rq)) eqn:Horigin; [|done]. cbn [negb].
  destruct (enter _ _ _) as [[|] sv1] eqn:Henter; [|done]. intros [= <- <-]. by exists p, a.
Qed.

(** What a socket hears does not depend on who is a member now. *)
Lemma subscription_outlives_membership mo k sv w ch data pick c : clients (sv_hub sv) !! sk_id k = Some c →
  registered (sv_hub sv) (sk_id k) c = true → ch ∈ cl_subs c → rtc hub_step NewHub (sv_hub sv) →
  active_member (w_db w) ch (sk_user k) = None →
  clients (deliverToChat ch data pick (sv_hub (set_messaging w sv))) !! sk_id k = Some (enqueue (pick (sk_id k)) data c).
Proof.
  intros Hc Hreg Hin Hrun _. destruct (delivery_reaches_the_open_sockets (sv_hub sv) data pick Hrun) as [Hch _].
  rewrite Hch, Hc. simpl. by rewrite Hreg, bool_decide_true.
Qed.

(** Two nodes that differ in nothing messaging or the hub sees. *)
Definition alike sv sv' : Prop := messaging sv = messaging sv' ∧ sv_hub sv = sv_hub sv'.
Lemma alike_send mo k f sv sv' : alike sv sv' → alike (sendFrame mo k f sv) (sendFrame mo k f sv').
Proof. intros [Hm Hh]. split; [exact Hm|]. simpl. by rewrite Hh. Qed.
Lemma alike_decode {P} (decode : string → option P) mo k fr go sv sv' : alike sv sv' →
  (∀ p, alike (go p sv) (go p sv')) → alike (decodePayload decode mo k fr go sv) (decodePayload decode mo k fr go sv').
Proof.
  intros Ha Hgo. unfold decodePayload. destruct (bool_decide _); [by apply alike_send|].
  destruct (decode _); [apply Hgo|by apply alike_send].
Qed.
Lemma alike_set_messaging w sv sv' : sv_hub sv = sv_hub sv' → alike (set_messaging w sv) (set_messaging w sv').
Proof. intros Hh. by split. Qed.
Lemma alike_serve {A} mo k fr (m : prog (world G L) Error A) answer sv sv' : alike sv sv' →
  (∀ a w, alike (answer a (set_messaging w sv)) (answer a (set_messaging w sv'))) →
  alike (serve mo k fr m answer sv) (serve mo k fr m answer sv').
Proof.
  intros [Hm Hh] Hans. unfold serve. rewrite Hm. destruct (m (messaging sv')) as [[a|e] w]; [apply Hans|].
  by apply alike_send, alike_set_messaging.
Qed.
(** No frame looks at the session its socket was opened with, at the account or at the cache: one
    that was signed out, or banned, goes on as before while its socket lasts. *)
Lemma socket_outlives_session mo k fr sv a : core (aw_db a) = core (aw_db (sv_auth sv)) → aw_limiter a = aw_limiter (sv_auth sv) →
  alike (handle mo k fr (set_sv_auth a sv)) (handle mo k fr sv).
Proof.
  intros Hcore Hlim. assert (alike (set_sv_auth a sv) sv) as Ha.
  { split; [|done]. unfold messaging. simpl. by rewrite Hcore, Hlim. }
  revert Ha. generalize (set_sv_auth a sv) as sv1. intros sv1 Ha. pose proof Ha as [Hm Hh]. unfold handle.
  repeat match goal with |- context [if bool_decide (if_Event fr = ?e) then _ else _] => destruct (bool_decide (if_Event fr = e)) end;
  try (by apply alike_send);
  unfold handleSend, handleRead, handleEdit, handleDelete, handleReact, handleTyping, handleChatSubscribe, handleSyncRequest, handleSyncAck;
  (apply alike_decode; [done|]); intros p; cbn [negb];
  try (apply alike_serve; [done|]; intros b w; try (apply alike_send); try (by apply alike_set_messaging)).
  - change (sv_hub (set_messaging w sv1)) with (sv_hub sv1). change (sv_hub (set_messaging w sv)) with (sv_hub sv). rewrite Hh.
    destruct (subscribeChat _ _ _ _) as [[|] h]; apply alike_send; by split.
  - apply alike_send. split; [exact Hm|]. simpl. by rewrite Hh.
  - rewrite Hm. destruct (EventLog.Sync _ _ _ _). by apply alike_send.
  - rewrite Hm. by apply alike_set_messaging.
Qed.
End entering.

(** Whatever chat a socket listens to, at any time while it is open, it asked for in a frame
    of its own, and its user was a member of the chat when that frame was handled; whatever others
    commit in between, and whatever else the socket sends.  A socket starts by listening to none. *)
Lemma listening_takes_membership `{SpamGuard G} `{MessageLimiter L} `{PayloadCodec} `{FrameCodec}
    (mo : moment G L) k (sv sv1 : server G L) arrivals ch :
  enter mo k sv = (true, sv1) → Forall (undisturbed k) arrivals → listens (readPump k arrivals sv1) k ch →
  ∃ sv2 fr, (sv2, fr) ∈ served k arrivals sv1 ∧
    if_Event fr = evtChatSubscribe ∧ decode_chat (if_Payload fr) = Some ch ∧
    is_Some (active_member (server_db sv2) ch (sk_user k)).
Proof.
  intros (cursor & latest & Hc & _)%connected_comes_first Hall Hl.
  apply readPump_listens in Hl as [(c & Hc' & Hin)|(sv2 & fr & Hin & Ha)]; [|by exists sv2, fr|done].
  exfalso. rewrite Hc in Hc'. injection Hc' as <-. simpl in Hin. by apply not_elem_of_empty in Hin.
Qed.

(** ** Concrete runs *)

(** A codec for three documents. *)
Definition toy_frames : FrameCodec := {|
  marshal_frame := λ f, (fr_ID f +:+ " " +:+ fr_Event f)%string;
  decode_frame := λ data,
    if bool_decide (data = "open"%string) then Some (MkInFrame "1" evtChatSubscribe "ten")
    else if bool_decide (data = "say"%string) then Some (MkInFrame "2" evtMessageSend "hello") else None;
  decode_send := λ _, Some (MkSendPayload 10 80 TypeText "hello" RawNil RawNil None [] [] false);
  decode_read := λ _, None;
  decode_edit := λ _, None;
  decode_message := λ _, None;
  decode_react := λ _, None;
  decode_chat := λ payload, if bool_decide (payload = "ten"%string) then Some 10%N else None;
  decode_sync := λ _, None;
  decode_cursor := λ _, None;
|}.
#[local] Existing Instance toy_frames.
#[local] Existing Instance toy_codec.
Abbreviation sample_server_type := (server (gmap (string * string) Antispam.Score) limiter_state) (only parsing).
Definition sample_server : sample_server_type :=
  MkServer (MkAuthWorld (MkAuthDb sample_db ∅ ∅ ∅ ∅ ∅ ∅ ∅ ∅ [] [] ∅)
    (MkLimiterState ∅ true true (NewRules sample_limits) 0) empty_cache []) (Some ∅) 1 [] NewHub [].
Definition sample_socket : socket := MkSocket 50 2 60 70.
Definition sample_moment : moment (gmap (string * string) Antispam.Score) limiter_state :=
  MkMoment minute 300 (λ sv, sv) sample_env sample_env true false.

Lemma listening_takes_membership_witness :
  ∃ (sv2 : sample_server_type) fr, decode_chat (if_Payload fr) = Some 10%N ∧ is_Some (active_member (server_db sv2) 10 2).
Proof.
  destruct (listening_takes_membership sample_moment sample_socket sample_server (enter sample_moment sample_socket sample_server).2
    [(sample_moment, "open"%string)] 10) as (sv2 & fr & _ & _ & Hdec & Hmem).
  - vm_compute. reflexivity.
  - repeat constructor. intros sv ch Hl. exact Hl.
  - eexists. split; [vm_compute; reflexivity|]. apply (bool_decide_unpack _). vm_compute. exact I.
  - exists sv2, fr. split; [exact Hdec|exact Hmem].
Defined.

Lemma resent_frames_name_one_message_witness :
  ∃ f, tells sample_moment sample_socket (MkInFrame "2" evtMessageSend "hello") sample_server f ∧ fr_ID f = "2"%string.
Proof.
  destruct (resent_frames_name_one_message sample_moment sample_socket (MkInFrame "2" evtMessageSend "hello") sample_server
    (MkSendPayload 10 80 TypeText "hello" RawNil RawNil None [] [] false)) as (f & Hf & Hid & _).
  - split; [reflexivity|]. split; [discriminate|reflexivity].
  - split; [|split]; exact (proj2 sample_ok).
  - exists f. split; [exact Hf|exact Hid].
Defined.

(** The answer is the number of the message. *)
Example sample_answer :
  (cl_send <$> clients (sv_hub (receive sample_moment sample_socket "say"
     (enter sample_moment sample_socket sample_server).2)) !! 50%N) = Some [" connected"; "2 message.sent"]%string.
Proof. vm_compute. reflexivity. Qed.
