(* ===== verification/ChatRoutes.v ===== *)
(** * The routes of chats and messages ([internal/messaging/handler.go], [organise.go], [internal/groups/handler.go])

    What a request carries, how each handler reads it, which call of the services it makes and
    what it answers.  A handler runs on the messaging world with the tables of filing; times in
    text are a class.  Proved here: that no request puts words in anybody else's mouth and an
    anonymous one does nothing, and that following the cursors of a history reads all of it. *)

From stdpp Require Import base tactics list sorting gmap strings.
From Stdlib Require Import ZArith Lia Floats.SpecFloat.
From S2P Require Import Prelude Steps GoString Httpx Permissions Store ChatContext EventLog MessageRepo MessageTheory HistoryTheory RateLimit Ports Antispam Payloads MessagingService MessagingTheory Social Organise Folders Topics GroupsRepo Groups Comments Auth Http OrganiseTheory.

Set Default Goal Selector "!".
Open Scope Z_scope.

(** ** Reading a request *)

Definition pathUUID {S} (name : string) (parsed : option uuid) : prog S Error uuid :=
  or_fail parsed (BadRequest (name +:+ " is not a valid UUID")).
(** [queryInt] of the messaging handlers: a size that is not positive is none. *)
Definition query_size (raw : string) (fallback : Z) : Z :=
  if bool_decide (raw = ""%string) then fallback
  else match Atoi raw with Some v => if v <=? 0 then fallback else v | None => fallback end.
(** [before_seq], [after_seq], [cursor]; [strconv.ParseInt] at 64 bits is [Atoi]. *)
Definition query_seq {S} (name raw : string) : prog S Error (option Z) :=
  if bool_decide (raw = ""%string) then mret None
  else (v ← or_fail (Atoi raw) (BadRequest (name +:+ " must be an integer")); mret (Some v)).
Definition chatFrom {S} (p : option Principal) (chatID : option uuid) : prog S Error (Principal * uuid) :=
  principal ← MustPrincipal p; id ← pathUUID "chatID" chatID; mret (principal, id).
Definition topicFrom {S} (p : option Principal) (chatID topicID : option uuid) : prog S Error (Principal * uuid * uuid) :=
  x ← chatFrom p chatID; id ← pathUUID "topicID" topicID; mret (x, id).
Definition folderContext {S} (p : option Principal) (folderID : option uuid) : prog S Error (Principal * uuid) :=
  principal ← MustPrincipal p; id ← pathUUID "folderID" folderID; mret (principal, id).
Definition messageFrom {S} (p : option Principal) (messageID : option uuid) : prog S Error (Principal * uuid) :=
  principal ← MustPrincipal p; id ← pathUUID "messageID" messageID; mret (principal, id).

(** [time.Parse(time.RFC3339, s)], [t.Format(time.RFC3339Nano)] *)
Class TimeText := {
  parse_rfc3339 : string → option time;
  format_nano : time → string;
}.
(** [httpx.Meta] with the list it goes with. *)
Record page (A : Type) := MkPage { pg_items : list A; pg_HasMore : bool; pg_NextCursor : string }.
Arguments MkPage {A}.
Arguments pg_items {A}.
Arguments pg_HasMore {A}.
Arguments pg_NextCursor {A}.
Definition message_page (limit : Z) (l : list Message) : page Message :=
  MkPage l (Z.of_nat (length l) =? limit) (match last l with Some m => Itoa (mSeq m) | None => "" end).

(** What requests of these routes meet and mint. *)
Record chat_env (G L : Type) := MkChatEnv {
  cv_now : time;
  cv_new_id : uuid;
  cv_before : db → db;
  cv_after : db → db;
  cv_meanwhile : db → db;
  cv_filing : organisedb → organisedb;
  cv_copies : nat → uuid * uuid * (db → db) * (db → db);
  cv_a_year_on : time;
  cv_slug : string;
  cv_base_url : string;
  cv_mirror : mirror_env G L;
}.
Arguments MkChatEnv {G L}.
Arguments cv_now {G L}.
Arguments cv_new_id {G L}.
Arguments cv_before {G L}.
Arguments cv_after {G L}.
Arguments cv_meanwhile {G L}.
Arguments cv_filing {G L}.
Arguments cv_copies {G L}.
Arguments cv_a_year_on {G L}.
Arguments cv_slug {G L}.
Arguments cv_base_url {G L}.
Arguments cv_mirror {G L}.

(** Bodies. *)
Record sendBody := MkSendBody {
  sb_ClientMessageID : uuid;
  sb_Type : string;
  sb_Content : string;
  sb_Entities : raw;
  sb_Payload : raw;
  sb_ReplyToID : option uuid;
  sb_Attachments : list Attachment;
  sb_Mentions : list uuid;
  sb_IsSilent : bool;
  sb_TopicID : option uuid;
}.
Record live_location_body := MkLiveLocationBody {
  lb_Latitude : spec_float;
  lb_Longitude : spec_float;
  lb_HorizontalAccuracy : spec_float;
  lb_Heading : spec_float;
  lb_Speed : spec_float;
}.
Record schedule_body := MkScheduleBody {
  cb_ClientMessageID : uuid;
  cb_Type : string;
  cb_Content : string;
  cb_Attachments : list Attachment;
  cb_ReplyToID : option uuid;
  cb_IsSilent : bool;
  cb_ScheduledAt : time;
}.
Record roleBody := MkRoleBody { ro_Name : string; ro_Permissions : gmap string bool; ro_Rank : Z }.
Definition or_text (type : string) : string := if bool_decide (type = ""%string) then TypeText else type.

(** ** The routes *)

Inductive request :=
| Route_listChats (limit before folder_id : string) (folder : option uuid)
| Route_openPrivateChat (b : Body uuid)
| Route_history (chatID : option uuid) (before_seq after_seq limit : string)
| Route_clearHistory (chatID : option uuid) (content_length : Z) (b : Body bool)
| Route_send (chatID : option uuid) (b : Body sendBody)
| Route_markRead (chatID : option uuid) (b : Body Z)
| Route_setDraft (chatID : option uuid) (b : Body string)
| Route_typing (chatID : option uuid) (b : Body bool)
| Route_edit (messageID : option uuid) (b : Body (string * raw))
| Route_delete (messageID : option uuid)
| Route_react (messageID : option uuid) (b : Body string)
| Route_readReceipts (messageID : option uuid) (limit : string)
| Route_sync (cursor limit : string)
| Route_folders
| Route_createFolder (b : Body FolderInput)
| Route_updateFolder (folderID : option uuid) (b : Body FolderInput)
| Route_deleteFolder (folderID : option uuid)
| Route_setFolderChat (folderID chatID : option uuid) (b : Body string)
| Route_removeFolderChat (folderID chatID : option uuid)
| Route_reorderFolders (b : Body (list uuid))
| Route_enableForum (chatID : option uuid)
| Route_disableForum (chatID : option uuid)
| Route_topics (chatID : option uuid) (limit : string)
| Route_createTopic (chatID : option uuid) (b : Body (string * string * Z))
| Route_updateTopic (chatID topicID : option uuid) (b : Body TopicUpdate)
| Route_deleteTopic (chatID topicID : option uuid)
| Route_topicHistory (chatID topicID : option uuid) (before_seq after_seq limit : string)
| Route_markTopicRead (chatID topicID : option uuid) (b : Body Z)
| Route_updateLiveLocation (messageID : option uuid) (b : Body live_location_body)
| Route_stopLiveLocation (messageID : option uuid)
| Route_forward (chatID : option uuid) (b : Body (uuid * list uuid * bool))
| Route_setPinned (messageID : option uuid) (b : Body bool)
| Route_pinnedMessages (chatID : option uuid)
| Route_setChatFlags (chatID : option uuid) (b : Body (option bool * option bool))
| Route_setMuted (chatID : option uuid) (b : Body (option time))
| Route_scheduled (chatID : option uuid)
| Route_schedule (chatID : option uuid) (b : Body schedule_body)
| Route_cancelScheduled (scheduledID : option uuid)
| Route_create (b : Body CreateInput)
| Route_update (chatID : option uuid) (b : Body (option string * option string * option string * option uuid))
| Route_deleteChat (chatID : option uuid)
| Route_leave (chatID : option uuid)
| Route_members (chatID : option uuid) (limit offset : string)
| Route_addMembers (chatID : option uuid) (b : Body (list uuid))
| Route_removeMember (chatID userID : option uuid)
| Route_setRole (chatID userID : option uuid) (b : Body (string * gmap string bool * string))
| Route_transferOwnership (chatID : option uuid) (b : Body uuid)
| Route_settings (chatID : option uuid)
| Route_updateSettings (chatID : option uuid) (b : Body Settings)
| Route_inviteLinks (chatID : option uuid)
| Route_createInviteLink (chatID : option uuid) (b : Body (string * option Z * option time))
| Route_revokeInviteLink (chatID linkID : option uuid)
| Route_joinByInvite (slug : string)
| Route_joinPublic (chatID : option uuid)
| Route_joinRequests (chatID : option uuid)
| Route_resolveJoinRequest (chatID userID : option uuid) (b : Body bool)
| Route_recordView (chatID messageID : option uuid)
| Route_statistics (chatID : option uuid) (message_id : list (option uuid))
| Route_linkDiscussion (chatID : option uuid) (b : Body uuid)
| Route_unlinkDiscussion (chatID : option uuid)
| Route_comments (chatID messageID : option uuid) (before_seq limit : string)
| Route_comment (chatID messageID : option uuid) (b : Body (uuid * string * string * raw * list Attachment))
| Route_roles (chatID : option uuid)
| Route_createRole (chatID : option uuid) (b : Body roleBody)
| Route_updateRole (chatID roleID : option uuid) (b : Body roleBody)
| Route_deleteRole (chatID roleID : option uuid)
| Route_assignRole (chatID userID : option uuid) (b : Body (option uuid)).

Section routes.
Context `{SpamGuard G} `{MessageLimiter L} `{PayloadCodec} `{TimeText} (topic_json : Topic → json) (lower : string → string) (created : uuid → time).
Abbreviation handler := (prog (org_world G L) Error) (only parsing).
Implicit Types (e : chat_env G L) (p : option Principal).

(** A handler of the filing tables. *)
Definition in_filing {A} (m : db → prog organisedb Error A) : handler A := λ w,
  let r := m (w_db (og_world w)) (og_db w) in (r.1, MkOrgWorld (og_world w) r.2).

(** ** Conversations *)

Definition handle_listChats e p (limit before folder_id : string) (folder : option uuid) : handler (page Chat) :=
  principal ← MustPrincipal p;
  before ← (if bool_decide (before = ""%string) then mret None
            else t ← or_fail (parse_rfc3339 before) (BadRequest "before must be an RFC3339 timestamp"); mret (Some t));
  folderID ← (if bool_decide (folder_id = ""%string) then mret None
              else f ← or_fail folder (BadRequest "folder_id must be a UUID"); mret (Some f));
  gets (λ w,
    let '(chats, more, next) := listChats created (cv_now e) (w_db (og_world w)) (og_db w) (prUserID principal) (query_size limit 50) before folderID in
    MkPage chats more (from_option format_nano ""%string next)).
Definition handle_openPrivateChat e p (b : Body uuid) : handler uuid :=
  principal ← MustPrincipal p;
  user ← DecodeJSON b;
  fail_if (bool_decide (user = uuid_nil)) (WithField (Validation "user_id is required") "user_id" "required");;
  in_world (OpenPrivateChat (cv_now e) (cv_new_id e) (cv_before e) (cv_after e) (prUserID principal) user).
Definition handle_history p (chatID : option uuid) (before_seq after_seq limit : string) : handler (page Message) :=
  '(principal, chatID) ← chatFrom p chatID;
  beforeSeq ← query_seq "before_seq" before_seq;
  afterSeq ← query_seq "after_seq" after_seq;
  let limit := query_size limit 50 in
  messages ← in_world (Service_History chatID (prUserID principal) beforeSeq afterSeq limit);
  mret (message_page limit messages).
(** A body is read only when its length is announced. *)
Definition handle_clearHistory e p (chatID : option uuid) (content_length : Z) (b : Body bool) : handler (uuid * Z * bool) :=
  '(principal, chatID) ← chatFrom p chatID;
  everyone ← (if 0 <? content_length then DecodeJSON b else mret false);
  watermark ← in_world (Service_ClearHistory (cv_now e) chatID (prUserID principal) everyone);
  mret (chatID, watermark, everyone).
Definition body_input (chatID senderID : uuid) (b : sendBody) : SendInput :=
  MkSendInput chatID senderID (sb_ClientMessageID b) (or_text (sb_Type b)) (sb_Content b) (sb_Entities b) (sb_Payload b)
    (sb_ReplyToID b) (sb_Attachments b) (sb_Mentions b) None RawNil (sb_IsSilent b) (sb_TopicID b).
Definition handle_send e p (chatID : option uuid) (b : Body sendBody) : handler Message :=
  '(principal, chatID) ← chatFrom p chatID;
  body ← DecodeJSON b;
  in_world (Service_Send (cv_now e) (cv_new_id e) (cv_before e) (cv_after e) (body_input chatID (prUserID principal) body)).
Definition handle_markRead e p (chatID : option uuid) (b : Body Z) : handler Z :=
  '(principal, chatID) ← chatFrom p chatID;
  seq ← DecodeJSON b;
  in_world (Service_MarkRead (cv_now e) chatID (prUserID principal) seq).
Definition handle_setDraft p (chatID : option uuid) (b : Body string) : handler () :=
  '(principal, chatID) ← chatFrom p chatID;
  draft ← DecodeJSON b;
  in_world (Service_SetDraft chatID (prUserID principal) draft).
Definition handle_typing p (chatID : option uuid) (b : Body bool) : handler () :=
  '(principal, chatID) ← chatFrom p chatID;
  typing ← DecodeJSON b;
  in_world (SetTyping chatID (prUserID principal) typing).
Definition handle_edit e p (messageID : option uuid) (b : Body (string * raw)) : handler Message :=
  '(principal, messageID) ← messageFrom p messageID;
  body ← DecodeJSON b;
  in_world (Service_Edit (cv_now e) messageID (prUserID principal) body.1 body.2).
Definition handle_delete e p (messageID : option uuid) : handler () :=
  '(principal, messageID) ← messageFrom p messageID;
  in_world (Service_Delete (cv_now e) messageID (prUserID principal)).
Definition handle_react e p (messageID : option uuid) (b : Body string) : handler (string * bool) :=
  '(principal, messageID) ← messageFrom p messageID;
  emoji ← DecodeJSON b;
  added ← in_world (Service_React (cv_now e) messageID (prUserID principal) emoji);
  mret (emoji, added).
Definition handle_readReceipts p (messageID : option uuid) (limit : string) : handler (list ReadReceipt * Z) :=
  '(principal, messageID) ← messageFrom p messageID;
  receipts ← in_world (Service_ReadReceipts messageID (prUserID principal) (query_size limit MaxReadReceipts));
  mret (receipts, Z.of_nat (length receipts)).
Definition handle_sync p (cursor limit : string) : handler (list Event * Z) :=
  principal ← MustPrincipal p;
  cursor ← query_seq "cursor" cursor;
  gets (λ w, EventLog.Sync (prUserID principal) (default 0 cursor) (query_size limit 200) (w_db (og_world w))).

(** ** Folders *)

Definition handle_folders e p : handler (list Folder) :=
  principal ← MustPrincipal p;
  gets (λ w, Folders (cv_now e) (w_db (og_world w)) (og_db w) (prUserID principal)).
Definition handle_createFolder e p (b : Body FolderInput) : handler uuid :=
  principal ← MustPrincipal p;
  body ← DecodeJSON b;
  in_filing (λ _, Service_CreateFolder lower (cv_now e) (cv_new_id e) (cv_filing e) (prUserID principal) body).
Definition handle_updateFolder e p (folderID : option uuid) (b : Body FolderInput) : handler () :=
  '(principal, folderID) ← folderContext p folderID;
  body ← DecodeJSON b;
  in_filing (λ _, Service_UpdateFolder lower (cv_now e) (prUserID principal) folderID body).
Definition handle_deleteFolder p (folderID : option uuid) : handler () :=
  '(principal, folderID) ← folderContext p folderID;
  in_filing (λ _, Service_DeleteFolder (prUserID principal) folderID).
Definition handle_setFolderChat e p (folderID chatID : option uuid) (b : Body string) : handler () :=
  '(principal, folderID) ← folderContext p folderID;
  chatID ← pathUUID "chatID" chatID;
  mode ← DecodeJSON b;
  let mode := if bool_decide (mode = ""%string) then "include"%string else mode in
  in_filing (λ d, Service_SetFolderChat (cv_now e) (cv_filing e) d (prUserID principal) folderID chatID mode).
Definition handle_removeFolderChat p (folderID chatID : option uuid) : handler () :=
  '(principal, folderID) ← folderContext p folderID;
  chatID ← pathUUID "chatID" chatID;
  in_filing (λ _, Service_RemoveFolderChat (prUserID principal) folderID chatID).
Definition handle_reorderFolders e p (b : Body (list uuid)) : handler () :=
  principal ← MustPrincipal p;
  order ← DecodeJSON b;
  in_filing (λ _, Service_ReorderFolders (cv_now e) (prUserID principal) order).

(** ** Topics *)

Definition handle_enableForum e p (chatID : option uuid) : handler Topic :=
  '(principal, chatID) ← chatFrom p chatID;
  in_world (Service_EnableForum (cv_now e) (cv_new_id e) chatID (prUserID principal)).
Definition handle_disableForum p (chatID : option uuid) : handler () :=
  '(principal, chatID) ← chatFrom p chatID;
  in_world (Service_DisableForum chatID (prUserID principal)).
Definition handle_topics p (chatID : option uuid) (limit : string) : handler (list Topic) :=
  '(principal, chatID) ← chatFrom p chatID;
  in_world (Service_Topics chatID (prUserID principal) (query_size limit 100)).
Definition handle_createTopic e p (chatID : option uuid) (b : Body (string * string * Z)) : handler Topic :=
  '(principal, chatID) ← chatFrom p chatID;
  body ← DecodeJSON b;
  in_world (Service_CreateTopic topic_json (cv_now e) (cv_new_id e) chatID (prUserID principal) body.1.1 body.1.2 body.2).
Definition handle_updateTopic p (chatID topicID : option uuid) (b : Body TopicUpdate) : handler Topic :=
  '(principal, chatID, topicID) ← topicFrom p chatID topicID;
  body ← DecodeJSON b;
  in_world (Service_UpdateTopic topic_json chatID topicID (prUserID principal) body).
Definition handle_deleteTopic e p (chatID topicID : option uuid) : handler () :=
  '(principal, chatID, topicID) ← topicFrom p chatID topicID;
  in_world (Service_DeleteTopic (cv_now e) chatID topicID (prUserID principal)).
Definition handle_topicHistory p (chatID topicID : option uuid) (before_seq after_seq limit : string) : handler (page Message) :=
  '(principal, chatID, topicID) ← topicFrom p chatID topicID;
  beforeSeq ← query_seq "before_seq" before_seq;
  afterSeq ← query_seq "after_seq" after_seq;
  let limit := query_size limit 50 in
  messages ← in_world (Service_TopicHistory chatID topicID (prUserID principal) beforeSeq afterSeq limit);
  mret (message_page limit messages).
Definition handle_markTopicRead p (chatID topicID : option uuid) (b : Body Z) : handler (uuid * Z) :=
  '(principal, chatID, topicID) ← topicFrom p chatID topicID;
  seq ← DecodeJSON b;
  newSeq ← in_world (Service_MarkTopicRead chatID topicID (prUserID principal) seq);
  mret (topicID, newSeq).

(** ** Moving messages and chats around *)

Definition handle_updateLiveLocation e p (messageID : option uuid) (b : Body live_location_body) : handler Message :=
  '(principal, messageID) ← messageFrom p messageID;
  body ← DecodeJSON b;
  in_world (Service_UpdateLiveLocation (cv_now e) (cv_meanwhile e) messageID (prUserID principal)
    (lb_Latitude body) (lb_Longitude body) (lb_HorizontalAccuracy body) (lb_Heading body) (lb_Speed body)).
Definition handle_stopLiveLocation e p (messageID : option uuid) : handler () :=
  '(principal, messageID) ← messageFrom p messageID;
  in_world (Service_StopLiveLocation (cv_now e) (cv_meanwhile e) messageID (prUserID principal)).
Definition handle_forward e p (chatID : option uuid) (b : Body (uuid * list uuid * bool)) : handler (list Message) :=
  '(principal, chatID) ← chatFrom p chatID;
  body ← DecodeJSON b;
  in_world (Forward (cv_now e) (cv_copies e)
    (MkForwardParams chatID body.1.1 body.1.2 (prUserID principal) body.2)).
Definition handle_setPinned p (messageID : option uuid) (b : Body bool) : handler () :=
  '(principal, messageID) ← messageFrom p messageID;
  pinned ← DecodeJSON b;
  in_world (Service_SetPinned messageID (prUserID principal) pinned).
Definition handle_pinnedMessages p (chatID : option uuid) : handler (list Message) :=
  '(principal, chatID) ← chatFrom p chatID;
  in_world (Service_PinnedMessages chatID (prUserID principal)).
Definition handle_setChatFlags p (chatID : option uuid) (b : Body (option bool * option bool)) : handler () :=
  '(principal, chatID) ← chatFrom p chatID;
  body ← DecodeJSON b;
  Service_SetChatFlags chatID (prUserID principal) body.1 body.2.
Definition handle_setMuted p (chatID : option uuid) (b : Body (option time)) : handler () :=
  '(principal, chatID) ← chatFrom p chatID;
  until ← DecodeJSON b;
  in_world (Service_SetMuted chatID (prUserID principal) until).
Definition handle_scheduled p (chatID : option uuid) : handler (list ScheduledMessage) :=
  '(principal, chatID) ← chatFrom p chatID;
  Service_ScheduledFor chatID (prUserID principal).
Definition handle_schedule e p (chatID : option uuid) (b : Body schedule_body) : handler ScheduledMessage :=
  '(principal, chatID) ← chatFrom p chatID;
  body ← DecodeJSON b;
  Service_Schedule (cv_now e) (cv_a_year_on e) (cv_new_id e)
    (MkScheduleParams chatID (prUserID principal) (cb_ClientMessageID body) (or_text (cb_Type body)) (cb_Content body)
       (cb_Attachments body) (cb_ReplyToID body) (cb_IsSilent body) (cb_ScheduledAt body)).
Definition handle_cancelScheduled p (scheduledID : option uuid) : handler () :=
  principal ← MustPrincipal p;
  scheduledID ← pathUUID "scheduledID" scheduledID;
  Service_CancelScheduled scheduledID (prUserID principal).

(** ** Groups and channels *)

Definition handle_create e p (b : Body CreateInput) : handler uuid :=
  principal ← MustPrincipal p;
  body ← DecodeJSON b;
  in_world (Service_Create (cv_now e) (cv_new_id e)
    (MkCreateInput (prUserID principal) (cr_Type body) (cr_Title body) (cr_Description body) (cr_Username body)
       (cr_IsPublic body) (cr_MemberIDs body))).
Definition handle_update e p (chatID : option uuid) (b : Body (option string * option string * option string * option uuid))
    : handler () :=
  '(principal, chatID) ← chatFrom p chatID;
  '(title, description, username, photo) ← DecodeJSON b;
  in_world (Service_Update (cv_now e) chatID (prUserID principal) title description username photo).
Definition handle_deleteChat e p (chatID : option uuid) : handler () :=
  '(principal, chatID) ← chatFrom p chatID;
  in_world (Service_Delete_chat (cv_now e) chatID (prUserID principal)).
Definition handle_leave e p (chatID : option uuid) : handler () :=
  '(principal, chatID) ← chatFrom p chatID;
  in_world (Service_Leave (cv_now e) chatID (prUserID principal)).
Definition handle_members p (chatID : option uuid) (limit offset : string) : handler (list Member) :=
  '(principal, chatID) ← chatFrom p chatID;
  in_world (Service_Members chatID (prUserID principal) (queryInt limit 100) (queryInt offset 0)).
Definition handle_addMembers e p (chatID : option uuid) (b : Body (list uuid)) : handler (gmap uuid string) :=
  '(principal, chatID) ← chatFrom p chatID;
  users ← DecodeJSON b;
  fail_if (Nat.eqb (length users) 0 || Nat.ltb 200 (length users))
    (WithField (Validation "Provide between 1 and 200 users") "user_ids" "1-200 entries");;
  in_world (Service_AddMembers (cv_now e) chatID (prUserID principal) users).
Definition handle_removeMember e p (chatID userID : option uuid) : handler () :=
  '(principal, chatID) ← chatFrom p chatID;
  targetID ← pathUUID "userID" userID;
  in_world (Service_RemoveMember (cv_now e) chatID (prUserID principal) targetID).
Definition handle_setRole p (chatID userID : option uuid) (b : Body (string * gmap string bool * string)) : handler () :=
  '(principal, chatID) ← chatFrom p chatID;
  targetID ← pathUUID "userID" userID;
  '(role, permissions, title) ← DecodeJSON b;
  in_world (Service_SetRole chatID (prUserID principal) targetID role permissions title).
Definition handle_transferOwnership p (chatID : option uuid) (b : Body uuid) : handler () :=
  '(principal, chatID) ← chatFrom p chatID;
  userID ← DecodeJSON b;
  in_world (Service_TransferOwnership chatID (prUserID principal) userID).
Definition handle_settings p (chatID : option uuid) : handler Settings :=
  '(principal, chatID) ← chatFrom p chatID;
  in_world (Service_Settings chatID (prUserID principal)).
Definition handle_updateSettings p (chatID : option uuid) (b : Body Settings) : handler () :=
  '(principal, chatID) ← chatFrom p chatID;
  body ← DecodeJSON b;
  in_world (Service_UpdateSettings chatID (prUserID principal) body).
Definition handle_inviteLinks e p (chatID : option uuid) : handler (list InviteLink) :=
  '(principal, chatID) ← chatFrom p chatID;
  in_world (Service_InviteLinks (cv_base_url e) chatID (prUserID principal)).
Definition handle_createInviteLink e p (chatID : option uuid) (b : Body (string * option Z * option time)) : handler InviteLink :=
  '(principal, chatID) ← chatFrom p chatID;
  '(name, limit, expires) ← DecodeJSON b;
  in_world (Service_CreateInviteLink (cv_now e) (cv_new_id e) (cv_slug e) (cv_base_url e) chatID (prUserID principal) name limit expires).
Definition handle_revokeInviteLink e p (chatID linkID : option uuid) : handler () :=
  '(principal, chatID) ← chatFrom p chatID;
  linkID ← pathUUID "linkID" linkID;
  in_world (Service_RevokeInviteLink (cv_now e) chatID (prUserID principal) linkID).
Definition handle_joinByInvite e p (slug : string) : handler JoinResult :=
  principal ← MustPrincipal p;
  in_world (JoinByInvite (cv_now e) (cv_meanwhile e) slug (prUserID principal)).
Definition handle_joinPublic e p (chatID : option uuid) : handler JoinResult :=
  '(principal, chatID) ← chatFrom p chatID;
  in_world (JoinPublic (cv_now e) chatID (prUserID principal)).
Definition handle_joinRequests p (chatID : option uuid) : handler (list JoinRequest) :=
  '(principal, chatID) ← chatFrom p chatID;
  in_world (Service_JoinRequests chatID (prUserID principal)).
Definition handle_resolveJoinRequest e p (chatID userID : option uuid) (b : Body bool) : handler () :=
  '(principal, chatID) ← chatFrom p chatID;
  targetID ← pathUUID "userID" userID;
  approve ← DecodeJSON b;
  in_world (Service_ResolveJoinRequest (cv_now e) chatID (prUserID principal) targetID approve).
Definition handle_recordView p (chatID messageID : option uuid) : handler () :=
  '(principal, chatID) ← chatFrom p chatID;
  messageID ← pathUUID "messageID" messageID;
  in_world (RecordView chatID messageID (prUserID principal)).
(** [message_id] may be given more than once. *)
Definition handle_statistics p (chatID : option uuid) (message_id : list (option uuid)) : handler (list PostStats) :=
  '(principal, chatID) ← chatFrom p chatID;
  messageIDs ← for_collect message_id (λ parsed, or_fail parsed (BadRequest "message_id is not a valid UUID"));
  in_world (Service_PostStats chatID (prUserID principal) messageIDs).

(** ** Discussions and comments *)

Definition handle_linkDiscussion p (chatID : option uuid) (b : Body uuid) : handler (uuid * uuid) :=
  '(principal, chatID) ← chatFrom p chatID;
  group ← DecodeJSON b;
  fail_if (bool_decide (group = uuid_nil)) (WithField (Validation "A discussion group is required") "group_chat_id" "required");;
  in_world (Service_LinkDiscussion chatID group (prUserID principal));;
  mret (chatID, group).
Definition handle_unlinkDiscussion p (chatID : option uuid) : handler () :=
  '(principal, chatID) ← chatFrom p chatID;
  in_world (Service_UnlinkDiscussion chatID (prUserID principal)).
Definition handle_comments e p (chatID messageID : option uuid) (before_seq limit : string) : handler (CommentThread * list Message) :=
  '(principal, chatID) ← chatFrom p chatID;
  messageID ← pathUUID "messageID" messageID;
  beforeSeq ← query_seq "before_seq" before_seq;
  in_world (Comments (cv_now e) (cv_mirror e) chatID messageID (prUserID principal) beforeSeq (queryInt limit 50)).
(** Client id, type, content, entities and attachments; the thread says where it goes. *)
Definition comment_body (client : uuid) (type content : string) (entities : raw) (attachments : list Attachment) : SendInput :=
  MkSendInput uuid_nil uuid_nil client (or_text type) content entities RawNil None attachments [] None RawNil false None.
Definition handle_comment e p (chatID messageID : option uuid) (b : Body (uuid * string * string * raw * list Attachment)) : handler Message :=
  '(principal, chatID) ← chatFrom p chatID;
  messageID ← pathUUID "messageID" messageID;
  '(client, type, content, entities, attachments) ← DecodeJSON b;
  in_world (Comment (cv_now e) (cv_mirror e) (cv_new_id e) (cv_before e) (cv_after e) chatID messageID (prUserID principal)
    (comment_body client type content entities attachments)).

(** ** Named roles *)

Definition handle_roles p (chatID : option uuid) : handler (list Role) :=
  '(principal, chatID) ← chatFrom p chatID;
  in_world (Service_Roles chatID (prUserID principal)).
Definition handle_createRole e p (chatID : option uuid) (b : Body roleBody) : handler Role :=
  '(principal, chatID) ← chatFrom p chatID;
  body ← DecodeJSON b;
  in_world (Service_CreateRole (cv_now e) (cv_new_id e) chatID (prUserID principal) (ro_Name body) (ro_Permissions body) (ro_Rank body)).
Definition handle_updateRole p (chatID roleID : option uuid) (b : Body roleBody) : handler Role :=
  '(principal, chatID) ← chatFrom p chatID;
  roleID ← pathUUID "roleID" roleID;
  body ← DecodeJSON b;
  in_world (Service_UpdateRole chatID roleID (prUserID principal) (ro_Name body) (ro_Permissions body) (ro_Rank body)).
Definition handle_deleteRole p (chatID roleID : option uuid) : handler () :=
  '(principal, chatID) ← chatFrom p chatID;
  roleID ← pathUUID "roleID" roleID;
  in_world (Service_DeleteRole chatID roleID (prUserID principal)).
Definition handle_assignRole p (chatID userID : option uuid) (b : Body (option uuid)) : handler () :=
  '(principal, chatID) ← chatFrom p chatID;
  userID ← pathUUID "userID" userID;
  roleID ← DecodeJSON b;
  in_world (Service_AssignRole chatID userID (prUserID principal) roleID).

(** ** The router *)

(** What is left of a route's answer: whether it is an error. *)
Definition serve {A} (m : handler A) : handler () := _ ← m; mret ().
Definition dispatch e p (r : request) : handler () :=
  match r with
  | Route_listChats limit before folder_id folder => serve (handle_listChats e p limit before folder_id folder)
  | Route_openPrivateChat b => serve (handle_openPrivateChat e p b)
  | Route_history chatID before_seq after_seq limit => serve (handle_history p chatID before_seq after_seq limit)
  | Route_clearHistory chatID content_length b => serve (handle_clearHistory e p chatID content_length b)
  | Route_send chatID b => serve (handle_send e p chatID b)
  | Route_markRead chatID b => serve (handle_markRead e p chatID b)
  | Route_setDraft chatID b => serve (handle_setDraft p chatID b)
  | Route_typing chatID b => serve (handle_typing p chatID b)
  | Route_edit messageID b => serve (handle_edit e p messageID b)
  | Route_delete messageID => serve (handle_delete e p messageID)
  | Route_react messageID b => serve (handle_react e p messageID b)
  | Route_readReceipts messageID limit => serve (handle_readReceipts p messageID limit)
  | Route_sync cursor limit => serve (handle_sync p cursor limit)
  | Route_folders => serve (handle_folders e p)
  | Route_createFolder b => serve (handle_createFolder e p b)
  | Route_updateFolder folderID b => serve (handle_updateFolder e p folderID b)
  | Route_deleteFolder folderID => serve (handle_deleteFolder p folderID)
  | Route_setFolderChat folderID chatID b => serve (handle_setFolderChat e p folderID chatID b)
  | Route_removeFolderChat folderID chatID => serve (handle_removeFolderChat p folderID chatID)
  | Route_reorderFolders b => serve (handle_reorderFolders e p b)
  | Route_enableForum chatID => serve (handle_enableForum e p chatID)
  | Route_disableForum chatID => serve (handle_disableForum p chatID)
  | Route_topics chatID limit => serve (handle_topics p chatID limit)
  | Route_createTopic chatID b => serve (handle_createTopic e p chatID b)
  | Route_updateTopic chatID topicID b => serve (handle_updateTopic p chatID topicID b)
  | Route_deleteTopic chatID topicID => serve (handle_deleteTopic e p chatID topicID)
  | Route_topicHistory chatID topicID before_seq after_seq limit => serve (handle_topicHistory p chatID topicID before_seq after_seq limit)
  | Route_markTopicRead chatID topicID b => serve (handle_markTopicRead p chatID topicID b)
  | Route_updateLiveLocation messageID b => serve (handle_updateLiveLocation e p messageID b)
  | Route_stopLiveLocation messageID => serve (handle_stopLiveLocation e p messageID)
  | Route_forward chatID b => serve (handle_forward e p chatID b)
  | Route_setPinned messageID b => serve (handle_setPinned p messageID b)
  | Route_pinnedMessages chatID => serve (handle_pinnedMessages p chatID)
  | Route_setChatFlags chatID b => serve (handle_setChatFlags p chatID b)
  | Route_setMuted chatID b => serve (handle_setMuted p chatID b)
  | Route_scheduled chatID => serve (handle_scheduled p chatID)
  | Route_schedule chatID b => serve (handle_schedule e p chatID b)
  | Route_cancelScheduled scheduledID => serve (handle_cancelScheduled p scheduledID)
  | Route_create b => serve (handle_create e p b)
  | Route_update chatID b => serve (handle_update e p chatID b)
  | Route_deleteChat chatID => serve (handle_deleteChat e p chatID)
  | Route_leave chatID => serve (handle_leave e p chatID)
  | Route_members chatID limit offset => serve (handle_members p chatID limit offset)
  | Route_addMembers chatID b => serve (handle_addMembers e p chatID b)
  | Route_removeMember chatID userID => serve (handle_removeMember e p chatID userID)
  | Route_setRole chatID userID b => serve (handle_setRole p chatID userID b)
  | Route_transferOwnership chatID b => serve (handle_transferOwnership p chatID b)
  | Route_settings chatID => serve (handle_settings p chatID)
  | Route_updateSettings chatID b => serve (handle_updateSettings p chatID b)
  | Route_inviteLinks chatID => serve (handle_inviteLinks e p chatID)
  | Route_createInviteLink chatID b => serve (handle_createInviteLink e p chatID b)
  | Route_revokeInviteLink chatID linkID => serve (handle_revokeInviteLink e p chatID linkID)
  | Route_joinByInvite slug => serve (handle_joinByInvite e p slug)
  | Route_joinPublic chatID => serve (handle_joinPublic e p chatID)
  | Route_joinRequests chatID => serve (handle_joinRequests p chatID)
  | Route_resolveJoinRequest chatID userID b => serve (handle_resolveJoinRequest e p chatID userID b)
  | Route_recordView chatID messageID => serve (handle_recordView p chatID messageID)
  | Route_statistics chatID message_id => serve (handle_statistics p chatID message_id)
  | Route_linkDiscussion chatID b => serve (handle_linkDiscussion p chatID b)
  | Route_unlinkDiscussion chatID => serve (handle_unlinkDiscussion p chatID)
  | Route_comments chatID messageID before_seq limit => serve (handle_comments e p chatID messageID before_seq limit)
  | Route_comment chatID messageID b => serve (handle_comment e p chatID messageID b)
  | Route_roles chatID => serve (handle_roles p chatID)
  | Route_createRole chatID b => serve (handle_createRole e p chatID b)
  | Route_updateRole chatID roleID b => serve (handle_updateRole p chatID roleID b)
  | Route_deleteRole chatID roleID => serve (handle_deleteRole p chatID roleID)
  | Route_assignRole chatID userID b => serve (handle_assignRole p chatID userID b)
  end.
End routes.

(** ** Whose words are stored *)

(** Statements that leave the messages alone. *)
Definition quiet (d d' : db) : Prop := messages d' = messages d.
#[export] Instance quiet_preorder : PreOrder quiet.
Proof. unfold quiet. split; [by intros d|]. intros d1 d2 d3 H12 H23. by rewrite H23. Qed.
(** [quietly op]: unfolds an operation and finds that every branch of it is one. *)
Ltac quiet_step :=
  match goal with
  | |- quiet _ _ => solve [unfold quiet; simpl; reflexivity]
  | |- follows quiet (_ ≫= _) => apply follows_bind; [typeclasses eauto| |intros ?]
  | |- follows quiet (in_tx _) => apply follows_in_tx; [typeclasses eauto|]
  | |- follows quiet (map_err _ _) => apply follows_map_err
  | |- follows quiet (for_each _ _) => apply follows_for_each; [typeclasses eauto|intros ?]
  | |- follows quiet (modify _) => apply follows_modify; intros ?
  | |- follows quiet (if ?b then _ else _) => destruct b
  | |- follows quiet (match ?x with _ => _ end) => destruct x
  | |- follows quiet (let _ := _ in _) => cbv zeta
  | |- follows quiet _ => solve [eauto with quiet follows typeclass_instances]
  | |- follows quiet (λ _, _) => intros ?
  | |- quiet _ (match ?x with _ => _ end).2 => destruct x
  | |- quiet _ (let _ := _ in _).2 => cbv zeta
  | |- quiet _ (if ?x then _ else _).2 => destruct x
  | |- quiet _ (if ?x then _ else _) => destruct x
  | |- quiet _ (match ?x with _ => _ end) => destruct x
  end.
Ltac quietly := repeat quiet_step.
Create HintDb quiet.
Create HintDb keeps.
Create HintDb handlers.

Section quiet.
Lemma quiet_insert_event ev us : follows quiet (insert_event ev us).
Proof. unfold insert_event. quietly. Qed.
Lemma quiet_bump_event u : follows quiet (bump_event_counter u).
Proof. unfold bump_event_counter. quietly. Qed.
Lemma quiet_append now ch ty p : follows quiet (appendUserEvents now ch ty p).
Proof.
  intros d. unfold appendUserEvents. set (d1 := with_user_event_counters _ d).
  assert (follows quiet (for_each (bumped (recipients_of ch d) d) (insert_event (MkEvent ty p now)))) as Hf.
  { apply follows_for_each; [typeclasses eauto|intros ?; apply quiet_insert_event]. }
  specialize (Hf d1). destruct (for_each _ _ d1) as [[?|?] d2]; simpl in *; exact Hf.
Qed.
Lemma quiet_context ch u : follows quiet (ChatContextFor ch u).
Proof. unfold ChatContextFor. quietly. Qed.
Lemma quiet_message id : follows quiet (MessageByID id).
Proof. unfold MessageByID. quietly. Qed.
Lemma quiet_topic ch id : follows quiet (TopicByID ch id).
Proof. unfold TopicByID. quietly. Qed.
Lemma quiet_insert_chat id c : follows quiet (insert_chat id c).
Proof. unfold insert_chat. quietly. Qed.
Lemma quiet_insert_member ch u m : follows quiet (insert_member ch u m).
Proof. unfold insert_member. quietly. Qed.
Lemma quiet_insert_settings ch n : follows quiet (insert_settings ch n).
Proof. unfold insert_settings. quietly. Qed.
Lemma quiet_link id a b : follows quiet (link_private_chat id a b).
Proof. unfold link_private_chat. quietly. Qed.
#[local] Hint Resolve quiet_insert_event quiet_bump_event quiet_append quiet_insert_chat quiet_insert_member quiet_insert_settings quiet_link : quiet.
Lemma quiet_create_private now id a b low high : follows quiet (create_private_chat now id a b low high).
Proof. unfold create_private_chat. quietly. Qed.
Lemma quiet_insert_group id c : follows quiet (insert_group_chat id c).
Proof. unfold insert_group_chat. intros d. quietly. apply (follows_map_err _ _ _ (quiet_insert_chat id c)). Qed.
Lemma quiet_extension ch ty : follows quiet (insert_extension ch ty).
Proof. unfold insert_extension. quietly. Qed.
#[local] Hint Resolve quiet_insert_group quiet_extension : quiet.
Lemma quiet_CreateChat now id ty t de o p u : follows quiet (CreateChat now id ty t de o p u).
Proof. unfold CreateChat. quietly. Qed.
Lemma quiet_bump now ch ty delta : follows quiet (bumpMemberCount now ch ty delta).
Proof. unfold bumpMemberCount. quietly. Qed.
Lemma quiet_upsert now ch u r i : follows quiet (upsert_member now ch u r i).
Proof. unfold upsert_member. quietly. Qed.
Lemma quiet_update_member ch u P f e : follows quiet (update_member ch u P f e).
Proof. unfold update_member. quietly. Qed.
#[local] Hint Resolve quiet_bump quiet_upsert quiet_update_member : quiet.
Lemma quiet_AddMember now ch u r i : follows quiet (AddMember now ch u r i).
Proof. unfold AddMember. quietly. Qed.
Lemma quiet_RemoveMember now ch u : follows quiet (RemoveMember now ch u).
Proof. unfold RemoveMember. quietly. Qed.
Lemma quiet_SetRole ch u r p t : follows quiet (SetRole ch u r p t).
Proof. unfold SetRole. quietly. Qed.
Lemma quiet_Transfer ch a b : follows quiet (TransferOwnership ch a b).
Proof. unfold TransferOwnership. quietly. Qed.
Lemma quiet_Members ch l o : follows quiet (Members ch l o).
Proof. unfold Members. quietly. Qed.
Lemma quiet_UpdateChat now ch t de ph u : follows quiet (UpdateChat now ch t de ph u).
Proof. unfold UpdateChat. quietly. Qed.
Lemma quiet_Delete_chat now ch : follows quiet (Delete_chat now ch).
Proof. unfold Delete_chat. quietly. Qed.
Lemma quiet_UpdateSettings ch s : follows quiet (UpdateSettings ch s).
Proof.
  unfold UpdateSettings, update_settings_row, update_channel_settings, update_group_settings, update_sticker_set, update_group_settings.
  quietly.
Qed.
Lemma quiet_Read_Settings ch : follows quiet (Read_Settings ch).
Proof. unfold Read_Settings. quietly. Qed.
Lemma quiet_CreateInvite now id slug ch u n l e : follows quiet (CreateInviteLink now id slug ch u n l e).
Proof. unfold CreateInviteLink. quietly. Qed.
Lemma quiet_InviteLinks ch : follows quiet (InviteLinks ch).
Proof. unfold InviteLinks. quietly. Qed.
Lemma quiet_Revoke now ch id : follows quiet (RevokeInviteLink now ch id).
Proof. unfold RevokeInviteLink. quietly. Qed.
Lemma quiet_Resolve now slug : follows quiet (ResolveInvite now slug).
Proof. unfold ResolveInvite. quietly. Qed.
Lemma quiet_CountUse id : follows quiet (CountInviteUse id).
Proof. unfold CountInviteUse. quietly. Qed.
Lemma quiet_CreateJoin now ch u l : follows quiet (CreateJoinRequest now ch u l).
Proof. unfold CreateJoinRequest. quietly. Qed.
Lemma quiet_JoinRequests ch n : follows quiet (JoinRequests ch n).
Proof. unfold JoinRequests. quietly. Qed.
Lemma quiet_ResolveJoin now ch u r b : follows quiet (ResolveJoinRequest now ch u r b).
Proof. unfold ResolveJoinRequest, approve_member. quietly. Qed.
Lemma quiet_Stats ch l : follows quiet (Read_PostStats ch l).
Proof. unfold Read_PostStats. quietly. Qed.
Lemma quiet_Roles ch : follows quiet (Roles ch).
Proof. unfold Roles. quietly. Qed.
Lemma quiet_CreateRole now id ch n p r : follows quiet (CreateRole now id ch n p r).
Proof. unfold CreateRole. quietly. Qed.
Lemma quiet_UpdateRole ch id n p r : follows quiet (UpdateRole ch id n p r).
Proof. unfold UpdateRole. quietly. Qed.
Lemma quiet_DeleteRole ch id : follows quiet (DeleteRole ch id).
Proof. unfold DeleteRole. quietly. Qed.
Lemma quiet_AssignRole ch u r : follows quiet (AssignRole ch u r).
Proof. unfold AssignRole. quietly. Qed.
Lemma quiet_Link c g : follows quiet (LinkDiscussion c g).
Proof. unfold LinkDiscussion. quietly. Qed.
Lemma quiet_Unlink c : follows quiet (UnlinkDiscussion c).
Proof. unfold UnlinkDiscussion. quietly. Qed.
Lemma quiet_Record p c g m : follows quiet (RecordCommentThread p c g m).
Proof. unfold RecordCommentThread. quietly. Qed.
Lemma quiet_Count p c m : follows quiet (CountComments p c m).
Proof. unfold CountComments. quietly. Qed.
Lemma quiet_Disable ch : follows quiet (DisableForum ch).
Proof. unfold DisableForum. quietly. Qed.
Lemma quiet_CreateTopic now id ch u t e c : follows quiet (CreateTopic now id ch u t e c).
Proof. unfold CreateTopic. quietly. Qed.
#[local] Hint Resolve quiet_topic : quiet.
Lemma quiet_UpdateTopic ch t u : follows quiet (UpdateTopic ch t u).
Proof. unfold UpdateTopic. quietly. Qed.
Lemma quiet_MarkTopicRead t u s : follows quiet (MarkTopicRead t u s).
Proof. unfold MarkTopicRead. quietly. Qed.
Lemma quiet_MarkRead ch u s : follows quiet (MarkRead ch u s).
Proof. unfold MarkRead. quietly. Qed.
Lemma quiet_React now id u e : follows quiet (React now id u e).
Proof. unfold React. quietly. Qed.
Lemma quiet_SetDraft ch u s : follows quiet (SetDraft ch u s).
Proof. unfold SetDraft. quietly. Qed.
Lemma quiet_SetMuted ch u s : follows quiet (SetMuted ch u s).
Proof. unfold SetMuted. quietly. Qed.
End quiet.
#[export] Hint Resolve quiet_insert_event quiet_bump_event quiet_append quiet_context quiet_message quiet_topic quiet_CreateChat
  quiet_AddMember quiet_RemoveMember quiet_SetRole quiet_Transfer quiet_Members quiet_UpdateChat quiet_Delete_chat quiet_UpdateSettings
  quiet_Read_Settings quiet_CreateInvite quiet_InviteLinks quiet_Revoke quiet_Resolve quiet_CountUse quiet_CreateJoin quiet_JoinRequests
  quiet_ResolveJoin quiet_Stats quiet_Roles quiet_CreateRole quiet_UpdateRole quiet_DeleteRole quiet_AssignRole quiet_Link quiet_Unlink
  quiet_Record quiet_Count quiet_Disable quiet_CreateTopic quiet_UpdateTopic quiet_MarkTopicRead quiet_MarkRead quiet_React quiet_SetDraft
  quiet_SetMuted : quiet.

(** [W]: the users who may be writing. *)
Section kept.
Variable W : uuid → Prop.

Definition writes (sender : option uuid) : Prop := match sender with Some u => W u | None => True end.
(** A message stays, its author with it, and what it says is only changed by one who writes
    or taken away; a new one is by one who writes, or by the chat itself. *)
Definition row_kept (o o' : option message_row) : Prop :=
  match o, o' with
  | None, None => True
  | None, Some r' => writes (r_sender_id r')
  | Some r, Some r' => r_sender_id r' = r_sender_id r ∧
      (r_content r' = r_content r ∨ r_content r' = ""%string ∨ ∃ u, r_sender_id r = Some u ∧ W u)
  | Some _, None => False
  end.
Definition words_kept (d d' : db) : Prop := ∀ id, row_kept (messages d !! id) (messages d' !! id).
#[export] Instance words_kept_preorder : PreOrder words_kept.
Proof.
  split; [intros d id; destruct (messages d !! id); simpl; auto|]. intros d1 d2 d3 H12 H23 id. specialize (H12 id). specialize (H23 id).
  destruct (messages d1 !! id) as [r1|], (messages d2 !! id) as [r2|], (messages d3 !! id) as [r3|]; simpl in *; try done.
  - destruct H12 as [S12 C12], H23 as [S23 C23]. split; [congruence|]. rewrite S12 in C23.
    destruct C23 as [->|[->|?]]; auto.
  - destruct H23 as [-> _]. done.
Qed.
Lemma kept_quiet d d' : quiet d d' → words_kept d d'.
Proof. intros Hq id. rewrite Hq. destruct (messages d !! id); simpl; auto. Qed.
Lemma follows_kept {E A} (m : prog db E A) : follows quiet m → follows words_kept m.
Proof. intros Hm d. apply kept_quiet, Hm. Qed.
(** A rewriting that keeps authors, and keeps or empties what is said. *)
Lemma kept_rewrite P (f : uuid → message_row → message_row) d d' :
  messages d' = update_where P f (messages d) →
  (∀ id r, r_sender_id (f id r) = r_sender_id r ∧ (r_content (f id r) = r_content r ∨ r_content (f id r) = ""%string)) →
  words_kept d d'.
Proof.
  intros Hm Hf id. rewrite Hm, lookup_update_where. destruct (messages d !! id) as [r|]; simpl; [|done].
  destruct (P id r); [|auto]. destruct (Hf id r) as [-> Hc]. naive_solver.
Qed.
Lemma kept_insert id r d d' :
  messages d !! id = None → messages d' = <[id := r]> (messages d) → writes (r_sender_id r) → words_kept d d'.
Proof.
  intros Hn Hm Hr id'. rewrite Hm. destruct (decide (id = id')) as [<-|Hne]; [by rewrite lookup_insert_eq, Hn|].
  rewrite lookup_insert_ne by done. destruct (messages d !! id'); simpl; auto.
Qed.

Ltac kept_step :=
  match goal with
  | |- follows words_kept (in_tx _) => apply follows_in_tx; [typeclasses eauto|]
  | |- follows words_kept (_ ≫= _) => apply follows_bind; [typeclasses eauto| |intros ?]
  | |- follows words_kept (if ?b then _ else _) => destruct b
  | |- follows words_kept (match ?x with _ => _ end) => destruct x
  | |- follows words_kept (let _ := _ in _) => cbv zeta
  | |- follows words_kept (modify _) => apply follows_modify; intros ?
  | |- follows words_kept _ => solve [apply follows_kept; quietly]
  | |- words_kept _ _ => solve [apply kept_quiet; reflexivity]
  end.
Ltac keeping := repeat kept_step.

(** *** The repository *)

Lemma kept_send_body now id p : (sp_AsChat p = true ∨ W (sp_SenderID p)) → follows words_kept (send_body now id p).
Proof.
  intros Hw. unfold send_body. keeping.
  all: try (apply kept_quiet; unfold quiet; simpl; first [reflexivity|by destruct (sp_TopicID p)|by destruct (sp_AsChat p)]).
  - apply follows_kept. unfold lift_result. quietly.
  - apply follows_kept. unfold lift_result. quietly.
  - apply follows_kept. unfold lift_result. quietly.
  - intros d. destruct (insert_message _ _ d) as [[u|e] d'] eqn:Hrun; simpl.
    + apply insert_message_Ok in Hrun as [[_ _ Hn _ _] ->]. eapply kept_insert; [exact Hn|reflexivity|]. simpl.
      destruct (sp_AsChat p); [done|]. by destruct Hw.
    + enough (d' = d) as -> by reflexivity. revert Hrun. unfold insert_message. repeat case_match; congruence.
  - apply follows_kept. apply follows_for_each; [typeclasses eauto|intros ?]. unfold insert_attachment. quietly.
Qed.
Lemma kept_Send now id before after p :
  (∀ d, words_kept d (before d)) → (∀ d, words_kept d (after d)) → (sp_AsChat p = true ∨ W (sp_SenderID p)) →
  follows words_kept (Send now id before after p).
Proof.
  intros Hb Ha Hw d. unfold Send. cbv zeta.
  assert (∀ d, words_kept d (in_tx (send_body now id p) d).2) as Htx.
  { intros d0. apply follows_in_tx; [typeclasses eauto|by apply kept_send_body]. }
  match goal with |- words_kept _ (match ?fast with _ => _ end).2 => destruct fast as [m|e] end; [simpl; reflexivity|].
  case_decide; [|simpl; reflexivity].
  specialize (Htx (before d)). destruct (in_tx _ (before d)) as [[r|e'] d1]; simpl in *; [etransitivity; [apply Hb|exact Htx]|].
  destruct (is_unique_violation_of _ e'); [|etransitivity; [apply Hb|exact Htx]].
  pose proof (messageByClientID_db (sp_ChatID p) (sp_SenderID p) (sp_ClientMessageID p) (after d1)) as Hd.
  destruct (messageByClientID _ _ _ (after d1)) as [[m|e''] d2]; simpl in *; subst d2; (etransitivity; [apply Hb|]; etransitivity; [exact Htx|apply Ha]).
Qed.
Lemma kept_Edit now id u content ents d :
  (∀ r, live_message id d = Some r → ∃ v, r_sender_id r = Some v ∧ W v) → words_kept d (Edit now id u content ents d).2.
Proof.
  intros Hmine. destruct (Edit now id u content ents d) as [[x|e] d'] eqn:Hrun; simpl.
  - unfold Edit in Hrun. apply in_tx_Ok_inv in Hrun. prog_inv.
    repeat match goal with H : lift_result _ _ = (Ok _, _) |- _ => apply lift_result_Ok_inv in H as [? ->] end.
    match goal with H : appendUserEvents ?n ?c ?t ?p ?d0 = (Ok _, _) |- _ =>
      pose proof (quiet_append n c t p d0) as Hq; rewrite H in Hq; simpl in Hq end.
    intros id'. rewrite Hq. simpl. rewrite lookup_update_where.
    destruct (messages d !! id') as [r'|] eqn:Hr'; simpl; [|done]. case_bool_decide as Hid; [subst id'|auto]. simpl. split; [done|].
    right; right. apply Hmine.
    unfold live_message in *. rewrite Hr' in *. by destruct (r_deleted_at r').
  - unfold Edit in Hrun. apply in_tx_Err in Hrun as ->. reflexivity.
Qed.
Lemma kept_tombstones P now u d : words_kept d (with_messages (update_where P (λ _, tombstone now u) (messages d)) d).
Proof. eapply kept_rewrite; [reflexivity|]. intros id r. simpl. auto. Qed.
Lemma kept_Delete now id u : follows words_kept (Delete now id u).
Proof.
  unfold Delete. keeping. eapply kept_rewrite; [reflexivity|]. intros k r. simpl. auto.
Qed.
Lemma kept_Clear now ch u b : follows words_kept (ClearHistory now ch u b).
Proof.
  unfold ClearHistory. keeping.
  - destruct b; [|reflexivity]. eapply kept_rewrite; [reflexivity|]. intros k r. simpl. auto.
  - apply follows_kept. unfold clear_member. quietly.
Qed.
Lemma kept_SetPinned id b : follows words_kept (SetPinned id b).
Proof.
  intros d. unfold SetPinned. destruct (live_message id d); simpl; [|reflexivity].
  eapply kept_rewrite; [reflexivity|]. intros k r. simpl. auto.
Qed.
Lemma kept_View id ch u : follows words_kept (RecordPostView id ch u).
Proof.
  unfold RecordPostView. apply follows_in_tx; [typeclasses eauto|]. intros d. destruct (bool_decide _); simpl; [reflexivity|].
  eapply kept_rewrite; [reflexivity|]. intros k r. simpl. auto.
Qed.
Lemma kept_Enable now id ch u : follows words_kept (EnableForum now id ch u).
Proof.
  unfold EnableForum. keeping. eapply kept_rewrite; [reflexivity|]. intros k r. simpl. auto.
Qed.
Lemma kept_DeleteTopic now ch t u : follows words_kept (DeleteTopic now ch t u).
Proof.
  unfold DeleteTopic. keeping. eapply kept_rewrite; [reflexivity|]. intros k r. simpl. auto.
Qed.
Lemma kept_Withdraw now id d : words_kept d (WithdrawMirror now id d).
Proof. eapply kept_rewrite; [reflexivity|]. intros k r. simpl. auto. Qed.
Lemma kept_Private now id before after a b :
  (∀ d, words_kept d (before d)) → (∀ d, words_kept d (after d)) → follows words_kept (EnsurePrivateChat now id before after a b).
Proof.
  intros Hb Ha d. unfold EnsurePrivateChat. destruct (decide (a = b)).
  - apply follows_kept. clear d. intros d. unfold ensureSelfChat. destruct (rows_where _ _) as [|[? ?] ?]; [|reflexivity].
    revert d. change (follows quiet (in_tx (insert_chat id (new_chat_row now ChatPrivate a 1);; insert_member id a (new_member_row now RoleOwner);;
      insert_settings id 1;; mret (id, true)))).
    apply follows_in_tx; [typeclasses eauto|]. repeat (apply follows_bind; [typeclasses eauto| |intros ?]).
    + apply quiet_insert_chat.
    + apply quiet_insert_member.
    + apply quiet_insert_settings.
    + apply follows_ret; typeclasses eauto.
  - destruct (lookup_private_chat _ _ d); [simpl; reflexivity|].
    assert (∀ d0, words_kept d0 (in_tx (create_private_chat now id a b (N.min a b) (N.max a b)) d0).2) as Htx.
    { apply follows_kept, follows_in_tx; [typeclasses eauto|apply quiet_create_private]. }
    specialize (Htx (before d)). destruct (in_tx _ (before d)) as [[r|e'] d1]; simpl in *; [etransitivity; [apply Hb|exact Htx]|].
    destruct (is_unique_violation e'); [|etransitivity; [apply Hb|exact Htx]].
    destruct (lookup_private_chat _ _ (after d1)); simpl; (etransitivity; [apply Hb|]; etransitivity; [exact Htx|apply Ha]).
Qed.
Section live.
Context `{PayloadCodec}.
Lemma kept_write_payload id l : follows words_kept (write_payload id l).
Proof.
  intros d. unfold write_payload. destruct (messages d !! id) as [r|] eqn:Hr; simpl; [|reflexivity].
  intros id'. simpl. destruct (decide (id = id')) as [<-|Hne]; [rewrite lookup_insert_eq, Hr; simpl; auto|].
  rewrite lookup_insert_ne by done. destruct (messages d !! id'); simpl; auto.
Qed.
Lemma kept_live now id u : follows words_kept (live_location now id u).
Proof. apply follows_kept. unfold live_location. quietly. Qed.
Lemma kept_UpdateLive now meanwhile id u a b c e f :
  (∀ d, words_kept d (meanwhile d)) → follows words_kept (UpdateLiveLocation now meanwhile id u a b c e f).
Proof.
  intros Hm. unfold UpdateLiveLocation. apply follows_bind; [typeclasses eauto|apply kept_live|intros l].
  apply follows_bind; [typeclasses eauto| |intros l'].
  { intros d. destruct (location_Validate _ _); simpl; reflexivity. }
  apply follows_bind; [typeclasses eauto|keeping|intros encoded].
  apply follows_bind; [typeclasses eauto|apply follows_modify, Hm|intros _].
  apply follows_bind; [typeclasses eauto|apply kept_write_payload|intros m]. keeping.
Qed.
Lemma kept_StopLive now meanwhile id u :
  (∀ d, words_kept d (meanwhile d)) → follows words_kept (StopLiveLocation now meanwhile id u).
Proof.
  intros Hm. unfold StopLiveLocation. apply follows_bind; [typeclasses eauto|keeping|intros ch].
  apply follows_bind; [typeclasses eauto|apply kept_live|intros l]. apply follows_bind; [typeclasses eauto|keeping|intros ch'].
  apply follows_bind; [typeclasses eauto|keeping|intros encoded].
  apply follows_bind; [typeclasses eauto|apply follows_modify, Hm|intros _].
  apply follows_bind; [typeclasses eauto|apply follows_modify; intros d; apply kept_write_payload|intros m]. keeping.
Qed.
End live.
End kept.

(** *** The services *)

Section services.
Context `{SpamGuard G} `{MessageLimiter L} `{PayloadCodec}.
Variable W : uuid → Prop.
Notation kept := (words_kept W).
Implicit Types (w : world G L).

Definition world_kept w w' : Prop := kept (w_db w) (w_db w').
#[local] Instance world_kept_preorder : PreOrder world_kept.
Proof. unfold world_kept. split; [intros w; reflexivity|]. intros w1 w2 w3 H12 H23. by etransitivity. Qed.
Abbreviation keeps m := (follows world_kept m).

Lemma keeps_reads {A} (m : prog (world G L) Error A) : reads m → keeps m.
Proof. intros Hm w. unfold world_kept. rewrite Hm. reflexivity. Qed.
Lemma keeps_repo {E A} (m : prog db E A) h : follows kept m → keeps (repo m h).
Proof. intros Hm w. specialize (Hm (w_db w)). unfold repo, world_kept. by destruct (m (w_db w)) as [[a|e] d]. Qed.
Lemma keeps_best_effort {A} (m : prog db grouperr A) : follows kept m → keeps (best_effort m).
Proof. intros Hm w. apply Hm. Qed.
Lemma keeps_context ch u h : keeps (repo (ChatContextFor ch u) h).
Proof. apply keeps_reads, reads_context. Qed.
Lemma keeps_emit o : keeps (emit o).
Proof. apply keeps_reads, reads_emit. Qed.
Lemma keeps_refuse o : keeps (refuse o).
Proof. apply keeps_reads, reads_refuse. Qed.
Lemma keeps_announce ch ev p : keeps (announce ch ev p).
Proof. apply keeps_emit. Qed.
Lemma keeps_publish ch ev p : keeps (publishChat ch ev p).
Proof. apply keeps_emit. Qed.
Lemma keeps_broadcast ch ev rs seqs b p : keeps (MessagingService.broadcast ch ev rs seqs b p).
Proof. unfold MessagingService.broadcast. follow_steps; first [apply keeps_emit|apply keeps_publish]. Qed.
Lemma keeps_index cx m : keeps (indexForSearch cx m).
Proof. unfold indexForSearch. follow_steps. apply keeps_emit. Qed.
Lemma keeps_resolveTopic cx i : keeps (resolveTopic cx i).
Proof. apply keeps_reads, reads_topic. Qed.
Lemma keeps_authorize ch u f denial : keeps (authorize ch u f denial).
Proof. unfold authorize. follow_steps. apply keeps_context. Qed.
Lemma keeps_topics_gate ch u b : keeps (authorizeTopics ch u b).
Proof. unfold authorizeTopics. follow_steps. apply keeps_context. Qed.
#[local] Hint Resolve keeps_context keeps_emit keeps_refuse keeps_announce keeps_publish keeps_broadcast keeps_index keeps_authorize keeps_topics_gate : keeps.
Ltac keeps_step :=
  match goal with
  | |- follows world_kept (repo ?m _) => apply keeps_repo; solve [apply follows_kept; quietly|eauto with keeps]
  | |- follows world_kept (best_effort _) => apply keeps_best_effort; apply follows_kept; quietly
  | |- follows world_kept _ => solve [auto with keeps]
  | |- follows world_kept _ => follow_step
  end.
Ltac keep_steps := repeat keeps_step.

(** Messages. *)
Lemma keeps_Send now id before after i :
  (∀ d, kept d (before d)) → (∀ d, kept d (after d)) → W (in_SenderID i) → keeps (Service_Send now id before after i).
Proof.
  intros Hb Ha Hw. unfold Service_Send. intros w. rewrite bind_run.
  destruct (validateSend now i) as [j|e] eqn:Hv; [|reflexivity].
  assert (in_SenderID j = in_SenderID i) as Hj.
  { revert Hv. unfold validateSend. repeat case_match; intros; simplify_eq; done. }
  match goal with |- world_kept w (?m w).2 => enough (keeps m) as Hm by apply Hm end.
  follow_steps; try solve [auto with keeps].
  - apply keeps_reads, reads_check_rate.
  - apply keeps_resolveTopic.
  - apply keeps_repo, kept_Send; [done..|]. right. simpl. by rewrite Hj.
  - apply keeps_reads. intros w'. by destruct w'.
Qed.
Lemma keeps_Edit now id u content ents : W u → keeps (Service_Edit now id u content ents).
Proof.
  intros Hu w. unfold Service_Edit. cbv zeta.
  rewrite bind_run. unfold fail_if at 1. destruct (bool_decide (_ = ""%string)); [reflexivity|]. cbn beta iota.
  rewrite bind_run. unfold fail_if at 1. destruct (MaxContentRunes <? _); [reflexivity|]. cbn beta iota.
  rewrite bind_run. unfold repo at 1, MessageByID. destruct (messages (w_db w) !! id) as [r|] eqn:Hr; rewrite set_db_same; [|reflexivity].
  rewrite bind_run. unfold fail_if at 1. destruct (bool_decide (is_Some _)); [reflexivity|]. cbn beta iota.
  rewrite bind_run. unfold fail_if at 1. destruct (bool_decide (mSenderID _ = _)) eqn:Hs; [|reflexivity]. cbn beta iota delta [negb].
  apply bool_decide_eq_true in Hs. simpl in Hs.
  rewrite bind_run. unfold fail_if at 1. destruct (EditWindow <? _); [reflexivity|]. cbn beta iota.
  rewrite bind_run. pose proof (reads_context (mChatID (base_message id r)) u internal_error w) as Hc.
  destruct (repo (ChatContextFor _ _) internal_error w) as [[cx|e] w1]; simpl in Hc; [|unfold world_kept; simpl; rewrite Hc; reflexivity].
  rewrite bind_run. unfold repo at 1.
  assert (kept (w_db w1) (Edit now id u (trim_space content) ents (w_db w1)).2) as He.
  { apply kept_Edit. rewrite Hc. unfold live_message. rewrite Hr. intros r0. destruct (r_deleted_at r); [done|]. intros [= <-]. eauto. }
  destruct (Edit _ _ _ _ _ (w_db w1)) as [[x|e] d]; simpl in He; [|unfold world_kept; simpl; rewrite <-Hc; exact He].
  cbn beta iota. apply (transitivity (y := set_db d w1)); [unfold world_kept; rewrite <-Hc; exact He|].
  match goal with |- world_kept _ (?m _).2 => enough (keeps m) as Hm by apply (Hm (set_db d w1)) end.
  keep_steps.
Qed.
Lemma keeps_Delete now id u : keeps (Service_Delete now id u).
Proof.
  unfold Service_Delete. keep_steps. intros w. unfold delete_and_tell. pose proof (kept_Delete W now id u (w_db w)) as Hd.
  destruct (Delete now id u (w_db w)) as [[[[ch s] rs]|e] d]; simpl in Hd; [|by destruct e].
  apply (transitivity (y := set_db d w)); [exact Hd|]. match goal with |- world_kept _ (?m ?w').2 => enough (keeps m) as Hm by apply (Hm w') end.
  unfold removeFromSearch. keep_steps.
Qed.
Lemma keeps_Clear now ch u b : keeps (Service_ClearHistory now ch u b).
Proof. unfold Service_ClearHistory. keep_steps. apply keeps_repo, kept_Clear. Qed.
Lemma keeps_Private now id before after u peer :
  (∀ d, kept d (before d)) → (∀ d, kept d (after d)) → keeps (OpenPrivateChat now id before after u peer).
Proof. intros Hb Ha. unfold OpenPrivateChat. keep_steps. by apply keeps_repo, kept_Private. Qed.
Lemma keeps_History ch u b a l : keeps (Service_History ch u b a l).
Proof. unfold Service_History. keep_steps. Qed.
Lemma keeps_MarkRead now ch u s : keeps (Service_MarkRead now ch u s).
Proof. unfold Service_MarkRead. keep_steps. apply kept_quiet. unfold RecordReads. by destruct (_ <=? _). Qed.
Lemma keeps_Receipts id u l : keeps (Service_ReadReceipts id u l).
Proof. unfold Service_ReadReceipts. keep_steps. Qed.
Lemma keeps_React now id u e : keeps (Service_React now id u e).
Proof. unfold Service_React. keep_steps. Qed.
Lemma keeps_Typing ch u b : keeps (SetTyping ch u b).
Proof. unfold SetTyping. keep_steps. Qed.
Lemma keeps_Draft ch u s : keeps (Service_SetDraft ch u s).
Proof. unfold Service_SetDraft. keep_steps. Qed.
Lemma keeps_Pinned id u b : keeps (Service_SetPinned id u b).
Proof. unfold Service_SetPinned. keep_steps. apply keeps_repo, kept_SetPinned. Qed.
Lemma keeps_Muted ch u t : keeps (Service_SetMuted ch u t).
Proof. unfold Service_SetMuted. keep_steps. Qed.
Lemma keeps_PinnedMessages ch u : keeps (Service_PinnedMessages ch u).
Proof. unfold Service_PinnedMessages. keep_steps. Qed.
Lemma keeps_UpdateLive now meanwhile id u a b c e f :
  (∀ d, kept d (meanwhile d)) → keeps (Service_UpdateLiveLocation now meanwhile id u a b c e f).
Proof. intros Hm. unfold Service_UpdateLiveLocation. keep_steps. by apply keeps_repo, kept_UpdateLive. Qed.
Lemma keeps_StopLive now meanwhile id u : (∀ d, kept d (meanwhile d)) → keeps (Service_StopLiveLocation now meanwhile id u).
Proof. intros Hm. unfold Service_StopLiveLocation. keep_steps. by apply keeps_repo, kept_StopLive. Qed.
Lemma keeps_forward_all now mint k i sources forwarded :
  (∀ k, let '(_, _, before, after) := mint k in (∀ d, kept d (before d)) ∧ ∀ d, kept d (after d)) → W (fp_SenderID i) →
  keeps (forward_all now mint k i sources forwarded).
Proof.
  intros Hmint Hw. revert k forwarded. induction sources as [|s sources IH]; intros k forwarded w; [reflexivity|]. simpl.
  specialize (Hmint k) as Hk. destruct (mint k) as [[[client id] before] after]. destruct Hk as [Hb Ha].
  pose proof (keeps_Send now id before after (forward_input client i s) Hb Ha Hw w) as Hs.
  destruct (Service_Send _ _ _ _ _ w) as [[m|e] w']; simpl in Hs; [etransitivity; [exact Hs|apply IH]|].
  by destruct (bool_decide _).
Qed.
Lemma keeps_Forward now mint i :
  (∀ k, let '(_, _, before, after) := mint k in (∀ d, kept d (before d)) ∧ ∀ d, kept d (after d)) → W (fp_SenderID i) →
  keeps (Forward now mint i).
Proof. intros Hm Hw. unfold Forward. keep_steps. by apply keeps_forward_all. Qed.

(** Topics. *)
Lemma keeps_EnableForum now id ch u : keeps (Service_EnableForum now id ch u).
Proof. unfold Service_EnableForum. keep_steps. apply keeps_repo, kept_Enable. Qed.
Lemma keeps_DisableForum ch u : keeps (Service_DisableForum ch u).
Proof. unfold Service_DisableForum. keep_steps. Qed.
Lemma keeps_Topics ch u l : keeps (Service_Topics ch u l).
Proof. unfold Service_Topics. keep_steps. Qed.
Lemma keeps_CreateTopic tj now id ch u t e c : keeps (Service_CreateTopic tj now id ch u t e c).
Proof. unfold Service_CreateTopic. keep_steps. Qed.
Lemma keeps_UpdateTopic tj ch t u x : keeps (Service_UpdateTopic tj ch t u x).
Proof. unfold Service_UpdateTopic. keep_steps. apply keeps_reads. intros w. by destruct (tu_Title x). Qed.
Lemma keeps_DeleteTopic now ch t u : keeps (Service_DeleteTopic now ch t u).
Proof. unfold Service_DeleteTopic. keep_steps. apply keeps_repo, kept_DeleteTopic. Qed.
Lemma keeps_TopicHistory ch t u b a l : keeps (Service_TopicHistory ch t u b a l).
Proof. unfold Service_TopicHistory. keep_steps. Qed.
Lemma keeps_MarkTopicRead ch t u s : keeps (Service_MarkTopicRead ch t u s).
Proof. unfold Service_MarkTopicRead. keep_steps. Qed.

(** Groups. *)
Lemma keeps_Create now id i : keeps (Groups.Service_Create now id i).
Proof. unfold Groups.Service_Create. keep_steps. Qed.
Lemma keeps_add_one now ch u x : keeps (add_one now ch u x).
Proof.
  intros w. unfold add_one. pose proof (follows_kept W _ (quiet_AddMember now ch x RoleMember (Some u)) (w_db w)) as Hd.
  destruct (AddMember _ _ _ _ _ (w_db w)) as [[a|e] d]; simpl in Hd; [exact Hd|]. by destruct e.
Qed.
Lemma keeps_add_all now ch u l acc : keeps (add_all now ch u l acc).
Proof. revert acc. induction l as [|x l IH]; intros acc; simpl; keep_steps; apply keeps_add_one. Qed.
Lemma keeps_AddMembers now ch u l : keeps (Service_AddMembers now ch u l).
Proof. unfold Service_AddMembers. keep_steps. apply keeps_add_all. Qed.
Lemma keeps_RemoveMember now ch u t : keeps (Service_RemoveMember now ch u t).
Proof. unfold Service_RemoveMember. keep_steps. Qed.
Lemma keeps_Leave now ch u : keeps (Service_Leave now ch u).
Proof. unfold Service_Leave. keep_steps. Qed.
Lemma keeps_SetRole ch u t r p c : keeps (Service_SetRole ch u t r p c).
Proof. unfold Service_SetRole. keep_steps. Qed.
Lemma keeps_Transfer ch u t : keeps (Service_TransferOwnership ch u t).
Proof. unfold Service_TransferOwnership. keep_steps. Qed.
Lemma keeps_Members ch u l o : keeps (Service_Members ch u l o).
Proof. unfold Service_Members. keep_steps. Qed.
Lemma keeps_Update now ch u t d n p : keeps (Service_Update now ch u t d n p).
Proof. unfold Service_Update. keep_steps. Qed.
Lemma keeps_UpdateSettings ch u s : keeps (Service_UpdateSettings ch u s).
Proof. unfold Service_UpdateSettings. keep_steps. Qed.
Lemma keeps_Settings ch u : keeps (Service_Settings ch u).
Proof. unfold Service_Settings. keep_steps. Qed.
Lemma keeps_Delete_chat now ch u : keeps (Service_Delete_chat now ch u).
Proof. unfold Service_Delete_chat. keep_steps. Qed.
Lemma keeps_CreateInvite now id slug base ch u n l e : keeps (Service_CreateInviteLink now id slug base ch u n l e).
Proof. unfold Service_CreateInviteLink. keep_steps. Qed.
Lemma keeps_InviteLinks base ch u : keeps (Service_InviteLinks base ch u).
Proof. unfold Service_InviteLinks. keep_steps. Qed.
Lemma keeps_Revoke now ch u l : keeps (Service_RevokeInviteLink now ch u l).
Proof. unfold Service_RevokeInviteLink. keep_steps. Qed.
(** Joining: the row of the member, whatever came of it. *)
Lemma keeps_join {A} now ch u (ok : prog (world G L) Error A) (f : grouperr → result Error A) :
  keeps ok → keeps (λ w, match AddMember now ch u RoleMember None (w_db w) with
                         | (Ok _, d) => ok (set_db d w)
                         | (Err e, d) => (f e, set_db d w)
                         end).
Proof.
  intros Hok w. pose proof (follows_kept W _ (quiet_AddMember now ch u RoleMember None) (w_db w)) as Hd.
  destruct (AddMember _ _ _ _ _ (w_db w)) as [[a|e] d]; simpl in Hd; [|exact Hd].
  apply (transitivity (y := set_db d w)); [exact Hd|apply Hok].
Qed.
Lemma keeps_ext {A} (m m' : prog (world G L) Error A) : (∀ w, m w = m' w) → keeps m' → keeps m.
Proof. intros Heq Hm w. rewrite Heq. apply Hm. Qed.
Lemma keeps_JoinByInvite now between slug u : (∀ d, kept d (between d)) → keeps (JoinByInvite now between slug u).
Proof.
  intros Hb. unfold JoinByInvite. apply follows_bind; [typeclasses eauto|keep_steps|intros i].
  apply follows_bind; [typeclasses eauto|keep_steps; by apply Hb|intros _]. keep_steps.
  set (joined := MkJoinResult (ri_ChatID i) true false (ri_ChatType i) (ri_Title i)).
  eapply keeps_ext; [|refine (keeps_join now (ri_ChatID i) u (best_effort (CountInviteUse (ri_LinkID i));;
    announce (ri_ChatID i) EventChatMemberAdded (PayloadMember (ri_ChatID i) u None);; mret joined)
    (λ e, match e with GAlreadyMember => Ok joined | GChatFull => Err chat_full_error | _ => Err Internal end) _)].
  - intros w. cbv beta. destruct (AddMember _ _ _ _ _ (w_db w)) as [[?|e] ?]; [reflexivity|]. destruct e; reflexivity.
  - keep_steps.
Qed.
Lemma keeps_JoinPublic now ch u : keeps (JoinPublic now ch u).
Proof.
  unfold JoinPublic. apply follows_bind; [typeclasses eauto|apply keeps_context|intros cx]. keep_steps.
  set (joined := MkJoinResult ch true false (ctx_chat_type cx) "").
  eapply keeps_ext; [|refine (keeps_join now ch u (mret joined)
    (λ e, match e with GAlreadyMember => Ok joined | GChatFull => Err chat_full_error | _ => Err Internal end) _)].
  - intros w. cbv beta. destruct (AddMember _ _ _ _ _ (w_db w)) as [[?|e] ?]; [reflexivity|]. destruct e; reflexivity.
  - keep_steps.
Qed.
Lemma keeps_JoinRequests ch u : keeps (Service_JoinRequests ch u).
Proof. unfold Service_JoinRequests. keep_steps. Qed.
Lemma keeps_ResolveJoin now ch u t b : keeps (Service_ResolveJoinRequest now ch u t b).
Proof. unfold Service_ResolveJoinRequest. keep_steps. Qed.
Lemma keeps_View ch m u : keeps (RecordView ch m u).
Proof. unfold RecordView. keep_steps. apply keeps_repo, kept_View. Qed.
Lemma keeps_Stats ch u l : keeps (Service_PostStats ch u l).
Proof. unfold Service_PostStats. keep_steps. Qed.
Lemma keeps_Roles ch u : keeps (Service_Roles ch u).
Proof. unfold Service_Roles. keep_steps. Qed.
Lemma keeps_CreateRole now id ch u n p r : keeps (Service_CreateRole now id ch u n p r).
Proof. unfold Service_CreateRole. keep_steps. Qed.
Lemma keeps_UpdateRole ch id u n p r : keeps (Service_UpdateRole ch id u n p r).
Proof. unfold Service_UpdateRole. keep_steps. Qed.
Lemma keeps_DeleteRole ch id u : keeps (Service_DeleteRole ch id u).
Proof. unfold Service_DeleteRole. keep_steps. Qed.
Lemma keeps_AssignRole ch t u r : keeps (Service_AssignRole ch t u r).
Proof. unfold Service_AssignRole. keep_steps. Qed.

(** Comments: the mirror is the chat's. *)
Lemma keeps_Link c g u : keeps (Service_LinkDiscussion c g u).
Proof. unfold Service_LinkDiscussion. keep_steps. Qed.
Lemma keeps_Unlink c u : keeps (Service_UnlinkDiscussion c u).
Proof.
  intros w. unfold Service_UnlinkDiscussion. pose proof (keeps_authorize c u EditGroup "You cannot change this channel" w) as Ha.
  destruct (authorize _ _ _ _ w) as [[cx|e] w1]; simpl in Ha; [|exact Ha].
  pose proof (follows_kept W _ (quiet_Unlink c) (w_db w1)) as Hd.
  destruct (UnlinkDiscussion c (w_db w1)) as [[x|e] d]; simpl in Hd; [|destruct e; exact Ha].
  apply (transitivity (y := w1)); [exact Ha|exact Hd].
Qed.
Record mirror_env_kept (env : mirror_env G L) : Prop := {
  mk_before_send : ∀ w, world_kept w (me_before_send env w);
  mk_before : ∀ d, kept d (me_before env d);
  mk_after : ∀ d, kept d (me_after env d);
  mk_before_claim : ∀ w, world_kept w (me_before_claim env w);
  mk_before_withdraw : ∀ w, world_kept w (me_before_withdraw env w);
  mk_before_read : ∀ w, world_kept w (me_before_read env w);
}.
Lemma keeps_mirror now env disc post : mirror_env_kept env → keeps (mirrorPost now env disc post).
Proof.
  intros [E1 E2 E3 E4 E5 E6]. unfold mirrorPost, answer. keep_steps; auto.
  - apply keeps_repo, kept_Send; [done..|]. by left.
  - apply kept_Withdraw.
Qed.
Lemma keeps_seen ch u : keeps (canSeeChannel ch u).
Proof. apply keeps_reads, reads_seen. Qed.
Lemma keeps_thread now env c p u : mirror_env_kept env → keeps (CommentThreadFor now env c p u).
Proof. intros He. unfold CommentThreadFor. keep_steps; first [apply keeps_seen|by apply keeps_mirror]. Qed.
Lemma keeps_Comments now env c p u b l : mirror_env_kept env → keeps (Comments now env c p u b l).
Proof. intros He. unfold Comments. keep_steps. by apply keeps_thread. Qed.
Lemma keeps_join_discussion now ch u : keeps (join_discussion now ch u).
Proof.
  intros w. unfold join_discussion. pose proof (follows_kept W _ (quiet_AddMember now ch u RoleMember None) (w_db w)) as Hd.
  destruct (AddMember _ _ _ _ _ (w_db w)) as [[a|e] d]; simpl in Hd; [exact Hd|]. destruct e; simpl; reflexivity.
Qed.
Lemma keeps_Comment now env id before after c p u i :
  mirror_env_kept env → (∀ d, kept d (before d)) → (∀ d, kept d (after d)) → W u → keeps (Comment now env id before after c p u i).
Proof.
  intros He Hb Ha Hu. unfold Comment. keep_steps; try first [by apply keeps_thread|apply keeps_join_discussion|by apply keeps_Send].
  apply kept_quiet. apply quiet_Count.
Qed.
End services.

(** *** The routes *)


Section requests.
Context `{SpamGuard G} `{MessageLimiter L} `{PayloadCodec} `{TimeText} (topic_json : Topic → json) (lower : string → string) (created : uuid → time).
Variable W : uuid → Prop.
Implicit Types (w : org_world G L) (e : chat_env G L).

(** What others commit during a request is also by those who write. *)
Record chat_env_kept e : Prop := {
  ck_before : ∀ d, words_kept W d (cv_before e d);
  ck_after : ∀ d, words_kept W d (cv_after e d);
  ck_meanwhile : ∀ d, words_kept W d (cv_meanwhile e d);
  ck_copies : ∀ k, let '(_, _, before, after) := cv_copies e k in (∀ d, words_kept W d (before d)) ∧ ∀ d, words_kept W d (after d);
  ck_mirror : mirror_env_kept W (cv_mirror e);
}.
Definition org_kept w w' : Prop := world_kept W (og_world w) (og_world w').
#[local] Instance org_kept_preorder : PreOrder org_kept.
Proof. unfold org_kept, world_kept. split; [intros w; reflexivity|]. intros w1 w2 w3 H12 H23. by etransitivity. Qed.

Lemma kept_in_world {A} (m : prog (world G L) Error A) : follows (world_kept W) m → follows org_kept (in_world m).
Proof. intros Hm w. specialize (Hm (og_world w)). unfold org_kept, in_world. by destruct (m (og_world w)). Qed.
Lemma kept_in_filing {A} (m : db → prog organisedb Error A) : follows org_kept (in_filing (G := G) (L := L) m).
Proof. intros w. unfold org_kept, world_kept, in_filing. simpl. reflexivity. Qed.
Lemma kept_on_org {A} (m : db → prog organisedb orgerr A) h : follows org_kept (on_org (G := G) (L := L) m h).
Proof. intros w. unfold org_kept, world_kept, on_org. destruct (m _ _) as [[a|x] o]; simpl; reflexivity. Qed.
Lemma kept_query_seq name raw : follows org_kept (query_seq name raw).
Proof. unfold query_seq. follow_steps. Qed.
Lemma kept_pathUUID name parsed : follows org_kept (pathUUID name parsed).
Proof. apply follows_or_fail. typeclasses eauto. Qed.
#[local] Hint Resolve kept_query_seq kept_pathUUID kept_in_filing kept_on_org : follows.
(** Readers name the caller. *)
Lemma kept_caller {A} p (k : Principal → prog (org_world G L) Error A) :
  (∀ principal, p = Some principal → follows org_kept (k principal)) → follows org_kept (MustPrincipal p ≫= k).
Proof. intros Hk w. rewrite bind_run. destruct p as [principal|]; [by apply Hk|]. simpl. reflexivity. Qed.
Lemma kept_caller_of {A B} p (m : Principal → prog (org_world G L) Error B) (k : B → prog (org_world G L) Error A) :
  (∀ principal, follows org_kept (m principal)) →
  (∀ principal b w w', p = Some principal → m principal w = (Ok b, w') → follows org_kept (k b)) →
  follows org_kept ((MustPrincipal p ≫= m) ≫= k).
Proof.
  intros Hm Hk w. rewrite bind_run. rewrite (bind_run (MustPrincipal p)). destruct p as [principal|]; simpl; [|reflexivity].
  specialize (Hm principal w) as Hw. destruct (m principal w) as [[b|x] w'] eqn:Hrun; simpl in *; [|done].
  etransitivity; [exact Hw|]. by eapply Hk.
Qed.
Lemma kept_chatFrom {A} p ch (k : Principal * uuid → prog (org_world G L) Error A) :
  (∀ principal id, p = Some principal → follows org_kept (k (principal, id))) → follows org_kept (chatFrom p ch ≫= k).
Proof.
  intros Hk. apply kept_caller_of; [intros principal; unfold pathUUID; follow_steps|].
  intros principal b w w' Hp. destruct ch as [id|]; simpl; [intros [= <- _]; by apply Hk|done].
Qed.
Lemma kept_folderContext {A} p f (k : Principal * uuid → prog (org_world G L) Error A) :
  (∀ principal id, p = Some principal → follows org_kept (k (principal, id))) → follows org_kept (folderContext p f ≫= k).
Proof.
  intros Hk. apply kept_caller_of; [intros principal; unfold pathUUID; follow_steps|].
  intros principal b w w' Hp. destruct f as [id|]; simpl; [intros [= <- _]; by apply Hk|done].
Qed.
Lemma kept_messageFrom {A} p m (k : Principal * uuid → prog (org_world G L) Error A) :
  (∀ principal id, p = Some principal → follows org_kept (k (principal, id))) → follows org_kept (messageFrom p m ≫= k).
Proof.
  intros Hk. apply kept_caller_of; [intros principal; unfold pathUUID; follow_steps|].
  intros principal b w w' Hp. destruct m as [id|]; simpl; [intros [= <- _]; by apply Hk|done].
Qed.
Lemma kept_topicFrom {A} p ch t (k : Principal * uuid * uuid → prog (org_world G L) Error A) :
  (∀ principal id t, p = Some principal → follows org_kept (k (principal, id, t))) → follows org_kept (topicFrom p ch t ≫= k).
Proof.
  intros Hk w. unfold topicFrom, chatFrom. destruct p as [principal|]; [|simpl; reflexivity].
  destruct ch as [id|]; [|simpl; reflexivity]. destruct t as [t|]; [by apply (Hk principal id t)|simpl; reflexivity].
Qed.

Ltac route_step :=
  match goal with
  | |- follows org_kept (MustPrincipal _ ≫= _) => apply kept_caller; intros ? ?
  | |- follows org_kept (chatFrom _ _ ≫= _) => apply kept_chatFrom; intros ? ? ?; cbn beta iota
  | |- follows org_kept (topicFrom _ _ _ ≫= _) => apply kept_topicFrom; intros ? ? ? ?; cbn beta iota
  | |- follows org_kept (folderContext _ _ ≫= _) => apply kept_folderContext; intros ? ? ?; cbn beta iota
  | |- follows org_kept (messageFrom _ _ ≫= _) => apply kept_messageFrom; intros ? ? ?; cbn beta iota
  | |- follows org_kept (in_world _) => apply kept_in_world
  | |- follows org_kept _ => follow_step
  end.
Ltac route := repeat route_step.

#[local] Hint Unfold
  handle_listChats handle_openPrivateChat handle_history handle_clearHistory handle_send handle_markRead handle_setDraft
  handle_typing handle_edit handle_delete handle_react handle_readReceipts handle_sync handle_folders handle_createFolder
  handle_updateFolder handle_deleteFolder handle_setFolderChat handle_removeFolderChat handle_reorderFolders handle_enableForum
  handle_disableForum handle_topics handle_createTopic handle_updateTopic handle_deleteTopic handle_topicHistory
  handle_markTopicRead handle_updateLiveLocation handle_stopLiveLocation handle_forward handle_setPinned handle_pinnedMessages
  handle_setChatFlags handle_setMuted handle_scheduled handle_schedule handle_cancelScheduled handle_create handle_update
  handle_deleteChat handle_leave handle_members handle_addMembers handle_removeMember handle_setRole handle_transferOwnership
  handle_settings handle_updateSettings handle_inviteLinks handle_createInviteLink handle_revokeInviteLink handle_joinByInvite
  handle_joinPublic handle_joinRequests handle_resolveJoinRequest handle_recordView handle_statistics handle_linkDiscussion
  handle_unlinkDiscussion handle_comments handle_comment handle_roles handle_createRole handle_updateRole handle_deleteRole
  handle_assignRole : handlers.
#[local] Hint Resolve
  keeps_context keeps_emit keeps_refuse keeps_announce keeps_publish keeps_broadcast keeps_index keeps_resolveTopic
  keeps_authorize keeps_topics_gate keeps_Send keeps_Edit keeps_Delete keeps_Clear keeps_Private keeps_History keeps_MarkRead
  keeps_Receipts keeps_React keeps_Typing keeps_Draft keeps_Pinned keeps_Muted keeps_PinnedMessages keeps_UpdateLive
  keeps_StopLive keeps_forward_all keeps_Forward keeps_EnableForum keeps_DisableForum keeps_Topics keeps_CreateTopic
  keeps_UpdateTopic keeps_DeleteTopic keeps_TopicHistory keeps_MarkTopicRead keeps_Create keeps_add_one keeps_add_all
  keeps_AddMembers keeps_RemoveMember keeps_Leave keeps_SetRole keeps_Transfer keeps_Members keeps_Update keeps_UpdateSettings
  keeps_Settings keeps_Delete_chat keeps_CreateInvite keeps_InviteLinks keeps_Revoke keeps_JoinByInvite keeps_JoinPublic
  keeps_JoinRequests keeps_ResolveJoin keeps_View keeps_Stats keeps_Roles keeps_CreateRole keeps_UpdateRole keeps_DeleteRole
  keeps_AssignRole keeps_Link keeps_Unlink keeps_mirror keeps_seen keeps_thread keeps_Comments keeps_join_discussion keeps_Comment : keeps.
Lemma kept_dispatch e p r : chat_env_kept e → (∀ principal, p = Some principal → W (prUserID principal)) →
  follows org_kept (dispatch topic_json lower created e p r).
Proof.
  intros [Hb Ha Hm Hc He] Hp. assert (∀ principal, p = Some principal → W (prUserID principal)) as Hw by done.
  destruct r; unfold dispatch, serve; (apply follows_bind; [typeclasses eauto| |intros ?; apply follows_ret; typeclasses eauto]);
    autounfold with handlers; route; auto with keeps.
  - by apply keeps_Send, Hw.
  - by apply keeps_Forward, Hw.
  - apply kept_on_org.
  - apply follows_gets. typeclasses eauto.
  - unfold Service_Schedule. route; first [apply keeps_context|apply kept_on_org].
  - apply kept_on_org.
Qed.
End requests.

(** C39: Nobody is spoken for.  Whatever request of these routes comes in, well formed or not,
    and whatever it answers: a message that is new afterwards was written by the caller, by
    someone else whose own request committed meanwhile, or is the chat's own; every message
    there was is still there with the author it had; and what it says is what it said, or
    nothing any more, unless its author is one of those.  An anonymous request changes
    nothing at all. *)
Theorem nobody_is_spoken_for `{SpamGuard G} `{MessageLimiter L} `{PayloadCodec} `{TimeText} topic_json lower created
    (W : uuid → Prop) (e : chat_env G L) p r w :
  (∀ principal, p = Some principal → W (prUserID principal) ∧ chat_env_kept W e) →
  (∀ id, row_kept W (messages (w_db (og_world w)) !! id)
                    (messages (w_db (og_world (dispatch topic_json lower created e p r w).2)) !! id)) ∧
  (p = None → dispatch topic_json lower created e p r w = (Err (Unauthorized CodeUnauthorized "Authentication is required"), w)).
Proof.
  intros Hp. assert (p = None → dispatch topic_json lower created e p r w = (Err (Unauthorized CodeUnauthorized "Authentication is required"), w)) as Hnone.
  { intros ->. by destruct r. }
  split; [|done]. destruct p as [principal|].
  - destruct (Hp principal eq_refl) as [Hw He]. apply (kept_dispatch topic_json lower created W e (Some principal) r He); [by intros ? [= <-]].
  - rewrite Hnone by done. intros id. simpl. destruct (messages _ !! id); simpl; auto.
Qed.

(** ** Reading a history page by page *)

Section paging.
Context `{SpamGuard G} `{MessageLimiter L}.
Implicit Types (w : org_world G L).

(** A client asks, and while the answer says there is more it asks again from the cursor. *)
Fixpoint read_on (fuel : nat) (p : option Principal) (chatID : uuid) (limit before_seq : string) w : option (list Message) :=
  match fuel with
  | O => None
  | S n =>
      match handle_history p (Some chatID) before_seq "" limit w with
      | (Ok page, w) =>
          if pg_HasMore page then app (pg_items page) <$> read_on n p chatID limit (pg_NextCursor page) w
          else Some (pg_items page)
      | (Err _, _) => None
      end
  end.
Definition cursor (b : option Z) : string := from_option Itoa ""%string b.
Definition int64 (z : Z) : Prop := - 2 ^ 63 ≤ z < 2 ^ 63.

Lemma query_seq_cursor {S} name b (s : S) : from_option int64 True b → query_seq name (cursor b) s = (Ok b, s).
Proof.
  destruct b as [b|]; [|done]. intros Hb. unfold query_seq, cursor. simpl. pose proof (Atoi_Itoa b Hb) as Ha.
  rewrite bool_decide_false; [by rewrite Ha|]. intros Heq. rewrite Heq in Ha. vm_compute in Ha. discriminate.
Qed.
Lemma handle_history_member p ch limit b w cx :
  ChatContextFor ch (prUserID p) (w_db (og_world w)) = (Ok cx, w_db (og_world w)) → ctx_is_member cx = true →
  1 ≤ query_size limit 50 ≤ MaxHistoryPageSize → from_option int64 True b →
  handle_history (Some p) (Some ch) (cursor b) "" limit w =
    (Ok (message_page (query_size limit 50)
       (History (MkHistoryQuery ch (prUserID p) b None (query_size limit 50) None None) (w_db (og_world w)))), w).
Proof.
  intros Hcx Hmem Hlim Hb. unfold handle_history. set (n := query_size limit 50) in *.
  rewrite bind_run. change (chatFrom (Some p) (Some ch) w) with (Ok (E := Error) (p, ch), w). cbn beta iota.
  rewrite bind_run, query_seq_cursor by done. cbn beta iota.
  rewrite bind_run. change (query_seq "after_seq" "" w) with (Ok (E := Error) (@None Z), w). cbn beta iota zeta.
  rewrite bind_run. unfold in_world, Service_History. rewrite bind_run. unfold repo at 1. rewrite Hcx. cbn beta iota. rewrite set_db_same.
  rewrite bind_run. unfold fail_if at 1. rewrite Hmem. cbn beta iota delta [negb].
  replace ((n <=? 0) || (MaxHistoryPageSize <? n)) with false; [by destruct w|].
  symmetry. apply orb_false_iff. rewrite Z.leb_gt, Z.ltb_ge. lia.
Qed.


(** The pages of a history, from any cursor. *)
Lemma read_on_whole fuel p ch limit b w cx :
  store_ok (w_db (og_world w)) → (∀ id r, messages (w_db (og_world w)) !! id = Some r → int64 (r_seq r)) →
  ChatContextFor ch (prUserID p) (w_db (og_world w)) = (Ok cx, w_db (og_world w)) → ctx_is_member cx = true →
  1 ≤ query_size limit 50 ≤ MaxHistoryPageSize → from_option int64 True b →
  let whole := full_history (MkHistoryQuery ch (prUserID p) b None (query_size limit 50) None None) (w_db (og_world w)) in
  (length whole < fuel)%nat → read_on fuel (Some p) ch limit (cursor b) w = Some whole.
Proof.
  intros Hok Hseq Hcx Hmem Hlim. set (n := query_size limit 50) in *. set (d := w_db (og_world w)) in *.
  set (q := MkHistoryQuery ch (prUserID p) None None n None None).
  revert b. induction fuel as [|fuel IH]; intros b Hb whole Hlen; [lia|]. simpl.
  change (MkHistoryQuery ch (prUserID p) b None n None None) with (with_before b q) in whole.
  rewrite (handle_history_member p ch limit b w cx) by done. cbn beta iota.
  change (History _ (w_db (og_world w))) with (take (Z.to_nat n) whole). unfold message_page. cbn [pg_HasMore pg_items pg_NextCursor].
  fold n. destruct (Z.of_nat (length (take (Z.to_nat n) whole)) =? n) eqn:Hfull.
  - apply Z.eqb_eq in Hfull.
    destruct (last (take (Z.to_nat n) whole)) as [m|] eqn:Hlast; [|apply last_None in Hlast; rewrite Hlast in Hfull; simpl in Hfull; lia].
    apply last_Some in Hlast as [l Hl].
    assert (whole = l ++ m :: drop (Z.to_nat n) whole) as Hsplit.
    { rewrite <-(take_drop (Z.to_nat n) whole) at 1. rewrite Hl, <-app_assoc. done. }
    assert (m ∈ whole) as Hm by (rewrite Hsplit; set_solver).
    assert (full_history (with_before (Some (mSeq m)) q) d = drop (Z.to_nat n) whole) as Hrest.
    { unfold whole in Hm. rewrite (full_history_next q b d m Hok Hm). fold whole. rewrite Hsplit at 1.
      apply (filter_after_split (λ m, - mSeq m)). rewrite <-Hsplit. by apply full_history_sorted. }
    assert (int64 (mSeq m)) as Hm64.
    { apply elem_of_full_history in Hm as (r & Hr & _ & ->). simpl. by eapply Hseq. }
    change (Itoa (mSeq m)) with (cursor (Some (mSeq m))). rewrite (IH (Some (mSeq m)) Hm64).
    + simpl. change (full_history _ d) with (full_history (with_before (Some (mSeq m)) q) d). rewrite Hrest. by rewrite take_drop.
    + change (full_history _ d) with (full_history (with_before (Some (mSeq m)) q) d). rewrite Hrest, length_drop.
      apply (f_equal length) in Hsplit. rewrite length_app in Hsplit. simpl in Hsplit. rewrite length_drop in Hsplit. lia.
  - apply Z.eqb_neq in Hfull. rewrite take_ge; [done|]. rewrite length_take in Hfull. lia.
Qed.
End paging.

(** C40: Following the cursors of a history reads all of it.  A member of a chat who asks for
    pages of any size the service serves, and for the page before the last message shown for
    as long as the answer says there is more, is shown every message of the chat that is to be
    shown to them, each once and newest first; one page more than there are messages is
    enough. *)
Theorem paging_reads_the_history `{SpamGuard G} `{MessageLimiter L} fuel p ch limit (w : org_world G L) cx :
  store_ok (w_db (og_world w)) → (∀ id r, messages (w_db (og_world w)) !! id = Some r → int64 (r_seq r)) →
  ChatContextFor ch (prUserID p) (w_db (og_world w)) = (Ok cx, w_db (og_world w)) → ctx_is_member cx = true →
  1 ≤ query_size limit 50 ≤ MaxHistoryPageSize →
  let whole := full_history (MkHistoryQuery ch (prUserID p) None None (query_size limit 50) None None) (w_db (og_world w)) in
  (length whole < fuel)%nat → read_on fuel (Some p) ch limit "" w = Some whole.
Proof. intros. by eapply (read_on_whole fuel p ch limit None w cx). Qed.

(** A size the service does not serve: it serves fifty, and the answer says there is no more. *)
Lemma oversized_page_ends_the_history `{SpamGuard G} `{MessageLimiter L} p ch limit before_seq after_seq (w w' : org_world G L) pg :
  MaxHistoryPageSize < query_size limit 50 →
  handle_history (Some p) (Some ch) before_seq after_seq limit w = (Ok pg, w') →
  pg_HasMore pg = false ∧ (length (pg_items pg) ≤ 50)%nat.
Proof.
  intros Hlim. unfold handle_history. set (n := query_size limit 50) in *. change MaxHistoryPageSize with 200 in Hlim.
  intros (x & w0 & Hc & Hrun)%bind_Ok_inv. simpl in Hc. injection Hc as <- <-. simpl in Hrun.
  apply bind_Ok_inv in Hrun as (b & w1 & _ & (a & w2 & _ & (l & w3 & Hl & Hrun)%bind_Ok_inv)%bind_Ok_inv).
  injection Hrun as <- _. assert (length l ≤ 50)%nat as Hlen.
  { unfold in_world in Hl. destruct (Service_History _ _ _ _ _ (og_world w2)) as [[l0|e] w4] eqn:Hh; [|done]. injection Hl as -> _.
    unfold Service_History in Hh. rewrite (proj2 (Z.ltb_lt MaxHistoryPageSize n)), orb_true_r in Hh by done.
    apply bind_Ok_inv in Hh as (cx & w5 & _ & (u & w6 & _ & Hg)%bind_Ok_inv). injection Hg as <- _.
    unfold History. rewrite length_take. etransitivity; [apply Nat.le_min_l|]. done. }
  simpl. split; [|done]. apply Z.eqb_neq. lia.
Qed.

(** ** Concrete runs: Ben (2) in his private chat with Anna *)

#[local] Existing Instance toy_codec.
#[local] Instance plain_time_text : TimeText := { parse_rfc3339 := Atoi; format_nano := Itoa }.
Definition sample_org : org_world (gmap (string * string) Antispam.Score) limiter_state :=
  MkOrgWorld sample_world (MkOrganiseDb ∅ ∅ ∅ ∅).
Definition ben : Principal := MkPrincipal 2 0 0 "" [] [].
Definition alone : chat_env (gmap (string * string) Antispam.Score) limiter_state :=
  MkChatEnv minute 300 id id id id (λ k, (500 + N.of_nat k, 600 + N.of_nat k, id, id))%N 0 "slug" "" (MkMirrorEnv 0 0 id id id id id id).
Definition hello : sendBody := MkSendBody 79 "" "hello there" RawNil RawNil None [] [] false None.
Definition sent_hello := dispatch (λ _, JNull) id (λ _, 0) alone (Some ben) (Route_send (Some 10%N) (MkBody "" (Ok hello) true)) sample_org.
Lemma alone_kept W : chat_env_kept W alone.
Proof.
  split; [intros d; reflexivity..|intros k; split; intros d; reflexivity|].
  split; intros x; unfold world_kept; reflexivity.
Qed.

Lemma nobody_is_spoken_for_witness :
  from_option (λ r, writes (λ u, u = 2%N) (r_sender_id r)) False (messages (w_db (og_world sent_hello.2)) !! 300%N).
Proof.
  assert (messages (w_db (og_world sample_org)) !! 300%N = None) as Hnew by (vm_compute; reflexivity).
  destruct (nobody_is_spoken_for (λ _, JNull) id (λ _, 0) (λ u, u = 2%N) alone (Some ben)
    (Route_send (Some 10%N) (MkBody "" (Ok hello) true)) sample_org) as [Hrow _].
  - intros principal [= <-]. split; [reflexivity|apply alone_kept].
  - specialize (Hrow 300%N). rewrite Hnew in Hrow. fold sent_hello in Hrow.
    destruct (messages (w_db (og_world sent_hello.2)) !! 300%N) as [r|] eqn:Hr; [exact Hrow|vm_compute in Hr; discriminate].
Defined.
Lemma paging_reads_the_history_witness :
  read_on 3 (Some ben) 10 "1" "" sample_org = Some (full_history (MkHistoryQuery 10 2 None None 1 None None) sample_db) ∧
  (option_map length (read_on 3 (Some ben) 10 "1" "" sample_org) = Some 1%nat).
Proof.
  split; [|vm_compute; reflexivity].
  assert (map_Forall (λ _ r, - 2 ^ 63 ≤ r_seq r ∧ r_seq r < 2 ^ 63) (messages sample_db)) as Hseq.
  { apply (bool_decide_unpack _). vm_compute. exact I. }
  eapply (paging_reads_the_history 3 ben 10 "1" sample_org).
  - apply sample_ok.
  - exact Hseq.
  - vm_compute. reflexivity.
  - vm_compute. reflexivity.
  - split; vm_compute; discriminate.
  - vm_compute. lia.
Defined.
